(* ===== verification/_CoqProject ===== *)
-Q . S2P
Prelude.v
Odict.v
Struct.v
BgpDecision.v
BgpTable.v
BgpAttr.v
BgpOpen.v
BgpPeer.v
BgpAdjIn.v
BgpPrefix.v
BgpWire.v
BgpMsg.v
BgpStream.v
OxmFields.v
OfpMatch.v
OfpActions.v
OfpMessages.v
Circlist.v
Processor.v
Vrrp.v
Bfd.v
Bpdu.v
Stp.v
StpElection.v
StpBridge.v
Network.v
DpSet.v
Tables.v
Datapath.v
Hello.v
AppManager.v
PacketUtils.v
Ofp.v
Lacp.v
PacketBase.v
EtherCodecs.v
IpCodecs.v
Packet.v
Igmp.v
IgmpQuerier.v
IgmpSnooper.v
KeyOrder.v
Topology.v
TopologyLinks.v
TopologyProbes.v
TopologyRegistry.v
