(* ===== verification/Prelude.v ===== *)
(** * Ryu: a verification of its protocol cores

    Ryu is a framework for software-defined networking written in Python: an OpenFlow
    controller, libraries for layer 2 and layer 3 protocols and a BGP speaker.  This
    development models the framework's core (applications and the events between them, the
    OpenFlow channel), the state machines and tables of its libraries and parts of its
    packet library, and proves that they behave as their protocols and their interfaces
    ask; where the code does not, a theorem or an example states what it does instead.

    ** Files

    Shared.
    - [Prelude] (this file): the monad of the models and its laws, record update, weakest
      preconditions, invariants ([preserves], [tracks]), reachability, exceptions.
    - [Odict]: dictionaries with insertion order.  [Struct]: Python's module [struct].
      [Ofp]: constants of OpenFlow and the identity of a datapath.

    Framework ([ryu/base], [ryu/controller], [ryu/ofproto]).
    - [AppManager]: applications, bricks, observers, event queues and the loading of
      applications: [base/app_manager.py], [controller/handler.py], [controller/event.py].
    - [Datapath]: the channel of one switch: the class [Datapath] of [controller.py],
      [ofp_handler.py], [ofproto_protocol.py], [ofproto_parser.py].  [Hello]: the parser of
      hello messages, which feeds its version negotiation.
    - [OxmFields], [OfpMatch], [OfpActions], [OfpMessages]: what OpenFlow 1.3 sends for flows,
      [oxx_fields.py], [oxm_fields.py], [nicira_ext.py], [lib/type_desc.py] and
      [ofproto_v1_3_parser.py]: match fields, matches, actions and instructions, the messages
      flow mod, packet in and packet out, each file over the one before.
    - [DpSet], [Network], [Tables]: the registries [dpset.py], [network.py], [tunnels.py],
      [conf_switch.py], [mac_to_port.py], [mac_to_network.py].
    - [KeyOrder]: the dictionaries of [topology/switches.py] that are ordered by a linked
      list, over the class [KeyOrder] and with the list (on the store of [Circlist]) as its
      instance.  [Topology]: the application [Switches] of that file with its threads;
      [TopologyLinks], [TopologyProbes], [TopologyRegistry]: its theorems.

    Libraries ([ryu/lib]).
    - [Bpdu], [Stp], [StpElection], [StpBridge]: spanning tree, from the bytes of
      [packet/bpdu.py] to the bridges of [stplib.py]: the model, the election of roots and
      ports, the invariant of a bridge.
    - [Bfd]: [bfdlib.py] with what it uses of [packet/bfd.py].
    - [Vrrp]: [ryu/services/protocols/vrrp/router.py] with what it uses of [event.py],
      [packet/vrrp.py] and the event loop.
    - [Lacp]: [packet/slow.py], down to the bytes, and [lacplib.py].
    - [Igmp]: [igmplib.py]; [IgmpQuerier], [IgmpSnooper]: its flow entries.
    - [PacketUtils]: the checksums of [packet/packet_utils.py].
    - [PacketBase]: the interface of headers and their registry, [packet/packet_base.py].
      [EtherCodecs]: Ethernet, VLAN, MPLS, ARP; [IpCodecs]: IPv4, UDP, ICMP, each an instance
      of the interface.  [Packet]: [packet/packet.py], over the interface.

    BGP ([ryu/services/protocols/bgp]).
    - [BgpDecision]: the decision process of [processor.py] and [info_base/base.py].
      [BgpTable]: tables and destinations of [info_base/base.py] and [ipv4.py].
    - [BgpAttr]: path attributes and the translation of AS paths between two and four octets,
      [packet/bgp.py] and [peer.py].  [BgpOpen]: OPEN messages and what a session makes of
      their capabilities, [speaker.py] and [rtconf/neighbors.py].
    - [BgpPeer]: what [peer.py] does with routes: filters, Adj-RIBs, UPDATE and route refresh
      messages in both directions.  [BgpAdjIn]: its theorems on the receiving side.
    - [BgpPrefix], [BgpWire], [BgpMsg]: prefixes, path attributes and messages in bytes,
      [packet/bgp.py].  [BgpStream]: the bytes of a connection cut into messages,
      [speaker.py].
    - [Circlist]: [utils/circlist.py], with the class [LinkedQueue] and its instance.
      [Processor]: the queues of [BgpProcessor], over any [LinkedQueue].

    ** How code is modelled

    A method is a computation [M St Ex Out A] over the record of the object's
    attributes.  [Raise] is a Python exception; it keeps the state and the outputs that
    came before it.  Outputs are the calls that leave the component: packets sent,
    events raised, threads spawned, timers armed.  A [dict] whose order is observable is
    an association list ([Odict]), a [set] a [gset].  Objects that the code shares or
    compares by identity carry an identity ([path_id] in [BgpTable], node numbers in
    [Circlist] and [KeyOrder], switch objects in [Topology]) or live in a store
    ([AppManager]); class attributes that constructors mutate are fields of the application
    state ([Stp]).  Unbounded Python integers are [Z]; the places where the code or a wire
    format fixes a width say so.

    Green threads and timers are operations of a step relation: a timer that runs may
    expire, a thread that sleeps may wake, an event at the head of a queue is
    dispatched.  Reachable states are closed under these operations in any order
    ([reachable]).  In [Igmp] and [Topology] a thread with loops is part of the state and a
    step runs it from one [hub.sleep] or [wait] to the next; in [AppManager] a call that
    would block has no effect and is tried again.  Elsewhere an operation runs to its end
    before the next begins, and [hub.sleep(0)] has no effect.

    Where Python 2 and Python 3 differ, the models follow Python 3, except [Bfd] and
    [Topology], whose code only works with Python 2.

    ** What the theorems show

    - BGP.  The decision process is a lexicographic order on preference keys, the best
      known path is optimal for it ([compute_best_path_refines_order],
      [best_known_path_optimal]); processing a destination installs that path and tells the
      right peers ([process_dest_optimal], [process_dest_outputs]); what a destination holds,
      best path and sent routes included, is of the table's family and of its own prefix
      ([table_invariant]).  The queues refine lists and terminate
      ([append_prepend_refine], [clear_pop_remove_refine], [process_dest_refines],
      [process_rtdest_all]).  Speakers agree on what their OPEN messages negotiate
      ([open_negotiates]); AS paths survive speakers with two octets ([as4_path_restored],
      [as_path_reconstructed]); the tables are given what the neighbor announces and the
      filters let through, if those do not ask for the end of a path
      ([learned_is_filtered_rib], [update_applied]).  Messages survive writing and reading, and
      those of at most 4096 bytes reach the other speaker's handler however the stream is cut,
      as far as AS paths and aggregators are not taken for those of the other size
      ([message_roundtrip], [messages_delivered], [segments_do_not_matter]); that size is
      guessed ([four_octet_path_read]).
      Faults: [AdjInFaults], [PrefixFaults], [WireFaults], [MessageFaults],
      [loops_not_refused], [stale_withdrawal_removes_later_path],
      [queued_announcements_both_survive], [delete_dest_by_nlri_raises],
      [missing_local_pref_cycle].
    - Applications.  Events are taken once and in order and given to the handlers of their
      class, over the list as it is while they run (a handler that unregisters itself makes the
      loop skip the next one, [self_unregister_skips_next]); stopping an application drains its queue, the dictionaries of
      bricks agree, removing an application forgets it, applications are loaded with all they
      need unless two contexts conflict or an import raises, events reach their observers
      ([events_delivered_in_order], [stop_drains_queue], [bricks_consistent],
      [uninstantiate_forgets], [load_apps_complete], [update_bricks_routes]).
    - OpenFlow channel.  What the receive loop does does not depend on how the stream is cut,
      messages survive it, the phases of a connection follow each other with at most one echo
      request above the limit unanswered, hello messages negotiate the best common version or
      raise [TypeError] where there is none, the handshake completes, a silent switch is
      disconnected ([recv_loop_ignores_segments], [messages_survive_stream],
      [channel_phases], [hello_negotiates], [handshake_completes], [echo_watchdog]); hello
      messages survive encoding and their parser ends unless an element has length zero
      ([hello_roundtrip], [hello_fuel_suffices], [hello_zero_length_hangs]).
    - OpenFlow 1.3.  Flow entries survive encoding; matches have a canonical form and survive
      encoding, one that is cut off leaves exactly the fields that have arrived and the bytes
      after them; packets go out behind
      their actions and come in without padding ([flow_mod_roundtrip], [match_canonical],
      [match_roundtrip], [match_truncated], [packet_out_written], [packet_in_read]).  Faults:
      [MatchFaults], [ActionFaults], [OfpMessageFaults].
    - Registries.  Networks implement one relation of ports, networks and addresses, the
      observers of switches and ports stay in sync, tunnel keys are one to one
      ([network_refines_registry], [network_well_formed], [queries_follow_registry],
      [observers_stay_in_sync], [tunnel_keys_one_to_one]).
    - Topology.  The ordered dictionaries behave as association lists
      ([port_data_refines]); an LLDP packet records its link, the observers of links know
      the recorded ones, the search for switches to probe misses none
      ([link_learned], [observed_links_current], [observed_links_exact],
      [probes_complete]).  [links_never_expire] and [TopologyExamples] state faults.
    - Spanning tree.  BPDUs survive encoding; their comparison is a lexicographic order,
      recalculation elects the best root port; a bridge keeps its invariant, ports progress,
      a better BPDU wins ([bpdu_roundtrip], [compare_bpdu_info_order],
      [recalculate_elects], [stp_invariant], [port_reaches_forwarding], [link_election]).
      [link_up_unblocks] and [port_config_ignored] state two faults.
    - BFD.  Reception implements RFC 5880 section 6.8.6, sessions of any parameters keep their
      invariant and rates, come up and detect failure, replays are rejected ([recv_follows_rfc],
      [session_invariant], [handshake_up], [detection_timeout], [replay_rejected],
      [bfd_packet_admission], [add_session_unique], [sent_packets],
      [length_check_never_fires]).
    - VRRP.  With configurations whose advertisements serialize, a router always has the timer
      its state needs and no handler raises; of two masters one yields
      ([vrrp_timers_live], [vrrp_handlers_return],
      [two_masters_one_yields], [higher_priority_waits_less], [shutdown_releases]);
      [v3_preempts_better_master] is a fault.
    - LACP.  Packets survive encoding, any bytes are parsed or refused, the slaves' states are
      those reported, packets are answered ([lacp_roundtrip], [slow_parser_total],
      [slaves_in_sync], [lacp_answered]).
    - IGMP.  The flow entries that the commands sent amount to are those of the members, for a
      mode that is set once and reports of other ports than the server's, and a round keeps the
      ports that answered ([querier_entries], [snooper_entries], [round_keeps_reporters]).
    - Packets.  A stack of headers survives encoding and decoding, any bytes are decoded, are
      refused by the checks of a LACP packet or lead to a class outside the model
      ([packet_roundtrip], [parse_total]), what is sent verifies ([ipv4_verifies],
      [udp_verifies]).  The examples at the end of [Packet] are faults.
    - Checksums.  They are those of RFC 1071 and ISO 8473 and verify
      ([checksum_is_rfc1071], [checksum_verifies], [fletcher_verifies]).

    ** Bounds

    Recursion is structural except for these loops, which take fuel: clearing a circular list
    needs its length ([clear_pop_remove_refine]); a round over the destination queue its work
    units ([process_dest_refines]); emptying the route target queue what it and the destinations
    enqueued meanwhile ask for ([process_rtdest_all]); [add_bfd_session] the draws up to the
    first fresh pair ([add_session_unique]); the receive loop as many turns as the buffer has
    bytes ([recv_loop_ignores_segments]); the elements of a hello message its length
    ([hello_fuel_suffices]); the loading of applications the size of the tree of what they
    require ([load_apps_complete]); the Fletcher checksum the length of its data
    ([fletcher_verifies]); the decoder of packets two steps for each byte and two more
    ([parse_total]); the decoders of BGP lists the length of what they read
    ([message_roundtrip]) and the loop over received bytes one turn more than there are bytes
    ([messages_delivered]); the decoders of a match its length ([parse_fields_fuel],
    [parser_old_raises]) and those of actions and instructions the length of what they read,
    unless an element has length zero ([parse_actions_fuel], [zero_length_hangs]); the iteration
    over a linked list of keys the number of nodes ever made ([port_data_refines]).

    ** Not modelled

    Third-party code is a parameter ([netaddr], [hashlib] and [random] in [Bfd], the byte order
    of the host in [PacketUtils]); so are the message parsers of the OpenFlow versions in
    [Datapath], the texts of addresses in [OxmFields] and the bodies of Nicira's actions in
    [OfpActions] (interfaces with laws).  MAC and IP addresses are integers where nothing
    depends on their text.  Log output, sockets and other parts of Ryu are outside: the state
    machine, connections and timers of BGP sessions, the tables of the other address families
    and VRFs, the routes of EVPN and flow specifications (their codecs are a parameter of
    [BgpPrefix] with laws); the other message classes and versions of OpenFlow, matches built
    through the interface with wildcards, and the conversions of [ofctl]; the other classes of
    headers, which stand behind the interface of [Packet] (what GRE and Geneve register while
    they decode is a parameter); VRRP monitors; clients of OVSDB, Zebra, NETCONF; applications
    and commands.  The components of the manifest list them.  Threads of a port object that
    [Bridge.port_add] replaces are not followed.

    ** This file

    A computation [m : M St Ex Out A] maps a state to the list of outputs it emitted,
    the new state and either the value it returned or the exception it raised.  The
    file also holds the record update notation [r <| f := v |>], the predicate
    transformer [wp] with its rules, the judgements [preserves] and [tracks] for invariants,
    the reachability relation of the state machines [reachable] and the exceptions. *)

From stdpp Require Import base list gmap strings.
From Stdlib Require Import ZArith Lia.

#[global] Set Default Goal Selector "!".

Open Scope Z_scope.

(** ** Record update *)

(** [Eta R] records the eta expansion of the record type [R]; a setter for a
    field is obtained from it by abstracting the projection.  Both are boxed, so
    that instance search never builds one from a record of the context. *)
Record eta_box (R : Type) := EtaBox { eta_fun : R → R }.
Arguments EtaBox {R} _.
Class Eta (R : Type) := eta_of : eta_box R.

Record setter_box (R T : Type) := SetterBox { setter_fun : (T → T) → R → R }.
Arguments SetterBox {R T} _.
Arguments setter_fun {R T} _.
Class Setter {R T : Type} (proj : R → T) := setter_of : setter_box R T.

Definition set_field {R T} (proj : R → T) {S : Setter proj} : (T → T) → R → R :=
  setter_fun S.
Arguments set_field {R T} proj {S} /.

Ltac solve_setter :=
  match goal with
  | |- @Setter ?R ?T ?proj =>
      let i := constr:(_ : Eta R) in
      match eval red in i with
      | EtaBox ?e =>
          match eval pattern proj in e with
          | ?g _ => let b := eval cbv beta in
                      (fun (f : T → T) (r : R) => g (fun r' => f (proj r')) r) in
                    exact (SetterBox b)
          end
      end
  end.

#[export] Hint Extern 1 (Setter _) => solve_setter : typeclass_instances.

Declare Scope record_scope.
Delimit Scope record_scope with rec.
Open Scope record_scope.

Notation "r <| f := v |>" := (set_field f (λ _, v) r)
  (at level 12, f at next level, left associativity) : record_scope.
Notation "r <| f ::= g |>" := (set_field f g r)
  (at level 12, f at next level, left associativity) : record_scope.

(** ** State, exceptions and outputs *)

Inductive outcome (Ex A : Type) :=
| Ret (a : A)
| Raise (e : Ex).
Arguments Ret {Ex A} _.
Arguments Raise {Ex A} _.

Definition M (St Ex Out A : Type) : Type := St → list Out * St * outcome Ex A.

Section monad.
Context {St Ex Out : Type}.

#[global] Instance M_ret : MRet (M St Ex Out) :=
  λ A a s, ([], s, Ret a).

#[global] Instance M_bind : MBind (M St Ex Out) :=
  λ A B k m s,
    let '(o1, s1, r) := m s in
    match r with
    | Raise e => (o1, s1, Raise e)
    | Ret a => let '(o2, s2, r2) := k a s1 in (o1 ++ o2, s2, r2)
    end.

Definition raise {A} (e : Ex) : M St Ex Out A := λ s, ([], s, Raise e).
Definition get_st : M St Ex Out St := λ s, ([], s, Ret s).
Definition gets {A} (f : St → A) : M St Ex Out A := λ s, ([], s, Ret (f s)).
Definition put_st (s' : St) : M St Ex Out unit := λ _, ([], s', Ret tt).
Definition modify (f : St → St) : M St Ex Out unit := λ s, ([], f s, Ret tt).
Definition emit (o : Out) : M St Ex Out unit := λ s, ([o], s, Ret tt).
Definition emits (os : list Out) : M St Ex Out unit := λ s, (os, s, Ret tt).
Definition done_ : M St Ex Out unit := mret tt.

(** [when b m] is Python's [if b: m]. *)
Definition when (b : bool) (m : M St Ex Out unit) : M St Ex Out unit :=
  if b then m else mret tt.

(** [assert_ b e] is [assert b], [e] standing for [AssertionError]. *)
Definition assert_ (b : bool) (e : Ex) : M St Ex Out unit :=
  if b then mret tt else raise e.

(** [try_with m h] is [try: m except ...: h]; [h e = None] lets [e] through. *)
Definition try_with {A} (m : M St Ex Out A) (h : Ex → option (M St Ex Out A))
  : M St Ex Out A := λ s,
    let '(o1, s1, r) := m s in
    match r with
    | Ret a => (o1, s1, Ret a)
    | Raise e =>
        match h e with
        | None => (o1, s1, Raise e)
        | Some m' => let '(o2, s2, r2) := m' s1 in (o1 ++ o2, s2, r2)
        end
    end.

(** [for x in l: f x] *)
Fixpoint for_each {B} (l : list B) (f : B → M St Ex Out unit) : M St Ex Out unit :=
  match l with
  | [] => mret tt
  | x :: l' => f x ;; for_each l' f
  end.

(** The value of a subscript, [KeyError] and the like when it is absent. *)
Definition or_raise {A} (o : option A) (e : Ex) : M St Ex Out A :=
  match o with Some a => mret a | None => raise e end.

(** The attributes of an object that a part of it reads and writes: [m] runs on the
    field [proj] of the state. *)
Definition within {T A} (proj : St → T) {S : Setter proj} (m : M T Ex Out A)
  : M St Ex Out A := λ s,
    let '(o, t, r) := m (proj s) in (o, s <| proj := t |>, r).

Definition outputs {A} (m : M St Ex Out A) (s : St) : list Out := (m s).1.1.
Definition final {A} (m : M St Ex Out A) (s : St) : St := (m s).1.2.
Definition result {A} (m : M St Ex Out A) (s : St) : outcome Ex A := (m s).2.
End monad.

(** ** Laws *)

Section laws.
Context {St Ex Out : Type}.

Lemma bind_assoc {A B C} (m : M St Ex Out A) (f : A → M St Ex Out B) (g : B → M St Ex Out C) s :
  ((m ≫= f) ≫= g) s = (m ≫= λ a, f a ≫= g) s.
Proof.
  unfold mbind, M_bind. destruct (m s) as [[o1 s1] [a|e]]; [|done].
  destruct (f a s1) as [[o2 s2] [b|e]]; [|done].
  destruct (g b s2) as [[o3 s3] r]. by rewrite app_assoc.
Qed.

Lemma bind_ext {A B} (m : M St Ex Out A) (f g : A → M St Ex Out B) s :
  (∀ a s', f a s' = g a s') → (m ≫= f) s = (m ≫= g) s.
Proof.
  intros H. unfold mbind, M_bind. destruct (m s) as [[o1 s1] [a|e]]; [|done]. by rewrite H.
Qed.

Lemma bind_ret_r {A} (m : M St Ex Out A) s : (m ≫= λ a, mret a) s = m s.
Proof.
  unfold mbind, M_bind. destruct (m s) as [[o1 s1] [a|e]]; [|done]. cbn. by rewrite app_nil_r.
Qed.

Lemma ret_bind {A B} (a : A) (k : A → M St Ex Out B) s : (mret a ≫= k) s = k a s.
Proof. unfold mbind, M_bind, mret, M_ret. by destruct (k a s) as [[? ?] ?]. Qed.

(** A step whose run is known. *)
Lemma run_bind {A B} (m : M St Ex Out A) (k : A → M St Ex Out B) s o s' a :
  m s = (o, s', Ret a) →
  (m ≫= k) s = let '(o2, s2, r2) := k a s' in (o ++ o2, s2, r2).
Proof. unfold mbind, M_bind. by intros ->. Qed.

Lemma gets_bind {A B} (f : St → A) (k : A → M St Ex Out B) s : (gets f ≫= k) s = k (f s) s.
Proof. unfold mbind, M_bind, gets. by destruct (k (f s) s) as [[? ?] ?]. Qed.

Lemma get_bind {B} (k : St → M St Ex Out B) s : (get_st ≫= k) s = k s s.
Proof. unfold mbind, M_bind, get_st. by destruct (k s s) as [[? ?] ?]. Qed.

Lemma modify_bind {B} (f : St → St) (k : () → M St Ex Out B) s : (modify f ≫= k) s = k tt (f s).
Proof. unfold mbind, M_bind, modify. by destruct (k tt (f s)) as [[? ?] ?]. Qed.

Lemma emit_bind {B} (o : Out) (k : () → M St Ex Out B) s :
  (emit o ≫= k) s = let '(o2, s2, r2) := k tt s in (o :: o2, s2, r2).
Proof. unfold mbind, M_bind, emit. by destruct (k tt s) as [[? ?] ?]. Qed.

Lemma raise_bind {A B} (e : Ex) (k : A → M St Ex Out B) s : (raise e ≫= k) s = ([], s, Raise e).
Proof. done. Qed.

(** A condition that does not hold is skipped. *)
Lemma when_false_bind {B} (m : M St Ex Out ()) (k : () → M St Ex Out B) s :
  (when false m ≫= k) s = k tt s.
Proof. apply ret_bind. Qed.

(** Two loops whose turns agree. *)
Lemma for_each_ext {B} (l : list B) (f g : B → M St Ex Out unit) s :
  (∀ x s, f x s = g x s) → for_each l f s = for_each l g s.
Proof.
  intros H. revert s. induction l as [|x l IH]; intros s; [done|]. cbn [for_each].
  unfold mbind, M_bind. rewrite H. destruct (g x s) as [[o s'] [?|e]]; [|done]. by rewrite IH.
Qed.

(** A condition around a step that does not change the state. *)
Lemma when_run (b : bool) (m : M St Ex Out ()) s o :
  m s = (o, s, Ret tt) → when b m s = (if b then o else [], s, Ret tt).
Proof. by destruct b. Qed.

Lemma for_each_app {B} (l1 l2 : list B) (f : B → M St Ex Out unit) s :
  for_each (l1 ++ l2) f s = (for_each l1 f ;; for_each l2 f) s.
Proof.
  revert s. induction l1 as [|x l1 IH]; intros s; cbn [for_each app].
  - unfold mbind, M_bind. cbn. by destruct (for_each l2 f s) as [[? ?] ?].
  - rewrite bind_assoc. apply bind_ext. intros _ s'. apply IH.
Qed.
End laws.

(** ** Weakest preconditions *)

Section wp.
Context {St Ex Out : Type}.
Implicit Types (s : St).

Definition wp {A} (m : M St Ex Out A) (s : St)
    (Q : list Out → St → outcome Ex A → Prop) : Prop :=
  Q (outputs m s) (final m s) (result m s).

Lemma wp_ret {A} (a : A) s Q : Q [] s (Ret a) → wp (mret a) s Q.
Proof. done. Qed.

Lemma wp_raise {A} (e : Ex) s (Q : list Out → St → outcome Ex A → Prop) :
  Q [] s (Raise e) → wp (raise e) s Q.
Proof. done. Qed.

Lemma wp_bind {A B} (m : M St Ex Out A) (k : A → M St Ex Out B) s Q :
  wp m s (λ o1 s1 r,
    match r with
    | Ret a => wp (k a) s1 (λ o2 s2 r2, Q (o1 ++ o2) s2 r2)
    | Raise e => Q o1 s1 (Raise e)
    end) →
  wp (m ≫= k) s Q.
Proof.
  unfold wp, outputs, final, result, mbind, M_bind.
  destruct (m s) as [[o1 s1] [a|e]]; cbn; [|done].
  by destruct (k a s1) as [[o2 s2] r2].
Qed.

Lemma wp_modify (f : St → St) s (Q : list Out → St → outcome Ex unit → Prop) :
  Q [] (f s) (Ret tt) → wp (modify f) s Q.
Proof. done. Qed.

Lemma wp_gets {A} (f : St → A) s (Q : list Out → St → outcome Ex A → Prop) :
  Q [] s (Ret (f s)) → wp (gets f) s Q.
Proof. done. Qed.

Lemma wp_get s (Q : list Out → St → outcome Ex St → Prop) :
  Q [] s (Ret s) → wp get_st s Q.
Proof. done. Qed.

Lemma wp_emit o s (Q : list Out → St → outcome Ex unit → Prop) :
  Q [o] s (Ret tt) → wp (emit o) s Q.
Proof. done. Qed.

Lemma wp_lift {A} (m : outcome Ex A) s (Q : list Out → St → outcome Ex A → Prop) :
  Q [] s m → wp (λ s, ([], s, m)) s Q.
Proof. done. Qed.

Lemma wp_emits os s (Q : list Out → St → outcome Ex unit → Prop) :
  Q os s (Ret tt) → wp (emits os) s Q.
Proof. done. Qed.

Lemma wp_or_raise {A} (o : option A) (e : Ex) s (Q : list Out → St → outcome Ex A → Prop) :
  Q [] s (match o with Some a => Ret a | None => Raise e end) → wp (or_raise o e) s Q.
Proof. by destruct o. Qed.

Lemma wp_try {A} (m : M St Ex Out A) h s (Q : list Out → St → outcome Ex A → Prop) :
  wp m s (λ o1 s1 r,
    match r with
    | Ret a => Q o1 s1 (Ret a)
    | Raise e =>
        match h e with
        | None => Q o1 s1 (Raise e)
        | Some m' => wp m' s1 (λ o2 s2 r2, Q (o1 ++ o2) s2 r2)
        end
    end) →
  wp (try_with m h) s Q.
Proof.
  unfold wp, outputs, final, result, try_with.
  destruct (m s) as [[o1 s1] [a|e]]; cbn; [done|].
  destruct (h e) as [m'|]; [|done]. by destruct (m' s1) as [[o2 s2] r2].
Qed.

(** A computation whose run is known. *)
Lemma wp_run {A} (m : M St Ex Out A) s o s' r Q :
  m s = (o, s', r) → Q o s' r → wp m s Q.
Proof. unfold wp, outputs, final, result. by intros ->. Qed.

Lemma wp_eq {A} (m : M St Ex Out A) s x (Q : list Out → St → outcome Ex A → Prop) :
  m s = x → Q x.1.1 x.1.2 x.2 → wp m s Q.
Proof. unfold wp, outputs, final, result. by intros ->. Qed.

Lemma wp_unfold {A} (m : M St Ex Out A) s Q :
  wp m s Q → Q (outputs m s) (final m s) (result m s).
Proof. done. Qed.

Lemma wp_mono {A} (m : M St Ex Out A) s (Q Q' : list Out → St → outcome Ex A → Prop) :
  wp m s Q → (∀ o s' r, Q o s' r → Q' o s' r) → wp m s Q'.
Proof. unfold wp; auto. Qed.
End wp.

Lemma wp_within {St T Ex Out A} (proj : St → T) {S : Setter proj} (m : M T Ex Out A) s
    (Q : list Out → St → outcome Ex A → Prop) :
  wp m (proj s) (λ o t r, Q o (s <| proj := t |>) r) → wp (within proj m) s Q.
Proof.
  unfold wp, outputs, final, result, within. by destruct (m (proj s)) as [[o t] r].
Qed.

(** One step of a symbolic run; branches on conditions. *)
Ltac wp_step :=
  match goal with
  | |- wp (_ ≫= _) _ _ => apply wp_bind
  | |- wp (mret _) _ _ => apply wp_ret; cbn beta iota
  | |- wp (raise _) _ _ => apply wp_raise; cbn beta iota
  | |- wp (modify _) _ _ => apply wp_modify; cbn beta iota
  | |- wp (gets _) _ _ => apply wp_gets; cbn beta iota
  | |- wp get_st _ _ => apply wp_get; cbn beta iota
  | |- wp (emit _) _ _ => apply wp_emit; cbn beta iota
  | |- wp (when ?b _) _ _ => destruct b eqn:?; unfold when
  | |- wp (assert_ ?b _) _ _ => destruct b eqn:?; unfold assert_
  | |- wp (if ?b then _ else _) _ _ => destruct b eqn:?
  end.

(** A loop whose turns do not fail: what a turn establishes for its element, and the other
    turns keep because they only go forward in [G], holds of every element at the end. *)
Lemma for_each_holds {St Ex Out B} (I : St → Prop) (P : B → St → Prop) (G : St → St → Prop)
    `{!PreOrder G} (l : list B) (f : B → M St Ex Out unit) s :
  (∀ x s s', P x s → G s s' → P x s') →
  (∀ x s, x ∈ l → I s → ∃ o s', f x s = (o, s', Ret tt) ∧ I s' ∧ P x s' ∧ G s s') →
  I s →
  ∃ o s', for_each l f s = (o, s', Ret tt) ∧ I s' ∧ (∀ x, x ∈ l → P x s') ∧ G s s'.
Proof.
  intros HP. revert s. induction l as [|x l IH]; intros s Hf Hs.
  { exists [], s. split_and!; try done. intros x Hx. by apply not_elem_of_nil in Hx. }
  destruct (Hf x s (list_elem_of_here _ _) Hs) as (o1 & s1 & E1 & H1 & Px & Hk1).
  destruct (IH s1) as (o2 & s2 & E2 & H2 & Hall & Hk2); [|done|].
  { intros y s0 Hy. apply Hf. by apply list_elem_of_further. }
  exists (o1 ++ o2), s2. cbn [for_each]. unfold mbind, M_bind. rewrite E1, E2.
  split_and!; [done|done| |by etransitivity]. intros y [->|Hy]%elem_of_cons; eauto.
Qed.

(** A loop whose turns do not fail does not fail. *)
Lemma for_each_returns {St Ex Out B} (l : list B) (f : B → M St Ex Out unit) s :
  (∀ x s, result (f x) s = Ret tt) → result (for_each l f) s = Ret tt.
Proof.
  intros Hf. revert s. induction l as [|x l IH]; intros s; [done|]. cbn [for_each].
  specialize (Hf x s). unfold result, mbind, M_bind in *.
  destruct (f x s) as [[o1 s1] r1]. cbn in Hf. subst. specialize (IH s1).
  by destruct (for_each l f s1) as [[o2 s2] r2].
Qed.

(** ** Invariants *)

Section preserves.
Context {St Ex Out : Type}.
Implicit Types (I : St → Prop).

(** Whatever [m] does, an exception included, it keeps the invariant. *)
Definition preserves I {A} (m : M St Ex Out A) : Prop :=
  ∀ s, I s → I (final m s).

Lemma preserves_ret I {A} (a : A) : preserves I (mret a : M St Ex Out A).
Proof. by intros s Hs. Qed.

Lemma preserves_raise I {A} (e : Ex) : preserves I (raise e : M St Ex Out A).
Proof. by intros s Hs. Qed.

Lemma preserves_gets I {A} (f : St → A) : preserves I (gets f : M St Ex Out A).
Proof. by intros s Hs. Qed.

Lemma preserves_get I : preserves I (get_st : M St Ex Out St).
Proof. by intros s Hs. Qed.

Lemma preserves_emit I o : preserves I (emit o : M St Ex Out unit).
Proof. by intros s Hs. Qed.

Lemma preserves_emits I os : preserves I (emits os : M St Ex Out unit).
Proof. by intros s Hs. Qed.

Lemma preserves_modify I f :
  (∀ s, I s → I (f s)) → preserves I (modify f : M St Ex Out unit).
Proof. intros H s Hs. by apply H. Qed.

Lemma preserves_bind I {A B} (m : M St Ex Out A) (k : A → M St Ex Out B) :
  preserves I m → (∀ a, preserves I (k a)) → preserves I (m ≫= k).
Proof.
  intros Hm Hk s Hs. specialize (Hm s Hs).
  unfold final, mbind, M_bind in *.
  destruct (m s) as [[o1 s1] [a|e]]; cbn in *; [|done].
  specialize (Hk a s1 Hm). unfold final in Hk.
  by destruct (k a s1) as [[o2 s2] r2].
Qed.

(** The state read by [get_st] may be used to establish the invariant. *)
Lemma preserves_get_bind I {B} (k : St → M St Ex Out B) :
  (∀ s, I s → I (final (k s) s)) → preserves I (get_st ≫= k).
Proof.
  intros H s Hs. specialize (H s Hs).
  unfold final, mbind, M_bind, get_st in *. cbn.
  by destruct (k s s) as [[o2 s2] r2].
Qed.

Lemma preserves_gets_bind I {A B} (f : St → A) (k : A → M St Ex Out B) :
  (∀ s, I s → preserves I (k (f s))) → preserves I (gets f ≫= k).
Proof.
  intros H s Hs. specialize (H s Hs s Hs).
  unfold final, mbind, M_bind, gets in *.
  by destruct (k (f s) s) as [[o2 s2] r2].
Qed.

Lemma preserves_when I b (m : M St Ex Out unit) :
  preserves I m → preserves I (when b m).
Proof. destruct b; cbn; auto using preserves_ret. Qed.

Lemma preserves_assert I b e : preserves I (assert_ b e : M St Ex Out unit).
Proof. destruct b; cbn; auto using preserves_ret, preserves_raise. Qed.

Lemma preserves_or_raise I {A} (o : option A) e :
  preserves I (or_raise o e : M St Ex Out A).
Proof. destruct o; cbn; auto using preserves_ret, preserves_raise. Qed.

Lemma preserves_for_each I {B} (l : list B) (f : B → M St Ex Out unit) :
  (∀ x, x ∈ l → preserves I (f x)) → preserves I (for_each l f).
Proof.
  induction l as [|x l IH]; intros H; cbn; [apply preserves_ret|].
  apply preserves_bind; [apply H; set_solver|].
  intros _. apply IH. intros y Hy. apply H. set_solver.
Qed.

Lemma preserves_try I {A} (m : M St Ex Out A) h :
  preserves I m → (∀ e m', h e = Some m' → preserves I m') →
  preserves I (try_with m h).
Proof.
  intros Hm Hh s Hs. specialize (Hm s Hs).
  unfold final, try_with in *.
  destruct (m s) as [[o1 s1] [a|e]]; cbn in *; [done|].
  destruct (h e) as [m'|] eqn:He; [|done].
  specialize (Hh e m' He s1 Hm). unfold final in Hh.
  by destruct (m' s1) as [[o2 s2] r2].
Qed.
End preserves.

(** ** What the outputs tell *)

Section tracks.
Context {St Ex Out V : Type} (see : V → Out → V) (J : St → V → Prop).

(** Whatever [m] does, an exception included, keeps a relation between the state and what an
    observer of the outputs has seen. *)
Definition tracks {A} (m : M St Ex Out A) : Prop :=
  ∀ s v, J s v → J (final m s) (foldl see v (outputs m s)).

Lemma tracks_ret {A} (a : A) : tracks (mret a).
Proof. by intros s v H. Qed.

Lemma tracks_raise {A} (e : Ex) : tracks (raise e : M St Ex Out A).
Proof. by intros s v H. Qed.

Lemma tracks_gets {A} (f : St → A) : tracks (gets f).
Proof. by intros s v H. Qed.

Lemma tracks_modify f : (∀ s v, J s v → J (f s) v) → tracks (modify f).
Proof. intros H s v Hs. by apply H. Qed.

Lemma tracks_emit o : (∀ s v, J s v → J s (see v o)) → tracks (emit o).
Proof. intros H s v Hs. by apply H. Qed.

Lemma tracks_or_raise {A} (o : option A) e : tracks (or_raise o e).
Proof. by destruct o; intros s v H. Qed.

Lemma tracks_bind {A B} (m : M St Ex Out A) (k : A → M St Ex Out B) :
  tracks m → (∀ a, tracks (k a)) → tracks (m ≫= k).
Proof.
  intros Hm Hk s v Hs. specialize (Hm s v Hs). unfold final, outputs, mbind, M_bind in *.
  destruct (m s) as [[o1 s1] [a|e]]; cbn in *; [|done].
  specialize (Hk a s1 _ Hm). unfold final, outputs in Hk.
  destruct (k a s1) as [[o2 s2] r2]. cbn in *. by rewrite foldl_app.
Qed.

Lemma tracks_get_bind {B} (k : St → M St Ex Out B) :
  (∀ s v, J s v → J (final (k s) s) (foldl see v (outputs (k s) s))) → tracks (get_st ≫= k).
Proof. intros H s v Hs. unfold final, outputs. rewrite get_bind. by apply H. Qed.

Lemma tracks_when b (m : M St Ex Out unit) : tracks m → tracks (when b m).
Proof. destruct b; cbn; auto using tracks_ret. Qed.

Lemma tracks_for_each {B} (l : list B) (f : B → M St Ex Out unit) :
  (∀ x, tracks (f x)) → tracks (for_each l f).
Proof.
  intros H. induction l as [|x l IH]; cbn; [apply tracks_ret|]. by apply tracks_bind.
Qed.

Lemma tracks_try {A} (m : M St Ex Out A) h :
  tracks m → (∀ e m', h e = Some m' → tracks m') → tracks (try_with m h).
Proof.
  intros Hm Hh s v Hs. specialize (Hm s v Hs). unfold final, outputs, try_with in *.
  destruct (m s) as [[o1 s1] [a|e]]; cbn in *; [done|].
  destruct (h e) as [m'|] eqn:He; [|done].
  specialize (Hh e m' He s1 _ Hm). unfold final, outputs in Hh.
  destruct (m' s1) as [[o2 s2] r2]. cbn in *. by rewrite foldl_app.
Qed.
End tracks.

Create HintDb pres.
#[export] Hint Resolve preserves_ret preserves_raise preserves_gets preserves_get
  preserves_emit preserves_emits preserves_assert preserves_or_raise : pres.

(** Discharges [preserves I m] down to the assignments of [m]. *)
Ltac preserve_step :=
  match goal with
  | |- preserves _ (_ ≫= _) => apply preserves_bind; [|intros ?]
  | |- preserves _ (when _ _) => apply preserves_when
  | |- preserves _ (for_each _ _) => apply preserves_for_each; intros ? ?
  | |- preserves _ (modify _) => apply preserves_modify; intros ? ?
  | |- preserves _ _ => solve [eauto with pres]
  | |- preserves _ (match ?x with _ => _ end) => destruct x eqn:?
  end.
Ltac preserve := repeat preserve_step.

(** ** Reachability *)

Section reach.
Context {St Op : Type} (init : St → Prop) (step : St → Op → St → Prop).

Inductive reachable : St → Prop :=
| reach_init s : init s → reachable s
| reach_step s op s' : reachable s → step s op s' → reachable s'.

Lemma reachable_inv (I : St → Prop) :
  (∀ s, init s → I s) →
  (∀ s op s', I s → step s op s' → I s') →
  ∀ s, reachable s → I s.
Proof. intros Hi Hs s Hr. induction Hr; eauto. Qed.
End reach.

(** ** Pure fallible code *)

Section outcome.
Context {Ex : Type}.

#[global] Instance outcome_ret : MRet (outcome Ex) := λ A, Ret.

#[global] Instance outcome_bind : MBind (outcome Ex) :=
  λ A B k m, match m with Ret a => k a | Raise e => Raise e end.

Definition is_ret {A} (m : outcome Ex A) : bool :=
  match m with Ret _ => true | Raise _ => false end.

(** Runs fallible code inside the state monad. *)
Definition lift {St Out A} (m : outcome Ex A) : M St Ex Out A := λ s, ([], s, m).
End outcome.

Lemma lift_ret_bind {Ex St Out A B} (a : A) (f : A → M St Ex Out B) s :
  (lift (Ret a) ≫= f) s = f a s.
Proof. unfold mbind, M_bind, lift. by destruct (f a s) as [[? ?] ?]. Qed.

#[export] Instance outcome_eq_dec {Ex A} `{EqDecision Ex, EqDecision A} : EqDecision (outcome Ex A).
Proof. solve_decision. Defined.

(** Truth value of a list or a dictionary. *)
Definition nonempty {A} (l : list A) : bool :=
  match l with [] => false | _ :: _ => true end.

(** The exceptions of Python's standard library the code raises, and the classes
    the program derives from [RyuException] or its own base classes.  [OutOfFuel] is
    no exception of the program: a loop with a bound on its iterations raises it
    when the bound is reached, and the loops' theorems show it is not. *)
Inductive pyexn :=
| AssertionError
| AttributeError
| IndexError
| KeyError
| TypeError
| ValueError
| UnboundLocalError
| RuntimeError
| StructError
| RyuException (name : string)
| OutOfFuel.

#[export] Instance pyexn_eq_dec : EqDecision pyexn.
Proof. solve_decision. Defined.
