(* ===== verification/Odict.v ===== *)
(** * Dictionaries with insertion order

    A Python [dict] iterates in insertion order: assigning to a key that is
    present keeps its place, a new key goes to the end.  Where the modelled code
    iterates over a dictionary and the order is observable, the dictionary is the
    association list [odict K V]; the lemmas relate it to look-up. *)

From stdpp Require Import base list sets.
From S2P Require Import Prelude.

Abbreviation odict K V := (list (K * V)).

Section odict.
Context {K V : Type} `{!EqDecision K}.
Implicit Types (d : odict K V).

Fixpoint od_get (k : K) d : option V :=
  match d with
  | [] => None
  | (k', v) :: d' => if decide (k = k') then Some v else od_get k d'
  end.

Fixpoint od_set (k : K) (v : V) d : odict K V :=
  match d with
  | [] => [(k, v)]
  | (k', v') :: d' =>
      if decide (k = k') then (k', v) :: d' else (k', v') :: od_set k v d'
  end.

Fixpoint od_del (k : K) d : odict K V :=
  match d with
  | [] => []
  | (k', v) :: d' => if decide (k = k') then od_del k d' else (k', v) :: od_del k d'
  end.

Definition od_mem (k : K) d : bool := bool_decide (is_Some (od_get k d)).

Definition od_setdefault (k : K) (v : V) d : odict K V :=
  match od_get k d with Some _ => d | None => d ++ [(k, v)] end.

(** An object stored under [k] is mutated. *)
Fixpoint od_alter (f : V → V) (k : K) d : odict K V :=
  match d with
  | [] => []
  | (k', v) :: d' =>
      if decide (k = k') then (k', f v) :: d' else (k', v) :: od_alter f k d'
  end.

Definition od_keys d : list K := d.*1.
Definition od_values d : list V := d.*2.

(** The keys of a dictionary are distinct. *)
Definition od_ok d : Prop := NoDup (od_keys d).

Lemma od_get_set k k' v d :
  od_get k (od_set k' v d) = if decide (k = k') then Some v else od_get k d.
Proof.
  induction d as [|[k0 v0] d IH]; cbn.
  { by repeat case_decide. }
  repeat (case_decide; cbn; simplify_eq); try done; by rewrite IH.
Qed.

Lemma od_get_set_eq k v d : od_get k (od_set k v d) = Some v.
Proof. rewrite od_get_set. by case_decide. Qed.

Lemma od_get_set_ne k k' v d : k ≠ k' → od_get k (od_set k' v d) = od_get k d.
Proof. intros. rewrite od_get_set. by case_decide. Qed.

Lemma od_get_del k k' d :
  od_get k (od_del k' d) = if decide (k = k') then None else od_get k d.
Proof.
  induction d as [|[k0 v0] d IH]; cbn; [by case_decide|].
  destruct (decide (k' = k0)) as [->|Hne]; cbn; rewrite IH;
    repeat (case_decide; cbn; simplify_eq); done.
Qed.

Lemma od_get_del_eq k d : od_get k (od_del k d) = None.
Proof. rewrite od_get_del. by case_decide. Qed.

Lemma od_get_del_ne k k' d : k ≠ k' → od_get k (od_del k' d) = od_get k d.
Proof. intros. rewrite od_get_del. by case_decide. Qed.

Lemma od_get_elem k v d : od_get k d = Some v → (k, v) ∈ d.
Proof.
  induction d as [|[k0 v0] d IH]; cbn; [done|].
  case_decide; intros; simplify_eq; set_solver.
Qed.

Lemma od_get_is_key k d : is_Some (od_get k d) ↔ k ∈ od_keys d.
Proof.
  unfold od_keys. induction d as [|[k0 v0] d IH]; cbn.
  { split; [intros [? ?]; done|set_solver]. }
  rewrite elem_of_cons, <- IH. case_decide as Hk.
  - split; eauto.
  - split; [auto|]. by intros [?|?].
Qed.

Lemma od_mem_spec k d : od_mem k d = true ↔ k ∈ od_keys d.
Proof. unfold od_mem. rewrite bool_decide_eq_true. apply od_get_is_key. Qed.

Lemma od_elem_get k v d : od_ok d → (k, v) ∈ d → od_get k d = Some v.
Proof.
  unfold od_ok, od_keys.
  induction d as [|[k0 v0] d IH]; cbn; [set_solver|].
  rewrite NoDup_cons, elem_of_cons. intros [Hnot Hnd] [[= -> ->]|Hin].
  { by case_decide. }
  case_decide; [|by apply IH]. subst. destruct Hnot.
  apply list_elem_of_fmap. by exists (k0, v).
Qed.

Lemma od_keys_set k v d :
  od_keys (od_set k v d) = if decide (k ∈ od_keys d) then od_keys d
                           else od_keys d ++ [k].
Proof.
  unfold od_keys. induction d as [|[k0 v0] d IH]; cbn.
  { by rewrite decide_False by set_solver. }
  destruct (decide (k = k0)) as [->|Hne]; cbn.
  - by rewrite decide_True by set_solver.
  - rewrite IH. destruct (decide (k ∈ d.*1)).
    + by rewrite decide_True by set_solver.
    + by rewrite decide_False by set_solver.
Qed.

Lemma od_keys_alter f k d : od_keys (od_alter f k d) = od_keys d.
Proof.
  unfold od_keys. induction d as [|[k0 v0] d IH]; cbn; [done|].
  case_decide; cbn; by rewrite ?IH.
Qed.

Lemma od_get_alter f k k' d :
  od_get k (od_alter f k' d) = if decide (k = k') then f <$> od_get k d else od_get k d.
Proof.
  induction d as [|[k0 v0] d IH]; cbn; [by case_decide|].
  repeat (case_decide; cbn; simplify_eq); try done; by rewrite IH.
Qed.

Lemma od_alter_compose f g k d : od_alter f k (od_alter g k d) = od_alter (λ v, f (g v)) k d.
Proof.
  induction d as [|[k0 v0] d IH]; cbn; [done|].
  repeat (case_decide; cbn; simplify_eq); by rewrite ?IH.
Qed.

Lemma od_ok_alter f k d : od_ok d → od_ok (od_alter f k d).
Proof. unfold od_ok. by rewrite od_keys_alter. Qed.

Lemma od_del_alter f k d : od_del k (od_alter f k d) = od_del k d.
Proof.
  induction d as [|[k0 v0] d IH]; cbn; [done|].
  case_decide; cbn; [by rewrite decide_True|by rewrite decide_False, IH].
Qed.

Lemma od_alter_set f k v d : od_alter f k (od_set k v d) = od_set k (f v) d.
Proof.
  induction d as [|[k0 v0] d IH]; cbn; [by rewrite decide_True|].
  case_decide; cbn; [by rewrite decide_True|]. rewrite decide_False by done. by rewrite IH.
Qed.

Lemma od_alter_id k d : od_alter (λ v, v) k d = d.
Proof. induction d as [|[k0 v0] d IH]; cbn; [done|]. case_decide; by rewrite ?IH. Qed.

Lemma od_keys_del k d : od_keys (od_del k d) = filter (λ k', k' ≠ k) (od_keys d).
Proof.
  unfold od_keys. induction d as [|[k0 v0] d IH]; [done|].
  rewrite fmap_cons, filter_cons. cbn [od_del fst].
  destruct (decide (k = k0)) as [->|Hne].
  - by rewrite decide_False by tauto.
  - rewrite decide_True by congruence. rewrite fmap_cons. by rewrite IH.
Qed.

Lemma od_del_filter k d : od_del k d = filter (λ kv, kv.1 ≠ k) d.
Proof.
  induction d as [|[k0 x] d IH]; [done|]. rewrite filter_cons. cbn [od_del fst]. case_decide.
  - subst. by rewrite decide_False by tauto.
  - rewrite decide_True by congruence. by rewrite IH.
Qed.

Lemma od_ok_nil : od_ok [].
Proof. apply NoDup_nil_2. Qed.

Lemma od_ok_set k v d : od_ok d → od_ok (od_set k v d).
Proof.
  unfold od_ok. rewrite od_keys_set. intros Hd. case_decide; [done|].
  apply NoDup_app. split_and!; [done|set_solver|apply NoDup_singleton].
Qed.

Lemma od_del_elem k k' v d : (k', v) ∈ od_del k d ↔ k' ≠ k ∧ (k', v) ∈ d.
Proof.
  induction d as [|[k0 v0] d IH]; cbn; [set_solver|].
  case_decide; rewrite ?elem_of_cons, IH.
  - split; [intros []; auto|]. intros [? [[= -> ->]|?]]; done.
  - split; [intros [[= -> ->]|[]]; auto|]. intros [? [?|?]]; auto.
Qed.

Lemma od_ok_del k d : od_ok d → od_ok (od_del k d).
Proof.
  unfold od_ok, od_keys. induction d as [|[k0 v0] d IH]; cbn; [done|].
  rewrite NoDup_cons. intros [Hnot Hd]. case_decide; [auto|]. cbn.
  rewrite NoDup_cons. split; [|auto]. intros Hin. apply Hnot.
  apply list_elem_of_fmap in Hin as ([k1 v1] & -> & Hin).
  apply od_del_elem in Hin as [_ Hin]. apply list_elem_of_fmap. by exists (k1, v1).
Qed.

Lemma od_del_absent k d : k ∉ od_keys d → od_del k d = d.
Proof.
  unfold od_keys. induction d as [|[k0 v0] d IH]; cbn; [done|].
  rewrite not_elem_of_cons. intros [? ?]. case_decide; [done|]. by rewrite IH.
Qed.

Lemma od_ok_setdefault k v d : od_ok d → od_ok (od_setdefault k v d).
Proof.
  unfold od_setdefault. destruct (od_get k d) eqn:E; [done|]. intros Hd.
  unfold od_ok, od_keys in *. rewrite fmap_app.
  apply NoDup_app. split_and!; [done| |apply NoDup_singleton].
  intros k' Hk'. cbn. rewrite list_elem_of_singleton. intros ->.
  apply (od_get_is_key k d) in Hk'. destruct Hk'. congruence.
Qed.

Lemma od_get_setdefault k k' v d :
  od_get k (od_setdefault k' v d) =
    if decide (k = k') then Some (default v (od_get k d)) else od_get k d.
Proof.
  unfold od_setdefault. destruct (od_get k' d) as [w|] eqn:E.
  { case_decide; subst; [by rewrite E|done]. }
  induction d as [|[k0 v0] d IH]; cbn in *; [done|].
  repeat (case_decide; cbn; simplify_eq); try done; rewrite IH; try done;
    by rewrite ?decide_True.
Qed.
End odict.

Create HintDb odict.
#[export] Hint Resolve od_ok_nil od_ok_alter od_ok_set od_ok_del od_ok_setdefault : odict.
Create Rewrite HintDb odict.
#[export] Hint Rewrite @od_get_set_eq @od_get_del_eq : odict.
