(* ===== verification/Struct.v ===== *)
(** * Byte strings

    What the codecs use of Python's module [struct]: [pack] and [unpack_from] of unsigned
    big-endian fields, with their round trip.  A byte is an integer below 256. *)

From stdpp Require Import base list.
From Stdlib Require Import ZArith Lia.
From S2P Require Import Prelude.

Open Scope Z_scope.

(** ** [struct.pack] and [struct.unpack_from] of unsigned big-endian fields *)

Abbreviation bytes := (list Z).

Fixpoint be_bytes (n : nat) (z : Z) : bytes :=
  match n with
  | O => []
  | S n' => be_bytes n' (z / 256) ++ [z mod 256]
  end.

Definition be_value (bs : bytes) : Z := fold_left (λ acc b, acc * 256 + b) bs 0.

Definition pack_field (n : nat) (z : Z) : outcome pyexn bytes :=
  if (0 <=? z) && (z <? 256 ^ Z.of_nat n) then Ret (be_bytes n z)
  else Raise StructError.

Fixpoint pack (fields : list (nat * Z)) : outcome pyexn bytes :=
  match fields with
  | [] => Ret []
  | (n, z) :: fs =>
      b ← pack_field n z; bs ← pack fs; Ret (b ++ bs)
  end.

Definition unpack_field (n : nat) (bs : bytes) : outcome pyexn (Z * bytes) :=
  if (length bs <? n)%nat then Raise StructError
  else Ret (be_value (take n bs), drop n bs).

Fixpoint unpack (ns : list nat) (bs : bytes) : outcome pyexn (list Z) :=
  match ns with
  | [] => Ret []
  | n :: ns' =>
      '(z, rest) ← unpack_field n bs; zs ← unpack ns' rest; Ret (z :: zs)
  end.

(** The field [%ds] of [struct]: [n] bytes are read; a value is cut or filled with zeros. *)
Definition unpack_s (n : nat) (bs : bytes) : outcome pyexn (bytes * bytes) :=
  if (length bs <? n)%nat then Raise StructError else Ret (take n bs, drop n bs).

Definition pack_s (n : nat) (v : bytes) : bytes := take n v ++ replicate (n - length v) 0.

(** A function over a list, up to its first exception. *)
Fixpoint map_m {A B} (f : A → outcome pyexn B) (l : list A) : outcome pyexn (list B) :=
  match l with
  | [] => Ret []
  | x :: l => y ← f x; ys ← map_m f l; Ret (y :: ys)
  end.

Definition calcsize (ns : list nat) : nat := sum_list ns.

(** The values of bytes. *)
Definition is_byte (b : Z) : Prop := 0 ≤ b < 256.

(** ** The byte encodings *)

Lemma length_be_bytes n z : length (be_bytes n z) = n.
Proof.
  revert z. induction n as [|n IH]; intros z; cbn; [done|].
  rewrite length_app, IH. cbn. lia.
Qed.

Lemma be_value_app bs b : be_value (bs ++ [b]) = be_value bs * 256 + b.
Proof. unfold be_value. by rewrite fold_left_app. Qed.

Lemma be_value_bytes n z : 0 ≤ z < 256 ^ Z.of_nat n → be_value (be_bytes n z) = z.
Proof.
  revert z. induction n as [|n IH]; intros z Hz; cbn [be_bytes].
  { change (256 ^ Z.of_nat 0) with 1 in Hz. unfold be_value. cbn. lia. }
  rewrite Nat2Z.inj_succ, Z.pow_succ_r in Hz by lia.
  rewrite be_value_app, IH.
  - pose proof (Z.div_mod z 256). lia.
  - split; [apply Z.div_pos; lia|apply Z.div_lt_upper_bound; lia].
Qed.

Definition in_width (f : nat * Z) : Prop := 0 ≤ f.2 < 256 ^ Z.of_nat f.1.

Lemma pack_field_ok n z : 0 ≤ z < 256 ^ Z.of_nat n → pack_field n z = Ret (be_bytes n z).
Proof. intros Hz. unfold pack_field. by rewrite (proj2 (andb_true_iff _ _)) by lia. Qed.

Lemma pack_ok fs : Forall in_width fs → ∃ bs, pack fs = Ret bs.
Proof.
  induction 1 as [|[n z] fs Hz Hfs [bs IH]]; cbn; [by eexists|].
  rewrite pack_field_ok by done. cbn. rewrite IH. by eexists.
Qed.

Lemma unpack_pack ns zs bs rest :
  length ns = length zs → pack (zip ns zs) = Ret bs →
  unpack ns (bs ++ rest) = Ret zs ∧ length bs = calcsize ns.
Proof.
  revert zs bs. induction ns as [|n ns IH]; intros [|z zs] bs; cbn; [|done|done|].
  { intros _ [= <-]. done. }
  intros [= Hlen]. unfold pack_field.
  destruct (_ && _) eqn:Hz; cbn; [|done].
  apply andb_true_iff in Hz as [Hz1%Z.leb_le Hz2%Z.ltb_lt].
  destruct (pack (zip ns zs)) as [bs'|] eqn:Hp; cbn; [|done]. intros [= <-].
  destruct (IH zs bs' Hlen Hp) as [Hu Hl].
  unfold unpack_field.
  rewrite <- app_assoc, !length_app, length_be_bytes.
  rewrite (proj2 (Nat.ltb_ge _ _)) by lia.
  rewrite take_app_length', drop_app_length' by (by rewrite length_be_bytes).
  cbn. rewrite Hu, be_value_bytes by done. cbn. by rewrite Hl.
Qed.

Lemma land_field x n k :
  0 ≤ n → 0 ≤ k → Z.land x (Z.shiftl (Z.ones k) n) = (x / 2 ^ n mod 2 ^ k) * 2 ^ n.
Proof.
  intros Hn Hk. rewrite <- Z.shiftl_mul_pow2, <- Z.land_ones, <- Z.shiftr_div_pow2 by lia.
  apply Z.bits_inj'. intros i Hi. rewrite Z.land_spec, !Z.shiftl_spec by done.
  destruct (decide (i < n)).
  { rewrite !(Z.testbit_neg_r _ (i - n)) by lia. by rewrite andb_false_r. }
  rewrite Z.land_spec, Z.shiftr_spec by lia. do 2 f_equal. lia.
Qed.

Lemma be_value_bound bs : Forall is_byte bs → 0 ≤ be_value bs < 256 ^ Z.of_nat (length bs).
Proof.
  induction bs as [|b bs IH] using rev_ind; intros H; [done|].
  apply Forall_app in H as [H [Hb _]%Forall_cons]. specialize (IH H). unfold is_byte in Hb.
  rewrite be_value_app, length_app. cbn. rewrite Nat.add_1_r, Nat2Z.inj_succ, Z.pow_succ_r by lia.
  lia.
Qed.

Lemma be_bytes_are_bytes n z : Forall is_byte (be_bytes n z).
Proof.
  revert z. induction n as [|n IH]; intros z; cbn; [done|].
  apply Forall_app. split; [done|]. apply Forall_singleton. unfold is_byte.
  pose proof (Z.mod_pos_bound z 256). lia.
Qed.

Lemma pack_bytes fs bs : pack fs = Ret bs → Forall is_byte bs.
Proof.
  revert bs. induction fs as [|[n z] fs IH]; intros bs; cbn; [by intros [= <-]|].
  unfold pack_field. destruct (_ && _); cbn; [|done].
  destruct (pack fs) as [bs'|]; cbn; [|done]. intros [= <-]. apply Forall_app. split; [apply be_bytes_are_bytes|by apply IH].
Qed.

Lemma pack_length fs bs : pack fs = Ret bs → length bs = calcsize fs.*1.
Proof.
  revert bs. induction fs as [|[n z] fs IH]; intros bs; cbn; [by intros [= <-]|].
  unfold pack_field. destruct (_ && _); cbn; [|done]. destruct (pack fs) as [bs'|]; cbn; [|done].
  intros [= <-]. by rewrite length_app, length_be_bytes, (IH bs').
Qed.

Lemma unpack_cons n ns bs :
  (n ≤ length bs)%nat →
  unpack (n :: ns) bs = zs ← unpack ns (drop n bs); Ret (be_value (take n bs) :: zs).
Proof.
  intros H. cbn. unfold unpack_field. by rewrite (proj2 (Nat.ltb_ge _ _) H).
Qed.

Lemma unpack_short n ns bs : (length bs < n)%nat → unpack (n :: ns) bs = Raise StructError.
Proof. intros H. cbn. unfold unpack_field. by rewrite (proj2 (Nat.ltb_lt _ _) H). Qed.

Lemma unpack_length ns bs zs : unpack ns bs = Ret zs → (calcsize ns ≤ length bs)%nat.
Proof.
  unfold calcsize. revert zs bs. induction ns as [|n ns IH]; intros zs bs E; [cbn; lia|].
  destruct (decide (length bs < n)%nat) as [Hn|Hn]; [by rewrite unpack_short in E|].
  rewrite unpack_cons in E by lia. destruct (unpack ns (drop n bs)) as [zs'|] eqn:E'; [|done].
  apply IH in E'. rewrite length_drop in E'. cbn. lia.
Qed.

(** Fields within a buffer of bytes are read, and are in their widths. *)
Lemma unpack_total ns bs :
  Forall is_byte bs → (calcsize ns ≤ length bs)%nat →
  ∃ zs, unpack ns bs = Ret zs ∧ Forall2 (λ n z, in_width (n, z)) ns zs.
Proof.
  revert bs. induction ns as [|n ns IH]; intros bs Hb Hl; [by exists []|].
  unfold calcsize in *. cbn in Hl. rewrite unpack_cons by lia.
  destruct (IH (drop n bs)) as (zs & -> & Hz); [by apply Forall_drop|rewrite length_drop; lia|].
  eexists. split; [done|]. constructor; [|done]. unfold in_width. cbn.
  pose proof (be_value_bound (take n bs) (Forall_take _ _ _ Hb)) as H.
  by rewrite length_take, Nat.min_l in H by lia.
Qed.

(** A buffer that is too short for its fields is refused. *)
Lemma unpack_total_or_error ns bs :
  Forall is_byte bs →
  (∃ zs, unpack ns bs = Ret zs ∧ Forall2 (λ n z, in_width (n, z)) ns zs) ∨
  unpack ns bs = Raise StructError.
Proof.
  intros Hb. destruct (decide (calcsize ns ≤ length bs)%nat) as [|Hs]; [left; by apply unpack_total|right].
  revert bs Hb Hs. induction ns as [|n ns IH]; intros bs Hb Hs; cbn in *; [lia|].
  unfold unpack_field. destruct (Nat.ltb_spec (length bs) n); [done|]. cbn.
  rewrite IH; [done|by apply Forall_drop|]. unfold calcsize in *. rewrite length_drop. lia.
Qed.

(** ** Bit fields *)

Lemma lor_shifted a b n : 0 ≤ n → 0 ≤ b < 2 ^ n → Z.lor (Z.shiftl a n) b = a * 2 ^ n + b.
Proof.
  intros Hn Hb. rewrite <- Z.add_lor_land, <- Z.shiftl_mul_pow2 by done.
  assert (Z.land (Z.shiftl a n) b = 0) as ->; [|lia].
  apply Z.bits_inj'. intros i Hi. rewrite Z.land_spec, Z.bits_0, Z.shiftl_spec by done.
  destruct (decide (i < n)); [by rewrite Z.testbit_neg_r by lia|].
  rewrite <- (Z.mod_small b (2 ^ n)), Z.mod_pow2_bits_high by lia. apply andb_false_r.
Qed.

Lemma shifted_high a b n : 0 ≤ n → 0 ≤ b < 2 ^ n → Z.shiftr (a * 2 ^ n + b) n = a.
Proof.
  intros Hn Hb. rewrite Z.shiftr_div_pow2 by done.
  rewrite Z.div_add_l, (Z.div_small b) by lia. lia.
Qed.

Lemma shifted_low a b n : 0 ≤ n → 0 ≤ b < 2 ^ n → Z.land (a * 2 ^ n + b) (Z.ones n) = b.
Proof.
  intros Hn Hb. rewrite Z.land_ones by done. rewrite Z.add_comm, Z_mod_plus_full. by apply Z.mod_small.
Qed.

(** ** Fields one after another *)

Lemma unpack_field_app n bs rest : length bs = n → unpack_field n (bs ++ rest) = Ret (be_value bs, rest).
Proof.
  intros H. unfold unpack_field. rewrite length_app, (proj2 (Nat.ltb_ge _ _)) by lia.
  by rewrite take_app_length', drop_app_length'.
Qed.

(** Unpacking needs the bytes, and raises nothing else. *)
Lemma unpack_enough ns bs : (calcsize ns ≤ length bs)%nat → ∃ zs, unpack ns bs = Ret zs.
Proof.
  unfold calcsize. revert bs. induction ns as [|n ns IH]; intros bs Hl; [by exists []|]. cbn in Hl.
  rewrite unpack_cons by lia. destruct (IH (drop n bs)) as [zs ->]; [rewrite length_drop; lia|]. by eexists.
Qed.

Lemma unpack_raises ns bs e : unpack ns bs = Raise e → e = StructError.
Proof.
  revert bs. induction ns as [|n ns IH]; intros bs E; [done|]. destruct (decide (length bs < n)%nat) as [Hn|Hn]; [rewrite unpack_short in E by done; congruence|].
  rewrite unpack_cons in E by lia. destruct (unpack ns (drop n bs)) as [zs|e'] eqn:E'; [done|]. cbn in E. injection E as ->. by apply IH in E'.
Qed.

Lemma unpack_s_app n bs rest : length bs = n → unpack_s n (bs ++ rest) = Ret (bs, rest).
Proof.
  intros H. unfold unpack_s. rewrite length_app, (proj2 (Nat.ltb_ge _ _)) by lia.
  by rewrite take_app_length', drop_app_length'.
Qed.

Lemma unpack_field_progress n bs z rest : unpack_field n bs = Ret (z, rest) → (length rest + n = length bs)%nat.
Proof.
  unfold unpack_field. destruct (Nat.ltb_spec (length bs) n); [done|]. intros [= _ <-]. rewrite length_drop. lia.
Qed.

Lemma unpack_s_progress n bs b rest : unpack_s n bs = Ret (b, rest) → (length rest + n = length bs)%nat.
Proof. unfold unpack_s. destruct (Nat.ltb_spec (length bs) n); [done|]. intros [= _ <-]. rewrite length_drop. lia. Qed.

Lemma unpack_be n z rest : 0 ≤ z < 256 ^ Z.of_nat n → unpack_field n (be_bytes n z ++ rest) = Ret (z, rest).
Proof. intros Hz. by rewrite unpack_field_app, be_value_bytes by (done || apply length_be_bytes). Qed.

Lemma unpack_byte z rest : unpack_field 1 (z :: rest) = Ret (z, rest).
Proof. apply (unpack_field_app 1 [z] rest). done. Qed.

Lemma pack_s_exact n v : length v = n → pack_s n v = v.
Proof. intros <-. unfold pack_s. by rewrite take_ge, Nat.sub_diag, app_nil_r by lia. Qed.

Lemma pack1 n z : 0 ≤ z < 256 ^ Z.of_nat n → pack [(n, z)] = Ret (be_bytes n z).
Proof. intros Hz. cbn. rewrite pack_field_ok by done. cbn. by rewrite app_nil_r. Qed.

Lemma pack2 n z n' z' :
  0 ≤ z < 256 ^ Z.of_nat n → 0 ≤ z' < 256 ^ Z.of_nat n' → pack [(n, z); (n', z')] = Ret (be_bytes n z ++ be_bytes n' z').
Proof. intros Hz Hz'. cbn. rewrite !pack_field_ok by done. cbn. by rewrite app_nil_r. Qed.

Lemma pack3 n z n' z' m y :
  0 ≤ z < 256 ^ Z.of_nat n → 0 ≤ z' < 256 ^ Z.of_nat n' → 0 ≤ y < 256 ^ Z.of_nat m →
  pack [(n, z); (n', z'); (m, y)] = Ret (be_bytes n z ++ be_bytes n' z' ++ be_bytes m y).
Proof. intros Hz Hz' Hy. cbn. rewrite !pack_field_ok by done. cbn. by rewrite app_nil_r. Qed.

Lemma unpack_be_end n z : 0 ≤ z < 256 ^ Z.of_nat n → unpack_field n (be_bytes n z) = Ret (z, []).
Proof. intros Hz. rewrite <- (app_nil_r (be_bytes n z)). by apply unpack_be. Qed.

Lemma unpack_s_end n b : length b = n → unpack_s n b = Ret (b, []).
Proof. intros Hb. rewrite <- (app_nil_r b) at 1. by apply unpack_s_app. Qed.

(** Fields that are in their widths; reading them; the bytes of what was written. *)
Ltac fields := rewrite ?Forall_cons, ?Forall_nil; split_and!; done.
Ltac read_fields :=
  repeat (first [rewrite unpack_be by done|rewrite unpack_be_end by done|rewrite unpack_byte
                |rewrite unpack_s_app by done|rewrite unpack_s_end by done]; cbn [mbind outcome_bind]).
Ltac bytes := repeat (rewrite Forall_app; split); first [apply be_bytes_are_bytes|assumption|by apply Forall_replicate].

Lemma outcome_bind_ret {Ex A B} (m : outcome Ex A) (f : A → outcome Ex B) b : m ≫= f = Ret b → ∃ a, m = Ret a ∧ f a = Ret b.
Proof. destruct m as [a|]; [by exists a|done]. Qed.

Lemma map_m_pairs {A B} (f : A → outcome pyexn B) l k : Forall2 (λ x y, f x = Ret y) l k → map_m f l = Ret k.
Proof. induction 1 as [|x y l k Hx _ IH]; [done|]. cbn [map_m]. rewrite Hx. cbn [mbind outcome_bind]. by rewrite IH. Qed.

(** ** Buffers *)

(** [msg_pack_into]: a buffer that is too short is filled with zeros first. *)
Definition msg_pack_into (buf : bytes) (offset : nat) (packed : bytes) : bytes :=
  let buf := buf ++ replicate (offset + length packed - length buf) 0 in
  take offset buf ++ packed ++ drop (offset + length packed) buf.

Lemma msg_pack_into_end buf bs : msg_pack_into buf (length buf) bs = buf ++ bs.
Proof.
  unfold msg_pack_into. rewrite take_app_length, drop_ge; [by rewrite app_nil_r|].
  rewrite length_app, length_replicate. lia.
Qed.

(** A header written into the place that was left for it. *)
Lemma msg_pack_into_middle buf old bs rest : length old = length bs → msg_pack_into (buf ++ old ++ rest) (length buf) bs = buf ++ bs ++ rest.
Proof.
  intros E. unfold msg_pack_into. rewrite !length_app, E.
  replace (length buf + length bs - (length buf + (length bs + length rest)))%nat with 0%nat by lia.
  rewrite app_nil_r, take_app_length. do 2 f_equal. rewrite app_assoc, drop_app_length'; [done|]. rewrite length_app. lia.
Qed.

(** Writing behind a gap fills it with zeros. *)
Lemma msg_pack_into_gap buf n bs : msg_pack_into buf (length buf + n) bs = buf ++ replicate n 0 ++ bs.
Proof.
  unfold msg_pack_into. replace (length buf + n + length bs - length buf)%nat with (n + length bs)%nat by lia.
  rewrite replicate_add, (app_assoc buf), take_app_length' by (by rewrite length_app, length_replicate).
  rewrite drop_ge by (rewrite !length_app, !length_replicate; lia). by rewrite app_nil_r, <- app_assoc.
Qed.
