(* ===== verification/BgpDecision.v ===== *)
(** * The BGP decision process

    Models [ryu/services/protocols/bgp/processor.py], the functions
    [_compare_by_version], [compute_best_path] and the eleven [_cmp_by_*] steps,
    and [Destination._compute_best_known_path] of [info_base/base.py], which
    folds the pairwise comparison over the known paths.  A path carries the
    attributes these functions look up; object identity of paths and of peers is
    the fields [path_id] and [peer_id], on which Python's default [==] works.

    The text forms of router identifiers are produced and read by the netaddr
    package: [ipv4_to_str] and [ipv4_to_int] are parameters, with the round trip
    of the two as the only hypothesis. *)

From stdpp Require Import base list strings.
From Stdlib Require Import ZArith Lia.
From S2P Require Import Prelude.

(** ** Data *)

(** A [Peer]; its negotiated identifiers are those of its OPEN messages. *)
Record peer := Peer {
  peer_id : Z;
  remote_as : Z;
  sent_bgp_identifier : string;
  recv_bgp_identifier : string
}.

(** [Path.source]: [None] for paths of the local speaker (network controller),
    the name of a table for imported paths, else a peer. *)
Inductive source :=
| SrcNC
| SrcTable (name : string)
| SrcPeer (p : peer).

Definition source_eqb (s1 s2 : source) : bool :=
  match s1, s2 with
  | SrcNC, SrcNC => true
  | SrcTable n1, SrcTable n2 => String.eqb n1 n2
  | SrcPeer p1, SrcPeer p2 => peer_id p1 =? peer_id p2
  | _, _ => false
  end.

(** A segment of AS_PATH is a list (AS_SEQUENCE) or a set (AS_SET). *)
Inductive as_segment :=
| AsSequence (l : list Z)
| AsSet (l : list Z).

(** The family of an NLRI, its text, its length in bits and the text of its route distinguisher,
    if it has one. *)
Record nlri := Nlri {
  nlri_rf : Z;
  nlri_prefix : string;
  nlri_length : Z;
  nlri_rd : string
}.

Record path := Path {
  path_id : Z;
  path_rf : Z;
  path_source : source;
  source_version_num : Z;
  path_nlri : nlri;
  is_withdraw : bool;
  attr_local_pref : option Z;
  attr_as_path : option (list as_segment);
  attr_origin : option Z;
  attr_med : option Z;
  attr_originator_id : option string;
  attr_cluster_list : option (list string);
  attr_rt_list : option (list string)
}.

Definition BGP_ATTR_ORIGIN_IGP := 0.
Definition BGP_ATTR_ORIGIN_EGP := 1.
Definition BGP_ATTR_ORIGIN_INCOMPLETE := 2.

Inductive bpr :=
| BPR_UNKNOWN
| BPR_ONLY_PATH
| BPR_REACHABLE_NEXT_HOP
| BPR_HIGHEST_WEIGHT
| BPR_LOCAL_PREF
| BPR_LOCAL_ORIGIN
| BPR_ASPATH
| BPR_ORIGIN
| BPR_MED
| BPR_ASN
| BPR_IGP_COST
| BPR_ROUTER_ID
| BPR_CLUSTER_LIST.

Abbreviation res := (outcome pyexn).

(** ** The comparison steps *)

Definition get_as_path_len (segs : list as_segment) : Z :=
  foldl (λ count seg,
    match seg with
    | AsSequence l => count + Z.of_nat (length l)
    | AsSet _ => count + 1
    end) 0 segs.

Definition compare_by_version (path1 path2 : path) : option path :=
  if source_eqb (path_source path1) (path_source path2) then
    if source_version_num path2 <? source_version_num path1
    then Some path1 else Some path2
  else None.

Definition cmp_by_reachable_nh (path1 path2 : path) : res (option path) := mret None.

Definition cmp_by_highest_wg (path1 path2 : path) : res (option path) := mret None.

Definition cmp_by_local_pref (path1 path2 : path) : res (option path) :=
  match attr_local_pref path1, attr_local_pref path2 with
  | Some lp1, Some lp2 =>
      if lp2 <? lp1 then mret (Some path1)
      else if lp1 <? lp2 then mret (Some path2)
      else mret None
  | _, _ => mret None
  end.

Definition cmp_by_local_origin (path1 path2 : path) : res (option path) :=
  if source_eqb (path_source path1) (path_source path2) then mret None
  else match path_source path1 with
  | SrcNC => mret (Some path1)
  | _ =>
      match path_source path2 with
      | SrcNC => mret (Some path2)
      | _ => mret None
      end
  end.

Definition cmp_by_aspath (path1 path2 : path) : res (option path) :=
  match attr_as_path path1, attr_as_path path2 with
  | Some as_path1, Some as_path2 =>
      let l1 := get_as_path_len as_path1 in
      let l2 := get_as_path_len as_path2 in
      if l2 <? l1 then mret (Some path2)
      else if l1 <? l2 then mret (Some path1)
      else mret None
  | _, _ => Raise AssertionError
  end.

Definition get_origin_pref (origin : Z) : Z :=
  if origin =? BGP_ATTR_ORIGIN_IGP then 3
  else if origin =? BGP_ATTR_ORIGIN_EGP then 2
  else if origin =? BGP_ATTR_ORIGIN_INCOMPLETE then 1
  else 0.

Definition cmp_by_origin (path1 path2 : path) : res (option path) :=
  match attr_origin path1, attr_origin path2 with
  | Some v1, Some v2 =>
      if v1 =? v2 then mret None
      else
        let origin1 := get_origin_pref v1 in
        let origin2 := get_origin_pref v2 in
        if origin1 =? origin2 then mret None
        else if origin2 <? origin1 then mret (Some path1)
        else mret (Some path2)
  | _, _ => Raise AssertionError
  end.

Definition get_path_med (p : path) : Z :=
  match attr_med p with Some v => v | None => 0 end.

Definition cmp_by_med (path1 path2 : path) : res (option path) :=
  let med1 := get_path_med path1 in
  let med2 := get_path_med path2 in
  if med1 =? med2 then mret None
  else if med1 <? med2 then mret (Some path1)
  else mret (Some path2).

(** [remote_as] of a source given as the name of a table is an AttributeError. *)
Definition get_asn (local_asn : Z) (s : source) : res Z :=
  match s with
  | SrcNC => mret local_asn
  | SrcTable _ => Raise AttributeError
  | SrcPeer p => mret (remote_as p)
  end.

Definition cmp_by_asn (local_asn : Z) (path1 path2 : path) : res (option path) :=
  p1_asn ← get_asn local_asn (path_source path1);
  p2_asn ← get_asn local_asn (path_source path2);
  if (p1_asn =? local_asn) && negb (p2_asn =? local_asn) then mret (Some path2)
  else if (p2_asn =? local_asn) && negb (p1_asn =? local_asn) then mret (Some path1)
  else mret None.

Definition cmp_by_igp_cost (path1 path2 : path) : res (option path) := mret None.

Definition get_router_id (p : path) (local_bgp_id : string) : res string :=
  match path_source p with
  | SrcNC => mret local_bgp_id
  | s =>
      match attr_originator_id p with
      | Some v => mret v
      | None =>
          match s with
          | SrcPeer q => mret (recv_bgp_identifier q)
          | _ => Raise AttributeError
          end
      end
  end.

Definition sent_id (s : source) : res string :=
  match s with
  | SrcPeer p => mret (sent_bgp_identifier p)
  | _ => Raise AttributeError
  end.

Section decision.
Context (ipv4_to_int : string → option Z).

(** [None < n] of two identifiers the conversion rejects is a TypeError. *)
Definition ptoi_lt (i1 i2 : option Z) : res bool :=
  match i1, i2 with
  | Some a, Some b => mret (a <? b)
  | _, _ => Raise TypeError
  end.

Definition cmp_by_router_id (local_asn : Z) (path1 path2 : path)
    : res (option path) :=
  let path_source1 := path_source path1 in
  let path_source2 := path_source path2 in
  match path_source1, path_source2 with
  | SrcNC, SrcNC => mret None
  | _, _ =>
      asn1 ← get_asn local_asn path_source1;
      asn2 ← get_asn local_asn path_source2;
      let is_ebgp1 := negb (asn1 =? local_asn) in
      let is_ebgp2 := negb (asn2 =? local_asn) in
      if is_ebgp1 && is_ebgp2 then mret None
      else if (is_ebgp1 && negb is_ebgp2) || (negb is_ebgp1 && is_ebgp2)
      then Raise ValueError
      else
        local_bgp_id ←
          (match path_source1 with
           | SrcNC => sent_id path_source2
           | _ => sent_id path_source1
           end);
        router_id1 ← get_router_id path1 local_bgp_id;
        router_id2 ← get_router_id path2 local_bgp_id;
        if String.eqb router_id1 router_id2 then mret None
        else
          lt ← ptoi_lt (ipv4_to_int router_id1) (ipv4_to_int router_id2);
          if lt : bool then mret (Some path1) else mret (Some path2)
  end.

Definition get_cluster_list_len (p : path) : Z :=
  match attr_cluster_list p with
  | None => 0
  | Some l => Z.of_nat (length l)
  end.

Definition cmp_by_cluster_list (path1 path2 : path) : res (option path) :=
  let c_list_len1 := get_cluster_list_len path1 in
  let c_list_len2 := get_cluster_list_len path2 in
  if c_list_len1 <? c_list_len2 then mret (Some path1)
  else if c_list_len2 <? c_list_len1 then mret (Some path2)
  else mret None.

(** [if best_path is None: best_path = cmp(...); best_path_reason = reason] *)
Definition decision_step (cur : option path * bpr)
    (cmp : res (option path)) (reason : bpr) : res (option path * bpr) :=
  match cur with
  | (None, _) => best_path ← cmp; mret (best_path, reason)
  | (Some _, _) => mret cur
  end.

Definition compute_best_path (local_asn : Z) (path1 path2 : path)
    : res (option path * bpr) :=
  c ← decision_step (None, BPR_UNKNOWN)
        (cmp_by_reachable_nh path1 path2) BPR_REACHABLE_NEXT_HOP;
  c ← decision_step c (cmp_by_highest_wg path1 path2) BPR_HIGHEST_WEIGHT;
  c ← decision_step c (cmp_by_local_pref path1 path2) BPR_LOCAL_PREF;
  c ← decision_step c (cmp_by_local_origin path1 path2) BPR_LOCAL_ORIGIN;
  c ← decision_step c (cmp_by_aspath path1 path2) BPR_ASPATH;
  c ← decision_step c (cmp_by_origin path1 path2) BPR_ORIGIN;
  c ← decision_step c (cmp_by_med path1 path2) BPR_MED;
  c ← decision_step c (cmp_by_asn local_asn path1 path2) BPR_ASN;
  c ← decision_step c (cmp_by_igp_cost path1 path2) BPR_IGP_COST;
  c ← decision_step c (cmp_by_router_id local_asn path1 path2) BPR_ROUTER_ID;
  c ← decision_step c (cmp_by_cluster_list path1 path2) BPR_CLUSTER_LIST;
  match c with
  | (None, _) => mret (None, BPR_UNKNOWN)
  | _ => mret c
  end.

(** [Destination._compute_best_known_path]; the loop is over
    [known_path_list[1:]]. *)
Fixpoint best_path_loop (local_asn : Z) (current : path) (reason : bpr)
    (l : list path) : res (path * bpr) :=
  match l with
  | [] => mret (current, reason)
  | next_path :: l' =>
      c ← compute_best_path local_asn current next_path;
      match c with
      | (Some new_best_path, reason') =>
          best_path_loop local_asn new_best_path reason' l'
      | (None, reason') => best_path_loop local_asn current reason' l'
      end
  end.

(** [None] is [BgpProcessorError]: there is no known path. *)
Definition compute_best_known_path (local_asn : Z) (known : list path)
    : option (res (path * bpr)) :=
  match known with
  | [] => None
  | current_best_path :: l =>
      Some (best_path_loop local_asn current_best_path BPR_ONLY_PATH l)
  end.
End decision.

#[global] Arguments compute_best_path : simpl never.

(** ** Specification: the lexicographic preference order *)

(** The preference key of a path, smaller being better: highest local
    preference, local origin, shortest AS path, best origin, lowest MED, eBGP
    over iBGP, lowest router id among iBGP paths, shortest cluster list. *)
Section key.
Context (ipv4_to_int : string → option Z) (local_asn : Z).

Definition is_nc (p : path) : bool :=
  match path_source p with SrcNC => true | _ => false end.

Definition is_ibgp (p : path) : bool :=
  match path_source p with
  | SrcNC => true
  | SrcTable _ => false
  | SrcPeer q => remote_as q =? local_asn
  end.

Definition router_id_text (p : path) : string :=
  match attr_originator_id p, path_source p with
  | Some v, _ => v
  | None, SrcPeer q => recv_bgp_identifier q
  | None, _ => ""
  end.

Definition router_id_key (p : path) : Z :=
  if is_nc p then 0
  else if is_ibgp p then default 0 (ipv4_to_int (router_id_text p))
  else 0.

Definition path_key (p : path) : list Z :=
  [ - default 0 (attr_local_pref p);
    (if is_nc p then 0 else 1);
    get_as_path_len (default [] (attr_as_path p));
    - get_origin_pref (default 0 (attr_origin p));
    get_path_med p;
    (if is_ibgp p then 1 else 0);
    router_id_key p;
    get_cluster_list_len p ].
End key.

Fixpoint lex (k1 k2 : list Z) : comparison :=
  match k1, k2 with
  | a :: k1', b :: k2' => match a ?= b with Eq => lex k1' k2' | c => c end
  | [], [] => Eq
  | [], _ :: _ => Lt
  | _ :: _, [] => Gt
  end.

Definition pick (c : comparison) (path1 path2 : path) : option path :=
  match c with Lt => Some path1 | Gt => Some path2 | Eq => None end.

(** [p1] is at least as good as [p2] / strictly better than [p2]. *)
Definition key_le (k1 k2 : list Z) : Prop := lex k1 k2 ≠ Gt.
Definition key_lt (k1 k2 : list Z) : Prop := lex k1 k2 = Lt.

Lemma lex_refl k : lex k k = Eq.
Proof. induction k as [|a k IH]; cbn; [done|]. by rewrite Z.compare_refl. Qed.

Lemma lex_antisym k1 k2 : lex k2 k1 = CompOpp (lex k1 k2).
Proof.
  revert k2. induction k1 as [|a k1 IH]; intros [|b k2]; cbn; try done.
  rewrite (Z.compare_antisym a b). destruct (a ?= b); cbn; auto.
Qed.

Lemma lex_trans k1 k2 k3 c : lex k1 k2 = c → lex k2 k3 = c → lex k1 k3 = c.
Proof.
  revert k2 k3. induction k1 as [|a k1 IH]; intros [|b k2] [|d k3]; cbn;
    intros H1 H2; try congruence.
  destruct (Z.compare_spec a b), (Z.compare_spec b d), (Z.compare_spec a d);
    try congruence; try lia; eauto.
Qed.

Lemma lex_eq_l k1 k2 k3 : lex k1 k2 = Eq → lex k1 k3 = lex k2 k3.
Proof.
  revert k2 k3. induction k1 as [|a k1 IH]; intros [|b k2] k3; cbn; try done.
  intros H. destruct (Z.compare_spec a b); subst; try done.
  destruct k3 as [|d k3]; [done|]. destruct (b ?= d); auto.
Qed.

Lemma key_le_trans k1 k2 k3 : key_le k1 k2 → key_le k2 k3 → key_le k1 k3.
Proof.
  unfold key_le. destruct (lex k1 k2) eqn:E1; intros H1 H2; try done.
  - by rewrite (lex_eq_l _ _ _ E1).
  - destruct (lex k2 k3) eqn:E2; try done.
    + assert (E3 : lex k3 k2 = Eq) by (rewrite lex_antisym, E2; done).
      rewrite lex_antisym, (lex_eq_l _ _ k1 E3), <- lex_antisym, E1. done.
    + by rewrite (lex_trans _ _ _ _ E1 E2).
Qed.

Lemma key_lt_le_trans k1 k2 k3 : key_lt k1 k2 → key_le k2 k3 → key_lt k1 k3.
Proof.
  unfold key_le, key_lt. intros E1 H2. destruct (lex k2 k3) eqn:E2; try done.
  - assert (E3 : lex k3 k2 = Eq) by (rewrite lex_antisym, E2; done).
    rewrite lex_antisym, (lex_eq_l _ _ k1 E3), <- lex_antisym. done.
  - by rewrite (lex_trans _ _ _ _ E1 E2).
Qed.

Lemma key_lt_le k1 k2 : key_lt k1 k2 → key_le k1 k2.
Proof. unfold key_lt, key_le. congruence. Qed.

Lemma key_le_refl k : key_le k k.
Proof. unfold key_le. by rewrite lex_refl. Qed.

#[export] Instance key_le_preorder : PreOrder key_le.
Proof. split; [intros k; apply key_le_refl|intros ???; apply key_le_trans]. Qed.

(** ** The code computes the order *)

Section refinement.
Context (ipv4_to_str : Z → string) (ipv4_to_int : string → option Z).

(** netaddr reads back the dotted quads it prints. *)
Hypothesis ipv4_roundtrip :
  ∀ z, 0 ≤ z < 2 ^ 32 → ipv4_to_int (ipv4_to_str z) = Some z.

Context (local_asn : Z).

Definition rid_ok (s : string) : Prop := ∃ z, 0 ≤ z < 2 ^ 32 ∧ s = ipv4_to_str z.

(** A path of the global tables: learned from a peer or originated locally,
    with the mandatory attributes and LOCAL_PREF. *)
Record path_ok (p : path) : Prop := {
  ok_source : match path_source p with
              | SrcNC => True
              | SrcTable _ => False
              | SrcPeer _ => rid_ok (router_id_text p)
              end;
  ok_as_path : is_Some (attr_as_path p);
  ok_origin : is_Some (attr_origin p);
  ok_local_pref : is_Some (attr_local_pref p)
}.

Abbreviation key := (path_key ipv4_to_int local_asn).

Ltac zcases := repeat (case_match; cbn in *; simplify_eq); try done; try lia.

Lemma rid_ok_inj s t :
  rid_ok s → rid_ok t → ipv4_to_int s = ipv4_to_int t → s = t.
Proof.
  intros (z & Hz & ->) (w & Hw & ->).
  rewrite !ipv4_roundtrip by done. by intros [= ->].
Qed.

Lemma local_pref_spec p1 p2 :
  is_Some (attr_local_pref p1) → is_Some (attr_local_pref p2) →
  cmp_by_local_pref p1 p2 =
    Ret (pick (- default 0 (attr_local_pref p1) ?=
               - default 0 (attr_local_pref p2)) p1 p2).
Proof.
  intros [v1 H1] [v2 H2]. unfold cmp_by_local_pref. rewrite H1, H2. cbn.
  destruct (Z.compare_spec (- v1) (- v2)); cbn;
    destruct (Z.ltb_spec v2 v1), (Z.ltb_spec v1 v2); try lia; done.
Qed.

Lemma local_origin_spec p1 p2 :
  cmp_by_local_origin p1 p2 =
    Ret (pick ((if is_nc p1 then 0 else 1) ?= (if is_nc p2 then 0 else 1)) p1 p2).
Proof.
  unfold cmp_by_local_origin, is_nc.
  destruct (path_source p1), (path_source p2); cbn; repeat case_match; done.
Qed.

Lemma aspath_spec p1 p2 :
  is_Some (attr_as_path p1) → is_Some (attr_as_path p2) →
  cmp_by_aspath p1 p2 =
    Ret (pick (get_as_path_len (default [] (attr_as_path p1)) ?=
               get_as_path_len (default [] (attr_as_path p2))) p1 p2).
Proof.
  intros [a1 H1] [a2 H2]. unfold cmp_by_aspath. rewrite H1, H2. cbn -[get_as_path_len].
  set (l1 := get_as_path_len a1). set (l2 := get_as_path_len a2).
  destruct (Z.compare_spec l1 l2);
    destruct (Z.ltb_spec l2 l1), (Z.ltb_spec l1 l2); try lia; done.
Qed.

Lemma origin_spec p1 p2 :
  is_Some (attr_origin p1) → is_Some (attr_origin p2) →
  cmp_by_origin p1 p2 =
    Ret (pick (- get_origin_pref (default 0 (attr_origin p1)) ?=
               - get_origin_pref (default 0 (attr_origin p2))) p1 p2).
Proof.
  intros [v1 H1] [v2 H2]. unfold cmp_by_origin. rewrite H1, H2.
  unfold default, from_option, id.
  destruct (Z.eqb_spec v1 v2) as [->|Hne]; [by rewrite Z.compare_refl|].
  set (o1 := get_origin_pref v1). set (o2 := get_origin_pref v2).
  destruct (Z.compare_spec (- o1) (- o2));
    destruct (Z.eqb_spec o1 o2), (Z.ltb_spec o2 o1); try lia; done.
Qed.

Lemma med_spec p1 p2 :
  cmp_by_med p1 p2 = Ret (pick (get_path_med p1 ?= get_path_med p2) p1 p2).
Proof.
  unfold cmp_by_med. set (m1 := get_path_med p1). set (m2 := get_path_med p2).
  destruct (Z.compare_spec m1 m2);
    destruct (Z.eqb_spec m1 m2), (Z.ltb_spec m1 m2); try lia; done.
Qed.

Lemma cluster_list_spec p1 p2 :
  cmp_by_cluster_list p1 p2 =
    Ret (pick (get_cluster_list_len p1 ?= get_cluster_list_len p2) p1 p2).
Proof.
  unfold cmp_by_cluster_list.
  set (m1 := get_cluster_list_len p1). set (m2 := get_cluster_list_len p2).
  destruct (Z.compare_spec m1 m2);
    destruct (Z.ltb_spec m1 m2), (Z.ltb_spec m2 m1); try lia; done.
Qed.

Lemma get_asn_ibgp p :
  path_ok p →
  ∃ a, get_asn local_asn (path_source p) = Ret a ∧ (a =? local_asn) = is_ibgp local_asn p.
Proof.
  intros [Hs _ _ _]. unfold get_asn, is_ibgp.
  destruct (path_source p); [|done|]; eexists; split; try done.
  apply Z.eqb_refl.
Qed.

Lemma asn_spec p1 p2 :
  path_ok p1 → path_ok p2 →
  cmp_by_asn local_asn p1 p2 =
    Ret (pick ((if is_ibgp local_asn p1 then 1 else 0) ?=
               (if is_ibgp local_asn p2 then 1 else 0)) p1 p2).
Proof.
  intros H1 H2.
  destruct (get_asn_ibgp p1 H1) as (a1 & E1 & B1).
  destruct (get_asn_ibgp p2 H2) as (a2 & E2 & B2).
  unfold cmp_by_asn. rewrite E1, E2. cbn. rewrite B1, B2.
  by destruct (is_ibgp local_asn p1), (is_ibgp local_asn p2).
Qed.

(** Reached only when local origin and the kind of session agree. *)
Lemma router_id_spec p1 p2 :
  path_ok p1 → path_ok p2 → is_nc p1 = is_nc p2 →
  is_ibgp local_asn p1 = is_ibgp local_asn p2 →
  cmp_by_router_id ipv4_to_int local_asn p1 p2 =
    Ret (pick (router_id_key ipv4_to_int local_asn p1 ?=
               router_id_key ipv4_to_int local_asn p2) p1 p2).
Proof.
  intros H1 H2 Hnc Hib.
  destruct (get_asn_ibgp p1 H1) as (a1 & E1 & B1).
  destruct (get_asn_ibgp p2 H2) as (a2 & E2 & B2).
  destruct H1 as [S1 _ _ _], H2 as [S2 _ _ _].
  unfold cmp_by_router_id, router_id_key. rewrite E1, E2. cbn. rewrite B1, B2, <- Hib, <- Hnc.
  unfold is_nc, get_router_id, router_id_text in *.
  destruct (path_source p1) as [|?|q1], (path_source p2) as [|?|q2]; try done.
  destruct (is_ibgp local_asn p1); [|done]. cbn.
  assert (G : ∀ s t, rid_ok s → rid_ok t →
    (if String.eqb s t then Ret None
     else ptoi_lt (ipv4_to_int s) (ipv4_to_int t) ≫=
          λ lt : bool, if lt then Ret (Some p1) else Ret (Some p2)) =
    Ret (Ex:=pyexn) (pick (default 0 (ipv4_to_int s) ?= default 0 (ipv4_to_int t)) p1 p2)).
  { intros s t Hs Ht. destruct (String.eqb_spec s t) as [->|Hne].
    { by rewrite Z.compare_refl. }
    assert (Hd : ipv4_to_int s ≠ ipv4_to_int t) by (intros E; by apply Hne, rid_ok_inj).
    destruct Hs as (z & Hz & ->), Ht as (w & Hw & ->).
    rewrite !ipv4_roundtrip in * by done. cbn.
    assert (z ≠ w) by congruence.
    destruct (Z.ltb_spec z w), (Z.compare_spec z w); try lia; done. }
  destruct (attr_originator_id p1), (attr_originator_id p2); cbn; by apply G.
Qed.

(** One step of the chain: it decides, or the components agree and the rest of
    the chain [K] does. *)
Lemma decision_step_pick p1 p2 r0 cmp reason (a b : Z) (rest : comparison)
    (K : option path * bpr → res (option path * bpr)) :
  cmp = Ret (pick (a ?= b) p1 p2) →
  (∀ x r, K (Some x, r) = Ret (Some x, r)) →
  (a = b → ∃ r, K (None, reason) = Ret (pick rest p1 p2, r)) →
  ∃ r, (decision_step (None, r0) cmp reason ≫= K) =
       Ret (pick (match a ?= b with Eq => rest | c => c end) p1 p2, r).
Proof.
  intros -> HK HE. unfold decision_step, mbind, mret, outcome_bind, outcome_ret.
  destruct (Z.compare_spec a b) as [E|E|E]; cbn.
  - by apply HE.
  - rewrite HK; eauto.
  - rewrite HK; eauto.
Qed.

Lemma decision_step_skip p1 p2 r0 reason (rest : comparison)
    (K : option path * bpr → res (option path * bpr)) :
  (∃ r, K (None, reason) = Ret (pick rest p1 p2, r)) →
  ∃ r, (decision_step (None, r0) (mret None) reason ≫= K) = Ret (pick rest p1 p2, r).
Proof. done. Qed.

Lemma if_Z_inj (b1 b2 : bool) (x y : Z) :
  x ≠ y → (if b1 then x else y) = (if b2 then x else y) → b1 = b2.
Proof. destruct b1, b2; congruence. Qed.

(** On well-formed paths the eleven steps compute the order of the keys. *)
Lemma compute_best_path_spec p1 p2 :
  path_ok p1 → path_ok p2 →
  ∃ reason, compute_best_path ipv4_to_int local_asn p1 p2 =
    Ret (pick (lex (key p1) (key p2)) p1 p2, reason).
Proof.
  intros H1 H2. pose proof H1 as [_ A1 O1 L1]. pose proof H2 as [_ A2 O2 L2].
  unfold compute_best_path, path_key. cbn [lex].
  do 2 apply decision_step_skip.
  eapply decision_step_pick; [by apply local_pref_spec|done|intros _].
  eapply decision_step_pick; [by apply local_origin_spec|done|intros Enc].
  eapply decision_step_pick; [by apply aspath_spec|done|intros _].
  eapply decision_step_pick; [by apply origin_spec|done|intros _].
  eapply decision_step_pick; [by apply med_spec|done|intros _].
  eapply decision_step_pick; [by apply asn_spec|done|intros Eib].
  apply decision_step_skip.
  eapply decision_step_pick; [apply router_id_spec; try done|done|intros _].
  { by apply (if_Z_inj _ _ 0 1). }
  { by apply (if_Z_inj _ _ 1 0). }
  eapply decision_step_pick; [by apply cluster_list_spec|done|intros _].
  by eexists.
Qed.

(** [compute_best_known_path] folds the order: the result is at least as good
    as every path, and strictly better than the paths before it. *)
Lemma best_path_loop_spec cur reason l :
  path_ok cur → Forall path_ok l →
  ∃ best reason', best_path_loop ipv4_to_int local_asn cur reason l = Ret (best, reason') ∧
    key_le (key best) (key cur) ∧
    (best = cur ∨ key_lt (key best) (key cur)) ∧
    ∃ before after, cur :: l = before ++ best :: after ∧
      Forall (λ p, key_lt (key best) (key p)) before ∧
      Forall (λ p, key_le (key best) (key p)) after.
Proof.
  revert cur reason. induction l as [|p l IH]; intros cur reason Hc Hl.
  { exists cur, reason. split_and!; [done|reflexivity|by left|].
    exists [], []. by split_and!. }
  apply Forall_cons in Hl as [Hp Hl]. cbn [best_path_loop].
  destruct (compute_best_path_spec cur p Hc Hp) as [r Er]. rewrite Er.
  unfold mbind, outcome_bind.
  assert (Hkeep : key_le (key cur) (key p) →
    ∃ best reason', best_path_loop ipv4_to_int local_asn cur r l = Ret (best, reason') ∧
    key_le (key best) (key cur) ∧
    (best = cur ∨ key_lt (key best) (key cur)) ∧
    ∃ before after, cur :: p :: l = before ++ best :: after ∧
      Forall (λ p, key_lt (key best) (key p)) before ∧
      Forall (λ p, key_le (key best) (key p)) after).
  { intros Hp'.
    destruct (IH cur r Hc Hl) as (best & r' & -> & Hle & Hor & before & after & Heq & Hb & Ha).
    exists best, r'. split_and!; try done.
    destruct before as [|c before]; cbn in Heq; simplify_eq.
    - exists [], (p :: after). split_and!; [done|done|by constructor].
    - exists (c :: p :: before), after. apply Forall_cons in Hb as [Hb1 Hb2].
      split_and!; [done| |done]. constructor; [done|]. constructor; [|done].
      by eapply key_lt_le_trans. }
  destruct (lex (key cur) (key p)) eqn:E; cbn [pick].
  1, 2: apply Hkeep; unfold key_le; congruence.
  - destruct (IH p r Hp Hl) as (best & r' & -> & Hle & Hor & before & after & Heq & Hb & Ha).
    assert (Hlt : key_lt (key p) (key cur)).
    { unfold key_lt. by rewrite lex_antisym, E. }
    assert (Hlt' : key_lt (key best) (key cur)).
    { destruct Hor as [->|Hor]; [done|]. eapply key_lt_le_trans; [done|].
      by apply key_lt_le. }
    exists best, r'. split_and!; [done|by apply key_lt_le|by right|].
    exists (cur :: before), after. rewrite Heq. split_and!; try done. by constructor.
Qed.

(** C10: for paths of the global tables the eleven steps of
    [compute_best_path] compute the lexicographic preference order on the keys:
    the path with the smaller key is returned, a tie returns [None], and the
    outcome does not depend on the order of the arguments. *)
Theorem compute_best_path_refines_order p1 p2 :
  path_ok p1 → path_ok p2 →
  ∃ r12 r21,
    compute_best_path ipv4_to_int local_asn p1 p2 =
      Ret (pick (lex (key p1) (key p2)) p1 p2, r12) ∧
    compute_best_path ipv4_to_int local_asn p2 p1 =
      Ret (pick (lex (key p1) (key p2)) p1 p2, r21).
Proof.
  intros H1 H2.
  destruct (compute_best_path_spec p1 p2 H1 H2) as [r12 E12].
  destruct (compute_best_path_spec p2 p1 H2 H1) as [r21 E21].
  exists r12, r21. split; [done|]. rewrite E21, (lex_antisym (key p1)).
  by destruct (lex (key p1) (key p2)).
Qed.

(** C17: the best path chosen among the known paths is one of them, no known
    path is preferred to it, and among equally preferred paths it is the first
    of the list. *)
Theorem best_known_path_optimal p l :
  path_ok p → Forall path_ok l →
  ∃ best reason before after,
    compute_best_known_path ipv4_to_int local_asn (p :: l) = Some (Ret (best, reason)) ∧
    p :: l = before ++ best :: after ∧
    Forall (λ q, key_lt (key best) (key q)) before ∧
    Forall (λ q, key_le (key best) (key q)) after.
Proof.
  intros Hp Hl.
  destruct (best_path_loop_spec p BPR_ONLY_PATH l Hp Hl)
    as (best & reason & E & _ & _ & before & after & Hsplit & Hb & Ha).
  exists best, reason, before, after. split_and!; try done.
  cbn. by rewrite E.
Qed.
End refinement.

(** ** Errors *)

Definition no_value_error {A} (m : res A) : Prop := m ≠ Raise ValueError.

Lemma no_value_error_bind {A B} (m : res A) (k : A → res B) :
  no_value_error m → (∀ a, m = Ret a → no_value_error (k a)) → no_value_error (m ≫= k).
Proof. unfold no_value_error. destruct m; cbn; [|congruence]. eauto. Qed.

Lemma no_value_error_step cur cmp reason :
  (cur.1 = None → no_value_error cmp) → no_value_error (decision_step cur cmp reason).
Proof.
  destruct cur as [[p|] r]; cbn; intros H; [done|]. specialize (H eq_refl).
  by destruct cmp; cbn; [|congruence].
Qed.

Lemma cmp_by_asn_tie local_asn p1 p2 a1 a2 :
  get_asn local_asn (path_source p1) = Ret a1 →
  get_asn local_asn (path_source p2) = Ret a2 →
  cmp_by_asn local_asn p1 p2 = Ret None →
  (a1 =? local_asn) = (a2 =? local_asn).
Proof.
  unfold cmp_by_asn. intros -> ->. cbn.
  by destruct (a1 =? local_asn), (a2 =? local_asn).
Qed.

Lemma get_asn_nve local_asn s : no_value_error (get_asn local_asn s).
Proof. by destruct s. Qed.

Lemma sent_id_nve s : no_value_error (sent_id s).
Proof. by destruct s. Qed.

Lemma get_router_id_nve p i : no_value_error (get_router_id p i).
Proof. unfold get_router_id. repeat case_match; done. Qed.

Lemma ptoi_lt_nve i1 i2 : no_value_error (ptoi_lt i1 i2).
Proof. unfold ptoi_lt. repeat case_match; done. Qed.

Create HintDb nve.
#[export] Hint Resolve get_asn_nve sent_id_nve get_router_id_nve ptoi_lt_nve : nve.

(** After a tie on the kind of session the router id step raises no
    [ValueError]. *)
Lemma router_id_no_value_error ipv4_to_int local_asn p1 p2 :
  cmp_by_asn local_asn p1 p2 = Ret None →
  no_value_error (cmp_by_router_id ipv4_to_int local_asn p1 p2).
Proof.
  intros Htie. unfold cmp_by_router_id.
  assert (Hmain : no_value_error (
    asn1 ← get_asn local_asn (path_source p1);
    asn2 ← get_asn local_asn (path_source p2);
    let is_ebgp1 := negb (asn1 =? local_asn) in
    let is_ebgp2 := negb (asn2 =? local_asn) in
    if is_ebgp1 && is_ebgp2 then mret None
    else if (is_ebgp1 && negb is_ebgp2) || (negb is_ebgp1 && is_ebgp2)
    then Raise ValueError
    else
      local_bgp_id ← (match path_source p1 with
                      | SrcNC => sent_id (path_source p2)
                      | _ => sent_id (path_source p1)
                      end);
      router_id1 ← get_router_id p1 local_bgp_id;
      router_id2 ← get_router_id p2 local_bgp_id;
      if String.eqb router_id1 router_id2 then mret None
      else
        lt ← ptoi_lt (ipv4_to_int router_id1) (ipv4_to_int router_id2);
        if lt : bool then mret (Some p1) else mret (Some p2))).
  { apply no_value_error_bind; [auto with nve|intros a1 E1].
    apply no_value_error_bind; [auto with nve|intros a2 E2]. cbn.
    rewrite (cmp_by_asn_tie _ _ _ _ _ E1 E2 Htie).
    destruct (a2 =? local_asn); cbn; [|done].
    apply no_value_error_bind; [destruct (path_source p1); auto with nve|intros ? _].
    do 2 (apply no_value_error_bind; [auto with nve|intros ? _]).
    case_match; [done|].
    apply no_value_error_bind; [auto with nve|intros [] _]; done. }
  destruct (path_source p1), (path_source p2); done.
Qed.

(** on arbitrary paths, well-formed or not, the decision process never fails
    with the [ValueError] of the router id step: a comparison of an eBGP with an
    iBGP path is always decided by the step before it. *)
Theorem compute_best_path_no_value_error ipv4_to_int local_asn p1 p2 :
  compute_best_path ipv4_to_int local_asn p1 p2 ≠ Raise ValueError.
Proof.
  assert (Hcmp : no_value_error (cmp_by_local_pref p1 p2) ∧
    no_value_error (cmp_by_local_origin p1 p2) ∧ no_value_error (cmp_by_aspath p1 p2) ∧
    no_value_error (cmp_by_origin p1 p2) ∧ no_value_error (cmp_by_med p1 p2) ∧
    no_value_error (cmp_by_cluster_list p1 p2)).
  { unfold cmp_by_local_pref, cmp_by_local_origin, cmp_by_aspath, cmp_by_origin,
      cmp_by_med, cmp_by_cluster_list.
    split_and!; repeat case_match; done. }
  destruct Hcmp as (? & ? & ? & ? & ? & ?).
  assert (Hasn : no_value_error (cmp_by_asn local_asn p1 p2)).
  { unfold cmp_by_asn. do 2 (apply no_value_error_bind; [auto with nve|intros ? _]).
    repeat case_match; done. }
  assert (Hnone : no_value_error (mret None : res (option path))) by done.
  unfold compute_best_path.
  do 2 (apply no_value_error_bind; [by apply no_value_error_step|intros ? _]).
  do 4 (apply no_value_error_bind; [by apply no_value_error_step|intros ? _]).
  apply no_value_error_bind; [by apply no_value_error_step|intros c7 _].
  apply no_value_error_bind; [by apply no_value_error_step|intros c8 E8].
  apply no_value_error_bind; [by apply no_value_error_step|intros c9 E9].
  apply no_value_error_bind.
  { apply no_value_error_step. intros E. apply router_id_no_value_error.
    destruct c9 as [[x|] r9]; [done|].
    destruct c8 as [[x|] r8]; [done|].
    destruct c7 as [[x|] r7]; [done|]. cbn in E8.
    by destruct (cmp_by_asn local_asn p1 p2) as [[x|]|]. }
  intros c10 _.
  apply no_value_error_bind; [by apply no_value_error_step|intros c11 _].
  repeat case_match; done.
Qed.

(** ** Missing local preferences *)

Definition lp_path (i : Z) (lp : option Z) (len : nat) : path :=
  {| path_id := i; path_rf := 65537;
     path_source := SrcPeer (Peer i 65001 "1.1.1.1" "2.2.2.2");
     source_version_num := 1; path_nlri := Nlri 65537 "10.0.0.0/8" 8 ""; is_withdraw := false;
     attr_local_pref := lp; attr_as_path := Some [AsSequence (replicate len 65001)];
     attr_origin := Some BGP_ATTR_ORIGIN_IGP; attr_med := None;
     attr_originator_id := None; attr_cluster_list := None; attr_rt_list := None |}.

(** the comparison is skipped, rather than made with the default of 100,
    when one path carries no LOCAL_PREF: three such paths beat each other in a
    cycle, and the best path depends on the order they were learned in. *)
Theorem missing_local_pref_cycle ipv4_to_int :
  let a := lp_path 1 (Some 200) 3 in
  let b := lp_path 2 None 2 in
  let c := lp_path 3 (Some 100) 1 in
  compute_best_path ipv4_to_int 65000 a c = Ret (Some a, BPR_LOCAL_PREF) ∧
  compute_best_path ipv4_to_int 65000 c b = Ret (Some c, BPR_ASPATH) ∧
  compute_best_path ipv4_to_int 65000 b a = Ret (Some b, BPR_ASPATH) ∧
  compute_best_known_path ipv4_to_int 65000 [a; b; c] = Some (Ret (c, BPR_ASPATH)) ∧
  compute_best_known_path ipv4_to_int 65000 [c; b; a] = Some (Ret (a, BPR_LOCAL_PREF)).
Proof. by split_and!. Qed.

(** ** Witnesses *)

Module Witness.
(** Four raw bytes stand for the printed identifier. *)
Definition byte_of (z : Z) : Ascii.ascii := Ascii.ascii_of_N (Z.to_N (z `mod` 256)).
Definition of_byte (c : Ascii.ascii) : Z := Z.of_N (Ascii.N_of_ascii c).

Definition to_str (z : Z) : string :=
  String (byte_of (z / 16777216)) (String (byte_of (z / 65536))
    (String (byte_of (z / 256)) (String (byte_of z) ""))).

Definition to_int (s : string) : option Z :=
  match s with
  | String a (String b (String c (String d EmptyString))) =>
      Some (of_byte a * 16777216 + of_byte b * 65536 + of_byte c * 256 + of_byte d)
  | _ => None
  end.

Lemma of_byte_of z : of_byte (byte_of z) = z `mod` 256.
Proof.
  unfold of_byte, byte_of. pose proof (Z.mod_pos_bound z 256).
  rewrite Ascii.N_ascii_embedding; [lia|].
  apply N2Z.inj_lt. rewrite Z2N.id; lia.
Qed.

Lemma roundtrip z : 0 ≤ z < 2 ^ 32 → to_int (to_str z) = Some z.
Proof.
  intros Hz. unfold to_int, to_str. rewrite !of_byte_of. f_equal.
  Z.div_mod_to_equations. lia.
Qed.

Definition mk (i asn lp : Z) (rid : Z) : path :=
  {| path_id := i; path_rf := 65537;
     path_source := SrcPeer (Peer i asn (to_str 1) (to_str rid));
     source_version_num := 1; path_nlri := Nlri 65537 "10.0.0.0/8" 8 ""; is_withdraw := false;
     attr_local_pref := Some lp; attr_as_path := Some [AsSequence [asn]];
     attr_origin := Some BGP_ATTR_ORIGIN_IGP; attr_med := None;
     attr_originator_id := None; attr_cluster_list := None; attr_rt_list := None |}.

Lemma mk_ok i asn lp rid : 0 ≤ rid < 2 ^ 32 → path_ok to_str (mk i asn lp rid).
Proof. intros H. split; cbn; eauto. by exists rid. Qed.

(** Two iBGP paths decided by the router id. *)
Lemma refines_order_witness :
  let p1 := mk 1 65000 100 9 in
  let p2 := mk 2 65000 100 5 in
  ∃ r12 r21,
    compute_best_path to_int 65000 p1 p2 =
      Ret (pick (lex (path_key to_int 65000 p1) (path_key to_int 65000 p2)) p1 p2, r12) ∧
    compute_best_path to_int 65000 p2 p1 =
      Ret (pick (lex (path_key to_int 65000 p1) (path_key to_int 65000 p2)) p1 p2, r21).
Proof.
  apply (compute_best_path_refines_order to_str to_int roundtrip 65000);
    apply mk_ok; lia.
Defined.

Lemma optimal_witness :
  let ps := [mk 1 65000 100 9; mk 2 65000 100 5; mk 3 65000 90 1] in
  ∃ best reason before after,
    compute_best_known_path to_int 65000 ps = Some (Ret (best, reason)) ∧
    ps = before ++ best :: after ∧
    Forall (λ q, key_lt (path_key to_int 65000 best) (path_key to_int 65000 q)) before ∧
    Forall (λ q, key_le (path_key to_int 65000 best) (path_key to_int 65000 q)) after.
Proof.
  apply (best_known_path_optimal to_str to_int roundtrip 65000).
  - apply mk_ok; lia.
  - repeat constructor; apply mk_ok; lia.
Defined.
End Witness.
