(* ===== verification/BgpTable.v ===== *)
(** * The BGP routing table

    Models [ryu/services/protocols/bgp/info_base/base.py] ([Table], [Destination],
    [NonVrfPathProcessingMixin], the withdrawal part of [Path]) with the concrete
    classes of [info_base/ipv4.py]: how received paths and withdrawals of a prefix
    become known paths, how the best path and the routes sent to peers follow, and
    when a prefix leaves the table.

    A destination is a record of the lists the Python object keeps; its methods
    are computations over it whose outputs are the calls that leave the component.
    Path equality is identity of objects, so the clones made for withdrawals get
    fresh identities from [d_next_id]. *)

From stdpp Require Import base list strings sets.
From Stdlib Require Import ZArith Lia.
From S2P Require Import Prelude Odict BgpDecision.

(** ** Data *)

Record sent_route := SentRoute {
  sent_path : path;
  sent_peer : peer
}.

Record dest := Dest {
  d_nlri : nlri;
  d_known : list path;
  d_new : list path;
  d_best : option path;
  d_reason : option bpr;
  d_withdraw : list path;
  d_sent : odict Z sent_route;
  d_next_id : Z
}.

#[export] Instance eta_dest : Eta dest := EtaBox (λ d,
  Dest (d_nlri d) (d_known d) (d_new d) (d_best d) (d_reason d) (d_withdraw d)
       (d_sent d) (d_next_id d)).

Inductive rib_out :=
| CommNewBest (p : path)                          (* peer_manager.comm_new_best_to_bgp_peers *)
| SendWithdraw (to : peer) (p : path)             (* peer.enque_outgoing_msg *)
| BestPathChanged (p : option path) (is_wd : bool)  (* signal_bus.best_path_changed *)
| DestChanged (prefix : string).                  (* signal_bus.dest_changed *)

Definition new_dest (n : nlri) (first_id : Z) : dest :=
  Dest n [] [] None None [] [] first_id.

Abbreviation DM := (M dest pyexn rib_out).

(** ** Lists of paths *)

Definition same_path (p q : path) : bool := path_id p =? path_id q.
Definition same_source (p q : path) : bool :=
  source_eqb (path_source p) (path_source q).

Definition path_in (p : path) (l : list path) : bool := existsb (same_path p) l.

(** [l.remove(p)]: the first element equal to [p]. *)
Fixpoint remove_path (p : path) (l : list path) : list path :=
  match l with
  | [] => []
  | q :: l' => if same_path p q then l' else q :: remove_path p l'
  end.

Fixpoint find_source (p : path) (l : list path) : option path :=
  match l with
  | [] => None
  | q :: l' => if same_source p q then Some q else find_source p l'
  end.

(** A set of path objects, kept as a list without repetition. *)
Definition set_add (p : path) (s : list path) : list path :=
  if path_in p s then s else s ++ [p].

Definition remove_all (ps l : list path) : list path :=
  foldl (λ l p, remove_path p l) l ps.

(** ** Path *)

Definition DEFAULT_RT : string := "0:0".

Definition get_rts (p : path) : list string := default [] (attr_rt_list p).

Definition has_rts_in (p : path) (interested_rts : list string) : bool :=
  existsb (λ rt, bool_decide (rt ∈ interested_rts)) (get_rts p ++ [DEFAULT_RT]).

(** [clone(for_withdrawal=True)] *)
Definition clone_for_withdrawal (p : path) : DM path :=
  i ← gets d_next_id;
  modify (λ d, d <| d_next_id := i + 1 |>);;
  mret {| path_id := i; path_rf := path_rf p; path_source := path_source p;
          source_version_num := source_version_num p; path_nlri := path_nlri p;
          is_withdraw := true; attr_local_pref := None; attr_as_path := None;
          attr_origin := None; attr_med := None; attr_originator_id := None;
          attr_cluster_list := None; attr_rt_list := None |}.

(** ** Destination *)

Definition validate_path (rf : Z) (p : path) : DM () :=
  if path_rf p =? rf then mret tt else raise ValueError.

Definition add_new_path (rf : Z) (p : path) : DM () :=
  validate_path rf p;;
  modify (λ d, d <| d_new ::= λ l, l ++ [p] |>).

Definition add_withdraw (rf : Z) (p : path) : DM () :=
  validate_path rf p;;
  modify (λ d, d <| d_withdraw ::= λ l, l ++ [p] |>).

Definition add_sent_route (sr : sent_route) : DM () :=
  modify (λ d, d <| d_sent ::= od_set (peer_id (sent_peer sr)) sr |>).

Definition remove_sent_route (q : peer) : DM bool :=
  sent ← gets d_sent;
  if od_mem (peer_id q) sent
  then modify (λ d, d <| d_sent ::= od_del (peer_id q) |>);; mret true
  else mret false.

(** Versions of the peer below its current one are old. *)
Definition remove_old_paths_from_source (q : peer) (version_num : Z) : DM (list path) :=
  known ← gets d_known;
  let old p := source_eqb (path_source p) (SrcPeer q) &&
               (source_version_num p <? version_num) in
  modify (λ d, d <| d_known := List.filter (λ p, negb (old p)) known |>);;
  mret (rev (List.filter old known)).

Definition withdraw_if_sent_to (q : peer) : DM bool :=
  sent ← gets d_sent;
  modify (λ d, d <| d_sent ::= od_del (peer_id q) |>);;
  match od_get (peer_id q) sent with
  | None => mret false
  | Some sr =>
      c ← clone_for_withdrawal (sent_path sr);
      emit (SendWithdraw (sent_peer sr) c);;
      mret true
  end.

Definition match_withdrawals (known withdraws : list path) : list path * list path :=
  foldl (λ '(matches, w_matches) w,
    match find_source w known with
    | Some p => (set_add p matches, set_add w w_matches)
    | None => (matches, w_matches)
    end) ([], []) withdraws.

Definition remove_withdrawals_lists (known withdraws : list path)
    : list path * list path :=
  match withdraws with
  | [] => (known, withdraws)
  | _ =>
      match known with
      | [] => (known, [])
      | _ =>
          let '(matches, w_matches) := match_withdrawals known withdraws in
          (remove_all matches known, remove_all w_matches withdraws)
      end
  end.

Definition remove_withdrawals : DM () :=
  modify (λ d,
    let '(known, withdraws) := remove_withdrawals_lists (d_known d) (d_withdraw d) in
    d <| d_known := known |> <| d_withdraw := withdraws |>).

(** Each new path implicitly withdraws the first known path of its source. *)
Definition remove_old_paths_lists (known new : list path) : list path :=
  foldl (λ known n,
    match find_source n known with
    | Some p => remove_path p known
    | None => known
    end) known new.

Definition remove_old_paths : DM () :=
  modify (λ d, d <| d_known := remove_old_paths_lists (d_known d) (d_new d) |>).

Definition withdraw_path (p : path) : DM () :=
  known ← gets d_known;
  if path_in p known then
    c ← clone_for_withdrawal p;
    modify (λ d, d <| d_withdraw ::= λ l, l ++ [c] |>)
  else raise ValueError.

Definition withdraw_uninteresting_paths (interested_rts : list string) : DM bool :=
  known ← gets d_known;
  for_each known (λ p, when (negb (has_rts_in p interested_rts)) (withdraw_path p));;
  mret (existsb (λ p, negb (has_rts_in p interested_rts)) known).

(** The loop that withdraws what was sent; [reset] also clears the routes, as
    the loop of [_new_best_path] does. *)
Definition send_withdrawals (reset : bool) (sent : odict Z sent_route) : DM () :=
  for_each (od_values sent) (λ sr,
    c ← clone_for_withdrawal (sent_path sr);
    emit (SendWithdraw (sent_peer sr) c);;
    when reset (modify (λ d, d <| d_sent := [] |>))).

(** [NonVrfPathProcessingMixin._best_path_lost] within [IPv4Dest._best_path_lost]. *)
Definition best_path_lost : DM () :=
  old_best_path ← gets d_best;
  modify (λ d, d <| d_best := None |>);;
  sent ← gets d_sent;
  when (nonempty sent)
    (send_withdrawals false sent;;
     modify (λ d, d <| d_sent := [] |>));;
  emit (BestPathChanged old_best_path true).

(** [NonVrfPathProcessingMixin._new_best_path] within [IPv4Dest._new_best_path]. *)
Definition new_best_path (best : path) : DM () :=
  old_best_path ← gets d_best;
  modify (λ d, d <| d_best := Some best |>);;
  known ← gets d_known;
  sent ← gets d_sent;
  when (match old_best_path with
        | Some old => negb (path_in old known) && nonempty sent
        | None => false
        end) (modify (λ d, d <| d_sent := [] |>));;
  emit (CommNewBest best);;
  sent' ← gets d_sent;
  when (match old_best_path with
        | Some _ => nonempty sent'
        | None => false
        end) (send_withdrawals true sent');;
  emit (BestPathChanged (Some best) false).

Section process.
Context (ipv4_to_int : string → option Z) (local_asn : Z).

Definition compute_best_known : DM (path * bpr) :=
  known ← gets d_known;
  match compute_best_known_path ipv4_to_int local_asn known with
  | None => raise (RyuException "BgpProcessorError")
  | Some r => lift r
  end.

Definition process_paths : DM (option path * bpr) :=
  remove_withdrawals;;
  known ← gets d_known;
  new ← gets d_new;
  match known, new with
  | [], [p] =>
      modify (λ d, d <| d_known := [p] |> <| d_new := [] |>);;
      mret (Some p, BPR_ONLY_PATH)
  | _, _ =>
      remove_old_paths;;
      modify (λ d, d <| d_known ::= λ l, l ++ d_new d |> <| d_new := [] |>);;
      known' ← gets d_known;
      match known' with
      | [] => mret (None, BPR_UNKNOWN)
      | _ :: _ =>
          c ← compute_best_known;
          mret (Some c.1, c.2)
      end
  end.

Definition opt_same_path (o1 o2 : option path) : bool :=
  match o1, o2 with
  | None, None => true
  | Some p, Some q => same_path p q
  | _, _ => false
  end.

(** [Destination._process] *)
Definition process_dest : DM () :=
  c ← process_paths;
  let '(new_best, reason) := c : option path * bpr in
  modify (λ d, d <| d_reason := Some reason |>);;
  best ← gets d_best;
  if opt_same_path best new_best then mret tt
  else match new_best with
  | None =>
      known ← gets d_known;
      assert_ (negb (nonempty known)) AssertionError;;
      best_path_lost
  | Some p => new_best_path p
  end.
End process.

(** ** Table *)

(** [next_oid] is where the identities of a new destination's clones start. *)
Record table := Table {
  t_rf : Z;
  t_dests : odict string dest;
  t_next_oid : Z
}.

#[export] Instance eta_table : Eta table := EtaBox (λ t,
  Table (t_rf t) (t_dests t) (t_next_oid t)).

Abbreviation TM := (M table pyexn rib_out).

(** [Ipv4Table._table_key] *)
Definition table_key (n : nlri) : string := nlri_prefix n.

(** Runs a method of the destination stored under [key]. *)
Definition on_dest {A} (key : string) (m : DM A) : TM A := λ t,
  match od_get key (t_dests t) with
  | None => ([], t, Raise KeyError)
  | Some d =>
      let '(o, d', r) := m d in
      (o, t <| t_dests ::= od_set key d' |>, r)
  end.

Definition table_validate_nlri (n : nlri) : TM () :=
  rf ← gets t_rf;
  if nlri_rf n =? rf then mret tt else raise ValueError.

Definition table_validate_path (p : path) : TM () :=
  rf ← gets t_rf;
  if path_rf p =? rf then mret tt else raise ValueError.

Definition get_or_create_dest (n : nlri) : TM string :=
  modify (λ t, t <| t_dests ::=
    od_setdefault (table_key n) (new_dest n (t_next_oid t)) |>);;
  mret (table_key n).

Definition insert_path (p : path) : TM string :=
  assert_ (negb (is_withdraw p)) AssertionError;;
  key ← get_or_create_dest (path_nlri p);
  rf ← gets t_rf;
  on_dest key (add_new_path rf p);;
  mret key.

Definition insert_withdraw (p : path) : TM string :=
  assert_ (is_withdraw p) AssertionError;;
  key ← get_or_create_dest (path_nlri p);
  rf ← gets t_rf;
  on_dest key (add_withdraw rf p);;
  mret key.

(** [Table.insert] *)
Definition insert (p : path) : TM string :=
  table_validate_path p;;
  table_validate_nlri (path_nlri p);;
  if is_withdraw p then insert_withdraw p else insert_path p.

Definition insert_sent_route (sr : sent_route) : TM () :=
  table_validate_path (sent_path sr);;
  key ← get_or_create_dest (path_nlri (sent_path sr));
  on_dest key (add_sent_route sr).

Definition cleanup_paths_for_peer (q : peer) (version_num : Z) : TM () :=
  dests ← gets t_dests;
  for_each (od_keys dests) (λ key,
    paths_deleted ← on_dest key (remove_old_paths_from_source q version_num);
    on_dest key (remove_sent_route q);;
    when (nonempty paths_deleted) (emit (DestChanged key))).

Definition clean_uninteresting_paths (interested_rts : list string) : TM () :=
  dests ← gets t_dests;
  for_each (od_keys dests) (λ key,
    added_withdraw ← on_dest key (withdraw_uninteresting_paths interested_rts);
    when added_withdraw (emit (DestChanged key))).

Definition delete_dest (n : nlri) : TM () :=
  dests ← gets t_dests;
  if od_mem (table_key n) dests
  then modify (λ t, t <| t_dests ::= od_del (table_key n) |>)
  else raise KeyError.

(** [self._destinations.pop(dest)] looks the destination object itself up as a
    key: [Destination] defines [__eq__] without [__hash__] and is not hashable. *)
Definition delete_dest_by_nlri (n : nlri) : TM (option dest) :=
  table_validate_nlri n;;
  dests ← gets t_dests;
  match od_get (table_key n) dests with
  | Some _ => raise TypeError
  | None => mret None
  end.

(** [Destination.process] *)
Definition process (ipv4_to_int : string → option Z) (local_asn : Z) (key : string)
    : TM () :=
  n ← on_dest key (process_dest ipv4_to_int local_asn;; gets d_nlri);
  known ← on_dest key (gets d_known);
  best ← on_dest key (gets d_best);
  match known, best with
  | [], None => delete_dest n
  | _, _ => mret tt
  end.

(** The calls of the core into a table. *)
Inductive table_op :=
| OpInsert (p : path)
| OpInsertSentRoute (sr : sent_route)
| OpCleanupPeer (q : peer) (version_num : Z)
| OpCleanUninteresting (interested_rts : list string)
| OpProcess (key : string).

Definition run_table_op ipv4_to_int local_asn (op : table_op) : TM () :=
  match op with
  | OpInsert p => insert p;; done_
  | OpInsertSentRoute sr => insert_sent_route sr
  | OpCleanupPeer q v => cleanup_paths_for_peer q v
  | OpCleanUninteresting rts => clean_uninteresting_paths rts
  | OpProcess key => process ipv4_to_int local_asn key
  end.

(** ** Lists of paths: lemmas *)

(** Sources up to the equality of the code. *)
Definition source_key (s : source) : option (Z + string) :=
  match s with
  | SrcNC => None
  | SrcTable n => Some (inr n)
  | SrcPeer p => Some (inl (peer_id p))
  end.

Definition pkey (p : path) : option (Z + string) := source_key (path_source p).

Lemma source_eqb_key s1 s2 : source_eqb s1 s2 = true ↔ source_key s1 = source_key s2.
Proof.
  destruct s1, s2; cbn; try done.
  - rewrite String.eqb_eq. split; [by intros ->|by intros [= ->]].
  - rewrite Z.eqb_eq. split; [by intros ->|by intros [= ->]].
Qed.

Lemma same_source_key p q : same_source p q = true ↔ pkey p = pkey q.
Proof. apply source_eqb_key. Qed.

Lemma same_source_false p q : same_source p q = false ↔ pkey p ≠ pkey q.
Proof. rewrite <- same_source_key. by destruct (same_source p q). Qed.

(** A list of known paths is well formed when no two paths share a source and
    the objects are distinct. *)
Definition one_per_source (l : list path) : Prop := NoDup (pkey <$> l).
Definition distinct (l : list path) : Prop := NoDup (path_id <$> l).

(** The path a source contributes. *)
Fixpoint lookup_source (k : option (Z + string)) (l : list path) : option path :=
  match l with
  | [] => None
  | p :: l' => if decide (pkey p = k) then Some p else lookup_source k l'
  end.

Lemma find_source_lookup p l : find_source p l = lookup_source (pkey p) l.
Proof.
  induction l as [|q l IH]; cbn; [done|].
  destruct (same_source p q) eqn:E.
  - apply same_source_key in E. by rewrite decide_True.
  - apply same_source_false in E. by rewrite decide_False.
Qed.

Lemma lookup_source_elem k l p : lookup_source k l = Some p → p ∈ l ∧ pkey p = k.
Proof.
  induction l as [|q l IH]; cbn; [done|].
  case_decide as Hk; [intros [= ->]; split; [left|done]|].
  intros H. destruct (IH H). split; [by right|done].
Qed.

Lemma lookup_source_None k l : lookup_source k l = None ↔ k ∉ (pkey <$> l).
Proof.
  induction l as [|q l IH]; cbn; [split; [intros _; apply not_elem_of_nil|done]|].
  rewrite not_elem_of_cons, <- IH. case_decide as Hk.
  - split; [done|]. intros [? _]. congruence.
  - split; [auto|by intros [_ ?]].
Qed.

Lemma lookup_source_app k l1 l2 :
  lookup_source k (l1 ++ l2) =
    match lookup_source k l1 with Some p => Some p | None => lookup_source k l2 end.
Proof. induction l1 as [|q l1 IH]; cbn; [done|]. by case_decide. Qed.

Lemma remove_path_elem p q l : q ∈ remove_path p l → q ∈ l.
Proof.
  induction l as [|r l IH]; cbn; [done|].
  destruct (same_path p r); [by right|].
  rewrite !elem_of_cons. intros [->|?]; auto.
Qed.

Lemma remove_path_sublist p l : remove_path p l `sublist_of` l.
Proof.
  induction l as [|r l IH]; cbn; [done|].
  destruct (same_path p r); [by apply sublist_cons|by apply sublist_skip].
Qed.

Lemma NoDup_fmap_sublist {A B} (f : A → B) l1 l2 :
  l1 `sublist_of` l2 → NoDup (f <$> l2) → NoDup (f <$> l1).
Proof.
  intros Hs Hnd. eapply sublist_NoDup; [exact Hnd|]. clear Hnd.
  induction Hs; cbn; [done|by apply sublist_skip|by apply sublist_cons].
Qed.

Lemma remove_path_lookup p l k :
  one_per_source l → distinct l → p ∈ l →
  lookup_source k (remove_path p l) =
    if decide (k = pkey p) then None else lookup_source k l.
Proof.
  unfold one_per_source, distinct.
  induction l as [|q l IH]; cbn; [by rewrite elem_of_nil|].
  rewrite !NoDup_cons. intros [Hs1 Hs2] [Hd1 Hd2] Hin.
  destruct (same_path p q) eqn:E.
  - apply Z.eqb_eq in E.
    assert (p = q) as ->.
    { apply elem_of_cons in Hin as [->|Hin]; [done|].
      destruct Hd1. rewrite <- E. by apply list_elem_of_fmap_2. }
    destruct (decide (k = pkey q)) as [->|Hne].
    + by apply lookup_source_None.
    + by rewrite decide_False by congruence.
  - apply elem_of_cons in Hin as [->|Hin].
    { unfold same_path in E. by rewrite Z.eqb_refl in E. }
    cbn. rewrite IH by done.
    destruct (decide (pkey q = k)) as [Hq|Hq], (decide (k = pkey p)) as [Hp|Hp]; try done.
    destruct Hs1. rewrite Hq, Hp. by apply list_elem_of_fmap_2.
Qed.

Lemma remove_path_ok p l :
  one_per_source l → distinct l →
  one_per_source (remove_path p l) ∧ distinct (remove_path p l).
Proof.
  intros H1 H2. pose proof (remove_path_sublist p l) as Hs.
  split; by eapply NoDup_fmap_sublist.
Qed.

(** Removing paths that were found in the list by their sources. *)
Lemma remove_all_lookup ps l k :
  one_per_source l → distinct l → distinct ps → Forall (λ p, p ∈ l) ps →
  lookup_source k (remove_all ps l) =
    (if decide (k ∈ (pkey <$> ps)) then None else lookup_source k l) ∧
  remove_all ps l `sublist_of` l.
Proof.
  revert l. induction ps as [|p ps IH]; intros l H1 H2 Hd Hall; cbn.
  { split; [|done]. by rewrite decide_False by apply not_elem_of_nil. }
  apply Forall_cons in Hall as [Hp Hall].
  unfold distinct in Hd. cbn in Hd. apply NoDup_cons in Hd as [Hnot Hd].
  destruct (remove_path_ok p l H1 H2) as [H1' H2'].
  assert (Hall' : Forall (λ q, q ∈ remove_path p l) ps).
  { rewrite Forall_forall in Hall |- *. intros q Hq. specialize (Hall q Hq).
    assert (Hne : path_id q ≠ path_id p).
    { intros E. apply Hnot. rewrite <- E. by apply list_elem_of_fmap_2. }
    clear -Hall Hne. induction l as [|r l IH]; cbn; [by apply elem_of_nil in Hall|].
    apply elem_of_cons in Hall as [->|Hin].
    - destruct (same_path p _) eqn:E; [|by left]. apply Z.eqb_eq in E. congruence.
    - destruct (same_path p r); [done|]. right. by apply IH. }
  destruct (IH _ H1' H2' Hd Hall') as [Hl Hs]. split.
  - unfold remove_all in Hl. cbn in Hl. rewrite Hl, remove_path_lookup by done.
    destruct (decide (k = pkey p)) as [->|Hne].
    + rewrite (decide_True (P := pkey p ∈ pkey p :: _)) by by left. by case_decide.
    + destruct (decide (k ∈ (pkey <$> ps))).
      * by rewrite decide_True by by right.
      * rewrite decide_False; [done|]. by apply not_elem_of_cons.
  - etrans; [exact Hs|apply remove_path_sublist].
Qed.

Lemma path_in_elem p l : p ∈ l → path_in p l = true.
Proof.
  intros Hin. unfold path_in. apply existsb_exists. exists p.
  split; [by apply list_elem_of_In|]. apply Z.eqb_refl.
Qed.

Lemma path_in_id p l : path_in p l = true ↔ path_id p ∈ (path_id <$> l).
Proof.
  unfold path_in, same_path. rewrite existsb_exists, list_elem_of_fmap. split.
  - intros (q & Hq & E). apply Z.eqb_eq in E. exists q. by rewrite list_elem_of_In.
  - intros (q & E & Hq). exists q. by rewrite <- list_elem_of_In, Z.eqb_eq.
Qed.

Lemma set_add_distinct p s : distinct s → distinct (set_add p s).
Proof.
  intros Hs. unfold set_add. destruct (path_in p s) eqn:E; [done|].
  unfold distinct. rewrite fmap_app. apply NoDup_app. split_and!; [done| |apply NoDup_singleton].
  intros i Hi. cbn. rewrite list_elem_of_singleton. intros ->.
  apply path_in_id in Hi. congruence.
Qed.

Lemma match_withdrawals_spec known ws :
  distinct known →
  let matches := (match_withdrawals known ws).1 in
  distinct matches ∧ Forall (λ p, p ∈ known) matches ∧
  ∀ k, k ∈ (pkey <$> matches) ↔ k ∈ (pkey <$> ws) ∧ k ∈ (pkey <$> known).
Proof.
  intros Hd. unfold match_withdrawals. cbn.
  set (f := λ '(matches, w_matches) w, _).
  assert (Hgen : ∀ ws m wm,
    distinct m → Forall (λ p, p ∈ known) m →
    distinct (foldl f (m, wm) ws).1 ∧ Forall (λ p, p ∈ known) (foldl f (m, wm) ws).1 ∧
    ∀ k, k ∈ (pkey <$> (foldl f (m, wm) ws).1) ↔
      k ∈ (pkey <$> m) ∨ (k ∈ (pkey <$> ws) ∧ k ∈ (pkey <$> known))).
  { clear ws. induction ws as [|w ws IH]; intros m wm Hm Hall; cbn.
    { split_and!; try done. intros k. rewrite elem_of_nil. tauto. }
    rewrite find_source_lookup. destruct (lookup_source (pkey w) known) as [p|] eqn:E; cbn.
    - destruct (lookup_source_elem _ _ _ E) as [Hin Hk].
      assert (Hall' : Forall (λ p, p ∈ known) (set_add p m)).
      { unfold set_add. case_match; [done|]. apply Forall_app. by split; [|repeat constructor]. }
      destruct (IH (set_add p m) (set_add w wm) (set_add_distinct p m Hm) Hall')
        as (H1 & H2 & H3). split_and!; try done.
      intros k. rewrite H3, elem_of_cons.
      assert (Hadd : k ∈ (pkey <$> set_add p m) ↔ k ∈ (pkey <$> m) ∨ k = pkey p).
      { unfold set_add. destruct (path_in p m) eqn:Ep.
        - split; [by left|]. intros [?| ->]; [done|].
          apply path_in_id in Ep. apply list_elem_of_fmap in Ep as (q & Eq & Hq).
          rewrite Forall_forall in Hall. specialize (Hall q Hq).
          assert (p = q) as ->; [|by apply list_elem_of_fmap_2].
          clear -Hd Hin Hall Eq. unfold distinct in Hd.
          induction known as [|r l IHl]; [by apply elem_of_nil in Hin|].
          cbn in Hd. apply NoDup_cons in Hd as [Hn Hd].
          apply elem_of_cons in Hin as [->|Hin], Hall as [->|Hall]; auto;
            destruct Hn; [rewrite Eq|rewrite <- Eq]; by apply list_elem_of_fmap_2.
        - rewrite fmap_app, elem_of_app. cbn. by rewrite list_elem_of_singleton. }
      rewrite Hadd, Hk. split.
      + intros [[?| ->]|[? ?] ]; try tauto. right. split; [by left|].
        rewrite <- Hk. by apply list_elem_of_fmap_2.
      + intros [?|[[->|?] ?] ]; tauto.
    - apply lookup_source_None in E.
      destruct (IH m wm Hm Hall) as (H1 & H2 & H3). split_and!; try done.
      intros k. rewrite H3, elem_of_cons. split; [tauto|].
      intros [?|[[->|?] ?] ]; tauto. }
  destruct (Hgen ws [] []) as (H1 & H2 & H3); [apply NoDup_nil_2|done|].
  split_and!; try done. intros k. rewrite H3, elem_of_nil. tauto.
Qed.

(** Withdrawals remove the paths of their sources. *)
Lemma remove_withdrawals_lookup known ws k :
  one_per_source known → distinct known →
  lookup_source k (remove_withdrawals_lists known ws).1 =
    (if decide (k ∈ (pkey <$> ws)) then None else lookup_source k known) ∧
  (remove_withdrawals_lists known ws).1 `sublist_of` known.
Proof.
  intros H1 H2. unfold remove_withdrawals_lists.
  destruct ws as [|w ws]; [by rewrite decide_False by apply not_elem_of_nil|].
  destruct known as [|p known]; [cbn; split; [by case_decide|done]|].
  destruct (match_withdrawals_spec (p :: known) (w :: ws) H2) as (Hd & Hall & Hk).
  destruct (match_withdrawals _ _) as [matches w_matches]. cbn [fst] in *.
  destruct (remove_all_lookup matches (p :: known) k H1 H2 Hd Hall) as [E Hs].
  split; [|done]. rewrite E.
  destruct (decide (k ∈ (pkey <$> (p :: known)))) as [Hin|Hnot].
  - destruct (decide (k ∈ (pkey <$> w :: ws))) as [Hw|Hw].
    + rewrite decide_True; [done|]. by apply Hk.
    + rewrite decide_False; [done|]. rewrite Hk. tauto.
  - apply lookup_source_None in Hnot. rewrite Hnot. by repeat case_decide.
Qed.

(** New paths remove the old paths of their sources. *)
Lemma remove_old_paths_lookup known new k :
  one_per_source known → distinct known →
  lookup_source k (remove_old_paths_lists known new) =
    (if decide (k ∈ (pkey <$> new)) then None else lookup_source k known) ∧
  remove_old_paths_lists known new `sublist_of` known.
Proof.
  revert known. induction new as [|n new IH]; intros known H1 H2; cbn.
  { by rewrite decide_False by apply not_elem_of_nil. }
  rewrite find_source_lookup.
  destruct (lookup_source (pkey n) known) as [p|] eqn:E; cbn.
  - destruct (lookup_source_elem _ _ _ E) as [Hin Hk].
    destruct (remove_path_ok p known H1 H2) as [H1' H2'].
    destruct (IH (remove_path p known) H1' H2') as [El Hs].
    unfold remove_old_paths_lists in El. rewrite El. split.
    + rewrite remove_path_lookup, Hk by done.
      repeat case_decide; set_solver.
    + etrans; [exact Hs|apply remove_path_sublist].
  - destruct (IH known H1 H2) as [El Hs]. unfold remove_old_paths_lists in El.
    rewrite El. split; [|done].
    destruct (decide (k = pkey n)) as [->|Hne].
    + rewrite E. by repeat case_decide.
    + repeat case_decide; set_solver.
Qed.

(** ** The best path among the known paths *)

Section best.
Context (ipv4_to_int : string → option Z) (local_asn : Z).

(** The decision process returns one of its arguments. *)
Definition returns_one (p1 p2 : path) (m : res (option path)) : Prop :=
  ∀ x, m = Ret (Some x) → x = p1 ∨ x = p2.

Lemma returns_one_chain p1 p2 cur cmp reason
    (K : option path * bpr → res (option path * bpr)) x r :
  returns_one p1 p2 cmp →
  (cur.1 = None ∨ cur.1 = Some p1 ∨ cur.1 = Some p2) →
  (decision_step cur cmp reason ≫= K) = Ret (Some x, r) →
  ∃ cur', (cur'.1 = None ∨ cur'.1 = Some p1 ∨ cur'.1 = Some p2) ∧
          K cur' = Ret (Some x, r).
Proof.
  intros Hc Hcur. destruct cur as [[y|] rc]; cbn; intros E.
  { exists (Some y, rc). by split. }
  destruct cmp as [[y|]|e]; cbn in E; try done.
  - exists (Some y, reason). split; [right|done].
    by destruct (Hc y eq_refl) as [->| ->]; [left|right].
  - exists (None, reason). split; [by left|done].
Qed.

Lemma cmp_returns_one p1 p2 :
  returns_one p1 p2 (cmp_by_local_pref p1 p2) ∧
  returns_one p1 p2 (cmp_by_local_origin p1 p2) ∧
  returns_one p1 p2 (cmp_by_aspath p1 p2) ∧
  returns_one p1 p2 (cmp_by_origin p1 p2) ∧
  returns_one p1 p2 (cmp_by_med p1 p2) ∧
  returns_one p1 p2 (cmp_by_asn local_asn p1 p2) ∧
  returns_one p1 p2 (cmp_by_router_id ipv4_to_int local_asn p1 p2) ∧
  returns_one p1 p2 (cmp_by_cluster_list p1 p2) ∧
  returns_one p1 p2 (Ret None).
Proof.
  unfold returns_one, cmp_by_local_pref, cmp_by_local_origin, cmp_by_aspath,
    cmp_by_origin, cmp_by_med, cmp_by_asn, cmp_by_router_id, cmp_by_cluster_list,
    mbind, outcome_bind, mret, outcome_ret.
  split_and!; intros x; repeat case_match; intros; simplify_eq; auto.
Qed.

Lemma compute_best_path_member p1 p2 x r :
  compute_best_path ipv4_to_int local_asn p1 p2 = Ret (Some x, r) →
  x = p1 ∨ x = p2.
Proof.
  destruct (cmp_returns_one p1 p2) as (? & ? & ? & ? & ? & ? & ? & ? & ?).
  unfold compute_best_path. intros E.
  do 10 (eapply (returns_one_chain p1 p2) in E as (? & ? & E);
         [|done|first [eassumption|by left] ]).
  eapply (returns_one_chain p1 p2) in E as (c & Hc & E); [|done|eassumption].
  destruct c as [[y|] rc]; cbn in *; [|done].
  injection E as -> ->. destruct Hc as [Hc|[Hc|Hc] ]; simplify_eq; auto.
Qed.

Lemma best_path_loop_member cur reason l best r :
  best_path_loop ipv4_to_int local_asn cur reason l = Ret (best, r) →
  best ∈ cur :: l.
Proof.
  revert cur reason. induction l as [|p l IH]; intros cur reason; cbn.
  { intros [= -> ->]. by left. }
  destruct (compute_best_path ipv4_to_int local_asn cur p) as [[[x|] r']|e] eqn:E;
    cbn; try done; intros H; apply IH in H.
  - apply compute_best_path_member in E as [->| ->]; set_solver.
  - set_solver.
Qed.
End best.

(** ** Destination: theorems *)

Section dest_theorems.
Context (ipv4_to_int : string → option Z) (local_asn : Z).

Abbreviation process_paths := (process_paths ipv4_to_int local_asn).
Abbreviation process_dest := (process_dest ipv4_to_int local_asn).

(** The known paths after the lists have been merged. *)
Definition merged_known (d : dest) : list path :=
  let known := (remove_withdrawals_lists (d_known d) (d_withdraw d)).1 in
  remove_old_paths_lists known (d_new d) ++ d_new d.

Definition merged (d : dest) : dest :=
  d <| d_known := merged_known d |> <| d_new := [] |>
    <| d_withdraw := (remove_withdrawals_lists (d_known d) (d_withdraw d)).2 |>.

(** The only effect of [process_paths] is the merge. *)
Lemma process_paths_run d :
  ∃ r, process_paths d = ([], merged d, r) ∧
    match r with
    | Ret (None, _) => merged_known d = []
    | Ret (Some p, reason) =>
        reason = BPR_ONLY_PATH ∧ merged_known d = [p] ∨
        compute_best_known_path ipv4_to_int local_asn (merged_known d) =
          Some (Ret (p, reason))
    | Raise e =>
        compute_best_known_path ipv4_to_int local_asn (merged_known d) = Some (Raise e)
    end.
Proof.
  unfold BgpTable.process_paths, merged, merged_known, remove_withdrawals,
    remove_old_paths, compute_best_known.
  destruct d as [n known new best reason ws sent nid].
  unfold mbind, M_bind, modify, gets, lift, set_field.
  cbn -[remove_withdrawals_lists remove_old_paths_lists].
  destruct (remove_withdrawals_lists known ws) as [kn wn].
  cbn -[remove_old_paths_lists].
  assert (Hcase : (kn = [] ∧ ∃ p, new = [p]) ∨
    ∀ A (a : path → A) b, (match kn, new with [], [p] => a p | _, _ => b end) = b).
  { destruct kn, new as [|? [|? ?] ]; auto. left. eauto. }
  destruct Hcase as [[-> [p ->]]| ->].
  { eexists. split; [done|]. by left. }
  cbn -[remove_old_paths_lists].
  destruct (remove_old_paths_lists kn new ++ new) as [|p l] eqn:EL; cbn.
  { eexists. by split. }
  destruct (best_path_loop _ _ _ _ _) as [[b rb]|e] eqn:E; cbn;
    eexists; (split; [done|]); cbn; [by right|done].
Qed.

(** ** The table of sources *)

(** Abstractly, the known paths are a map from sources to paths, a new path
    overwrites the entry of its source and a withdrawal deletes it; the merge
    computes exactly this update and keeps one path per source. *)
Lemma merged_lookup d k :
  one_per_source (d_known d) → distinct (d_known d) →
  lookup_source k (merged_known d) =
    match lookup_source k (d_new d) with
    | Some p => Some p
    | None => if decide (k ∈ (pkey <$> d_withdraw d)) then None
              else lookup_source k (d_known d)
    end.
Proof.
  intros H1 H2. unfold merged_known. cbv zeta.
  destruct (remove_withdrawals_lookup (d_known d) (d_withdraw d) k H1 H2) as [E Hs].
  set (known := (remove_withdrawals_lists _ _).1) in *.
  assert (H1' : one_per_source known) by (by eapply NoDup_fmap_sublist).
  assert (H2' : distinct known) by (by eapply NoDup_fmap_sublist).
  destruct (remove_old_paths_lookup known (d_new d) k H1' H2') as [E' _].
  rewrite lookup_source_app, E'.
  destruct (lookup_source k (d_new d)) as [p|] eqn:En.
  - apply lookup_source_elem in En as [Hin <-].
    by rewrite decide_True by by apply list_elem_of_fmap_2.
  - pose proof (proj1 (lookup_source_None _ _) En) as Hnot.
    rewrite decide_False, E by done. by repeat case_match.
Qed.

Lemma merged_known_sublist d :
  one_per_source (d_known d) → distinct (d_known d) →
  merged_known d `sublist_of` d_known d ++ d_new d.
Proof.
  intros H1 H2. unfold merged_known. cbv zeta. apply sublist_app; [|done].
  destruct (remove_withdrawals_lookup (d_known d) (d_withdraw d) None H1 H2) as [_ Hs].
  set (known := (remove_withdrawals_lists _ _).1) in *.
  etrans; [|exact Hs]. apply (remove_old_paths_lookup known (d_new d) None).
  - by eapply NoDup_fmap_sublist.
  - by eapply NoDup_fmap_sublist.
Qed.

Lemma merged_one_per_source d :
  one_per_source (d_known d) → distinct (d_known d) → one_per_source (d_new d) →
  one_per_source (merged_known d).
Proof.
  intros H1 H2 H3. unfold merged_known. cbv zeta.
  destruct (remove_withdrawals_lookup (d_known d) (d_withdraw d) None H1 H2) as [_ Hs].
  set (known := (remove_withdrawals_lists _ _).1) in *.
  assert (H1' : one_per_source known) by (by eapply NoDup_fmap_sublist).
  assert (H2' : distinct known) by (by eapply NoDup_fmap_sublist).
  unfold one_per_source. rewrite fmap_app. apply NoDup_app. split_and!; [| |done].
  - destruct (remove_old_paths_lookup known (d_new d) None H1' H2') as [_ Hs'].
    by eapply NoDup_fmap_sublist.
  - intros k Hk Hnew.
    destruct (remove_old_paths_lookup known (d_new d) k H1' H2') as [E' _].
    rewrite decide_True in E' by done. by apply lookup_source_None in E'.
Qed.

(** ** Routes sent to peers *)

Definition clone_path (i : Z) (p : path) : path :=
  {| path_id := i; path_rf := path_rf p; path_source := path_source p;
     source_version_num := source_version_num p; path_nlri := path_nlri p;
     is_withdraw := true; attr_local_pref := None; attr_as_path := None;
     attr_origin := None; attr_med := None; attr_originator_id := None;
     attr_cluster_list := None; attr_rt_list := None |}.

(** One withdrawal per sent route, in the order of the dictionary. *)
Fixpoint withdrawals (i : Z) (sent : odict Z sent_route) : list rib_out :=
  match sent with
  | [] => []
  | (_, sr) :: sent' =>
      SendWithdraw (sent_peer sr) (clone_path i (sent_path sr)) ::
      withdrawals (i + 1) sent'
  end.

Lemma send_withdrawals_run reset sent d :
  send_withdrawals reset sent d =
    (withdrawals (d_next_id d) sent,
     d <| d_next_id ::= λ i, i + Z.of_nat (length sent) |>
       <| d_sent ::= λ s, if reset && nonempty sent then [] else s |>,
     Ret tt).
Proof.
  unfold send_withdrawals, od_values. revert d.
  induction sent as [|[i sr] sent IH]; intros d.
  { destruct d. unfold set_field. cbn. by rewrite Z.add_0_r, andb_false_r. }
  cbn [fmap list_fmap for_each snd]. unfold clone_for_withdrawal.
  unfold mbind, M_bind, modify, gets, emit, mret, M_ret in *.
  destruct reset; cbn in *; rewrite IH; destruct d; unfold set_field; cbn;
    do 3 f_equal; first [lia|by destruct sent].
Qed.

Local Arguments send_withdrawals : simpl never.
Local Arguments path_in : simpl never.

(** What the rest of the system is told when the best path of [d] changes to
    [new] and its known paths are [known]. *)
Definition best_change_outputs (d : dest) (known : list path) (new : option path)
    : list rib_out :=
  if opt_same_path (d_best d) new then []
  else match new with
  | None => withdrawals (d_next_id d) (d_sent d) ++ [BestPathChanged (d_best d) true]
  | Some p =>
      CommNewBest p ::
      (match d_best d with
       | Some old => if path_in old known
                     then withdrawals (d_next_id d) (d_sent d) else []
       | None => []
       end) ++ [BestPathChanged (Some p) false]
  end.

Definition best_change_sent (d : dest) (new : option path) : odict Z sent_route :=
  if opt_same_path (d_best d) new then d_sent d
  else match new, d_best d with
  | Some _, None => d_sent d
  | _, _ => []
  end.

Lemma best_path_lost_run d :
  best_path_lost d =
    (withdrawals (d_next_id d) (d_sent d) ++ [BestPathChanged (d_best d) true],
     d <| d_best := None |> <| d_sent := [] |>
       <| d_next_id ::= λ i, i + Z.of_nat (length (d_sent d)) |>, Ret tt).
Proof.
  unfold best_path_lost, when, mbind, M_bind, modify, gets, emit, mret, M_ret.
  destruct d as [n known new best reason ws sent nid]. unfold set_field at 1. cbn.
  destruct sent as [|kv sent]; cbn.
  { unfold set_field. cbn. by rewrite Z.add_0_r. }
  rewrite send_withdrawals_run. unfold set_field. cbn. rewrite app_nil_r. done.
Qed.

Lemma new_best_path_run d p :
  opt_same_path (d_best d) (Some p) = false →
  ∃ nid, new_best_path p d =
    (best_change_outputs d (d_known d) (Some p),
     d <| d_best := Some p |> <| d_sent := best_change_sent d (Some p) |>
       <| d_next_id := nid |>, Ret tt).
Proof.
  intros Hs. unfold best_change_outputs, best_change_sent. rewrite Hs. clear Hs.
  unfold new_best_path, when, mbind, M_bind, modify, gets, emit, mret, M_ret.
  destruct d as [n known new best reason ws sent nid]. unfold set_field. cbn.
  destruct best as [old|]; cbn; [|by eexists].
  destruct (path_in old known); cbn; [|].
  - destruct sent as [|kv sent]; cbn; [by eexists|].
    rewrite send_withdrawals_run. unfold set_field. cbn. by eexists.
  - destruct sent as [|kv sent]; cbn; by eexists.
Qed.

Lemma opt_same_path_some_none p : opt_same_path (Some p) None = false.
Proof. done. Qed.

(** Everything a run of [process_dest] does after the merge. *)
Lemma process_dest_run d c :
  process_paths d = ([], merged d, Ret c) →
  (c.1 = None → merged_known d = []) →
  ∃ nid, process_dest d =
    (best_change_outputs d (merged_known d) c.1,
     merged d <| d_reason := Some c.2 |>
       <| d_best := if opt_same_path (d_best d) c.1 then d_best d else c.1 |>
       <| d_sent := best_change_sent d c.1 |> <| d_next_id := nid |>,
     Ret tt).
Proof.
  intros Hrun Hnone. destruct c as [new reason]. cbn [fst snd] in *.
  unfold BgpTable.process_dest. unfold mbind, M_bind. rewrite Hrun.
  unfold modify, gets, assert_, mret, M_ret.
  change (d_best (merged d <| d_reason := Some reason |>)) with (d_best d).
  unfold best_change_outputs, best_change_sent.
  destruct (opt_same_path (d_best d) new) eqn:E.
  { exists (d_next_id d). by destruct d. }
  destruct new as [p|].
  - destruct (new_best_path_run (merged d <| d_reason := Some reason |>) p) as [nid Hp];
      [exact E|].
    rewrite Hp. unfold best_change_outputs, best_change_sent.
    change (d_best (merged d <| d_reason := Some reason |>)) with (d_best d). rewrite E.
    by exists nid.
  - change (d_known (merged d <| d_reason := Some reason |>)) with (merged_known d).
    rewrite Hnone by done. cbn [nonempty negb].
    rewrite best_path_lost_run. cbn [app].
    exists (d_next_id d + Z.of_nat (length (d_sent d))). destruct (d_best d) eqn:Eb; [|done].
    unfold merged, set_field. cbn -[merged_known remove_withdrawals_lists]. rewrite Eb. done.
Qed.

(** routes to peers follow the best path.  If the best path is unchanged
    nothing is sent; if it is lost every peer the prefix was sent to gets one
    withdrawal and the sent routes are cleared; if it is replaced the new path
    is communicated and, when the old best path is still known, what was sent
    is withdrawn after that. *)
Theorem process_dest_outputs d :
  result process_dest d = Ret tt →
  ∃ new, (new = None ↔ merged_known d = []) ∧
    outputs process_dest d = best_change_outputs d (merged_known d) new ∧
    d_sent (final process_dest d) = best_change_sent d new ∧
    opt_same_path (d_best (final process_dest d)) new = true.
Proof.
  intros Hr. destruct (process_paths_run d) as (r & Hrun & Hspec).
  destruct r as [[new reason]|e].
  - exists new.
    assert (Hnone : new = None → merged_known d = []) by (intros ->; done).
    destruct (process_dest_run d (new, reason) Hrun Hnone) as [nid E]. cbn [fst snd] in E.
    unfold outputs, final. rewrite E. cbn [fst snd]. split_and!; try done.
    + split; [done|]. intros Hk. destruct new as [p|]; [|done].
      destruct Hspec as [[_ Hk']|Hk']; rewrite Hk in Hk'; done.
    + cbn. destruct (opt_same_path (d_best d) new) eqn:Eb; [done|].
      destruct new; cbn; [apply Z.eqb_refl|done].
  - exfalso. unfold result, BgpTable.process_dest, mbind, M_bind in Hr.
    by rewrite Hrun in Hr.
Qed.

(** The choice that [process_paths] returns is optimal among the known paths. *)
Lemma merged_best ipv4_to_str d (r : outcome pyexn (option path * bpr)) :
  (∀ z, 0 ≤ z < 2 ^ 32 → ipv4_to_int (ipv4_to_str z) = Some z) →
  Forall (path_ok ipv4_to_str) (merged_known d) →
  match r with
  | Ret (None, _) => merged_known d = []
  | Ret (Some p, reason) =>
      reason = BPR_ONLY_PATH ∧ merged_known d = [p] ∨
      compute_best_known_path ipv4_to_int local_asn (merged_known d) =
        Some (Ret (p, reason))
  | Raise e =>
      compute_best_known_path ipv4_to_int local_asn (merged_known d) = Some (Raise e)
  end →
  ∃ new reason, r = Ret (new, reason) ∧
    match new with
    | None => merged_known d = []
    | Some b => ∃ before after, merged_known d = before ++ b :: after ∧
        Forall (λ q, key_lt (path_key ipv4_to_int local_asn b)
                            (path_key ipv4_to_int local_asn q)) before ∧
        Forall (λ q, key_le (path_key ipv4_to_int local_asn b)
                            (path_key ipv4_to_int local_asn q)) after
    end.
Proof.
  intros Hrt Hok' Hspec. destruct (merged_known d) as [|p l] eqn:Em.
  - destruct r as [[[b|] reason]|e]; [| |by cbn in Hspec].
    + by destruct Hspec as [[_ ?]|?].
    + by eexists _, _.
  - apply Forall_cons in Hok' as [Hp Hl].
    destruct (best_path_loop_spec ipv4_to_str ipv4_to_int Hrt local_asn p BPR_ONLY_PATH l Hp Hl)
      as (best & reason & Eb & _ & _ & before & after & Hsplit & Hb & Ha).
    destruct r as [[[b|] reason']|e]; cbn in Hspec.
    + exists (Some b), reason'. split; [done|].
      destruct Hspec as [[-> [= -> ->] ]|Hs]; [by exists [], []|].
      rewrite Eb in Hs. injection Hs as -> ->. by exists before, after.
    + done.
    + rewrite Eb in Hspec. done.
Qed.

(** C1: processing a destination whose lists are well formed always completes;
    afterwards the known paths are the map of sources updated by the queued
    withdrawals and paths, and the best path is a known path no other known path
    is preferred to, absent only when no path is known. *)
Theorem process_dest_optimal ipv4_to_str d :
  (∀ z, 0 ≤ z < 2 ^ 32 → ipv4_to_int (ipv4_to_str z) = Some z) →
  one_per_source (d_known d) → one_per_source (d_new d) →
  distinct (d_known d ++ d_new d) →
  Forall (path_ok ipv4_to_str) (d_known d ++ d_new d) →
  let d' := final process_dest d in
  result process_dest d = Ret tt ∧
  d_new d' = [] ∧ one_per_source (d_known d') ∧ distinct (d_known d') ∧
  (∀ k, lookup_source k (d_known d') =
    match lookup_source k (d_new d) with
    | Some p => Some p
    | None => if decide (k ∈ (pkey <$> d_withdraw d)) then None
              else lookup_source k (d_known d)
    end) ∧
  match d_best d' with
  | None => d_known d' = []
  | Some b => ∃ b' before after,
      same_path b b' = true ∧ d_known d' = before ++ b' :: after ∧
      Forall (λ q, key_lt (path_key ipv4_to_int local_asn b')
                          (path_key ipv4_to_int local_asn q)) before ∧
      Forall (λ q, key_le (path_key ipv4_to_int local_asn b')
                          (path_key ipv4_to_int local_asn q)) after
  end.
Proof.
  intros Hrt H1 H2 H3 Hok. cbv zeta.
  assert (H3' : distinct (d_known d)).
  { eapply NoDup_fmap_sublist; [|exact H3]. by apply sublist_inserts_r. }
  pose proof (merged_known_sublist d H1 H3') as Hsub.
  assert (Hok' : Forall (path_ok ipv4_to_str) (merged_known d)).
  { rewrite Forall_forall in Hok |- *. intros q Hq. apply Hok.
    by eapply elem_of_submseteq, sublist_submseteq. }
  destruct (process_paths_run d) as (r & Hrun & Hspec).
  destruct (merged_best ipv4_to_str d r Hrt Hok' Hspec) as (new & reason & -> & Hbest).
  assert (Hnone : new = None → merged_known d = []) by (by intros ->).
  destruct (process_dest_run d (new, reason) Hrun Hnone) as [nid E]. cbn [fst snd] in E.
  unfold result, final. rewrite E. cbn [fst snd].
  split_and!; try done.
  - by apply merged_one_per_source.
  - by eapply NoDup_fmap_sublist.
  - intros k. by apply merged_lookup.
  - cbn -[merged_known]. destruct (opt_same_path (d_best d) new) eqn:Es.
    + destruct (d_best d) as [b|], new as [b'|]; cbn in Es; try done.
      destruct Hbest as (before & after & Hb). by exists b', before, after.
    + destruct new as [b|]; [|done].
      destruct Hbest as (before & after & Hb). exists b, before, after.
      split; [apply Z.eqb_refl|done].
Qed.
End dest_theorems.

(** ** The best path is one of the known ones *)

Section chosen.
Context (p1 p2 : path).

Definition one_of (r : path) : Prop := r = p1 ∨ r = p2.
Definition chooses (m : res (option path)) : Prop := ∀ r, m = Ret (Some r) → one_of r.

Ltac chooses := intros ?; unfold one_of, mret, outcome_ret, mbind, outcome_bind;
  repeat case_match; intros; simplify_eq; auto.

Lemma cmps_choose ipv4_to_int local_asn :
  Forall chooses [cmp_by_reachable_nh p1 p2; cmp_by_highest_wg p1 p2; cmp_by_local_pref p1 p2;
    cmp_by_local_origin p1 p2; cmp_by_aspath p1 p2; cmp_by_origin p1 p2; cmp_by_med p1 p2;
    cmp_by_asn local_asn p1 p2; cmp_by_igp_cost p1 p2;
    cmp_by_router_id ipv4_to_int local_asn p1 p2; cmp_by_cluster_list p1 p2].
Proof.
  repeat apply Forall_cons_2; [..|by apply Forall_nil].
  - unfold cmp_by_reachable_nh. chooses.
  - unfold cmp_by_highest_wg. chooses.
  - unfold cmp_by_local_pref. chooses.
  - unfold cmp_by_local_origin. chooses.
  - unfold cmp_by_aspath. chooses.
  - unfold cmp_by_origin. chooses.
  - unfold cmp_by_med. chooses.
  - unfold cmp_by_asn, get_asn. chooses.
  - unfold cmp_by_igp_cost. chooses.
  - unfold cmp_by_router_id. chooses.
  - unfold cmp_by_cluster_list. chooses.
Qed.

Lemma decision_step_chosen cur cmp reason c :
  (∀ r, cur.1 = Some r → one_of r) → chooses cmp → decision_step cur cmp reason = Ret c →
  ∀ r, c.1 = Some r → one_of r.
Proof.
  intros Hcur Hcmp. unfold decision_step. destruct cur as [ [p|] b]; [by intros [= <-]|].
  destruct cmp as [o|e] eqn:E; [|done]. intros [= <-] r. cbn. intros ->. by apply Hcmp.
Qed.

Lemma decision_bind_chosen {B} cur cmp reason (k : option path * bpr → res B) out (Q : Prop) :
  (∀ r, cur.1 = Some r → one_of r) → chooses cmp →
  (∀ c, (∀ r, c.1 = Some r → one_of r) → k c = Ret out → Q) →
  decision_step cur cmp reason ≫= k = Ret out → Q.
Proof.
  intros Hcur Hcmp Hk. destruct (decision_step cur cmp reason) as [c|] eqn:E; [|done].
  apply Hk. by eapply decision_step_chosen.
Qed.

Lemma compute_best_path_chosen ipv4_to_int local_asn r reason :
  compute_best_path ipv4_to_int local_asn p1 p2 = Ret (Some r, reason) → one_of r.
Proof.
  unfold compute_best_path. pose proof (cmps_choose ipv4_to_int local_asn) as Hall.
  repeat (apply Forall_cons in Hall as [? Hall]).
  repeat (apply decision_bind_chosen; [done|done|]; intros ? ?).
  match goal with |- (let (_, _) := ?c in _) = _ → _ => destruct c as [ [p|] b]; [|done] end. intros [= -> _]. eauto.
Qed.
End chosen.

Lemma best_path_loop_chosen ipv4_to_int local_asn cur reason l p r :
  best_path_loop ipv4_to_int local_asn cur reason l = Ret (p, r) → p = cur ∨ p ∈ l.
Proof.
  revert cur reason. induction l as [|q l IH]; intros cur reason; cbn [best_path_loop].
  { intros [= -> _]. by left. }
  destruct (compute_best_path ipv4_to_int local_asn cur q) as [ [ [b|] r']|] eqn:E; [| |done];
    cbn [mbind outcome_bind]; intros H; apply IH in H as [->|Hin].
  - apply compute_best_path_chosen in E as [->| ->]; [by left|right; by apply list_elem_of_here].
  - right. by apply list_elem_of_further.
  - by left.
  - right. by apply list_elem_of_further.
Qed.

(** ** The table invariant *)

(** A path of the table's family for the prefix, or the withdrawal of one. *)
Definition held (rf : Z) (key : string) (wd : bool) (p : path) : Prop :=
  path_rf p = rf ∧ table_key (path_nlri p) = key ∧ is_withdraw p = wd.

(** A destination is stored under the key of its prefix.  All it holds, the best path and the
    sent routes included, is of the family of the table and of that prefix; withdrawals are
    apart from paths, and a sent route is filed under the peer it went to. *)
Record dest_ok (rf : Z) (key : string) (d : dest) : Prop := {
  ok_key : table_key (d_nlri d) = key;
  ok_known : Forall (held rf key false) (d_known d);
  ok_new : Forall (held rf key false) (d_new d);
  ok_withdraw : Forall (held rf key true) (d_withdraw d);
  ok_best p : d_best d = Some p → held rf key false p;
  ok_sent_dict : od_ok (d_sent d);
  ok_sent i sr : od_get i (d_sent d) = Some sr →
    i = peer_id (sent_peer sr) ∧ path_rf (sent_path sr) = rf ∧
    table_key (path_nlri (sent_path sr)) = key
}.

Record table_ok (t : table) : Prop := {
  ok_dict : od_ok (t_dests t);
  ok_dests key d : od_get key (t_dests t) = Some d → dest_ok (t_rf t) key d
}.

Lemma remove_all_sublist ps l : remove_all ps l `sublist_of` l.
Proof.
  revert l. induction ps as [|p ps IH]; intros l; [done|].
  etrans; [exact (IH (remove_path p l))|apply remove_path_sublist].
Qed.

Lemma remove_old_paths_sublist known new :
  remove_old_paths_lists known new `sublist_of` known.
Proof.
  revert known. induction new as [|n new IH]; intros known; cbn; [done|].
  destruct (find_source n known); [|apply IH].
  etrans; [apply IH|apply remove_path_sublist].
Qed.

Lemma remove_withdrawals_sublist known ws :
  (remove_withdrawals_lists known ws).1 `sublist_of` known ∧
  (remove_withdrawals_lists known ws).2 `sublist_of` ws.
Proof.
  unfold remove_withdrawals_lists.
  destruct ws as [|w ws]; [done|]. destruct known as [|p known].
  { split; [done|apply sublist_nil_l]. }
  destruct (match_withdrawals _ _). split; apply remove_all_sublist.
Qed.

Lemma Forall_sublist {A} (P : A → Prop) l1 l2 : l1 `sublist_of` l2 → Forall P l2 → Forall P l1.
Proof.
  intros Hs. rewrite !Forall_forall. intros H p Hp.
  apply H. by eapply elem_of_submseteq, sublist_submseteq.
Qed.

Lemma filter_sublist {A} (f : A → bool) l : List.filter f l `sublist_of` l.
Proof.
  induction l as [|x l IH]; cbn; [done|].
  destruct (f x); [by apply sublist_skip|by apply sublist_cons].
Qed.

Section dest_preserves.
Context (rf : Z) (key : string).
Abbreviation ok := (dest_ok rf key).
Abbreviation here := (held rf key false).

Lemma ok_set_known d known : ok d → Forall here known → ok (d <| d_known := known |>).
Proof. by intros [] ?; split. Qed.
Lemma ok_set_reason d b : ok d → ok (d <| d_reason := b |>).
Proof. by intros []; split. Qed.
Lemma ok_set_best d b : ok d → (∀ p, b = Some p → here p) → ok (d <| d_best := b |>).
Proof. by intros [] ?; split. Qed.
Lemma ok_clear_sent d : ok d → ok (d <| d_sent := [] |>).
Proof. intros []; split; try done. apply od_ok_nil. Qed.
Lemma ok_del_sent d i : ok d → ok (d <| d_sent ::= od_del i |>).
Proof.
  intros [? ? ? ? ? Hd Hs]. split; try done; cbn; [by apply od_ok_del|].
  intros j sr. rewrite od_get_del. case_decide; [done|apply Hs].
Qed.
Lemma ok_set_id d i : ok d → ok (d <| d_next_id := i |>).
Proof. by intros []; split. Qed.

Create HintDb dest_ok.
Hint Resolve ok_set_reason ok_clear_sent ok_del_sent ok_set_id : dest_ok.

Ltac go := preserve; auto with dest_ok.

Lemma ok_add_new_path p :
  table_key (path_nlri p) = key → is_withdraw p = false → preserves ok (add_new_path rf p).
Proof.
  intros Hk Hw d Hd. unfold final, add_new_path, validate_path, mbind, M_bind.
  destruct (path_rf p =? rf) eqn:E; [|done]. apply Z.eqb_eq in E.
  destruct Hd. split; cbn; try done.
  apply Forall_app. split; [done|by repeat constructor].
Qed.

Lemma ok_add_withdraw p :
  table_key (path_nlri p) = key → is_withdraw p = true → preserves ok (add_withdraw rf p).
Proof.
  intros Hk Hw d Hd. unfold final, add_withdraw, validate_path, mbind, M_bind.
  destruct (path_rf p =? rf) eqn:E; [|done]. apply Z.eqb_eq in E.
  destruct Hd. split; cbn; try done.
  apply Forall_app. split; [done|by repeat constructor].
Qed.

Lemma ok_clone p : preserves ok (clone_for_withdrawal p).
Proof. unfold clone_for_withdrawal. go. Qed.
Hint Resolve ok_clone : pres.

Lemma ok_remove_sent_route q : preserves ok (remove_sent_route q).
Proof. unfold remove_sent_route. go. Qed.

Lemma ok_add_sent_route sr :
  path_rf (sent_path sr) = rf → table_key (path_nlri (sent_path sr)) = key →
  preserves ok (add_sent_route sr).
Proof.
  intros Hrf Hk. apply preserves_modify. intros d [? ? ? ? ? Hd Hs].
  split; try done; cbn; [by apply od_ok_set|].
  intros i sr'. rewrite od_get_set. case_decide as Hi; [by intros [= <-]|apply Hs].
Qed.

Lemma ok_remove_old_paths_from_source q v :
  preserves ok (remove_old_paths_from_source q v).
Proof.
  intros d Hd. unfold final, remove_old_paths_from_source, mbind, M_bind. cbn.
  destruct Hd. split; cbn; try done. eapply Forall_sublist; [apply filter_sublist|done].
Qed.

Lemma ok_withdraw_path p : here p → preserves ok (withdraw_path p).
Proof.
  intros (Hp & Hk & _) d Hd. unfold final, withdraw_path, mbind, M_bind. cbn.
  destruct (path_in p (d_known d)); [|done].
  destruct Hd. split; cbn; try done.
  apply Forall_app. split; [done|by repeat constructor].
Qed.

Lemma ok_withdraw_uninteresting_paths rts :
  preserves ok (withdraw_uninteresting_paths rts).
Proof.
  apply preserves_gets_bind. intros d [_ Hk _ _ _ _ _].
  rewrite Forall_forall in Hk. preserve.
  by apply ok_withdraw_path, Hk.
Qed.

Lemma ok_send_withdrawals reset sent : preserves ok (send_withdrawals reset sent).
Proof. unfold send_withdrawals. go. Qed.
Hint Resolve ok_send_withdrawals : pres.

Lemma ok_best_path_lost : preserves ok best_path_lost.
Proof. unfold best_path_lost. go. by apply ok_set_best. Qed.

Lemma ok_new_best_path p : here p → preserves ok (new_best_path p).
Proof.
  intros Hp. unfold new_best_path. go. apply ok_set_best; [done|]. by intros ? [= <-].
Qed.
Hint Resolve ok_best_path_lost : pres.

Lemma ok_merged d : ok d → ok (merged d) ∧ Forall here (merged_known d).
Proof.
  intros [? Hk Hn Hw ? ? ?]. unfold merged, merged_known.
  destruct (remove_withdrawals_sublist (d_known d) (d_withdraw d)) as [Hs Hs'].
  assert (Forall here (remove_old_paths_lists
    (remove_withdrawals_lists (d_known d) (d_withdraw d)).1 (d_new d) ++ d_new d)) as Hm.
  { apply Forall_app. split; [|done]. eapply Forall_sublist; [apply remove_old_paths_sublist|].
    by eapply Forall_sublist. }
  split; [|done]. split; cbn; try done. by eapply Forall_sublist.
Qed.

(** What [process_paths] chooses is one of the paths it leaves. *)
Lemma process_paths_held ipv4_to_int local_asn d :
  ok d → wp (process_paths ipv4_to_int local_asn) d (λ _ d' r,
    ok d' ∧ ∀ p reason, r = Ret (Some p, reason) → here p).
Proof.
  intros Hd. destruct (process_paths_run ipv4_to_int local_asn d) as (r & Hrun & Hspec).
  destruct (ok_merged d Hd) as [Hm Hk]. eapply wp_run; [exact Hrun|]. split; [done|].
  intros p reason ->. rewrite Forall_forall in Hk. apply Hk.
  destruct Hspec as [ [_ ->]|E]; [by apply list_elem_of_here|].
  destruct (merged_known d) as [|q l]; [done|]. injection E as E.
  apply best_path_loop_chosen in E as [->|Hin];
    [by apply list_elem_of_here|by apply list_elem_of_further].
Qed.

Lemma ok_process_dest ipv4_to_int local_asn :
  preserves ok (process_dest ipv4_to_int local_asn).
Proof.
  intros d Hd.
  apply (wp_unfold (process_dest ipv4_to_int local_asn) d (λ _ d' _, ok d')).
  unfold process_dest. apply wp_bind.
  eapply wp_mono; [by apply process_paths_held|].
  intros o d1 [ [new reason]|e] [H1 Hnew]; [|done].
  assert (preserves ok (
    modify (λ d, d <| d_reason := Some reason |>);;
    best ← gets d_best;
    if opt_same_path best new then mret tt
    else match new with
    | None => known ← gets d_known; assert_ (negb (nonempty known)) AssertionError;; best_path_lost
    | Some p => new_best_path p
    end)) as Hrest.
  { go. by eapply ok_new_best_path, Hnew. }
  exact (Hrest d1 H1).
Qed.
End dest_preserves.

#[export] Hint Resolve ok_remove_sent_route
  ok_remove_old_paths_from_source ok_withdraw_uninteresting_paths
  ok_process_dest : pres.

Lemma ok_on_dest_at {A} key (m : DM A) t :
  table_ok t → preserves (dest_ok (t_rf t) key) m → table_ok (final (on_dest key m) t).
Proof.
  intros [Hd Hdests] Hm. unfold final, on_dest.
  destruct (od_get key (t_dests t)) as [d|] eqn:E; [|done].
  specialize (Hm d (Hdests key d E)). unfold final in Hm.
  destruct (m d) as [[o d'] r]. cbn in *. split; cbn.
  - by apply od_ok_set.
  - intros key' d''. rewrite od_get_set. destruct (decide (key' = key)) as [->|Hne].
    + by intros [= <-].
    + apply Hdests.
Qed.

Lemma ok_on_dest {A} key (m : DM A) :
  (∀ rf, preserves (dest_ok rf key) m) → preserves table_ok (on_dest key m).
Proof. intros Hm t Ht. by apply ok_on_dest_at. Qed.
#[export] Hint Resolve ok_on_dest : pres.

Lemma ok_validate_path p : preserves table_ok (table_validate_path p).
Proof. unfold table_validate_path. preserve. Qed.

Lemma ok_get_or_create n : preserves table_ok (get_or_create_dest n).
Proof.
  unfold get_or_create_dest. apply preserves_bind; [|intros; apply preserves_ret].
  apply preserves_modify. intros t [Hd Hdests]. split; cbn; [by apply od_ok_setdefault|].
  intros key d. rewrite od_get_setdefault. destruct (decide (key = table_key n)) as [->|Hne].
  - intros [= <-]. destruct (od_get (table_key n) (t_dests t)) as [d|] eqn:E; cbn.
    + by apply Hdests.
    + by split; cbn; try constructor.
  - apply Hdests.
Qed.
#[export] Hint Resolve ok_validate_path ok_get_or_create : pres.

(** The last lines of [_insert_path] and of [_insert_withdraw]. *)
Lemma ok_insert_tail (add : Z → path → DM ()) p key :
  (∀ rf, preserves (dest_ok rf key) (add rf p)) →
  preserves table_ok (rf ← gets t_rf; on_dest key (add rf p);; mret key).
Proof.
  intros Hadd t Ht. pose proof (ok_on_dest_at key (add (t_rf t) p) t Ht (Hadd _)) as H.
  unfold final, gets, mbind, M_bind in *.
  by destruct (on_dest key (add (t_rf t) p) t) as [[o t'] [a|e] ].
Qed.

(** [_get_or_create_dest] gives the key of the prefix. *)
Lemma ok_in_dest {A} n (k : string → TM A) :
  preserves table_ok (k (table_key n)) → preserves table_ok (get_or_create_dest n ≫= k).
Proof.
  intros Hk. apply (preserves_bind _ (modify (λ t, t <| t_dests ::=
    od_setdefault (table_key n) (new_dest n (t_next_oid t)) |>)) (λ _, k (table_key n))); [|done].
  intros t Ht. exact (ok_get_or_create n t Ht).
Qed.

Lemma ok_insert p : preserves table_ok (insert p).
Proof.
  unfold insert, table_validate_nlri, insert_withdraw, insert_path.
  do 2 (apply preserves_bind; [preserve|intros _]).
  destruct (is_withdraw p) eqn:Ew.
  all: apply preserves_bind; [auto with pres|intros ?]; apply ok_in_dest, ok_insert_tail;
    intros rf; by first [apply ok_add_withdraw | apply ok_add_new_path].
Qed.

Lemma in_dest_run {A} n (k : string → TM A) t :
  (get_or_create_dest n ≫= k) t = k (table_key n) (final (get_or_create_dest n) t).
Proof.
  unfold get_or_create_dest, final, modify, mret, M_ret, mbind, M_bind. cbn.
  by destruct (k _ _) as [ [o t'] r].
Qed.

Lemma validated_run {A} p (k : () → TM A) t :
  (table_validate_path p ≫= k) t =
    if path_rf p =? t_rf t then k tt t else ([], t, Raise ValueError).
Proof.
  unfold table_validate_path, gets, mret, M_ret, mbind, M_bind. cbn.
  destruct (path_rf p =? t_rf t); cbn; [|done]. by destruct (k tt t) as [ [o t'] r].
Qed.

(** The family of the path is checked before the destination is looked up. *)
Lemma ok_insert_sent_route sr : preserves table_ok (insert_sent_route sr).
Proof.
  intros t Ht. unfold insert_sent_route, final at 1. rewrite validated_run, in_dest_run.
  destruct (Z.eqb_spec (path_rf (sent_path sr)) (t_rf t)) as [E|E]; [|done].
  pose proof (ok_get_or_create (path_nlri (sent_path sr)) t Ht) as H1.
  by apply (ok_on_dest_at _ _ _ H1), ok_add_sent_route.
Qed.

Lemma ok_delete_dest n : preserves table_ok (delete_dest n).
Proof.
  unfold delete_dest. preserve. destruct H as [Hd Hdests]. split; cbn.
  - by apply od_ok_del.
  - intros key d. rewrite od_get_del. case_decide; [done|]. apply Hdests.
Qed.
#[export] Hint Resolve ok_insert ok_insert_sent_route ok_delete_dest : pres.

Lemma ok_run_table_op ipv4_to_int local_asn op :
  preserves table_ok (run_table_op ipv4_to_int local_asn op).
Proof.
  destruct op; cbn; unfold cleanup_paths_for_peer, clean_uninteresting_paths; preserve.
  unfold process. apply preserves_bind; [apply ok_on_dest; intros; preserve|intros n].
  preserve. destruct a, a0; auto with pres.
Qed.

(** C16: whatever sequence of insertions, sent routes, clean-ups and processings a table
    gets, of paths of any family and prefix: each destination stays under the key of
    its own prefix, and everything it holds, that is the known and new paths, the
    queued withdrawals, the best path and the routes sent to peers, is of the table's
    route family and of that prefix; withdrawals are never among the paths nor paths
    among the withdrawals, and each sent route is filed under the peer it went to. *)
Theorem table_invariant ipv4_to_int local_asn rf :
  ∀ t, reachable (λ t, t_rf t = rf ∧ t_dests t = [])
         (λ t op t', t' = final (run_table_op ipv4_to_int local_asn op) t) t →
  table_ok t.
Proof.
  apply reachable_inv.
  - intros t [_ E]. split; rewrite E; [apply od_ok_nil|done].
  - intros t op t' Ht ->. by apply ok_run_table_op.
Qed.

(** processing a stored destination puts the processed one back, or drops the
    prefix from the table exactly when no known path and no best path are left;
    every other prefix is untouched. *)
Theorem process_keeps_nonempty ipv4_to_int local_asn key t d :
  table_ok t → od_get key (t_dests t) = Some d →
  result (process_dest ipv4_to_int local_asn) d = Ret tt →
  let d' := final (process_dest ipv4_to_int local_asn) d in
  let t' := final (process ipv4_to_int local_asn key) t in
  result (process ipv4_to_int local_asn key) t = Ret tt ∧
  od_get key (t_dests t') =
    (if nonempty (d_known d') || bool_decide (is_Some (d_best d'))
     then Some d' else None) ∧
  ∀ key', key' ≠ key → od_get key' (t_dests t') = od_get key' (t_dests t).
Proof.
  intros Ht Hd Hr. cbv zeta.
  pose proof (ok_process_dest (t_rf t) key ipv4_to_int local_asn d) as Hok.
  destruct Ht as [_ Hdests]. specialize (Hok (Hdests key d Hd)).
  unfold final, result, process, mbind, M_bind, gets, on_dest in *. rewrite Hd.
  destruct (process_dest ipv4_to_int local_asn d) as [[o d'] [ []|e] ]; cbn in *; [|done].
  destruct Hok as [Hkey _ _ _ _ _ _]. rewrite !od_get_set_eq. cbn. rewrite !od_get_set_eq. cbn.
  destruct (d_known d') as [|p l]; [destruct (d_best d') as [b|]|]; cbn.
  - rewrite !od_get_set_eq. split_and!; [done..|].
    intros. by rewrite !od_get_set_ne.
  - unfold delete_dest, mbind, M_bind, gets. cbn. rewrite Hkey.
    rewrite (proj2 (od_mem_spec _ _)).
    + cbn. rewrite od_get_del_eq. split_and!; [done..|].
      intros. by rewrite od_get_del_ne, !od_get_set_ne.
    + apply od_get_is_key. by rewrite od_get_set_eq.
  - rewrite !od_get_set_eq. split_and!; [done..|].
    intros. by rewrite !od_get_set_ne.
Qed.

(** deleting a destination by its NLRI raises [TypeError] whenever the
    destination exists, and leaves the table as it was. *)
Theorem delete_dest_by_nlri_raises t n d :
  nlri_rf n = t_rf t → od_get (table_key n) (t_dests t) = Some d →
  delete_dest_by_nlri n t = ([], t, Raise TypeError).
Proof.
  intros Hrf Hd. unfold delete_dest_by_nlri, table_validate_nlri, mbind, M_bind, gets.
  rewrite (proj2 (Z.eqb_eq _ _) Hrf). cbn. by rewrite Hd.
Qed.

(** ** Histories in which a destination misbehaves *)

(** a withdrawal that matches no known path stays queued while other paths are
    known, and a later processing applies it to a path its source announced after
    it: [q], announced after the withdrawal [w], is known after one processing and
    gone after the next, although nothing withdrew it. *)
Theorem stale_withdrawal_removes_later_path :
  let p := Witness.mk 1 65001 100 9 in
  let q := Witness.mk 2 65002 100 5 in
  let add r := add_new_path 65537 r in
  let withdraw r := c ← clone_for_withdrawal r; add_withdraw 65537 c in
  let process := process_dest Witness.to_int 65000 in
  let d1 := final (add p;; process;; withdraw q;; process;; add q;; process)
              (new_dest (path_nlri p) 10) in
  let d2 := final process d1 in
  path_id <$> d_known d1 = [1; 2] ∧ path_id <$> d_known d2 = [1] ∧
  result process d1 = Ret tt.
Proof. vm_compute. done. Qed.

(** two paths a source announces between two processings both become known
    paths, and the best path is the older one: only the paths already known are
    replaced. *)
Theorem queued_announcements_both_survive :
  let p := Witness.mk 1 65001 100 9 in
  let old := Witness.mk 2 65002 300 5 in
  let new := Witness.mk 3 65002 50 5 in
  let newer := {| path_id := 3; path_rf := path_rf new; path_source := path_source old;
                  source_version_num := 1; path_nlri := path_nlri new;
                  is_withdraw := false; attr_local_pref := attr_local_pref new;
                  attr_as_path := attr_as_path new; attr_origin := attr_origin new;
                  attr_med := None; attr_originator_id := None;
                  attr_cluster_list := None; attr_rt_list := None |} in
  let add r := add_new_path 65537 r in
  let process := process_dest Witness.to_int 65000 in
  let d := final (add p;; process;; add old;; add newer;; process)
             (new_dest (path_nlri p) 10) in
  path_id <$> d_known d = [1; 2; 3] ∧ same_source old newer = true ∧
  path_id <$> d_best d = Some 2.
Proof. vm_compute. done. Qed.

Module TableWitness.
Definition p1 := Witness.mk 1 65001 100 9.
Definition p2 := Witness.mk 2 65002 200 5.
Definition before : dest :=
  Dest (Nlri 65537 "10.0.0.0/8" 8 "") [p1] [p2] (Some p1) None []
    [(7, SentRoute p1 (Peer 7 65007 "a" "b"))] 10.

Lemma outputs_witness :
  ∃ new, (new = None ↔ merged_known before = []) ∧
    outputs (process_dest Witness.to_int 65000) before =
      best_change_outputs before (merged_known before) new ∧
    d_sent (final (process_dest Witness.to_int 65000) before) =
      best_change_sent before new ∧
    opt_same_path (d_best (final (process_dest Witness.to_int 65000) before)) new = true.
Proof. apply process_dest_outputs. by vm_compute. Defined.

Lemma best_witness :
  let d' := final (process_dest Witness.to_int 65000) before in
  result (process_dest Witness.to_int 65000) before = Ret tt ∧
  d_new d' = [] ∧ one_per_source (d_known d') ∧ distinct (d_known d') ∧
  (∀ k, lookup_source k (d_known d') =
    match lookup_source k (d_new before) with
    | Some p => Some p
    | None => if decide (k ∈ (pkey <$> d_withdraw before)) then None
              else lookup_source k (d_known before)
    end) ∧
  match d_best d' with
  | None => d_known d' = []
  | Some b => ∃ b' before after,
      same_path b b' = true ∧ d_known d' = before ++ b' :: after ∧
      Forall (λ q, key_lt (path_key Witness.to_int 65000 b')
                          (path_key Witness.to_int 65000 q)) before ∧
      Forall (λ q, key_le (path_key Witness.to_int 65000 b')
                          (path_key Witness.to_int 65000 q)) after
  end.
Proof.
  apply (process_dest_optimal Witness.to_int 65000 Witness.to_str).
  - apply Witness.roundtrip.
  - apply NoDup_singleton.
  - apply NoDup_singleton.
  - unfold distinct. cbn. repeat (constructor; [set_solver|]). constructor.
  - repeat constructor; apply Witness.mk_ok; lia.
Defined.

Definition t1 : table := Table 65537 [("10.0.0.0/8", before)] 100.

Lemma process_witness :
  let d' := final (process_dest Witness.to_int 65000) before in
  let t' := final (process Witness.to_int 65000 "10.0.0.0/8") t1 in
  result (process Witness.to_int 65000 "10.0.0.0/8") t1 = Ret tt ∧
  od_get "10.0.0.0/8" (t_dests t') =
    (if nonempty (d_known d') || bool_decide (is_Some (d_best d'))
     then Some d' else None) ∧
  ∀ key', key' ≠ "10.0.0.0/8" → od_get key' (t_dests t') = od_get key' (t_dests t1).
Proof.
  apply process_keeps_nonempty; [|done|by vm_compute].
  split; [apply NoDup_singleton|]. cbn. intros key d.
  case_decide as E; [|done]. intros [= <-]. subst.
  split; cbn; [done|by repeat constructor|by repeat constructor|constructor|by intros ? [= <-]|
    apply NoDup_singleton|].
  intros i sr. case_decide; [by intros [= <-]; subst|done].
Defined.

Lemma delete_witness :
  delete_dest_by_nlri (Nlri 65537 "10.0.0.0/8" 8 "") t1 = ([], t1, Raise TypeError).
Proof. by apply delete_dest_by_nlri_raises with before. Defined.

(** Inserted, processed to be the best path, and sent. *)
Lemma table_invariant_witness :
  let run op := final (run_table_op Witness.to_int 65000 op) in
  let t := run (OpInsertSentRoute (SentRoute p1 (Peer 7 65007 "a" "b")))
             (run (OpProcess "10.0.0.0/8") (run (OpInsert p1) (Table 65537 [] 100))) in
  (path_id <$> (od_get "10.0.0.0/8" (t_dests t) ≫= d_best) = Some 1) ∧
  (od_keys ∘ d_sent <$> od_get "10.0.0.0/8" (t_dests t) = Some [7]) ∧ table_ok t.
Proof.
  cbv zeta. split; [by vm_compute|]. split; [by vm_compute|].
  apply (table_invariant Witness.to_int 65000 65537).
  eapply (reach_step _ _ _ (OpInsertSentRoute _)); [|done].
  eapply (reach_step _ _ _ (OpProcess _)); [|done].
  eapply (reach_step _ _ _ (OpInsert p1)); [|done]. by apply reach_init.
Defined.
End TableWitness.
