(* ===== verification/BgpAttr.v ===== *)
(** * BGP path attributes

    Models the path attributes of an UPDATE message as far as the BGP peer handles them: the
    attribute classes of [ryu/lib/packet/bgp.py] with the queries on AS paths, and of
    [ryu/services/protocols/bgp/peer.py] the methods that translate AS paths between speakers
    with two and four octets ([_trans_as_path], [_construct_as_path_attr],
    [_extract_and_reconstruct_as_path]) and the check for loops.  An AS number is an integer, a
    segment a list or a set (a list without repetition), an address a string; the attributes of
    a message are a list, of which a dictionary by type shows the last of each type.  The list
    that an attribute of extended communities holds is changed in place elsewhere, so the
    attribute has its place in a store. *)

From stdpp Require Import base list strings sets.
From Stdlib Require Import ZArith Lia.
From S2P Require Import Prelude Odict BgpDecision.

Open Scope Z_scope.
Set Default Proof Using "Type".

(** ** Attributes *)

Definition AS_TRANS : Z := 23456.

Inductive attr :=
| Origin (value : Z)
| AsPath (value : list as_segment)
| NextHop (value : option string)
| MultiExitDisc (value : Z)
| LocalPref (value : Z)
| AtomicAggregate
| Aggregator (as_number : Z) (addr : string)
| Communities (communities : list Z)
| OriginatorId (value : string)
| ClusterList (value : list string)
| MpReachNLRI (rf : Z) (next_hop : option string) (nlris : list nlri)
| MpUnreachNLRI (rf : Z) (withdrawn_routes : list nlri)
| ExtendedCommunities (communities : Z)
| As4Path (value : list as_segment)
| As4Aggregator (as_number : Z) (addr : string)
| PmsiTunnel
| Unknown (type flags : Z).

Definition BGP_ATTR_TYPE_ORIGIN : Z := 1.
Definition BGP_ATTR_TYPE_AS_PATH : Z := 2.
Definition BGP_ATTR_TYPE_NEXT_HOP : Z := 3.
Definition BGP_ATTR_TYPE_MULTI_EXIT_DISC : Z := 4.
Definition BGP_ATTR_TYPE_LOCAL_PREF : Z := 5.
Definition BGP_ATTR_TYPE_ATOMIC_AGGREGATE : Z := 6.
Definition BGP_ATTR_TYPE_AGGREGATOR : Z := 7.
Definition BGP_ATTR_TYPE_COMMUNITIES : Z := 8.
Definition BGP_ATTR_TYPE_ORIGINATOR_ID : Z := 9.
Definition BGP_ATTR_TYPE_CLUSTER_LIST : Z := 10.
Definition BGP_ATTR_TYPE_MP_REACH_NLRI : Z := 14.
Definition BGP_ATTR_TYPE_MP_UNREACH_NLRI : Z := 15.
Definition BGP_ATTR_TYPE_EXTENDED_COMMUNITIES : Z := 16.
Definition BGP_ATTR_TYPE_AS4_PATH : Z := 17.
Definition BGP_ATTR_TYPE_AS4_AGGREGATOR : Z := 18.
Definition BGP_ATTR_TYEP_PMSI_TUNNEL_ATTRIBUTE : Z := 22.

Definition attr_type (a : attr) : Z :=
  match a with
  | Origin _ => BGP_ATTR_TYPE_ORIGIN
  | AsPath _ => BGP_ATTR_TYPE_AS_PATH
  | NextHop _ => BGP_ATTR_TYPE_NEXT_HOP
  | MultiExitDisc _ => BGP_ATTR_TYPE_MULTI_EXIT_DISC
  | LocalPref _ => BGP_ATTR_TYPE_LOCAL_PREF
  | AtomicAggregate => BGP_ATTR_TYPE_ATOMIC_AGGREGATE
  | Aggregator _ _ => BGP_ATTR_TYPE_AGGREGATOR
  | Communities _ => BGP_ATTR_TYPE_COMMUNITIES
  | OriginatorId _ => BGP_ATTR_TYPE_ORIGINATOR_ID
  | ClusterList _ => BGP_ATTR_TYPE_CLUSTER_LIST
  | MpReachNLRI _ _ _ => BGP_ATTR_TYPE_MP_REACH_NLRI
  | MpUnreachNLRI _ _ => BGP_ATTR_TYPE_MP_UNREACH_NLRI
  | ExtendedCommunities _ => BGP_ATTR_TYPE_EXTENDED_COMMUNITIES
  | As4Path _ => BGP_ATTR_TYPE_AS4_PATH
  | As4Aggregator _ _ => BGP_ATTR_TYPE_AS4_AGGREGATOR
  | PmsiTunnel => BGP_ATTR_TYEP_PMSI_TUNNEL_ATTRIBUTE
  | Unknown type _ => type
  end.

(** [BGPUpdate.pathattr_map], which is made anew at each use. *)
Definition pathattr_map (attrs : list attr) : odict Z attr :=
  foldl (λ d a, od_set (attr_type a) a d) [] attrs.

(** [path_attributes.remove(a)], of the attribute that the dictionary has for a type: the last
    one. *)
Definition remove_type (type : Z) (attrs : list attr) : list attr :=
  let fix remove_first l :=
    match l with
    | [] => []
    | a :: l => if attr_type a =? type then l else a :: remove_first l
    end in
  reverse (remove_first (reverse attrs)).

(** ** Queries on AS paths *)

(** The numbers of a segment. *)
Definition seg_numbers (seg : as_segment) : list Z :=
  match seg with AsSequence l => l | AsSet l => l end.

Definition has_local_as (value : list as_segment) (local_as max_count : Z) : bool :=
  let count := foldl (λ count seg, count + Z.of_nat (length (filter (λ n, n = local_as) (seg_numbers seg)))) 0 value in
  max_count <? count.

(** A set has no first element: [leftmost_seg[0]] raises. *)
Definition has_matching_leftmost (value : list as_segment) (remote_as : Z) : outcome pyexn bool :=
  if remote_as =? 0 then Ret false
  else
    match value with
    | [] => Ret false
    | AsSequence (n :: _) :: _ => Ret (n =? remote_as)
    | AsSequence [] :: _ | AsSet [] :: _ => Ret false
    | AsSet (_ :: _) :: _ => Raise TypeError
    end.

(** [is_valid_old_asn]. *)
Definition is_valid_old_asn (asn : Z) : bool := (0 <=? asn) && (asn <=? 0xffff).

(** ** Speakers with two and four octets *)

(** [_swap]. *)
Definition swap (n : Z) : Z := if is_valid_old_asn n then n else AS_TRANS.

(** [path_set.add(n)] for each number. *)
Definition make_set (l : list Z) : list Z :=
  foldl (λ s n, if bool_decide (n ∈ s) then s else s ++ [n]) [] l.

Definition swap_seg (seg : as_segment) : as_segment :=
  match seg with
  | AsSequence l => AsSequence (swap <$> l)
  | AsSet l => AsSet (make_set (swap <$> l))
  end.

(** [==] on segments and lists of them; sets are compared by their elements. *)
Definition seg_eqb (s t : as_segment) : bool :=
  match s, t with
  | AsSequence l, AsSequence k => bool_decide (l = k)
  | AsSet l, AsSet k => bool_decide (l ⊆ k) && bool_decide (k ⊆ l)
  | _, _ => false
  end.

Fixpoint segs_eqb (l k : list as_segment) : bool :=
  match l, k with
  | [], [] => true
  | s :: l, t :: k => seg_eqb s t && segs_eqb l k
  | _, _ => false
  end.

(** [_trans_as_path]: the values of AS_PATH and AS4_PATH for a neighbor with or without four
    octet AS numbers. *)
Definition _trans_as_path (four_octet : bool) (as_path_list : list as_segment) :
    list as_segment * option (list as_segment) :=
  if four_octet then (as_path_list, None)
  else
    let new_as_path_list := swap_seg <$> as_path_list in
    if segs_eqb as_path_list new_as_path_list then (as_path_list, None)
    else (new_as_path_list, Some as_path_list).

(** What [_listify] makes of segments: numbers and sets. *)
Inductive as_item :=
| Num (n : Z)
| SetItem (l : list Z).

Definition _listify (li : list as_segment) : list as_item :=
  li ≫= λ seg, match seg with AsSequence l => Num <$> l | AsSet l => [SetItem l] end.

Fixpoint zip_longest {A B} (l : list A) (k : list B) : list (option A * option B) :=
  match l with
  | [] => (λ b, (None, Some b)) <$> k
  | a :: l =>
      match k with
      | [] => (Some a, None) :: zip_longest l []
      | b :: k => (Some a, Some b) :: zip_longest l k
      end
  end.

(** [if tmp_list: new_as_path_list.insert(0, tmp_list)]. *)
Definition flush (tmp : list Z) (new : list as_segment) : list as_segment :=
  match tmp with [] => new | _ => AsSequence tmp :: new end.

(** One turn of the loop over the two reversed lists. *)
Definition merge_step (acc : list as_segment * list Z) (x : option as_item * option as_item) :
    list as_segment * list Z :=
  let '(new, tmp) := acc in
  match x with
  | (Some (Num n), None) | (_, Some (Num n)) => (new, n :: tmp)
  | (Some (SetItem s), None) | (_, Some (SetItem s)) => (AsSet s :: flush tmp new, [])
  | (None, None) => acc
  end.

Definition _construct_as_path_attr (as_path : list as_segment) (as4_path : option (list as_segment)) : list as_segment :=
  match as4_path with
  | None => as_path
  | Some as4_path =>
      if get_as_path_len as_path <? get_as_path_len as4_path then as_path
      else
        let '(new, tmp) := foldl merge_step ([], []) (zip_longest (reverse (_listify as_path)) (reverse (_listify as4_path))) in
        flush tmp new
  end.

(** [_extract_and_reconstruct_as_path]: the attributes of the message afterwards. *)
Definition _extract_and_reconstruct_as_path (attrs : list attr) : list attr :=
  let umsg_pattrs := pathattr_map attrs in
  let get t := od_get t umsg_pattrs in
  let '(attrs, as4_path) :=
    match get BGP_ATTR_TYPE_AGGREGATOR, get BGP_ATTR_TYPE_AS4_AGGREGATOR with
    | Some (Aggregator asn _), Some (As4Aggregator asn4 addr4) =>
        if negb (asn =? AS_TRANS) then
          let attrs := remove_type BGP_ATTR_TYPE_AS4_AGGREGATOR attrs in
          match get BGP_ATTR_TYPE_AS4_PATH with
          | Some _ => (remove_type BGP_ATTR_TYPE_AS4_PATH attrs, None)
          | None => (attrs, None)
          end
        else
          (remove_type BGP_ATTR_TYPE_AS4_AGGREGATOR (remove_type BGP_ATTR_TYPE_AGGREGATOR attrs) ++ [Aggregator asn4 addr4],
           get BGP_ATTR_TYPE_AS4_PATH)
    | _, _ => (attrs, get BGP_ATTR_TYPE_AS4_PATH)
    end in
  match get BGP_ATTR_TYPE_AS_PATH, as4_path with
  | Some (AsPath as_path), Some (As4Path as4_path) =>
      if get_as_path_len as_path <? get_as_path_len as4_path then remove_type BGP_ATTR_TYPE_AS4_PATH attrs
      else
        remove_type BGP_ATTR_TYPE_AS4_PATH (remove_type BGP_ATTR_TYPE_AS_PATH attrs) ++
          [AsPath (_construct_as_path_attr as_path (Some as4_path))]
  | _, _ => attrs
  end.

(** What [_construct_update] does to the AS path towards an external peer. *)
Definition prepend_as (local_as : Z) (as_path_list : list as_segment) : list as_segment :=
  match as_path_list with
  | AsSequence l :: rest =>
      if (length l <? 255)%nat then AsSequence (local_as :: l) :: rest else AsSequence [local_as] :: as_path_list
  | _ => AsSequence [local_as] :: as_path_list
  end.

(** ** Loops *)

(** [_is_looped_path_attrs]: a loop is logged, and nothing is returned in any case; the last
    value is the message that is logged. *)
Inductive loop_log := LoopAsPath | LoopOriginatorId | LoopClusterList.

Definition _is_looped_path_attrs (local_as allow_local_as_in_count : Z) (cluster_id : string) (attrs : list attr) :
    option bool * option loop_log :=
  let umsg_pattrs := pathattr_map attrs in
  let as_loop :=
    match od_get BGP_ATTR_TYPE_AS_PATH umsg_pattrs with
    | Some (AsPath value) => has_local_as value local_as allow_local_as_in_count
    | _ => false
    end in
  let cluster_loop :=
    match od_get BGP_ATTR_TYPE_CLUSTER_LIST umsg_pattrs with
    | Some (ClusterList value) => bool_decide (cluster_id ∈ value)
    | _ => false
    end in
  (* the attribute ORIGINATOR_ID is compared with a string, which it never equals *)
  (None, if as_loop then Some LoopAsPath else if cluster_loop then Some LoopClusterList else None).

(** ** The merge of AS_PATH and AS4_PATH *)

(** Items in order as segments, adjacent numbers in one segment. *)
Definition put (item : as_item) (segs : list as_segment) : list as_segment :=
  match item, segs with
  | Num n, AsSequence l :: segs => AsSequence (n :: l) :: segs
  | Num n, _ => AsSequence [n] :: segs
  | SetItem s, _ => AsSet s :: segs
  end.

Definition join (items : list as_item) : list as_segment := foldr put [] items.

(** What the loop has of the items it has seen, and what the last [if] makes of it. *)
Definition merged (acc : list as_segment * list Z) : list as_segment := flush acc.2 acc.1.

Definition open_run (acc : list as_segment * list Z) : Prop :=
  match acc.1 with AsSequence _ :: _ => False | _ => True end.

Lemma merge_item acc x item :
  (x = (Some item, None) ∨ ∃ o, x = (o, Some item)) → open_run acc →
  open_run (merge_step acc x) ∧
  merged (merge_step acc x) = put item (merged acc).
Proof.
  destruct acc as [new tmp]. unfold open_run, merged. cbn [fst snd]. intros Hx Ho.
  assert (merge_step (new, tmp) x =
    match item with Num n => (new, n :: tmp) | SetItem s => (AsSet s :: flush tmp new, []) end) as ->.
  { destruct Hx as [->|[o ->]]; [by destruct item|]. by destruct o as [[]|], item. }
  destruct item as [n|s]; cbn [fst snd]; [|by split]. split; [done|].
  destruct tmp as [|t tmp]; cbn [flush]; [|done]. by destruct new as [|[] ?].
Qed.

Lemma zip_longest_snoc_r {A B} (l : list A) (k : list B) b :
  (length l ≤ length k)%nat → zip_longest l (k ++ [b]) = zip_longest l k ++ [(None, Some b)].
Proof.
  revert k. induction l as [|a l IH]; intros k Hl; [by cbn; rewrite fmap_app|].
  destruct k as [|b' k]; cbn in *; [lia|]. by rewrite IH by lia.
Qed.

(** The items that a pair of reversed lists stands for: those of the second list, and before
    them the first ones of the first list. *)
Lemma merge_pairs l k acc :
  (length k ≤ length l)%nat → open_run acc →
  open_run (foldl merge_step acc (zip_longest l k)) ∧
  merged (foldl merge_step acc (zip_longest l k)) =
    foldl (flip put) (merged acc) (k ++ drop (length k) l).
Proof.
  revert k acc. induction l as [|a l IH]; intros k acc Hl Ho.
  { destruct k; cbn in Hl; [by split|lia]. }
  destruct k as [|b k].
  - destruct (merge_item acc (Some a, None) a (or_introl eq_refl) Ho) as [Ho' Hm].
    destruct (IH [] (merge_step acc (Some a, None)) ltac:(cbn; lia) Ho') as [Ho2 Hm2].
    cbn [zip_longest foldl length drop app] in *. split; [done|]. rewrite Hm2. cbn [foldl]. by rewrite Hm, ?drop_0.
  - destruct (merge_item acc (Some a, Some b) b (or_intror (ex_intro _ _ eq_refl)) Ho) as [Ho' Hm].
    destruct (IH k (merge_step acc (Some a, Some b)) ltac:(cbn in *; lia) Ho') as [Ho2 Hm2].
    cbn [zip_longest foldl length drop app]. split; [done|]. by rewrite Hm2, Hm.
Qed.

Lemma join_reverse items : join items = foldl (flip put) [] (reverse items).
Proof. unfold join. induction items as [|item items IH]; [done|]. by rewrite reverse_cons, foldl_app, <- IH. Qed.

Lemma get_as_path_len_items segs : get_as_path_len segs = Z.of_nat (length (_listify segs)).
Proof.
  unfold get_as_path_len, _listify. assert (∀ n, foldl (λ count seg, match seg with AsSequence l => count + Z.of_nat (length l) | AsSet _ => count + 1 end) n segs =
    n + Z.of_nat (length (segs ≫= λ seg, match seg with AsSequence l => Num <$> l | AsSet l => [SetItem l] end))) as H; [|by rewrite H].
  induction segs as [|seg segs IH]; intros n; [cbn; lia|].
  rewrite bind_cons, length_app. cbn [foldl]. rewrite IH. destruct seg; [rewrite length_fmap|cbn [length]]; lia.
Qed.

(** The merge is that of RFC 6793: when AS_PATH is not shorter, its leading numbers and sets
    stand before AS4_PATH, so many that the length is that of AS_PATH. *)
Lemma construct_as_path_value as_path as4_path :
  get_as_path_len as4_path ≤ get_as_path_len as_path →
  _construct_as_path_attr as_path (Some as4_path) =
    join (take (length (_listify as_path) - length (_listify as4_path)) (_listify as_path) ++ _listify as4_path).
Proof.
  intros Hl. cbn [_construct_as_path_attr]. rewrite (proj2 (Z.ltb_ge _ _) Hl). rewrite !get_as_path_len_items in Hl.
  set (l := _listify as_path) in *. set (k := _listify as4_path) in *.
  destruct (merge_pairs (reverse l) (reverse k) ([], [])) as [_ Hm]; [rewrite !length_reverse; lia|done|].
  destruct (foldl merge_step ([], []) _) as [new tmp]. unfold merged in Hm. cbn [fst snd flush] in Hm. rewrite Hm.
  rewrite join_reverse, reverse_app, length_reverse. do 2 f_equal.
  rewrite <- (take_drop (length l - length k) l) at 1. rewrite reverse_app.
  rewrite drop_app_length'; [done|]. rewrite length_reverse, length_drop. lia.
Qed.

Lemma listify_cons seg segs : _listify (seg :: segs) = match seg with AsSequence l => Num <$> l | AsSet l => [SetItem l] end ++ _listify segs.
Proof. done. Qed.

Lemma listify_put item segs : _listify (put item segs) = item :: _listify segs.
Proof. destruct item as [n|s]; cbn [put]; [|done]. by destruct segs as [|[l|l] segs]. Qed.

(** Joining items keeps them. *)
Lemma listify_join items : _listify (join items) = items.
Proof. unfold join. induction items as [|item items IH]; cbn [foldr]; [done|]. by rewrite listify_put, IH. Qed.

Lemma listify_prepend n segs : _listify (prepend_as n segs) = Num n :: _listify segs.
Proof. unfold prepend_as. destruct segs as [|[l|l] segs]; [done| |done]. by case Nat.ltb. Qed.

Lemma listify_prepends ns segs : _listify (foldr prepend_as segs ns) = (Num <$> ns) ++ _listify segs.
Proof. induction ns as [|n ns IH]; cbn [foldr]; [done|]. by rewrite listify_prepend, IH. Qed.

Lemma swap_length segs : length (_listify (swap_seg <$> segs)) = length (_listify segs).
Proof.
  induction segs as [|seg segs IH]; [done|]. rewrite fmap_cons, !listify_cons, !length_app, IH. f_equal.
  destruct seg; [|done]. cbn. by rewrite !length_fmap.
Qed.

Lemma swap_valid n : is_valid_old_asn (swap n) = true.
Proof. unfold swap. by destruct (is_valid_old_asn n) eqn:E. Qed.

Lemma make_set_elem n l : n ∈ make_set l ↔ n ∈ l.
Proof.
  unfold make_set. induction l as [|m l IH] using rev_ind; [done|]. rewrite foldl_app. cbn [foldl].
  case_bool_decide as Hm; rewrite ?elem_of_app, IH; set_solver.
Qed.

(** Two octets are enough for a segment. *)
Definition two_octets (seg : as_segment) : Prop := Forall (λ n, is_valid_old_asn n = true) (seg_numbers seg).

Lemma swap_seg_two_octets seg : two_octets (swap_seg seg).
Proof.
  unfold two_octets. apply Forall_forall. destruct seg as [l|l]; cbn; intros n Hn; [|rewrite make_set_elem in Hn];
    apply list_elem_of_fmap in Hn as (m & -> & _); apply swap_valid.
Qed.

Lemma seg_eqb_two_octets seg : seg_eqb seg (swap_seg seg) = true → two_octets seg.
Proof.
  intros E. pose proof (swap_seg_two_octets seg) as H. unfold two_octets in *. destruct seg as [l|l]; cbn in *.
  - apply bool_decide_eq_true in E. by rewrite E.
  - apply andb_true_iff in E as [E _]. apply bool_decide_eq_true in E.
    rewrite Forall_forall in H |- *. intros n Hn. by apply H, E.
Qed.

Lemma segs_eqb_two_octets segs : segs_eqb segs (swap_seg <$> segs) = true → Forall two_octets segs.
Proof.
  induction segs as [|seg segs IH]; [constructor|]. cbn. intros [H1 H2]%andb_true_iff.
  constructor; [by apply seg_eqb_two_octets|auto].
Qed.

(** C19: An AS path that goes to a speaker with two octets is sent with numbers of two octets, and
    whatever speakers with two octets add to it on the way, the next speaker with four octets
    that merges AS_PATH and AS4_PATH has the numbers and sets of the path again, in order and
    behind those that were added. *)
Theorem as4_path_restored segs added :
  let '(as_path, as4_path) := _trans_as_path false segs in
  Forall two_octets as_path ∧
  _listify (_construct_as_path_attr (foldr prepend_as as_path added) as4_path) = (Num <$> added) ++ _listify segs.
Proof.
  unfold _trans_as_path. destruct (segs_eqb segs (swap_seg <$> segs)) eqn:E.
  - split; [by apply segs_eqb_two_octets|]. apply listify_prepends.
  - split; [apply Forall_fmap, Forall_true; intros; apply swap_seg_two_octets|].
    rewrite construct_as_path_value, listify_join.
    + rewrite listify_prepends. f_equal. rewrite length_app, swap_length.
      rewrite Nat.add_sub. by apply take_app_length.
    + rewrite !get_as_path_len_items, listify_prepends, length_app, swap_length. lia.
Qed.

(** ** Messages *)

Definition get_attr (type : Z) (attrs : list attr) : option attr := od_get type (pathattr_map attrs).

Definition types_unique (attrs : list attr) : Prop := NoDup (attr_type <$> attrs).

Lemma get_attr_snoc type attrs a :
  get_attr type (attrs ++ [a]) = if decide (type = attr_type a) then Some a else get_attr type attrs.
Proof. unfold get_attr, pathattr_map. rewrite foldl_app. cbn [foldl]. apply od_get_set. Qed.

Lemma get_attr_type type attrs a : get_attr type attrs = Some a → attr_type a = type ∧ a ∈ attrs.
Proof.
  induction attrs as [|b attrs IH] using rev_ind; [done|]. rewrite get_attr_snoc. case_decide as Hd.
  - intros [= <-]. split; [done|]. set_solver.
  - intros H. destruct (IH H). set_solver.
Qed.

Lemma filter_all {A} (P : A → Prop) `{∀ x, Decision (P x)} (l : list A) : Forall P l → filter P l = l.
Proof.
  induction 1 as [|x l Hx _ IH]; [done|]. by rewrite filter_cons_True, IH by done.
Qed.

(** With one attribute of each type, removing one removes the type. *)
Lemma remove_type_filter type attrs :
  types_unique attrs → remove_type type attrs = filter (λ a, attr_type a ≠ type) attrs.
Proof.
  intros Hu. unfold remove_type. rewrite <- (reverse_involutive attrs) at 2. rewrite filter_reverse. f_equal.
  assert (NoDup (attr_type <$> reverse attrs)) as Hn by by (rewrite fmap_reverse, reverse_Permutation; exact Hu).
  induction (reverse attrs) as [|a l IH]; [done|]. cbn in Hn. apply NoDup_cons in Hn as [Ha Hn].
  rewrite filter_cons. destruct (Z.eqb_spec (attr_type a) type) as [E|E].
  - rewrite decide_False by tauto. symmetry. apply filter_all.
    apply Forall_forall. intros b Hb Eb. apply Ha. rewrite E, <- Eb. by apply list_elem_of_fmap_2.
  - rewrite decide_True by done. by rewrite IH.
Qed.

Lemma get_attr_filter (P : Z → Prop) `{∀ t, Decision (P t)} type attrs :
  get_attr type (filter (λ a, P (attr_type a)) attrs) = if decide (P type) then get_attr type attrs else None.
Proof.
  induction attrs as [|a attrs IH] using rev_ind; [by case_decide|].
  rewrite filter_app, filter_cons, filter_nil, get_attr_snoc. destruct (decide (P (attr_type a))) as [Ha|Ha].
  - rewrite get_attr_snoc, IH. repeat case_decide; subst; done.
  - rewrite app_nil_r, IH. repeat case_decide; subst; done.
Qed.

Lemma get_attr_remove type t attrs :
  types_unique attrs → get_attr t (remove_type type attrs) = if decide (t = type) then None else get_attr t attrs.
Proof.
  intros Hu. rewrite remove_type_filter by done.
  etrans; [exact (get_attr_filter (λ t, t ≠ type) t attrs)|]. by repeat case_decide.
Qed.

Lemma unique_remove type attrs : types_unique attrs → types_unique (remove_type type attrs).
Proof.
  intros Hu. rewrite remove_type_filter by done. unfold types_unique in *.
  eapply sublist_NoDup; [exact Hu|]. apply fmap_sublist, sublist_filter.
Qed.

Lemma unique_snoc attrs a : types_unique attrs → get_attr (attr_type a) attrs = None → types_unique (attrs ++ [a]).
Proof.
  intros Hu Ha. unfold types_unique in *. rewrite fmap_app, NoDup_app. split_and!; [done| |apply NoDup_singleton].
  intros t Ht ->%list_elem_of_singleton. apply list_elem_of_fmap in Ht as (b & Hb & Hin).
  revert Ha. clear -Hb Hin. rewrite Hb. induction attrs as [|c attrs IH] using rev_ind; [set_solver|].
  rewrite get_attr_snoc. case_decide as E; [done|]. apply IH. set_solver.
Qed.

(** Attributes of a known type are objects of its class. *)
Definition typed (a : attr) : Prop :=
  match a with
  | Unknown type _ => type ∉ [BGP_ATTR_TYPE_AS_PATH; BGP_ATTR_TYPE_AGGREGATOR; BGP_ATTR_TYPE_AS4_PATH; BGP_ATTR_TYPE_AS4_AGGREGATOR]
  | _ => True
  end.

(** The aggregator of a message and whether its four octet attributes count (RFC 6793, 4.2.3):
    not when AGGREGATOR is a number of its own next to AS4_AGGREGATOR. *)
Definition as4_ignored (attrs : list attr) : bool :=
  match get_attr BGP_ATTR_TYPE_AGGREGATOR attrs, get_attr BGP_ATTR_TYPE_AS4_AGGREGATOR attrs with
  | Some (Aggregator asn _), Some _ => negb (asn =? AS_TRANS)
  | _, _ => false
  end.

Definition aggregator_of (attrs : list attr) : option attr :=
  match get_attr BGP_ATTR_TYPE_AGGREGATOR attrs, get_attr BGP_ATTR_TYPE_AS4_AGGREGATOR attrs with
  | Some (Aggregator asn addr), Some (As4Aggregator asn4 addr4) =>
      Some (if asn =? AS_TRANS then Aggregator asn4 addr4 else Aggregator asn addr)
  | a, _ => a
  end.

Definition as_path_of (attrs : list attr) (as_path : list as_segment) : list as_segment :=
  match get_attr BGP_ATTR_TYPE_AS4_PATH attrs with
  | Some (As4Path as4_path) => if as4_ignored attrs then as_path else _construct_as_path_attr as_path (Some as4_path)
  | _ => as_path
  end.

Record reconstructed (attrs attrs' : list attr) (as_path : list as_segment) : Prop := {
  rec_unique : types_unique attrs';
  rec_as_path : get_attr BGP_ATTR_TYPE_AS_PATH attrs' = Some (AsPath (as_path_of attrs as_path));
  rec_as4_path : get_attr BGP_ATTR_TYPE_AS4_PATH attrs' = None;
  rec_aggregator : get_attr BGP_ATTR_TYPE_AGGREGATOR attrs' = aggregator_of attrs;
  rec_other t : t ∉ [BGP_ATTR_TYPE_AS_PATH; BGP_ATTR_TYPE_AGGREGATOR; BGP_ATTR_TYPE_AS4_PATH; BGP_ATTR_TYPE_AS4_AGGREGATOR] →
    get_attr t attrs' = get_attr t attrs
}.

(** Attributes by their type. *)
Lemma get_typed attrs type a :
  Forall typed attrs → get_attr type attrs = Some a → attr_type a = type ∧ typed a.
Proof. intros Ht E. apply get_attr_type in E as [E Ha]. rewrite Forall_forall in Ht. auto. Qed.

Ltac by_type a Ht E :=
  let H := fresh in
  destruct (get_typed _ _ a Ht E) as [H ?]; destruct a; try discriminate H; cbn [typed attr_type] in *; try subst;
  try (exfalso; set_solver).

Lemma get_aggregator attrs a :
  Forall typed attrs → get_attr BGP_ATTR_TYPE_AGGREGATOR attrs = Some a → ∃ n addr, a = Aggregator n addr.
Proof. intros Ht E. by_type a Ht E. by eexists _, _. Qed.

Lemma get_as4_aggregator attrs a :
  Forall typed attrs → get_attr BGP_ATTR_TYPE_AS4_AGGREGATOR attrs = Some a → ∃ n addr, a = As4Aggregator n addr.
Proof. intros Ht E. by_type a Ht E. by eexists _, _. Qed.

Lemma get_as4_path attrs a :
  Forall typed attrs → get_attr BGP_ATTR_TYPE_AS4_PATH attrs = Some a → ∃ segs, a = As4Path segs.
Proof. intros Ht E. by_type a Ht E. by eexists _. Qed.

(** The first part of the method: the aggregators, and what is left of AS4_PATH. *)
Definition choose_aggregator (attrs : list attr) : list attr * option attr :=
  let get t := get_attr t attrs in
  match get BGP_ATTR_TYPE_AGGREGATOR, get BGP_ATTR_TYPE_AS4_AGGREGATOR with
  | Some (Aggregator asn _), Some (As4Aggregator asn4 addr4) =>
      if negb (asn =? AS_TRANS) then
        let attrs := remove_type BGP_ATTR_TYPE_AS4_AGGREGATOR attrs in
        match get BGP_ATTR_TYPE_AS4_PATH with
        | Some _ => (remove_type BGP_ATTR_TYPE_AS4_PATH attrs, None)
        | None => (attrs, None)
        end
      else
        (remove_type BGP_ATTR_TYPE_AS4_AGGREGATOR (remove_type BGP_ATTR_TYPE_AGGREGATOR attrs) ++ [Aggregator asn4 addr4],
         get BGP_ATTR_TYPE_AS4_PATH)
  | _, _ => (attrs, get BGP_ATTR_TYPE_AS4_PATH)
  end.

Ltac lookups :=
  repeat first [rewrite get_attr_snoc | rewrite get_attr_remove by auto using unique_remove];
  repeat (case_decide; try discriminate); try done.

Lemma choose_aggregator_spec attrs :
  types_unique attrs → Forall typed attrs →
  let '(attrs', as4_path) := choose_aggregator attrs in
  types_unique attrs' ∧ get_attr BGP_ATTR_TYPE_AS4_PATH attrs' = as4_path ∧
  as4_path = (if as4_ignored attrs then None else get_attr BGP_ATTR_TYPE_AS4_PATH attrs) ∧
  get_attr BGP_ATTR_TYPE_AGGREGATOR attrs' = aggregator_of attrs ∧
  ∀ t, t ∉ [BGP_ATTR_TYPE_AGGREGATOR; BGP_ATTR_TYPE_AS4_PATH; BGP_ATTR_TYPE_AS4_AGGREGATOR] →
    get_attr t attrs' = get_attr t attrs.
Proof.
  intros Hu Ht. unfold choose_aggregator, as4_ignored, aggregator_of. cbv zeta.
  destruct (get_attr BGP_ATTR_TYPE_AGGREGATOR attrs) as [a|] eqn:Ea; [|by rewrite Ea].
  destruct (get_aggregator attrs a Ht Ea) as (n & addr & ->).
  destruct (get_attr BGP_ATTR_TYPE_AS4_AGGREGATOR attrs) as [a4|] eqn:Ea4; [|by rewrite Ea].
  destruct (get_as4_aggregator attrs a4 Ht Ea4) as (n4 & addr4 & ->).
  assert (∀ t, t ∉ [BGP_ATTR_TYPE_AGGREGATOR; BGP_ATTR_TYPE_AS4_PATH; BGP_ATTR_TYPE_AS4_AGGREGATOR] →
    t ≠ BGP_ATTR_TYPE_AGGREGATOR ∧ t ≠ BGP_ATTR_TYPE_AS4_PATH ∧ t ≠ BGP_ATTR_TYPE_AS4_AGGREGATOR) as Hne by set_solver.
  destruct (Z.eqb_spec n AS_TRANS) as [->|Hn]; cbn [negb].
  - split_and!; [apply unique_snoc; [auto using unique_remove|lookups]|lookups|done|lookups|].
    intros t (? & ? & ?)%Hne. lookups.
  - destruct (get_attr BGP_ATTR_TYPE_AS4_PATH attrs) eqn:E4;
      (split_and!; [auto using unique_remove|lookups|done|lookups|intros t (? & ? & ?)%Hne; lookups]).
Qed.

Lemma reconstruct_spec attrs as_path :
  types_unique attrs → Forall typed attrs → get_attr BGP_ATTR_TYPE_AS_PATH attrs = Some (AsPath as_path) →
  reconstructed attrs (_extract_and_reconstruct_as_path attrs) as_path.
Proof.
  intros Hu Ht E. pose proof (choose_aggregator_spec attrs Hu Ht) as H.
  change (_extract_and_reconstruct_as_path attrs) with (
    let '(attrs', as4_path) := choose_aggregator attrs in
    match get_attr BGP_ATTR_TYPE_AS_PATH attrs, as4_path with
    | Some (AsPath as_path), Some (As4Path as4_path) =>
        if get_as_path_len as_path <? get_as_path_len as4_path then remove_type BGP_ATTR_TYPE_AS4_PATH attrs'
        else remove_type BGP_ATTR_TYPE_AS4_PATH (remove_type BGP_ATTR_TYPE_AS_PATH attrs') ++
               [AsPath (_construct_as_path_attr as_path (Some as4_path))]
    | _, _ => attrs'
    end).
  rewrite E. destruct (choose_aggregator attrs) as [attrs' as4]. destruct H as (Hu' & E4' & Has4 & Eagg & Hother).
  assert (get_attr BGP_ATTR_TYPE_AS_PATH attrs' = Some (AsPath as_path)) as E' by (rewrite Hother; [done|]; set_solver).
  assert (∀ t, t ∉ [BGP_ATTR_TYPE_AS_PATH; BGP_ATTR_TYPE_AGGREGATOR; BGP_ATTR_TYPE_AS4_PATH; BGP_ATTR_TYPE_AS4_AGGREGATOR] →
    get_attr t attrs' = get_attr t attrs ∧ t ≠ BGP_ATTR_TYPE_AS4_PATH ∧ t ≠ BGP_ATTR_TYPE_AS_PATH) as Hne.
  { intros t Hn. rewrite Hother; set_solver. }
  unfold as_path_of in *. destruct as4 as [a4|].
  - destruct (as4_ignored attrs) eqn:Hi; [done|]. symmetry in Has4. destruct (get_as4_path attrs a4 Ht Has4) as [segs4 ->].
    cbn [_construct_as_path_attr]. destruct (Z.ltb_spec (get_as_path_len as_path) (get_as_path_len segs4)) as [Hl|Hl].
    + split; [auto using unique_remove|..|lookups|lookups|intros t (Et & ? & ?)%Hne; lookups].
      unfold as_path_of. rewrite Has4, Hi. cbn [_construct_as_path_attr]. rewrite (proj2 (Z.ltb_lt _ _) Hl). lookups.
    + split; [apply unique_snoc; [auto using unique_remove|lookups]|..|lookups|lookups|intros t (Et & ? & ?)%Hne; lookups].
      unfold as_path_of. rewrite Has4, Hi. cbn [_construct_as_path_attr]. rewrite (proj2 (Z.ltb_ge _ _) Hl). lookups.
  - split; [done|..|done|done|intros t (Et & _)%Hne; done]. unfold as_path_of.
    rewrite E'. destruct (get_attr BGP_ATTR_TYPE_AS4_PATH attrs) as [a4|] eqn:E4; [|done].
    destruct (as4_ignored attrs) eqn:Hi; [|done]. by destruct a4.
Qed.

(** Whether there is an AS path and what the other attributes are does not change. *)
Lemma reconstruct_keeps attrs t :
  types_unique attrs → Forall typed attrs →
  t ∉ [BGP_ATTR_TYPE_AS_PATH; BGP_ATTR_TYPE_AGGREGATOR; BGP_ATTR_TYPE_AS4_PATH; BGP_ATTR_TYPE_AS4_AGGREGATOR] →
  get_attr t (_extract_and_reconstruct_as_path attrs) = get_attr t attrs.
Proof.
  intros Hu Ht Hn. destruct (get_attr BGP_ATTR_TYPE_AS_PATH attrs) as [a|] eqn:E.
  - by_type a Ht E. apply (rec_other _ _ _ (reconstruct_spec attrs value Hu Ht E)), Hn.
  - pose proof (choose_aggregator_spec attrs Hu Ht) as H.
    change (_extract_and_reconstruct_as_path attrs) with (
      let '(attrs', as4_path) := choose_aggregator attrs in
      match get_attr BGP_ATTR_TYPE_AS_PATH attrs, as4_path with
      | Some (AsPath as_path), Some (As4Path as4_path) =>
          if get_as_path_len as_path <? get_as_path_len as4_path then remove_type BGP_ATTR_TYPE_AS4_PATH attrs'
          else remove_type BGP_ATTR_TYPE_AS4_PATH (remove_type BGP_ATTR_TYPE_AS_PATH attrs') ++
                 [AsPath (_construct_as_path_attr as_path (Some as4_path))]
      | _, _ => attrs'
      end).
    rewrite E. destruct (choose_aggregator attrs) as [attrs' as4]. destruct H as (_ & _ & _ & _ & H). apply H. set_solver.
Qed.

(** The AS path of a received message, when its attributes are of distinct types: AS_PATH and
    AS4_PATH are merged into one AS_PATH, except that AS4_PATH and AS4_AGGREGATOR do not count
    beside an AGGREGATOR with a number of its own (RFC 6793, 4.2.3) and AS4_PATH not when it is
    the longer one; AS4_PATH never stays, the aggregator is that of AS4_AGGREGATOR where
    AGGREGATOR says AS_TRANS, and the other attributes are untouched. *)
Theorem as_path_reconstructed attrs as_path :
  types_unique attrs → Forall typed attrs → get_attr BGP_ATTR_TYPE_AS_PATH attrs = Some (AsPath as_path) →
  reconstructed attrs (_extract_and_reconstruct_as_path attrs) as_path.
Proof. apply reconstruct_spec. Qed.

Module AttrWitness.
Definition merged_update : list attr :=
  [Origin 0; AsPath [AsSequence [65001; AS_TRANS; AS_TRANS]]; NextHop (Some "192.0.2.1"); Aggregator AS_TRANS "192.0.2.9";
   As4Path [AsSequence [70000; 80000]]; As4Aggregator 80000 "192.0.2.9"].
End AttrWitness.

Lemma as_path_reconstructed_witness :
  reconstructed AttrWitness.merged_update (_extract_and_reconstruct_as_path AttrWitness.merged_update)
    [AsSequence [65001; AS_TRANS; AS_TRANS]] ∧
  get_attr BGP_ATTR_TYPE_AS_PATH (_extract_and_reconstruct_as_path AttrWitness.merged_update) =
    Some (AsPath [AsSequence [65001; 70000; 80000]]) ∧
  get_attr BGP_ATTR_TYPE_AGGREGATOR (_extract_and_reconstruct_as_path AttrWitness.merged_update) =
    Some (Aggregator 80000 "192.0.2.9").
Proof.
  split; [|by split; vm_compute]. apply as_path_reconstructed; [|by repeat constructor|reflexivity].
  unfold types_unique. apply (bool_decide_unpack _). vm_compute. exact I.
Defined.

(** ** Faults *)

(** The first number of the path is asked of a set as well, which has none: whether a path that
    starts with an AS_SET goes to a neighbor ends in an exception. *)
Lemma leftmost_of_set n l segs asn : asn ≠ 0 → has_matching_leftmost (AsSet (n :: l) :: segs) asn = Raise TypeError.
Proof. intros H. unfold has_matching_leftmost. by rewrite (proj2 (Z.eqb_neq _ _) H). Qed.

(** A message is never refused for a loop: the check logs it and returns nothing. *)
Lemma loops_not_refused local_as count cluster_id attrs : (_is_looped_path_attrs local_as count cluster_id attrs).1 = None.
Proof. done. Qed.

Example as_path_loop_logged :
  _is_looped_path_attrs 65001 0 "1.1.1.1" [AsPath [AsSequence [65002; 65001]]] = (None, Some LoopAsPath).
Proof. reflexivity. Qed.

(** Items that come from two segments are merged into one, which can be longer than the 255
    numbers a segment can have. *)
Example merged_segment_too_long :
  map (λ seg, length (seg_numbers seg))
    (_construct_as_path_attr [AsSequence (repeat 1 200); AsSequence (repeat 2 200)] (Some [AsSequence [3]])) = [400%nat].
Proof. vm_compute. reflexivity. Qed.
