(* ===== verification/BgpOpen.v ===== *)
(** * BGP OPEN messages

    Models what two BGP speakers agree on when they open a session: the capabilities a neighbor is
    configured with ([NeighborConf.get_configured_capabilities] of
    [ryu/services/protocols/bgp/rtconf/neighbors.py]), the OPEN message made of them
    ([Peer.create_open_msg] of [peer.py]), its validation and the questions a protocol
    instance answers from the two messages ([BgpProtocol] of [speaker.py]).  A route family is
    the integer of its AFI and SAFI. *)

From stdpp Require Import base list strings sets.
From Stdlib Require Import ZArith Lia.
From S2P Require Import Prelude Odict BgpDecision BgpAttr.

Open Scope Z_scope.
Set Default Proof Using "Type".

(** ** Route families *)

Definition route_family (afi safi : Z) : Z := afi * 65536 + safi.
Definition rf_afi (rf : Z) : Z := rf / 65536.
Definition rf_safi (rf : Z) : Z := rf mod 65536.

Definition RF_IPv4_UC := route_family 1 1.
Definition RF_IPv6_UC := route_family 2 1.
Definition RF_IPv4_VPN := route_family 1 128.
Definition RF_IPv6_VPN := route_family 2 128.
Definition RF_IPv4_MPLS := route_family 1 4.
Definition RF_IPv6_MPLS := route_family 2 4.
Definition RF_L2_EVPN := route_family 25 70.
Definition RF_IPv4_FLOWSPEC := route_family 1 133.
Definition RF_IPv6_FLOWSPEC := route_family 2 133.
Definition RF_VPNv4_FLOWSPEC := route_family 1 134.
Definition RF_VPNv6_FLOWSPEC := route_family 2 134.
Definition RF_L2VPN_FLOWSPEC := route_family 25 134.
Definition RF_RTC_UC := route_family 1 132.

(** The families of [_rf_map], and those for which there are tables. *)
Definition rf_map : list Z :=
  [RF_IPv4_UC; RF_IPv6_UC; RF_IPv4_VPN; RF_IPv6_VPN; RF_IPv4_MPLS; RF_IPv6_MPLS; RF_L2_EVPN; RF_IPv4_FLOWSPEC;
   RF_IPv6_FLOWSPEC; RF_VPNv4_FLOWSPEC; RF_VPNv6_FLOWSPEC; RF_L2VPN_FLOWSPEC; RF_RTC_UC].

Definition SUPPORTED_GLOBAL_RF : list Z :=
  [RF_IPv4_UC; RF_IPv6_UC; RF_IPv4_VPN; RF_RTC_UC; RF_IPv6_VPN; RF_L2_EVPN; RF_IPv4_FLOWSPEC; RF_IPv6_FLOWSPEC;
   RF_VPNv4_FLOWSPEC; RF_VPNv6_FLOWSPEC; RF_L2VPN_FLOWSPEC].

(** [get_rf]: a family that is not in the map is a key error. *)
Definition get_rf (rf : Z) : outcome pyexn Z :=
  if bool_decide (rf ∈ rf_map) then Ret rf else Raise KeyError.

(** ** Messages *)

Definition BGP_CAP_MULTIPROTOCOL : Z := 1.
Definition BGP_CAP_ROUTE_REFRESH : Z := 2.
Definition BGP_CAP_FOUR_OCTET_AS_NUMBER : Z := 65.
Definition BGP_CAP_ENHANCED_ROUTE_REFRESH : Z := 70.
Definition BGP_VERSION_NUM : Z := 4.

(** Optional parameters: capabilities, of which two carry a value that matters, and parameters of
    other types, which have no attribute [cap_code]. *)
Inductive opt_param :=
| CapMultiprotocol (rf : Z)
| CapFourOctetAsNumber (as_number : Z)
| CapOther (code : Z)
| OptParamUnknown (type : Z).

Definition cap_code (p : opt_param) : outcome pyexn Z :=
  match p with
  | CapMultiprotocol _ => Ret BGP_CAP_MULTIPROTOCOL
  | CapFourOctetAsNumber _ => Ret BGP_CAP_FOUR_OCTET_AS_NUMBER
  | CapOther code => Ret code
  | OptParamUnknown _ => Raise AttributeError
  end.

Record open_msg := OpenMsg {
  version : Z;
  my_as : Z;
  hold_time : Z;
  bgp_identifier : string;
  opt_params : list opt_param
}.

(** [opt_param_cap_map]: the last capability of each code. *)
Definition opt_param_cap_map (m : open_msg) : odict Z opt_param :=
  foldl (λ d p, match cap_code p with Ret code => od_set code p d | Raise _ => d end) [] (opt_params m).

(** ** Configuration *)

Record open_conf := OpenConf {
  c_local_as : Z;
  c_remote_as : Z;
  c_router_id : string;
  c_hold_time : Z;
  c_cap_mbgp : Z → bool;
  c_cap_refresh : bool;
  c_cap_enhanced_refresh : bool;
  c_cap_four_octet_as_number : bool
}.

(** The families in the order of [get_configured_capabilities]. *)
Definition mbgp_families : list Z :=
  [RF_IPv4_UC; RF_IPv6_UC; RF_IPv4_VPN; RF_IPv6_VPN; RF_RTC_UC; RF_L2_EVPN; RF_IPv4_FLOWSPEC; RF_IPv6_FLOWSPEC;
   RF_VPNv4_FLOWSPEC; RF_VPNv6_FLOWSPEC; RF_L2VPN_FLOWSPEC].

Definition get_configured_capabilities (c : open_conf) : list opt_param :=
  (CapMultiprotocol <$> List.filter (c_cap_mbgp c) mbgp_families) ++
  (if c_cap_refresh c then [CapOther BGP_CAP_ROUTE_REFRESH] else []) ++
  (if c_cap_enhanced_refresh c then [CapOther BGP_CAP_ENHANCED_ROUTE_REFRESH] else []) ++
  (if c_cap_four_octet_as_number c then [CapFourOctetAsNumber (c_local_as c)] else []).

Definition create_open_msg (c : open_conf) : open_msg :=
  {| version := BGP_VERSION_NUM;
     my_as := if is_valid_old_asn (c_local_as c) then c_local_as c else AS_TRANS;
     hold_time := c_hold_time c; bgp_identifier := c_router_id c;
     opt_params := get_configured_capabilities c |}.

(** [_validate_open_msg]: whether the neighbor has four octets, or the error. *)
Definition BadPeerAs : pyexn := RyuException "BadPeerAs".
Definition UnsupportedVersion : pyexn := RyuException "UnsupportedVersion".

Definition _validate_open_msg (c : open_conf) (m : open_msg) : outcome pyexn bool :=
  '((asn, four_octet) : Z * bool) ←
    match od_get BGP_CAP_FOUR_OCTET_AS_NUMBER (opt_param_cap_map m) with
    | None => if my_as m =? AS_TRANS then Raise BadPeerAs else Ret (my_as m, false)
    | Some (CapFourOctetAsNumber as_number) => Ret (as_number, true)
    | Some _ => Raise AttributeError
    end;
  if negb (asn =? c_remote_as c) then Raise BadPeerAs
  else if negb (version m =? BGP_VERSION_NUM) then Raise UnsupportedVersion
  else Ret four_octet.

(** ** What a protocol instance answers *)

Record session := Session {
  sent_open_msg : open_msg;
  recv_open_msg : open_msg;
  cap_four_octet_as_number : bool
}.

(** [[cap for cap in caps if cap.cap_code == code]] *)
Fixpoint caps_with (code : Z) (caps : list opt_param) : outcome pyexn (list opt_param) :=
  match caps with
  | [] => Ret []
  | cap :: caps =>
      code' ← cap_code cap;
      rest ← caps_with code caps;
      Ret (if code' =? code then cap :: rest else rest)
  end.

Definition is_enhanced_rr_cap_valid (s : session) : outcome pyexn bool :=
  local_cap ← caps_with BGP_CAP_ENHANCED_ROUTE_REFRESH (opt_params (sent_open_msg s));
  peer_cap ← caps_with BGP_CAP_ENHANCED_ROUTE_REFRESH (opt_params (recv_open_msg s));
  Ret (nonempty local_cap && nonempty peer_cap).

(** The loop of [_check_route_fmly_adv]. *)
Fixpoint check_adv (caps : list opt_param) (rf : Z) (match_found : bool) : outcome pyexn bool :=
  match caps with
  | [] => Ret match_found
  | cap :: caps =>
      code ← cap_code cap;
      match cap with
      | CapMultiprotocol rf' => check_adv caps rf (match_found || (rf =? rf'))
      | _ => if code =? BGP_CAP_MULTIPROTOCOL then Raise AttributeError else check_adv caps rf match_found
      end
  end.

Definition _check_route_fmly_adv (m : open_msg) (rf : Z) : outcome pyexn bool := check_adv (opt_params m) rf false.

Definition is_route_family_adv (s : session) (rf : Z) : outcome pyexn bool := _check_route_fmly_adv (sent_open_msg s) rf.
Definition is_route_family_adv_recv (s : session) (rf : Z) : outcome pyexn bool := _check_route_fmly_adv (recv_open_msg s) rf.

(** [a and b]: the second is not asked when the first is false. *)
Definition py_and (a b : outcome pyexn bool) : outcome pyexn bool :=
  x ← a;
  if x : bool then b else Ret false.

Definition protocol_mbgp_cap_valid (s : session) (rf : Z) : outcome pyexn bool :=
  py_and (is_route_family_adv s rf) (is_route_family_adv_recv s rf).

(** [negotiated_afs], in the order of a list. *)
Definition cap_family (p : opt_param) : outcome pyexn Z :=
  match p with CapMultiprotocol rf => Ret rf | _ => Raise AttributeError end.

Fixpoint cap_families (caps : list opt_param) : outcome pyexn (list Z) :=
  match caps with
  | [] => Ret []
  | cap :: caps =>
      rf ← cap_family cap;
      rest ← cap_families caps;
      Ret (rf :: rest)
  end.

Fixpoint get_rfs (rfs : list Z) : outcome pyexn (list Z) :=
  match rfs with
  | [] => Ret []
  | rf :: rfs =>
      rf' ← get_rf rf;
      rest ← get_rfs rfs;
      Ret (rf' :: rest)
  end.

Definition negotiated_afs (s : session) : outcome pyexn (list Z) :=
  local_mbgp_cap ← caps_with BGP_CAP_MULTIPROTOCOL (opt_params (sent_open_msg s));
  remote_mbgp_cap ← caps_with BGP_CAP_MULTIPROTOCOL (opt_params (recv_open_msg s));
  if nonempty local_mbgp_cap && nonempty remote_mbgp_cap then
    local_families ← cap_families local_mbgp_cap;
    remote_families ← cap_families remote_mbgp_cap;
    get_rfs (remove_dups (filter (λ rf, rf ∈ remote_families) local_families))
  else Ret [].

(** [is_four_octet_as_number_cap_valid], with the configuration of the peer. *)
Definition four_octet_valid (c : open_conf) (s : session) : bool :=
  cap_four_octet_as_number s && c_cap_four_octet_as_number c.

(** ** What two speakers agree on *)

(** The session of a speaker configured with [c] whose neighbor is configured with [d]. *)
Definition session_with (c d : open_conf) : session :=
  Session (create_open_msg c) (create_open_msg d) (c_cap_four_octet_as_number d).

Definition known_family (c : open_conf) (rf : Z) : bool := c_cap_mbgp c rf && bool_decide (rf ∈ mbgp_families).

Lemma configured_codes c : ∀ p, p ∈ get_configured_capabilities c → is_ret (cap_code p) = true.
Proof.
  intros p. unfold get_configured_capabilities. rewrite !elem_of_app. intros [Hp|[Hp|[Hp|Hp]]].
  - by apply list_elem_of_fmap in Hp as (rf & -> & _).
  - destruct (c_cap_refresh c); set_solver.
  - destruct (c_cap_enhanced_refresh c); set_solver.
  - destruct (c_cap_four_octet_as_number c); set_solver.
Qed.

Lemma check_adv_mbgp rfs rf found :
  ∀ rest, check_adv ((CapMultiprotocol <$> rfs) ++ rest) rf found =
    check_adv rest rf (found || bool_decide (rf ∈ rfs)).
Proof.
  intros rest. revert found. induction rfs as [|rf' rfs IH]; intros found; [by rewrite orb_false_r|].
  cbn [fmap list_fmap app]. cbn [check_adv cap_code mbind outcome_bind]. etrans; [apply IH|]. f_equal.
  rewrite <- orb_assoc. f_equal. apply eq_true_iff_eq.
  rewrite orb_true_iff, Z.eqb_eq, !bool_decide_eq_true. set_solver.
Qed.

Lemma check_adv_other caps rf found :
  (∀ p, p ∈ caps → match p with CapMultiprotocol _ | OptParamUnknown _ => False | CapOther code => code ≠ BGP_CAP_MULTIPROTOCOL | _ => True end) →
  check_adv caps rf found = Ret found.
Proof.
  induction caps as [|p caps IH]; intros H; [done|]. pose proof (H p ltac:(set_solver)) as Hp.
  destruct p as [rf'|asn|code|type]; try done; cbn [check_adv cap_code mbind outcome_bind].
  - apply IH. set_solver.
  - rewrite (proj2 (Z.eqb_neq _ _) Hp). apply IH. set_solver.
Qed.

Lemma created_adv c rf : _check_route_fmly_adv (create_open_msg c) rf = Ret (known_family c rf).
Proof.
  unfold _check_route_fmly_adv, create_open_msg, get_configured_capabilities. cbn [opt_params]. rewrite check_adv_mbgp. rewrite check_adv_other.
  - cbn [orb]. unfold known_family. f_equal. apply eq_true_iff_eq. rewrite andb_true_iff, !bool_decide_eq_true, !list_elem_of_In, filter_In. tauto.
  - intros p. rewrite !elem_of_app. intros [Hp|[Hp|Hp]].
    + destruct (c_cap_refresh c); [|set_solver]. apply list_elem_of_singleton in Hp as ->. done.
    + destruct (c_cap_enhanced_refresh c); [|set_solver]. apply list_elem_of_singleton in Hp as ->. done.
    + destruct (c_cap_four_octet_as_number c); [|set_solver]. by apply list_elem_of_singleton in Hp as ->.
Qed.

Lemma mbgp_valid_with c d rf :
  protocol_mbgp_cap_valid (session_with c d) rf = Ret (known_family c rf && known_family d rf).
Proof.
  unfold protocol_mbgp_cap_valid, is_route_family_adv, is_route_family_adv_recv, session_with. cbn [sent_open_msg recv_open_msg].
  rewrite !created_adv. cbn. by destruct (known_family c rf).
Qed.

Lemma caps_with_app code l k :
  caps_with code (l ++ k) = (a ← caps_with code l; b ← caps_with code k; Ret (a ++ b)).
Proof.
  induction l as [|p l IH]; [cbn; by destruct (caps_with code k)|]. cbn [caps_with app]. rewrite IH.
  destruct (cap_code p) as [x|]; cbn; [|done]. destruct (caps_with code l); cbn; [|done].
  destruct (caps_with code k); cbn; [|done]. by case_match.
Qed.

Lemma caps_with_mbgp code rfs :
  caps_with code (CapMultiprotocol <$> rfs) = Ret (if code =? BGP_CAP_MULTIPROTOCOL then CapMultiprotocol <$> rfs else []).
Proof.
  induction rfs as [|rf rfs IH]; [cbn; by case_match|].
  rewrite fmap_cons. cbn [caps_with cap_code mbind outcome_bind]. rewrite IH. cbn [mbind outcome_bind].
  rewrite Z.eqb_sym. by case_match.
Qed.

Lemma enhanced_caps c :
  caps_with BGP_CAP_ENHANCED_ROUTE_REFRESH (opt_params (create_open_msg c)) =
    Ret (if c_cap_enhanced_refresh c then [CapOther BGP_CAP_ENHANCED_ROUTE_REFRESH] else []).
Proof.
  cbn [create_open_msg opt_params]. unfold get_configured_capabilities. rewrite !caps_with_app, caps_with_mbgp.
  by destruct (c_cap_refresh c), (c_cap_enhanced_refresh c), (c_cap_four_octet_as_number c).
Qed.

Lemma mbgp_caps c :
  caps_with BGP_CAP_MULTIPROTOCOL (opt_params (create_open_msg c)) = Ret (CapMultiprotocol <$> List.filter (c_cap_mbgp c) mbgp_families).
Proof.
  cbn [create_open_msg opt_params]. unfold get_configured_capabilities. rewrite !caps_with_app, caps_with_mbgp.
  destruct (c_cap_refresh c), (c_cap_enhanced_refresh c), (c_cap_four_octet_as_number c); cbn; by rewrite app_nil_r.
Qed.

Lemma cap_families_mbgp rfs : cap_families (CapMultiprotocol <$> rfs) = Ret rfs.
Proof. induction rfs as [|rf rfs IH]; [done|]. rewrite fmap_cons. cbn [cap_families cap_family mbind outcome_bind]. by rewrite IH. Qed.

Lemma get_rfs_known rfs : rfs ⊆ rf_map → get_rfs rfs = Ret rfs.
Proof.
  induction rfs as [|rf rfs IH]; intros H; [done|]. cbn [get_rfs]. unfold get_rf.
  rewrite bool_decide_eq_true_2 by set_solver. cbn. rewrite IH by set_solver. done.
Qed.

Lemma cap_map_app l k d :
  foldl (λ d p, match cap_code p with Ret code => od_set code p d | Raise _ => d end) d (l ++ k) =
  foldl (λ d p, match cap_code p with Ret code => od_set code p d | Raise _ => d end)
    (foldl (λ d p, match cap_code p with Ret code => od_set code p d | Raise _ => d end) d l) k.
Proof. apply foldl_app. Qed.

Lemma four_octet_cap c :
  od_get BGP_CAP_FOUR_OCTET_AS_NUMBER (opt_param_cap_map (create_open_msg c)) =
    if c_cap_four_octet_as_number c then Some (CapFourOctetAsNumber (c_local_as c)) else None.
Proof.
  unfold opt_param_cap_map, create_open_msg, get_configured_capabilities. cbn [opt_params].
  rewrite !cap_map_app. set (d := foldl _ [] (CapMultiprotocol <$> _)).
  assert (od_get BGP_CAP_FOUR_OCTET_AS_NUMBER d = None) as Hd.
  { subst d. induction (List.filter (c_cap_mbgp c) mbgp_families) as [|rf rfs IH] using rev_ind; [done|].
    rewrite fmap_app, foldl_app. cbn [fmap list_fmap foldl cap_code]. by rewrite od_get_set_ne. }
  destruct (c_cap_refresh c), (c_cap_enhanced_refresh c), (c_cap_four_octet_as_number c); cbn [foldl cap_code];
    rewrite ?od_get_set_eq, ?od_get_set_ne by done; done.
Qed.

Lemma validate_created c d :
  _validate_open_msg c (create_open_msg d) =
    if bool_decide (c_remote_as c = c_local_as d) &&
       (c_cap_four_octet_as_number d || is_valid_old_asn (c_local_as d) && negb (c_local_as d =? AS_TRANS))
    then Ret (c_cap_four_octet_as_number d) else Raise BadPeerAs.
Proof.
  unfold _validate_open_msg. rewrite four_octet_cap. cbn [create_open_msg my_as version].
  destruct (c_cap_four_octet_as_number d); cbn [mbind outcome_bind orb].
  - rewrite Z.eqb_sym, andb_true_r. destruct (Z.eqb_spec (c_remote_as c) (c_local_as d)) as [E|E]; cbn;
      [by rewrite bool_decide_eq_true_2|by rewrite bool_decide_eq_false_2].
  - destruct (is_valid_old_asn (c_local_as d)) eqn:Hv; cbn [andb].
    + destruct (Z.eqb_spec (c_local_as d) AS_TRANS) as [E|E]; cbn [negb mbind outcome_bind]; [by rewrite andb_false_r|].
      rewrite Z.eqb_sym, andb_true_r. destruct (Z.eqb_spec (c_remote_as c) (c_local_as d)) as [E'|E']; cbn;
        [by rewrite bool_decide_eq_true_2|by rewrite bool_decide_eq_false_2].
    + by rewrite Z.eqb_refl, andb_false_r.
Qed.

Lemma negotiated_with c d :
  negotiated_afs (session_with c d) =
    Ret (remove_dups (filter (λ rf, rf ∈ List.filter (c_cap_mbgp d) mbgp_families) (List.filter (c_cap_mbgp c) mbgp_families))).
Proof.
  unfold negotiated_afs, session_with. cbn [sent_open_msg recv_open_msg]. rewrite !mbgp_caps. cbn [mbind outcome_bind].
  rewrite !cap_families_mbgp. cbn [mbind outcome_bind].
  set (l := List.filter (c_cap_mbgp c) mbgp_families). set (k := List.filter (c_cap_mbgp d) mbgp_families).
  destruct (nonempty (CapMultiprotocol <$> l) && nonempty (CapMultiprotocol <$> k)) eqn:E.
  - apply get_rfs_known. intros rf. rewrite elem_of_remove_dups, list_elem_of_filter. intros [_ Hrf].
    apply list_elem_of_In, filter_In in Hrf as [Hrf _]. apply list_elem_of_In in Hrf.
    revert rf Hrf. change (mbgp_families ⊆ rf_map). apply (bool_decide_unpack _). vm_compute. exact I.
  - f_equal. destruct l as [|x l]; [done|]. destruct k as [|y k]; [|done]. clear E. induction (x :: l) as [|z m IH]; [done|].
    rewrite filter_cons_False by set_solver. apply IH.
Qed.

(** C30: Two speakers that run this code and open a session agree on it: each accepts the message of
    the other exactly when it is configured with the other's AS number and that number can be
    told (it has two octets, is not AS_TRANS, or the capability for four octets is sent), and
    then both find the same families, the same use of four octets and the same use of enhanced
    route refresh, namely what both are configured with. *)
Theorem open_negotiates c d :
  let s := session_with c d in
  let s' := session_with d c in
  (∀ b, _validate_open_msg c (create_open_msg d) = Ret b ↔
     c_remote_as c = c_local_as d ∧ b = c_cap_four_octet_as_number d ∧
     (c_cap_four_octet_as_number d = true ∨ 0 ≤ c_local_as d ≤ 65535 ∧ c_local_as d ≠ AS_TRANS)) ∧
  (∀ rf, protocol_mbgp_cap_valid s rf = Ret (known_family c rf && known_family d rf) ∧
         protocol_mbgp_cap_valid s' rf = protocol_mbgp_cap_valid s rf) ∧
  (is_enhanced_rr_cap_valid s = Ret (c_cap_enhanced_refresh c && c_cap_enhanced_refresh d) ∧
   is_enhanced_rr_cap_valid s' = is_enhanced_rr_cap_valid s) ∧
  four_octet_valid c s = four_octet_valid d s' ∧
  ∃ afs afs', negotiated_afs s = Ret afs ∧ negotiated_afs s' = Ret afs' ∧
    ∀ rf, (rf ∈ afs ↔ known_family c rf && known_family d rf = true) ∧ (rf ∈ afs ↔ rf ∈ afs').
Proof.
  cbv zeta. split_and!.
  - intros b. rewrite validate_created. unfold is_valid_old_asn.
    case_bool_decide as H; cbn [andb]; [|split; [done|tauto]].
    destruct (c_cap_four_octet_as_number d); cbn [orb]; [split; [intros [= <-]; tauto|by intros (_ & -> & _)]|].
    destruct (_ && negb _) eqn:E.
    + split; [intros [= <-]|by intros (_ & -> & _)]. split_and!; [done..|right]. rewrite !andb_true_iff, negb_true_iff in E. lia.
    + split; [done|]. intros (_ & _ & [?|[H1 H2]]); [done|]. rewrite !andb_false_iff, negb_false_iff in E. lia.
  - intros rf. rewrite !mbgp_valid_with. split; [done|]. by rewrite andb_comm.
  - unfold is_enhanced_rr_cap_valid, session_with. cbn [sent_open_msg recv_open_msg]. rewrite !enhanced_caps.
    by destruct (c_cap_enhanced_refresh c), (c_cap_enhanced_refresh d).
  - unfold is_enhanced_rr_cap_valid, session_with. cbn [sent_open_msg recv_open_msg]. rewrite !enhanced_caps.
    by destruct (c_cap_enhanced_refresh c), (c_cap_enhanced_refresh d).
  - unfold four_octet_valid, session_with. cbn. apply andb_comm.
  - eexists _, _. split_and!; [apply negotiated_with..|]. intros rf.
    assert (∀ e, rf ∈ List.filter (c_cap_mbgp e) mbgp_families ↔ known_family e rf = true) as He.
    { intros e. unfold known_family. rewrite list_elem_of_In, filter_In, <- list_elem_of_In, andb_true_iff, bool_decide_eq_true. tauto. }
    rewrite !elem_of_remove_dups, !list_elem_of_filter, !He, andb_true_iff. tauto.
Qed.

(** ** Faults *)

(** An optional parameter that is no capability has no [cap_code]: every question about
    capabilities raises. *)
Example unknown_parameter_raises :
  protocol_mbgp_cap_valid (Session (OpenMsg 4 65001 90 "1.1.1.1" []) (OpenMsg 4 65002 90 "2.2.2.2" [OptParamUnknown 1]) false) RF_IPv4_UC
    = Ret false ∧
  is_route_family_adv_recv (Session (OpenMsg 4 65001 90 "1.1.1.1" []) (OpenMsg 4 65002 90 "2.2.2.2" [OptParamUnknown 1]) false) RF_IPv4_UC
    = Raise AttributeError.
Proof. by split; vm_compute. Qed.
