(* ===== verification/BgpPeer.v ===== *)
(** * The routes of a BGP peer

    Models the part of [ryu/services/protocols/bgp/peer.py] that handles routes: the filters of
    [info_base/base.py], the handling of UPDATE and ROUTE-REFRESH messages, Adj-RIB-In and
    Adj-RIB-Out, which paths a neighbor is told ([communicate_path]), the queue towards it and
    the messages made of paths ([_construct_update]), with [PeerManager.resend_sent] of
    [core_managers/peer_manager.py] and the helpers of [utils/bgp.py].

    A path is a record of the fields of the Python object; the attributes are a dictionary by
    type.  The lists of extended communities are in a store, since [_construct_update] appends
    to the list of the path it sends.  What the peer asks of the managers is an argument
    ([world]): the tables' best paths and sent routes, route target filters.  Calls that leave
    the peer are outputs; a message that is sent carries the communities it had then.  The
    text of prefixes is compared by the package netaddr, a parameter. *)

From stdpp Require Import base list gmap strings sets.
From Stdlib Require Import ZArith Lia.
From S2P Require Import Prelude Odict BgpDecision BgpTable BgpAttr BgpOpen.

Open Scope Z_scope.
Set Default Proof Using "Type".

(** ** Paths *)

Inductive ext_community :=
| RouteTarget (text : string)
| SiteOfOrigin (text : string)
| OtherCommunity (text : string).

Record rpath := RPath {
  rp_source : source;
  rp_nlri : nlri;
  rp_version : Z;
  rp_attrs : odict Z attr;
  rp_nexthop : option string;
  rp_withdraw : bool;
  med_set_by_target_neighbor : bool
}.

Definition rp_rf (p : rpath) : Z := nlri_rf (rp_nlri p).
Definition nlri_key (p : rpath) : string := nlri_prefix (rp_nlri p).
Definition get_pattr (type : Z) (p : rpath) : option attr := od_get type (rp_attrs p).

(** [clone(for_withdrawal=True)] *)
Definition withdrawal_of (p : rpath) : rpath :=
  RPath (rp_source p) (rp_nlri p) (rp_version p) [] (rp_nexthop p) true false.

Definition is_local (p : rpath) : bool := match rp_source p with SrcNC => true | _ => false end.

Definition has_nexthop (p : rpath) : bool :=
  match rp_nexthop p with Some h => negb (bool_decide (h ∈ ["";"0.0.0.0"; "::"])) | None => false end.

(** Flow specifications have no next hop; their classes pass a dummy to [Path.__init__]. *)
Definition is_flowspec (rf : Z) : bool := bool_decide (rf_safi rf ∈ [133; 134]).

Definition path_families : list Z :=
  [RF_IPv4_UC; RF_IPv6_UC; RF_IPv4_VPN; RF_IPv6_VPN; RF_L2_EVPN; RF_IPv4_FLOWSPEC; RF_IPv6_FLOWSPEC;
   RF_VPNv4_FLOWSPEC; RF_VPNv6_FLOWSPEC; RF_L2VPN_FLOWSPEC; RF_RTC_UC].

(** [create_path] of [utils/bgp.py] with [Path.__init__]. *)
Definition make_path (src : source) (n : nlri) (ver : Z) (pattrs : odict Z attr) (nexthop : option string)
    (is_withdraw med_set : bool) : outcome pyexn rpath :=
  if negb (bool_decide (nlri_rf n ∈ path_families)) then Raise AssertionError
  else
    let nexthop' := if is_flowspec (nlri_rf n) then Some "0.0.0.0" else nexthop in
    if negb is_withdraw && negb (nonempty pattrs && match nexthop' with Some h => negb (String.eqb h "") | None => false end)
    then Raise ValueError
    else Ret (RPath src n ver pattrs (if is_flowspec (nlri_rf n) then None else nexthop) is_withdraw med_set).

(** [clone_path_and_update_med_for_target_neighbor] *)
Definition truthy (o : option Z) : bool := match o with Some z => negb (z =? 0) | None => false end.

Definition clone_path_and_update_med (p : rpath) (med : option Z) : outcome pyexn rpath :=
  match med with
  | Some m =>
      if m =? 0 then Raise AssertionError
      else if negb (bool_decide (rp_rf p ∈ path_families)) then Raise ValueError
      else make_path (rp_source p) (rp_nlri p) (rp_version p)
             (od_set BGP_ATTR_TYPE_MULTI_EXIT_DISC (MultiExitDisc m) (rp_attrs p)) (rp_nexthop p) (rp_withdraw p) true
  | None => Raise AssertionError
  end.

(** ** Filters *)

Inductive pfilter :=
| PrefixFilter (rf : Z) (prefix : string) (policy : Z) (ge le : option Z)
| ASPathFilter (as_number : Z) (policy : Z).

Definition POLICY_DENY : Z := 0.
Definition POLICY_PERMIT : Z := 1.
Definition POLICY_TOP : Z := 2.
Definition POLICY_END : Z := 3.
Definition POLICY_INCLUDE : Z := 4.
Definition POLICY_NOT_INCLUDE : Z := 5.

(** [ROUTE_FAMILY] of the classes. *)
Definition filter_rf (f : pfilter) : Z :=
  match f with PrefixFilter rf _ _ _ _ => rf | ASPathFilter _ _ => RF_IPv4_UC end.

(** [ASPathFilter.evaluate] *)
Definition as_path_matches (as_number policy : Z) (segs : list as_segment) : outcome pyexn bool :=
  let path_seg := match segs with seg :: _ => seg | [] => AsSequence [] end in
  let numbers := seg_numbers path_seg in
  let subscript o :=
    match path_seg, o with
    | _, None => Ret false
    | AsSet _, Some _ => Raise TypeError
    | AsSequence _, Some n => Ret (n =? as_number)
    end in
  if policy =? POLICY_TOP then subscript (head numbers)
  else if policy =? POLICY_INCLUDE then Ret (bool_decide (as_number ∈ numbers))
  else if policy =? POLICY_END then subscript (last numbers)
  else if policy =? POLICY_NOT_INCLUDE then Ret (negb (bool_decide (as_number ∈ numbers)))
  else Ret false.

(** The comparison of [PrefixFilter.evaluate] with [ge] and [le], 0 being no bound that is set. *)
Definition length_matches (ge le : option Z) (length : Z) : bool :=
  match ge, le with
  | None, None => true
  | None, Some l => truthy le && (length <=? l)
  | Some g, None => truthy ge && (g <=? length)
  | Some g, Some l => truthy ge && truthy le && ((g <=? length) && (length <=? l))
  end.

(** ** Configuration *)

Record attribute_map := AttributeMap {
  am_filters : list pfilter;
  am_local_pref : Z
}.

Record peer_conf := PeerConf {
  pc_open : open_conf;
  pc_id : Z;
  pc_common_local_as : Z;
  pc_asn : Z;
  pc_med : option Z;
  pc_route_server_client : bool;
  pc_route_reflector_client : bool;
  pc_check_first_as : bool;
  pc_next_hop_self : bool;
  pc_next_hop : option string;
  pc_soo_list : list ext_community;
  pc_cluster_id : string;
  pc_local_pref : Z;
  pc_allow_local_as_in_count : Z;
  pc_stalepath_time : Z;
  pc_max_eor_time : Z
}.

Definition pc_remote_as (c : peer_conf) : Z := c_remote_as (pc_open c).
Definition pc_local_as (c : peer_conf) : Z := c_local_as (pc_open c).
Definition is_ebgp_peer (c : peer_conf) : bool := negb (pc_common_local_as c =? pc_remote_as c).

(** ** State and outputs *)

Inductive fsm := IDLE | CONNECT | ACTIVE | OPEN_SENT | OPEN_CONFIRM | ESTABLISHED.
#[export] Instance fsm_eq_dec : EqDecision fsm.
Proof. solve_decision. Defined.

Record update := Update {
  u_attrs : list attr;
  u_nlri : list nlri;
  u_withdrawn : list nlri
}.

(** Messages that wait to be sent: routes, route refreshes (with an identity, since the message
    remembers whether its end was sent), and plain updates. *)
Inductive out_msg :=
| OutRoute (p : rpath) (for_route_refresh : bool)
| OutRouteRefresh (msg_id rf demarcation : Z)
| OutUpdate (u : update).

Record peer_st := PeerSt {
  bgp_state : fsm;
  protocol : option (Z * session);
  host_bind_ip : option string;
  connect_retry : bool;
  version_num : Z;
  recv_prefixes : Z;
  recv_updates : Z;
  sent_updates : Z;
  recv_refresh : Z;
  sent_refresh : Z;
  established_transitions : Z;
  in_filters : list pfilter;
  out_filters : list pfilter;
  adj_rib_in : odict string (rpath * bool);
  adj_rib_out : odict string (rpath * bool);
  attribute_maps : odict string (list attribute_map);
  outgoing : list out_msg;
  eor_sent : list Z;
  next_msg : Z;
  init_rtc_nlri_path : option (list rpath);
  rtc_eor_timer : bool;
  sent_init_non_rtc_update : bool;
  ext_heap : gmap Z (list ext_community)
}.

#[export] Instance eta_peer_st : Eta peer_st := EtaBox (λ s,
  PeerSt (bgp_state s) (protocol s) (host_bind_ip s) (connect_retry s) (version_num s) (recv_prefixes s) (recv_updates s)
    (sent_updates s) (recv_refresh s) (sent_refresh s) (established_transitions s) (in_filters s) (out_filters s)
    (adj_rib_in s) (adj_rib_out s) (attribute_maps s) (outgoing s) (eor_sent s) (next_msg s) (init_rtc_nlri_path s)
    (rtc_eor_timer s) (sent_init_non_rtc_update s) (ext_heap s)).

(** A new [Peer] whose filters are those of its configuration. *)
Definition new_peer (in_filter out_filter : list pfilter) : peer_st :=
  PeerSt IDLE None None false 1 0 0 0 0 0 0 in_filter out_filter [] [] [] [] [] 0 (Some []) false false ∅.

Inductive peer_out :=
| LearnPath (p : rpath)                                   (* table_manager.learn_path *)
| AdjRibInChanged (p : rpath) (filtered : bool)
| AdjRibOutChanged (p : rpath) (filtered : bool)
| SendUpdate (u : update) (communities : list ext_community)
| SendRouteRefresh (rf demarcation : Z)
| RememberSentRoute (p : rpath) (filtered : bool)         (* table_manager.remember_sent_route *)
| SetSentRoutePath (p p' : rpath)                         (* sent_route.path = p' *)
| CleanStaleRoutes (rf : option Z)                        (* table_manager.clean_stale_routes *)
| SpawnStalePathTimer (rf seconds : Z)
| SpawnEorTimer (msg_id rf seconds : Z)
| StartRtcEorTimer
| StopRtcEorTimer
| AdjUp
| AdjDown
| StateChanged (s : fsm)
| StopProtocol (pid : Z)
| SendNotification (pid code subcode : Z)
| PeerDown.                                               (* peer_manager.on_peer_down *)

(** What the peer reads of the rest of the speaker: its route target filter, the route targets of
    interest, the best paths of the tables, and the sent routes of the destinations of a table
    with the peers they were sent to. *)
Record world := World {
  w_rtfilter : option (list string);
  w_interested_rts : list string;
  w_best : list (Z * list (option rpath));
  w_best_rtc : list (option rpath);
  w_sent : Z → list (list (Z * rpath));
  w_rtc_as : Z;
  w_rt_origin_as : nlri → Z
}.

Abbreviation PM := (M peer_st pyexn peer_out).

Definition BgpExc (name : string) : pyexn := RyuException name.
Definition FiniteStateMachineError : pyexn := BgpExc "FiniteStateMachineError".
Definition MalformedAsPath : pyexn := BgpExc "MalformedAsPath".
Definition MissingWellKnown (type : Z) : pyexn :=
  BgpExc (if type =? BGP_ATTR_TYPE_AS_PATH then "MissingWellKnown AS_PATH"
          else if type =? BGP_ATTR_TYPE_ORIGIN then "MissingWellKnown ORIGIN" else "MissingWellKnown NEXT_HOP").

Section peer.
Context (c : peer_conf).

(** [net in network] of the package netaddr, the text of an IPv4-mapped address, and what the
    other peers, known by their identity, are configured with. *)
Context (in_network : string → string → bool) (ipv4_mapped_ipv6 : string → string)
        (peer_ip_address : Z → string) (peer_rr_client : Z → bool).

(** ** Filters *)

(** [evaluate]: the policy of a filter and whether it matches. *)
Definition evaluate (f : pfilter) (p : rpath) : outcome pyexn (Z * bool) :=
  match f with
  | PrefixFilter _ prefix policy ge le =>
      Ret (policy, in_network (nlri_prefix (rp_nlri p)) prefix && length_matches ge le (nlri_length (rp_nlri p)))
  | ASPathFilter as_number policy =>
      match get_pattr BGP_ATTR_TYPE_AS_PATH p with
      | Some (AsPath segs) =>
          matched ← as_path_matches as_number policy segs;
          Ret (policy, matched)
      | _ => Raise AttributeError
      end
  end.

(** [_apply_filter]: whether a path is blocked. *)
Fixpoint _apply_filter (filters : list pfilter) (p : rpath) : outcome pyexn bool :=
  match filters with
  | [] => Ret false
  | f :: filters =>
      if negb (filter_rf f =? rp_rf p) then _apply_filter filters p
      else
        '((policy, is_matched) : Z * bool) ← evaluate f p;
        if (policy =? POLICY_PERMIT) && is_matched then Ret false
        else if (policy =? POLICY_DENY) && is_matched then Ret true
        else _apply_filter filters p
  end.

(** [AttributeMap.evaluate]: the result of the last filter that is asked. *)
Fixpoint map_matches (filters : list pfilter) (result : bool) (p : rpath) : outcome pyexn bool :=
  match filters with
  | [] => Ret result
  | f :: filters =>
      '((_, matched) : Z * bool) ← evaluate f p;
      if matched then map_matches filters true p else Ret false
  end.

(** [_lookup_attribute_map] for the local preference. *)
Fixpoint _lookup_attribute_map (maps : list attribute_map) (p : rpath) : outcome pyexn (option attr) :=
  match maps with
  | [] => Ret None
  | m :: maps =>
      result ← map_matches (am_filters m) false p;
      if result : bool then Ret (Some (LocalPref (am_local_pref m))) else _lookup_attribute_map maps p
  end.

(** ** The session *)

(** [self._protocol.m()] *)
Definition ask {A} (m : session → outcome pyexn A) : PM A :=
  proto ← gets protocol;
  '((_, s) : Z * session) ← or_raise proto AttributeError;
  lift (m s).

(** The test [if not self.in_established] of this method never fires: a method is true. *)
Definition is_mpbgp_cap_valid (rf : Z) : PM bool := ask (λ s, protocol_mbgp_cap_valid s rf).
Definition is_four_octet_as_number_cap_valid : PM bool := ask (λ s, Ret (four_octet_valid (pc_open c) s)).

Definition in_established (s : peer_st) : bool := bool_decide (bgp_state s = ESTABLISHED).

Definition is_mbgp_cap_valid (rf : Z) : PM bool :=
  s ← get_st;
  if negb (in_established s) then mret false else is_mpbgp_cap_valid rf.

(** The setter [PeerState.bgp_state]. *)
Definition set_bgp_state (new_state : fsm) : PM () :=
  old_state ← gets bgp_state;
  if bool_decide (old_state = new_state) then mret tt else
  modify (λ s, s <| bgp_state := new_state |>);;
  emit (StateChanged new_state);;
  if bool_decide (new_state = ESTABLISHED) then
    modify (λ s, s <| established_transitions ::= Z.add 1 |>);;
    emit AdjUp
  else when (bool_decide (old_state = ESTABLISHED)) (emit AdjDown).

(** ** The queue *)

Definition enque_outgoing_msg (m : out_msg) : PM () := modify (λ s, s <| outgoing ::= λ l, l ++ [m] |>).
Definition enque_first_outgoing_msg (m : out_msg) : PM () := modify (λ s, s <| outgoing ::= cons m |>).

(** ** Extended communities *)

Definition rt_list (l : list ext_community) : list string :=
  omap (λ x, match x with RouteTarget t => Some t | _ => None end) l.

Definition communities_of (heap : gmap Z (list ext_community)) (o : option attr) : list ext_community :=
  match o with Some (ExtendedCommunities l) => default [] (heap !! l) | _ => [] end.

Definition path_rts (heap : gmap Z (list ext_community)) (p : rpath) : list string :=
  rt_list (communities_of heap (get_pattr BGP_ATTR_TYPE_EXTENDED_COMMUNITIES p)).

(** [has_rts_in] *)
Definition path_has_rts_in (heap : gmap Z (list ext_community)) (p : rpath) (interested_rts : list string) : bool :=
  existsb (λ rt, bool_decide (rt ∈ interested_rts)) (path_rts heap p ++ [DEFAULT_RT]).

(** ** Messages made of paths *)

Definition _session_next_hop (s : peer_st) (p : rpath) : option string :=
  let next_hop :=
    match pc_next_hop c with
    | Some h => if String.eqb h "" then host_bind_ip s else Some h
    | None => host_bind_ip s
    end in
  if rp_rf p =? RF_IPv6_VPN then fmap (M:=option) ipv4_mapped_ipv6 next_hop else next_hop.

Definition update_next_hop (s : peer_st) (p : rpath) : option string :=
  if is_flowspec (rp_rf p) then None
  else if is_ebgp_peer c then
    if is_local p && has_nexthop p then rp_nexthop p else _session_next_hop s p
  else if pc_next_hop_self c || (is_local p && negb (has_nexthop p)) then _session_next_hop s p
  else rp_nexthop p.

(** [get_unknown_opttrans_attr]: unknown attributes whose flags have optional or transitive. *)
Definition unknown_opttrans (a : attr) : bool :=
  match a with
  | Unknown _ flags => negb (Z.land flags 0xc0 =? 0)
  | As4Path _ | As4Aggregator _ _ => true
  | _ => false
  end.

Definition opt_list {A} (o : option A) : list A := match o with Some a => [a] | None => [] end.

(** The attributes AGGREGATOR and AS4_AGGREGATOR. *)
Definition trans_aggregator (four_octet : bool) (o : option attr) : list attr :=
  match o with
  | Some (Aggregator asn addr) =>
      if negb four_octet && negb (is_valid_old_asn asn) then [Aggregator AS_TRANS addr; As4Aggregator asn addr]
      else [Aggregator asn addr]
  | _ => opt_list o
  end.

(** MULTI_EXIT_DISC and LOCAL_PREF. *)
Definition med_attrs (p : rpath) : list attr :=
  if is_ebgp_peer c then
    if truthy (pc_med c) then (λ m, MultiExitDisc m) <$> opt_list (pc_med c) else []
  else opt_list (get_pattr BGP_ATTR_TYPE_MULTI_EXIT_DISC p).

Definition attribute_map_key (p : rpath) : string :=
  if rp_rf p =? RF_IPv4_VPN then nlri_rd (rp_nlri p) +:+ ":ipv4"
  else if rp_rf p =? RF_IPv6_VPN then nlri_rd (rp_nlri p) +:+ ":ipv6"
  else "default".

Definition local_pref_attrs (p : rpath) : PM (list attr) :=
  if is_ebgp_peer c then mret [] else
  maps ← gets attribute_maps;
  result ← lift (_lookup_attribute_map (default [] (od_get (attribute_map_key p) maps)) p);
  mret [default (LocalPref (pc_local_pref c)) result].

(** EXTENDED_COMMUNITIES: the list of the path, to which the sites of origin are appended, goes
    into a new attribute; PMSI_TUNNEL goes with it. *)
Definition ext_community_attrs (p : rpath) : PM (list attr) :=
  match get_pattr BGP_ATTR_TYPE_EXTENDED_COMMUNITIES p with
  | Some (ExtendedCommunities l) =>
      modify (λ s, s <| ext_heap ::= alter (λ x, x ++ pc_soo_list c) l |>);;
      mret (ExtendedCommunities l :: opt_list (get_pattr BGP_ATTR_TYEP_PMSI_TUNNEL_ATTRIBUTE p))
  | _ => mret []
  end.

(** The attributes towards an ordinary neighbor. *)
Definition construct_attrs (p : rpath) : PM (list attr) :=
  s ← get_st;
  let next_hop := update_next_hop s p in
  origin ← or_raise (get_pattr BGP_ATTR_TYPE_ORIGIN p) AssertionError;
  path_aspath ← or_raise (get_pattr BGP_ATTR_TYPE_AS_PATH p) AssertionError;
  segs ← or_raise (match path_aspath with AsPath segs => Some segs | _ => None end) AttributeError;
  let as_path_list := if is_ebgp_peer c then prepend_as (pc_local_as c) segs else segs in
  four_octet ← is_four_octet_as_number_cap_valid;
  let '(as_path, as4_path) := _trans_as_path four_octet as_path_list in
  local_pref ← local_pref_attrs p;
  ext ← ext_community_attrs p;
  mret ((if rp_rf p =? RF_IPv4_UC then NextHop next_hop else MpReachNLRI (rp_rf p) next_hop [rp_nlri p]) ::
        origin :: AsPath as_path ::
        match as4_path with Some (x :: l) => [As4Path (x :: l)] | _ => [] end ++
        trans_aggregator four_octet (get_pattr BGP_ATTR_TYPE_AGGREGATOR p) ++
        med_attrs p ++ local_pref ++ opt_list (get_pattr BGP_ATTR_TYPE_COMMUNITIES p) ++ ext ++
        List.filter unknown_opttrans (od_values (rp_attrs p))).

(** The attributes towards a client of the route reflector. *)
Definition reflector_attrs (p : rpath) : list attr :=
  let originator_id :=
    match rp_source p with SrcNC => c_router_id (pc_open c) | SrcPeer q => peer_ip_address (peer_id q) | SrcTable name => name end in
  (if od_mem BGP_ATTR_TYPE_ORIGINATOR_ID (rp_attrs p) then [] else [OriginatorId originator_id]) ++
  (if od_mem BGP_ATTR_TYPE_CLUSTER_LIST (rp_attrs p) then [] else [ClusterList [pc_cluster_id c]]) ++
  map (λ a,
    match a with
    | ClusterList l => ClusterList (if bool_decide (pc_cluster_id c ∈ l) then l else l ++ [pc_cluster_id c])
    | _ => a
    end) (od_values (rp_attrs p)).

Definition _construct_update (p : rpath) : PM update :=
  if rp_withdraw p then
    mret (if rp_rf p =? RF_IPv4_UC then Update [] [] [rp_nlri p] else Update [MpUnreachNLRI (rp_rf p) [rp_nlri p]] [] [])
  else
    new_pathattr ←
      (if pc_route_server_client c then mret (od_values (rp_attrs p))
       else if pc_route_reflector_client c then mret (reflector_attrs p)
       else construct_attrs p);
    mret (Update new_pathattr (if rp_rf p =? RF_IPv4_UC then [rp_nlri p] else []) []).

(** ** Sending *)

Definition send_update (u : update) : PM () :=
  s ← get_st;
  or_raise (protocol s) AttributeError;;
  emit (SendUpdate u (communities_of (ext_heap s) (get_attr BGP_ATTR_TYPE_EXTENDED_COMMUNITIES (u_attrs u))));;
  modify (λ s, s <| sent_updates ::= Z.add 1 |>).

Definition _send_outgoing_route (p : rpath) (for_route_refresh : bool) : PM () :=
  filters ← gets out_filters;
  block ← lift (_apply_filter filters p);
  modify (λ s, s <| adj_rib_out ::= od_set (nlri_key p) (p, block) |>);;
  emit (AdjRibOutChanged p block);;
  when (negb block) (u ← _construct_update p; send_update u);;
  when (negb (rp_withdraw p) && negb for_route_refresh) (emit (RememberSentRoute p block)).

Definition _send_outgoing_route_refresh_msg (msg_id rf demarcation : Z) : PM () :=
  proto ← gets protocol;
  or_raise proto AttributeError;;
  emit (SendRouteRefresh rf demarcation);;
  if demarcation =? 0 then modify (λ s, s <| sent_refresh ::= Z.add 1 |>)
  else when ((demarcation =? 1) && negb (pc_max_eor_time c =? 0)) (emit (SpawnEorTimer msg_id rf (pc_max_eor_time c))).

(** One turn of the loop [_process_outgoing_msg_list]; with nothing to send it waits. *)
Definition process_outgoing_msg : PM () :=
  s ← get_st;
  match protocol s, outgoing s with
  | Some _, m :: rest =>
      modify (λ s, s <| outgoing := rest |>);;
      match m with
      | OutRouteRefresh msg_id rf demarcation => _send_outgoing_route_refresh_msg msg_id rf demarcation
      | OutRoute p for_route_refresh => _send_outgoing_route p for_route_refresh
      | OutUpdate u => send_update u
      end
  | _, _ => mret tt
  end.

(** ** Which paths a neighbor is told *)

Definition NO_EXPORT : Z := 0xFFFFFF01.
Definition NO_ADVERTISE : Z := 0xFFFFFF02.
Definition NO_EXPORT_SUBCONFED : Z := 0xFFFFFF03.

Definition has_comm_attr (comm : option attr) (x : Z) : bool :=
  match comm with Some (Communities l) => bool_decide (x ∈ l) | _ => false end.

(** [path.source.remote_as] *)
Definition source_remote_as (src : source) : outcome pyexn Z :=
  match src with SrcPeer q => Ret (remote_as q) | _ => Raise AttributeError end.

(** [self != path.source or self.remote_as != path.source.remote_as] *)
Definition other_source (src : source) : bool :=
  match src with
  | SrcPeer q => negb (peer_id q =? pc_id c) || negb (pc_remote_as c =? remote_as q)
  | _ => true
  end.

(** Whether a path of an internal peer would go to another internal peer. *)
Definition ibgp_to_ibgp (src : source) : outcome pyexn bool :=
  if negb (pc_remote_as c =? pc_asn c) then Ret false
  else
    source_as ← source_remote_as src;
    Ret ((pc_remote_as c =? source_as) &&
         match src with SrcPeer q => negb (peer_rr_client (peer_id q)) | _ => false end &&
         negb (pc_route_reflector_client c)).

Definition communities_forbid (p : rpath) : bool :=
  let comm := get_pattr BGP_ATTR_TYPE_COMMUNITIES p in
  has_comm_attr comm NO_ADVERTISE ||
  (has_comm_attr comm NO_EXPORT_SUBCONFED || has_comm_attr comm NO_EXPORT) && negb (pc_remote_as c =? pc_asn c).

(** The test of the route target filter. *)
Definition rts_excluded (w : world) (p : rpath) : PM bool :=
  if rp_rf p =? RF_RTC_UC then mret false else
  rtc ← is_mpbgp_cap_valid RF_RTC_UC;
  s ← get_st;
  mret ((rtc : bool) &&
        match w_rtfilter w with
        | Some (rt :: rts) => negb (path_has_rts_in (ext_heap s) p (rt :: rts))
        | _ => false
        end).

(** The test for a loop on the side of the sender. *)
Definition leftmost_is_peer (p : rpath) : outcome pyexn bool :=
  match get_pattr BGP_ATTR_TYPE_AS_PATH p with
  | Some (AsPath segs) => has_matching_leftmost segs (pc_remote_as c)
  | _ => Ret false
  end.

Definition with_med (p : rpath) : outcome pyexn rpath :=
  if truthy (pc_med c) && negb (od_mem BGP_ATTR_TYPE_MULTI_EXIT_DISC (rp_attrs p))
  then clone_path_and_update_med p (pc_med c) else Ret p.

(** [communicate_path], of a path that is not [None]. *)
Definition communicate_path (w : world) (p : rpath) : PM () :=
  s ← get_st;
  if negb (in_established s) then mret tt else
  valid ← is_mpbgp_cap_valid (rp_rf p);
  if negb (valid || bool_decide (rp_rf p ∈ [RF_IPv4_UC; RF_IPv6_UC])) then mret tt else
  excluded ← rts_excluded w p;
  if excluded : bool then mret tt else
  leftmost ← lift (leftmost_is_peer p);
  if leftmost : bool then mret tt else
  when (pc_route_server_client c) (enque_outgoing_msg (OutRoute p false));;
  p ← lift (with_med p);
  match rp_source p with
  | SrcNC => enque_outgoing_msg (OutRoute p false)
  | src =>
      if negb (other_source src) then mret tt else
      skip ← lift (ibgp_to_ibgp src);
      if skip : bool then mret tt else
      if communities_forbid p then mret tt else enque_outgoing_msg (OutRoute p false)
  end.

Definition comm_all_best_paths (w : world) : PM () :=
  for_each (w_best w) (λ '(rf, best_paths),
    if rf =? RF_RTC_UC then mret tt else
    valid ← is_mbgp_cap_valid rf;
    when valid (for_each (best_paths : list (option rpath)) (λ best, match best with Some p => communicate_path w p | None => mret tt end))).

Definition enque_end_of_rib (rf : Z) : PM () := enque_outgoing_msg (OutUpdate (Update [MpUnreachNLRI rf []] [] [])).

(** [PeerManager.comm_all_rt_nlris] *)
Definition comm_all_rt_nlris (w : world) : PM () :=
  valid ← is_mbgp_cap_valid RF_RTC_UC;
  when valid
    (for_each (w_best_rtc w) (λ best,
       match best with
       | Some p =>
           if is_local p then when (w_rt_origin_as w (rp_nlri p) =? w_rtc_as w) (communicate_path w p)
           else communicate_path w p
       | None => mret tt
       end);;
     enque_end_of_rib RF_RTC_UC).

Definition _schedule_sending_init_updates : PM () :=
  modify (λ s, s <| sent_init_non_rtc_update := false |> <| rtc_eor_timer := true |>);;
  emit StartRtcEorTimer.

(** The timer, which is stopped when it has run once. *)
Definition rtc_eor_timer_fires (w : world) : PM () :=
  comm_all_best_paths w;;
  modify (λ s, s <| sent_init_non_rtc_update := true |> <| rtc_eor_timer := false |>);;
  emit StopRtcEorTimer.

Definition _unschedule_sending_init_updates : PM () :=
  set_ ← gets rtc_eor_timer;
  when set_ (modify (λ s, s <| rtc_eor_timer := false |>);; emit StopRtcEorTimer).

Definition _enqueue_init_updates (w : world) : PM () :=
  s ← get_st;
  assert_ (in_established s) AssertionError;;
  rtc ← is_mbgp_cap_valid RF_RTC_UC;
  if rtc : bool then comm_all_rt_nlris w;; _schedule_sending_init_updates
  else comm_all_best_paths w.

(** ** Changes of the configuration *)

Definition on_update_in_filter : PM () :=
  rib ← gets adj_rib_in;
  for_each rib (λ '(key, (p, filtered)),
    filters ← gets in_filters;
    block ← lift (_apply_filter filters p);
    if eqb block filtered then mret tt else
    modify (λ s, s <| adj_rib_in ::= od_set key (p, block) |>);;
    emit (LearnPath (if block then withdrawal_of p else p))).

Definition on_update_out_filter : PM () :=
  rib ← gets adj_rib_out;
  for_each rib (λ '(key, (p, filtered)),
    filters ← gets out_filters;
    block ← lift (_apply_filter filters p);
    if eqb block filtered then mret tt else
    modify (λ s, s <| adj_rib_out ::= od_set key (p, block) |>);;
    enque_outgoing_msg (OutRoute (if block then withdrawal_of p else p) false)).

(** The setters of the filters and of the attribute maps. *)
Definition set_in_filters (filters : list pfilter) : PM () :=
  modify (λ s, s <| in_filters := filters |>);; on_update_in_filter.

Definition set_out_filters (filters : list pfilter) : PM () :=
  modify (λ s, s <| out_filters := filters |>);; on_update_out_filter.

Definition on_update_attribute_maps : PM () :=
  rib ← gets adj_rib_out;
  for_each rib (λ '(_, (p, _)), enque_outgoing_msg (OutRoute p false)).

Definition set_attribute_maps (key : string) (maps : list attribute_map) : PM () :=
  modify (λ s, s <| attribute_maps ::= od_set key maps |>);; on_update_attribute_maps.

(** ** Route refresh *)

(** [PeerManager.resend_sent], of a peer that the manager has. *)
Definition resend_sent (w : world) (rf : Z) : PM () :=
  assert_ (bool_decide (rf ∈ SUPPORTED_GLOBAL_RF)) ValueError;;
  for_each (w_sent w rf) (λ sent_routes,
    for_each sent_routes (λ '(to, p),
      if negb (to =? pc_id c) then mret tt else
      p' ← (if med_set_by_target_neighbor p || negb (od_mem BGP_ATTR_TYPE_MULTI_EXIT_DISC (rp_attrs p)) then
              p' ← lift (clone_path_and_update_med p (pc_med c));
              emit (SetSentRoutePath p p');;
              mret p'
            else mret p);
      enque_outgoing_msg (OutRoute p' true))).

(** [_enqueue_eor_msg]: the message SOR remembers that its end was sent. *)
Definition new_route_refresh (rf demarcation : Z) : PM out_msg :=
  i ← gets next_msg;
  modify (λ s, s <| next_msg := i + 1 |>);;
  mret (OutRouteRefresh i rf demarcation).

Definition _enqueue_eor_msg (msg_id rf : Z) : PM () :=
  enhanced ← ask is_enhanced_rr_cap_valid;
  sent ← gets eor_sent;
  when (enhanced && negb (bool_decide (msg_id ∈ sent)))
    (eor ← new_route_refresh rf 2;
     enque_outgoing_msg eor;;
     modify (λ s, s <| eor_sent ::= cons msg_id |>)).

Definition _fire_route_refresh (w : world) (rf : Z) : PM () :=
  enhanced ← ask is_enhanced_rr_cap_valid;
  sor ← (if enhanced : bool then m ← new_route_refresh rf 1; enque_first_outgoing_msg m;; mret (Some m) else mret None);
  resend_sent w rf;;
  match sor with
  | Some (OutRouteRefresh msg_id rf _) => _enqueue_eor_msg msg_id rf
  | _ => mret tt
  end.

Definition _handle_route_refresh_req (w : world) (rf : Z) : PM () :=
  rr_af ← lift (get_rf rf);
  modify (λ s, s <| recv_refresh ::= Z.add 1 |>);;
  adv ← ask (λ s, is_route_family_adv s rr_af);
  when adv (_fire_route_refresh w rr_af).

Definition _handle_err_sor_msg (rf : Z) : PM () :=
  enhanced ← ask is_enhanced_rr_cap_valid;
  if negb enhanced then mret tt else
  modify (λ s, s <| version_num ::= Z.add 1 |>);;
  when (negb (pc_stalepath_time c =? 0) && bool_decide (rf ∈ SUPPORTED_GLOBAL_RF))
    (emit (SpawnStalePathTimer rf (pc_stalepath_time c))).

Definition _handle_route_refresh_msg (w : world) (rf demarcation : Z) : PM () :=
  if demarcation =? 0 then _handle_route_refresh_req w rf
  else if demarcation =? 1 then _handle_err_sor_msg rf
  else when ((demarcation =? 2) && bool_decide (rf ∈ SUPPORTED_GLOBAL_RF)) (emit (CleanStaleRoutes (Some rf))).

(** [request_route_refresh] with families, or with none for all that are valid; the test of the
    state never fires. *)
Fixpoint valid_families (rfs : list Z) : PM (list Z) :=
  match rfs with
  | [] => mret []
  | rf :: rfs =>
      valid ← is_mbgp_cap_valid rf;
      rest ← valid_families rfs;
      mret (if valid : bool then rf :: rest else rest)
  end.

Definition enque_route_refresh (rf : Z) : PM () := m ← new_route_refresh rf 0; enque_outgoing_msg m.

Definition request_route_refresh (rfs : list Z) : PM () :=
  match rfs with
  | [] => rfs ← valid_families SUPPORTED_GLOBAL_RF; for_each rfs enque_route_refresh
  | _ =>
      for_each rfs (λ rf,
        if negb (bool_decide (rf ∈ SUPPORTED_GLOBAL_RF)) then mret tt else
        valid ← is_mpbgp_cap_valid rf;
        when valid (enque_route_refresh rf))
  end.

(** [on_update_med] *)
Definition on_update_med (w : world) : PM () :=
  proto ← gets protocol;
  match proto with
  | Some _ =>
      afs ← ask negotiated_afs;
      for_each afs (_fire_route_refresh w)
  | None => mret tt
  end.

(** ** Received messages *)

(** The check of the first AS, and of the mandatory attributes. *)
Definition check_as_path (attrs : list attr) : outcome pyexn () :=
  match get_attr BGP_ATTR_TYPE_AS_PATH attrs with
  | None => Raise (MissingWellKnown BGP_ATTR_TYPE_AS_PATH)
  | Some aspath =>
      if pc_check_first_as c && is_ebgp_peer c then
        matching ← match aspath with AsPath segs => has_matching_leftmost segs (pc_remote_as c) | _ => Raise AttributeError end;
        if matching : bool then Ret tt else Raise MalformedAsPath
      else Ret tt
  end.

Definition check_present (type : Z) (attrs : list attr) : outcome pyexn () :=
  match get_attr type attrs with Some _ => Ret tt | None => Raise (MissingWellKnown type) end.

(** [_validate_update_msg]; the families that were not negotiated are only logged. *)
Definition validate_bgp4 (u : update) : PM bool :=
  is_mpbgp_cap_valid RF_IPv4_UC;;
  if nonempty (u_nlri u) then
    lift (check_as_path (u_attrs u));;
    lift (check_present BGP_ATTR_TYPE_ORIGIN (u_attrs u));;
    lift (check_present BGP_ATTR_TYPE_NEXT_HOP (u_attrs u));;
    mret true
  else mret true.

Definition mp_family (rf : Z) : PM Z := lift (get_rf rf).

Definition _validate_update_msg (u : update) : PM bool :=
  s ← get_st;
  if negb (in_established s) then raise FiniteStateMachineError else
  match get_attr BGP_ATTR_TYPE_MP_REACH_NLRI (u_attrs u), get_attr BGP_ATTR_TYPE_MP_UNREACH_NLRI (u_attrs u) with
  | None, None => validate_bgp4 u
  | mp_reach, mp_unreach =>
      match mp_unreach with
      | Some (MpUnreachNLRI rf _) => rf' ← mp_family rf; is_mpbgp_cap_valid rf';; mret tt
      | _ => mret tt
      end;;
      match mp_reach with
      | Some (MpReachNLRI rf next_hop _) =>
          rf' ← mp_family rf;
          is_mpbgp_cap_valid rf';;
          lift (check_as_path (u_attrs u));;
          lift (check_present BGP_ATTR_TYPE_ORIGIN (u_attrs u));;
          mret (is_flowspec rf' ||
                match next_hop with
                | None => false
                | Some h => negb (String.eqb h "") && negb (bool_decide (host_bind_ip s = Some h))
                end)
      | _ => mret true
      end
  end.

(** [Peer] as the source of its paths. *)
Definition self_source (s : peer_st) : source :=
  SrcPeer {| peer_id := pc_id c; remote_as := pc_remote_as c;
             sent_bgp_identifier := match protocol s with Some (_, x) => bgp_identifier (sent_open_msg x) | None => "" end;
             recv_bgp_identifier := match protocol s with Some (_, x) => bgp_identifier (recv_open_msg x) | None => "" end |}.

(** One turn of the loops over new NLRIs. *)
Definition receive_nlri (msg_rf : Z) (pattrs : odict Z attr) (next_hop : option string) (n : nlri) : PM () :=
  s ← get_st;
  new_path ← lift (make_path (self_source s) n (version_num s) pattrs next_hop false false);
  block ← lift (_apply_filter (in_filters s) new_path);
  modify (λ s, s <| adj_rib_in ::= od_set (nlri_key new_path) (new_path, block) |>);;
  emit (AdjRibInChanged new_path block);;
  if block : bool then mret tt
  else if msg_rf =? RF_RTC_UC then
    init ← gets init_rtc_nlri_path;
    match init with
    | Some l => modify (λ s, s <| init_rtc_nlri_path := Some (l ++ [new_path]) |>)
    | None => emit (LearnPath new_path)
    end
  else emit (LearnPath new_path).

(** One turn of the loops over withdrawn NLRIs. *)
Definition withdraw_nlri (n : nlri) : PM () :=
  s ← get_st;
  w_path ← lift (make_path (self_source s) n (version_num s) [] None true false);
  block ← lift (_apply_filter (in_filters s) w_path);
  when (od_mem (nlri_prefix n) (adj_rib_in s))
    (modify (λ s, s <| adj_rib_in ::= od_del (nlri_prefix n) |>);; emit (AdjRibInChanged w_path block));;
  when (negb block) (emit (LearnPath w_path)).

Definition count_prefixes (nlris : list nlri) : PM () :=
  modify (λ s, s <| recv_prefixes ::= Z.add (Z.of_nat (length nlris)) |>).

Definition _extract_and_handle_bgp4_new_paths (attrs : list attr) (nlris : list nlri) : PM () :=
  next_hop ← or_raise (get_attr BGP_ATTR_TYPE_NEXT_HOP attrs) AttributeError;
  h ← or_raise (match next_hop with NextHop h => Some h | _ => None end) AttributeError;
  for_each nlris (receive_nlri RF_IPv4_UC (pathattr_map attrs) h);;
  count_prefixes nlris.

(** [_handle_eor]: the route target paths that were collected are learned; when they have been
    already, the collection is [None] and cannot be iterated over. *)
Definition _handle_eor (rf : Z) : PM () :=
  if negb (rf =? RF_RTC_UC) then mret tt else
  _unschedule_sending_init_updates;;
  init ← gets init_rtc_nlri_path;
  l ← or_raise init TypeError;
  for_each l (λ p, emit (LearnPath p));;
  modify (λ s, s <| init_rtc_nlri_path := None |>).

Definition _extract_and_handle_bgp4_withdraws (nlris : list nlri) : PM () :=
  when (negb (nonempty nlris)) (_handle_eor RF_IPv4_UC);;
  for_each nlris withdraw_nlri.

(** Whether the route targets of a VPN message are of interest. *)
Definition rts_wanted (w : world) (s : peer_st) (rf : Z) (attrs : list attr) : bool :=
  if bool_decide (rf ∈ [RF_IPv4_VPN; RF_IPv6_VPN]) then
    existsb (λ rt, bool_decide (rt ∈ w_interested_rts w))
      (rt_list (communities_of (ext_heap s) (get_attr BGP_ATTR_TYPE_EXTENDED_COMMUNITIES attrs)))
  else true.

Definition _extract_and_handle_mpbgp_new_paths (w : world) (attrs : list attr) (rf : Z) (next_hop : option string) (nlris : list nlri) : PM () :=
  msg_rf ← mp_family rf;
  s ← get_st;
  if negb (bool_decide (msg_rf ∈ SUPPORTED_GLOBAL_RF)) then mret tt
  else if negb (rts_wanted w s msg_rf attrs) then mret tt
  else
    for_each nlris (receive_nlri msg_rf (pathattr_map attrs) next_hop);;
    when (nonempty nlris) (count_prefixes nlris).

Definition _extract_and_handle_mpbgp_withdraws (rf : Z) (nlris : list nlri) : PM () :=
  msg_rf ← mp_family rf;
  if negb (bool_decide (msg_rf ∈ SUPPORTED_GLOBAL_RF)) then mret tt
  else
    when (negb (nonempty nlris)) (_handle_eor msg_rf);;
    for_each nlris withdraw_nlri.

(** The check for loops is followed by a test of its value, which is never true. *)
Definition looped (attrs : list attr) : bool :=
  match (_is_looped_path_attrs (pc_local_as c) (pc_allow_local_as_in_count c) (pc_cluster_id c) attrs).1 with
  | Some b => b
  | None => false
  end.

(** The paths and the withdrawals of a message that is taken. *)
Definition process_update (w : world) (attrs : list attr) (nlris withdrawn : list nlri) : PM () :=
  match get_attr BGP_ATTR_TYPE_MP_REACH_NLRI attrs with
  | Some (MpReachNLRI rf next_hop mp_nlris) => _extract_and_handle_mpbgp_new_paths w attrs rf next_hop mp_nlris
  | _ => mret tt
  end;;
  match get_attr BGP_ATTR_TYPE_MP_UNREACH_NLRI attrs with
  | Some (MpUnreachNLRI rf mp_nlris) => _extract_and_handle_mpbgp_withdraws rf mp_nlris
  | _ => mret tt
  end;;
  when (nonempty nlris) (_extract_and_handle_bgp4_new_paths attrs nlris);;
  when (nonempty withdrawn) (_extract_and_handle_bgp4_withdraws withdrawn).

Definition _handle_update_msg (w : world) (u : update) : PM () :=
  s ← get_st;
  assert_ (in_established s) AssertionError;;
  modify (λ s, s <| recv_updates ::= Z.add 1 |>);;
  valid ← _validate_update_msg u;
  if negb valid then mret tt else
  let attrs := _extract_and_reconstruct_as_path (u_attrs u) in
  if looped attrs then mret tt else process_update w attrs (u_nlri u) (u_withdrawn u).

(** [handle_msg], of the messages a protocol instance hands on. *)
Inductive peer_msg :=
| MsgKeepalive
| MsgUpdate (u : update)
| MsgRouteRefresh (rf demarcation : Z).

Definition handle_msg (w : world) (m : peer_msg) : PM () :=
  s ← get_st;
  match m with
  | MsgKeepalive =>
      if bool_decide (bgp_state s = OPEN_CONFIRM) then set_bgp_state ESTABLISHED;; _enqueue_init_updates w else mret tt
  | MsgUpdate u => assert_ (in_established s) AssertionError;; _handle_update_msg w u
  | MsgRouteRefresh rf demarcation => assert_ (in_established s) AssertionError;; _handle_route_refresh_msg w rf demarcation
  end.

(** What happens to a peer during a session: messages, changes of the configuration, turns of the
    thread that sends, timers, and routes that the managers and the destinations hand over. *)
Inductive peer_op :=
| OpMessage (w : world) (m : peer_msg)
| OpSetInFilters (filters : list pfilter)
| OpSetOutFilters (filters : list pfilter)
| OpSetAttributeMaps (key : string) (maps : list attribute_map)
| OpProcessOutgoing
| OpCommunicate (w : world) (p : rpath)
| OpEnqueue (p : rpath)
| OpRtcEorTimer (w : world)
| OpEorTimer (msg_id rf : Z)
| OpUpdateMed (w : world)
| OpRequestRefresh (rfs : list Z).

Definition run_peer_op (op : peer_op) : PM () :=
  match op with
  | OpMessage w m => handle_msg w m
  | OpSetInFilters filters => set_in_filters filters
  | OpSetOutFilters filters => set_out_filters filters
  | OpSetAttributeMaps key maps => set_attribute_maps key maps
  | OpProcessOutgoing => process_outgoing_msg
  | OpCommunicate w p => communicate_path w p
  | OpEnqueue p => enque_outgoing_msg (OutRoute p false)
  | OpRtcEorTimer w => rtc_eor_timer_fires w
  | OpEorTimer msg_id rf => _enqueue_eor_msg msg_id rf
  | OpUpdateMed w => on_update_med w
  | OpRequestRefresh rfs => request_route_refresh rfs
  end.

(** The outputs and the state after several of them; an exception ends only the operation. *)
Fixpoint run_peer_ops (ops : list peer_op) (s : peer_st) : list peer_out * peer_st :=
  match ops with
  | [] => ([], s)
  | op :: ops =>
      let '(o, s, _) := run_peer_op op s in
      let '(o', s) := run_peer_ops ops s in
      (o ++ o', s)
  end.
End peer.

(** ** A concrete peer *)

Module PeerWitness.
(** Whether a prefix is within a network, for the texts of the examples. *)
Definition within (net network : string) : bool := String.eqb net network || String.eqb network "0.0.0.0/0".

Definition open_of (local remote : Z) : open_conf :=
  OpenConf local remote "1.1.1.1" 90 (λ rf, bool_decide (rf ∈ [RF_IPv4_UC; RF_RTC_UC])) true true true.

Definition conf_of (local remote : Z) : peer_conf :=
  PeerConf (open_of local remote) 1 local local None false false true false None [] "1.1.1.1" 100 0 30 30.

Definition session_of (local remote : Z) (families : list Z) : session :=
  session_with (OpenConf local remote "1.1.1.1" 90 (λ rf, bool_decide (rf ∈ families)) true true true)
               (OpenConf remote local "2.2.2.2" 90 (λ rf, bool_decide (rf ∈ families)) true true true).

Definition up (s : session) : peer_st :=
  new_peer [] [] <| bgp_state := ESTABLISHED |> <| protocol := Some (7, s) |> <| host_bind_ip := Some "192.0.2.1" |>.

Definition net1 : nlri := Nlri RF_IPv4_UC "10.1.0.0/16" 16 "".
Definition net2 : nlri := Nlri RF_IPv4_UC "10.2.0.0/16" 16 "".

Definition announce (asn : Z) (ns : list nlri) : update :=
  Update [Origin 0; AsPath [AsSequence [asn; 64999]]; NextHop (Some "192.0.2.2")] ns [].

Definition world0 : world := World None [] [] [] (λ _, []) 65001 (λ _, 0).

Definition deny (n : nlri) : pfilter := PrefixFilter RF_IPv4_UC (nlri_prefix n) POLICY_DENY None None.
End PeerWitness.
