(* ===== verification/BgpAdjIn.v ===== *)
(** * What a BGP peer learns from its neighbor

    Theorems on the receiving side of [BgpPeer]: during a session the paths that the peer has
    given to the tables are those its neighbor announces and the present filters let through,
    whatever messages arrive and however the filters change; and what one UPDATE message
    does.  The examples at the end show faults: after a session paths of it can be learned
    again, and some messages end the session. *)

From stdpp Require Import base list gmap strings sets.
From Stdlib Require Import ZArith Lia.
From S2P Require Import Prelude Odict BgpDecision BgpTable BgpAttr BgpOpen BgpPeer.

Open Scope Z_scope.
Set Default Proof Using "Type*".

(** ** Filters decide by prefix *)

Section filters.
Context (in_network : string → string → bool).

Abbreviation verdict := (_apply_filter in_network).
Abbreviation eval := (evaluate in_network).

(** A filter that cannot fail on a path with an AS path; the others take an element of the first
    segment, which may be a set. *)
Definition safe_filter (f : pfilter) : Prop :=
  match f with PrefixFilter _ _ _ _ _ => True | ASPathFilter _ policy => policy ≠ POLICY_TOP ∧ policy ≠ POLICY_END end.

Definition has_as_path (p : rpath) : Prop := ∃ segs, get_pattr BGP_ATTR_TYPE_AS_PATH p = Some (AsPath segs).

(** The policies of AS path filters are neither to permit nor to deny. *)
Lemma as_path_filter_no_verdict asn policy segs b :
  as_path_matches asn policy segs = Ret b → b = true → policy ≠ POLICY_PERMIT ∧ policy ≠ POLICY_DENY.
Proof.
  unfold as_path_matches, POLICY_TOP, POLICY_END, POLICY_INCLUDE, POLICY_NOT_INCLUDE, POLICY_PERMIT, POLICY_DENY.
  intros H ->. repeat case_match; simplify_eq; lia.
Qed.

(** Two paths for the same prefix have the same verdict, if filters decide on both. *)
Lemma verdict_by_nlri filters p q b b' :
  rp_nlri p = rp_nlri q → verdict filters p = Ret b → verdict filters q = Ret b' → b = b'.
Proof.
  intros E. assert (rp_rf p = rp_rf q) as Erf by (unfold rp_rf; by rewrite E).
  induction filters as [|f filters IH]; cbn [_apply_filter]; [congruence|]. rewrite <- Erf.
  destruct (filter_rf f =? rp_rf p); cbn [negb]; [|done]. destruct f as [rf prefix policy ge le|asn policy]; cbn [evaluate].
  - rewrite <- E. cbn [mbind outcome_bind]. repeat case_match; try done; congruence.
  - destruct (get_pattr BGP_ATTR_TYPE_AS_PATH p) as [[]|]; try done.
    destruct (get_pattr BGP_ATTR_TYPE_AS_PATH q) as [[]|]; try (repeat case_match; done).
    destruct (as_path_matches asn policy value) as [m|] eqn:Em; [|done].
    destruct (as_path_matches asn policy value0) as [m'|] eqn:Em'; [|by repeat case_match].
    cbn [mbind outcome_bind]. pose proof (as_path_filter_no_verdict _ _ _ _ Em) as H.
    pose proof (as_path_filter_no_verdict _ _ _ _ Em') as H'.
    assert (∀ x, (x = true → policy ≠ POLICY_PERMIT ∧ policy ≠ POLICY_DENY) →
      (policy =? POLICY_PERMIT) && x = false ∧ (policy =? POLICY_DENY) && x = false) as Hx by (intros [] Hx; [split|by rewrite !andb_false_r]; lia).
    destruct (Hx m H) as [-> ->], (Hx m' H') as [-> ->]. done.
Qed.

Lemma verdict_total filters p : Forall safe_filter filters → has_as_path p → ∃ b, verdict filters p = Ret b.
Proof.
  intros Hs [segs Hp]. induction Hs as [|f filters Hf _ [b IH]]; [by eexists|]. cbn [_apply_filter].
  destruct (filter_rf f =? rp_rf p); cbn [negb]; [|by eexists]. destruct f as [rf prefix policy ge le|asn policy]; cbn [evaluate].
  - cbn [mbind outcome_bind]. repeat case_match; by eexists.
  - rewrite Hp. cbn in Hf. destruct Hf as [H1 H2]. unfold as_path_matches.
    rewrite (proj2 (Z.eqb_neq _ _) H1), (proj2 (Z.eqb_neq _ _) H2). repeat case_match; cbn [mbind outcome_bind]; repeat case_match; by eexists.
Qed.
End filters.

(** ** What the outputs tell *)

(** The paths the tables were told, those for route targets aside (they wait for the end of the
    initial ones), and the paths the observers of Adj-RIB-In were told, by prefix. *)
Definition told : Type := gmap string rpath * gmap string rpath.

Definition see_in (v : told) (o : peer_out) : told :=
  match o with
  | LearnPath p =>
      if rp_rf p =? RF_RTC_UC then v
      else (if rp_withdraw p then delete (nlri_key p) v.1 else <[nlri_key p := p]> v.1, v.2)
  | AdjRibInChanged p _ => (v.1, if rp_withdraw p then delete (nlri_key p) v.2 else <[nlri_key p := p]> v.2)
  | _ => v
  end.

(** What the tables should have of an entry of Adj-RIB-In. *)
Definition let_through (e : option (rpath * bool)) : option rpath :=
  match e with
  | Some (p, false) => if rp_rf p =? RF_RTC_UC then None else Some p
  | _ => None
  end.

Section session.
Context (c : peer_conf) (in_network : string → string → bool) (ipv4_mapped_ipv6 : string → string)
        (peer_ip_address : Z → string) (peer_rr_client : Z → bool).

(** The NLRIs that occur; the text of one tells it from the others. *)
Context (occurs : nlri → Prop)
        (text_tells : ∀ n n', occurs n → occurs n' → nlri_prefix n = nlri_prefix n' → n = n').

Abbreviation verdict := (_apply_filter in_network).

(** Adj-RIB-In and what was told agree, the flags of the entries in [todo] aside, which the
    filters have not been asked about yet. *)
Record agree (todo : odict string (rpath * bool)) (s : peer_st) (v : told) : Prop := {
  ag_filters : Forall safe_filter (in_filters s);
  ag_keys : od_ok (adj_rib_in s);
  ag_init : Forall (λ p, rp_rf p = RF_RTC_UC) (default [] (init_rtc_nlri_path s));
  ag_entry key p b : od_get key (adj_rib_in s) = Some (p, b) →
    key = nlri_key p ∧ occurs (rp_nlri p) ∧ rp_withdraw p = false ∧ has_as_path p ∧
    (key ∉ od_keys todo → verdict (in_filters s) p = Ret b);
  ag_todo key e : (key, e) ∈ todo → od_get key (adj_rib_in s) = Some e;
  ag_announced key : v.2 !! key = fst <$> od_get key (adj_rib_in s);
  ag_learned key : v.1 !! key = let_through (od_get key (adj_rib_in s))
}.

Abbreviation keeps m := (tracks (Ex := pyexn) see_in (agree []) m).

Lemma keeps_rib_modify (f : peer_st → peer_st) :
  (∀ s, in_filters (f s) = in_filters s ∧ adj_rib_in (f s) = adj_rib_in s ∧ init_rtc_nlri_path (f s) = init_rtc_nlri_path s) →
  keeps (modify f).
Proof using. intros Hf. apply tracks_modify. intros s v []. destruct (Hf s) as (E1 & E2 & E3). split; by rewrite ?E1, ?E2, ?E3. Qed.

Lemma keeps_lift {A} (o : outcome pyexn A) : keeps (lift o).
Proof using. by intros s v H. Qed.

Lemma keeps_rib_get_bind {B} (k : peer_st → M peer_st pyexn peer_out B) : (∀ s, keeps (k s)) → keeps (get_st ≫= k).
Proof using. intros Hk. apply tracks_get_bind. intros s v Hs. by apply Hk. Qed.
End session.

Create HintDb keep_in discriminated.
#[export] Hint Resolve tracks_ret tracks_raise tracks_gets tracks_or_raise keeps_lift : keep_in.

(** Discharges [keeps m] when [m] leaves Adj-RIB-In alone. *)
Ltac keep_in_step :=
  match goal with
  | |- tracks _ _ (get_st ≫= _) => apply keeps_rib_get_bind; intros ?
  | |- tracks _ _ (_ ≫= _) => apply tracks_bind; [|intros ?]
  | |- tracks _ _ (when _ _) => apply tracks_when
  | |- tracks _ _ (for_each _ _) => apply tracks_for_each; intros ?
  | |- tracks _ _ (modify _) => apply keeps_rib_modify; intros ?; by split_and!
  | |- tracks _ _ (emit _) => apply tracks_emit; intros ? ? ?; assumption
  | |- tracks _ _ (assert_ ?b _) => destruct b; [apply tracks_ret|apply tracks_raise]
  | |- tracks _ _ (match ?x with _ => _ end) => destruct x eqn:?
  | |- tracks _ _ _ => solve [auto with keep_in]
  end.
Ltac keep_in := repeat keep_in_step.

(** ** Operations that leave Adj-RIB-In alone *)

Section frame.
Context (c : peer_conf) (in_network : string → string → bool) (ipv4_mapped_ipv6 : string → string)
        (peer_ip_address : Z → string) (peer_rr_client : Z → bool) (occurs : nlri → Prop).

Abbreviation keeps m := (tracks (Ex := pyexn) see_in (agree in_network occurs []) m).

Lemma keeps_ask {A} (m : session → outcome pyexn A) : keeps (ask m).
Proof using. unfold ask. keep_in. Qed.
Hint Resolve keeps_ask : keep_in.

Lemma keeps_mpbgp rf : keeps (is_mpbgp_cap_valid rf).
Proof using. unfold is_mpbgp_cap_valid. keep_in. Qed.
Hint Resolve keeps_mpbgp : keep_in.

Lemma keeps_mbgp rf : keeps (is_mbgp_cap_valid rf).
Proof using. unfold is_mbgp_cap_valid. keep_in. Qed.
Hint Resolve keeps_mbgp : keep_in.

Lemma keeps_set_state new : keeps (set_bgp_state new).
Proof using. unfold set_bgp_state. keep_in. Qed.

Lemma keeps_enque m : keeps (enque_outgoing_msg m).
Proof using. unfold enque_outgoing_msg. keep_in. Qed.

Lemma keeps_enque_first m : keeps (enque_first_outgoing_msg m).
Proof using. unfold enque_first_outgoing_msg. keep_in. Qed.
Hint Resolve keeps_set_state keeps_enque keeps_enque_first : keep_in.

Lemma keeps_communicate w p : keeps (communicate_path c peer_rr_client w p).
Proof using. unfold communicate_path, rts_excluded. keep_in. Qed.
Hint Resolve keeps_communicate : keep_in.

Lemma keeps_comm_all w : keeps (comm_all_best_paths c peer_rr_client w).
Proof using. unfold comm_all_best_paths. keep_in. Qed.
Hint Resolve keeps_comm_all : keep_in.

Lemma keeps_comm_rtc w : keeps (comm_all_rt_nlris c peer_rr_client w).
Proof using. unfold comm_all_rt_nlris, enque_end_of_rib. keep_in. Qed.
Hint Resolve keeps_comm_rtc : keep_in.

Lemma keeps_init_updates w : keeps (_enqueue_init_updates c peer_rr_client w).
Proof using. unfold _enqueue_init_updates, _schedule_sending_init_updates. keep_in. Qed.

Lemma keeps_rtc_timer w : keeps (rtc_eor_timer_fires c peer_rr_client w).
Proof using. unfold rtc_eor_timer_fires. keep_in. Qed.

Lemma keeps_out_filter filters : keeps (set_out_filters in_network filters).
Proof using. unfold set_out_filters, on_update_out_filter. keep_in. Qed.

Lemma keeps_attribute_maps key maps : keeps (set_attribute_maps key maps).
Proof using. unfold set_attribute_maps, on_update_attribute_maps. keep_in. Qed.

Lemma keeps_construct p : keeps (_construct_update c in_network ipv4_mapped_ipv6 peer_ip_address p).
Proof using.
  unfold _construct_update, construct_attrs, is_four_octet_as_number_cap_valid, local_pref_attrs, ext_community_attrs. keep_in.
Qed.
Hint Resolve keeps_construct : keep_in.

Lemma keeps_send_update u : keeps (send_update u).
Proof using. unfold send_update. keep_in. Qed.
Hint Resolve keeps_send_update : keep_in.

Lemma keeps_process_outgoing : keeps (process_outgoing_msg c in_network ipv4_mapped_ipv6 peer_ip_address).
Proof using. unfold process_outgoing_msg, _send_outgoing_route, _send_outgoing_route_refresh_msg. keep_in. Qed.

Lemma keeps_new_rr rf d : keeps (new_route_refresh rf d).
Proof using. unfold new_route_refresh. keep_in. Qed.
Hint Resolve keeps_new_rr : keep_in.

Lemma keeps_eor i rf : keeps (_enqueue_eor_msg i rf).
Proof using. unfold _enqueue_eor_msg. keep_in. Qed.
Hint Resolve keeps_eor : keep_in.

Lemma keeps_fire w rf : keeps (_fire_route_refresh c w rf).
Proof using. unfold _fire_route_refresh, resend_sent. keep_in. Qed.
Hint Resolve keeps_fire : keep_in.

Lemma keeps_route_refresh w rf d : keeps (_handle_route_refresh_msg c w rf d).
Proof using. unfold _handle_route_refresh_msg, _handle_route_refresh_req, _handle_err_sor_msg. keep_in. Qed.

Lemma keeps_update_med w : keeps (on_update_med c w).
Proof using. unfold on_update_med. keep_in. Qed.

Lemma keeps_valid_families rfs : keeps (valid_families rfs).
Proof using. induction rfs; cbn [valid_families]; keep_in. Qed.
Hint Resolve keeps_valid_families : keep_in.

Lemma keeps_request_refresh rfs : keeps (request_route_refresh rfs).
Proof using. unfold request_route_refresh, enque_route_refresh. keep_in. Qed.
End frame.

#[export] Hint Resolve keeps_init_updates keeps_set_state keeps_rtc_timer keeps_out_filter keeps_attribute_maps keeps_enque
  keeps_communicate keeps_process_outgoing keeps_eor keeps_route_refresh keeps_update_med keeps_request_refresh keeps_mpbgp : keep_in.

(** ** Operations on Adj-RIB-In *)

Section rib.
Context (c : peer_conf) (in_network : string → string → bool).
Context (occurs : nlri → Prop)
        (text_tells : ∀ n n', occurs n → occurs n' → nlri_prefix n = nlri_prefix n' → n = n').

Abbreviation verdict := (_apply_filter in_network).
Abbreviation agrees := (agree in_network occurs []).
Abbreviation keeps m := (tracks (Ex := pyexn) see_in agrees m).

Lemma make_path_fields src n ver pattrs nh wd med p :
  make_path src n ver pattrs nh wd med = Ret p →
  rp_nlri p = n ∧ rp_attrs p = pattrs ∧ rp_withdraw p = wd ∧ rp_version p = ver ∧ rp_source p = src.
Proof using. unfold make_path. intros H. repeat case_match; by simplify_eq. Qed.

(** An entry for a prefix has the same NLRI, so the same verdict, as a new path for it. *)
Lemma entry_verdict s v p b q b' :
  agrees s v → occurs (rp_nlri p) → verdict (in_filters s) p = Ret b →
  od_get (nlri_key p) (adj_rib_in s) = Some (q, b') → rp_nlri q = rp_nlri p ∧ b' = b.
Proof.
  intros Ha Hp Hb Hq. destruct (ag_entry _ _ _ _ _ Ha _ _ _ Hq) as (Ek & Ho & _ & _ & Hv).
  assert (rp_nlri q = rp_nlri p) as En by (apply text_tells; [done..|]; symmetry; exact Ek).
  split; [done|]. eapply verdict_by_nlri; [exact En|apply Hv; set_solver|exact Hb].
Qed.

(** Storing a path, telling the observers, and telling the tables if it is let through. *)
Lemma agree_store s v p b :
  agrees s v → occurs (rp_nlri p) → rp_withdraw p = false → has_as_path p → verdict (in_filters s) p = Ret b →
  agrees (s <| adj_rib_in ::= od_set (nlri_key p) (p, b) |>)
    (match let_through (Some (p, b)) with Some p => <[nlri_key p := p]> v.1 | None => v.1 end, <[nlri_key p := p]> v.2).
Proof.
  intros Ha Ho Hw Hp Hv. set (s' := s <| adj_rib_in ::= _ |>).
  assert (adj_rib_in s' = od_set (nlri_key p) (p, b) (adj_rib_in s)) as Erib by done.
  split; rewrite ?Erib.
  - apply Ha.
  - apply od_ok_set, Ha.
  - apply Ha.
  - intros key q b'. change (in_filters s') with (in_filters s). rewrite od_get_set. case_decide as E.
    + intros [= <- <-]. by split_and!.
    + apply Ha.
  - intros key e. set_solver.
  - intros key. cbn [snd]. rewrite od_get_set. case_decide as E.
    + subst key. by rewrite lookup_insert_eq.
    + rewrite lookup_insert_ne by congruence. apply Ha.
  - intros key. cbn [fst]. rewrite od_get_set. case_decide as E.
    + subst key. destruct (let_through (Some (p, b))) as [p'|] eqn:El.
      * assert (p' = p) as -> by (unfold let_through in El; repeat case_match; congruence). by rewrite lookup_insert_eq.
      * rewrite (ag_learned _ _ _ _ _ Ha). destruct (od_get (nlri_key p) (adj_rib_in s)) as [[q b']|] eqn:Eq; [|done].
        destruct (entry_verdict _ _ _ _ _ _ Ha Ho Hv Eq) as [En ->]. unfold let_through, rp_rf in *. by rewrite En; repeat case_match.
    + destruct (let_through (Some (p, b))) as [p'|] eqn:El; [|apply Ha].
      assert (p' = p) as -> by (unfold let_through in El; repeat case_match; congruence).
      rewrite lookup_insert_ne by congruence. apply Ha.
Qed.

Lemma keeps_receive rf pattrs nh n :
  occurs n → (nlri_rf n = RF_RTC_UC ∨ rf ≠ RF_RTC_UC) → (∃ segs, od_get BGP_ATTR_TYPE_AS_PATH pattrs = Some (AsPath segs)) →
  keeps (receive_nlri c in_network rf pattrs nh n).
Proof.
  intros Ho Hrf Hp. unfold receive_nlri. apply tracks_get_bind. intros s v Ha. unfold final, outputs.
  destruct (make_path _ _ _ _ _ _ _) as [p|] eqn:Em; [|done]. rewrite lift_ret_bind.
  destruct (make_path_fields _ _ _ _ _ _ _ _ Em) as (En & Ea & Ew & _).
  destruct (verdict (in_filters s) p) as [b|] eqn:Ev; [|done]. rewrite lift_ret_bind.
  assert (has_as_path p) as Hp' by (unfold has_as_path, get_pattr; by rewrite Ea).
  assert (occurs (rp_nlri p)) as Ho' by congruence.
  pose proof (agree_store s v p b Ha Ho' Ew Hp' Ev) as Hs.
  unfold mbind, M_bind, modify, emit, gets, mret, M_ret. destruct b.
  - cbn. rewrite Ew. exact Hs.
  - unfold let_through in Hs. destruct (Z.eqb_spec rf RF_RTC_UC) as [E|E].
    + assert (rp_rf p = RF_RTC_UC) as Er by (unfold rp_rf; destruct Hrf; congruence). rewrite Er in Hs. cbn [Z.eqb] in Hs.
      change (RF_RTC_UC =? RF_RTC_UC) with true in Hs. cbn iota in Hs.
      set (s1 := s <| adj_rib_in ::= _ |>) in *. destruct Hs as [H1 H2 H3 H4 H5 H6 H7].
      destruct (init_rtc_nlri_path s1) as [l|] eqn:El; cbn; rewrite Ew, ?Er; cbn.
      * split; try assumption. cbn in H3 |- *. by apply Forall_app_2; [|constructor].
      * split; try assumption. change (init_rtc_nlri_path s = None) in El. cbn. by rewrite El.
    + cbn. rewrite Ew. destruct (rp_rf p =? RF_RTC_UC) eqn:Er; cbn [see_in]; [exact Hs|exact Hs].
Qed.

Lemma agree_drop s v key :
  agrees s v → agrees (s <| adj_rib_in ::= od_del key |>) (delete key v.1, delete key v.2).
Proof.
  intros Ha. set (s' := s <| adj_rib_in ::= _ |>). assert (adj_rib_in s' = od_del key (adj_rib_in s)) as Erib by done.
  split; rewrite ?Erib.
  - apply Ha.
  - apply od_ok_del, Ha.
  - apply Ha.
  - intros k p b. rewrite od_get_del. case_decide; [done|]. apply Ha.
  - intros k e. set_solver.
  - intros k. cbn [snd]. rewrite od_get_del. case_decide as E; [subst; by rewrite lookup_delete_eq|].
    rewrite lookup_delete_ne by congruence. apply Ha.
  - intros k. cbn [fst]. rewrite od_get_del. case_decide as E; [subst; by rewrite lookup_delete_eq|].
    rewrite lookup_delete_ne by congruence. apply Ha.
Qed.

(** The tables have nothing of a prefix that is blocked or that they are not told about. *)
Lemma nothing_learned s v p b :
  agrees s v → occurs (rp_nlri p) → verdict (in_filters s) p = Ret b → b = true ∨ rp_rf p = RF_RTC_UC →
  v.1 !! nlri_key p = None.
Proof.
  intros Ha Ho Hv Hb. rewrite (ag_learned _ _ _ _ _ Ha). destruct (od_get (nlri_key p) (adj_rib_in s)) as [[q b']|] eqn:Eq; [|done].
  destruct (entry_verdict _ _ _ _ _ _ Ha Ho Hv Eq) as [En ->]. unfold let_through, rp_rf in *. rewrite En.
  destruct Hb as [->| ->]; [done|]. by destruct b.
Qed.

Lemma keeps_withdraw n : occurs n → keeps (withdraw_nlri c in_network n).
Proof.
  intros Ho. unfold withdraw_nlri. apply tracks_get_bind. intros s v Ha. unfold final, outputs.
  destruct (make_path _ _ _ _ _ _ _) as [p|] eqn:Em; [|done]. rewrite lift_ret_bind.
  destruct (make_path_fields _ _ _ _ _ _ _ _ Em) as (En & _ & Ew & _). subst n.
  destruct (verdict (in_filters s) p) as [b|] eqn:Ev; [|done]. rewrite lift_ret_bind.
  fold (nlri_key p). pose proof (agree_drop s v (nlri_key p) Ha) as Hd.
  pose proof (nothing_learned s v p b Ha Ho Ev) as Hn.
  assert (od_mem (nlri_key p) (adj_rib_in s) = false → v.1 !! nlri_key p = None ∧ v.2 !! nlri_key p = None) as Habs.
  { intros Hm. rewrite (ag_learned _ _ _ _ _ Ha), (ag_announced _ _ _ _ _ Ha). unfold od_mem in Hm.
    apply bool_decide_eq_false, eq_None_not_Some in Hm. by rewrite Hm. }
  unfold when, mbind, M_bind, modify, emit, mret, M_ret.
  destruct (od_mem (nlri_key p) (adj_rib_in s)) eqn:Em', b; cbn; rewrite ?Ew; cbn.
  - rewrite <- (delete_id v.1 (nlri_key p)) by auto. exact Hd.
  - case_match eqn:Er; [|exact Hd]. rewrite <- (delete_id v.1 (nlri_key p)) by (apply Hn; right; lia). exact Hd.
  - exact Ha.
  - case_match; [exact Ha|]. destruct (Habs eq_refl) as [H1 _]. rewrite delete_id by done. by destruct v.
Qed.

Lemma keeps_eor_end rf : keeps (_handle_eor rf).
Proof using.
  unfold _handle_eor. destruct (negb (rf =? RF_RTC_UC)); [apply tracks_ret|].
  apply tracks_bind; [unfold _unschedule_sending_init_updates; keep_in|]. intros [].
  intros s v Ha. unfold final, outputs, gets, mbind, M_bind. cbn beta iota.
  destruct (init_rtc_nlri_path s) as [l|] eqn:El; [|exact Ha]. cbn [or_raise]. unfold mret, M_ret.
  assert (∀ k, Forall (λ p, rp_rf p = RF_RTC_UC) k →
    for_each k (λ p, emit (LearnPath p) : M peer_st pyexn peer_out ()) s = (LearnPath <$> k, s, Ret ()) ∧
    foldl see_in v (LearnPath <$> k) = v) as Hk.
  { intros k Hk. induction Hk as [|p k Hp _ [IH1 IH2]]; [done|]. cbn [for_each]. unfold mbind, M_bind, emit at 1. rewrite IH1.
    split; [done|]. cbn [fmap list_fmap foldl see_in]. by rewrite Hp. }
  pose proof (ag_init _ _ _ _ _ Ha) as Hi. rewrite El in Hi. destruct (Hk l Hi) as [E1 E2]. rewrite E1.
  unfold modify. cbn [fst snd app]. rewrite app_nil_r, E2.
  destruct Ha as [H1 H2 H3 H4 H5 H6 H7]. by split; try assumption; constructor.
Qed.

(** One turn of the loop over Adj-RIB-In after the filters have changed. *)
Lemma refilter_same key p b todo s v :
  agree in_network occurs ((key, (p, b)) :: todo) s v → verdict (in_filters s) p = Ret b →
  agree in_network occurs todo s v.
Proof.
  intros [H1 H2 H3 H4 H5 H6 H7] Hv. split; try assumption.
  - intros k q b' Hk. destruct (H4 k q b' Hk) as (? & ? & ? & ? & Hn). split_and!; try assumption. intros Hk'.
    destruct (decide (k = key)) as [->|Hne]; [|apply Hn; cbn; set_solver].
    rewrite (H5 key (p, b)) in Hk by set_solver. congruence.
  - intros k e Hk. apply H5. set_solver.
Qed.

Lemma refilter_flip key p b todo s v :
  key ∉ od_keys todo → agree in_network occurs ((key, (p, b)) :: todo) s v → verdict (in_filters s) p = Ret (negb b) →
  agree in_network occurs todo (s <| adj_rib_in ::= od_set key (p, negb b) |>)
    (see_in v (LearnPath (if negb b then withdrawal_of p else p))).
Proof.
  intros Hnew [H1 H2 H3 H4 H5 H6 H7] Hv. set (s' := s <| adj_rib_in ::= _ |>).
  assert (adj_rib_in s' = od_set key (p, negb b) (adj_rib_in s)) as Erib by done.
  pose proof (H5 key (p, b) ltac:(set_solver)) as Hkey. destruct (H4 key p b Hkey) as (Ek & Ho & Hw & Hp & _).
  split; rewrite ?Erib.
  - exact H1.
  - by apply od_ok_set.
  - exact H3.
  - intros k q b'. change (in_filters s') with (in_filters s). rewrite od_get_set. case_decide as E.
    + intros [= <- <-]. subst k. by split_and!.
    + intros Hk. destruct (H4 k q b' Hk) as (? & ? & ? & ? & Hn). split_and!; try assumption. intros Hk'. apply Hn. cbn. set_solver.
  - intros k e Hk. rewrite od_get_set. rewrite decide_False; [apply H5; set_solver|].
    intros ->. apply Hnew, list_elem_of_fmap. by exists (key, e).
  - intros k. rewrite od_get_set. transitivity (v.2 !! k); [cbn [see_in]; by case_match|]. rewrite H6. case_decide; [subst; by rewrite Hkey|done].
  - intros k. rewrite od_get_set.
    assert (nlri_key (if negb b then withdrawal_of p else p) = key ∧ rp_rf (if negb b then withdrawal_of p else p) = rp_rf p) as [Ek' Er] by by destruct b.
    cbn [see_in]. rewrite Ek', Er. case_decide as E.
    + subst k. destruct (rp_rf p =? RF_RTC_UC) eqn:Ertc.
      * rewrite H7, Hkey. cbn. rewrite Ertc. by destruct b.
      * cbn [let_through fst]. destruct b; cbn [negb]; [rewrite Hw|cbn [withdrawal_of rp_withdraw]]; cbn; rewrite ?Ertc.
        -- by rewrite lookup_insert_eq.
        -- by rewrite lookup_delete_eq.
    + destruct (rp_rf p =? RF_RTC_UC); [apply H7|]. cbn [fst]. destruct b; cbn [negb withdrawal_of rp_withdraw]; rewrite ?Hw;
        [rewrite lookup_insert_ne by congruence|rewrite lookup_delete_ne by congruence]; apply H7.
Qed.

Definition refilter (x : string * (rpath * bool)) : M peer_st pyexn peer_out () :=
  let '(key, (p, filtered)) := x in
  filters ← gets in_filters;
  block ← lift (verdict filters p);
  if eqb block filtered then mret tt else
  modify (λ s, s <| adj_rib_in ::= od_set key (p, block) |>);;
  emit (LearnPath (if block then withdrawal_of p else p)).

Lemma refilter_step key p b todo s v :
  key ∉ od_keys todo → agree in_network occurs ((key, (p, b)) :: todo) s v →
  ∃ o s', refilter (key, (p, b)) s = (o, s', Ret ()) ∧ agree in_network occurs todo s' (foldl see_in v o).
Proof.
  intros Hnew Ha.
  destruct (ag_entry _ _ _ _ _ Ha key p b) as (_ & _ & _ & Hp & _); [apply (ag_todo _ _ _ _ _ Ha); set_solver|].
  destruct (verdict_total in_network (in_filters s) p (ag_filters _ _ _ _ _ Ha) Hp) as [block Hv].
  unfold refilter, gets, lift, mbind, M_bind. cbn beta iota. rewrite Hv.
  destruct (eqb block b) eqn:E; cbn.
  - apply eqb_prop in E as ->. eexists _, _. split; [done|]. by eapply refilter_same.
  - assert (block = negb b) as -> by by destruct block, b. eexists _, _. split; [done|]. by apply refilter_flip.
Qed.

Lemma refilter_all todo s v :
  NoDup (od_keys todo) → agree in_network occurs todo s v →
  agrees (final (for_each todo refilter) s) (foldl see_in v (outputs (for_each todo refilter) s)).
Proof.
  revert s v. induction todo as [|[key [p b]] todo IH]; intros s v Hnd Ha; [exact Ha|].
  apply NoDup_cons in Hnd as [Hnew Hnd]. destruct (refilter_step key p b todo s v Hnew Ha) as (o & s' & E & Ha').
  specialize (IH s' _ Hnd Ha'). unfold final, outputs in *. cbn [for_each]. unfold mbind, M_bind. rewrite E.
  destruct (for_each todo refilter s') as [[o' s''] r]. cbn in *. by rewrite foldl_app.
Qed.

Lemma keeps_in_filter filters : Forall safe_filter filters → keeps (set_in_filters in_network filters).
Proof.
  intros Hf s v Ha. pose proof (ag_keys _ _ _ _ _ Ha) as Hok.
  assert (agree in_network occurs (adj_rib_in s) (s <| in_filters := filters |>) v) as Ha'.
  { destruct Ha as [H1 H2 H3 H4 H5 H6 H7]. split; try assumption.
    - intros key p b Hk. destruct (H4 key p b Hk) as (? & ? & ? & ? & _). split_and!; try assumption. intros Hn. destruct Hn.
      apply od_get_is_key. by eexists.
    - intros key e He. by apply od_elem_get. }
  pose proof (refilter_all _ _ _ Hok Ha') as Hr. unfold final, outputs in *.
  unfold set_in_filters, on_update_in_filter, modify, gets, mbind, M_bind. cbn beta iota.
  change (adj_rib_in (s <| in_filters := filters |>)) with (adj_rib_in s).
  replace (for_each (adj_rib_in s) _) with (for_each (adj_rib_in s) refilter) by done.
  by destruct (for_each (adj_rib_in s) refilter _) as [[o' s''] r].
Qed.

(** ** Messages *)

Definition mp_reach_nlris (attrs : list attr) : list (Z * nlri) :=
  match get_attr BGP_ATTR_TYPE_MP_REACH_NLRI attrs with Some (MpReachNLRI rf _ ns) => (λ n, (rf, n)) <$> ns | _ => [] end.

Definition mp_unreach_nlris (attrs : list attr) : list nlri :=
  match get_attr BGP_ATTR_TYPE_MP_UNREACH_NLRI attrs with Some (MpUnreachNLRI _ ns) => ns | _ => [] end.

(** The messages that are considered: the attributes are objects of their classes and of distinct
    types, the NLRIs of MP_REACH_NLRI are of its family, and what is announced has an AS path. *)
Record update_ok (u : update) : Prop := {
  uo_unique : types_unique (u_attrs u);
  uo_typed : Forall typed (u_attrs u);
  uo_occurs n : n ∈ u_nlri u ++ u_withdrawn u ++ mp_unreach_nlris (u_attrs u) → occurs n;
  uo_reach rf n : (rf, n) ∈ mp_reach_nlris (u_attrs u) → occurs n ∧ nlri_rf n = rf;
  uo_as_path : u_nlri u ≠ [] ∨ mp_reach_nlris (u_attrs u) ≠ [] → is_Some (get_attr BGP_ATTR_TYPE_AS_PATH (u_attrs u))
}.

Lemma keeps_lift_bind {A B} (o : outcome pyexn A) (k : A → M peer_st pyexn peer_out B) :
  (∀ a, o = Ret a → keeps (k a)) → keeps (lift o ≫= k).
Proof using.
  intros Hk s v Ha. unfold final, outputs. destruct o as [a|e]; [|done]. rewrite lift_ret_bind. by apply (Hk a).
Qed.

Lemma keeps_receive_all rf pattrs nh ns :
  (∀ n, n ∈ ns → occurs n ∧ (nlri_rf n = RF_RTC_UC ∨ rf ≠ RF_RTC_UC)) →
  (ns ≠ [] → ∃ segs, od_get BGP_ATTR_TYPE_AS_PATH pattrs = Some (AsPath segs)) →
  keeps (for_each ns (receive_nlri c in_network rf pattrs nh)).
Proof.
  intros Ho Hp. destruct ns as [|n0 ns0]; [apply tracks_ret|]. specialize (Hp ltac:(done)).
  set (ns := n0 :: ns0) in *. clearbody ns. induction ns as [|n ns IH]; [apply tracks_ret|]. cbn [for_each].
  destruct (Ho n ltac:(set_solver)). apply tracks_bind; [by apply keeps_receive|]. intros _. apply IH. intros m Hm. apply Ho. set_solver.
Qed.

Lemma keeps_withdraw_all ns : (∀ n, n ∈ ns → occurs n) → keeps (for_each ns (withdraw_nlri c in_network)).
Proof.
  intros Ho. induction ns as [|n ns IH]; [apply tracks_ret|]. cbn [for_each].
  apply tracks_bind; [apply keeps_withdraw, Ho; set_solver|]. intros _. apply IH. intros m Hm. apply Ho. set_solver.
Qed.

Lemma keeps_count ns : keeps (count_prefixes ns).
Proof using. unfold count_prefixes. keep_in. Qed.
Hint Resolve keeps_count : keep_in.

Lemma keeps_mp_reach w attrs rf nh ns :
  (∀ n, n ∈ ns → occurs n ∧ nlri_rf n = rf) →
  (ns ≠ [] → ∃ segs, get_attr BGP_ATTR_TYPE_AS_PATH attrs = Some (AsPath segs)) →
  keeps (_extract_and_handle_mpbgp_new_paths c in_network w attrs rf nh ns).
Proof.
  intros Ho Hp. unfold _extract_and_handle_mpbgp_new_paths, mp_family. apply keeps_lift_bind. intros rf' E.
  assert (rf' = rf) as -> by (unfold get_rf in E; case_match; congruence).
  apply keeps_rib_get_bind. intros s. do 2 (case_match; [apply tracks_ret|]).
  apply tracks_bind; [|intros _; keep_in]. apply keeps_receive_all; [|exact Hp].
  intros n Hn. destruct (Ho n Hn) as [? <-]. split; [done|]. destruct (decide (nlri_rf n = RF_RTC_UC)); tauto.
Qed.

Lemma keeps_mp_unreach rf ns : (∀ n, n ∈ ns → occurs n) → keeps (_extract_and_handle_mpbgp_withdraws c in_network rf ns).
Proof.
  intros Ho. unfold _extract_and_handle_mpbgp_withdraws, mp_family. apply keeps_lift_bind. intros rf' _.
  case_match; [apply tracks_ret|]. apply tracks_bind; [apply tracks_when, keeps_eor_end|]. intros _. by apply keeps_withdraw_all.
Qed.

Lemma keeps_bgp4_paths attrs ns :
  (∀ n, n ∈ ns → occurs n) → (ns ≠ [] → ∃ segs, get_attr BGP_ATTR_TYPE_AS_PATH attrs = Some (AsPath segs)) →
  keeps (_extract_and_handle_bgp4_new_paths c in_network attrs ns).
Proof.
  intros Ho Hp. unfold _extract_and_handle_bgp4_new_paths. do 2 (apply tracks_bind; [apply tracks_or_raise|intros ?]).
  apply tracks_bind; [|intros _; keep_in]. apply keeps_receive_all; [|exact Hp]. intros n Hn. split; [auto|by right].
Qed.

Lemma keeps_process w u attrs :
  update_ok u → attrs = _extract_and_reconstruct_as_path (u_attrs u) →
  keeps (process_update c in_network w attrs (u_nlri u) (u_withdrawn u)).
Proof.
  intros Hu ->. set (attrs := _extract_and_reconstruct_as_path (u_attrs u)).
  assert (∀ t, t ∈ [BGP_ATTR_TYPE_MP_REACH_NLRI; BGP_ATTR_TYPE_MP_UNREACH_NLRI] → get_attr t attrs = get_attr t (u_attrs u)) as Et.
  { intros t Ht. apply reconstruct_keeps; [apply Hu..|]. set_solver. }
  assert (is_Some (get_attr BGP_ATTR_TYPE_AS_PATH (u_attrs u)) → ∃ segs, get_attr BGP_ATTR_TYPE_AS_PATH attrs = Some (AsPath segs)) as Hp.
  { intros [a Ea]. pose proof (uo_typed _ Hu) as Ht. by_type a Ht Ea.
    eexists. apply (rec_as_path _ _ _ (reconstruct_spec _ _ (uo_unique _ Hu) Ht Ea)). }
  unfold process_update. rewrite !Et by set_solver.
  pose proof (uo_reach _ Hu) as Hr. pose proof (uo_as_path _ Hu) as Ha. pose proof (uo_occurs _ Hu) as Ho.
  unfold mp_reach_nlris, mp_unreach_nlris in *.
  apply tracks_bind; [|intros _; apply tracks_bind; [|intros _; apply tracks_bind; [|intros _]]].
  - destruct (get_attr BGP_ATTR_TYPE_MP_REACH_NLRI (u_attrs u)) as [[]|]; try apply tracks_ret. apply keeps_mp_reach.
    + intros n Hn. apply Hr, list_elem_of_fmap. by exists n.
    + intros Hne. apply Hp, Ha. right. by destruct nlris.
  - destruct (get_attr BGP_ATTR_TYPE_MP_UNREACH_NLRI (u_attrs u)) as [[]|]; try apply tracks_ret. apply keeps_mp_unreach.
    intros n Hn. apply Ho. set_solver.
  - apply tracks_when, keeps_bgp4_paths; [intros n Hn; apply Ho; set_solver|]. intros Hne. apply Hp, Ha. by left.
  - apply tracks_when. unfold _extract_and_handle_bgp4_withdraws.
    apply tracks_bind; [apply tracks_when, keeps_eor_end|]. intros _. apply keeps_withdraw_all. intros n Hn. apply Ho. set_solver.
Qed.

Lemma keeps_validate u : keeps (_validate_update_msg c u).
Proof using. unfold _validate_update_msg, validate_bgp4, mp_family. keep_in. Qed.
Hint Resolve keeps_validate : keep_in.

Lemma keeps_update w u : update_ok u → keeps (_handle_update_msg c in_network w u).
Proof.
  intros Hu. unfold _handle_update_msg. apply keeps_rib_get_bind. intros s.
  apply tracks_bind; [keep_in|intros _]. apply tracks_bind; [keep_in|intros _]. apply tracks_bind; [keep_in|intros valid].
  case_match; [apply tracks_ret|]. case_match; [apply tracks_ret|]. by apply (keeps_process w u).
Qed.
End rib.

(** ** Sessions *)

Section theorems.
Context (c : peer_conf) (in_network : string → string → bool) (ipv4_mapped_ipv6 : string → string)
        (peer_ip_address : Z → string) (peer_rr_client : Z → bool) (occurs : nlri → Prop).

(** Filters that cannot fail, and messages that are considered. *)
Definition op_ok (op : peer_op) : Prop :=
  match op with
  | OpMessage _ (MsgUpdate u) => update_ok occurs u
  | OpSetInFilters filters => Forall safe_filter filters
  | _ => True
  end.

Lemma keeps_op (text_tells : ∀ n n', occurs n → occurs n' → nlri_prefix n = nlri_prefix n' → n = n') op :
  op_ok op →
  tracks see_in (agree in_network occurs []) (run_peer_op c in_network ipv4_mapped_ipv6 peer_ip_address peer_rr_client op).
Proof using Type.
  intros Hop. destruct op as [w m|filters| | | | | | | | |]; cbn [run_peer_op op_ok] in *; try solve [auto with keep_in].
  - unfold handle_msg. apply keeps_rib_get_bind. intros s. destruct m as [|u|rf d]; [keep_in|..].
    + apply tracks_bind; [keep_in|intros _]. by apply keeps_update.
    + keep_in.
  - by apply keeps_in_filter.
Qed.

Lemma keeps_ops (text_tells : ∀ n n', occurs n → occurs n' → nlri_prefix n = nlri_prefix n' → n = n') ops s v :
  Forall op_ok ops → agree in_network occurs [] s v →
  let '(o, s') := run_peer_ops c in_network ipv4_mapped_ipv6 peer_ip_address peer_rr_client ops s in
  agree in_network occurs [] s' (foldl see_in v o).
Proof using Type.
  intros Hops. revert s v. induction Hops as [|op ops Hop _ IH]; intros s v Ha; [exact Ha|]. cbn [run_peer_ops].
  pose proof (keeps_op text_tells op Hop s v Ha) as Ha'. unfold final, outputs in Ha'.
  destruct (run_peer_op _ _ _ _ _ op s) as [[o s1] r]. specialize (IH s1 _ Ha'). cbn [fst snd] in IH.
  destruct (run_peer_ops _ _ _ _ _ ops s1) as [o' s2]. by rewrite foldl_app.
Qed.

(** What the tables should have been told of a path that is announced. *)
Definition wanted (filters : list pfilter) (p : rpath) : option rpath :=
  match _apply_filter in_network filters p with
  | Ret false => if rp_rf p =? RF_RTC_UC then None else Some p
  | _ => None
  end.

(** C11: During a session, through messages, changes of the filters and of the rest of the
    configuration, and also when handlers raise, the paths that the tables have been told and not
    told to withdraw are exactly those the neighbor announces at the time (what the observers of
    Adj-RIB-In have been told) and the present filters let through; Adj-RIB-In itself has the
    announced paths.  It holds under these conditions: no AS path filter compares the top or the
    end of a path (safe_filter: those raise when a path begins with a set); an UPDATE has one
    attribute of a type, each of its class, the NLRIs of MP_REACH_NLRI are of its family and what
    it announces has an AS path (update_ok); and the NLRIs that occur are told apart by their
    text.  Paths for route targets are left out of what the tables are told: they wait for the
    end of the initial ones. *)
Theorem learned_is_filtered_rib ops s :
  (∀ n n', occurs n → occurs n' → nlri_prefix n = nlri_prefix n' → n = n') →
  adj_rib_in s = [] → init_rtc_nlri_path s = Some [] → Forall safe_filter (in_filters s) → Forall op_ok ops →
  let '(o, s') := run_peer_ops c in_network ipv4_mapped_ipv6 peer_ip_address peer_rr_client ops s in
  let '(learned, announced) := foldl see_in (∅, ∅) o in
  (∀ key, announced !! key = fst <$> od_get key (adj_rib_in s')) ∧
  (∀ key, learned !! key = match announced !! key with Some p => wanted (in_filters s') p | None => None end).
Proof using Type.
  intros Htext Hrib Hinit Hf Hops.
  assert (agree in_network occurs [] s (∅, ∅)) as Ha.
  { split; rewrite ?Hrib, ?Hinit; cbn; try done; [constructor|set_solver]. }
  pose proof (keeps_ops Htext ops s _ Hops Ha) as H.
  destruct (run_peer_ops _ _ _ _ _ ops s) as [o s']. destruct (foldl see_in (∅, ∅) o) as [learned announced].
  split; [apply H|]. intros key. pose proof (ag_learned _ _ _ _ _ H key) as Hl. cbn in Hl. rewrite Hl.
  pose proof (ag_announced _ _ _ _ _ H key) as Hn. cbn in Hn. rewrite Hn.
  destruct (od_get key (adj_rib_in s')) as [[p b]|] eqn:E; [|done]. cbn.
  destruct (ag_entry _ _ _ _ _ H _ _ _ E) as (_ & _ & _ & _ & Hv). unfold wanted. rewrite Hv by set_solver. by destruct b.
Qed.
End theorems.

Module AdjInWitness.
Import PeerWitness.
Definition occurs (n : nlri) : Prop := n = net1 ∨ n = net2.
Definition ops : list peer_op :=
  [OpMessage world0 (MsgUpdate (announce 65002 [net1; net2])); OpSetInFilters [deny net1];
   OpMessage world0 (MsgUpdate (Update [] [] [net2])); OpMessage world0 (MsgUpdate (announce 65002 [net2]))].
Definition state0 : peer_st := up (session_of 65001 65002 [RF_IPv4_UC]).
Definition run := run_peer_ops (conf_of 65001 65002) within (λ a, a) (λ _, "192.0.2.2") (λ _, false) ops state0.

Lemma update_fits u :
  u ∈ [announce 65002 [net1; net2]; Update [] [] [net2]; announce 65002 [net2]] → update_ok occurs u.
Proof.
  unfold occurs. intros Hu. repeat (apply elem_of_cons in Hu as [->|Hu]); [..|by apply elem_of_nil in Hu];
    (split; [unfold types_unique; apply (bool_decide_unpack _); by vm_compute|by repeat constructor|cbn; set_solver|set_solver|]);
    cbn; intros [H|H]; try done; by eexists.
Qed.
End AdjInWitness.

Lemma learned_is_filtered_rib_witness :
  (let '(o, s') := AdjInWitness.run in
   let '(learned, announced) := foldl see_in (∅, ∅) o in
   (∀ key, announced !! key = fst <$> od_get key (adj_rib_in s')) ∧
   (∀ key, learned !! key = match announced !! key with Some p => wanted PeerWitness.within (in_filters s') p | None => None end)) ∧
  od_keys (adj_rib_in AdjInWitness.run.2) = ["10.1.0.0/16"; "10.2.0.0/16"] ∧
  bool_decide (is_Some ((foldl see_in (∅, ∅) AdjInWitness.run.1).1 !! "10.1.0.0/16")) = false ∧
  bool_decide (is_Some ((foldl see_in (∅, ∅) AdjInWitness.run.1).1 !! "10.2.0.0/16")) = true.
Proof.
  split; [|split_and!; vm_compute; reflexivity]. unfold AdjInWitness.run. apply (learned_is_filtered_rib _ _ _ _ _ AdjInWitness.occurs).
  - intros n n' [->| ->] [->| ->] E; try reflexivity; discriminate E.
  - reflexivity.
  - reflexivity.
  - constructor.
  - apply Forall_cons_2; [apply AdjInWitness.update_fits; set_solver|].
    apply Forall_cons_2; [apply Forall_cons_2; [exact I|apply Forall_nil_2]|].
    do 2 (apply Forall_cons_2; [apply AdjInWitness.update_fits; set_solver|]). apply Forall_nil_2.
Defined.

(** ** What one message does *)

Section message.
Context (c : peer_conf) (in_network : string → string → bool).

Definition is_prefix_filter (f : pfilter) : Prop := match f with PrefixFilter _ _ _ _ _ => True | _ => False end.

Definition blocked (filters : list pfilter) (p : rpath) : bool :=
  match _apply_filter in_network filters p with Ret b => b | Raise _ => false end.

Lemma prefix_verdict filters p : Forall is_prefix_filter filters → _apply_filter in_network filters p = Ret (blocked filters p).
Proof.
  intros Hf. assert (∃ b, _apply_filter in_network filters p = Ret b) as [b E]; [|unfold blocked; by rewrite E].
  induction Hf as [|f filters Hf _ [b IH]]; [by eexists|]. cbn [_apply_filter].
  destruct (negb (filter_rf f =? rp_rf p)); [by eexists|]. destruct f; [|done]. cbn [evaluate mbind outcome_bind].
  repeat case_match; by eexists.
Qed.

(** The path that a message makes of one of its NLRIs. *)
Definition received_path (s : peer_st) (attrs : list attr) (h : string) (n : nlri) : rpath :=
  RPath (self_source c s) n (version_num s) (pathattr_map attrs) (Some h) false false.

(** What the loops leave alone. *)
Definition same_session (s s' : peer_st) : Prop :=
  in_filters s' = in_filters s ∧ version_num s' = version_num s ∧ protocol s' = protocol s.

Lemma same_session_trans s1 s2 s3 : same_session s1 s2 → same_session s2 s3 → same_session s1 s3.
Proof. unfold same_session. intros (-> & -> & ->) (-> & -> & ->). done. Qed.

Lemma received_path_same s s' attrs h n : same_session s s' → received_path s' attrs h n = received_path s attrs h n.
Proof. unfold received_path, self_source. by intros (_ & -> & ->). Qed.

Lemma receive_step s attrs h n :
  Forall is_prefix_filter (in_filters s) → nlri_rf n = RF_IPv4_UC → pathattr_map attrs ≠ [] → h ≠ "" →
  let p := received_path s attrs h n in
  ∃ o s', receive_nlri c in_network RF_IPv4_UC (pathattr_map attrs) (Some h) n s = (o, s', Ret ()) ∧ same_session s s' ∧
    adj_rib_in s' = od_set (nlri_prefix n) (p, blocked (in_filters s) p) (adj_rib_in s).
Proof.
  intros Hf Hn Ha Hh p. unfold receive_nlri. rewrite get_bind.
  assert (make_path (self_source c s) n (version_num s) (pathattr_map attrs) (Some h) false false = Ret p) as ->.
  { unfold make_path. rewrite Hn. change (negb (bool_decide (RF_IPv4_UC ∈ path_families))) with false. cbn iota.
    change (is_flowspec RF_IPv4_UC) with false. cbn iota. apply String.eqb_neq in Hh. rewrite Hh.
    assert (nonempty (pathattr_map attrs) = true) as -> by by destruct (pathattr_map attrs). done. }
  rewrite lift_ret_bind, prefix_verdict, lift_ret_bind by done.
  unfold mbind, M_bind, modify, emit. destruct (blocked (in_filters s) p); eexists _, _; (split; [reflexivity|]); unfold same_session; by split_and!.
Qed.

Lemma receive_loop attrs h ns : ∀ s,
  Forall is_prefix_filter (in_filters s) → (∀ n, n ∈ ns → nlri_rf n = RF_IPv4_UC) → pathattr_map attrs ≠ [] → h ≠ "" →
  ∃ o s', for_each ns (receive_nlri c in_network RF_IPv4_UC (pathattr_map attrs) (Some h)) s = (o, s', Ret ()) ∧ same_session s s' ∧
    ∀ key, if bool_decide (key ∈ nlri_prefix <$> ns) then
             ∃ n, n ∈ ns ∧ nlri_prefix n = key ∧
               od_get key (adj_rib_in s') = Some (received_path s attrs h n, blocked (in_filters s) (received_path s attrs h n))
           else od_get key (adj_rib_in s') = od_get key (adj_rib_in s).
Proof.
  induction ns as [|n ns IH]; intros s Hf Hrf Ha Hh; [by eexists _, _|]. cbn [for_each].
  destruct (receive_step s attrs h n Hf (Hrf n ltac:(set_solver)) Ha Hh) as (o1 & s1 & E1 & Hs1 & Erib).
  destruct (IH s1) as (o2 & s2 & E2 & Hs2 & Hrib); [by destruct Hs1 as [-> _]|set_solver|done..|].
  exists (o1 ++ o2), s2. split; [by unfold mbind, M_bind; rewrite E1, E2|]. split; [by eapply same_session_trans|].
  intros key. specialize (Hrib key). destruct (bool_decide_reflect (key ∈ nlri_prefix <$> ns)) as [Hk|Hk].
  - rewrite bool_decide_eq_true_2 by set_solver. destruct Hrib as (m & Hm & Ek & Eg). exists m. split_and!; [set_solver|done|].
    rewrite Eg. destruct Hs1 as (Ef & ?). by rewrite (received_path_same s s1), Ef.
  - rewrite Hrib, Erib, od_get_set. case_decide as E.
    + subst key. rewrite bool_decide_eq_true_2 by set_solver. exists n. split_and!; [set_solver|done..].
    + rewrite bool_decide_eq_false_2 by set_solver. done.
Qed.

Lemma withdraw_step s n :
  Forall is_prefix_filter (in_filters s) → nlri_rf n = RF_IPv4_UC →
  ∃ o s', withdraw_nlri c in_network n s = (o, s', Ret ()) ∧ same_session s s' ∧
    ∀ key, od_get key (adj_rib_in s') = od_get key (od_del (nlri_prefix n) (adj_rib_in s)).
Proof.
  intros Hf Hn. unfold withdraw_nlri. rewrite get_bind.
  destruct (make_path (self_source c s) n (version_num s) [] None true false) as [p|] eqn:Em.
  2: { unfold make_path in Em. by rewrite Hn in Em. }
  rewrite lift_ret_bind, prefix_verdict, lift_ret_bind by done. unfold when, mbind, M_bind, modify, emit, mret, M_ret.
  destruct (od_mem (nlri_prefix n) (adj_rib_in s)) eqn:E, (blocked (in_filters s) p); eexists _, _; (split; [reflexivity|]); (split; [unfold same_session; by split_and!|]);
    intros key; try done; rewrite od_del_absent; try done; intros Hk; apply od_mem_spec in Hk; congruence.
Qed.

Lemma withdraw_loop ns : ∀ s,
  Forall is_prefix_filter (in_filters s) → (∀ n, n ∈ ns → nlri_rf n = RF_IPv4_UC) →
  ∃ o s', for_each ns (withdraw_nlri c in_network) s = (o, s', Ret ()) ∧ same_session s s' ∧
    ∀ key, od_get key (adj_rib_in s') = if bool_decide (key ∈ nlri_prefix <$> ns) then None else od_get key (adj_rib_in s).
Proof.
  induction ns as [|n ns IH]; intros s Hf Hrf; [by eexists _, _|]. cbn [for_each].
  destruct (withdraw_step s n Hf (Hrf n ltac:(set_solver))) as (o1 & s1 & E1 & Hs1 & Hrib1).
  destruct (IH s1) as (o2 & s2 & E2 & Hs2 & Hrib2); [by destruct Hs1 as [-> _]|set_solver|].
  exists (o1 ++ o2), s2. split; [by unfold mbind, M_bind; rewrite E1, E2|]. split; [by eapply same_session_trans|].
  intros key. rewrite Hrib2, Hrib1, od_get_del.
  destruct (bool_decide_reflect (key ∈ nlri_prefix <$> ns)); [by rewrite bool_decide_eq_true_2 by set_solver|].
  case_decide; [by rewrite bool_decide_eq_true_2 by set_solver|by rewrite bool_decide_eq_false_2 by set_solver].
Qed.

(** A message with IPv4 routes only that has what it needs. *)
Record ipv4_update (u : update) (h : string) : Prop := {
  iu_unique : types_unique (u_attrs u);
  iu_typed : Forall typed (u_attrs u);
  iu_no_mp : get_attr BGP_ATTR_TYPE_MP_REACH_NLRI (u_attrs u) = None ∧ get_attr BGP_ATTR_TYPE_MP_UNREACH_NLRI (u_attrs u) = None;
  iu_rf n : n ∈ u_nlri u ++ u_withdrawn u → nlri_rf n = RF_IPv4_UC;
  iu_mandatory : u_nlri u ≠ [] →
    check_as_path c (u_attrs u) = Ret () ∧ is_Some (get_attr BGP_ATTR_TYPE_ORIGIN (u_attrs u)) ∧
    get_attr BGP_ATTR_TYPE_NEXT_HOP (u_attrs u) = Some (NextHop (Some h)) ∧ h ≠ ""
}.

Definition session_up (s : peer_st) : Prop :=
  bgp_state s = ESTABLISHED ∧ ∃ pid sess, protocol s = Some (pid, sess) ∧ is_ret (protocol_mbgp_cap_valid sess RF_IPv4_UC) = true.

Lemma mpbgp_run s : session_up s → ∃ b, is_mpbgp_cap_valid RF_IPv4_UC s = ([], s, Ret b).
Proof.
  intros (_ & pid & sess & E & Hr). unfold is_mpbgp_cap_valid, ask, gets, mbind, M_bind. rewrite E. cbn.
  unfold lift. destruct (protocol_mbgp_cap_valid sess RF_IPv4_UC) as [b|]; [|done]. by exists b.
Qed.

Lemma validate_run u s h : session_up s → ipv4_update u h → _validate_update_msg c u s = ([], s, Ret true).
Proof.
  intros Hs Hu. unfold _validate_update_msg. rewrite get_bind. unfold in_established. rewrite bool_decide_eq_true_2 by apply Hs.
  destruct (iu_no_mp _ _ Hu) as [-> ->]. cbn [negb]. unfold validate_bgp4.
  destruct (mpbgp_run s Hs) as [b Eb]. unfold mbind at 1, M_bind at 1. rewrite Eb.
  destruct (u_nlri u) as [|n ns] eqn:En; [done|]. cbn [nonempty].
  destruct (iu_mandatory _ _ Hu) as (Hc & [a Ho] & Hn & _); [congruence|].
  rewrite Hc, lift_ret_bind. unfold check_present. by rewrite Ho, lift_ret_bind, Hn, lift_ret_bind.
Qed.

Lemma new_paths_run attrs h ns s :
  Forall is_prefix_filter (in_filters s) → (∀ n, n ∈ ns → nlri_rf n = RF_IPv4_UC) →
  (ns ≠ [] → get_attr BGP_ATTR_TYPE_NEXT_HOP attrs = Some (NextHop (Some h)) ∧ h ≠ "") →
  ∃ o s', when (nonempty ns) (_extract_and_handle_bgp4_new_paths c in_network attrs ns) s = (o, s', Ret ()) ∧ same_session s s' ∧
    ∀ key, if bool_decide (key ∈ nlri_prefix <$> ns) then
             ∃ n, n ∈ ns ∧ nlri_prefix n = key ∧
               od_get key (adj_rib_in s') = Some (received_path s attrs h n, blocked (in_filters s) (received_path s attrs h n))
           else od_get key (adj_rib_in s') = od_get key (adj_rib_in s).
Proof.
  intros Hf Hrf Hnh. destruct ns as [|n0 ns0]; [by eexists _, _|]. destruct (Hnh ltac:(done)) as [En Hh]. cbn [nonempty when].
  set (ns := n0 :: ns0) in *. clearbody ns. clear n0 ns0.
  assert (pathattr_map attrs ≠ []) as Ha by (intros E; unfold get_attr in En; by rewrite E in En).
  destruct (receive_loop attrs h ns s Hf Hrf Ha Hh) as (o & s' & E & Hs & Hrib).
  unfold _extract_and_handle_bgp4_new_paths. rewrite En. cbn [or_raise]. rewrite ret_bind. cbn [or_raise].
  rewrite ret_bind, (run_bind _ _ _ _ _ _ E).
  eexists _, _. split; [reflexivity|]. split; [|exact Hrib]. destruct Hs as (? & ? & ?). by split_and!.
Qed.

Lemma withdraws_run ns s :
  Forall is_prefix_filter (in_filters s) → (∀ n, n ∈ ns → nlri_rf n = RF_IPv4_UC) →
  ∃ o s', when (nonempty ns) (_extract_and_handle_bgp4_withdraws c in_network ns) s = (o, s', Ret ()) ∧
    ∀ key, od_get key (adj_rib_in s') = if bool_decide (key ∈ nlri_prefix <$> ns) then None else od_get key (adj_rib_in s).
Proof.
  intros Hf Hrf. destruct ns as [|n0 ns0]; [by eexists _, _|].
  destruct (withdraw_loop (n0 :: ns0) s Hf Hrf) as (o & s' & E & _ & Hrib). exists o, s'. split; [|exact Hrib].
  cbn [nonempty]. unfold when at 1, _extract_and_handle_bgp4_withdraws. cbn [nonempty negb]. by rewrite when_false_bind.
Qed.

Lemma process_run w u h s :
  ipv4_update u h → Forall is_prefix_filter (in_filters s) →
  let attrs := _extract_and_reconstruct_as_path (u_attrs u) in
  ∃ o s', process_update c in_network w attrs (u_nlri u) (u_withdrawn u) s = (o, s', Ret ()) ∧
  ∀ key,
    if bool_decide (key ∈ nlri_prefix <$> u_withdrawn u) then od_get key (adj_rib_in s') = None
    else if bool_decide (key ∈ nlri_prefix <$> u_nlri u) then
      ∃ n, n ∈ u_nlri u ∧ nlri_prefix n = key ∧
        od_get key (adj_rib_in s') = Some (received_path s attrs h n, blocked (in_filters s) (received_path s attrs h n))
    else od_get key (adj_rib_in s') = od_get key (adj_rib_in s).
Proof.
  intros Hu Hf attrs.
  assert (∀ t, t ∈ [BGP_ATTR_TYPE_MP_REACH_NLRI; BGP_ATTR_TYPE_MP_UNREACH_NLRI; BGP_ATTR_TYPE_NEXT_HOP] → get_attr t attrs = get_attr t (u_attrs u)) as Et.
  { intros t Ht. apply reconstruct_keeps; [apply Hu..|]. set_solver. }
  destruct (new_paths_run attrs h (u_nlri u) s Hf) as (o1 & s1 & E1 & Hs1 & Hrib1).
  { intros n Hn. apply (iu_rf _ _ Hu). set_solver. }
  { intros Hne. rewrite Et by set_solver. by apply (iu_mandatory _ _ Hu). }
  destruct (withdraws_run (u_withdrawn u) s1) as (o2 & s2 & E2 & Hrib2); [by destruct Hs1 as [-> _]|intros n Hn; apply (iu_rf _ _ Hu); set_solver|].
  exists (o1 ++ o2), s2. split.
  - unfold process_update. rewrite !Et by set_solver. destruct (iu_no_mp _ _ Hu) as [-> ->].
    by rewrite !ret_bind, (run_bind _ _ _ _ _ _ E1), E2.
  - intros key. rewrite Hrib2. case_bool_decide; [done|]. apply Hrib1.
Qed.

(** C18: An UPDATE message with IPv4 routes that is complete is taken without an exception when the
    filters are prefix filters: afterwards Adj-RIB-In has nothing of the prefixes it withdraws,
    has for each other prefix it announces a path with the reconstructed attributes and the next
    hop of the message, marked by the verdict of the filters, and is as before elsewhere. *)
Theorem update_applied w u s h :
  session_up s → ipv4_update u h → Forall is_prefix_filter (in_filters s) →
  let attrs := _extract_and_reconstruct_as_path (u_attrs u) in
  let s' := final (handle_msg c in_network (λ _, false) w (MsgUpdate u)) s in
  result (handle_msg c in_network (λ _, false) w (MsgUpdate u)) s = Ret () ∧
  ∀ key,
    if bool_decide (key ∈ nlri_prefix <$> u_withdrawn u) then od_get key (adj_rib_in s') = None
    else if bool_decide (key ∈ nlri_prefix <$> u_nlri u) then
      ∃ n, n ∈ u_nlri u ∧ nlri_prefix n = key ∧
        od_get key (adj_rib_in s') =
          Some (received_path s attrs h n, blocked (in_filters s) (received_path s attrs h n))
    else od_get key (adj_rib_in s') = od_get key (adj_rib_in s).
Proof.
  intros Hup Hu Hf attrs s'. set (s1 := s <| recv_updates ::= Z.add 1 |>).
  destruct (process_run w u h s1 Hu Hf) as (o & s2 & E & Hrib).
  assert (handle_msg c in_network (λ _, false) w (MsgUpdate u) s = (o, s2, Ret ())) as Em.
  { unfold handle_msg. rewrite get_bind. unfold in_established. rewrite bool_decide_eq_true_2 by apply Hup.
    cbn [assert_]. rewrite ret_bind. unfold _handle_update_msg. rewrite get_bind. unfold in_established.
    rewrite bool_decide_eq_true_2 by apply Hup. cbn [assert_]. rewrite ret_bind, modify_bind. fold s1.
    rewrite (run_bind _ _ _ _ _ _ (validate_run u s1 h Hup Hu)). cbn [negb]. fold attrs in E |- *. change (looped c attrs) with false.
    cbn iota. by rewrite E. }
  subst s'. unfold result, final. rewrite Em. split; [done|exact Hrib].
Qed.
End message.

Module UpdateWitness.
Import PeerWitness.
Definition conf := conf_of 65001 65002.
Definition msg : update := Update (u_attrs (announce 65002 [])) [net1; net2] [net1].
Definition state0 : peer_st := up (session_of 65001 65002 [RF_IPv4_UC]) <| in_filters := [deny net2] |>.
Definition state1 : peer_st := final (handle_msg conf within (λ _, false) world0 (MsgUpdate msg)) state0.
End UpdateWitness.

Lemma update_applied_witness :
  result (handle_msg UpdateWitness.conf PeerWitness.within (λ _, false) PeerWitness.world0 (MsgUpdate UpdateWitness.msg)) UpdateWitness.state0 = Ret () ∧
  od_get "10.1.0.0/16" (adj_rib_in UpdateWitness.state1) = None ∧
  fmap (M:=option) snd (od_get "10.2.0.0/16" (adj_rib_in UpdateWitness.state1)) = Some true.
Proof.
  split; [|split; vm_compute; reflexivity].
  apply (update_applied UpdateWitness.conf PeerWitness.within PeerWitness.world0 UpdateWitness.msg UpdateWitness.state0 "192.0.2.2").
  - split; [reflexivity|]. eexists _, _. split; [reflexivity|]. vm_compute. reflexivity.
  - split.
    + unfold types_unique. apply (bool_decide_unpack _). vm_compute. exact I.
    + repeat constructor.
    + split; reflexivity.
    + cbn. intros n Hn. repeat (apply elem_of_cons in Hn as [->|Hn]; [reflexivity|]). by apply elem_of_nil in Hn.
    + intros _. split_and!; [reflexivity|by eexists|reflexivity|discriminate].
  - repeat constructor.
Defined.

(** ** Faults *)

Section faults.
Context (in_network : string → string → bool).

(** An AS path filter never blocks a path: its policies are neither to permit nor to deny. *)
Lemma as_path_filters_never_block filters p :
  Forall (λ f, match f with ASPathFilter _ _ => True | _ => False end) filters → _apply_filter in_network filters p ≠ Ret true.
Proof.
  induction 1 as [|f filters Hf _ IH]; [done|]. destruct f as [? ? ? ? ?|asn pol]; [done|].
  cbn [_apply_filter]. destruct (negb _); [exact IH|].
  assert (∀ x, evaluate in_network (ASPathFilter asn pol) p = Ret x → x.1 = pol ∧ (x.2 = true → pol ≠ POLICY_PERMIT ∧ pol ≠ POLICY_DENY)) as Hno.
  { intros x. cbn [evaluate]. destruct (get_pattr BGP_ATTR_TYPE_AS_PATH p) as [[]|]; try done.
    destruct (as_path_matches asn pol value) as [m|] eqn:Em; [|done]. intros [= <-]. split; [done|].
    exact (as_path_filter_no_verdict _ _ _ _ Em). }
  destruct (evaluate _ _ p) as [[pol' m]|]; [|done]. destruct (Hno _ eq_refl) as [E H]. cbn in E, H. subst pol'. cbn [mbind outcome_bind].
  destruct m; [|by rewrite !andb_false_r]. destruct (H eq_refl) as [H1 H2]. by rewrite (proj2 (Z.eqb_neq _ _) H1), (proj2 (Z.eqb_neq _ _) H2).
Qed.
End faults.

(** A lower bound of 0 is taken for no bound, but then nothing matches. *)
Lemma zero_bound_matches_nothing le length : length_matches (Some 0) le length = false.
Proof. by destruct le. Qed.

Module AdjInFaults.
Import PeerWitness.
Definition conf := conf_of 65001 65002.
Definition both := up (session_of 65001 65002 [RF_IPv4_UC; RF_RTC_UC]).
Definition handle (m : peer_msg) (s : peer_st) := handle_msg conf within (λ _, false) world0 m s.

(** With an AS path filter every withdrawal raises: a withdrawal has no AS path. *)
Example withdrawal_with_as_path_filter :
  result (handle (MsgUpdate (Update [] [] [net1]))) (both <| in_filters := [ASPathFilter 65003 POLICY_TOP] |>) = Raise AttributeError.
Proof. vm_compute. reflexivity. Qed.

(** A prefix that a message withdraws and announces is withdrawn. *)
Example announced_and_withdrawn :
  od_keys (adj_rib_in (final (handle (MsgUpdate (Update (u_attrs (announce 65002 [])) [net1] [net1]))) both)) = [].
Proof. vm_compute. reflexivity. Qed.

(** Beside an attribute of other families, IPv4 routes are learned without the mandatory attributes. *)
Definition unvalidated : update := Update [NextHop (Some "192.0.2.2"); MpUnreachNLRI RF_IPv4_UC [net2]] [net1] [].

Example mandatory_not_checked :
  result (handle (MsgUpdate unvalidated)) both = Ret () ∧
  od_keys (adj_rib_in (final (handle (MsgUpdate unvalidated)) both)) = ["10.1.0.0/16"].
Proof. split; vm_compute; reflexivity. Qed.

(** The end of the initial route targets stops the timer that would send the initial routes of the
    other families; nothing else sends them. *)
Example eor_stops_initial_updates :
  let s := final (handle (MsgUpdate (Update [MpUnreachNLRI RF_RTC_UC []] [] []))) (both <| rtc_eor_timer := true |>) in
  rtc_eor_timer s = false ∧ sent_init_non_rtc_update s = false ∧ outgoing s = [].
Proof. vm_compute. split_and!; reflexivity. Qed.

(** A second one in a session raises. *)
Example second_eor_raises :
  result (handle (MsgUpdate (Update [MpUnreachNLRI RF_RTC_UC []] [] [])))
    (final (handle (MsgUpdate (Update [MpUnreachNLRI RF_RTC_UC []] [] []))) both) = Raise TypeError.
Proof. vm_compute. reflexivity. Qed.

(** A route refresh for a family that the library does not know raises. *)
Example unknown_family_refresh : result (handle (MsgRouteRefresh (route_family 1 2) 0)) both = Raise KeyError.
Proof. vm_compute. reflexivity. Qed.

(** A route refresh raises when a route without MULTI_EXIT_DISC was sent and no metric is
    configured. *)
Definition sent_path : rpath := RPath SrcNC net1 1 [(1, Origin 0); (2, AsPath [])] (Some "192.0.2.9") false false.

Example refresh_without_med :
  result (_handle_route_refresh_msg conf (World None [] [] [] (λ _, [[(1, sent_path)]]) 65001 (λ _, 0)) RF_IPv4_UC 0) both
    = Raise AssertionError.
Proof. vm_compute. reflexivity. Qed.
End AdjInFaults.
