(* ===== verification/BgpPrefix.v ===== *)
(** * BGP prefixes and their bytes

    Models the NLRI classes of [ryu/lib/packet/bgp.py] for IPv4 and IPv6, plain, with MPLS labels
    and for VPNs: [_AddrPrefix] with its subclasses, [_RouteDistinguisher] and the choice of a
    class by address family.  Addresses are texts; [netaddr], which turns them into bytes, stands
    behind the class [Addresses].  The classes for Ethernet VPNs and flow specifications stand
    behind [ForeignNlri].  [serialize] returns the object as it leaves it and the bytes. *)

From stdpp Require Import base list strings pretty.
From Stdlib Require Import ZArith Lia.
From S2P Require Import Prelude Struct BgpOpen.

Open Scope Z_scope.
Set Default Proof Using "Type*".

(** ** Addresses *)

Inductive ip_version := IPv4 | IPv6.

#[export] Instance ip_version_eq_dec : EqDecision ip_version.
Proof. solve_decision. Defined.

Definition addr_size (v : ip_version) : nat := match v with IPv4 => 4 | IPv6 => 16 end.

(** [addrconv.ipv4] and [addrconv.ipv6], [ip.valid_ipv4], [ip.valid_ipv6] and
    [str(netaddr.IPAddress(a).ipv6())]: wrappers of [netaddr]. *)
Class Addresses := {
  text_to_bin : ip_version → string → outcome pyexn bytes;
  bin_to_text : ip_version → bytes → outcome pyexn string;
  valid_ip : ip_version → string → bool;
  as_ipv6 : string → string
}.

(** [':' in ip] *)
Definition has_colon (a : string) : bool := bool_decide (Ascii.ascii_of_N 58 ∈ String.list_ascii_of_string a).

(** [ip.text_to_bin] *)
Definition ip_text_to_bin `{Addresses} (a : string) : outcome pyexn bytes :=
  text_to_bin (if has_colon a then IPv6 else IPv4) a.

(** Bytes of the right number have a text, which stands for them alone; others are refused by
    the [struct.unpack] of [netaddr]. *)
Class AddressLaws `{Addresses} := {
  text_of_bin v b :
    length b = addr_size v → Forall is_byte b →
    ∃ a, bin_to_text v b = Ret a ∧ text_to_bin v a = Ret b ∧ valid_ip v a = true;
  text_refused v b : length b ≠ addr_size v → bin_to_text v b = Raise StructError;
  text_as_ipv6 b a : bin_to_text IPv6 b = Ret a → as_ipv6 a = a;
  text_colon v b a : bin_to_text v b = Ret a → has_colon a = bool_decide (v = IPv6)
}.

(** The text [a] is the canonical one of the bytes [b]. *)
Definition address_of `{Addresses} (v : ip_version) (a : string) (b : bytes) : Prop :=
  text_to_bin v a = Ret b ∧ bin_to_text v b = Ret a ∧ length b = addr_size v ∧ Forall is_byte b.

(** [pad(binary, len_)] *)
Definition pad (binary : bytes) (len : nat) : outcome pyexn bytes :=
  if (length binary <=? len)%nat then Ret (binary ++ replicate (len - length binary) 0)
  else Raise AssertionError.

(** ** Route distinguishers *)

Inductive route_distinguisher :=
| TwoOctetAsRD (admin assigned : Z)
| IPv4AddressRD (admin : string) (assigned : Z)
| FourOctetAsRD (admin assigned : Z).

Definition rd_type (rd : route_distinguisher) : Z :=
  match rd with TwoOctetAsRD _ _ => 0 | IPv4AddressRD _ _ => 1 | FourOctetAsRD _ _ => 2 end.

Section rd.
Context `{Addresses}.

Definition rd_serialize_value (rd : route_distinguisher) : outcome pyexn bytes :=
  match rd with
  | TwoOctetAsRD admin assigned => pack [(2%nat, admin); (4%nat, assigned)]
  | IPv4AddressRD admin assigned =>
      b ← text_to_bin IPv4 admin;
      n ← pack [(2%nat, assigned)];
      Ret (pack_s 4 b ++ n)
  | FourOctetAsRD admin assigned => pack [(4%nat, admin); (2%nat, assigned)]
  end.

Definition rd_serialize (rd : route_distinguisher) : outcome pyexn bytes :=
  value ← rd_serialize_value rd;
  t ← pack [(2%nat, rd_type rd)];
  Ret (t ++ value).

(** A type that is not registered has no class, and [None] no method. *)
Definition rd_parser (buf : bytes) : outcome pyexn route_distinguisher :=
  if negb (length buf =? 8)%nat then Raise AssertionError else
  '(type, rest) ← unpack_field 2 buf;
  if type =? 0 then
    '(admin, rest) ← unpack_field 2 rest; '(assigned, _) ← unpack_field 4 rest; Ret (TwoOctetAsRD admin assigned)
  else if type =? 1 then
    '(b, rest) ← unpack_s 4 rest; '(assigned, _) ← unpack_field 2 rest;
    admin ← bin_to_text IPv4 b;
    Ret (IPv4AddressRD admin assigned)
  else if type =? 2 then
    '(admin, rest) ← unpack_field 4 rest; '(assigned, _) ← unpack_field 2 rest; Ret (FourOctetAsRD admin assigned)
  else Raise AttributeError.
End rd.

(** [from_str], after the text is split at its colon; the part before it has a dot or is a
    number. *)
Definition rd_from_str (first : string + Z) (second : Z) : route_distinguisher :=
  match first with
  | inl admin => IPv4AddressRD admin second
  | inr admin => if Z.shiftl 1 16 <? admin then FourOctetAsRD admin second else TwoOctetAsRD admin second
  end.

Definition formatted_rd (rd : route_distinguisher) : string :=
  match rd with
  | TwoOctetAsRD admin assigned | FourOctetAsRD admin assigned => pretty admin +:+ ":" +:+ pretty assigned
  | IPv4AddressRD admin assigned => admin +:+ ":" +:+ pretty assigned
  end.

(** ** Prefixes *)

(** The parser and the serializer of the NLRI classes that are not modelled. *)
Class ForeignNlri := {
  foreign : Type;
  foreign_rf : foreign → Z;
  foreign_parser : Z → bytes → outcome pyexn (foreign * bytes);
  foreign_serialize : foreign → outcome pyexn (foreign * bytes);
  foreign_text : foreign → string
}.

(** The length counts the bits of labels and route distinguisher too. *)
Inductive addr_prefix `{ForeignNlri} :=
| IPAddrPrefix (v : ip_version) (length : nat) (addr : string)
| LabelledIPAddrPrefix (v : ip_version) (length : nat) (labels : list Z) (addr : string)
| LabelledVPNIPAddrPrefix (v : ip_version) (length : nat) (labels : list Z) (rd : route_distinguisher) (addr : string)
| BinAddrPrefix (length : nat) (addr : bytes)
| ForeignPrefix (f : foreign).

(** The classes by address family. *)
Inductive addr_class := AcPlain (v : ip_version) | AcLabelled (v : ip_version) | AcVpn (v : ip_version) | AcRtc | AcForeign (rf : Z) | AcBin.

Definition _get_addr_class (afi safi : Z) : addr_class :=
  let rf := route_family afi safi in
  if rf =? RF_IPv4_UC then AcPlain IPv4
  else if rf =? RF_IPv6_UC then AcPlain IPv6
  else if rf =? RF_IPv4_MPLS then AcLabelled IPv4
  else if rf =? RF_IPv6_MPLS then AcLabelled IPv6
  else if rf =? RF_IPv4_VPN then AcVpn IPv4
  else if rf =? RF_IPv6_VPN then AcVpn IPv6
  else if rf =? RF_RTC_UC then AcRtc
  else if bool_decide (rf ∈ [RF_L2_EVPN; RF_IPv4_FLOWSPEC; RF_IPv6_FLOWSPEC; RF_VPNv4_FLOWSPEC; RF_VPNv6_FLOWSPEC; RF_L2VPN_FLOWSPEC])
  then AcForeign rf
  else AcBin.

Section prefix.
Context `{Addresses} `{ForeignNlri}.

(** The constructors with labels, called with the length of the address. *)
Definition new_labelled (v : ip_version) (length : nat) (labels : list Z) (addr : string) : outcome pyexn addr_prefix :=
  let len := (length + 24 * List.length labels)%nat in
  if negb (24 * List.length labels <? len)%nat then Raise AssertionError else Ret (LabelledIPAddrPrefix v len labels addr).

Definition new_labelled_vpn (v : ip_version) (length : nat) (labels : list Z) (rd : route_distinguisher) (addr : string) :
    outcome pyexn addr_prefix :=
  let len := (length + 24 * List.length labels)%nat in
  if negb (24 * List.length labels <? len)%nat then Raise AssertionError else Ret (LabelledVPNIPAddrPrefix v (len + 64) labels rd addr).

(** [_IPAddrPrefix] and [_IP6AddrPrefix]. *)
Definition ip_prefix_from_bin (v : ip_version) (addr : bytes) : outcome pyexn string :=
  b ← pad addr (addr_size v);
  bin_to_text v b.

(** [_VPNAddrPrefix] *)
Definition vpn_prefix_to_bin (v : ip_version) (rd : route_distinguisher) (addr : string) : outcome pyexn bytes :=
  binrd ← rd_serialize rd;
  b ← text_to_bin v addr;
  Ret (binrd ++ b).

Definition vpn_prefix_from_bin (v : ip_version) (binaddr : bytes) : outcome pyexn (route_distinguisher * string) :=
  rd ← rd_parser (take 8 binaddr);
  a ← ip_prefix_from_bin v (drop 8 binaddr);
  Ret (rd, a).

(** [_LabelledAddrPrefix] *)
Definition _WITHDRAW_LABEL : Z := 0x800000.

Definition _label_to_bin (label : Z) : bytes :=
  [Z.shiftr (Z.land label 0xff0000) 16; Z.shiftr (Z.land label 0x00ff00) 8; Z.land label 0x0000ff].

(** [labels[-1] |= 1] unless it is the label of withdrawals. *)
Fixpoint mark_bottom (labels : list Z) : list Z :=
  match labels with
  | [] => []
  | [l] => [if l =? _WITHDRAW_LABEL then l else Z.lor l 1]
  | l :: ls => l :: mark_bottom ls
  end.

Definition labels_to_bin (labels : list Z) : bytes :=
  mjoin (_label_to_bin <$> mark_bottom ((λ x, Z.shiftl x 4) <$> labels)).

(** The loop that reads labels up to the bottom of the stack, [None] when the bytes end first. *)
Fixpoint read_labels (bin : bytes) : option (list Z * bytes) :=
  match bin with
  | b1 :: b2 :: b3 :: rest =>
      let label := Z.lor (Z.lor (Z.shiftl b1 16) (Z.shiftl b2 8)) b3 in
      if Z.testbit label 0 || (label =? _WITHDRAW_LABEL) then Some ([label], rest)
      else
        match read_labels rest with
        | Some (labels, rest) => Some (label :: labels, rest)
        | None => None
        end
  | _ => None
  end.

Definition _has_no_label (bin : bytes) : bool :=
  match read_labels bin with
  | Some (labels, _) => negb (3 * length labels <? length bin)%nat
  | None => true
  end.

Definition labelled_from_bin {A} (prefix_from_bin : bytes → outcome pyexn A) (addr : bytes) : outcome pyexn (list Z * A) :=
  if _has_no_label addr then
    a ← prefix_from_bin addr;
    Ret ([], a)
  else
    match read_labels addr with
    | Some (labels, rest) =>
        a ← prefix_from_bin rest;
        Ret ((λ l, Z.shiftr l 4) <$> labels, a)
    | None => Raise StructError
    end.

(** [_AddrPrefix.serialize], with the class's [_to_bin] and [_from_bin]: the address is cut to
    the length, in bits, and read back into the object. *)
Definition byte_length (length : nat) : nat := ((length + 7) / 8)%nat.

Definition cut (length : nat) (bin_addr : bytes) : outcome pyexn bytes :=
  if (length mod 8 =? 0)%nat then Ret (take (byte_length length) bin_addr)
  else
    match bin_addr !! (byte_length length - 1)%nat with
    | Some b => Ret (take (byte_length length - 1) bin_addr ++ [Z.land b (Z.shiftr 0xff00 (Z.of_nat (length mod 8)))])
    | None => Raise IndexError
    end.

Definition serialize_prefix {A} (length : nat) (to_bin : outcome pyexn bytes) (from_bin : bytes → outcome pyexn A) :
    outcome pyexn (A * bytes) :=
  bin_addr ← to_bin;
  bin_addr ← cut length bin_addr;
  addr ← from_bin bin_addr;
  hdr ← pack [(1%nat, Z.of_nat length)];
  Ret (addr, hdr ++ bin_addr).

Definition serialize (n : addr_prefix) : outcome pyexn (addr_prefix * bytes) :=
  match n with
  | IPAddrPrefix v length addr =>
      '(addr, bs) ← serialize_prefix length (text_to_bin v addr) (ip_prefix_from_bin v);
      Ret (IPAddrPrefix v length addr, bs)
  | LabelledIPAddrPrefix v length labels addr =>
      '((labels, addr), bs) ← serialize_prefix length
        (b ← text_to_bin v addr; Ret (labels_to_bin labels ++ b)) (labelled_from_bin (ip_prefix_from_bin v));
      Ret (LabelledIPAddrPrefix v length labels addr, bs)
  | LabelledVPNIPAddrPrefix v length labels rd addr =>
      '((labels, (rd, addr)), bs) ← serialize_prefix length
        (b ← vpn_prefix_to_bin v rd addr; Ret (labels_to_bin labels ++ b)) (labelled_from_bin (vpn_prefix_from_bin v));
      Ret (LabelledVPNIPAddrPrefix v length labels rd addr, bs)
  | BinAddrPrefix length addr =>
      '(addr, bs) ← serialize_prefix length (Ret addr) Ret;
      Ret (BinAddrPrefix length addr, bs)
  | ForeignPrefix f =>
      '(f, bs) ← foreign_serialize f;
      Ret (ForeignPrefix f, bs)
  end.

(** [_AddrPrefix.parser]; a buffer that ends within the address is taken as far as it goes. *)
Definition parse_prefix {A} (from_bin : bytes → outcome pyexn A) (buf : bytes) : outcome pyexn (nat * A * bytes) :=
  '(len, rest) ← unpack_field 1 buf;
  let length := Z.to_nat len in
  addr ← from_bin (take (byte_length length) rest);
  Ret (length, addr, drop (byte_length length) rest).

(** The parser of [RouteTargetMembershipNLRI] passes its constructor an object of the base class
    of extended communities, which is not a text. *)
Definition rtc_parser (buf : bytes) : outcome pyexn (addr_prefix * bytes) :=
  '(_, _) ← unpack_field 4 buf;
  Raise ValueError.

(** The parsers, with the assertions of the constructors. *)
Definition parser (c : addr_class) (buf : bytes) : outcome pyexn (addr_prefix * bytes) :=
  match c with
  | AcPlain v =>
      '(length, addr, rest) ← parse_prefix (ip_prefix_from_bin v) buf;
      Ret (IPAddrPrefix v length addr, rest)
  | AcLabelled v =>
      '(length, (labels, addr), rest) ← parse_prefix (labelled_from_bin (ip_prefix_from_bin v)) buf;
      if negb (24 * List.length labels <? length)%nat then Raise AssertionError else
      Ret (LabelledIPAddrPrefix v length labels addr, rest)
  | AcVpn v =>
      '(length, (labels, (rd, addr)), rest) ← parse_prefix (labelled_from_bin (vpn_prefix_from_bin v)) buf;
      if negb (24 * List.length labels <? length)%nat then Raise AssertionError else
      if negb (64 <? length)%nat then Raise AssertionError else
      Ret (LabelledVPNIPAddrPrefix v length labels rd addr, rest)
  | AcRtc => rtc_parser buf
  | AcForeign rf =>
      '(f, rest) ← foreign_parser rf buf;
      Ret (ForeignPrefix f, rest)
  | AcBin =>
      '(length, addr, rest) ← parse_prefix Ret buf;
      Ret (BinAddrPrefix length addr, rest)
  end.

(** The class of a prefix, and its text. *)
Definition class_of (n : addr_prefix) : addr_class :=
  match n with
  | IPAddrPrefix v _ _ => AcPlain v
  | LabelledIPAddrPrefix v _ _ _ => AcLabelled v
  | LabelledVPNIPAddrPrefix v _ _ _ _ => AcVpn v
  | BinAddrPrefix _ _ => AcBin
  | ForeignPrefix f => AcForeign (foreign_rf f)
  end.

(** [formatted_nlri_str]; the classes for labels without VPN have none. *)
Definition formatted_nlri_str (n : addr_prefix) : outcome pyexn string :=
  match n with
  | IPAddrPrefix _ length addr => Ret (addr +:+ "/" +:+ pretty length)
  | LabelledVPNIPAddrPrefix _ length labels rd addr =>
      (* [self.addr[:-2]] is a tuple of one element, the list of labels *)
      Ret (formatted_rd rd +:+ ":" +:+ addr +:+ "/" +:+ pretty (Z.of_nat length - 64 - 24))
  | ForeignPrefix f => Ret (foreign_text f)
  | LabelledIPAddrPrefix _ _ _ _ | BinAddrPrefix _ _ => Raise AttributeError
  end.
End prefix.

(** ** Laws of the classes that are not modelled *)

Class ForeignLaws `{ForeignNlri} := {
  foreign_ok : foreign → Prop;
  foreign_roundtrip f :
    foreign_ok f → ∃ bs, foreign_serialize f = Ret (f, bs) ∧ Forall is_byte bs ∧ bs ≠ [] ∧
      ∀ rest, foreign_parser (foreign_rf f) (bs ++ rest) = Ret (f, rest);
  foreign_progress rf buf f rest : foreign_parser rf buf = Ret (f, rest) → (length rest < length buf)%nat
}.

(** ** Cutting *)

Lemma byte_length_add k l : byte_length (8 * k + l) = (k + byte_length l)%nat.
Proof.
  unfold byte_length. replace (8 * k + l + 7)%nat with (l + 7 + k * 8)%nat by lia. rewrite Nat.div_add by lia. lia.
Qed.

Lemma byte_length_pos l : (l mod 8 ≠ 0)%nat → (0 < byte_length l)%nat.
Proof. intros H. unfold byte_length. apply Nat.div_str_pos. assert (l ≠ 0)%nat by (intros ->; done). lia. Qed.

Lemma byte_length_le l n : (l ≤ 8 * n)%nat → (byte_length l ≤ n)%nat.
Proof. intros H. unfold byte_length. assert ((l + 7) / 8 < S n)%nat; [apply Nat.Div0.div_lt_upper_bound; lia|lia]. Qed.

Lemma length_cut l bin c : cut l bin = Ret c → (byte_length l ≤ length bin)%nat → length c = byte_length l.
Proof.
  unfold cut. intros H Hl. destruct (Nat.eqb_spec (l mod 8) 0) as [E|E]; [simplify_eq; rewrite length_take; lia|].
  destruct (bin !! _) as [b|] eqn:Eb; [|done]. simplify_eq. rewrite length_app, length_take. cbn [List.length].
  pose proof (byte_length_pos l E). lia.
Qed.

Lemma cut_total l bin : (byte_length l ≤ length bin)%nat → ∃ c, cut l bin = Ret c.
Proof.
  intros Hl. unfold cut. destruct (Nat.eqb_spec (l mod 8) 0) as [E|E]; [by eexists|].
  pose proof (byte_length_pos l E). destruct (lookup_lt_is_Some_2 bin (byte_length l - 1)%nat) as [b ->]; [lia|by eexists].
Qed.

Lemma cut_bytes l bin c : Forall is_byte bin → cut l bin = Ret c → Forall is_byte c.
Proof.
  intros Hb. unfold cut. destruct (Nat.eqb_spec (l mod 8) 0); [intros [= <-]; by apply Forall_take|].
  destruct (bin !! _) as [b|] eqn:E; [|done]. intros [= <-]. apply Forall_app. split; [by apply Forall_take|].
  apply Forall_singleton. eapply Forall_lookup_1 in Hb; [|done]. unfold is_byte in *.
  change 256 with (2 ^ 8). rewrite <- (Z.mod_small b (2 ^ 8)), <- Z.land_ones, <- Z.land_assoc, (Z.land_comm (Z.ones 8)), Z.land_assoc,
    Z.land_ones by lia. apply Z.mod_pos_bound. lia.
Qed.

(** Labels and route distinguishers are not cut. *)
Lemma cut_app k l p b :
  length p = k → cut (8 * k + l) (p ++ b) = c ← cut l b; Ret (p ++ c).
Proof.
  intros Hp. unfold cut. rewrite byte_length_add.
  replace ((8 * k + l) mod 8)%nat with (l mod 8)%nat by (rewrite Nat.add_comm, Nat.mul_comm, Nat.Div0.mod_add; done).
  destruct (Nat.eqb_spec (l mod 8) 0) as [E|E].
  - cbn. rewrite take_app_add'; done.
  - pose proof (byte_length_pos l E). replace (k + byte_length l - 1)%nat with (k + (byte_length l - 1))%nat by lia.
    rewrite lookup_app_r by lia. replace (k + (byte_length l - 1) - length p)%nat with (byte_length l - 1)%nat by lia.
    destruct (b !! _) as [x|]; [|done]. cbn. by rewrite take_app_add', app_assoc.
Qed.

(** A class whose [_from_bin] reads what is left of [_to_bin]. *)
Lemma prefix_roundtrip {A} (from_bin : bytes → outcome pyexn A) l bin c a :
  (l < 256)%nat → (byte_length l ≤ length bin)%nat → cut l bin = Ret c → from_bin c = Ret a →
  serialize_prefix l (Ret bin) from_bin = Ret (a, be_bytes 1 (Z.of_nat l) ++ c) ∧
  ∀ rest, parse_prefix from_bin ((be_bytes 1 (Z.of_nat l) ++ c) ++ rest) = Ret (l, a, rest).
Proof.
  intros Hl Hlen Hc Ha. pose proof (length_cut _ _ _ Hc Hlen) as Hlc. split.
  - unfold serialize_prefix. cbn [mbind outcome_bind]. rewrite Hc. cbn [mbind outcome_bind]. rewrite Ha. cbn [mbind outcome_bind pack].
    rewrite pack_field_ok by (cbn; lia). cbn [mbind outcome_bind]. by rewrite app_nil_r.
  - intros rest. unfold parse_prefix. rewrite <- app_assoc, unpack_field_app by apply length_be_bytes.
    rewrite be_value_bytes by (cbn; lia). cbn [mbind outcome_bind]. rewrite Nat2Z.id.
    rewrite take_app_length', drop_app_length' by done. by rewrite Ha.
Qed.

Lemma parse_prefix_progress {A} (from_bin : bytes → outcome pyexn A) buf l a rest :
  parse_prefix from_bin buf = Ret (l, a, rest) → (length rest < length buf)%nat.
Proof.
  unfold parse_prefix. destruct (unpack_field 1 buf) as [[len r]|] eqn:E; [|done]. cbn [mbind outcome_bind].
  apply unpack_field_progress in E. destruct (from_bin _); [|done]. cbn. intros [= _ _ <-]. rewrite length_drop. lia.
Qed.

(** ** Labels *)

(** Labels have 20 bits; the one that ends a stack when withdrawn is at its bottom only. *)
Definition labels_ok (labels : list Z) : Prop :=
  ∃ above bottom, labels = above ++ [bottom] ∧ Forall (λ l, 0 ≤ l < 2 ^ 20 ∧ l ≠ 0x80000) above ∧ 0 ≤ bottom < 2 ^ 20.

Lemma label_bytes l :
  0 ≤ l < 2 ^ 24 →
  ∃ b1 b2 b3, _label_to_bin l = [b1; b2; b3] ∧ Forall is_byte [b1; b2; b3] ∧
    Z.lor (Z.lor (Z.shiftl b1 16) (Z.shiftl b2 8)) b3 = l.
Proof.
  intros Hl. unfold _label_to_bin. eexists _, _, _. split; [reflexivity|].
  change 0xff0000 with (Z.shiftl (Z.ones 8) 16). change 0x00ff00 with (Z.shiftl (Z.ones 8) 8). change 0x0000ff with (Z.shiftl (Z.ones 8) 0).
  rewrite !land_field by lia. change (2 ^ 16) with 65536. change (2 ^ 8) with 256. change (2 ^ 0) with 1.
  rewrite !Z.shiftr_div_pow2 by lia. change (2 ^ 16) with 65536. change (2 ^ 8) with 256. change (2 ^ 24) with 16777216 in Hl.
  rewrite !Z.div_mul by lia. rewrite Z.div_1_r, Z.mul_1_r.
  assert (∀ x, 0 ≤ x mod 256 < 256) as Hm by (intros; by apply Z.mod_pos_bound).
  split; [repeat (constructor; [apply Hm|]); constructor|].
  change 16 with (8 + 8). rewrite <- Z.shiftl_shiftl, <- Z.shiftl_lor by lia.
  rewrite (lor_shifted (l / 65536 mod 256) (l / 256 mod 256) 8) by (change (2 ^ 8) with 256; first [lia|apply Hm]).
  rewrite lor_shifted by (change (2 ^ 8) with 256; first [lia|apply Hm]). change (2 ^ 8) with 256.
  rewrite (Z.mod_small (l / 65536)) by (split; [apply Z.div_pos; lia|apply Z.div_lt_upper_bound; lia]).
  change 65536 with (256 * 256). rewrite <- (Z.div_div l 256 256) by lia. pose proof (Z.div_mod (l / 256) 256). pose proof (Z.div_mod l 256). lia.
Qed.

(** A label in the stream: four bits after it, of which the lowest marks the bottom. *)
Lemma shifted_label x b : 0 ≤ x < 2 ^ 20 → 0 ≤ b < 2 →
  let l := x * 16 + b in 0 ≤ l < 2 ^ 24 ∧ Z.shiftr l 4 = x ∧ Z.testbit l 0 = (b =? 1).
Proof.
  intros Hx Hb l. subst l. change (2 ^ 20) with 1048576 in Hx. change (2 ^ 24) with 16777216. split; [lia|].
  rewrite Z.shiftr_div_pow2 by lia. change (2 ^ 4) with 16. rewrite Z.div_add_l, Z.div_small by lia. split; [lia|].
  rewrite Z.bit0_odd, Z.odd_add, Z.odd_mul, andb_false_r, xorb_false_l. assert (b = 0 ∨ b = 1) as [-> | ->] by lia; done.
Qed.

Lemma read_label_step l rest :
  0 ≤ l < 2 ^ 24 →
  read_labels (_label_to_bin l ++ rest) =
    if Z.testbit l 0 || (l =? _WITHDRAW_LABEL) then Some ([l], rest)
    else match read_labels rest with Some (labels, rest) => Some (l :: labels, rest) | None => None end.
Proof. intros Hl. destruct (label_bytes l Hl) as (b1 & b2 & b3 & E & _ & El). rewrite E. cbn [app read_labels]. by rewrite El. Qed.

Lemma mark_bottom_snoc ls l : mark_bottom (ls ++ [l]) = ls ++ [if l =? _WITHDRAW_LABEL then l else Z.lor l 1].
Proof. induction ls as [|x ls IH]; [done|]. cbn [app mark_bottom]. rewrite IH. by destruct ls. Qed.

(** The label at the bottom as it is written. *)
Definition bottom_label (x : Z) : Z := if x =? 0x80000 then x * 16 + 0 else x * 16 + 1.

Lemma labels_to_bin_snoc above bottom :
  0 ≤ bottom < 2 ^ 20 →
  labels_to_bin (above ++ [bottom]) = mjoin (_label_to_bin <$> ((λ x, x * 16) <$> above)) ++ _label_to_bin (bottom_label bottom).
Proof.
  intros Hb. unfold labels_to_bin. rewrite fmap_app. cbn [fmap list_fmap]. rewrite mark_bottom_snoc, fmap_app, join_app.
  assert (∀ x, Z.shiftl x 4 = x * 16) as Hs by (intros; by rewrite Z.shiftl_mul_pow2 by lia).
  f_equal; [do 2 f_equal; apply list_fmap_ext; intros; apply Hs|]. cbn [fmap list_fmap]. unfold mjoin. cbn [list_join]. rewrite app_nil_r. f_equal.
  unfold bottom_label. rewrite Hs. change _WITHDRAW_LABEL with (0x80000 * 16).
  destruct (Z.eqb_spec bottom 0x80000) as [-> | Hne]; [done|]. rewrite (proj2 (Z.eqb_neq _ _)) by lia.
  rewrite <- (Hs bottom) at 1. rewrite lor_shifted by lia. done.
Qed.

Lemma labels_written labels :
  labels_ok labels →
  ∃ marked, Forall is_byte (labels_to_bin labels) ∧ length (labels_to_bin labels) = (3 * length labels)%nat ∧
    length marked = length labels ∧ (λ l, Z.shiftr l 4) <$> marked = labels ∧
    ∀ rest, read_labels (labels_to_bin labels ++ rest) = Some (marked, rest).
Proof.
  intros (above & bottom & -> & Ha & Hb). rewrite labels_to_bin_snoc by done.
  exists (((λ x, x * 16) <$> above) ++ [bottom_label bottom]).
  assert (0 ≤ bottom_label bottom < 2 ^ 24 ∧ Z.shiftr (bottom_label bottom) 4 = bottom ∧
    Z.testbit (bottom_label bottom) 0 || (bottom_label bottom =? _WITHDRAW_LABEL) = true) as (Hl & Hs & Ht).
  { unfold bottom_label. destruct (Z.eqb_spec bottom 0x80000) as [-> | Hne]; [done|].
    destruct (shifted_label bottom 1 Hb ltac:(lia)) as (? & ? & ->). split; [done|by split]. }
  destruct (label_bytes _ Hl) as (b1 & b2 & b3 & E & Hby & _).
  induction Ha as [|x above [Hx Hw] _ IH].
  { cbn [fmap list_fmap app]. unfold mjoin. cbn [list_join app]. rewrite E. split_and!; [done..|cbn; by rewrite Hs|].
    intros rest. rewrite <- E, read_label_step by done. by rewrite Ht. }
  destruct IH as (IH1 & IH2 & IH3 & IH4 & IH5).
  destruct (shifted_label x 0 Hx ltac:(lia)) as (Hx' & Hxs & Hxt). rewrite Z.add_0_r in *.
  destruct (label_bytes _ Hx') as (c1 & c2 & c3 & Ec & Hcb & _).
  rewrite <- app_comm_cons, !fmap_cons.
  change (mjoin (_label_to_bin (x * 16) :: ?l)) with (_label_to_bin (x * 16) ++ mjoin l). rewrite <- app_assoc, <- app_comm_cons, Ec. split_and!.
  - apply Forall_app. by split.
  - rewrite length_app, IH2. cbn [length]. rewrite !length_app. cbn [length]. lia.
  - cbn [length]. by rewrite IH3.
  - by rewrite fmap_cons, Hxs, IH4.
  - intros rest. rewrite <- app_assoc, <- Ec, read_label_step, IH5 by done. rewrite Hxt. change _WITHDRAW_LABEL with (0x80000 * 16).
    by rewrite (proj2 (Z.eqb_neq (x * 16) _)) by lia.
Qed.

(** ** Round trip *)

Section roundtrip.
Context `{Addresses, !AddressLaws} `{ForeignNlri, !ForeignLaws}.

(** No bits of the address are beyond its length. *)
Definition address_fits (v : ip_version) (l : nat) (a : string) : Prop :=
  (l ≤ 8 * addr_size v)%nat ∧
  ∃ b c, address_of v a b ∧ cut l b = Ret c ∧ c ++ replicate (addr_size v - length c) 0 = b.

Definition rd_ok (rd : route_distinguisher) : Prop :=
  match rd with
  | TwoOctetAsRD admin assigned => 0 ≤ admin < 2 ^ 16 ∧ 0 ≤ assigned < 2 ^ 32
  | IPv4AddressRD admin assigned => (∃ b, address_of IPv4 admin b) ∧ 0 ≤ assigned < 2 ^ 16
  | FourOctetAsRD admin assigned => 0 ≤ admin < 2 ^ 32 ∧ 0 ≤ assigned < 2 ^ 16
  end.

Definition prefix_ok (n : addr_prefix) : Prop :=
  match n with
  | IPAddrPrefix v l a => address_fits v l a
  | LabelledIPAddrPrefix v l labels a =>
      (l < 256)%nat ∧ labels_ok labels ∧ ∃ l', (0 < l')%nat ∧ l = (24 * length labels + l')%nat ∧ address_fits v l' a
  | LabelledVPNIPAddrPrefix v l labels rd a =>
      (l < 256)%nat ∧ labels_ok labels ∧ rd_ok rd ∧ ∃ l', l = (24 * length labels + (64 + l'))%nat ∧ address_fits v l' a
  | BinAddrPrefix l b => (l < 256)%nat ∧ Forall is_byte b ∧ length b = byte_length l ∧ cut l b = Ret b
  | ForeignPrefix f => foreign_ok f
  end.

Lemma rd_roundtrip rd : rd_ok rd → ∃ bs, rd_serialize rd = Ret bs ∧ length bs = 8%nat ∧ Forall is_byte bs ∧ rd_parser bs = Ret rd.
Proof.
  intros Hrd.
  assert (∃ v, rd_serialize_value rd = Ret v ∧ length v = 6%nat ∧ Forall is_byte v ∧ rd_parser (be_bytes 2 (rd_type rd) ++ v) = Ret rd) as (v & E & Hl & Hb & Hp).
  { assert (∀ v, length v = 6%nat → rd_parser (be_bytes 2 (rd_type rd) ++ v) =
      if rd_type rd =? 0 then '(admin, rest) ← unpack_field 2 v; '(assigned, _) ← unpack_field 4 rest; Ret (TwoOctetAsRD admin assigned)
      else if rd_type rd =? 1 then
        '(b, rest) ← unpack_s 4 v; '(assigned, _) ← unpack_field 2 rest; admin ← bin_to_text IPv4 b; Ret (IPv4AddressRD admin assigned)
      else if rd_type rd =? 2 then '(admin, rest) ← unpack_field 4 v; '(assigned, _) ← unpack_field 2 rest; Ret (FourOctetAsRD admin assigned)
      else Raise AttributeError) as Hp.
    { intros v Hv. unfold rd_parser. rewrite length_app, length_be_bytes, Hv. cbn [Nat.eqb Nat.add negb].
      rewrite unpack_field_app, be_value_bytes by (by rewrite ?length_be_bytes || by destruct rd). done. }
    destruct rd as [a n|a n|a n]; cbn [rd_serialize_value rd_type] in *.
    - destruct Hrd. exists (be_bytes 2 a ++ be_bytes 4 n). cbn [pack]. rewrite !pack_field_ok by done. cbn [mbind outcome_bind].
      rewrite app_nil_r, length_app, !length_be_bytes. split_and!; [done..|apply Forall_app; split; apply be_bytes_are_bytes|].
      rewrite Hp by (by rewrite length_app, !length_be_bytes). cbn [Z.eqb]. rewrite unpack_field_app, be_value_bytes by (done || apply length_be_bytes).
      cbn [mbind outcome_bind]. rewrite <- (app_nil_r (be_bytes 4 n)), unpack_field_app, be_value_bytes by (done || apply length_be_bytes). done.
    - destruct Hrd as [(b & Eb & Et & Hl & Hb) Hn]. rewrite Eb. exists (b ++ be_bytes 2 n). cbn [pack mbind outcome_bind]. rewrite pack_field_ok by done.
      cbn [mbind outcome_bind]. rewrite app_nil_r. cbn in Hl. unfold pack_s. rewrite Hl, take_ge, app_nil_r by lia.
      rewrite length_app, length_be_bytes, Hl. split_and!; [done..|apply Forall_app; split; [done|apply be_bytes_are_bytes]|].
      rewrite Hp by (by rewrite length_app, length_be_bytes, Hl). cbn [Z.eqb]. rewrite unpack_s_app by done.
      cbn [mbind outcome_bind]. rewrite <- (app_nil_r (be_bytes 2 n)), unpack_field_app, be_value_bytes by (done || apply length_be_bytes).
      cbn [mbind outcome_bind]. by rewrite Et.
    - destruct Hrd. exists (be_bytes 4 a ++ be_bytes 2 n). cbn [pack]. rewrite !pack_field_ok by done. cbn [mbind outcome_bind].
      rewrite app_nil_r, length_app, !length_be_bytes. split_and!; [done..|apply Forall_app; split; apply be_bytes_are_bytes|].
      rewrite Hp by (by rewrite length_app, !length_be_bytes). cbn [Z.eqb]. rewrite unpack_field_app, be_value_bytes by (done || apply length_be_bytes).
      cbn [mbind outcome_bind]. rewrite <- (app_nil_r (be_bytes 2 n)), unpack_field_app, be_value_bytes by (done || apply length_be_bytes). done. }
  exists (be_bytes 2 (rd_type rd) ++ v). unfold rd_serialize. rewrite E. cbn [mbind outcome_bind pack].
  rewrite pack_field_ok by (by destruct rd). cbn [mbind outcome_bind]. rewrite app_nil_r, length_app, length_be_bytes, Hl.
  split_and!; [done..|apply Forall_app; split; [apply be_bytes_are_bytes|done]|done].
Qed.

Lemma fits_reads v l a :
  address_fits v l a →
  ∃ b c, text_to_bin v a = Ret b ∧ (byte_length l ≤ length b)%nat ∧ cut l b = Ret c ∧ Forall is_byte c ∧
    ip_prefix_from_bin v c = Ret a ∧ (l < 256)%nat.
Proof.
  intros (Hl & b & c & (Eb & Et & Hlb & Hb) & Hc & Hpad). exists b, c.
  assert (byte_length l ≤ length b)%nat as Hle by (rewrite Hlb; by apply byte_length_le).
  split_and!; [done..|by eapply cut_bytes| |destruct v; cbn in Hl; lia].
  unfold ip_prefix_from_bin, pad. rewrite (length_cut _ _ _ Hc Hle), (proj2 (Nat.leb_le _ _)) by lia. cbn [mbind outcome_bind].
  by rewrite <- (length_cut _ _ _ Hc Hle), Hpad.
Qed.

(** Labels are read back in front of what is not empty. *)
Lemma labelled_reads {A} (from_bin : bytes → outcome pyexn A) labels c a :
  labels_ok labels → (0 < length c)%nat → from_bin c = Ret a →
  labelled_from_bin from_bin (labels_to_bin labels ++ c) = Ret (labels, a).
Proof.
  intros Hls Hc Ha. destruct (labels_written labels Hls) as (marked & _ & Hl & Hm & Es & Hr).
  unfold labelled_from_bin, _has_no_label. rewrite Hr, length_app, Hl, Hm, (proj2 (Nat.ltb_lt _ _)) by lia. cbn [negb].
  rewrite Ha. cbn [mbind outcome_bind]. by rewrite Es.
Qed.

Lemma cut_pos l b c : cut l b = Ret c → (byte_length l ≤ length b)%nat → (0 < l)%nat → (0 < length c)%nat.
Proof.
  intros Hc Hl Hpos. rewrite (length_cut _ _ _ Hc Hl). unfold byte_length. apply Nat.div_str_pos. lia.
Qed.

(** A class with labels in front of what another class writes. *)
Lemma labelled_roundtrip {A} (from_bin : bytes → outcome pyexn A) labels l b c a :
  (24 * length labels + l < 256)%nat → labels_ok labels → (0 < l)%nat → (byte_length l ≤ length b)%nat →
  cut l b = Ret c → from_bin c = Ret a →
  let len := (24 * length labels + l)%nat in
  let bs := be_bytes 1 (Z.of_nat len) ++ labels_to_bin labels ++ c in
  serialize_prefix len (Ret (labels_to_bin labels ++ b)) (labelled_from_bin from_bin) = Ret ((labels, a), bs) ∧
  ∀ rest, parse_prefix (labelled_from_bin from_bin) (bs ++ rest) = Ret (len, (labels, a), rest).
Proof.
  intros Hlt Hls Hpos Hb Hc Ha len bs. destruct (labels_written labels Hls) as (_ & _ & Hl & _).
  assert (len = 8 * (3 * length labels) + l)%nat as El by (subst len; lia).
  apply prefix_roundtrip; [done|rewrite El, byte_length_add, length_app, Hl; lia| |].
  - rewrite El, cut_app, Hc by done. done.
  - apply labelled_reads; [done| |done]. by eapply cut_pos.
Qed.

Lemma be_bytes_nonempty n z bs : (0 < n)%nat → be_bytes n z ++ bs ≠ [].
Proof. intros Hn E%app_eq_nil. destruct E as [E _]. apply (f_equal length) in E. rewrite length_be_bytes in E. cbn in E. lia. Qed.

(** A prefix without bits beyond its length is left as it is and read back. *)
Lemma nlri_roundtrip n :
  prefix_ok n →
  ∃ bs, serialize n = Ret (n, bs) ∧ Forall is_byte bs ∧ bs ≠ [] ∧ ∀ rest, parser (class_of n) (bs ++ rest) = Ret (n, rest).
Proof.
  destruct n as [v l a|v l labels a|v l labels rd a|l b|f]; cbn [prefix_ok serialize class_of parser].
  - intros Hf. destruct (fits_reads v l a Hf) as (b & c & Eb & Hle & Hc & Hby & Ha & Hl). rewrite Eb.
    destruct (prefix_roundtrip _ l b c a Hl Hle Hc Ha) as [Es Ep]. eexists. rewrite Es. split_and!; [done| |by apply be_bytes_nonempty; lia|].
    + apply Forall_app. split; [apply be_bytes_are_bytes|done].
    + intros rest. by rewrite Ep.
  - intros (Hlt & Hls & l' & Hpos & -> & Hf). destruct (fits_reads v l' a Hf) as (b & c & Eb & Hle & Hc & Hby & Ha & _). rewrite Eb.
    cbn [mbind outcome_bind]. destruct (labelled_roundtrip (ip_prefix_from_bin v) labels l' b c a Hlt Hls Hpos Hle Hc Ha) as [Es Ep].
    destruct (labels_written labels Hls) as (_ & Hlb & _).
    eexists. rewrite Es. split_and!; [done| |by apply be_bytes_nonempty; lia|].
    + rewrite !Forall_app. split_and!; [apply be_bytes_are_bytes|done..].
    + intros rest. rewrite Ep. cbn [mbind outcome_bind]. by rewrite (proj2 (Nat.ltb_lt _ _)) by lia.
  - intros (Hlt & Hls & Hrd & l' & -> & Hf). destruct (fits_reads v l' a Hf) as (b & c & Eb & Hle & Hc & Hby & Ha & _).
    destruct (rd_roundtrip rd Hrd) as (r & Er & Hlr & Hbr & Hpr).
    unfold vpn_prefix_to_bin. rewrite Er. cbn [mbind outcome_bind]. rewrite Eb. cbn [mbind outcome_bind].
    destruct (labelled_roundtrip (vpn_prefix_from_bin v) labels (64 + l') (r ++ b) (r ++ c) (rd, a)) as [Es Ep]; [done..|lia| | | |].
    { change (64 + l')%nat with (8 * 8 + l')%nat. rewrite byte_length_add, length_app. lia. }
    { change (64 + l')%nat with (8 * 8 + l')%nat. rewrite cut_app, Hc by done. done. }
    { unfold vpn_prefix_from_bin. rewrite take_app_length', drop_app_length', Hpr by done. cbn [mbind outcome_bind]. by rewrite Ha. }
    destruct (labels_written labels Hls) as (_ & Hlb & _).
    eexists. rewrite Es. split_and!; [done| |by apply be_bytes_nonempty; lia|].
    + rewrite !Forall_app. split_and!; [apply be_bytes_are_bytes|done..].
    + intros rest. rewrite Ep. cbn [mbind outcome_bind]. rewrite !(proj2 (Nat.ltb_lt _ _)) by (destruct Hls as (? & ? & -> & _); rewrite ?length_app; cbn [length]; lia).
      done.
  - intros (Hlt & Hby & Hl & Hc). destruct (prefix_roundtrip Ret l b b b Hlt ltac:(lia) Hc eq_refl) as [Es Ep].
    eexists. rewrite Es. split_and!; [done| |by apply be_bytes_nonempty; lia|].
    + apply Forall_app. split; [apply be_bytes_are_bytes|done].
    + intros rest. by rewrite Ep.
  - intros Hf. destruct (foreign_roundtrip f Hf) as (bs & E & Hby & Hne & Hp). exists bs. rewrite E. split_and!; [done..|].
    intros rest. by rewrite Hp.
Qed.

(** Every parser takes at least one byte. *)
Lemma parser_progress c buf n rest : parser c buf = Ret (n, rest) → (length rest < length buf)%nat.
Proof.
  destruct c as [v|v|v| |rf|]; cbn [parser]; unfold rtc_parser.
  - destruct (parse_prefix _ _) as [[[l a] r]|] eqn:E; [|done]. intros [= _ <-]. by eapply parse_prefix_progress.
  - destruct (parse_prefix _ _) as [[[l [ls a]] r]|] eqn:E; [|done]. cbn [mbind outcome_bind].
    case_match; [done|]. intros [= _ <-]. by eapply parse_prefix_progress.
  - destruct (parse_prefix _ _) as [[[l [ls [rd a]]] r]|] eqn:E; [|done]. cbn [mbind outcome_bind].
    case_match; [done|]. case_match; [done|]. intros [= _ <-]. by eapply parse_prefix_progress.
  - by destruct (unpack_field 4 buf) as [[? ?]|].
  - destruct (foreign_parser rf buf) as [[f r]|] eqn:E; [|done]. intros [= _ <-]. by eapply foreign_progress.
  - destruct (parse_prefix _ _) as [[[l a] r]|] eqn:E; [|done]. intros [= _ <-]. by eapply parse_prefix_progress.
Qed.
End roundtrip.

(** ** Concrete addresses *)

(** Addresses whose text has two letters for each byte, after a colon for IPv6, and no other
    NLRI classes. *)
Module PlainAddresses.
Definition letter (z : Z) : Ascii.ascii := Ascii.ascii_of_N (Z.to_N (97 + z)).
Definition value (c : Ascii.ascii) : Z := Z.of_N (Ascii.N_of_ascii c) - 97.

Fixpoint decode (l : list Ascii.ascii) : bytes :=
  match l with
  | c :: d :: l => value c * 16 + value d :: decode l
  | _ => []
  end.

Definition colon (v : ip_version) : list Ascii.ascii := match v with IPv4 => [] | IPv6 => [Ascii.ascii_of_N 58] end.
Definition letters (b : bytes) : list Ascii.ascii := mjoin ((λ z, [letter (z / 16); letter (z mod 16)]) <$> b).
Definition chars (v : ip_version) (b : bytes) : string := String.string_of_list_ascii (colon v ++ letters b).
Definition codes (v : ip_version) (s : string) : bytes := decode (drop (length (colon v)) (String.list_ascii_of_string s)).

Lemma value_letter z : 0 ≤ z < 16 → value (letter z) = z.
Proof. intros Hz. unfold value, letter. rewrite Ascii.N_ascii_embedding by lia. lia. Qed.

Lemma nibbles z : 0 ≤ z < 256 → 0 ≤ z / 16 < 16 ∧ 0 ≤ z mod 16 < 16.
Proof. intros Hz. split; [split; [apply Z.div_pos|apply Z.div_lt_upper_bound]|apply Z.mod_pos_bound]; lia. Qed.

Lemma decode_letters b : Forall is_byte b → decode (letters b) = b.
Proof.
  induction 1 as [|z b Hz _ IH]; [done|]. unfold is_byte in Hz.
  change (letters (z :: b)) with (letter (z / 16) :: letter (z mod 16) :: letters b). cbn [decode]. rewrite IH.
  destruct (nibbles z Hz). rewrite !value_letter by done.
  f_equal. pose proof (Z.div_mod z 16). lia.
Qed.

Lemma codes_chars v b : Forall is_byte b → codes v (chars v b) = b.
Proof.
  intros Hb. unfold codes, chars. rewrite String.list_ascii_of_string_of_list_ascii, drop_app_length. by apply decode_letters.
Qed.

Lemma colon_chars v b : Forall is_byte b → has_colon (chars v b) = bool_decide (v = IPv6).
Proof.
  intros Hb. unfold has_colon, chars. rewrite String.list_ascii_of_string_of_list_ascii. apply bool_decide_ext.
  assert (Ascii.ascii_of_N 58 ∉ letters b) as Hn.
  { induction Hb as [|z b Hz _ IH]; [by apply not_elem_of_nil|]. unfold is_byte in Hz.
    change (letters (z :: b)) with (letter (z / 16) :: letter (z mod 16) :: letters b). rewrite !not_elem_of_cons. split_and!; [| |done].
    all: destruct (nibbles z Hz); intros E; apply (f_equal value) in E; rewrite value_letter in E by done;
      change (value (Ascii.ascii_of_N 58)) with (-39) in E; lia. }
  rewrite elem_of_app. destruct v; cbn [colon]; rewrite ?elem_of_nil, ?list_elem_of_singleton; naive_solver.
Qed.

#[export] Instance addresses : Addresses := {|
  text_to_bin v s := if (length (codes v s) =? addr_size v)%nat then Ret (codes v s) else Raise (RyuException "AddrFormatError");
  bin_to_text v b :=
    if (length b =? addr_size v)%nat && forallb (λ z, (0 <=? z) && (z <? 256)) b then Ret (chars v b) else Raise StructError;
  valid_ip v s := (length (codes v s) =? addr_size v)%nat;
  as_ipv6 s := if has_colon s then s else chars IPv6 (replicate 10 0 ++ [255; 255] ++ codes IPv4 s)
|}.

Lemma all_bytes b : forallb (λ z, (0 <=? z) && (z <? 256)) b = true ↔ Forall is_byte b.
Proof.
  unfold is_byte. induction b as [|z b IH]; cbn; [by split|]. rewrite andb_true_iff, IH, Forall_cons. split; intros [H1 H2]; split; try done; lia.
Qed.

#[export] Instance address_laws : AddressLaws.
Proof.
  split.
  - intros v b Hl Hb. exists (chars v b). cbn -[has_colon chars]. by rewrite codes_chars, Hl, Nat.eqb_refl, (proj2 (all_bytes b)).
  - intros v b Hl. cbn -[has_colon chars]. by rewrite (proj2 (Nat.eqb_neq _ _)).
  - intros b a. cbn -[has_colon chars]. destruct (_ && _) eqn:E; [|done]. apply andb_true_iff in E as [_ E%all_bytes]. intros [= <-].
    by rewrite colon_chars.
  - intros v b a. cbn -[has_colon chars]. destruct (_ && _) eqn:E; [|done]. apply andb_true_iff in E as [_ E%all_bytes]. intros [= <-]. by apply colon_chars.
Defined.

#[export] Instance no_foreign : ForeignNlri := {|
  foreign := Empty_set; foreign_rf f := match f with end; foreign_parser _ _ := Raise StructError;
  foreign_serialize f := match f with end; foreign_text f := match f with end
|}.

#[export] Instance no_foreign_laws : ForeignLaws.
Proof. exists (λ _, True); [by intros []|done]. Defined.

Lemma address_of_chars v b : length b = addr_size v → Forall is_byte b → address_of v (chars v b) b.
Proof. intros Hl Hb. unfold address_of. cbn. by rewrite codes_chars, Hl, Nat.eqb_refl, (proj2 (all_bytes b)). Qed.
End PlainAddresses.

(** ** Faults *)

Module PrefixFaults.
Import PlainAddresses.

(** The bits after the length are not cleared: one prefix has many texts. *)
Example trailing_bits_distinguish :
  parser (AcPlain IPv4) [12; 10; 16] = Ret (IPAddrPrefix IPv4 12 (chars IPv4 [10; 16; 0; 0]), []) ∧
  parser (AcPlain IPv4) [12; 10; 31] = Ret (IPAddrPrefix IPv4 12 (chars IPv4 [10; 31; 0; 0]), []).
Proof. split; vm_compute; reflexivity. Qed.

(** A prefix that is cut off is completed with zeros. *)
Example truncated_prefix_accepted : parser (AcPlain IPv4) [24; 10] = Ret (IPAddrPrefix IPv4 24 (chars IPv4 [10; 0; 0; 0]), []).
Proof. vm_compute. reflexivity. Qed.

(** The default route with a label is read as a prefix made of the label. *)
Example labelled_default_route :
  serialize (LabelledIPAddrPrefix IPv4 24 [1] (chars IPv4 [0; 0; 0; 0])) =
    Ret (LabelledIPAddrPrefix IPv4 24 [] (chars IPv4 [0; 0; 17; 0]), [24; 0; 0; 17]) ∧
  parser (AcLabelled IPv4) [24; 0; 0; 17] = Ret (LabelledIPAddrPrefix IPv4 24 [] (chars IPv4 [0; 0; 17; 0]), []).
Proof. split; vm_compute; reflexivity. Qed.

(** With two labels the text of a VPN prefix has a length that is 24 too large. *)
Example vpn_text_of_two_labels :
  formatted_nlri_str (LabelledVPNIPAddrPrefix IPv4 (48 + 64 + 24) [100; 200] (TwoOctetAsRD 65000 1) "10.1.1.0")
    = Ret "65000:1:10.1.1.0/48".
Proof. vm_compute. reflexivity. Qed.

(** The AS number 65536 is taken for one of two octets, which cannot be written. *)
Example rd_of_65536 : rd_serialize (rd_from_str (inr 65536) 1) = Raise StructError.
Proof. vm_compute. reflexivity. Qed.

(** A route target can never be received. *)
Lemma rtc_never_received buf n rest : parser AcRtc buf ≠ Ret (n, rest).
Proof. cbn. unfold rtc_parser. by destruct (unpack_field 4 buf) as [[? ?]|]. Qed.
End PrefixFaults.
