(* ===== verification/BgpWire.v ===== *)
(** * The bytes of BGP path attributes

    Models the encoders and decoders of path attributes in [ryu/lib/packet/bgp.py]:
    [_PathAttribute] with its flags and lengths, the attribute classes, and the extended
    communities.  A decoder is a computation over the one class attribute that decoding changes,
    the format of AGGREGATOR; an encoder returns the object as it leaves it and the bytes.  The
    attribute [length] of the objects, which encoders ignore and set, is left out.  The extended
    communities of Ethernet VPNs and flow specifications stand behind [ForeignCommunities]. *)

From stdpp Require Import base list strings.
From Stdlib Require Import ZArith Lia.
From S2P Require Import Prelude Struct BgpDecision BgpAttr BgpOpen BgpPrefix.

Open Scope Z_scope.
Set Default Proof Using "Type*".

(** ** Loops over a buffer *)

(** [while buf: x, buf = p(buf); result.append(x)] *)
Fixpoint parse_all {St A} (p : bytes → M St pyexn Empty_set (A * bytes)) (fuel : nat) (buf : bytes) :
    M St pyexn Empty_set (list A) :=
  match buf with
  | [] => mret []
  | _ =>
      match fuel with
      | O => raise OutOfFuel
      | S fuel =>
          '(x, rest) ← p buf;
          xs ← parse_all p fuel rest;
          mret (x :: xs)
      end
  end.

(** [for x in l: buf += x.serialize()], with the objects afterwards. *)
Fixpoint serialize_all {A} (ser : A → outcome pyexn (A * bytes)) (l : list A) : outcome pyexn (list A * bytes) :=
  match l with
  | [] => Ret ([], [])
  | x :: l =>
      '(x, b) ← ser x;
      '(l, bs) ← serialize_all ser l;
      Ret (x :: l, b ++ bs)
  end.

(** The same for elements that are not changed. *)
Fixpoint serialize_list {A} (ser : A → outcome pyexn bytes) (l : list A) : outcome pyexn bytes :=
  match l with
  | [] => Ret []
  | x :: l => b ← ser x; bs ← serialize_list ser l; Ret (b ++ bs)
  end.

(** ** Objects *)

Class ForeignCommunities := {
  fcomm : Type;
  fcomm_parse : Z * Z → bytes → outcome pyexn fcomm;
  fcomm_serialize : fcomm → outcome pyexn bytes
}.

Inductive ext_community `{ForeignCommunities} :=
| TwoOctetAsSpecific (type subtype as_number local_administrator : Z)
| IPv4AddressSpecific (type subtype : Z) (ipv4_address : string) (local_administrator : Z)
| FourOctetAsSpecific (type subtype as_number local_administrator : Z)
| OpaqueCommunity (type subtype : Z) (opaque : bytes)
| Encapsulation (type subtype tunnel_type : Z)
| ForeignCommunity (type : Z) (c : fcomm)
| UnknownCommunity (type : Z) (value : bytes).

(** The number of bytes of an AS number, [as_pack_str], is kept with a path. *)
Inductive pmsi_tunnel_id :=
| TunnelIdUnknown (value : bytes)
| IngressReplication (tunnel_endpoint_ip : string).

Inductive attr_body `{ForeignNlri} `{ForeignCommunities} :=
| AOrigin (value : Z)
| AAsPath (as_size : nat) (value : list as_segment)
| ANextHop (value : string)
| AMultiExitDisc (value : Z)
| ALocalPref (value : Z)
| AAtomicAggregate
| AAggregator (as_number : Z) (addr : string)
| ACommunities (communities : list Z)
| AOriginatorId (value : string)
| AClusterList (value : list string)
| AMpReachNLRI (afi safi : Z) (next_hop_list : list string) (nlri : list addr_prefix)
| AMpUnreachNLRI (afi safi : Z) (withdrawn_routes : list addr_prefix)
| AExtendedCommunities (communities : list ext_community)
| AAs4Path (value : list as_segment)
| AAs4Aggregator (as_number : Z) (addr : string)
| APmsiTunnel (pmsi_flags tunnel_type : Z) (label : bytes) (tunnel_id : option pmsi_tunnel_id)
| AUnknown (type : Z) (value : bytes).

Record path_attr `{ForeignNlri} `{ForeignCommunities} := PathAttr { pa_flags : Z; pa_body : attr_body }.
Arguments PathAttr {_ _} _ _.
Arguments pa_flags {_ _} _.
Arguments pa_body {_ _} _.

Definition BGP_ATTR_FLAG_OPTIONAL : Z := Z.shiftl 1 7.
Definition BGP_ATTR_FLAG_TRANSITIVE : Z := Z.shiftl 1 6.
Definition BGP_ATTR_FLAG_EXTENDED_LENGTH : Z := Z.shiftl 1 4.

(** The size of the length, by the flag for long ones. *)
Definition length_size (flags : Z) : nat := if Z.land flags BGP_ATTR_FLAG_EXTENDED_LENGTH =? 0 then 1 else 2.

(** ** AS paths *)

Section as_path.
Definition _AS_SET : Z := 1.
Definition _AS_SEQUENCE : Z := 2.

(** The header of a segment, [!BB]. *)
Definition segment_header (buf : bytes) : outcome pyexn (Z * nat * bytes) :=
  '(type, rest) ← unpack_field 1 buf;
  '(num_as, rest) ← unpack_field 1 rest;
  Ret (type, Z.to_nat num_as, rest).

Fixpoint _is_valid_16bit_as_path (fuel : nat) (buf : bytes) : outcome pyexn bool :=
  match buf with
  | [] => Ret true
  | _ =>
      match fuel with
      | O => Raise OutOfFuel
      | S fuel =>
          '(type, num_as, rest) ← segment_header buf;
          if negb (type =? _AS_SET) && negb (type =? _AS_SEQUENCE) then Ret false
          else if (length rest <? num_as * 2)%nat then Ret false
          else _is_valid_16bit_as_path fuel (drop (num_as * 2) rest)
      end
  end.

Fixpoint read_numbers (size num : nat) (buf : bytes) : outcome pyexn (list Z * bytes) :=
  match num with
  | O => Ret ([], buf)
  | S num =>
      '(n, rest) ← unpack_field size buf;
      '(l, rest) ← read_numbers size num rest;
      Ret (n :: l, rest)
  end.

Fixpoint read_segments (fuel size : nat) (buf : bytes) : outcome pyexn (list as_segment) :=
  match buf with
  | [] => Ret []
  | _ =>
      match fuel with
      | O => Raise OutOfFuel
      | S fuel =>
          '(type, num_as, rest) ← segment_header buf;
          '(l, rest) ← read_numbers size num_as rest;
          seg ← (if type =? _AS_SET then Ret (AsSet (make_set l))
                 else if type =? _AS_SEQUENCE then Ret (AsSequence l) else Raise StructError);
          segs ← read_segments fuel size rest;
          Ret (seg :: segs)
      end
  end.

(** [parse_value]: AS4_PATH has four octets always, AS_PATH when two do not fit. *)
Definition parse_as_path (as4 : bool) (buf : bytes) : outcome pyexn (nat * list as_segment) :=
  two ← (if as4 then Ret false else _is_valid_16bit_as_path (length buf) buf);
  let size := if two : bool then 2%nat else 4%nat in
  segs ← read_segments (length buf) size buf;
  Ret (size, segs).

(** A set is written in the order of its list; segments without numbers are left out. *)
Definition serialize_segment (size : nat) (seg : as_segment) : outcome pyexn bytes :=
  let '(type, l) := match seg with AsSet l => (_AS_SET, l) | AsSequence l => (_AS_SEQUENCE, l) end in
  if bool_decide (l = []) then Ret []
  else pack ([(1%nat, type); (1%nat, Z.of_nat (length l))] ++ ((λ n, (size, n)) <$> l)).

Fixpoint serialize_as_path (size : nat) (segs : list as_segment) : outcome pyexn bytes :=
  match segs with
  | [] => Ret []
  | seg :: segs =>
      b ← serialize_segment size seg;
      bs ← serialize_as_path size segs;
      Ret (b ++ bs)
  end.
End as_path.

(** ** Extended communities *)

Section communities.
Context `{Addresses} `{ForeignCommunities}.

Definition TRANSITIVE : Z := 0x40.

(** The classes that are registered with a type and a subtype; the others are found by the type. *)
Definition foreign_community_types : list (Z * Z) :=
  [(6, 0); (6, 1); (6, 2); (0x80, 6); (0x80, 7); (0x80, 8); (0x80, 9); (8, 0xa); (8, 0xb)].

Definition parse_community_value (type : Z) (value : bytes) : outcome pyexn ext_community :=
  '(subtype, rest) ← unpack_field 1 value;
  let type_low := Z.land type (Z.lnot TRANSITIVE) in
  if bool_decide ((type_low, subtype) ∈ foreign_community_types) then
    c ← fcomm_parse (type_low, subtype) value; Ret (ForeignCommunity type c)
  else if (type_low =? 3) && (subtype =? 0x0c) then
    '(_, rest) ← unpack_s 4 rest; '(tunnel_type, _) ← unpack_field 2 rest; Ret (Encapsulation type subtype tunnel_type)
  else if type_low =? 0 then
    '(as_number, rest) ← unpack_field 2 rest; '(local, _) ← unpack_field 4 rest; Ret (TwoOctetAsSpecific type subtype as_number local)
  else if type_low =? 1 then
    '(addr, rest) ← unpack_s 4 rest; '(local, _) ← unpack_field 2 rest;
    a ← bin_to_text IPv4 addr;
    Ret (IPv4AddressSpecific type subtype a local)
  else if type_low =? 2 then
    '(as_number, rest) ← unpack_field 4 rest; '(local, _) ← unpack_field 2 rest; Ret (FourOctetAsSpecific type subtype as_number local)
  else if type_low =? 3 then
    '(opaque, _) ← unpack_s 6 rest; Ret (OpaqueCommunity type subtype opaque)
  else Ret (UnknownCommunity type (take 7 value)).

(** [_ExtendedCommunity.parse] *)
Definition parse_community (buf : bytes) : outcome pyexn (ext_community * bytes) :=
  '(type, rest) ← unpack_field 1 buf;
  '(value, rest) ← unpack_s 7 rest;
  c ← parse_community_value type value;
  Ret (c, rest).

Definition community_value (c : ext_community) : outcome pyexn bytes :=
  match c with
  | TwoOctetAsSpecific _ subtype as_number local => pack [(1%nat, subtype); (2%nat, as_number); (4%nat, local)]
  | IPv4AddressSpecific _ subtype addr local =>
      b ← text_to_bin IPv4 addr;
      h ← pack [(1%nat, subtype)];
      l ← pack [(2%nat, local)];
      Ret (h ++ pack_s 4 b ++ l)
  | FourOctetAsSpecific _ subtype as_number local => pack [(1%nat, subtype); (4%nat, as_number); (2%nat, local)]
  | OpaqueCommunity _ subtype opaque => h ← pack [(1%nat, subtype)]; Ret (h ++ pack_s 6 opaque)
  | Encapsulation _ subtype tunnel_type =>
      h ← pack [(1%nat, subtype)]; t ← pack [(2%nat, tunnel_type)]; Ret (h ++ replicate 4 0 ++ t)
  | ForeignCommunity _ c => fcomm_serialize c
  | UnknownCommunity _ value => Ret (pack_s 7 value)
  end.

Definition community_type (c : ext_community) : Z :=
  match c with
  | TwoOctetAsSpecific type _ _ _ | IPv4AddressSpecific type _ _ _ | FourOctetAsSpecific type _ _ _ | OpaqueCommunity type _ _
  | Encapsulation type _ _ | ForeignCommunity type _ | UnknownCommunity type _ => type
  end.

(** [_ExtendedCommunity.serialize] *)
Definition serialize_community (c : ext_community) : outcome pyexn bytes :=
  value ← community_value c;
  t ← pack [(1%nat, community_type c)];
  Ret (t ++ pack_s 7 value).
End communities.

(** ** Values *)

(** [while len(rest) >= 4] *)
Fixpoint words (buf : bytes) : list bytes :=
  match buf with
  | a :: b :: c :: d :: rest => [a; b; c; d] :: words rest
  | _ => []
  end.

(** [split_bin_with_len] *)
Fixpoint split_bin (fuel : nat) (buf : bytes) (unit_len : nat) : list bytes :=
  match fuel, buf with
  | S fuel, _ :: _ => take unit_len buf :: split_bin fuel (drop unit_len buf) unit_len
  | _, _ => []
  end.

(** [b[-n:]] *)
Definition last_bytes (n : nat) (b : bytes) : bytes := drop (length b - n) b.

Definition AFI_IP : Z := 1.
Definition AFI_IP6 : Z := 2.

Section values.
Context `{Addresses} `{ForeignNlri} `{ForeignCommunities}.

(** Decoding changes [BGPPathAttributeAggregator._VALUE_PACK_STR]: whether it is [!I4s]. *)
Abbreviation W := (M bool pyexn Empty_set).

Definition parse_next_hop (v : ip_version) (buf : bytes) (unit_len : nat) : outcome pyexn (list string) :=
  map_m (λ b, bin_to_text v (last_bytes (addr_size v) b)) (split_bin (length buf) buf unit_len).

Definition next_hops (afi safi : Z) (next_hop_bin : bytes) (next_hop_len : Z) : outcome pyexn (list string) :=
  let rf := route_family afi safi in
  if rf =? RF_IPv4_VPN then parse_next_hop IPv4 next_hop_bin 12
  else if rf =? RF_IPv6_VPN then parse_next_hop IPv6 next_hop_bin 24
  else if (afi =? AFI_IP) || ((rf =? RF_L2_EVPN) && (next_hop_len <? 16)) then parse_next_hop IPv4 next_hop_bin 4
  else if (afi =? AFI_IP6) || ((rf =? RF_L2_EVPN) && (16 <=? next_hop_len)) then parse_next_hop IPv6 next_hop_bin 16
  else if rf =? RF_L2VPN_FLOWSPEC then Ret []
  else Raise ValueError.

Definition valid_next_hop (a : string) : bool := valid_ip IPv4 a || valid_ip IPv6 a.

(** The constructor of MP_REACH_NLRI refuses texts that are no addresses. *)
Definition new_mp_reach (afi safi : Z) (next_hop : list string) (nlri : list addr_prefix) : outcome pyexn attr_body :=
  if forallb valid_next_hop next_hop then Ret (AMpReachNLRI afi safi next_hop nlri) else Raise ValueError.

Definition parse_nlris {St} (c : addr_class) (buf : bytes) : M St pyexn Empty_set (list addr_prefix) :=
  parse_all (λ b, lift (parser c b)) (length buf) buf.

Definition parse_mp_reach (buf : bytes) : W attr_body :=
  '(afi, rest) ← lift (unpack_field 2 buf);
  '(safi, rest) ← lift (unpack_field 1 rest);
  '(next_hop_len, rest) ← lift (unpack_field 1 rest);
  let n := Z.to_nat next_hop_len in
  assert_ (bool_decide (take 1 (drop n rest) = [0])) AssertionError;;
  nlri ← parse_nlris (_get_addr_class afi safi) (drop 1 (drop n rest));
  next_hop ← lift (next_hops afi safi (take n rest) next_hop_len);
  lift (new_mp_reach afi safi next_hop nlri).

Definition parse_mp_unreach (buf : bytes) : W attr_body :=
  '(afi, rest) ← lift (unpack_field 2 buf);
  '(safi, rest) ← lift (unpack_field 1 rest);
  nlri ← parse_nlris (_get_addr_class afi safi) rest;
  mret (AMpUnreachNLRI afi safi nlri).

(** [!I4s] and [!H4s] *)
Definition parse_aggregator_value (four : bool) (buf : bytes) : outcome pyexn (Z * string) :=
  '(as_number, rest) ← unpack_field (if four then 4 else 2) buf;
  '(addr, _) ← unpack_s 4 rest;
  a ← bin_to_text IPv4 addr;
  Ret (as_number, a).

(** An AGGREGATOR of eight bytes changes the format of the class, for all that come later. *)
Definition parse_aggregator (buf : bytes) : W attr_body :=
  when (length buf =? 8)%nat (put_st true);;
  four ← get_st;
  '(as_number, addr) ← lift (parse_aggregator_value four buf);
  mret (AAggregator as_number addr).

Definition parse_pmsi (buf : bytes) : outcome pyexn attr_body :=
  '(pmsi_flags, rest) ← unpack_field 1 buf;
  '(tunnel_type, rest) ← unpack_field 1 rest;
  '(label, rest) ← unpack_s 3 rest;
  id ← (if tunnel_type =? 0 then Ret None
        else if tunnel_type =? 6 then
          a ← bin_to_text (if (length rest =? 4)%nat then IPv4 else IPv6) rest; Ret (Some (IngressReplication a))
        else Ret (Some (TunnelIdUnknown rest)));
  Ret (APmsiTunnel pmsi_flags tunnel_type label id).

(** [4s] as the text of an address. *)
Definition parse_ipv4 (buf : bytes) : outcome pyexn string :=
  '(b, _) ← unpack_s 4 buf;
  bin_to_text IPv4 b.

(** [subcls.parse_value], by the type of the attribute. *)
Definition parse_value (type : Z) (buf : bytes) : W attr_body :=
  if type =? BGP_ATTR_TYPE_ORIGIN then '(v, _) ← lift (unpack_field 1 buf); mret (AOrigin v)
  else if type =? BGP_ATTR_TYPE_AS_PATH then '(size, segs) ← lift (parse_as_path false buf); mret (AAsPath size segs)
  else if type =? BGP_ATTR_TYPE_NEXT_HOP then a ← lift (parse_ipv4 buf); mret (ANextHop a)
  else if type =? BGP_ATTR_TYPE_MULTI_EXIT_DISC then '(v, _) ← lift (unpack_field 4 buf); mret (AMultiExitDisc v)
  else if type =? BGP_ATTR_TYPE_LOCAL_PREF then '(v, _) ← lift (unpack_field 4 buf); mret (ALocalPref v)
  else if type =? BGP_ATTR_TYPE_ATOMIC_AGGREGATE then mret AAtomicAggregate
  else if type =? BGP_ATTR_TYPE_AGGREGATOR then parse_aggregator buf
  else if type =? BGP_ATTR_TYPE_COMMUNITIES then mret (ACommunities (be_value <$> words buf))
  else if type =? BGP_ATTR_TYPE_ORIGINATOR_ID then a ← lift (parse_ipv4 buf); mret (AOriginatorId a)
  else if type =? BGP_ATTR_TYPE_CLUSTER_LIST then l ← lift (map_m (bin_to_text IPv4) (words buf)); mret (AClusterList l)
  else if type =? BGP_ATTR_TYPE_MP_REACH_NLRI then parse_mp_reach buf
  else if type =? BGP_ATTR_TYPE_MP_UNREACH_NLRI then parse_mp_unreach buf
  else if type =? BGP_ATTR_TYPE_EXTENDED_COMMUNITIES then
    l ← parse_all (λ b, lift (parse_community b)) (length buf) buf; mret (AExtendedCommunities l)
  else if type =? BGP_ATTR_TYPE_AS4_PATH then '(_, segs) ← lift (parse_as_path true buf); mret (AAs4Path segs)
  else if type =? BGP_ATTR_TYPE_AS4_AGGREGATOR then '(n, a) ← lift (parse_aggregator_value true buf); mret (AAs4Aggregator n a)
  else if type =? BGP_ATTR_TYEP_PMSI_TUNNEL_ATTRIBUTE then lift (parse_pmsi buf)
  else mret (AUnknown type buf).

(** [_PathAttribute.parser] *)
Definition parse_attribute (buf : bytes) : W (path_attr * bytes) :=
  '(flags, rest) ← lift (unpack_field 1 buf);
  '(type, rest) ← lift (unpack_field 1 rest);
  '(len, rest) ← lift (unpack_field (length_size flags) rest);
  let n := Z.to_nat len in
  body ← parse_value type (take n rest);
  mret (PathAttr flags body, drop n rest).

(** *** Encoding *)

Definition attr_flags (b : attr_body) : option Z :=
  match b with
  | AOrigin _ | AAsPath _ _ | ANextHop _ | ALocalPref _ | AAtomicAggregate => Some BGP_ATTR_FLAG_TRANSITIVE
  | AMultiExitDisc _ | AOriginatorId _ | AClusterList _ | AMpReachNLRI _ _ _ _ | AMpUnreachNLRI _ _ _ => Some BGP_ATTR_FLAG_OPTIONAL
  | AAggregator _ _ | ACommunities _ | AExtendedCommunities _ | AAs4Path _ | AAs4Aggregator _ _ | APmsiTunnel _ _ _ _ =>
      Some (Z.lor BGP_ATTR_FLAG_OPTIONAL BGP_ATTR_FLAG_TRANSITIVE)
  | AUnknown _ _ => None
  end.

Definition body_type (b : attr_body) : Z :=
  match b with
  | AOrigin _ => BGP_ATTR_TYPE_ORIGIN
  | AAsPath _ _ => BGP_ATTR_TYPE_AS_PATH
  | ANextHop _ => BGP_ATTR_TYPE_NEXT_HOP
  | AMultiExitDisc _ => BGP_ATTR_TYPE_MULTI_EXIT_DISC
  | ALocalPref _ => BGP_ATTR_TYPE_LOCAL_PREF
  | AAtomicAggregate => BGP_ATTR_TYPE_ATOMIC_AGGREGATE
  | AAggregator _ _ => BGP_ATTR_TYPE_AGGREGATOR
  | ACommunities _ => BGP_ATTR_TYPE_COMMUNITIES
  | AOriginatorId _ => BGP_ATTR_TYPE_ORIGINATOR_ID
  | AClusterList _ => BGP_ATTR_TYPE_CLUSTER_LIST
  | AMpReachNLRI _ _ _ _ => BGP_ATTR_TYPE_MP_REACH_NLRI
  | AMpUnreachNLRI _ _ _ => BGP_ATTR_TYPE_MP_UNREACH_NLRI
  | AExtendedCommunities _ => BGP_ATTR_TYPE_EXTENDED_COMMUNITIES
  | AAs4Path _ => BGP_ATTR_TYPE_AS4_PATH
  | AAs4Aggregator _ _ => BGP_ATTR_TYPE_AS4_AGGREGATOR
  | APmsiTunnel _ _ _ _ => BGP_ATTR_TYEP_PMSI_TUNNEL_ATTRIBUTE
  | AUnknown type _ => type
  end.

(** [serialize_next_hop] *)
Definition next_hop_to_bin (afi safi : Z) (a : string) : outcome pyexn bytes :=
  b ← ip_text_to_bin (if afi =? AFI_IP6 then as_ipv6 a else a);
  let rf := route_family afi safi in
  Ret (if (rf =? RF_IPv4_VPN) || (rf =? RF_IPv6_VPN) then replicate 8 0 ++ b else b).

(** The format of AGGREGATOR is that of the class unless the number needs four octets. *)
Definition aggregator_size (four : bool) (as_number : Z) : nat := if (0xffff <? as_number) || four then 4 else 2.

Definition serialize_aggregator (size : nat) (as_number : Z) (addr : string) : outcome pyexn bytes :=
  b ← text_to_bin IPv4 addr;
  n ← pack [(size, as_number)];
  Ret (n ++ pack_s 4 b).

Definition serialize_ipv4 (a : string) : outcome pyexn bytes :=
  b ← text_to_bin IPv4 a;
  Ret (pack_s 4 b).

(** [serialize_value], with the object afterwards; [four] is the class attribute of AGGREGATOR. *)
Definition serialize_value (four : bool) (b : attr_body) : outcome pyexn (attr_body * bytes) :=
  let same (bs : outcome pyexn bytes) := (bs ← bs; Ret (b, bs)) : outcome pyexn (attr_body * bytes) in
  match b with
  | AOrigin v => same (pack [(1%nat, v)])
  | AAsPath size segs => same (serialize_as_path size segs)
  | AAs4Path segs => same (serialize_as_path 4 segs)
  | ANextHop a | AOriginatorId a => same (serialize_ipv4 a)
  | AMultiExitDisc v | ALocalPref v => same (pack [(4%nat, v)])
  | AAtomicAggregate => same (Ret [])
  | AAggregator n a => same (serialize_aggregator (aggregator_size four n) n a)
  | AAs4Aggregator n a => same (serialize_aggregator 4 n a)
  | ACommunities l => same (pack (pair 4%nat <$> l))
  | AClusterList l => same (serialize_list serialize_ipv4 l)
  | AExtendedCommunities l => same (serialize_list serialize_community l)
  | AMpReachNLRI afi safi nhs nlri =>
      nh ← serialize_list (next_hop_to_bin afi safi) nhs;
      hdr ← pack [(2%nat, afi); (1%nat, safi); (1%nat, Z.of_nat (length nh))];
      '((nlri, bs) : list addr_prefix * bytes) ← serialize_all serialize nlri;
      Ret (AMpReachNLRI afi safi nhs nlri, hdr ++ nh ++ [0] ++ bs)
  | AMpUnreachNLRI afi safi nlri =>
      hdr ← pack [(2%nat, afi); (1%nat, safi)];
      '((nlri, bs) : list addr_prefix * bytes) ← serialize_all serialize nlri;
      Ret (AMpUnreachNLRI afi safi nlri, hdr ++ bs)
  | APmsiTunnel fl ty label id =>
      hdr ← pack [(1%nat, fl); (1%nat, ty)];
      same (bs ← match id with
                 | None => Ret []
                 | Some (TunnelIdUnknown v) => Ret v
                 | Some (IngressReplication a) => ip_text_to_bin a
                 end;
            Ret (hdr ++ pack_s 3 label ++ bs))
  | AUnknown _ v => same (Ret v)
  end.

(** [_PathAttribute.serialize]: the flags are set as the class and the length ask. *)
Definition class_flags (b : attr_body) (flags : Z) : Z :=
  match attr_flags b with
  | Some fl => Z.lor (Z.land flags (Z.lnot (Z.lor BGP_ATTR_FLAG_OPTIONAL BGP_ATTR_FLAG_TRANSITIVE))) fl
  | None => flags
  end.

Definition length_flags (len : nat) (flags : Z) : Z :=
  if negb (Z.land flags BGP_ATTR_FLAG_EXTENDED_LENGTH =? 0) then flags
  else if (255 <? len)%nat then Z.lor flags BGP_ATTR_FLAG_EXTENDED_LENGTH
  else Z.land flags (Z.lnot BGP_ATTR_FLAG_EXTENDED_LENGTH).

Definition serialize_attribute (four : bool) (a : path_attr) : outcome pyexn (path_attr * bytes) :=
  '((body, value) : attr_body * bytes) ← serialize_value four (pa_body a);
  let flags := length_flags (length value) (class_flags (pa_body a) (pa_flags a)) in
  hdr ← pack [(1%nat, flags); (1%nat, body_type (pa_body a))];
  len ← pack [(length_size flags, Z.of_nat (length value))];
  Ret (PathAttr flags body, hdr ++ len ++ value).
End values.

(** ** Laws of the communities that are not modelled *)

Class ForeignCommunityLaws `{ForeignCommunities} := {
  fcomm_ok : Z → fcomm → Prop;
  fcomm_roundtrip type c :
    fcomm_ok type c → ∃ subtype bs,
      (Z.land type (Z.lnot TRANSITIVE), subtype) ∈ foreign_community_types ∧ 0 ≤ type < 256 ∧
      fcomm_serialize c = Ret (subtype :: bs) ∧ length bs = 6%nat ∧ Forall is_byte (subtype :: bs) ∧
      fcomm_parse (Z.land type (Z.lnot TRANSITIVE), subtype) (subtype :: bs) = Ret c
}.

(** ** Loops *)

(** What a list of objects with their bytes needs to be read back, one after another. *)
Fixpoint all_readable {St A} (p : bytes → M St pyexn Empty_set (A * bytes)) (after : St → A → St) (s : St)
    (l : list (A * bytes)) : Prop :=
  match l with
  | [] => True
  | (x, b) :: l => b ≠ [] ∧ (∀ rest, p (b ++ rest) s = ([], after s x, Ret (x, rest))) ∧ all_readable p after (after s x) l
  end.

Lemma parse_all_readable {St A} (p : bytes → M St pyexn Empty_set (A * bytes)) after l s fuel :
  all_readable p after s l → (length (mjoin l.*2) ≤ fuel)%nat →
  parse_all p fuel (mjoin l.*2) s = ([], foldl after s l.*1, Ret l.*1).
Proof.
  revert s fuel. induction l as [|[x b] l IH]; intros s fuel; [by destruct fuel|]. intros (Hne & Hp & Hl) Hf.
  change (mjoin ((x, b) :: l).*2) with (b ++ mjoin l.*2) in *. rewrite length_app in Hf.
  destruct fuel as [|fuel]; [destruct b; cbn in Hf; [done|lia]|].
  destruct (b ++ mjoin l.*2) as [|z zs] eqn:E; [by destruct b|].
  cbn [parse_all]. rewrite <- E. unfold mbind at 1, M_bind at 1. rewrite Hp. cbn [foldl fmap list_fmap fst].
  unfold mbind, M_bind. rewrite IH; [done..|]. destruct b; [done|]. cbn in Hf. lia.
Qed.

Lemma all_readable_pure {St A} (p : bytes → outcome pyexn (A * bytes)) (l : list (A * bytes)) (s : St) :
  Forall (λ xb, xb.2 ≠ [] ∧ ∀ rest, p (xb.2 ++ rest) = Ret (xb.1, rest)) l →
  all_readable (λ b, lift (p b)) (λ s _, s) s l.
Proof.
  induction 1 as [|[x b] l [Hne Hp] _ IH]; [done|]. cbn in *. split_and!; [done| |done].
  intros rest. unfold lift. by rewrite Hp.
Qed.

Lemma foldl_const {A S} (l : list A) (s : S) : foldl (λ s _, s) s l = s.
Proof. by induction l. Qed.

Lemma serialize_all_pairs {A} (ser : A → outcome pyexn (A * bytes)) (P : A → A → bytes → Prop) l :
  Forall (λ x, ∃ y bs, ser x = Ret (y, bs) ∧ P x y bs) l →
  ∃ ys, serialize_all ser l = Ret (ys.*1, mjoin ys.*2) ∧ Forall2 (λ x yb, P x yb.1 yb.2) l ys.
Proof.
  induction 1 as [|x l (y & bs & E & Hp) _ (ys & Es & IH)]; [by exists []|]. exists ((y, bs) :: ys).
  cbn [serialize_all]. rewrite E. cbn [mbind outcome_bind]. rewrite Es. split; [done|by constructor].
Qed.

(** ** Fields *)

Lemma pack_join fs : Forall in_width fs → pack fs = Ret (mjoin ((λ f, be_bytes f.1 f.2) <$> fs)).
Proof.
  induction 1 as [|[n z] fs Hz _ IH]; [done|]. cbn [pack]. rewrite pack_field_ok by done. cbn [mbind outcome_bind]. by rewrite IH.
Qed.

Lemma join_bytes (bss : list bytes) : Forall (Forall is_byte) bss → Forall is_byte (mjoin bss).
Proof. induction 1 as [|b bss Hb _ IH]; [done|]. by apply Forall_app. Qed.

Lemma length_join_const {A} (f : A → bytes) n l : (∀ x, x ∈ l → length (f x) = n) → length (mjoin (f <$> l)) = (n * length l)%nat.
Proof.
  induction l as [|x l IH]; intros Hf; [cbn; lia|]. change (mjoin (f <$> x :: l)) with (f x ++ mjoin (f <$> l)).
  rewrite length_app, IH, (Hf x); [cbn; lia|apply list_elem_of_here|]. intros y Hy. apply Hf. by apply list_elem_of_further.
Qed.

Lemma words_join (bss : list bytes) : Forall (λ b, length b = 4%nat) bss → words (mjoin bss) = bss.
Proof.
  induction 1 as [|b bss Hb _ IH]; [done|]. do 5 (destruct b as [|? b]; try done). change (mjoin ([z; z0; z1; z2] :: bss)) with ([z; z0; z1; z2] ++ mjoin bss).
  cbn [app words]. by rewrite IH.
Qed.

(** ** AS paths *)

(** A segment that can be written: it has numbers, at most 255 of them, of the given size. *)
Definition segment_ok (size : nat) (seg : as_segment) : Prop :=
  seg_numbers seg ≠ [] ∧ (length (seg_numbers seg) ≤ 255)%nat ∧ Forall (λ n, 0 ≤ n < 256 ^ Z.of_nat size) (seg_numbers seg) ∧
  match seg with AsSet l => NoDup l | AsSequence _ => True end.

Definition segment_type (seg : as_segment) : Z := match seg with AsSet _ => _AS_SET | AsSequence _ => _AS_SEQUENCE end.

Definition segment_bytes (size : nat) (seg : as_segment) : bytes :=
  [segment_type seg; Z.of_nat (length (seg_numbers seg))] ++ mjoin (be_bytes size <$> seg_numbers seg).

Lemma serialize_segment_ok size seg : segment_ok size seg → serialize_segment size seg = Ret (segment_bytes size seg).
Proof.
  intros (Hne & Hl & Hn & _).
  assert (serialize_segment size seg = pack ([(1%nat, segment_type seg); (1%nat, Z.of_nat (length (seg_numbers seg)))] ++ ((λ n, (size, n)) <$> seg_numbers seg))) as ->.
  { unfold serialize_segment. destruct seg; cbn [seg_numbers segment_type] in *; by rewrite bool_decide_eq_false_2. }
  rewrite pack_join.
  - rewrite fmap_app, join_app. unfold segment_bytes. do 2 f_equal; [|by rewrite <- list_fmap_compose].
    cbn -[Z.of_nat]. by rewrite (Z.mod_small (Z.of_nat _)), (Z.mod_small (segment_type seg)) by (lia || by destruct seg).
  - apply Forall_app. split; [|apply Forall_fmap; by eapply Forall_impl].
    rewrite !Forall_cons. unfold in_width. cbn [fst snd]. change (256 ^ Z.of_nat 1) with 256. split_and!; [by destruct seg|by destruct seg|lia|lia|done].
Qed.

Lemma serialize_as_path_ok size segs :
  Forall (segment_ok size) segs → serialize_as_path size segs = Ret (mjoin (segment_bytes size <$> segs)).
Proof.
  induction 1 as [|seg segs Hs _ IH]; [done|]. cbn [serialize_as_path]. rewrite serialize_segment_ok by done.
  cbn [mbind outcome_bind]. by rewrite IH.
Qed.

Lemma read_numbers_ok size l rest :
  Forall (λ n, 0 ≤ n < 256 ^ Z.of_nat size) l → read_numbers size (length l) (mjoin (be_bytes size <$> l) ++ rest) = Ret (l, rest).
Proof.
  induction 1 as [|n l Hn _ IH]; [done|]. change (mjoin (be_bytes size <$> n :: l)) with (be_bytes size n ++ mjoin (be_bytes size <$> l)).
  cbn [length read_numbers]. rewrite <- app_assoc, unpack_be by done. cbn [mbind outcome_bind]. by rewrite IH.
Qed.

Lemma segment_header_ok size seg rest :
  segment_ok size seg →
  segment_header (segment_bytes size seg ++ rest) =
    Ret (segment_type seg, length (seg_numbers seg), mjoin (be_bytes size <$> seg_numbers seg) ++ rest).
Proof.
  intros (_ & Hl & _). unfold segment_header, segment_bytes. rewrite <- app_assoc. cbn [app].
  rewrite unpack_byte. cbn [mbind outcome_bind]. rewrite unpack_byte. cbn [mbind outcome_bind]. by rewrite Nat2Z.id.
Qed.

Lemma make_set_nodup l : NoDup l → make_set l = l.
Proof.
  intros H. unfold make_set. induction l as [|x l IH] using rev_ind; [done|]. apply NoDup_app in H as (H1 & H2 & _).
  rewrite foldl_app. cbn [foldl]. rewrite IH by done. rewrite bool_decide_eq_false_2; [done|]. intros Hx. eapply H2; [done|by apply list_elem_of_singleton].
Qed.

Lemma segment_bytes_nonempty size seg : segment_bytes size seg ≠ [].
Proof. done. Qed.

Lemma read_segments_ok size segs fuel :
  Forall (segment_ok size) segs → (length (mjoin (segment_bytes size <$> segs)) ≤ fuel)%nat →
  read_segments fuel size (mjoin (segment_bytes size <$> segs)) = Ret segs.
Proof.
  intros Hs. revert fuel. induction Hs as [|seg segs Hseg _ IH]; intros fuel Hf; [by destruct fuel|].
  change (mjoin (segment_bytes size <$> seg :: segs)) with (segment_bytes size seg ++ mjoin (segment_bytes size <$> segs)) in *.
  rewrite length_app in Hf. destruct fuel as [|fuel]; [cbn in Hf; lia|].
  change (read_segments (S fuel) size (segment_bytes size seg ++ mjoin (segment_bytes size <$> segs))) with
    ('(type, num_as, rest) ← segment_header (segment_bytes size seg ++ mjoin (segment_bytes size <$> segs));
     '(l, rest) ← read_numbers size num_as rest;
     seg ← (if type =? _AS_SET then Ret (AsSet (make_set l))
            else if type =? _AS_SEQUENCE then Ret (AsSequence l) else Raise StructError);
     segs ← read_segments fuel size rest;
     Ret (seg :: segs)).
  rewrite segment_header_ok by done. cbn [mbind outcome_bind]. destruct Hseg as (_ & Hl & Hn & Hd). rewrite read_numbers_ok by done.
  cbn [mbind outcome_bind]. destruct seg as [l|l]; cbn [segment_type seg_numbers Z.eqb _AS_SET _AS_SEQUENCE].
  - change (_AS_SEQUENCE =? _AS_SET) with false. change (_AS_SEQUENCE =? _AS_SEQUENCE) with true. cbn [mbind outcome_bind].
    rewrite IH; [done|]. cbn in Hf. lia.
  - change (_AS_SET =? _AS_SET) with true. cbn [seg_numbers] in Hd. rewrite make_set_nodup by done. cbn [mbind outcome_bind].
    rewrite IH; [done|]. cbn in Hf. lia.
Qed.

(** What is written with two octets is taken for that. *)
Lemma valid_16bit_ok segs fuel :
  Forall (segment_ok 2) segs → (length (mjoin (segment_bytes 2 <$> segs)) ≤ fuel)%nat →
  _is_valid_16bit_as_path fuel (mjoin (segment_bytes 2 <$> segs)) = Ret true.
Proof.
  intros Hs. revert fuel. induction Hs as [|seg segs Hseg _ IH]; intros fuel Hf; [by destruct fuel|].
  change (mjoin (segment_bytes 2 <$> seg :: segs)) with (segment_bytes 2 seg ++ mjoin (segment_bytes 2 <$> segs)) in *.
  rewrite length_app in Hf. destruct fuel as [|fuel]; [cbn in Hf; lia|].
  change (_is_valid_16bit_as_path (S fuel) (segment_bytes 2 seg ++ mjoin (segment_bytes 2 <$> segs))) with
    ('(type, num_as, rest) ← segment_header (segment_bytes 2 seg ++ mjoin (segment_bytes 2 <$> segs));
     if negb (type =? _AS_SET) && negb (type =? _AS_SEQUENCE) then Ret false
     else if (length rest <? num_as * 2)%nat then Ret false
     else _is_valid_16bit_as_path fuel (drop (num_as * 2) rest)).
  rewrite segment_header_ok by done. cbn [mbind outcome_bind].
  assert (negb (segment_type seg =? _AS_SET) && negb (segment_type seg =? _AS_SEQUENCE) = false) as -> by by destruct seg.
  assert (length (mjoin (be_bytes 2 <$> seg_numbers seg)) = (length (seg_numbers seg) * 2)%nat) as El.
  { rewrite (length_join_const _ 2); [lia|]. intros; apply length_be_bytes. }
  rewrite length_app, (proj2 (Nat.ltb_ge _ _)), drop_app_length' by lia. apply IH. cbn in Hf. lia.
Qed.

Definition as_path_ok (size : nat) (segs : list as_segment) : Prop :=
  Forall (segment_ok size) segs ∧
  (size = 2%nat ∨ size = 4%nat ∧ let bs := mjoin (segment_bytes 4 <$> segs) in _is_valid_16bit_as_path (length bs) bs = Ret false).

Lemma parse_as_path_ok size segs :
  as_path_ok size segs → parse_as_path false (mjoin (segment_bytes size <$> segs)) = Ret (size, segs).
Proof.
  intros (Hs & [-> | [-> Hv]]); unfold parse_as_path; [rewrite valid_16bit_ok by done|rewrite Hv]; cbn [mbind outcome_bind];
    by rewrite read_segments_ok.
Qed.

Lemma segment_bytes_are_bytes size seg : segment_ok size seg → Forall is_byte (segment_bytes size seg).
Proof.
  intros (_ & Hl & _). apply Forall_app. split.
  - rewrite !Forall_cons. unfold is_byte. split_and!; [by destruct seg|by destruct seg|lia|lia|done].
  - apply join_bytes, Forall_fmap, Forall_true. intros; apply be_bytes_are_bytes.
Qed.

(** A path of one sequence is also read with four octets when no number of it has 1 or 2 in its
    third byte, or uses its first: otherwise it can look like a path of two octets. *)
Definition tells_four_octets (n : Z) : Prop := 0 ≤ n < 2 ^ 24 ∧ n / 256 mod 256 ≠ 1 ∧ n / 256 mod 256 ≠ 2.

Lemma drop_join_be l m : drop (4 * m) (mjoin (be_bytes 4 <$> l)) = mjoin (be_bytes 4 <$> drop m l).
Proof.
  revert l. induction m as [|m IH]; intros l; [by rewrite !drop_0|]. destruct l as [|n l]; [done|].
  change (mjoin (be_bytes 4 <$> n :: l)) with (be_bytes 4 n ++ mjoin (be_bytes 4 <$> l)).
  rewrite drop_app_ge by (rewrite length_be_bytes; lia). rewrite length_be_bytes. cbn [drop]. rewrite <- IH. f_equal. lia.
Qed.

Lemma four_octets_not_16bit l :
  l ≠ [] → (length l ≤ 255)%nat → Forall tells_four_octets l →
  let bs := segment_bytes 4 (AsSequence l) in _is_valid_16bit_as_path (length bs) bs = Ret false.
Proof.
  intros Hne Hl Hn bs. subst bs. unfold segment_bytes. cbn [app segment_type seg_numbers]. rewrite length_cons.
  cbn [_is_valid_16bit_as_path]. unfold segment_header. rewrite unpack_byte. cbn [mbind outcome_bind]. rewrite unpack_byte. cbn [mbind outcome_bind].
  change (negb (_AS_SEQUENCE =? _AS_SET) && negb (_AS_SEQUENCE =? _AS_SEQUENCE)) with false. cbn iota.
  rewrite Nat2Z.id, (length_join_const _ 4) by (intros; apply length_be_bytes). rewrite (proj2 (Nat.ltb_ge _ _)) by lia.
  pose proof (Nat.div_mod (length l) 2 ltac:(done)) as Hdm. set (m := (length l / 2)%nat) in *.
  assert (0 < length l)%nat as H0 by (destruct l; [done|cbn; lia]). assert (m < length l)%nat as Hm by (apply Nat.div_lt; lia).
  destruct (drop m l) as [|n l'] eqn:Ed; [apply (f_equal length) in Ed; rewrite length_drop in Ed; cbn [length] in Ed; lia|].
  assert (tells_four_octets n) as (Hr & H1 & H2) by (apply (Forall_drop _ m) in Hn; rewrite Ed in Hn; by inversion Hn).
  assert (∃ b c rest, drop (length l * 2) (mjoin (be_bytes 4 <$> l)) = b :: c :: rest ∧ b ≠ 1 ∧ b ≠ 2) as (b & c & rest & -> & Hb1 & Hb2).
  { pose proof (drop_join_be l m) as Hj. rewrite Ed in Hj. change (mjoin (be_bytes 4 <$> n :: l')) with (be_bytes 4 n ++ mjoin (be_bytes 4 <$> l')) in Hj.
    cbn in Hj. pose proof (Nat.mod_upper_bound (length l) 2 ltac:(done)).
    assert (length l mod 2 = 0 ∨ length l mod 2 = 1)%nat as [E|E] by lia; rewrite E in Hdm.
    - replace (length l * 2)%nat with (4 * m)%nat by lia. rewrite drop_join_be, Ed. cbn. eexists _, _, _. split; [reflexivity|].
      rewrite !Z.div_div by lia. change (2 ^ 24) with (256 * 256 * 256) in Hr. rewrite (Z.div_small n) by lia. done.
    - replace (length l * 2)%nat with (4 * m + 2)%nat by lia. rewrite <- drop_drop, drop_join_be, Ed. cbn. eexists _, _, _. by split. }
  rewrite length_cons. cbn [_is_valid_16bit_as_path]. unfold segment_header. rewrite unpack_byte. cbn [mbind outcome_bind]. rewrite unpack_byte. cbn [mbind outcome_bind].
  by rewrite (proj2 (Z.eqb_neq b _AS_SET) Hb1), (proj2 (Z.eqb_neq b _AS_SEQUENCE) Hb2).
Qed.

(** *** Communities *)

Section roundtrip.
Context `{Addresses} `{ForeignCommunities, !ForeignCommunityLaws}.

Definition ipv4_ok (a : string) : Prop := ∃ b, address_of IPv4 a b.

Definition community_ok (c : ext_community) : Prop :=
  let type_low := Z.land (community_type c) (Z.lnot TRANSITIVE) in
  0 ≤ community_type c < 256 ∧
  match c with
  | TwoOctetAsSpecific _ subtype n local => type_low = 0 ∧ 0 ≤ subtype < 256 ∧ 0 ≤ n < 2 ^ 16 ∧ 0 ≤ local < 2 ^ 32
  | IPv4AddressSpecific _ subtype a local => type_low = 1 ∧ 0 ≤ subtype < 256 ∧ ipv4_ok a ∧ 0 ≤ local < 2 ^ 16
  | FourOctetAsSpecific _ subtype n local => type_low = 2 ∧ 0 ≤ subtype < 256 ∧ 0 ≤ n < 2 ^ 32 ∧ 0 ≤ local < 2 ^ 16
  | OpaqueCommunity _ subtype opaque => type_low = 3 ∧ 0 ≤ subtype < 256 ∧ subtype ≠ 0x0c ∧ length opaque = 6%nat ∧ Forall is_byte opaque
  | Encapsulation _ subtype tunnel_type => type_low = 3 ∧ subtype = 0x0c ∧ 0 ≤ tunnel_type < 2 ^ 16
  | ForeignCommunity type c => fcomm_ok type c
  | UnknownCommunity _ value =>
      ∃ subtype rest, value = subtype :: rest ∧ length rest = 6%nat ∧ Forall is_byte value ∧ (type_low, subtype) ∉ foreign_community_types ∧
        type_low ≠ 0 ∧ type_low ≠ 1 ∧ type_low ≠ 2 ∧ type_low ≠ 3
  end.

Lemma not_foreign type subtype : 0 ≤ type ≤ 3 → bool_decide ((type, subtype) ∈ foreign_community_types) = false.
Proof.
  intros Ht. apply bool_decide_eq_false_2. intros E. apply list_elem_of_In in E. cbn in E.
  repeat (destruct E as [E|E]; [simplify_eq; lia|]). done.
Qed.
End roundtrip.

Section communities_roundtrip.
Context `{Addresses, !AddressLaws} `{ForeignCommunities, !ForeignCommunityLaws}.

Lemma community_value_ok c :
  community_ok c →
  ∃ v, community_value c = Ret v ∧ length v = 7%nat ∧ Forall is_byte v ∧ parse_community_value (community_type c) v = Ret c.
Proof.
  intros [Ht Hc]. destruct c as [t st n lo|t st a lo|t st n lo|t st o|t st tt|t fc|t v]; cbn [community_type community_value] in *;
    unfold parse_community_value.
  - destruct Hc as (Hlow & Hst & Hn & Hlo). rewrite pack_join by fields. exists (be_bytes 1 st ++ be_bytes 2 n ++ be_bytes 4 lo).
    split_and!; [done|done|bytes|]. read_fields. rewrite Hlow, not_foreign by lia. cbn [Z.eqb andb]. by read_fields.
  - destruct Hc as (Hlow & Hst & (b & Eb & Et & Hl & Hb) & Hlo). rewrite Eb, !pack1 by done. cbn [mbind outcome_bind].
    rewrite pack_s_exact by done. exists (be_bytes 1 st ++ b ++ be_bytes 2 lo). cbn [addr_size] in Hl.
    split_and!; [done|by rewrite !length_app, !length_be_bytes, Hl|bytes|]. read_fields. rewrite Hlow, not_foreign by lia.
    cbn [Z.eqb Pos.eqb andb]. read_fields. by rewrite Et.
  - destruct Hc as (Hlow & Hst & Hn & Hlo). rewrite pack_join by fields. exists (be_bytes 1 st ++ be_bytes 4 n ++ be_bytes 2 lo).
    split_and!; [done|done|bytes|]. read_fields. rewrite Hlow, not_foreign by lia. cbn [Z.eqb Pos.eqb andb]. by read_fields.
  - destruct Hc as (Hlow & Hst & Hne & Hl & Hb). rewrite pack1 by done. cbn [mbind outcome_bind]. rewrite pack_s_exact by done.
    exists (be_bytes 1 st ++ o). split_and!; [done|by rewrite length_app, length_be_bytes, Hl|bytes|]. read_fields.
    rewrite Hlow, not_foreign, (proj2 (Z.eqb_neq st _)) by (lia || done). cbn [Z.eqb Pos.eqb andb]. by read_fields.
  - destruct Hc as (Hlow & -> & Htt). rewrite !pack1 by done. cbn [mbind outcome_bind]. exists (be_bytes 1 0x0c ++ replicate 4 0 ++ be_bytes 2 tt).
    split_and!; [done|done|bytes|]. read_fields. rewrite Hlow, not_foreign by lia. cbn [Z.eqb Pos.eqb andb]. by read_fields.
  - destruct (fcomm_roundtrip t fc Hc) as (st & bs & Hin & _ & E & Hl & Hb & Hp). exists (st :: bs). rewrite E.
    split_and!; [done|cbn; by rewrite Hl|done|]. read_fields. rewrite bool_decide_eq_true_2 by done. by rewrite Hp.
  - destruct Hc as (st & rest & -> & Hl & Hb & Hnin & N0 & N1 & N2 & N3). exists (st :: rest). rewrite pack_s_exact by (cbn; by rewrite Hl).
    split_and!; [done|cbn; by rewrite Hl|done|]. read_fields. rewrite bool_decide_eq_false_2 by done.
    rewrite (proj2 (Z.eqb_neq _ _) N0), (proj2 (Z.eqb_neq _ _) N1), (proj2 (Z.eqb_neq _ _) N2), (proj2 (Z.eqb_neq _ _) N3). cbn [andb].
    by rewrite take_ge by (cbn; lia).
Qed.

Lemma community_roundtrip c :
  community_ok c →
  ∃ bs, serialize_community c = Ret bs ∧ Forall is_byte bs ∧ bs ≠ [] ∧ ∀ rest, parse_community (bs ++ rest) = Ret (c, rest).
Proof.
  intros Hc. destruct (community_value_ok c Hc) as (v & E & Hl & Hb & Hp). exists (be_bytes 1 (community_type c) ++ v).
  unfold serialize_community. rewrite E. cbn [mbind outcome_bind]. destruct Hc as [Ht _]. rewrite pack1 by done. cbn [mbind outcome_bind].
  rewrite pack_s_exact by done. split_and!; [done|bytes|by apply be_bytes_nonempty; lia|]. intros rest. unfold parse_community.
  rewrite <- app_assoc. read_fields. by rewrite Hp.
Qed.
End communities_roundtrip.

(** ** Values *)

Lemma serialize_list_pairs {A} (ser : A → outcome pyexn bytes) l bss :
  Forall2 (λ x b, ser x = Ret b) l bss → serialize_list ser l = Ret (mjoin bss).
Proof.
  induction 1 as [|x b l bss Hx _ IH]; [done|]. cbn [serialize_list]. rewrite Hx. cbn [mbind outcome_bind]. by rewrite IH.
Qed.

Lemma split_bin_join (bss : list bytes) unit fuel :
  (0 < unit)%nat → Forall (λ b, length b = unit) bss → (length (mjoin bss) ≤ fuel)%nat → split_bin fuel (mjoin bss) unit = bss.
Proof.
  intros Hu Hb. revert fuel. induction Hb as [|b bss Hb _ IH]; intros fuel Hf; [by destruct fuel|].
  change (mjoin (b :: bss)) with (b ++ mjoin bss) in *. rewrite length_app in Hf. destruct fuel as [|fuel]; [lia|].
  destruct (b ++ mjoin bss) as [|z zs] eqn:E; [apply (f_equal length) in E; rewrite length_app in E; cbn in E; lia|].
  cbn [split_bin]. rewrite <- E, take_app_length', drop_app_length', IH by lia. done.
Qed.

Section values_roundtrip.
Context `{Addresses, !AddressLaws} `{ForeignNlri, !ForeignLaws} `{ForeignCommunities, !ForeignCommunityLaws}.

(** NLRIs of one class, as a list. *)
Lemma nlris_roundtrip c l :
  Forall (λ n, prefix_ok n ∧ class_of n = c) l →
  ∃ bs, serialize_all serialize l = Ret (l, bs) ∧ Forall is_byte bs ∧ ∀ St (s : St), parse_nlris c bs s = ([], s, Ret l).
Proof.
  intros Hl.
  destruct (serialize_all_pairs serialize (λ x y bs, y = x ∧ Forall is_byte bs ∧ bs ≠ [] ∧ ∀ rest, parser c (bs ++ rest) = Ret (x, rest)) l)
    as (ys & E & Hpairs).
  { eapply Forall_impl; [exact Hl|]. intros n [Hn <-]. destruct (nlri_roundtrip n Hn) as (bs & ? & ? & ? & ?). by exists n, bs. }
  assert (ys.*1 = l) as Ey by (clear -Hpairs; induction Hpairs as [|? ? ? ? (? & _)]; [done|by f_equal/=]).
  exists (mjoin ys.*2). rewrite E, Ey. split_and!; [done| |].
  - apply join_bytes, Forall_fmap. eapply Forall2_Forall_r; [exact Hpairs|]. apply Forall_true. by intros x yb (_ & ? & _).
  - intros St s. unfold parse_nlris. rewrite (parse_all_readable _ (λ s _, s)); [by rewrite foldl_const, Ey| |done].
    apply all_readable_pure. eapply Forall2_Forall_r; [exact Hpairs|]. apply Forall_true. by intros x yb (-> & _ & ? & ?).
Qed.

(** Next hops of the version that the family asks for. *)
Definition family_version (afi : Z) : ip_version := if afi =? AFI_IP then IPv4 else IPv6.
Definition is_vpn (afi safi : Z) : bool := (route_family afi safi =? RF_IPv4_VPN) || (route_family afi safi =? RF_IPv6_VPN).

Definition next_hops_ok (afi safi : Z) (nhs : list string) : Prop :=
  (afi = AFI_IP ∨ afi = AFI_IP6) ∧ 0 ≤ safi < 256 ∧ Forall (λ a, ∃ b, address_of (family_version afi) a b) nhs ∧ (length nhs < 10)%nat.

Lemma address_text v a b :
  address_of v a b → has_colon a = bool_decide (v = IPv6) ∧ (v = IPv6 → as_ipv6 a = a) ∧ valid_ip v a = true.
Proof.
  intros (_ & Et & Hl & Hb). split; [by eapply text_colon|]. split; [intros ->; by eapply text_as_ipv6|].
  destruct (text_of_bin v b Hl Hb) as (a' & Et' & _ & Hv). congruence.
Qed.

Lemma next_hops_roundtrip afi safi nhs :
  next_hops_ok afi safi nhs →
  ∃ bs, serialize_list (next_hop_to_bin afi safi) nhs = Ret bs ∧ Forall is_byte bs ∧ (length bs < 256)%nat ∧
    next_hops afi safi bs (Z.of_nat (length bs)) = Ret nhs ∧ forallb valid_next_hop nhs = true.
Proof.
  intros (Hafi & Hsafi & Hnhs & Hlen). set (v := family_version afi) in *.
  set (pre := if is_vpn afi safi then replicate 8 0 else []). set (unit := (length pre + addr_size v)%nat).
  assert (∃ bss, Forall2 (λ a b, next_hop_to_bin afi safi a = Ret b ∧ length b = unit ∧ Forall is_byte b ∧
    bin_to_text v (last_bytes (addr_size v) b) = Ret a ∧ valid_ip v a = true) nhs bss) as [bss Hpairs].
  { clear Hlen. induction Hnhs as [|a nhs (b & Ha) _ [bss IH]]; [by exists []|]. exists ((pre ++ b) :: bss). constructor; [|done].
    destruct (address_text v a b Ha) as (Hc & Has6 & Hv). destruct Ha as (Eb & Et & Hl & Hb).
    assert (next_hop_to_bin afi safi a = Ret (pre ++ b)) as ->.
    { unfold next_hop_to_bin, ip_text_to_bin. fold (is_vpn afi safi).
      assert ((if afi =? AFI_IP6 then as_ipv6 a else a) = a) as ->.
      { destruct (Z.eqb_spec afi AFI_IP6) as [->|]; [|done]. by apply Has6. }
      rewrite Hc. replace (if bool_decide (v = IPv6) then IPv6 else IPv4) with v by by destruct v.
      rewrite Eb. cbn [mbind outcome_bind]. unfold pre. by destruct (is_vpn afi safi). }
    split_and!; [done|unfold unit; rewrite length_app; lia|apply Forall_app; split; [unfold pre; case_match; [by apply Forall_replicate|done]|done]| |done].
    unfold last_bytes. by rewrite length_app, Hl, Nat.add_sub, drop_app_length. }
  assert (length bss = length nhs) as El by (symmetry; by eapply Forall2_length).
  assert (Forall (λ b, length b = unit) bss) as Hu by (eapply Forall2_Forall_r; [exact Hpairs|apply Forall_true; naive_solver]).
  assert (length (mjoin bss) = (unit * length nhs)%nat) as Ej.
  { rewrite <- (list_fmap_id bss), (length_join_const id unit), El; [done|]. intros b Hb. by eapply Forall_forall in Hu. }
  assert (unit ≤ 24)%nat as Hu24 by (unfold unit, pre; destruct v, (is_vpn afi safi); cbn; lia).
  assert (0 < unit)%nat as Hu0 by (unfold unit; destruct v; cbn; lia).
  exists (mjoin bss). split_and!.
  - apply serialize_list_pairs. eapply Forall2_impl; [exact Hpairs|naive_solver].
  - apply join_bytes. eapply Forall2_Forall_r; [exact Hpairs|apply Forall_true; naive_solver].
  - rewrite Ej. nia.
  - assert (next_hops afi safi (mjoin bss) (Z.of_nat (length (mjoin bss))) = parse_next_hop v (mjoin bss) unit) as ->.
    { unfold next_hops, unit, pre, v, is_vpn, family_version. destruct Hafi as [-> | ->].
      - rewrite (proj2 (Z.eqb_neq (route_family AFI_IP safi) RF_IPv6_VPN)) by (unfold RF_IPv6_VPN, AFI_IP, route_family; lia).
        by destruct (route_family AFI_IP safi =? RF_IPv4_VPN).
      - rewrite (proj2 (Z.eqb_neq (route_family AFI_IP6 safi) RF_IPv4_VPN)) by (unfold RF_IPv4_VPN, AFI_IP6, route_family; lia).
        rewrite (proj2 (Z.eqb_neq (route_family AFI_IP6 safi) RF_L2_EVPN)) by (unfold RF_L2_EVPN, AFI_IP6, route_family; lia).
        by destruct (route_family AFI_IP6 safi =? RF_IPv6_VPN). }
    unfold parse_next_hop. rewrite split_bin_join by done. apply map_m_pairs, Forall2_flip. eapply Forall2_impl; [exact Hpairs|naive_solver].
  - apply Is_true_true, forallb_True, Forall_forall. intros a Ha. apply Is_true_true. apply list_elem_of_lookup in Ha as [i Hi].
    destruct (Forall2_lookup_l _ _ _ _ _ Hpairs Hi) as (b & _ & _ & _ & _ & _ & Hv). unfold valid_next_hop. destruct v; rewrite Hv; by rewrite ?orb_true_r.
Qed.

Definition known_types : list Z :=
  [BGP_ATTR_TYPE_ORIGIN; BGP_ATTR_TYPE_AS_PATH; BGP_ATTR_TYPE_NEXT_HOP; BGP_ATTR_TYPE_MULTI_EXIT_DISC; BGP_ATTR_TYPE_LOCAL_PREF;
   BGP_ATTR_TYPE_ATOMIC_AGGREGATE; BGP_ATTR_TYPE_AGGREGATOR; BGP_ATTR_TYPE_COMMUNITIES; BGP_ATTR_TYPE_ORIGINATOR_ID; BGP_ATTR_TYPE_CLUSTER_LIST;
   BGP_ATTR_TYPE_MP_REACH_NLRI; BGP_ATTR_TYPE_MP_UNREACH_NLRI; BGP_ATTR_TYPE_EXTENDED_COMMUNITIES; BGP_ATTR_TYPE_AS4_PATH;
   BGP_ATTR_TYPE_AS4_AGGREGATOR; BGP_ATTR_TYEP_PMSI_TUNNEL_ATTRIBUTE].

Definition nlris_ok (afi safi : Z) (l : list addr_prefix) : Prop :=
  Forall (λ n, prefix_ok n ∧ class_of n = _get_addr_class afi safi) l.

Definition tunnel_ok (tunnel_type : Z) (id : option pmsi_tunnel_id) : Prop :=
  match id with
  | None => tunnel_type = 0
  | Some (IngressReplication a) => tunnel_type = 6 ∧ ∃ v b, address_of v a b
  | Some (TunnelIdUnknown b) => tunnel_type ≠ 0 ∧ tunnel_type ≠ 6 ∧ Forall is_byte b
  end.

(** The values that can be written, and are not changed by it. *)
Definition body_ok (b : attr_body) : Prop :=
  match b with
  | AOrigin v => 0 ≤ v < 256
  | AAsPath size segs => as_path_ok size segs
  | AAs4Path segs => Forall (segment_ok 4) segs
  | ANextHop a | AOriginatorId a => ipv4_ok a
  | AMultiExitDisc v | ALocalPref v => 0 ≤ v < 2 ^ 32
  | AAtomicAggregate => True
  | AAggregator n a | AAs4Aggregator n a => 0 ≤ n < 2 ^ 32 ∧ ipv4_ok a
  | ACommunities l => Forall (λ c, 0 ≤ c < 2 ^ 32) l
  | AClusterList l => Forall ipv4_ok l
  | AExtendedCommunities l => Forall community_ok l
  | AMpReachNLRI afi safi nhs l => next_hops_ok afi safi nhs ∧ nlris_ok afi safi l
  | AMpUnreachNLRI afi safi l => 0 ≤ afi < 2 ^ 16 ∧ 0 ≤ safi < 256 ∧ nlris_ok afi safi l
  | APmsiTunnel fl ty label id => 0 ≤ fl < 256 ∧ 0 ≤ ty < 256 ∧ length label = 3%nat ∧ Forall is_byte label ∧ tunnel_ok ty id
  | AUnknown ty v => 0 ≤ ty < 256 ∧ ty ∉ known_types ∧ Forall is_byte v
  end.

(** A decoder that has met an AGGREGATOR of eight bytes reads no shorter one. *)
Definition agg_readable (sent received : bool) (b : attr_body) : Prop :=
  match b with AAggregator n _ => aggregator_size sent n = 4%nat ∨ received = false | _ => True end.

Definition agg_after (sent : bool) (received : bool) (b : attr_body) : bool :=
  match b with AAggregator n _ => if bool_decide (aggregator_size sent n = 4%nat) then true else received | _ => received end.

Lemma mp_reach_roundtrip sent received afi safi nhs l :
  next_hops_ok afi safi nhs → nlris_ok afi safi l →
  ∃ bs, serialize_value sent (AMpReachNLRI afi safi nhs l) = Ret (AMpReachNLRI afi safi nhs l, bs) ∧ Forall is_byte bs ∧
    parse_mp_reach bs received = ([], received, Ret (AMpReachNLRI afi safi nhs l)).
Proof.
  intros Hnh Hl. destruct (next_hops_roundtrip afi safi nhs Hnh) as (nh & E & Hb & Hlen & Ep & Hv).
  destruct Hnh as (Hafi & Hsafi & _). assert (0 ≤ afi < 2 ^ 16) as Hafi' by (destruct Hafi as [-> | ->]; done).
  destruct (nlris_roundtrip _ l Hl) as (bs & Es & Hbs & Er).
  assert (0 ≤ Z.of_nat (length nh) < 256 ^ Z.of_nat 1) as Hlen' by (change (256 ^ Z.of_nat 1) with 256; lia).
  eexists. cbn [serialize_value]. rewrite E. cbn [mbind outcome_bind]. rewrite pack3 by done. cbn [mbind outcome_bind]. rewrite Es.
  split; [done|]. split.
  { rewrite !Forall_app. split_and!; try apply be_bytes_are_bytes; [done|by repeat constructor|done]. }
  unfold parse_mp_reach. rewrite <- !app_assoc. rewrite unpack_be, lift_ret_bind by done. rewrite unpack_be, lift_ret_bind by done.
  rewrite unpack_be, lift_ret_bind by done. rewrite Nat2Z.id, take_app_length, drop_app_length. cbn [take drop app].
  rewrite take_0, bool_decide_eq_true_2, drop_0 by done. cbn [assert_]. rewrite ret_bind, (run_bind _ _ _ _ _ _ (Er _ received)).
  rewrite Ep, lift_ret_bind. unfold new_mp_reach. by rewrite Hv.
Qed.

Lemma mp_unreach_roundtrip sent received afi safi l :
  0 ≤ afi < 2 ^ 16 → 0 ≤ safi < 256 → nlris_ok afi safi l →
  ∃ bs, serialize_value sent (AMpUnreachNLRI afi safi l) = Ret (AMpUnreachNLRI afi safi l, bs) ∧ Forall is_byte bs ∧
    parse_mp_unreach bs received = ([], received, Ret (AMpUnreachNLRI afi safi l)).
Proof.
  intros Hafi Hsafi Hl. destruct (nlris_roundtrip _ l Hl) as (bs & Es & Hbs & Er).
  eexists. cbn [serialize_value]. rewrite pack2 by done. cbn [mbind outcome_bind]. rewrite Es.
  split; [done|]. split; [bytes|].
  unfold parse_mp_unreach. rewrite <- !app_assoc. rewrite unpack_be, lift_ret_bind by done. rewrite unpack_be, lift_ret_bind by done.
  by rewrite (run_bind _ _ _ _ _ _ (Er _ received)).
Qed.

Lemma ip_text_of v a b : address_of v a b → ip_text_to_bin a = Ret b.
Proof.
  intros Ha. destruct (address_text v a b Ha) as (Hc & _ & _). unfold ip_text_to_bin. rewrite Hc.
  destruct Ha as (E & _). by destruct v.
Qed.

Lemma pmsi_roundtrip sent fl ty label id :
  0 ≤ fl < 256 → 0 ≤ ty < 256 → length label = 3%nat → Forall is_byte label → tunnel_ok ty id →
  ∃ bs, serialize_value sent (APmsiTunnel fl ty label id) = Ret (APmsiTunnel fl ty label id, bs) ∧ Forall is_byte bs ∧
    parse_pmsi bs = Ret (APmsiTunnel fl ty label id).
Proof.
  intros Hfl Hty Hll Hlb Hid.
  assert (∃ t, match id with None => Ret [] | Some (TunnelIdUnknown v) => Ret v | Some (IngressReplication a) => ip_text_to_bin a end = Ret t ∧
    Forall is_byte t ∧
    (if ty =? 0 then Ret None
     else if ty =? 6 then a ← bin_to_text (if (length t =? 4)%nat then IPv4 else IPv6) t; Ret (Some (IngressReplication a))
     else Ret (Some (TunnelIdUnknown t))) = Ret id) as (t & E & Ht & Ep).
  { destruct id as [[b|a]|]; cbn in Hid.
    - destruct Hid as (H0' & H6' & Hb). exists b. by rewrite (proj2 (Z.eqb_neq _ _) H0'), (proj2 (Z.eqb_neq _ _) H6').
    - destruct Hid as (-> & v & b & Ha). exists b. split; [by eapply ip_text_of|]. destruct Ha as (_ & Et & Hl & Hb). split; [done|].
      cbn [Z.eqb Pos.eqb]. rewrite Hl. destruct v; cbn [addr_size Nat.eqb]; by rewrite Et.
    - exists []. by rewrite Hid. }
  eexists. cbn [serialize_value]. rewrite pack2 by done. cbn [mbind outcome_bind]. rewrite E. cbn [mbind outcome_bind].
  split; [done|]. rewrite pack_s_exact by done. split; [bytes|].
  unfold parse_pmsi. rewrite <- !app_assoc. read_fields. by rewrite Ep.
Qed.

Lemma aggregator_value_roundtrip (four : bool) n a b :
  0 ≤ n < 256 ^ Z.of_nat (if four then 4 else 2) → address_of IPv4 a b →
  let size := (if four then 4 else 2)%nat in
  serialize_aggregator size n a = Ret (be_bytes size n ++ b) ∧ parse_aggregator_value four (be_bytes size n ++ b) = Ret (n, a).
Proof.
  intros Hn (Eb & Et & Hl & Hb) size. subst size. unfold serialize_aggregator, parse_aggregator_value. rewrite Eb. cbn [mbind outcome_bind].
  rewrite pack1, pack_s_exact by done. split; [done|]. read_fields. by rewrite Et.
Qed.

Lemma aggregator_roundtrip sent received n a b :
  0 ≤ n < 2 ^ 32 → address_of IPv4 a b → aggregator_size sent n = 4%nat ∨ received = false →
  let bs := be_bytes (aggregator_size sent n) n ++ b in
  serialize_aggregator (aggregator_size sent n) n a = Ret bs ∧
  parse_aggregator bs received = ([], if bool_decide (aggregator_size sent n = 4%nat) then true else received, Ret (AAggregator n a)).
Proof.
  intros Hn Ha Hr bs. subst bs. assert (length b = 4%nat) as Hlb by apply Ha. unfold parse_aggregator, when.
  rewrite length_app, length_be_bytes, Hlb. unfold aggregator_size in *. destruct ((0xffff <? n) || sent) eqn:E.
  - destruct (aggregator_value_roundtrip true n a b Hn Ha) as [E1 E2]. split; [exact E1|].
    change (4 + 4 =? 8)%nat with true. cbn iota. rewrite bool_decide_eq_true_2 by done.
    unfold mbind, M_bind, put_st, get_st, lift. by rewrite E2.
  - apply orb_false_iff in E as [E _]. assert (0 ≤ n < 65536) as Hn' by lia.
    destruct (aggregator_value_roundtrip false n a b Hn' Ha) as [E1 E2]. split; [exact E1|]. change (2 + 4 =? 8)%nat with false. cbn iota. rewrite bool_decide_eq_false_2 by done.
    destruct Hr as [? | ->]; [done|]. unfold mbind, M_bind, get_st, lift, mret, M_ret. by rewrite E2.
Qed.

Lemma serialize_ipv4_ok a b : address_of IPv4 a b → serialize_ipv4 a = Ret b ∧ parse_ipv4 b = Ret a ∧ Forall is_byte b ∧ length b = 4%nat.
Proof.
  intros (Eb & Et & Hl & Hb). unfold serialize_ipv4, parse_ipv4. rewrite Eb. cbn [mbind outcome_bind]. rewrite pack_s_exact by done.
  rewrite unpack_s_end by done. by rewrite <- Et.
Qed.

Lemma communities_written l :
  Forall (λ c, 0 ≤ c < 2 ^ 32) l →
  pack (pair 4%nat <$> l) = Ret (mjoin (be_bytes 4 <$> l)) ∧ be_value <$> words (mjoin (be_bytes 4 <$> l)) = l.
Proof.
  intros Hl. split.
  - rewrite pack_join by (apply Forall_fmap; by eapply Forall_impl). by rewrite <- list_fmap_compose.
  - rewrite words_join by (apply Forall_fmap, Forall_true; intros; apply length_be_bytes). rewrite <- list_fmap_compose.
    rewrite <- (list_fmap_id l) at 2. apply Forall_fmap_ext_1. eapply Forall_impl; [exact Hl|]. intros c Hc. by apply (be_value_bytes 4).
Qed.

Lemma addresses_written l :
  Forall ipv4_ok l →
  ∃ bs, serialize_list serialize_ipv4 l = Ret bs ∧ Forall is_byte bs ∧ map_m (bin_to_text IPv4) (words bs) = Ret l.
Proof.
  intros Hl. assert (∃ bss, Forall2 (address_of IPv4) l bss) as [bss Hpairs].
  { induction Hl as [|a l [b Hb] _ [bss IH]]; [by exists []|]. exists (b :: bss). by constructor. }
  exists (mjoin bss). split_and!.
  - apply serialize_list_pairs. eapply Forall2_impl; [exact Hpairs|]. intros a b Hab. by apply serialize_ipv4_ok.
  - apply join_bytes. eapply Forall2_Forall_r; [exact Hpairs|]. apply Forall_true. by intros a b (_ & _ & _ & ?).
  - rewrite words_join by (eapply Forall2_Forall_r; [exact Hpairs|]; apply Forall_true; by intros a b (_ & _ & ? & _)).
    apply map_m_pairs, Forall2_flip. eapply Forall2_impl; [exact Hpairs|]. by intros a b (_ & ? & _).
Qed.

Lemma ext_communities_written l :
  Forall community_ok l →
  ∃ bs, serialize_list serialize_community l = Ret bs ∧ Forall is_byte bs ∧
    ∀ received : bool, parse_all (λ b, lift (parse_community b)) (length bs) bs received = ([], received, Ret l).
Proof.
  intros Hl.
  assert (∃ ps : list (ext_community * bytes), ps.*1 = l ∧
    Forall (λ p, serialize_community p.1 = Ret p.2 ∧ Forall is_byte p.2 ∧ p.2 ≠ [] ∧ ∀ rest, parse_community (p.2 ++ rest) = Ret (p.1, rest)) ps)
    as (ps & <- & Hps).
  { induction Hl as [|c l Hc _ (ps & <- & IH)]; [by exists []|]. destruct (community_roundtrip c Hc) as (bs & ? & ? & ? & ?).
    exists ((c, bs) :: ps). split; [done|]. by constructor. }
  exists (mjoin ps.*2). split_and!.
  - apply serialize_list_pairs, Forall2_fmap_2, Forall_Forall2_diag. eapply Forall_impl; [exact Hps|]. by intros p (? & _).
  - apply join_bytes, Forall_fmap. eapply Forall_impl; [exact Hps|]. by intros p (_ & ? & _).
  - intros received. rewrite (parse_all_readable _ (λ s _, s)); [by rewrite foldl_const| |done].
    apply all_readable_pure. eapply Forall_impl; [exact Hps|]. by intros p (_ & _ & ? & ?).
Qed.

Lemma parse_unknown type bs : type ∉ known_types → parse_value type bs = mret (AUnknown type bs).
Proof.
  intros Hn. unfold parse_value. unfold known_types in Hn.
  repeat match goal with |- context [type =? ?t] => rewrite (proj2 (Z.eqb_neq type t)) by (intros ->; apply Hn; rewrite ?elem_of_cons; tauto) end.
  done.
Qed.

(** Turns the choice of a class by its constant type. *)
Local Ltac select_class :=
  cbv [parse_value body_type BGP_ATTR_TYPE_ORIGIN BGP_ATTR_TYPE_AS_PATH BGP_ATTR_TYPE_NEXT_HOP BGP_ATTR_TYPE_MULTI_EXIT_DISC
       BGP_ATTR_TYPE_LOCAL_PREF BGP_ATTR_TYPE_ATOMIC_AGGREGATE BGP_ATTR_TYPE_AGGREGATOR BGP_ATTR_TYPE_COMMUNITIES
       BGP_ATTR_TYPE_ORIGINATOR_ID BGP_ATTR_TYPE_CLUSTER_LIST BGP_ATTR_TYPE_MP_REACH_NLRI BGP_ATTR_TYPE_MP_UNREACH_NLRI
       BGP_ATTR_TYPE_EXTENDED_COMMUNITIES BGP_ATTR_TYPE_AS4_PATH BGP_ATTR_TYPE_AS4_AGGREGATOR
       BGP_ATTR_TYEP_PMSI_TUNNEL_ATTRIBUTE Z.eqb Pos.eqb].

(** A value is written, left as it is, and read back. *)
Lemma value_roundtrip sent b :
  body_ok b →
  ∃ bs, serialize_value sent b = Ret (b, bs) ∧ Forall is_byte bs ∧
    ∀ received, agg_readable sent received b → parse_value (body_type b) bs received = ([], agg_after sent received b, Ret b).
Proof.
  intros Hb. destruct b as [v|size segs|a|v|v| |n a|l|a|l|afi safi nhs l|afi safi l|l|segs|n a|fl ty lb id|ty v]; cbn [body_ok] in Hb;
    cbn [serialize_value agg_after agg_readable].
  - exists (be_bytes 1 v). rewrite pack1 by done. split_and!; [done|bytes|]. intros r _. select_class. by rewrite unpack_be_end, lift_ret_bind by done.
  - exists (mjoin (segment_bytes size <$> segs)). rewrite serialize_as_path_ok by apply Hb. split_and!; [done| |].
    + apply join_bytes, Forall_fmap. eapply Forall_impl; [apply Hb|]. apply segment_bytes_are_bytes.
    + intros r _. select_class. by rewrite parse_as_path_ok, lift_ret_bind by done.
  - destruct Hb as [b Hb]. destruct (serialize_ipv4_ok a b Hb) as (E & Ep & Hby & _). exists b. rewrite E. split_and!; [done..|].
    intros r _. select_class. by rewrite Ep, lift_ret_bind.
  - exists (be_bytes 4 v). rewrite pack1 by done. split_and!; [done|bytes|]. intros r _. select_class. by rewrite unpack_be_end, lift_ret_bind by done.
  - exists (be_bytes 4 v). rewrite pack1 by done. split_and!; [done|bytes|]. intros r _. select_class. by rewrite unpack_be_end, lift_ret_bind by done.
  - by exists [].
  - destruct Hb as [Hn [b Hb]]. exists (be_bytes (aggregator_size sent n) n ++ b).
    rewrite (proj1 (aggregator_roundtrip sent false n a b Hn Hb (or_intror eq_refl))). split_and!; [done| |].
    + apply Forall_app. split; [apply be_bytes_are_bytes|apply Hb].
    + intros r Hr. select_class. by apply aggregator_roundtrip.
  - destruct (communities_written l Hb) as [E Ew]. exists (mjoin (be_bytes 4 <$> l)). rewrite E. split_and!; [done| |].
    + apply join_bytes, Forall_fmap, Forall_true. intros; apply be_bytes_are_bytes.
    + intros r _. select_class. by rewrite Ew.
  - destruct Hb as [b Hb]. destruct (serialize_ipv4_ok a b Hb) as (E & Ep & Hby & _). exists b. rewrite E. split_and!; [done..|].
    intros r _. select_class. by rewrite Ep, lift_ret_bind.
  - destruct (addresses_written l Hb) as (bs & E & Hby & Ep). exists bs. rewrite E. split_and!; [done..|].
    intros r _. select_class. by rewrite Ep, lift_ret_bind.
  - destruct Hb as [Hnh Hl]. destruct (mp_reach_roundtrip sent false afi safi nhs l Hnh Hl) as (bs & E & Hby & _). exists bs. split_and!; [done..|].
    intros r _. destruct (mp_reach_roundtrip sent r afi safi nhs l Hnh Hl) as (bs' & E' & _ & Ep).
    rewrite E in E'. simplify_eq. select_class. exact Ep.
  - destruct Hb as (Hafi & Hsafi & Hl). destruct (mp_unreach_roundtrip sent false afi safi l Hafi Hsafi Hl) as (bs & E & Hby & _).
    exists bs. split_and!; [done..|]. intros r _. destruct (mp_unreach_roundtrip sent r afi safi l Hafi Hsafi Hl) as (bs' & E' & _ & Ep).
    rewrite E in E'. simplify_eq. select_class. exact Ep.
  - destruct (ext_communities_written l Hb) as (bs & E & Hby & Ep). exists bs. rewrite E. split_and!; [done..|].
    intros r _. select_class. by rewrite (run_bind _ _ _ _ _ _ (Ep r)).
  - exists (mjoin (segment_bytes 4 <$> segs)). rewrite serialize_as_path_ok by done. split_and!; [done| |].
    + apply join_bytes, Forall_fmap. eapply Forall_impl; [exact Hb|]. apply segment_bytes_are_bytes.
    + intros r _. select_class. unfold parse_as_path. cbn [mbind outcome_bind]. by rewrite read_segments_ok by done.
  - destruct Hb as [Hn [b Hb]]. destruct (aggregator_value_roundtrip true n a b Hn Hb) as [E Ep]. exists (be_bytes 4 n ++ b). rewrite E.
    split_and!; [done| |].
    + apply Forall_app. split; [apply be_bytes_are_bytes|apply Hb].
    + intros r _. select_class. by rewrite Ep, lift_ret_bind.
  - destruct Hb as (Hfl & Hty & Hll & Hlb & Hid). destruct (pmsi_roundtrip sent fl ty lb id Hfl Hty Hll Hlb Hid) as (bs & E & Hby & Ep).
    exists bs. split_and!; [done..|]. intros r _. select_class. by rewrite Ep.
  - destruct Hb as (_ & Hn & Hby). exists v. split_and!; [done..|]. intros r _. cbn [body_type]. by rewrite parse_unknown.
Qed.

(** ** Flags and lengths *)

Lemma land_byte a x : 0 ≤ a < 2 ^ 8 → 0 ≤ Z.land a x < 2 ^ 8.
Proof.
  intros Ha. rewrite <- (Z.mod_small a (2 ^ 8)), <- Z.land_ones, <- Z.land_assoc, (Z.land_comm (Z.ones 8)), Z.land_assoc, Z.land_ones by lia.
  apply Z.mod_pos_bound. lia.
Qed.

Lemma lor_byte a b : 0 ≤ a < 2 ^ 8 → 0 ≤ b < 2 ^ 8 → 0 ≤ Z.lor a b < 2 ^ 8.
Proof.
  intros Ha Hb. rewrite <- (Z.mod_small a (2 ^ 8)), <- (Z.mod_small b (2 ^ 8)), <- !Z.land_ones, <- Z.land_lor_distr_l, Z.land_ones by lia.
  apply Z.mod_pos_bound. lia.
Qed.

Lemma class_flags_byte b flags : 0 ≤ flags < 2 ^ 8 → 0 ≤ class_flags b flags < 2 ^ 8.
Proof.
  intros Hf. unfold class_flags. destruct (attr_flags b) as [fl|] eqn:E; [|done]. apply lor_byte; [by apply land_byte|].
  destruct b; cbn in E; simplify_eq; by vm_compute.
Qed.

Lemma length_flags_ok len flags :
  0 ≤ flags < 2 ^ 8 →
  0 ≤ length_flags len flags < 2 ^ 8 ∧
  (length_size (length_flags len flags) = 2%nat ∨ length_size (length_flags len flags) = 1%nat ∧ (len ≤ 255)%nat).
Proof.
  intros Hf. unfold length_flags, length_size. destruct (Z.eqb_spec (Z.land flags BGP_ATTR_FLAG_EXTENDED_LENGTH) 0) as [E|E]; cbn [negb].
  2: { split; [done|]. rewrite (proj2 (Z.eqb_neq _ _) E). by left. }
  destruct (Nat.ltb_spec 255 len).
  - split; [by apply lor_byte|]. rewrite Z.land_lor_distr_l, E. by left.
  - split; [by apply land_byte|]. rewrite <- Z.land_assoc, (Z.land_comm (Z.lnot _)), Z.land_lnot_diag, Z.land_0_r. right. by split; [|lia].
Qed.

(** The length of a value in bytes. *)
Definition value_length (four : bool) (b : attr_body) : nat :=
  match serialize_value four b with Ret (_, bs) => length bs | Raise _ => 0 end.

Definition attr_ok (four : bool) (a : path_attr) : Prop :=
  0 ≤ pa_flags a < 256 ∧ body_ok (pa_body a) ∧ Z.of_nat (value_length four (pa_body a)) < 65536.

(** The attribute as [serialize] leaves it: only its flags are changed. *)
Definition fixed_attr (four : bool) (a : path_attr) : path_attr :=
  PathAttr (length_flags (value_length four (pa_body a)) (class_flags (pa_body a) (pa_flags a))) (pa_body a).

Lemma body_type_byte b : body_ok b → 0 ≤ body_type b < 256.
Proof. destruct b; try (intros _; by vm_compute). by intros (? & _). Qed.

Lemma attribute_roundtrip sent a :
  attr_ok sent a →
  ∃ bs, serialize_attribute sent a = Ret (fixed_attr sent a, bs) ∧ Forall is_byte bs ∧ bs ≠ [] ∧
    ∀ received rest, agg_readable sent received (pa_body a) →
      parse_attribute (bs ++ rest) received = ([], agg_after sent received (pa_body a), Ret (fixed_attr sent a, rest)).
Proof.
  intros (Hf & Hb & Hlen). destruct (value_roundtrip sent (pa_body a) Hb) as (v & E & Hv & Hp).
  unfold fixed_attr, value_length in *. rewrite E in Hlen |- *.
  set (fl := length_flags (length v) (class_flags (pa_body a) (pa_flags a))).
  destruct (length_flags_ok (length v) _ (class_flags_byte (pa_body a) _ Hf)) as [Hfl Hsize]. fold fl in Hfl, Hsize.
  pose proof (body_type_byte _ Hb) as Ht.
  assert (0 ≤ Z.of_nat (length v) < 256 ^ Z.of_nat (length_size fl)) as Hl.
  { destruct Hsize as [-> | [-> ?]]; [change (256 ^ Z.of_nat 2) with 65536|change (256 ^ Z.of_nat 1) with 256]; lia. }
  exists ((be_bytes 1 fl ++ be_bytes 1 (body_type (pa_body a))) ++ be_bytes (length_size fl) (Z.of_nat (length v)) ++ v).
  unfold serialize_attribute. rewrite E. cbn [mbind outcome_bind]. fold fl. rewrite pack2 by done. cbn [mbind outcome_bind].
  rewrite pack1 by done. cbn [mbind outcome_bind]. split_and!; [done|bytes|done|]. intros received rest Hr.
  unfold parse_attribute. rewrite <- !app_assoc. rewrite unpack_be, lift_ret_bind by done. rewrite unpack_be, lift_ret_bind by done.
  rewrite unpack_be, lift_ret_bind by done. rewrite Nat2Z.id, take_app_length, drop_app_length.
  by rewrite (run_bind _ _ _ _ _ _ (Hp received Hr)).
Qed.

(** A list of attributes, read one after another. *)
Fixpoint agg_all_readable (sent received : bool) (l : list path_attr) : Prop :=
  match l with
  | [] => True
  | a :: l => agg_readable sent received (pa_body a) ∧ agg_all_readable sent (agg_after sent received (pa_body a)) l
  end.

Definition agg_all_after (sent received : bool) (l : list path_attr) : bool := foldl (λ r a, agg_after sent r (pa_body a)) received l.

Lemma attributes_roundtrip sent l :
  Forall (attr_ok sent) l →
  ∃ bs, serialize_all (serialize_attribute sent) l = Ret (fixed_attr sent <$> l, bs) ∧ Forall is_byte bs ∧
    ∀ received, agg_all_readable sent received l →
      parse_all parse_attribute (length bs) bs received = ([], agg_all_after sent received l, Ret (fixed_attr sent <$> l)).
Proof.
  intros Hl.
  destruct (serialize_all_pairs (serialize_attribute sent) (λ x y bs, y = fixed_attr sent x ∧ Forall is_byte bs ∧ bs ≠ [] ∧
    ∀ received rest, agg_readable sent received (pa_body x) →
      parse_attribute (bs ++ rest) received = ([], agg_after sent received (pa_body x), Ret (y, rest))) l) as (ys & E & Hpairs).
  { eapply Forall_impl; [exact Hl|]. intros a Ha. destruct (attribute_roundtrip sent a Ha) as (bs & ? & ? & ? & ?).
    by exists (fixed_attr sent a), bs. }
  assert (ys.*1 = fixed_attr sent <$> l) as Ey by (clear -Hpairs; induction Hpairs as [|? ? ? ? (? & _)]; [done|by f_equal/=]).
  exists (mjoin ys.*2). rewrite E, Ey. split_and!; [done| |].
  - apply join_bytes, Forall_fmap. eapply Forall2_Forall_r; [exact Hpairs|]. apply Forall_true. by intros x yb (_ & ? & _).
  - intros received Hr.
    rewrite (parse_all_readable _ (λ r a, agg_after sent r (pa_body a)) ys received); [| |done].
    + rewrite Ey. f_equal. f_equal. unfold agg_all_after. clear -l. revert received. induction l as [|a l IH]; intros r; [done|]. cbn. apply IH.
    + clear -Hpairs Hr. revert received Hr. induction Hpairs as [|a [y bs] l ys (Hy & _ & Hne & Hp) _ IH]; intros received Hr; [done|].
      cbn [fst snd] in *. destruct Hr as [Hr Hrs]. split_and!; [done| |by subst y; apply IH]. intros rest. rewrite Hp by done. by subst y.
Qed.
End values_roundtrip.

(** C34: An AS path of exactly one nonempty sequence of at most 255 numbers that is written with
    four octets is read as such if no number in it has 1 or 2 as its third byte or uses its first
    byte: the decoder guesses the size of the numbers from the bytes. *)
Theorem four_octet_path_read l :
  l ≠ [] → (length l ≤ 255)%nat → Forall tells_four_octets l →
  ∃ bs, serialize_as_path 4 [AsSequence l] = Ret bs ∧ parse_as_path false bs = Ret (4%nat, [AsSequence l]).
Proof.
  intros Hne Hl Hn.
  assert (segment_ok 4 (AsSequence l)) as Hs.
  { split_and!; [done|done| |done]. eapply Forall_impl; [exact Hn|]. intros n [Hr _]. change (256 ^ Z.of_nat 4) with (2 ^ 32). lia. }
  exists (mjoin (segment_bytes 4 <$> [AsSequence l])). split; [apply serialize_as_path_ok; by constructor|].
  apply parse_as_path_ok. split; [by constructor|]. right. split; [done|].
  change (mjoin (segment_bytes 4 <$> [AsSequence l])) with (segment_bytes 4 (AsSequence l) ++ []). rewrite app_nil_r.
  by apply four_octets_not_16bit.
Qed.

Lemma four_octet_path_read_witness :
  ∃ bs, serialize_as_path 4 [AsSequence [65001; 200000; 64512]] = Ret bs ∧
    parse_as_path false bs = Ret (4%nat, [AsSequence [65001; 200000; 64512]]).
Proof.
  apply (four_octet_path_read [65001; 200000; 64512]); [done|cbn; lia|].
  repeat (apply Forall_cons; split; [split_and!; vm_compute; try done; intros ?; done|]). constructor.
Defined.

(** ** Faults *)

Module WireFaults.
Import PlainAddresses.

#[local] Instance no_communities : ForeignCommunities := {| fcomm := Empty_set; fcomm_parse _ _ := Raise StructError; fcomm_serialize c := match c with end |}.

(** The AS number 256, alone in a path and with four octets, is read as 0 and an empty set. *)
Example as_256_misread :
  serialize_as_path 4 [AsSequence [256]] = Ret [2; 1; 0; 0; 1; 0] ∧
  parse_as_path false [2; 1; 0; 0; 1; 0] = Ret (2%nat, [AsSequence [0]; AsSet []]).
Proof. split; vm_compute; reflexivity. Qed.

(** After one AGGREGATOR with four octets those with two, which speakers without four octets send,
    raise in all sessions of the process. *)
Definition aggregator6 : bytes := [0xc0; 7; 6; 253; 232; 192; 0; 2; 1].
Definition aggregator8 : bytes := [0xc0; 7; 8; 0; 0; 253; 232; 192; 0; 2; 1].

Example aggregator_format_sticks :
  result (parse_attribute aggregator6) false = Ret (PathAttr 0xc0 (AAggregator 65000 (chars IPv4 [192; 0; 2; 1])), []) ∧
  final (parse_attribute aggregator8) false = true ∧
  result (parse_attribute aggregator6) true = Raise StructError.
Proof. split_and!; vm_compute; reflexivity. Qed.
End WireFaults.
