(* ===== verification/BgpMsg.v ===== *)
(** * BGP messages and their bytes

    Models the message classes of [ryu/lib/packet/bgp.py] with their encoders and decoders: the
    header, OPEN with its optional parameters and capabilities, UPDATE, KEEPALIVE, NOTIFICATION
    and ROUTE-REFRESH.  Prefixes and path attributes are those of [BgpPrefix] and [BgpWire].
    Fields that hold lengths, which encoders ignore and set, and the marker are left out. *)

From stdpp Require Import base list strings.
From Stdlib Require Import ZArith Lia.
From S2P Require Import Prelude Odict Struct BgpDecision BgpAttr BgpOpen BgpPrefix BgpWire.

Open Scope Z_scope.
Set Default Proof Using "Type*".

(** ** Optional parameters *)

Definition BGP_OPT_CAPABILITY : Z := 2.
Definition BGP_CAP_CARRYING_LABEL_INFO : Z := 4.
Definition BGP_CAP_GRACEFUL_RESTART : Z := 64.
Definition BGP_CAP_ROUTE_REFRESH_CISCO : Z := 128.

(** The capabilities without a value. *)
Definition empty_capabilities : list Z :=
  [BGP_CAP_ROUTE_REFRESH; BGP_CAP_ROUTE_REFRESH_CISCO; BGP_CAP_ENHANCED_ROUTE_REFRESH; BGP_CAP_CARRYING_LABEL_INFO].

Inductive capability :=
| EmptyCapability (code : Z)
| GracefulRestart (flags time : Z) (tuples : list (Z * Z * Z))
| FourOctetAsNumber (as_number : Z)
| Multiprotocol (afi safi reserved : Z)
| CapabilityUnknown (code : Z) (value : bytes).

Inductive wire_param :=
| Capability (c : capability)
| ParamUnknown (type : Z) (value : bytes).

Definition capability_code (c : capability) : Z :=
  match c with
  | EmptyCapability code | CapabilityUnknown code _ => code
  | GracefulRestart _ _ _ => BGP_CAP_GRACEFUL_RESTART
  | FourOctetAsNumber _ => BGP_CAP_FOUR_OCTET_AS_NUMBER
  | Multiprotocol _ _ _ => BGP_CAP_MULTIPROTOCOL
  end.

Definition restart_tuple (b : bytes) : Z * Z * Z := (be_value (take 2 b), be_value (take 1 (drop 2 b)), be_value (drop 3 b)).

(** [parse_cap_value]: the buffer goes on to the end of the parameter. *)
Definition parse_cap_value (code : Z) (buf : bytes) : outcome pyexn capability :=
  if bool_decide (code ∈ empty_capabilities) then Ret (EmptyCapability code)
  else if code =? BGP_CAP_GRACEFUL_RESTART then
    '(restart, rest) ← unpack_field 2 buf;
    Ret (GracefulRestart (Z.shiftr restart 12) (Z.land restart 0xfff) (restart_tuple <$> words rest))
  else if code =? BGP_CAP_FOUR_OCTET_AS_NUMBER then '(as_number, _) ← unpack_field 4 buf; Ret (FourOctetAsNumber as_number)
  else if code =? BGP_CAP_MULTIPROTOCOL then
    '(afi, rest) ← unpack_field 2 buf; '(reserved, rest) ← unpack_field 1 rest; '(safi, _) ← unpack_field 1 rest;
    Ret (Multiprotocol afi safi reserved)
  else Ret (CapabilityUnknown code buf).

(** The loop over the capabilities of one parameter. *)
Fixpoint parse_capabilities (fuel : nat) (buf : bytes) : outcome pyexn (list capability) :=
  match buf with
  | [] => Ret []
  | _ =>
      match fuel with
      | O => Raise OutOfFuel
      | S fuel =>
          '(code, rest) ← unpack_field 1 buf;
          '(len, value) ← unpack_field 1 rest;
          c ← parse_cap_value code value;
          cs ← parse_capabilities fuel (drop (Z.to_nat len) value);
          Ret (c :: cs)
      end
  end.

(** [_OptParam.parser] *)
Definition parse_param (buf : bytes) : outcome pyexn (list wire_param * bytes) :=
  '(type, rest) ← unpack_field 1 buf;
  '(len, rest) ← unpack_field 1 rest;
  let n := Z.to_nat len in
  let value := take n rest in
  if type =? BGP_OPT_CAPABILITY then
    cs ← parse_capabilities (length value) value;
    Ret (Capability <$> (cs : list capability), drop n rest)
  else Ret ([ParamUnknown type value], drop n rest).

(** [serialize_cap_value]; the reserved byte is cleared. *)
Definition cap_value (c : capability) : outcome pyexn bytes :=
  match c with
  | EmptyCapability _ => Ret []
  | GracefulRestart flags time tuples =>
      h ← pack [(2%nat, Z.lor (Z.shiftl flags 12) time)];
      ts ← serialize_list (λ '(afi, safi, flags), pack [(2%nat, afi); (1%nat, safi); (1%nat, flags)]) tuples;
      Ret (h ++ ts)
  | FourOctetAsNumber as_number => pack [(4%nat, as_number)]
  | Multiprotocol afi safi _ => pack [(2%nat, afi); (1%nat, 0); (1%nat, safi)]
  | CapabilityUnknown _ value => Ret value
  end.

Definition fixed_param (p : wire_param) : wire_param :=
  match p with Capability (Multiprotocol afi safi _) => Capability (Multiprotocol afi safi 0) | _ => p end.

Definition param_type (p : wire_param) : Z := match p with Capability _ => BGP_OPT_CAPABILITY | ParamUnknown type _ => type end.

Definition param_value (p : wire_param) : outcome pyexn bytes :=
  match p with
  | Capability c =>
      value ← cap_value c;
      h ← pack [(1%nat, capability_code c); (1%nat, Z.of_nat (length value))];
      Ret (h ++ value)
  | ParamUnknown _ value => Ret value
  end.

Definition serialize_param (p : wire_param) : outcome pyexn bytes :=
  value ← param_value p;
  h ← pack [(1%nat, param_type p); (1%nat, Z.of_nat (length value))];
  Ret (h ++ value).

(** ** Messages *)

Inductive message `{ForeignNlri} `{ForeignCommunities} :=
| BGPOpen (version my_as hold_time : Z) (bgp_identifier : string) (opt_param : list wire_param)
| BGPUpdate (withdrawn_routes : list addr_prefix) (path_attributes : list path_attr) (nlri : list addr_prefix)
| BGPNotification (error_code error_subcode : Z) (data : bytes)
| BGPKeepAlive
| BGPRouteRefresh (afi safi demarcation : Z).

Definition BGP_MSG_OPEN : Z := 1.
Definition BGP_MSG_UPDATE : Z := 2.
Definition BGP_MSG_NOTIFICATION : Z := 3.
Definition BGP_MSG_KEEPALIVE : Z := 4.
Definition BGP_MSG_ROUTE_REFRESH : Z := 5.

Definition _MARKER : bytes := replicate 16 0xff.
Definition _HDR_LEN : nat := 19.
Definition TooSmall : pyexn := RyuException "TooSmallException".

Section messages.
Context `{Addresses} `{ForeignNlri} `{ForeignCommunities}.

Abbreviation W := (M bool pyexn Empty_set).

Definition message_type (m : message) : Z :=
  match m with
  | BGPOpen _ _ _ _ _ => BGP_MSG_OPEN
  | BGPUpdate _ _ _ => BGP_MSG_UPDATE
  | BGPNotification _ _ _ => BGP_MSG_NOTIFICATION
  | BGPKeepAlive => BGP_MSG_KEEPALIVE
  | BGPRouteRefresh _ _ _ => BGP_MSG_ROUTE_REFRESH
  end.

Definition parse_open (buf : bytes) : W message :=
  '(version, rest) ← lift (unpack_field 1 buf);
  '(my_as, rest) ← lift (unpack_field 2 rest);
  '(hold_time, rest) ← lift (unpack_field 2 rest);
  '(id, rest) ← lift (unpack_s 4 rest);
  '(opt_param_len, rest) ← lift (unpack_field 1 rest);
  let binopts := take (Z.to_nat opt_param_len) rest in
  opts ← parse_all (λ b, lift (parse_param b)) (length binopts) binopts;
  bgp_identifier ← lift (bin_to_text IPv4 id);
  mret (BGPOpen version my_as hold_time bgp_identifier (mjoin opts)).

(** Slices that end after the buffer are cut; the second length must be in it. *)
Definition parse_update (buf : bytes) : W message :=
  '(withdrawn_routes_len, rest) ← lift (unpack_field 2 buf);
  let binroutes := take (Z.to_nat withdrawn_routes_len) rest in
  '(total_path_attribute_len, rest) ← lift (unpack_field 2 (drop (Z.to_nat withdrawn_routes_len) rest));
  let binpathattrs := take (Z.to_nat total_path_attribute_len) rest in
  withdrawn_routes ← parse_nlris (AcPlain IPv4) binroutes;
  path_attributes ← parse_all parse_attribute (length binpathattrs) binpathattrs;
  nlri ← parse_nlris (AcPlain IPv4) (drop (Z.to_nat total_path_attribute_len) rest);
  mret (BGPUpdate withdrawn_routes path_attributes nlri).

Definition parse_notification (buf : bytes) : outcome pyexn message :=
  '(error_code, rest) ← unpack_field 1 buf;
  '(error_subcode, rest) ← unpack_field 1 rest;
  Ret (BGPNotification error_code error_subcode rest).

Definition parse_route_refresh (buf : bytes) : outcome pyexn message :=
  '(afi, rest) ← unpack_field 2 buf;
  '(demarcation, rest) ← unpack_field 1 rest;
  '(safi, _) ← unpack_field 1 rest;
  Ret (BGPRouteRefresh afi safi demarcation).

(** The parsers by type; a type without class has no parser. *)
Definition parse_body (type : Z) (buf : bytes) : W message :=
  if type =? BGP_MSG_OPEN then parse_open buf
  else if type =? BGP_MSG_UPDATE then parse_update buf
  else if type =? BGP_MSG_NOTIFICATION then lift (parse_notification buf)
  else if type =? BGP_MSG_KEEPALIVE then mret BGPKeepAlive
  else if type =? BGP_MSG_ROUTE_REFRESH then lift (parse_route_refresh buf)
  else raise AttributeError.

(** [BGPMessage.parser] *)
Definition parse_message (buf : bytes) : W (message * bytes) :=
  assert_ (19 <=? length buf)%nat TooSmall;;
  '(_, rest) ← lift (unpack_s 16 buf);
  '(len, rest) ← lift (unpack_field 2 rest);
  '(type, rest) ← lift (unpack_field 1 rest);
  let msglen := Z.to_nat len in
  assert_ (msglen <=? length buf)%nat TooSmall;;
  msg ← parse_body type (take (msglen - _HDR_LEN) rest);
  mret (msg, drop msglen buf).

(** [serialize_tail], with the message afterwards. *)
Definition serialize_tail (four : bool) (m : message) : outcome pyexn (message * bytes) :=
  match m with
  | BGPOpen _ my_as hold_time id opts =>
      binopts ← serialize_list serialize_param opts;
      b ← text_to_bin IPv4 id;
      h ← pack [(1%nat, 4); (2%nat, my_as); (2%nat, hold_time)];
      l ← pack [(1%nat, Z.of_nat (length binopts))];
      Ret (BGPOpen 4 my_as hold_time id (fixed_param <$> opts), h ++ pack_s 4 b ++ l ++ binopts)
  | BGPUpdate wd attrs nlri =>
      '((wd, binroutes) : list addr_prefix * bytes) ← serialize_all serialize wd;
      '((attrs, binattrs) : list path_attr * bytes) ← serialize_all (serialize_attribute four) attrs;
      '((nlri, binnlri) : list addr_prefix * bytes) ← serialize_all serialize nlri;
      l1 ← pack [(2%nat, Z.of_nat (length binroutes))];
      l2 ← pack [(2%nat, Z.of_nat (length binattrs))];
      Ret (BGPUpdate wd attrs nlri, l1 ++ binroutes ++ l2 ++ binattrs ++ binnlri)
  | BGPNotification c sc data =>
      h ← pack [(1%nat, c); (1%nat, sc)];
      Ret (m, h ++ data)
  | BGPKeepAlive => Ret (m, [])
  | BGPRouteRefresh afi safi demarcation =>
      b ← pack [(2%nat, afi); (1%nat, demarcation); (1%nat, safi)];
      Ret (m, b)
  end.

(** [BGPMessage.serialize] *)
Definition serialize_message (four : bool) (m : message) : outcome pyexn (message * bytes) :=
  '((m', tail) : message * bytes) ← serialize_tail four m;
  hdr ← pack [(2%nat, Z.of_nat (_HDR_LEN + length tail)); (1%nat, message_type m)];
  Ret (m', _MARKER ++ hdr ++ tail).
End messages.

(** ** Capabilities *)

Definition tuple_ok (t : Z * Z * Z) : Prop := 0 ≤ t.1.1 < 2 ^ 16 ∧ 0 ≤ t.1.2 < 256 ∧ 0 ≤ t.2 < 256.

Definition capability_ok (c : capability) : Prop :=
  match c with
  | EmptyCapability code => code ∈ empty_capabilities
  | GracefulRestart flags time tuples => 0 ≤ flags < 16 ∧ 0 ≤ time < 4096 ∧ Forall tuple_ok tuples ∧ (length tuples ≤ 62)%nat
  | FourOctetAsNumber n => 0 ≤ n < 2 ^ 32
  | Multiprotocol afi safi _ => 0 ≤ afi < 2 ^ 16 ∧ 0 ≤ safi < 256
  | CapabilityUnknown code value =>
      0 ≤ code < 256 ∧ code ∉ empty_capabilities ++ [BGP_CAP_GRACEFUL_RESTART; BGP_CAP_FOUR_OCTET_AS_NUMBER; BGP_CAP_MULTIPROTOCOL] ∧
      Forall is_byte value ∧ (length value ≤ 253)%nat
  end.

Definition param_ok (p : wire_param) : Prop :=
  match p with
  | Capability c => capability_ok c
  | ParamUnknown type value => 0 ≤ type < 256 ∧ type ≠ BGP_OPT_CAPABILITY ∧ Forall is_byte value ∧ (length value ≤ 255)%nat
  end.

Definition fixed_cap (c : capability) : capability := match c with Multiprotocol afi safi _ => Multiprotocol afi safi 0 | _ => c end.

Lemma fixed_param_cap c : fixed_param (Capability c) = Capability (fixed_cap c).
Proof. by destruct c. Qed.

Lemma tuples_written tuples :
  Forall tuple_ok tuples →
  ∃ bs, serialize_list (λ '(afi, safi, flags), pack [(2%nat, afi); (1%nat, safi); (1%nat, flags)]) tuples = Ret bs ∧ Forall is_byte bs ∧
    length bs = (4 * length tuples)%nat ∧ restart_tuple <$> words bs = tuples.
Proof.
  set (f := λ t : Z * Z * Z, be_bytes 2 t.1.1 ++ be_bytes 1 t.1.2 ++ be_bytes 1 t.2). intros Ht.
  assert (∀ t, length (f t) = 4%nat) as Hl by done. exists (mjoin (f <$> tuples)). split_and!.
  - apply serialize_list_pairs, Forall2_fmap_r, Forall_Forall2_diag. eapply Forall_impl; [exact Ht|].
    intros [[afi safi] fl] (? & ? & ?). by rewrite pack3.
  - apply join_bytes, Forall_fmap, Forall_true. intros t. unfold compose, f. rewrite !Forall_app. split_and!; apply be_bytes_are_bytes.
  - by apply (length_join_const f).
  - rewrite words_join by (by apply Forall_fmap, Forall_true). rewrite <- list_fmap_compose. rewrite <- (list_fmap_id tuples) at 2.
    apply Forall_fmap_ext_1. eapply Forall_impl; [exact Ht|]. intros [[afi safi] fl] (H1 & H2 & H3). cbn [fst snd] in *.
    unfold compose, restart_tuple, f. cbn [fst snd id].
    change (take 2 (be_bytes 2 afi ++ be_bytes 1 safi ++ be_bytes 1 fl)) with (be_bytes 2 afi).
    change (take 1 (drop 2 (be_bytes 2 afi ++ be_bytes 1 safi ++ be_bytes 1 fl))) with (be_bytes 1 safi).
    change (drop 3 (be_bytes 2 afi ++ be_bytes 1 safi ++ be_bytes 1 fl)) with (be_bytes 1 fl). by rewrite !be_value_bytes by done.
Qed.

Lemma cap_roundtrip c :
  capability_ok c →
  0 ≤ capability_code c < 256 ∧
  ∃ v, cap_value c = Ret v ∧ Forall is_byte v ∧ (length v ≤ 253)%nat ∧ parse_cap_value (capability_code c) v = Ret (fixed_cap c).
Proof.
  intros Hc. destruct c as [code|fl t ts|n|afi safi r|code v]; cbn [capability_ok capability_code cap_value fixed_cap] in *; unfold parse_cap_value.
  - split; [|exists []; split_and!; [done|done|cbn; lia|by rewrite bool_decide_eq_true_2]].
    apply list_elem_of_In in Hc. cbn in Hc. repeat (destruct Hc as [<-|Hc]; [done|]). done.
  - split; [done|]. destruct Hc as (Hfl & Ht & Hts & Hl). destruct (tuples_written ts Hts) as (bs & E & Hb & Hbl & Ew).
    assert (Z.lor (Z.shiftl fl 12) t = fl * 2 ^ 12 + t) as El by (apply lor_shifted; lia).
    assert (0 ≤ fl * 2 ^ 12 + t < 256 ^ Z.of_nat 2) as Hr by (change (256 ^ Z.of_nat 2) with 65536; change (2 ^ 12) with 4096; lia).
    rewrite E, El, pack1 by done. cbn [mbind outcome_bind]. exists (be_bytes 2 (fl * 2 ^ 12 + t) ++ bs).
    split_and!; [done|bytes|rewrite length_app, length_be_bytes; lia|]. change (bool_decide (BGP_CAP_GRACEFUL_RESTART ∈ empty_capabilities)) with false.
    cbn iota. change (BGP_CAP_GRACEFUL_RESTART =? BGP_CAP_GRACEFUL_RESTART) with true. cbn iota. read_fields. rewrite Ew.
    change 0xfff with (Z.ones 12). by rewrite shifted_high, shifted_low by lia.
  - split; [done|]. rewrite pack1 by done. exists (be_bytes 4 n). split_and!; [done|bytes|cbn; lia|].
    change (bool_decide (BGP_CAP_FOUR_OCTET_AS_NUMBER ∈ empty_capabilities)) with false. cbn iota.
    change (BGP_CAP_FOUR_OCTET_AS_NUMBER =? BGP_CAP_GRACEFUL_RESTART) with false.
    change (BGP_CAP_FOUR_OCTET_AS_NUMBER =? BGP_CAP_FOUR_OCTET_AS_NUMBER) with true. cbn iota. by read_fields.
  - split; [done|]. destruct Hc as [Ha Hs]. rewrite pack3 by done. exists (be_bytes 2 afi ++ be_bytes 1 0 ++ be_bytes 1 safi).
    split_and!; [done|bytes|cbn; lia|]. change (bool_decide (BGP_CAP_MULTIPROTOCOL ∈ empty_capabilities)) with false. cbn iota.
    change (BGP_CAP_MULTIPROTOCOL =? BGP_CAP_GRACEFUL_RESTART) with false.
    change (BGP_CAP_MULTIPROTOCOL =? BGP_CAP_FOUR_OCTET_AS_NUMBER) with false.
    change (BGP_CAP_MULTIPROTOCOL =? BGP_CAP_MULTIPROTOCOL) with true. cbn iota. by read_fields.
  - destruct Hc as (Hcode & Hn & Hb & Hl). split; [done|]. exists v. split_and!; [done..|]. rewrite elem_of_app, !elem_of_cons in Hn.
    rewrite bool_decide_eq_false_2 by tauto. by rewrite !(proj2 (Z.eqb_neq code _)) by tauto.
Qed.

Lemma param_roundtrip p :
  param_ok p →
  ∃ bs, serialize_param p = Ret bs ∧ Forall is_byte bs ∧ bs ≠ [] ∧ ∀ rest, parse_param (bs ++ rest) = Ret ([fixed_param p], rest).
Proof.
  intros Hp.
  assert (∃ v, param_value p = Ret v ∧ Forall is_byte v ∧ (length v ≤ 255)%nat ∧ 0 ≤ param_type p < 256 ∧
    (if param_type p =? BGP_OPT_CAPABILITY then cs ← parse_capabilities (length v) v; Ret (Capability <$> (cs : list capability))
     else Ret [ParamUnknown (param_type p) v]) = Ret [fixed_param p]) as (v & E & Hb & Hl & Ht & Ep).
  { destruct p as [c|ty v]; cbn [param_ok param_value param_type] in *.
    - destruct (cap_roundtrip c Hp) as (Hc & v & E & Hb & Hl & Ep). exists (be_bytes 1 (capability_code c) ++ be_bytes 1 (Z.of_nat (length v)) ++ v).
      rewrite E. cbn [mbind outcome_bind]. assert (0 ≤ Z.of_nat (length v) < 256 ^ Z.of_nat 1) as Hlv by (change (256 ^ Z.of_nat 1) with 256; lia).
      rewrite pack2 by done. cbn [mbind outcome_bind]. rewrite <- app_assoc. rewrite !length_app, !length_be_bytes.
      split_and!; [done|bytes|lia|done..|]. change (BGP_OPT_CAPABILITY =? BGP_OPT_CAPABILITY) with true. cbn iota.
      change (parse_capabilities (1 + (1 + length v)) (be_bytes 1 (capability_code c) ++ be_bytes 1 (Z.of_nat (length v)) ++ v)) with
        ('(code, rest) ← unpack_field 1 (be_bytes 1 (capability_code c) ++ be_bytes 1 (Z.of_nat (length v)) ++ v);
         '(len, value) ← unpack_field 1 rest;
         c ← parse_cap_value code value;
         cs ← parse_capabilities (1 + length v) (drop (Z.to_nat len) value);
         Ret (c :: cs)).
      read_fields. rewrite Ep. cbn [mbind outcome_bind]. rewrite Nat2Z.id, drop_all. cbn. by destruct c.
    - destruct Hp as ([? ?] & Hne & Hb & Hl). exists v. rewrite (proj2 (Z.eqb_neq _ _) Hne). by split_and!. }
  exists (be_bytes 1 (param_type p) ++ be_bytes 1 (Z.of_nat (length v)) ++ v). unfold serialize_param. rewrite E. cbn [mbind outcome_bind].
  assert (0 ≤ Z.of_nat (length v) < 256 ^ Z.of_nat 1) as Hlv by (change (256 ^ Z.of_nat 1) with 256; lia).
  rewrite pack2 by done. cbn [mbind outcome_bind]. rewrite <- app_assoc. split_and!; [done|bytes|done|]. intros rest. unfold parse_param.
  rewrite <- !app_assoc. read_fields. rewrite Nat2Z.id, take_app_length, drop_app_length. destruct (param_type p =? BGP_OPT_CAPABILITY).
  - destruct (parse_capabilities (length v) v) as [cs|]; [|done]. cbn [mbind outcome_bind] in *. congruence.
  - congruence.
Qed.

(** ** Round trip *)

Section roundtrip.
Context `{Addresses, !AddressLaws} `{ForeignNlri, !ForeignLaws} `{ForeignCommunities, !ForeignCommunityLaws}.

Lemma params_roundtrip l :
  Forall param_ok l →
  ∃ bs, serialize_list serialize_param l = Ret bs ∧ Forall is_byte bs ∧
    ∀ received : bool, ∃ ls, parse_all (λ b, lift (parse_param b)) (length bs) bs received = ([], received, Ret ls) ∧ mjoin ls = fixed_param <$> l.
Proof.
  intros Hl.
  assert (∃ ps : list (list wire_param * bytes), ps.*1 = (λ p, [fixed_param p]) <$> l ∧ Forall2 (λ p b, serialize_param p = Ret b) l ps.*2 ∧
    Forall (λ p, Forall is_byte p.2 ∧ p.2 ≠ [] ∧ ∀ rest, parse_param (p.2 ++ rest) = Ret (p.1, rest)) ps) as (ps & E1 & E2 & Hps).
  { induction Hl as [|p l Hp _ (ps & E1 & E2 & IH)]; [by exists []|]. destruct (param_roundtrip p Hp) as (bs & E & Hb & Hne & Hr).
    exists (([fixed_param p], bs) :: ps). split_and!; [by cbn; rewrite E1|by constructor|by constructor]. }
  exists (mjoin ps.*2). split_and!; [by apply serialize_list_pairs| |].
  - apply join_bytes, Forall_fmap. eapply Forall_impl; [exact Hps|]. by intros p (? & _).
  - intros received. exists ps.*1. split.
    + rewrite (parse_all_readable _ (λ s _, s)); [by rewrite foldl_const| |done].
      apply all_readable_pure. eapply Forall_impl; [exact Hps|]. by intros p (_ & ? & ?).
    + rewrite E1. clear. induction l as [|p l IH]; [done|]. change (fixed_param p :: mjoin ((λ p, [fixed_param p]) <$> l) = fixed_param p :: (fixed_param <$> l)).
      by rewrite IH.
Qed.

Definition ipv4_nlris_ok (l : list addr_prefix) : Prop := Forall (λ n, prefix_ok n ∧ class_of n = AcPlain IPv4) l.

Definition all_length {A} (ser : A → outcome pyexn (A * bytes)) (l : list A) : nat :=
  match serialize_all ser l with Ret (_, bs) => length bs | Raise _ => 0 end.

(** The messages that can be written: fields in their ranges, parts that are not too long. *)
Definition message_ok (sent : bool) (m : message) : Prop :=
  match m with
  | BGPOpen _ my_as hold_time id opts =>
      0 ≤ my_as < 2 ^ 16 ∧ 0 ≤ hold_time < 2 ^ 16 ∧ ipv4_ok id ∧ Forall param_ok opts ∧
      (match serialize_list serialize_param opts with Ret bs => length bs | Raise _ => 0 end ≤ 255)%nat
  | BGPUpdate wd attrs nlri =>
      ipv4_nlris_ok wd ∧ Forall (attr_ok sent) attrs ∧ ipv4_nlris_ok nlri ∧
      Z.of_nat (all_length serialize wd) < 65536 ∧ Z.of_nat (all_length (serialize_attribute sent) attrs) < 65536
  | BGPNotification c sc data => 0 ≤ c < 256 ∧ 0 ≤ sc < 256 ∧ Forall is_byte data
  | BGPKeepAlive => True
  | BGPRouteRefresh afi safi demarcation => 0 ≤ afi < 2 ^ 16 ∧ 0 ≤ safi < 256 ∧ 0 ≤ demarcation < 256
  end.

(** The message as [serialize] leaves it. *)
Definition fixed_message (sent : bool) (m : message) : message :=
  match m with
  | BGPOpen _ my_as hold_time id opts => BGPOpen 4 my_as hold_time id (fixed_param <$> opts)
  | BGPUpdate wd attrs nlri => BGPUpdate wd (fixed_attr sent <$> attrs) nlri
  | _ => m
  end.

Definition message_readable (sent received : bool) (m : message) : Prop :=
  match m with BGPUpdate _ attrs _ => agg_all_readable sent received attrs | _ => True end.

Definition message_after (sent received : bool) (m : message) : bool :=
  match m with BGPUpdate _ attrs _ => agg_all_after sent received attrs | _ => received end.

Lemma open_roundtrip my_as hold_time id opts version :
  0 ≤ my_as < 2 ^ 16 → 0 ≤ hold_time < 2 ^ 16 → ipv4_ok id → Forall param_ok opts →
  (match serialize_list serialize_param opts with Ret bs => length bs | Raise _ => 0 end ≤ 255)%nat →
  ∃ bs, (∀ sent, serialize_tail sent (BGPOpen version my_as hold_time id opts) = Ret (BGPOpen 4 my_as hold_time id (fixed_param <$> opts), bs)) ∧
    Forall is_byte bs ∧ ∀ received, parse_open bs received = ([], received, Ret (BGPOpen 4 my_as hold_time id (fixed_param <$> opts))).
Proof.
  intros Has Hht [b (Eb & Et & Hlb & Hb)] Hopts Hlen. destruct (params_roundtrip opts Hopts) as (bo & E & Hbo & Hr). rewrite E in Hlen.
  assert (0 ≤ Z.of_nat (length bo) < 256 ^ Z.of_nat 1) as Hlo by (change (256 ^ Z.of_nat 1) with 256; lia).
  exists ((be_bytes 1 4 ++ be_bytes 2 my_as ++ be_bytes 2 hold_time) ++ b ++ be_bytes 1 (Z.of_nat (length bo)) ++ bo). split_and!.
  - intros sent. cbn [serialize_tail]. rewrite E. cbn [mbind outcome_bind]. rewrite Eb. cbn [mbind outcome_bind]. rewrite pack3 by done.
    cbn [mbind outcome_bind]. rewrite pack1 by done. cbn [mbind outcome_bind]. by rewrite pack_s_exact.
  - bytes.
  - intros received. unfold parse_open. rewrite <- !app_assoc.
    do 3 rewrite unpack_be, lift_ret_bind by done. rewrite unpack_s_app, lift_ret_bind by done. rewrite unpack_be, lift_ret_bind by done.
    rewrite Nat2Z.id, take_ge by done. destruct (Hr received) as (ls & Ep & Ej). rewrite (run_bind _ _ _ _ _ _ Ep).
    by rewrite Et, lift_ret_bind, Ej.
Qed.

Lemma update_roundtrip sent wd attrs nlri :
  ipv4_nlris_ok wd → Forall (attr_ok sent) attrs → ipv4_nlris_ok nlri →
  Z.of_nat (all_length serialize wd) < 65536 → Z.of_nat (all_length (serialize_attribute sent) attrs) < 65536 →
  ∃ bs, serialize_tail sent (BGPUpdate wd attrs nlri) = Ret (BGPUpdate wd (fixed_attr sent <$> attrs) nlri, bs) ∧ Forall is_byte bs ∧
    ∀ received, agg_all_readable sent received attrs →
      parse_update bs received = ([], agg_all_after sent received attrs, Ret (BGPUpdate wd (fixed_attr sent <$> attrs) nlri)).
Proof.
  intros Hwd Ha Hn Hl1 Hl2. destruct (nlris_roundtrip _ wd Hwd) as (b1 & E1 & Hb1 & Hr1).
  destruct (attributes_roundtrip sent attrs Ha) as (b2 & E2 & Hb2 & Hr2). destruct (nlris_roundtrip _ nlri Hn) as (b3 & E3 & Hb3 & Hr3).
  unfold all_length in Hl1, Hl2. rewrite E1 in Hl1. rewrite E2 in Hl2.
  assert (0 ≤ Z.of_nat (length b1) < 256 ^ Z.of_nat 2) as Hz1 by (change (256 ^ Z.of_nat 2) with 65536; lia).
  assert (0 ≤ Z.of_nat (length b2) < 256 ^ Z.of_nat 2) as Hz2 by (change (256 ^ Z.of_nat 2) with 65536; lia).
  exists (be_bytes 2 (Z.of_nat (length b1)) ++ b1 ++ be_bytes 2 (Z.of_nat (length b2)) ++ b2 ++ b3). split_and!.
  - cbn [serialize_tail]. rewrite E1. cbn [mbind outcome_bind]. rewrite E2. cbn [mbind outcome_bind]. rewrite E3. cbn [mbind outcome_bind].
    rewrite !pack1 by done. done.
  - bytes.
  - intros received Hr. unfold parse_update. rewrite unpack_be, lift_ret_bind by done. rewrite Nat2Z.id, take_app_length, drop_app_length.
    rewrite unpack_be, lift_ret_bind by done. rewrite Nat2Z.id, take_app_length, drop_app_length.
    rewrite (run_bind _ _ _ _ _ _ (Hr1 _ received)), (run_bind _ _ _ _ _ _ (Hr2 received Hr)). by rewrite (run_bind _ _ _ _ _ _ (Hr3 _ _)).
Qed.

Lemma body_roundtrip sent m :
  message_ok sent m →
  ∃ tail, serialize_tail sent m = Ret (fixed_message sent m, tail) ∧ Forall is_byte tail ∧
    ∀ received, message_readable sent received m →
      parse_body (message_type m) tail received = ([], message_after sent received m, Ret (fixed_message sent m)).
Proof.
  intros Hm. destruct m as [ver my_as ht id opts|wd attrs nlri|c sc data| |afi safi d]; cbn [message_ok fixed_message message_type message_after message_readable] in *.
  - destruct Hm as (Has & Hht & Hid & Hopts & Hlen). destruct (open_roundtrip my_as ht id opts ver Has Hht Hid Hopts Hlen) as (bs & E & Hb & Hp).
    exists bs. split_and!; [done..|]. intros received _. apply Hp.
  - destruct Hm as (Hwd & Ha & Hn & Hl1 & Hl2). destruct (update_roundtrip sent wd attrs nlri Hwd Ha Hn Hl1 Hl2) as (bs & E & Hb & Hp).
    exists bs. split_and!; [done..|]. intros received Hr. by apply Hp.
  - destruct Hm as (Hc & Hsc & Hb). exists ((be_bytes 1 c ++ be_bytes 1 sc) ++ data). cbn [serialize_tail]. rewrite pack2 by done.
    split_and!; [done|bytes|]. intros received _. rewrite <- app_assoc.
    change (parse_body BGP_MSG_NOTIFICATION) with (λ buf, lift (parse_notification buf) : M bool pyexn Empty_set message). cbn beta.
    unfold parse_notification, lift. by read_fields.
  - exists []. by split_and!.
  - destruct Hm as (Hafi & Hsafi & Hd). exists (be_bytes 2 afi ++ be_bytes 1 d ++ be_bytes 1 safi). cbn [serialize_tail]. rewrite pack3 by done.
    split_and!; [done|bytes|]. intros received _.
    change (parse_body BGP_MSG_ROUTE_REFRESH) with (λ buf, lift (parse_route_refresh buf) : M bool pyexn Empty_set message). cbn beta.
    unfold parse_route_refresh, lift. by read_fields.
Qed.

Definition message_length (sent : bool) (m : message) : Z :=
  match serialize_tail sent m with Ret (_, tail) => Z.of_nat (_HDR_LEN + length tail) | Raise _ => 0 end.

Lemma message_type_byte m : 0 ≤ message_type m < 256.
Proof. by destruct m. Qed.

(** A message that is not too long, written: its header and what a decoder makes of it. *)
Lemma message_written sent m :
  message_ok sent m → message_length sent m < 65536 →
  ∃ tail, serialize_message sent m = Ret (fixed_message sent m, _MARKER ++ be_bytes 2 (message_length sent m) ++ be_bytes 1 (message_type m) ++ tail) ∧
    message_length sent m = Z.of_nat (_HDR_LEN + length tail) ∧ Forall is_byte tail ∧
    ∀ received rest, message_readable sent received m →
      parse_message ((_MARKER ++ be_bytes 2 (message_length sent m) ++ be_bytes 1 (message_type m) ++ tail) ++ rest) received =
        ([], message_after sent received m, Ret (fixed_message sent m, rest)).
Proof.
  intros Hm Hlen. destruct (body_roundtrip sent m Hm) as (tail & E & Hb & Hp). pose proof (message_type_byte m) as Ht.
  unfold message_length in *. rewrite E in Hlen |- *. set (len := Z.of_nat (_HDR_LEN + length tail)) in *.
  assert (0 ≤ len < 256 ^ Z.of_nat 2) as Hz by (change (256 ^ Z.of_nat 2) with 65536; lia).
  exists tail. split_and!; [|done..|].
  - unfold serialize_message. rewrite E. cbn [mbind outcome_bind]. fold len. rewrite pack2 by done. cbn [mbind outcome_bind]. by rewrite <- app_assoc.
  - intros received rest Hr. set (bs := _MARKER ++ be_bytes 2 len ++ be_bytes 1 (message_type m) ++ tail).
    assert (length bs = (19 + length tail)%nat) as Hbs by (unfold bs; rewrite !length_app, !length_be_bytes; cbn; lia).
    assert (Z.to_nat len = length bs) as Hn by (unfold len, _HDR_LEN in *; lia).
    unfold parse_message. rewrite length_app, (proj2 (Nat.leb_le _ _)) by lia. cbn [assert_]. rewrite ret_bind.
    assert (bs ++ rest = _MARKER ++ be_bytes 2 len ++ be_bytes 1 (message_type m) ++ tail ++ rest) as Ebs by (unfold bs; by rewrite <- !app_assoc).
    rewrite Ebs. rewrite unpack_s_app, lift_ret_bind by done. rewrite unpack_be, lift_ret_bind by done.
    rewrite unpack_be, lift_ret_bind by done. rewrite Hn, (proj2 (Nat.leb_le _ _)) by lia. cbn [assert_]. rewrite ret_bind.
    rewrite take_app_length' by (unfold _HDR_LEN; lia). rewrite (run_bind _ _ _ _ _ _ (Hp received Hr)).
    by rewrite <- Ebs, drop_app_length.
Qed.
End roundtrip.

(** ** The round trip *)

Section message_roundtrip.
Context `{Addresses, !AddressLaws} `{ForeignNlri, !ForeignLaws} `{ForeignCommunities, !ForeignCommunityLaws}.

(** C2: A message that can be written, written and read again, is the message as writing leaves
    it, whatever follows it in the buffer; its bytes are as many as its header says, and reading
    changes the class attribute of the decoder as its aggregators do.  The conditions are: the
    fields are in their ranges and the whole is shorter than 65536 bytes (message_ok, where an AS
    path of four-octet numbers must also not look like one of two-octet numbers, as_path_ok: the
    decoder guesses the size, see BgpWire.as_256_misread), and each aggregator has the size the
    reader expects by then (message_readable). *)
Theorem message_roundtrip sent m :
  message_ok sent m → message_length sent m < 65536 →
  ∃ bs, serialize_message sent m = Ret (fixed_message sent m, bs) ∧ Forall is_byte bs ∧ Z.of_nat (length bs) = message_length sent m ∧
    ∀ received rest, message_readable sent received m →
      parse_message (bs ++ rest) received = ([], message_after sent received m, Ret (fixed_message sent m, rest)).
Proof.
  intros Hm Hlen. destruct (message_written sent m Hm Hlen) as (tail & E & El & Hb & Hp). eexists. split; [exact E|].
  split_and!; [| |exact Hp].
  - apply Forall_app_2; [repeat (constructor; [done|]); constructor|bytes].
  - rewrite El. rewrite !length_app, !length_be_bytes. cbn -[Z.of_nat]. unfold _HDR_LEN. lia.
Qed.
End message_roundtrip.

(** An UPDATE with numbers of four octets. *)
Module MessageExample.
Import PlainAddresses.

#[export] Instance no_communities : ForeignCommunities := {| fcomm := Empty_set; fcomm_parse _ _ := Raise StructError; fcomm_serialize c := match c with end |}.

#[export] Instance no_community_laws : ForeignCommunityLaws.
Proof. exists (λ _ _, True). by intros ? []. Defined.

Definition announcement : message :=
  BGPUpdate [] [PathAttr 0 (AOrigin 0); PathAttr 0 (AAsPath 4 [AsSequence [65001; 200000]]); PathAttr 0 (ANextHop (chars IPv4 [192; 0; 2; 1]));
                PathAttr 0 (AAggregator 200000 (chars IPv4 [192; 0; 2; 7]))]
    [IPAddrPrefix IPv4 24 (chars IPv4 [10; 1; 2; 0])].

Lemma announcement_ok : message_ok true announcement.
Proof.
  split_and!; [constructor| |apply Forall_singleton; split; [split; [cbn; lia|]|done]|done|done].
  - repeat (apply Forall_cons; split; [split; [done|split; [|done]]|]); [done| | | |constructor].
    + split; [|right; done]. apply Forall_singleton. split_and!; [done|cbn; lia|by repeat constructor|done].
    + exists [192; 0; 2; 1]. by apply PlainAddresses.address_of_chars; repeat constructor.
    + split; [done|]. exists [192; 0; 2; 7]. by apply PlainAddresses.address_of_chars; repeat constructor.
  - exists [10; 1; 2; 0], [10; 1; 2]. split; [by apply PlainAddresses.address_of_chars; repeat constructor|by vm_compute].
Qed.
End MessageExample.

Import PlainAddresses MessageExample.

Lemma message_roundtrip_witness :
  let m := announcement in
  ∃ bs, serialize_message true m = Ret (fixed_message true m, bs) ∧ Forall is_byte bs ∧ Z.of_nat (length bs) = message_length true m ∧
    ∀ received rest, message_readable true received m →
      parse_message (bs ++ rest) received = ([], message_after true received m, Ret (fixed_message true m, rest)).
Proof.
  apply message_roundtrip; [apply announcement_ok|vm_compute; reflexivity].
Defined.

(** ** Faults *)

Module MessageFaults.

(** The value of a capability goes on to the end of its parameter, not to its own: an unknown
    capability is given the bytes of the next one, and a graceful restart its families. *)
Example capability_runs_on :
  parse_param [2; 4; 5; 0; 2; 0] = Ret ([Capability (CapabilityUnknown 5 [2; 0]); Capability (EmptyCapability 2)], []) ∧
  parse_param [2; 12; 64; 2; 0; 120; 65; 4; 0; 0; 253; 232; 2; 0] =
    Ret ([Capability (GracefulRestart 0 120 [(16644, 0, 0); (65000, 2, 0)]); Capability (FourOctetAsNumber 65000); Capability (EmptyCapability 2)], []).
Proof. split; vm_compute; reflexivity. Qed.

(** A message of a type that is not known raises an exception of the interpreter, for which no
    NOTIFICATION is sent. *)
Example unknown_message_type : result (parse_message (_MARKER ++ [0; 19; 9])) false = Raise AttributeError.
Proof. vm_compute. reflexivity. Qed.
End MessageFaults.
