(* ===== verification/BgpStream.v ===== *)
(** * The stream of BGP messages

    Models how [BgpProtocol] of [ryu/services/protocols/bgp/speaker.py] cuts the bytes of a
    connection into messages ([_data_received], [data_received], the loop of [_recv_loop]) over
    the decoders of [BgpMsg].  The handler of messages is a parameter, a computation over a state
    of its own that has no access to the buffer.  The theorems say that the segments in which
    bytes arrive do not matter and that what one speaker sends is what the handler of another
    one gets. *)

From stdpp Require Import base list strings.
From Stdlib Require Import ZArith Lia.
From S2P Require Import Prelude Struct BgpDecision BgpAttr BgpOpen BgpPrefix BgpWire BgpMsg.

Open Scope Z_scope.
Set Default Proof Using "Type*".

Definition BGP_MIN_MSG_LEN : Z := 19.
Definition BGP_MAX_MSG_LEN : Z := 4096.

Definition NotSync : pyexn := RyuException "NotSync".
Definition BadLen : pyexn := RyuException "BadLen".

(** [_MIN_LEN] of the classes that are looked at. *)
Definition open_min_len : Z := 29.
Definition keepalive_min_len : Z := 19.
Definition update_min_len : Z := 19.

(** The exceptions of the library for which a NOTIFICATION is sent, with code and subcode. *)
Definition bgp_error (e : pyexn) : option (Z * Z) :=
  match e with
  | RyuException name =>
      if bool_decide (name = "NotSync") then Some (1, 1)
      else if bool_decide (name = "BadLen") then Some (1, 2)
      else if bool_decide (name = "UnsupportedVersion") then Some (2, 1)
      else if bool_decide (name = "BadPeerAs") then Some (2, 2)
      else if bool_decide (name = "MissingWellKnown") then Some (3, 3)
      else if bool_decide (name = "MalformedAsPath") then Some (3, 11)
      else if bool_decide (name = "FiniteStateMachineError") then Some (5, 1)
      else if bool_decide (name = "CollisionResolution") then Some (6, 7)
      else None
  | _ => None
  end.

(** The buffer, the class attribute that decoding changes, and the state of the handler. *)
Record stream (S : Type) := Stream { recv_buff : bytes; wire_class : bool; handler_state : S }.
Arguments Stream {S} _ _ _.
Arguments recv_buff {S} _.
Arguments wire_class {S} _.
Arguments handler_state {S} _.
#[export] Instance stream_eta {S} : Eta (stream S) := EtaBox (λ r, Stream (recv_buff r) (wire_class r) (handler_state r)).

(** What is seen of a connection. *)
Inductive stream_out (Out : Type) :=
| Handled (o : Out)
| SendNotification (code subcode : Z)
| CloseSocket.
Arguments Handled {Out} _.
Arguments SendNotification {Out} _ _.
Arguments CloseSocket {Out}.

Section stream.
Context `{Addresses} `{ForeignNlri} `{ForeignCommunities} {S Out : Type}.
Context (_handle_msg : message → M S pyexn Out ()).

Abbreviation SM := (M (stream S) pyexn (stream_out Out)).

(** The handler and the decoder as computations over the whole. *)
Definition handle (m : message) : SM () := λ s,
  let '(o, h, r) := _handle_msg m (handler_state s) in (Handled <$> o, s <| handler_state := h |>, r).

Definition decode (buf : bytes) : SM (message * bytes) := λ s,
  let '(_, c, r) := parse_message buf (wire_class s) in ([], s <| wire_class := c |>, r).

(** The header, [parse_msg_header]. *)
Definition parse_msg_header (buf : bytes) : bytes * Z * Z :=
  (take 16 buf, be_value (take 2 (drop 16 buf)), be_value (take 1 (drop 18 buf))).

Definition bad_length (length ptype : Z) : bool :=
  ((length <? BGP_MIN_MSG_LEN) || (BGP_MAX_MSG_LEN <? length)) ||
  ((ptype =? BGP_MSG_OPEN) && (length <? open_min_len)) ||
  ((ptype =? BGP_MSG_KEEPALIVE) && negb (length =? keepalive_min_len)) ||
  ((ptype =? BGP_MSG_UPDATE) && (length <? update_min_len)).

(** The loop of [_data_received]. *)
Fixpoint drain (fuel : nat) : SM () :=
  match fuel with
  | O => raise OutOfFuel
  | Datatypes.S fuel =>
      buf ← gets recv_buff;
      if Z.of_nat (length buf) <? BGP_MIN_MSG_LEN then mret tt else
      let '(auth, length, ptype) := parse_msg_header buf in
      if bool_decide (auth ≠ _MARKER) then raise NotSync else
      if bad_length length ptype then raise BadLen else
      if Z.of_nat (List.length buf) <? length then mret tt else
      '(msg, rest) ← decode buf;
      modify (λ s, s <| recv_buff := rest |>);;
      handle msg;;
      drain fuel
  end.

(** Every turn takes at least the header. *)
Definition _data_received (next_bytes : bytes) : SM () :=
  modify (λ s, s <| recv_buff ::= λ b, b ++ next_bytes |>);;
  s ← get_st;
  drain (Datatypes.S (length (recv_buff s))).

(** [data_received]: a NOTIFICATION is sent for the errors of the library. *)
Definition data_received (next_bytes : bytes) : SM () :=
  try_with (_data_received next_bytes) (λ e,
    match bgp_error e with
    | Some (code, subcode) => Some (emit (SendNotification code subcode);; emit CloseSocket;; raise e)
    | None => None
    end).

(** The loop of [_recv_loop] over what the socket returns, up to an empty string. *)
Fixpoint receive (segments : list bytes) : SM () :=
  match segments with
  | [] | [] :: _ => mret tt
  | next_bytes :: segments => data_received next_bytes;; receive segments
  end.
End stream.

(** ** Decoding only looks at the message *)

Section framing.
Context `{Addresses} `{ForeignNlri} `{ForeignCommunities} {S Out : Type}.
Context (_handle_msg : message → M S pyexn Out ()).

Definition header_length (buf : bytes) : Z := (parse_msg_header buf).1.2.
Definition header_type (buf : bytes) : Z := (parse_msg_header buf).2.

Lemma parse_message_header buf c :
  (19 ≤ length buf)%nat →
  parse_message buf c =
    (assert_ (Z.to_nat (header_length buf) <=? length buf)%nat TooSmall;;
     msg ← parse_body (header_type buf) (take (Z.to_nat (header_length buf) - _HDR_LEN) (drop 19 buf));
     mret (msg, drop (Z.to_nat (header_length buf)) buf)) c.
Proof.
  intros Hl. unfold parse_message, unpack_s, unpack_field. rewrite (proj2 (Nat.leb_le _ _)) by done. cbn [assert_]. rewrite ret_bind.
  rewrite (proj2 (Nat.ltb_ge _ _)), lift_ret_bind by lia. rewrite (proj2 (Nat.ltb_ge _ _)), lift_ret_bind by (rewrite length_drop; lia).
  rewrite (proj2 (Nat.ltb_ge _ _)), lift_ret_bind by (rewrite !length_drop; lia). unfold header_length, header_type, parse_msg_header. cbn [fst snd].
  by rewrite !drop_drop.
Qed.

(** A message that has arrived is decoded the same whatever comes after it. *)
Lemma parse_message_app b1 b2 c :
  (19 ≤ length b1)%nat → (Z.to_nat (header_length b1) ≤ length b1)%nat →
  parse_message (b1 ++ b2) c =
    let '(o, c', r) := parse_message b1 c in (o, c', match r with Ret (m, rest) => Ret (m, rest ++ b2) | Raise e => Raise e end).
Proof.
  intros Hl Hh.
  assert (header_length (b1 ++ b2) = header_length b1 ∧ header_type (b1 ++ b2) = header_type b1) as [E1 E2].
  { unfold header_length, header_type, parse_msg_header. cbn [fst snd].
    rewrite !drop_app_le, !take_app_le by (rewrite ?length_drop; lia). done. }
  rewrite !parse_message_header by (rewrite ?length_app; lia). rewrite E1, E2.
  rewrite !(proj2 (Nat.leb_le _ _)) by (rewrite ?length_app; lia). cbn [assert_]. rewrite !ret_bind.
  rewrite (drop_app_le b1 b2 19), (drop_app_le b1 b2 (Z.to_nat _)), take_app_le by (rewrite ?length_drop; unfold _HDR_LEN; lia).
  unfold mbind, M_bind. by destruct (parse_body _ _ c) as [[o c'] [m|e]].
Qed.

Lemma parse_message_rest buf c o c' m rest :
  (19 ≤ length buf)%nat → parse_message buf c = (o, c', Ret (m, rest)) → rest = drop (Z.to_nat (header_length buf)) buf.
Proof.
  intros Hl. rewrite parse_message_header by done. destruct (_ <=? length buf)%nat; [|done]. cbn [assert_]. rewrite ret_bind.
  unfold mbind, M_bind. destruct (parse_body _ _ c) as [[o1 c1] [m1|e]]; [|done]. cbn. intros [= _ _ _ <-]. done.
Qed.

(** *** One turn of the loop *)

(** What the loop does with a buffer: wait, refuse it, or take a message. *)
Inductive turn := Wait | Refuse (e : pyexn) | Take.

Definition next_turn (buf : bytes) : turn :=
  if Z.of_nat (length buf) <? BGP_MIN_MSG_LEN then Wait
  else if bool_decide ((parse_msg_header buf).1.1 ≠ _MARKER) then Refuse NotSync
  else if bad_length (header_length buf) (header_type buf) then Refuse BadLen
  else if Z.of_nat (length buf) <? header_length buf then Wait
  else Take.

Abbreviation drain := (drain _handle_msg).

Lemma drain_turn fuel s :
  drain (Datatypes.S fuel) s =
    match next_turn (recv_buff s) with
    | Wait => ([], s, Ret tt)
    | Refuse e => ([], s, Raise e)
    | Take => ('(msg, rest) ← decode (recv_buff s); modify (λ s, s <| recv_buff := rest |>);; handle _handle_msg msg;; drain fuel) s
    end.
Proof.
  cbn [BgpStream.drain]. rewrite gets_bind. unfold next_turn, header_length, header_type.
  destruct (Z.of_nat _ <? BGP_MIN_MSG_LEN); [done|]. destruct (parse_msg_header (recv_buff s)) as [[auth len] ptype]. cbn [fst snd].
  destruct (bool_decide (auth ≠ _MARKER)); [done|]. destruct (bad_length len ptype); [done|]. by destruct (Z.of_nat _ <? len).
Qed.

Lemma take_long buf :
  next_turn buf = Take → (19 ≤ length buf)%nat ∧ 19 ≤ header_length buf ∧ (Z.to_nat (header_length buf) ≤ length buf)%nat.
Proof.
  unfold next_turn, BGP_MIN_MSG_LEN. destruct (Z.ltb_spec (Z.of_nat (length buf)) 19); [done|]. case_match; [done|].
  unfold bad_length, BGP_MIN_MSG_LEN. destruct (Z.ltb_spec (header_length buf) 19); [done|]. case_match; [done|].
  destruct (Z.ltb_spec (Z.of_nat (length buf)) (header_length buf)); [done|]. intros _. lia.
Qed.

(** What comes later does not change what is refused or taken. *)
Lemma next_turn_app b1 b2 : next_turn b1 ≠ Wait → next_turn (b1 ++ b2) = next_turn b1.
Proof.
  unfold next_turn, BGP_MIN_MSG_LEN. destruct (Z.ltb_spec (Z.of_nat (length b1)) 19) as [|Hl]; [done|]. intros Hw.
  assert (parse_msg_header (b1 ++ b2) = parse_msg_header b1) as E.
  { unfold parse_msg_header. rewrite !drop_app_le, !take_app_le by (rewrite ?length_drop; lia). done. }
  rewrite (proj2 (Z.ltb_ge (Z.of_nat (length (b1 ++ b2))) 19)) by (rewrite length_app; lia).
  unfold header_length, header_type in *. rewrite E. do 2 (case_match; [done|]).
  destruct (Z.ltb_spec (Z.of_nat (length b1)) (parse_msg_header b1).1.2); [done|].
  by rewrite (proj2 (Z.ltb_ge _ _)) by (rewrite length_app; lia).
Qed.

(** The rest of the buffer after a message that was taken. *)
Definition after_take (buf : bytes) : bytes := drop (Z.to_nat (header_length buf)) buf.

Lemma after_take_shorter buf : next_turn buf = Take → (length (after_take buf) < length buf)%nat.
Proof. intros (? & ? & ?)%take_long. unfold after_take. rewrite length_drop. lia. Qed.

Definition take_step (buf : bytes) : M (stream S) pyexn (stream_out Out) () :=
  '(msg, rest) ← decode buf;
  modify (λ s, s <| recv_buff := rest |>);;
  handle _handle_msg msg.

Lemma drain_take fuel s : next_turn (recv_buff s) = Take → drain (Datatypes.S fuel) s = (take_step (recv_buff s);; drain fuel) s.
Proof.
  intros E. rewrite drain_turn, E. unfold take_step. rewrite bind_assoc. apply bind_ext. intros [msg rest] s'. by rewrite bind_assoc.
Qed.

(** What arrives after a message. *)
Definition grow (b : bytes) (s : stream S) : stream S := s <| recv_buff ::= λ b1, b1 ++ b |>.

Lemma take_step_app b2 s :
  next_turn (recv_buff s) = Take →
  take_step (recv_buff s ++ b2) (grow b2 s) = let '(o, s1, r) := take_step (recv_buff s) s in (o, grow b2 s1, r).
Proof.
  intros (H1' & _ & H3')%take_long. unfold take_step, mbind, M_bind, decode. destruct s as [buf c h]. cbn [recv_buff grow wire_class] in *.
  change (wire_class (grow b2 (Stream buf c h))) with c. rewrite parse_message_app by done. destruct (parse_message buf c) as [[o c'] [[m rest]|e]]; [|done].
  unfold modify, handle. cbn. by destruct (_handle_msg m h) as [[o' h'] r].
Qed.

Lemma take_step_rest s o s1 :
  next_turn (recv_buff s) = Take → take_step (recv_buff s) s = (o, s1, Ret tt) → recv_buff s1 = after_take (recv_buff s).
Proof.
  intros (H1' & _ & H3')%take_long. unfold take_step, mbind, M_bind, decode. destruct s as [buf c h]. cbn [recv_buff wire_class] in *.
  destruct (parse_message buf c) as [[o1 c'] [[m rest]|e]] eqn:E; [|done].
  unfold modify, handle. cbn. destruct (_handle_msg m h) as [[o' h'] r]. intros [= _ <- _]. by apply parse_message_rest in E.
Qed.

Lemma drain_fuel f1 f2 s : (length (recv_buff s) < f1)%nat → (length (recv_buff s) < f2)%nat → drain f1 s = drain f2 s.
Proof.
  revert f2 s. induction f1 as [|f1 IH]; intros f2 s Hf1 Hf2; [lia|]. destruct f2 as [|f2]; [lia|].
  destruct (next_turn (recv_buff s)) as [|e|] eqn:E; [by rewrite !drain_turn, E..|]. rewrite !drain_take by done. unfold mbind, M_bind.
  destruct (take_step (recv_buff s) s) as [[o s1] [[]|e]] eqn:Es; [|done]. pose proof (take_step_rest s o s1 E Es) as Er.
  pose proof (after_take_shorter _ E). rewrite (IH f2) by (rewrite Er; lia). done.
Qed.

Lemma drain_shrinks f s o s1 r : drain f s = (o, s1, r) → r = Ret tt → (length (recv_buff s1) ≤ length (recv_buff s))%nat ∧ next_turn (recv_buff s1) = Wait.
Proof.
  revert s o. induction f as [|f IH]; intros s o Ed Hr; [by simplify_eq|].
  destruct (next_turn (recv_buff s)) as [|e|] eqn:E; [rewrite drain_turn, E in Ed; by simplify_eq..|].
  rewrite drain_take in Ed by done. unfold mbind, M_bind in Ed. destruct (take_step (recv_buff s) s) as [[o2 s2] [[]|e]] eqn:Es; [|by simplify_eq].
  pose proof (take_step_rest s o2 s2 E Es) as Er. pose proof (after_take_shorter _ E).
  destruct (drain f s2) as [[o3 s3] r3] eqn:Ed'. simplify_eq. destruct (IH _ _ Ed' eq_refl) as [Hl Hw]. rewrite Er in Hl. split; [lia|done].
Qed.

(** The loop over a buffer that grows is the loop before, then the loop after. *)
Lemma drain_app f1 f b2 s :
  (length (recv_buff s) < f1)%nat → (length (recv_buff s ++ b2) < f)%nat →
  drain f (grow b2 s) =
    let '(o1, s1, r1) := drain f1 s in
    match r1 with
    | Raise e => (o1, grow b2 s1, Raise e)
    | Ret _ => let '(o2, s2, r2) := drain f (grow b2 s1) in (o1 ++ o2, s2, r2)
    end.
Proof.
  revert f s. induction f1 as [|f1 IH]; intros f s Hf1 Hf; [lia|]. destruct f as [|f]; [lia|].
  destruct (next_turn (recv_buff s)) as [|e|] eqn:E.
  - rewrite (drain_turn f1 s), E. by destruct (drain (Datatypes.S f) (grow b2 s)) as [[? ?] ?].
  - rewrite !drain_turn, E. change (recv_buff (grow b2 s)) with (recv_buff s ++ b2). rewrite next_turn_app, E; [done|congruence].
  - pose proof (next_turn_app (recv_buff s) b2 ltac:(congruence)) as E2. rewrite E in E2.
    rewrite (drain_take f), (drain_take f1) by done. change (recv_buff (grow b2 s)) with (recv_buff s ++ b2). unfold mbind, M_bind.
    rewrite take_step_app by done. destruct (take_step (recv_buff s) s) as [[o s1] [[]|e]] eqn:Es; [|done].
    pose proof (take_step_rest s o s1 E Es) as Er. pose proof (after_take_shorter _ E) as Hs. rewrite length_app in Hf.
    rewrite (IH f s1) by (rewrite ?length_app, Er; lia). destruct (drain f1 s1) as [[o1 s2] [[]|e]] eqn:Ed; [|done].
    assert (length (recv_buff (grow b2 s2)) < f)%nat as Hlen.
    { change (recv_buff (grow b2 s2)) with (recv_buff s2 ++ b2). rewrite length_app.
      destruct (drain_shrinks _ _ _ _ _ Ed eq_refl) as [Hle _]. rewrite Er in Hle. lia. }
    rewrite (drain_fuel f (Datatypes.S f)) by lia. destruct (drain (Datatypes.S f) (grow b2 s2)) as [[o2 s3] r2]. by rewrite app_assoc.
Qed.

Definition notify (r : outcome pyexn ()) : list (stream_out Out) :=
  match r with
  | Raise e => match bgp_error e with Some (code, subcode) => [SendNotification code subcode; CloseSocket] | None => [] end
  | Ret _ => []
  end.

Lemma data_received_run bs f s :
  (length (recv_buff s ++ bs) < f)%nat →
  data_received _handle_msg bs s = let '(o, s1, r) := drain f (grow bs s) in (o ++ notify r, s1, r).
Proof.
  intros Hf. unfold data_received, try_with, _data_received. rewrite modify_bind, get_bind. change (s <| recv_buff ::= λ b, b ++ bs |>) with (grow bs s).
  rewrite (drain_fuel _ f) by (done || cbn; lia). destruct (drain f (grow bs s)) as [[o s1] [[]|e]]; [by rewrite app_nil_r|]. cbn [notify].
  destruct (bgp_error e) as [[code subcode]|]; [done|by rewrite app_nil_r].
Qed.

Lemma grow_app b1 b2 s : grow (b1 ++ b2) s = grow b2 (grow b1 s).
Proof. destruct s as [buf c h]. unfold grow. cbn. by rewrite app_assoc. Qed.

(** Segments that are received one by one, as one run of the loop. *)
Lemma receive_run segments s f :
  Forall (λ b, b ≠ []) segments → next_turn (recv_buff s) = Wait → (length (recv_buff s ++ mjoin segments) < f)%nat →
  let run := receive _handle_msg segments s in
  let ref := drain f (grow (mjoin segments) s) in
  run.1.1 = ref.1.1 ++ notify ref.2 ∧ run.2 = ref.2 ∧ handler_state run.1.2 = handler_state ref.1.2 ∧ wire_class run.1.2 = wire_class ref.1.2 ∧
  (run.2 = Ret tt → recv_buff run.1.2 = recv_buff ref.1.2).
Proof.
  intros Hne. revert s. induction Hne as [|b segments Hb _ IH]; intros s Hw Hf run ref; subst run ref.
  { destruct f as [|f]; [lia|]. assert (grow (mjoin []) s = s) as -> by (destruct s; unfold grow; cbn; by rewrite app_nil_r).
    by rewrite drain_turn, Hw. }
  change (mjoin (b :: segments)) with (b ++ mjoin segments) in *. set (rest := mjoin segments) in *. rewrite grow_app.
  rewrite !length_app in Hf. rewrite (drain_app f f) by (cbn; rewrite ?length_app; lia).
  assert (receive _handle_msg (b :: segments) s = (data_received _handle_msg b;; receive _handle_msg segments) s) as -> by by destruct b.
  unfold mbind, M_bind. rewrite (data_received_run b f) by (rewrite !length_app; lia).
  destruct (drain f (grow b s)) as [[o1 s1] [[]|e]] eqn:Ed; [|done].
  destruct (drain_shrinks _ _ _ _ _ Ed eq_refl) as [Hl Hw1].
  change (recv_buff (grow b s)) with (recv_buff s ++ b) in Hl. rewrite length_app in Hl.
  assert (length (recv_buff s1 ++ rest) < f)%nat as Hf1 by (rewrite length_app; lia).
  specialize (IH s1 Hw1 Hf1). cbn zeta in IH.
  destruct (receive _handle_msg segments s1) as [[o2 s2] r2], (drain f (grow rest s1)) as [[o3 s3] r3]. cbn [fst snd notify] in *.
  destruct IH as (-> & -> & Hh & Hc & Hr). by rewrite app_nil_r, app_assoc.
Qed.

(** C33: How the bytes of a connection are cut into segments does not matter: receiving them one by
    one sends, hands over and raises what receiving them at once does, and leaves the handler, the
    decoder and, unless an exception ends the connection, the buffer in the same state. *)
Theorem segments_do_not_matter segments s :
  Forall (λ b, b ≠ []) segments → next_turn (recv_buff s) = Wait →
  let run := receive _handle_msg segments s in
  let ref := data_received _handle_msg (mjoin segments) s in
  run.1.1 = ref.1.1 ∧ run.2 = ref.2 ∧ handler_state run.1.2 = handler_state ref.1.2 ∧ wire_class run.1.2 = wire_class ref.1.2 ∧
  (run.2 = Ret tt → recv_buff run.1.2 = recv_buff ref.1.2).
Proof.
  intros Hne Hw run ref; subst run ref. set (f := Datatypes.S (length (recv_buff s ++ mjoin segments))).
  rewrite (data_received_run _ f) by (subst f; lia). pose proof (receive_run segments s f Hne Hw ltac:(subst f; lia)) as Hrun. cbn zeta in Hrun.
  by destruct (drain f (grow (mjoin segments) s)) as [[o s1] r].
Qed.
End framing.

(** ** From one speaker to the handler of another *)

(** The size of an OPEN message is at least that of its fixed part. *)
Lemma open_length `{Addresses} `{ForeignNlri} `{ForeignCommunities} sent v my_as ht id opts tail m' :
  serialize_tail sent (BGPOpen v my_as ht id opts) = Ret (m', tail) → (10 ≤ length tail)%nat.
Proof.
  cbn [serialize_tail].
  intros (bo & _ & (b & _ & (h & Eh%pack_length & (l & El%pack_length & E)%outcome_bind_ret)%outcome_bind_ret)%outcome_bind_ret)%outcome_bind_ret.
  simplify_eq. unfold pack_s. rewrite !length_app, length_take, length_replicate, Eh, El.
  change (calcsize [(1%nat, 4); (2%nat, my_as); (2%nat, ht)].*1) with 5%nat. change (calcsize [(1%nat, Z.of_nat (length bo))].*1) with 1%nat. lia.
Qed.

Section delivery.
Context `{Addresses, !AddressLaws} `{ForeignNlri, !ForeignLaws} `{ForeignCommunities, !ForeignCommunityLaws} {S Out : Type}.
Context (_handle_msg : message → M S pyexn Out ()).

(** What one speaker writes, and the class attribute of the other one after it. *)
Definition sendable (sent : bool) (m : message) : Prop := message_ok sent m ∧ message_length sent m ≤ BGP_MAX_MSG_LEN.

Fixpoint messages_readable (sent received : bool) (ms : list message) : Prop :=
  match ms with
  | [] => True
  | m :: ms => message_readable sent received m ∧ messages_readable sent (message_after sent received m) ms
  end.

(** The handler over all of them. *)
Fixpoint handle_all (ms : list message) : M S pyexn Out () :=
  match ms with [] => mret tt | m :: ms => _handle_msg m;; handle_all ms end.

Lemma sendable_turn sent m rest :
  sendable sent m →
  ∃ bs, serialize_message sent m = Ret (fixed_message sent m, bs) ∧ bs ≠ [] ∧ next_turn (bs ++ rest) = Take ∧
    ∀ received, message_readable sent received m →
      parse_message (bs ++ rest) received = ([], message_after sent received m, Ret (fixed_message sent m, rest)).
Proof.
  intros [Hm Hlen]. unfold BGP_MAX_MSG_LEN in Hlen. destruct (message_written sent m Hm ltac:(lia)) as (tail & E & El & Hb & Hp).
  exists (_MARKER ++ be_bytes 2 (message_length sent m) ++ be_bytes 1 (message_type m) ++ tail). split_and!; [done|done| |by intros; apply Hp].
  set (bs := _MARKER ++ _). assert (length bs = Z.to_nat (message_length sent m)) as Hbs.
  { subst bs. rewrite !length_app, !length_be_bytes. rewrite El. cbn -[Z.of_nat]. lia. }
  assert (parse_msg_header (bs ++ rest) = (_MARKER, message_length sent m, message_type m)) as Eh.
  { subst bs. unfold parse_msg_header. rewrite <- !app_assoc.
    rewrite (drop_app_length' _ _ 16), (take_app_length' _ _ 16), (take_app_length' _ _ 2), app_assoc, (drop_app_length' _ _ 18), (take_app_length' _ _ 1)
      by (rewrite ?length_app, ?length_be_bytes; done).
    rewrite !be_value_bytes; [done|apply message_type_byte|change (256 ^ Z.of_nat 2) with 65536; lia]. }
  unfold next_turn, header_length, header_type. rewrite Eh. cbn [fst snd]. unfold _HDR_LEN in *.
  rewrite bool_decide_false by (intros ?; done). unfold BGP_MIN_MSG_LEN.
  rewrite !(proj2 (Z.ltb_ge _ _)) by (rewrite ?length_app; lia).
  assert (bad_length (message_length sent m) (message_type m) = false) as ->; [|done].
  unfold bad_length, BGP_MIN_MSG_LEN, BGP_MAX_MSG_LEN.
  rewrite (proj2 (Z.ltb_ge _ 19)), (proj2 (Z.ltb_ge 4096 _)) by lia. cbn [orb].
  unfold message_length in El |- *. destruct (serialize_tail sent m) as [[m' tl]|] eqn:Et; [|lia].
  destruct m; cbn [message_type]; try done.
  - apply open_length in Et. unfold open_min_len. rewrite (proj2 (Z.ltb_ge _ 29)) by (unfold _HDR_LEN in *; lia). done.
  - unfold update_min_len. rewrite (proj2 (Z.ltb_ge _ 19)) by (unfold _HDR_LEN in *; lia). done.
  - cbn in Et. by simplify_eq.
Qed.

Definition after_all (sent received : bool) (ms : list message) : bool := foldl (message_after sent) received ms.

Lemma serialize_cons sent m ms bs :
  serialize_message sent m = Ret (fixed_message sent m, bs) →
  serialize_all (serialize_message sent) (m :: ms) = '(l, rest) ← serialize_all (serialize_message sent) ms; Ret (fixed_message sent m :: l, bs ++ rest).
Proof. intros E. cbn [serialize_all]. by rewrite E. Qed.

(** The loop over messages that were written, one after another. *)
Lemma drain_messages sent ms f c h :
  Forall (sendable sent) ms → messages_readable sent c ms →
  ∃ bs, serialize_all (serialize_message sent) ms = Ret (fixed_message sent <$> ms, bs) ∧
    ((length bs < f)%nat → ∃ buf c', let '(o, h', r) := handle_all (fixed_message sent <$> ms) h in
      drain _handle_msg f (Stream bs c h) = (Handled <$> o, Stream buf c' h', r) ∧ (r = Ret tt → buf = [] ∧ c' = after_all sent c ms)).
Proof.
  intros Hms. revert f c h. induction Hms as [|m ms Hm _ IH]; intros f c h Hr.
  { exists []. split; [done|]. intros Hf. destruct f as [|f]; [cbn in Hf; lia|]. by exists [], c. }
  destruct Hr as [Hr Hrs]. destruct (IH f _ h Hrs) as (rest & E & _). destruct (sendable_turn sent m rest Hm) as (bs & Em & Hne & Ht & Hp).
  exists (bs ++ rest). rewrite (serialize_cons _ _ _ _ Em), E. split; [done|]. intros Hf. rewrite length_app in Hf.
  destruct f as [|f]; [lia|]. destruct bs as [|b bs]; [done|]. cbn [length] in Hf. rewrite fmap_cons. cbn [handle_all].
  rewrite drain_take by done. unfold take_step, mbind, M_bind, decode. cbn [recv_buff wire_class].
  rewrite (Hp c Hr). unfold modify, handle. cbn.
  destruct (_handle_msg (fixed_message sent m) h) as [[o1 h1] [[]|e]]; [|by exists rest, (message_after sent c m)].
  destruct (IH f _ h1 Hrs) as (rest' & E' & Hd). rewrite E in E'. simplify_eq. destruct (Hd ltac:(lia)) as (buf & c' & Hd'). exists buf, c'.
  destruct (handle_all (fixed_message sent <$> ms) h1) as [[o2 h2] r2]. destruct Hd' as [Ed Hend].
  cbn in *. rewrite Ed. by rewrite fmap_app.
Qed.

(** C6: The messages one speaker writes reach the handler of the other one as they were written,
    all and in order, however the bytes are cut; nothing is left over, and only what the handler
    itself raises is answered with a NOTIFICATION.  The messages are those that can be written
    and have at most 4096 bytes (sendable: a longer one is written too, and refused by the other
    side), with AS paths and aggregators the reader does not mistake (message_ok and
    messages_readable, as in BgpMsg.message_roundtrip). *)
Theorem messages_delivered sent ms c h :
  Forall (sendable sent) ms → messages_readable sent c ms →
  ∃ bs, serialize_all (serialize_message sent) ms = Ret (fixed_message sent <$> ms, bs) ∧
    ∀ segments, mjoin segments = bs → Forall (λ b, b ≠ []) segments →
      let '(o, h', r) := handle_all (fixed_message sent <$> ms) h in
      let run := receive _handle_msg segments (Stream [] c h) in
      run.1.1 = (Handled <$> o) ++ notify r ∧ handler_state run.1.2 = h' ∧ run.2 = r ∧
      (r = Ret tt → recv_buff run.1.2 = [] ∧ wire_class run.1.2 = after_all sent c ms).
Proof.
  intros Hms Hr. destruct (drain_messages sent ms 0 c h Hms Hr) as (bs & E & _). exists bs. split; [done|]. intros segments Hj Hne.
  destruct (drain_messages sent ms (Datatypes.S (length bs)) c h Hms Hr) as (bs' & E' & Hd). rewrite E in E'. simplify_eq.
  destruct (Hd ltac:(lia)) as (buf & c' & Hd'). destruct (handle_all (fixed_message sent <$> ms) h) as [[o h'] r]. destruct Hd' as [Ed Hend].
  pose proof (receive_run _handle_msg segments (Stream [] c h) (Datatypes.S (length (mjoin segments))) Hne eq_refl ltac:(cbn; lia)) as Hrun.
  change (grow (mjoin segments) (Stream [] c h)) with (Stream (mjoin segments) c h) in Hrun. rewrite Ed in Hrun. cbn [fst snd handler_state wire_class recv_buff] in Hrun.
  destruct Hrun as (Ho & Hr' & Hh & Hc & Hb). split_and!; [done..|]. intros ->. destruct (Hend eq_refl) as [-> ->]. split; [by apply Hb|done].
Qed.
End delivery.


(** ** Runs *)

Section witnesses.
Import PlainAddresses MessageExample.

(** A handler that keeps the messages. *)
Definition keep (m : message) : M (list message) pyexn message () := modify (λ l, l ++ [m]);; emit m.

Lemma segments_do_not_matter_witness :
  let s := Stream [] false [] in
  let segments := [replicate 7 255; replicate 9 255 ++ [0]; [19; 4] ++ replicate 18 255] in
  let run := receive keep segments s in
  let ref := data_received keep (mjoin segments) s in
  run.1.1 = ref.1.1 ∧ run.2 = ref.2 ∧ handler_state run.1.2 = handler_state ref.1.2 ∧ wire_class run.1.2 = wire_class ref.1.2 ∧
  (run.2 = Ret tt → recv_buff run.1.2 = recv_buff ref.1.2).
Proof. apply (segments_do_not_matter keep); [by repeat constructor|reflexivity]. Defined.

Lemma messages_delivered_witness :
  let ms := [BGPKeepAlive; announcement; BGPKeepAlive] in
  ∃ bs, serialize_all (serialize_message true) ms = Ret (fixed_message true <$> ms, bs) ∧
    ∀ segments, mjoin segments = bs → Forall (λ b, b ≠ []) segments →
      let '(o, h', r) := handle_all keep (fixed_message true <$> ms) [] in
      let run := receive keep segments (Stream [] false []) in
      run.1.1 = (Handled <$> o) ++ notify r ∧ handler_state run.1.2 = h' ∧ run.2 = r ∧
      (r = Ret tt → recv_buff run.1.2 = [] ∧ wire_class run.1.2 = after_all true false ms).
Proof.
  apply (messages_delivered keep true [BGPKeepAlive; announcement; BGPKeepAlive]).
  - repeat (apply Forall_cons; split; [split; [done || apply announcement_ok|by vm_compute]|]). constructor.
  - vm_compute. tauto.
Defined.
End witnesses.
