(* ===== verification/OxmFields.v ===== *)
(** * Match fields of OpenFlow

    Models [ryu/ofproto/oxx_fields.py], [ryu/ofproto/oxm_fields.py], what they use of
    [ryu/lib/type_desc.py], and the tables of fields of [ofproto_v1_3.py] and [nicira_ext.py]:
    from the values of the user to bytes, and the type-length-value encoding of a field, with and
    without mask and experimenter header.  The conversions of addresses ([netaddr], also from
    integers) and the base 64 codec are parameters.  The theorems say that every field of the
    tables is read as it was written, and that the values a user gives become canonical. *)

From stdpp Require Import base list strings pretty.
From Stdlib Require Import ZArith Lia Ascii.
From S2P Require Import Prelude Struct.

Open Scope Z_scope.
Set Default Proof Using "Type*".

(** [assert] *)
Definition check (b : bool) : outcome pyexn () := if b then Ret tt else Raise AssertionError.

(** ** Types of values *)

Inductive addr_kind := MacAddr | IPv4Addr | IPv6Addr.

Definition kind_size (k : addr_kind) : nat := match k with MacAddr => 6 | IPv4Addr => 4 | IPv6Addr => 16 end.

(** What a user gives for one value or one mask. *)
Inductive uval := UInt (i : Z) | UText (s : string).

#[export] Instance uval_eq_dec : EqDecision uval.
Proof. solve_decision. Defined.

(** [addrconv] and [base64].  A text in CIDR notation stands for an address and its mask. *)
Class AddrConv := {
  text_to_bin : addr_kind → uval → outcome pyexn (bytes * option bytes);
  bin_to_text : addr_kind → bytes → outcome pyexn string;
  b64encode : bytes → string;
  b64decode : string → outcome pyexn bytes
}.

(** Addresses have the size of their kind and a text that stands for them alone. *)
Class AddrConvLaws `{AddrConv} := {
  address_size k u b m :
    text_to_bin k u = Ret (b, m) →
    length b = kind_size k ∧ Forall is_byte b ∧ (∀ m', m = Some m' → length m' = kind_size k ∧ Forall is_byte m');
  address_text k b :
    length b = kind_size k → Forall is_byte b →
    ∃ s, bin_to_text k b = Ret s ∧ text_to_bin k (UText s) = Ret (b, None)
}.

Inductive type_descr := IntDescr (size : nat) | AddrDescr (k : addr_kind) | UnknownType.

Definition type_size (t : type_descr) : option nat :=
  match t with IntDescr n => Some n | AddrDescr k => Some (kind_size k) | UnknownType => None end.

(** The internal form; an address with its mask is a tuple. *)
Inductive ival := Packed (b : bytes) | Pair (b m : bytes).

#[export] Instance ival_eq_dec : EqDecision ival.
Proof. solve_decision. Defined.

Definition Exception : pyexn := RyuException "Exception".

(** [IntDescr.to_user]; [ord] of an empty string raises. *)
Fixpoint int_to_user (size : nat) (i : Z) (binary : bytes) : outcome pyexn Z :=
  match size with
  | O => Ret i
  | S size => match binary with [] => Raise TypeError | c :: binary => int_to_user size (i * 256 + c) binary end
  end.

(** [IntDescr.from_user]: the low bytes of any integer. *)
Fixpoint int_from_user (size : nat) (i : Z) (binary : bytes) : bytes :=
  match size with
  | O => binary
  | S size => int_from_user size (i / 256) (Z.land i 255 :: binary)
  end.

Section types.
Context `{AddrConv}.

Definition to_user (t : type_descr) (v : ival) : outcome pyexn uval :=
  match v with
  | Pair _ _ => Raise TypeError
  | Packed b =>
      match t with
      | IntDescr size => i ← int_to_user size 0 b; Ret (UInt i)
      | AddrDescr k => s ← bin_to_text k b; Ret (UText s)
      | UnknownType => Ret (UText (b64encode b))
      end
  end.

Definition from_user (t : type_descr) (u : uval) : outcome pyexn ival :=
  match t, u with
  | IntDescr size, UInt i => Ret (Packed (int_from_user size i []))
  | AddrDescr k, _ => '(b, m) ← text_to_bin k u; Ret (match m with Some m => Pair b m | None => Packed b end)
  | UnknownType, UText s => b ← b64decode s; Ret (Packed b)
  | _, _ => Raise TypeError
  end.
End types.

(** ** The classes of fields *)

Inductive oxm_num := Num (n : Z) | ExpNum (experimenter_id exp_type : Z).

#[export] Instance oxm_num_eq_dec : EqDecision oxm_num.
Proof. solve_decision. Defined.

Definition OFPXMC_NXM_0 : Z := 0.
Definition OFPXMC_NXM_1 : Z := 1.
Definition OFPXMC_OPENFLOW_BASIC : Z := 0x8000.
Definition OFPXXC_EXPERIMENTER : Z := 0xffff.

Definition NX_EXPERIMENTER_ID : Z := 0x00002320.
Definition NX_NSH_EXPERIMENTER_ID : Z := 0x005ad650.
Definition ONF_EXPERIMENTER_ID : Z := 0x4f4e4600.

(** [_OxmClass]; [f_experimenter] holds [experimenter_id] and [exp_type] of [_Experimenter]. *)
Record oxm_field := OxmField {
  f_name : string;
  _class : Z;
  oxm_type : Z;
  f_num : oxm_num;
  f_type : type_descr;
  f_experimenter : option (Z * Z)
}.

Definition _OxmClass (cls : Z) (name : string) (num : Z) (type : type_descr) : oxm_field :=
  let oxm_type := Z.lor num (Z.shiftl cls 7) in OxmField name cls oxm_type (Num oxm_type) type None.

Definition _Experimenter (experimenter_id : Z) (name : string) (num : Z) (type : type_descr) : oxm_field :=
  let oxm_type := Z.lor num (Z.shiftl OFPXXC_EXPERIMENTER 7) in
  OxmField name OFPXXC_EXPERIMENTER oxm_type (ExpNum experimenter_id oxm_type) type (Some (experimenter_id, num)).

Definition OpenFlowBasic := _OxmClass OFPXMC_OPENFLOW_BASIC.
Definition NiciraExtended0 := _OxmClass OFPXMC_NXM_0.
Definition NiciraExtended1 := _OxmClass OFPXMC_NXM_1.
Definition ONFExperimenter := _Experimenter ONF_EXPERIMENTER_ID.
Definition NiciraExperimenter := _Experimenter NX_EXPERIMENTER_ID.
Definition NiciraNshExperimenter := _Experimenter NX_NSH_EXPERIMENTER_ID.

(** The old version of EXT-256 has the type of the experimenter after its identifier. *)
Definition OldONFExperimenter (name : string) (num : Z) (type : type_descr) : oxm_field :=
  let f := _Experimenter ONF_EXPERIMENTER_ID name 0 type in
  OxmField name OFPXXC_EXPERIMENTER (oxm_type f) (ExpNum ONF_EXPERIMENTER_ID num) type (Some (ONF_EXPERIMENTER_ID, 2560)).

Definition Int1 := IntDescr 1.
Definition Int2 := IntDescr 2.
Definition Int3 := IntDescr 3.
Definition Int4 := IntDescr 4.
Definition Int8 := IntDescr 8.
Definition Int16 := IntDescr 16.

(** [nicira_ext.oxm_types] *)
Definition nicira_oxm_types : list oxm_field := (
  [NiciraExtended0 "in_port_nxm" 0 Int2; NiciraExtended0 "eth_dst_nxm" 1 (AddrDescr MacAddr);
   NiciraExtended0 "eth_src_nxm" 2 (AddrDescr MacAddr); NiciraExtended0 "eth_type_nxm" 3 Int2; NiciraExtended0 "vlan_tci" 4 Int2;
   NiciraExtended0 "nw_tos" 5 Int1; NiciraExtended0 "ip_proto_nxm" 6 Int1; NiciraExtended0 "ipv4_src_nxm" 7 (AddrDescr IPv4Addr);
   NiciraExtended0 "ipv4_dst_nxm" 8 (AddrDescr IPv4Addr); NiciraExtended0 "tcp_src_nxm" 9 Int2;
   NiciraExtended0 "tcp_dst_nxm" 10 Int2; NiciraExtended0 "udp_src_nxm" 11 Int2; NiciraExtended0 "udp_dst_nxm" 12 Int2;
   NiciraExtended0 "icmpv4_type_nxm" 13 Int1; NiciraExtended0 "icmpv4_code_nxm" 14 Int1; NiciraExtended0 "arp_op_nxm" 15 Int2;
   NiciraExtended0 "arp_spa_nxm" 16 (AddrDescr IPv4Addr); NiciraExtended0 "arp_tpa_nxm" 17 (AddrDescr IPv4Addr);
   NiciraExtended1 "tunnel_id_nxm" 16 Int8; NiciraExtended1 "arp_sha_nxm" 17 (AddrDescr MacAddr);
   NiciraExtended1 "arp_tha_nxm" 18 (AddrDescr MacAddr); NiciraExtended1 "ipv6_src_nxm" 19 (AddrDescr IPv6Addr);
   NiciraExtended1 "ipv6_dst_nxm" 20 (AddrDescr IPv6Addr); NiciraExtended1 "icmpv6_type_nxm" 21 Int1;
   NiciraExtended1 "icmpv6_code_nxm" 22 Int1; NiciraExtended1 "nd_target" 23 (AddrDescr IPv6Addr);
   NiciraExtended1 "nd_sll" 24 (AddrDescr MacAddr); NiciraExtended1 "nd_tll" 25 (AddrDescr MacAddr);
   NiciraExtended1 "ip_frag" 26 Int1; NiciraExtended1 "ipv6_label" 27 Int4; NiciraExtended1 "ip_ecn_nxm" 28 Int1;
   NiciraExtended1 "nw_ttl" 29 Int1; NiciraExtended1 "mpls_ttl" 30 Int1; NiciraExtended1 "tun_ipv4_src" 31 (AddrDescr IPv4Addr);
   NiciraExtended1 "tun_ipv4_dst" 32 (AddrDescr IPv4Addr); NiciraExtended1 "pkt_mark" 33 Int4;
   NiciraExtended1 "tcp_flags_nxm" 34 Int2; NiciraExtended1 "conj_id" 37 Int4; NiciraExtended1 "tun_gbp_id" 38 Int2;
   NiciraExtended1 "tun_gbp_flags" 39 Int1; NiciraExtended1 "tun_flags" 104 Int2; NiciraExtended1 "ct_state" 105 Int4;
   NiciraExtended1 "ct_zone" 106 Int2; NiciraExtended1 "ct_mark" 107 Int4; NiciraExtended1 "ct_label" 108 Int16;
   NiciraExtended1 "tun_ipv6_src" 109 (AddrDescr IPv6Addr); NiciraExtended1 "tun_ipv6_dst" 110 (AddrDescr IPv6Addr);
   NiciraExtended1 "_recirc_id" 36 Int4; NiciraExperimenter "_dp_hash" 0 Int4; NiciraNshExperimenter "nsh_flags" 1 Int1;
   NiciraNshExperimenter "nsh_mdtype" 2 Int1; NiciraNshExperimenter "nsh_np" 3 Int1; NiciraNshExperimenter "nsh_spi" 4 Int4;
   NiciraNshExperimenter "nsh_si" 5 Int1; NiciraNshExperimenter "nsh_c1" 6 Int4; NiciraNshExperimenter "nsh_c2" 7 Int4;
   NiciraNshExperimenter "nsh_c3" 8 Int4; NiciraNshExperimenter "nsh_c4" 9 Int4; NiciraNshExperimenter "nsh_ttl" 10 Int1;
   NiciraExtended1 "reg0" 0 Int4; NiciraExtended1 "reg1" 1 Int4; NiciraExtended1 "reg2" 2 Int4; NiciraExtended1 "reg3" 3 Int4;
   NiciraExtended1 "reg4" 4 Int4; NiciraExtended1 "reg5" 5 Int4; NiciraExtended1 "reg6" 6 Int4; NiciraExtended1 "reg7" 7 Int4;
   NiciraExtended1 "reg8" 8 Int4; NiciraExtended1 "reg9" 9 Int4; NiciraExtended1 "reg10" 10 Int4;
   NiciraExtended1 "reg11" 11 Int4; NiciraExtended1 "reg12" 12 Int4; NiciraExtended1 "reg13" 13 Int4;
   NiciraExtended1 "reg14" 14 Int4; NiciraExtended1 "reg15" 15 Int4; NiciraExtended1 "xxreg0" 111 Int16;
   NiciraExtended1 "xxreg1" 112 Int16; NiciraExtended1 "xxreg2" 113 Int16; NiciraExtended1 "xxreg3" 114 Int16]
)%Z.

(** [ofproto_v1_3.oxm_types] *)
Definition oxm_types : list oxm_field := (
  [OpenFlowBasic "in_port" 0 Int4; OpenFlowBasic "in_phy_port" 1 Int4; OpenFlowBasic "metadata" 2 Int8;
   OpenFlowBasic "eth_dst" 3 (AddrDescr MacAddr); OpenFlowBasic "eth_src" 4 (AddrDescr MacAddr); OpenFlowBasic "eth_type" 5 Int2;
   OpenFlowBasic "vlan_vid" 6 Int2; OpenFlowBasic "vlan_pcp" 7 Int1; OpenFlowBasic "ip_dscp" 8 Int1;
   OpenFlowBasic "ip_ecn" 9 Int1; OpenFlowBasic "ip_proto" 10 Int1; OpenFlowBasic "ipv4_src" 11 (AddrDescr IPv4Addr);
   OpenFlowBasic "ipv4_dst" 12 (AddrDescr IPv4Addr); OpenFlowBasic "tcp_src" 13 Int2; OpenFlowBasic "tcp_dst" 14 Int2;
   OpenFlowBasic "udp_src" 15 Int2; OpenFlowBasic "udp_dst" 16 Int2; OpenFlowBasic "sctp_src" 17 Int2;
   OpenFlowBasic "sctp_dst" 18 Int2; OpenFlowBasic "icmpv4_type" 19 Int1; OpenFlowBasic "icmpv4_code" 20 Int1;
   OpenFlowBasic "arp_op" 21 Int2; OpenFlowBasic "arp_spa" 22 (AddrDescr IPv4Addr);
   OpenFlowBasic "arp_tpa" 23 (AddrDescr IPv4Addr); OpenFlowBasic "arp_sha" 24 (AddrDescr MacAddr);
   OpenFlowBasic "arp_tha" 25 (AddrDescr MacAddr); OpenFlowBasic "ipv6_src" 26 (AddrDescr IPv6Addr);
   OpenFlowBasic "ipv6_dst" 27 (AddrDescr IPv6Addr); OpenFlowBasic "ipv6_flabel" 28 Int4; OpenFlowBasic "icmpv6_type" 29 Int1;
   OpenFlowBasic "icmpv6_code" 30 Int1; OpenFlowBasic "ipv6_nd_target" 31 (AddrDescr IPv6Addr);
   OpenFlowBasic "ipv6_nd_sll" 32 (AddrDescr MacAddr); OpenFlowBasic "ipv6_nd_tll" 33 (AddrDescr MacAddr);
   OpenFlowBasic "mpls_label" 34 Int4; OpenFlowBasic "mpls_tc" 35 Int1; OpenFlowBasic "mpls_bos" 36 Int1;
   OpenFlowBasic "pbb_isid" 37 Int3; OpenFlowBasic "tunnel_id" 38 Int8; OpenFlowBasic "ipv6_exthdr" 39 Int2;
   OldONFExperimenter "pbb_uca" 2560 Int1; ONFExperimenter "tcp_flags" 42 Int2; ONFExperimenter "actset_output" 43 Int4] ++ nicira_oxm_types
)%Z.

(** [name_to_field] and [num_to_field]: of two fields with one key a [dict] keeps the last. *)
Definition field_by_name (name : string) : option oxm_field := last (filter (λ f, f_name f = name) oxm_types).
Definition _oxm_field_desc (n : oxm_num) : option oxm_field := last (filter (λ f, f_num f = n) oxm_types).

(** ** Between users and fields *)

(** [int] of a decimal text, with an optional sign; spaces are not modelled. *)
Fixpoint digits (acc : Z) (s : string) : option Z :=
  match s with
  | EmptyString => Some acc
  | String c s =>
      let d := Z.of_nat (nat_of_ascii c) - 48 in
      if (0 <=? d) && (d <=? 9) then digits (acc * 10 + d) s else None
  end.

Definition py_int (s : string) : outcome pyexn Z :=
  let read s := match s with EmptyString => Raise ValueError | _ => match digits 0 s with Some n => Ret n | None => Raise ValueError end end in
  match s with
  | String "-" s => n ← read s; Ret (- n)
  | String "+" s => read s
  | _ => read s
  end.

(** [name.split('_')[1]] of a name that starts with [field_]. *)
Fixpoint up_to_underscore (s : string) : string :=
  match s with
  | EmptyString => EmptyString
  | String c s => if bool_decide (c = "_"%char) then EmptyString else String c (up_to_underscore s)
  end.

Definition _get_field_info_by_name (name : string) : outcome pyexn (oxm_num * type_descr) :=
  match field_by_name name with
  | Some f => Ret (f_num f, f_type f)
  | None =>
      if String.prefix "field_" name then
        num ← py_int (up_to_underscore (String.substring 6 (String.length name) name));
        Ret (Num num, UnknownType)
      else Raise KeyError
  end.

Definition _get_field_info_by_number (n : oxm_num) : outcome pyexn (string * type_descr) :=
  match _oxm_field_desc n with
  | Some f => Ret (f_name f, f_type f)
  | None => match n with Num n => Ret ("field_" +:+ pretty n, UnknownType) | ExpNum _ _ => Raise KeyError end
  end.

(** What a user gives for a field: a value, or a value and a mask. *)
Inductive user_value := Exact (value : uval) | Masked (value mask : uval).

#[export] Instance user_value_eq_dec : EqDecision user_value.
Proof. solve_decision. Defined.

Section fields.
Context `{AddrConv}.

Definition _from_user (name : string) (uv : user_value) : outcome pyexn (oxm_num * ival * option ival) :=
  '(num, t) ← _get_field_info_by_name name;
  match uv with
  | Masked value mask =>
      v ← from_user t value;
      m ← from_user t mask;
      Ret (num, v, Some m)
  | Exact value =>
      v ← from_user t value;
      match v with
      | Pair b m => Ret (num, Packed b, Some (Packed m))
      | Packed _ => Ret (num, v, None)
      end
  end.

(** [len] of the value; of a tuple it is the number of elements times the length of the first. *)
Definition payload_length (v : ival) : nat := match v with Packed b => length b | Pair b _ => 2 * length b end.

Definition _to_user (n : oxm_num) (v : ival) (m : option ival) : outcome pyexn (string * user_value) :=
  '(name, t) ← _get_field_info_by_number n;
  (match type_size t with
   | Some size => if (size =? payload_length v)%nat then Ret tt else Raise Exception
   | None => Ret tt
   end);;
  value ← to_user t v;
  match m with
  | None => Ret (name, Exact value)
  | Some m => mask ← to_user t m; Ret (name, Masked value mask)
  end.

(** The value under the mask; [int] of an element that is a byte string raises. *)
Definition apply_mask (v : ival) (m : option ival) : outcome pyexn ival :=
  match v, m with
  | _, None => Ret v
  | Packed b, Some (Packed m) => Ret (Packed (zip_with Z.land b m))
  | _, _ => Raise ValueError
  end.

(** Exceptions of both conversions leave the argument as it is. *)
Definition _normalize_user (k : string) (uv : user_value) : outcome pyexn (string * user_value) :=
  match _from_user k uv with
  | Raise _ => Ret (k, uv)
  | Ret (n, v, m) =>
      v ← apply_mask v m;
      match _to_user n v m with
      | Raise _ => Ret (k, uv)
      | Ret (k2, uv2) => check (bool_decide (k2 = k));; Ret (k2, uv2)
      end
  end.
End fields.

(** ** Bytes *)

(** The bytes of a header word. *)
Definition oxm_tlv_header_extract_hasmask (header : Z) : bool := Z.testbit header 8.

(** [_parse_header_impl] on the bytes from [offset] on. *)
Definition _parse_header_impl (buf : bytes) : outcome pyexn (oxm_num * nat * bool * nat * nat) :=
  '(header, rest) ← unpack_field 4 buf;
  let oxx_type := Z.shiftr header 9 in
  let oxm_hasmask := oxm_tlv_header_extract_hasmask header in
  let oxx_class := Z.shiftr oxx_type 7 in
  let oxx_length := Z.land header 0xff in
  '((num, exp_hdr_len) : oxm_num * nat) ←
    (if oxx_class =? OFPXXC_EXPERIMENTER then
       '(exp_id, rest) ← unpack_field 4 rest;
       let oxx_field := Z.land oxx_type 0x7f in
       if (exp_id =? ONF_EXPERIMENTER_ID) && (oxx_field =? 0) then
         '(exp_type, _) ← unpack_field 2 rest;
         Ret (ExpNum exp_id exp_type, 6%nat)
       else Ret (ExpNum exp_id oxx_type, 4%nat)
     else Ret (Num oxx_type, 0%nat));
  let value_len := oxx_length - Z.of_nat exp_hdr_len in
  let value_len := if oxm_hasmask then value_len / 2 else value_len in
  check (0 <? value_len);;
  Ret (num, (4 + exp_hdr_len)%nat, oxm_hasmask, Z.to_nat value_len, (4 + Z.to_nat oxx_length)%nat).

(** [_parse] *)
Definition _parse (buf : bytes) : outcome pyexn (oxm_num * ival * option ival * nat) :=
  '(num, total_hdr_len, hasmask, value_len, field_len) ← _parse_header_impl buf;
  '(value, rest) ← unpack_s value_len (drop total_hdr_len buf);
  if hasmask : bool then
    '(mask, _) ← unpack_s value_len rest;
    Ret (num, Packed value, Some (Packed mask), field_len)
  else Ret (num, Packed value, None, field_len).

(** [_make_exp_hdr] *)
Definition _make_exp_hdr (n : oxm_num) : outcome pyexn (oxm_num * bytes) :=
  match _oxm_field_desc n with
  | None => Ret (n, [])
  | Some desc =>
      if _class desc =? OFPXXC_EXPERIMENTER then
        match n, f_experimenter desc with
        | ExpNum exp_id exp_type, Some (experimenter_id, desc_exp_type) =>
            check (experimenter_id =? exp_id);;
            exp_hdr ←
              (if desc_exp_type =? 2560 then pack [(4%nat, experimenter_id); (2%nat, desc_exp_type)]
               else
                 check (oxm_type desc =? Z.lor exp_type (Z.shiftl OFPXXC_EXPERIMENTER 7));;
                 pack [(4%nat, experimenter_id)]);
            check (Z.shiftr (oxm_type desc) 7 =? OFPXXC_EXPERIMENTER);;
            Ret (Num (oxm_type desc), exp_hdr)
        | _, _ => Raise TypeError
        end
      else Ret (n, [])
  end.

(** The header word of a field that is no tuple. *)
Definition pack_header (n : oxm_num) (hasmask : Z) (len : nat) : outcome pyexn bytes :=
  match n with
  | Num n => pack [(4%nat, Z.lor (Z.lor (Z.shiftl n 9) (Z.shiftl hasmask 8)) (Z.of_nat len))]
  | ExpNum _ _ => Raise TypeError
  end.

Definition ival_len (v : ival) : nat := match v with Packed b => length b | Pair _ _ => 2 end.

(** A field [%ds] takes bytes only. *)
Definition ival_bytes (v : ival) : outcome pyexn bytes := match v with Packed b => Ret b | Pair _ _ => Raise StructError end.

(** [_serialize]: the buffer with the field, and its length. *)
Definition _serialize (n : oxm_num) (value : ival) (mask : option ival) (buf : bytes) (offset : nat) : outcome pyexn (bytes * nat) :=
  '((n, exp_hdr) : oxm_num * bytes) ← _make_exp_hdr n;
  let value_len := ival_len value in
  packed ←
    (match mask with
     | None | Some (Packed []) =>
         hdr ← pack_header n 0 (length exp_hdr + value_len);
         v ← ival_bytes value;
         Ret (hdr ++ exp_hdr ++ v)
     | Some mask =>
         check (value_len =? ival_len mask)%nat;;
         hdr ← pack_header n 1 (length exp_hdr + value_len * 2);
         v ← ival_bytes value;
         m ← ival_bytes mask;
         Ret (hdr ++ exp_hdr ++ v ++ m)
     end);
  Ret (msg_pack_into buf offset packed, length packed).

(** ** The tables *)

#[export] Instance addr_kind_eq_dec : EqDecision addr_kind.
Proof. solve_decision. Defined.

#[export] Instance type_descr_eq_dec : EqDecision type_descr.
Proof. solve_decision. Defined.

#[export] Instance oxm_field_eq_dec : EqDecision oxm_field.
Proof. solve_decision. Defined.

(** What the codecs need of a field: a type with a size, a key that agrees with its class. *)
Definition key_shape (f : oxm_field) : Prop :=
  match f_experimenter f with
  | None => _class f ≠ OFPXXC_EXPERIMENTER ∧ f_num f = Num (oxm_type f) ∧ Z.shiftr (oxm_type f) 7 ≠ OFPXXC_EXPERIMENTER
  | Some (id, exp_type) =>
      _class f = OFPXXC_EXPERIMENTER ∧ Z.shiftr (oxm_type f) 7 = OFPXXC_EXPERIMENTER ∧ 0 ≤ id < 2 ^ 32 ∧
      (exp_type = 2560 ∧ f_num f = ExpNum id 2560 ∧ id = ONF_EXPERIMENTER_ID ∧ Z.land (oxm_type f) 0x7f = 0 ∨
       exp_type ≠ 2560 ∧ f_num f = ExpNum id (oxm_type f) ∧ Z.lor (oxm_type f) (Z.shiftl OFPXXC_EXPERIMENTER 7) = oxm_type f ∧
         ¬ (id = ONF_EXPERIMENTER_ID ∧ Z.land (oxm_type f) 0x7f = 0))
  end.

Definition field_shape (f : oxm_field) : Prop :=
  0 ≤ oxm_type f < 2 ^ 23 ∧ match type_size (f_type f) with Some size => (0 < size ≤ 16)%nat | None => False end ∧ key_shape f.

#[local] Instance field_shape_dec f : Decision (field_shape f).
Proof. unfold field_shape, key_shape. repeat case_match; apply _. Defined.

Lemma table_shape f : f ∈ oxm_types → field_shape f.
Proof.
  assert (forallb (λ f, bool_decide (field_shape f)) oxm_types = true) as Hall by (vm_compute; reflexivity).
  intros Hf%list_elem_of_In. pose proof (proj1 (forallb_forall _ _) Hall f Hf) as E. by apply bool_decide_eq_true in E.
Qed.

(** No name and no number occurs twice. *)
Lemma known_name f : f ∈ oxm_types → field_by_name (f_name f) = Some f.
Proof.
  assert (forallb (λ f, bool_decide (field_by_name (f_name f) = Some f)) oxm_types = true) as Hall by (vm_compute; reflexivity).
  intros Hf%list_elem_of_In. pose proof (proj1 (forallb_forall _ _) Hall f Hf) as E. by apply bool_decide_eq_true in E.
Qed.

Lemma known_num f : f ∈ oxm_types → _oxm_field_desc (f_num f) = Some f.
Proof.
  assert (forallb (λ f, bool_decide (_oxm_field_desc (f_num f) = Some f)) oxm_types = true) as Hall by (vm_compute; reflexivity).
  intros Hf%list_elem_of_In. pose proof (proj1 (forallb_forall _ _) Hall f Hf) as E. by apply bool_decide_eq_true in E.
Qed.

Lemma by_name_known name f : field_by_name name = Some f → f ∈ oxm_types ∧ f_name f = name.
Proof. intros E%last_Some_elem_of. apply list_elem_of_filter in E. tauto. Qed.

(** ** Values *)

Lemma int_from_user_bytes size i acc : int_from_user size i acc = be_bytes size i ++ acc.
Proof.
  revert i acc. induction size as [|size IH]; intros i acc; [done|]. cbn [int_from_user be_bytes].
  rewrite IH, <- app_assoc. change 255 with (Z.ones 8). by rewrite Z.land_ones.
Qed.

Lemma int_to_user_value b i : int_to_user (length b) i b = Ret (fold_left (λ acc c, acc * 256 + c) b i).
Proof. revert i. induction b as [|c b IH]; intros i; [done|]. apply IH. Qed.

Lemma be_bytes_value b : Forall is_byte b → be_bytes (length b) (be_value b) = b.
Proof.
  induction b as [|c b IH] using rev_ind; intros Hb; [done|]. apply Forall_app in Hb as [Hb [Hc _]%Forall_cons].
  rewrite length_app, Nat.add_1_r. cbn [be_bytes]. rewrite be_value_app. unfold is_byte in Hc.
  assert (c / 256 = 0) as Hd by (apply Z.div_small; lia). assert (c mod 256 = c) as Hm by (apply Z.mod_small; lia).
  rewrite Z.div_add_l, Hd, Z.add_0_r, IH by (done || lia). by rewrite Z.add_comm, Z_mod_plus_full, Hm.
Qed.

(** The bytes of a value of a field. *)
Definition sized (t : type_descr) (b : bytes) : Prop := type_size t = Some (length b) ∧ Forall is_byte b.

Definition sized_ival (t : type_descr) (v : ival) : Prop := match v with Packed b => sized t b | Pair b m => sized t b ∧ sized t m end.

Section values.
Context `{AddrConv, !AddrConvLaws}.

Lemma from_user_sized t u v : is_Some (type_size t) → from_user t u = Ret v → sized_ival t v.
Proof.
  destruct t as [size|k|], u as [i|s]; try (by intros [? ?]); intros _; cbn [from_user].
  - intros [= <-]. rewrite int_from_user_bytes, app_nil_r. split; [cbn; by rewrite length_be_bytes|apply be_bytes_are_bytes].
  - destruct (text_to_bin k (UInt i)) as [[b m]|] eqn:E; [|done]. apply address_size in E as (Hl & Hb & Hm). cbn. intros [= <-].
    destruct m as [m|]; [destruct (Hm m eq_refl)|]; cbn [sized_ival]; unfold sized; cbn; split_and?; congruence || done.
  - destruct (text_to_bin k (UText s)) as [[b m]|] eqn:E; [|done]. apply address_size in E as (Hl & Hb & Hm). cbn. intros [= <-].
    destruct m as [m|]; [destruct (Hm m eq_refl)|]; cbn [sized_ival]; unfold sized; cbn; split_and?; congruence || done.
Qed.

(** What is shown to the user stands for the same bytes. *)
Lemma to_user_sized t b : sized t b → ∃ u, to_user t (Packed b) = Ret u ∧ from_user t u = Ret (Packed b).
Proof.
  destruct t as [size|k|]; intros [[= Hl] Hb]; cbn [to_user].
  - subst size. rewrite int_to_user_value. eexists. split; [done|]. cbn. rewrite int_from_user_bytes, app_nil_r.
    change (fold_left _ b 0) with (be_value b). by rewrite be_bytes_value.
  - destruct (address_text k b (eq_sym Hl) Hb) as (s & E1 & E2). rewrite E1. exists (UText s). split; [done|]. cbn. by rewrite E2.
Qed.

(** A field in its internal form, and the user's form that stands for it. *)
Definition known_field (f : oxm_field) (v : bytes) (m : option bytes) : Prop :=
  f ∈ oxm_types ∧ sized (f_type f) v ∧ ∀ m', m = Some m' → sized (f_type f) m'.

Definition canonical (f : oxm_field) (v : bytes) (m : option bytes) (k : string) (uv : user_value) : Prop :=
  known_field f v m ∧ k = f_name f ∧
  _from_user k uv = Ret (f_num f, Packed v, Packed <$> m) ∧ _to_user (f_num f) (Packed v) (Packed <$> m) = Ret (k, uv).

Lemma to_user_canonical f v m : known_field f v m → ∃ uv, canonical f v m (f_name f) uv.
Proof.
  intros (Hf & Hv & Hm). pose proof (known_num f Hf) as En. pose proof (known_name f Hf) as Ek.
  destruct (to_user_sized _ _ Hv) as (u & E1 & E2).
  unfold canonical, _to_user, _get_field_info_by_number, _from_user, _get_field_info_by_name. rewrite En, Ek.
  cbn [mbind outcome_bind payload_length]. rewrite (proj1 Hv), Nat.eqb_refl. cbn [mbind outcome_bind]. rewrite E1. cbn [mbind outcome_bind].
  destruct m as [m|].
  - destruct (to_user_sized _ _ (Hm m eq_refl)) as (u' & E3 & E4). exists (Masked u u'). split; [done|]. split; [done|].
    change (Packed <$> Some m) with (Some (Packed m)). cbv iota. rewrite E3, E2. cbn [mbind outcome_bind]. by rewrite E4.
  - exists (Exact u). split; [done|]. split; [done|]. cbn. by rewrite E2.
Qed.
End values.

(** ** Bytes *)

Definition header_word (ty : Z) (hasmask : bool) (len : nat) : Z :=
  Z.lor (Z.lor (Z.shiftl ty 9) (Z.shiftl (Z.b2z hasmask) 8)) (Z.of_nat len).

Lemma header_parts ty hasmask len :
  0 ≤ ty < 2 ^ 23 → (len < 256)%nat →
  let header := header_word ty hasmask len in
  0 ≤ header < 256 ^ Z.of_nat 4 ∧ Z.shiftr header 9 = ty ∧ oxm_tlv_header_extract_hasmask header = hasmask ∧ Z.land header 0xff = Z.of_nat len.
Proof.
  intros Hty Hlen header. set (h := Z.b2z hasmask). assert (0 ≤ h ≤ 1) as Hh by (by destruct hasmask).
  assert (header = (ty * 2 + h) * 2 ^ 8 + Z.of_nat len) as E.
  { unfold header, header_word. replace (Z.shiftl ty 9) with (Z.shiftl (ty * 2 ^ 1) 8) by (rewrite !Z.shiftl_mul_pow2 by lia; lia).
    rewrite <- Z.shiftl_lor, <- (Z.shiftl_mul_pow2 ty 1), lor_shifted, lor_shifted by (change (2 ^ 1) with 2; change (2 ^ 8) with 256; lia). lia. }
  split_and!.
  - lia.
  - change (256 ^ Z.of_nat 4) with (2 ^ 23 * 512). lia.
  - rewrite E. replace ((ty * 2 + h) * 2 ^ 8 + Z.of_nat len) with (ty * 2 ^ 9 + (h * 256 + Z.of_nat len)) by lia.
    apply shifted_high; [lia|]. change (2 ^ 9) with 512. lia.
  - unfold oxm_tlv_header_extract_hasmask. rewrite E, Z.testbit_eqb, Z.div_add_l, Z.div_small by lia.
    rewrite Z.add_0_r, Z.add_comm, Z.mul_comm, Z.mul_comm, Z_mod_plus_full. subst h. by destruct hasmask.
  - rewrite E. change 0xff with (Z.ones 8). apply shifted_low; [lia|]. change (2 ^ 8) with 256. lia.
Qed.

(** The experimenter header of a field, and how it is read. *)
Definition exp_header (f : oxm_field) : bytes :=
  match f_experimenter f with
  | None => []
  | Some (id, exp_type) => be_bytes 4 id ++ if exp_type =? 2560 then be_bytes 2 2560 else []
  end.

Lemma exp_header_bytes f : (length (exp_header f) ≤ 6)%nat ∧ Forall is_byte (exp_header f).
Proof.
  unfold exp_header. destruct (f_experimenter f) as [[id ty]|]; [|split; [cbn; lia|constructor]].
  destruct (ty =? 2560); rewrite length_app, !length_be_bytes; (split; [cbn; lia|rewrite Forall_app; split; apply be_bytes_are_bytes || constructor]).
Qed.

Lemma make_exp_hdr f : f ∈ oxm_types → _make_exp_hdr (f_num f) = Ret (Num (oxm_type f), exp_header f).
Proof.
  intros Hf. pose proof (known_num f Hf) as En. destruct (table_shape f Hf) as (_ & _ & Hk). unfold _make_exp_hdr. rewrite En.
  unfold key_shape, exp_header in *. destruct (f_experimenter f) as [[id ty]|].
  - destruct Hk as (Hc & Hty & Hid & Hk). rewrite Hc, Hty. rewrite Z.eqb_refl.
    assert (0 ≤ id < 256 ^ Z.of_nat 4) as Hid' by done.
    destruct Hk as [(-> & -> & -> & _)|(Hne & -> & Ht & _)]; rewrite ?Z.eqb_refl; cbn [check mbind outcome_bind].
    + rewrite pack2 by done. done.
    + rewrite (proj2 (Z.eqb_neq ty 2560)) by done. rewrite Ht, Z.eqb_refl. cbn [check mbind outcome_bind]. rewrite pack1 by done. by rewrite app_nil_r.
  - destruct Hk as (Hc & -> & _). by rewrite (proj2 (Z.eqb_neq _ _) Hc).
Qed.

Lemma parse_header f hasmask vlen rest :
  f ∈ oxm_types → let n := (length (exp_header f) + (if hasmask : bool then vlen * 2 else vlen))%nat in
  (0 < vlen)%nat → (n < 256)%nat →
  _parse_header_impl (be_bytes 4 (header_word (oxm_type f) hasmask n) ++ exp_header f ++ rest) =
    Ret (f_num f, (4 + length (exp_header f))%nat, hasmask, vlen, (4 + n)%nat).
Proof.
  intros Hf n Hv Hn. destruct (table_shape f Hf) as (Hty & _ & Hk). destruct (header_parts _ hasmask n Hty Hn) as (Hw & Hhi & Hmask & Hlen).
  unfold _parse_header_impl. rewrite unpack_be by done. cbn [mbind outcome_bind]. rewrite Hhi, Hmask, Hlen, Nat2Z.id.
  assert (∃ e, (if Z.shiftr (oxm_type f) 7 =? OFPXXC_EXPERIMENTER then
       '(exp_id, rest) ← unpack_field 4 (exp_header f ++ rest);
       let oxx_field := Z.land (oxm_type f) 0x7f in
       if (exp_id =? ONF_EXPERIMENTER_ID) && (oxx_field =? 0) then
         '(exp_type, _) ← unpack_field 2 rest;
         Ret (ExpNum exp_id exp_type, 6%nat)
       else Ret (ExpNum exp_id (oxm_type f), 4%nat)
     else Ret (Num (oxm_type f), 0%nat)) = Ret (f_num f, e) ∧ e = length (exp_header f)) as (e & E & ->).
  { unfold key_shape, exp_header in *. destruct (f_experimenter f) as [[id ty]|].
    - destruct Hk as (_ & -> & Hid & Hk). rewrite Z.eqb_refl, <- app_assoc, unpack_be by done. cbn [mbind outcome_bind].
      destruct Hk as [(-> & -> & -> & ->)|(Hne & -> & _ & Hnot)].
      + rewrite !Z.eqb_refl. cbn [andb]. rewrite unpack_be by done. by exists 6%nat.
      + rewrite (proj2 (Z.eqb_neq ty 2560)) by done. exists 4%nat.
        destruct (Z.eqb_spec id ONF_EXPERIMENTER_ID), (Z.eqb_spec (Z.land (oxm_type f) 127) 0); by try (exfalso; tauto).
    - destruct Hk as (_ & -> & Hne). rewrite (proj2 (Z.eqb_neq _ _) Hne). by exists 0%nat. }
  cbn zeta in E. rewrite E. cbn [mbind outcome_bind].
  assert ((if hasmask then (Z.of_nat n - Z.of_nat (length (exp_header f))) / 2 else Z.of_nat n - Z.of_nat (length (exp_header f))) = Z.of_nat vlen) as ->.
  { subst n. destruct hasmask; [|lia].
    replace (Z.of_nat (length (exp_header f) + vlen * 2) - Z.of_nat (length (exp_header f))) with (Z.of_nat vlen * 2) by lia. by rewrite Z.div_mul. }
  rewrite (proj2 (Z.ltb_lt 0 _)) by lia. cbn [check mbind outcome_bind]. by rewrite Nat2Z.id.
Qed.

(** The bytes of a field. *)
Definition field_bytes (f : oxm_field) (v : bytes) (m : option bytes) : bytes :=
  let payload := v ++ default [] m in
  be_bytes 4 (header_word (oxm_type f) (bool_decide (is_Some m)) (length (exp_header f ++ payload))) ++ exp_header f ++ payload.

Lemma known_sizes f v m :
  known_field f v m → (0 < length v ≤ 16)%nat ∧ Forall is_byte v ∧ ∀ m', m = Some m' → length m' = length v ∧ Forall is_byte m'.
Proof.
  intros (Hf & [Hl Hb] & Hm). destruct (table_shape f Hf) as (_ & Hs & _). rewrite Hl in Hs. split_and!; [lia..|done|].
  intros m' ->. destruct (Hm m' eq_refl) as [Hl' Hb']. split; congruence.
Qed.

Lemma field_bytes_ok f v m :
  known_field f v m → (4 < length (field_bytes f v m) ≤ 42)%nat ∧ Forall is_byte (field_bytes f v m).
Proof.
  intros Hk. destruct (known_sizes f v m Hk) as (Hl & Hb & Hm). destruct (exp_header_bytes f) as [He Heb].
  unfold field_bytes. rewrite !length_app, length_be_bytes.
  assert ((length (default [] m) ≤ 16)%nat ∧ Forall is_byte (default [] m)) as [Hd Hdb].
  { destruct m as [m|]; [|split; [cbn; lia|constructor]]. destruct (Hm m eq_refl). cbn. split; [lia|done]. }
  split; [lia|]. bytes.
Qed.

Lemma serialize_field f v m buf :
  known_field f v m → _serialize (f_num f) (Packed v) (Packed <$> m) buf (length buf) = Ret (buf ++ field_bytes f v m, length (field_bytes f v m)).
Proof.
  intros Hk. pose proof (known_sizes f v m Hk) as (Hl & _ & Hm). destruct Hk as (Hf & _). destruct (exp_header_bytes f) as [He _].
  destruct (table_shape f Hf) as (Hty & _).
  unfold _serialize. rewrite make_exp_hdr by done. cbn [mbind outcome_bind ival_len].
  assert (∀ h n, (n < 256)%nat → pack_header (Num (oxm_type f)) (Z.b2z h) n = Ret (be_bytes 4 (header_word (oxm_type f) h n))) as Hh.
  { intros h n Hn. apply pack1. by apply header_parts. }
  destruct m as [m|]; cbn [fmap option_fmap option_map].
  - destruct (Hm m eq_refl) as [Hlm _]. destruct m as [|c m]; [cbn in *; lia|]. cbn [ival_len]. rewrite Hlm, Nat.eqb_refl. cbn [check mbind outcome_bind].
    change 1 with (Z.b2z true). rewrite Hh by lia. cbn [mbind outcome_bind ival_bytes]. rewrite msg_pack_into_end.
    unfold field_bytes. cbn [default from_option id bool_decide]. rewrite !length_app, Hlm. replace (length v * 2)%nat with (length v + length v)%nat by lia. done.
  - change 0 with (Z.b2z false). rewrite Hh by lia. cbn [mbind outcome_bind ival_bytes]. rewrite msg_pack_into_end.
    unfold field_bytes. change (default [] None) with (@nil Z). by rewrite app_nil_r, (length_app (exp_header f) v).
Qed.

(** Behind the end of the buffer, the gap is filled with zeros. *)
Lemma serialize_field_gap f v m buf n :
  known_field f v m →
  _serialize (f_num f) (Packed v) (Packed <$> m) buf (length buf + n) = Ret ((buf ++ replicate n 0) ++ field_bytes f v m, length (field_bytes f v m)).
Proof.
  intros Hk. pose proof (serialize_field f v m buf Hk) as E. unfold _serialize in *. rewrite make_exp_hdr in * by (by destruct Hk).
  cbn [mbind outcome_bind] in *. apply outcome_bind_ret in E as (packed & E & E2). rewrite E. cbn [mbind outcome_bind].
  rewrite msg_pack_into_end in E2. rewrite msg_pack_into_gap, <- app_assoc. simplify_eq. done.
Qed.

Lemma parse_field f v m rest :
  known_field f v m → _parse (field_bytes f v m ++ rest) = Ret (f_num f, Packed v, Packed <$> m, length (field_bytes f v m)).
Proof.
  intros Hk. pose proof (known_sizes f v m Hk) as (Hl & _ & Hm). destruct Hk as (Hf & _). destruct (exp_header_bytes f) as [He _].
  unfold field_bytes. rewrite !length_app, length_be_bytes, <- !app_assoc. unfold _parse.
  assert (length (exp_header f) + (length v + length (default [] m)) = length (exp_header f) + (if bool_decide (is_Some m) then length v * 2 else length v))%nat as ->.
  { destruct m as [m|]; cbn [default from_option id bool_decide]; [destruct (Hm m eq_refl)|cbn]; cbn; lia. }
  rewrite parse_header by (done || destruct m; cbn; lia). cbn [mbind outcome_bind].
  rewrite app_assoc, drop_app_length' by (by rewrite length_app, length_be_bytes).
  rewrite unpack_s_app by done. cbn [mbind outcome_bind]. destruct m as [m|]; cbn [default from_option id bool_decide]; [|done].
  rewrite unpack_s_app by (by apply Hm). cbn [mbind outcome_bind]. done.
Qed.

(** ** Fields that are cut off *)

Lemma unpack_field_short n bs : (length bs < n)%nat → unpack_field n bs = Raise StructError.
Proof. intros Hl. unfold unpack_field. by rewrite (proj2 (Nat.ltb_lt _ _) Hl). Qed.

Lemma unpack_s_short n bs : (length bs < n)%nat → unpack_s n bs = Raise StructError.
Proof. intros Hl. unfold unpack_s. by rewrite (proj2 (Nat.ltb_lt _ _) Hl). Qed.

(** A header that is cut off within its experimenter part. *)
Lemma parse_header_short f hasmask n bs :
  f ∈ oxm_types → (n < 256)%nat → (length bs < length (exp_header f))%nat → bs = take (length bs) (exp_header f) →
  _parse_header_impl (be_bytes 4 (header_word (oxm_type f) hasmask n) ++ bs) = Raise StructError.
Proof.
  intros Hf Hn Hl Hbs. destruct (table_shape f Hf) as (Hty & _ & Hk). destruct (header_parts _ hasmask n Hty Hn) as (Hw & Hhi & Hmask & Hlen).
  unfold _parse_header_impl. rewrite unpack_be by done. cbn [mbind outcome_bind]. rewrite Hhi. unfold key_shape, exp_header in *.
  destruct (f_experimenter f) as [[id ty]|]; [|cbn in Hl; lia]. destruct Hk as (_ & -> & Hid & Hk). rewrite Z.eqb_refl.
  destruct (decide (length bs < 4)%nat) as [Hs|Hs]; [by rewrite unpack_field_short|].
  destruct (Z.eqb_spec ty 2560) as [E|E]; rewrite length_app, !length_be_bytes in Hl; [|cbn in Hl; lia].
  destruct Hk as [(_ & _ & -> & Hfield)|[Hne _]]; [|done].
  rewrite Hbs, take_app, length_be_bytes, (take_ge (be_bytes 4 _)) by (rewrite ?length_be_bytes; lia). rewrite unpack_be by done.
  cbn [mbind outcome_bind]. rewrite Hfield, Z.eqb_refl. cbn [andb Z.eqb]. rewrite unpack_field_short; [done|]. rewrite length_take, length_be_bytes. lia.
Qed.

Lemma parse_field_short f v m j :
  known_field f v m → (j < length (field_bytes f v m))%nat → _parse (take j (field_bytes f v m)) = Raise StructError.
Proof.
  intros Hk Hj. pose proof (known_sizes f v m Hk) as (Hl & _ & Hm). destruct Hk as (Hf & _). destruct (exp_header_bytes f) as [He _].
  set (n := if bool_decide (is_Some m) then (length v * 2)%nat else length v).
  assert (length (exp_header f ++ v ++ default [] m) = (length (exp_header f) + n)%nat) as Hn.
  { subst n. rewrite !length_app. destruct m as [m|]; [destruct (Hm m eq_refl)|]; cbn; lia. }
  unfold field_bytes in *. rewrite Hn in *. rewrite length_app, length_be_bytes, Hn in Hj. unfold _parse.
  destruct (decide (j < 4)%nat) as [H4|H4].
  { unfold _parse_header_impl. rewrite unpack_field_short; [done|]. rewrite length_take, length_app, length_be_bytes. lia. }
  rewrite take_app, length_be_bytes, (take_ge (be_bytes 4 _)) by (rewrite ?length_be_bytes; lia).
  destruct (decide (j - 4 < length (exp_header f))%nat) as [H6|H6].
  { rewrite take_app_le by lia. rewrite parse_header_short; [done|done| |rewrite length_take; lia|rewrite length_take; f_equal; lia].
    subst n. case_bool_decide; lia. }
  rewrite take_app, (take_ge (exp_header f)) by lia. set (r := (j - 4 - length (exp_header f))%nat).
  assert (n < 250)%nat as Hsmall by (subst n; case_bool_decide; lia).
  subst n. rewrite parse_header by (done || case_bool_decide; lia). cbn [mbind outcome_bind].
  rewrite app_assoc, drop_app_length' by (by rewrite length_app, length_be_bytes).
  destruct (decide (r < length v)%nat) as [Hr|Hr]; [by rewrite unpack_s_short by (rewrite length_take; lia)|].
  destruct m as [m|]; [|exfalso; cbn in Hj; lia]. rewrite take_app, (take_ge v) by lia. rewrite unpack_s_app by done. cbn [mbind outcome_bind].
  cbn in Hj. rewrite unpack_s_short; [done|]. rewrite length_take. cbn. lia.
Qed.

(** ** A conversion of addresses *)

(** One character for each byte; a text of twice the size stands for an address and a mask. *)
Module PlainConv.

Definition text (b : bytes) : string := String.string_of_list_ascii ((λ z, ascii_of_nat (Z.to_nat z)) <$> b).
Definition codes (s : string) : bytes := (λ c, Z.of_nat (nat_of_ascii c)) <$> String.list_ascii_of_string s.

Lemma codes_text b : Forall is_byte b → codes (text b) = b.
Proof.
  unfold codes, text. rewrite String.list_ascii_of_string_of_list_ascii, <- list_fmap_compose. unfold is_byte.
  induction 1 as [|z b Hz _ IH]; [done|]. cbn. rewrite IH, nat_ascii_embedding by lia. f_equal. lia.
Qed.

Lemma codes_bytes s : Forall is_byte (codes s).
Proof.
  unfold codes, is_byte. apply Forall_fmap, Forall_true. intros c. cbn. pose proof (nat_ascii_bounded c). lia.
Qed.

#[export] Instance plain_conv : AddrConv := {|
  text_to_bin k u :=
    match u with
    | UInt i => Ret (be_bytes (kind_size k) i, None)
    | UText s =>
        let b := codes s in
        if (length b =? kind_size k)%nat then Ret (b, None)
        else if (length b =? 2 * kind_size k)%nat then Ret (take (kind_size k) b, Some (drop (kind_size k) b))
        else Raise (RyuException "AddrFormatError")
    end;
  bin_to_text k b := if (length b =? kind_size k)%nat then Ret (text b) else Raise StructError;
  b64encode := text;
  b64decode s := Ret (codes s)
|}.

#[export] Instance plain_laws : AddrConvLaws.
Proof.
  split.
  - intros k [i|s] b m; cbn -[Nat.mul].
    + intros [= <- <-]. split_and!; [apply length_be_bytes|apply be_bytes_are_bytes|done].
    + pose proof (codes_bytes s) as Hb. destruct (Nat.eqb_spec (length (codes s)) (kind_size k)); [by intros [= <- <-]|].
      destruct (Nat.eqb_spec (length (codes s)) (2 * kind_size k)); [|done]. intros [= <- <-]. rewrite length_take.
      split_and!; [lia|by apply Forall_take|]. intros ? [= <-]. rewrite length_drop. split; [lia|by apply Forall_drop].
  - intros k b Hl Hb. exists (text b). cbn -[Nat.mul]. rewrite codes_text by done. by rewrite Hl, !Nat.eqb_refl.
Defined.
End PlainConv.
