(* ===== verification/OfpMatch.v ===== *)
(** * Matches of OpenFlow 1.3

    Models [OFPMatch] of [ryu/ofproto/ofproto_v1_3_parser.py], the interface that takes the
    fields as keyword arguments, over the fields of [OxmFields]: the constructor, the encoder and
    the decoder, with what it raises for a message that is cut off.  The theorems say that the
    constructor yields a canonical form of its arguments, that a match is read as it was written,
    and what is left of a match that has not arrived completely. *)

From stdpp Require Import base list strings sorting.
From Stdlib Require Import ZArith Lia.
From S2P Require Import Prelude Struct OxmFields.

Open Scope Z_scope.
Set Default Proof Using "Type*".

Definition OFPMT_OXM : Z := 1.

(** [utils.round_up] *)
Definition round_up (x y : nat) : nat := (x + y - 1) / y * y.

(** A decoder that may raise [OFPTruncatedMessage]: what was decoded, and the bytes left. *)
Inductive trunc (A : Type) := Whole (a : A) | Truncated (a : A) (residue : bytes).
Arguments Whole {A} _.
Arguments Truncated {A} _ _.

(** The state of the interface with keyword arguments; [_wc], [_flow] and [fields] of the old one
    stay as the constructor leaves them. *)
Record ofp_match := OFPMatch { m_type : Z; m_length : option Z; _fields2 : list (string * user_value) }.

(** The key of [fields.sort]. *)
Definition sort_key (n : oxm_num) : Z := match n with Num n => n | ExpNum experimenter_id _ => experimenter_id end.

(** [list.sort] with a key is stable: an element goes behind those with the same key. *)
Fixpoint insert_by {A} (key : A → Z) (x : A) (l : list A) : list A :=
  match l with
  | [] => [x]
  | y :: l => if key x <? key y then x :: y :: l else y :: insert_by key x l
  end.

Definition sort_by {A} (key : A → Z) (l : list A) : list A := foldl (λ l x, insert_by key x l) [] l.

(** ** The fields of the old interface *)

(** The headers of the fields, without and with a mask. *)
Definition _oxm_tlv_header (cls field hasmask length : Z) : Z :=
  Z.lor (Z.lor (Z.lor (Z.shiftl cls 16) (Z.shiftl field 9)) (Z.shiftl hasmask 8)) length.
Definition oxm_tlv_header (field length : Z) : Z := _oxm_tlv_header OFPXMC_OPENFLOW_BASIC field 0 length.
Definition oxm_tlv_header_w (field length : Z) : Z := _oxm_tlv_header OFPXMC_OPENFLOW_BASIC field 1 (length * 2).

Definition OFPVID_PRESENT : Z := 0x1000.

(** The classes [MT*]: the field of [oxm_types], the widths of [pack_str] (a text [6s] as its bytes,
    the three bytes of [MTPbbIsid] as the number they stand for), and if a header with a mask is
    registered. *)
Definition MT_classes : list (string * list nat * bool) := (
  [("in_port", [4], false); ("metadata", [8], true); ("in_phy_port", [4], false); ("eth_dst", replicate 6 1, true); ("eth_src", replicate 6 1, true);
   ("eth_type", [2], false); ("vlan_vid", [2], true); ("vlan_pcp", [1], false); ("ip_dscp", [1], false); ("ip_ecn", [1], false);
   ("ip_proto", [1], false); ("ipv4_src", [4], true); ("ipv4_dst", [4], true); ("tcp_src", [2], false); ("tcp_dst", [2], false);
   ("udp_src", [2], false); ("udp_dst", [2], false); ("sctp_src", [2], false); ("sctp_dst", [2], false); ("icmpv4_type", [1], false);
   ("icmpv4_code", [1], false); ("arp_op", [2], false); ("arp_spa", [4], true); ("arp_tpa", [4], true); ("arp_sha", replicate 6 1, true);
   ("arp_tha", replicate 6 1, true); ("ipv6_src", replicate 8 2, true); ("ipv6_dst", replicate 8 2, true); ("ipv6_flabel", [4], true);
   ("mpls_label", [4], false); ("icmpv6_type", [1], false); ("icmpv6_code", [1], false); ("ipv6_nd_target", replicate 8 2, false);
   ("ipv6_nd_sll", replicate 6 1, false); ("ipv6_nd_tll", replicate 6 1, false); ("mpls_tc", [1], false); ("mpls_bos", [1], false);
   ("pbb_isid", [3], true); ("tunnel_id", [8], true); ("ipv6_exthdr", [2], true)]%string
)%nat.

(** [OFPMatchField._FIELDS_HEADERS], from the headers [OXM_OF_*] and [OXM_OF_*_W] that
    [oxm_fields.generate] makes. *)
Definition _FIELDS_HEADERS : list (Z * (string * list nat)) :=
  mjoin ((λ '(name, widths, has_w),
    match (f ← field_by_name name; size ← type_size (f_type f); Some (Z.land (oxm_type f) 0x7f, Z.of_nat size)) with
    | Some (field, size) =>
        (oxm_tlv_header field size, (name, widths)) :: (if has_w : bool then [(oxm_tlv_header_w field size, (name, widths))] else [])
    | None => []
    end) <$> MT_classes).

Definition registered_class (header : Z) : option (string * list nat) := snd <$> head (filter (λ hc, hc.1 = header) _FIELDS_HEADERS).

(** A field; one of no class has neither value nor mask. *)
Record match_field := OFPMatchField { mf_header : Z; mf_value : option (list Z); mf_mask : option (list Z); mf_length : nat }.

(** [OFPMatchField.parser], and the [field_parser] of its classes. *)
Definition parse_match_field (buf : bytes) : outcome pyexn match_field :=
  '(header, rest) ← unpack_field 4 buf;
  let length := Z.to_nat (Z.land header 0xff + 4) in
  match registered_class header with
  | None => Ret (OFPMatchField header None None length)
  | Some (name, widths) =>
      let adjust zs := if bool_decide (name = "vlan_vid") then (λ z, Z.land z (Z.lnot OFPVID_PRESENT)) <$> zs else zs in
      if oxm_tlv_header_extract_hasmask header then
        zs ← unpack (widths ++ widths) rest;
        Ret (OFPMatchField header (Some (adjust (take (List.length widths) zs))) (Some (drop (List.length widths) zs)) length)
      else
        zs ← unpack widths rest;
        Ret (OFPMatchField header (Some (adjust zs)) None length)
  end.

(** [OFPMatch.parser_old] *)
Fixpoint parser_old (fuel : nat) (length : Z) (buf : bytes) : outcome pyexn (list match_field) :=
  if length <=? 0 then Ret []
  else
    match fuel with
    | O => Raise OutOfFuel
    | S fuel =>
        field ← parse_match_field buf;
        fields ← parser_old fuel (length - Z.of_nat (mf_length field)) (drop (mf_length field) buf);
        Ret (field :: fields)
    end.

Section ofp_match.
Context `{AddrConv}.

(** [OFPMatch.__init__] with keyword arguments. *)
Definition new_fields (kwargs : list (string * user_value)) : outcome pyexn (list (string * user_value)) :=
  kwargs ← map_m (λ '(k, v), _normalize_user k v) kwargs;
  fields ← map_m (λ '(k, v), _from_user k v) kwargs;
  map_m (λ '(n, v, m), _to_user n v m) (sort_by (λ f, sort_key f.1.1) fields).

Definition new_match (kwargs : list (string * user_value)) : outcome pyexn ofp_match :=
  fields ← new_fields kwargs;
  Ret (OFPMatch OFPMT_OXM None fields).

Fixpoint serialize_fields (fields : list (oxm_num * ival * option ival)) (buf : bytes) (offset : nat) : outcome pyexn (bytes * nat) :=
  match fields with
  | [] => Ret (buf, offset)
  | (n, value, mask) :: fields =>
      '(buf, len) ← _serialize n value mask buf offset;
      serialize_fields fields buf (offset + len)
  end.

(** [OFPMatch.serialize]: the match with its length, the buffer and the length with padding. *)
Definition serialize_match (m : ofp_match) (buf : bytes) (offset : nat) : outcome pyexn (ofp_match * bytes * nat) :=
  fields ← map_m (λ '(k, uv), _from_user k uv) (_fields2 m);
  '((buf, field_offset) : bytes * nat) ← serialize_fields fields buf (offset + 4);
  let length := (field_offset - offset)%nat in
  hdr ← pack [(2%nat, OFPMT_OXM); (2%nat, Z.of_nat length)];
  let buf := msg_pack_into buf offset hdr in
  let pad_len := (round_up length 8 - length)%nat in
  let buf := msg_pack_into buf field_offset (replicate pad_len 0) in
  Ret (OFPMatch (m_type m) (Some (Z.of_nat length)) (_fields2 m), buf, (length + pad_len)%nat).

(** The loop of [OFPMatch.parser] on the bytes from [offset] on; the residue if a
    [struct.error] has stopped it.  Every field takes at least its header. *)
Fixpoint parse_fields (fuel : nat) (length : Z) (buf : bytes) : outcome pyexn (list (string * user_value) * option bytes) :=
  if length <=? 0 then Ret ([], None)
  else
    match fuel with
    | O => Raise OutOfFuel
    | S fuel =>
        match ('(n, value, mask, field_len) ← _parse buf; '(k, uv) ← _to_user n value mask; Ret (k, uv, field_len)) with
        | Raise StructError => Ret ([], Some buf)
        | Raise e => Raise e
        | Ret (k, uv, field_len) =>
            '(fields, residue) ← parse_fields fuel (length - Z.of_nat field_len) (drop field_len buf);
            Ret ((k, uv) :: fields, residue)
        end
    end.

(** Whether a [struct.error] was caught. *)
Definition catch_struct_error {A} (m : outcome pyexn A) : outcome pyexn bool :=
  match m with
  | Ret _ => Ret false
  | Raise StructError => Ret true
  | Raise e => Raise e
  end.

(** [OFPMatch.parser]: the fields are decoded twice; a [struct.error] of the first time is raised
    after the second, then without a residue.  The fields of the old interface are not kept:
    [serialize] looks at them only in a match that has none of the others. *)
Definition parse_match (buf : bytes) : outcome pyexn (trunc ofp_match) :=
  '(type, rest) ← unpack_field 2 buf;
  '(length, rest) ← unpack_field 2 rest;
  exc ← catch_struct_error (parser_old (S (List.length rest)) (length - 4) rest);
  '((fields, residue) : list (string * user_value) * option bytes) ← parse_fields (S (List.length rest)) (length - 4) rest;
  let m := OFPMatch type (Some length) fields in
  Ret (match residue with
       | None => if exc : bool then Truncated m [] else Whole m
       | Some residue => Truncated m residue
       end).
End ofp_match.

(** ** Sorting *)

Section sorting.
Context {A : Type} (key : A → Z).

Definition le_key (x y : A) : Prop := key x ≤ key y.

Lemma insert_by_perm x l : insert_by key x l ≡ₚ x :: l.
Proof. induction l as [|y l IH]; [done|]. cbn. destruct (_ <? _); [done|]. rewrite IH. by constructor. Qed.

Lemma sort_by_perm l : sort_by key l ≡ₚ l.
Proof.
  unfold sort_by. enough (∀ acc, foldl (λ l x, insert_by key x l) acc l ≡ₚ acc ++ l) as E by apply (E []).
  induction l as [|x l IH]; intros acc; cbn; [by rewrite app_nil_r|]. rewrite IH, insert_by_perm. apply Permutation_middle.
Qed.

Lemma insert_by_sorted x l : StronglySorted le_key l → StronglySorted le_key (insert_by key x l).
Proof.
  induction 1 as [|y l Hl IH Hy]; cbn; [by repeat constructor|].
  destruct (Z.ltb_spec (key x) (key y)) as [Hlt|Hge].
  - constructor; [by constructor|]. constructor; [unfold le_key; lia|]. eapply Forall_impl; [exact Hy|]. unfold le_key. lia.
  - constructor; [done|]. rewrite insert_by_perm. by constructor.
Qed.

Lemma sort_by_sorted l : StronglySorted le_key (sort_by key l).
Proof.
  unfold sort_by. assert (StronglySorted le_key []) as Hnil by constructor. revert Hnil. generalize (@nil A).
  induction l as [|x l IH]; intros acc Ha; [done|]. cbn. by apply IH, insert_by_sorted.
Qed.

(** What is sorted stays as it is, and an order without equal keys is the only one. *)
Lemma insert_by_last x l : Forall (λ y, le_key y x) l → insert_by key x l = l ++ [x].
Proof.
  induction 1 as [|y l Hy _ IH]; [done|]. cbn. unfold le_key in Hy. rewrite (proj2 (Z.ltb_ge _ _)) by lia. by rewrite IH.
Qed.

Lemma sort_by_id l : StronglySorted le_key l → sort_by key l = l.
Proof.
  unfold sort_by. intros Hl.
  enough (∀ acc, Forall (λ x, Forall (λ y, le_key y x) acc) l → foldl (λ l x, insert_by key x l) acc l = acc ++ l) as E.
  { apply (E []). apply Forall_true. constructor. }
  induction Hl as [|x l Hl IH Hx]; intros acc Ha; cbn; [by rewrite app_nil_r|]. apply Forall_cons in Ha as [Hax Ha].
  rewrite insert_by_last by done. rewrite IH; [by rewrite <- app_assoc|].
  apply Forall_forall. intros y Hy. rewrite Forall_app, Forall_singleton. rewrite Forall_forall in Ha, Hx. split; [by apply Ha|by apply Hx].
Qed.

Lemma sort_by_unique l l' : NoDup (key <$> l) → l' ≡ₚ l → sort_by key l' = sort_by key l.
Proof.
  intros Hnd Hp. apply (StronglySorted_unique_strong le_key); [|apply sort_by_sorted..|by rewrite !sort_by_perm].
  intros x y Hx Hy Hxy Hyx. rewrite sort_by_perm, Hp in Hx. rewrite sort_by_perm in Hy.
  apply list_elem_of_lookup in Hx as [i Hi], Hy as [j Hj]. assert (key x = key y) as E by (unfold le_key in *; lia).
  assert (i = j) as <-; [|congruence]. apply (NoDup_lookup (key <$> l) i j (key x)); [done|by rewrite list_lookup_fmap, Hi|].
  by rewrite list_lookup_fmap, Hj, E.
Qed.
End sorting.

(** ** The constructor *)

Lemma zip_land_idem v m : zip_with Z.land (zip_with Z.land v m) m = zip_with Z.land v m.
Proof.
  revert m. induction v as [|x v IH]; intros [|y m]; try done. cbn. by rewrite IH, <- Z.land_assoc, Z.land_diag.
Qed.

(** The value has no bits outside the mask. *)
Definition masked (v : bytes) (m : option bytes) : Prop := ∀ m', m = Some m' → zip_with Z.land v m' = v.

(** A field in its internal form. *)
Abbreviation internal := (oxm_field * bytes * option bytes)%type.

Definition internal_num (i : internal) : oxm_num * ival * option ival := (f_num i.1.1, Packed i.1.2, Packed <$> i.2).
Definition internal_key (i : internal) : Z := sort_key (f_num i.1.1).

Section constructor.
Context `{AddrConv, !AddrConvLaws}.

(** The argument [kv] stands for the internal form [i]. *)
Definition stands_for (kv : string * user_value) (i : internal) : Prop :=
  canonical i.1.1 i.1.2 i.2 kv.1 kv.2 ∧ masked i.1.2 i.2.

Lemma is_byte_land x y : is_byte x → is_byte (Z.land x y).
Proof.
  unfold is_byte. intros Hx. assert (Z.land x y = Z.land x y mod 2 ^ 8) as ->; [|apply Z.mod_pos_bound; lia].
  rewrite <- Z.land_ones by lia. assert (x = Z.land x (Z.ones 8)) as Ex by (rewrite Z.land_ones by lia; by rewrite Z.mod_small).
  rewrite Ex at 1. by rewrite <- !Z.land_assoc, (Z.land_comm y).
Qed.

Lemma known_masked f v m : known_field f v (Some m) → known_field f (zip_with Z.land v m) (Some m).
Proof.
  intros (Hf & [Hs Hv] & Hm). split; [done|]. split; [|done]. destruct (Hm m eq_refl) as [Hs' _].
  assert (length v = length m) as Hl by congruence. split.
  - rewrite length_zip_with, <- Hl, Nat.min_id. done.
  - clear -Hv. revert m. induction Hv as [|x v Hx _ IH]; intros [|y m]; try constructor; [by apply is_byte_land|apply IH].
Qed.

Lemma from_user_known f uv n v m :
  f ∈ oxm_types → _from_user (f_name f) uv = Ret (n, v, m) →
  n = f_num f ∧ sized_ival (f_type f) v ∧ (∀ m', m = Some m' → sized_ival (f_type f) m') ∧ (m = None → ∃ b, v = Packed b).
Proof.
  intros Hf. unfold _from_user, _get_field_info_by_name. rewrite (known_name f Hf). cbn [mbind outcome_bind].
  destruct (table_shape f Hf) as (_ & Hs & _). assert (is_Some (type_size (f_type f))) as Hsome by (destruct (type_size _); done).
  destruct uv as [u|u w].
  - destruct (from_user (f_type f) u) as [x|] eqn:E; [|done]. apply from_user_sized in E; [|done]. cbn [mbind outcome_bind].
    destruct x as [b|b bm]; intros [= <- <- <-]; cbn in *.
    + split_and!; [done|done|by intros ? [=]|by exists b].
    + destruct E. split_and!; [done|done|by intros ? [= <-]|done].
  - destruct (from_user (f_type f) u) as [x|] eqn:E; [|done]. cbn [mbind outcome_bind].
    destruct (from_user (f_type f) w) as [y|] eqn:Ew; [|done]. cbn [mbind outcome_bind]. intros [= <- <- <-].
    apply from_user_sized in E, Ew; [|done..]. split_and!; [done|done|by intros ? [= <-]|done].
Qed.

(** An argument that is accepted becomes canonical; the others make the constructor raise. *)
Lemma normalize_known f uv k' uv' r :
  f ∈ oxm_types → _normalize_user (f_name f) uv = Ret (k', uv') → _from_user k' uv' = Ret r →
  k' = f_name f ∧ ∃ v m, stands_for (k', uv') (f, v, m).
Proof.
  intros Hf Hn Hr. unfold _normalize_user in Hn. destruct (_from_user (f_name f) uv) as [[[n v] m]|e] eqn:E; [|by simplify_eq; rewrite E in Hr].
  apply from_user_known in E as (-> & Hv & Hm & Hb); [|done].
  assert (∀ b mb, known_field f b mb → masked b mb → _to_user (f_num f) (Packed b) (Packed <$> mb) = _to_user (f_num f) (Packed b) (Packed <$> mb) →
    match _to_user (f_num f) (Packed b) (Packed <$> mb) with
    | Raise _ => Ret (f_name f, uv)
    | Ret (k2, uv2) => check (bool_decide (k2 = f_name f));; Ret (k2, uv2)
    end = Ret (k', uv') → k' = f_name f ∧ ∃ v m, stands_for (k', uv') (f, v, m)) as Hgood.
  { intros b mb Hk Hma _. destruct (to_user_canonical f b mb Hk) as (uv2 & Hc). rewrite (proj2 (proj2 (proj2 Hc))).
    rewrite bool_decide_true by done. cbn. intros [= <- <-]. split; [done|]. by exists b, mb. }
  destruct m as [[m|m1 m2]|]; [| |destruct (Hb eq_refl) as [b ->]].
  - destruct v as [b|b1 b2]; [|done]. cbn [apply_mask mbind outcome_bind] in Hn. apply (Hgood _ (Some m)) in Hn; [done| |by intros ? [= <-]; apply zip_land_idem|done].
    apply known_masked. split; [done|]. split; [done|]. intros ? [= <-]. apply (Hm _ eq_refl).
  - by destruct v.
  - cbn [apply_mask mbind outcome_bind] in Hn. apply (Hgood b None) in Hn; [done| |by intros ? [=]|done]. split; [done|]. by split.
Qed.

Lemma normalize_canonical kv i : stands_for kv i → _normalize_user kv.1 kv.2 = Ret kv.
Proof.
  destruct kv as [k uv], i as [[f v] m]. intros [(Hk & Ek & E1 & E2) Hm]. cbn [fst snd] in *. subst k. unfold _normalize_user. rewrite E1.
  assert (apply_mask (Packed v) (Packed <$> m) = Ret (Packed v)) as ->.
  { destruct m as [m|]; [|done]. change (Ret (Packed (zip_with Z.land v m)) = (Ret (Packed v) : outcome pyexn ival)). by rewrite (Hm m eq_refl). }
  cbn [mbind outcome_bind]. rewrite E2. rewrite bool_decide_true by done. done.
Qed.
End constructor.

Section canonical_form.
Context `{AddrConv, !AddrConvLaws}.

(** The keyword arguments are a dictionary over the names of the table. *)
Definition known_kwargs (kwargs : list (string * user_value)) : Prop :=
  NoDup kwargs.*1 ∧ Forall (λ kv, is_Some (field_by_name kv.1)) kwargs.

Lemma normalize_all kwargs normal fields :
  Forall (λ kv, is_Some (field_by_name kv.1)) kwargs →
  map_m (λ '(k, v), _normalize_user k v) kwargs = Ret normal → map_m (λ '(k, v), _from_user k v) normal = Ret fields →
  normal.*1 = kwargs.*1 ∧ ∃ ints, Forall2 stands_for normal ints ∧ fields = internal_num <$> ints.
Proof.
  intros Hk. revert normal fields. induction Hk as [|[k uv] kwargs [f Ef] _ IH]; intros normal fields; cbn [map_m].
  { intros [= <-] [= <-]. split; [done|]. exists []. by split. }
  intros ([k' uv'] & E & (normal' & E' & [= <-])%outcome_bind_ret)%outcome_bind_ret. cbn [map_m].
  intros (r & Er & (fields' & Ef' & [= <-])%outcome_bind_ret)%outcome_bind_ret.
  destruct (by_name_known k f Ef) as [Hf <-]. destruct (normalize_known f uv k' uv' r Hf E Er) as (-> & v & m & Hs).
  destruct (IH _ _ E' Ef') as (Hkeys & ints & His & ->). split; [cbn; by rewrite Hkeys|].
  exists ((f, v, m) :: ints). split; [by constructor|]. cbn. f_equal. destruct Hs as [(_ & _ & E1 & _) _]. cbn in E1. rewrite E1 in Er. by simplify_eq.
Qed.

Lemma to_user_all ints : Forall (λ i : internal, ∃ kv, stands_for kv i) ints →
  ∃ kvs, map_m (λ '(n, v, m), _to_user n v m) (internal_num <$> ints) = Ret kvs ∧ Forall2 stands_for kvs ints.
Proof.
  induction 1 as [|[[f v] m] ints [[k uv] Hs] _ (kvs & E & Hkvs)]; [by exists []|].
  exists ((k, uv) :: kvs). split; [|by constructor]. cbn [fmap list_fmap map_m internal_num fst snd].
  destruct Hs as [(_ & _ & _ & E2) _]. cbn [fst snd] in E2. rewrite E2. cbn [mbind outcome_bind]. by rewrite E.
Qed.

Lemma canonical_all kvs ints :
  Forall2 stands_for kvs ints →
  map_m (λ '(k, v), _normalize_user k v) kvs = Ret kvs ∧ map_m (λ '(k, v), _from_user k v) kvs = Ret (internal_num <$> ints).
Proof.
  intros Hs. split.
  - apply map_m_pairs. induction Hs as [|[k uv] i kvs ints Hs _ IH]; [constructor|]. constructor; [by apply (normalize_canonical (k, uv) i)|done].
  - apply map_m_pairs, Forall2_fmap_r. eapply Forall2_impl; [exact Hs|]. intros [k uv] [[f v] m] [(_ & _ & E & _) _]. exact E.
Qed.
End canonical_form.

Section theorems.
Context `{AddrConv, !AddrConvLaws}.

Lemma sort_internal ints : sort_by (λ f : oxm_num * ival * option ival, sort_key f.1.1) (internal_num <$> ints) = internal_num <$> sort_by internal_key ints.
Proof.
  unfold sort_by. rewrite foldl_fmap. enough (∀ acc, foldl (λ l x, insert_by (λ f : oxm_num * ival * option ival, sort_key f.1.1) (internal_num x) l) (internal_num <$> acc) ints =
    internal_num <$> foldl (λ l x, insert_by internal_key x l) acc ints) as E by apply (E []).
  induction ints as [|i ints IH]; intros acc; [done|]. cbn [foldl]. rewrite <- IH. f_equal.
  clear. induction acc as [|a acc IH]; [done|]. cbn [fmap list_fmap insert_by]. change (sort_key (internal_num i).1.1) with (internal_key i).
  change (sort_key (internal_num a).1.1) with (internal_key a). destruct (internal_key i <? internal_key a); [done|]. cbn. by f_equal.
Qed.

(** What the constructor makes of its arguments: their internal forms, sorted. *)
Lemma new_fields_canonical kwargs fields :
  known_kwargs kwargs → new_fields kwargs = Ret fields →
  ∃ ints, fields.*1 ≡ₚ kwargs.*1 ∧ Forall2 stands_for fields ints ∧ StronglySorted (le_key internal_key) ints.
Proof.
  intros [_ Hk]. unfold new_fields.
  intros (normal & E1 & (raw & E2 & E3)%outcome_bind_ret)%outcome_bind_ret.
  destruct (normalize_all kwargs normal raw Hk E1 E2) as (Hkeys & ints & His & ->).
  rewrite sort_internal in E3. set (sorted := sort_by internal_key ints) in *. pose proof (sort_by_perm internal_key ints) as Hp.
  destruct (to_user_all sorted) as (kvs & E & Hkvs).
  { unfold sorted. rewrite Hp. eapply Forall2_Forall_r; [exact His|]. apply Forall_true. intros kv i Hs. by exists kv. }
  rewrite E in E3. simplify_eq. exists sorted. split_and!; [|done|apply sort_by_sorted].
  rewrite <- Hkeys. assert (∀ kvs ints, Forall2 stands_for kvs ints → kvs.*1 = (λ i : internal, f_name i.1.1) <$> ints) as Hn.
  { clear. induction 1 as [|[k uv] [[f v] m] kvs ints [(_ & Ek & _) _] _ IH]; [done|]. cbn in *. by rewrite Ek, IH. }
  rewrite (Hn _ _ Hkvs), (Hn _ _ His). unfold sorted. by rewrite Hp.
Qed.

(** The key by which an argument is sorted. *)
Definition arg_key (kv : string * user_value) : option Z := (λ f, sort_key (f_num f)) <$> field_by_name kv.1.

Lemma perm_pairs {A B} (P : A → B → Prop) l l' k : l' ≡ₚ l → Forall2 P l k → ∃ k', Forall2 P l' k' ∧ k' ≡ₚ k.
Proof.
  intros Hp. revert k. induction Hp as [|x l1 l2 _ IH|x y l|l1 l2 l3 _ IH1 _ IH2]; intros k Hk.
  - exists []. by inversion Hk.
  - inversion Hk as [|? z ? k2 Hz Hk2]; subst. destruct (IH k2 Hk2) as (k' & ? & ?). exists (z :: k'). split; [by constructor|by constructor].
  - inversion Hk as [|? z ? k2 Hz Hk2]; subst. inversion Hk2 as [|? w ? k3 Hw Hk3]; subst. exists (w :: z :: k3).
    split; [by repeat constructor|by constructor].
  - destruct (IH2 k Hk) as (k2 & H2 & E2). destruct (IH1 k2 H2) as (k1 & H1 & E1). exists k1. split; [done|by rewrite E1].
Qed.

Lemma map_m_inv {A B} (f : A → outcome pyexn B) l k : map_m f l = Ret k → Forall2 (λ x y, f x = Ret y) l k.
Proof.
  revert k. induction l as [|x l IH]; intros k; cbn [map_m]; [by intros [= <-]|].
  intros (y & Ey & (ys & Eys & [= <-])%outcome_bind_ret)%outcome_bind_ret. constructor; [done|by apply IH].
Qed.

Lemma map_m_perm {A B} (f : A → outcome pyexn B) l l' k : l' ≡ₚ l → map_m f l = Ret k → ∃ k', map_m f l' = Ret k' ∧ k' ≡ₚ k.
Proof.
  intros Hp E%map_m_inv. destruct (perm_pairs _ _ _ _ Hp E) as (k' & Hk & Hkp). exists k'. split; [by apply map_m_pairs|done].
Qed.
End theorems.

Section canonical.
Context `{AddrConv, !AddrConvLaws}.

(** C4: The constructor of a match yields a canonical form: given its own result it changes
    nothing, and as long as no two arguments have the same place in the order of fields it does
    not matter in which order they come. *)
Theorem match_canonical kwargs fields :
  known_kwargs kwargs → new_fields kwargs = Ret fields →
  new_fields fields = Ret fields ∧
  (NoDup (arg_key <$> kwargs) → ∀ kwargs', kwargs' ≡ₚ kwargs → new_fields kwargs' = Ret fields).
Proof.
  intros Hk E. split.
  - destruct (new_fields_canonical kwargs fields Hk E) as (ints & _ & Hs & Hsorted).
    destruct (canonical_all fields ints Hs) as [E1 E2]. unfold new_fields. rewrite E1. cbn [mbind outcome_bind]. rewrite E2. cbn [mbind outcome_bind].
    rewrite sort_internal, sort_by_id by done. destruct (to_user_all ints) as (kvs & E3 & _).
    { eapply Forall2_Forall_r; [exact Hs|]. apply Forall_true. intros kv i Hi. by exists kv. }
    rewrite E3. f_equal. clear -Hs E3. revert kvs E3. induction Hs as [|[k uv] [[f v] m] fields ints [(_ & _ & _ & Eu) _] _ IH]; intros kvs; cbn; [by intros [= <-]|].
    cbn [fst snd] in Eu. rewrite Eu. cbn. intros (kvs' & E' & [= <-])%outcome_bind_ret. by rewrite (IH kvs' E').
  - intros Hnd kwargs' Hp. destruct Hk as [_ Hk]. unfold new_fields in *.
    apply outcome_bind_ret in E as (normal & E1 & (raw & E2 & E3)%outcome_bind_ret).
    destruct (map_m_perm _ _ _ _ Hp E1) as (normal' & E1' & Hpn). destruct (map_m_perm _ _ _ _ Hpn E2) as (raw' & E2' & Hpr).
    rewrite E1'. cbn [mbind outcome_bind]. rewrite E2'. cbn [mbind outcome_bind]. rewrite (sort_by_unique _ raw raw'); [done| |done].
    destruct (normalize_all kwargs normal raw Hk E1 E2) as (Hkeys & ints & His & ->).
    assert (Some <$> ((λ f : oxm_num * ival * option ival, sort_key f.1.1) <$> (internal_num <$> ints)) = arg_key <$> kwargs) as Ekeys.
    { transitivity ((λ n : string, (λ f, sort_key (f_num f)) <$> field_by_name n) <$> normal.*1).
      - clear -His. induction His as [|[k uv] [[f v] m] normal ints [((Hf & _) & Ek & _) _] _ IH]; [done|]. cbn in *. rewrite Ek, (known_name f Hf). cbn. by f_equal.
      - rewrite Hkeys, <- list_fmap_compose. done. }
    rewrite <- Ekeys in Hnd. by apply NoDup_fmap_1 in Hnd.
Qed.
End canonical.

(** ** Bytes *)

Lemma round_up_spec x : (x ≤ round_up x 8 < x + 8)%nat ∧ (round_up x 8 mod 8 = 0)%nat.
Proof.
  unfold round_up. replace (x + 8 - 1)%nat with (x + 7)%nat by lia. pose proof (Nat.div_mod_eq (x + 7) 8).
  pose proof (Nat.mod_upper_bound (x + 7) 8). split; [lia|]. by rewrite Nat.Div0.mod_mul.
Qed.

(** The bytes of a match: header, fields, padding. *)
Definition fields_bytes (ints : list internal) : bytes := mjoin ((λ i : internal, field_bytes i.1.1 i.1.2 i.2) <$> ints).

Lemma fields_bytes_cons f v m ints : fields_bytes ((f, v, m) :: ints) = field_bytes f v m ++ fields_bytes ints.
Proof. done. Qed.

Definition match_bytes (ints : list internal) : bytes :=
  let len := (4 + length (fields_bytes ints))%nat in
  be_bytes 2 OFPMT_OXM ++ be_bytes 2 (Z.of_nat len) ++ fields_bytes ints ++ replicate (round_up len 8 - len) 0.

Section wire.
Context `{AddrConv, !AddrConvLaws}.

Lemma stands_for_from fields ints : Forall2 stands_for fields ints → map_m (λ '(k, uv), _from_user k uv) fields = Ret (internal_num <$> ints).
Proof. intros Hs. apply (canonical_all fields ints Hs). Qed.

Lemma serialize_fields_ok fields ints pre :
  Forall2 stands_for fields ints →
  serialize_fields (internal_num <$> ints) pre (length pre) = Ret (pre ++ fields_bytes ints, (length pre + length (fields_bytes ints))%nat).
Proof.
  intros Hs. revert pre. induction Hs as [|kv [[f v] m] fields ints [(Hk & _) _] _ IH]; intros pre.
  { cbn. by rewrite app_nil_r, Nat.add_0_r. }
  cbn [fmap list_fmap serialize_fields internal_num fst snd]. cbn [fst snd] in Hk. rewrite serialize_field by done. cbn [mbind outcome_bind].
  rewrite <- length_app, IH, fields_bytes_cons. by rewrite <- app_assoc, !length_app, Nat.add_assoc.
Qed.

(** Bytes written behind a hole of four bytes that is filled later. *)
Lemma serialize_fields_hole ints buf fields :
  Forall2 stands_for fields ints → ints ≠ [] →
  serialize_fields (internal_num <$> ints) buf (length buf + 4) =
    Ret ((buf ++ replicate 4 0) ++ fields_bytes ints, (length buf + 4 + length (fields_bytes ints))%nat).
Proof.
  intros Hs Hne. destruct Hs as [|kv [[f v] m] fields ints [(Hk & _) _] Hs]; [done|]. cbn [fmap list_fmap serialize_fields internal_num fst snd].
  cbn [fst snd] in Hk. rewrite serialize_field_gap by done.
  cbn [mbind outcome_bind]. replace (length buf + 4 + length (field_bytes f v m))%nat with (length ((buf ++ replicate 4 0) ++ field_bytes f v m))
    by (rewrite !length_app, length_replicate; lia).
  rewrite (serialize_fields_ok fields ints), fields_bytes_cons by done. by rewrite <- app_assoc, !length_app, length_replicate, !Nat.add_assoc.
Qed.

Lemma fields_bytes_size fields ints :
  Forall2 stands_for fields ints → (length (fields_bytes ints) ≤ 42 * length fields)%nat ∧ Forall is_byte (fields_bytes ints).
Proof.
  induction 1 as [|kv [[f v] m] fields ints [(Hk & _) _] _ [IH IHb]]; [by split; [cbn; lia|constructor]|].
  destruct (field_bytes_ok f v m Hk) as [Hl Hb]. rewrite fields_bytes_cons, length_app, Forall_app. cbn [length]. split; [lia|done].
Qed.

Lemma serialize_match_ok t l fields ints buf :
  Forall2 stands_for fields ints → Z.of_nat (length (fields_bytes ints)) < 65532 →
  serialize_match (OFPMatch t l fields) buf (length buf) =
    Ret (OFPMatch t (Some (Z.of_nat (4 + length (fields_bytes ints)))) fields, buf ++ match_bytes ints, length (match_bytes ints)).
Proof.
  intros Hs Hlen. unfold serialize_match. cbn [_fields2 m_type]. rewrite (stands_for_from fields ints) by done. cbn [mbind outcome_bind].
  set (n := length (fields_bytes ints)) in *. set (len := (4 + n)%nat).
  assert (0 ≤ Z.of_nat len < 256 ^ Z.of_nat 2) as Hl by (change (256 ^ Z.of_nat 2) with 65536; lia).
  assert (length (match_bytes ints) = (len + (round_up len 8 - len))%nat) as Hm.
  { unfold match_bytes. rewrite !length_app, !length_be_bytes, length_replicate. fold n len. unfold len. lia. }
  rewrite Hm. destruct (decide (ints = [])) as [->|Hne].
  - cbn [fmap list_fmap serialize_fields mbind outcome_bind]. cbn in n. subst n. replace (length buf + 4 - length buf)%nat with len by (unfold len; lia).
    rewrite pack2 by done. cbn [mbind outcome_bind]. rewrite msg_pack_into_end.
    replace (length buf + 4)%nat with (length (buf ++ be_bytes 2 OFPMT_OXM ++ be_bytes 2 (Z.of_nat len))) by (rewrite !length_app, !length_be_bytes; lia).
    rewrite msg_pack_into_end, <- !app_assoc. done.
  - rewrite (serialize_fields_hole ints buf fields) by done. cbn [mbind outcome_bind]. fold n.
    replace (length buf + 4 + n - length buf)%nat with len by (unfold len; lia). rewrite pack2 by done. cbn [mbind outcome_bind].
    rewrite <- app_assoc, msg_pack_into_middle by (by rewrite length_replicate, length_app, !length_be_bytes).
    replace (length buf + 4 + n)%nat with (length (buf ++ (be_bytes 2 OFPMT_OXM ++ be_bytes 2 (Z.of_nat len)) ++ fields_bytes ints))
      by (rewrite !length_app, !length_be_bytes; unfold n; lia).
    rewrite msg_pack_into_end. unfold match_bytes. fold n len. by rewrite <- !app_assoc.
Qed.
End wire.

Section parsing.
Context `{AddrConv, !AddrConvLaws}.

Lemma parse_fields_ok fields ints fuel rest :
  Forall2 stands_for fields ints → (length fields < fuel)%nat →
  parse_fields fuel (Z.of_nat (length (fields_bytes ints))) (fields_bytes ints ++ rest) = Ret (fields, None).
Proof.
  intros Hs. revert fuel. induction Hs as [|[k uv] [[f v] m] fields ints [(Hk & Ek & _ & Eu) _] _ IH]; intros [|fuel] Hf; try (cbn in Hf; lia); [done|].
  cbn [fst snd] in *. destruct (field_bytes_ok f v m Hk) as [Hl _]. rewrite fields_bytes_cons, <- app_assoc. cbn [parse_fields].
  rewrite (proj2 (Z.leb_gt _ 0)) by (rewrite length_app; lia). rewrite parse_field by done. cbn [mbind outcome_bind]. rewrite Eu. cbn [mbind outcome_bind].
  rewrite drop_app_length. replace (Z.of_nat _ - _) with (Z.of_nat (length (fields_bytes ints))) by (rewrite length_app; lia).
  rewrite IH; [done|]. cbn in Hf. lia.
Qed.

(** The headers of the old interface give the sizes that their classes read. *)
Lemma registered_size header name widths :
  registered_class header = Some (name, widths) →
  Z.shiftr header 16 ≠ OFPXXC_EXPERIMENTER ∧
  Z.land header 0xff = Z.of_nat (calcsize widths) * (if oxm_tlv_header_extract_hasmask header then 2 else 1).
Proof.
  assert (forallb (λ '(h, (_, ws)), negb (Z.shiftr h 16 =? OFPXXC_EXPERIMENTER) &&
    (Z.land h 0xff =? Z.of_nat (calcsize ws) * (if oxm_tlv_header_extract_hasmask h then 2 else 1))) _FIELDS_HEADERS = true) as Hall by (vm_compute; reflexivity).
  rewrite forallb_forall in Hall. unfold registered_class. intros ([h c] & Eh & Ec)%fmap_Some. cbn in Ec. subst c. apply head_Some_elem_of in Eh.
  apply list_elem_of_filter in Eh as [Eh Hin%list_elem_of_In]. cbn in Eh. subst h. specialize (Hall _ Hin). cbn in Hall.
  apply andb_true_iff in Hall as [H1 H2]. apply negb_true_iff, Z.eqb_neq in H1. by apply Z.eqb_eq in H2.
Qed.

(** What the new interface can read, the old one can. *)
Lemma parse_match_field_ok buf n v m len : _parse buf = Ret (n, v, m, len) → ∃ field, parse_match_field buf = Ret field ∧ mf_length field = len.
Proof.
  unfold _parse, _parse_header_impl, parse_match_field. intros ([[[[num thl] hm] vl] fl] & E & E2)%outcome_bind_ret.
  apply outcome_bind_ret in E as ([header rest] & E1 & E). rewrite E1. cbn [mbind outcome_bind].
  assert (0 ≤ Z.land header 0xff) as Hlow by (apply Z.land_nonneg; by right).
  assert (len = Z.to_nat (Z.land header 0xff + 4)) as ->.
  { apply outcome_bind_ret in E as ([? ?] & _ & ([] & _ & [= <- <- <- <- <-])%outcome_bind_ret). apply outcome_bind_ret in E2 as ([value rest'] & _ & E2).
    destruct (oxm_tlv_header_extract_hasmask header); [apply outcome_bind_ret in E2 as ([mask rest2] & _ & E2)|]; injection E2 as _ _ _ <-; lia. }
  destruct (registered_class header) as [[name widths]|] eqn:Ereg; [|by eexists]. apply registered_size in Ereg as [Hcls Hsize].
  rewrite Z.shiftr_shiftr in E by lia. change (9 + 7) with 16 in E. rewrite (proj2 (Z.eqb_neq _ _) Hcls) in E. cbn [mbind outcome_bind] in E.
  rewrite Z.sub_0_r in E. apply outcome_bind_ret in E as ([] & _ & [= <- <- <- <- <-]).
  apply outcome_bind_ret in E2 as ([value rest'] & Ev%unpack_s_progress & E2). apply unpack_field_progress in E1 as Hrest. rewrite length_drop in Ev.
  destruct (oxm_tlv_header_extract_hasmask header).
  - apply outcome_bind_ret in E2 as ([mask rest2] & Em%unpack_s_progress & _). rewrite Hsize, Z.div_mul, Nat2Z.id in Ev, Em by done.
    destruct (unpack_enough (widths ++ widths) rest) as [zs ->]; [unfold calcsize in *; rewrite sum_list_with_app; lia|]. by eexists.
  - destruct (unpack_enough widths rest) as [zs ->]; [lia|]. by eexists.
Qed.

Lemma parser_old_ok fuel len buf fields : parse_fields fuel len buf = Ret (fields, None) → ∃ old, parser_old fuel len buf = Ret old.
Proof.
  revert len buf fields. induction fuel as [|fuel IH]; intros len buf fields; cbn [parse_fields parser_old]; (destruct (len <=? 0); [by eexists|]); [done|].
  destruct (_parse buf) as [[[[n v] m] fl]|e] eqn:E; cbn [mbind outcome_bind]; [|by destruct e].
  destruct (_to_user n v m) as [[k uv]|e]; cbn [mbind outcome_bind]; [|by destruct e].
  intros ([fields' residue] & E' & E2)%outcome_bind_ret. injection E2 as _ ->. destruct (parse_match_field_ok _ _ _ _ _ E) as (field & -> & <-).
  cbn [mbind outcome_bind]. destruct (IH _ _ _ E') as [old ->]. by eexists.
Qed.

(** The old decoder ends, and raises nothing else. *)
Lemma parser_old_raises fuel len buf e : (length buf < fuel)%nat → parser_old fuel len buf = Raise e → e = StructError.
Proof.
  revert len buf. induction fuel as [|fuel IH]; intros len buf Hf; [lia|]. cbn [parser_old]. destruct (len <=? 0); [done|].
  destruct (parse_match_field buf) as [field|e'] eqn:E; cbn [mbind outcome_bind].
  - assert (4 ≤ mf_length field ∧ 4 ≤ length buf)%nat as [Hl Hb].
    { unfold parse_match_field, unpack_field in E. destruct (Nat.ltb_spec (length buf) 4); [done|]. cbn [mbind outcome_bind] in E.
      assert (0 ≤ Z.land (be_value (take 4 buf)) 0xff) by (apply Z.land_nonneg; by right). split; [|done].
      remember (Z.to_nat (Z.land (be_value (take 4 buf)) 255 + 4)) as len' eqn:Elen. assert (4 ≤ len')%nat by lia. clear Elen.
      destruct (registered_class _) as [[name widths]|]; [|by injection E as <-].
      destruct (oxm_tlv_header_extract_hasmask _); by apply outcome_bind_ret in E as (zs & _ & [= <-]). }
    destruct (parser_old fuel _ _) eqn:E'; [done|]. intros [= ->]. apply IH in E'; [done|]. rewrite length_drop. lia.
  - intros [= ->]. unfold parse_match_field, unpack_field in E. destruct (Nat.ltb_spec (length buf) 4); [injection E; congruence|]. cbn [mbind outcome_bind] in E.
    destruct (registered_class _) as [[name widths]|]; [|done].
    destruct (oxm_tlv_header_extract_hasmask _); (destruct (unpack _ _) eqn:Eu; [done|]); apply unpack_raises in Eu; cbn in E; congruence.
Qed.

Lemma old_decoder_agrees fuel len buf fields :
  parse_fields fuel len buf = Ret (fields, None) → catch_struct_error (parser_old fuel len buf) = Ret false.
Proof. intros [old ->]%parser_old_ok. done. Qed.

Lemma old_decoder_caught fuel len buf : (length buf < fuel)%nat → ∃ exc, catch_struct_error (parser_old fuel len buf) = Ret exc.
Proof.
  intros Hf. destruct (parser_old fuel len buf) as [old|e] eqn:E; [by eexists|]. apply parser_old_raises in E as ->; [by eexists|done].
Qed.

(** The fields that have arrived, all of them, and the bytes of the one that has not. *)
Lemma parse_fields_short fields ints fuel len j :
  Forall2 stands_for fields ints → (j < length (fields_bytes ints))%nat → (length (fields_bytes ints) ≤ len)%nat → (j < fuel)%nat →
  ∃ n residue, (n < length fields)%nat ∧ parse_fields fuel (Z.of_nat len) (take j (fields_bytes ints)) = Ret (take n fields, Some residue) ∧
    fields_bytes (take n ints) ++ residue = take j (fields_bytes ints) ∧ (j < length (fields_bytes (take (S n) ints)))%nat.
Proof.
  intros Hs. revert fuel len j. induction Hs as [|[k uv] [[f v] m] fields ints [(Hk & Ek & _ & Eu) _] _ IH]; intros fuel len j Hj Hlen Hf; [cbn in Hj; lia|].
  cbn [fst snd] in *. destruct (field_bytes_ok f v m Hk) as [Hl _]. rewrite fields_bytes_cons, length_app in *.
  destruct fuel as [|fuel]; [lia|]. cbn [parse_fields]. rewrite (proj2 (Z.leb_gt _ 0)) by lia.
  destruct (decide (j < length (field_bytes f v m))%nat) as [Hshort|Hlong].
  - rewrite take_app_le by lia. rewrite parse_field_short by done. cbn [mbind outcome_bind].
    exists 0%nat, (take j (field_bytes f v m)). split_and!; [cbn; lia|done|done|]. cbn [take]. rewrite fields_bytes_cons, length_app. lia.
  - rewrite take_app, (take_ge (field_bytes f v m)) by lia. rewrite parse_field by done. cbn [mbind outcome_bind]. rewrite Eu. cbn [mbind outcome_bind].
    rewrite drop_app_length. replace (Z.of_nat len - _) with (Z.of_nat (len - length (field_bytes f v m))) by lia.
    destruct (IH fuel (len - length (field_bytes f v m))%nat (j - length (field_bytes f v m))%nat) as (n & residue & Hn & E & Er & Hmax); [lia..|].
    rewrite E. exists (S n), residue. split_and!; [cbn; lia|done| |].
    + cbn [take]. by rewrite fields_bytes_cons, <- app_assoc, Er.
    + change (take (S (S n)) ((f, v, m) :: ints)) with ((f, v, m) :: take (S n) ints). rewrite fields_bytes_cons, length_app. lia.
Qed.
End parsing.

(** ** The size of a match *)

Lemma kwargs_bound kwargs : known_kwargs kwargs → (length kwargs ≤ 122)%nat.
Proof.
  intros [Hnd Hk]. rewrite <- (length_fmap fst). change 122%nat with (length (f_name <$> oxm_types)).
  apply submseteq_length, NoDup_submseteq; [done|]. intros name (kv & -> & Hkv)%list_elem_of_fmap.
  rewrite Forall_forall in Hk. destruct (Hk kv Hkv) as [f Ef]. destruct (by_name_known _ f Ef) as [Hf <-]. by apply list_elem_of_fmap_2.
Qed.

Section match_theorems.
Context `{AddrConv, !AddrConvLaws}.

(** A match that was constructed, with the internal forms of its fields. *)
Lemma new_match_inv kwargs m :
  known_kwargs kwargs → new_match kwargs = Ret m →
  ∃ fields ints, m = OFPMatch OFPMT_OXM None fields ∧ Forall2 stands_for fields ints ∧
    Z.of_nat (length (fields_bytes ints)) ≤ 5124 ∧ Forall is_byte (match_bytes ints).
Proof.
  intros Hk. unfold new_match. intros (fields & E & [= <-])%outcome_bind_ret.
  destruct (new_fields_canonical kwargs fields Hk E) as (ints & Hp & Hs & _). exists fields, ints. split; [done|]. split; [done|].
  destruct (fields_bytes_size fields ints Hs) as [Hl Hb]. pose proof (kwargs_bound kwargs Hk) as Hn.
  assert (length fields = length kwargs) as El by (rewrite <- (length_fmap fst), Hp; apply length_fmap). split; [lia|].
  unfold match_bytes. bytes.
Qed.

(** The bytes of a match that was constructed. *)
Lemma match_encoded kwargs m :
  known_kwargs kwargs → new_match kwargs = Ret m →
  ∃ bs length, (∀ buf, serialize_match m buf (List.length buf) = Ret (OFPMatch OFPMT_OXM (Some length) (_fields2 m), buf ++ bs, List.length bs)) ∧
    Forall is_byte bs ∧ List.length bs = round_up (Z.to_nat length) 8 ∧ Z.of_nat (List.length bs) < 5200 ∧
    ∀ rest, parse_match (bs ++ rest) = Ret (Whole (OFPMatch OFPMT_OXM (Some length) (_fields2 m))).
Proof.
  intros Hk E. destruct (new_match_inv kwargs m Hk E) as (fields & ints & -> & Hs & Hsize & Hb).
  assert (Z.of_nat (length (fields_bytes ints)) < 65532) as Hlen by lia. cbn [_fields2].
  exists (match_bytes ints), (Z.of_nat (4 + length (fields_bytes ints))). split; [intros buf; by apply serialize_match_ok|]. split; [done|].
  split. { rewrite Nat2Z.id. unfold match_bytes. rewrite !length_app, !length_be_bytes, length_replicate. pose proof (round_up_spec (4 + length (fields_bytes ints))). lia. }
  split. { unfold match_bytes. rewrite !length_app, !length_be_bytes, length_replicate. pose proof (round_up_spec (4 + length (fields_bytes ints))). lia. }
  intros rest. unfold match_bytes, parse_match. rewrite <- !app_assoc. rewrite unpack_be by done. cbn [mbind outcome_bind].
  rewrite unpack_be by (change (256 ^ Z.of_nat 2) with 65536; lia). cbn [mbind outcome_bind].
  replace (Z.of_nat (4 + length (fields_bytes ints)) - 4) with (Z.of_nat (length (fields_bytes ints))) by lia.
  assert (length fields ≤ length (fields_bytes ints))%nat as Hn.
  2: { match goal with |- context [fields_bytes ints ++ ?tail] => set (tail' := tail) end.
       assert (parse_fields (S (length (fields_bytes ints ++ tail'))) (Z.of_nat (length (fields_bytes ints))) (fields_bytes ints ++ tail') = Ret (fields, None)) as E2
         by (apply parse_fields_ok; [done|rewrite length_app; lia]).
       rewrite (old_decoder_agrees _ _ _ _ E2), E2. done. }
  clear -Hs.
  induction Hs as [|[k uv] [[f v] m] fields ints [(Hf & _) _] _ IH]; [done|]. pose proof (field_bytes_ok f v m Hf). rewrite fields_bytes_cons, length_app. cbn. lia.
Qed.

(** C5: Whatever arguments the constructor of a match accepts, the match is encoded, aligned to
    eight bytes, and the decoder reads it as it was, whatever follows it. *)
Theorem match_roundtrip kwargs m :
  known_kwargs kwargs → new_match kwargs = Ret m →
  ∃ bs length, (∀ buf, serialize_match m buf (List.length buf) = Ret (OFPMatch OFPMT_OXM (Some length) (_fields2 m), buf ++ bs, List.length bs)) ∧
    Forall is_byte bs ∧ List.length bs = round_up (Z.to_nat length) 8 ∧
    ∀ rest, parse_match (bs ++ rest) = Ret (Whole (OFPMatch OFPMT_OXM (Some length) (_fields2 m))).
Proof.
  intros Hk E. destruct (match_encoded kwargs m Hk E) as (bs & len & Hser & Hb & Hl & _ & Hp). by exists bs, len.
Qed.
End match_theorems.

(** ** Matches that are cut off *)

Section truncation.
Context `{AddrConv, !AddrConvLaws}.

(** The bytes, without the padding, that a match takes with its first [i] fields only. *)
Definition encoded_length (i : nat) (m : ofp_match) : outcome pyexn nat :=
  x ← serialize_match (OFPMatch (m_type m) None (take i (_fields2 m))) [] 0;
  Ret (Z.to_nat (default 0 (m_length (x.1.1 : ofp_match)))).

Lemma encoded_length_ok fields ints i :
  Forall2 stands_for fields ints → Z.of_nat (length (fields_bytes ints)) < 65532 →
  encoded_length i (OFPMatch OFPMT_OXM None fields) = Ret (4 + length (fields_bytes (take i ints)))%nat.
Proof.
  intros Hs Hlen. unfold encoded_length. cbn [m_type _fields2].
  assert (length (fields_bytes (take i ints)) ≤ length (fields_bytes ints))%nat as Hle.
  { unfold fields_bytes. rewrite <- (take_drop i ints) at 2. rewrite fmap_app, join_app, length_app. lia. }
  pose proof (serialize_match_ok OFPMT_OXM None (take i fields) (take i ints) [] (Forall2_take _ _ _ i Hs) ltac:(lia)) as E.
  cbn [length app] in E. rewrite E. cbn [mbind outcome_bind fst m_length default from_option id]. by rewrite Nat2Z.id.
Qed.

(** C31: Of a match that is cut off before its end the decoder finds exactly the fields that have
    arrived.  When [j] bytes are there it raises [struct.error] if they do not hold the header.
    Otherwise there is one [i] such that the first [i] fields lie within the [j] bytes and the
    first [i + 1] do not, and the decoder raises an exception that carries those [i] fields and,
    as the residue, the bytes after them. *)
Theorem match_truncated kwargs m m' bs n j :
  known_kwargs kwargs → new_match kwargs = Ret m → serialize_match m [] 0 = Ret (m', bs, n) →
  Z.of_nat j < default 0 (m_length m') →
  if (j <? 4)%nat then parse_match (take j bs) = Raise StructError
  else ∃ i from to, (i < length (_fields2 m))%nat ∧
    encoded_length i m = Ret from ∧ encoded_length (S i) m = Ret to ∧ (from ≤ j < to)%nat ∧
    parse_match (take j bs) =
      Ret (Truncated (OFPMatch OFPMT_OXM (m_length m') (take i (_fields2 m))) (drop from (take j bs))).
Proof.
  intros Hk E Es Hj. destruct (new_match_inv kwargs m Hk E) as (fields & ints & -> & Hs & Hsize & _).
  assert (Z.of_nat (length (fields_bytes ints)) < 65532) as Hlen by lia.
  pose proof (serialize_match_ok OFPMT_OXM None fields ints [] Hs Hlen) as E2. cbn [length app] in E2. rewrite E2 in Es. simplify_eq. cbn [m_length default from_option id _fields2] in *.
  set (body := fields_bytes ints) in *. unfold match_bytes. fold body. unfold parse_match. destruct (Nat.ltb_spec j 4) as [H4|H4].
  - destruct (decide (j < 2)%nat) as [H2|H2]; [by rewrite unpack_field_short by (rewrite length_take, !length_app, !length_be_bytes; lia)|].
    rewrite take_app, length_be_bytes, (take_ge (be_bytes 2 _)) by (rewrite ?length_be_bytes; lia). rewrite unpack_be by done. cbn [mbind outcome_bind].
    by rewrite unpack_field_short by (rewrite length_take, !length_app, !length_be_bytes; lia).
  - assert (take j (be_bytes 2 OFPMT_OXM ++ be_bytes 2 (Z.of_nat (4 + length body)) ++ body ++ replicate (round_up (4 + length body) 8 - (4 + length body)) 0) =
      be_bytes 2 OFPMT_OXM ++ be_bytes 2 (Z.of_nat (4 + length body)) ++ take (j - 4) body) as ->.
    { rewrite app_assoc, take_app, length_app, !length_be_bytes, (take_ge (_ ++ _)) by (rewrite ?length_app, ?length_be_bytes; lia).
      rewrite take_app_le by lia. by rewrite <- app_assoc. }
    rewrite unpack_be by done. cbn [mbind outcome_bind]. rewrite unpack_be by (change (256 ^ Z.of_nat 2) with 65536; lia). cbn [mbind outcome_bind].
    replace (Z.of_nat (4 + length body) - 4) with (Z.of_nat (length body)) by lia.
    destruct (parse_fields_short fields ints (S (length (take (j - 4) body))) (length body) (j - 4)) as (i & residue & Hi & Ep & Er & Hmax); [done|fold body; lia|done|rewrite length_take; lia|].
    fold body in Ep, Er. destruct (old_decoder_caught (S (length (take (j - 4) body))) (Z.of_nat (length body)) (take (j - 4) body)) as [exc ->]; [lia|].
    cbn [mbind outcome_bind]. rewrite Ep. cbn [mbind outcome_bind].
    exists i, (4 + length (fields_bytes (take i ints)))%nat, (4 + length (fields_bytes (take (S i) ints)))%nat.
    rewrite !(encoded_length_ok fields ints) by done. pose proof (f_equal length Er) as El. rewrite length_app, length_take in El.
    split_and!; [done..|lia|lia|]. do 2 f_equal. rewrite <- Er, !app_assoc.
    by rewrite drop_app_length' by (rewrite !length_app, !length_be_bytes; lia).
Qed.
End truncation.

(** ** Termination *)

Section fuel.
Context `{AddrConv}.

Lemma parse_length buf n v m len : _parse buf = Ret (n, v, m, len) → (4 ≤ len)%nat ∧ (4 ≤ length buf)%nat.
Proof.
  unfold _parse, _parse_header_impl. intros ([[[[num thl] hm] vl] fl] & E & E2)%outcome_bind_ret.
  apply outcome_bind_ret in E as ([header rest] & E & E3). unfold unpack_field in E. destruct (Nat.ltb_spec (length buf) 4); [done|].
  apply outcome_bind_ret in E3 as ([num' ehl] & _ & ([] & _ & E4)%outcome_bind_ret). split; [|lia].
  apply outcome_bind_ret in E2 as ([value rest'] & _ & E2). injection E4 as _ _ _ _ <-.
  destruct hm; [apply outcome_bind_ret in E2 as ([mask rest2] & _ & E2)|]; injection E2 as _ _ _ <-; lia.
Qed.

(** The loop needs no more turns than there are bytes, whatever they are. *)
Lemma parse_fields_fuel f1 f2 len buf : (length buf < f1)%nat → (length buf < f2)%nat → parse_fields f1 len buf = parse_fields f2 len buf.
Proof.
  revert f2 len buf. induction f1 as [|f1 IH]; intros [|f2] len buf H1 H2; try lia. cbn [parse_fields]. destruct (len <=? 0); [done|].
  destruct (_parse buf) as [[[[n v] m] fl]|e] eqn:E; cbn [mbind outcome_bind]; [|done].
  destruct (_to_user n v m) as [[k uv]|e]; cbn [mbind outcome_bind]; [|done].
  apply parse_length in E. rewrite (IH f2); [done|rewrite length_drop; lia..].
Qed.
End fuel.

(** ** Examples *)

Section examples.
Import PlainConv.

Definition sample_kwargs : list (string * user_value) :=
  [("ipv4_src", Masked (UText (text [10; 1; 2; 3])) (UText (text [255; 255; 255; 0]))); ("tcp_flags", Exact (UInt 2));
   ("eth_type", Exact (UInt 0x800)); ("in_port", Exact (UInt 1)); ("pbb_uca", Exact (UInt 1))].

Definition sample_fields : list (string * user_value) :=
  [("in_port", Exact (UInt 1)); ("eth_type", Exact (UInt 0x800));
   ("ipv4_src", Masked (UText (text [10; 1; 2; 0])) (UText (text [255; 255; 255; 0]))); ("tcp_flags", Exact (UInt 2)); ("pbb_uca", Exact (UInt 1))].

Lemma sample_known : known_kwargs sample_kwargs.
Proof. split; [by apply (bool_decide_unpack _); vm_compute|]. repeat (constructor; [by eexists|]). constructor. Qed.

Lemma match_canonical_witness :
  let kwargs := take 4 sample_kwargs in
  let fields := take 4 sample_fields in
  new_fields fields = Ret fields ∧ (NoDup (arg_key <$> kwargs) ∧ ∀ kwargs', kwargs' ≡ₚ kwargs → new_fields kwargs' = Ret fields).
Proof.
  destruct (match_canonical (take 4 sample_kwargs) (take 4 sample_fields)) as [E Hp].
  - split; [by apply (bool_decide_unpack _); vm_compute|]. repeat (constructor; [by eexists|]). constructor.
  - vm_compute. reflexivity.
  - assert (NoDup (arg_key <$> take 4 sample_kwargs)) as Hnd by (by apply (bool_decide_unpack _); vm_compute).
    split; [exact E|]. split; [exact Hnd|]. exact (Hp Hnd).
Defined.

Lemma match_roundtrip_witness :
  let m := OFPMatch OFPMT_OXM None sample_fields in
  ∃ bs length, (∀ buf, serialize_match m buf (List.length buf) = Ret (OFPMatch OFPMT_OXM (Some length) sample_fields, buf ++ bs, List.length bs)) ∧
    Forall is_byte bs ∧ List.length bs = round_up (Z.to_nat length) 8 ∧
    ∀ rest, parse_match (bs ++ rest) = Ret (Whole (OFPMatch OFPMT_OXM (Some length) sample_fields)).
Proof. apply (match_roundtrip sample_kwargs (OFPMatch OFPMT_OXM None sample_fields)); [apply sample_known|vm_compute; reflexivity]. Defined.

Definition in_port_bytes : bytes := [0; 1; 0; 12; 128; 0; 0; 4; 0; 0; 0; 1; 0; 0; 0; 0].

Lemma match_truncated_witness :
  let m := OFPMatch OFPMT_OXM None [("in_port", Exact (UInt 1))] in
  ∃ i from to, (i < 1)%nat ∧ encoded_length i m = Ret from ∧ encoded_length (S i) m = Ret to ∧ (from ≤ 10 < to)%nat ∧
    parse_match (take 10 in_port_bytes) =
      Ret (Truncated (OFPMatch OFPMT_OXM (Some 12) (take i (_fields2 m))) (drop from (take 10 in_port_bytes))).
Proof.
  apply (match_truncated [("in_port", Exact (UInt 1))] (OFPMatch OFPMT_OXM None [("in_port", Exact (UInt 1))])
    (OFPMatch OFPMT_OXM (Some 12) [("in_port", Exact (UInt 1))]) in_port_bytes 16 10).
  - split; [apply NoDup_singleton|]. by repeat (constructor; [by eexists|]).
  - vm_compute. reflexivity.
  - vm_compute. reflexivity.
  - cbn. lia.
Defined.
End examples.

Module MatchFaults.
Import PlainConv.

(** The high bits of an integer that is too large, or negative, are cut off without a word. *)
Example integers_wrap :
  new_fields [("eth_type", Exact (UInt 0x10800)); ("in_port", Exact (UInt (-1)))] =
    Ret [("in_port", Exact (UInt 0xffffffff)); ("eth_type", Exact (UInt 0x800))].
Proof. vm_compute. reflexivity. Qed.

(** Fields of one experimenter stay in the order of the arguments: equal matches are encoded
    differently. *)
Example experimenter_fields_unordered :
  let a := ("tcp_flags", Exact (UInt 2)) in
  let b := ("actset_output", Exact (UInt 1)) in
  new_fields [a; b] = Ret [a; b] ∧ new_fields [b; a] = Ret [b; a].
Proof. split; vm_compute; reflexivity. Qed.

(** A field without value bytes, which a switch may send, stops the decoder with an
    [AssertionError] instead of [OFPTruncatedMessage]. *)
Example empty_field_raises : parse_match [0; 1; 0; 8; 128; 0; 0; 0] = Raise AssertionError.
Proof. vm_compute. reflexivity. Qed.
End MatchFaults.
