(* ===== verification/OfpActions.v ===== *)
(** * Actions and instructions of OpenFlow 1.3

    Models the classes [OFPAction*] and [OFPInstruction*] of
    [ryu/ofproto/ofproto_v1_3_parser.py]: their encoders, which write into a buffer at an offset
    and set [len], and their decoders, whose loops go on by the [len] of what they decode.  The
    Nicira actions of [nx_actions.py] stand behind an interface.  The lemmas at the end say that
    actions and instructions are read as they were written; [ActionFaults] has the lists on which
    the decoders never end. *)

From stdpp Require Import base list strings.
From Stdlib Require Import ZArith Lia.
From S2P Require Import Prelude Struct OxmFields OfpMatch.

Open Scope Z_scope.
Set Default Proof Using "Type*".

(** ** The actions of Nicira *)

(** [serialize_body] and [parser] of the subclasses of [NXAction], by their subtype. *)
Class NxActions := {
  nx_action : Type;
  nx_subtype : nx_action → Z;
  serialize_body : nx_action → outcome pyexn bytes;
  nx_parser : Z → bytes → outcome pyexn nx_action
}.

(** Bodies that are aligned with the header of the action, and read as they were written. *)
Class NxActionLaws `{NxActions} := {
  nx_ok : nx_action → Prop;
  nx_roundtrip a :
    nx_ok a → ∃ body, serialize_body a = Ret body ∧ Forall is_byte body ∧ 0 ≤ nx_subtype a < 2 ^ 16 ∧
      ((10 + length body) mod 8 = 0)%nat ∧ Z.of_nat (10 + length body) < 2 ^ 16 ∧ nx_parser (nx_subtype a) body = Ret a
}.

(** ** Actions *)

Definition OFPAT_OUTPUT : Z := 0.
Definition OFPAT_COPY_TTL_OUT : Z := 11.
Definition OFPAT_COPY_TTL_IN : Z := 12.
Definition OFPAT_SET_MPLS_TTL : Z := 15.
Definition OFPAT_DEC_MPLS_TTL : Z := 16.
Definition OFPAT_PUSH_VLAN : Z := 17.
Definition OFPAT_POP_VLAN : Z := 18.
Definition OFPAT_PUSH_MPLS : Z := 19.
Definition OFPAT_POP_MPLS : Z := 20.
Definition OFPAT_SET_QUEUE : Z := 21.
Definition OFPAT_GROUP : Z := 22.
Definition OFPAT_SET_NW_TTL : Z := 23.
Definition OFPAT_DEC_NW_TTL : Z := 24.
Definition OFPAT_SET_FIELD : Z := 25.
Definition OFPAT_PUSH_PBB : Z := 26.
Definition OFPAT_POP_PBB : Z := 27.
Definition OFPAT_EXPERIMENTER : Z := 0xffff.

Definition OFP_ACTION_EXPERIMENTER_HEADER_SIZE : nat := 8.
Definition OFP_INSTRUCTION_ACTIONS_SIZE : nat := 8.

Inductive action `{NxActions} :=
| OFPActionOutput (port max_len : Z)
| OFPActionGroup (group_id : Z)
| OFPActionSetQueue (queue_id : Z)
| OFPActionSetMplsTtl (mpls_ttl : Z)
| OFPActionDecMplsTtl
| OFPActionSetNwTtl (nw_ttl : Z)
| OFPActionDecNwTtl
| OFPActionCopyTtlOut
| OFPActionCopyTtlIn
| OFPActionPushVlan (ethertype : Z)
| OFPActionPushMpls (ethertype : Z)
| OFPActionPopVlan
| OFPActionPopMpls (ethertype : Z)
| OFPActionSetField (key : string) (value : uval)
| OFPActionPushPbb (ethertype : Z)
| OFPActionPopPbb
| OFPActionExperimenterUnknown (experimenter : Z) (data : option bytes)
| NXAction (nx : nx_action).

Section actions.
Context `{AddrConv} `{NxActions}.

(** Type, fields and number of padding bytes of an action of fixed size; its [len] is the size
    of its class. *)
Definition fixed_action (a : action) : option (Z * list (nat * Z) * nat) :=
  match a with
  | OFPActionOutput port max_len => Some (OFPAT_OUTPUT, [(4%nat, port); (2%nat, max_len)], 6%nat)
  | OFPActionGroup group_id => Some (OFPAT_GROUP, [(4%nat, group_id)], 0%nat)
  | OFPActionSetQueue queue_id => Some (OFPAT_SET_QUEUE, [(4%nat, queue_id)], 0%nat)
  | OFPActionSetMplsTtl ttl => Some (OFPAT_SET_MPLS_TTL, [(1%nat, ttl)], 3%nat)
  | OFPActionDecMplsTtl => Some (OFPAT_DEC_MPLS_TTL, [], 4%nat)
  | OFPActionSetNwTtl ttl => Some (OFPAT_SET_NW_TTL, [(1%nat, ttl)], 3%nat)
  | OFPActionDecNwTtl => Some (OFPAT_DEC_NW_TTL, [], 4%nat)
  | OFPActionCopyTtlOut => Some (OFPAT_COPY_TTL_OUT, [], 4%nat)
  | OFPActionCopyTtlIn => Some (OFPAT_COPY_TTL_IN, [], 4%nat)
  | OFPActionPushVlan ethertype => Some (OFPAT_PUSH_VLAN, [(2%nat, ethertype)], 2%nat)
  | OFPActionPushMpls ethertype => Some (OFPAT_PUSH_MPLS, [(2%nat, ethertype)], 2%nat)
  | OFPActionPopVlan => Some (OFPAT_POP_VLAN, [], 4%nat)
  | OFPActionPopMpls ethertype => Some (OFPAT_POP_MPLS, [(2%nat, ethertype)], 2%nat)
  | OFPActionPushPbb ethertype => Some (OFPAT_PUSH_PBB, [(2%nat, ethertype)], 2%nat)
  | OFPActionPopPbb => Some (OFPAT_POP_PBB, [], 4%nat)
  | _ => None
  end.

(** [struct.pack] of a header, fields and padding. *)
Definition pack_fixed (type : Z) (fields : list (nat * Z)) (padding : nat) : outcome pyexn bytes :=
  let len := (4 + calcsize fields.*1 + padding)%nat in
  b ← pack ((2%nat, type) :: (2%nat, Z.of_nat len) :: fields);
  Ret (b ++ replicate padding 0).

(** [serialize]: the buffer, and the [len] of the action. *)
Definition serialize_action (a : action) (buf : bytes) (offset : nat) : outcome pyexn (bytes * nat) :=
  match fixed_action a with
  | Some (type, fields, padding) =>
      b ← pack_fixed type fields padding;
      Ret (msg_pack_into buf offset b, (4 + calcsize fields.*1 + padding)%nat)
  | None =>
      match a with
      | OFPActionSetField key value =>
          '(n, v, mask) ← _from_user key (Exact value);
          '((buf, len_) : bytes * nat) ← _serialize n v mask buf (offset + 4);
          let len := round_up (4 + len_) 8 in
          hdr ← pack [(2%nat, OFPAT_SET_FIELD); (2%nat, Z.of_nat len)];
          let buf := msg_pack_into buf offset hdr in
          let pad_len := (len - (4 + len_))%nat in
          Ret (msg_pack_into buf (offset + 4 + len_) (replicate pad_len 0), len)
      | OFPActionExperimenterUnknown experimenter data =>
          let len := (round_up (length (default [] data)) 8 + OFP_ACTION_EXPERIMENTER_HEADER_SIZE)%nat in
          hdr ← pack [(2%nat, OFPAT_EXPERIMENTER); (2%nat, Z.of_nat len); (4%nat, experimenter)];
          let buf := msg_pack_into buf offset hdr in
          match data with
          | None => Raise TypeError
          | Some data => Ret (msg_pack_into buf (offset + OFP_ACTION_EXPERIMENTER_HEADER_SIZE) data, len)
          end
      | NXAction nx =>
          data ← serialize_body nx;
          let len := round_up (OFP_ACTION_EXPERIMENTER_HEADER_SIZE + 2 + length data) 8 in
          hdr ← pack [(2%nat, OFPAT_EXPERIMENTER); (2%nat, Z.of_nat len); (4%nat, NX_EXPERIMENTER_ID)];
          let buf := msg_pack_into buf offset hdr in
          subtype ← pack [(2%nat, nx_subtype nx)];
          let buf := msg_pack_into buf (offset + OFP_ACTION_EXPERIMENTER_HEADER_SIZE) subtype in
          Ret (buf ++ data, len)
      | _ => Raise AttributeError
      end
  end.

(** [struct.unpack_from] of a format of [size] bytes: a field behind the header. *)
Definition unpack_fixed (size n : nat) (buf : bytes) : outcome pyexn Z :=
  '(b, _) ← unpack_s size buf;
  Ret (be_value (take n (drop 4 b))).

(** The parsers of the classes of fixed size: the action, and the [len] of its class. *)
Definition parse_fixed (type : Z) (buf : bytes) : option (outcome pyexn (action * Z)) :=
  let with_field n make := z ← unpack_fixed 8 n buf; Ret (make z, 8) in
  let without a := '(_, _) ← unpack_s 8 buf; Ret (a, 8) in
  if type =? OFPAT_OUTPUT then
    Some ('(b, _) ← unpack_s 16 buf; Ret (OFPActionOutput (be_value (take 4 (drop 4 b))) (be_value (take 2 (drop 8 b))), 16))
  else if type =? OFPAT_GROUP then Some (with_field 4%nat OFPActionGroup)
  else if type =? OFPAT_SET_QUEUE then Some (with_field 4%nat OFPActionSetQueue)
  else if type =? OFPAT_SET_MPLS_TTL then Some (with_field 1%nat OFPActionSetMplsTtl)
  else if type =? OFPAT_DEC_MPLS_TTL then Some (without OFPActionDecMplsTtl)
  else if type =? OFPAT_SET_NW_TTL then Some (with_field 1%nat OFPActionSetNwTtl)
  else if type =? OFPAT_DEC_NW_TTL then Some (without OFPActionDecNwTtl)
  else if type =? OFPAT_COPY_TTL_OUT then Some (without OFPActionCopyTtlOut)
  else if type =? OFPAT_COPY_TTL_IN then Some (without OFPActionCopyTtlIn)
  else if type =? OFPAT_PUSH_VLAN then Some (with_field 2%nat OFPActionPushVlan)
  else if type =? OFPAT_PUSH_MPLS then Some (with_field 2%nat OFPActionPushMpls)
  else if type =? OFPAT_POP_VLAN then Some (without OFPActionPopVlan)
  else if type =? OFPAT_POP_MPLS then Some (with_field 2%nat OFPActionPopMpls)
  else if type =? OFPAT_PUSH_PBB then Some (with_field 2%nat OFPActionPushPbb)
  else if type =? OFPAT_POP_PBB then Some (without OFPActionPopPbb)
  else None.

(** [OFPActionSetField.parser]; a mask makes the constructor raise.  The field of the old interface
    is decoded too, but not kept. *)
Definition parse_set_field (len : Z) (buf : bytes) : outcome pyexn (action * Z) :=
  '(_, _) ← unpack_s 8 buf;
  '(n, value, mask, _) ← _parse (drop 4 buf);
  '(k, uv) ← _to_user n value mask;
  match uv with
  | Exact u => _ ← parse_match_field (drop 4 buf); Ret (OFPActionSetField k u, len)
  | Masked _ _ => Raise AssertionError
  end.

(** [OFPActionExperimenter.parser], [NXAction.parse] *)
Definition parse_experimenter (len : Z) (buf : bytes) : outcome pyexn (action * Z) :=
  '(_, rest) ← unpack_s 4 buf;
  '(experimenter, rest) ← unpack_field 4 rest;
  let data := take (Z.to_nat len - OFP_ACTION_EXPERIMENTER_HEADER_SIZE) rest in
  if experimenter =? NX_EXPERIMENTER_ID then
    '(subtype, rest) ← unpack_field 2 data;
    nx ← nx_parser subtype rest;
    Ret (NXAction nx, len)
  else Ret (OFPActionExperimenterUnknown experimenter (Some data), len).

(** [OFPAction.parser]: the action and its [len]. *)
Definition parse_action (buf : bytes) : outcome pyexn (action * Z) :=
  '(_, _) ← unpack_s 8 buf;
  '(type, rest) ← unpack_field 2 buf;
  '(len, _) ← unpack_field 2 rest;
  match parse_fixed type buf with
  | Some m => m
  | None =>
      if type =? OFPAT_SET_FIELD then parse_set_field len buf
      else if type =? OFPAT_EXPERIMENTER then parse_experimenter len buf
      else Raise AssertionError
  end.

(** ** Instructions *)

Inductive instruction :=
| OFPInstructionGotoTable (table_id : Z)
| OFPInstructionWriteMetadata (metadata metadata_mask : Z)
| OFPInstructionActions (type : Z) (actions : list action)
| OFPInstructionMeter (meter_id : Z).

Definition OFPIT_GOTO_TABLE : Z := 1.
Definition OFPIT_WRITE_METADATA : Z := 2.
Definition OFPIT_WRITE_ACTIONS : Z := 3.
Definition OFPIT_APPLY_ACTIONS : Z := 4.
Definition OFPIT_CLEAR_ACTIONS : Z := 5.
Definition OFPIT_METER : Z := 6.

Fixpoint serialize_actions (l : list action) (buf : bytes) (offset : nat) : outcome pyexn (bytes * nat) :=
  match l with
  | [] => Ret (buf, offset)
  | a :: l =>
      '((buf, len) : bytes * nat) ← serialize_action a buf offset;
      serialize_actions l buf (offset + len)
  end.

(** [serialize]: the buffer, and the [len] of the instruction. *)
Definition serialize_instruction (i : instruction) (buf : bytes) (offset : nat) : outcome pyexn (bytes * nat) :=
  match i with
  | OFPInstructionGotoTable table_id =>
      b ← pack_fixed OFPIT_GOTO_TABLE [(1%nat, table_id)] 3; Ret (msg_pack_into buf offset b, 8%nat)
  | OFPInstructionWriteMetadata metadata mask =>
      b ← pack [(2%nat, OFPIT_WRITE_METADATA); (2%nat, 24); (4%nat, 0); (8%nat, metadata); (8%nat, mask)];
      Ret (msg_pack_into buf offset b, 24%nat)
  | OFPInstructionMeter meter_id =>
      b ← pack_fixed OFPIT_METER [(4%nat, meter_id)] 0; Ret (msg_pack_into buf offset b, 8%nat)
  | OFPInstructionActions type actions =>
      '((buf, action_offset) : bytes * nat) ← serialize_actions actions buf (offset + OFP_INSTRUCTION_ACTIONS_SIZE);
      let len := (action_offset - offset)%nat in
      let pad_len := (round_up len 8 - len)%nat in
      let buf := msg_pack_into buf action_offset (replicate pad_len 0) in
      let len := (len + pad_len)%nat in
      hdr ← pack [(2%nat, type); (2%nat, Z.of_nat len)];
      Ret (msg_pack_into buf offset (hdr ++ replicate 4 0), len)
  end.

(** The loop of [OFPInstructionActions.parser]: the actions, and the bytes left if a
    [struct.error] has stopped it.  It goes on by the [len] of each action, which is 0 if the
    message says so: then it does not end, whatever the fuel. *)
Fixpoint parse_actions (fuel : nat) (actions_len : Z) (buf : bytes) : outcome pyexn (list action * option bytes) :=
  if actions_len <=? 0 then Ret ([], None)
  else
    match fuel with
    | O => Raise OutOfFuel
    | S fuel =>
        match parse_action buf with
        | Raise StructError => Ret ([], Some buf)
        | Raise e => Raise e
        | Ret (a, len) =>
            '(actions, residue) ← parse_actions fuel (actions_len - len) (drop (Z.to_nat len) buf);
            Ret (a :: actions, residue)
        end
    end.

(** [OFPInstruction.parser]: the instruction and its [len]. *)
Definition parse_instruction (buf : bytes) : outcome pyexn (trunc (instruction * Z)) :=
  '(type, rest) ← unpack_field 2 buf;
  '(len, _) ← unpack_field 2 rest;
  if type =? OFPIT_GOTO_TABLE then
    z ← unpack_fixed 8 1 buf; Ret (Whole (OFPInstructionGotoTable z, 8))
  else if type =? OFPIT_WRITE_METADATA then
    '(b, _) ← unpack_s 24 buf;
    Ret (Whole (OFPInstructionWriteMetadata (be_value (take 8 (drop 8 b))) (be_value (drop 16 b)), 24))
  else if bool_decide (type ∈ [OFPIT_WRITE_ACTIONS; OFPIT_APPLY_ACTIONS; OFPIT_CLEAR_ACTIONS]) then
    '(_, rest) ← unpack_s OFP_INSTRUCTION_ACTIONS_SIZE buf;
    '((actions, residue) : list action * option bytes) ←
      parse_actions (S (length rest)) (len - Z.of_nat OFP_INSTRUCTION_ACTIONS_SIZE) rest;
    let inst := (OFPInstructionActions type actions, len) in
    Ret (match residue with None => Whole inst | Some residue => Truncated inst residue end)
  else if type =? OFPIT_METER then
    z ← unpack_fixed 8 4 buf; Ret (Whole (OFPInstructionMeter z, 8))
  else Raise AttributeError.
End actions.

(** ** What is written is read *)

(** The actions that can be written: fields in their ranges, payloads that are aligned. *)
Definition action_ok `{AddrConv} `{NxActions, !NxActionLaws} (a : action) : Prop :=
  match fixed_action a with
  | Some (_, fields, _) => Forall in_width fields
  | None =>
      match a with
      | OFPActionSetField key value => ∃ f v, canonical f v None key (Exact value)
      | OFPActionExperimenterUnknown experimenter (Some data) =>
          0 ≤ experimenter < 2 ^ 32 ∧ experimenter ≠ NX_EXPERIMENTER_ID ∧ Forall is_byte data ∧
          (length data mod 8 = 0)%nat ∧ Z.of_nat (length data) < 65528
      | NXAction nx => nx_ok nx
      | _ => False
      end
  end.

Lemma pack_fixed_none type : 0 ≤ type < 65536 → pack_fixed type [] 4 = Ret (be_bytes 2 type ++ be_bytes 2 8 ++ replicate 4 0).
Proof. intros Ht. unfold pack_fixed. cbn [fmap list_fmap]. change (4 + calcsize [] + 4)%nat with 8%nat. rewrite pack2 by done. cbn [mbind outcome_bind]. by rewrite <- app_assoc. Qed.

Lemma pack_fixed_one type n z p :
  0 ≤ type < 65536 → in_width (n, z) → (n + p = 4)%nat →
  pack_fixed type [(n, z)] p = Ret (be_bytes 2 type ++ be_bytes 2 8 ++ be_bytes n z ++ replicate p 0).
Proof.
  intros Ht Hz Hn. unfold pack_fixed. cbn [fmap list_fmap fst]. assert (4 + calcsize [n] + p = 8)%nat as -> by (cbn; lia).
  rewrite pack3 by done. cbn [mbind outcome_bind]. by rewrite <- !app_assoc.
Qed.

Lemma unpack_fixed_one type n z p rest :
  in_width (n, z) → (n + p = 4)%nat → unpack_fixed 8 n ((be_bytes 2 type ++ be_bytes 2 8 ++ be_bytes n z ++ replicate p 0) ++ rest) = Ret z.
Proof.
  intros Hz Hn. unfold unpack_fixed. rewrite unpack_s_app by (rewrite !length_app, !length_be_bytes, length_replicate; lia). cbn [mbind outcome_bind].
  rewrite app_assoc, drop_app_length' by (by rewrite length_app, !length_be_bytes). rewrite take_app_length' by (by rewrite length_be_bytes). by rewrite be_value_bytes.
Qed.

(** The header that [OFPAction.parser] looks at. *)
Lemma action_header `{AddrConv} `{NxActions} type len body rest :
  0 ≤ type < 65536 → 0 ≤ len < 65536 → (4 ≤ length body)%nat →
  parse_action ((be_bytes 2 type ++ be_bytes 2 len ++ body) ++ rest) =
    match parse_fixed type ((be_bytes 2 type ++ be_bytes 2 len ++ body) ++ rest) with
    | Some m => m
    | None =>
        if type =? OFPAT_SET_FIELD then parse_set_field len ((be_bytes 2 type ++ be_bytes 2 len ++ body) ++ rest)
        else if type =? OFPAT_EXPERIMENTER then parse_experimenter len ((be_bytes 2 type ++ be_bytes 2 len ++ body) ++ rest)
        else Raise AssertionError
    end.
Proof.
  intros Ht Hl Hb. unfold parse_action. set (bs := (be_bytes 2 type ++ be_bytes 2 len ++ body) ++ rest).
  assert (unpack_s 8 bs = Ret (take 8 bs, drop 8 bs)) as ->.
  { unfold unpack_s. rewrite (proj2 (Nat.ltb_ge _ _)); [done|]. subst bs. rewrite !length_app, !length_be_bytes. lia. }
  cbn [mbind outcome_bind]. assert (bs = be_bytes 2 type ++ be_bytes 2 len ++ body ++ rest) as E by (subst bs; by rewrite <- !app_assoc).
  rewrite E at 1. rewrite unpack_be by done. cbn [mbind outcome_bind]. by rewrite unpack_be by done.
Qed.

Lemma parse_fixed_ok `{AddrConv} `{NxActions} a type fields p buf :
  fixed_action a = Some (type, fields, p) →
  match fields with
  | [] => unpack_s 8 buf = Ret (take 8 buf, drop 8 buf) → parse_fixed type buf = Some (Ret (a, 8))
  | [(n, z)] => unpack_fixed 8 n buf = Ret z → parse_fixed type buf = Some (Ret (a, 8))
  | _ => True
  end ∧ match fields with [] => p = 4%nat | [(n, z)] => (n + p = 4)%nat | _ => True end ∧ 0 ≤ type < 65536.
Proof.
  destruct a; intros E; cbn in E; simplify_eq; (split; [try done; intros E2; cbn -[unpack_s unpack_fixed]; by rewrite E2|by split]).
Qed.

Section roundtrip.
Context `{AddrConv, !AddrConvLaws} `{NxActions, !NxActionLaws}.

Lemma fixed_roundtrip a type fields p :
  fixed_action a = Some (type, fields, p) → Forall in_width fields →
  ∃ b, pack_fixed type fields p = Ret b ∧ Forall is_byte b ∧ length b = (4 + calcsize fields.*1 + p)%nat ∧ (length b mod 8 = 0)%nat ∧
    (0 < length b ≤ 16)%nat ∧ ∀ rest, parse_action (b ++ rest) = Ret (a, Z.of_nat (length b)).
Proof.
  intros E Hf. assert (∀ body, Forall is_byte body → Forall is_byte (be_bytes 2 type ++ be_bytes 2 8 ++ body)) as Hbytes by (intros; bytes).
  destruct fields as [|[n z] [|[n' z'] fields]].
  - destruct (parse_fixed_ok a type [] p [] E) as (_ & -> & Ht). rewrite pack_fixed_none by done. eexists. split; [done|].
    rewrite !length_app, !length_be_bytes, length_replicate. split; [apply Hbytes; by apply Forall_replicate|]. split_and!; [done|done|lia|lia|].
    intros rest. rewrite action_header by done. destruct (parse_fixed_ok a type [] 4 ((be_bytes 2 type ++ be_bytes 2 8 ++ replicate 4 0) ++ rest) E) as (-> & _); [done|].
    unfold unpack_s. by rewrite (proj2 (Nat.ltb_ge _ _)) by (rewrite !length_app, !length_be_bytes, length_replicate; lia).
  - destruct (parse_fixed_ok a type [(n, z)] p [] E) as (_ & Hn & Ht). apply Forall_cons in Hf as [Hz _]. rewrite pack_fixed_one by done. eexists. split; [done|].
    rewrite !length_app, !length_be_bytes, length_replicate. split; [apply Hbytes; rewrite Forall_app; split; [apply be_bytes_are_bytes|by apply Forall_replicate]|].
    cbn [fmap list_fmap fst]. unfold calcsize. cbn [sum_list]. replace (2 + (2 + (n + p)))%nat with 8%nat by lia.
    split; [cbn; lia|]. split; [done|]. split; [lia|].
    intros rest. rewrite action_header by (done || rewrite length_app, length_be_bytes, length_replicate; lia).
    destruct (parse_fixed_ok a type [(n, z)] p ((be_bytes 2 type ++ be_bytes 2 8 ++ be_bytes n z ++ replicate p 0) ++ rest) E) as (-> & _); [done|].
    by apply unpack_fixed_one.
  - destruct a; cbn in E; simplify_eq. apply Forall_cons in Hf as [Hz Hf]. apply Forall_cons in Hf as [Hz' _].
    unfold in_width in Hz, Hz'. cbn [fst snd] in Hz, Hz'.
    assert (pack_fixed OFPAT_OUTPUT [(4%nat, z); (2%nat, z')] 6 =
      Ret (be_bytes 2 OFPAT_OUTPUT ++ be_bytes 2 16 ++ (be_bytes 4 z ++ be_bytes 2 z' ++ replicate 6 0))) as ->.
    { unfold pack_fixed. cbn [fmap list_fmap fst]. change (4 + calcsize [4; 2] + 6)%nat with 16%nat. cbn [pack]. rewrite !pack_field_ok by done.
      cbn [mbind outcome_bind]. by rewrite ?app_nil_r, <- !app_assoc. }
    eexists. split; [done|]. rewrite !length_app, !length_be_bytes, length_replicate. split; [bytes|]. split_and!; [done|done|lia|lia|].
    intros rest. rewrite action_header by (done || rewrite !length_app, !length_be_bytes, length_replicate; lia).
    set (b := be_bytes 2 OFPAT_OUTPUT ++ be_bytes 2 16 ++ be_bytes 4 z ++ be_bytes 2 z' ++ replicate 6 0).
    change (parse_fixed OFPAT_OUTPUT (b ++ rest)) with
      (Some ('(b, _) ← unpack_s 16 (b ++ rest); Ret (OFPActionOutput (be_value (take 4 (drop 4 b))) (be_value (take 2 (drop 8 b))), 16))).
    rewrite unpack_s_app by done. cbn [mbind outcome_bind]. unfold b.
    rewrite app_assoc at 1. rewrite drop_app_length' by (by rewrite length_app, !length_be_bytes). rewrite take_app_length' by (by rewrite length_be_bytes).
    rewrite (app_assoc (be_bytes 2 _)), (app_assoc (_ ++ _)), drop_app_length' by (by rewrite !length_app, !length_be_bytes).
    rewrite take_app_length' by (by rewrite length_be_bytes). by rewrite !be_value_bytes.
Qed.
(** The bytes [bs] of an action, wherever it is written and whatever follows. *)
Definition action_writes (a : action) (bs : bytes) : Prop :=
  (∀ buf n, serialize_action a buf (length buf + n) = Ret ((buf ++ replicate n 0) ++ bs, length bs)) ∧
  Forall is_byte bs ∧ (length bs mod 8 = 0)%nat ∧ (0 < length bs)%nat ∧ Z.of_nat (length bs) < 65536 ∧
  ∀ rest, parse_action (bs ++ rest) = Ret (a, Z.of_nat (length bs)).

Lemma set_field_writes key value : (∃ f v, canonical f v None key (Exact value)) → ∃ bs, action_writes (OFPActionSetField key value) bs.
Proof.
  intros (f & v & Hk & -> & Efrom & Eto). destruct (field_bytes_ok f v None Hk) as [Hl Hb]. set (fb := field_bytes f v None) in *.
  destruct (round_up_spec (4 + length fb)) as [Hr Hmod]. set (len := round_up (4 + length fb) 8) in *.
  assert (0 ≤ Z.of_nat len < 65536) as Hlen by lia.
  exists (be_bytes 2 OFPAT_SET_FIELD ++ be_bytes 2 (Z.of_nat len) ++ fb ++ replicate (len - (4 + length fb)) 0).
  assert (length (be_bytes 2 OFPAT_SET_FIELD ++ be_bytes 2 (Z.of_nat len) ++ fb ++ replicate (len - (4 + length fb)) 0) = len) as El
    by (rewrite !length_app, !length_be_bytes, length_replicate; lia).
  unfold action_writes. rewrite El. split_and!; [|bytes|done|lia|lia|].
  - intros buf n. cbn [serialize_action fixed_action]. rewrite Efrom. cbn [mbind outcome_bind fmap option_fmap option_map].
    rewrite <- !Nat.add_assoc. change None with (Packed <$> @None bytes) at 1. rewrite serialize_field_gap by done. cbn [mbind outcome_bind]. fold fb len.
    rewrite pack2 by done. cbn [mbind outcome_bind].
    assert ((buf ++ replicate (n + 4) 0) ++ fb = (buf ++ replicate n 0) ++ replicate 4 0 ++ fb) as -> by (rewrite replicate_add, <- !app_assoc; done).
    replace (length buf + n)%nat with (length (buf ++ replicate n 0%Z)) by (rewrite length_app, length_replicate; lia).
    rewrite msg_pack_into_middle by done.
    replace (length buf + (n + 4) + length fb)%nat with (length ((buf ++ replicate n 0%Z) ++ (be_bytes 2 OFPAT_SET_FIELD ++ be_bytes 2 (Z.of_nat len)) ++ fb))
      by (rewrite !length_app, length_replicate, !length_be_bytes; lia).
    rewrite msg_pack_into_end. by rewrite <- !app_assoc.
  - intros rest. rewrite action_header by (done || rewrite length_app; lia). cbn [parse_fixed OFPAT_SET_FIELD Z.eqb Pos.eqb]. unfold parse_set_field.
    unfold unpack_s. rewrite (proj2 (Nat.ltb_ge _ 8)) by (rewrite !length_app, !length_be_bytes; lia). cbn [mbind outcome_bind].
    rewrite <- !app_assoc, app_assoc, drop_app_length' by (by rewrite length_app, !length_be_bytes).
    pose proof (parse_field f v None (replicate (len - (4 + length fb)) 0 ++ rest) Hk) as Ep. fold fb in Ep. rewrite Ep.
    cbn [mbind outcome_bind]. rewrite Eto. cbn [mbind outcome_bind]. destruct (parse_match_field_ok _ _ _ _ _ Ep) as (old & -> & _). done.
Qed.

Lemma round_up_id x : (x mod 8 = 0)%nat → round_up x 8 = x.
Proof. intros Hx. destruct (round_up_spec x) as [Hr Hm]. apply Nat.Div0.mod_divides in Hx as [a ->], Hm as [b Eb]. lia. Qed.

(** The header of an experimenter action with a payload whose size is a multiple of 8. *)
Lemma experimenter_writes a experimenter payload :
  0 ≤ experimenter < 2 ^ 32 → Forall is_byte payload → (length payload mod 8 = 0)%nat → Z.of_nat (length payload) < 65528 →
  (∀ buf n, serialize_action a buf (length buf + n) =
    hdr ← pack [(2%nat, OFPAT_EXPERIMENTER); (2%nat, Z.of_nat (8 + length payload)); (4%nat, experimenter)];
    Ret (msg_pack_into buf (length buf + n) hdr ++ payload, (8 + length payload)%nat)) →
  (if experimenter =? NX_EXPERIMENTER_ID then
     '(subtype, rest) ← unpack_field 2 payload; nx ← nx_parser subtype rest; Ret (NXAction nx, Z.of_nat (8 + length payload))
   else Ret (OFPActionExperimenterUnknown experimenter (Some payload), Z.of_nat (8 + length payload))) = Ret (a, Z.of_nat (8 + length payload)) →
  ∃ bs, action_writes a bs.
Proof.
  intros He Hb Hm Hl Hser Hparse. set (len := (8 + length payload)%nat) in *. assert (0 ≤ Z.of_nat len < 65536) as Hlen by lia.
  exists (be_bytes 2 OFPAT_EXPERIMENTER ++ be_bytes 2 (Z.of_nat len) ++ be_bytes 4 experimenter ++ payload).
  assert (length (be_bytes 2 OFPAT_EXPERIMENTER ++ be_bytes 2 (Z.of_nat len) ++ be_bytes 4 experimenter ++ payload) = len) as El
    by (rewrite !length_app, !length_be_bytes; lia).
  unfold action_writes. rewrite El. split_and!; [|bytes| |lia|lia|].
  - intros buf n. rewrite Hser, pack3 by done. cbn [mbind outcome_bind]. by rewrite msg_pack_into_gap, <- !app_assoc.
  - subst len. change (8 + length payload)%nat with (1 * 8 + length payload)%nat. rewrite Nat.add_comm, Nat.Div0.mod_add. done.
  - intros rest. rewrite action_header by (done || rewrite length_app, length_be_bytes; lia).
    cbn [parse_fixed OFPAT_EXPERIMENTER OFPAT_SET_FIELD Z.eqb Pos.eqb]. unfold parse_experimenter.
    rewrite <- !app_assoc, app_assoc, unpack_s_app by (by rewrite length_app, !length_be_bytes). cbn [mbind outcome_bind].
    rewrite unpack_be by done. cbn [mbind outcome_bind]. rewrite Nat2Z.id. subst len. unfold OFP_ACTION_EXPERIMENTER_HEADER_SIZE.
    replace (8 + length payload - 8)%nat with (length payload) by lia. by rewrite take_app_length.
Qed.

Lemma action_roundtrip a : action_ok a → ∃ bs, action_writes a bs.
Proof.
  unfold action_ok. intros Ha. destruct (fixed_action a) as [[[type fields] p]|] eqn:E.
  - destruct (fixed_roundtrip a type fields p E Ha) as (b & Ep & Hb & Hl & Hm & H16 & Hparse). exists b. split_and!; [|done|done|lia|lia|done].
    intros buf n. unfold serialize_action. rewrite E, Ep. cbn [mbind outcome_bind]. by rewrite msg_pack_into_gap, <- app_assoc, Hl.
  - destruct a as [| | | | | | | | | | | | |key value| | |experimenter [data|]|nx]; try done.
    + by apply set_field_writes.
    + destruct Ha as (He & Hne & Hb & Hm & Hl). apply (experimenter_writes _ experimenter data); [done|done|done|done| |].
      * intros buf n. unfold serialize_action. cbn [fixed_action default from_option id]. rewrite round_up_id by done.
        unfold OFP_ACTION_EXPERIMENTER_HEADER_SIZE. rewrite (Nat.add_comm (length data) 8). destruct (pack _) as [hdr|] eqn:Ep; [|done]. cbn [mbind outcome_bind]. apply pack_length in Ep.
        rewrite msg_pack_into_gap. replace (length buf + n + 8)%nat with (length (buf ++ replicate n 0%Z ++ hdr)) by (rewrite !length_app, length_replicate, Ep; cbn; lia).
        by rewrite msg_pack_into_end.
      * by rewrite (proj2 (Z.eqb_neq _ _)).
    + destruct (nx_roundtrip nx Ha) as (body & Eb & Hb & Hs & Hm & Hl & Hparse).
      assert (length (be_bytes 2 (nx_subtype nx) ++ body) = 2 + length body)%nat as Hlen by (by rewrite length_app, length_be_bytes).
      apply (experimenter_writes _ NX_EXPERIMENTER_ID (be_bytes 2 (nx_subtype nx) ++ body)); rewrite ?Hlen; [done|bytes| |lia| |].
      * replace (10 + length body)%nat with (2 + length body + 1 * 8)%nat in Hm by lia. by rewrite Nat.Div0.mod_add in Hm.
      * intros buf n. unfold serialize_action. cbn [fixed_action]. rewrite Eb. cbn [mbind outcome_bind]. unfold OFP_ACTION_EXPERIMENTER_HEADER_SIZE.
        change (8 + 2 + length body)%nat with (10 + length body)%nat. rewrite round_up_id by done.
        destruct (pack [_; _; _]) as [hdr|] eqn:Ep; [|done]. cbn [mbind outcome_bind]. apply pack_length in Ep. rewrite pack1 by done. cbn [mbind outcome_bind].
        rewrite msg_pack_into_gap. replace (length buf + n + 8)%nat with (length (buf ++ replicate n 0%Z ++ hdr)) by (rewrite !length_app, length_replicate, Ep; cbn; lia).
        by rewrite msg_pack_into_end, <- !app_assoc.
      * rewrite Z.eqb_refl, unpack_be by done. cbn [mbind outcome_bind]. by rewrite Hparse.
Qed.

(** ** Lists of actions, instructions *)

Lemma serialize_actions_ok l bss buf :
  Forall2 action_writes l bss → serialize_actions l buf (length buf) = Ret (buf ++ mjoin bss, (length buf + length (mjoin bss))%nat).
Proof.
  intros Hl. revert buf. induction Hl as [|a bs l bss Ha _ IH]; intros buf; cbn [serialize_actions].
  { cbn. by rewrite app_nil_r, Nat.add_0_r. }
  destruct Ha as (Hser & _). pose proof (Hser buf 0%nat) as E. rewrite Nat.add_0_r in E. rewrite E. cbn [mbind outcome_bind replicate]. rewrite app_nil_r.
  rewrite <- length_app, IH. change (mjoin (bs :: bss)) with (bs ++ mjoin bss). by rewrite <- app_assoc, !length_app, Nat.add_assoc.
Qed.

Lemma serialize_actions_gap l bss buf n :
  Forall2 action_writes l bss → l ≠ [] →
  serialize_actions l buf (length buf + n) = Ret ((buf ++ replicate n 0) ++ mjoin bss, (length buf + n + length (mjoin bss))%nat).
Proof.
  intros [|a bs l' bss' Ha Hl]; [done|]. intros _. cbn [serialize_actions]. rewrite (proj1 Ha). cbn [mbind outcome_bind].
  replace (length buf + n + length bs)%nat with (length ((buf ++ replicate n 0%Z) ++ bs)) by (rewrite !length_app, length_replicate; lia).
  rewrite (serialize_actions_ok l' bss') by done. change (mjoin (bs :: bss')) with (bs ++ mjoin bss').
  by rewrite <- app_assoc, !length_app, length_replicate, !Nat.add_assoc.
Qed.

Lemma parse_actions_ok l bss fuel rest :
  Forall2 action_writes l bss → (length (mjoin bss) < fuel)%nat →
  parse_actions fuel (Z.of_nat (length (mjoin bss))) (mjoin bss ++ rest) = Ret (l, None).
Proof.
  intros Hl. revert fuel. induction Hl as [|a bs l bss Ha _ IH]; intros fuel Hf; [by destruct fuel|].
  change (mjoin (bs :: bss)) with (bs ++ mjoin bss) in *. destruct Ha as (_ & _ & _ & Hpos & _ & Hparse). rewrite length_app in *.
  destruct fuel as [|fuel]; [lia|]. cbn [parse_actions]. rewrite (proj2 (Z.leb_gt _ 0)) by lia. rewrite <- app_assoc, Hparse, Nat2Z.id, drop_app_length.
  replace (Z.of_nat _ - _) with (Z.of_nat (length (mjoin bss))) by lia. by rewrite IH by lia.
Qed.

Lemma actions_bytes l bss : Forall2 action_writes l bss → Forall is_byte (mjoin bss) ∧ (length (mjoin bss) mod 8 = 0)%nat.
Proof.
  induction 1 as [|a bs l bss (_ & Hb & Hm & _) _ [IHb IHm]]; [by split; [constructor|]|]. change (mjoin (bs :: bss)) with (bs ++ mjoin bss).
  rewrite Forall_app, length_app. split; [done|]. by rewrite Nat.Div0.add_mod, Hm, IHm.
Qed.

Lemma actions_roundtrip l : Forall action_ok l → ∃ bss, Forall2 action_writes l bss.
Proof.
  induction 1 as [|a l Ha _ [bss IH]]; [by exists []|]. destruct (action_roundtrip a Ha) as [bs Hbs]. exists (bs :: bss). by constructor.
Qed.

Definition actions_length (l : list action) : nat := match serialize_actions l [] 0 with Ret (_, n) => n | Raise _ => 0 end.

Lemma actions_length_ok l bss : Forall2 action_writes l bss → actions_length l = length (mjoin bss).
Proof. intros Hl. unfold actions_length. pose proof (serialize_actions_ok l bss [] Hl) as E. cbn [length] in E. by rewrite E. Qed.

Definition instruction_ok (i : instruction) : Prop :=
  match i with
  | OFPInstructionGotoTable table_id => 0 ≤ table_id < 2 ^ 8
  | OFPInstructionWriteMetadata metadata mask => 0 ≤ metadata < 2 ^ 64 ∧ 0 ≤ mask < 2 ^ 64
  | OFPInstructionMeter meter_id => 0 ≤ meter_id < 2 ^ 32
  | OFPInstructionActions type actions =>
      type ∈ [OFPIT_WRITE_ACTIONS; OFPIT_APPLY_ACTIONS; OFPIT_CLEAR_ACTIONS] ∧ Forall action_ok actions ∧ Z.of_nat (actions_length actions) < 65528
  end.

Definition instruction_writes (i : instruction) (bs : bytes) : Prop :=
  (∀ buf, serialize_instruction i buf (length buf) = Ret (buf ++ bs, length bs)) ∧
  Forall is_byte bs ∧ (length bs mod 8 = 0)%nat ∧ (0 < length bs)%nat ∧
  ∀ rest, parse_instruction (bs ++ rest) = Ret (Whole (i, Z.of_nat (length bs))).

Lemma instruction_actions_writes type actions :
  instruction_ok (OFPInstructionActions type actions) → ∃ bs, instruction_writes (OFPInstructionActions type actions) bs.
Proof.
  intros (Ht & Hok & Hl). destruct (actions_roundtrip actions Hok) as [bss Hbss]. rewrite (actions_length_ok _ _ Hbss) in Hl.
  destruct (actions_bytes _ _ Hbss) as [Hb Hm]. set (body := mjoin bss) in *. set (len := (8 + length body)%nat).
  assert (0 ≤ type < 65536) as Htype by (apply list_elem_of_In in Ht; cbn in Ht; by destruct Ht as [<-|[<-|[<-|[]]]]).
  assert (0 ≤ Z.of_nat len < 65536) as Hlen by lia. assert (len mod 8 = 0)%nat as Hmod by (subst len; rewrite Nat.add_comm; change 8%nat with (1 * 8)%nat at 1; by rewrite Nat.Div0.mod_add).
  exists (be_bytes 2 type ++ be_bytes 2 (Z.of_nat len) ++ replicate 4 0 ++ body).
  assert (length (be_bytes 2 type ++ be_bytes 2 (Z.of_nat len) ++ replicate 4 0 ++ body) = len) as El by (rewrite !length_app, !length_be_bytes, length_replicate; lia).
  unfold instruction_writes. rewrite El. split_and!; [|bytes|done|lia|].
  - intros buf. cbn [serialize_instruction]. unfold OFP_INSTRUCTION_ACTIONS_SIZE. destruct (decide (actions = [])) as [->|Hne].
    + inversion Hbss; subst bss. cbn [serialize_actions mbind outcome_bind]. replace (length buf + 8 - length buf)%nat with 8%nat by lia.
      change (round_up 8 8 - 8)%nat with 0%nat. change len with 8%nat in *. rewrite pack2 by done. cbn [mbind outcome_bind replicate].
      rewrite msg_pack_into_gap. change (replicate 8 0 ++ []) with (replicate 8 0). rewrite <- (app_nil_r (buf ++ replicate 8 0)), <- app_assoc, msg_pack_into_middle by done.
      by rewrite <- !app_assoc.
    + rewrite (serialize_actions_gap actions bss) by done. cbn [mbind outcome_bind]. fold body. replace (length buf + 8 + length body - length buf)%nat with len by lia.
      rewrite round_up_id, Nat.sub_diag, Nat.add_0_r by done. cbn [replicate]. rewrite pack2 by done. cbn [mbind outcome_bind].
      replace (length buf + 8 + length body)%nat with (length ((buf ++ replicate 8 0%Z) ++ body)) by (rewrite !length_app, length_replicate; lia).
      rewrite msg_pack_into_end, app_nil_r, <- app_assoc, msg_pack_into_middle by done. by rewrite <- !app_assoc.
  - intros rest. unfold parse_instruction. rewrite <- !app_assoc. rewrite unpack_be by done. cbn [mbind outcome_bind]. rewrite unpack_be by done. cbn [mbind outcome_bind].
    rewrite (proj2 (Z.eqb_neq type OFPIT_GOTO_TABLE)), (proj2 (Z.eqb_neq type OFPIT_WRITE_METADATA)), bool_decide_true
      by (done || (intros ->; revert Ht; by apply (bool_decide_unpack _))).
    rewrite (app_assoc (be_bytes 2 type)), (app_assoc (_ ++ _)), unpack_s_app by done. cbn [mbind outcome_bind]. unfold OFP_INSTRUCTION_ACTIONS_SIZE.
    replace (Z.of_nat len - Z.of_nat 8) with (Z.of_nat (length body)) by lia. unfold body. rewrite (parse_actions_ok actions bss); [done|done|].
    fold body. rewrite length_app. lia.
Qed.

Lemma instruction_roundtrip i : instruction_ok i → ∃ bs, instruction_writes i bs.
Proof.
  destruct i as [table_id|metadata mask|type actions|meter_id]; [| |apply instruction_actions_writes|]; intros Hi; unfold instruction_writes; cbn [serialize_instruction].
  - rewrite pack_fixed_one by done. exists (be_bytes 2 OFPIT_GOTO_TABLE ++ be_bytes 2 8 ++ be_bytes 1 table_id ++ replicate 3 0). split; [intros buf; cbn [mbind outcome_bind]; by rewrite msg_pack_into_end|]. split; [bytes|]. split; [done|]. split; [cbn; lia|].
    intros rest. unfold parse_instruction. rewrite unpack_fixed_one by done. rewrite <- !app_assoc. rewrite unpack_be by done. cbn [mbind outcome_bind].
    rewrite unpack_be by done. done.
  - destruct Hi as [Hm Hk]. cbn [pack]. rewrite !pack_field_ok by done. cbn [mbind outcome_bind]. rewrite app_nil_r.
    exists (be_bytes 2 OFPIT_WRITE_METADATA ++ be_bytes 2 24 ++ be_bytes 4 0 ++ be_bytes 8 metadata ++ be_bytes 8 mask).
    split; [intros buf; cbn [mbind outcome_bind]; by rewrite msg_pack_into_end|]. split; [bytes|]. split; [done|]. split; [cbn; lia|].
    intros rest. unfold parse_instruction. rewrite unpack_s_app by done. rewrite <- !app_assoc. rewrite unpack_be by done. cbn [mbind outcome_bind].
    rewrite unpack_be by done. cbn [mbind outcome_bind OFPIT_WRITE_METADATA OFPIT_GOTO_TABLE Z.eqb Pos.eqb].
    rewrite (app_assoc (be_bytes 2 2)), (app_assoc (_ ++ _)), drop_app_length' by done. rewrite take_app_length' by (by rewrite length_be_bytes).
    rewrite (app_assoc _ (be_bytes 8 metadata)), drop_app_length' by done. by rewrite !be_value_bytes.
  - rewrite pack_fixed_one by done. exists (be_bytes 2 OFPIT_METER ++ be_bytes 2 8 ++ be_bytes 4 meter_id ++ replicate 0 0). split; [intros buf; cbn [mbind outcome_bind]; by rewrite msg_pack_into_end|]. split; [bytes|]. split; [done|]. split; [cbn; lia|].
    intros rest. unfold parse_instruction. rewrite unpack_fixed_one by done. rewrite <- !app_assoc. rewrite unpack_be by done. cbn [mbind outcome_bind].
    rewrite unpack_be by done. done.
Qed.
End roundtrip.

(** ** Termination *)

Section fuel.
Context `{AddrConv} `{NxActions}.

(** Unless an action says that its length is 0, the decoder of a list of actions ends. *)
Lemma parse_actions_fuel f1 f2 len buf :
  (∀ n a l, parse_action (drop n buf) = Ret (a, l) → 0 < l) →
  (length buf < f1)%nat → (length buf < f2)%nat → parse_actions f1 len buf = parse_actions f2 len buf.
Proof.
  revert f2 len buf. induction f1 as [|f1 IH]; intros [|f2] len buf Hpos H1' H2'; try lia. cbn [parse_actions]. destruct (len <=? 0); [done|].
  destruct (parse_action buf) as [[a l]|e] eqn:E; [|done]. pose proof (Hpos 0%nat a l E) as Hl.
  assert (0 < length buf)%nat as Hne.
  { destruct buf; [|cbn; lia]. by unfold parse_action in E. }
  rewrite (IH f2); [done| |rewrite length_drop; lia..]. intros n a' l'. rewrite drop_drop. apply Hpos.
Qed.
End fuel.

(** ** Faults *)

(** [NXActionUnknown], the class for subtypes that have none of their own. *)
Module UnknownNx.

#[export] Instance unknown_nx : NxActions := {|
  nx_action := Z * bytes;
  nx_subtype a := a.1;
  serialize_body a := Ret a.2;
  nx_parser subtype rest := Ret (subtype, rest)
|}.

#[export] Instance unknown_nx_laws : NxActionLaws.
Proof.
  exists (λ a : Z * bytes, Forall is_byte a.2 ∧ 0 ≤ a.1 < 2 ^ 16 ∧ ((10 + length a.2) mod 8 = 0)%nat ∧ Z.of_nat (10 + length a.2) < 2 ^ 16).
  intros [subtype body] (Hb & Hs & Hm & Hl). by exists body.
Defined.
End UnknownNx.

Module ActionFaults.
Import PlainConv UnknownNx.

(** The decoder goes on by the length that the message gives: on an experimenter action that says
    0 it never ends. *)
Definition zero_length_action : bytes := [0xff; 0xff; 0; 0; 0; 0; 0; 1].

Lemma zero_length_hangs fuel len rest : 0 < len → parse_actions fuel len (zero_length_action ++ rest) = Raise OutOfFuel.
Proof.
  intros Hl. induction fuel as [|fuel IH]; cbn [parse_actions]; rewrite (proj2 (Z.leb_gt len 0)) by done; [done|].
  assert (parse_action (zero_length_action ++ rest) = Ret (OFPActionExperimenterUnknown 1 (Some []), 0)) as -> by reflexivity.
  change (drop (Z.to_nat 0) (zero_length_action ++ rest)) with (zero_length_action ++ rest). rewrite Z.sub_0_r, IH. done.
Qed.

(** The payload of an experimenter action is not padded in the buffer: the length of the action
    is more than what was written. *)
Example experimenter_not_padded :
  serialize_action (OFPActionExperimenterUnknown 1 (Some [7])) [] 0 = Ret ([0xff; 0xff; 0; 16; 0; 0; 0; 1; 7], 16%nat).
Proof. reflexivity. Qed.

(** An address in CIDR notation gives a field with a mask, which the decoder of the action
    refuses. *)
Example set_field_with_mask :
  let a := OFPActionSetField "ipv4_dst" (UText (text [10; 0; 0; 0; 255; 0; 0; 0])) in
  (serialize_action a [] 0 ≫= λ '(bs, _), parse_action bs) = Raise AssertionError.
Proof. vm_compute. reflexivity. Qed.
End ActionFaults.
