(* ===== verification/OfpMessages.v ===== *)
(** * Messages of OpenFlow 1.3

    Models [MsgBase.serialize] of [ryu/ofproto/ofproto_parser.py] and, of
    [ofproto_v1_3_parser.py], the encoder and decoder of [OFPFlowMod], the encoder of
    [OFPPacketOut] and the decoder of [OFPPacketIn], over the matches of [OfpMatch] and the
    instructions and actions of [OfpActions].  The theorems say that a flow entry is read as it was
    written, how a packet goes out, and what of the bytes of a packet that comes in is its data. *)

From stdpp Require Import base list strings.
From Stdlib Require Import ZArith Lia.
From S2P Require Import Prelude Struct OxmFields OfpMatch OfpActions.

Open Scope Z_scope.
Set Default Proof Using "Type*".

Definition OFP_VERSION : Z := 4.
Definition OFPT_PACKET_IN : Z := 10.
Definition OFPT_PACKET_OUT : Z := 13.
Definition OFPT_FLOW_MOD : Z := 14.
Definition OFP_NO_BUFFER : Z := 0xffffffff.

(** [_serialize_pre] and [_serialize_header]: the header is written when the rest is in place. *)
Definition msg_pre : bytes := replicate 8 0.

Definition serialize_header (msg_type xid : Z) (buf : bytes) : outcome pyexn bytes :=
  hdr ← pack [(1%nat, OFP_VERSION); (1%nat, msg_type); (2%nat, Z.of_nat (length buf)); (4%nat, xid)];
  Ret (msg_pack_into buf 0 hdr).

(** ** Flow entries *)

Section flow_mod.
Context `{AddrConv} `{NxActions}.

Record flow_mod := OFPFlowMod {
  cookie : Z;
  cookie_mask : Z;
  table_id : Z;
  command : Z;
  idle_timeout : Z;
  hard_timeout : Z;
  priority : Z;
  buffer_id : Z;
  out_port : Z;
  out_group : Z;
  flags : Z;
  fm_match : ofp_match;
  instructions : list instruction
}.

(** The fields of [OFP_FLOW_MOD_PACK_STR0], which ends with two padding bytes. *)
Definition flow_mod_fields (fm : flow_mod) : list (nat * Z) :=
  [(8%nat, cookie fm); (8%nat, cookie_mask fm); (1%nat, table_id fm); (1%nat, command fm); (2%nat, idle_timeout fm); (2%nat, hard_timeout fm);
   (2%nat, priority fm); (4%nat, buffer_id fm); (4%nat, out_port fm); (4%nat, out_group fm); (2%nat, flags fm)].

Fixpoint serialize_instructions (l : list instruction) (buf : bytes) (offset : nat) : outcome pyexn bytes :=
  match l with
  | [] => Ret buf
  | i :: l =>
      '((buf, len) : bytes * nat) ← serialize_instruction i buf offset;
      serialize_instructions l buf (offset + len)
  end.

(** [OFPFlowMod._serialize_body] between the other two steps of [MsgBase.serialize]. *)
Definition serialize_flow_mod (xid : Z) (fm : flow_mod) : outcome pyexn bytes :=
  b ← pack (flow_mod_fields fm);
  let buf := msg_pack_into msg_pre 8 (b ++ replicate 2 0) in
  let offset := (56 - 8)%nat in
  '((_, buf, match_len) : ofp_match * bytes * nat) ← serialize_match (fm_match fm) buf offset;
  buf ← serialize_instructions (instructions fm) buf (offset + match_len);
  serialize_header OFPT_FLOW_MOD xid buf.

(** The loop over the instructions, on the bytes from [offset] on; it goes on by their [len].
    [rest] counts the bytes up to the length of the message. *)
Fixpoint parse_instructions (fuel : nat) (rest : Z) (buf : bytes) : outcome pyexn (list instruction * option bytes) :=
  if rest <=? 0 then Ret ([], None)
  else
    match fuel with
    | O => Raise OutOfFuel
    | S fuel =>
        match parse_instruction buf with
        | Raise StructError => Ret ([], Some buf)
        | Raise e => Raise e
        | Ret (Truncated (i, _) residue) => Ret ([i], Some residue)
        | Ret (Whole (i, len)) =>
            '(l, residue) ← parse_instructions fuel (rest - len) (drop (Z.to_nat len) buf);
            Ret (i :: l, residue)
        end
    end.

(** [OFPFlowMod.parser] *)
Definition parse_flow_mod (buf : bytes) (msg_len : Z) : outcome pyexn (trunc flow_mod) :=
  '(fields, _) ← unpack_s 40 (drop 8 buf);
  zs ← unpack [8; 8; 1; 1; 2; 2; 2; 4; 4; 4; 2]%nat fields;
  match zs with
  | [cookie; cookie_mask; table_id; command; idle; hard; priority; buffer_id; out_port; out_group; flags] =>
      let make := OFPFlowMod cookie cookie_mask table_id command idle hard priority buffer_id out_port out_group flags in
      m ← parse_match (drop 48 buf);
      match m with
      | Truncated m residue => Ret (Truncated (make m []) residue)
      | Whole m =>
          let offset := (48 + round_up (Z.to_nat (default 0%Z (m_length m))) 8)%nat in
          '((l, residue) : list instruction * option bytes) ←
            parse_instructions (S (length buf)) (msg_len - Z.of_nat offset) (drop offset buf);
          Ret (match residue with None => Whole (make m l) | Some residue => Truncated (make m l) residue end)
      end
  | _ => Raise ValueError
  end.
End flow_mod.

(** ** Packets *)

Section packets.
Context `{AddrConv} `{NxActions}.

Record packet_out := OFPPacketOut { po_buffer_id : Z; po_in_port : Z; po_actions : list action; po_data : option bytes }.

(** [OFPPacketOut._serialize_body]: the actions are written behind the place of the header, the
    data at the end of what the buffer holds then, the header last. *)
Definition serialize_packet_out (xid : Z) (po : packet_out) : outcome pyexn bytes :=
  '((buf, offset) : bytes * nat) ← serialize_actions (po_actions po) msg_pre 24;
  let actions_len := (offset - 24)%nat in
  buf ← match po_data po with
        | Some data => check (po_buffer_id po =? OFP_NO_BUFFER);; Ret (buf ++ data)
        | None => Ret buf
        end;
  b ← pack [(4%nat, po_buffer_id po); (4%nat, po_in_port po); (2%nat, Z.of_nat actions_len)];
  serialize_header OFPT_PACKET_OUT xid (msg_pack_into buf 8 (b ++ replicate 6 0)).

Record packet_in := OFPPacketIn {
  pi_buffer_id : Z;
  total_len : Z;
  reason : Z;
  pi_table_id : Z;
  pi_cookie : Z;
  pi_match : ofp_match;
  pi_data : bytes
}.

(** [OFPPacketIn.parser]; the exception of a match that is cut off is not caught. *)
Definition parse_packet_in (buf : bytes) : outcome pyexn (trunc ofp_match + packet_in) :=
  '(fields, _) ← unpack_s 16 (drop 8 buf);
  zs ← unpack [4; 2; 1; 1; 8]%nat fields;
  match zs with
  | [buffer_id; total_len; reason; table_id; cookie] =>
      m ← parse_match (drop 24 buf);
      match m with
      | Truncated _ _ => Ret (inl m)
      | Whole m =>
          let match_len := round_up (Z.to_nat (default 0%Z (m_length m))) 8 in
          let data := drop (24 + match_len + 2) buf in
          let data := if total_len <? Z.of_nat (length data) then take (Z.to_nat total_len) data else data in
          Ret (inr (OFPPacketIn buffer_id total_len reason table_id cookie m data))
      end
  | _ => Raise ValueError
  end.
End packets.

(** ** Round trips *)

Section flow_mod_roundtrip.
Context `{AddrConv, !AddrConvLaws} `{NxActions, !NxActionLaws}.

Lemma serialize_instructions_ok l bss buf :
  Forall2 instruction_writes l bss → serialize_instructions l buf (length buf) = Ret (buf ++ mjoin bss).
Proof.
  intros Hl. revert buf. induction Hl as [|i bs l bss (Hser & _) _ IH]; intros buf; cbn [serialize_instructions]; [by rewrite app_nil_r|].
  rewrite Hser. cbn [mbind outcome_bind]. rewrite <- length_app, IH. change (mjoin (bs :: bss)) with (bs ++ mjoin bss). by rewrite <- app_assoc.
Qed.

Lemma parse_instructions_ok l bss fuel :
  Forall2 instruction_writes l bss → (length (mjoin bss) < fuel)%nat →
  parse_instructions fuel (Z.of_nat (length (mjoin bss))) (mjoin bss) = Ret (l, None).
Proof.
  intros Hl. revert fuel. induction Hl as [|i bs l bss Hi _ IH]; intros fuel Hf; [by destruct fuel|].
  change (mjoin (bs :: bss)) with (bs ++ mjoin bss) in *. destruct Hi as (_ & _ & _ & Hpos & Hparse). rewrite length_app in *.
  destruct fuel as [|fuel]; [lia|]. cbn [parse_instructions]. rewrite (proj2 (Z.leb_gt _ 0)) by lia. rewrite Hparse, Nat2Z.id, drop_app_length.
  replace (Z.of_nat _ - _) with (Z.of_nat (length (mjoin bss))) by lia. by rewrite IH by lia.
Qed.

Lemma instructions_bytes l bss : Forall2 instruction_writes l bss → Forall is_byte (mjoin bss) ∧ (length (mjoin bss) mod 8 = 0)%nat.
Proof.
  induction 1 as [|a bs l bss (_ & Hb & Hm & _) _ [IHb IHm]]; [by split; [constructor|]|]. change (mjoin (bs :: bss)) with (bs ++ mjoin bss).
  rewrite Forall_app, length_app. split; [done|]. by rewrite Nat.Div0.add_mod, Hm, IHm.
Qed.

Lemma instructions_roundtrip l : Forall instruction_ok l → ∃ bss, Forall2 instruction_writes l bss.
Proof.
  induction 1 as [|a l Ha _ [bss IH]]; [by exists []|]. destruct (instruction_roundtrip a Ha) as [bs Hbs]. exists (bs :: bss). by constructor.
Qed.

Definition instructions_length (l : list instruction) : nat :=
  match serialize_instructions l [] 0 with Ret bs => length bs | Raise _ => 0 end.

Lemma instructions_length_ok l bss : Forall2 instruction_writes l bss → instructions_length l = length (mjoin bss).
Proof. intros Hl. unfold instructions_length. pose proof (serialize_instructions_ok l bss [] Hl) as E. cbn [length] in E. by rewrite E. Qed.

(** A flow entry whose fields fit, with a match that was constructed and room for it. *)
Definition flow_mod_ok (fm : flow_mod) : Prop :=
  Forall in_width (flow_mod_fields fm) ∧
  (∃ kwargs, known_kwargs kwargs ∧ new_match kwargs = Ret (fm_match fm)) ∧
  Forall instruction_ok (instructions fm) ∧ Z.of_nat (instructions_length (instructions fm)) ≤ 60000.

(** The entry as the decoder sees it: the match knows its length. *)
Definition with_match_length (fm : flow_mod) (len : Z) : flow_mod :=
  OFPFlowMod (cookie fm) (cookie_mask fm) (table_id fm) (command fm) (idle_timeout fm) (hard_timeout fm) (priority fm) (buffer_id fm)
    (out_port fm) (out_group fm) (flags fm) (OFPMatch OFPMT_OXM (Some len) (_fields2 (fm_match fm))) (instructions fm).

(** The header of a message in its place. *)
Lemma serialize_header_ok msg_type xid body :
  0 ≤ msg_type < 256 → 0 ≤ xid < 2 ^ 32 → Z.of_nat (8 + length body) < 65536 →
  serialize_header msg_type xid (msg_pre ++ body) =
    Ret ((be_bytes 1 OFP_VERSION ++ be_bytes 1 msg_type ++ be_bytes 2 (Z.of_nat (8 + length body)) ++ be_bytes 4 xid) ++ body).
Proof.
  intros Ht Hx Hl. unfold serialize_header. rewrite length_app. change (length msg_pre) with 8%nat.
  assert (pack [(1%nat, OFP_VERSION); (1%nat, msg_type); (2%nat, Z.of_nat (8 + length body)); (4%nat, xid)] =
    Ret (be_bytes 1 OFP_VERSION ++ be_bytes 1 msg_type ++ be_bytes 2 (Z.of_nat (8 + length body)) ++ be_bytes 4 xid)) as ->.
  { cbn [pack]. rewrite !pack_field_ok; [|done| |done|done]; [|change (256 ^ Z.of_nat 2) with 65536; lia]. cbn [mbind outcome_bind]. by rewrite app_nil_r. }
  cbn [mbind outcome_bind]. f_equal. apply (msg_pack_into_middle [] msg_pre). by rewrite !length_app, !length_be_bytes.
Qed.

(** The fields of a flow entry, read back. *)
Lemma flow_mod_fields_read fm :
  Forall in_width (flow_mod_fields fm) →
  ∃ b, pack (flow_mod_fields fm) = Ret b ∧ Forall is_byte b ∧ length b = 38%nat ∧
    ∀ rest, unpack [8; 8; 1; 1; 2; 2; 2; 4; 4; 4; 2]%nat (b ++ rest) = Ret (flow_mod_fields fm).*2.
Proof.
  intros Hf. destruct (pack_ok _ Hf) as [b Eb]. exists b. split; [done|]. split; [by apply pack_bytes in Eb|].
  split; [by apply pack_length in Eb|]. intros rest.
  apply (unpack_pack [8; 8; 1; 1; 2; 2; 2; 4; 4; 4; 2]%nat (flow_mod_fields fm).*2 b rest); [done|exact Eb].
Qed.

(** C3: A flow entry whose fields are in their ranges, with a match that was constructed from known
    fields and instructions that can be encoded, is encoded into a message of the length its header
    says, a multiple of 8, and read as it was. *)
Theorem flow_mod_roundtrip xid fm :
  flow_mod_ok fm → 0 ≤ xid < 2 ^ 32 →
  ∃ bs len, serialize_flow_mod xid fm = Ret bs ∧ Forall is_byte bs ∧ (length bs mod 8 = 0)%nat ∧
    take 8 bs = be_bytes 1 OFP_VERSION ++ be_bytes 1 OFPT_FLOW_MOD ++ be_bytes 2 (Z.of_nat (length bs)) ++ be_bytes 4 xid ∧
    parse_flow_mod bs (Z.of_nat (length bs)) = Ret (Whole (with_match_length fm len)).
Proof.
  intros (Hf & (kwargs & Hk & Em) & Hi & Hlen) Hx. destruct (instructions_roundtrip _ Hi) as [bss Hbss].
  rewrite (instructions_length_ok _ _ Hbss) in Hlen. destruct (instructions_bytes _ _ Hbss) as [Hib Him].
  destruct (match_encoded kwargs _ Hk Em) as (mb & mlen & Eser & Hmb & Hml & Hmsize & Hparse).
  destruct (flow_mod_fields_read fm Hf) as (b & Eb & Hbb & Hbl & Hread).
  set (body := (b ++ replicate 2 0) ++ mb ++ mjoin bss). destruct (round_up_spec (Z.to_nat mlen)) as [_ Hmod].
  assert (length body = 40 + length mb + length (mjoin bss))%nat as Hbody by (unfold body; rewrite !length_app, length_replicate; lia).
  exists ((be_bytes 1 OFP_VERSION ++ be_bytes 1 OFPT_FLOW_MOD ++ be_bytes 2 (Z.of_nat (8 + length body)) ++ be_bytes 4 xid) ++ body), mlen.
  assert (∀ h, length h = 8%nat → length (h ++ body) = (8 + length body)%nat) as Hh by (intros h E; by rewrite length_app, E).
  rewrite Hh by (by rewrite !length_app, !length_be_bytes). split_and!.
  - unfold serialize_flow_mod. rewrite Eb. cbn [mbind outcome_bind]. change 8%nat with (length msg_pre) at 1. rewrite msg_pack_into_end.
    replace (56 - 8)%nat with (length (msg_pre ++ b ++ replicate 2 0%Z)) by (rewrite !length_app, length_replicate, Hbl; done).
    rewrite Eser. cbn [mbind outcome_bind].
    match goal with |- context [serialize_instructions _ ?w ?n] => replace n with (length w) by (rewrite !length_app, length_replicate, Hbl; done) end.
    rewrite (serialize_instructions_ok _ bss) by done. cbn [mbind outcome_bind].
    replace (((msg_pre ++ b ++ replicate 2 0) ++ mb) ++ mjoin bss) with (msg_pre ++ body) by (unfold body; by rewrite <- !app_assoc).
    apply serialize_header_ok; [done|done|lia].
  - unfold body. bytes.
  - rewrite Hbody, Hml. replace (8 + (40 + round_up (Z.to_nat mlen) 8 + length (mjoin bss)))%nat with (round_up (Z.to_nat mlen) 8 + length (mjoin bss) + 6 * 8)%nat by lia.
    rewrite Nat.Div0.mod_add, Nat.Div0.add_mod, Hmod, Him. done.
  - by rewrite take_app_length' by (by rewrite !length_app, !length_be_bytes).
  - set (hdr := be_bytes 1 OFP_VERSION ++ _). assert (length hdr = 8%nat) as Hhdr by (unfold hdr; by rewrite !length_app, !length_be_bytes).
    unfold parse_flow_mod. assert (drop 8 (hdr ++ body) = body) as -> by (by apply drop_app_length').
    assert (drop 48 (hdr ++ body) = mb ++ mjoin bss) as ->.
    { unfold body. rewrite app_assoc. apply drop_app_length'. rewrite !length_app, length_replicate, Hhdr, Hbl. done. }
    assert (unpack_s 40 body = Ret (b ++ replicate 2 0, mb ++ mjoin bss)) as -> by (apply unpack_s_app; by rewrite length_app, length_replicate, Hbl).
    cbn [mbind outcome_bind]. rewrite Hread.
    cbn [mbind outcome_bind flow_mod_fields fmap list_fmap snd]. rewrite Hparse. cbn [mbind outcome_bind m_length default from_option id].
    rewrite <- Hml. assert (drop (48 + length mb) (hdr ++ body) = mjoin bss) as ->.
    { unfold body. rewrite !app_assoc. apply drop_app_length'. rewrite !length_app, length_replicate, Hhdr, Hbl. lia. }
    replace (Z.of_nat (8 + length body) - Z.of_nat (48 + length mb)) with (Z.of_nat (length (mjoin bss))) by lia.
    rewrite (parse_instructions_ok (instructions fm) bss); [done|done|]. rewrite length_app. lia.
Qed.
End flow_mod_roundtrip.

(** ** Packets that go out and come in *)

Section packet_theorems.
Context `{AddrConv, !AddrConvLaws} `{NxActions, !NxActionLaws}.

(** A packet out that has actions: the data follows them, and they are read back from the message
    by the [actions_len] that it carries. *)
Definition packet_out_ok (po : packet_out) : Prop :=
  0 ≤ po_buffer_id po < 2 ^ 32 ∧ 0 ≤ po_in_port po < 2 ^ 32 ∧ po_actions po ≠ [] ∧ Forall action_ok (po_actions po) ∧
  (is_Some (po_data po) → po_buffer_id po = OFP_NO_BUFFER) ∧
  Z.of_nat (24 + actions_length (po_actions po) + length (default [] (po_data po))) < 2 ^ 16.

(** C32: A packet out with actions is written as a header with its length, the fields, the actions
    and the data, and the actions that a decoder finds by their length are those of the message. *)
Theorem packet_out_written xid po :
  packet_out_ok po → 0 ≤ xid < 2 ^ 32 →
  ∃ acts bs, serialize_packet_out xid po = Ret bs ∧
    bs = (be_bytes 1 OFP_VERSION ++ be_bytes 1 OFPT_PACKET_OUT ++ be_bytes 2 (Z.of_nat (length bs)) ++ be_bytes 4 xid) ++
      (be_bytes 4 (po_buffer_id po) ++ be_bytes 4 (po_in_port po) ++ be_bytes 2 (Z.of_nat (length acts)) ++ replicate 6 0) ++
      acts ++ default [] (po_data po) ∧
    parse_actions (S (length acts)) (Z.of_nat (length acts)) (drop 24 bs) = Ret (po_actions po, None).
Proof.
  intros (Hb & Hp & Hne & Hok & Hbuf & Hl) Hx. destruct (actions_roundtrip _ Hok) as [bss Hbss]. rewrite (actions_length_ok _ _ Hbss) in Hl.
  set (acts := mjoin bss) in *. set (data := default [] (po_data po)) in *.
  set (fields := be_bytes 4 (po_buffer_id po) ++ be_bytes 4 (po_in_port po) ++ be_bytes 2 (Z.of_nat (length acts)) ++ replicate 6 0).
  assert (length (fields ++ acts ++ data) = 16 + length acts + length data)%nat as Ebody by (unfold fields; rewrite !length_app, !length_be_bytes, length_replicate; lia).
  exists acts. set (hdr := λ n, be_bytes 1 OFP_VERSION ++ be_bytes 1 OFPT_PACKET_OUT ++ be_bytes 2 (Z.of_nat n) ++ be_bytes 4 xid).
  assert (∀ n, length (hdr n) = 8%nat) as Ehdr by (intros n; unfold hdr; by rewrite !length_app, !length_be_bytes).
  exists (hdr (8 + length (fields ++ acts ++ data))%nat ++ fields ++ acts ++ data). split_and!.
  - unfold serialize_packet_out. pose proof (serialize_actions_gap _ bss msg_pre 16 Hbss Hne) as Eacts. change (length msg_pre + 16)%nat with 24%nat in Eacts.
    rewrite Eacts. cbn [mbind outcome_bind]. fold acts. replace (24 + length acts - 24)%nat with (length acts) by lia.
    assert (∀ w, match po_data po with Some data => check (po_buffer_id po =? OFP_NO_BUFFER);; Ret (w ++ data) | None => Ret w end = Ret (w ++ data) :> outcome pyexn bytes) as ->.
    { intros w. subst data. destruct (po_data po); [rewrite (Hbuf ltac:(done)); done|by rewrite app_nil_r]. }
    cbn [mbind outcome_bind pack]. rewrite !pack_field_ok by (done || (change (256 ^ Z.of_nat 2) with 65536; lia)). cbn [mbind outcome_bind].
    rewrite app_nil_r, <- !app_assoc. fold fields. rewrite (msg_pack_into_middle msg_pre (replicate 16 0) fields) by (unfold fields; by rewrite !length_app, !length_be_bytes).
    rewrite serialize_header_ok by (done || lia). done.
  - set (body := fields ++ acts ++ data) in *. change (hdr (8 + length body)%nat ++ body = hdr (length (hdr (8 + length body)%nat ++ body)) ++ body).
    rewrite (length_app (hdr _)), Ehdr. done.
  - assert (∀ h, length h = 8%nat → drop 24 (h ++ fields ++ acts ++ data) = acts ++ data) as Hd.
    { intros h Eh. rewrite app_assoc. apply drop_app_length'. unfold fields. rewrite !length_app, !length_be_bytes, length_replicate, Eh. done. }
    rewrite Hd by done. apply parse_actions_ok; [done|apply Nat.lt_succ_diag_r].
Qed.

(** The fixed part of a packet in. *)
Definition packet_in_fields (p : packet_in) : list (nat * Z) :=
  [(4%nat, pi_buffer_id p); (2%nat, total_len p); (1%nat, reason p); (1%nat, pi_table_id p); (8%nat, pi_cookie p)].

(** Of a packet in, the decoder reads the fields and the match, and takes as data what follows
    the two bytes of padding, without the bytes beyond [total_len] that align the message. *)
Theorem packet_in_read p kwargs hdr padding trailer :
  known_kwargs kwargs → new_match kwargs = Ret (pi_match p) → Forall in_width (packet_in_fields p) →
  length hdr = 8%nat → length padding = 2%nat → (trailer ≠ [] → total_len p = Z.of_nat (length (pi_data p))) →
  Z.of_nat (length (pi_data p)) ≤ total_len p →
  ∃ fields m len, pack (packet_in_fields p) = Ret fields ∧
    serialize_match (pi_match p) [] 0 = Ret (OFPMatch OFPMT_OXM (Some len) (_fields2 (pi_match p)), m, length m) ∧
    parse_packet_in (hdr ++ fields ++ m ++ padding ++ pi_data p ++ trailer) =
      Ret (inr (OFPPacketIn (pi_buffer_id p) (total_len p) (reason p) (pi_table_id p) (pi_cookie p)
        (OFPMatch OFPMT_OXM (Some len) (_fields2 (pi_match p))) (pi_data p))).
Proof.
  intros Hk Em Hf Hh Hpad Ht Htot. destruct (match_encoded kwargs _ Hk Em) as (mb & mlen & Eser & _ & Hml & _ & Hparse).
  destruct (pack_ok _ Hf) as [b Eb]. exists b, mb, mlen. split; [done|]. split; [exact (Eser [])|].
  assert (length b = 16%nat) as Hbl by (by apply pack_length in Eb).
  set (tail := padding ++ pi_data p ++ trailer). unfold parse_packet_in.
  assert (drop 8 (hdr ++ b ++ mb ++ tail) = b ++ mb ++ tail) as -> by (by apply drop_app_length').
  rewrite unpack_s_app by done. cbn [mbind outcome_bind].
  assert (unpack [4; 2; 1; 1; 8]%nat (b ++ []) = Ret (packet_in_fields p).*2) as Eu
    by (apply (unpack_pack [4; 2; 1; 1; 8]%nat (packet_in_fields p).*2 b []); [done|exact Eb]).
  rewrite app_nil_r in Eu. rewrite Eu. cbn [mbind outcome_bind packet_in_fields fmap list_fmap snd].
  assert (drop 24 (hdr ++ b ++ mb ++ tail) = mb ++ tail) as -> by (rewrite app_assoc; apply drop_app_length'; by rewrite length_app, Hh, Hbl).
  rewrite Hparse. cbn [mbind outcome_bind m_length default from_option id]. rewrite <- Hml.
  assert (drop (24 + length mb + 2) (hdr ++ b ++ mb ++ tail) = pi_data p ++ trailer) as ->.
  { unfold tail. rewrite !app_assoc, <- (app_assoc _ (pi_data p)). apply drop_app_length'. rewrite !length_app, Hh, Hbl, Hpad. lia. }
  do 4 f_equal. rewrite length_app. destruct (Z.ltb_spec (total_len p) (Z.of_nat (length (pi_data p) + length trailer))) as [Hlt|Hge].
  - assert (trailer ≠ []) as Htr by (intros ->; cbn in Hlt; lia). rewrite (Ht Htr), Nat2Z.id. apply take_app_length.
  - destruct trailer as [|x trailer]; [apply app_nil_r|]. rewrite Ht in Hge by done. cbn in Hge. lia.
Qed.
End packet_theorems.

(** ** Examples *)

Section examples.
Import PlainConv UnknownNx.

Definition sample_match : ofp_match := OFPMatch OFPMT_OXM None sample_fields.

Definition sample_flow : flow_mod :=
  OFPFlowMod 0x1122334455667788 (2 ^ 64 - 1) 0 0 30 60 1000 OFP_NO_BUFFER 0xffffffff 0xffffffff 1 sample_match
    [OFPInstructionActions OFPIT_APPLY_ACTIONS
       [OFPActionSetField "eth_type" (UInt 0x86dd); OFPActionDecNwTtl; OFPActionOutput 2 0xffff; NXAction (2000, replicate 6 7)];
     OFPInstructionWriteMetadata 5 255; OFPInstructionGotoTable 3].

Lemma sample_set_field : ∃ f v, canonical f v None "eth_type" (Exact (UInt 0x86dd)).
Proof.
  exists (OpenFlowBasic "eth_type" 5 Int2), [0x86; 0xdd].
  split; [|split; [reflexivity|split; vm_compute; reflexivity]].
  split; [exact (proj1 (by_name_known "eth_type" (OpenFlowBasic "eth_type" 5 Int2) eq_refl))|].
  split; [split; [reflexivity|by apply (bool_decide_unpack _); vm_compute]|done].
Qed.

Lemma sample_flow_ok : flow_mod_ok sample_flow.
Proof.
  split; [by apply (bool_decide_unpack _); vm_compute|]. split.
  { exists sample_kwargs. split; [apply sample_known|vm_compute; reflexivity]. }
  split; [|vm_compute; discriminate].
  repeat constructor; cbn; try lia; try exact sample_set_field.
Qed.

Lemma flow_mod_roundtrip_witness :
  ∃ bs len, serialize_flow_mod 7 sample_flow = Ret bs ∧ Forall is_byte bs ∧ (length bs mod 8 = 0)%nat ∧
    take 8 bs = be_bytes 1 OFP_VERSION ++ be_bytes 1 OFPT_FLOW_MOD ++ be_bytes 2 (Z.of_nat (length bs)) ++ be_bytes 4 7 ∧
    parse_flow_mod bs (Z.of_nat (length bs)) = Ret (Whole (with_match_length sample_flow len)).
Proof. apply (flow_mod_roundtrip 7 sample_flow); [exact sample_flow_ok|lia]. Defined.

Definition sample_out : packet_out := OFPPacketOut OFP_NO_BUFFER 1 [OFPActionOutput 2 0xffff] (Some [1; 2; 3]).

Lemma packet_out_written_witness :
  ∃ acts bs, serialize_packet_out 7 sample_out = Ret bs ∧
    bs = (be_bytes 1 OFP_VERSION ++ be_bytes 1 OFPT_PACKET_OUT ++ be_bytes 2 (Z.of_nat (length bs)) ++ be_bytes 4 7) ++
      (be_bytes 4 OFP_NO_BUFFER ++ be_bytes 4 1 ++ be_bytes 2 (Z.of_nat (length acts)) ++ replicate 6 0) ++ acts ++ [1; 2; 3] ∧
    parse_actions (S (length acts)) (Z.of_nat (length acts)) (drop 24 bs) = Ret ([OFPActionOutput 2 0xffff], None).
Proof.
  apply (packet_out_written 7 sample_out); [|lia]. split; [done|]. split; [done|]. split; [done|].
  split; [by repeat constructor|]. split; [done|]. vm_compute. reflexivity.
Defined.

Lemma packet_in_read_witness :
  let p := OFPPacketIn OFP_NO_BUFFER 3 0 0 9 sample_match [1; 2; 3] in
  ∃ fields m len, pack (packet_in_fields p) = Ret fields ∧
    serialize_match sample_match [] 0 = Ret (OFPMatch OFPMT_OXM (Some len) (_fields2 sample_match), m, length m) ∧
    parse_packet_in (replicate 8 0 ++ fields ++ m ++ [0; 0] ++ [1; 2; 3] ++ [0; 0; 0]) =
      Ret (inr (OFPPacketIn OFP_NO_BUFFER 3 0 0 9 (OFPMatch OFPMT_OXM (Some len) (_fields2 sample_match)) [1; 2; 3])).
Proof.
  apply (packet_in_read (OFPPacketIn OFP_NO_BUFFER 3 0 0 9 sample_match [1; 2; 3]) sample_kwargs (replicate 8 0) [0; 0] [0; 0; 0]);
    [apply sample_known|vm_compute; reflexivity|by repeat constructor|done|done|done|done].
Defined.
End examples.

Module OfpMessageFaults.
Import PlainConv UnknownNx.

(** Without actions the data is appended where the fields belong, which are written over it. *)
Definition no_actions : packet_out := OFPPacketOut OFP_NO_BUFFER 1 [] (Some [1; 2; 3; 4; 5; 6; 7; 8; 9; 10; 11; 12; 13; 14; 15; 16; 17; 18]).

Example data_overwritten : (drop 24 <$> match serialize_packet_out 0 no_actions with Ret bs => Some bs | Raise _ => None end) = Some [17; 18].
Proof. reflexivity. Qed.

(** Behind an experimenter action whose payload is not aligned the data is not where the length of
    the actions says. *)
Definition unaligned : packet_out := OFPPacketOut OFP_NO_BUFFER 1 [OFPActionExperimenterUnknown 1 (Some [7])] (Some [1; 2; 3]).

Example data_misplaced :
  (drop 24 <$> match serialize_packet_out 0 unaligned with Ret bs => Some bs | Raise _ => None end) =
    Some [0xff; 0xff; 0; 16; 0; 0; 0; 1; 7; 1; 2; 3].
Proof. reflexivity. Qed.

(** An instruction of a type that has no class. *)
Example unknown_instruction : parse_instruction [0; 7; 0; 8; 0; 0; 0; 0] = Raise AttributeError.
Proof. reflexivity. Qed.

(** A list of instructions with one of length 0 never ends. *)
Lemma empty_instruction_hangs fuel rest : 0 < rest → parse_instructions fuel rest [0; 4; 0; 0; 0; 0; 0; 0] = Raise OutOfFuel.
Proof.
  intros Hr. induction fuel as [|fuel IH]; cbn [parse_instructions]; rewrite (proj2 (Z.leb_gt rest 0)) by done; [done|].
  assert (parse_instruction [0; 4; 0; 0; 0; 0; 0; 0] = Ret (Whole (OFPInstructionActions 4 [], 0))) as -> by reflexivity.
  rewrite Z.sub_0_r. change (drop (Z.to_nat 0) ?b) with b. by rewrite IH.
Qed.
End OfpMessageFaults.
