(* ===== verification/Circlist.v ===== *)
(** * Circular lists and their interface

    Models [ryu/services/protocols/bgp/utils/circlist.py]: doubly linked circular
    lists whose links are attributes of the nodes themselves.  The store is the two
    attributes of every node ([heap]); an absent attribute is an absent key, reading
    it gives [None] as [node_next] and [node_prev] do.  The list object is itself
    the head node.  Nodes are identified by integers; two nodes are equal when they
    are the same node.

    [clist h head xs] says that [h] holds the list [xs] at [head]; every operation
    refines the operation on [xs] and changes no node off the list ([agree_off]).
    The class [LinkedQueue] is what the users of the lists rely on. *)

From stdpp Require Import base list gmap sets.
From Stdlib Require Import ZArith Lia.
From S2P Require Import Prelude.

(** ** The operations *)

Record heap := Heap {
  nexts : gmap Z Z;
  prevs : gmap Z Z
}.

#[export] Instance eta_heap : Eta heap := EtaBox (λ h, Heap (nexts h) (prevs h)).

Abbreviation HM := (M heap pyexn Empty_set).

Definition node_next (node : Z) : HM (option Z) := gets (λ h, nexts h !! node).
Definition node_prev (node : Z) : HM (option Z) := gets (λ h, prevs h !! node).
Definition node_set_next (node next : Z) : HM () :=
  modify (λ h, h <| nexts ::= <[node := next]> |>).
Definition node_set_prev (node prev : Z) : HM () :=
  modify (λ h, h <| prevs ::= <[node := prev]> |>).

(** The first missing attribute ends the deletion. *)
Definition node_del_attrs (node : Z) : HM () :=
  next ← node_next node;
  match next : option Z with
  | None => mret tt
  | Some _ =>
      modify (λ h, h <| nexts ::= base.delete node |>);;
      modify (λ h, h <| prevs ::= base.delete node |>)
  end.

Definition node_is_on_list (node : Z) : HM bool :=
  next ← node_next node;
  if bool_decide (next = Some node ∨ next = None) then
    prev ← node_prev node;
    assert_ (bool_decide (prev = next)) AssertionError;;
    mret false
  else mret true.

Definition node_init (node : Z) : HM () :=
  on ← node_is_on_list node;
  assert_ (negb on) AssertionError;;
  node_set_next node node;;
  node_set_prev node node.

Definition node_insert_after (node new_node : Z) : HM () :=
  on ← node_is_on_list new_node;
  assert_ (negb on) AssertionError;;
  assert_ (negb (node =? new_node)) AssertionError;;
  next ← node_next node;
  match next : option Z with
  | None => raise AssertionError
  | Some next =>
      node_set_next node new_node;;
      node_set_prev new_node node;;
      node_set_next new_node next;;
      node_set_prev next new_node
  end.

Definition node_insert_before (node new_node : Z) : HM () :=
  on ← node_is_on_list new_node;
  assert_ (negb on) AssertionError;;
  assert_ (negb (node =? new_node)) AssertionError;;
  prev ← node_prev node;
  match prev : option Z with
  | None => raise AssertionError
  | Some prev =>
      node_set_prev node new_node;;
      node_set_next new_node node;;
      node_set_prev new_node prev;;
      node_set_next prev new_node
  end.

(** Setting an attribute of [None] raises [AttributeError]. *)
Definition node_unlink (node : Z) : HM () :=
  on ← node_is_on_list node;
  if on : bool then
    prev ← node_prev node;
    next ← node_next node;
    match prev : option Z, next : option Z with
    | Some prev, Some next =>
        node_set_next prev next;;
        node_set_prev next prev;;
        node_set_next node node;;
        node_set_prev node node
    | _, _ => raise AttributeError
    end
  else mret tt.

(** ** The list object *)

Definition list_init (head : Z) : HM () := node_init head.

Definition is_empty (head : Z) : HM bool :=
  on ← node_is_on_list head;
  mret (negb on).

Definition is_on_list (node : Z) : HM bool := node_is_on_list node.
Definition append (head node : Z) : HM () := node_insert_before head node.
Definition prepend (head node : Z) : HM () := node_insert_after head node.

Definition remove (node : Z) : HM () :=
  node_unlink node;;
  node_del_attrs node.

Definition pop_first (head : Z) : HM (option Z) :=
  node ← node_next head;
  match node : option Z with
  | None => raise AttributeError
  | Some node =>
      if node =? head then mret None
      else remove node;; mret (Some node)
  end.

(** [for node in self: body(node)]: the generator reads the successor of a node
    before the body runs.  [None] has no attributes: its successor is [None]. *)
Definition opt_next (node : option Z) : HM (option Z) :=
  match node : option Z with
  | Some n => node_next n
  | None => mret None
  end.

Fixpoint generate (fuel : nat) (head : Z) (node next : option Z)
    (body : option Z → HM ()) : HM () :=
  if bool_decide (node = Some head) then mret tt else
  match fuel with
  | O => raise OutOfFuel
  | S fuel =>
      body node;;
      next' ← opt_next next;
      generate fuel head next next' body
  end.

Definition for_node (fuel : nat) (head : Z) (body : option Z → HM ()) : HM () :=
  node ← node_next head;
  next ← opt_next node;
  generate fuel head node next body.

Definition clear (fuel : nat) (head : Z) : HM () :=
  for_node fuel head (λ node,
    match node with
    | Some n => remove n
    | None => mret tt
    end).

(** ** Representation of a list *)

Fixpoint seg (h : heap) (a : Z) (xs : list Z) (b : Z) : Prop :=
  match xs with
  | [] => nexts h !! a = Some b ∧ prevs h !! b = Some a
  | x :: xs' => nexts h !! a = Some x ∧ prevs h !! x = Some a ∧ seg h x xs' b
  end.

Definition clist (h : heap) (head : Z) (xs : list Z) : Prop :=
  NoDup (head :: xs) ∧ seg h head xs head.

(** A node that is on no list. *)
Definition unlinked (h : heap) (x : Z) : Prop :=
  nexts h !! x = prevs h !! x ∧ (nexts h !! x = None ∨ nexts h !! x = Some x).

(** The links of the nodes off [fp] are the same. *)
Definition agree_off (fp : list Z) (h h' : heap) : Prop :=
  ∀ y, y ∉ fp → nexts h' !! y = nexts h !! y ∧ prevs h' !! y = prevs h !! y.

Fixpoint last_or (a : Z) (xs : list Z) : Z :=
  match xs with [] => a | x :: xs' => last_or x xs' end.

Definition head_or (xs : list Z) (b : Z) : Z :=
  match xs with [] => b | x :: _ => x end.

Lemma last_or_elem a xs : last_or a xs ∈ a :: xs.
Proof.
  revert a. induction xs as [|x xs IH]; intros a; cbn; [by left|].
  right. apply IH.
Qed.

Lemma last_or_app a xs x ys : last_or a (xs ++ x :: ys) = last_or x ys.
Proof. revert a. induction xs as [|y xs IH]; intros a; cbn; [done|apply IH]. Qed.

Lemma head_or_elem xs b : head_or xs b ∈ xs ++ [b].
Proof. destruct xs; cbn; set_solver. Qed.

Lemma seg_app h a xs x ys b :
  seg h a (xs ++ x :: ys) b ↔ seg h a xs x ∧ seg h x ys b.
Proof.
  revert a. induction xs as [|y xs IH]; intros a; cbn; [tauto|].
  rewrite IH. tauto.
Qed.

Lemma seg_last h a xs b : seg h a xs b → prevs h !! b = Some (last_or a xs).
Proof.
  revert a. induction xs as [|x xs IH]; intros a; cbn; [tauto|].
  intros (_ & _ & ?). by apply IH.
Qed.

Lemma seg_head h a xs b : seg h a xs b → nexts h !! a = Some (head_or xs b).
Proof. destruct xs; cbn; tauto. Qed.

Lemma seg_frame h h' a xs b :
  (∀ y, y ∈ a :: xs → nexts h' !! y = nexts h !! y) →
  (∀ y, y ∈ xs ++ [b] → prevs h' !! y = prevs h !! y) →
  seg h a xs b → seg h' a xs b.
Proof.
  revert a. induction xs as [|x xs IH]; intros a Hn Hp; cbn in *.
  - intros [<- <-]. split; [apply Hn|apply Hp]; set_solver.
  - intros (<- & <- & Hs). split_and!; [apply Hn; set_solver|apply Hp; set_solver|].
    apply IH; [| |done]; intros y Hy; [apply Hn|apply Hp]; set_solver.
Qed.

Lemma clist_frame h h' fp head xs :
  agree_off fp h h' → (∀ y, y ∈ fp → y ∉ head :: xs) →
  clist h head xs → clist h' head xs.
Proof.
  intros Ha Hd [Hnd Hs]. split; [done|].
  assert (H : ∀ y, y ∈ head :: xs →
    nexts h' !! y = nexts h !! y ∧ prevs h' !! y = prevs h !! y).
  { intros y Hy. apply Ha. intros Hf. by apply (Hd y Hf). }
  apply (seg_frame h); [| |done]; intros y Hy; apply H; set_solver.
Qed.

Lemma unlinked_frame h h' fp x :
  agree_off fp h h' → x ∉ fp → unlinked h x → unlinked h' x.
Proof. intros Ha Hx. destruct (Ha x Hx) as [E1 E2]. unfold unlinked. by rewrite E1, E2. Qed.

Lemma seg_on_list h a xs b y :
  seg h a xs b → NoDup (a :: xs) → b ∉ xs → y ∈ xs → 
  ∃ n, nexts h !! y = Some n ∧ n ≠ y.
Proof.
  revert a. induction xs as [|x xs IH]; intros a; cbn; [by intros _ _ _ ?%elem_of_nil|].
  intros (_ & _ & Hs) [_ Hnd]%NoDup_cons Hb Hy.
  apply elem_of_cons in Hy as [->|Hy].
  - exists (head_or xs b). split; [by apply seg_head in Hs|].
    apply NoDup_cons in Hnd as [Hx _]. destruct xs; cbn; set_solver.
  - apply (IH x); set_solver.
Qed.

(** ** Linking and unlinking *)

Definition link (p x n : Z) (h : heap) : heap :=
  Heap (<[x := n]> (<[p := x]> (nexts h))) (<[n := x]> (<[x := p]> (prevs h))).

Definition unlink (p x n : Z) (h : heap) : heap :=
  Heap (base.delete x (<[p := n]> (nexts h))) (base.delete x (<[n := p]> (prevs h))).

Lemma link_agree p x n h : agree_off [p; x; n] h (link p x n h).
Proof.
  intros y Hy. cbn. rewrite !lookup_insert_ne by set_solver. done.
Qed.

Lemma unlink_agree p x n h : agree_off [p; x; n] h (unlink p x n h).
Proof.
  intros y Hy. cbn. rewrite !lookup_delete_ne, !lookup_insert_ne by set_solver. done.
Qed.

Lemma link_seg h a l1 x l2 b :
  seg h a (l1 ++ l2) b → NoDup (a :: l1 ++ l2) → b ∉ l1 ++ l2 →
  x ∉ a :: l1 ++ l2 → x ≠ b →
  seg (link (last_or a l1) x (head_or l2 b) h) a (l1 ++ x :: l2) b.
Proof.
  revert a. induction l1 as [|z l1 IH]; intros a; cbn -[link].
  - intros Hs Hnd Hb Hx Hxb.
    rewrite NoDup_cons in Hnd. destruct Hnd as [Ha Hnd].
    assert (Hxa : x ≠ a) by set_solver.
    split; [|split].
    + cbn. by rewrite lookup_insert_ne, lookup_insert_eq.
    + cbn. rewrite lookup_insert_ne; [by rewrite lookup_insert_eq|].
      destruct l2; cbn; set_solver.
    + destruct l2 as [|y l2]; cbn in *.
      * by rewrite !lookup_insert_eq.
      * destruct Hs as (_ & _ & Hs). rewrite !lookup_insert_eq. split_and!; [done..|].
        apply NoDup_cons in Hnd as [Hy Hnd].
        apply (seg_frame h); [| |done]; intros v Hv; cbn;
          rewrite !lookup_insert_ne; set_solver.
  - intros (H1 & H2 & Hs) Hnd Hb Hx Hxb.
    apply NoDup_cons in Hnd as [Ha Hnd].
    pose proof (last_or_elem z l1). pose proof (head_or_elem l2 b).
    pose proof (proj1 (NoDup_cons _ _) Hnd) as [Hz _].
    split; [|split].
    + cbn. rewrite !lookup_insert_ne; [done|set_solver..].
    + cbn. rewrite !lookup_insert_ne; [done|set_solver..].
    + apply IH; set_solver.
Qed.

Lemma unlink_seg h a l1 x l2 b :
  seg h a (l1 ++ x :: l2) b → NoDup (a :: l1 ++ x :: l2) → b ∉ l1 ++ x :: l2 →
  seg (unlink (last_or a l1) x (head_or l2 b) h) a (l1 ++ l2) b.
Proof.
  revert a. induction l1 as [|z l1 IH]; intros a; cbn -[unlink].
  - intros (H1 & H2 & Hs) Hnd Hb.
    rewrite !NoDup_cons in Hnd. destruct Hnd as (Ha & Hx & Hnd).
    assert (Hxa : x ≠ a) by set_solver. assert (Hxb : x ≠ b) by set_solver.
    destruct l2 as [|y l2]; cbn in *.
    + rewrite !lookup_delete_ne, !lookup_insert_eq by done. done.
    + destruct Hs as (_ & _ & Hs).
      apply NoDup_cons in Hnd as [Hy Hnd].
      rewrite !lookup_delete_ne, !lookup_insert_eq by set_solver. split_and!; [done..|].
      apply (seg_frame h); [| |done]; intros v Hv; cbn;
        rewrite lookup_delete_ne, lookup_insert_ne; set_solver.
  - intros (H1 & H2 & Hs) Hnd Hb.
    apply NoDup_cons in Hnd as [Ha Hnd].
    pose proof (last_or_elem z l1). pose proof (head_or_elem l2 b).
    pose proof (proj1 (NoDup_cons _ _) Hnd) as [Hz _].
    split; [|split].
    + cbn. rewrite lookup_delete_ne, lookup_insert_ne; [done|set_solver..].
    + cbn. rewrite lookup_delete_ne, lookup_insert_ne; [done|set_solver..].
    + apply IH; set_solver.
Qed.

(** ** The operations refine the operations on lists *)

Ltac run := unfold mbind, M_bind, node_next, node_prev, node_set_next, node_set_prev,
  modify, gets, assert_, mret, M_ret.

Lemma on_list_unlinked h x : unlinked h x → node_is_on_list x h = ([], h, Ret false).
Proof.
  intros [E Hx]. unfold node_is_on_list. run. rewrite E in Hx |- *.
  rewrite bool_decide_true; [by rewrite bool_decide_true|]. tauto.
Qed.

Lemma on_list_linked h x n :
  nexts h !! x = Some n → n ≠ x → node_is_on_list x h = ([], h, Ret true).
Proof.
  intros E Hx. unfold node_is_on_list. run. rewrite E.
  rewrite bool_decide_false; [done|]. intros [ [= ?]|?]; congruence.
Qed.

Lemma on_list_member h head xs x :
  clist h head xs → x ∈ xs → node_is_on_list x h = ([], h, Ret true).
Proof.
  intros [Hnd Hs] Hx. destruct (seg_on_list h head xs head x) as (n & E & Hn); try done.
  - by apply NoDup_cons in Hnd as [? _].
  - by eapply on_list_linked.
Qed.

Lemma clist_head h head l1 l2 :
  clist h head (l1 ++ l2) →
  nexts h !! last_or head l1 = Some (head_or l2 head) ∧
  prevs h !! head_or l2 head = Some (last_or head l1).
Proof.
  intros [_ Hs]. destruct l2 as [|y l2]; cbn.
  - rewrite app_nil_r in Hs. split; [|by eapply seg_last].
    destruct l1 as [|x l1] using rev_ind; [apply Hs|].
    rewrite last_or_app. cbn. by apply seg_app in Hs as (_ & ? & _).
  - apply seg_app in Hs as [H1 H2]. split; [|by eapply seg_last].
    clear H2. revert H1. generalize head as a. induction l1 as [|x l1 IH]; intros a; cbn.
    + tauto.
    + intros (_ & _ & ?). by apply IH.
Qed.

Lemma clist_link h head l1 l2 x :
  clist h head (l1 ++ l2) → x ∉ head :: l1 ++ l2 →
  clist (link (last_or head l1) x (head_or l2 head) h) head (l1 ++ x :: l2).
Proof.
  intros [Hnd Hs] Hx. split.
  - apply NoDup_cons in Hnd as [Hh Hnd].
    assert (Hp : head :: l1 ++ x :: l2 ≡ₚ x :: head :: l1 ++ l2) by solve_Permutation.
    rewrite Hp. apply NoDup_cons. split; [done|]. by apply NoDup_cons.
  - apply link_seg; [done|done|by apply NoDup_cons in Hnd as [? _]|done|set_solver].
Qed.

(** [node_insert_before] and [node_insert_after] at the two sides of a cut. *)
Lemma insert_before_run h head l1 l2 x :
  clist h head (l1 ++ l2) → unlinked h x → x ∉ head :: l1 ++ l2 →
  node_insert_before (head_or l2 head) x h =
    ([], link (last_or head l1) x (head_or l2 head) h, Ret tt).
Proof.
  intros Hl Hu Hx. destruct (clist_head _ _ _ _ Hl) as [En Ep].
  pose proof (last_or_elem head l1). pose proof (head_or_elem l2 head).
  assert (x ≠ head_or l2 head ∧ x ≠ last_or head l1) as [? ?] by set_solver.
  unfold node_insert_before. run. rewrite on_list_unlinked by done. cbn [negb].
  rewrite (proj2 (Z.eqb_neq _ _)) by done. cbn. rewrite Ep. unfold link, set_field. cbn.
  f_equal; f_equal. f_equal; apply insert_insert_ne; congruence.
Qed.

Lemma insert_after_run h head l1 l2 x :
  clist h head (l1 ++ l2) → unlinked h x → x ∉ head :: l1 ++ l2 →
  node_insert_after (last_or head l1) x h =
    ([], link (last_or head l1) x (head_or l2 head) h, Ret tt).
Proof.
  intros Hl Hu Hx. destruct (clist_head _ _ _ _ Hl) as [En Ep].
  pose proof (last_or_elem head l1). pose proof (head_or_elem l2 head).
  assert (x ≠ head_or l2 head ∧ x ≠ last_or head l1) as [? ?] by set_solver.
  unfold node_insert_after. run. rewrite on_list_unlinked by done. cbn [negb].
  rewrite (proj2 (Z.eqb_neq _ _)) by done. cbn. by rewrite En.
Qed.

Lemma remove_run h head l1 x l2 :
  clist h head (l1 ++ x :: l2) →
  remove x h = ([], unlink (last_or head l1) x (head_or l2 head) h, Ret tt) ∧
  clist (unlink (last_or head l1) x (head_or l2 head) h) head (l1 ++ l2) ∧
  unlinked (unlink (last_or head l1) x (head_or l2 head) h) x.
Proof.
  intros Hl. pose proof Hl as [Hnd Hs].
  destruct (clist_head h head l1 (x :: l2) Hl) as [_ Ep]. cbn in Ep.
  destruct (clist_head h head (l1 ++ [x]) l2) as [En _].
  { by rewrite <- app_assoc. }
  rewrite last_or_app in En. cbn in En. split_and!.
  - unfold remove, node_unlink, node_del_attrs. run.
    rewrite (on_list_member h head (l1 ++ x :: l2)) by (done || set_solver).
    rewrite Ep, En. cbn. rewrite lookup_insert_eq. unfold unlink, set_field. cbn.
    by rewrite !delete_insert_eq.
  - split.
    + assert (Hp : head :: l1 ++ x :: l2 ≡ₚ x :: head :: l1 ++ l2) by solve_Permutation.
      rewrite Hp in Hnd. by apply NoDup_cons in Hnd as [_ ?].
    + apply unlink_seg; [done..|]. by apply NoDup_cons in Hnd as [? _].
  - unfold unlinked, unlink. cbn. rewrite !lookup_delete_eq. auto.
Qed.

Lemma is_empty_run h head xs :
  clist h head xs → is_empty head h = ([], h, Ret (negb (nonempty xs))).
Proof.
  intros [Hnd Hs]. unfold is_empty. run.
  destruct xs as [|x xs]; cbn in Hs.
  - destruct Hs as [E1 E2]. rewrite on_list_unlinked; [done|].
    unfold unlinked. rewrite E1, E2. auto.
  - rewrite (on_list_linked h head x); [done|apply Hs|].
    apply NoDup_cons in Hnd as [? _]. set_solver.
Qed.

Lemma pop_first_run h head xs :
  clist h head xs →
  match xs with
  | [] => pop_first head h = ([], h, Ret None)
  | x :: xs' => ∃ h', pop_first head h = ([], h', Ret (Some x)) ∧
      clist h' head xs' ∧ unlinked h' x ∧ agree_off (head :: x :: xs') h h'
  end.
Proof.
  intros Hl. pose proof Hl as [Hnd Hs]. unfold pop_first. run.
  destruct xs as [|x xs]; cbn in Hs.
  - destruct Hs as [-> _]. by rewrite Z.eqb_refl.
  - destruct (remove_run h head [] x xs Hl) as (Hr & Hl' & Hu). destruct Hs as (-> & _).
    rewrite (proj2 (Z.eqb_neq _ _)) by (apply NoDup_cons in Hnd as [? _]; set_solver).
    rewrite Hr. eexists. split; [done|]. split_and!; [done..|].
    intros y Hy. apply unlink_agree. pose proof (head_or_elem xs head). cbn. set_solver.
Qed.

(** a list in memory represents its sequence of nodes through every call:
    [append] adds a free node at the end, [prepend] at the front, both change the
    links of the list and of the node only; adding a node that is on the list
    already fails with [AssertionError] and changes nothing. *)
Theorem append_prepend_refine h head xs x :
  clist h head xs →
  (x ∈ xs → append head x h = ([], h, Raise AssertionError) ∧
            prepend head x h = ([], h, Raise AssertionError)) ∧
  (unlinked h x → x ∉ head :: xs →
    (∃ h', append head x h = ([], h', Ret tt) ∧ clist h' head (xs ++ [x]) ∧
           agree_off (x :: head :: xs) h h') ∧
    (∃ h', prepend head x h = ([], h', Ret tt) ∧ clist h' head (x :: xs) ∧
           agree_off (x :: head :: xs) h h')).
Proof.
  intros Hl. split.
  - intros Hx. unfold append, prepend, node_insert_before, node_insert_after. run.
    by rewrite (on_list_member h head xs x).
  - intros Hu Hx. pose proof (last_or_elem head xs). pose proof (head_or_elem xs head).
    assert (Hl' : clist h head (xs ++ [])) by by rewrite app_nil_r.
    split; eexists; split_and!.
    + apply (insert_before_run h head xs []); rewrite ?app_nil_r; done.
    + apply (clist_link h head xs []); rewrite ?app_nil_r; done.
    + intros y Hy. apply link_agree. cbn. set_solver.
    + by apply (insert_after_run h head [] xs).
    + by apply (clist_link h head [] xs).
    + intros y Hy. apply link_agree. cbn. set_solver.
Qed.

Lemma clear_loop fuel h head xs :
  clist h head xs → (length xs ≤ fuel)%nat →
  ∃ h', generate fuel head (Some (head_or xs head)) (nexts h !! head_or xs head)
          (λ node, match node with Some n => remove n | None => mret tt end) h =
          ([], h', Ret tt) ∧
    clist h' head [] ∧ (∀ x, x ∈ xs → unlinked h' x) ∧ agree_off (head :: xs) h h'.
Proof.
  revert fuel h. induction xs as [|x xs IH]; intros fuel h Hl Hf; cbn [length head_or] in *.
  { exists h. destruct fuel; cbn; rewrite bool_decide_true by done; split_and!; try done;
      by intros ? ?%elem_of_nil. }
  destruct fuel as [|fuel]; [lia|]. cbn [generate].
  pose proof Hl as [Hnd Hs]. apply NoDup_cons in Hnd as [Hh Hnd].
  rewrite bool_decide_false by (intros [= ?]; set_solver).
  destruct (remove_run h head [] x xs Hl) as (Hr & Hl1 & Hu1).
  set (h1 := unlink _ _ _ _) in *.
  assert (Ha1 : agree_off (head :: x :: xs) h h1).
  { intros y Hy. apply unlink_agree. pose proof (head_or_elem xs head). cbn. set_solver. }
  destruct (IH fuel h1 Hl1 ltac:(lia)) as (h' & Hg & Hl' & Hu & Ha).
  exists h'. split_and!.
  - unfold mbind, M_bind. rewrite Hr.
    destruct Hs as (_ & _ & Hs). apply seg_head in Hs. rewrite Hs. cbn [opt_next].
    unfold node_next, gets. by rewrite Hg.
  - done.
  - intros y [->|Hy]%elem_of_cons; [|by apply Hu].
    apply (unlinked_frame h1 h' (head :: xs)); [done| |done].
    apply NoDup_cons in Hnd as [? _]. set_solver.
  - intros y Hy. destruct (Ha y) as [-> ->]; [set_solver|]. apply Ha1. set_solver.
Qed.

(** [clear] ends within as many iterations as the list has nodes, although each
    iteration unlinks the node the generator stands on; the list is then empty and
    every node of it is free again.  [pop_first] takes the first node and frees
    it, and gives nothing on an empty list; [remove] takes a node out wherever it
    is. *)
Theorem clear_pop_remove_refine h head xs :
  clist h head xs →
  (∀ fuel, (length xs ≤ fuel)%nat → ∃ h', clear fuel head h = ([], h', Ret tt) ∧
     clist h' head [] ∧ ∀ x, x ∈ xs → unlinked h' x) ∧
  (match xs with
   | [] => pop_first head h = ([], h, Ret None)
   | x :: xs' => ∃ h', pop_first head h = ([], h', Ret (Some x)) ∧
       clist h' head xs' ∧ unlinked h' x
   end) ∧
  (∀ l1 x l2, xs = l1 ++ x :: l2 → ∃ h', remove x h = ([], h', Ret tt) ∧
     clist h' head (l1 ++ l2) ∧ unlinked h' x).
Proof.
  intros Hl. split_and!.
  - intros fuel Hf. destruct (clear_loop fuel h head xs Hl Hf) as (h' & Hg & Hl' & Hu & _).
    exists h'. split_and!; [|done..]. unfold clear, for_node, mbind, M_bind, node_next, gets.
    destruct Hl as [_ Hs]. rewrite (seg_head _ _ _ _ Hs). cbn [opt_next].
    unfold node_next, gets. by rewrite Hg.
  - pose proof (pop_first_run h head xs Hl) as Hp.
    destruct xs; [done|]. destruct Hp as (h' & ? & ? & ? & _). eauto.
  - intros l1 x l2 ->. destruct (remove_run h head l1 x l2 Hl) as (? & ? & ?). eauto.
Qed.

(** ** The interface *)

(** What a user of the lists relies on.  [lq_agree fp h h'] bounds what an
    operation changes, so that two lists in one store do not disturb each other. *)
Class LinkedQueue (H : Type) := {
  lq_is_empty : Z → M H pyexn Empty_set bool;
  lq_is_on_list : Z → M H pyexn Empty_set bool;
  lq_append : Z → Z → M H pyexn Empty_set ();
  lq_pop_first : Z → M H pyexn Empty_set (option Z);
  lq_rep : H → Z → list Z → Prop;
  lq_free : H → Z → Prop;
  lq_agree : list Z → H → H → Prop;
  lq_rep_NoDup h head xs : lq_rep h head xs → NoDup (head :: xs);
  lq_rep_frame h h' fp head xs : lq_agree fp h h' → (∀ y, y ∈ fp → y ∉ head :: xs) →
    lq_rep h head xs → lq_rep h' head xs;
  lq_free_frame h h' fp x : lq_agree fp h h' → x ∉ fp → lq_free h x → lq_free h' x;
  lq_empty_spec h head xs : lq_rep h head xs →
    lq_is_empty head h = ([], h, Ret (negb (nonempty xs)));
  lq_member_spec h head xs x : lq_rep h head xs → x ∈ xs →
    lq_is_on_list x h = ([], h, Ret true);
  lq_free_spec h x : lq_free h x → lq_is_on_list x h = ([], h, Ret false);
  lq_append_spec h head xs x : lq_rep h head xs → lq_free h x → x ∉ head :: xs →
    ∃ h', lq_append head x h = ([], h', Ret tt) ∧ lq_rep h' head (xs ++ [x]) ∧
      lq_agree (x :: head :: xs) h h';
  lq_pop_spec h head xs : lq_rep h head xs →
    match xs with
    | [] => lq_pop_first head h = ([], h, Ret None)
    | x :: xs' => ∃ h', lq_pop_first head h = ([], h', Ret (Some x)) ∧
        lq_rep h' head xs' ∧ lq_free h' x ∧ lq_agree (head :: x :: xs') h h'
    end
}.

Lemma append_run h head xs x :
  clist h head xs → unlinked h x → x ∉ head :: xs →
  ∃ h', append head x h = ([], h', Ret tt) ∧ clist h' head (xs ++ [x]) ∧
    agree_off (x :: head :: xs) h h'.
Proof.
  intros Hl Hu Hx. pose proof (last_or_elem head xs). eexists. split_and!.
  - apply (insert_before_run h head xs []); rewrite ?app_nil_r; done.
  - apply (clist_link h head xs []); rewrite ?app_nil_r; done.
  - intros y Hy. apply link_agree. cbn. set_solver.
Qed.

#[export] Instance circlist_queue : LinkedQueue heap := {
  lq_is_empty := is_empty;
  lq_is_on_list := is_on_list;
  lq_append := append;
  lq_pop_first := pop_first;
  lq_rep := clist;
  lq_free := unlinked;
  lq_agree := agree_off;
  lq_rep_NoDup h head xs H := proj1 H;
  lq_rep_frame := clist_frame;
  lq_free_frame := unlinked_frame;
  lq_empty_spec := is_empty_run;
  lq_member_spec := on_list_member;
  lq_free_spec := on_list_unlinked;
  lq_append_spec := append_run;
  lq_pop_spec := pop_first_run
}.

(** ** Witnesses *)

Module CirclistWitness.
(** The list [1; 2; 3] headed by node 0, built by the code. *)
Definition empty_heap : heap := Heap ∅ ∅.
Definition h3 : heap :=
  final (list_init 0;; append 0 2;; append 0 3;; prepend 0 1) empty_heap.

Lemma h3_list : clist h3 0 [1; 2; 3].
Proof.
  split; [|by vm_compute].
  repeat (apply NoDup_cons; split; [set_solver|]). apply NoDup_nil_2.
Qed.

Lemma append_witness :
  (3 ∈ [1; 2; 3] → append 0 3 h3 = ([], h3, Raise AssertionError) ∧
                   prepend 0 3 h3 = ([], h3, Raise AssertionError)) ∧
  (unlinked h3 3 → 3 ∉ [0; 1; 2; 3] →
    (∃ h', append 0 3 h3 = ([], h', Ret tt) ∧ clist h' 0 ([1; 2; 3] ++ [3]) ∧
           agree_off [3; 0; 1; 2; 3] h3 h') ∧
    (∃ h', prepend 0 3 h3 = ([], h', Ret tt) ∧ clist h' 0 [3; 1; 2; 3] ∧
           agree_off [3; 0; 1; 2; 3] h3 h')).
Proof. apply append_prepend_refine, h3_list. Defined.

Lemma clear_witness :
  (∀ fuel, (3 ≤ fuel)%nat → ∃ h', clear fuel 0 h3 = ([], h', Ret tt) ∧
     clist h' 0 [] ∧ ∀ x, x ∈ [1; 2; 3] → unlinked h' x) ∧
  (∃ h', pop_first 0 h3 = ([], h', Ret (Some 1)) ∧ clist h' 0 [2; 3] ∧ unlinked h' 1) ∧
  (∀ l1 x l2, [1; 2; 3] = l1 ++ x :: l2 → ∃ h', remove x h3 = ([], h', Ret tt) ∧
     clist h' 0 (l1 ++ l2) ∧ unlinked h' x).
Proof. apply (clear_pop_remove_refine h3 0 [1; 2; 3]), h3_list. Defined.
End CirclistWitness.
