(* ===== verification/Processor.v ===== *)
(** * The destination queue of the BGP processor

    Models [BgpProcessor] of [ryu/services/protocols/bgp/processor.py]: [enqueue],
    [_process_dest], [_process_rtdest] and one round of the loop of [_run], over any
    queue that satisfies the interface [LinkedQueue].  The state is the store of the
    two queues and the state [W] of the rest of the speaker.  Processing a
    destination ([Destination.process], modelled in BgpTable) is here an output; what
    it makes the speaker enqueue is the parameter [requeue], since it depends on the
    subscribers of the signal bus.

    [Abs] is the specification: two lists of pending destinations without
    repetition. *)

From stdpp Require Import base list gmap sets.
From Stdlib Require Import ZArith Lia.
From S2P Require Import Prelude Circlist.

(** ** The processor *)

Inductive proc_out :=
| ProcessDest (d : Z)
| UpdateRtFilters
| Pause
| WaitEvent.

Record proc (H W : Type) := Proc {
  p_heap : H;
  p_world : W
}.
Arguments Proc {H W} _ _.
Arguments p_heap {H W} _.
Arguments p_world {H W} _.

#[export] Instance eta_proc H W : Eta (proc H W) :=
  EtaBox (λ s, Proc (p_heap s) (p_world s)).

Definition MAX_DEST_PROCESSED_PER_CYCLE : nat := 100.

Section processor.
Context {H W : Type} `{LinkedQueue H}.

(** The heads of the two queues, the family of a destination and the destinations
    that processing one enqueues. *)
Context (dest_queue rtdest_queue : Z) (is_rtc : Z → bool)
        (requeue : W → Z → list Z * W).

Abbreviation PM := (M (proc H W) pyexn proc_out).

(** Runs an operation of the queues. *)
Definition on_heap {A} (m : M H pyexn Empty_set A) : PM A := λ s,
  let '(_, h, r) := m (p_heap s) in ([], s <| p_heap := h |>, r).

Definition queue_of (d : Z) : Z := if is_rtc d then rtdest_queue else dest_queue.

Definition enqueue (d : Z) : PM () :=
  on ← on_heap (lq_is_on_list d);
  when (negb on) (on_heap (lq_append (queue_of d) d)).

Definition process_one (d : Z) : PM () :=
  emit (ProcessDest d);;
  w ← gets p_world;
  let '(ds, w') := requeue w d in
  modify (λ s, s <| p_world := w' |>);;
  for_each ds enqueue.

(** [while dest_processed < work_units and not queue.is_empty()]; a pop that
    gives nothing does not count as processed. *)
Fixpoint process_dest_loop (fuel work_units : nat) : PM () :=
  match work_units with
  | O => mret tt
  | S work_units' =>
      empty ← on_heap (lq_is_empty dest_queue);
      if empty : bool then mret tt else
      match fuel with
      | O => raise OutOfFuel
      | S fuel =>
          next_dest ← on_heap (lq_pop_first dest_queue);
          match next_dest : option Z with
          | Some d => process_one d;; process_dest_loop fuel work_units'
          | None => process_dest_loop fuel work_units
          end
      end
  end.

Fixpoint process_rtdest_loop (fuel : nat) (processed_any : bool) : PM bool :=
  empty ← on_heap (lq_is_empty rtdest_queue);
  if empty : bool then mret processed_any else
  match fuel with
  | O => raise OutOfFuel
  | S fuel =>
      next_dest ← on_heap (lq_pop_first rtdest_queue);
      match next_dest : option Z with
      | Some d => process_one d;; process_rtdest_loop fuel true
      | None => process_rtdest_loop fuel processed_any
      end
  end.

Definition process_rtdest (fuel : nat) : PM () :=
  empty ← on_heap (lq_is_empty rtdest_queue);
  if empty : bool then mret tt else
  processed_any ← process_rtdest_loop fuel false;
  when processed_any (emit UpdateRtFilters).

(** One round of [_run]. *)
Definition run_round (fuel work_units : nat) : PM () :=
  process_rtdest fuel;;
  process_dest_loop fuel work_units;;
  empty ← on_heap (lq_is_empty dest_queue);
  emit (if empty : bool then WaitEvent else Pause).

(** ** Specification: pending destinations as lists *)

Record abs := Abs {
  a_dests : list Z;
  a_rtdests : list Z;
  a_world : W
}.

Definition abs_enqueue (a : abs) (d : Z) : abs :=
  if bool_decide (d ∈ a_dests a ++ a_rtdests a) then a
  else if is_rtc d then Abs (a_dests a) (a_rtdests a ++ [d]) (a_world a)
  else Abs (a_dests a ++ [d]) (a_rtdests a) (a_world a).

Definition abs_process (a : abs) (d : Z) : abs :=
  let '(ds, w') := requeue (a_world a) d in
  foldl abs_enqueue (Abs (a_dests a) (a_rtdests a) w') ds.

(** At most [n] destinations in the order they were enqueued. *)
Fixpoint abs_process_dest (n : nat) (a : abs) : list Z * abs :=
  match n, a_dests a with
  | S n, d :: ds =>
      let '(l, a') := abs_process_dest n (abs_process (Abs ds (a_rtdests a) (a_world a)) d) in
      (d :: l, a')
  | _, _ => ([], a)
  end.

(** ** Refinement *)

(** The store holds the two lists; every other destination is free. *)
Record proc_rep (s : proc H W) (a : abs) : Prop := {
  rep_dests : lq_rep (p_heap s) dest_queue (a_dests a);
  rep_rtdests : lq_rep (p_heap s) rtdest_queue (a_rtdests a);
  rep_disjoint y : y ∈ dest_queue :: a_dests a → y ∉ rtdest_queue :: a_rtdests a;
  rep_free y : y ∉ dest_queue :: a_dests a → y ∉ rtdest_queue :: a_rtdests a →
    lq_free (p_heap s) y;
  rep_world : p_world s = a_world a
}.

(** Destinations are not the heads of the queues. *)
Definition is_dest (d : Z) : Prop := d ≠ dest_queue ∧ d ≠ rtdest_queue.

Lemma rep_dests_free s a y : proc_rep s a → y ∉ a_dests a ++ a_rtdests a → is_dest y →
  lq_free (p_heap s) y.
Proof. intros [_ _ _ Hf _] Hy [? ?]. apply Hf; set_solver. Qed.

Lemma enqueue_refines s a d :
  proc_rep s a → is_dest d →
  ∃ s', enqueue d s = ([], s', Ret tt) ∧ proc_rep s' (abs_enqueue a d).
Proof.
  intros Hr Hd. pose proof Hr as [R1 R2 Hdisj Hfree Hw].
  unfold enqueue, on_heap, mbind, M_bind, abs_enqueue, queue_of.
  destruct (decide (d ∈ a_dests a ++ a_rtdests a)) as [Hin|Hnot].
  - rewrite bool_decide_true by done. exists s.
    assert (Hon : lq_is_on_list d (p_heap s) = ([], p_heap s, Ret true)).
    { apply elem_of_app in Hin as [?|?];
        [by apply (lq_member_spec _ dest_queue (a_dests a))
        |by apply (lq_member_spec _ rtdest_queue (a_rtdests a))]. }
    rewrite Hon. by destruct s.
  - rewrite bool_decide_false by done.
    pose proof (rep_dests_free s a d Hr Hnot Hd) as Hf.
    rewrite (lq_free_spec _ _ Hf). cbn [negb when]. destruct Hd as [Hd1 Hd2].
    destruct (is_rtc d).
    + destruct (lq_append_spec (p_heap s) rtdest_queue (a_rtdests a) d R2 Hf)
        as (h' & E & Rx & Ha); [set_solver|].
      exists (s <| p_heap := h' |>). split; [destruct s; cbn in *; by rewrite E|].
      split; cbn; [|done| | |done].
      * eapply lq_rep_frame; [exact Ha| |done]. set_solver.
      * set_solver.
      * intros y H1 H2. eapply lq_free_frame; [exact Ha| |]; [|apply Hfree]; set_solver.
    + destruct (lq_append_spec (p_heap s) dest_queue (a_dests a) d R1 Hf)
        as (h' & E & Rx & Ha); [set_solver|].
      exists (s <| p_heap := h' |>). split; [destruct s; cbn in *; by rewrite E|].
      split; cbn; [done| | | |done].
      * eapply lq_rep_frame; [exact Ha| |done]. set_solver.
      * set_solver.
      * intros y H1 H2. eapply lq_free_frame; [exact Ha| |]; [|apply Hfree]; set_solver.
Qed.

Hypothesis requeue_dests : ∀ w d, Forall is_dest (requeue w d).1.

Lemma enqueue_all_refines s a ds :
  proc_rep s a → Forall is_dest ds →
  ∃ s', for_each ds enqueue s = ([], s', Ret tt) ∧ proc_rep s' (foldl abs_enqueue a ds).
Proof.
  revert s a. induction ds as [|d ds IH]; intros s a Hr Hds; cbn; [by exists s|].
  apply Forall_cons in Hds as [Hd Hds].
  destruct (enqueue_refines s a d Hr Hd) as (s1 & E1 & R1).
  destruct (IH s1 _ R1 Hds) as (s2 & E2 & R2).
  exists s2. split; [|done]. unfold mbind, M_bind. by rewrite E1, E2.
Qed.

Lemma process_one_refines s a d :
  proc_rep s a →
  ∃ s', process_one d s = ([ProcessDest d], s', Ret tt) ∧ proc_rep s' (abs_process a d).
Proof.
  intros Hr. pose proof Hr as [R1 R2 Hdisj Hfree Hw]. unfold abs_process.
  pose proof (requeue_dests (a_world a) d) as Hds. rewrite <- Hw in Hds |- *.
  destruct (requeue (p_world s) d) as [ds w'] eqn:Eq. cbn [fst] in Hds.
  destruct (enqueue_all_refines (s <| p_world := w' |>) (Abs (a_dests a) (a_rtdests a) w') ds)
    as (s' & E & R); [by split|done|].
  exists s'. split; [|done].
  unfold process_one, mbind, M_bind, emit, gets, modify. rewrite Eq. by rewrite E.
Qed.

Lemma pop_dest_refines s a d ds :
  proc_rep s a → a_dests a = d :: ds →
  ∃ s', on_heap (lq_pop_first dest_queue) s = ([], s', Ret (Some d)) ∧
    proc_rep s' (Abs ds (a_rtdests a) (a_world a)).
Proof.
  intros [R1 R2 Hdisj Hfree Hw] Ea. rewrite Ea in R1, Hdisj, Hfree.
  destruct (lq_pop_spec _ _ _ R1) as (h' & E & R & Hf & Ha).
  exists (s <| p_heap := h' |>). split; [unfold on_heap; by rewrite E|].
  split; cbn; [done| | | |done].
  - eapply lq_rep_frame; [exact Ha| |done]. set_solver.
  - set_solver.
  - intros y H1 H2. destruct (decide (y = d)) as [->|Hne]; [done|].
    eapply lq_free_frame; [exact Ha| |]; [|apply Hfree]; set_solver.
Qed.

Lemma pop_rtdest_refines s a d ds :
  proc_rep s a → a_rtdests a = d :: ds →
  ∃ s', on_heap (lq_pop_first rtdest_queue) s = ([], s', Ret (Some d)) ∧
    proc_rep s' (Abs (a_dests a) ds (a_world a)).
Proof.
  intros [R1 R2 Hdisj Hfree Hw] Ea. rewrite Ea in R2, Hdisj, Hfree.
  destruct (lq_pop_spec _ _ _ R2) as (h' & E & R & Hf & Ha).
  exists (s <| p_heap := h' |>). split; [unfold on_heap; by rewrite E|].
  split; cbn; [|done| | |done].
  - eapply lq_rep_frame; [exact Ha| |done]. intros y Hy Hy'. apply (Hdisj y Hy').
    set_solver.
  - set_solver.
  - intros y H1 H2. destruct (decide (y = d)) as [->|Hne]; [done|].
    eapply lq_free_frame; [exact Ha| |]; [|apply Hfree]; set_solver.
Qed.

Lemma on_heap_empty s head xs :
  lq_rep (p_heap s) head xs →
  on_heap (lq_is_empty head) s = ([], s, Ret (negb (nonempty xs))).
Proof. intros R. unfold on_heap. rewrite (lq_empty_spec _ _ _ R). by destruct s. Qed.

(** What is enqueued goes to the ends of the two lists. *)
Lemma abs_enqueue_app a d :
  ∃ new newrt, a_dests (abs_enqueue a d) = a_dests a ++ new ∧
    a_rtdests (abs_enqueue a d) = a_rtdests a ++ newrt ∧
    (is_rtc d = false → newrt = []) ∧ a_world (abs_enqueue a d) = a_world a.
Proof.
  unfold abs_enqueue. case_bool_decide; [|destruct (is_rtc d)]; cbn.
  - by exists [], []; rewrite !app_nil_r.
  - by exists [], [d]; rewrite app_nil_r.
  - by exists [d], []; rewrite app_nil_r.
Qed.

Lemma abs_enqueue_all_app ds a :
  ∃ new newrt, a_dests (foldl abs_enqueue a ds) = a_dests a ++ new ∧
    a_rtdests (foldl abs_enqueue a ds) = a_rtdests a ++ newrt ∧
    (Forall (λ d, is_rtc d = false) ds → newrt = []).
Proof.
  revert a. induction ds as [|d ds IH]; intros a; cbn.
  { by exists [], []; rewrite !app_nil_r. }
  destruct (abs_enqueue_app a d) as (n1 & r1 & E1 & E2 & Hr & _).
  destruct (IH (abs_enqueue a d)) as (n2 & r2 & E3 & E4 & Hr2).
  exists (n1 ++ n2), (r1 ++ r2). rewrite E3, E4, E1, E2, <- !app_assoc.
  split_and!; [done..|]. intros [Hd Hds]%Forall_cons. by rewrite Hr, Hr2.
Qed.

Lemma abs_process_app a d :
  ∃ new newrt, a_dests (abs_process a d) = a_dests a ++ new ∧
    a_rtdests (abs_process a d) = a_rtdests a ++ newrt ∧
    (Forall (λ d, is_rtc d = false) (requeue (a_world a) d).1 → newrt = []).
Proof.
  unfold abs_process. destruct (requeue _ d) as [ds w'].
  apply (abs_enqueue_all_app ds (Abs (a_dests a) (a_rtdests a) w')).
Qed.

Lemma abs_process_dest_fifo n a :
  let '(l, a') := abs_process_dest n a in
  (length l ≤ n)%nat ∧ ((length l < n)%nat → a_dests a' = []) ∧
  ∃ new, l ++ a_dests a' = a_dests a ++ new.
Proof.
  revert a. induction n as [|n IH]; intros a; cbn.
  { split_and!; [done|lia|]. exists []. by rewrite app_nil_r. }
  destruct a as [ [|d ds] rts w]; cbn.
  { split_and!; [lia|done|]. by exists []. }
  destruct (abs_process_app (Abs ds rts w) d) as (new & _ & En & _).
  specialize (IH (abs_process (Abs ds rts w) d)).
  destruct (abs_process_dest n (abs_process (Abs ds rts w) d)) as [l a'].
  destruct IH as (H1 & H2 & new' & H3). cbn. split_and!; [lia|intros; apply H2; lia|].
  exists (new ++ new'). rewrite H3, En. cbn. by rewrite <- app_assoc.
Qed.

Lemma process_dest_loop_refines n : ∀ fuel s a,
  proc_rep s a → (n ≤ fuel)%nat →
  let '(l, a') := abs_process_dest n a in
  ∃ s', process_dest_loop fuel n s = (ProcessDest <$> l, s', Ret tt) ∧ proc_rep s' a'.
Proof.
  induction n as [|n IH]; intros fuel s a Hr Hf; cbn [abs_process_dest].
  { exists s. split; [by destruct fuel|done]. }
  destruct fuel as [|fuel]; [lia|]. cbn [process_dest_loop].
  unfold mbind, M_bind. rewrite (on_heap_empty s _ _ (rep_dests _ _ Hr)).
  destruct (a_dests a) as [|d ds] eqn:Ea; cbn [nonempty negb]; [by exists s|].
  destruct (pop_dest_refines s a d ds Hr Ea) as (s1 & E1 & R1). rewrite E1.
  destruct (process_one_refines s1 _ d R1) as (s2 & E2 & R2). rewrite E2.
  specialize (IH fuel s2 _ R2 ltac:(lia)).
  destruct (abs_process_dest n (abs_process (Abs ds (a_rtdests a) (a_world a)) d)) as [l a'].
  destruct IH as (s3 & E3 & R3). rewrite E3. by exists s3.
Qed.

(** C40: a processing run over any queue that keeps the interface does what the two
    lists specify: it processes the destinations in the order they were enqueued,
    at most [work_units] of them, stops before that only when nothing is pending,
    and loses none: what it processed followed by what is pending afterwards is
    what was pending followed by what was enqueued meanwhile.  The loop runs at
    most [work_units] times. *)
Theorem process_dest_refines s a fuel work_units :
  proc_rep s a → (work_units ≤ fuel)%nat →
  ∃ l s' a', process_dest_loop fuel work_units s = (ProcessDest <$> l, s', Ret tt) ∧
    abs_process_dest work_units a = (l, a') ∧ proc_rep s' a' ∧
    (length l ≤ work_units)%nat ∧ ((length l < work_units)%nat → a_dests a' = []) ∧
    (∃ new, l ++ a_dests a' = a_dests a ++ new) ∧ NoDup (a_dests a').
Proof.
  intros Hr Hf. pose proof (process_dest_loop_refines work_units fuel s a Hr Hf) as H1.
  pose proof (abs_process_dest_fifo work_units a) as H2.
  destruct (abs_process_dest work_units a) as [l a'].
  destruct H1 as (s' & E & R'). destruct H2 as (? & ? & ?).
  exists l, s', a'. split_and!; try done.
  by apply rep_dests, lq_rep_NoDup, NoDup_cons in R' as [_ ?].
Qed.

Lemma process_rtdest_loop_run rts : ∀ fuel b s a,
  (∀ w d, is_rtc d = true → Forall (λ d, is_rtc d = false) (requeue w d).1) →
  proc_rep s a → a_rtdests a = rts → Forall (λ d, is_rtc d = true) rts →
  (length rts ≤ fuel)%nat →
  ∃ s' a', process_rtdest_loop fuel b s =
      (ProcessDest <$> rts, s', Ret (b || nonempty rts)) ∧
    proc_rep s' a' ∧ a_rtdests a' = [] ∧ ∃ new, a_dests a' = a_dests a ++ new.
Proof.
  induction rts as [|d rts IH]; intros fuel b s a Hq Hr Ea Hrt Hf.
  { exists s, a. pose proof (rep_rtdests _ _ Hr) as R. rewrite Ea in R.
    split_and!; try done; [|by exists []; rewrite app_nil_r].
    destruct fuel; cbn; unfold mbind, M_bind; rewrite (on_heap_empty s _ _ R); cbn;
      by rewrite orb_false_r. }
  destruct fuel as [|fuel]; [cbn in Hf; lia|]. cbn [process_rtdest_loop].
  pose proof (rep_rtdests _ _ Hr) as R. rewrite Ea in R.
  unfold mbind, M_bind. rewrite (on_heap_empty s _ _ R). cbn [nonempty negb].
  destruct (pop_rtdest_refines s a d rts Hr Ea) as (s1 & E1 & R1). rewrite E1.
  destruct (process_one_refines s1 _ d R1) as (s2 & E2 & R2). rewrite E2.
  apply Forall_cons in Hrt as [Hd Hrt].
  destruct (abs_process_app (Abs (a_dests a) rts (a_world a)) d) as (n1 & r1 & En & Er & Hr1).
  rewrite (Hr1 (Hq _ d Hd)), app_nil_r in Er. cbn [a_dests a_rtdests] in *.
  destruct (IH fuel true s2 _ Hq R2 Er Hrt) as (s3 & a3 & E3 & R3 & Er3 & n3 & En3).
  { cbn in Hf. lia. }
  exists s3, a3. rewrite E3. split_and!; try done.
  - by rewrite orb_true_r.
  - exists (n1 ++ n3). by rewrite En3, En, app_assoc.
Qed.

(** when processing a route target destination enqueues no other route target
    destination, all of them are processed in order, the loop ending after as many
    iterations as are pending; the route target filters are updated once,
    afterwards, exactly when there was any. *)
Theorem process_rtdest_all s a fuel :
  (∀ w d, is_rtc d = true → Forall (λ d, is_rtc d = false) (requeue w d).1) →
  proc_rep s a → Forall (λ d, is_rtc d = true) (a_rtdests a) →
  (length (a_rtdests a) ≤ fuel)%nat →
  ∃ s' a', process_rtdest fuel s =
      ((ProcessDest <$> a_rtdests a) ++
       (if nonempty (a_rtdests a) then [UpdateRtFilters] else []), s', Ret tt) ∧
    proc_rep s' a' ∧ a_rtdests a' = [] ∧ ∃ new, a_dests a' = a_dests a ++ new.
Proof.
  intros Hq Hr Hrt Hf. unfold process_rtdest, mbind, M_bind.
  rewrite (on_heap_empty s _ _ (rep_rtdests _ _ Hr)).
  destruct (a_rtdests a) as [|d rts] eqn:Ea; cbn [nonempty negb].
  { exists s, a. split_and!; try done. exists []. by rewrite app_nil_r. }
  destruct (process_rtdest_loop_run (d :: rts) fuel false s a Hq Hr Ea Hrt Hf)
    as (s' & a' & E & R & Er & Hnew).
  exists s', a'. rewrite E. split_and!; done.
Qed.
End processor.

(** ** Witnesses *)

Module ProcWitness.
(** Heads 0 and 1; destinations from 100 are route target destinations; processing
    destination 10 enqueues 10 and 12, processing 100 enqueues 10. *)
Definition is_rtc (d : Z) : bool := 100 <=? d.
Definition requeue (w : unit) (d : Z) : list Z * unit :=
  (if d =? 10 then [10; 12] else if d =? 100 then [10] else [], w).
Abbreviation enq := (enqueue (H := heap) (W := unit) 0 1 is_rtc).

Definition s0 : proc heap () :=
  Proc (final (list_init 0;; list_init 1) (Heap ∅ ∅)) ().
Definition a0 : abs (W := unit) := Abs [] [] ().

Lemma rep0 : proc_rep 0 1 s0 a0.
Proof.
  split; [| | | |done].
  - split; [apply NoDup_singleton|by vm_compute].
  - split; [apply NoDup_singleton|by vm_compute].
  - cbn. set_solver.
  - cbn -[s0]. intros y H1 H2. unfold unlinked.
    assert (E : p_heap s0 = Heap (<[0:=0]> (<[1:=1]> ∅)) (<[0:=0]> (<[1:=1]> ∅)))
      by by vm_compute.
    rewrite E. cbn [nexts prevs]. rewrite !lookup_insert_ne by set_solver. auto.
Qed.

Lemma rep_queued : ∃ s, proc_rep 0 1 s (Abs [10; 11] [100] ()).
Proof.
  destruct (enqueue_all_refines 0 1 is_rtc s0 a0 [10; 100; 11; 10]) as (s & _ & R).
  - apply rep0.
  - repeat constructor; lia.
  - by exists s.
Qed.

Lemma requeue_dests w d : Forall (is_dest 0 1) (requeue w d).1.
Proof. unfold requeue. repeat case_match; cbn; repeat constructor; done. Qed.

Lemma process_dest_witness :
  ∃ s l s' a', process_dest_loop (H := heap) 0 1 is_rtc requeue 2 2 s =
      (ProcessDest <$> l, s', Ret tt) ∧
    abs_process_dest is_rtc requeue 2 (Abs [10; 11] [100] ()) = (l, a') ∧
    proc_rep 0 1 s' a' ∧
    (length l ≤ 2)%nat ∧ ((length l < 2)%nat → a_dests a' = []) ∧
    (∃ new, l ++ a_dests a' = [10; 11] ++ new) ∧ NoDup (a_dests a').
Proof.
  destruct rep_queued as [s R]. exists s.
  by apply (process_dest_refines 0 1 is_rtc requeue requeue_dests s
              (Abs [10; 11] [100] ())).
Defined.

Lemma process_rtdest_witness :
  ∃ s s' a', process_rtdest (H := heap) 0 1 is_rtc requeue 1 s =
      ([ProcessDest 100; UpdateRtFilters], s', Ret tt) ∧
    proc_rep 0 1 s' a' ∧ a_rtdests a' = [] ∧ ∃ new, a_dests a' = [10; 11] ++ new.
Proof.
  destruct rep_queued as [s R]. exists s.
  apply (process_rtdest_all 0 1 is_rtc requeue requeue_dests s (Abs [10; 11] [100] ()));
    [|done|by repeat constructor|cbn; lia].
  intros w d Hd. unfold requeue, is_rtc in *.
  destruct (d =? 10); cbn; [by repeat constructor|].
  destruct (d =? 100); cbn; by repeat constructor.
Defined.
End ProcWitness.
