(* ===== verification/Vrrp.v ===== *)
(** * The VRRP router

    Models [ryu/services/protocols/vrrp/router.py]: the timers, [VRRPParams], the
    router with its handlers and the six state classes of VRRPv2 and VRRPv3, with the
    fields of [VRRPConfig] and [VRRPInterface] (event.py) they use, and of
    [ryu/lib/packet/vrrp.py] what the router needs of the packet class: creation,
    interval conversion, everything that can raise in [create_packet] and in the
    serialization of the packet it builds, and [ip_address_lt].

    The router is a machine with a queue of events: a running timer may expire and
    post its event, other applications post events, and the application's event loop
    dispatches the first one ([vrrp_step]).  A handler that raises is logged by the
    event loop, its effects up to then remain.  Seconds are floats in the code and
    rationals here.  The netaddr package is an interface, [netaddr]; that it reads the
    two multicast groups of VRRP as addresses is the hypothesis [groups_pack]. *)

From stdpp Require Import base list strings.
From Stdlib Require Import ZArith QArith Lqa Lia.
From S2P Require Import Prelude.

#[local] Open Scope Z_scope.

(** ** Data *)

Definition VRRP_VERSION_V2 := 2.
Definition VRRP_VERSION_V3 := 3.
Definition VRRP_TYPE_ADVERTISEMENT := 1.
Definition VRRP_PRIORITY_RELEASE_RESPONSIBILITY := 0.
Definition VRRP_PRIORITY_ADDRESS_OWNER := 255.
Definition VRRP_V3_MAX_ADVER_INT_MASK := 4095.

Inductive version := V2 | V3.

Definition version_num (v : version) : Z :=
  match v with V2 => VRRP_VERSION_V2 | V3 => VRRP_VERSION_V3 end.

Inductive vstate := Initialize | Master | Backup.

#[export] Instance vstate_eq_dec : EqDecision vstate.
Proof. solve_decision. Defined.

(** [admin_state] is [True] or a name. *)
Record config := Config {
  c_vrid : Z;
  c_admin_state : option string;
  c_priority : Z;
  c_ip_addresses : list string;
  c_advertisement_interval : Q;
  c_preempt_mode : bool;
  c_preempt_delay : Q;
  c_accept_mode : bool
}.

#[export] Instance eta_config : Eta config := EtaBox (λ c,
  Config (c_vrid c) (c_admin_state c) (c_priority c) (c_ip_addresses c)
    (c_advertisement_interval c) (c_preempt_mode c) (c_preempt_delay c)
    (c_accept_mode c)).

Definition address_owner (c : config) : bool :=
  c_priority c =? VRRP_PRIORITY_ADDRESS_OWNER.

Record vrrp_pkt := VrrpPkt {
  v_version : version;
  v_type : Z;
  v_vrid : Z;
  v_priority : Z;
  v_max_adver_int : Z;
  v_ip_addresses : list string;
  v_is_ipv6 : bool
}.

(** [None] in a change request means no change. *)
Record config_change := ConfigChange {
  cc_priority : option Z;
  cc_advertisement_interval : option Q;
  cc_preempt_mode : option bool;
  cc_preempt_delay : option Q;
  cc_accept_mode : option bool
}.

(** A received packet is seen through [get_payload]: the source of the IP header
    and the VRRP header, or nothing. *)
Inductive event :=
| EvMasterDown
| EvAdver
| EvPreemptDelay
| EvStatisticsOut
| EvReceived (payload : option (string * vrrp_pkt))
| EvShutdownRequest (instance_name : string)
| EvConfigChangeRequest (change : config_change).

(** A timer has no thread, a thread that waits, or a thread that has called the
    handler. *)
Inductive timer :=
| NoThread
| Waiting (interval : Q)
| Fired.

Inductive timer_name := TMasterDown | TAdver | TPreemptDelay | TStatsOut.

Record vrouter := VRouter {
  r_version : version;
  r_name : string;
  r_primary_ip : string;
  r_vlan : option Z;
  r_config : config;
  r_statistics_interval : Q;
  r_tx_packets : Z;
  r_tx_zero_prio : Z;
  r_master_adver_interval : option Q;
  r_state : option vstate;
  r_vrrp : option vrrp_pkt;
  r_master_down_timer : timer;
  r_adver_timer : timer;
  r_preempt_delay_timer : timer;
  r_stats_out_timer : timer;
  r_events : list event
}.

#[export] Instance eta_vrouter : Eta vrouter := EtaBox (λ r,
  VRouter (r_version r) (r_name r) (r_primary_ip r) (r_vlan r) (r_config r)
    (r_statistics_interval r) (r_tx_packets r) (r_tx_zero_prio r)
    (r_master_adver_interval r) (r_state r) (r_vrrp r) (r_master_down_timer r)
    (r_adver_timer r) (r_preempt_delay_timer r) (r_stats_out_timer r) (r_events r)).

Inductive vrrp_out :=
| Transmit (pkt : vrrp_pkt) (src : string) (vlan : option Z)
| StateChanged (old : option vstate) (new : vstate).

Abbreviation VM := (M vrouter pyexn vrrp_out).

(** The object [VRRPRouter.__init__] leaves. *)
Definition new_router (v : version) (name ip : string) (vlan : option Z) (c : config)
    (statistics_interval : Q) : vrouter :=
  VRouter v name ip vlan c statistics_interval 0 0 None None None
    NoThread NoThread NoThread NoThread [].

(** ** Timers *)

Definition get_timer (t : timer_name) (r : vrouter) : timer :=
  match t with
  | TMasterDown => r_master_down_timer r
  | TAdver => r_adver_timer r
  | TPreemptDelay => r_preempt_delay_timer r
  | TStatsOut => r_stats_out_timer r
  end.

Definition set_timer (t : timer_name) (v : timer) (r : vrouter) : vrouter :=
  match t with
  | TMasterDown => r <| r_master_down_timer := v |>
  | TAdver => r <| r_adver_timer := v |>
  | TPreemptDelay => r <| r_preempt_delay_timer := v |>
  | TStatsOut => r <| r_stats_out_timer := v |>
  end.

Definition is_running (t : timer_name) (r : vrouter) : bool :=
  match get_timer t r with NoThread => false | _ => true end.

Definition timer_cancel (t : timer_name) : VM () :=
  running ← gets (is_running t);
  when running (modify (set_timer t NoThread)).

Definition timer_start (t : timer_name) (interval : Q) : VM () :=
  running ← gets (is_running t);
  when running (timer_cancel t);;
  modify (set_timer t (Waiting interval)).

Definition timer_event (t : timer_name) : event :=
  match t with
  | TMasterDown => EvMasterDown
  | TAdver => EvAdver
  | TPreemptDelay => EvPreemptDelay
  | TStatsOut => EvStatisticsOut
  end.

(** [_timer] after its wait: the handler posts the event to the application. *)
Definition timer_fire (t : timer_name) : VM () :=
  r ← get_st;
  match get_timer t r with
  | Waiting _ =>
      modify (set_timer t Fired);;
      modify (λ r, r <| r_events ::= λ q, q ++ [timer_event t] |>)
  | _ => mret tt
  end.

(** ** Parameters *)

(** [256.0 - priority] over [256.0], times the interval in version 3. *)
Definition skew_time (r : vrouter) : outcome pyexn Q :=
  match r_version r with
  | V2 => Ret ((256 - inject_Z (c_priority (r_config r))) / 256)%Q
  | V3 =>
      match r_master_adver_interval r with
      | None => Raise TypeError
      | Some i => Ret ((256 - inject_Z (c_priority (r_config r))) * i / 256)%Q
      end
  end.

Definition master_down_interval (r : vrouter) : outcome pyexn Q :=
  match r_master_adver_interval r with
  | None => Raise TypeError
  | Some i => s ← skew_time r; Ret (3 * i + s)%Q
  end.

(** ** The advertisement *)

Definition sec_in_max_adver_int_unit (v : version) : Z :=
  match v with V2 => 1 | V3 => 100 end.

(** [int] truncates towards zero. *)
Definition sec_to_max_adver_int (v : version) (seconds : Q) : Z :=
  Z.quot (Qnum seconds * sec_in_max_adver_int_unit v) (Zpos (Qden seconds)).

Definition max_adver_int_in_sec (p : vrrp_pkt) : Q :=
  (inject_Z (v_max_adver_int p) / inject_Z (sec_in_max_adver_int_unit (v_version p)))%Q.

Definition is_byte (z : Z) : bool := (0 <=? z) && (z <? 256).

(** *** Addresses (addrconv.py) *)

Inductive ip_version := IPv4 | IPv6.

#[export] Instance ip_version_eq_dec : EqDecision ip_version.
Proof. solve_decision. Defined.

(** What addrconv.py takes from the netaddr package: [IPAddress(text, version).packed]
    and the packed address and mask of [IPNetwork(text, version)], [None] where the
    constructor raises. *)
Class netaddr := Netaddr {
  IPAddress : ip_version → string → option (list Z);
  IPNetwork : ip_version → string → option (list Z * list Z)
}.

(** [text_to_bin] gives bytes, or a pair when only the fallback reads the text. *)
Inductive bin :=
| Bin (b : list Z)
| BinPair (ip netmask : list Z).

Definition VRRP_IPV4_DST_ADDRESS := "224.0.0.18"%string.
Definition VRRP_IPV6_DST_ADDRESS := "ff02::12"%string.

(** Byte strings compare lexicographically. *)
Fixpoint bytes_lt (b1 b2 : list Z) : bool :=
  match b1, b2 with
  | [], [] => false
  | [], _ :: _ => true
  | _ :: _, [] => false
  | x :: b1, y :: b2 => (x <? y) || ((x =? y) && bytes_lt b1 b2)
  end.

Section packets.
Context `{Net : netaddr}.

Definition text_to_bin (v : ip_version) (text : string) : outcome pyexn bin :=
  match IPAddress v text, IPNetwork v text with
  | Some b, _ => Ret (Bin b)
  | None, Some (ip, netmask) => Ret (BinPair ip netmask)
  | None, None => Raise (RyuException "AddrFormatError")
  end.

Definition is_ipv6 (ip_address : string) : outcome pyexn bool :=
  match text_to_bin IPv4 ip_address with
  | Ret _ => Ret false
  | Raise _ => text_to_bin IPv6 ip_address;; Ret true
  end.

Definition ip_text_to_bin (ip_text : string) : outcome pyexn bin :=
  six ← is_ipv6 ip_text;
  text_to_bin (if (six : bool) then IPv6 else IPv4) ip_text.

(** [<] of bytes, of pairs, and of one of each. *)
Definition bin_lt (b1 b2 : bin) : outcome pyexn bool :=
  match b1, b2 with
  | Bin b1, Bin b2 => Ret (bytes_lt b1 b2)
  | BinPair ip1 m1, BinPair ip2 m2 =>
      Ret (bytes_lt ip1 ip2 || (bool_decide (ip1 = ip2) && bytes_lt m1 m2))
  | _, _ => Raise TypeError
  end.

Definition ip_address_lt (ip1 ip2 : string) : outcome pyexn bool :=
  b1 ← ip_text_to_bin ip1;
  b2 ← ip_text_to_bin ip2;
  bin_lt b1 b2.

(** [struct.pack] with [4s] or [16s] refuses a pair. *)
Definition pack_bin (b : bin) : outcome pyexn () :=
  match b with Bin _ => Ret tt | BinPair _ _ => Raise StructError end.

Fixpoint texts_to_bin (v : ip_version) (texts : list string) : outcome pyexn (list bin) :=
  match texts with
  | [] => Ret []
  | text :: texts =>
      b ← text_to_bin v text;
      bs ← texts_to_bin v texts;
      Ret (b :: bs)
  end.

Fixpoint pack_bins (bs : list bin) : outcome pyexn () :=
  match bs with
  | [] => Ret tt
  | b :: bs => pack_bin b;; pack_bins bs
  end.

Definition pack_addresses (v : ip_version) (texts : list string) : outcome pyexn () :=
  bs ← texts_to_bin v texts;
  pack_bins bs.

(** *** The packet class (vrrp.py) *)

(** [vrrp.__init__] looks at the first address. *)
Definition create_version (v : version) (type_ vrid priority max_adver_int : Z)
    (ip_addresses : list string) : outcome pyexn vrrp_pkt :=
  match ip_addresses with
  | [] => Raise IndexError
  | a :: _ =>
      six ← is_ipv6 a;
      Ret (VrrpPkt v type_ vrid priority max_adver_int ip_addresses six)
  end.

Definition v2_serialize_static (p : vrrp_pkt) : outcome pyexn () :=
  if v_is_ipv6 p then Raise AssertionError
  else if is_byte (v_vrid p) && is_byte (v_priority p) &&
          is_byte (Z.of_nat (length (v_ip_addresses p))) && is_byte (v_max_adver_int p)
  then pack_addresses IPv4 (v_ip_addresses p)
  else Raise StructError.

(** The version of the IP header decides how the addresses are converted; the
    checksum covers the addresses of that header. *)
Definition v3_serialize_static (prev : ip_version) (src dst : string) (p : vrrp_pkt) :
    outcome pyexn () :=
  if VRRP_V3_MAX_ADVER_INT_MASK <? v_max_adver_int p then Raise AssertionError
  else if is_byte (v_vrid p) && is_byte (v_priority p) &&
          is_byte (Z.of_nat (length (v_ip_addresses p))) && (0 <=? v_max_adver_int p)
  then
    pack_addresses prev (v_ip_addresses p);;
    pack_addresses prev [src; dst]
  else Raise StructError.

(** [create_packet] and [serialize] of the packet it builds: the VRRP header, the
    IP header, the VLAN tag; the Ethernet header cannot fail after them. *)
Definition packet_serialize (p : vrrp_pkt) (primary_ip_address : string)
    (vlan_id : option Z) : outcome pyexn () :=
  let ip := if v_is_ipv6 p then IPv6 else IPv4 in
  let dst := if v_is_ipv6 p then VRRP_IPV6_DST_ADDRESS else VRRP_IPV4_DST_ADDRESS in
  match v_version p with
  | V2 => v2_serialize_static p
  | V3 => v3_serialize_static ip primary_ip_address dst p
  end;;
  pack_addresses ip [primary_ip_address; dst];;
  match vlan_id with
  | None => Ret tt
  | Some vid => if (0 <=? vid) && (vid <? 65536) then Ret tt else Raise StructError
  end.
End packets.

Section handlers.
Context `{Net : netaddr}.

Definition send_advertisement (release : bool) : VM () :=
  r ← get_st;
  let config := r_config r in
  let v := r_version r in
  when (bool_decide (r_vrrp r = None))
    (p ← lift (create_version v VRRP_TYPE_ADVERTISEMENT (c_vrid config)
                 (c_priority config)
                 (sec_to_max_adver_int v (c_advertisement_interval config))
                 (c_ip_addresses config));
     modify (λ r, r <| r_vrrp := Some p |>));;
  cached ← gets r_vrrp;
  match cached : option vrrp_pkt with
  | None => raise AttributeError
  | Some cached =>
      vrrp_ ← (if release
               then lift (create_version (v_version cached) (v_type cached) (v_vrid cached)
                            VRRP_PRIORITY_RELEASE_RESPONSIBILITY (v_max_adver_int cached)
                            (v_ip_addresses cached))
               else mret cached);
      when (v_priority cached =? 0) (modify (λ r, r <| r_tx_zero_prio ::= Z.add 1 |>));;
      lift (packet_serialize vrrp_ (r_primary_ip r) (r_vlan r));;
      emit (Transmit vrrp_ (r_primary_ip r) (r_vlan r));;
      modify (λ r, r <| r_tx_packets ::= Z.add 1 |>)
  end.

(** [state_change] selects the state object by the name of the state. *)
Definition state_change (new_state : vstate) : VM () :=
  old_state ← gets r_state;
  modify (λ r, r <| r_state := Some new_state |>);;
  emit (StateChanged old_state new_state).

Definition adver_interval (r : vrouter) : Q := c_advertisement_interval (r_config r).

(** Starts the master down timer with the interval the parameters give. *)
Definition start_master_down : VM () :=
  r ← get_st;
  interval ← lift (master_down_interval r);
  timer_start TMasterDown interval.

Definition start_skew : VM () :=
  r ← get_st;
  interval ← lift (skew_time r);
  timer_start TMasterDown interval.

Definition start_adver : VM () :=
  i ← gets adver_interval;
  timer_start TAdver i.

(** ** Version 2 *)

(** The condition under which a master gives way; [or] and [and] look at the
    addresses only on equal priorities. *)
Definition outranked (config : config) (vrrp_ : vrrp_pkt) (primary_ip_address src : string) :
    outcome pyexn bool :=
  if c_priority config <? v_priority vrrp_ then Ret true
  else if c_priority config =? v_priority vrrp_ then ip_address_lt primary_ip_address src
  else Ret false.

Definition v2_master_adver : VM () :=
  send_advertisement false;;
  start_adver.

Definition v2_master_vrrp_received (payload : option (string * vrrp_pkt)) : VM () :=
  match payload with
  | None => raise AttributeError
  | Some (src, vrrp_) =>
      r ← get_st;
      let config := r_config r in
      if v_priority vrrp_ =? 0 then
        send_advertisement false;;
        start_adver
      else
        yields ← lift (outranked config vrrp_ (r_primary_ip r) src);
        when (yields : bool)
          (timer_cancel TAdver;;
           state_change Backup;;
           start_master_down)
  end.

Definition v2_master_vrrp_shutdown_request : VM () :=
  timer_cancel TAdver;;
  send_advertisement true;;
  state_change Initialize.

Definition v2_master_vrrp_config_change_request (ev : config_change) : VM () :=
  when (bool_decide (is_Some (cc_priority ev)) ||
        bool_decide (is_Some (cc_advertisement_interval ev)))
    (timer_cancel TAdver;;
     v2_master_adver).

Definition v2_backup_master_down : VM () :=
  send_advertisement false;;
  timer_cancel TPreemptDelay;;
  state_change Master;;
  start_adver.

Definition Qlt_bool (x y : Q) : bool := negb (Qle_bool y x).

Definition v2_backup_vrrp_received (payload : option (string * vrrp_pkt)) : VM () :=
  match payload with
  | None => raise AttributeError
  | Some (_, vrrp_) =>
      r ← get_st;
      let config := r_config r in
      if v_priority vrrp_ =? 0 then start_skew
      else if negb (c_preempt_mode config) || (c_priority config <=? v_priority vrrp_) then
        timer_cancel TPreemptDelay;;
        start_master_down
      else
        when (c_preempt_mode config && Qlt_bool 0 (c_preempt_delay config) &&
              (v_priority vrrp_ <? c_priority config))
          (running ← gets (is_running TPreemptDelay);
           when (negb running) (timer_start TPreemptDelay (c_preempt_delay config));;
           start_master_down)
  end.

Definition v2_backup_vrrp_shutdown_request : VM () :=
  timer_cancel TMasterDown;;
  timer_cancel TPreemptDelay;;
  state_change Initialize.

Definition v2_backup_vrrp_config_change_request (ev : config_change) : VM () :=
  owner ← gets (λ r, address_owner (r_config r));
  when (bool_decide (is_Some (cc_priority ev)) && owner)
    (timer_cancel TMasterDown;;
     v2_backup_master_down);;
  when (bool_decide (is_Some (cc_preempt_mode ev)) ||
        bool_decide (is_Some (cc_preempt_delay ev)))
    (timer_cancel TPreemptDelay).

Definition v2_start : VM () :=
  modify (λ r, r <| r_master_adver_interval := Some (adver_interval r) |>);;
  state_change Initialize;;
  owner ← gets (λ r, address_owner (r_config r));
  if owner : bool then
    send_advertisement false;;
    state_change Master;;
    start_adver
  else
    state_change Backup;;
    start_master_down.

(** ** Version 3 *)

Definition v3_master_adver : VM () :=
  send_advertisement false;;
  start_adver.

Definition v3_master_vrrp_received (payload : option (string * vrrp_pkt)) : VM () :=
  match payload with
  | None => raise AttributeError
  | Some (src, vrrp_) =>
      r ← get_st;
      let config := r_config r in
      if v_priority vrrp_ =? 0 then
        send_advertisement false;;
        start_adver
      else
        yields ← lift (outranked config vrrp_ (r_primary_ip r) src);
        when (yields : bool)
          (timer_cancel TAdver;;
           modify (λ r, r <| r_master_adver_interval := Some (max_adver_int_in_sec vrrp_) |>);;
           state_change Backup;;
           start_master_down)
  end.

Definition v3_master_vrrp_shutdown_request : VM () :=
  timer_cancel TAdver;;
  send_advertisement true;;
  state_change Initialize.

Definition v3_master_vrrp_config_change_request (ev : config_change) : VM () :=
  when (bool_decide (is_Some (cc_priority ev)) ||
        bool_decide (is_Some (cc_advertisement_interval ev)))
    (timer_cancel TAdver;;
     v3_master_adver).

Definition v3_backup_master_down : VM () :=
  send_advertisement false;;
  timer_cancel TPreemptDelay;;
  state_change Master;;
  start_adver.

(** Unlike version 2, an advertisement of a router at least as good does not
    cancel the preempt delay. *)
Definition v3_backup_vrrp_received (payload : option (string * vrrp_pkt)) : VM () :=
  match payload with
  | None => raise AttributeError
  | Some (_, vrrp_) =>
      r ← get_st;
      let config := r_config r in
      if v_priority vrrp_ =? 0 then start_skew
      else if negb (c_preempt_mode config) || (c_priority config <=? v_priority vrrp_) then
        modify (λ r, r <| r_master_adver_interval := Some (max_adver_int_in_sec vrrp_) |>);;
        start_master_down
      else
        when (c_preempt_mode config && Qlt_bool 0 (c_preempt_delay config) &&
              (v_priority vrrp_ <? c_priority config))
          (running ← gets (is_running TPreemptDelay);
           when (negb running) (timer_start TPreemptDelay (c_preempt_delay config));;
           start_master_down)
  end.

Definition v3_backup_vrrp_shutdown_request : VM () :=
  timer_cancel TPreemptDelay;;
  timer_cancel TMasterDown;;
  state_change Initialize.

Definition v3_backup_vrrp_config_change_request (ev : config_change) : VM () :=
  owner ← gets (λ r, address_owner (r_config r));
  when (bool_decide (is_Some (cc_priority ev)) && owner)
    (timer_cancel TMasterDown;;
     v3_backup_master_down);;
  when (bool_decide (is_Some (cc_preempt_mode ev)) ||
        bool_decide (is_Some (cc_preempt_delay ev)))
    (timer_cancel TPreemptDelay).

Definition v3_start : VM () :=
  state_change Initialize;;
  r ← get_st;
  (if address_owner (r_config r) ||
      bool_decide (c_admin_state (r_config r) = Some "master"%string)
   then
     send_advertisement false;;
     state_change Master;;
     start_adver
   else
     modify (λ r, r <| r_master_adver_interval := Some (adver_interval r) |>);;
     state_change Backup;;
     start_master_down);;
  timer_start TStatsOut (r_statistics_interval r).

Definition start : VM () :=
  v ← gets r_version;
  match v with V2 => v2_start | V3 => v3_start end.

(** ** The handlers *)

(** The method of the state object; in the states where the method only logs it
    does nothing.  Before [start] there is no state object. *)
Definition in_state (m2 m3 b2 b3 : VM ()) : VM () :=
  r ← get_st;
  match r_state r, r_version r with
  | None, _ => raise AttributeError
  | Some Initialize, _ => mret tt
  | Some Master, V2 => m2
  | Some Master, V3 => m3
  | Some Backup, V2 => b2
  | Some Backup, V3 => b3
  end.

Definition master_down_handler : VM () :=
  in_state (mret tt) (mret tt) v2_backup_master_down v3_backup_master_down.

Definition adver_handler : VM () :=
  in_state v2_master_adver v3_master_adver (mret tt) (mret tt).

Definition preempt_delay_handler : VM () :=
  in_state (mret tt) (mret tt) v2_backup_master_down v3_backup_master_down.

Definition vrrp_received_handler (payload : option (string * vrrp_pkt)) : VM () :=
  in_state (v2_master_vrrp_received payload) (v3_master_vrrp_received payload)
    (v2_backup_vrrp_received payload) (v3_backup_vrrp_received payload).

Definition vrrp_shutdown_request_handler (instance_name : string) : VM () :=
  r ← get_st;
  assert_ (String.eqb instance_name (r_name r)) AssertionError;;
  in_state v2_master_vrrp_shutdown_request v3_master_vrrp_shutdown_request
    v2_backup_vrrp_shutdown_request v3_backup_vrrp_shutdown_request.

Definition apply_change (ev : config_change) (c : config) : config :=
  c <| c_priority ::= λ x, default x (cc_priority ev) |>
    <| c_advertisement_interval ::= λ x, default x (cc_advertisement_interval ev) |>
    <| c_preempt_mode ::= λ x, default x (cc_preempt_mode ev) |>
    <| c_preempt_delay ::= λ x, default x (cc_preempt_delay ev) |>
    <| c_accept_mode ::= λ x, default x (cc_accept_mode ev) |>.

Definition vrrp_config_change_request_handler (ev : config_change) : VM () :=
  modify (λ r, r <| r_config ::= apply_change ev |>);;
  modify (λ r, r <| r_vrrp := None |>);;
  in_state (v2_master_vrrp_config_change_request ev)
    (v3_master_vrrp_config_change_request ev)
    (v2_backup_vrrp_config_change_request ev) (v3_backup_vrrp_config_change_request ev).

Definition statistics_handler : VM () :=
  i ← gets r_statistics_interval;
  timer_start TStatsOut i.

Definition dispatch (ev : event) : VM () :=
  match ev with
  | EvMasterDown => master_down_handler
  | EvAdver => adver_handler
  | EvPreemptDelay => preempt_delay_handler
  | EvStatisticsOut => statistics_handler
  | EvReceived payload => vrrp_received_handler payload
  | EvShutdownRequest name => vrrp_shutdown_request_handler name
  | EvConfigChangeRequest change => vrrp_config_change_request_handler change
  end.

(** One turn of the application's event loop. *)
Definition event_loop_turn : VM () :=
  q ← gets r_events;
  match q : list event with
  | [] => mret tt
  | ev :: q' =>
      modify (λ r, r <| r_events := q' |>);;
      dispatch ev
  end.
End handlers.

(** ** Runs of the timers and of the advertisement *)

Lemma timer_cancel_run t r : timer_cancel t r = ([], set_timer t NoThread r, Ret tt).
Proof.
  unfold timer_cancel, is_running, mbind, M_bind, gets, when, modify.
  destruct r as [v name ip vlan c si tx txz mai st cache md ad pd so evs], t; cbn;
    [destruct md|destruct ad|destruct pd|destruct so]; done.
Qed.

Lemma timer_start_run t i r : timer_start t i r = ([], set_timer t (Waiting i) r, Ret tt).
Proof.
  unfold timer_start, mbind, M_bind, gets, when, modify.
  destruct (is_running t r); [rewrite timer_cancel_run|]; by destruct r, t.
Qed.

Lemma start_adver_run r :
  start_adver r = ([], r <| r_adver_timer := Waiting (adver_interval r) |>, Ret tt).
Proof. unfold start_adver, mbind, M_bind, gets. by rewrite timer_start_run. Qed.

Section runs.
Context `{Net : netaddr}.

(** The ranges a configuration must respect for its advertisements to serialize. *)
Record ranges_ok (v : version) (vrid priority n_ips max_adver_int : Z) : Prop := {
  ok_vrid : is_byte vrid = true;
  ok_priority : is_byte priority = true;
  ok_ips : is_byte n_ips = true;
  ok_interval : match v with
                | V2 => is_byte max_adver_int = true
                | V3 => 0 ≤ max_adver_int ≤ VRRP_V3_MAX_ADVER_INT_MASK
                end
}.

Definition family (six : bool) : ip_version := if six then IPv6 else IPv4.

Definition dst_address (six : bool) : string :=
  if six then VRRP_IPV6_DST_ADDRESS else VRRP_IPV4_DST_ADDRESS.

(** The text is an address, not a network. *)
Definition packs (v : ip_version) (text : string) : Prop := is_Some (IPAddress v text).

(** Addresses of one family, the first of which tells it; version 2 has IPv4 only. *)
Record addresses_ok (v : version) (ip : string) (vlan : option Z) (six : bool)
    (ips : list string) : Prop := {
  ok_version : v = V2 → six = false;
  ok_first : ∃ a l, ips = a :: l ∧ is_ipv6 a = Ret six;
  ok_addresses : Forall (packs (family six)) ips;
  ok_primary : packs (family six) ip;
  ok_vlan : match vlan with Some vid => 0 ≤ vid < 65536 | None => True end
}.

(** The packet serializes from an interface with this address and VLAN. *)
Definition pkt_ok (ip : string) (vlan : option Z) (p : vrrp_pkt) : Prop :=
  ranges_ok (v_version p) (v_vrid p) (v_priority p)
    (Z.of_nat (length (v_ip_addresses p))) (v_max_adver_int p) ∧
  addresses_ok (v_version p) ip vlan (v_is_ipv6 p) (v_ip_addresses p).

(** So does every advertisement of this configuration. *)
Definition config_ok (v : version) (ip : string) (vlan : option Z) (c : config) : Prop :=
  ranges_ok v (c_vrid c) (c_priority c) (Z.of_nat (length (c_ip_addresses c)))
    (sec_to_max_adver_int v (c_advertisement_interval c)) ∧
  ∃ six, addresses_ok v ip vlan six (c_ip_addresses c).

(** The cached packet, created on demand. *)
Definition cached_pkt (r : vrouter) : outcome pyexn vrrp_pkt :=
  match r_vrrp r with
  | Some p => Ret p
  | None =>
      create_version (r_version r) VRRP_TYPE_ADVERTISEMENT (c_vrid (r_config r))
        (c_priority (r_config r))
        (sec_to_max_adver_int (r_version r) (c_advertisement_interval (r_config r)))
        (c_ip_addresses (r_config r))
  end.

Definition released (release : bool) (p : vrrp_pkt) : vrrp_pkt :=
  if release
  then VrrpPkt (v_version p) (v_type p) (v_vrid p)
         VRRP_PRIORITY_RELEASE_RESPONSIBILITY (v_max_adver_int p) (v_ip_addresses p)
         (v_is_ipv6 p)
  else p.

Lemma pack_addresses_ok v texts : Forall (packs v) texts → pack_addresses v texts = Ret tt.
Proof.
  intros H. unfold pack_addresses.
  assert (∃ bs, texts_to_bin v texts = Ret bs ∧ pack_bins bs = Ret tt) as (bs & -> & Hbs).
  { induction H as [|text texts [b Hb] _ (bs & E & Hbs)]; [by exists []|].
    exists (Bin b :: bs). cbn. unfold text_to_bin. rewrite Hb. cbn. by rewrite E. }
  exact Hbs.
Qed.

Lemma released_ok b ip vlan p : pkt_ok ip vlan p → pkt_ok ip vlan (released b p).
Proof. destruct b; [|done]. by intros [ [? ? ? ?] ?]; split. Qed.

Lemma create_ok v ip vlan six type_ vrid priority interval ips :
  addresses_ok v ip vlan six ips →
  create_version v type_ vrid priority interval ips =
    Ret (VrrpPkt v type_ vrid priority interval ips six).
Proof. intros [_ (a & l & -> & E) _ _ _]. cbn. by rewrite E. Qed.

(** The multicast groups of VRRP are addresses. *)
Hypothesis groups_pack : ∀ six, packs (family six) (dst_address six).

Lemma serialize_ok ip vlan p : pkt_ok ip vlan p → packet_serialize p ip vlan = Ret tt.
Proof.
  intros [ [H1 H2 H3 H4] [Hv _ Hips Hip Hvlan] ].
  pose proof (groups_pack (v_is_ipv6 p)) as Hdst.
  pose proof (pack_addresses_ok _ _ Hips) as Eips.
  assert (Eip : pack_addresses (family (v_is_ipv6 p)) [ip; dst_address (v_is_ipv6 p)] = Ret tt)
    by (apply pack_addresses_ok; by repeat constructor).
  assert (Evlan : (match vlan with
    | None => Ret tt
    | Some vid => if (0 <=? vid) && (vid <? 65536) then Ret tt else Raise StructError
    end : outcome pyexn ()) = Ret tt).
  { destruct vlan as [vid|]; [|done]. destruct Hvlan.
    by rewrite (proj2 (Z.leb_le _ _)), (proj2 (Z.ltb_lt _ _)). }
  unfold packet_serialize, family, dst_address in *. rewrite Eip, Evlan. destruct (v_version p).
  - rewrite (Hv eq_refl) in *. unfold v2_serialize_static. rewrite (Hv eq_refl).
    by rewrite H1, H2, H3, H4, Eips.
  - destruct H4 as [H4 H5]. unfold v3_serialize_static.
    rewrite (proj2 (Z.ltb_ge _ _) H5), H1, H2, H3, (proj2 (Z.leb_le _ _) H4), Eips, Eip.
    done.
Qed.

Lemma send_advertisement_run b r p :
  cached_pkt r = Ret p → pkt_ok (r_primary_ip r) (r_vlan r) p →
  send_advertisement b r =
    ([Transmit (released b p) (r_primary_ip r) (r_vlan r)],
     r <| r_vrrp := Some p |>
       <| r_tx_zero_prio ::= (if v_priority p =? 0 then Z.add 1 else id) |>
       <| r_tx_packets ::= Z.add 1 |>, Ret tt).
Proof.
  intros Hp Hok. pose proof (serialize_ok _ _ _ (released_ok b _ _ _ Hok)) as Hser.
  assert (Hrel : (if b
    then lift (create_version (v_version p) (v_type p) (v_vrid p)
           VRRP_PRIORITY_RELEASE_RESPONSIBILITY (v_max_adver_int p) (v_ip_addresses p))
    else mret p) = (mret (released b p) : VM vrrp_pkt)).
  { destruct b; [|done]. by rewrite (create_ok _ _ _ _ _ _ _ _ _ (proj2 Hok)). }
  unfold send_advertisement, cached_pkt in *.
  destruct r as [v name ip vlan c si tx txz mai st cache md ad pd so evs]; cbn in *.
  unfold mbind, M_bind, get_st, when, modify, gets, lift, emit, mret, M_ret in *.
  destruct cache as [p'|]; cbn in *; simplify_eq; [|rewrite Hp; cbn].
  all: rewrite Hrel; cbn; destruct (v_priority p =? 0); cbn; by rewrite Hser.
Qed.

Lemma cached_ok r :
  config_ok (r_version r) (r_primary_ip r) (r_vlan r) (r_config r) →
  (∀ p, r_vrrp r = Some p → pkt_ok (r_primary_ip r) (r_vlan r) p) →
  ∃ p, cached_pkt r = Ret p ∧ pkt_ok (r_primary_ip r) (r_vlan r) p.
Proof.
  intros [Hr [six Ha] ] Hp. unfold cached_pkt. destruct (r_vrrp r) as [p|].
  - exists p. split; [done|by apply Hp].
  - rewrite (create_ok _ _ _ _ _ _ _ _ _ Ha). by eexists.
Qed.

Lemma wp_send_advertisement b r p Q :
  cached_pkt r = Ret p → pkt_ok (r_primary_ip r) (r_vlan r) p →
  (∀ n m, Q [Transmit (released b p) (r_primary_ip r) (r_vlan r)]
            (r <| r_vrrp := Some p |> <| r_tx_zero_prio := n |>
               <| r_tx_packets := m |>) (Ret tt)) →
  wp (send_advertisement b) r Q.
Proof. intros Hp Hok H. eapply wp_run; [by apply send_advertisement_run|]. apply H. Qed.
End runs.

Lemma wp_start_master_down r Q :
  is_Some (r_master_adver_interval r) →
  (∀ i, Q [] (r <| r_master_down_timer := Waiting i |>) (Ret tt)) →
  wp start_master_down r Q.
Proof.
  intros [i Hi] H. unfold start_master_down. apply wp_bind, wp_get. cbn beta iota.
  assert (∃ j, master_down_interval r = Ret j) as [j Hj].
  { unfold master_down_interval, skew_time. rewrite Hi. destruct (r_version r); by eexists. }
  apply wp_bind. eapply wp_run; [unfold lift; by rewrite Hj|]. cbn beta iota.
  eapply wp_run; [apply timer_start_run|]. apply H.
Qed.

Lemma wp_start_skew r Q :
  is_Some (r_master_adver_interval r) →
  (∀ i, Q [] (r <| r_master_down_timer := Waiting i |>) (Ret tt)) →
  wp start_skew r Q.
Proof.
  intros [i Hi] H. unfold start_skew. apply wp_bind, wp_get. cbn beta iota.
  assert (∃ j, skew_time r = Ret j) as [j Hj].
  { unfold skew_time. rewrite Hi. destruct (r_version r); by eexists. }
  apply wp_bind. eapply wp_run; [unfold lift; by rewrite Hj|]. cbn beta iota.
  eapply wp_run; [apply timer_start_run|]. apply H.
Qed.

Ltac vstep :=
  match goal with
  | |- wp (timer_cancel _) _ _ => eapply wp_run; [apply timer_cancel_run|]; cbn beta iota
  | |- wp (timer_start _ _) _ _ => eapply wp_run; [apply timer_start_run|]; cbn beta iota
  | |- wp start_adver _ _ => eapply wp_run; [apply start_adver_run|]; cbn beta iota
  | |- wp (send_advertisement _) _ _ =>
      eapply wp_send_advertisement; [assumption| | |intros ? ?; cbn beta iota]
  | |- wp start_master_down _ _ => apply wp_start_master_down; [|intros ?; cbn beta iota]
  | |- wp start_skew _ _ => apply wp_start_skew; [|intros ?; cbn beta iota]
  | |- wp (state_change _) _ _ => unfold state_change
  | _ => wp_step
  end.

(** ** The invariant of a running router *)

Section live.
Context `{Net : netaddr}.

(** The timer runs, or its event is still to be dispatched. *)
Definition armed (extra : list event) (t : timer_name) (r : vrouter) : Prop :=
  (∃ i, get_timer t r = Waiting i) ∨ timer_event t ∈ extra ++ r_events r.

Definition event_ok (v : version) (ip : string) (vlan : option Z) (ev : event) : Prop :=
  match ev with
  | EvConfigChangeRequest ch =>
      ∀ c, config_ok v ip vlan c → config_ok v ip vlan (apply_change ch c)
  | _ => True
  end.

(** [extra] is the event a handler is being run for. *)
Record vinv (extra : list event) (r : vrouter) : Prop := {
  inv_config : config_ok (r_version r) (r_primary_ip r) (r_vlan r) (r_config r);
  inv_cached p : r_vrrp r = Some p → pkt_ok (r_primary_ip r) (r_vlan r) p;
  inv_started : is_Some (r_state r);
  inv_interval : r_version r = V2 ∨ r_state r = Some Backup →
    is_Some (r_master_adver_interval r);
  inv_master : r_state r = Some Master → armed extra TAdver r;
  inv_backup : r_state r = Some Backup → armed extra TMasterDown r;
  inv_posted : Forall (event_ok (r_version r) (r_primary_ip r) (r_vlan r)) (r_events r)
}.
End live.

Lemma armed_extra (ev : event) t r : armed [ev] t r → ev ≠ timer_event t → armed [] t r.
Proof.
  intros [H|H] Hne; [by left|]. right. apply elem_of_cons in H as [H|H]; [congruence|done].
Qed.

Section invariant.
Context `{Net : netaddr}.
Hypothesis groups_pack : ∀ six, packs (family six) (dst_address six).

Lemma master_adver_good v (m : VM ()) extra :
  m = (send_advertisement false;; start_adver) →
  ∀ r, r_state r = Some Master → r_version r = v →
    config_ok v (r_primary_ip r) (r_vlan r) (r_config r) →
    (∀ p, r_vrrp r = Some p → pkt_ok (r_primary_ip r) (r_vlan r) p) →
    (v = V2 → is_Some (r_master_adver_interval r)) →
    Forall (event_ok v (r_primary_ip r) (r_vlan r)) (r_events r) →
    wp m r (λ _ r' x, x = Ret tt ∧ vinv extra r').
Proof.
  intros -> r Hst Hv Hc Hp Hi Hq. subst v.
  destruct (cached_ok r Hc Hp) as (p & Ep & Hcache).
  repeat vstep; [exact Ep|done|]. split; [done|]. destruct r; cbn in *. split; cbn; try done.
  - by intros q [= <-].
  - intros [?|?]; [by apply Hi|congruence].
  - intros _. left. by eexists.
  - congruence.
Qed.

Lemma backup_master_down_good (m : VM ()) extra :
  m = (send_advertisement false;; timer_cancel TPreemptDelay;; state_change Master;;
       start_adver) →
  ∀ r, config_ok (r_version r) (r_primary_ip r) (r_vlan r) (r_config r) →
    (∀ p, r_vrrp r = Some p → pkt_ok (r_primary_ip r) (r_vlan r) p) →
    (r_version r = V2 → is_Some (r_master_adver_interval r)) →
    Forall (event_ok (r_version r) (r_primary_ip r) (r_vlan r)) (r_events r) →
    wp m r (λ _ r' x, x = Ret tt ∧ vinv extra r' ∧ r_state r' = Some Master).
Proof.
  intros -> r Hc Hp Hi Hq. destruct (cached_ok r Hc Hp) as (p & Ep & Hcache).
  repeat vstep; [exact Ep|done|]. split; [done|]. destruct r; cbn in *. split; [|done].
  split; cbn; try done.
  - by intros q [= <-].
  - intros [?|?]; [by apply Hi|congruence].
  - intros _. left. by eexists.
Qed.

(** What a handler run for [ev] starts from, and a part of it that is kept. *)
Lemma vinv_extra ev r : vinv [ev] r → ev ≠ EvAdver → ev ≠ EvMasterDown → vinv [] r.
Proof.
  intros [Hc Hp Hs Hi Hm Hb Hq] H1 H2. split; try done.
  - intros E. apply (armed_extra ev); [by apply Hm|done].
  - intros E. apply (armed_extra ev); [by apply Hb|done].
Qed.

Lemma vinv_set_preempt extra r x :
  vinv extra r → vinv extra (r <| r_preempt_delay_timer := x |>).
Proof. intros [Hc Hp Hs Hi Hm Hb Hq]. by destruct r; split. Qed.

Lemma vinv_set_stats extra r x :
  vinv extra r → vinv extra (r <| r_stats_out_timer := x |>).
Proof. intros [Hc Hp Hs Hi Hm Hb Hq]. by destruct r; split. Qed.

(** The router entered or stays in the backup state with its timer started. *)
Lemma vinv_backup extra extra' r i :
  vinv extra r → r_state r = Some Backup →
  vinv extra' (r <| r_master_down_timer := Waiting i |>).
Proof.
  intros [Hc Hp Hs Hi Hm Hb Hq] Hst. destruct r; cbn in *. split; cbn; try done.
  - congruence.
  - intros _. left. by eexists.
Qed.

Lemma enter_backup_good extra extra' r mai ad :
  vinv extra r → r_state r = Some Master → is_Some mai →
  wp (state_change Backup;; start_master_down)
    (r <| r_adver_timer := ad |> <| r_master_adver_interval := mai |>)
    (λ _ r' x, x = Ret tt ∧ vinv extra' r').
Proof.
  intros [Hc Hp Hs Hi Hm Hb Hq] Hst Hmai. repeat vstep; [by destruct r|].
  split; [done|]. destruct r; cbn in *. split; cbn; try done.
  intros _. left. by eexists.
Qed.

(** In a state whose timer is not the one of the event, the event changes
    nothing. *)
Lemma vinv_quiet ev r :
  vinv [ev] r →
  (r_state r = Some Master → ev ≠ EvAdver) → (r_state r = Some Backup → ev ≠ EvMasterDown) →
  vinv [] r.
Proof.
  intros [Hc Hp Hs Hi Hm Hb Hq] H1 H2. split; try done.
  - intros E. apply (armed_extra ev); [by apply Hm|by apply H1].
  - intros E. apply (armed_extra ev); [by apply Hb|by apply H2].
Qed.

Lemma wp_in_state ev r (m2 m3 b2 b3 : VM ()) (Q : list vrrp_out → vrouter → outcome pyexn () → Prop) :
  vinv [ev] r →
  (r_state r = Some Initialize → Q [] r (Ret tt)) →
  (r_state r = Some Master → r_version r = V2 → wp m2 r Q) →
  (r_state r = Some Master → r_version r = V3 → wp m3 r Q) →
  (r_state r = Some Backup → r_version r = V2 → wp b2 r Q) →
  (r_state r = Some Backup → r_version r = V3 → wp b3 r Q) →
  wp (in_state m2 m3 b2 b3) r Q.
Proof.
  intros [_ _ [st Hs] _ _ _ _] H0 H2 H3 H4 H5. unfold in_state.
  apply wp_bind, wp_get. cbn beta iota. rewrite Hs.
  destruct st; [by apply H0|..]; destruct (r_version r); auto.
Qed.

Abbreviation done_good := (λ (_ : list vrrp_out) (r' : vrouter) (x : outcome pyexn ()),
  x = Ret tt ∧ vinv [] r').

(** A payload whose source address the router can compare with its own. *)
Definition comparable (payload : option (string * vrrp_pkt)) (r : vrouter) : Prop :=
  match payload with
  | Some (src, _) => ∃ b, ip_address_lt (r_primary_ip r) src = Ret b
  | None => False
  end.

Lemma outranked_raises p e src (r : vrouter) :
  outranked (r_config r) p (r_primary_ip r) src = Raise e → ¬ comparable (Some (src, p)) r.
Proof.
  unfold outranked. cbn. intros H [b Hb]. rewrite Hb in H.
  by destruct (c_priority (r_config r) <? v_priority p),
    (c_priority (r_config r) =? v_priority p).
Qed.

Lemma v2_received_master_good payload ev r :
  ev ≠ EvAdver → r_state r = Some Master → r_version r = V2 → vinv [ev] r →
  wp (v2_master_vrrp_received payload) r
    (λ _ r' x, vinv [] r' ∧ (comparable payload r → x = Ret tt)).
Proof.
  intros Hev Hst Hv Hr. pose proof Hr as [Hc Hp Hs Hi Hm Hb Hq].
  assert (Hquiet : vinv [] r) by (apply (vinv_quiet ev); [done..|congruence]).
  destruct payload as [ [src p]|].
  2: { cbn. vstep. by split. }
  unfold v2_master_vrrp_received, v3_master_vrrp_received.
  apply wp_bind, wp_get. cbn beta iota. rewrite Hv in *.
  destruct (v_priority p =? 0).
  - eapply wp_mono; [eapply (master_adver_good V2 _ []); try done; auto|].
    cbn. tauto.
  - apply wp_bind, wp_lift. cbn beta iota.
    destruct (outranked _ _ _ _) as [ [|]|e] eqn:Eo; cbn [when].
    2: { vstep. by split. }
    2: { split; [done|]. by intros ?%(outranked_raises _ _ _ _ Eo). }
    apply wp_bind. vstep.
    destruct (r_master_adver_interval r) as [mai|] eqn:Emai; [|destruct Hi; [by left|done] ].
    assert (E : set_timer TAdver NoThread r =
      r <| r_adver_timer := NoThread |> <| r_master_adver_interval := Some mai |>)
      by (destruct r; cbn in *; congruence).
    rewrite E. eapply wp_mono; [by apply (enter_backup_good [ev])|].
    by intros ? ? ? [-> ?].
Qed.

Lemma v3_received_master_good payload ev r :
  ev ≠ EvAdver → r_state r = Some Master → r_version r = V3 → vinv [ev] r →
  wp (v3_master_vrrp_received payload) r
    (λ _ r' x, vinv [] r' ∧ (comparable payload r → x = Ret tt)).
Proof.
  intros Hev Hst Hv Hr. pose proof Hr as [Hc Hp Hs Hi Hm Hb Hq].
  assert (Hquiet : vinv [] r) by (apply (vinv_quiet ev); [done..|congruence]).
  destruct payload as [ [src p]|].
  2: { cbn. vstep. by split. }
  unfold v2_master_vrrp_received, v3_master_vrrp_received.
  apply wp_bind, wp_get. cbn beta iota. rewrite Hv in *.
  destruct (v_priority p =? 0).
  - eapply wp_mono; [eapply (master_adver_good V3 _ []); done|]. cbn. tauto.
  - apply wp_bind, wp_lift. cbn beta iota.
    destruct (outranked _ _ _ _) as [ [|]|e] eqn:Eo; cbn [when].
    2: { vstep. by split. }
    2: { split; [done|]. by intros ?%(outranked_raises _ _ _ _ Eo). }
    apply wp_bind. vstep. apply wp_bind. vstep.
    change (set_timer TAdver NoThread r) with (r <| r_adver_timer := NoThread |>).
    eapply wp_mono; [by apply (enter_backup_good [ev])|].
    by intros ? ? ? [-> ?].
Qed.

Lemma v2_received_backup_good payload ev r :
  ev ≠ EvMasterDown → r_state r = Some Backup → r_version r = V2 → vinv [ev] r →
  wp (v2_backup_vrrp_received payload) r
    (λ _ r' x, vinv [] r' ∧ (is_Some payload → x = Ret tt)).
Proof.
  intros Hev Hst Hv Hr. pose proof Hr as [Hc Hp Hs Hi Hm Hb Hq].
  assert (Hquiet : vinv [] r) by (apply (vinv_quiet ev); [done|congruence|done]).
  assert (Hint : is_Some (r_master_adver_interval r)) by (apply Hi; by left).
  destruct payload as [ [src p]|]; cbn.
  2: { vstep. split; [done|]. by intros [? ?]. }
  repeat vstep; try done; (split; [|done]).
  all: try by eapply vinv_backup.
  all: change (set_timer TPreemptDelay ?x ?s) with (s <| r_preempt_delay_timer := x |>);
    eapply (vinv_backup [ev]); [by apply vinv_set_preempt|done].
Qed.

Lemma v3_received_backup_good payload ev r :
  ev ≠ EvMasterDown → r_state r = Some Backup → r_version r = V3 → vinv [ev] r →
  wp (v3_backup_vrrp_received payload) r
    (λ _ r' x, vinv [] r' ∧ (is_Some payload → x = Ret tt)).
Proof.
  intros Hev Hst Hv Hr. pose proof Hr as [Hc Hp Hs Hi Hm Hb Hq].
  assert (Hquiet : vinv [] r) by (apply (vinv_quiet ev); [done|congruence|done]).
  assert (Hint : is_Some (r_master_adver_interval r)) by (apply Hi; by right).
  destruct payload as [ [src p]|]; cbn.
  2: { vstep. split; [done|]. by intros [? ?]. }
  repeat vstep; try done; (split; [|done]).
  all: try by eapply vinv_backup.
Qed.

(** Leaving for the initialize state needs no timer. *)
Lemma vinv_initialize extra r r' :
  vinv extra r → r_version r' = r_version r → r_config r' = r_config r →
  r_primary_ip r' = r_primary_ip r → r_vlan r' = r_vlan r →
  (∀ p, r_vrrp r' = Some p → pkt_ok (r_primary_ip r) (r_vlan r) p) →
  r_master_adver_interval r' = r_master_adver_interval r →
  r_events r' = r_events r → r_state r' = Some Initialize → vinv [] r'.
Proof.
  intros [Hc Hp Hs Hi Hm Hb Hq] E1 E2 Eip Evl Hp' E3 E4 E5.
  split; rewrite ?E1, ?E2, ?Eip, ?Evl, ?E3, ?E4, ?E5; try done.
  intros [?|?]; [|done]. apply Hi. by left.
Qed.

Lemma master_shutdown_good ev r :
  vinv [ev] r →
  wp (timer_cancel TAdver;; send_advertisement true;; state_change Initialize) r done_good.
Proof.
  intros Hr. pose proof Hr as [Hc Hp Hs Hi Hm Hb Hq].
  destruct (cached_ok r Hc Hp) as (p & Ep & Hcache).
  repeat vstep; [by destruct r|by destruct r|]. split; [done|].
  eapply vinv_initialize; [exact Hr|..]; try by destruct r.
  cbn. intros q [= <-]. by destruct r.
Qed.

Lemma v2_backup_shutdown_good ev r :
  vinv [ev] r → wp v2_backup_vrrp_shutdown_request r done_good.
Proof.
  intros Hr. unfold v2_backup_vrrp_shutdown_request. repeat vstep. split; [done|].
  pose proof (inv_cached _ _ Hr). eapply vinv_initialize; [exact Hr|..]; by destruct r.
Qed.

Lemma v3_backup_shutdown_good ev r :
  vinv [ev] r → wp v3_backup_vrrp_shutdown_request r done_good.
Proof.
  intros Hr. unfold v3_backup_vrrp_shutdown_request. repeat vstep. split; [done|].
  pose proof (inv_cached _ _ Hr). eapply vinv_initialize; [exact Hr|..]; by destruct r.
Qed.

Lemma master_config_change_good ev ch r (m : VM ()) :
  m = (send_advertisement false;; start_adver) → ev ≠ EvAdver →
  r_state r = Some Master → vinv [ev] r →
  wp (when (bool_decide (is_Some (cc_priority ch)) ||
            bool_decide (is_Some (cc_advertisement_interval ch)))
        (timer_cancel TAdver;; m)) r done_good.
Proof.
  intros -> Hev Hst Hr. pose proof Hr as [Hc Hp Hs Hi Hm Hb Hq].
  vstep; [|vstep; split; [done|apply (vinv_quiet ev); [done..|congruence] ] ].
  apply wp_bind. vstep.
  eapply (master_adver_good (r_version r)); try by destruct r.
  intros E. apply Hi. by left.
Qed.

Lemma backup_config_change_good ev ch r (m : VM ()) :
  m = (send_advertisement false;; timer_cancel TPreemptDelay;; state_change Master;;
       start_adver) → ev ≠ EvMasterDown →
  r_state r = Some Backup → vinv [ev] r →
  wp (owner ← gets (λ r, address_owner (r_config r));
      when (bool_decide (is_Some (cc_priority ch)) && owner)
        (timer_cancel TMasterDown;; m);;
      when (bool_decide (is_Some (cc_preempt_mode ch)) ||
            bool_decide (is_Some (cc_preempt_delay ch)))
        (timer_cancel TPreemptDelay)) r done_good.
Proof.
  intros Hm0 Hev Hst Hr. pose proof Hr as [Hc Hp Hs Hi Hm Hb Hq].
  apply wp_bind, wp_gets. cbn beta iota. apply wp_bind.
  assert (Htail : ∀ r', vinv [] r' →
    wp (when (bool_decide (is_Some (cc_preempt_mode ch)) ||
              bool_decide (is_Some (cc_preempt_delay ch)))
          (timer_cancel TPreemptDelay)) r' done_good).
  { intros r' Hr'. repeat vstep; (split; [done|]); [by apply vinv_set_preempt|done]. }
  vstep.
  - apply wp_bind. vstep. eapply wp_mono.
    + eapply (backup_master_down_good m []); [done|try by destruct r..].
      intros E. destruct r; apply Hi; by left.
    + cbn beta. intros o r' x (-> & Hr' & _). cbn beta iota.
      eapply wp_mono; [by apply Htail|]. done.
  - vstep. apply Htail. apply (vinv_quiet ev); [done|congruence|done].
Qed.

(** When a handler is bound to return. *)
Definition returns (ev : event) (r : vrouter) : Prop :=
  match ev with
  | EvReceived payload => comparable payload r
  | EvShutdownRequest name => name = r_name r
  | _ => True
  end.

Lemma dispatch_good ev r :
  vinv [ev] r → event_ok (r_version r) (r_primary_ip r) (r_vlan r) ev →
  wp (dispatch ev) r (λ _ r' x, vinv [] r' ∧ (returns ev r → x = Ret tt)).
Proof.
  intros Hr Hev. pose proof Hr as [Hc Hp Hs Hi Hm Hb Hq].
  assert (Hdone : ∀ m, wp m r done_good →
    wp m r (λ _ r' x, vinv [] r' ∧ (returns ev r → x = Ret tt))).
  { intros m H. eapply wp_mono; [exact H|]. by intros ? ? ? [-> ?]. }
  assert (Hmd : r_state r = Some Backup → wp (send_advertisement false;;
    timer_cancel TPreemptDelay;; state_change Master;; start_adver) r done_good).
  { intros Hst. eapply wp_mono; [eapply (backup_master_down_good _ []); try done; auto|].
    by intros ? ? ? (-> & ? & _). }
  destruct ev as [| | | |payload|name|ch]; cbn [dispatch].
  - apply Hdone. apply (wp_in_state EvMasterDown); [done|..]; intros Hst.
    + split; [done|]. apply (vinv_quiet EvMasterDown); [done|congruence..].
    + intros _. vstep. split; [done|]. apply (vinv_quiet EvMasterDown); [done..|congruence].
    + intros _. vstep. split; [done|]. apply (vinv_quiet EvMasterDown); [done..|congruence].
    + intros Hv. by apply Hmd.
    + intros Hv. by apply Hmd.
  - apply Hdone. apply (wp_in_state EvAdver); [done|..]; intros Hst.
    + split; [done|]. apply (vinv_quiet EvAdver); [done|congruence..].
    + intros Hv. rewrite Hv in *. apply (master_adver_good V2); try done. auto.
    + intros Hv. rewrite Hv in *. by apply (master_adver_good V3).
    + intros _. vstep. split; [done|]. apply (vinv_quiet EvAdver); [done|congruence|done].
    + intros _. vstep. split; [done|]. apply (vinv_quiet EvAdver); [done|congruence|done].
  - apply Hdone. pose proof (vinv_extra _ _ Hr ltac:(done) ltac:(done)).
    apply (wp_in_state EvPreemptDelay); [done|..]; intros Hst; try intros Hv.
    + done.
    + by vstep.
    + by vstep.
    + by apply Hmd.
    + by apply Hmd.
  - apply Hdone. unfold statistics_handler. repeat vstep. split; [done|].
    apply (vinv_set_stats []), (vinv_extra _ _ Hr); done.
  - apply (wp_in_state (EvReceived payload)); [done|..]; intros Hst; try intros Hv.
    + split; [|done]. by apply (vinv_extra _ _ Hr).
    + by apply (v2_received_master_good _ (EvReceived payload)).
    + by apply (v3_received_master_good _ (EvReceived payload)).
    + eapply wp_mono; [by apply (v2_received_backup_good payload (EvReceived payload))|].
      intros ? ? ? [? Hx]. split; [done|]. destruct payload; [intros _; by apply Hx|done].
    + eapply wp_mono; [by apply (v3_received_backup_good payload (EvReceived payload))|].
      intros ? ? ? [? Hx]. split; [done|]. destruct payload; [intros _; by apply Hx|done].
  - unfold vrrp_shutdown_request_handler. apply wp_bind, wp_get. cbn beta iota.
    pose proof (vinv_extra _ _ Hr ltac:(done) ltac:(done)) as Hr'.
    apply wp_bind. vstep; vstep.
    2: { split; [done|]. cbn. intros ->. by rewrite String.eqb_refl in *. }
    apply (Hdone (in_state _ _ _ _)).
    apply (wp_in_state (EvShutdownRequest name)); [done|..]; intros Hst; try intros Hv.
    + done.
    + by eapply master_shutdown_good.
    + by eapply master_shutdown_good.
    + by eapply v2_backup_shutdown_good.
    + by eapply v3_backup_shutdown_good.
  - apply Hdone. unfold vrrp_config_change_request_handler.
    apply wp_bind, wp_modify. cbn beta iota. apply wp_bind, wp_modify. cbn beta iota.
    set (r1 := r <| r_config ::= apply_change ch |> <| r_vrrp := None |>).
    assert (Hr1 : vinv [EvConfigChangeRequest ch] r1).
    { subst r1. destruct r; cbn in *. split; cbn; try done. by apply Hev. }
    apply (wp_mono _ _ done_good); [|by intros ? ? ? [-> ?] ].
    apply (wp_in_state (EvConfigChangeRequest ch)); [done|..]; intros Hst; try intros Hv.
    + split; [done|]. by apply (vinv_extra _ _ Hr1).
    + by apply (master_config_change_good (EvConfigChangeRequest ch)).
    + by apply (master_config_change_good (EvConfigChangeRequest ch)).
    + by apply (backup_config_change_good (EvConfigChangeRequest ch)).
    + by apply (backup_config_change_good (EvConfigChangeRequest ch)).
Qed.

Lemma start_good v name ip vlan c si :
  config_ok v ip vlan c → wp start (new_router v name ip vlan c si) done_good.
Proof.
  intros Hc. destruct (cached_ok (new_router v name ip vlan c si)) as (p & Ep & Hcache);
    [done..|]. unfold start. apply wp_bind, wp_gets. cbn beta iota.
  change (r_version (new_router v name ip vlan c si)) with v.
  destruct v; [unfold v2_start|unfold v3_start]; repeat vstep; try exact Ep; try done;
    try by eexists.
  all: split; [done|]; split; cbn; try done; try congruence; try (by intros q [= <-]);
    try (by eexists); try (by intros [?|?]); intros _; left; by eexists.
Qed.

(** ** The machine *)

Inductive vrrp_op :=
| OpFire (t : timer_name)
| OpPost (ev : event)
| OpTurn.

(** Other applications post packets and requests, and change a configuration only
    to one whose advertisements serialize. *)
Definition vrrp_step (r : vrouter) (op : vrrp_op) (r' : vrouter) : Prop :=
  match op with
  | OpFire t => r' = final (timer_fire t) r
  | OpPost ev => event_ok (r_version r) (r_primary_ip r) (r_vlan r) ev ∧ r' = r <| r_events ::= λ q, q ++ [ev] |>
  | OpTurn => r' = final (event_loop_turn) r
  end.

(** A router that was given a configuration its interface can send. *)
Definition vrrp_init (c : config) (v : version) (r : vrouter) : Prop :=
  ∃ name ip vlan si,
    config_ok v ip vlan c ∧ r = final start (new_router v name ip vlan c si).

Lemma armed_post extra t r ev :
  armed extra t r → armed extra t (r <| r_events ::= λ q, q ++ [ev] |>).
Proof.
  intros [H|H]; [left; by destruct r, t|]. right. cbn.
  rewrite elem_of_app in *. destruct H; [by left|]. right. rewrite elem_of_app. by left.
Qed.

Lemma armed_fire extra t t' r :
  armed extra t r → armed extra t (final (timer_fire t') r).
Proof.
  unfold final, timer_fire, mbind, M_bind, get_st. cbn.
  destruct (get_timer t' r) as [|i|] eqn:E; cbn; [done| |done].
  intros [ [j H]|H].
  - assert (t = t' ∨ t ≠ t') as [Et|Hne] by (destruct t, t'; auto; by right).
    + right. destruct r, t, t'; cbn in *; try done;
        rewrite !elem_of_app, list_elem_of_singleton; auto.
    + left. exists j. destruct r, t, t'; cbn in *; congruence.
  - right. destruct r, t'; cbn in *; rewrite !elem_of_app in *; tauto.
Qed.

Lemma vinv_fire t r : vinv [] r → vinv [] (final (timer_fire t) r).
Proof.
  intros [Hc Hp Hs Hi Hm Hb Hq].
  assert (Hm' : r_state r = Some Master → armed [] TAdver (final (timer_fire t) r))
    by (intros; apply armed_fire; auto).
  assert (Hb' : r_state r = Some Backup → armed [] TMasterDown (final (timer_fire t) r))
    by (intros; apply armed_fire; auto).
  unfold final, timer_fire, mbind, M_bind, get_st in *. cbn in *.
  destruct (get_timer t r) eqn:E; cbn in *; [done| |done].
  destruct r, t; cbn in *; split; cbn; try done; apply Forall_app; split; try done;
    by repeat constructor.
Qed.

Lemma vinv_turn r : vinv [] r → vinv [] (final (event_loop_turn) r).
Proof.
  intros Hr. unfold event_loop_turn.
  apply (wp_unfold _ _ (λ _ r' _, vinv [] r')).
  apply wp_bind, wp_gets. cbn beta iota.
  destruct (r_events r) as [|ev q] eqn:Eq; [by vstep|].
  apply wp_bind, wp_modify. cbn beta iota.
  destruct Hr as [Hc Hp Hs Hi Hm Hb Hq]. rewrite Eq in *.
  apply Forall_cons in Hq as [Hev Hq].
  eapply wp_mono; [apply dispatch_good|].
  - unfold armed in *. rewrite Eq in *. by destruct r; split.
  - by destruct r.
  - by intros ? ? ? [? _].
Qed.

Lemma vinv_post ev r :
  vinv [] r → event_ok (r_version r) (r_primary_ip r) (r_vlan r) ev → vinv [] (r <| r_events ::= λ q, q ++ [ev] |>).
Proof.
  intros Hr Hev. pose proof Hr as [H1 H2 H3 H4 H5 H6 H7].
  pose proof (λ E, armed_post [] TAdver r ev (H5 E)).
  pose proof (λ E, armed_post [] TMasterDown r ev (H6 E)).
  destruct r; cbn in *. split; cbn; try done.
  apply Forall_app. split; [done|by repeat constructor].
Qed.

Lemma vinv_reachable c v r :
  reachable (vrrp_init c v) vrrp_step r → vinv [] r.
Proof.
  revert r. apply reachable_inv.
  - intros r (name & ip & vlan & si & Hc & ->). apply (start_good v name ip vlan c si Hc).
  - intros r [t|ev|] r' Hr.
    + intros ->. by apply vinv_fire.
    + intros [Hev ->]. by apply vinv_post.
    + intros ->. by apply vinv_turn.
Qed.

(** C15: a running VRRP router never gets stuck.  Start it with a configuration
    whose advertisements serialize ([config_ok]: identifier, priority, number of
    addresses and interval within the fields of the packet, all addresses and the
    interface's own of one family, IPv4 for version 2).  Whatever the interleaving
    of timer expiries, received packets (malformed ones and incomparable sources
    included), configuration changes to configurations that serialize as well, and
    dispatches, in every reachable state a master has its advertisement timer
    running or its event queued, and a backup has its master down timer running or
    its event queued.  Without the condition the claim fails
    ([v2_ipv6_backup_dies]). *)
Theorem vrrp_timers_live c v r :
  reachable (vrrp_init c v) vrrp_step r →
  (r_state r = Some Master → armed [] TAdver r) ∧
  (r_state r = Some Backup → armed [] TMasterDown r) ∧
  is_Some (r_state r).
Proof. intros Hr. by destruct (vinv_reachable c v r Hr). Qed.

(** no handler fails in a reachable state, except on an event without a VRRP
    payload or from an address that cannot be compared with the router's own, or on
    a shutdown request for another instance. *)
Theorem vrrp_handlers_return c v r ev q :
  reachable (vrrp_init c v) vrrp_step r →
  r_events r = ev :: q → returns ev r →
  result (event_loop_turn) r = Ret tt.
Proof.
  intros Hr Eq Hret. destruct (vinv_reachable c v r Hr) as [? ? ? ? ? ? Hq].
  unfold event_loop_turn.
  apply (wp_unfold _ _ (λ _ _ x, x = Ret tt)). apply wp_bind, wp_gets. cbn beta iota.
  rewrite Eq in *. apply Forall_cons in Hq as [Hev Hq].
  apply wp_bind, wp_modify. cbn beta iota.
  eapply wp_mono; [apply (dispatch_good ev)|].
  - unfold armed in *. rewrite Eq in *. by destruct r; split.
  - by destruct r.
  - intros ? ? ? [_ H']. apply H'. by destruct ev, r.
Qed.

(** ** Election *)

(** The rank of a router: its priority, then its primary address. *)
Definition outranks (prio1 : Z) (b1 : list Z) (prio2 : Z) (b2 : list Z) : bool :=
  (prio2 <? prio1) || ((prio2 =? prio1) && bytes_lt b2 b1).

Lemma bytes_lt_total b1 b2 : b1 ≠ b2 → bytes_lt b1 b2 = negb (bytes_lt b2 b1).
Proof.
  revert b2. induction b1 as [|x b1 IH]; intros [|y b2] Hne; cbn; try done.
  destruct (Z.ltb_spec x y), (Z.ltb_spec y x), (Z.eqb_spec x y), (Z.eqb_spec y x);
    try lia; cbn; try done. subst. apply IH. congruence.
Qed.

Lemma outranked_outranks c p ip src b1 b2 :
  ip_text_to_bin ip = Ret (Bin b1) → ip_text_to_bin src = Ret (Bin b2) →
  outranked c p ip src = Ret (outranks (v_priority p) b2 (c_priority c) b1).
Proof.
  intros E1 E2. unfold outranked, outranks, ip_address_lt. rewrite E1, E2.
  by destruct (_ <? _), (_ =? _).
Qed.

(** A master goes to the backup state exactly on an advertisement that outranks
    it and is not a release. *)
Lemma received_in_master r src p b1 b2 :
  vinv [] r → r_state r = Some Master →
  ip_text_to_bin (r_primary_ip r) = Ret (Bin b1) → ip_text_to_bin src = Ret (Bin b2) →
  r_state (final (vrrp_received_handler (Some (src, p))) r) =
    Some (if negb (v_priority p =? 0) &&
             outranks (v_priority p) b2 (c_priority (r_config r)) b1
          then Backup else Master).
Proof.
  intros [Hc Hp Hs Hi Hm Hb Hq] Hst E1 E2.
  pose proof (outranked_outranks (r_config r) p _ _ _ _ E1 E2) as Eo.
  destruct (cached_ok r Hc Hp) as (q & Eq & Hcache).
  apply (wp_unfold _ _ (λ _ r' _, r_state r' = _)).
  unfold vrrp_received_handler, in_state. apply wp_bind, wp_get. cbn beta iota.
  rewrite Hst.
  destruct (r_version r) eqn:Hv; apply wp_bind, wp_get; cbn beta iota;
    destruct (v_priority p =? 0); cbn [negb andb];
    try (apply wp_bind, wp_lift; rewrite Eo; cbn beta iota; destruct (outranks _ _ _ _);
      cbn [when]); repeat vstep; try exact Eq; try done; destruct r; cbn in *; auto;
    by eexists.
Qed.

(** the election resolves a conflict.  Of two masters with different addresses
    that hear each other's advertisements exactly one becomes backup: the one with
    the lower priority, or on equal priorities the lower address. *)
Theorem two_masters_one_yields c1 v1 r1 c2 v2 r2 p1 p2 b1 b2 :
  reachable (vrrp_init c1 v1) vrrp_step r1 → r_state r1 = Some Master →
  reachable (vrrp_init c2 v2) vrrp_step r2 → r_state r2 = Some Master →
  v_priority p1 = c_priority (r_config r1) → v_priority p2 = c_priority (r_config r2) →
  0 < v_priority p1 → 0 < v_priority p2 →
  ip_text_to_bin (r_primary_ip r1) = Ret (Bin b1) →
  ip_text_to_bin (r_primary_ip r2) = Ret (Bin b2) → b1 ≠ b2 →
  let r1' := final (vrrp_received_handler (Some (r_primary_ip r2, p2))) r1 in
  let r2' := final (vrrp_received_handler (Some (r_primary_ip r1, p1))) r2 in
  if outranks (v_priority p1) b1 (v_priority p2) b2
  then r_state r1' = Some Master ∧ r_state r2' = Some Backup
  else r_state r1' = Some Backup ∧ r_state r2' = Some Master.
Proof.
  intros Hr1 Hs1 Hr2 Hs2 E1 E2 H1 H2 Hb1 Hb2 Hne. cbv zeta.
  rewrite (received_in_master r1 _ _ b1 b2), (received_in_master r2 _ _ b2 b1)
    by eauto using vinv_reachable.
  rewrite <- E1, <- E2.
  rewrite (proj2 (Z.eqb_neq _ _)), (proj2 (Z.eqb_neq _ _)) by lia. cbn [negb andb].
  unfold outranks. rewrite (bytes_lt_total b1) by done.
  destruct (Z.ltb_spec (v_priority p2) (v_priority p1)),
    (Z.ltb_spec (v_priority p1) (v_priority p2)),
    (Z.eqb_spec (v_priority p2) (v_priority p1)),
    (Z.eqb_spec (v_priority p1) (v_priority p2)); try lia; cbn; try done.
  by destruct (bytes_lt _ _).
Qed.

(** the backup with the higher priority takes over first.  Of two backups that
    follow the same master the one with the higher priority waits strictly less;
    a backup waits more than three advertisement intervals, and in version 3 at
    most four. *)
Theorem higher_priority_waits_less r1 r2 i :
  r_version r1 = r_version r2 →
  r_master_adver_interval r1 = Some i → r_master_adver_interval r2 = Some i →
  (0 < i)%Q → c_priority (r_config r2) < c_priority (r_config r1) →
  0 ≤ c_priority (r_config r2) → c_priority (r_config r1) ≤ 255 →
  ∃ d1 d2, master_down_interval r1 = Ret d1 ∧ master_down_interval r2 = Ret d2 ∧
    (d1 < d2)%Q ∧ (3 * i < d1)%Q ∧ (r_version r1 = V3 → d2 <= 4 * i)%Q.
Proof.
  intros Ev E1 E2 Hi Hlt H0 H255. unfold master_down_interval, skew_time.
  rewrite <- Ev, E1, E2. rewrite Zlt_Qlt in Hlt. rewrite Zle_Qle in H0, H255.
  cbn [inject_Z] in H0, H255. set (q1 := inject_Z (c_priority (r_config r1))) in *.
  set (q2 := inject_Z (c_priority (r_config r2))) in *.
  change (inject_Z 0) with 0%Q in H0. change (inject_Z 255) with 255%Q in H255.
  destruct (r_version r1); cbn; eexists _, _; split_and!; try done; unfold Qdiv.
  - change (/ 256)%Q with (1 # 256)%Q. lra.
  - change (/ 256)%Q with (1 # 256)%Q. lra.
  - change (/ 256)%Q with (1 # 256)%Q. nra.
  - change (/ 256)%Q with (1 # 256)%Q. nra.
  - intros _. change (/ 256)%Q with (1 # 256)%Q. nra.
Qed.

(** a shutdown request makes a master send one advertisement with priority zero
    and stop its advertisement timer before it becomes idle; the counter of
    zero-priority advertisements does not count it, unless the configured priority
    was zero already. *)
Theorem shutdown_releases r name p :
  vinv [] r → r_state r = Some Master → name = r_name r → cached_pkt r = Ret p →
  let h := vrrp_shutdown_request_handler name in
  outputs h r = [Transmit (released true p) (r_primary_ip r) (r_vlan r);
                 StateChanged (Some Master) Initialize] ∧
  v_priority (released true p) = 0 ∧
  r_state (final h r) = Some Initialize ∧ r_adver_timer (final h r) = NoThread ∧
  r_tx_packets (final h r) = 1 + r_tx_packets r ∧
  (v_priority p ≠ 0 → r_tx_zero_prio (final h r) = r_tx_zero_prio r).
Proof.
  intros [Hc Hp Hs Hi Hm Hb Hq] Hst -> Ep. cbv zeta.
  destruct (cached_ok r Hc Hp) as (q & Eq & Hcache).
  assert (q = p) as -> by congruence.
  apply (wp_unfold _ _ (λ o r' _, o = _ ∧ _ = 0 ∧ r_state r' = _ ∧ r_adver_timer r' = _ ∧
    r_tx_packets r' = _ ∧ (_ → r_tx_zero_prio r' = _))).
  unfold vrrp_shutdown_request_handler, in_state.
  apply wp_bind, wp_get. cbn beta iota. rewrite String.eqb_refl.
  apply wp_bind, wp_ret. cbn beta iota. apply wp_bind, wp_get. cbn beta iota. rewrite Hst.
  assert (Hrun : wp (timer_cancel TAdver;; send_advertisement true;;
    state_change Initialize) r (λ o r' _,
      o = [Transmit (released true p) (r_primary_ip r) (r_vlan r);
           StateChanged (Some Master) Initialize] ∧
      r_state r' = Some Initialize ∧ r_adver_timer r' = NoThread ∧
      r_tx_packets r' = 1 + r_tx_packets r ∧
      (v_priority p ≠ 0 → r_tx_zero_prio r' = r_tx_zero_prio r))).
  { apply wp_bind. vstep. apply wp_bind. eapply wp_run.
    { apply (send_advertisement_run groups_pack _ _ p); by destruct r. }
    cbn beta iota. repeat vstep. destruct r; cbn in *. rewrite Hst.
    split_and!; try done. intros Hne. by rewrite (proj2 (Z.eqb_neq _ _) Hne). }
  destruct (r_version r); (eapply wp_mono; [exact Hrun|]); cbn;
    intros o r' x (-> & ? & ? & ? & ?); by split_and!.
Qed.
End invariant.

(** ** Witnesses and a history *)

Module VrrpWitness.
(** A part of the texts netaddr reads. *)
Definition ipv4_texts : list (string * list Z) := [
  ("10.0.0.1"%string, [10; 0; 0; 1]); ("10.0.0.2"%string, [10; 0; 0; 2]);
  ("10.0.0.3"%string, [10; 0; 0; 3]); ("10.0.0.9"%string, [10; 0; 0; 9]);
  (VRRP_IPV4_DST_ADDRESS, [224; 0; 0; 18])
].
Definition ipv6_texts : list (string * list Z) := [
  ("fe80::1"%string, [254; 128; 0; 0; 0; 0; 0; 0; 0; 0; 0; 0; 0; 0; 0; 1]);
  ("fe80::9"%string, [254; 128; 0; 0; 0; 0; 0; 0; 0; 0; 0; 0; 0; 0; 0; 9]);
  (VRRP_IPV6_DST_ADDRESS, [255; 2; 0; 0; 0; 0; 0; 0; 0; 0; 0; 0; 0; 0; 0; 18])
].

Fixpoint assoc (l : list (string * list Z)) (text : string) : option (list Z) :=
  match l with
  | [] => None
  | (t, b) :: l => if String.eqb t text then Some b else assoc l text
  end.

#[export] Instance some_netaddr : netaddr := Netaddr
  (λ v, assoc (match v with IPv4 => ipv4_texts | IPv6 => ipv6_texts end))
  (λ _ _, None).

Lemma groups_pack six : packs (family six) (dst_address six).
Proof. destruct six; by eexists. Qed.

Definition cfg (prio : Z) (delay : Q) : config :=
  Config 7 None prio ["10.0.0.9"%string] 1 true delay false.
Definition cfg6 (prio : Z) (delay : Q) : config :=
  Config 7 None prio ["fe80::9"%string] 1 true delay false.

Lemma cfg_ok v ip prio delay :
  packs IPv4 ip → is_byte prio = true → config_ok v ip None (cfg prio delay).
Proof.
  intros Hip H. split; [destruct v; split; cbn; done || lia|]. exists false. split; cbn.
  - done.
  - by exists "10.0.0.9"%string, [].
  - constructor; [by eexists|done].
  - done.
  - done.
Qed.

Definition backup (v : version) : vrouter :=
  final start (new_router v "a" "10.0.0.1" None (cfg 100 5) 30).
Definition master (ip : string) (prio : Z) : vrouter :=
  final event_loop_turn (final (timer_fire TMasterDown)
    (final start (new_router V3 "a" ip None (cfg prio 0) 30))).
Definition advert (prio : Z) : vrrp_pkt :=
  VrrpPkt V3 1 7 prio 100 ["10.0.0.9"%string] false.

Lemma master_reachable ip prio :
  packs IPv4 ip → is_byte prio = true →
  reachable (vrrp_init (cfg prio 0) V3) vrrp_step (master ip prio).
Proof.
  intros Hip Hprio.
  apply (reach_step _ _ (final (timer_fire TMasterDown)
    (final start (new_router V3 "a" ip None (cfg prio 0) 30))) OpTurn); [|done].
  apply (reach_step _ _ (final start (new_router V3 "a" ip None (cfg prio 0) 30))
    (OpFire TMasterDown)); [|done].
  apply reach_init. exists "a"%string, ip, None, 30%Q. split; [by apply cfg_ok|done].
Qed.

Lemma live_witness :
  let r := master "10.0.0.1" 100 in
  r_state r = Some Master ∧
  ((r_state r = Some Master → armed [] TAdver r) ∧
   (r_state r = Some Backup → armed [] TMasterDown r) ∧ is_Some (r_state r)).
Proof.
  cbv zeta. split; [by vm_compute|].
  apply (vrrp_timers_live groups_pack (cfg 100 0) V3).
  apply master_reachable; [by eexists|done].
Defined.

Lemma handlers_witness :
  let r := final (timer_fire TMasterDown) (backup V3) in
  r_events r = [EvMasterDown] ∧ result event_loop_turn r = Ret tt.
Proof.
  cbv zeta. split; [by vm_compute|].
  apply (vrrp_handlers_return groups_pack (cfg 100 5) V3 _ EvMasterDown []).
  - apply (reach_step _ _ (backup V3) (OpFire TMasterDown)); [|done].
    apply reach_init. exists "a"%string, "10.0.0.1"%string, None, 30%Q.
    split; [|done]. apply cfg_ok; [by eexists|done].
  - by vm_compute.
  - done.
Defined.

Lemma election_witness :
  let r1 := master "10.0.0.1" 100 in
  let r2 := master "10.0.0.2" 100 in
  let r1' := final (vrrp_received_handler (Some (r_primary_ip r2, advert 100))) r1 in
  let r2' := final (vrrp_received_handler (Some (r_primary_ip r1, advert 100))) r2 in
  if outranks 100 [10; 0; 0; 1] 100 [10; 0; 0; 2]
  then r_state r1' = Some Master ∧ r_state r2' = Some Backup
  else r_state r1' = Some Backup ∧ r_state r2' = Some Master.
Proof.
  cbv zeta.
  apply (two_masters_one_yields groups_pack (cfg 100 0) V3 (master "10.0.0.1" 100)
    (cfg 100 0) V3 (master "10.0.0.2" 100) (advert 100) (advert 100));
    try (by apply master_reachable; [eexists|]); by vm_compute.
Defined.

Lemma waits_less_witness :
  let r1 := backup V3 in
  let r2 := final start (new_router V3 "b" "10.0.0.2" None (cfg 50 5) 30) in
  ∃ d1 d2, master_down_interval r1 = Ret d1 ∧ master_down_interval r2 = Ret d2 ∧
    (d1 < d2)%Q ∧ (3 * 1 < d1)%Q ∧ (r_version r1 = V3 → d2 <= 4 * 1)%Q.
Proof. cbv zeta. apply higher_priority_waits_less; done || by vm_compute. Defined.

Definition plain_master : vrouter :=
  VRouter V3 "a" "10.0.0.1" None (cfg 100 0) 30 5 0 (Some 1%Q) (Some Master) None
    NoThread (Waiting 1) NoThread NoThread [].

Lemma plain_master_ok : vinv [] plain_master.
Proof.
  split; cbn; try done.
  - apply cfg_ok; [by eexists|done].
  - intros _. left. by eexists.
Qed.

Lemma shutdown_witness :
  let r := plain_master in
  let h := vrrp_shutdown_request_handler "a" in
  outputs h r = [Transmit (released true (advert 100)) (r_primary_ip r) (r_vlan r);
                 StateChanged (Some Master) Initialize] ∧
  v_priority (released true (advert 100)) = 0 ∧
  r_state (final h r) = Some Initialize ∧ r_adver_timer (final h r) = NoThread ∧
  r_tx_packets (final h r) = 1 + r_tx_packets r ∧
  (v_priority (advert 100) ≠ 0 → r_tx_zero_prio (final h r) = r_tx_zero_prio r).
Proof.
  by apply (shutdown_releases groups_pack plain_master "a" (advert 100) plain_master_ok).
Defined.

(** A version 2 router with IPv6 addresses starts as a backup, fails the assertion of
    the serializer when its master down timer expires, and has no timer left; with
    version 3 the same router becomes master. *)
Definition expired (v : version) : vrouter :=
  final (timer_fire TMasterDown)
    (final start (new_router v "a" "fe80::1" None (cfg6 100 0) 30)).

Example v2_ipv6_backup_dies :
  result event_loop_turn (expired V2) = Raise AssertionError ∧
  r_state (final event_loop_turn (expired V2)) = Some Backup ∧
  r_master_down_timer (final event_loop_turn (expired V2)) = Fired ∧
  r_events (final event_loop_turn (expired V2)) = [] ∧
  r_state (final event_loop_turn (expired V3)) = Some Master.
Proof. by vm_compute. Qed.

(** An interface without an address of the family fails too. *)
Example family_mismatch_raises :
  result event_loop_turn (final (timer_fire TMasterDown)
    (final start (new_router V3 "a" "10.0.0.1" None (cfg6 100 0) 30))) =
  Raise (RyuException "AddrFormatError").
Proof. by vm_compute. Qed.
End VrrpWitness.

#[local] Existing Instance VrrpWitness.some_netaddr.

(** version 3 lets a pending preemption oust a better master.  A backup of
    priority 100 that has started its preempt delay against a master of priority 50
    and then hears a master of priority 200 still becomes master when the delay
    expires; in version 2 the second advertisement cancels the delay and the backup
    stays a backup. *)
Theorem v3_preempts_better_master :
  let receive p := vrrp_received_handler
    (Some ("10.0.0.3"%string, VrrpWitness.advert p)) in
  let history :=
    receive 50;; receive 200;; timer_fire TPreemptDelay;; event_loop_turn in
  r_state (VrrpWitness.backup V3) = Some Backup ∧
  r_state (final history (VrrpWitness.backup V3)) = Some Master ∧
  r_state (VrrpWitness.backup V2) = Some Backup ∧
  r_state (final history (VrrpWitness.backup V2)) = Some Backup.
Proof. vm_compute. done. Qed.
