(* ===== verification/Bfd.v ===== *)
(** * BFD sessions

    Models [ryu/lib/bfdlib.py]: [BFDSession] (reception, state changes, the detection
    timeout, periodic transmission) and [BFDLib] (creation of sessions, the sanity and
    authentication checks of received packets, ARP replies).  Threads are steps: one
    iteration of [_send_loop] or of [_recv_timeout_loop] is an operation.  Log output
    is left out; one log argument ([six.binary_type(bfd_pkt)] in [recv]) works with
    Python 2 only, so this file follows Python 2.

    [randint n a b] is the n-th draw of [random.randint(a, b)]: a parameter whose law
    is that of the library, [a <= randint n a b <= b].  [authenticate] is the keyed
    digest of a packet, computed by hashlib.  Times are in microseconds where the
    code divides by 1000000.0; the transmission period is in hundredths of them. *)

From stdpp Require Import base list strings.
From Stdlib Require Import ZArith Lia.
From S2P Require Import Prelude Odict.

(** ** Constants *)

Definition UINT16_MAX := Z.shiftl 1 16 - 1.
Definition UINT32_MAX := Z.shiftl 1 32 - 1.
Definition BFD_CONTROL_UDP_PORT := 3784.

Definition BFD_STATE_ADMIN_DOWN := 0.
Definition BFD_STATE_DOWN := 1.
Definition BFD_STATE_INIT := 2.
Definition BFD_STATE_UP := 3.

Definition BFD_FLAG_POLL := Z.shiftl 1 5.
Definition BFD_FLAG_FINAL := Z.shiftl 1 4.
Definition BFD_FLAG_AUTH_PRESENT := Z.shiftl 1 2.
Definition BFD_FLAG_DEMAND := Z.shiftl 1 1.
Definition BFD_FLAG_MULTIPOINT := 1.

Definition BFD_DIAG_CTRL_DETECT_TIME_EXPIRED := 1.
Definition BFD_DIAG_NEIG_SIG_SESS_DOWN := 3.

Definition BFD_AUTH_SIMPLE_PASS := 1.
Definition BFD_AUTH_KEYED_MD5 := 2.
Definition BFD_AUTH_METICULOUS_KEYED_MD5 := 3.
Definition BFD_AUTH_KEYED_SHA1 := 4.
Definition BFD_AUTH_METICULOUS_KEYED_SHA1 := 5.

Definition ETH_TYPE_IP := 2048.
Definition ARP_REQUEST := 1.
Definition ARP_REPLY := 2.

Definition BROADCAST_MAC : string := "FF:FF:FF:FF:FF:FF".
Definition BROADCAST_IP : string := "255.255.255.255".

(** Truth value of an integer. *)
Definition truthy (z : Z) : bool := negb (z =? 0).

(** ** Data *)

(** An authentication section and its length [len(auth_cls)]; a password has no
    sequence number. *)
Record auth_section := AuthSection {
  a_type : Z;
  a_key_id : Z;
  a_seq : Z;
  a_len : Z
}.

Record bfd_pkt := BfdPkt {
  b_ver : Z;
  b_diag : Z;
  b_state : Z;
  b_flags : Z;
  b_detect_mult : Z;
  b_my_discr : Z;
  b_your_discr : Z;
  b_desired_min_tx_interval : Z;
  b_required_min_rx_interval : Z;
  b_required_min_echo_rx_interval : Z;
  b_auth : option auth_section
}.

(** The attribute [length]: the parser does not pass on the Length field it reads,
    so the constructor sets [len(self)]. *)
Definition b_length (p : bfd_pkt) : Z :=
  match b_auth p with
  | Some a => if truthy (Z.land (b_flags p) BFD_FLAG_AUTH_PRESENT) then 24 + a_len a else 24
  | None => 24
  end.

(** The event on which [_recv_timeout_loop] waits: none, or clear or set. *)
Record session := Session {
  s_state : Z;
  s_remote_session_state : Z;
  s_remote_state : option Z;
  s_local_discr : Z;
  s_remote_discr : Z;
  s_local_diag : Z;
  s_desired_min_tx_interval : Z;
  s_required_min_rx_interval : Z;
  s_remote_min_rx_interval : Z;
  s_demand_mode : Z;
  s_remote_demand_mode : Z;
  s_detect_mult : Z;
  s_auth_type : Z;
  s_auth_keys : odict Z string;
  s_rcv_auth_seq : Z;
  s_xmit_auth_seq : Z;
  s_auth_seq_known : Z;
  s_cfg_desired_min_tx_interval : Z;
  s_cfg_required_min_echo_rx_interval : Z;
  s_active_role : bool;
  s_detect_time : Z;
  s_xmit_period : Z;
  s_is_polling : bool;
  s_pending_final : bool;
  s_enable_send : bool;
  s_lock : option bool;
  s_src_mac : string;
  s_dst_mac : string;
  s_src_ip : string;
  s_dst_ip : string;
  s_ipv4_id : Z;
  s_src_port : Z;
  s_remote_addr_config : bool;
  s_dpid : Z;
  s_datapath : bool;
  s_ofport : Z
}.

#[export] Instance eta_session : Eta session := EtaBox (λ s,
  Session (s_state s) (s_remote_session_state s) (s_remote_state s) (s_local_discr s)
    (s_remote_discr s) (s_local_diag s) (s_desired_min_tx_interval s)
    (s_required_min_rx_interval s) (s_remote_min_rx_interval s) (s_demand_mode s)
    (s_remote_demand_mode s) (s_detect_mult s) (s_auth_type s) (s_auth_keys s)
    (s_rcv_auth_seq s) (s_xmit_auth_seq s) (s_auth_seq_known s)
    (s_cfg_desired_min_tx_interval s) (s_cfg_required_min_echo_rx_interval s)
    (s_active_role s) (s_detect_time s) (s_xmit_period s) (s_is_polling s)
    (s_pending_final s) (s_enable_send s) (s_lock s) (s_src_mac s) (s_dst_mac s)
    (s_src_ip s) (s_dst_ip s) (s_ipv4_id s) (s_src_port s) (s_remote_addr_config s)
    (s_dpid s) (s_datapath s) (s_ofport s)).

(** The number of random draws so far, and one session. *)
Record sess_st := SessSt {
  rng : nat;
  sess : session
}.

#[export] Instance eta_sess_st : Eta sess_st := EtaBox (λ s, SessSt (rng s) (sess s)).

Inductive bfd_out :=
| SessionStateChanged (discr old_state new_state : Z)
| SpawnSendLoop (discr : Z)
| SpawnTimeoutLoop (discr : Z)
| SendBfd (discr : Z) (src_mac dst_mac src_ip dst_ip : string)
    (ipv4_id src_port dst_port : Z) (pkt : bfd_pkt) (out_port : Z)
| SendArpReply (dpid port : Z) (src_mac src_ip dst_mac dst_ip : string)
| AddFlow (dpid priority : Z) (for_arp : bool).

Abbreviation SM := (M sess_st pyexn bfd_out).

Definition sget {A} (f : session → A) : SM A := gets (λ s, f (sess s)).
Definition smod (f : session → session) : SM () := modify (λ s, s <| sess ::= f |>).

Definition is_sequenced (auth_type : Z) : bool :=
  existsb (Z.eqb auth_type)
    [BFD_AUTH_KEYED_MD5; BFD_AUTH_METICULOUS_KEYED_MD5; BFD_AUTH_KEYED_SHA1;
     BFD_AUTH_METICULOUS_KEYED_SHA1].

Definition is_meticulous (auth_type : Z) : bool :=
  existsb (Z.eqb auth_type)
    [BFD_AUTH_METICULOUS_KEYED_MD5; BFD_AUTH_METICULOUS_KEYED_SHA1].

(** [KeyedMD5.__len__] and [KeyedSHA1.__len__] *)
Definition auth_len (auth_type : Z) : Z :=
  if (auth_type =? BFD_AUTH_KEYED_MD5) || (auth_type =? BFD_AUTH_METICULOUS_KEYED_MD5)
  then 24 else 28.

Section session.
Context (randint : nat → Z → Z → Z).

Definition draw (a b : Z) : SM Z :=
  n ← gets rng;
  modify (λ s, s <| rng := S n |>);;
  mret (randint n a b).

(** ** Sessions *)

Definition update_xmit_period : SM () :=
  s ← sget id;
  let xmit_period :=
    if s_remote_min_rx_interval s <? s_desired_min_tx_interval s
    then s_desired_min_tx_interval s else s_remote_min_rx_interval s in
  percent ← (if s_detect_mult s =? 1 then draw 75 90 else draw 75 100);
  smod (λ s, s <| s_xmit_period := xmit_period * percent |>).

Definition set_state (new_state : Z) (diag : option Z) : SM () :=
  old_state ← sget s_state;
  smod (λ s, s <| s_state := new_state |>);;
  (if new_state =? BFD_STATE_DOWN then
     (match diag with
      | Some d => smod (λ s, s <| s_local_diag := d |>)
      | None => mret tt
      end);;
     smod (λ s, s <| s_desired_min_tx_interval := 1000000 |> <| s_is_polling := true |>);;
     update_xmit_period
   else if new_state =? BFD_STATE_UP then
     smod (λ s, s <| s_desired_min_tx_interval := s_cfg_desired_min_tx_interval s |>
                  <| s_is_polling := true |>);;
     update_xmit_period
   else mret tt);;
  discr ← sget s_local_discr;
  emit (SessionStateChanged discr old_state new_state).

Definition set_remote_addr (dst_mac dst_ip : string) : SM () :=
  smod (λ s, s <| s_dst_mac := dst_mac |> <| s_dst_ip := dst_ip |>);;
  when (negb (String.eqb dst_mac BROADCAST_MAC || String.eqb dst_ip BROADCAST_IP))
    (smod (λ s, s <| s_remote_addr_config := true |>)).

(** The state machine part of [recv]. *)
Definition recv_state (pkt : bfd_pkt) : SM () :=
  st ← sget s_state;
  if b_state pkt =? BFD_STATE_ADMIN_DOWN then
    when (negb (st =? BFD_STATE_DOWN))
      (set_state BFD_STATE_DOWN (Some BFD_DIAG_NEIG_SIG_SESS_DOWN))
  else if st =? BFD_STATE_DOWN then
    if b_state pkt =? BFD_STATE_DOWN then set_state BFD_STATE_INIT None
    else when (b_state pkt =? BFD_STATE_INIT) (set_state BFD_STATE_UP None)
  else if st =? BFD_STATE_INIT then
    when ((b_state pkt =? BFD_STATE_INIT) || (b_state pkt =? BFD_STATE_UP))
      (set_state BFD_STATE_UP None)
  else
    when (b_state pkt =? BFD_STATE_DOWN)
      (set_state BFD_STATE_DOWN (Some BFD_DIAG_NEIG_SIG_SESS_DOWN)).

Definition both_up (s : session) : bool :=
  (s_state s =? BFD_STATE_UP) && (s_remote_session_state s =? BFD_STATE_UP).

Definition pkt_detect_time (pkt : bfd_pkt) : Z :=
  b_desired_min_tx_interval pkt * b_detect_mult pkt.

(** The rest of [recv], after the state machine. *)
Definition recv_tail (pkt : bfd_pkt) : SM () :=
  s ← sget id;
  let discr := s_local_discr s in
  when (truthy (s_remote_demand_mode s) && both_up s)
    (smod (λ s, s <| s_enable_send := false |>));;
  enabled ← sget s_enable_send;
  when (negb (truthy (s_remote_demand_mode s) && both_up s) && negb enabled)
    (smod (λ s, s <| s_enable_send := true |>);;
     emit (SpawnSendLoop discr));;
  when (s_detect_time s =? 0)
    (smod (λ s, s <| s_detect_time := pkt_detect_time pkt |>);;
     emit (SpawnTimeoutLoop discr));;
  when (truthy (Z.land (b_flags pkt) BFD_FLAG_POLL))
    (smod (λ s, s <| s_pending_final := true |>
                  <| s_detect_time := pkt_detect_time pkt |>));;
  (if is_sequenced (s_auth_type s) then
     match b_auth pkt with
     | None => raise AttributeError
     | Some a => smod (λ s, s <| s_rcv_auth_seq := a_seq a |> <| s_auth_seq_known := 1 |>)
     end
   else mret tt);;
  smod (λ s, s <| s_lock ::= λ l, (λ _, true) <$> l |>).

Definition recv (pkt : bfd_pkt) : SM () :=
  smod (λ s, s <| s_remote_discr := b_my_discr pkt |>
               <| s_remote_state := Some (b_state pkt) |>
               <| s_remote_demand_mode := Z.land (b_flags pkt) BFD_FLAG_DEMAND |>);;
  s ← sget id;
  when (negb (s_remote_min_rx_interval s =? b_required_min_rx_interval pkt))
    (smod (λ s, s <| s_remote_min_rx_interval := b_required_min_rx_interval pkt |>);;
     update_xmit_period);;
  when (truthy (Z.land (b_flags pkt) BFD_FLAG_FINAL) && s_is_polling s)
    (smod (λ s, s <| s_is_polling := false |>));;
  if s_state s =? BFD_STATE_ADMIN_DOWN then mret tt
  else
    recv_state pkt;;
    recv_tail pkt.

(** The two halves of an iteration of [_recv_timeout_loop]: a new event, then the
    wake-up, by the event or by the timeout.  [last_wait] and [now] are the readings
    of the clock. *)
Definition timeout_wait : SM () :=
  t ← sget s_detect_time;
  when (truthy t) (smod (λ s, s <| s_lock := Some false |>)).

Definition timeout_wake (last_wait now : Z) : SM () :=
  s ← sget id;
  match s_lock s with
  | None => mret tt
  | Some true =>
      when (truthy (s_auth_seq_known s) && (now + 2 * s_detect_time s <? last_wait))
        (smod (λ s, s <| s_auth_seq_known := 0 |>))
  | Some false =>
      when (negb ((s_state s =? BFD_STATE_DOWN) || (s_state s =? BFD_STATE_ADMIN_DOWN)))
        (set_state BFD_STATE_DOWN (Some BFD_DIAG_CTRL_DETECT_TIME_EXPIRED));;
      smod (λ s, s <| s_auth_seq_known := 0 |>)
  end.

(** [s._auth_keys[auth_key_id]] for a random key id. *)
Definition send_auth : SM (option auth_section) :=
  s ← sget id;
  if negb (truthy (s_auth_type s)) then mret None else
  i ← draw 0 (Z.of_nat (length (od_keys (s_auth_keys s))) - 1);
  match od_keys (s_auth_keys s) !! Z.to_nat i with
  | None => raise IndexError
  | Some auth_key_id =>
      if s_auth_type s =? BFD_AUTH_SIMPLE_PASS then
        let password := default ""%string (od_get auth_key_id (s_auth_keys s)) in
        mret (Some (AuthSection BFD_AUTH_SIMPLE_PASS auth_key_id 0
                      (3 + Z.of_nat (String.length password))))
      else if is_sequenced (s_auth_type s) then
        let next seq := Z.land (seq + 1) UINT32_MAX in
        (if negb (is_meticulous (s_auth_type s)) then
           c ← draw 0 1;
           when (truthy c) (smod (λ s, s <| s_xmit_auth_seq ::= next |>))
         else smod (λ s, s <| s_xmit_auth_seq ::= next |>));;
        seq ← sget s_xmit_auth_seq;
        mret (Some (AuthSection (s_auth_type s) auth_key_id seq (auth_len (s_auth_type s))))
      else mret None
  end.

Definition send : SM () :=
  connected ← sget s_datapath;
  if negb connected then mret tt else
  final ← sget s_pending_final;
  when final (smod (λ s, s <| s_pending_final := false |> <| s_is_polling := false |>));;
  polling ← sget s_is_polling;
  let flags1 := if final : bool then Z.lor 0 BFD_FLAG_FINAL else 0 in
  let flags2 := if polling : bool then Z.lor flags1 BFD_FLAG_POLL else flags1 in
  auth_cls ← send_auth;
  s ← sget id;
  let flags3 := match auth_cls with
                | Some _ => Z.lor flags2 BFD_FLAG_AUTH_PRESENT
                | None => flags2
                end in
  let flags := if truthy (s_demand_mode s) && both_up s
               then Z.lor flags3 BFD_FLAG_DEMAND else flags3 in
  smod (λ s, s <| s_ipv4_id ::= λ i, Z.land (i + 1) UINT16_MAX |>);;
  ipv4_id ← sget s_ipv4_id;
  emit (SendBfd (s_local_discr s) (s_src_mac s) (s_dst_mac s) (s_src_ip s) (s_dst_ip s)
    ipv4_id (s_src_port s) BFD_CONTROL_UDP_PORT
    (BfdPkt 1 (s_local_diag s) (s_state s) flags (s_detect_mult s) (s_local_discr s)
       (s_remote_discr s) (s_desired_min_tx_interval s) (s_required_min_rx_interval s)
       (s_cfg_required_min_echo_rx_interval s) auth_cls)
    (s_ofport s)).

(** One iteration of [_send_loop] after its sleep. *)
Definition send_tick : SM () :=
  s ← sget id;
  if (s_remote_discr s =? 0) && negb (s_active_role s) then mret tt
  else if s_remote_min_rx_interval s =? 0 then mret tt
  else if truthy (s_remote_demand_mode s) && both_up s && negb (s_is_polling s)
  then mret tt
  else send.

(** [BFDSession.__init__]; [auth_keys] defaults to an empty dictionary.  A session
    starts with the slow rate and keeps the interval it was given for later. *)
Definition new_session (n : nat) (my_discr dpid ofport : Z) (src_mac src_ip : string)
    (src_port : Z) (dst_mac dst_ip : string)
    (detect_mult desired_min_tx_interval required_min_rx_interval : Z)
    (auth_type : Z) (auth_keys : odict Z string) : outcome pyexn sess_st :=
  if truthy auth_type && negb (nonempty auth_keys) then Raise AssertionError else
  let n1 := if is_sequenced auth_type then S n else n in
  let xmit_seq := if is_sequenced auth_type then randint n 0 UINT32_MAX else 0 in
  let s0 := Session BFD_STATE_DOWN BFD_STATE_DOWN None my_discr 0 0 1000000
    required_min_rx_interval (-1) 0 0 detect_mult auth_type auth_keys 0 xmit_seq 0
    desired_min_tx_interval 0 true 0 0 true false true None src_mac dst_mac src_ip dst_ip 0
    src_port
    (negb (String.eqb dst_mac BROADCAST_MAC || String.eqb dst_ip BROADCAST_IP))
    dpid false ofport in
  let s1 := final update_xmit_period (SessSt n1 s0) in
  Ret (SessSt (S (rng s1)) (sess s1 <| s_ipv4_id := randint (rng s1) 0 UINT16_MAX |>)).
End session.

(** ** The library *)

Record bfdlib := BfdLib {
  l_rng : nat;
  l_session : odict Z session
}.

#[export] Instance eta_bfdlib : Eta bfdlib := EtaBox (λ l, BfdLib (l_rng l) (l_session l)).

Abbreviation LM := (M bfdlib pyexn bfd_out).

Record arp_pkt := ArpPkt {
  arp_opcode : Z;
  arp_proto : Z;
  arp_src_mac : string;
  arp_src_ip : string;
  arp_dst_ip : string
}.

(** A frame as the packet library parses it; [f_bfd] is the UDP payload parsed as a
    BFD packet. *)
Record frame := Frame {
  f_eth_src : string;
  f_ethertype : Z;
  f_arp : option arp_pkt;
  f_ip : option (Z * string);
  f_udp_dst : option Z;
  f_bfd : option bfd_pkt
}.

Section lib.
Context (randint : nat → Z → Z → Z).
Context (authenticate : bfd_pkt → odict Z string → bool).

Definition ldraw (a b : Z) : LM Z :=
  n ← gets l_rng;
  modify (λ l, l <| l_rng := S n |>);;
  mret (randint n a b).

(** Runs a method of the session of discriminator [discr]. *)
Definition on_session {A} (discr : Z) (m : SM A) : LM A := λ l,
  match od_get discr (l_session l) with
  | None => ([], l, Raise KeyError)
  | Some s =>
      let '(o, st, r) := m (SessSt (l_rng l) s) in
      (o, BfdLib (rng st) (od_set discr (sess st) (l_session l)), r)
  end.

(** The search for a discriminator and a port no session uses. *)
Fixpoint unique_discr (fuel : nat) : LM (Z * Z) :=
  match fuel with
  | O => raise OutOfFuel
  | S fuel =>
      my_discr ← ldraw 1 UINT32_MAX;
      src_port ← ldraw 49152 65535;
      sessions ← gets l_session;
      if od_mem my_discr sessions then unique_discr fuel
      else if existsb (λ s, (s_remote_discr s =? my_discr) || (s_src_port s =? src_port))
                (od_values sessions)
      then unique_discr fuel
      else mret (my_discr, src_port)
  end.

(** The defaults of the constructor, which [add_bfd_session] does not override. *)
Definition DEFAULT_DETECT_MULT := 3.
Definition DEFAULT_INTERVAL := 1000000.

Definition add_bfd_session (fuel : nat) (dpid ofport : Z) (src_mac src_ip dst_mac dst_ip : string)
    (auth_type : Z) (auth_keys : odict Z string) : LM Z :=
  ids ← unique_discr fuel;
  let '(my_discr, src_port) := ids : Z * Z in
  n ← gets l_rng;
  st ← lift (new_session randint n my_discr dpid ofport src_mac src_ip src_port dst_mac
               dst_ip DEFAULT_DETECT_MULT DEFAULT_INTERVAL DEFAULT_INTERVAL
               auth_type auth_keys);
  emit (SpawnSendLoop my_discr);;
  modify (λ l, BfdLib (rng st) (od_set my_discr (sess st) (l_session l)));;
  mret my_discr.

Definition switch_features_handler (dpid : Z) : LM () :=
  modify (λ l, l <| l_session ::= fmap (λ '(k, s),
    (k, if s_dpid s =? dpid then s <| s_datapath := true |> else s)) |>);;
  emit (AddFlow dpid 65535 true);;
  emit (AddFlow dpid 65535 false).

(** The session of a packet without Your Discriminator: that of the port. *)
Definition session_of_port (dpid ofport : Z) (sessions : odict Z session) : option Z :=
  s_local_discr <$>
    list_find (λ s, Is_true ((s_dpid s =? dpid) && (s_ofport s =? ofport)))
      (od_values sessions) ≫= λ x, Some x.2.

(** The check of the sequence number. *)
Definition seq_ok (s : session) (a : auth_section) : bool :=
  if is_sequenced (s_auth_type s) && truthy (s_auth_seq_known s) then
    negb (a_seq a <? s_rcv_auth_seq s) &&
    negb (is_meticulous (s_auth_type s) && (a_seq a <=? s_rcv_auth_seq s)) &&
    negb (s_rcv_auth_seq s + 3 * s_detect_mult s <? a_seq a)
  else true.

(** The checks that do not depend on a session. *)
Definition sanity_ok (p : bfd_pkt) : bool :=
  (b_ver p =? 1) &&
  negb (if truthy (Z.land (b_flags p) BFD_FLAG_AUTH_PRESENT)
        then b_length p <? 26 else b_length p <? 24) &&
  negb (b_detect_mult p =? 0) &&
  negb (truthy (Z.land (b_flags p) BFD_FLAG_MULTIPOINT)) &&
  negb (b_my_discr p =? 0).

Definition recv_bfd_pkt (dpid in_port : Z) (f : frame) : LM () :=
  if negb (f_ethertype f =? ETH_TYPE_IP) then mret tt else
  match f_ip f with
  | None => raise IndexError
  | Some (ttl, src_ip) =>
      if negb (ttl =? 255) then mret tt else
      match f_bfd f with
      | None => mret tt
      | Some p =>
          sessions ← gets l_session;
          if negb (sanity_ok p) then mret tt
          else if negb (b_your_discr p =? 0) && negb (od_mem (b_your_discr p) sessions)
          then mret tt
          else if (b_your_discr p =? 0) &&
                  negb ((b_state p =? BFD_STATE_ADMIN_DOWN) || (b_state p =? BFD_STATE_DOWN))
          then mret tt
          else
            let sess_my_discr :=
              if b_your_discr p =? 0 then session_of_port dpid in_port sessions
              else Some (b_your_discr p) in
            match sess_my_discr with
            | None => mret tt
            | Some discr =>
                s ← or_raise (od_get discr sessions) KeyError;
                let auth_present := truthy (Z.land (b_flags p) BFD_FLAG_AUTH_PRESENT) in
                let deliver :=
                  when (negb (s_remote_addr_config s))
                    (on_session discr (set_remote_addr (f_eth_src f) src_ip));;
                  on_session discr (recv randint p) in
                if auth_present && (s_auth_type s =? 0) then mret tt
                else if negb auth_present && negb (s_auth_type s =? 0) then mret tt
                else if auth_present then
                  match b_auth p with
                  | None => raise AttributeError
                  | Some a =>
                      if negb (a_type a =? s_auth_type s) then mret tt
                      else if negb (seq_ok s a) then mret tt
                      else if negb (authenticate p (s_auth_keys s)) then mret tt
                      else deliver
                  end
                else deliver
            end
      end
  end.

(** [ARPPacket.arp_parse] *)
Definition arp_parse (a : arp_pkt) : outcome pyexn arp_pkt :=
  if negb ((arp_opcode a =? ARP_REQUEST) || (arp_opcode a =? ARP_REPLY))
  then Raise (RyuException "ARPUnknownFormat")
  else if negb (arp_proto a =? ETH_TYPE_IP) then Raise (RyuException "ARPUnknownFormat")
  else Ret a.

Definition packet_in_handler (dpid in_port : Z) (f : frame) : LM () :=
  match f_arp f with
  | Some a =>
      a ← lift (arp_parse a);
      sessions ← gets l_session;
      when (arp_opcode a =? ARP_REQUEST)
        (match list_find (λ s, Is_true ((s_dpid s =? dpid) && (s_ofport s =? in_port) &&
                            String.eqb (s_src_ip s) (arp_dst_ip a))) (od_values sessions) with
         | Some (_, s) =>
             emit (SendArpReply dpid in_port (s_src_mac s) (s_src_ip s)
                     (arp_src_mac a) (arp_src_ip a))
         | None => mret tt
         end)
  | None =>
      match f_ip f, f_udp_dst f with
      | Some _, Some dst_port =>
          when (dst_port =? BFD_CONTROL_UDP_PORT) (recv_bfd_pkt dpid in_port f)
      | _, _ => mret tt
      end
  end.
End lib.

(** ** Specification of the state machine *)

(** RFC 5880, section 6.8.6: the next state from the local state and the state in
    the packet. *)
Definition next_state (local remote : Z) : Z :=
  if local =? BFD_STATE_ADMIN_DOWN then BFD_STATE_ADMIN_DOWN
  else if remote =? BFD_STATE_ADMIN_DOWN then BFD_STATE_DOWN
  else if local =? BFD_STATE_DOWN then
    if remote =? BFD_STATE_DOWN then BFD_STATE_INIT
    else if remote =? BFD_STATE_INIT then BFD_STATE_UP else local
  else if local =? BFD_STATE_INIT then
    if (remote =? BFD_STATE_INIT) || (remote =? BFD_STATE_UP) then BFD_STATE_UP else local
  else if remote =? BFD_STATE_DOWN then BFD_STATE_DOWN else local.

(** The period is drawn from 75 to 100 percent (90 for a multiplier of 1) of the
    larger of the two intervals. *)
Definition base_interval (s : session) : Z :=
  Z.max (s_desired_min_tx_interval s) (s_remote_min_rx_interval s).

Definition period_ok (s : session) : Prop :=
  75 * base_interval s ≤ s_xmit_period s ≤
    (if s_detect_mult s =? 1 then 90 else 100) * base_interval s.

Record session_inv (s : session) : Prop := {
  inv_enable : s_enable_send s = true;
  inv_remote : s_remote_session_state s = BFD_STATE_DOWN;
  inv_state : BFD_STATE_ADMIN_DOWN ≤ s_state s ≤ BFD_STATE_UP;
  inv_slow : s_state s ≠ BFD_STATE_UP → s_desired_min_tx_interval s = 1000000;
  inv_fast : s_state s = BFD_STATE_UP →
    s_desired_min_tx_interval s = s_cfg_desired_min_tx_interval s;
  inv_desired : 0 ≤ s_desired_min_tx_interval s;
  inv_cfg : 0 ≤ s_cfg_desired_min_tx_interval s;
  inv_seq : 0 ≤ s_xmit_auth_seq s ≤ UINT32_MAX;
  inv_id : 0 ≤ s_ipv4_id s ≤ UINT16_MAX;
  inv_period : period_ok s;
  inv_keys : truthy (s_auth_type s) = true → nonempty (s_auth_keys s) = true
}.

(** What reception does not change. *)
Record same_config (s s' : session) : Prop := {
  same_discr : s_local_discr s' = s_local_discr s;
  same_auth_type : s_auth_type s' = s_auth_type s;
  same_auth_keys : s_auth_keys s' = s_auth_keys s;
  same_detect_mult : s_detect_mult s' = s_detect_mult s;
  same_port : s_src_port s' = s_src_port s;
  same_place : s_dpid s' = s_dpid s ∧ s_ofport s' = s_ofport s
}.

Definition state_changes (o : list bfd_out) : list bfd_out :=
  List.filter (λ x, match x with SessionStateChanged _ _ _ => true | _ => false end) o.

Lemma state_changes_app o1 o2 : state_changes (o1 ++ o2) = state_changes o1 ++ state_changes o2.
Proof. apply List.filter_app. Qed.

Lemma land_mask z n : 0 ≤ n → 0 ≤ Z.land z (Z.shiftl 1 n - 1) ≤ Z.shiftl 1 n - 1.
Proof.
  intros Hn. rewrite Z.shiftl_1_l. replace (2 ^ n - 1) with (Z.ones n) by (rewrite Z.ones_equiv; lia).
  rewrite Z.land_ones, Z.ones_equiv by done. pose proof (Z.mod_pos_bound z (2 ^ n)). lia.
Qed.

Section session_proofs.
Context (randint : nat → Z → Z → Z).
Hypothesis randint_range : ∀ n a b, a ≤ b → a ≤ randint n a b ≤ b.

Ltac sstep :=
  match goal with
  | |- wp (sget _) _ _ => unfold sget
  | |- wp (smod _) _ _ => unfold smod
  | |- wp (match ?x with Some _ => _ | None => _ end) _ _ => destruct x eqn:?
  | _ => wp_step
  end.

Lemma wp_update_xmit_period st Q :
  0 ≤ s_desired_min_tx_interval (sess st) →
  (∀ n p, period_ok (sess st <| s_xmit_period := p |>) →
    Q [] (SessSt n (sess st <| s_xmit_period := p |>)) (Ret tt)) →
  wp (update_xmit_period randint) st Q.
Proof.
  intros Hd HQ. unfold update_xmit_period, draw, id.
  pose proof (randint_range (rng st) 75 90) as R1.
  pose proof (randint_range (rng st) 75 100) as R2.
  repeat sstep; cbn [sess rng] in *; apply HQ; unfold period_ok, base_interval; cbn.
  all: unfold id in *; cbn in *; rewrite Heqb.
  all: destruct (Z.ltb_spec (s_remote_min_rx_interval (sess st))
      (s_desired_min_tx_interval (sess st))); nia.
Qed.

(** What [set_state] leaves of the rest of the session. *)
Definition state_set (s : session) (new_state : Z) (s' : session) : Prop :=
  session_inv s' ∧ same_config s s' ∧ s_state s' = new_state ∧
  s_rcv_auth_seq s' = s_rcv_auth_seq s ∧ s_remote_demand_mode s' = s_remote_demand_mode s.

(** A session whose invariant holds but for the state, the interval and the
    period, which [set_state] sets. *)
Lemma wp_set_state st new_state diag Q :
  session_inv (sess st) →
  new_state = BFD_STATE_DOWN ∨ new_state = BFD_STATE_UP ∨
    (new_state = BFD_STATE_INIT ∧ s_state (sess st) ≠ BFD_STATE_UP) →
  (∀ n s', state_set (sess st) new_state s' →
    (new_state = BFD_STATE_DOWN → ∀ d, diag = Some d → s_local_diag s' = d) →
    Q [SessionStateChanged (s_local_discr (sess st)) (s_state (sess st)) new_state]
      (SessSt n s') (Ret tt)) →
  wp (set_state randint new_state diag) st Q.
Proof.
  intros [H1 H2 H3 H4 H5 H6 H7 H8 H9 H10 H11] Hns HQ. unfold set_state.
  destruct Hns as [->|[->|[-> Hne] ] ]; cbn [Z.eqb BFD_STATE_DOWN BFD_STATE_UP BFD_STATE_INIT Pos.eqb].
  - repeat sstep; (apply wp_update_xmit_period; [done|]); intros n p Hp; repeat sstep;
      (apply HQ; [unfold state_set; split_and?; done || split; cbn; done|]);
      intros _ d ?; simplify_eq; done.
  - repeat sstep; (apply wp_update_xmit_period; [done|]); intros n p Hp; repeat sstep;
      (apply HQ; [unfold state_set; split_and?; done || split; cbn; done|done]).
  - repeat sstep. apply HQ; [|done]. unfold state_set; split_and?; try done; split; cbn; auto; done.
Qed.

(** [recv_state] does what the specification says, on every pair of states. *)
Lemma wp_recv_state st p Q :
  session_inv (sess st) → s_state (sess st) ≠ BFD_STATE_ADMIN_DOWN →
  BFD_STATE_ADMIN_DOWN ≤ b_state p ≤ BFD_STATE_UP →
  (∀ st', state_set (sess st) (next_state (s_state (sess st)) (b_state p)) (sess st') →
    Q (if s_state (sess st') =? s_state (sess st) then []
       else [SessionStateChanged (s_local_discr (sess st)) (s_state (sess st))
               (s_state (sess st'))]) st' (Ret tt)) →
  wp (recv_state randint p) st Q.
Proof.
  intros Hinv Hadm Hp HQ. pose proof (inv_state _ Hinv) as Hs.
  assert (Hstay : next_state (s_state (sess st)) (b_state p) = s_state (sess st) →
    Q [] st (Ret tt)).
  { intros E. specialize (HQ st). rewrite Z.eqb_refl in HQ. apply HQ.
    rewrite E. by repeat split; try apply Hinv. }
  assert (Hset : ∀ new diag,
    next_state (s_state (sess st)) (b_state p) = new → new ≠ s_state (sess st) →
    new = BFD_STATE_DOWN ∨ new = BFD_STATE_UP ∨
      (new = BFD_STATE_INIT ∧ s_state (sess st) ≠ BFD_STATE_UP) →
    wp (set_state randint new diag) st Q).
  { intros new diag E Hne Hnew. apply wp_set_state; [done..|]. intros n s' Hset _.
    specialize (HQ (SessSt n s')). cbn in HQ. rewrite E in HQ. specialize (HQ Hset).
    destruct Hset as (_ & _ & E' & _). rewrite E' in HQ.
    rewrite (proj2 (Z.eqb_neq _ _) Hne) in HQ. done. }
  unfold recv_state, next_state in *.
  unfold BFD_STATE_ADMIN_DOWN, BFD_STATE_DOWN, BFD_STATE_INIT, BFD_STATE_UP in *.
  assert (s_state (sess st) = 1 ∨ s_state (sess st) = 2 ∨ s_state (sess st) = 3) as Hst by lia.
  assert (b_state p = 0 ∨ b_state p = 1 ∨ b_state p = 2 ∨ b_state p = 3) as Hb by lia.
  apply wp_bind, wp_gets. cbn beta iota.
  destruct Hst as [Es|[Es|Es] ], Hb as [Eb|[Eb|[Eb|Eb] ] ]; rewrite Es, Eb in *;
    cbn [Z.eqb Pos.eqb negb orb when] in *;
    first [by apply wp_ret, Hstay | apply Hset; lia ].
Qed.

Lemma both_up_false s : session_inv s → both_up s = false.
Proof. intros H. unfold both_up. rewrite (inv_remote _ H). by rewrite andb_false_r. Qed.

(** The tail of [recv] keeps the state and never stops the transmission. *)
Lemma wp_recv_tail st p :
  session_inv (sess st) →
  (is_sequenced (s_auth_type (sess st)) = true → is_Some (b_auth p)) →
  wp (recv_tail p) st (λ o st' r,
    r = Ret tt ∧ session_inv (sess st') ∧ same_config (sess st) (sess st') ∧
    s_state (sess st') = s_state (sess st) ∧ state_changes o = [] ∧
    (is_sequenced (s_auth_type (sess st)) = true →
     s_auth_seq_known (sess st') = 1 ∧
     Some (s_rcv_auth_seq (sess st')) = a_seq <$> b_auth p)).
Proof.
  intros Hinv Hauth. unfold recv_tail. apply wp_bind, wp_gets. cbn beta iota. unfold id.
  rewrite (both_up_false _ Hinv), andb_false_r. cbn [when negb andb].
  apply wp_bind, wp_ret. cbn beta iota. apply wp_bind, wp_gets. cbn beta iota.
  rewrite (inv_enable _ Hinv). cbn [when negb]. apply wp_bind, wp_ret. cbn beta iota.
  destruct Hinv as [H1 H2 H3 H4 H5 H6 H7 H8 H9 H10 H11].
  destruct (is_sequenced (s_auth_type (sess st))) eqn:Eseq.
  - destruct Hauth as [a Ea]; [done|]. rewrite Ea.
    repeat sstep; split_and!; try done; split; cbn; done.
  - repeat sstep; split_and!; try done; split; cbn; done.
Qed.

Definition recv_spec (st : sess_st) (p : bfd_pkt) (o : list bfd_out) (st' : sess_st)
    (r : outcome pyexn ()) : Prop :=
  r = Ret tt ∧ session_inv (sess st') ∧ same_config (sess st) (sess st') ∧
  s_state (sess st') = next_state (s_state (sess st)) (b_state p) ∧
  state_changes o =
    (if s_state (sess st') =? s_state (sess st) then []
     else [SessionStateChanged (s_local_discr (sess st)) (s_state (sess st))
             (s_state (sess st'))]) ∧
  (s_state (sess st) ≠ BFD_STATE_ADMIN_DOWN →
   is_sequenced (s_auth_type (sess st)) = true →
   s_auth_seq_known (sess st') = 1 ∧
   Some (s_rcv_auth_seq (sess st')) = a_seq <$> b_auth p).

Lemma recv_spec_config st1 st2 p o st' r :
  same_config (sess st1) (sess st2) → s_state (sess st2) = s_state (sess st1) →
  recv_spec st2 p o st' r → recv_spec st1 p o st' r.
Proof.
  intros [C1 C2 C3 C4 C5 [C6 C7] ] E (? & ? & [D1 D2 D3 D4 D5 [D6 D7] ] & ? & ? & ?).
  unfold recv_spec. rewrite E, C1, C2 in *. split_and!; try done. split; try split; congruence.
Qed.

(** After the fields of the packet are stored. *)
Lemma wp_recv_rest st p :
  session_inv (sess st) → BFD_STATE_ADMIN_DOWN ≤ b_state p ≤ BFD_STATE_UP →
  (is_sequenced (s_auth_type (sess st)) = true → is_Some (b_auth p)) →
  wp (if s_state (sess st) =? BFD_STATE_ADMIN_DOWN then mret tt
      else recv_state randint p;; recv_tail p) st (recv_spec st p).
Proof.
  intros Hinv Hp Hauth. destruct (s_state (sess st) =? BFD_STATE_ADMIN_DOWN) eqn:Eadm.
  - apply wp_ret. apply Z.eqb_eq in Eadm. unfold recv_spec, next_state. rewrite Eadm.
    by repeat split; try apply Hinv.
  - apply Z.eqb_neq in Eadm. apply wp_bind, wp_recv_state; try done.
    intros st1 (Hinv1 & Hc & Est & _ & _).
    pose proof Hc as [C1 C2 C3 C4 C5 C6].
    eapply wp_mono; [apply wp_recv_tail; [done|by rewrite C2]|].
    intros o st2 r (-> & Hinv2 & [D1 D2 D3 D4 D5 [D6 D7] ] & E2 & Ho & Hseq).
    unfold recv_spec. rewrite state_changes_app, Ho, app_nil_r, E2, Est.
    destruct C6 as [C6 C7]. rewrite C2 in Hseq.
    split_and!; try done.
    all: first [by destruct (_ =? _) | by auto | split; intuition congruence].
Qed.

Lemma wp_recv st p :
  session_inv (sess st) → BFD_STATE_ADMIN_DOWN ≤ b_state p ≤ BFD_STATE_UP →
  (is_sequenced (s_auth_type (sess st)) = true → is_Some (b_auth p)) →
  wp (recv randint p) st (recv_spec st p).
Proof.
  intros Hinv Hp Hauth. pose proof Hinv as [H1 H2 H3 H4 H5 H6 H7 H8 H9 H10 H11]. unfold recv.
  apply wp_bind, wp_modify. cbn beta iota. apply wp_bind, wp_gets. cbn beta iota. unfold id.
  set (st1 := st <| sess ::= _ |>).
  assert (Hinv1 : session_inv (sess st1)) by by split.
  assert (Hc1 : same_config (sess st) (sess st1)) by by split.
  assert (Hfinish : ∀ st2, session_inv (sess st2) → same_config (sess st) (sess st2) →
    s_state (sess st2) = s_state (sess st) →
    wp (when (truthy (Z.land (b_flags p) BFD_FLAG_FINAL) && s_is_polling (sess st1))
          (smod (λ s, s <| s_is_polling := false |>));;
        (if s_state (sess st1) =? BFD_STATE_ADMIN_DOWN then mret tt
         else recv_state randint p;; recv_tail p)) st2 (recv_spec st p)).
  { intros st2 Hinv2 Hc2 E2. apply wp_bind.
    assert (Hgo : ∀ st3, session_inv (sess st3) → same_config (sess st) (sess st3) →
      s_state (sess st3) = s_state (sess st) →
      wp (if s_state (sess st1) =? BFD_STATE_ADMIN_DOWN then mret tt
          else recv_state randint p;; recv_tail p) st3 (recv_spec st p)).
    { intros st3 Hinv3 Hc3 E3. change (s_state (sess st1)) with (s_state (sess st)).
      rewrite <- E3. eapply wp_mono; [apply wp_recv_rest; [done..|]|].
      - destruct Hc3 as [_ -> _ _ _ _]. done.
      - intros o st' r. by apply recv_spec_config. }
    destruct (_ && _); unfold when.
    - apply wp_modify. cbn beta iota. eapply wp_mono; [apply Hgo; [..|done]|done].
      + by destruct Hinv2; split.
      + by destruct Hc2; split.
    - apply wp_ret. cbn beta iota. eapply wp_mono; [by apply Hgo|done]. }
  apply wp_bind. destruct (negb _); unfold when; [|apply wp_ret; cbn beta iota;
    eapply wp_mono; [by apply Hfinish|done] ].
  apply wp_bind, wp_modify. cbn beta iota. apply wp_update_xmit_period; [done|].
  intros n q Hq. cbn beta iota. eapply wp_mono; [apply Hfinish; [..|done]|done].
  - by split.
  - by split.
Qed.

Lemma session_inv_seq s seq known :
  session_inv s → 0 ≤ seq ≤ UINT32_MAX →
  session_inv (s <| s_xmit_auth_seq := seq |> <| s_auth_seq_known := known |>).
Proof. intros [H1 H2 H3 H4 H5 H6 H7 H8 H9 H10 H11] Hs. by split. Qed.

Lemma wp_timeout_wake last_wait now st :
  session_inv (sess st) →
  wp (timeout_wake randint last_wait now) st (λ o st' r,
    r = Ret tt ∧ session_inv (sess st') ∧
    match s_lock (sess st) with
    | Some false =>
        s_auth_seq_known (sess st') = 0 ∧
        (if s_state (sess st) =? BFD_STATE_ADMIN_DOWN
         then s_state (sess st') = BFD_STATE_ADMIN_DOWN ∧ o = []
         else s_state (sess st') = BFD_STATE_DOWN ∧
           if s_state (sess st) =? BFD_STATE_DOWN then o = []
           else s_local_diag (sess st') = BFD_DIAG_CTRL_DETECT_TIME_EXPIRED ∧
             o = [SessionStateChanged (s_local_discr (sess st)) (s_state (sess st))
                    BFD_STATE_DOWN])
    | _ => s_state (sess st') = s_state (sess st) ∧ o = []
    end).
Proof.
  intros Hinv. unfold timeout_wake, id. apply wp_bind, wp_gets. cbn beta iota.
  destruct (s_lock (sess st)) as [ [|]|].
  - pose proof Hinv as [H1 H2 H3 H4 H5 H6 H7 H8 H9 H10 H11].
    repeat sstep; split_and!; try done; by split.
  - assert (Hend : ∀ st1, session_inv (sess st1) →
      session_inv (sess st1 <| s_auth_seq_known := 0 |>)).
    { intros st1 [H1 H2 H3 H4 H5 H6 H7 H8 H9 H10 H11]. by split. }
    apply wp_bind. unfold when.
    destruct (s_state (sess st) =? BFD_STATE_DOWN) eqn:E1;
      [|destruct (s_state (sess st) =? BFD_STATE_ADMIN_DOWN) eqn:E2]; cbn [orb negb].
    + apply Z.eqb_eq in E1. apply wp_ret. cbn beta iota. apply wp_modify.
      split; [done|]. split; [by apply Hend|]. rewrite E1. cbn. by rewrite ?E1.
    + apply Z.eqb_eq in E2. apply wp_ret. cbn beta iota. apply wp_modify.
      split; [done|]. split; [by apply Hend|]. by cbn.
    + apply wp_set_state; [done|by left|]. intros n s' (Hi & Hc & Hs' & _) Hd.
      cbn beta iota. apply wp_modify. split; [done|].
      split; [by apply (Hend (SessSt n s'))|]. cbn. rewrite Hs'. split_and!; try done.
      by apply Hd.
  - apply wp_ret. by split_and!.
Qed.

Lemma land_uint32 z : 0 ≤ Z.land z UINT32_MAX ≤ UINT32_MAX.
Proof. by apply (land_mask z 32). Qed.

Lemma land_uint16 z : 0 ≤ Z.land z UINT16_MAX ≤ UINT16_MAX.
Proof. by apply (land_mask z 16). Qed.

Definition out_flags (o : list bfd_out) : list Z :=
  omap (λ x, match x with
             | SendBfd _ _ _ _ _ _ _ _ p _ => Some (b_flags p)
             | _ => None
             end) o.

Definition out_state (o : list bfd_out) : list Z :=
  omap (λ x, match x with
             | SendBfd _ _ _ _ _ _ _ _ p _ => Some (b_state p)
             | _ => None
             end) o.

(** A packet never carries Poll and Final together. *)
Definition not_poll_final (flags : Z) : Prop :=
  Z.testbit flags 5 = false ∨ Z.testbit flags 4 = false.

Lemma wp_send_auth st Q :
  session_inv (sess st) →
  (∀ n seq a, 0 ≤ seq ≤ UINT32_MAX →
    Q [] (SessSt n (sess st <| s_xmit_auth_seq := seq |>)) (Ret a)) →
  wp (send_auth randint) st Q.
Proof.
  intros Hinv HQ. pose proof (inv_seq _ Hinv) as Hseq. pose proof (inv_keys _ Hinv) as Hkeys.
  assert (Hsame : ∀ n a, Q [] (SessSt n (sess st)) (Ret a)).
  { intros n a. specialize (HQ n _ a Hseq).
    by destruct st as [? [] ]. }
  unfold send_auth, draw, id. apply wp_bind, wp_gets. cbn beta iota.
  destruct (truthy (s_auth_type (sess st))) eqn:Et; cbn [negb].
  2: { apply wp_ret. destruct st. apply Hsame. }
  specialize (Hkeys eq_refl).
  set (len := length (od_keys (s_auth_keys (sess st)))).
  assert (Hlen : (0 < len)%nat).
  { unfold len, od_keys. destruct (s_auth_keys (sess st)); cbn in *; [done|lia]. }
  pose proof (randint_range (rng st) 0 (Z.of_nat len - 1) ltac:(lia)) as Hr.
  repeat (apply wp_bind || (apply wp_gets; cbn beta iota) || (apply wp_modify; cbn beta iota)
          || (apply wp_ret; cbn beta iota)).
  destruct (od_keys _ !! _) as [k|] eqn:Ek.
  2: { apply lookup_ge_None in Ek. fold len in Ek. lia. }
  destruct (s_auth_type (sess st) =? BFD_AUTH_SIMPLE_PASS); [apply wp_ret, Hsame|].
  destruct (is_sequenced _); [|apply wp_ret, Hsame].
  apply wp_bind. destruct (is_meticulous _); cbn [negb].
  - repeat sstep. apply HQ, land_uint32.
  - repeat sstep; [apply HQ, land_uint32|apply Hsame].
Qed.

Lemma wp_send st :
  session_inv (sess st) →
  wp (send randint) st (λ o st' r,
    r = Ret tt ∧ session_inv (sess st') ∧ s_state (sess st') = s_state (sess st) ∧
    Forall not_poll_final (out_flags o) ∧ Forall (λ x, x = s_state (sess st)) (out_state o)).
Proof.
  intros Hinv. unfold send. apply wp_bind, wp_gets. cbn beta iota.
  destruct (s_datapath (sess st)); cbn [negb]; [|by apply wp_ret].
  apply wp_bind, wp_gets. cbn beta iota. apply wp_bind.
  pose proof Hinv as [H1 H2 H3 H4 H5 H6 H7 H8 H9 H10 H11].
  destruct (s_pending_final (sess st)) eqn:Ef; unfold when, smod.
  all: repeat sstep; (apply wp_send_auth; [by split|]); intros n seq a Hseq;
    repeat sstep; cbn beta iota; unfold id; cbn [sess].
  all: rewrite both_up_false by (by split); rewrite andb_false_r.
  all: split_and!; try done;
    [split; cbn; try done; apply land_uint16
    |constructor; [|constructor]; destruct a; cbn; try (by left); try (by right);
     destruct (s_is_polling (sess st)); cbn; try (by left); by right
    |by repeat constructor].
Qed.

Lemma new_session_inv n my_discr dpid ofport src_mac src_ip src_port dst_mac dst_ip
    mult tx rx auth_type auth_keys st :
  0 ≤ tx →
  new_session randint n my_discr dpid ofport src_mac src_ip src_port dst_mac dst_ip
    mult tx rx auth_type auth_keys = Ret st →
  session_inv (sess st) ∧ s_local_discr (sess st) = my_discr ∧
  s_src_port (sess st) = src_port ∧ s_remote_discr (sess st) = 0 ∧
  s_state (sess st) = BFD_STATE_DOWN.
Proof.
  intros Htx. unfold new_session.
  destruct (truthy auth_type && negb (nonempty auth_keys)) eqn:Ek; [done|].
  set (n1 := if is_sequenced auth_type then _ else _).
  set (seq := if is_sequenced auth_type then randint n 0 UINT32_MAX else 0).
  assert (Hseq : 0 ≤ seq ≤ UINT32_MAX).
  { subst seq. destruct (is_sequenced auth_type); [by apply randint_range|done]. }
  cbv zeta.
  match goal with |- context [final _ ?st0] =>
    assert (wp (update_xmit_period randint) st0 (λ _ st1 _,
      ∃ n p, st1 = SessSt n (sess st0 <| s_xmit_period := p |>) ∧
        period_ok (sess st0 <| s_xmit_period := p |>))) as (n2 & p & -> & Hp)
    by (apply wp_update_xmit_period; [done|]; intros n2 p Hp; by exists n2, p)
  end.
  intros [= <-]. cbn [sess rng] in *. split; [|done]. split; try done; cbn.
  - by apply (randint_range _ 0 UINT16_MAX).
  - intros Ht. rewrite Ht in Ek. by destruct (nonempty auth_keys).
Qed.

(** ** The machine of one session *)

Inductive session_op :=
| OpRecv (p : bfd_pkt)
| OpSendTick
| OpTimeoutWait
| OpTimeoutWake (last_wait now : Z)
| OpSetRemoteAddr (dst_mac dst_ip : string)
| OpConnect.

Definition run_session_op (op : session_op) : SM () :=
  match op with
  | OpRecv p => recv randint p
  | OpSendTick => send_tick randint
  | OpTimeoutWait => timeout_wait
  | OpTimeoutWake lw now => timeout_wake randint lw now
  | OpSetRemoteAddr mac ip => set_remote_addr mac ip
  | OpConnect => smod (λ s, s <| s_datapath := true |>)
  end.

(** A packet has a two-bit state, and an authentication section with a sequence
    number when the session uses one. *)
Definition op_ok (s : session) (op : session_op) : Prop :=
  match op with
  | OpRecv p => BFD_STATE_ADMIN_DOWN ≤ b_state p ≤ BFD_STATE_UP ∧
      (is_sequenced (s_auth_type s) = true → is_Some (b_auth p))
  | _ => True
  end.

Lemma wp_send_tick st :
  session_inv (sess st) →
  wp (send_tick randint) st (λ o st' r,
    r = Ret tt ∧ session_inv (sess st') ∧ s_state (sess st') = s_state (sess st) ∧
    Forall not_poll_final (out_flags o) ∧ Forall (λ x, x = s_state (sess st)) (out_state o)).
Proof.
  intros Hinv. unfold send_tick, id. apply wp_bind, wp_gets. cbn beta iota.
  repeat case_match; try by apply wp_ret. by apply wp_send.
Qed.

Lemma run_session_op_ok st op :
  session_inv (sess st) → op_ok (sess st) op →
  wp (run_session_op op) st (λ _ st' r, r = Ret tt ∧ session_inv (sess st')).
Proof.
  intros Hinv Hop. pose proof Hinv as [H1 H2 H3 H4 H5 H6 H7 H8 H9 H10 H11].
  destruct op as [p| | |lw now|mac ip|]; cbn [run_session_op op_ok] in *.
  - destruct Hop as [Hp Ha]. eapply wp_mono; [by apply wp_recv|].
    by intros o st' r (-> & ? & _).
  - eapply wp_mono; [by apply wp_send_tick|]. by intros o st' r (-> & ? & _).
  - unfold timeout_wait. repeat sstep; split_and!; try done; by split.
  - eapply wp_mono; [by apply wp_timeout_wake|]. by intros o st' r (-> & ? & _).
  - unfold set_remote_addr. repeat sstep; split_and!; try done; by split.
  - unfold smod. apply wp_modify. by split_and!.
Qed.

(** A session with any arguments but a negative interval. *)
Definition session_init (st : sess_st) : Prop :=
  ∃ n my_discr dpid ofport src_mac src_ip src_port dst_mac dst_ip mult tx rx auth_type
      auth_keys,
    0 ≤ tx ∧
    new_session randint n my_discr dpid ofport src_mac src_ip src_port dst_mac dst_ip
      mult tx rx auth_type auth_keys = Ret st.

Definition session_step (st : sess_st) (op : session_op) (st' : sess_st) : Prop :=
  op_ok (sess st) op ∧ st' = final (run_session_op op) st.

Lemma session_reachable_inv st :
  reachable session_init session_step st → session_inv (sess st).
Proof.
  revert st. apply reachable_inv.
  - intros st (n & d & dp & op & sm & si & sp & dm & di & mu & tx & rx & at_ & ak & Htx & E).
    by apply new_session_inv in E as [? _].
  - intros st op st' Hinv [Hop ->]. apply (run_session_op_ok st op Hinv Hop).
Qed.


(** C12: reception follows the state machine of RFC 5880, section 6.8.6, on every pair
    of local and received state; it announces the change exactly when there is one,
    and keeps the identity of the session. *)
Theorem recv_follows_rfc st p :
  reachable session_init session_step st → op_ok (sess st) (OpRecv p) →
  let st' := final (recv randint p) st in
  s_state (sess st') = next_state (s_state (sess st)) (b_state p) ∧
  state_changes (outputs (recv randint p) st) =
    (if s_state (sess st') =? s_state (sess st) then []
     else [SessionStateChanged (s_local_discr (sess st)) (s_state (sess st))
             (s_state (sess st'))]) ∧
  same_config (sess st) (sess st').
Proof.
  intros Hr [Hp Ha]. pose proof (session_reachable_inv st Hr) as Hinv.
  by destruct (wp_recv st p Hinv Hp Ha) as (_ & _ & ? & ? & ? & _).
Qed.

(** when the detection time expires without a packet, a session that is in Init
    or Up goes Down with the diagnostic of an expired detection time and says so; in
    Down and AdminDown nothing changes.  When a packet came in time nothing
    changes. *)
Theorem detection_timeout st last_wait now :
  reachable session_init session_step st →
  let m := timeout_wake randint last_wait now in
  match s_lock (sess st) with
  | Some false =>
      s_auth_seq_known (sess (final m st)) = 0 ∧
      (if s_state (sess st) =? BFD_STATE_ADMIN_DOWN
       then s_state (sess (final m st)) = BFD_STATE_ADMIN_DOWN ∧ outputs m st = []
       else s_state (sess (final m st)) = BFD_STATE_DOWN ∧
         if s_state (sess st) =? BFD_STATE_DOWN then outputs m st = []
         else s_local_diag (sess (final m st)) = BFD_DIAG_CTRL_DETECT_TIME_EXPIRED ∧
           outputs m st = [SessionStateChanged (s_local_discr (sess st))
                             (s_state (sess st)) BFD_STATE_DOWN])
  | _ => s_state (sess (final m st)) = s_state (sess st) ∧ outputs m st = []
  end.
Proof.
  intros Hr. pose proof (session_reachable_inv st Hr) as Hinv.
  by destruct (wp_timeout_wake last_wait now st Hinv) as (_ & _ & ?).
Qed.

(** the handshake completes.  Two sessions that are down come up with three
    packets, each carrying the state its sender has then: the first brings the
    receiver to Init, its answer brings the first one up, the third the other. *)
Theorem handshake_up a b pa pb pa' :
  reachable session_init session_step a → reachable session_init session_step b →
  s_state (sess a) = BFD_STATE_DOWN → s_state (sess b) = BFD_STATE_DOWN →
  op_ok (sess b) (OpRecv pa) → op_ok (sess a) (OpRecv pb) → op_ok (sess b) (OpRecv pa') →
  let b1 := final (recv randint pa) b in
  let a1 := final (recv randint pb) a in
  let b2 := final (recv randint pa') b1 in
  b_state pa = s_state (sess a) → b_state pb = s_state (sess b1) →
  b_state pa' = s_state (sess a1) →
  s_state (sess b1) = BFD_STATE_INIT ∧ s_state (sess a1) = BFD_STATE_UP ∧
  s_state (sess b2) = BFD_STATE_UP.
Proof.
  intros Ha Hb Ea Eb [Hp1 Hq1] [Hp2 Hq2] [Hp3 Hq3] b1 a1 b2 E1 E2 E3.
  apply session_reachable_inv in Ha as Ia. apply session_reachable_inv in Hb as Ib.
  destruct (wp_recv b pa Ib Hp1 Hq1) as (_ & Ib1 & Cb1 & Sb1 & _).
  destruct (wp_recv a pb Ia Hp2 Hq2) as (_ & Ia1 & _ & Sa1 & _).
  fold b1 in Ib1, Cb1, Sb1. fold a1 in Ia1, Sa1.
  rewrite Eb, E1, Ea in Sb1. cbn in Sb1. rewrite Ea, E2, Sb1 in Sa1. cbn in Sa1.
  rewrite <- (same_auth_type _ _ Cb1) in Hq3.
  destruct (wp_recv b1 pa' Ib1 Hp3 Hq3) as (_ & _ & _ & Sb2 & _). fold b2 in Sb2.
  rewrite Sb1, E3, Sa1 in Sb2. done.
Qed.

(** replay protection.  Once a session with a meticulous keyed digest has
    accepted a packet it rejects, until its detection time expires, every packet
    whose sequence number is not greater, or is more than three detection
    multipliers ahead. *)
Theorem replay_rejected st p a a' :
  reachable session_init session_step st → op_ok (sess st) (OpRecv p) →
  s_state (sess st) ≠ BFD_STATE_ADMIN_DOWN →
  is_meticulous (s_auth_type (sess st)) = true → b_auth p = Some a →
  seq_ok (sess (final (recv randint p) st)) a' =
    ((a_seq a <? a_seq a') && (a_seq a' <=? a_seq a + 3 * s_detect_mult (sess st))).
Proof.
  intros Hr [Hp Ha] Hadm Hmet Ea. pose proof (session_reachable_inv st Hr) as Hinv.
  destruct (wp_recv st p Hinv Hp Ha) as (_ & _ & Hc & _ & _ & Hseq).
  assert (Hs : is_sequenced (s_auth_type (sess st)) = true).
  { unfold is_meticulous, is_sequenced in *. cbn in *. rewrite !orb_true_iff in *. tauto. }
  destruct (Hseq Hadm Hs) as [Hk Hrcv]. rewrite Ea in Hrcv. cbn in Hrcv.
  injection Hrcv as Hrcv. unfold seq_ok.
  rewrite (same_auth_type _ _ Hc), (same_detect_mult _ _ Hc), Hs, Hk, Hmet, Hrcv. cbn.
  destruct (Z.ltb_spec (a_seq a') (a_seq a)), (Z.leb_spec (a_seq a') (a_seq a)),
    (Z.ltb_spec (a_seq a) (a_seq a')),
    (Z.ltb_spec (a_seq a + 3 * s_detect_mult (sess st)) (a_seq a')),
    (Z.leb_spec (a_seq a') (a_seq a + 3 * s_detect_mult (sess st))); done || lia.
Qed.

(** a packet is only sent to a connected switch, carries the current state, and
    never has the Poll and the Final flag set together. *)
Theorem sent_packets st :
  reachable session_init session_step st →
  let o := outputs (send_tick randint) st in
  Forall not_poll_final (out_flags o) ∧ Forall (λ x, x = s_state (sess st)) (out_state o) ∧
  (s_datapath (sess st) = false → o = []).
Proof.
  intros Hr. pose proof (session_reachable_inv st Hr) as Hinv. cbv zeta.
  destruct (wp_send_tick st Hinv) as (_ & _ & _ & ? & ?). split_and!; try done.
  intros Hd. apply (wp_unfold _ _ (λ o _ _, o = [])).
  unfold send_tick, id. apply wp_bind, wp_gets. cbn beta iota.
  repeat case_match; try by apply wp_ret.
  unfold send. apply wp_bind, wp_gets. cbn beta iota. rewrite Hd. by apply wp_ret.
Qed.
End session_proofs.

(** ** The library *)

(** Discriminators and source ports identify sessions. *)
Record lib_ok (l : bfdlib) : Prop := {
  lib_dict : od_ok (l_session l);
  lib_discr k s : od_get k (l_session l) = Some s → s_local_discr s = k ∧ session_inv s;
  lib_port k1 k2 s1 s2 : od_get k1 (l_session l) = Some s1 →
    od_get k2 (l_session l) = Some s2 → s_src_port s1 = s_src_port s2 → k1 = k2
}.

Section lib_proofs.
Context (randint : nat → Z → Z → Z).
Hypothesis randint_range : ∀ n a b, a ≤ b → a ≤ randint n a b ≤ b.
Context (authenticate : bfd_pkt → odict Z string → bool).

(** A draw that the search accepts. *)
Definition fresh (l : bfdlib) (d port : Z) : Prop :=
  od_get d (l_session l) = None ∧
  ∀ k s, od_get k (l_session l) = Some s → s_remote_discr s ≠ d ∧ s_src_port s ≠ port.

Lemma unused_spec (sessions : odict Z session) d port :
  existsb (λ s, (s_remote_discr s =? d) || (s_src_port s =? port)) (od_values sessions) = false →
  ∀ k s, od_get k sessions = Some s → s_remote_discr s ≠ d ∧ s_src_port s ≠ port.
Proof.
  intros H k s Hk. apply od_get_elem in Hk.
  assert (Hin : s ∈ od_values sessions).
  { unfold od_values. apply list_elem_of_fmap. by exists (k, s). }
  destruct ((s_remote_discr s =? d) || (s_src_port s =? port)) eqn:E.
  - assert (existsb (λ s, (s_remote_discr s =? d) || (s_src_port s =? port))
      (od_values sessions) = true) as E'; [|congruence].
    apply existsb_exists. exists s. by rewrite <- list_elem_of_In.
  - apply orb_false_iff in E as [?%Z.eqb_neq ?%Z.eqb_neq]. done.
Qed.

Lemma wp_ldraw a b l Q :
  Q [] (l <| l_rng := S (l_rng l) |>) (Ret (randint (l_rng l) a b)) →
  wp (ldraw randint a b) l Q.
Proof. done. Qed.

(** The search returns fresh numbers, and returns as soon as a draw is fresh. *)
Lemma unique_discr_spec fuel l :
  od_ok (l_session l) →
  wp (unique_discr randint fuel) l (λ o l' r,
    o = [] ∧ l_session l' = l_session l ∧
    match r with
    | Ret (d, port) => fresh l d port ∧ 1 ≤ d ≤ UINT32_MAX ∧ 49152 ≤ port ≤ 65535
    | Raise e => e = OutOfFuel ∧ ∀ i, (i < fuel)%nat →
        ¬ fresh l (randint (l_rng l + 2 * i) 1 UINT32_MAX)
                  (randint (l_rng l + 2 * i + 1) 49152 65535)
    end).
Proof.
  revert l. induction fuel as [|fuel IH]; intros l Hok; cbn [unique_discr].
  { apply wp_raise. split_and!; try done. intros i Hi. lia. }
  apply wp_bind, wp_ldraw. cbn beta iota. apply wp_bind, wp_ldraw. cbn beta iota.
  apply wp_bind, wp_gets. cbn beta iota.
  change (l_session (_ <| l_rng := _ |>)) with (l_session l).
  set (d := randint (l_rng l) 1 UINT32_MAX).
  set (l' := l <| l_rng := S (l_rng l) |> <| l_rng := S (l_rng (l <| l_rng := S (l_rng l) |>)) |>).
  set (port := randint _ 49152 65535).
  assert (Hport : port = randint (l_rng l + 2 * 0 + 1) 49152 65535).
  { unfold port. cbn. by rewrite Nat.add_0_r, Nat.add_1_r. }
  assert (Hd : d = randint (l_rng l + 2 * 0) 1 UINT32_MAX).
  { unfold d. cbn. by rewrite Nat.add_0_r. }
  assert (Hretry : ¬ fresh l d port →
    wp (unique_discr randint fuel) l' (λ o l'' r,
      o = [] ∧ l_session l'' = l_session l ∧
      match r with
      | Ret (d, port) => fresh l d port ∧ 1 ≤ d ≤ UINT32_MAX ∧ 49152 ≤ port ≤ 65535
      | Raise e => e = OutOfFuel ∧ ∀ i, (i < S fuel)%nat →
          ¬ fresh l (randint (l_rng l + 2 * i) 1 UINT32_MAX)
                    (randint (l_rng l + 2 * i + 1) 49152 65535)
      end)).
  { intros Hnot. eapply wp_mono; [by apply IH|]. intros o l'' r (-> & E & Hr).
    change (l_session l') with (l_session l) in *. split_and!; try done.
    destruct r as [ [d' port']|e]; [done|]. destruct Hr as [-> Hr]. split; [done|].
    intros [|i] Hi; [by rewrite <- Hd, <- Hport|].
    specialize (Hr i ltac:(lia)). change (l_rng l') with (S (S (l_rng l))) in Hr.
    by replace (l_rng l + 2 * S i)%nat with (S (S (l_rng l)) + 2 * i)%nat by lia. }
  destruct (od_mem d (l_session l)) eqn:Em.
  - eapply wp_mono; [apply Hretry|done]. intros [Hn _].
    apply od_mem_spec, od_get_is_key in Em as [? ?]. congruence.
  - destruct (existsb _ _) eqn:Ee.
    + eapply wp_mono; [apply Hretry|done]. intros [_ Hall].
      apply existsb_exists in Ee as (s & Hin & Hs).
      apply list_elem_of_In in Hin. unfold od_values in Hin.
      apply list_elem_of_fmap in Hin as ([k s'] & -> & Hin). cbn in Hs.
      destruct (Hall k s' (od_elem_get k s' _ Hok Hin)) as [? ?].
      apply orb_true_iff in Hs as [?%Z.eqb_eq|?%Z.eqb_eq]; congruence.
    + apply wp_ret. split_and!; try done.
      * split; [|by apply unused_spec].
        destruct (od_get d (l_session l)) eqn:Eg; [|done].
        assert (od_mem d (l_session l) = true); [|congruence].
        apply od_mem_spec, od_get_is_key. by rewrite Eg.
      * apply (randint_range (l_rng l) 1 UINT32_MAX). done.
      * apply (randint_range (l_rng l) 1 UINT32_MAX). done.
      * apply randint_range. lia.
      * apply randint_range. lia.
Qed.

Abbreviation add_session fuel dpid ofport sm si dm di at_ ak :=
  (add_bfd_session randint fuel dpid ofport sm si dm di at_ ak).

Lemma wp_add_session l fuel dpid ofport sm si dm di at_ ak i :
  lib_ok l → (i < fuel)%nat → truthy at_ && negb (nonempty ak) = false →
  fresh l (randint (l_rng l + 2 * i) 1 UINT32_MAX)
          (randint (l_rng l + 2 * i + 1) 49152 65535) →
  wp (add_session fuel dpid ofport sm si dm di at_ ak) l (λ o l' r, ∃ d s,
    r = Ret d ∧ 1 ≤ d ≤ UINT32_MAX ∧ fresh l d (s_src_port s) ∧
    49152 ≤ s_src_port s ≤ 65535 ∧ l_session l' = od_set d s (l_session l) ∧ lib_ok l').
Proof.
  intros Hl Hi Hkeys Hfresh. pose proof Hl as [Hok Hdis Hport].
  unfold add_bfd_session. apply wp_bind.
  eapply wp_mono; [by apply unique_discr_spec|].
  intros o l1 r (-> & E & Hr). destruct r as [ [d port]|e].
  2: { destruct Hr as [_ Hr]. by destruct (Hr i Hi). }
  destruct Hr as (Hfr & Hd & Hp). apply wp_bind, wp_gets. cbn beta iota. apply wp_bind.
  destruct (new_session randint (l_rng l1) d dpid ofport sm si port dm di
    DEFAULT_DETECT_MULT DEFAULT_INTERVAL DEFAULT_INTERVAL at_ ak) as [st|e] eqn:En.
  2: { unfold new_session in En. by rewrite Hkeys in En. }
  apply (new_session_inv randint randint_range) in En as (Hinv & Ed & Epo & _); [|done].
  unfold lift. apply wp_lift. repeat wp_step. exists d, (sess st). cbn. rewrite E.
  rewrite Epo. split_and!; try done; try lia. split; cbn.
  - by apply od_ok_set.
  - intros k s. rewrite od_get_set. case_decide as Ek; [|by apply Hdis].
    by intros [= <-]; subst.
  - intros k1 k2 s1 s2. rewrite !od_get_set. destruct Hfr as [_ Hfr].
    case_decide as E1; case_decide as E2; intros; simplify_eq; try done.
    + destruct (Hfr k2 s2) as [_ Hne]; congruence.
    + destruct (Hfr k1 s1) as [_ Hne]; congruence.
    + by eapply Hport.
Qed.

(** adding a session gives it a discriminator that is not zero and that no session
    has, locally or for its peer, and an unused source port of the range of RFC
    5881; the other sessions are untouched and the table stays consistent.  The
    search for the numbers ends as soon as the generator draws a fresh pair. *)
Theorem add_session_unique l fuel dpid ofport sm si dm di at_ ak i :
  lib_ok l → (i < fuel)%nat → truthy at_ && negb (nonempty ak) = false →
  fresh l (randint (l_rng l + 2 * i) 1 UINT32_MAX)
          (randint (l_rng l + 2 * i + 1) 49152 65535) →
  ∃ d s, let l' := final (add_session fuel dpid ofport sm si dm di at_ ak) l in
    result (add_session fuel dpid ofport sm si dm di at_ ak) l = Ret d ∧
    1 ≤ d ≤ UINT32_MAX ∧ fresh l d (s_src_port s) ∧ 49152 ≤ s_src_port s ≤ 65535 ∧
    l_session l' = od_set d s (l_session l) ∧ lib_ok l'.
Proof.
  intros Hl Hi Hkeys Hfresh.
  destruct (wp_add_session l fuel dpid ofport sm si dm di at_ ak i Hl Hi Hkeys Hfresh)
    as (d & s & ?). by exists d, s.
Qed.

(** A packet that a session may act on. *)
Record admitted (l : bfdlib) (dpid in_port : Z) (f : frame) (p : bfd_pkt) (discr : Z)
    (s : session) : Prop := {
  adm_frame : f_ethertype f = ETH_TYPE_IP ∧ fst <$> f_ip f = Some 255 ∧ f_bfd f = Some p;
  adm_sane : sanity_ok p = true;
  adm_discr : if b_your_discr p =? 0
    then session_of_port dpid in_port (l_session l) = Some discr ∧
         (b_state p = BFD_STATE_ADMIN_DOWN ∨ b_state p = BFD_STATE_DOWN)
    else discr = b_your_discr p;
  adm_session : od_get discr (l_session l) = Some s;
  adm_auth : if truthy (Z.land (b_flags p) BFD_FLAG_AUTH_PRESENT)
    then s_auth_type s ≠ 0 ∧ ∃ a, b_auth p = Some a ∧ a_type a = s_auth_type s ∧
         seq_ok s a = true ∧ authenticate p (s_auth_keys s) = true
    else s_auth_type s = 0
}.

(** A method of one session that keeps its identity keeps the table. *)
Lemma wp_on_session {A} discr s (m : SM A) l Q :
  lib_ok l → od_get discr (l_session l) = Some s →
  wp m (SessSt (l_rng l) s) (λ o st' r,
    session_inv (sess st') ∧ same_config s (sess st') ∧
    ∀ l', lib_ok l' → od_get discr (l_session l') = Some (sess st') →
      (∀ k, k ≠ discr → od_get k (l_session l') = od_get k (l_session l)) →
      l_rng l' = rng st' → Q o l' r) →
  wp (on_session discr m) l Q.
Proof.
  intros [Hok Hdis Hport] Hs. unfold wp, outputs, final, result, on_session. rewrite Hs.
  destruct (m (SessSt (l_rng l) s)) as [ [o st'] r]. cbn. intros (Hi & Hc & HQ).
  apply HQ; cbn; [|by rewrite od_get_set_eq|by intros; rewrite od_get_set_ne|done].
  pose proof (same_discr _ _ Hc) as Hd. pose proof (same_port _ _ Hc) as Hp.
  split; cbn.
  - by apply od_ok_set.
  - intros k s'. rewrite od_get_set. case_decide as Ek; [|by apply Hdis].
    intros [= <-]. subst k. destruct (Hdis discr s Hs) as [? _]. split; [congruence|done].
  - intros k1 k2 s1 s2. rewrite !od_get_set.
    case_decide; case_decide; intros; simplify_eq; try done.
    + eapply Hport; [exact Hs|eassumption|congruence].
    + eapply Hport; [eassumption|exact Hs|congruence].
    + by eapply Hport.
Qed.

Lemma session_of_port_get l dpid in_port d :
  lib_ok l → session_of_port dpid in_port (l_session l) = Some d →
  ∃ s, od_get d (l_session l) = Some s.
Proof.
  intros [Hok Hdis _]. unfold session_of_port.
  destruct (list_find _ _) as [ [i s]|] eqn:E; cbn; [|done]. intros [= <-].
  apply list_find_Some in E as (Hi & _). apply list_elem_of_lookup_2 in Hi.
  unfold od_values in Hi. apply list_elem_of_fmap in Hi as ([k s'] & E & Hin). cbn in E. subst s'.
  pose proof (od_elem_get k s _ Hok Hin) as Hg. destruct (Hdis k s Hg) as [-> _]. by exists s.
Qed.

Lemma same_config_trans s1 s2 s3 : same_config s1 s2 → same_config s2 s3 → same_config s1 s3.
Proof.
  intros [A1 A2 A3 A4 A5 [A6 A7] ] [B1 B2 B3 B4 B5 [B6 B7] ].
  split; try split; congruence.
Qed.

(** The delivery to a session changes that session only. *)
Lemma wp_deliver l discr s mac ip p :
  lib_ok l → od_get discr (l_session l) = Some s → op_ok s (OpRecv p) →
  wp (when (negb (s_remote_addr_config s)) (on_session discr (set_remote_addr mac ip));;
      on_session discr (recv randint p)) l
    (λ _ l' _, lib_ok l' ∧ ∀ k, k ≠ discr → od_get k (l_session l') = od_get k (l_session l)).
Proof.
  intros Hl Hs Hop. apply wp_bind.
  assert (Hrecv : ∀ l1 s1, lib_ok l1 → od_get discr (l_session l1) = Some s1 →
    same_config s s1 →
    (∀ k, k ≠ discr → od_get k (l_session l1) = od_get k (l_session l)) →
    wp (on_session discr (recv randint p)) l1
      (λ _ l' _, lib_ok l' ∧ ∀ k, k ≠ discr → od_get k (l_session l') = od_get k (l_session l))).
  { intros l1 s1 Hl1 Hs1 Hc1 Ho1. apply (wp_on_session discr s1); [done..|].
    destruct Hop as [Hp Ha]. rewrite <- (same_auth_type _ _ Hc1) in Ha.
    destruct (lib_discr _ Hl1 discr s1 Hs1) as [_ Hi].
    eapply wp_mono; [by apply (wp_recv randint randint_range (SessSt (l_rng l1) s1))|].
    intros o st' r (_ & Hi' & Hc' & _). split_and!; [done..|].
    intros l' Hl' _ Hk' _. split; [done|]. intros k Hk. rewrite Hk', Ho1; done. }
  destruct (s_remote_addr_config s); cbn [negb when].
  - apply wp_ret. cbn beta iota. by eapply wp_mono; [eapply (Hrecv l s)|].
  - apply (wp_on_session discr s); [done..|].
    destruct (lib_discr _ Hl discr s Hs) as [_ Hi].
    assert (Hset : wp (set_remote_addr mac ip) (SessSt (l_rng l) s) (λ _ st' r,
      r = Ret tt ∧ session_inv (sess st') ∧ same_config s (sess st'))).
    { destruct Hi as [H1 H2 H3 H4 H5 H6 H7 H8 H9 H10 H11]. unfold set_remote_addr, smod.
      repeat wp_step; split_and!; try done; by split. }
    eapply wp_mono; [exact Hset|]. intros o st' r (-> & Hi' & Hc'). split_and!; [done..|].
    intros l1 Hl1 Hs1 Ho1 _. cbn beta iota.
    by eapply wp_mono; [eapply (Hrecv l1 (sess st'))|].
Qed.

(** a received packet acts on a session only when it passes every check: an IP
    frame with TTL 255, a sane version 1 packet with discriminators and a detection
    multiplier, a discriminator of a session or, when it is zero, a state of Down or
    AdminDown on the port of a session, and the authentication type, sequence
    number and digest the session demands.  It then changes that session only;
    otherwise nothing changes and nothing is sent. *)
Theorem bfd_packet_admission l dpid in_port f :
  lib_ok l → (∀ p, f_bfd f = Some p → BFD_STATE_ADMIN_DOWN ≤ b_state p ≤ BFD_STATE_UP) →
  let m := recv_bfd_pkt randint authenticate dpid in_port f in
  lib_ok (final m l) ∧
  ((outputs m l = [] ∧ final m l = l) ∨
   ∃ p discr s, admitted l dpid in_port f p discr s ∧
     ∀ k, k ≠ discr → od_get k (l_session (final m l)) = od_get k (l_session l)).
Proof.
  intros Hl Hstate. cbv zeta.
  set (Q := λ (o : list bfd_out) (l' : bfdlib) (r : outcome pyexn ()), lib_ok l' ∧
    ((o = [] ∧ l' = l) ∨ ∃ p discr s, admitted l dpid in_port f p discr s ∧
     ∀ k, k ≠ discr → od_get k (l_session l') = od_get k (l_session l))).
  assert (Hskip : ∀ r, Q [] l r) by (intros r; split; [done|by left]).
  cut (wp (recv_bfd_pkt randint authenticate dpid in_port f) l Q); [done|].
  unfold recv_bfd_pkt.
  destruct (f_ethertype f =? ETH_TYPE_IP) eqn:Eeth; cbn [negb]; [|by apply wp_ret].
  destruct (f_ip f) as [ [ttl src]|] eqn:Eip; [|by apply wp_raise].
  destruct (ttl =? 255) eqn:Ettl; cbn [negb]; [|by apply wp_ret].
  destruct (f_bfd f) as [p|] eqn:Ep; [|by apply wp_ret].
  apply wp_bind, wp_gets. cbn beta iota.
  destruct (sanity_ok p) eqn:Esane; cbn [negb]; [|by apply wp_ret].
  set (sel := if b_your_discr p =? 0 then session_of_port dpid in_port (l_session l)
              else Some (b_your_discr p)).
  destruct (negb (b_your_discr p =? 0) && negb (od_mem (b_your_discr p) (l_session l))) eqn:E1;
    [by apply wp_ret|].
  destruct ((b_your_discr p =? 0) && negb ((b_state p =? BFD_STATE_ADMIN_DOWN) ||
    (b_state p =? BFD_STATE_DOWN))) eqn:E2; [by apply wp_ret|].
  destruct sel as [discr|] eqn:Esel; [|by apply wp_ret].
  apply wp_bind. destruct (od_get discr (l_session l)) as [s|] eqn:Es;
    [cbn [or_raise]; apply wp_ret; cbn beta iota|cbn [or_raise]; by apply wp_raise].
  assert (Hdeliver : (if truthy (Z.land (b_flags p) BFD_FLAG_AUTH_PRESENT)
      then s_auth_type s ≠ 0 ∧ ∃ a, b_auth p = Some a ∧ a_type a = s_auth_type s ∧
        seq_ok s a = true ∧ authenticate p (s_auth_keys s) = true
      else s_auth_type s = 0) →
    wp (when (negb (s_remote_addr_config s))
          (on_session discr (set_remote_addr (f_eth_src f) src));;
        on_session discr (recv randint p)) l (λ o l' r, Q ([] ++ [] ++ o) l' r)).
  { intros Hauth. eapply wp_mono; [eapply (wp_deliver l discr s); [done..|]|].
    - split; [by apply Hstate|]. intros Hseq.
      destruct (truthy (Z.land _ _)); [|by rewrite Hauth in Hseq].
      destruct Hauth as (_ & a & -> & _). by eexists.
    - intros o l' r [Hl' Hk]. split; [done|]. right. exists p, discr, s. split; [|done].
      split; try done.
      + apply Z.eqb_eq in Eeth, Ettl. rewrite Eip. cbn. by rewrite Ettl.
      + subst sel. destruct (b_your_discr p =? 0); [|by injection Esel].
        split; [done|]. cbn [andb] in E2. apply negb_false_iff, orb_true_iff in E2.
        by destruct E2 as [?%Z.eqb_eq|?%Z.eqb_eq]; [left|right]. }
  destruct (truthy (Z.land (b_flags p) BFD_FLAG_AUTH_PRESENT)) eqn:Epres; cbn [andb negb].
  - destruct (s_auth_type s =? 0) eqn:Et; [by apply wp_ret|]. apply Z.eqb_neq in Et.
    destruct (b_auth p) as [a|] eqn:Ea; [|by apply wp_raise].
    destruct (a_type a =? s_auth_type s) eqn:Eat; cbn [negb]; [|by apply wp_ret].
    destruct (seq_ok s a) eqn:Eseq; cbn [negb]; [|by apply wp_ret].
    destruct (authenticate p (s_auth_keys s)) eqn:Eau; cbn [negb]; [|by apply wp_ret].
    apply Hdeliver. split; [done|]. exists a. apply Z.eqb_eq in Eat. done.
  - destruct (s_auth_type s =? 0) eqn:Et; cbn [negb]; [|by apply wp_ret].
    apply Hdeliver. by apply Z.eqb_eq in Et.
Qed.

(** the check of the packet length is dead: the length attribute of a parsed
    packet is computed from its contents, not read from its Length field, and is
    never too short. *)
Theorem length_check_never_fires p :
  (∀ a, b_auth p = Some a → 3 ≤ a_len a) →
  (truthy (Z.land (b_flags p) BFD_FLAG_AUTH_PRESENT) = true → is_Some (b_auth p)) →
  sanity_ok p = (b_ver p =? 1) && negb (b_detect_mult p =? 0) &&
    negb (truthy (Z.land (b_flags p) BFD_FLAG_MULTIPOINT)) && negb (b_my_discr p =? 0).
Proof.
  intros Hlen Hauth. unfold sanity_ok, b_length.
  destruct (truthy (Z.land (b_flags p) BFD_FLAG_AUTH_PRESENT)) eqn:Ef.
  - destruct Hauth as [a Ea]; [done|]. rewrite Ea. specialize (Hlen a Ea).
    rewrite (proj2 (Z.ltb_ge _ _)) by lia. by rewrite andb_true_r.
  - destruct (b_auth p); by rewrite andb_true_r.
Qed.
End lib_proofs.

(** ** Witnesses *)

Module BfdWitness.
(** A generator that always draws the lower bound. *)
Definition low (n : nat) (a b : Z) : Z := a.
Lemma low_range n a b : a ≤ b → a ≤ low n a b ≤ b.
Proof. unfold low. lia. Qed.

Definition keys : odict Z string := [(1, "secret"%string)].
Definition start (discr auth_type : Z) : outcome pyexn sess_st :=
  new_session low 0 discr 1 2 "00:00:00:00:00:01" "10.0.0.1" 50000 BROADCAST_MAC
    BROADCAST_IP 1 50000 60000 auth_type (if truthy auth_type then keys else []).
Definition session_of (discr auth_type : Z) : sess_st :=
  match start discr auth_type with
  | Ret st => st
  | Raise _ => SessSt 0 (Session 0 0 None 0 0 0 0 0 0 0 0 0 0 [] 0 0 0 0 0 true 0 0 true
      false true None "" "" "" "" 0 0 false 0 false 0)
  end.

Lemma start_reachable discr auth_type :
  start discr auth_type = Ret (session_of discr auth_type) →
  reachable (session_init low) (session_step low) (session_of discr auth_type).
Proof. intros E. apply reach_init. repeat eexists; [|exact E]. done. Qed.

Definition pkt (state discr : Z) : bfd_pkt :=
  BfdPkt 1 0 state 0 3 discr 0 1000000 1000000 0 None.
Definition auth_pkt (state seq : Z) : bfd_pkt :=
  BfdPkt 1 0 state 4 3 9 0 1000000 1000000 0
    (Some (AuthSection BFD_AUTH_METICULOUS_KEYED_MD5 1 seq 24)).


(** The session of this module has a multiplier of one and an interval of 50000
    microseconds: it starts slow, sends at most every 75 percent of its peer's larger
    interval when it is up, and is slow again when its peer goes down. *)
Example rates :
  let up := final (recv low (BfdPkt 1 0 BFD_STATE_INIT 0 3 9 7 60000 40000 0 None))
    (session_of 7 0) in
  let down := final (recv low (BfdPkt 1 0 BFD_STATE_DOWN 0 3 9 7 60000 40000 0 None)) up in
  s_xmit_period (sess (session_of 7 0)) = 75 * 1000000 ∧
  s_state (sess up) = BFD_STATE_UP ∧ s_xmit_period (sess up) = 75 * 50000 ∧
  s_state (sess down) = BFD_STATE_DOWN ∧ s_xmit_period (sess down) = 75 * 1000000.
Proof. by vm_compute. Qed.

Lemma recv_witness :
  let st := session_of 7 0 in
  let p := pkt BFD_STATE_DOWN 9 in
  let st' := final (recv low p) st in
  s_state (sess st') = next_state (s_state (sess st)) (b_state p) ∧
  state_changes (outputs (recv low p) st) =
    (if s_state (sess st') =? s_state (sess st) then []
     else [SessionStateChanged (s_local_discr (sess st)) (s_state (sess st))
             (s_state (sess st'))]) ∧
  same_config (sess st) (sess st').
Proof.
  apply (recv_follows_rfc low low_range); [by apply start_reachable|].
  split; [by vm_compute|done].
Defined.

(** A session in Init whose timeout thread waits. *)
Definition waiting : sess_st :=
  final timeout_wait (final (recv low (pkt BFD_STATE_DOWN 9)) (session_of 7 0)).

Lemma waiting_reachable : reachable (session_init low) (session_step low) waiting.
Proof.
  apply (reach_step _ _ (final (recv low (pkt BFD_STATE_DOWN 9)) (session_of 7 0))
    OpTimeoutWait); [|done].
  apply (reach_step _ _ (session_of 7 0) (OpRecv (pkt BFD_STATE_DOWN 9)));
    [by apply start_reachable|]. split; [split; [by vm_compute|done]|done].
Qed.

Lemma timeout_witness :
  s_state (sess waiting) = BFD_STATE_INIT ∧ s_lock (sess waiting) = Some false ∧
  let m := timeout_wake low 0 3000000 in
  match s_lock (sess waiting) with
  | Some false =>
      s_auth_seq_known (sess (final m waiting)) = 0 ∧
      (if s_state (sess waiting) =? BFD_STATE_ADMIN_DOWN
       then s_state (sess (final m waiting)) = BFD_STATE_ADMIN_DOWN ∧ outputs m waiting = []
       else s_state (sess (final m waiting)) = BFD_STATE_DOWN ∧
         if s_state (sess waiting) =? BFD_STATE_DOWN then outputs m waiting = []
         else s_local_diag (sess (final m waiting)) = BFD_DIAG_CTRL_DETECT_TIME_EXPIRED ∧
           outputs m waiting = [SessionStateChanged (s_local_discr (sess waiting))
                             (s_state (sess waiting)) BFD_STATE_DOWN])
  | _ => s_state (sess (final m waiting)) = s_state (sess waiting) ∧ outputs m waiting = []
  end.
Proof.
  split; [by vm_compute|]. split; [by vm_compute|].
  apply (detection_timeout low low_range), waiting_reachable.
Defined.

Lemma handshake_witness :
  let a := session_of 7 0 in
  let b := session_of 9 0 in
  let b1 := final (recv low (pkt BFD_STATE_DOWN 7)) b in
  let a1 := final (recv low (pkt BFD_STATE_INIT 9)) a in
  let b2 := final (recv low (pkt BFD_STATE_UP 7)) b1 in
  s_state (sess b1) = BFD_STATE_INIT ∧ s_state (sess a1) = BFD_STATE_UP ∧
  s_state (sess b2) = BFD_STATE_UP.
Proof.
  apply (handshake_up low low_range); try (by apply start_reachable); try by vm_compute.
  all: split; [by vm_compute|done].
Defined.

Lemma replay_witness :
  let st := session_of 7 BFD_AUTH_METICULOUS_KEYED_MD5 in
  seq_ok (sess (final (recv low (auth_pkt BFD_STATE_DOWN 5)) st))
    (AuthSection BFD_AUTH_METICULOUS_KEYED_MD5 1 5 24) =
    ((5 <? 5) && (5 <=? 5 + 3 * s_detect_mult (sess st))).
Proof.
  apply (replay_rejected low low_range (session_of 7 BFD_AUTH_METICULOUS_KEYED_MD5)
    (auth_pkt BFD_STATE_DOWN 5) (AuthSection BFD_AUTH_METICULOUS_KEYED_MD5 1 5 24)
    (AuthSection BFD_AUTH_METICULOUS_KEYED_MD5 1 5 24));
    [by apply start_reachable| |by vm_compute..].
  split; [by vm_compute|by eexists].
Defined.

Lemma sent_witness :
  let o := outputs (send_tick low) waiting in
  Forall not_poll_final (out_flags o) ∧ Forall (λ x, x = s_state (sess waiting)) (out_state o) ∧
  (s_datapath (sess waiting) = false → o = []).
Proof. apply (sent_packets low low_range), waiting_reachable. Defined.

Lemma empty_ok : lib_ok (BfdLib 0 []).
Proof. split; cbn; try done. apply od_ok_nil. Qed.

Definition one_session : bfdlib :=
  final (add_bfd_session low 1 1 2 "00:00:00:00:00:01" "10.0.0.1" BROADCAST_MAC
    BROADCAST_IP 0 []) (BfdLib 0 []).

Lemma add_witness :
  ∃ d s, let m := add_bfd_session low 1 1 2 "00:00:00:00:00:01" "10.0.0.1" BROADCAST_MAC
      BROADCAST_IP 0 [] in
    let l' := final m (BfdLib 0 []) in
    result m (BfdLib 0 []) = Ret d ∧
    1 ≤ d ≤ UINT32_MAX ∧ fresh (BfdLib 0 []) d (s_src_port s) ∧
    49152 ≤ s_src_port s ≤ 65535 ∧ l_session l' = od_set d s [] ∧ lib_ok l'.
Proof.
  by apply (add_session_unique low low_range (BfdLib 0 []) 1 1 2 "00:00:00:00:00:01"
    "10.0.0.1" BROADCAST_MAC BROADCAST_IP 0 [] 0 empty_ok (Nat.lt_0_succ 0)).
Defined.

Lemma one_session_ok : lib_ok one_session.
Proof.
  destruct (wp_add_session low low_range (BfdLib 0 []) 1 1 2 "00:00:00:00:00:01" "10.0.0.1"
    BROADCAST_MAC BROADCAST_IP 0 [] 0 empty_ok (Nat.lt_0_succ 0)) as (d & s & H); done || apply H.
Qed.

Definition hello : frame :=
  Frame "00:00:00:00:00:02" ETH_TYPE_IP None (Some (255, "10.0.0.2"%string))
    (Some 3784) (Some (pkt BFD_STATE_DOWN 9)).

(** The packet is admitted: it changes the session of the port. *)
Lemma admission_witness :
  let m := recv_bfd_pkt low (λ _ _, false) 1 2 hello in
  s_state <$> od_get 1 (l_session (final m one_session)) = Some BFD_STATE_INIT ∧
  lib_ok (final m one_session) ∧
  ((outputs m one_session = [] ∧ final m one_session = one_session) ∨
   ∃ p discr s, admitted (λ _ _, false) one_session 1 2 hello p discr s ∧
     ∀ k, k ≠ discr →
       od_get k (l_session (final m one_session)) = od_get k (l_session one_session)).
Proof.
  cbv zeta. split; [by vm_compute|].
  apply (bfd_packet_admission low low_range (λ _ _, false) one_session 1 2 hello
    one_session_ok).
  intros p [= <-]. by vm_compute.
Defined.

Lemma length_witness :
  sanity_ok (auth_pkt 1 5) = (b_ver (auth_pkt 1 5) =? 1) &&
    negb (b_detect_mult (auth_pkt 1 5) =? 0) &&
    negb (truthy (Z.land (b_flags (auth_pkt 1 5)) BFD_FLAG_MULTIPOINT)) &&
    negb (b_my_discr (auth_pkt 1 5) =? 0).
Proof.
  apply length_check_never_fires; [|by eexists]. intros a [= <-]. by vm_compute.
Defined.
End BfdWitness.
