(* ===== verification/Bpdu.v ===== *)
(** * Bridge protocol data units

    [ryu/lib/packet/bpdu.py]: the record [config_bpdu] of the fields of a
    configuration BPDU, the parameter checks of the constructors, the encodings of
    bridge identifiers, port identifiers and timers, and the byte encoders and
    decoders of the three BPDU types with their dispatch.

    Bytes are integers below 256.  A MAC address is its 48-bit integer: the
    text form and its conversions belong to the package [netaddr].  A time is an
    integer count of 1/256 second, the resolution of the wire format: the floats of
    the code are exact at that resolution. *)

From stdpp Require Import base list.
From Stdlib Require Import ZArith Lia.
From S2P Require Import Prelude.
From S2P Require Export Struct.
Open Scope Z_scope.

(** ** Constants *)

Definition PROTOCOL_IDENTIFIER := 0.
Definition PROTOCOLVERSION_ID_BPDU := 0.
Definition PROTOCOLVERSION_ID_RSTBPDU := 2.
Definition TYPE_CONFIG_BPDU := 0.
Definition TYPE_TOPOLOGY_CHANGE_BPDU := 128.
Definition TYPE_RSTBPDU := 2.
Definition DEFAULT_BRIDGE_PRIORITY := 32768.
Definition DEFAULT_PORT_PRIORITY := 128.
Definition PORT_PATH_COST_10MB := 2000000.
Definition PORT_PATH_COST_100MB := 200000.
Definition PORT_PATH_COST_1GB := 20000.
Definition PORT_PATH_COST_10GB := 2000.
Definition VERSION_1_LENGTH := 0.

(** One second, and the default timers in units of 1/256 second. *)
Definition second := 256.
Definition DEFAULT_MAX_AGE := 20 * second.
Definition DEFAULT_HELLO_TIME := 2 * second.
Definition DEFAULT_FORWARD_DELAY := 15 * second.

(** [_PACK_STR] of the base class, of configuration BPDUs and of RST BPDUs. *)
Definition BASE_PACK_STR : list nat := [2; 1; 1]%nat.
Definition CONFIG_PACK_STR : list nat := [1; 8; 4; 8; 2; 2; 2; 2; 2]%nat.
Definition RST_PACK_STR : list nat := [1]%nat.
Definition BASE_PACK_LEN : nat := calcsize BASE_PACK_STR.
Definition CONFIG_PACK_LEN : nat := calcsize CONFIG_PACK_STR.
Definition RST_PACK_LEN : nat := calcsize RST_PACK_STR.

(** ** Fields *)

Record config_bpdu := ConfigBpdu {
  flags : Z;
  root_priority : Z;
  root_system_id_extension : Z;
  root_mac_address : Z;
  root_path_cost : Z;
  bridge_priority : Z;
  bridge_system_id_extension : Z;
  bridge_mac_address : Z;
  port_priority : Z;
  port_number : Z;
  message_age : Z;
  max_age : Z;
  hello_time : Z;
  forward_delay : Z;
}.

Inductive bpdu_pkt :=
| ConfigurationBPDUs (b : config_bpdu)
| TopologyChangeNotificationBPDUs
| RstBPDUs (b : config_bpdu).

Definition encode_bridge_id (priority system_id_extension mac_addr : Z) : Z :=
  Z.shiftl (priority + system_id_extension) 48 + mac_addr.

Definition decode_bridge_id (bridge_id : Z) : Z * Z * Z :=
  (Z.land (Z.shiftr bridge_id 48) 0xf000,
   Z.land (Z.shiftr bridge_id 48) 0xfff,
   Z.land bridge_id 0xffffffffffff).

Definition encode_port_id (priority port_number : Z) : Z :=
  Z.shiftl priority 8 + port_number.

Definition decode_port_id (port_id : Z) : Z * Z :=
  (Z.land (Z.shiftr port_id 8) 0xf0, Z.land port_id 0xfff).

(** [int(timer) * 0x100] and [timer / float(0x100)] on units of 1/256 second. *)
Definition encode_timer (timer : Z) : Z := Z.quot timer second * 0x100.
Definition decode_timer (timer : Z) : Z := timer.

(** The parameter checks of the constructors; a time in units of 1/256 second always
    is a multiple of [_TIMER_STEP]. *)
Definition check_id_parameters (b : config_bpdu) : bool :=
  (root_priority b mod 4096 =? 0) && (bridge_priority b mod 4096 =? 0)
  && (port_priority b mod 16 =? 0).

Definition check_parameters (b : config_bpdu) : bool :=
  (Z.land (Z.shiftr (flags b) 1) 0x3f =? 0) && check_id_parameters b.

Definition new_config_bpdu (b : config_bpdu) : outcome pyexn config_bpdu :=
  if check_parameters b then Ret b else Raise AssertionError.

Definition new_rst_bpdu (b : config_bpdu) : outcome pyexn config_bpdu :=
  if check_id_parameters b then Ret b else Raise AssertionError.

(** ** Encoding *)

Definition base_serialize (version_id bpdu_type : Z) : outcome pyexn bytes :=
  pack [(2%nat, PROTOCOL_IDENTIFIER); (1%nat, version_id); (1%nat, bpdu_type)].

Definition config_fields (b : config_bpdu) : list Z :=
  [flags b;
   encode_bridge_id (root_priority b) (root_system_id_extension b) (root_mac_address b);
   root_path_cost b;
   encode_bridge_id (bridge_priority b) (bridge_system_id_extension b)
     (bridge_mac_address b);
   encode_port_id (port_priority b) (port_number b);
   encode_timer (message_age b); encode_timer (max_age b);
   encode_timer (hello_time b); encode_timer (forward_delay b)].

Definition config_serialize (version_id bpdu_type : Z) (b : config_bpdu)
  : outcome pyexn bytes :=
  base ← base_serialize version_id bpdu_type;
  sub ← pack (zip CONFIG_PACK_STR (config_fields b));
  Ret (base ++ sub).

Definition rst_serialize (b : config_bpdu) : outcome pyexn bytes :=
  base ← config_serialize PROTOCOLVERSION_ID_RSTBPDU TYPE_RSTBPDU b;
  sub ← pack [(1%nat, VERSION_1_LENGTH)];
  Ret (base ++ sub).

Definition serialize (p : bpdu_pkt) : outcome pyexn bytes :=
  match p with
  | ConfigurationBPDUs b => config_serialize PROTOCOLVERSION_ID_BPDU TYPE_CONFIG_BPDU b
  | TopologyChangeNotificationBPDUs =>
      base_serialize PROTOCOLVERSION_ID_BPDU TYPE_TOPOLOGY_CHANGE_BPDU
  | RstBPDUs b => rst_serialize b
  end.

(** ** Decoding *)

Definition config_of_fields (zs : list Z) : option config_bpdu :=
  match zs with
  | [fl; root_id; cost; bridge_id; port_id; age; mage; hello; fwd] =>
      let '(rp, re, rm) := decode_bridge_id root_id in
      let '(bp, be, bm) := decode_bridge_id bridge_id in
      let '(pp, pn) := decode_port_id port_id in
      Some (ConfigBpdu fl rp re rm cost bp be bm pp pn
              (decode_timer age) (decode_timer mage)
              (decode_timer hello) (decode_timer fwd))
  | _ => None
  end.

(** [ConfigurationBPDUs.parser], [new] being the constructor of the class it is
    called on. *)
Definition config_parser (new : config_bpdu → outcome pyexn config_bpdu) (buf : bytes)
  : outcome pyexn (config_bpdu * bytes) :=
  zs ← unpack CONFIG_PACK_STR buf;
  match config_of_fields zs with
  | Some b => b' ← new b; Ret (b', drop CONFIG_PACK_LEN buf)
  | None => Raise ValueError
  end.

Definition rst_parser (buf : bytes) : outcome pyexn (config_bpdu * bytes) :=
  '(b, buf') ← config_parser new_rst_bpdu buf;
  zs ← unpack RST_PACK_STR buf';
  if bool_decide (zs = [VERSION_1_LENGTH]) then Ret (b, drop RST_PACK_LEN buf')
  else Raise AssertionError.

(** What [bpdu.parser] returns: a packet and the rest of the buffer, or, for an unknown
    version or type, the buffer itself in the place of the packet. *)
Inductive parsed :=
| Parsed (p : bpdu_pkt) (rest : bytes)
| Unknown (buf : bytes).

(** [bpdu.parser]: the dispatch on version and type. *)
Definition parser (buf : bytes) : outcome pyexn parsed :=
  if (length buf <? BASE_PACK_LEN)%nat then Raise AssertionError else
  let body := drop BASE_PACK_LEN buf in
  zs ← unpack BASE_PACK_STR buf;
  match zs with
  | [protocol_id; version_id; bpdu_type] =>
      if negb (protocol_id =? PROTOCOL_IDENTIFIER) then Raise AssertionError else
      if (version_id =? PROTOCOLVERSION_ID_BPDU) && (bpdu_type =? TYPE_CONFIG_BPDU) then
        if (length body <? CONFIG_PACK_LEN)%nat then Raise AssertionError else
        '(b, rest) ← config_parser new_config_bpdu body;
        Ret (Parsed (ConfigurationBPDUs b) rest)
      else if (version_id =? PROTOCOLVERSION_ID_BPDU)
              && (bpdu_type =? TYPE_TOPOLOGY_CHANGE_BPDU) then
        Ret (Parsed TopologyChangeNotificationBPDUs (drop BASE_PACK_LEN body))
      else if (version_id =? PROTOCOLVERSION_ID_RSTBPDU) && (bpdu_type =? TYPE_RSTBPDU) then
        if (length body <? RST_PACK_LEN)%nat then Raise AssertionError else
        '(b, rest) ← rst_parser body;
        Ret (Parsed (RstBPDUs b) rest)
      else Ret (Unknown buf)
  | _ => Raise ValueError
  end.

(** ** Identifiers and timers *)

Definition valid_bridge_id (p e m : Z) : Prop :=
  0 ≤ p ≤ 61440 ∧ p mod 4096 = 0 ∧ 0 ≤ e < 4096 ∧ 0 ≤ m < 2 ^ 48.

Definition valid_port_id (p n : Z) : Prop :=
  0 ≤ p ≤ 240 ∧ p mod 16 = 0 ∧ 0 ≤ n < 4096.

Lemma encode_bridge_id_width p e m :
  valid_bridge_id p e m → 0 ≤ encode_bridge_id p e m < 2 ^ 64.
Proof.
  intros (Hp & Hpm & He & Hm). unfold encode_bridge_id.
  rewrite Z.shiftl_mul_pow2 by lia.
  change (2 ^ 64) with (2 ^ 16 * 2 ^ 48). change (2 ^ 16) with 65536. nia.
Qed.

Lemma decode_encode_bridge_id p e m :
  valid_bridge_id p e m → decode_bridge_id (encode_bridge_id p e m) = (p, e, m).
Proof.
  intros (Hp & Hpm & He & Hm).
  unfold decode_bridge_id, encode_bridge_id. rewrite Z.shiftl_mul_pow2 by lia.
  change 0xffffffffffff with (Z.ones 48).
  change 0xf000 with (Z.shiftl (Z.ones 4) 12). change 0xfff with (Z.ones 12).
  rewrite land_field, !Z.land_ones, Z.shiftr_div_pow2 by lia.
  rewrite Z.div_add_l, (Z.div_small m), Z.add_0_r by lia.
  rewrite (Z.add_comm (_ * _) m), Z.mod_add, (Z.mod_small m) by lia.
  apply Z.mod_divide in Hpm as [k ->]; [|lia]. change (2 ^ 12) with 4096.
  rewrite Z.div_add_l, (Z.div_small e), Z.add_0_r by lia.
  rewrite (Z.mod_small k) by lia.
  by rewrite (Z.add_comm (_ * _) e), Z.mod_add, (Z.mod_small e) by lia.
Qed.

Lemma encode_port_id_width p n : valid_port_id p n → 0 ≤ encode_port_id p n < 2 ^ 16.
Proof.
  intros (Hp & Hpm & Hn). unfold encode_port_id. rewrite Z.shiftl_mul_pow2 by lia.
  change (2 ^ 16) with 65536. change (2 ^ 8) with 256. lia.
Qed.

Lemma decode_encode_port_id p n :
  valid_port_id p n → decode_port_id (encode_port_id p n) = (p, n).
Proof.
  intros (Hp & Hpm & Hn).
  unfold decode_port_id, encode_port_id. rewrite Z.shiftl_mul_pow2 by lia.
  change 0xf0 with (Z.shiftl (Z.ones 4) 4). change 0xfff with (Z.ones 12).
  rewrite land_field, Z.land_ones, Z.shiftr_div_pow2 by lia.
  apply Z.mod_divide in Hpm as [k ->]; [|lia].
  change (2 ^ 12) with 4096. change (2 ^ 8) with 256.
  change (2 ^ 4) with 16. f_equal.
  - rewrite Z.div_div by lia. change (256 * 16) with 4096.
    replace (k * 16 * 256 + n) with (n + k * 4096) by lia.
    rewrite Z.div_add, (Z.div_small n) by lia. rewrite Z.mod_small; lia.
  - replace (k * 16 * 256 + n) with (n + k * 4096) by lia.
    rewrite Z.mod_add, Z.mod_small; lia.
Qed.

Lemma bridge_id_order p e m p' e' m' :
  0 ≤ m < 2 ^ 48 → 0 ≤ m' < 2 ^ 48 →
  encode_bridge_id p e m < encode_bridge_id p' e' m' ↔
  p + e < p' + e' ∨ (p + e = p' + e' ∧ m < m').
Proof.
  intros Hm Hm'. unfold encode_bridge_id. rewrite !Z.shiftl_mul_pow2 by lia.
  split; [|intros [?|[-> ?]]; nia].
  intros H. destruct (Z.lt_trichotomy (p + e) (p' + e')) as [?|[Heq|?]]; [auto|right|nia].
  rewrite Heq in H. lia.
Qed.

(** ** Encoding and decoding a BPDU *)

Definition valid_timer (t : Z) : Prop := 0 ≤ t < 256 * second.

Definition valid_fields (b : config_bpdu) : Prop :=
  0 ≤ flags b < 256 ∧
  valid_bridge_id (root_priority b) (root_system_id_extension b) (root_mac_address b) ∧
  0 ≤ root_path_cost b < 2 ^ 32 ∧
  valid_bridge_id (bridge_priority b) (bridge_system_id_extension b)
    (bridge_mac_address b) ∧
  valid_port_id (port_priority b) (port_number b) ∧
  valid_timer (message_age b) ∧ valid_timer (max_age b) ∧
  valid_timer (hello_time b) ∧ valid_timer (forward_delay b).

Definition valid_pkt (p : bpdu_pkt) : Prop :=
  match p with
  | ConfigurationBPDUs b => valid_fields b ∧ Z.land (Z.shiftr (flags b) 1) 0x3f = 0
  | TopologyChangeNotificationBPDUs => True
  | RstBPDUs b => valid_fields b
  end.

(** The packet with its timers cut to whole seconds. *)
Definition whole_seconds (b : config_bpdu) : config_bpdu :=
  ConfigBpdu (flags b) (root_priority b) (root_system_id_extension b)
    (root_mac_address b) (root_path_cost b) (bridge_priority b)
    (bridge_system_id_extension b) (bridge_mac_address b) (port_priority b)
    (port_number b) (encode_timer (message_age b)) (encode_timer (max_age b))
    (encode_timer (hello_time b)) (encode_timer (forward_delay b)).

Definition whole_seconds_pkt (p : bpdu_pkt) : bpdu_pkt :=
  match p with
  | ConfigurationBPDUs b => ConfigurationBPDUs (whole_seconds b)
  | TopologyChangeNotificationBPDUs => TopologyChangeNotificationBPDUs
  | RstBPDUs b => RstBPDUs (whole_seconds b)
  end.

Lemma encode_timer_width t : valid_timer t → 0 ≤ encode_timer t < 2 ^ 16.
Proof.
  unfold valid_timer, encode_timer, second. intros Ht.
  rewrite Z.quot_div_nonneg by lia.
  assert (0 ≤ t / 256 < 256) by (split; [apply Z.div_pos|apply Z.div_lt_upper_bound]; lia).
  change (2 ^ 16) with 65536. lia.
Qed.

Lemma config_fields_width b :
  valid_fields b → Forall in_width (zip CONFIG_PACK_STR (config_fields b)).
Proof.
  intros (? & ? & ? & ? & ? & ? & ? & ? & ?).
  unfold CONFIG_PACK_STR, config_fields, in_width. cbn [zip zip_with].
  repeat apply Forall_cons_2; try apply Forall_nil_2; cbn [fst snd];
    first [ done | by apply encode_bridge_id_width | by apply encode_port_id_width
          | by apply encode_timer_width ].
Qed.

Lemma config_of_config_fields b :
  valid_fields b → config_of_fields (config_fields b) = Some (whole_seconds b).
Proof.
  intros (? & ? & ? & ? & ? & ?). unfold config_of_fields, config_fields.
  rewrite !decode_encode_bridge_id, decode_encode_port_id by done. done.
Qed.

Lemma base_serialize_parse v t bs rest :
  base_serialize v t = Ret bs →
  unpack BASE_PACK_STR (bs ++ rest) = Ret [PROTOCOL_IDENTIFIER; v; t] ∧
  length bs = BASE_PACK_LEN.
Proof. apply (unpack_pack BASE_PACK_STR [PROTOCOL_IDENTIFIER; v; t]). done. Qed.

Lemma base_serialize_ok v t : 0 ≤ v < 256 → 0 ≤ t < 256 → ∃ bs, base_serialize v t = Ret bs.
Proof.
  intros. apply pack_ok. unfold in_width, PROTOCOL_IDENTIFIER.
  repeat apply Forall_cons_2; try apply Forall_nil_2; cbn; lia.
Qed.

Lemma config_serialize_parse v t b rest new :
  0 ≤ v < 256 → 0 ≤ t < 256 → valid_fields b →
  new (whole_seconds b) = Ret (whole_seconds b) →
  ∃ base sub, config_serialize v t b = Ret (base ++ sub) ∧ base_serialize v t = Ret base ∧
    length sub = CONFIG_PACK_LEN ∧
    config_parser new (sub ++ rest) = Ret (whole_seconds b, rest).
Proof.
  intros Hv Ht Hb Hnew.
  destruct (base_serialize_ok v t Hv Ht) as [base Hbase].
  destruct (pack_ok _ (config_fields_width b Hb)) as [sub Hsub].
  exists base, sub.
  destruct (unpack_pack CONFIG_PACK_STR (config_fields b) sub rest eq_refl Hsub) as [Hu Hl].
  split_and!; [|done|done|].
  - unfold config_serialize. rewrite Hbase. cbn [mbind outcome_bind]. by rewrite Hsub.
  - unfold config_parser. rewrite Hu. cbn [mbind outcome_bind].
    rewrite config_of_config_fields by done. rewrite Hnew. cbn [mbind outcome_bind].
    by rewrite drop_app_length' by (by rewrite Hl).
Qed.

Lemma check_id_parameters_valid b :
  valid_fields b → check_id_parameters (whole_seconds b) = true.
Proof.
  intros (_ & (_ & H1 & _) & _ & (_ & H2 & _) & (_ & H3 & _) & _).
  unfold check_id_parameters. cbn. by rewrite H1, H2, H3.
Qed.

(** The base header of a packet in a buffer, for the dispatch. *)
Lemma parser_header v t base rest :
  base_serialize v t = Ret base →
  parser (base ++ rest) =
    (if (v =? PROTOCOLVERSION_ID_BPDU) && (t =? TYPE_CONFIG_BPDU) then
       if (length rest <? CONFIG_PACK_LEN)%nat then Raise AssertionError else
       '(b, r) ← config_parser new_config_bpdu rest; Ret (Parsed (ConfigurationBPDUs b) r)
     else if (v =? PROTOCOLVERSION_ID_BPDU) && (t =? TYPE_TOPOLOGY_CHANGE_BPDU) then
       Ret (Parsed TopologyChangeNotificationBPDUs (drop BASE_PACK_LEN rest))
     else if (v =? PROTOCOLVERSION_ID_RSTBPDU) && (t =? TYPE_RSTBPDU) then
       if (length rest <? RST_PACK_LEN)%nat then Raise AssertionError else
       '(b, r) ← rst_parser rest; Ret (Parsed (RstBPDUs b) r)
     else Ret (Unknown (base ++ rest))).
Proof.
  intros Hb. destruct (base_serialize_parse v t base rest Hb) as [Hu Hl].
  unfold parser. rewrite length_app, Hl.
  rewrite (proj2 (Nat.ltb_ge _ _)) by lia.
  rewrite Hu, drop_app_length' by done. done.
Qed.

Lemma config_roundtrip b rest :
  valid_fields b → Z.land (Z.shiftr (flags b) 1) 0x3f = 0 →
  ∃ bs, serialize (ConfigurationBPDUs b) = Ret bs ∧
    parser (bs ++ rest) = Ret (Parsed (ConfigurationBPDUs (whole_seconds b)) rest).
Proof.
  intros Hb Hf.
  destruct (config_serialize_parse PROTOCOLVERSION_ID_BPDU TYPE_CONFIG_BPDU b rest
              new_config_bpdu) as (base & sub & Hs & Hbase & Hl & Hp); try done.
  { unfold new_config_bpdu, check_parameters. cbn [flags whole_seconds].
    by rewrite Hf, check_id_parameters_valid. }
  exists (base ++ sub). split; [exact Hs|].
  rewrite <- app_assoc, (parser_header _ _ _ _ Hbase). cbn [Z.eqb andb].
  rewrite length_app, Hl, (proj2 (Nat.ltb_ge _ _)) by lia. by rewrite Hp.
Qed.

(** C23: Encoding a BPDU whose fields are within their widths succeeds, and decoding the
    bytes, whatever follows them in the buffer, gives the packet back with its timers
    cut to whole seconds: [_encode_timer] drops the fraction of a second that the wire
    format and the parameter checks allow.  The rest of the buffer is returned too,
    except that after a topology change notification the decoder skips four further
    bytes. *)
Theorem bpdu_roundtrip (p : bpdu_pkt) (rest : bytes) :
  valid_pkt p →
  ∃ bs, serialize p = Ret bs ∧
    parser (bs ++ rest) =
      Ret (Parsed (whole_seconds_pkt p)
             (match p with
              | TopologyChangeNotificationBPDUs => drop BASE_PACK_LEN rest
              | _ => rest
              end)).
Proof.
  destruct p as [b| |b]; cbn [valid_pkt serialize whole_seconds_pkt].
  - intros [Hb Hf]. by apply config_roundtrip.
  - intros _.
    destruct (base_serialize_ok PROTOCOLVERSION_ID_BPDU TYPE_TOPOLOGY_CHANGE_BPDU)
      as [base Hbase]; [done|done|].
    eexists. split; [done|]. by rewrite (parser_header _ _ _ _ Hbase).
  - intros Hb.
    destruct (config_serialize_parse PROTOCOLVERSION_ID_RSTBPDU TYPE_RSTBPDU b
                ([VERSION_1_LENGTH] ++ rest) new_rst_bpdu)
      as (base & sub & Hs & Hbase & Hl & Hp); try done.
    { unfold new_rst_bpdu. by rewrite check_id_parameters_valid. }
    unfold rst_serialize. rewrite Hs. cbn [mbind outcome_bind].
    eexists. split; [done|].
    rewrite <- !app_assoc, (parser_header _ _ _ _ Hbase). cbn [Z.eqb andb].
    change (be_bytes 1 VERSION_1_LENGTH ++ [] ++ rest) with ([VERSION_1_LENGTH] ++ rest).
    rewrite length_app, Hl, (proj2 (Nat.ltb_ge _ _)) by (cbn; lia).
    unfold rst_parser. rewrite Hp. done.
Qed.

Module BpduWitness.
Definition sample : config_bpdu :=
  ConfigBpdu 1 32768 5 0x0000deadbeef 200000 4096 0 0x00000000abcd 128 7
    384 (20 * second) (2 * second) (15 * second).

(** A message age of one and a half seconds is decoded as one second. *)
Lemma roundtrip_witness :
  ∃ bs, serialize (ConfigurationBPDUs sample) = Ret bs ∧
    parser (bs ++ [0; 0; 9]) = Ret (Parsed (ConfigurationBPDUs (whole_seconds sample)) [0; 0; 9])
    ∧ message_age sample = 384 ∧ message_age (whole_seconds sample) = 256.
Proof.
  destruct (bpdu_roundtrip (ConfigurationBPDUs sample) [0; 0; 9]) as (bs & H1 & H2).
  { by vm_compute. }
  exists bs. split; [exact H1|]. split; [exact H2|]. done.
Defined.
End BpduWitness.
