(* ===== verification/Stp.v ===== *)
(** * The spanning tree library

    [ryu/lib/stplib.py]: the application [Stp] with its bridges, the class [Bridge]
    (election of the root port and of the designated ports, topology changes) and the
    class [Port] (port states, roles, timers and the BPDUs sent and received).

    A [bridge] owns its ports in a dictionary with insertion order; a method of a port
    is a computation on the bridge that takes the port's number, because ports call
    back into their bridge ([topology_change_notify], [recalculate_spanning_tree]) and
    the bridge reads and changes all its ports.  The class attributes
    [Bridge._DEFAULT_VALUE] and [Port._DEFAULT_VALUE], which the constructors mutate,
    are fields of the application state.

    Threads.  Each port has three green threads.  The state machine thread sleeps on
    its event with the timeout [p_state_timer]; the thread that waits for BPDUs exists
    when [p_wait_bpdu_thread] is set, with its timeout; the sending thread runs when
    [p_send_bpdu_thread] is set.  A thread's wake-up is an operation ([state_timeout],
    [wait_bpdu_timeout], [transmit_tick]); the recalculation a wait thread spawns is
    counted in [br_spawned] and run by [run_spawned].  An event handler runs to its end
    before another thread acts: the interleavings at [hub.sleep(0)] inside a handler
    are not modelled.  Times are in units of 1/256 second, MAC addresses are 48-bit
    integers. *)

From stdpp Require Import base list gmap.
From Stdlib Require Import ZArith Lia.
From S2P Require Import Prelude Odict Bpdu.
Open Scope Z_scope.

(** ** Data *)

Definition MAX_PORT_NO := 0xfff.
Definition BPDU_PKT_IN_PRIORITY := 0xffff.
Definition NO_PKT_IN_PRIORITY := 0xfffe.

(** [01:80:c2:00:00:00] *)
Definition BRIDGE_GROUP_ADDRESS := 0x0180c2000000.

Inductive cmp_result := SUPERIOR | REPEATED | INFERIOR.
Inductive port_role := DESIGNATED_PORT | ROOT_PORT | NON_DESIGNATED_PORT.
Inductive port_state := DISABLE | BLOCK | LISTEN | LEARN | FORWARD.
Inductive ofproto := V1_0 | V1_2 | V1_3.

#[export] Instance cmp_result_eq_dec : EqDecision cmp_result.
Proof. solve_decision. Defined.
#[export] Instance port_role_eq_dec : EqDecision port_role.
Proof. solve_decision. Defined.
#[export] Instance port_state_eq_dec : EqDecision port_state.
Proof. solve_decision. Defined.
#[export] Instance ofproto_eq_dec : EqDecision ofproto.
Proof. solve_decision. Defined.

(** The bits of the OpenFlow port configuration. *)
Definition OFPPC_NO_RECV := Z.shiftl 1 2.
Definition OFPPC_NO_RECV_STP := Z.shiftl 1 3.
Definition OFPPC_NO_FLOOD := Z.shiftl 1 4.
Definition OFPPC_NO_FWD := Z.shiftl 1 5.
Definition OFPPC_NO_PACKET_IN := Z.shiftl 1 6.

Definition PORT_CONFIG_V1_0 (st : port_state) : Z :=
  match st with
  | DISABLE => Z.lor (Z.lor (Z.lor OFPPC_NO_RECV_STP OFPPC_NO_RECV) OFPPC_NO_FLOOD)
                 OFPPC_NO_FWD
  | BLOCK => Z.lor (Z.lor OFPPC_NO_RECV OFPPC_NO_FLOOD) OFPPC_NO_FWD
  | LISTEN => Z.lor OFPPC_NO_RECV OFPPC_NO_FLOOD
  | LEARN => OFPPC_NO_FLOOD
  | FORWARD => 0
  end.

(** [PORT_CONFIG_V1_2] and [PORT_CONFIG_V1_3] are the same table. *)
Definition PORT_CONFIG_V1_2 (st : port_state) : Z :=
  match st with
  | DISABLE => Z.lor OFPPC_NO_RECV OFPPC_NO_FWD
  | BLOCK => Z.lor OFPPC_NO_FWD OFPPC_NO_PACKET_IN
  | LISTEN => OFPPC_NO_PACKET_IN
  | LEARN => OFPPC_NO_PACKET_IN
  | FORWARD => 0
  end.

Record BridgeId := mkBridgeId {
  bid_priority : Z;
  bid_system_id_extension : Z;
  bid_mac_addr : Z;
}.
Definition bid_value (b : BridgeId) : Z :=
  encode_bridge_id (bid_priority b) (bid_system_id_extension b) (bid_mac_addr b).

Record PortId := mkPortId { pid_priority : Z; pid_port_no : Z }.
Definition pid_value (p : PortId) : Z := encode_port_id (pid_priority p) (pid_port_no p).

(** A bridge that is the root has no designated bridge and port. *)
Record Priority := mkPriority {
  pr_root_id : BridgeId;
  pr_root_path_cost : Z;
  pr_designated_bridge_id : option BridgeId;
  pr_designated_port_id : option PortId;
}.

Record Times := mkTimes {
  t_message_age : Z;
  t_max_age : Z;
  t_hello_time : Z;
  t_forward_delay : Z;
}.

#[export] Instance BridgeId_eq_dec : EqDecision BridgeId.
Proof. solve_decision. Defined.
#[export] Instance Times_eq_dec : EqDecision Times.
Proof. solve_decision. Defined.

(** The OpenFlow port; [of_state] are its state bits, bit 0 is link down. *)
Record ofport := OfPort {
  of_port_no : Z;
  of_hw_addr : Z;
  of_state : Z;
  of_curr : Z;
  of_advertised : Z;
}.

(** A port.  [p_designated] holds [designated_priority] and [designated_times], which
    are assigned together.  [p_send_tc_flg] and [p_send_tcn_flg] are only tested for
    truth, [None] is [false].  [p_port_priority] and [p_port_times] are [None] in the
    source until the call of [up] in the constructor. *)
Record port := Port {
  p_ofport : ofport;
  p_config_enable : bool;
  p_bridge_id : BridgeId;
  p_port_priority : Priority;
  p_port_times : Times;
  p_port_id : PortId;
  p_path_cost : Z;
  p_state : option port_state;
  p_role : option port_role;
  p_designated : option (Priority * Times);
  p_send_bpdu_thread : bool;
  p_wait_bpdu_thread : option Z;
  p_send_tc_flg : bool;
  p_send_tc_timer : option Z;
  p_send_tcn_flg : bool;
  p_state_machine : bool;
  p_state_timer : option Z;
}.
#[export] Instance eta_port : Eta port := EtaBox (λ r, Port
  (p_ofport r) (p_config_enable r) (p_bridge_id r) (p_port_priority r) (p_port_times r)
  (p_port_id r) (p_path_cost r) (p_state r) (p_role r) (p_designated r)
  (p_send_bpdu_thread r) (p_wait_bpdu_thread r) (p_send_tc_flg r) (p_send_tc_timer r)
  (p_send_tcn_flg r) (p_state_machine r) (p_state_timer r)).

(** The configuration of a port and of a bridge, each field optional, and the class
    attributes [_DEFAULT_VALUE]. *)
Record port_conf := PortConf {
  pc_priority : option Z;
  pc_path_cost : option Z;
  pc_enable : option bool;
}.
Definition no_port_conf : port_conf := PortConf None None None.

Record port_values := PortValues {
  pv_priority : Z;
  pv_path_cost : Z;
  pv_enable : bool;
}.
#[export] Instance eta_port_values : Eta port_values := EtaBox (λ r, PortValues
  (pv_priority r) (pv_path_cost r) (pv_enable r)).

Record bridge_conf := BridgeConf {
  bc_priority : option Z;
  bc_sys_ext_id : option Z;
  bc_max_age : option Z;
  bc_hello_time : option Z;
  bc_fwd_delay : option Z;
}.
Definition no_bridge_conf : bridge_conf := BridgeConf None None None None None.

Record bridge_values := BridgeValues {
  bv_priority : Z;
  bv_sys_ext_id : Z;
  bv_max_age : Z;
  bv_hello_time : Z;
  bv_fwd_delay : Z;
}.

Definition Port_DEFAULT_VALUE : port_values :=
  PortValues DEFAULT_PORT_PRIORITY PORT_PATH_COST_10MB true.
Definition Bridge_DEFAULT_VALUE : bridge_values :=
  BridgeValues DEFAULT_BRIDGE_PRIORITY 0 DEFAULT_MAX_AGE DEFAULT_HELLO_TIME
    DEFAULT_FORWARD_DELAY.

(** A bridge.  [br_port_defaults] is the class attribute [Port._DEFAULT_VALUE] as the
    bridge's methods find it: the application hands it in and takes it back. *)
Record bridge := Bridge {
  br_dpid : Z;
  br_ofproto : ofproto;
  br_bridge_id : BridgeId;
  br_bridge_times : Times;
  br_root_priority : Priority;
  br_root_times : Times;
  br_ports : odict Z port;
  br_ports_state : odict Z Z;
  br_ports_conf : odict Z port_conf;
  br_port_defaults : port_values;
  br_spawned : nat;
}.
#[export] Instance eta_bridge : Eta bridge := EtaBox (λ r, Bridge
  (br_dpid r) (br_ofproto r) (br_bridge_id r) (br_bridge_times r) (br_root_priority r)
  (br_root_times r) (br_ports r) (br_ports_state r) (br_ports_conf r)
  (br_port_defaults r) (br_spawned r)).

(** The Ethernet frame of a BPDU: the LLC header is constant, [fr_bpdu] are the bytes
    after it. *)
Record bpdu_frame := BpduFrame {
  fr_dst : Z;
  fr_src : Z;
  fr_length : Z;
  fr_bpdu : bytes;
}.

(** A packet in message.  [m_bpdu] are the bytes that follow an LLC header of the BPDU
    service access point, [None] for every other packet. *)
Record packet_in := PacketIn {
  m_in_port : Z;
  m_match : list (Z * Z);
  m_bpdu : option bytes;
}.

(** What the library sends to the switch and to the observers of its events. *)
Inductive stp_out :=
| OFPPortMod (port_no hw_addr config mask advertised : Z)
| OFPFlowModAdd (priority : Z) (in_port : option Z)
| OFPFlowModDelete (priority : Z) (in_port : Z)
| OFPPacketOut (port_no : Z) (frame : bpdu_frame)
| EventTopologyChange (dpid : Z)
| EventPortStateChange (dpid port_no : Z) (st : port_state)
| EventPacketIn (msg : packet_in).

Definition BM A : Type := M bridge pyexn stp_out A.

Definition is_state (s : option port_state) (st : port_state) : bool :=
  bool_decide (s = Some st).
Definition is_role (r : option port_role) (ro : port_role) : bool :=
  bool_decide (r = Some ro).
Definition down_state (st : port_state) : bool :=
  match st with DISABLE | BLOCK => true | _ => false end.

(** [self.ports[no]], and an assignment to attributes of that port. *)
Definition get_port (no : Z) : BM port :=
  o ← gets (λ b, od_get no (br_ports b)); or_raise o KeyError.
Definition mod_port (no : Z) (f : port → port) : BM () :=
  modify (λ b, b <| br_ports ::= od_alter f no |>).

(** ** Comparison of the information of BPDUs: static methods of [Stp] *)

Definition cmp (a b : Z) : Z := Z.b2z (b <? a) - Z.b2z (a <? b).

Definition cmp_value (value1 value2 : Z) : cmp_result :=
  let result := cmp value1 value2 in
  if result <? 0 then SUPERIOR
  else if result =? 0 then REPEATED
  else INFERIOR.

(** [if not result: result = next] *)
Definition or_else (result next : cmp_result) : cmp_result :=
  match result with REPEATED => next | _ => result end.

Definition compare_root_path (path_cost1 path_cost2 bridge_id1 bridge_id2 port_id1 port_id2 : Z)
  : cmp_result :=
  or_else (cmp_value path_cost1 path_cost2)
    (or_else (cmp_value bridge_id1 bridge_id2) (cmp_value port_id1 port_id2)).

(** An attribute of [designated_bridge_id] or [designated_port_id], which may be
    [None]. *)
Definition attr {A B} (o : option A) (f : A → B) : outcome pyexn B :=
  match o with Some a => Ret (f a) | None => Raise AttributeError end.

(** [_cmp_obj(rcv_times, my_times)]: [SUPERIOR] unless every attribute is the same. *)
Definition cmp_obj (obj1 : Times) (obj2 : option Times) : cmp_result :=
  if bool_decide (Some obj1 = obj2) then REPEATED else SUPERIOR.

Definition compare_bpdu_info (my_priority : option Priority) (my_times : option Times)
    (rcv_priority : Priority) (rcv_times : Times) : outcome pyexn cmp_result :=
  match my_priority with
  | None => Ret SUPERIOR
  | Some my =>
      match cmp_value (bid_value (pr_root_id rcv_priority)) (bid_value (pr_root_id my)) with
      | REPEATED =>
          rb ← attr (pr_designated_bridge_id rcv_priority) bid_value;
          mb ← attr (pr_designated_bridge_id my) bid_value;
          rp ← attr (pr_designated_port_id rcv_priority) pid_value;
          mp ← attr (pr_designated_port_id my) pid_value;
          match compare_root_path (pr_root_path_cost rcv_priority) (pr_root_path_cost my)
                  rb mb rp mp with
          | REPEATED =>
              mac ← attr (pr_designated_bridge_id my) bid_mac_addr;
              pno ← attr (pr_designated_port_id my) pid_port_no;
              match cmp_value rb mac, cmp_value rp pno with
              | REPEATED, REPEATED => Ret SUPERIOR
              | _, _ => Ret (cmp_obj rcv_times my_times)
              end
          | result => Ret result
          end
      | result => Ret result
      end
  end.

(** ** Commands to the switch: [OfCtl_v1_0] and [OfCtl_v1_2later] *)

Definition set_port_status (ofp : ofproto) (p : ofport) (st : port_state) : list stp_out :=
  match ofp with
  | V1_0 => [OFPPortMod (of_port_no p) (of_hw_addr p) (PORT_CONFIG_V1_0 st) 0x7f
               (of_advertised p)]
  | V1_2 | V1_3 =>
      [OFPPortMod (of_port_no p) (of_hw_addr p) (PORT_CONFIG_V1_2 st) 0x65
         (of_advertised p);
       if Z.land (PORT_CONFIG_V1_2 st) OFPPC_NO_PACKET_IN =? 0
       then OFPFlowModDelete NO_PKT_IN_PRIORITY (of_port_no p)
       else OFPFlowModAdd NO_PKT_IN_PRIORITY (Some (of_port_no p))]
  end.

(** ** Generated BPDUs *)

(** The two LLC addresses and the control field follow the Ethernet header. *)
Definition LLC_LEN : nat := 2 + 1.

Definition generate_config_bpdu (p : port) (fl : Z) : outcome pyexn bpdu_frame :=
  b ← new_config_bpdu
        (ConfigBpdu fl
           (bid_priority (pr_root_id (p_port_priority p))) 0
           (bid_mac_addr (pr_root_id (p_port_priority p)))
           (pr_root_path_cost (p_port_priority p) + p_path_cost p)
           (bid_priority (p_bridge_id p)) 0 (bid_mac_addr (p_bridge_id p))
           (pid_priority (p_port_id p)) (of_port_no (p_ofport p))
           (t_message_age (p_port_times p) + second) (t_max_age (p_port_times p))
           (t_hello_time (p_port_times p)) (t_forward_delay (p_port_times p)));
  bs ← serialize (ConfigurationBPDUs b);
  Ret (BpduFrame BRIDGE_GROUP_ADDRESS (of_hw_addr (p_ofport p))
         (Z.of_nat (BASE_PACK_LEN + CONFIG_PACK_LEN + LLC_LEN)) bs).

Definition generate_tcn_bpdu (p : port) : outcome pyexn bpdu_frame :=
  bs ← serialize TopologyChangeNotificationBPDUs;
  Ret (BpduFrame BRIDGE_GROUP_ADDRESS (of_hw_addr (p_ofport p))
         (Z.of_nat (BASE_PACK_LEN + LLC_LEN)) bs).

(** ** Topology changes: [Bridge] *)

Definition is_root_bridge (b : bridge) : bool :=
  bid_value (br_bridge_id b) =? bid_value (pr_root_id (br_root_priority b)).

Definition has_role (r : port_role) (b : bridge) : bool :=
  existsb (λ kp, is_role (p_role kp.2) r) (br_ports b).

Definition first_with_role (r : port_role) (b : bridge) : option Z :=
  fst <$> find (λ kp, is_role (p_role kp.2) r) (br_ports b).

(** [Port.transmit_tc_bpdu]: topology change BPDUs are sent until the timer ends. *)
Definition port_transmit_tc (now : Z) (p : port) : port :=
  if p_send_tc_flg p then p
  else p <| p_send_tc_timer :=
              Some (now + (t_max_age (p_port_times p) + t_forward_delay (p_port_times p))) |>
         <| p_send_tc_flg := true |>.

Section clock.
(** The time of day when the handler runs. *)
Context (now : Z).

Definition transmit_tc_bpdu : BM () :=
  keys ← gets (λ b, od_keys (br_ports b));
  for_each keys (λ no, mod_port no (port_transmit_tc now)).

Definition transmit_tcn_bpdu : BM () :=
  root_port ← gets (first_with_role ROOT_PORT);
  match root_port : option Z with
  | Some no => mod_port no (λ p, p <| p_send_tcn_flg := true |>)
  | None => mret tt
  end.

Definition topology_change_notify (st : option port_state) : BM () :=
  b ← get_st;
  let notice := if is_state st FORWARD then has_role DESIGNATED_PORT b else true in
  when notice
    (emit (EventTopologyChange (br_dpid b)) ;;
     if is_root_bridge b then transmit_tc_bpdu else transmit_tcn_bpdu).

(** ** Port states and roles: [Port] *)

Definition get_timer (p : port) : option Z :=
  match p_state p with
  | Some LISTEN | Some LEARN => Some (t_forward_delay (p_port_times p))
  | _ => None
  end.

Definition get_next_state (p : port) : option port_state :=
  match p_state p with
  | Some LISTEN => Some LEARN
  | Some LEARN =>
      if is_role (p_role p) ROOT_PORT || is_role (p_role p) DESIGNATED_PORT
      then Some FORWARD else Some BLOCK
  | _ => None
  end.

(** The state machine thread goes to sleep: with a timeout if the timer is neither
    [None] nor zero. *)
Definition sm_sleep (p : port) : port :=
  p <| p_state_timer := match get_timer p with
                        | Some t => if t =? 0 then None else Some t
                        | None => None
                        end |>.

(** [_change_status] wakes the state machine thread, if there is one. *)
Definition sm_wake (p : port) : port := if p_state_machine p then sm_sleep p else p.

Definition stop_sending (p : port) : port :=
  p <| p_send_tc_flg := false |> <| p_send_tc_timer := None |>
    <| p_send_tcn_flg := false |> <| p_send_bpdu_thread := false |>.

Definition change_status (no : Z) (new_state : port_state) : BM () :=
  p ← get_port no;
  ofp ← gets br_ofproto;
  when (negb (bool_decide (new_state = DISABLE)))
    (emits (set_port_status ofp (p_ofport p) new_state)) ;;
  when (bool_decide (new_state = FORWARD)
        || (is_state (p_state p) FORWARD && down_state new_state))
    (topology_change_notify (Some new_state)) ;;
  (if down_state new_state then mod_port no stop_sending
   else if bool_decide (new_state = LISTEN)
        then mod_port no (λ p, p <| p_send_bpdu_thread := true |>)
        else mret tt) ;;
  mod_port no (λ p, p <| p_state := Some new_state |>) ;;
  dpid ← gets br_dpid;
  emit (EventPortStateChange dpid no new_state) ;;
  mod_port no sm_wake.

(** How long [_wait_bpdu_timer] waits for the next BPDU. *)
Definition wait_bpdu_time (p : port) : Z :=
  t_max_age (p_port_times p)
  - match p_designated p with Some (_, ts) => t_message_age ts | None => 0 end.

Definition change_role (no : Z) (new_role : port_role) : BM () :=
  p ← get_port no;
  if is_role (p_role p) new_role then mret tt
  else
    mod_port no (λ p, p <| p_role := Some new_role |>) ;;
    mod_port no (λ p, p <| p_wait_bpdu_thread :=
                             match new_role with
                             | DESIGNATED_PORT => None
                             | _ => Some (wait_bpdu_time p)
                             end |>).

Definition port_up (no : Z) (role : port_role) (root_priority : Priority) (root_times : Times)
  : BM () :=
  mod_port no (λ p, p <| p_port_priority := root_priority |> <| p_port_times := root_times |>) ;;
  p ← get_port no;
  change_role no role ;;
  change_status no (if p_config_enable p then LISTEN else DISABLE).

Definition port_down (no : Z) (st : port_state) (msg_init : bool) : BM () :=
  assert_ (down_state st) AssertionError ;;
  p ← get_port no;
  if negb (p_config_enable p) then mret tt
  else
    when msg_init (mod_port no (λ p, p <| p_designated := None |>)) ;;
    change_role no DESIGNATED_PORT ;;
    change_status no st.

(** The state machine thread starts; a port that is disabled is disabled on the switch
    too. *)
Definition state_machine_start (no : Z) : BM () :=
  p ← get_port no;
  ofp ← gets br_ofproto;
  when (is_state (p_state p) DISABLE) (emits (set_port_status ofp (p_ofport p) DISABLE)) ;;
  mod_port no (λ p, sm_sleep (p <| p_state_machine := true |>)).

(** The timeout of the state machine thread. *)
Definition state_timeout (no : Z) : BM () :=
  p ← get_port no;
  match p_state_timer p with
  | None => mret tt
  | Some _ =>
      match get_next_state p with
      | Some st => change_status no st
      | None => raise KeyError
      end
  end.

(** [Port.__init__] up to the call of [up]: the port and the class attribute, which the
    constructor updates.  [self._DEFAULT_VALUE] is not copied, and the loop over
    [values] assigns every item to itself. *)
Definition path_costs : list (Z * Z) :=
  [(Z.shiftl 1 6, PORT_PATH_COST_10GB); (Z.shiftl 1 5, PORT_PATH_COST_1GB);
   (Z.shiftl 1 4, PORT_PATH_COST_1GB); (Z.shiftl 1 3, PORT_PATH_COST_100MB);
   (Z.shiftl 1 2, PORT_PATH_COST_100MB); (Z.shiftl 1 1, PORT_PATH_COST_10MB);
   (Z.shiftl 1 0, PORT_PATH_COST_10MB)].

Definition link_path_cost (curr : Z) : option Z :=
  snd <$> find (λ rc, negb (Z.land curr rc.1 =? 0)) path_costs.

Definition port_init (defaults : port_values) (config : port_conf) (bridge_id : BridgeId)
    (bridge_times : Times) (op : ofport) : port * port_values :=
  let config_enable := default (pv_enable defaults) (pc_enable config) in
  let values := match link_path_cost (of_curr op) with
                | Some cost => defaults <| pv_path_cost := cost |>
                | None => defaults
                end in
  (Port op config_enable bridge_id (mkPriority bridge_id 0 None None) bridge_times
     (mkPortId (pv_priority values) (of_port_no op)) (pv_path_cost values)
     (if config_enable then None else Some DISABLE) None None
     false None false None false false None,
   values).

Definition port_add (op : ofport) : BM () :=
  when (of_port_no op <=? MAX_PORT_NO)
    (b ← get_st;
     let conf := default no_port_conf (od_get (of_port_no op) (br_ports_conf b)) in
     let '(p, values) := port_init (br_port_defaults b) conf (br_bridge_id b)
                           (br_bridge_times b) op in
     modify (λ b, b <| br_port_defaults := values |>) ;;
     modify (λ b, b <| br_ports ::= od_set (of_port_no op) p |>) ;;
     port_up (of_port_no op) DESIGNATED_PORT (mkPriority (br_bridge_id b) 0 None None)
       (br_bridge_times b) ;;
     state_machine_start (of_port_no op) ;;
     modify (λ b, b <| br_ports_state ::= od_set (of_port_no op) (of_state op) |>)).

(** ** Sending BPDUs: one round of [_transmit_bpdu] *)

(** The topology change flag is dropped when its timer has run out. *)
Definition expire_tc (p : port) : port :=
  match p_send_tc_timer p with
  | Some t => if t <? now then p <| p_send_tc_timer := None |> <| p_send_tc_flg := false |>
              else p
  | None => p
  end.

Definition transmit_round (no : Z) : BM () :=
  p ← get_port no;
  when (is_role (p_role p) DESIGNATED_PORT)
    (mod_port no expire_tc ;;
     p ← get_port no;
     fr ← lift (generate_config_bpdu p (if p_send_tc_flg p then 1 else 0));
     emit (OFPPacketOut no fr)) ;;
  when (p_send_tcn_flg p)
    (fr ← lift (generate_tcn_bpdu p); emit (OFPPacketOut no fr)).

(** The thread sends, then sleeps for the hello time; an exception ends it. *)
Definition transmit_tick (no : Z) : BM () :=
  p ← get_port no;
  when (p_send_bpdu_thread p)
    (try_with (transmit_round no)
       (λ e, Some (mod_port no (λ p, p <| p_send_bpdu_thread := false |>) ;; raise e))).

Definition transmit_ack_bpdu (no : Z) : BM () :=
  p ← get_port no;
  fr ← lift (generate_config_bpdu p 0x81);
  emit (OFPPacketOut no fr).

(** ** Receiving a configuration BPDU *)

Definition update_wait_bpdu_timer (p : port) : port :=
  match p_wait_bpdu_thread p with
  | Some _ => p <| p_wait_bpdu_thread := Some (wait_bpdu_time p) |>
  | None => p
  end.

Definition msg_priority (b : config_bpdu) : Priority :=
  mkPriority
    (mkBridgeId (root_priority b) (root_system_id_extension b) (root_mac_address b))
    (root_path_cost b)
    (Some (mkBridgeId (bridge_priority b) (bridge_system_id_extension b)
             (bridge_mac_address b)))
    (Some (mkPortId (port_priority b) (port_number b))).

Definition msg_times (b : config_bpdu) : Times :=
  mkTimes (message_age b) (max_age b) (hello_time b) (forward_delay b).

Definition rcv_config_bpdu (no : Z) (pkt : config_bpdu) : BM (cmp_result * bool) :=
  p ← get_port no;
  rcv_info ← lift (compare_bpdu_info (fst <$> p_designated p) (snd <$> p_designated p)
                     (msg_priority pkt) (msg_times pkt));
  when (bool_decide (rcv_info = SUPERIOR))
    (mod_port no (λ p, p <| p_designated := Some (msg_priority pkt, msg_times pkt) |>)) ;;
  let listening := (bool_decide (rcv_info = SUPERIOR) || bool_decide (rcv_info = REPEATED))
                   && (is_role (p_role p) ROOT_PORT || is_role (p_role p) NON_DESIGNATED_PORT) in
  let chk_flg := listening
                 || (bool_decide (rcv_info = INFERIOR) && is_role (p_role p) DESIGNATED_PORT) in
  when listening (mod_port no update_wait_bpdu_timer) ;;
  when (chk_flg && negb (Z.land (flags pkt) 0x80 =? 0) && p_send_tcn_flg p)
    (mod_port no (λ p, p <| p_send_tcn_flg := false |>)) ;;
  mret (rcv_info, chk_flg && negb (Z.land (flags pkt) 0x01 =? 0)).

(** ** The spanning tree algorithm: [Bridge] *)

(** The loop of [_select_root_port], from the current choice. *)
Fixpoint select_root_port_from (own : Priority) (root_port : option port) (ports : list port)
  : outcome pyexn (option port) :=
  match ports with
  | [] => Ret root_port
  | p :: ports' =>
      root_msg ← match root_port with
                 | None => Ret own
                 | Some r => attr (p_designated r) fst
                 end;
      match p_designated p with
      | None => select_root_port_from own root_port ports'
      | Some (port_msg, _) =>
          if is_state (p_state p) DISABLE
          then select_root_port_from own root_port ports'
          else
            let root_id := bid_value (pr_root_id root_msg) in
            let port_root_id := bid_value (pr_root_id port_msg) in
            result ←
              (if port_root_id <? root_id then Ret SUPERIOR
               else if root_id =? port_root_id then
                 match pr_designated_bridge_id root_msg with
                 | None => Ret INFERIOR
                 | Some root_dbid =>
                     pb ← attr (pr_designated_bridge_id port_msg) bid_value;
                     pp ← attr (pr_designated_port_id port_msg) pid_value;
                     rp ← attr (pr_designated_port_id root_msg) pid_value;
                     Ret (compare_root_path (pr_root_path_cost port_msg)
                            (pr_root_path_cost root_msg) pb (bid_value root_dbid) pp rp)
                 end
               else Ret INFERIOR);
            select_root_port_from own
              (match result : cmp_result with SUPERIOR => Some p | _ => root_port end) ports'
      end
  end.

Definition select_root_port (b : bridge) : outcome pyexn (option port) :=
  select_root_port_from (br_root_priority b) None (od_values (br_ports b)).

(** Whether the bridge is nearer to the root than the bridge heard on port [p]. *)
Definition designated_here (bridge_id : BridgeId) (root_msg : Priority) (p : port)
  : outcome pyexn bool :=
  match p_designated p with
  | None => Ret true
  | Some (port_msg, _) =>
      if negb (bid_value (pr_root_id port_msg) =? bid_value (pr_root_id root_msg))
      then Ret true
      else
        db ← attr (pr_designated_bridge_id port_msg) bid_value;
        dp ← attr (pr_designated_port_id port_msg) pid_value;
        Ret (bool_decide
               (compare_root_path (pr_root_path_cost root_msg)
                  (pr_root_path_cost port_msg - p_path_cost p)
                  (bid_value bridge_id) db (pid_value (p_port_id p)) dp = SUPERIOR))
  end.

Fixpoint select_designated_port (bridge_id : BridgeId) (root_no : Z) (root_msg : Priority)
    (ports : list port) : outcome pyexn (list Z) :=
  match ports with
  | [] => Ret []
  | p :: ports' =>
      if is_state (p_state p) DISABLE || (of_port_no (p_ofport p) =? root_no)
      then select_designated_port bridge_id root_no root_msg ports'
      else
        d ← designated_here bridge_id root_msg p;
        ds ← select_designated_port bridge_id root_no root_msg ports';
        Ret (if d : bool then of_port_no (p_ofport p) :: ds else ds)
  end.

(** [port_roles.setdefault] for every enabled port. *)
Definition other_roles (ports : list port) (roles : odict Z port_role) : odict Z port_role :=
  fold_left (λ roles p, if is_state (p_state p) DISABLE then roles
                        else od_setdefault (of_port_no (p_ofport p)) NON_DESIGNATED_PORT roles)
    ports roles.

Definition spanning_tree_algorithm (b : bridge)
  : outcome pyexn (odict Z port_role * Priority * Times) :=
  root_port ← select_root_port b;
  match root_port : option port with
  | None =>
      Ret ((λ kp, (kp.1, DESIGNATED_PORT)) <$>
             filter (λ kp, is_state (p_state kp.2) DISABLE = false) (br_ports b),
           br_root_priority b, br_root_times b)
  | Some r =>
      root_msg ← attr (p_designated r) fst;
      root_times ← attr (p_designated r) snd;
      let root_no := of_port_no (p_ofport r) in
      d_ports ← select_designated_port (br_bridge_id b) root_no root_msg
                  (od_values (br_ports b));
      let roles := fold_left (λ roles no, od_set no DESIGNATED_PORT roles) d_ports
                     [(root_no, ROOT_PORT)] in
      Ret (other_roles (od_values (br_ports b)) roles, root_msg, root_times)
  end.

Definition ports_down (init : bool) : BM () :=
  keys ← gets (λ b, od_keys (br_ports b));
  for_each keys (λ no,
    p ← get_port no;
    when (negb (is_state (p_state p) DISABLE)) (port_down no BLOCK init)).

Definition ports_up (roles : odict Z port_role) : BM () :=
  for_each roles (λ nr : Z * port_role,
    p ← get_port nr.1;
    when (negb (is_state (p_state p) DISABLE))
      (b ← get_st; port_up nr.1 nr.2 (br_root_priority b) (br_root_times b))).

Definition recalculate_spanning_tree (init : bool) : BM () :=
  ports_down init ;;
  b ← get_st;
  when init (emit (EventTopologyChange (br_dpid b))) ;;
  modify (λ b, b <| br_root_priority := mkPriority (br_bridge_id b) 0 None None |>
                 <| br_root_times := br_bridge_times b |>) ;;
  roles ← (if init then gets (λ b, (λ no, (no, DESIGNATED_PORT)) <$> od_keys (br_ports b))
           else
             b ← get_st;
             '(roles, root_priority, root_times) ← lift (spanning_tree_algorithm b);
             modify (λ b, b <| br_root_priority := root_priority |>
                            <| br_root_times := root_times |>) ;;
             mret roles);
  ports_up roles.

(** The timeout of [_wait_bpdu_timer]: the thread spawns a recalculation and ends. *)
Definition wait_bpdu_timeout (no : Z) : BM () :=
  p ← get_port no;
  match p_wait_bpdu_thread p with
  | None => mret tt
  | Some _ =>
      mod_port no (λ p, p <| p_wait_bpdu_thread := None |>) ;;
      modify (λ b, b <| br_spawned ::= S |>)
  end.

Definition run_spawned : BM () :=
  n ← gets br_spawned;
  match n : nat with
  | O => mret tt
  | S n' => modify (λ b, b <| br_spawned := n' |>) ;; recalculate_spanning_tree true
  end.

(** ** Events of the switch: [Bridge] *)

Definition link_up (op : ofport) : BM () :=
  get_port (of_port_no op) ;;
  b ← get_st;
  port_up (of_port_no op) DESIGNATED_PORT (br_root_priority b) (br_root_times b) ;;
  modify (λ b, b <| br_ports_state ::= od_set (of_port_no op) (of_state op) |>).

Definition link_down (op : ofport) : BM () :=
  p ← get_port (of_port_no op);
  port_down (of_port_no op) DISABLE true ;;
  modify (λ b, b <| br_ports_state ::= od_set (of_port_no op) (of_state op) |>) ;;
  when (is_role (p_role p) ROOT_PORT) (recalculate_spanning_tree true).

(** [Port.delete]: the threads are stopped. *)
Definition port_stop (p : port) : port :=
  p <| p_state_machine := false |> <| p_send_bpdu_thread := false |>
    <| p_wait_bpdu_thread := None |> <| p_state_timer := None |>.

Definition port_delete (op : ofport) : BM () :=
  link_down op ;;
  get_port (of_port_no op) ;;
  mod_port (of_port_no op) port_stop ;;
  modify (λ b, b <| br_ports ::= od_del (of_port_no op) |>) ;;
  modify (λ b, b <| br_ports_state ::= od_del (of_port_no op) |>).

Definition bridge_delete : BM () :=
  keys ← gets (λ b, od_keys (br_ports b));
  for_each keys (λ no, mod_port no port_stop).

(** [dp.ofproto.OXM_OF_IN_PORT] *)
Definition OXM_OF_IN_PORT := 0x80000004.

Definition in_port_no (ofp : ofproto) (msg : packet_in) : option Z :=
  match ofp with
  | V1_0 => Some (m_in_port msg)
  | V1_2 | V1_3 => snd <$> find (λ f, f.1 =? OXM_OF_IN_PORT) (m_match msg)
  end.

(** What [packet.Packet(msg.data)] finds after the LLC header: [Packet._parser] stops
    at a buffer of zero bytes and at [struct.error]. *)
Definition packet_bpdu (msg : packet_in) : outcome pyexn (option bpdu_pkt) :=
  match m_bpdu msg with
  | None => Ret None
  | Some buf =>
      if forallb (Z.eqb 0) buf then Ret None
      else match parser buf with
           | Ret (Parsed p _) => Ret (Some p)
           | Ret (Unknown _) => Ret None
           | Raise StructError => Ret None
           | Raise e => Raise e
           end
  end.

Definition forward_tc_bpdu (fwd_flg : bool) : BM () :=
  keys ← gets (λ b, od_keys (br_ports b));
  for_each keys (λ no, mod_port no (λ p, p <| p_send_tc_flg := fwd_flg |>)).

Definition packet_in_config (no : Z) (pkt : config_bpdu) : BM () :=
  if max_age pkt <? message_age pkt then mret tt
  else
    '(rcv_info, rcv_tc) ← rcv_config_bpdu no pkt;
    (if bool_decide (rcv_info = SUPERIOR) then recalculate_spanning_tree false
     else b ← get_st; when rcv_tc (emit (EventTopologyChange (br_dpid b)))) ;;
    p ← get_port no;
    when (is_role (p_role p) ROOT_PORT) (forward_tc_bpdu rcv_tc).

Definition bridge_packet_in (msg : packet_in) : BM () :=
  b ← get_st;
  match in_port_no (br_ofproto b) msg with
  | None => mret tt
  | Some no =>
      match od_get no (br_ports b) with
      | None => mret tt
      | Some p =>
          if is_state (p_state p) DISABLE then mret tt
          else
            pkt ← lift (packet_bpdu msg);
            match pkt : option bpdu_pkt with
            | Some (ConfigurationBPDUs c) => packet_in_config no c
            | Some TopologyChangeNotificationBPDUs =>
                transmit_ack_bpdu no ;; topology_change_notify None
            | Some (RstBPDUs _) => mret tt
            | None => emit (EventPacketIn msg)
            end
      end
  end.

End clock.

(** ** Creating a bridge: [Bridge.__init__] *)

Record datapath := Datapath {
  dp_id : Z;
  dp_ofproto : ofproto;
  dp_ports : odict Z ofport;
}.

(** [values = self._DEFAULT_VALUE], updated in place with the configuration. *)
Definition bridge_conf_values (defaults : bridge_values) (c : bridge_conf) : bridge_values :=
  BridgeValues (default (bv_priority defaults) (bc_priority c))
    (default (bv_sys_ext_id defaults) (bc_sys_ext_id c))
    (default (bv_max_age defaults) (bc_max_age c))
    (default (bv_hello_time defaults) (bc_hello_time c))
    (default (bv_fwd_delay defaults) (bc_fwd_delay c)).

Definition new_bridge (dp : datapath) (values : bridge_values) (port_defaults : port_values)
    (ports_conf : odict Z port_conf) (system_id : Z) : bridge :=
  let bridge_id := mkBridgeId (bv_priority values) (bv_sys_ext_id values) system_id in
  let bridge_times := mkTimes 0 (bv_max_age values) (bv_hello_time values)
                        (bv_fwd_delay values) in
  Bridge (dp_id dp) (dp_ofproto dp) bridge_id bridge_times
    (mkPriority bridge_id 0 None None) bridge_times [] [] ports_conf port_defaults 0.

(** The rest of the constructor: the ports and the flow for BPDUs. *)
Definition bridge_start (now : Z) (dp : datapath) : BM () :=
  for_each (od_values (dp_ports dp)) (port_add now) ;;
  when (negb (bool_decide (dp_ofproto dp = V1_0)))
    (emit (OFPFlowModAdd BPDU_PKT_IN_PRIORITY None)).

(** ** The application [Stp] *)

Record stp := StpApp {
  st_config : odict Z (bridge_conf * odict Z port_conf);
  st_bridge_list : odict Z bridge;
  st_bridge_defaults : bridge_values;
  st_port_defaults : port_values;
}.
#[export] Instance eta_stp : Eta stp := EtaBox (λ r, StpApp
  (st_config r) (st_bridge_list r) (st_bridge_defaults r) (st_port_defaults r)).

Definition new_stp : stp := StpApp [] [] Bridge_DEFAULT_VALUE Port_DEFAULT_VALUE.

Definition SM A : Type := M stp pyexn stp_out A.

(** A method of a bridge runs on the shared class attribute. *)
Definition run_bridge {A} (b : bridge) (m : BM A) : SM (bridge * outcome pyexn A) := λ s,
  let '(os, b', r) := m (b <| br_port_defaults := st_port_defaults s |>) in
  (os, s <| st_port_defaults := br_port_defaults b' |>, Ret (b', r)).

Definition on_bridge {A} (dpid : Z) (m : BM A) : SM A :=
  o ← gets (λ s, od_get dpid (st_bridge_list s));
  b ← or_raise o KeyError;
  '(b', r) ← run_bridge b m;
  modify (λ s, s <| st_bridge_list ::= od_alter (λ _, b') dpid |>) ;;
  lift r.

Definition set_config (config : odict Z (bridge_conf * odict Z port_conf)) : SM () :=
  modify (λ s, s <| st_config := config |>).

Definition unregister_bridge (dpid : Z) : SM () :=
  s ← get_st;
  when (od_mem dpid (st_bridge_list s))
    (on_bridge dpid bridge_delete ;;
     modify (λ s, s <| st_bridge_list ::= od_del dpid |>)).

Definition register_bridge (now : Z) (dp : datapath) : SM () :=
  unregister_bridge (dp_id dp) ;;
  s ← get_st;
  let '(bconf, pconf) := default (no_bridge_conf, []) (od_get (dp_id dp) (st_config s)) in
  let values := bridge_conf_values (st_bridge_defaults s) bconf in
  modify (λ s, s <| st_bridge_defaults := values |>) ;;
  op ← or_raise (head (od_values (dp_ports dp))) IndexError;
  '(b, r) ← run_bridge (new_bridge dp values (st_port_defaults s) pconf (of_hw_addr op))
              (bridge_start now dp);
  lift r ;;
  modify (λ s, s <| st_bridge_list ::= od_set (dp_id dp) b |>).

(** [close] deletes from the dictionary it iterates over: the next step of the loop
    raises. *)
Definition close : SM () :=
  s ← get_st;
  match od_keys (st_bridge_list s) with
  | [] => mret tt
  | dpid :: _ => unregister_bridge dpid ;; raise RuntimeError
  end.

Inductive dispatcher := MAIN_DISPATCHER | DEAD_DISPATCHER.

Definition dispacher_change (now : Z) (dp : datapath) (st : dispatcher) : SM () :=
  match st with
  | MAIN_DISPATCHER => register_bridge now dp
  | DEAD_DISPATCHER => unregister_bridge (dp_id dp)
  end.

Definition packet_in_handler (now dpid : Z) (msg : packet_in) : SM () :=
  s ← get_st;
  when (od_mem dpid (st_bridge_list s)) (on_bridge dpid (bridge_packet_in now msg)).

Inductive port_reason := OFPPR_ADD | OFPPR_DELETE | OFPPR_MODIFY.

Definition port_status_modify (now : Z) (op : ofport) : BM () :=
  b ← get_st;
  st ← or_raise (od_get (of_port_no op) (br_ports_state b)) KeyError;
  if st =? of_state op then mret tt
  else if negb (Z.land (of_state op) 1 =? 0) then link_down now op
  else link_up now op.

Definition port_status (now : Z) (reason : port_reason) (op : ofport) : BM () :=
  match reason with
  | OFPPR_ADD => port_add now op
  | OFPPR_DELETE => port_delete now op
  | OFPPR_MODIFY => port_status_modify now op
  end.

Definition port_status_handler (now dpid : Z) (reason : port_reason) (op : ofport) : SM () :=
  s ← get_st;
  when (od_mem dpid (st_bridge_list s)) (on_bridge dpid (port_status now reason op)).

(** ** Sample runs *)

Module StpRun.
Definition eth (n hw : Z) : ofport := OfPort n hw 0 (Z.shiftl 1 5) 0.
Definition dpA := Datapath 1 V1_3 [(1, eth 1 0xa1); (2, eth 2 0xa2)].
Definition dpB := Datapath 2 V1_3 [(1, eth 1 0xb1); (2, eth 2 0xb2)].
Definition start (dp : datapath) (hw : Z) : bridge :=
  final (bridge_start 0 dp) (new_bridge dp Bridge_DEFAULT_VALUE Port_DEFAULT_VALUE [] hw).
Definition A := start dpA 0xa1.
Definition B := start dpB 0xb1.
Definition sent {X} (m : BM X) (b : bridge) : list bytes :=
  omap (λ o, match o with OFPPacketOut _ f => Some (fr_bpdu f) | _ => None end)
    (outputs m b).
Definition deliver (bs : list bytes) (no : Z) (b : bridge) : bridge :=
  final (for_each bs (λ x, bridge_packet_in 0 (PacketIn 0 [(OXM_OF_IN_PORT, no)] (Some x)))) b.
Definition roles (b : bridge) := (λ kp, (kp.1, p_state kp.2, p_role kp.2)) <$> br_ports b.

(** Two bridges joined by two links: the bridge with the greater identifier keeps one
    port as its root port and blocks the other. *)
Example loop_is_broken :
  let B1 := deliver (sent (transmit_tick 0 1) A) 1 B in
  let B2 := deliver (sent (transmit_tick 0 2) A) 2 B1 in
  let A1 := deliver (sent (transmit_tick 0 2) B) 2 A in
  roles B2 = [(1, Some LISTEN, Some ROOT_PORT); (2, Some LISTEN, Some NON_DESIGNATED_PORT)] ∧
  roles A1 = [(1, Some LISTEN, Some DESIGNATED_PORT); (2, Some LISTEN, Some DESIGNATED_PORT)].
Proof. by vm_compute. Qed.
End StpRun.
