(* ===== verification/StpElection.v ===== *)
(** * Spanning tree: the election

    The comparison of BPDU information is a lexicographic order
    ([compare_bpdu_info_order]); [_select_root_port] finds the best port
    ([select_root_port_best]); [recalculate_spanning_tree] leads to a consistent state
    of the tree ([recalculate_elects]).

    The proofs describe a run by what it does to the [core] of the bridge, the bridge
    without the topology change flags: [steps m b a c] says that [m] returns [a] from
    [b] and ends in a bridge with core [c]. *)

From stdpp Require Import base list gmap.
From Stdlib Require Import ZArith Lia.
From S2P Require Import Prelude Odict Bpdu Stp.
Open Scope Z_scope.

(** ** The order of BPDU information *)

(** Lexicographic order on lists of the same length. *)
Fixpoint lex_lt (l1 l2 : list Z) : Prop :=
  match l1, l2 with
  | x :: l1', y :: l2' => x < y ∨ (x = y ∧ lex_lt l1' l2')
  | _, _ => False
  end.

Lemma lex_lt_trans l1 l2 l3 : lex_lt l1 l2 → lex_lt l2 l3 → lex_lt l1 l3.
Proof.
  revert l2 l3. induction l1 as [|x l1 IH]; intros [|y l2] [|z l3]; cbn; try done.
  intros [?|[-> ?]] [?|[-> ?]]; try (left; lia). right. eauto.
Qed.

Lemma lex_lt_irrefl l : ¬ lex_lt l l.
Proof. induction l; cbn; [tauto|]. intros [?|[_ ?]]; [lia|tauto]. Qed.

(** The information of a BPDU that [Stp] compares: root identifier, root path cost,
    identifiers of the sending bridge and port. *)
Definition complete (m : Priority) : Prop :=
  is_Some (pr_designated_bridge_id m) ∧ is_Some (pr_designated_port_id m).

Definition path_vec (m : Priority) : list Z :=
  [pr_root_path_cost m;
   default 0 (bid_value <$> pr_designated_bridge_id m);
   default 0 (pid_value <$> pr_designated_port_id m)].
Definition info_vec (m : Priority) : list Z := bid_value (pr_root_id m) :: path_vec m.

Lemma cmp_value_cases a b :
  (a < b ∧ cmp_value a b = SUPERIOR) ∨ (a = b ∧ cmp_value a b = REPEATED) ∨
  (b < a ∧ cmp_value a b = INFERIOR).
Proof.
  unfold cmp_value, cmp.
  destruct (Z.lt_trichotomy a b) as [?|[->|?]].
  - left. by rewrite (proj2 (Z.ltb_lt a b)), (proj2 (Z.ltb_ge b a)) by lia.
  - right; left. by rewrite Z.ltb_irrefl.
  - right; right. by rewrite (proj2 (Z.ltb_lt b a)), (proj2 (Z.ltb_ge a b)) by lia.
Qed.

Ltac cmp_cases :=
  repeat match goal with
  | |- context [cmp_value ?a ?b] =>
      let H := fresh "Hc" in let E := fresh "Ec" in
      destruct (cmp_value_cases a b) as [[H E]|[[H E]|[H E]]]; rewrite E; clear E
  end.

Lemma compare_root_path_cases c1 c2 b1 b2 p1 p2 :
  match compare_root_path c1 c2 b1 b2 p1 p2 with
  | SUPERIOR => lex_lt [c1; b1; p1] [c2; b2; p2]
  | REPEATED => [c1; b1; p1] = [c2; b2; p2]
  | INFERIOR => lex_lt [c2; b2; p2] [c1; b1; p1]
  end.
Proof. unfold compare_root_path. cmp_cases; cbn; subst; tauto. Qed.

Lemma complete_elim m :
  complete m → ∃ r c b p, m = mkPriority r c (Some b) (Some p).
Proof. destruct m as [r c b p]. intros [[b' ?] [p' ?]]; cbn in *; subst. eauto. Qed.

(** The comparison of a received BPDU with the stored information never raises and
    orders by root identifier, root path cost, sending bridge and sending port.  Equal
    information is superior when the times differ, or when the sender's identifiers
    happen to coincide with the bare MAC address and port number stored. *)
Theorem compare_bpdu_info_order (my : option Priority) (my_times : option Times)
    (rcv : Priority) (rcv_times : Times) :
  (∀ m, my = Some m → complete m) → complete rcv →
  ∃ result, compare_bpdu_info my my_times rcv rcv_times = Ret result ∧
  match my with
  | None => result = SUPERIOR
  | Some m =>
      (result = INFERIOR ↔ lex_lt (info_vec m) (info_vec rcv)) ∧
      (result = SUPERIOR ↔
        lex_lt (info_vec rcv) (info_vec m) ∨
        (info_vec rcv = info_vec m ∧
         (my_times ≠ Some rcv_times ∨
          (bid_value <$> pr_designated_bridge_id rcv = bid_mac_addr <$> pr_designated_bridge_id m ∧
           pid_value <$> pr_designated_port_id rcv = pid_port_no <$> pr_designated_port_id m))))
  end.
Proof.
  intros Hmy Hrcv. destruct my as [m|]; [|by eexists].
  destruct (complete_elim m (Hmy m eq_refl)) as (mr & mc & mb & mp & ->).
  destruct (complete_elim rcv Hrcv) as (rr & rc & rb & rp & ->).
  clear Hmy Hrcv. unfold compare_bpdu_info, info_vec, path_vec. cbn.
  destruct (cmp_value_cases (bid_value rr) (bid_value mr)) as [[H ->]|[[H ->]|[H ->]]].
  { eexists; split; [done|]. split; [split; [done|intros [?|[? ?]]; lia]|split; auto]. }
  2: { eexists; split; [done|]. split; [split; auto|].
       split; [done|]. intros [[?|[? ?]]|[[= ?] ?]]; lia. }
  rewrite H. cbn.
  pose proof (compare_root_path_cases rc mc (bid_value rb) (bid_value mb)
                (pid_value rp) (pid_value mp)) as Hp.
  destruct (compare_root_path _ _ _ _ _ _).
  - eexists; split; [done|]. cbn in Hp. split; [|split; auto].
    split; [done|]. lia.
  - injection Hp as -> -> ->. unfold cmp_obj.
    assert (Hirr : ¬ lex_lt (bid_value mr :: [mc; bid_value mb; pid_value mp])
                            (bid_value mr :: [mc; bid_value mb; pid_value mp]))
      by apply lex_lt_irrefl.
    cbn in Hirr.
    assert (Ht : (Some rcv_times = my_times) ↔ ¬ (my_times ≠ Some rcv_times)).
    { split; [intros <-; tauto|]. destruct (decide (my_times = Some rcv_times)); [done|tauto]. }
    cmp_cases;
      (eexists; split; [done|]); try case_bool_decide;
      (split; [split; [done|tauto]|]); (split; [|done || (intros; exfalso; intuition (simplify_eq; try lia); tauto)]);
      intros; try done; right; split; try done; first [right; split; congruence | left; tauto].
  - eexists; split; [done|]. cbn in Hp. split; [split; auto|].
    split; [done|]. intros [[?|[? Hq]]|[[= ? ? ?] ?]]; lia.
Qed.

(** ** Runs up to the topology change flags

    [core] forgets the flags and the timer of topology changes, which never influence
    roles and states.  [steps m b a c]: [m] returns [a] and leads to a bridge with core
    [c].  Each operation of a port is described by a function on the port's core. *)

Definition core_p (p : port) : port :=
  p <| p_send_tc_flg := false |> <| p_send_tc_timer := None |> <| p_send_tcn_flg := false |>.
#[global] Arguments core_p : simpl never.

Definition map_ports (f : port → port) (d : odict Z port) : odict Z port :=
  (λ kp, (kp.1, f kp.2)) <$> d.
#[global] Arguments map_ports : simpl never.

Definition core (b : bridge) : bridge := b <| br_ports ::= map_ports core_p |>.

Definition steps {A} (m : BM A) (b : bridge) (a : A) (c : bridge) : Prop :=
  result m b = Ret a ∧ core (final m b) = c.

Definition alter_port (no : Z) (f : port → port) (b : bridge) : bridge :=
  b <| br_ports ::= od_alter f no |>.

Lemma od_get_map_ports f no d : od_get no (map_ports f d) = f <$> od_get no d.
Proof.
  unfold map_ports. induction d as [|[k p] d IH]; cbn; [done|].
  case_decide; [done|apply IH].
Qed.

Lemma od_keys_map_ports f d : od_keys (map_ports f d) = od_keys d.
Proof. unfold od_keys, map_ports. induction d as [|[k p] d IH]; cbn; congruence. Qed.

Lemma core_alter no f g b :
  (∀ p, core_p (f p) = g (core_p p)) → core (alter_port no f b) = alter_port no g (core b).
Proof.
  intros Hfg. unfold core, alter_port. destruct b as [? ? ? ? ? ? ps ? ? ? ?]. cbn. f_equal.
  unfold map_ports. induction ps as [|[k p] ps IH]; cbn; [done|].
  case_decide; cbn; [by rewrite Hfg|by rewrite IH].
Qed.

Lemma alter_port_id no b f : (∀ p, f p = p) → alter_port no f b = b.
Proof.
  intros Hf. unfold alter_port. destruct b as [? ? ? ? ? ? ps ? ? ? ?]. cbn. f_equal.
  induction ps as [|[k p] ps IH]; cbn; [done|]. case_decide; cbn; [by rewrite Hf|by rewrite IH].
Qed.

Lemma alter_port_ext no b f g :
  (∀ p, od_get no (br_ports b) = Some p → f p = g p) → alter_port no f b = alter_port no g b.
Proof.
  intros Hf. unfold alter_port. destruct b as [? ? ? ? ? ? ps ? ? ? ?]. cbn in *. f_equal.
  induction ps as [|[k p] ps IH]; cbn in *; [done|].
  case_decide; cbn; [by rewrite (Hf p)|by rewrite IH].
Qed.

Lemma alter_port_at no b f :
  (∀ p, od_get no (br_ports b) = Some p → f p = p) → alter_port no f b = b.
Proof. intros Hf. rewrite (alter_port_ext no b f id) by done. by apply alter_port_id. Qed.

Lemma alter_port_compose no f g b :
  alter_port no f (alter_port no g b) = alter_port no (λ p, f (g p)) b.
Proof. unfold alter_port. destruct b; cbn. f_equal. apply od_alter_compose. Qed.

Lemma core_get no b b' :
  core b' = core b → core_p <$> od_get no (br_ports b') = core_p <$> od_get no (br_ports b).
Proof.
  intros H. apply (f_equal br_ports) in H. cbn in H.
  apply (f_equal (od_get no)) in H. by rewrite !od_get_map_ports in H.
Qed.

Lemma core_get_some no b c p :
  core b = c → od_get no (br_ports c) = Some p →
  ∃ q, od_get no (br_ports b) = Some q ∧ core_p q = p.
Proof.
  intros <-. cbn. rewrite od_get_map_ports.
  destruct (od_get no (br_ports b)) as [q|]; [|done]. intros [= <-]. by exists q.
Qed.

Lemma steps_ret {A} (a : A) b : steps (mret a) b a (core b).
Proof. done. Qed.

Lemma steps_bind {A B} (m : BM A) (k : A → BM B) b a c x c' :
  steps m b a c → (∀ b', core b' = c → steps (k a) b' x c') → steps (m ≫= k) b x c'.
Proof.
  unfold steps, result, final, mbind, M_bind.
  destruct (m b) as [[o1 b1] r]. cbn. intros [-> Hc] Hk.
  specialize (Hk b1 Hc). by destruct (k a b1) as [[o2 b2] r2].
Qed.

Lemma steps_gets {A} (f : bridge → A) b : steps (gets f) b (f b) (core b).
Proof. done. Qed.

Lemma steps_emit o b : steps (emit o) b tt (core b).
Proof. done. Qed.

Lemma steps_emits o b : steps (emits o) b tt (core b).
Proof. done. Qed.

Lemma steps_when (t : bool) (m : BM ()) b c :
  (t = true → steps m b tt c) → (t = false → c = core b) → steps (when t m) b tt c.
Proof. destruct t; cbn; [auto|]. intros _ ->; [done|done]. Qed.

Lemma steps_mod_port no f g b :
  (∀ p, core_p (f p) = g (core_p p)) → steps (mod_port no f) b tt (alter_port no g (core b)).
Proof. intros H. split; [done|]. by apply core_alter. Qed.

Lemma steps_get_port no b p :
  od_get no (br_ports b) = Some p → steps (get_port no) b p (core b).
Proof.
  intros H. unfold steps, get_port, result, final, mbind, M_bind, gets. cbn. by rewrite H.
Qed.

Lemma steps_core_eq {A} (m : BM A) b a c c' : steps m b a c → c = c' → steps m b a c'.
Proof. by intros ? <-. Qed.

Lemma core_idem b : core (core b) = core b.
Proof.
  unfold core. destruct b as [? ? ? ? ? ? ps ? ? ? ?]. cbn. f_equal. unfold map_ports.
  induction ps as [|[k p] ps IH]; cbn; [done|by rewrite IH].
Qed.

Lemma steps_for_each {B} (P : bridge → Prop) (G : B → bridge → bridge) (l : list B)
    (body : B → BM ()) b :
  P (core b) →
  (∀ x b', x ∈ l → P (core b') → steps (body x) b' tt (G x (core b')) ∧ P (G x (core b'))) →
  steps (for_each l body) b tt (fold_left (λ c x, G x c) l (core b)).
Proof.
  revert b. induction l as [|x l IH]; intros b HP Hbody; cbn [for_each fold_left].
  { apply steps_ret. }
  destruct (Hbody x b) as [Hx HPx]; [set_solver|done|].
  eapply steps_bind; [exact Hx|]. intros b' Hb'. rewrite <- Hb' in *.
  apply IH; [done|]. intros y b'' Hy. apply Hbody. set_solver.
Qed.

Lemma steps_for_each_id {B} (l : list B) (body : B → BM ()) b :
  (∀ x b', steps (body x) b' tt (core b')) → steps (for_each l body) b tt (core b).
Proof.
  intros Hb.
  eapply steps_core_eq; [apply (steps_for_each (λ _, True) (λ _ c, c)); auto|].
  induction l; cbn; auto.
Qed.

Lemma steps_mod_port_id no f b :
  (∀ p, core_p (f p) = core_p p) → steps (mod_port no f) b tt (core b).
Proof.
  intros H. eapply steps_core_eq; [by apply (steps_mod_port _ _ id)|]. by apply alter_port_id.
Qed.

Section clock_lemmas.
Context (now : Z).

Lemma core_transmit_tc p : core_p (port_transmit_tc now p) = core_p p.
Proof. unfold port_transmit_tc. by destruct (p_send_tc_flg p). Qed.

Lemma topology_change_notify_steps st b :
  steps (topology_change_notify now st) b tt (core b).
Proof.
  unfold topology_change_notify. apply (steps_bind _ _ b b (core b)); [done|].
  intros b1 Hb1. rewrite <- Hb1. apply steps_when; [|done]. intros _.
  eapply steps_bind; [apply steps_emit|]. intros b2 <-. destruct (is_root_bridge b).
  - unfold transmit_tc_bpdu. eapply steps_bind; [apply steps_gets|]. intros b3 <-.
    apply steps_for_each_id. intros no b'. apply steps_mod_port_id, core_transmit_tc.
  - unfold transmit_tcn_bpdu. eapply steps_bind; [apply steps_gets|]. intros b3 <-.
    destruct (first_with_role _ _); [|apply steps_ret]. by apply steps_mod_port_id.
Qed.

(** What [_change_status], [_change_role], [up] and [down] do to the core of a port. *)
Definition sending_after (st : port_state) (p : port) : port :=
  if down_state st then p <| p_send_bpdu_thread := false |>
  else if bool_decide (st = LISTEN) then p <| p_send_bpdu_thread := true |> else p.

Definition status_port (st : port_state) (p : port) : port :=
  sm_wake (sending_after st p <| p_state := Some st |>).

Definition role_port (ro : port_role) (p : port) : port :=
  if is_role (p_role p) ro then p
  else p <| p_role := Some ro |>
         <| p_wait_bpdu_thread := match ro with
                                  | DESIGNATED_PORT => None
                                  | _ => Some (wait_bpdu_time p)
                                  end |>.

Definition up_port (ro : port_role) (rp : Priority) (rt : Times) (p : port) : port :=
  status_port (if p_config_enable p then LISTEN else DISABLE)
    (role_port ro (p <| p_port_priority := rp |> <| p_port_times := rt |>)).

Definition down_port (st : port_state) (msg_init : bool) (p : port) : port :=
  if p_config_enable p then
    status_port st
      (role_port DESIGNATED_PORT (if msg_init then p <| p_designated := None |> else p))
  else p.

Lemma core_sm_wake p : core_p (sm_wake p) = sm_wake (core_p p).
Proof.
  destruct p as [? ? ? ? ? ? ? ? ? ? ? ? ? ? ? sm ?]. unfold sm_wake. cbn. by destruct sm.
Qed.

Lemma core_get_after no b b1 p f :
  core b1 = alter_port no f (core b) → od_get no (br_ports b) = Some p →
  ∃ q, od_get no (br_ports b1) = Some q ∧ core_p q = f (core_p p).
Proof.
  intros Hc Hp. apply (core_get_some no b1 _ _ Hc). cbn.
  by rewrite od_get_alter, decide_True, od_get_map_ports, Hp.
Qed.

Lemma change_status_steps no st b p :
  od_get no (br_ports b) = Some p →
  steps (change_status now no st) b tt (alter_port no (status_port st) (core b)).
Proof.
  intros Hp. unfold change_status.
  eapply steps_bind; [by apply steps_get_port|]. intros b1 <-.
  eapply steps_bind; [apply steps_gets|]. intros b2 <-.
  eapply steps_bind; [apply steps_when; [intros _; apply steps_emits|done]|]. intros b3 <-.
  eapply steps_bind.
  { apply steps_when; [intros _; apply topology_change_notify_steps|done]. }
  intros b4 <-.
  eapply (steps_bind _ _ _ tt (alter_port no (sending_after st) (core b4))).
  { unfold sending_after. destruct (down_state st); [by apply steps_mod_port|].
    case_bool_decide; [by apply steps_mod_port|].
    eapply steps_core_eq; [apply steps_ret|]. by rewrite alter_port_id. }
  intros b5 Hb5.
  eapply steps_bind; [by apply (steps_mod_port _ _ (λ p, p <| p_state := Some st |>))|].
  intros b6 Hb6.
  eapply steps_bind; [apply steps_gets|]. intros b7 Hb7.
  eapply steps_bind; [apply steps_emit|]. intros b8 Hb8.
  eapply steps_core_eq; [apply steps_mod_port, core_sm_wake|].
  by rewrite Hb8, Hb7, Hb6, Hb5, !alter_port_compose.
Qed.

Lemma change_role_steps no ro b p :
  od_get no (br_ports b) = Some p →
  steps (change_role no ro) b tt (alter_port no (role_port ro) (core b)).
Proof.
  intros Hp. unfold change_role.
  eapply steps_bind; [by apply steps_get_port|]. intros b1 Hb1. rewrite <- Hb1.
  assert (Hcb : od_get no (br_ports (core b1)) = Some (core_p p)).
  { rewrite Hb1. cbn. by rewrite od_get_map_ports, Hp. }
  unfold role_port. destruct (is_role (p_role p) ro) eqn:Hr.
  - eapply steps_core_eq; [apply steps_ret|]. symmetry.
    apply alter_port_at. intros p' Hp'. rewrite Hcb in Hp'. injection Hp' as <-.
    change (p_role (core_p p)) with (p_role p). by rewrite Hr.
  - eapply steps_bind.
    { by apply (steps_mod_port _ _ (λ p, p <| p_role := Some ro |>)). }
    intros b2 Hb2.
    eapply steps_core_eq; [by apply (steps_mod_port _ _ (λ p, p <| p_wait_bpdu_thread :=
       match ro with DESIGNATED_PORT => None | _ => Some (wait_bpdu_time p) end |>))|].
    rewrite Hb2, alter_port_compose. apply alter_port_ext. intros p' Hp'.
    rewrite Hcb in Hp'. injection Hp' as <-.
    change (p_role (core_p p)) with (p_role p). by rewrite Hr.
Qed.

Lemma steps_get_core {A} no b p (k : port → BM A) x c :
  od_get no (br_ports b) = Some p →
  (∀ b', core b' = core b → steps (k p) b' x c) → steps (get_port no ≫= k) b x c.
Proof. intros Hp Hk. eapply steps_bind; [by apply steps_get_port|done]. Qed.

Lemma port_up_steps no ro rp rt b p :
  od_get no (br_ports b) = Some p →
  steps (port_up now no ro rp rt) b tt (alter_port no (up_port ro rp rt) (core b)).
Proof.
  intros Hp. unfold port_up.
  eapply steps_bind.
  { by apply (steps_mod_port _ _ (λ p, p <| p_port_priority := rp |> <| p_port_times := rt |>)). }
  intros b1 Hb1.
  destruct (core_get_after _ _ _ _ _ Hb1 Hp) as (q & Hq & Hqp).
  eapply steps_get_core; [exact Hq|]. intros b2 Hb2.
  destruct (core_get_some no b2 _ (core_p q) Hb2) as (q2 & Hq2 & Hqp2).
  { cbn. by rewrite od_get_map_ports, Hq. }
  eapply steps_bind; [by eapply change_role_steps|]. intros b3 Hb3.
  destruct (core_get_after _ _ _ _ _ Hb3 Hq2) as (q3 & Hq3 & _).
  eapply steps_core_eq; [by eapply change_status_steps|].
  rewrite Hb3, Hb2, Hb1, !alter_port_compose. apply alter_port_ext. intros p' Hp'.
  cbn in Hp'. rewrite od_get_map_ports, Hp in Hp'. injection Hp' as <-.
  unfold up_port. change (p_config_enable (core_p p)) with (p_config_enable p).
  by rewrite (f_equal p_config_enable Hqp : p_config_enable q = p_config_enable p).
Qed.

Lemma port_down_steps no st init b p :
  od_get no (br_ports b) = Some p → down_state st = true →
  steps (port_down now no st init) b tt (alter_port no (down_port st init) (core b)).
Proof.
  intros Hp Hst. unfold port_down. rewrite Hst.
  eapply steps_bind; [apply steps_ret|]. intros b0 Hb0.
  destruct (core_get_some no b0 _ (core_p p) Hb0) as (p0 & Hp0 & Hpp).
  { cbn. by rewrite od_get_map_ports, Hp. }
  assert (Hcb : od_get no (br_ports (core b)) = Some (core_p p)).
  { cbn. by rewrite od_get_map_ports, Hp. }
  eapply steps_get_core; [exact Hp0|]. intros b1 Hb1. rewrite Hb0 in Hb1.
  assert (He : p_config_enable p0 = p_config_enable p) by apply (f_equal p_config_enable Hpp).
  rewrite He. destruct (p_config_enable p) eqn:Hen; cbn [negb].
  - eapply (steps_bind _ _ _ tt
      (alter_port no (λ p, if init then p <| p_designated := None |> else p) (core b1))).
    { destruct init; [by apply steps_mod_port|].
      eapply steps_core_eq; [apply steps_ret|]. by rewrite alter_port_id. }
    intros b2 Hb2.
    destruct (core_get_some no b1 _ (core_p p) Hb1 Hcb) as (p1 & Hp1 & _).
    destruct (core_get_after _ _ _ _ _ Hb2 Hp1) as (p2 & Hp2 & _).
    eapply steps_bind; [by eapply change_role_steps|]. intros b3 Hb3.
    destruct (core_get_after _ _ _ _ _ Hb3 Hp2) as (p3 & Hp3 & _).
    eapply steps_core_eq; [by eapply change_status_steps|].
    rewrite Hb3, Hb2, Hb1, !alter_port_compose. apply alter_port_ext. intros p' Hp'.
    rewrite Hcb in Hp'. injection Hp' as <-.
    unfold down_port. change (p_config_enable (core_p p)) with (p_config_enable p).
    by rewrite Hen.
  - eapply steps_core_eq; [apply steps_ret|]. rewrite Hb1. symmetry.
    apply alter_port_at. intros p' Hp'. rewrite Hcb in Hp'. injection Hp' as <-.
    unfold down_port. change (p_config_enable (core_p p)) with (p_config_enable p).
    by rewrite Hen.
Qed.

(** A port that is not disabled goes down, or up. *)
Definition unless_disabled (f : port → port) (p : port) : port :=
  if is_state (p_state p) DISABLE then p else f p.

Lemma unless_disabled_off f p : is_state (p_state p) DISABLE = true → unless_disabled f p = p.
Proof. unfold unless_disabled. by intros ->. Qed.

Lemma unless_disabled_steps no f b p (m : BM ()) :
  od_get no (br_ports b) = Some p →
  (∀ b', core b' = core b → steps m b' tt (alter_port no f (core b))) →
  steps (p ← get_port no; when (negb (is_state (p_state p) DISABLE)) m) b tt
    (alter_port no (unless_disabled f) (core b)).
Proof.
  intros Hp Hm. eapply steps_get_core; [exact Hp|]. intros b1 Hb1.
  assert (Hcb : od_get no (br_ports (core b)) = Some (core_p p)).
  { cbn. by rewrite od_get_map_ports, Hp. }
  apply steps_when; intros Hd; [apply negb_true_iff in Hd|apply negb_false_iff in Hd].
  - eapply steps_core_eq; [by apply Hm|]. apply alter_port_ext. intros p' Hp'.
    rewrite Hcb in Hp'. injection Hp' as <-. unfold unless_disabled.
    change (p_state (core_p p)) with (p_state p). by rewrite Hd.
  - rewrite Hb1. apply alter_port_at. intros p' Hp'.
    rewrite Hcb in Hp'. injection Hp' as <-. unfold unless_disabled.
    change (p_state (core_p p)) with (p_state p). by rewrite Hd.
Qed.

Lemma get_in_core no b : is_Some (od_get no (br_ports (core b))) →
  ∃ p, od_get no (br_ports b) = Some p.
Proof. cbn. rewrite od_get_map_ports. destruct (od_get no (br_ports b)); [eauto|by intros []]. Qed.

Lemma alter_port_keys no f b : od_keys (br_ports (alter_port no f b)) = od_keys (br_ports b).
Proof. cbn. apply od_keys_alter. Qed.

(** Every port of a list of numbers that are keys is visited. *)
Lemma visit_ports_steps {B} (num : B → Z) (f : B → port → port) (m : B → BM ()) l b :
  (∀ x, x ∈ l → num x ∈ od_keys (br_ports b)) →
  (∀ x b' p, x ∈ l → od_get (num x) (br_ports b') = Some p →
     br_root_priority b' = br_root_priority b → br_root_times b' = br_root_times b →
     steps (m x) b' tt (alter_port (num x) (f x) (core b'))) →
  steps (for_each l (λ x, p ← get_port (num x);
                          when (negb (is_state (p_state p) DISABLE)) (m x))) b tt
    (fold_left (λ c x, alter_port (num x) (unless_disabled (f x)) c) l (core b)).
Proof.
  intros Hkeys Hm.
  apply (steps_for_each (λ c, od_keys (br_ports c) = od_keys (br_ports b) ∧
           br_root_priority c = br_root_priority b ∧ br_root_times c = br_root_times b)
           (λ x c, alter_port (num x) (unless_disabled (f x)) c)).
  { split_and!; [apply od_keys_map_ports|done|done]. }
  intros x b' Hx (Hk & Hrp & Hrt). rewrite alter_port_keys. split; [|done].
  destruct (get_in_core (num x) b') as [p Hp].
  { apply od_get_is_key. rewrite Hk. auto. }
  eapply unless_disabled_steps; [exact Hp|]. intros b'' Hb''.
  destruct (core_get_some (num x) b'' _ (core_p p) Hb'') as (q & Hq & _).
  { cbn. by rewrite od_get_map_ports, Hp. }
  rewrite <- Hb''. apply (Hm x b'' q); [done|done| |].
  - by rewrite <- Hrp, <- (f_equal br_root_priority Hb'').
  - by rewrite <- Hrt, <- (f_equal br_root_times Hb'').
Qed.
End clock_lemmas.

(** ** The choice of the root port *)

(** An enabled port that holds the information [m]. *)
Definition heard (p : port) (m : Priority) : Prop :=
  p_state p ≠ Some DISABLE ∧ fst <$> p_designated p = Some m.

Definition port_complete (p : port) : Prop :=
  ∀ m ts, p_designated p = Some (m, ts) → complete m.

(** [r] is the first of the ports with the least information, provided that the root it
    leads to precedes the bridge itself. *)
Definition best_root (own_id : Z) (ports : list port) (r : option port) : Prop :=
  match r with
  | None => ∀ q m, q ∈ ports → heard q m → own_id ≤ bid_value (pr_root_id m)
  | Some p =>
      ∃ m l1 l2, ports = l1 ++ p :: l2 ∧ heard p m ∧ bid_value (pr_root_id m) < own_id ∧
        (∀ q m', q ∈ l1 → heard q m' → lex_lt (info_vec m) (info_vec m')) ∧
        (∀ q m', q ∈ l2 → heard q m' → ¬ lex_lt (info_vec m') (info_vec m))
  end.

Lemma lex_lt_le_trans l1 l2 l3 :
  length l2 = length l3 → lex_lt l1 l2 → ¬ lex_lt l3 l2 → lex_lt l1 l3.
Proof.
  revert l2 l3. induction l1 as [|x l1 IH]; intros [|y l2] [|z l3]; cbn; try done.
  intros [= Hl] [Hxy|[-> H12]] Hn.
  - destruct (Z.lt_trichotomy z y) as [?|[->|?]]; [tauto|auto|left; lia].
  - destruct (Z.lt_trichotomy z y) as [?|[->|?]]; [tauto| |auto]. right. split; [done|].
    apply (IH l2 l3); tauto.
Qed.

Lemma heard_eq p m m' : heard p m → heard p m' → m = m'.
Proof. intros [_ H] [_ H']. congruence. Qed.

Lemma heard_complete p m : port_complete p → heard p m → complete m.
Proof.
  intros Hc [_ H]. destruct (p_designated p) as [[m' ts]|] eqn:E; [|done].
  injection H as <-. by eapply Hc.
Qed.

Lemma best_root_keep own_id ports r p :
  (∀ m, heard p m → match r with
                    | None => own_id ≤ bid_value (pr_root_id m)
                    | Some q => ∀ mq, heard q mq → ¬ lex_lt (info_vec m) (info_vec mq)
                    end) →
  best_root own_id ports r → best_root own_id (ports ++ [p]) r.
Proof.
  intros Hp. destruct r as [q|]; cbn [best_root].
  - intros (m & l1 & l2 & -> & Hq & Hr & H1 & H2).
    exists m, l1, (l2 ++ [p]). rewrite <- app_assoc. split_and!; try done.
    intros q' m' [?| ->%list_elem_of_singleton]%elem_of_app Hh; [by eapply H2|].
    by apply (Hp m' Hh m).
  - intros Hr q m [?| ->%list_elem_of_singleton]%elem_of_app Hh; [by eapply Hr|auto].
Qed.

Lemma best_root_replace own_id ports r p m :
  heard p m →
  match r with
  | None => bid_value (pr_root_id m) < own_id
  | Some q => ∃ mq, heard q mq ∧ lex_lt (info_vec m) (info_vec mq)
  end →
  best_root own_id ports r → best_root own_id (ports ++ [p]) (Some p).
Proof.
  intros Hp Hm Hr. cbn [best_root]. exists m, ports, []. split_and!; [done|done| | |by intros ? ? ?%elem_of_nil].
  - destruct r as [q|]; [|done]. destruct Hm as (mq & Hq & Hlt).
    destruct Hr as (mq' & l1 & l2 & -> & Hq' & Hlo & _).
    rewrite (heard_eq q mq mq') in Hlt by done. destruct Hlt as [?|[-> ?]]; lia.
  - intros q' m' Hin Hh. destruct r as [q|].
    + destruct Hm as (mq & Hq & Hlt).
      destruct Hr as (mq' & l1 & l2 & -> & Hq' & _ & H1 & H2).
      rewrite (heard_eq q mq mq') in Hlt by done.
      rewrite elem_of_app, elem_of_cons in Hin. destruct Hin as [?|[->|?]].
      * eapply lex_lt_trans; [exact Hlt|]. by eapply H1.
      * by rewrite (heard_eq q m' mq').
      * apply (lex_lt_le_trans _ (info_vec mq')); [done|done|]. by eapply H2.
    + cbn [best_root] in *. left. specialize (Hr q' m' Hin Hh). lia.
Qed.

Definition own_priority (id : BridgeId) : Priority := mkPriority id 0 None None.

(** The message the loop compares with. *)
Lemma root_msg_spec own_id pre id r :
  best_root own_id pre r →
  ∃ root_msg,
    match r with None => Ret (own_priority id) | Some r0 => attr (p_designated r0) fst end
      = Ret root_msg ∧
    match r with None => root_msg = own_priority id | Some q => heard q root_msg end.
Proof.
  intros Hb. destruct r as [q|]; [|by eexists]. destruct Hb as (m & l1 & l2 & _ & Hq & _).
  exists m. split; [|done]. destruct Hq as [_ Hq]. destruct (p_designated q); [|done].
  cbn in *. congruence.
Qed.

(** The comparison of the loop: the better of two complete messages. *)
Definition compare_root_msg (root_msg port_msg : Priority) : outcome pyexn cmp_result :=
  let root_id := bid_value (pr_root_id root_msg) in
  let port_root_id := bid_value (pr_root_id port_msg) in
  if port_root_id <? root_id then Ret SUPERIOR
  else if root_id =? port_root_id then
    match pr_designated_bridge_id root_msg with
    | None => Ret INFERIOR
    | Some root_dbid =>
        pb ← attr (pr_designated_bridge_id port_msg) bid_value;
        pp ← attr (pr_designated_port_id port_msg) pid_value;
        rp ← attr (pr_designated_port_id root_msg) pid_value;
        Ret (compare_root_path (pr_root_path_cost port_msg)
               (pr_root_path_cost root_msg) pb (bid_value root_dbid) pp rp)
    end
  else Ret INFERIOR.

Lemma compare_root_msg_spec root_msg m :
  complete root_msg → complete m →
  ∃ res, compare_root_msg root_msg m = Ret res ∧
         (res = SUPERIOR → lex_lt (info_vec m) (info_vec root_msg)) ∧
         (res ≠ SUPERIOR → ¬ lex_lt (info_vec m) (info_vec root_msg)).
Proof.
  intros Hr Hm.
  destruct (complete_elim root_msg Hr) as (rr & rc & rb & rp & ->).
  destruct (complete_elim m Hm) as (mr & mc & mb & mp & ->).
  unfold compare_root_msg, info_vec, path_vec. cbn -[lex_lt].
  destruct (Z.ltb_spec (bid_value mr) (bid_value rr)).
  { exists SUPERIOR. split; [done|]. split; [by left|done]. }
  destruct (Z.eqb_spec (bid_value rr) (bid_value mr)) as [He|Hne]; cbn -[lex_lt].
  - pose proof (compare_root_path_cases mc rc (bid_value mb) (bid_value rb)
                  (pid_value mp) (pid_value rp)) as Hcmp.
    eexists. split; [done|].
    destruct (compare_root_path _ _ _ _ _ _); split; try done.
    + intros _. by right.
    + intros _. injection Hcmp as ? ? ?. cbn. lia.
    + intros _. cbn in *. lia.
  - exists INFERIOR. split; [done|]. split; [done|]. intros _. cbn. lia.
Qed.

Lemma compare_own_msg id m :
  ∃ res, compare_root_msg (own_priority id) m = Ret res ∧
         (res = SUPERIOR → bid_value (pr_root_id m) < bid_value id) ∧
         (res ≠ SUPERIOR → bid_value id ≤ bid_value (pr_root_id m)).
Proof.
  unfold compare_root_msg. cbn.
  destruct (Z.ltb_spec (bid_value (pr_root_id m)) (bid_value id)).
  { by exists SUPERIOR. }
  destruct (_ =? _); exists INFERIOR; split_and!; try done; intros; lia.
Qed.

Lemma select_root_port_from_best id ports r pre :
  (∀ p, p ∈ ports → port_complete p) → (∀ p, r = Some p → port_complete p) →
  best_root (bid_value id) pre r →
  ∃ r', select_root_port_from (own_priority id) r ports = Ret r' ∧
        best_root (bid_value id) (pre ++ ports) r'.
Proof.
  revert r pre. induction ports as [|p ports IH]; intros r pre Hc Hr Hb; cbn.
  { exists r. by rewrite app_nil_r. }
  destruct (root_msg_spec _ _ id _ Hb) as (root_msg & -> & Hroot). cbn [mbind outcome_bind].
  replace (pre ++ p :: ports) with ((pre ++ [p]) ++ ports) by (by rewrite <- app_assoc).
  assert (Hcp : port_complete p) by (apply Hc; set_solver).
  assert (Hc' : ∀ q, q ∈ ports → port_complete q) by (intros; apply Hc; set_solver).
  destruct (p_designated p) as [[m ts]|] eqn:Hd.
  2: { apply IH; [done|done|]. apply best_root_keep; [|done]. intros m [_ Hm].
       by rewrite Hd in Hm. }
  destruct (is_state (p_state p) DISABLE) eqn:Hs.
  { apply bool_decide_eq_true in Hs.
    apply IH; [done|done|]. apply best_root_keep; [|done]. by intros m' [? _]. }
  apply bool_decide_eq_false in Hs.
  assert (Hh : heard p m) by (split; [done|by rewrite Hd]).
  change (if bid_value (pr_root_id m) <? bid_value (pr_root_id root_msg) then _ else _)
    with (compare_root_msg root_msg m).
  assert (Hcmp : ∃ res, compare_root_msg root_msg m = Ret res ∧
    (res = SUPERIOR → best_root (bid_value id) (pre ++ [p]) (Some p)) ∧
    (res ≠ SUPERIOR → best_root (bid_value id) (pre ++ [p]) r)).
  { destruct r as [q|].
    - destruct (compare_root_msg_spec root_msg m) as (res & -> & H1 & H2).
      { by apply (heard_complete q); [apply Hr|]. }
      { by eapply Hcp. }
      exists res. split_and!; [done| |].
      + intros Hres. eapply (best_root_replace _ _ (Some q)); [exact Hh| |exact Hb]. eauto.
      + intros Hres. apply best_root_keep; [|done]. intros m' Hh' mq Hq.
        rewrite (heard_eq p m' m), (heard_eq q mq root_msg) by done. auto.
    - subst root_msg. destruct (compare_own_msg id m) as (res & -> & H1 & H2).
      exists res. split_and!; [done| |].
      + intros Hres. eapply (best_root_replace _ _ None); [exact Hh|auto|exact Hb].
      + intros Hres. apply best_root_keep; [|done]. intros m' Hh'.
        rewrite (heard_eq p m' m) by done. auto. }
  destruct Hcmp as (res & -> & H1 & H2). cbn [mbind outcome_bind].
  destruct res; apply IH; auto. by intros ? [= <-].
Qed.

(** [_select_root_port] chooses, among the enabled ports that hold information whose
    root precedes the bridge itself, the first one whose information is the least in
    the order root identifier, root path cost, sending bridge, sending port; it chooses
    none exactly when the bridge itself should be the root.  It never raises. *)
Theorem select_root_port_best (b : bridge) :
  (∀ p, p ∈ od_values (br_ports b) → port_complete p) →
  br_root_priority b = own_priority (br_bridge_id b) →
  ∃ r, select_root_port b = Ret r ∧
       best_root (bid_value (br_bridge_id b)) (od_values (br_ports b)) r.
Proof.
  intros Hc Hown. unfold select_root_port. rewrite Hown.
  apply (select_root_port_from_best _ _ None []); [done|done|].
  intros q m Hq. by apply elem_of_nil in Hq.
Qed.

(** ** Designated ports *)

(** The bridge offers the link of port [p] a better path to the root than the bridge
    that was heard on it. *)
Definition nearer_here (own : BridgeId) (root_msg : Priority) (p : port) : Prop :=
  match p_designated p with
  | None => True
  | Some (m, _) =>
      bid_value (pr_root_id m) ≠ bid_value (pr_root_id root_msg) ∨
      lex_lt [pr_root_path_cost root_msg; bid_value own; pid_value (p_port_id p)]
        [pr_root_path_cost m - p_path_cost p;
         default 0 (bid_value <$> pr_designated_bridge_id m);
         default 0 (pid_value <$> pr_designated_port_id m)]
  end.

Lemma designated_here_spec own root_msg p :
  port_complete p →
  ∃ d, designated_here own root_msg p = Ret d ∧ (d = true ↔ nearer_here own root_msg p).
Proof.
  intros Hc. unfold designated_here, nearer_here.
  destruct (p_designated p) as [[m ts]|] eqn:Hd; [|by eexists].
  destruct (complete_elim m (Hc m ts Hd)) as (mr & mc & mb & mp & ->). cbn -[lex_lt].
  destruct (Z.eqb_spec (bid_value mr) (bid_value (pr_root_id root_msg))); cbn -[lex_lt];
    [|eexists; split; [done|tauto]].
  eexists; split; [done|]. rewrite bool_decide_eq_true.
  pose proof (compare_root_path_cases (pr_root_path_cost root_msg) (mc - p_path_cost p)
    (bid_value own) (bid_value mb) (pid_value (p_port_id p)) (pid_value mp)) as Hcmp.
  destruct (compare_root_path _ _ _ _ _ _).
  - split; auto.
  - split; [done|]. intros [?|H]; [done|]. rewrite Hcmp in H. by apply lex_lt_irrefl in H.
  - split; [done|]. intros [?|H]; [done|]. exfalso.
    by eapply lex_lt_irrefl, lex_lt_trans.
Qed.

Definition role_of (own : BridgeId) (r : option port) (p : port) : port_role :=
  match r with
  | None => DESIGNATED_PORT
  | Some q =>
      if of_port_no (p_ofport p) =? of_port_no (p_ofport q) then ROOT_PORT
      else match p_designated q with
           | Some (m, _) => match designated_here own m p with
                            | Ret true => DESIGNATED_PORT
                            | _ => NON_DESIGNATED_PORT
                            end
           | None => NON_DESIGNATED_PORT
           end
  end.

Lemma select_designated_port_spec own root_no root_msg ports :
  (∀ p, p ∈ ports → port_complete p) →
  ∃ ds, select_designated_port own root_no root_msg ports = Ret ds ∧
    ∀ n, n ∈ ds ↔ ∃ p, p ∈ ports ∧ of_port_no (p_ofport p) = n ∧ n ≠ root_no ∧
                       p_state p ≠ Some DISABLE ∧ designated_here own root_msg p = Ret true.
Proof.
  induction ports as [|p ports IH]; intros Hc; cbn.
  { exists []. split; [done|]. intros n. split; [by intros ?%elem_of_nil|].
    by intros (? & ?%elem_of_nil & _). }
  destruct IH as (ds & Hds & Hn); [intros; apply Hc; set_solver|].
  destruct (designated_here_spec own root_msg p) as (d & Hd & _); [apply Hc; set_solver|].
  assert (Hcons : ∀ n, (∃ p', p' ∈ p :: ports ∧ of_port_no (p_ofport p') = n ∧ n ≠ root_no ∧
                        p_state p' ≠ Some DISABLE ∧ designated_here own root_msg p' = Ret true)
    ↔ (of_port_no (p_ofport p) = n ∧ n ≠ root_no ∧ p_state p ≠ Some DISABLE ∧ d = true)
      ∨ n ∈ ds).
  { intros n. rewrite Hn. split.
    - intros (p' & [->|Hin]%elem_of_cons & H1 & H2 & H3 & H4).
      + left. rewrite Hd in H4. split_and!; congruence.
      + right. by exists p'.
    - intros [(H1 & H2 & H3 & ->)|(p' & Hin & ?)].
      + exists p. split; [by left|]. done.
      + exists p'. split; [by right|done]. }
  destruct (is_state (p_state p) DISABLE) eqn:Hs; cbn [orb].
  { apply bool_decide_eq_true in Hs.
    exists ds. split; [done|]. intros n. rewrite Hcons. tauto. }
  apply bool_decide_eq_false in Hs.
  destruct (Z.eqb_spec (of_port_no (p_ofport p)) root_no) as [He|Hne].
  { exists ds. split; [done|]. intros n. rewrite Hcons. split; [auto|].
    intros [(? & ? & _)|?]; [congruence|done]. }
  rewrite Hd. cbn [mbind outcome_bind]. rewrite Hds. cbn [mbind outcome_bind].
  exists (if d then of_port_no (p_ofport p) :: ds else ds). split; [done|].
  intros n. rewrite Hcons. destruct d; [rewrite elem_of_cons|]; intuition congruence.
Qed.

Lemma od_get_fold_set {V} (v : V) ns (d : odict Z V) n :
  od_get n (fold_left (λ d no, od_set no v d) ns d) =
    if decide (n ∈ ns) then Some v else od_get n d.
Proof.
  revert d. induction ns as [|no ns IH]; intros d; cbn [fold_left].
  { by rewrite decide_False by set_solver. }
  rewrite IH, od_get_set.
  destruct (decide (n ∈ ns)); [by rewrite decide_True by set_solver|].
  destruct (decide (n = no)); [by rewrite decide_True by set_solver|].
  by rewrite decide_False by set_solver.
Qed.

Lemma od_ok_fold {V B} (f : odict Z V → B → odict Z V) (l : list B) d :
  (∀ d x, od_ok d → od_ok (f d x)) → od_ok d → od_ok (fold_left f l d).
Proof. intros Hf. revert d. induction l; cbn; auto. Qed.

Lemma od_get_other_roles ports roles n :
  od_get n (other_roles ports roles) =
    match od_get n roles with
    | Some ro => Some ro
    | None => if existsb (λ p, negb (is_state (p_state p) DISABLE)
                               && (of_port_no (p_ofport p) =? n)) ports
              then Some NON_DESIGNATED_PORT else None
    end.
Proof.
  unfold other_roles. revert roles. induction ports as [|p ports IH]; intros roles; cbn.
  { by destruct (od_get n roles). }
  rewrite IH. destruct (is_state (p_state p) DISABLE); cbn; [done|].
  rewrite od_get_setdefault.
  destruct (Z.eqb_spec (of_port_no (p_ofport p)) n) as [->|Hne]; cbn.
  - rewrite decide_True by done. by destruct (od_get n roles).
  - by rewrite decide_False by done.
Qed.

Definition ports_ok (d : odict Z port) : Prop :=
  od_ok d ∧ ∀ k p, (k, p) ∈ d → of_port_no (p_ofport p) = k ∧ port_complete p.

Lemma ports_ok_value d p :
  ports_ok d → p ∈ od_values d → od_get (of_port_no (p_ofport p)) d = Some p ∧ port_complete p.
Proof.
  intros [Hd Hp] Hin. apply list_elem_of_fmap in Hin as ([k p'] & -> & Hin). cbn.
  destruct (Hp _ _ Hin) as [-> ?]. split; [by apply od_elem_get|done].
Qed.

Lemma ports_ok_get d n p :
  ports_ok d → od_get n d = Some p →
  of_port_no (p_ofport p) = n ∧ port_complete p ∧ p ∈ od_values d.
Proof.
  intros [Hd Hp] Hg. apply od_get_elem in Hg.
  destruct (Hp _ _ Hg). split_and!; [done|done|].
  apply list_elem_of_fmap. by exists (n, p).
Qed.

Lemma existsb_enabled d n :
  ports_ok d →
  existsb (λ p, negb (is_state (p_state p) DISABLE) && (of_port_no (p_ofport p) =? n))
    (od_values d) =
  match od_get n d with Some p => negb (is_state (p_state p) DISABLE) | None => false end.
Proof.
  intros Hd. apply eq_bool_prop_intro. rewrite !Is_true_true, existsb_exists. split.
  - intros (p & Hin%list_elem_of_In & [Hs <-%Z.eqb_eq]%andb_true_iff).
    by destruct (ports_ok_value d p Hd Hin) as [-> _].
  - destruct (od_get n d) as [p|] eqn:Hp; [|done]. intros Hs.
    destruct (ports_ok_get d n p Hd Hp) as (<- & _ & Hin).
    exists p. split; [by apply list_elem_of_In|]. by rewrite Hs, Z.eqb_refl.
Qed.

Definition role_at (own : BridgeId) (r : option port) (d : odict Z port) (n : Z)
  : option port_role :=
  match od_get n d with
  | Some p => if is_state (p_state p) DISABLE then None else Some (role_of own r p)
  | None => None
  end.

Lemma root_roles_spec own d :
  od_ok d →
  let roles := (λ kp : Z * port, (kp.1, DESIGNATED_PORT)) <$>
                 filter (λ kp, is_state (p_state kp.2) DISABLE = false) d in
  od_ok roles ∧ ∀ n, od_get n roles = role_at own None d n.
Proof.
  unfold role_at, od_ok, od_keys.
  induction d as [|[k p] d IH]; [split; [apply NoDup_nil_2|done]|].
  rewrite fmap_cons, NoDup_cons. intros [Hk Hd]. destruct (IH Hd) as [IHd IHn].
  cbn [fst] in Hk. cbn zeta in *. rewrite filter_cons. cbn [fst snd od_get].
  destruct (is_state (p_state p) DISABLE) eqn:Hs;
    [rewrite decide_False by done|rewrite decide_True by done].
  - split; [done|]. intros n. rewrite IHn. case_decide as Hn; [|done]. subst.
    destruct (od_get k d) as [p'|] eqn:Hp; [|by rewrite Hs].
    destruct Hk. apply (od_get_is_key k d). eauto.
  - split.
    + rewrite fmap_cons. apply NoDup_cons. split; [|done]. intros Hin. apply Hk.
      apply (od_get_is_key k (_ <$> _)) in Hin. rewrite IHn in Hin.
      apply (od_get_is_key k d). destruct (od_get k d); [done|by destruct Hin].
    + intros n. rewrite fmap_cons. cbn [fst od_get]. rewrite IHn.
      case_decide; [by rewrite Hs|done].
Qed.

Lemma spanning_tree_algorithm_spec b :
  ports_ok (br_ports b) → br_root_priority b = own_priority (br_bridge_id b) →
  ∃ r roles rp rt,
    best_root (bid_value (br_bridge_id b)) (od_values (br_ports b)) r ∧
    spanning_tree_algorithm b = Ret (roles, rp, rt) ∧
    od_ok roles ∧ (∀ n, od_get n roles = role_at (br_bridge_id b) r (br_ports b) n) ∧
    match r with
    | None => rp = br_root_priority b ∧ rt = br_root_times b
    | Some q => p_designated q = Some (rp, rt)
    end.
Proof.
  intros Hd Hown. unfold spanning_tree_algorithm, select_root_port. rewrite Hown.
  assert (Hc : ∀ p, p ∈ od_values (br_ports b) → port_complete p).
  { intros p Hp. by apply (ports_ok_value _ p Hd). }
  destruct (select_root_port_from_best (br_bridge_id b) (od_values (br_ports b)) None [])
    as (r & -> & Hbest); [done|done|by intros ? ? ?%elem_of_nil|].
  cbn [mbind outcome_bind]. exists r. destruct r as [q|].
  2: { destruct (root_roles_spec (br_bridge_id b) (br_ports b) (proj1 Hd)).
       eexists _, _, _. split_and!; done. }
  destruct Hbest as (m & l1 & l2 & Hl & [Hqs Hqd] & Hlt & H1 & H2).
  destruct (p_designated q) as [[m' ts]|] eqn:Hq; [|done]. injection Hqd as ->.
  assert (Hqin : q ∈ od_values (br_ports b)).
  { rewrite app_nil_l in Hl. rewrite Hl. set_solver. }
  destruct (ports_ok_value _ q Hd Hqin) as [Hqget _].
  cbn [attr fst snd mbind outcome_bind].
  destruct (select_designated_port_spec (br_bridge_id b) (of_port_no (p_ofport q)) m
              (od_values (br_ports b)) Hc) as (ds & -> & Hds).
  cbn [mbind outcome_bind].
  eexists _, _, _. split_and!; [|done| | |done].
  - exists m, l1, l2. rewrite app_nil_l in Hl. split_and!; try done. by split; [|rewrite Hq].
  - unfold other_roles. apply od_ok_fold.
    { intros d x Hdx. destruct (is_state _ _); auto with odict. }
    apply od_ok_fold; [auto with odict|]. apply NoDup_singleton.
  - intros n. rewrite od_get_other_roles, od_get_fold_set, existsb_enabled by done.
    unfold role_at.
    destruct (decide (n ∈ ds)) as [Hin|Hnin].
    { apply Hds in Hin as (p & Hin & <- & Hne & Hs & Hdes).
      destruct (ports_ok_value _ p Hd Hin) as [-> _].
      unfold is_state. rewrite bool_decide_eq_false_2 by done.
      unfold role_of. apply Z.eqb_neq in Hne. by rewrite Hne, Hq, Hdes. }
    cbn. destruct (decide (n = of_port_no (p_ofport q))) as [->|Hne].
    { rewrite Hqget. unfold is_state. rewrite bool_decide_eq_false_2 by done.
      unfold role_of. by rewrite Z.eqb_refl. }
    destruct (od_get n (br_ports b)) as [p|] eqn:Hp; [|done].
    destruct (ports_ok_get _ _ _ Hd Hp) as (Hno & Hcp & Hin).
    destruct (is_state (p_state p) DISABLE) eqn:Hs; [done|]. cbn.
    apply bool_decide_eq_false in Hs. unfold role_of. rewrite Hno.
    apply Z.eqb_neq in Hne as Hne'. rewrite Hne', Hq.
    destruct (designated_here_spec (br_bridge_id b) m p Hcp) as (dd & Hdd & _).
    rewrite Hdd. destruct dd; [|done]. destruct Hnin. apply Hds. by exists p.
Qed.

(** ** The invariant of a bridge *)

(** [state] is what the port's state and role must satisfy: disabled ports are
    designated, a port that does not belong to the tree never forwards, BPDUs are sent
    in the states of an active port only, a port waits for BPDUs only as root port or
    non-designated port, and the state machine has a timer only in the two transient
    states. *)
Record port_inv (id : BridgeId) (no : Z) (p : port) : Prop := {
  pi_no : of_port_no (p_ofport p) = no;
  pi_max : no ≤ MAX_PORT_NO;
  pi_complete : port_complete p;
  pi_bridge_id : p_bridge_id p = id;
  pi_enable : p_config_enable p = false → p_state p = Some DISABLE;
  pi_state : is_Some (p_state p);
  pi_role : is_Some (p_role p);
  pi_forward : p_state p = Some FORWARD → p_role p ≠ Some NON_DESIGNATED_PORT;
  pi_disabled : p_state p = Some DISABLE → p_role p = Some DESIGNATED_PORT;
  pi_sending : p_send_bpdu_thread p = true →
    ∃ st, p_state p = Some st ∧ down_state st = false;
  pi_waiting : is_Some (p_wait_bpdu_thread p) → p_role p ≠ Some DESIGNATED_PORT;
  pi_machine : p_state_machine p = true;
  pi_timer : is_Some (p_state_timer p) → p_state p = Some LISTEN ∨ p_state p = Some LEARN;
}.

Definition one_root (d : odict Z port) : Prop :=
  ∀ k1 p1 k2 p2, od_get k1 d = Some p1 → od_get k2 d = Some p2 →
    p_role p1 = Some ROOT_PORT → p_role p2 = Some ROOT_PORT → k1 = k2.

Record bridge_inv (b : bridge) : Prop := {
  bi_ok : od_ok (br_ports b);
  bi_ports : ∀ no p, od_get no (br_ports b) = Some p → port_inv (br_bridge_id b) no p;
  bi_root : one_root (br_ports b);
  bi_state_keys : od_keys (br_ports_state b) = od_keys (br_ports b);
}.

Lemma port_inv_core id no p : port_inv id no (core_p p) ↔ port_inv id no p.
Proof. split; intros []; constructor; auto. Qed.

Lemma get_core no b :
  od_get no (br_ports (core b)) = core_p <$> od_get no (br_ports b).
Proof. apply od_get_map_ports. Qed.

Lemma bridge_inv_core b : bridge_inv (core b) ↔ bridge_inv b.
Proof.
  assert (Hk : od_keys (br_ports (core b)) = od_keys (br_ports b)).
  { apply od_keys_map_ports. }
  split; intros [Hok Hp Hr Hs]; constructor.
  - unfold od_ok in *. by rewrite <- Hk.
  - intros no p Hg. apply port_inv_core. apply (Hp no). by rewrite get_core, Hg.
  - intros k1 p1 k2 p2 H1 H2. apply (Hr k1 (core_p p1) k2 (core_p p2)).
    + by rewrite get_core, H1.
    + by rewrite get_core, H2.
  - by rewrite <- Hk.
  - unfold od_ok in *. by rewrite Hk.
  - intros no p. rewrite get_core. destruct (od_get no (br_ports b)) eqn:Hg; [|done].
    intros [= <-]. apply port_inv_core. by apply Hp.
  - intros k1 p1 k2 p2. rewrite !get_core.
    destruct (od_get k1 (br_ports b)) eqn:H1, (od_get k2 (br_ports b)) eqn:H2; try done.
    intros [= <-] [= <-]. exact (Hr k1 _ k2 _ H1 H2).
  - by rewrite Hk.
Qed.

Lemma is_state_true o st : is_state o st = true ↔ o = Some st.
Proof. apply bool_decide_eq_true. Qed.
Lemma is_state_false o st : is_state o st = false ↔ o ≠ Some st.
Proof. apply bool_decide_eq_false. Qed.
Lemma is_role_true o ro : is_role o ro = true ↔ o = Some ro.
Proof. apply bool_decide_eq_true. Qed.

(** The effect of the port operations, field by field. *)
Lemma status_port_spec st p :
  let q := status_port st p in
  p_state q = Some st ∧ p_role q = p_role p ∧ p_ofport q = p_ofport p ∧
  p_config_enable q = p_config_enable p ∧ p_bridge_id q = p_bridge_id p ∧
  p_designated q = p_designated p ∧ p_wait_bpdu_thread q = p_wait_bpdu_thread p ∧
  p_state_machine q = p_state_machine p ∧ p_port_priority q = p_port_priority p ∧
  p_port_times q = p_port_times p ∧ p_port_id q = p_port_id p ∧
  p_path_cost q = p_path_cost p ∧
  (p_send_bpdu_thread q = true → down_state st = false) ∧
  (p_state_machine p = true → is_Some (p_state_timer q) → st = LISTEN ∨ st = LEARN).
Proof.
  unfold status_port, sm_wake, sm_sleep, sending_after.
  destruct p as [? ? ? ? ? ? ? ? ? ? ? ? ? ? ? sm ?]; destruct sm, st; cbn;
    split_and!; try done; try tauto; intros ? [? ?]; done.
Qed.

Lemma role_port_spec ro p :
  let q := role_port ro p in
  p_role q = Some ro ∧ p_state q = p_state p ∧ p_ofport q = p_ofport p ∧
  p_config_enable q = p_config_enable p ∧ p_bridge_id q = p_bridge_id p ∧
  p_designated q = p_designated p ∧ p_state_machine q = p_state_machine p ∧
  p_port_priority q = p_port_priority p ∧ p_port_times q = p_port_times p ∧
  p_port_id q = p_port_id p ∧ p_path_cost q = p_path_cost p ∧
  ((is_Some (p_wait_bpdu_thread p) → p_role p ≠ Some DESIGNATED_PORT) →
   is_Some (p_wait_bpdu_thread q) → ro ≠ DESIGNATED_PORT).
Proof.
  unfold role_port. destruct (is_role (p_role p) ro) eqn:Hr; cbn.
  - apply is_role_true in Hr. split_and!; try done. intros Hw Hq ->. by apply Hw.
  - split_and!; try done. intros _ Hq ->. by destruct Hq.
Qed.

Lemma up_port_inv id no ro rp rt p :
  port_inv id no p → (p_config_enable p = true ∨ ro = DESIGNATED_PORT) →
  let q := up_port ro rp rt p in
  port_inv id no q ∧ p_role q = Some ro ∧ p_port_priority q = rp ∧ p_port_times q = rt ∧
  p_state q = Some (if p_config_enable p then LISTEN else DISABLE) ∧
  p_ofport q = p_ofport p ∧ p_config_enable q = p_config_enable p ∧
  p_designated q = p_designated p ∧ p_port_id q = p_port_id p ∧ p_path_cost q = p_path_cost p.
Proof.
  intros [? ? Hc ? He ? ? ? ? ? Hw Hm ?] Hro. unfold up_port. cbn zeta.
  set (p0 := p <| p_port_priority := rp |> <| p_port_times := rt |>).
  destruct (role_port_spec ro p0) as (r1 & r2 & r3 & r4 & r5 & r6 & r7 & r8 & r9 & r10 & r11 & r12).
  destruct (status_port_spec (if p_config_enable p then LISTEN else DISABLE) (role_port ro p0))
    as (s1 & s2 & s3 & s4 & s5 & s6 & s7 & s8 & s9 & s10 & s11 & s12 & s13 & s14).
  rewrite s1, s2, s3, s4, s6, s9, s10, s11, s12, r1, r3, r4, r6, r8, r9, r10, r11.
  split; [|done].
  constructor; rewrite ?s1, ?s2, ?s3, ?s4, ?s5, ?s7, ?s8, ?r1, ?r2, ?r3, ?r4, ?r5, ?r7; try done.
  - intros m ts. rewrite s6, r6. apply Hc.
  - intros Hf. change (p_config_enable p = false) in Hf. by rewrite Hf.
  - by destruct (p_config_enable p).
  - destruct (p_config_enable p); [done|]. by destruct Hro as [| ->].
  - intros Hs. eexists. split; [done|auto].
  - intros Hq [= ->]. by apply r12.
  - intros Ht. destruct s14 as [->| ->]; auto. by rewrite r7.
Qed.

Lemma down_port_inv id no st init p :
  port_inv id no p → down_state st = true →
  let q := down_port st init p in
  port_inv id no q ∧ p_role q = Some DESIGNATED_PORT ∧
  p_state q = Some (if p_config_enable p then st else DISABLE) ∧
  p_ofport q = p_ofport p ∧ p_config_enable q = p_config_enable p ∧
  (init = false → p_designated q = p_designated p) ∧
  (p_config_enable p = true → init = true → p_designated q = None) ∧
  p_port_id q = p_port_id p ∧ p_path_cost q = p_path_cost p.
Proof.
  intros Hp Hst. pose proof Hp as [? ? Hc ? He ? ? ? Hd ? Hw Hm ?]. unfold down_port. cbn zeta.
  destruct (p_config_enable p) eqn:Hen.
  2: { specialize (He eq_refl). rewrite He, (Hd He), Hen. done. }
  set (p0 := if init then p <| p_designated := None |> else p).
  assert (Hp0 : p_state p0 = p_state p ∧ p_role p0 = p_role p ∧ p_ofport p0 = p_ofport p ∧
    p_config_enable p0 = true ∧ p_bridge_id p0 = p_bridge_id p ∧
    p_state_machine p0 = p_state_machine p ∧ p_port_id p0 = p_port_id p ∧
    p_path_cost p0 = p_path_cost p ∧ p_wait_bpdu_thread p0 = p_wait_bpdu_thread p ∧
    port_complete p0 ∧ (init = false → p_designated p0 = p_designated p) ∧
    (init = true → p_designated p0 = None)).
  { unfold p0. destruct init; split_and!; try done. }
  clearbody p0.
  destruct Hp0 as (q1 & q2 & q3 & q4 & q5 & q6 & q7 & q8 & q9 & q10 & q11 & q12).
  destruct (role_port_spec DESIGNATED_PORT p0)
    as (r1 & r2 & r3 & r4 & r5 & r6 & r7 & r8 & r9 & r10 & r11 & r12).
  destruct (status_port_spec st (role_port DESIGNATED_PORT p0))
    as (s1 & s2 & s3 & s4 & s5 & s6 & s7 & s8 & s9 & s10 & s11 & s12 & s13 & s14).
  rewrite s1, s2, s3, s4, s6, s11, s12, r1, r3, r4, r6, r10, r11, q3, q4, q7, q8.
  split; [|split_and!; auto].
  constructor; rewrite ?s1, ?s2, ?s3, ?s4, ?s5, ?s7, ?s8, ?r1, ?r2, ?r3, ?r4, ?r5, ?r7,
    ?q3, ?q4, ?q5, ?q6; try done.
  - intros m ts. rewrite s6, r6. apply q10.
  - intros Hs. eexists. split; [done|auto].
  - intros Hq _. rewrite q2, q9 in r12. by apply r12.
  - intros Ht. destruct s14 as [->| ->]; auto. by rewrite r7, q6.
Qed.

(** ** Recalculation *)

Lemma fold_alter_ports {B} (num : B → Z) (f : B → port → port) l c :
  fold_left (λ c x, alter_port (num x) (f x) c) l c =
  c <| br_ports ::= λ d, fold_left (λ d x, od_alter (f x) (num x) d) l d |>.
Proof.
  revert c. induction l as [|x l IH]; intros c; cbn [fold_left]; [by destruct c|].
  rewrite IH. by destruct c.
Qed.

Lemma fold_alter_head (f : port → port) ks k p (d : odict Z port) :
  k ∉ ks →
  fold_left (λ d x, od_alter f x d) ks ((k, p) :: d) =
  (k, p) :: fold_left (λ d x, od_alter f x d) ks d.
Proof.
  revert d. induction ks as [|k' ks IH]; intros d Hk; cbn [fold_left]; [done|].
  cbn [od_alter]. rewrite decide_False by set_solver. apply IH. set_solver.
Qed.

Lemma fold_alter_keys (f : port → port) d :
  od_ok d → fold_left (λ d x, od_alter f x d) (od_keys d) d = map_ports f d.
Proof.
  unfold od_ok, od_keys. induction d as [|[k p] d IH]; [done|].
  rewrite !fmap_cons, NoDup_cons. intros [Hk Hd]. cbn [fold_left fst od_alter].
  rewrite decide_True, fold_alter_head by done.
  unfold map_ports. rewrite fmap_cons. f_equal. by apply IH.
Qed.

Lemma fold_alter_get {R} (f : R → port → port) roles n (d : odict Z port) :
  od_ok roles →
  od_get n (fold_left (λ d (x : Z * R), od_alter (f x.2) x.1 d) roles d) =
  match od_get n roles with Some ro => f ro <$> od_get n d | None => od_get n d end.
Proof.
  unfold od_ok, od_keys. revert d.
  induction roles as [|[k ro] roles IH]; intros d; [done|].
  rewrite fmap_cons, NoDup_cons. intros [Hk Hd]. cbn [fold_left fst snd od_get].
  rewrite IH, od_get_alter by done.
  destruct (decide (n = k)) as [->|Hne]; [|done].
  destruct (od_get k roles) eqn:E; [|done]. destruct Hk. apply (od_get_is_key k roles). eauto.
Qed.

Lemma fold_alter_get_key {R} (f : R → port → port) (roles : odict Z R) (d : odict Z port) :
  od_keys (fold_left (λ d (x : Z * R), od_alter (f x.2) x.1 d) roles d) = od_keys d.
Proof.
  revert d. induction roles as [|x roles IH]; intros d; cbn [fold_left]; [done|].
  by rewrite IH, od_keys_alter.
Qed.

Section recalculate.
Context (now : Z).

Lemma ports_down_steps init b :
  od_ok (br_ports b) →
  steps (ports_down now init) b tt
    (core b <| br_ports ::= map_ports (unless_disabled (down_port BLOCK init)) |>).
Proof.
  intros Hok. unfold ports_down. eapply steps_bind; [apply steps_gets|]. intros b1 Hb1.
  rewrite <- Hb1.
  assert (Hk : od_keys (br_ports (core b1)) = od_keys (br_ports b)).
  { rewrite Hb1. apply od_keys_map_ports. }
  eapply steps_core_eq.
  - apply (visit_ports_steps id (λ _, down_port BLOCK init)
             (λ no, port_down now no BLOCK init)).
    + intros no Hin. rewrite <- (od_keys_map_ports core_p).
      change (map_ports core_p (br_ports b1)) with (br_ports (core b1)). by rewrite Hk.
    + intros no b' p _ Hp _ _. by eapply port_down_steps.
  - rewrite fold_alter_ports. unfold set_field, setter_fun. cbn. f_equal.
    change (map_ports core_p (br_ports b1)) with (br_ports (core b1)).
    rewrite <- Hk. apply (fold_alter_keys (unless_disabled (down_port BLOCK init))).
    unfold od_ok in *. by rewrite Hk.
Qed.

Lemma ports_up_steps (roles : odict Z port_role) b :
  (∀ no, no ∈ od_keys roles → no ∈ od_keys (br_ports b)) →
  steps (ports_up now roles) b tt
    (core b <| br_ports ::= λ d, fold_left (λ d x, od_alter
       (unless_disabled (up_port x.2 (br_root_priority b) (br_root_times b))) x.1 d) roles d |>).
Proof.
  intros Hin. unfold ports_up. rewrite <- (fold_alter_ports fst (λ x, unless_disabled
    (up_port x.2 (br_root_priority b) (br_root_times b)))).
  apply (visit_ports_steps fst
           (λ x, up_port x.2 (br_root_priority b) (br_root_times b))
           (λ nr, b ← get_st; port_up now nr.1 nr.2 (br_root_priority b) (br_root_times b))).
  - intros [no ro] Hx. apply Hin. apply list_elem_of_fmap. by exists (no, ro).
  - intros x b' p _ Hp Hrp Hrt.
    apply (steps_bind _ _ _ b' (core b')); [done|]. intros b'' Hb''. rewrite <- Hb'', Hrp, Hrt.
    destruct (core_get_some x.1 b'' _ (core_p p) Hb'') as (q & Hq & _).
    { by rewrite get_core, Hp. }
    by eapply port_up_steps.
Qed.

(** The bridge without the root information, the ports and what does not change. *)
Definition same_frame (b c : bridge) : Prop :=
  br_dpid c = br_dpid b ∧ br_ofproto c = br_ofproto b ∧ br_bridge_id c = br_bridge_id b ∧
  br_bridge_times c = br_bridge_times b ∧ br_ports_state c = br_ports_state b ∧
  br_ports_conf c = br_ports_conf b ∧ br_port_defaults c = br_port_defaults b ∧
  od_keys (br_ports c) = od_keys (br_ports b).

Definition downed (init : bool) (b : bridge) : bridge :=
  core b <| br_ports ::= map_ports (unless_disabled (down_port BLOCK init)) |>
         <| br_root_priority := own_priority (br_bridge_id b) |>
         <| br_root_times := br_bridge_times b |>.

Lemma downed_get init b n :
  od_get n (br_ports (downed init b)) =
  (λ p, unless_disabled (down_port BLOCK init) (core_p p)) <$> od_get n (br_ports b).
Proof.
  unfold downed. cbn. rewrite !od_get_map_ports. by destruct (od_get n (br_ports b)).
Qed.

Lemma downed_keys init b : od_keys (br_ports (downed init b)) = od_keys (br_ports b).
Proof.
  unfold downed. cbn -[od_keys].
  by rewrite !od_keys_map_ports.
Qed.

(** The first half of the recalculation. *)
Lemma recalculate_down_steps init b (k : BM ()) c :
  od_ok (br_ports b) →
  (∀ b', core b' = downed init b → steps k b' tt c) →
  steps (ports_down now init ;; b ← get_st;
         when init (emit (EventTopologyChange (br_dpid b))) ;;
         modify (λ b, b <| br_root_priority := mkPriority (br_bridge_id b) 0 None None |>
                        <| br_root_times := br_bridge_times b |>) ;; k) b tt c.
Proof.
  intros Hok Hk. eapply steps_bind; [by apply ports_down_steps|]. intros b1 Hb1.
  apply (steps_bind _ _ _ b1 (core b1)); [done|]. intros b2 Hb2.
  eapply steps_bind; [apply steps_when; [intros _; apply steps_emit|done]|]. intros b3 Hb3.
  eapply (steps_bind _ _ _ tt (downed init b)); [|exact Hk].
  split; [done|]. rewrite Hb2, Hb1 in Hb3. unfold downed.
  rewrite <- (f_equal br_bridge_id Hb3 : br_bridge_id b3 = br_bridge_id b).
  rewrite <- (f_equal br_bridge_times Hb3 : br_bridge_times b3 = br_bridge_times b).
  rewrite <- Hb3. by destruct b3.
Qed.

Lemma downed_root init b b' :
  core b' = downed init b →
  br_root_priority b' = own_priority (br_bridge_id b) ∧ br_root_times b' = br_bridge_times b ∧
  br_bridge_id b' = br_bridge_id b ∧ od_keys (br_ports b') = od_keys (br_ports b).
Proof.
  intros Hb. split_and!.
  - apply (f_equal br_root_priority Hb).
  - apply (f_equal br_root_times Hb).
  - apply (f_equal br_bridge_id Hb).
  - rewrite <- (downed_keys init b), <- Hb. symmetry. apply od_keys_map_ports.
Qed.

(** The ports after the second half, which gives the enabled ports of a list their
    roles. *)
Definition upped (roles : odict Z port_role) (rp : Priority) (rt : Times) (c : bridge) : bridge :=
  c <| br_ports ::= λ d, fold_left (λ d x, od_alter
         (unless_disabled (up_port x.2 rp rt)) x.1 d) roles d |>.

Lemma upped_get roles rp rt c n :
  od_ok roles →
  od_get n (br_ports (upped roles rp rt c)) =
  match od_get n roles with
  | Some ro => unless_disabled (up_port ro rp rt) <$> od_get n (br_ports c)
  | None => od_get n (br_ports c)
  end.
Proof. apply (fold_alter_get (λ ro, unless_disabled (up_port ro rp rt))). Qed.

Definition all_designated (b : bridge) : odict Z port_role :=
  (λ no, (no, DESIGNATED_PORT)) <$> od_keys (br_ports b).

Lemma all_designated_keys b : od_keys (all_designated b) = od_keys (br_ports b).
Proof.
  unfold all_designated. generalize (od_keys (br_ports b)) as l. unfold od_keys.
  induction l; cbn; congruence.
Qed.

Lemma all_designated_get b n :
  od_get n (all_designated b) =
  if decide (n ∈ od_keys (br_ports b)) then Some DESIGNATED_PORT else None.
Proof.
  unfold all_designated. generalize (od_keys (br_ports b)) as l.
  induction l as [|k l IH]; cbn; [done|]. rewrite IH.
  destruct (decide (n = k)); [by rewrite decide_True by set_solver|].
  destruct (decide (n ∈ l)); [by rewrite decide_True by set_solver|].
  by rewrite decide_False by set_solver.
Qed.

Lemma recalculate_true_steps b :
  od_ok (br_ports b) →
  steps (recalculate_spanning_tree now true) b tt
    (upped (all_designated b) (own_priority (br_bridge_id b)) (br_bridge_times b)
       (downed true b)).
Proof.
  intros Hok. unfold recalculate_spanning_tree.
  apply recalculate_down_steps; [done|]. intros b1 Hb1.
  destruct (downed_root true b b1 Hb1) as (Hrp & Hrt & Hid & Hk).
  eapply steps_bind; [apply steps_gets|]. intros b2 Hb2. rewrite Hb1 in Hb2.
  destruct (downed_root true b b2 Hb2) as (Hrp2 & Hrt2 & Hid2 & Hk2).
  rewrite Hk. fold (all_designated b). rewrite <- Hrp2, <- Hrt2, <- Hb2.
  apply ports_up_steps. intros no. by rewrite all_designated_keys, Hk2.
Qed.

(** The algorithm's input after the ports went down. *)
Lemma recalculate_false_steps b roles rp rt :
  od_ok (br_ports b) →
  (∀ no, no ∈ od_keys roles → no ∈ od_keys (br_ports b)) →
  (∀ b', core b' = downed false b → spanning_tree_algorithm b' = Ret (roles, rp, rt)) →
  steps (recalculate_spanning_tree now false) b tt
    (upped roles rp rt
       (downed false b <| br_root_priority := rp |> <| br_root_times := rt |>)).
Proof.
  intros Hok Hin Halg. unfold recalculate_spanning_tree.
  apply recalculate_down_steps; [done|]. intros b1 Hb1.
  eapply (steps_bind _ _ _ roles
            (downed false b <| br_root_priority := rp |> <| br_root_times := rt |>)).
  { apply (steps_bind _ _ _ b1 (core b1)); [done|]. intros b2 Hb2. rewrite Hb1 in Hb2.
    apply (steps_bind _ _ _ (roles, rp, rt) (core b2)).
    { unfold lift, steps, result, final. cbn. by rewrite Halg. }
    intros b3 Hb3. rewrite Hb2 in Hb3.
    eapply steps_bind; [done|]. intros b4 Hb4.
    eapply steps_core_eq; [apply steps_ret|]. rewrite Hb4, <- Hb3. by destruct b3. }
  intros b5 Hb5.
  assert (Hrp : br_root_priority b5 = rp) by apply (f_equal br_root_priority Hb5).
  assert (Hrt : br_root_times b5 = rt) by apply (f_equal br_root_times Hb5).
  rewrite <- Hb5. rewrite <- Hrp at 1. rewrite <- Hrt at 1. apply ports_up_steps.
  intros no Hno. apply Hin in Hno. rewrite <- (downed_keys false b) in Hno.
  apply (f_equal (λ c, od_keys (br_ports c))) in Hb5.
  change (od_keys (map_ports core_p (br_ports b5)) = od_keys (br_ports (downed false b))) in Hb5.
  by rewrite <- Hb5, od_keys_map_ports in Hno.
Qed.
End recalculate.

(** What the election reads of a port. *)
Definition info_of (p : port) :=
  (p_ofport p, p_designated p, p_port_id p, p_path_cost p, is_state (p_state p) DISABLE).

Lemma info_heard p q m : info_of p = info_of q → heard p m → heard q m.
Proof.
  unfold info_of, heard. intros [= _ Hd _ _ Hs] [H1 H2]. split; [|congruence].
  apply is_state_false. rewrite <- Hs. by apply is_state_false.
Qed.

Lemma info_designated_here own m p q :
  info_of p = info_of q → designated_here own m p = designated_here own m q.
Proof.
  unfold info_of, designated_here. intros [= _ Hd Hi Hc _]. by rewrite Hd, Hi, Hc.
Qed.

Definition same_choice (r r' : option port) : Prop :=
  match r, r' with
  | None, None => True
  | Some q, Some q' => info_of q = info_of q'
  | _, _ => False
  end.

Lemma info_role_of own r r' p p' :
  same_choice r r' → info_of p = info_of p' → role_of own r p = role_of own r' p'.
Proof.
  destruct r as [q|], r' as [q'|]; try done. cbn. intros Hq Hp.
  assert (Hop : p_ofport p = p_ofport p') by (unfold info_of in Hp; congruence).
  assert (Hoq : p_ofport q = p_ofport q') by (unfold info_of in Hq; congruence).
  assert (Hdq : p_designated q = p_designated q') by (unfold info_of in Hq; congruence).
  rewrite Hop, Hoq, Hdq. destruct (_ =? _); [done|].
  destruct (p_designated q') as [[m ?]|]; [|done].
  by rewrite (info_designated_here _ _ _ _ Hp).
Qed.

Lemma best_root_info own l l' r :
  Forall2 (λ p q, info_of p = info_of q) l l' → best_root own l r →
  ∃ r', best_root own l' r' ∧ same_choice r r'.
Proof.
  intros Hl. destruct r as [p|].
  - intros (m & l1 & l2 & -> & Hp & Hlt & H1 & H2).
    apply Forall2_app_inv_l in Hl as (l1' & l2'' & Hl1 & Hl2 & ->).
    apply Forall2_cons_inv_l in Hl2 as (p' & l2' & Hpp & Hl2 & ->).
    exists (Some p'). split; [|done].
    assert (Hback : ∀ l l', Forall2 (λ p q, info_of p = info_of q) l l' →
              ∀ q', q' ∈ l' → ∃ q, q ∈ l ∧ info_of q' = info_of q).
    { intros k k' Hk q' Hq'. apply list_elem_of_lookup in Hq' as [i Hi].
      destruct (Forall2_lookup_r _ _ _ _ _ Hk Hi) as (q & Hq & He).
      exists q. split; [by eapply list_elem_of_lookup_2|done]. }
    exists m, l1', l2'. split_and!; [done|by eapply info_heard|done| |].
    + intros q' m' Hq' Hh. destruct (Hback _ _ Hl1 q' Hq') as (q & Hq & He).
      eapply H1; [exact Hq|]. by eapply info_heard.
    + intros q' m' Hq' Hh. destruct (Hback _ _ Hl2 q' Hq') as (q & Hq & He).
      eapply H2; [exact Hq|]. by eapply info_heard.
  - intros Hr. exists None. split; [|done]. intros q' m Hq' Hh.
    apply list_elem_of_lookup in Hq' as [i Hi].
    destruct (Forall2_lookup_r _ _ _ _ _ Hl Hi) as (q & Hq & He).
    eapply Hr; [by eapply list_elem_of_lookup_2|]. by eapply info_heard.
Qed.

Lemma od_values_forall2 {V} (R : V → V → Prop) (d d' : odict Z V) :
  od_keys d = od_keys d' → od_ok d →
  (∀ n v v', od_get n d = Some v → od_get n d' = Some v' → R v v') →
  Forall2 R (od_values d) (od_values d').
Proof.
  unfold od_keys, od_ok, od_values, od_keys. revert d'.
  induction d as [|[k v] d IH]; intros [|[k' v'] d']; try done.
  rewrite !fmap_cons. cbn [fst snd]. intros [= <- Hk]. rewrite NoDup_cons.
  intros [Hnot Hd] HR. apply Forall2_cons_2.
  - apply (HR k); cbn; by rewrite decide_True.
  - apply IH; [done|done|]. intros n w w' Hw Hw'.
    assert (n ≠ k).
    { intros ->. apply Hnot. apply (od_get_is_key k d). eauto. }
    apply (HR n); cbn; by rewrite decide_False.
Qed.

Lemma info_core p : info_of (core_p p) = info_of p.
Proof. done. Qed.

(** The election reads the core of the bridge only. *)
Lemma select_root_core own (r : option port) (ports : list port) :
  select_root_port_from own (option_map core_p r) (core_p <$> ports) =
  match select_root_port_from own r ports with
  | Ret r' => Ret (option_map core_p r')
  | Raise e => Raise e
  end.
Proof.
  revert r. induction ports as [|p ports IH]; intros r; cbn; [done|].
  assert (Hm : match option_map core_p r with Some r0 => attr (p_designated r0) fst | None => Ret own end
             = match r with Some r0 => attr (p_designated r0) fst | None => Ret own end).
  { by destruct r. }
  cbn in Hm. rewrite Hm. clear Hm.
  destruct (match r with Some _ => _ | None => _ end) as [m|]; cbn; [|done].
  change (p_designated (core_p p)) with (p_designated p).
  destruct (p_designated p) as [[pm ts]|]; [|apply IH].
  change (p_state (core_p p)) with (p_state p).
  destruct (is_state (p_state p) DISABLE); [apply IH|].
  destruct (if _ <? _ then _ else _) as [res|]; cbn; [|done].
  destruct res; [apply (IH (Some p))|apply IH|apply IH].
Qed.

Lemma od_values_core (d : odict Z port) : od_values (map_ports core_p d) = core_p <$> (od_values d : list port).
Proof.
  unfold od_values, map_ports.
  induction d as [|[k p] d IH]; [done|]. rewrite !fmap_cons. cbn [snd]. by rewrite IH.
Qed.

Lemma select_designated_core own n m (ports : list port) :
  select_designated_port own n m (core_p <$> ports) = select_designated_port own n m ports.
Proof.
  induction ports as [|p ports IH]; [done|].
  rewrite fmap_cons. cbn [select_designated_port].
  rewrite IH, (info_designated_here _ _ _ p (info_core p)). done.
Qed.

Lemma other_roles_core (ports : list port) roles :
  other_roles (core_p <$> ports) roles = other_roles ports roles.
Proof.
  unfold other_roles. revert roles. induction ports as [|p ports IH]; intros roles; [done|].
  rewrite fmap_cons. cbn [fold_left]. apply IH.
Qed.

Lemma root_roles_core d :
  (λ kp : Z * port, (kp.1, DESIGNATED_PORT)) <$>
     filter (λ kp, is_state (p_state kp.2) DISABLE = false) (map_ports core_p d) =
  (λ kp : Z * port, (kp.1, DESIGNATED_PORT)) <$>
     filter (λ kp, is_state (p_state kp.2) DISABLE = false) d.
Proof.
  unfold map_ports. induction d as [|[k p] d IH]; [done|].
  rewrite fmap_cons, !filter_cons. cbn [fst snd].
  change (p_state (core_p p)) with (p_state p).
  destruct (decide _); rewrite ?fmap_cons; by rewrite IH.
Qed.

Lemma spanning_tree_algorithm_core b :
  spanning_tree_algorithm (core b) = spanning_tree_algorithm b.
Proof.
  unfold spanning_tree_algorithm, select_root_port.
  change (br_root_priority (core b)) with (br_root_priority b).
  change (br_root_times (core b)) with (br_root_times b).
  change (br_bridge_id (core b)) with (br_bridge_id b).
  change (br_ports (core b)) with (map_ports core_p (br_ports b)).
  rewrite root_roles_core, od_values_core, (select_root_core _ None).
  destruct (select_root_port_from _ None _) as [[r|]|]; cbn; [|done|done].
  change (p_designated (core_p r)) with (p_designated r).
  change (p_ofport (core_p r)) with (p_ofport r).
  destruct (p_designated r) as [[m ts]|]; cbn; [|done].
  rewrite select_designated_core. destruct (select_designated_port _ _ _ _); cbn; [|done].
  by rewrite other_roles_core.
Qed.

Lemma down_all_spec id no init p :
  port_inv id no p →
  let q := unless_disabled (down_port BLOCK init) (core_p p) in
  port_inv id no q ∧ p_role q = Some DESIGNATED_PORT ∧
  p_config_enable q = p_config_enable p ∧ p_ofport q = p_ofport p ∧
  p_port_id q = p_port_id p ∧ p_path_cost q = p_path_cost p ∧
  (p_state p = Some DISABLE → q = core_p p) ∧
  (p_state p ≠ Some DISABLE → p_config_enable p = true ∧ p_state q = Some BLOCK ∧
     (init = true → p_designated q = None)) ∧
  (init = false → p_designated q = p_designated p).
Proof.
  intros Hp. unfold unless_disabled. cbn zeta.
  change (p_state (core_p p)) with (p_state p).
  apply port_inv_core in Hp as Hcp.
  destruct (is_state (p_state p) DISABLE) eqn:Hs.
  - apply is_state_true in Hs. split_and!; try done. by apply (pi_disabled _ _ _ Hcp).
  - apply is_state_false in Hs.
    assert (He : p_config_enable p = true).
    { destruct (p_config_enable p) eqn:He; [done|]. destruct Hs. by apply (pi_enable _ _ _ Hp). }
    destruct (down_port_inv id no BLOCK init (core_p p) Hcp eq_refl)
      as (H1 & H2 & H3 & H4 & H5 & H6 & H7 & H8 & H9).
    change (p_config_enable (core_p p)) with (p_config_enable p) in *. rewrite He in H3, H5.
    split_and!; auto; by rewrite ?H5.
Qed.

Lemma downed_ports_ok init b : bridge_inv b → ports_ok (br_ports (downed init b)).
Proof.
  intros Hb. split.
  { pose proof (bi_ok b Hb). unfold od_ok in *. by rewrite downed_keys. }
  intros k p Hin.
  assert (Hg : od_get k (br_ports (downed init b)) = Some p).
  { apply od_elem_get; [|done]. pose proof (bi_ok b Hb). unfold od_ok in *. by rewrite downed_keys. }
  rewrite downed_get in Hg. destruct (od_get k (br_ports b)) as [p0|] eqn:Hp0; [|done].
  injection Hg as <-.
  destruct (down_all_spec _ _ init p0 (bi_ports b Hb _ _ Hp0)) as ([] & _). done.
Qed.

Lemma upped_keys roles rp rt c :
  od_keys (br_ports (upped roles rp rt c)) = od_keys (br_ports c).
Proof. apply (fold_alter_get_key (λ ro, unless_disabled (up_port ro rp rt))). Qed.

Lemma one_root_core d : one_root (map_ports core_p d) → one_root d.
Proof.
  intros H k1 p1 k2 p2 H1 H2. apply (H k1 (core_p p1) k2 (core_p p2)).
  - by rewrite od_get_map_ports, H1.
  - by rewrite od_get_map_ports, H2.
Qed.

(** A bridge with the core [c], for the conclusions about a final state. *)
Lemma bridge_inv_from_core b c :
  core b = c → bridge_inv c → bridge_inv b.
Proof. intros <-. apply bridge_inv_core. Qed.

(** The result of a recalculation, port by port. *)
Lemma recalculated_port id no init p ro rp rt :
  port_inv id no p →
  let q := unless_disabled (down_port BLOCK init) (core_p p) in
  let q' := unless_disabled (up_port ro rp rt) q in
  port_inv id no q' ∧
  p_ofport q' = p_ofport p ∧ p_config_enable q' = p_config_enable p ∧
  p_port_id q' = p_port_id p ∧ p_path_cost q' = p_path_cost p ∧
  p_designated q' = p_designated q ∧ info_of q' = info_of q ∧
  (p_state p = Some DISABLE → q' = core_p p) ∧
  (p_state p ≠ Some DISABLE →
     p_state q' = Some LISTEN ∧ p_role q' = Some ro ∧
     p_port_priority q' = rp ∧ p_port_times q' = rt).
Proof.
  intros Hp. destruct (down_all_spec id no init p Hp)
    as (H1 & H2 & H3 & H4 & H5 & H6 & H7 & H8 & H9). cbn zeta in *.
  set (q := unless_disabled (down_port BLOCK init) (core_p p)) in *. clearbody q.
  unfold unless_disabled.
  destruct (decide (p_state p = Some DISABLE)) as [Hs|Hs].
  - rewrite (H7 Hs) in *. change (p_state (core_p p)) with (p_state p).
    rewrite (proj2 (is_state_true _ _) Hs). done.
  - destruct (H8 Hs) as (He & Hq & _).
    assert (Hsq : is_state (p_state q) DISABLE = false).
    { rewrite Hq. done. }
    rewrite Hsq.
    destruct (up_port_inv id no ro rp rt q H1 (or_introl (eq_trans H3 He)))
      as (u1 & u2 & u3 & u4 & u5 & u6 & u7 & u8 & u9 & u10).
    rewrite H3, He in u5.
    split_and!; try done; try congruence.
    unfold info_of. rewrite u6, u8, u9, u10, u5, Hsq. done.
Qed.

(** The shared facts about the ports [d] after a recalculation of [b]. *)
Definition recalculated (init : bool) (ro : port → port_role) (rp : Priority) (rt : Times)
    (p : port) : port :=
  let q := unless_disabled (down_port BLOCK init) (core_p p) in
  unless_disabled (up_port (ro q) rp rt) q.

Lemma recalculated_infos b b' ro rp rt :
  bridge_inv b →
  (∀ no p, od_get no (br_ports b) = Some p → ∃ p', od_get no (br_ports b') = Some p' ∧
     core_p p' = recalculated false ro rp rt p) →
  ∀ no q p', od_get no (br_ports (downed false b)) = Some q →
    od_get no (br_ports b') = Some p' → info_of q = info_of p'.
Proof.
  intros Hb Hget no q p' Hq Hp'. rewrite downed_get in Hq.
  destruct (od_get no (br_ports b)) as [p|] eqn:Hp; [|done]. injection Hq as <-.
  destruct (Hget no p Hp) as (p'' & Hp'' & Hc). rewrite Hp' in Hp''. injection Hp'' as <-.
  rewrite <- (info_core p'), Hc. symmetry.
  by destruct (recalculated_port _ no false p (ro (unless_disabled (down_port BLOCK false)
    (core_p p))) rp rt (bi_ports b Hb _ _ Hp)) as (_ & _ & _ & _ & _ & _ & ? & _).
Qed.

Lemma role_of_root own r p : role_of own r p = ROOT_PORT →
  ∃ q, r = Some q ∧ of_port_no (p_ofport p) = of_port_no (p_ofport q).
Proof.
  destruct r as [q|]; cbn; [|done].
  destruct (Z.eqb_spec (of_port_no (p_ofport p)) (of_port_no (p_ofport q))); [eauto|].
  destruct (p_designated q) as [[m ?]|]; [|done].
  by destruct (designated_here own m p) as [[]|].
Qed.

Lemma recalculated_inv b d r rp rt init :
  bridge_inv b →
  (∀ no p, od_get no (br_ports b) = Some p → od_get no (br_ports d) =
     Some (recalculated init (role_of (br_bridge_id b) r) rp rt p)) →
  od_keys (br_ports d) = od_keys (br_ports b) →
  br_bridge_id d = br_bridge_id b → br_ports_state d = br_ports_state b →
  bridge_inv d.
Proof.
  intros Hb Hget Hk Hid Hst.
  assert (Hback : ∀ no q, od_get no (br_ports d) = Some q →
    ∃ p, od_get no (br_ports b) = Some p ∧
         q = recalculated init (role_of (br_bridge_id b) r) rp rt p).
  { intros no q Hq.
    assert (Hin : no ∈ od_keys (br_ports b)) by (rewrite <- Hk; apply od_get_is_key; eauto).
    apply od_get_is_key in Hin as [p Hp]. exists p. split; [done|].
    rewrite (Hget no p Hp) in Hq. congruence. }
  assert (Hroot : ∀ no q, od_get no (br_ports d) = Some q → p_role q = Some ROOT_PORT →
    ∃ q0, r = Some q0 ∧ no = of_port_no (p_ofport q0)).
  { intros no q Hq Hro. destruct (Hback no q Hq) as (p & Hp & ->).
    pose proof (bi_ports b Hb _ _ Hp) as Hinv.
    unfold recalculated in Hro. set (q := unless_disabled (down_port BLOCK init) (core_p p)) in *.
    destruct (recalculated_port _ no init p (role_of (br_bridge_id b) r q) rp rt Hinv)
      as (_ & e1 & _ & _ & _ & _ & e6 & e7 & e8). cbn zeta in *. fold q in e1, e6, e7, e8.
    destruct (decide (p_state p = Some DISABLE)) as [Hs|Hs].
    - rewrite (e7 Hs) in Hro. change (p_role (core_p p)) with (p_role p) in Hro.
      rewrite (pi_disabled _ _ _ Hinv Hs) in Hro. done.
    - destruct (e8 Hs) as (_ & e9 & _). rewrite e9 in Hro. injection Hro as Hro.
      destruct (role_of_root _ _ _ Hro) as (q0 & -> & Hno). exists q0. split; [done|].
      rewrite <- Hno, <- (pi_no _ _ _ Hinv), <- e1. unfold info_of in e6. congruence. }
  constructor.
  - pose proof (bi_ok b Hb). unfold od_ok in *. by rewrite Hk.
  - intros no q Hq. destruct (Hback no q Hq) as (p & Hp & ->). rewrite Hid.
    apply recalculated_port. by apply (bi_ports b Hb).
  - intros k1 p1 k2 p2 H1 H2 Hr1 Hr2.
    destruct (Hroot _ _ H1 Hr1) as (q1 & -> & ->).
    destruct (Hroot _ _ H2 Hr2) as (q2 & [= ->] & ->). done.
  - rewrite Hst, Hk. by apply (bi_state_keys b Hb).
Qed.

(** The outcome of the election: the root port [r] is the best of the ports, the bridge's
    root information is the information held by the root port, its own when there is
    none, every enabled port is listening with that root information and has the role
    the election gives it, and disabled ports do not change. *)
Definition elected (b b' : bridge) : Prop :=
  ∃ r, best_root (bid_value (br_bridge_id b)) (od_values (br_ports b')) r ∧
    match r with
    | None => br_root_priority b' = own_priority (br_bridge_id b) ∧
              br_root_times b' = br_bridge_times b
    | Some q => p_designated q = Some (br_root_priority b', br_root_times b')
    end ∧
    ∀ no p, od_get no (br_ports b) = Some p → ∃ p', od_get no (br_ports b') = Some p' ∧
      p_designated p' = p_designated p ∧ p_ofport p' = p_ofport p ∧
      p_path_cost p' = p_path_cost p ∧
      (p_state p = Some DISABLE → core_p p' = core_p p) ∧
      (p_state p ≠ Some DISABLE →
         p_state p' = Some LISTEN ∧ p_role p' = Some (role_of (br_bridge_id b) r p') ∧
         p_port_priority p' = br_root_priority b' ∧ p_port_times p' = br_root_times b').

(** The outcome of a restart: the bridge regards itself as the root, forgets what it
    heard on enabled ports, and these listen as designated ports. *)
Definition restarted (b b' : bridge) : Prop :=
  br_root_priority b' = own_priority (br_bridge_id b) ∧
  br_root_times b' = br_bridge_times b ∧
  ∀ no p, od_get no (br_ports b) = Some p → ∃ p', od_get no (br_ports b') = Some p' ∧
    (p_state p = Some DISABLE → core_p p' = core_p p) ∧
    (p_state p ≠ Some DISABLE →
       p_state p' = Some LISTEN ∧ p_role p' = Some DESIGNATED_PORT ∧
       p_designated p' = None ∧ p_port_priority p' = own_priority (br_bridge_id b)).

Definition same_identity (b b' : bridge) : Prop :=
  br_bridge_id b' = br_bridge_id b ∧ br_bridge_times b' = br_bridge_times b ∧
  br_ofproto b' = br_ofproto b ∧ od_keys (br_ports b') = od_keys (br_ports b) ∧
  br_ports_state b' = br_ports_state b.

(** The run of the election: the choice among the ports that went down, and the core of
    the bridge it leads to. *)
Lemma recalculate_false_run (now : Z) (b : bridge) :
  bridge_inv b →
  ∃ r rp rt d,
    best_root (bid_value (br_bridge_id b)) (od_values (br_ports (downed false b))) r ∧
    match r with
    | None => rp = own_priority (br_bridge_id b) ∧ rt = br_bridge_times b
    | Some q => p_designated q = Some (rp, rt)
    end ∧
    steps (recalculate_spanning_tree now false) b tt d ∧
    br_root_priority d = rp ∧ br_root_times d = rt ∧ same_identity b d ∧
    ∀ no p, od_get no (br_ports b) = Some p →
      od_get no (br_ports d) = Some (recalculated false (role_of (br_bridge_id b) r) rp rt p).
Proof.
  intros Hb. set (c := downed false b).
  destruct (spanning_tree_algorithm_spec c (downed_ports_ok false b Hb))
    as (r & roles & rp & rt & Hbest & Halg & Hrok & Hroles & Hroot); [done|].
  change (br_bridge_id c) with (br_bridge_id b) in *.
  exists r, rp, rt,
    (upped roles rp rt (c <| br_root_priority := rp |> <| br_root_times := rt |>)).
  refine (conj Hbest (conj Hroot (conj _ (conj eq_refl (conj eq_refl (conj _ _)))))).
  - apply recalculate_false_steps.
    + apply (bi_ok b Hb).
    + intros no Hno. apply (od_get_is_key no roles) in Hno. rewrite Hroles in Hno.
      unfold role_at in Hno. rewrite <- (downed_keys false b).
      apply (od_get_is_key no (br_ports c)).
      destruct (od_get no (br_ports c)); [eauto|by destruct Hno].
    + intros b' Hb'. rewrite <- spanning_tree_algorithm_core, Hb'. exact Halg.
  - unfold same_identity. rewrite upped_keys. split_and!; try done.
    apply (downed_keys false b).
  - intros no p Hp. rewrite upped_get by done.
    change (br_ports (_ <| br_root_times := rt |>)) with (br_ports c).
    rewrite Hroles. unfold role_at, c. rewrite downed_get, Hp. cbn [fmap option_fmap option_map].
    unfold recalculated. set (q := unless_disabled (down_port BLOCK false) (core_p p)).
    destruct (is_state (p_state q) DISABLE) eqn:Hq; [|done]. by rewrite unless_disabled_off.
Qed.

(** The final bridge of a run with core [d]. *)
Lemma steps_identity b d (m : BM ()) :
  steps m b tt d → same_identity b d →
  same_identity b (final m b) ∧
  br_root_priority (final m b) = br_root_priority d ∧
  br_root_times (final m b) = br_root_times d.
Proof.
  intros [_ <-] (h1 & h2 & h3 & h4 & h5). unfold same_identity.
  change (od_keys (map_ports core_p (br_ports (final m b))) = od_keys (br_ports b)) in h4.
  rewrite od_keys_map_ports in h4. by split_and!.
Qed.

(** One port after the election, in a bridge with core [d]. *)
Lemma elected_port b b' d r r' rp rt no p :
  bridge_inv b → core b' = d → same_choice r r' →
  od_get no (br_ports b) = Some p →
  od_get no (br_ports d) = Some (recalculated false (role_of (br_bridge_id b) r) rp rt p) →
  ∃ p', od_get no (br_ports b') = Some p' ∧
    p_designated p' = p_designated p ∧ p_ofport p' = p_ofport p ∧
    p_path_cost p' = p_path_cost p ∧
    (p_state p = Some DISABLE → core_p p' = core_p p) ∧
    (p_state p ≠ Some DISABLE →
       p_state p' = Some LISTEN ∧ p_role p' = Some (role_of (br_bridge_id b) r' p') ∧
       p_port_priority p' = rp ∧ p_port_times p' = rt).
Proof.
  intros Hb Hc Hsame Hp Hd.
  destruct (core_get_some no b' d _ Hc Hd) as (p' & Hp' & Hcp).
  exists p'. split; [done|].
  destruct (recalculated_port _ no false p (role_of (br_bridge_id b) r
    (unless_disabled (down_port BLOCK false) (core_p p))) rp rt (bi_ports b Hb _ _ Hp))
    as (_ & e1 & _ & _ & e4 & e5 & e6 & e7 & e8).
  destruct (down_all_spec _ no false p (bi_ports b Hb _ _ Hp))
    as (_ & _ & _ & _ & _ & _ & _ & _ & e9).
  unfold recalculated in Hcp. cbn zeta in *. rewrite <- Hcp in *.
  split_and!; [by rewrite <- e9, <- e5|done|done|done|]. intros Hs.
  destruct (e8 Hs) as (f1 & f2 & f3 & f4). split_and!; [done| |done|done].
  change (p_role (core_p p') = Some (role_of (br_bridge_id b) r' p')).
  rewrite f2. f_equal. apply (info_role_of _ _ _ _ _ Hsame). by rewrite <- e6.
Qed.

Lemma recalculate_false_spec (now : Z) (b : bridge) :
  bridge_inv b →
  let b' := final (recalculate_spanning_tree now false) b in
  result (recalculate_spanning_tree now false) b = Ret tt ∧
  bridge_inv b' ∧ same_identity b b' ∧ elected b b'.
Proof.
  intros Hb. cbn zeta.
  destruct (recalculate_false_run now b Hb)
    as (r & rp & rt & d & Hbest & Hroot & Hsteps & Hrp & Hrt & Hid & Hget).
  destruct (steps_identity b d _ Hsteps Hid) as (Hid' & Hrp' & Hrt').
  rewrite Hrp in Hrp'. rewrite Hrt in Hrt'.
  destruct Hsteps as [Hret Hfin].
  set (b' := final (recalculate_spanning_tree now false) b) in *.
  assert (Hinfo : Forall2 (λ p q, info_of p = info_of q)
    (od_values (br_ports (downed false b))) (od_values (br_ports b'))).
  { apply od_values_forall2.
    - destruct Hid' as (_ & _ & _ & -> & _). apply downed_keys.
    - apply (downed_ports_ok false b Hb).
    - apply (recalculated_infos b b' (role_of (br_bridge_id b) r) rp rt Hb).
      intros no p Hp. by apply (core_get_some no b' d _ Hfin), Hget. }
  destruct (best_root_info _ _ _ r Hinfo Hbest) as (r' & Hbest' & Hsame).
  refine (conj Hret (conj _ (conj Hid' _))).
  - destruct Hid as (h1 & _ & _ & h4 & h5).
    apply (bridge_inv_from_core _ _ Hfin). by apply (recalculated_inv b d r rp rt false).
  - exists r'. rewrite Hrp', Hrt'. split_and!; [done| |].
    + destruct r as [q|], r' as [q'|]; try done.
      unfold same_choice, info_of in Hsame. congruence.
    + intros no p Hp. by apply (elected_port b b' d r r'), Hget.
Qed.

Lemma recalculate_true_spec (now : Z) (b : bridge) :
  bridge_inv b →
  let b' := final (recalculate_spanning_tree now true) b in
  result (recalculate_spanning_tree now true) b = Ret tt ∧
  bridge_inv b' ∧ same_identity b b' ∧ restarted b b'.
Proof.
  intros Hb. cbn zeta.
  destruct (recalculate_true_steps now b (bi_ok b Hb)) as [Hret Hfin].
  set (rp := own_priority (br_bridge_id b)) in *. set (rt := br_bridge_times b) in *.
  set (d := upped (all_designated b) rp rt (downed true b)) in *.
  set (b' := final (recalculate_spanning_tree now true) b) in *.
  assert (Hdget : ∀ no p, od_get no (br_ports b) = Some p →
    od_get no (br_ports d) =
      Some (recalculated true (role_of (br_bridge_id b) None) rp rt p)).
  { intros no p Hp. unfold d. rewrite upped_get.
    2: { unfold od_ok. rewrite all_designated_keys. apply (bi_ok b Hb). }
    rewrite all_designated_get, downed_get, Hp.
    by rewrite decide_True by (apply od_get_is_key; eauto). }
  assert (Hdk : od_keys (br_ports d) = od_keys (br_ports b)).
  { unfold d. rewrite upped_keys. apply (downed_keys true b). }
  assert (Hbk : od_keys (br_ports b') = od_keys (br_ports b)).
  { rewrite <- Hdk, <- Hfin. symmetry. apply od_keys_map_ports. }
  unfold same_identity, elected, restarted. split_and!.
  - exact Hret.
  - apply (bridge_inv_from_core _ _ Hfin). by apply (recalculated_inv b d None rp rt true).
  - apply (f_equal br_bridge_id Hfin).
  - apply (f_equal br_bridge_times Hfin).
  - apply (f_equal br_ofproto Hfin).
  - exact Hbk.
  - apply (f_equal br_ports_state Hfin).
  - apply (f_equal br_root_priority Hfin).
  - apply (f_equal br_root_times Hfin).
  - intros no p Hp.
    destruct (core_get_some no b' d _ Hfin (Hdget no p Hp)) as (p' & Hp' & Hcp).
    exists p'. split; [done|].
    destruct (recalculated_port _ no true p DESIGNATED_PORT rp rt (bi_ports b Hb _ _ Hp))
      as (_ & _ & _ & _ & _ & e5 & _ & e7 & e8).
    destruct (down_all_spec _ no true p (bi_ports b Hb _ _ Hp))
      as (_ & _ & _ & _ & _ & _ & _ & d8 & _).
    unfold recalculated in Hcp. cbn [role_of] in Hcp. cbn zeta in *. rewrite <- Hcp in *.
    split; [done|]. intros Hs. destruct (e8 Hs) as (f1 & f2 & f3 & _).
    destruct (d8 Hs) as (_ & _ & d9).
    split_and!; [done|done| |done]. rewrite <- (d9 eq_refl). exact e5.
Qed.

(** C7: The recalculation of the spanning tree never raises and keeps the invariant of
    the bridge.  With [init] it restarts the bridge as its own root.  Without, it runs
    the election: the root port is the best of the ports, the bridge's root information
    is the information held by the root port, every enabled port is listening with that
    information and is the root port, or designated where the bridge is nearer to the
    root than the bridge heard on the link, or else blocked; disabled ports do not
    change. *)
Theorem recalculate_elects (now : Z) (init : bool) (b : bridge) :
  bridge_inv b →
  let b' := final (recalculate_spanning_tree now init) b in
  result (recalculate_spanning_tree now init) b = Ret tt ∧
  bridge_inv b' ∧ same_identity b b' ∧
  (if init then restarted b b' else elected b b') ∧
  (∀ own m p, port_complete p → (designated_here own m p = Ret true ↔ nearer_here own m p)).
Proof.
  intros Hb. cbn zeta.
  assert (Hn : ∀ own m p, port_complete p →
                 (designated_here own m p = Ret true ↔ nearer_here own m p)).
  { intros own m p Hp. destruct (designated_here_spec own m p Hp) as (d & -> & <-).
    split; [by intros [=]|by intros ->]. }
  destruct init.
  - destruct (recalculate_true_spec now b Hb) as (? & ? & ? & ?). done.
  - destruct (recalculate_false_spec now b Hb) as (? & ? & ? & ?). done.
Qed.
