(* ===== verification/StpBridge.v ===== *)
(** * Spanning tree: the bridge and its ports

    Every operation keeps the invariant of the bridge ([stp_invariant]); the port state
    machine makes progress ([port_reaches_forwarding]); what a change of state bits
    ([link_up_unblocks]) and the configuration of a port ([port_config_ignored]) do; and
    a BPDU that one bridge generates, encoded and decoded, wins the election in another
    ([link_election]). *)

From stdpp Require Import base list gmap.
From Stdlib Require Import ZArith Lia.
From S2P Require Import Prelude Odict Bpdu Stp StpElection.
Open Scope Z_scope.

(** ** The operations keep the invariant *)

Lemma preserves_steps {A} (m : BM A) a c b :
  steps m b a c → bridge_inv c → bridge_inv (final m b).
Proof. intros [_ Hc]. by apply bridge_inv_from_core. Qed.

Lemma bridge_inv_alter no f b :
  bridge_inv b →
  (∀ p, od_get no (br_ports b) = Some p →
     port_inv (br_bridge_id b) no (f p) ∧
     (p_role (f p) = Some ROOT_PORT → p_role p = Some ROOT_PORT)) →
  bridge_inv (alter_port no f b).
Proof.
  intros Hb Hf.
  assert (Hget : ∀ n q, od_get n (br_ports (alter_port no f b)) = Some q →
    ∃ p, od_get n (br_ports b) = Some p ∧ port_inv (br_bridge_id b) n q ∧
         (p_role q = Some ROOT_PORT → p_role p = Some ROOT_PORT)).
  { intros n q. cbn. rewrite od_get_alter. case_decide as Hn.
    - subst n. destruct (od_get no (br_ports b)) as [p|] eqn:Hp; [|done].
      intros [= <-]. exists p. split; [done|by apply Hf].
    - intros Hq. exists q. split_and!; [done|by apply (bi_ports b Hb)|done]. }
  constructor.
  - cbn. apply od_ok_alter, (bi_ok b Hb).
  - intros n q Hq. by destruct (Hget n q Hq) as (p & _ & ? & _).
  - intros k1 p1 k2 p2 H1 H2 R1 R2.
    destruct (Hget _ _ H1) as (q1 & G1 & _ & S1), (Hget _ _ H2) as (q2 & G2 & _ & S2).
    apply (bi_root b Hb k1 q1 k2 q2); auto.
  - rewrite alter_port_keys. apply (bi_state_keys b Hb).
Qed.

Lemma core_port_inv b no q :
  bridge_inv b → od_get no (br_ports (core b)) = Some q → port_inv (br_bridge_id b) no q.
Proof. intros Hb. by apply (bi_ports (core b)), bridge_inv_core. Qed.

Lemma mod_port_inv no f :
  (∀ id p, port_inv id no p →
     port_inv id no (f p) ∧ (p_role (f p) = Some ROOT_PORT → p_role p = Some ROOT_PORT)) →
  preserves bridge_inv (mod_port no f).
Proof.
  intros Hf b Hb. apply bridge_inv_alter; [done|]. intros p Hp.
  apply Hf. by apply (bi_ports b Hb).
Qed.

Lemma get_port_raises no b :
  od_get no (br_ports b) = None → get_port no b = ([], b, Raise KeyError).
Proof. intros H. unfold get_port, mbind, M_bind, gets. cbn. by rewrite H. Qed.

Lemma get_port_returns no b p :
  od_get no (br_ports b) = Some p → get_port no b = ([], b, Ret p).
Proof. intros H. unfold get_port, mbind, M_bind, gets. cbn. by rewrite H. Qed.

(** A computation that begins by looking a port up: it raises if there is none. *)
Lemma preserves_get_port {A} no (k : port → BM A) :
  (∀ b p, bridge_inv b → od_get no (br_ports b) = Some p → bridge_inv (final (k p) b)) →
  preserves bridge_inv (get_port no ≫= k).
Proof.
  intros Hk b Hb. unfold final, mbind, M_bind.
  destruct (od_get no (br_ports b)) as [p|] eqn:Hp.
  - specialize (Hk b p Hb Hp). unfold final in Hk.
    unfold get_port, mbind, M_bind, gets. cbn. rewrite Hp. cbn.
    by destruct (k p b) as [[? ?] ?].
  - by rewrite get_port_raises.
Qed.

Section handlers.
Context (now : Z).

Lemma topology_change_notify_inv st : preserves bridge_inv (topology_change_notify now st).
Proof.
  intros b Hb. eapply preserves_steps; [apply topology_change_notify_steps|].
  by apply bridge_inv_core.
Qed.

Lemma port_up_inv no rp rt :
  ∀ b p, bridge_inv b → od_get no (br_ports b) = Some p →
  bridge_inv (final (port_up now no DESIGNATED_PORT rp rt) b).
Proof.
  intros b p Hb Hp. eapply preserves_steps; [by eapply port_up_steps|].
  apply bridge_inv_alter; [by apply bridge_inv_core|]. intros q Hq.
  destruct (up_port_inv _ no DESIGNATED_PORT rp rt q (core_port_inv b no q Hb Hq))
    as (? & Hr & _); [by right|]. split; [done|]. by rewrite Hr.
Qed.

Lemma port_down_inv no st init :
  down_state st = true →
  ∀ b p, bridge_inv b → od_get no (br_ports b) = Some p →
  bridge_inv (final (port_down now no st init) b).
Proof.
  intros Hst b p Hb Hp. eapply preserves_steps; [by eapply port_down_steps|].
  apply bridge_inv_alter; [by apply bridge_inv_core|]. intros q Hq.
  destruct (down_port_inv _ no st init q (core_port_inv b no q Hb Hq) Hst)
    as (? & Hr & _). split; [done|]. by rewrite Hr.
Qed.

Lemma recalculate_inv init : preserves bridge_inv (recalculate_spanning_tree now init).
Proof.
  intros b Hb. destruct init.
  - by destruct (recalculate_true_spec now b Hb) as (_ & ? & _).
  - by destruct (recalculate_false_spec now b Hb) as (_ & ? & _).
Qed.

Lemma status_port_inv id no st p :
  port_inv id no p → p_config_enable p = true → st ≠ DISABLE →
  (st = FORWARD → p_role p ≠ Some NON_DESIGNATED_PORT) →
  port_inv id no (status_port st p).
Proof.
  intros [? ? Hc ? He ? ? ? ? ? Hw Hm ?] Hen Hst Hf.
  destruct (status_port_spec st p)
    as (s1 & s2 & s3 & s4 & s5 & s6 & s7 & s8 & s9 & s10 & s11 & s12 & s13 & s14).
  constructor; rewrite ?s1, ?s2, ?s3, ?s4, ?s5, ?s7, ?s8; try done.
  - intros m ts. rewrite s6. apply Hc.
  - congruence.
  - intros [= ->]. auto.
  - congruence.
  - intros Hs. eexists. split; [done|auto].
  - intros Ht. destruct s14 as [->| ->]; auto.
Qed.

Lemma next_state_inv id no p st :
  port_inv id no p → is_Some (p_state_timer p) → get_next_state p = Some st →
  port_inv id no (status_port st p).
Proof.
  intros Hp Ht Hst.
  assert (Hen : p_config_enable p = true).
  { destruct (p_config_enable p) eqn:He; [done|].
    pose proof (pi_enable _ _ _ Hp He). destruct (pi_timer _ _ _ Hp Ht); congruence. }
  apply status_port_inv; [done|done| |].
  - unfold get_next_state in Hst.
    destruct (p_state p) as [[]|]; try done; [by injection Hst as <-|].
    destruct (_ || _); by injection Hst as <-.
  - intros ->. unfold get_next_state in Hst.
    destruct (p_state p) as [[]|]; try done.
    destruct (is_role (p_role p) ROOT_PORT || is_role (p_role p) DESIGNATED_PORT) eqn:Hr; [|done].
    apply orb_true_iff in Hr as [Hr%is_role_true|Hr%is_role_true]; by rewrite Hr.
Qed.

Lemma timer_next_state id no p :
  port_inv id no p → is_Some (p_state_timer p) → ∃ st, get_next_state p = Some st.
Proof.
  intros Hp Ht. unfold get_next_state.
  destruct (pi_timer _ _ _ Hp Ht) as [->| ->]; [eauto|]. destruct (_ || _); eauto.
Qed.

Lemma state_timeout_inv no : preserves bridge_inv (state_timeout now no).
Proof.
  apply preserves_get_port. intros b p Hb Hp.
  destruct (p_state_timer p) eqn:Ht; [|done].
  pose proof (bi_ports b Hb _ _ Hp) as Hinv.
  destruct (get_next_state p) as [st|] eqn:Hst; [|done].
  eapply preserves_steps; [by eapply change_status_steps|].
  apply bridge_inv_alter; [by apply bridge_inv_core|]. intros q Hq.
  rewrite get_core, Hp in Hq. injection Hq as <-. split.
  - apply next_state_inv; [by apply port_inv_core| |done].
    change (is_Some (p_state_timer p)). by rewrite Ht.
  - by destruct (status_port_spec st (core_p p)) as (_ & -> & _).
Qed.

Lemma bind_inv {A B} (m : BM A) (k : A → BM B) b :
  bridge_inv (final m b) → (∀ a, preserves bridge_inv (k a)) →
  bridge_inv (final (m ≫= k) b).
Proof.
  unfold final, mbind, M_bind. destruct (m b) as [[o1 b1] [a|e]]; cbn; [|done].
  intros Hb1 Hk. specialize (Hk a b1 Hb1). unfold final in Hk.
  by destruct (k a b1) as [[? ?] ?].
Qed.

Lemma set_ports_state_inv b no v :
  bridge_inv b → no ∈ od_keys (br_ports b) →
  bridge_inv (b <| br_ports_state ::= od_set no v |>).
Proof.
  intros [? ? ? Hk] Hno. constructor; [done|done|done|]. cbn -[od_keys].
  rewrite od_keys_set, decide_True by (by rewrite Hk). done.
Qed.

Lemma steps_set_ports_state g b :
  steps (modify (λ b, b <| br_ports_state ::= g |>)) b tt (core b <| br_ports_state ::= g |>).
Proof. done. Qed.

Lemma key_of no p b : od_get no (br_ports b) = Some p → no ∈ od_keys (br_ports b).
Proof. intros H. apply od_get_is_key. eauto. Qed.

Lemma link_up_steps op b p :
  od_get (of_port_no op) (br_ports b) = Some p →
  steps (link_up now op) b tt
    (alter_port (of_port_no op)
       (up_port DESIGNATED_PORT (br_root_priority b) (br_root_times b)) (core b)
     <| br_ports_state ::= od_set (of_port_no op) (of_state op) |>).
Proof.
  intros Hp. unfold link_up.
  eapply steps_bind; [by apply steps_get_port|]. intros b1 Hb1.
  destruct (core_get_some (of_port_no op) b1 _ (core_p p) Hb1) as (p1 & Hp1 & _).
  { by rewrite get_core, Hp. }
  apply (steps_bind _ _ _ b1 (core b1)); [done|]. intros b2 Hb2.
  rewrite Hb1 in Hb2.
  destruct (core_get_some (of_port_no op) b2 _ (core_p p) Hb2) as (p2 & Hp2 & _).
  { by rewrite get_core, Hp. }
  eapply steps_bind; [by eapply port_up_steps|]. intros b3 Hb3.
  eapply steps_core_eq; [apply steps_set_ports_state|]. rewrite Hb3, Hb2.
  rewrite (f_equal br_root_priority Hb1 : br_root_priority b1 = br_root_priority b).
  by rewrite (f_equal br_root_times Hb1 : br_root_times b1 = br_root_times b).
Qed.

Lemma link_up_inv op : preserves bridge_inv (link_up now op).
Proof.
  intros b Hb. destruct (od_get (of_port_no op) (br_ports b)) as [p|] eqn:Hp.
  - eapply preserves_steps; [by eapply link_up_steps|].
    apply set_ports_state_inv.
    + apply bridge_inv_alter; [by apply bridge_inv_core|]. intros q Hq.
      destruct (up_port_inv _ (of_port_no op) DESIGNATED_PORT (br_root_priority b)
        (br_root_times b) q (core_port_inv b _ q Hb Hq)) as (? & Hr & _); [by right|].
      split; [done|]. by rewrite Hr.
    + rewrite alter_port_keys. apply od_get_is_key. rewrite get_core, Hp. eauto.
  - unfold link_up, final, mbind, M_bind. by rewrite get_port_raises.
Qed.

(** [link_down] before the recalculation. *)
Lemma link_down_head_steps op b p :
  od_get (of_port_no op) (br_ports b) = Some p →
  steps (port_down now (of_port_no op) DISABLE true ;;
         modify (λ b, b <| br_ports_state ::= od_set (of_port_no op) (of_state op) |>)) b tt
    (alter_port (of_port_no op) (down_port DISABLE true) (core b)
     <| br_ports_state ::= od_set (of_port_no op) (of_state op) |>).
Proof.
  intros Hp. eapply steps_bind; [by eapply port_down_steps|]. intros b1 Hb1.
  eapply steps_core_eq; [apply steps_set_ports_state|]. by rewrite Hb1.
Qed.

Lemma link_down_head_inv op b p :
  bridge_inv b → od_get (of_port_no op) (br_ports b) = Some p →
  bridge_inv (alter_port (of_port_no op) (down_port DISABLE true) (core b)
     <| br_ports_state ::= od_set (of_port_no op) (of_state op) |>).
Proof.
  intros Hb Hp. apply set_ports_state_inv.
  - apply bridge_inv_alter; [by apply bridge_inv_core|]. intros q Hq.
    destruct (down_port_inv _ (of_port_no op) DISABLE true q (core_port_inv b _ q Hb Hq))
      as (? & Hr & _); [done|]. split; [done|]. by rewrite Hr.
  - rewrite alter_port_keys. apply od_get_is_key. rewrite get_core, Hp. eauto.
Qed.

Lemma link_down_inv op : preserves bridge_inv (link_down now op).
Proof.
  apply preserves_get_port. intros b p Hb Hp. unfold final. rewrite <- bind_assoc.
  apply bind_inv.
  - eapply preserves_steps; [by eapply link_down_head_steps|]. by eapply link_down_head_inv.
  - intros _. apply preserves_when, recalculate_inv.
Qed.

(** A dictionary of ports without one of them, the numbers of its state likewise. *)
Lemma delete_port_inv b no :
  bridge_inv b →
  bridge_inv (b <| br_ports ::= od_del no |> <| br_ports_state ::= od_del no |>).
Proof.
  intros [Hok Hp Hr Hk].
  assert (Hget : ∀ n p, od_get n (od_del no (br_ports b)) = Some p →
                        od_get n (br_ports b) = Some p).
  { intros n p. rewrite od_get_del. by case_decide. }
  constructor.
  - apply od_ok_del, Hok.
  - intros n p Hg. apply Hp, Hget, Hg.
  - intros k1 p1 k2 p2 H1 H2. apply Hr; by apply Hget.
  - cbn -[od_keys]. by rewrite !od_keys_del, Hk.
Qed.

Lemma port_delete_inv op : preserves bridge_inv (port_delete now op).
Proof.
  unfold port_delete. apply preserves_bind; [apply link_down_inv|]. intros _.
  apply preserves_get_port. intros b p Hb Hp.
  replace (final _ b) with (b <| br_ports ::= od_del (of_port_no op) |>
                              <| br_ports_state ::= od_del (of_port_no op) |>).
  - by apply delete_port_inv.
  - unfold mod_port, final, mbind, M_bind, modify. cbn. by rewrite od_del_alter.
Qed.

(** A new port. *)
Definition sm_start_port (p : port) : port := sm_sleep (p <| p_state_machine := true |>).

Lemma state_machine_start_steps no b p :
  od_get no (br_ports b) = Some p →
  steps (state_machine_start no) b tt (alter_port no sm_start_port (core b)).
Proof.
  intros Hp. unfold state_machine_start. eapply steps_get_core; [exact Hp|]. intros b1 Hb1.
  eapply steps_bind; [apply steps_gets|]. intros b2 Hb2.
  eapply steps_bind; [apply steps_when; [intros _; apply steps_emits|done]|]. intros b3 Hb3.
  eapply steps_core_eq; [by apply (steps_mod_port _ _ sm_start_port)|]. by rewrite Hb3, Hb2, Hb1.
Qed.

Lemma sm_start_port_spec p :
  let q := sm_start_port p in
  p_state q = p_state p ∧ p_role q = p_role p ∧ p_ofport q = p_ofport p ∧
  p_config_enable q = p_config_enable p ∧ p_bridge_id q = p_bridge_id p ∧
  p_designated q = p_designated p ∧ p_wait_bpdu_thread q = p_wait_bpdu_thread p ∧
  p_send_bpdu_thread q = p_send_bpdu_thread p ∧ p_state_machine q = true ∧
  (is_Some (p_state_timer q) → p_state p = Some LISTEN ∨ p_state p = Some LEARN).
Proof.
  unfold sm_start_port, sm_sleep. destruct p as [? ? ? ? ? ? ? st]. cbn.
  split_and!; try done. destruct st as [[]|]; cbn; auto; by intros [].
Qed.

(** What the constructor leaves in the fields the invariant reads. *)
Lemma port_init_spec values conf id times op :
  let p := (port_init values conf id times op).1 in
  p_ofport p = op ∧ p_bridge_id p = id ∧ p_designated p = None ∧
  p_role p = None ∧ p_wait_bpdu_thread p = None ∧
  p_config_enable p = default (pv_enable values) (pc_enable conf).
Proof. done. Qed.

Lemma new_port_inv id no values conf times op rp rt :
  of_port_no op = no → no ≤ MAX_PORT_NO →
  let p := sm_start_port (up_port DESIGNATED_PORT rp rt
             (core_p (port_init values conf id times op).1)) in
  port_inv id no p ∧ p_role p = Some DESIGNATED_PORT.
Proof.
  intros Hno Hmax.
  destruct (port_init_spec values conf id times op) as (i1 & i2 & i3 & i4 & i5 & i6).
  cbn zeta in *. set (p := (port_init values conf id times op).1) in *. clearbody p.
  set (p0 := core_p p <| p_port_priority := rp |> <| p_port_times := rt |>).
  assert (Hp0 : p_ofport p0 = op ∧ p_bridge_id p0 = id ∧ p_designated p0 = None ∧
    p_role p0 = None ∧ p_wait_bpdu_thread p0 = None ∧
    p_config_enable p0 = p_config_enable p) by done.
  unfold up_port. change (p_config_enable (core_p p)) with (p_config_enable p). fold p0.
  clearbody p0. destruct Hp0 as (q1 & q2 & q3 & q4 & q5 & q6).
  destruct (role_port_spec DESIGNATED_PORT p0)
    as (r1 & r2 & r3 & r4 & r5 & r6 & r7 & r8 & r9 & r10 & r11 & r12).
  set (p1 := role_port DESIGNATED_PORT p0) in *. clearbody p1.
  destruct (status_port_spec (if p_config_enable p then LISTEN else DISABLE) p1)
    as (s1 & s2 & s3 & s4 & s5 & s6 & s7 & s8 & s9 & s10 & s11 & s12 & s13 & s14).
  set (p2 := status_port _ p1) in *. clearbody p2.
  destruct (sm_start_port_spec p2) as (t1 & t2 & t3 & t4 & t5 & t6 & t7 & t8 & t9 & t10).
  set (p3 := sm_start_port p2) in *. clearbody p3. cbn zeta in *.
  split; [|congruence].
  constructor; [congruence|done|..]; try congruence.
  - rewrite t4, s4, r4, q6, t1, s1. by intros ->.
  - rewrite t1, s1. eauto.
  - rewrite t2, s2, r1. eauto.
  - rewrite t8, t1, s1. eauto.
  - rewrite t7, s7. intros Hw. exfalso. apply r12; [|done|done].
    rewrite q5. by intros [].
  - by rewrite t1.
Qed.

(** The bridge with a port object put into its dictionary, for the constructor. *)
Definition with_port (op : ofport) (b : bridge) : port * bridge :=
  let conf := default no_port_conf (od_get (of_port_no op) (br_ports_conf b)) in
  let '(p, values) := port_init (br_port_defaults b) conf (br_bridge_id b)
                        (br_bridge_times b) op in
  (p, b <| br_port_defaults := values |> <| br_ports ::= od_set (of_port_no op) p |>).

Lemma od_map_set f no p d :
  map_ports f (od_set no p d) = od_set no (f p) (map_ports f d).
Proof.
  unfold map_ports. induction d as [|[k q] d IH]; [done|].
  cbn [od_set]. rewrite fmap_cons. cbn [od_set fst snd].
  destruct (decide (no = k)); rewrite fmap_cons; [done|]. by rewrite IH.
Qed.

Lemma port_add_steps op b :
  of_port_no op ≤ MAX_PORT_NO →
  steps (port_add now op) b tt
    (alter_port (of_port_no op)
       (λ p, sm_start_port (up_port DESIGNATED_PORT (own_priority (br_bridge_id b))
                              (br_bridge_times b) p))
       (core (with_port op b).2)
     <| br_ports_state ::= od_set (of_port_no op) (of_state op) |>).
Proof.
  intros Hmax. unfold port_add, when. rewrite (proj2 (Z.leb_le _ _)) by done.
  apply (steps_bind _ _ _ b (core b)); [done|]. intros b1 Hb1.
  unfold with_port. destruct (port_init _ _ _ _ _) as [p values] eqn:Hinit. cbn [snd].
  eapply (steps_bind _ _ _ tt (core b <| br_port_defaults := values |>)).
  { split; [done|].
    transitivity (core b1 <| br_port_defaults := values |>); [done|by rewrite Hb1]. }
  intros b2 Hb2.
  eapply (steps_bind _ _ _ tt (core (b <| br_port_defaults := values |>
                                       <| br_ports ::= od_set (of_port_no op) p |>))).
  { split; [done|].
    transitivity (core b2 <| br_ports ::= od_set (of_port_no op) (core_p p) |>).
    - unfold core. cbn. unfold final. cbn. by rewrite od_map_set.
    - rewrite Hb2. unfold core. cbn. by rewrite od_map_set. }
  intros b3 Hb3.
  destruct (core_get_some (of_port_no op) b3 _ (core_p p) Hb3) as (p3 & Hp3 & _).
  { rewrite get_core. cbn. by rewrite od_get_set_eq. }
  eapply steps_bind; [by eapply port_up_steps|]. intros b4 Hb4.
  destruct (core_get_after _ _ _ _ _ Hb4 Hp3) as (p4 & Hp4 & _).
  eapply steps_bind; [by eapply state_machine_start_steps|]. intros b5 Hb5.
  eapply steps_core_eq; [apply steps_set_ports_state|].
  by rewrite Hb5, Hb4, Hb3, alter_port_compose.
Qed.

Lemma port_add_inv op : preserves bridge_inv (port_add now op).
Proof.
  intros b Hb. destruct (Z.leb_spec (of_port_no op) MAX_PORT_NO) as [Hmax|Hmax].
  2: { unfold port_add, when. by rewrite (proj2 (Z.leb_gt _ _)) by lia. }
  eapply preserves_steps; [by apply port_add_steps|].
  set (no := of_port_no op).
  set (conf := default no_port_conf (od_get no (br_ports_conf b))).
  destruct (new_port_inv (br_bridge_id b) no (br_port_defaults b) conf (br_bridge_times b) op
    (own_priority (br_bridge_id b)) (br_bridge_times b) eq_refl Hmax) as [Hinv Hrole].
  unfold with_port. fold no. fold conf.
  destruct (port_init _ _ _ _ _) as [p values] eqn:Hinit. cbn [fst snd] in *.
  set (f := λ p, sm_start_port _) in *.
  assert (Hget : ∀ n q, od_get n (od_alter f no (map_ports core_p (od_set no p (br_ports b))))
      = Some q →
    (n = no ∧ q = f (core_p p)) ∨ (∃ q0, od_get n (br_ports b) = Some q0 ∧ q = core_p q0)).
  { intros n q. rewrite od_get_alter, od_get_map_ports, od_get_set.
    destruct (decide (n = no)) as [->|Hne]; cbn.
    - intros [= <-]. by left.
    - destruct (od_get n (br_ports b)) as [q0|]; [|done]. intros [= <-]. right. eauto. }
  constructor.
  - cbn. apply od_ok_alter. unfold od_ok. rewrite od_keys_map_ports.
    apply od_ok_set, (bi_ok b Hb).
  - intros n q Hq. destruct (Hget n q Hq) as [[-> ->]|(q0 & Hq0 & ->)]; [done|].
    apply port_inv_core. by apply (bi_ports b Hb).
  - intros k1 p1 k2 p2 H1 H2 R1 R2.
    destruct (Hget _ _ H1) as [[-> ->]|(q1 & G1 & ->)]; [unfold f in R1; congruence|].
    destruct (Hget _ _ H2) as [[-> ->]|(q2 & G2 & ->)]; [unfold f in R2; congruence|].
    by apply (bi_root b Hb k1 q1 k2 q2).
  - cbn -[od_keys]. rewrite od_keys_alter, od_keys_map_ports, !od_keys_set.
    by rewrite (bi_state_keys b Hb).
Qed.

Lemma preserves_lift {A} (m : outcome pyexn A) : preserves bridge_inv (lift m : BM A).
Proof. by intros b Hb. Qed.

(** Changes of the fields the invariant does not read, or reads in one direction. *)
Lemma flags_inv id no p tc tt tn :
  port_inv id no p →
  port_inv id no (p <| p_send_tc_flg := tc |> <| p_send_tc_timer := tt |>
                    <| p_send_tcn_flg := tn |>).
Proof. intros []. by constructor. Qed.

Lemma designated_inv id no p m ts :
  complete m → port_inv id no p → port_inv id no (p <| p_designated := Some (m, ts) |>).
Proof. intros Hm []. constructor; try done. by intros ? ? [= <- <-]. Qed.

Lemma waiting_inv id no p t :
  port_inv id no p → is_Some (p_wait_bpdu_thread p) ∨ t = None →
  port_inv id no (p <| p_wait_bpdu_thread := t |>).
Proof.
  intros [? ? ? ? ? ? ? ? ? ? Hw ? ?] Ht. constructor; try done. cbn.
  destruct Ht as [Ht| ->]; [auto|by intros []].
Qed.

Lemma not_sending_inv id no p :
  port_inv id no p → port_inv id no (p <| p_send_bpdu_thread := false |>).
Proof. intros []. by constructor. Qed.

Lemma preserves_get_port_const {A} no (k : port → BM A) :
  (∀ p, preserves bridge_inv (k p)) → preserves bridge_inv (get_port no ≫= k).
Proof. intros Hk. apply preserves_get_port. intros b p Hb _. by apply Hk. Qed.

Lemma rcv_config_bpdu_inv no pkt : preserves bridge_inv (rcv_config_bpdu no pkt).
Proof.
  apply preserves_get_port_const. intros p.
  apply preserves_bind; [apply preserves_lift|]. intros rcv_info.
  apply preserves_bind.
  { apply preserves_when, mod_port_inv. intros id q Hq. split; [|done].
    by apply designated_inv. }
  intros _. apply preserves_bind.
  { apply preserves_when, mod_port_inv. intros id q Hq. unfold update_wait_bpdu_timer.
    destruct (p_wait_bpdu_thread q) eqn:Hw; [|done]. split; [|done].
    apply waiting_inv; [done|left; by rewrite Hw]. }
  intros _. apply preserves_bind; [|intros _; apply preserves_ret].
  apply preserves_when, mod_port_inv. intros id q Hq. split; [|done].
  by apply (flags_inv _ _ q (p_send_tc_flg q) (p_send_tc_timer q) false).
Qed.

Lemma forward_tc_bpdu_inv flg : preserves bridge_inv (forward_tc_bpdu flg).
Proof.
  apply preserves_bind; [apply preserves_gets|]. intros keys.
  apply preserves_for_each. intros no _. apply mod_port_inv. intros id p Hp. split; [|done].
  by apply (flags_inv _ _ p flg (p_send_tc_timer p) (p_send_tcn_flg p)).
Qed.

Lemma packet_in_config_inv no pkt : preserves bridge_inv (packet_in_config now no pkt).
Proof.
  unfold packet_in_config. destruct (_ <? _); [apply preserves_ret|].
  apply preserves_bind; [apply rcv_config_bpdu_inv|]. intros [rcv_info rcv_tc].
  apply preserves_bind.
  { case_bool_decide; [apply recalculate_inv|].
    apply preserves_get_bind. intros b Hb. by destruct rcv_tc. }
  intros _. apply preserves_get_port_const. intros p. apply preserves_when, forward_tc_bpdu_inv.
Qed.

Lemma transmit_ack_bpdu_inv no : preserves bridge_inv (transmit_ack_bpdu no).
Proof.
  apply preserves_get_port_const. intros p.
  apply preserves_bind; [apply preserves_lift|]. intros fr. apply preserves_emit.
Qed.

Lemma bridge_packet_in_inv msg : preserves bridge_inv (bridge_packet_in now msg).
Proof.
  apply preserves_get_bind. intros b Hb.
  destruct (in_port_no (br_ofproto b) msg) as [no|]; [|done].
  destruct (od_get no (br_ports b)) as [p|]; [|done].
  destruct (is_state (p_state p) DISABLE); [done|].
  revert b Hb. apply preserves_bind; [apply preserves_lift|].
  intros [[c| |c]|].
  - apply packet_in_config_inv.
  - apply preserves_bind; [apply transmit_ack_bpdu_inv|].
    intros _. apply topology_change_notify_inv.
  - apply preserves_ret.
  - apply preserves_emit.
Qed.

Lemma transmit_tick_inv no : preserves bridge_inv (transmit_tick now no).
Proof.
  apply preserves_get_port_const. intros p. apply preserves_when, preserves_try.
  - apply preserves_get_port_const. intros q. apply preserves_bind.
    + apply preserves_when, preserves_bind.
      { apply mod_port_inv. intros id r Hr. unfold expire_tc.
        destruct (p_send_tc_timer r); [|done]. destruct (_ <? _); [|done]. split; [|done].
        by apply (flags_inv _ _ r false None (p_send_tcn_flg r)). }
      intros _. apply preserves_get_port_const. intros r.
      apply preserves_bind; [apply preserves_lift|]. intros fr. apply preserves_emit.
    + intros _. apply preserves_when, preserves_bind; [apply preserves_lift|].
      intros fr. apply preserves_emit.
  - intros e m [= <-]. apply preserves_bind; [|intros _; apply preserves_raise].
    apply mod_port_inv. intros id r Hr. split; [by apply not_sending_inv|done].
Qed.

Lemma wait_bpdu_timeout_inv no : preserves bridge_inv (wait_bpdu_timeout no).
Proof.
  apply preserves_get_port_const. intros p.
  destruct (p_wait_bpdu_thread p); [|apply preserves_ret].
  apply preserves_bind; [|intros _; apply preserves_modify; by intros b []].
  apply mod_port_inv. intros id r Hr. split; [|done]. apply waiting_inv; auto.
Qed.

Lemma run_spawned_inv : preserves bridge_inv (run_spawned now).
Proof.
  apply preserves_bind; [apply preserves_gets|]. intros [|n]; [apply preserves_ret|].
  apply preserves_bind; [apply preserves_modify; by intros b []|].
  intros _. apply recalculate_inv.
Qed.

Lemma port_status_inv reason op : preserves bridge_inv (port_status now reason op).
Proof.
  destruct reason; [apply port_add_inv|apply port_delete_inv|].
  apply preserves_get_bind. intros b Hb.
  apply bind_inv; [by destruct (od_get _ _)|]. intros st.
  destruct (st =? of_state op); [apply preserves_ret|].
  destruct (negb _); [apply link_down_inv|apply link_up_inv].
Qed.
End handlers.

(** ** Reachable bridges *)

Inductive bridge_op :=
| OpPortStatus (reason : port_reason) (op : ofport)
| OpPacketIn (msg : packet_in)
| OpStateTimeout (no : Z)
| OpWaitTimeout (no : Z)
| OpSpawned
| OpTransmit (no : Z).

Definition run_op (now : Z) (op : bridge_op) : BM () :=
  match op with
  | OpPortStatus reason op => port_status now reason op
  | OpPacketIn msg => bridge_packet_in now msg
  | OpStateTimeout no => state_timeout now no
  | OpWaitTimeout no => wait_bpdu_timeout no
  | OpSpawned => run_spawned now
  | OpTransmit no => transmit_tick now no
  end.

Lemma run_op_inv now op : preserves bridge_inv (run_op now op).
Proof.
  destruct op; [apply port_status_inv|apply bridge_packet_in_inv|apply state_timeout_inv
    |apply wait_bpdu_timeout_inv|apply run_spawned_inv|apply transmit_tick_inv].
Qed.

Definition bridge_started (b : bridge) : Prop :=
  ∃ now dp values defaults conf system_id,
    b = final (bridge_start now dp) (new_bridge dp values defaults conf system_id).

Definition reachable_bridge : bridge → Prop :=
  reachable bridge_started (λ b nop b', b' = final (run_op nop.1 nop.2) b).

Lemma bridge_start_inv now dp : preserves bridge_inv (bridge_start now dp).
Proof.
  apply preserves_bind.
  - apply preserves_for_each. intros op _. apply port_add_inv.
  - intros _. apply preserves_when, preserves_emit.
Qed.

Lemma new_bridge_inv dp values defaults conf system_id :
  bridge_inv (new_bridge dp values defaults conf system_id).
Proof. by constructor; [apply NoDup_nil_2|..]. Qed.

Lemma reachable_bridge_inv b : reachable_bridge b → bridge_inv b.
Proof.
  apply reachable_inv.
  - intros ? (now & dp & values & defaults & conf & system_id & ->).
    apply bridge_start_inv, new_bridge_inv.
  - intros s [now op] s' Hs ->. by apply run_op_inv.
Qed.

Lemma steps_returns {A} (m : BM A) b a c : steps m b a c → result m b = Ret a.
Proof. by intros [? _]. Qed.

Lemma state_timeout_returns now no b p :
  bridge_inv b → od_get no (br_ports b) = Some p → result (state_timeout now no) b = Ret tt.
Proof.
  intros Hb Hp. pose proof (bi_ports b Hb _ _ Hp) as Hinv.
  destruct (p_state_timer p) as [t|] eqn:Ht.
  - destruct (timer_next_state _ _ _ Hinv) as [st Hst]; [by rewrite Ht|].
    apply (steps_returns _ _ _ (alter_port no (status_port st) (core b))).
    eapply steps_get_core; [exact Hp|]. intros b' Hb'. rewrite Ht, Hst, <- Hb'.
    destruct (core_get_some no b' _ (core_p p) Hb') as (q & Hq & _).
    { by rewrite get_core, Hp. }
    by eapply change_status_steps.
  - apply (steps_returns _ _ _ (core b)).
    eapply steps_get_core; [exact Hp|]. intros b' <-. rewrite Ht. apply steps_ret.
Qed.

Lemma wait_bpdu_timeout_returns no b p :
  od_get no (br_ports b) = Some p → result (wait_bpdu_timeout no) b = Ret tt.
Proof.
  intros Hp. unfold wait_bpdu_timeout, result, mbind, M_bind.
  rewrite (get_port_returns _ _ _ Hp). by destruct (p_wait_bpdu_thread p).
Qed.

Lemma run_spawned_returns now b : bridge_inv b → result (run_spawned now) b = Ret tt.
Proof.
  intros Hb. unfold run_spawned, result, mbind, M_bind, gets, modify. cbn.
  destruct (br_spawned b) as [|n]; [done|].
  destruct (recalculate_true_spec now (b <| br_spawned := n |>)) as [Hret _].
  { by destruct Hb. }
  unfold result in Hret. unfold set_field, setter_fun in *. cbn in *.
  by destruct (recalculate_spanning_tree now true _) as [[? ?] ?].
Qed.

(** C14: In every state a bridge reaches, whatever packets, port events and timer expiries
    it sees, ports have distinct numbers up to [MAX_PORT_NO], at most one is the root
    port, a disabled port is designated, a port outside the tree never forwards, ports
    send BPDUs only while active and wait for BPDUs only as root or non-designated
    port, the state machine has a timer only while listening or learning, and the
    information held is complete.  So the timers' actions never raise. *)
Theorem stp_invariant (b : bridge) :
  reachable_bridge b →
  bridge_inv b ∧
  ∀ now no, no ∈ od_keys (br_ports b) →
    result (state_timeout now no) b = Ret tt ∧
    result (wait_bpdu_timeout no) b = Ret tt ∧
    result (run_spawned now) b = Ret tt.
Proof.
  intros Hr. pose proof (reachable_bridge_inv b Hr) as Hb. split; [done|].
  intros now no Hno. apply od_get_is_key in Hno as [p Hp].
  pose proof (bi_ports b Hb _ _ Hp) as Hinv. split_and!.
  - by eapply state_timeout_returns.
  - by eapply wait_bpdu_timeout_returns.
  - by apply run_spawned_returns.
Qed.

(** ** The state machine of a port *)

Lemma state_timeout_steps now no b p t st :
  od_get no (br_ports b) = Some p → p_state_timer p = Some t → get_next_state p = Some st →
  steps (state_timeout now no) b tt (alter_port no (status_port st) (core b)).
Proof.
  intros Hp Ht Hst. eapply steps_get_core; [exact Hp|]. intros b' Hb'.
  rewrite Ht, Hst, <- Hb'.
  destruct (core_get_some no b' _ (core_p p) Hb') as (q & Hq & _).
  { by rewrite get_core, Hp. }
  by eapply change_status_steps.
Qed.

Lemma steps_get {A} (m : BM A) b a no f p :
  steps m b a (alter_port no f (core b)) → od_get no (br_ports b) = Some p →
  ∃ q, od_get no (br_ports (final m b)) = Some q ∧ core_p q = f (core_p p).
Proof. intros [_ Hc] Hp. by eapply core_get_after. Qed.

Lemma status_port_timer st p :
  p_state_machine p = true →
  p_state_timer (status_port st p) =
    match st with
    | LISTEN | LEARN => if t_forward_delay (p_port_times p) =? 0 then None
                        else Some (t_forward_delay (p_port_times p))
    | _ => None
    end.
Proof.
  destruct p as [? ? ? ? ? ? ? ? ? ? ? ? ? ? ? sm ?]. cbn. intros ->.
  destruct st; done.
Qed.

Lemma up_port_timer ro rp rt p :
  p_config_enable p = true → p_state_machine p = true →
  p_state_timer (up_port ro rp rt p) =
    if t_forward_delay rt =? 0 then None else Some (t_forward_delay rt).
Proof.
  intros Hen Hm. unfold up_port. rewrite Hen.
  destruct (role_port_spec ro (p <| p_port_priority := rp |> <| p_port_times := rt |>))
    as (_ & _ & _ & _ & _ & _ & r7 & _ & r9 & _).
  rewrite status_port_timer; [|rewrite r7; exact Hm]. by rewrite r9.
Qed.

(** Two expiries of the timer of a port that listens. *)
Lemma listen_twice now1 now2 no b p ro :
  bridge_inv b → od_get no (br_ports b) = Some p → p_state p = Some LISTEN →
  is_Some (p_state_timer p) → t_forward_delay (p_port_times p) ≠ 0 → p_role p = Some ro →
  let b1 := final (state_timeout now1 no) b in
  let b2 := final (state_timeout now2 no) b1 in
  ∃ p1 p2, od_get no (br_ports b1) = Some p1 ∧ od_get no (br_ports b2) = Some p2 ∧
    p_state p1 = Some LEARN ∧ p_state_timer p1 = Some (t_forward_delay (p_port_times p)) ∧
    p_state p2 = Some (match ro with NON_DESIGNATED_PORT => BLOCK | _ => FORWARD end) ∧
    p_state_timer p2 = None ∧ p_role p1 = Some ro ∧ p_role p2 = Some ro ∧
    p_designated p2 = p_designated p.
Proof.
  intros Hb Hp Hs [t Ht] Hfd Hro b1 b2.
  assert (Hn : get_next_state p = Some LEARN) by (unfold get_next_state; by rewrite Hs).
  destruct (steps_get _ _ _ _ _ _ (state_timeout_steps now1 no b p t LEARN Hp Ht Hn) Hp)
    as (p1 & Hp1 & Hc1). fold b1 in Hp1.
  pose proof (pi_machine _ _ _ (bi_ports b Hb _ _ Hp)) as Hm.
  pose proof (status_port_timer LEARN (core_p p) Hm) as Ht1.
  destruct (status_port_spec LEARN (core_p p))
    as (s1 & s2 & _ & _ & _ & s6 & _ & s8 & _ & s10 & _).
  rewrite <- Hc1 in *.
  apply Z.eqb_neq in Hfd as Hfd'.
  change (p_port_times (core_p p)) with (p_port_times p) in *. rewrite Hfd' in Ht1.
  assert (Hst : p_state p1 = Some LEARN) by exact s1.
  assert (Hr1 : p_role p1 = Some ro) by (rewrite <- Hro; exact s2).
  set (st := match ro with NON_DESIGNATED_PORT => BLOCK | _ => FORWARD end).
  assert (Hn1 : get_next_state p1 = Some st).
  { unfold get_next_state. rewrite Hst, Hr1. by destruct ro. }
  destruct (steps_get _ _ _ _ _ _ (state_timeout_steps now2 no b1 p1 _ st Hp1 Ht1 Hn1) Hp1)
    as (p2 & Hp2 & Hc2). fold b2 in Hp2.
  assert (Hm1 : p_state_machine (core_p p1) = true) by (rewrite s8; exact Hm).
  pose proof (status_port_timer st (core_p p1) Hm1) as Ht2.
  destruct (status_port_spec st (core_p p1)) as (u1 & u2 & _ & _ & _ & u6 & _).
  rewrite <- Hc2 in *.
  exists p1, p2. split_and!; try done.
  - change (p_state_timer (core_p p2) = None). rewrite Ht2. unfold st. by destruct ro.
  - change (p_role (core_p p2) = Some ro). rewrite u2. exact Hr1.
  - change (p_designated (core_p p2) = p_designated p). by rewrite u6.
Qed.

(** The port state machine makes progress: in a reachable bridge a listening port
    whose forward delay is not zero is learning after one expiry of its timer, which is
    then armed with the forward delay again, and after the next one forwards if it is
    the root port or a designated port and is blocked otherwise. *)
Theorem port_reaches_forwarding (now1 now2 no : Z) (b : bridge) (p : port) (ro : port_role) :
  reachable_bridge b → od_get no (br_ports b) = Some p → p_state p = Some LISTEN →
  is_Some (p_state_timer p) → t_forward_delay (p_port_times p) ≠ 0 → p_role p = Some ro →
  let b1 := final (state_timeout now1 no) b in
  let b2 := final (state_timeout now2 no) b1 in
  result (state_timeout now1 no) b = Ret tt ∧ result (state_timeout now2 no) b1 = Ret tt ∧
  ∃ p1 p2, od_get no (br_ports b1) = Some p1 ∧ od_get no (br_ports b2) = Some p2 ∧
    p_state p1 = Some LEARN ∧ p_state_timer p1 = Some (t_forward_delay (p_port_times p)) ∧
    p_state p2 = Some (match ro with NON_DESIGNATED_PORT => BLOCK | _ => FORWARD end) ∧
    p_state_timer p2 = None ∧ p_role p1 = Some ro ∧ p_role p2 = Some ro.
Proof.
  intros Hr Hp Hs Ht Hfd Hro b1 b2.
  pose proof (reachable_bridge_inv b Hr) as Hb.
  destruct (listen_twice now1 now2 no b p ro Hb Hp Hs Ht Hfd Hro)
    as (p1 & p2 & Hp1 & Hp2 & ? & ? & ? & ? & ? & ? & _).
  split_and!; [by eapply state_timeout_returns| |by exists p1, p2].
  eapply state_timeout_returns; [|exact Hp1]. by apply state_timeout_inv.
Qed.

(** A change of a port's state bits other than link down makes [port_status_handler]
    call [link_up] although the link never went down: an enabled port that the spanning
    tree blocked becomes a designated port and forwards after two forward delays, while
    it still holds the information because of which it was blocked. *)
Theorem link_up_unblocks (now now1 now2 st : Z) (b : bridge) (op : ofport) (p : port) :
  reachable_bridge b → od_get (of_port_no op) (br_ports b) = Some p →
  p_config_enable p = true → p_role p = Some NON_DESIGNATED_PORT →
  od_get (of_port_no op) (br_ports_state b) = Some st → st ≠ of_state op →
  Z.land (of_state op) 1 = 0 → t_forward_delay (br_root_times b) ≠ 0 →
  let b1 := final (port_status now OFPPR_MODIFY op) b in
  let b2 := final (state_timeout now1 (of_port_no op)) b1 in
  let b3 := final (state_timeout now2 (of_port_no op)) b2 in
  result (port_status now OFPPR_MODIFY op) b = Ret tt ∧
  ∃ p3, od_get (of_port_no op) (br_ports b3) = Some p3 ∧
    p_state p3 = Some FORWARD ∧ p_role p3 = Some DESIGNATED_PORT ∧
    p_designated p3 = p_designated p.
Proof.
  intros Hr Hp Hen Hro Hst Hne Hlink Hfd b1 b2 b3.
  pose proof (reachable_bridge_inv b Hr) as Hb.
  set (no := of_port_no op) in *.
  assert (Hrun : port_status now OFPPR_MODIFY op b = link_up now op b).
  { cbn [port_status]. unfold port_status_modify, mbind, M_bind, get_st. fold no. rewrite Hst.
    cbn. apply Z.eqb_neq in Hne. rewrite Hne, Hlink. cbn.
    by destruct (link_up now op b) as [[? ?] ?]. }
  assert (Hb1 : b1 = final (link_up now op) b).
  { unfold b1, final. by rewrite Hrun. }
  pose proof (link_up_steps now op b p Hp) as [Hret Hc]. fold no in Hc.
  assert (Hinv1 : bridge_inv b1) by (rewrite Hb1; by apply link_up_inv).
  split; [unfold result in *; by rewrite Hrun|].
  destruct (up_port_inv _ no DESIGNATED_PORT (br_root_priority b) (br_root_times b) (core_p p)
    (proj2 (port_inv_core _ _ _) (bi_ports b Hb _ _ Hp)))
    as (Hq & q2 & q3 & q4 & q5 & q6 & q7 & q8 & _); [by right|].
  rewrite <- Hb1 in Hc.
  destruct (core_get_some no b1 _
    (up_port DESIGNATED_PORT (br_root_priority b) (br_root_times b) (core_p p)) Hc)
    as (p1 & Hp1 & Hc1).
  { cbn. by rewrite od_get_alter, decide_True, od_get_map_ports, Hp. }
  change (p_config_enable (core_p p)) with (p_config_enable p) in q5. rewrite Hen in q5.
  assert (Htimer : is_Some (p_state_timer p1)).
  { change (is_Some (p_state_timer (core_p p1))). rewrite Hc1, up_port_timer; [|exact Hen|].
    - apply Z.eqb_neq in Hfd. rewrite Hfd. eauto.
    - exact (pi_machine _ _ _ (bi_ports b Hb _ _ Hp)). }
  rewrite <- Hc1 in *.
  destruct (listen_twice now1 now2 no b1 p1 DESIGNATED_PORT Hinv1 Hp1 q5 Htimer)
    as (_ & p3 & _ & Hp3 & _ & _ & H3 & _ & _ & H4 & H5).
  { change (p_port_times p1) with (p_port_times (core_p p1)). by rewrite q4. }
  { exact q2. }
  exists p3. split_and!; [done|done|done|]. rewrite H5. exact q8.
Qed.

(** ** The configuration of a port *)

Lemma port_add_port now op b :
  of_port_no op ≤ MAX_PORT_NO →
  let '(p, values) := port_init (br_port_defaults b)
        (default no_port_conf (od_get (of_port_no op) (br_ports_conf b)))
        (br_bridge_id b) (br_bridge_times b) op in
  let b' := final (port_add now op) b in
  br_port_defaults b' = values ∧
  ∃ p', od_get (of_port_no op) (br_ports b') = Some p' ∧
        p_path_cost p' = p_path_cost p ∧ p_port_id p' = p_port_id p ∧
        p_config_enable p' = p_config_enable p.
Proof.
  intros Hmax. destruct (port_add_steps now op b Hmax) as [_ Hc].
  unfold with_port in Hc.
  destruct (port_init _ _ _ _ _) as [p values] eqn:Hinit. cbn [snd] in Hc. cbn zeta.
  split; [apply (f_equal br_port_defaults Hc)|].
  destruct (core_get_some (of_port_no op) _ _
    (sm_start_port (up_port DESIGNATED_PORT (own_priority (br_bridge_id b))
       (br_bridge_times b) (core_p p))) Hc) as (p' & Hp' & Hcp).
  { cbn. by rewrite od_get_alter, decide_True, od_map_set, od_get_set_eq. }
  exists p'. split; [done|].
  destruct (role_port_spec DESIGNATED_PORT (core_p p
    <| p_port_priority := own_priority (br_bridge_id b) |>
    <| p_port_times := br_bridge_times b |>))
    as (_ & _ & _ & r4 & _ & _ & _ & _ & _ & r10 & r11 & _).
  destruct (status_port_spec (if p_config_enable (core_p p) then LISTEN else DISABLE)
    (role_port DESIGNATED_PORT (core_p p
       <| p_port_priority := own_priority (br_bridge_id b) |>
       <| p_port_times := br_bridge_times b |>)))
    as (_ & _ & _ & s4 & _ & _ & _ & _ & _ & _ & s11 & s12 & _).
  change (p_path_cost p') with (p_path_cost (core_p p')).
  change (p_port_id p') with (p_port_id (core_p p')).
  change (p_config_enable p') with (p_config_enable (core_p p')).
  rewrite Hcp. split_and!.
  - transitivity (p_path_cost (up_port DESIGNATED_PORT (own_priority (br_bridge_id b))
       (br_bridge_times b) (core_p p))); [done|]. exact (eq_trans s12 r11).
  - transitivity (p_port_id (up_port DESIGNATED_PORT (own_priority (br_bridge_id b))
       (br_bridge_times b) (core_p p))); [done|]. exact (eq_trans s11 r10).
  - transitivity (p_config_enable (up_port DESIGNATED_PORT (own_priority (br_bridge_id b))
       (br_bridge_times b) (core_p p))); [done|]. exact (eq_trans s4 r4).
Qed.

(** Two configurations give the same port and leave the same class attribute. *)
Definition same_port_for (c1 c2 : port_conf) : Prop :=
  ∀ defaults id times op,
    port_init defaults c1 id times op = port_init defaults c2 id times op.

(** The constructor of a port ignores the configured priority and path cost: the port
    is the same for every configuration with the same [enable].  A port takes its path
    cost from the speed of its link, and when that speed has no entry in the table, from
    the port constructed before it, because the constructor writes into the class
    attribute with the default values. *)
Theorem port_config_ignored (now cost : Z) (b : bridge) (op1 op2 : ofport) :
  of_port_no op1 ≤ MAX_PORT_NO → of_port_no op2 ≤ MAX_PORT_NO →
  link_path_cost (of_curr op1) = Some cost → link_path_cost (of_curr op2) = None →
  (∀ c1 c2, pc_enable c1 = pc_enable c2 → same_port_for c1 c2) ∧
  let b' := final (port_add now op2) (final (port_add now op1) b) in
  ∃ p, od_get (of_port_no op2) (br_ports b') = Some p ∧ p_path_cost p = cost.
Proof.
  intros H1 H2 Hc1 Hc2. split.
  { intros c1 c2 He defaults id times op. unfold port_init. by rewrite He. }
  pose proof (port_add_port now op1 b H1) as Ha.
  unfold port_init in Ha. rewrite Hc1 in Ha. destruct Ha as [Hdef _].
  pose proof (port_add_port now op2 (final (port_add now op1) b) H2) as Hb.
  unfold port_init in Hb. rewrite Hc2 in Hb. destruct Hb as (_ & p & Hp & Hcost & _).
  exists p. split; [done|]. rewrite Hcost. cbn [p_path_cost]. by rewrite Hdef.
Qed.

(** ** From the BPDU one bridge sends to the election in another *)

(** The fields of the BPDU a port generates are within their widths. *)
Definition sendable (p : port) : Prop :=
  let rp := p_port_priority p in
  valid_bridge_id (bid_priority (pr_root_id rp)) 0 (bid_mac_addr (pr_root_id rp)) ∧
  valid_bridge_id (bid_priority (p_bridge_id p)) 0 (bid_mac_addr (p_bridge_id p)) ∧
  0 ≤ pr_root_path_cost rp + p_path_cost p < 2 ^ 32 ∧
  valid_port_id (pid_priority (p_port_id p)) (of_port_no (p_ofport p)) ∧
  valid_timer (t_message_age (p_port_times p) + second) ∧
  valid_timer (t_max_age (p_port_times p)) ∧
  valid_timer (t_hello_time (p_port_times p)) ∧
  valid_timer (t_forward_delay (p_port_times p)) ∧
  second ≤ t_max_age (p_port_times p).

(** The information another bridge reads from it: the system identifier extensions are
    zero and the timers whole seconds. *)
Definition without_ext (id : BridgeId) : BridgeId :=
  mkBridgeId (bid_priority id) 0 (bid_mac_addr id).

Definition advertised (p : port) : Priority :=
  mkPriority (without_ext (pr_root_id (p_port_priority p)))
    (pr_root_path_cost (p_port_priority p) + p_path_cost p)
    (Some (without_ext (p_bridge_id p)))
    (Some (mkPortId (pid_priority (p_port_id p)) (of_port_no (p_ofport p)))).

Definition advertised_times (p : port) : Times :=
  let ts := p_port_times p in
  mkTimes (encode_timer (t_message_age ts + second)) (encode_timer (t_max_age ts))
    (encode_timer (t_hello_time ts)) (encode_timer (t_forward_delay ts)).

Lemma be_value_zeros bs : forallb (Z.eqb 0) bs = true → be_value bs = 0.
Proof.
  induction bs as [|x bs IH] using rev_ind; [done|].
  rewrite forallb_app. cbn [forallb]. intros [Hbs [<-%Z.eqb_eq _]%andb_true_iff]%andb_true_iff.
  rewrite be_value_app, IH by done. done.
Qed.

Lemma forallb_take_drop n bs :
  forallb (Z.eqb 0) bs = true →
  forallb (Z.eqb 0) (take n bs) = true ∧ forallb (Z.eqb 0) (drop n bs) = true.
Proof.
  intros H. rewrite <- (take_drop n bs), forallb_app in H. by apply andb_true_iff in H.
Qed.

Lemma unpack_zeros ns bs zs :
  forallb (Z.eqb 0) bs = true → unpack ns bs = Ret zs → Forall (eq 0) zs.
Proof.
  revert bs zs. induction ns as [|n ns IH]; intros bs zs Hbs; cbn.
  { intros [= <-]. constructor. }
  unfold unpack_field. destruct (_ <? _)%nat; cbn; [done|].
  destruct (forallb_take_drop n bs Hbs) as [H1 H2].
  destruct (unpack ns (drop n bs)) as [zs'|] eqn:Hu; cbn; [|done]. intros [= <-].
  constructor; [by rewrite be_value_zeros|by eapply IH].
Qed.

Lemma config_parser_zeros buf c rest new :
  (∀ b b', new b = Ret b' → b' = b) →
  forallb (Z.eqb 0) buf = true → config_parser new buf = Ret (c, rest) → max_age c = 0.
Proof.
  intros Hnew Hz. unfold config_parser.
  destruct (unpack CONFIG_PACK_STR buf) as [zs|] eqn:Hu; [|done].
  apply unpack_zeros in Hu; [|done]. cbn [mbind outcome_bind].
  destruct (config_of_fields zs) as [b|] eqn:Hb; [|done].
  destruct (new b) as [b'|] eqn:Hn; cbn [mbind outcome_bind]; [|done]. intros [= <- _].
  apply Hnew in Hn as ->. unfold config_of_fields in Hb.
  destruct zs as [|? [|? [|? [|? [|? [|? [|? [|? [|? []]]]]]]]]]; try done.
  injection Hb as <-. cbn. repeat match goal with H : Forall _ (_ :: _) |- _ =>
    apply Forall_cons in H as [? H] end. done.
Qed.

Lemma parser_zeros buf c rest :
  forallb (Z.eqb 0) buf = true → parser buf = Ret (Parsed (ConfigurationBPDUs c) rest) →
  max_age c = 0.
Proof.
  intros Hz. unfold parser. case_match; [done|].
  destruct (unpack BASE_PACK_STR buf) as [zs|]; [|done]. cbn [mbind outcome_bind].
  repeat (case_match; try done).
  - destruct (config_parser new_config_bpdu (drop BASE_PACK_LEN buf)) as [[c' rest']|] eqn:Hp;
      cbn [mbind outcome_bind]; [|done]. intros [= <- <-].
    eapply config_parser_zeros; [|by apply forallb_take_drop|exact Hp].
    intros b b'. unfold new_config_bpdu. case_match; congruence.
  - by destruct (rst_parser _) as [[? ?]|].
Qed.

Definition generated (p : port) (fl : Z) : config_bpdu :=
  ConfigBpdu fl
    (bid_priority (pr_root_id (p_port_priority p))) 0
    (bid_mac_addr (pr_root_id (p_port_priority p)))
    (pr_root_path_cost (p_port_priority p) + p_path_cost p)
    (bid_priority (p_bridge_id p)) 0 (bid_mac_addr (p_bridge_id p))
    (pid_priority (p_port_id p)) (of_port_no (p_ofport p))
    (t_message_age (p_port_times p) + second) (t_max_age (p_port_times p))
    (t_hello_time (p_port_times p)) (t_forward_delay (p_port_times p)).

Definition bpdu_flags (fl : Z) : Prop := fl = 0 ∨ fl = 1 ∨ fl = 0x81.

Lemma generated_received p fl msg pad :
  sendable p → bpdu_flags fl →
  ∃ fr, generate_config_bpdu p fl = Ret fr ∧
    (m_bpdu msg = Some (fr_bpdu fr ++ pad) →
     packet_bpdu msg = Ret (Some (ConfigurationBPDUs (whole_seconds (generated p fl))))).
Proof.
  intros (H1 & H2 & H3 & H4 & H5 & H6 & H7 & H8 & H9) Hfl.
  assert (Hf : 0 ≤ fl < 256 ∧ Z.land (Z.shiftr fl 1) 0x3f = 0).
  { by destruct Hfl as [->|[->| ->]]. }
  assert (Hv : valid_fields (generated p fl)).
  { exact (conj (proj1 Hf) (conj H1 (conj H3 (conj H2 (conj H4 (conj H5
             (conj H6 (conj H7 H8)))))))). }
  destruct (config_roundtrip (generated p fl) pad Hv (proj2 Hf)) as (bs & Hs & Hp).
  unfold generate_config_bpdu. fold (generated p fl).
  assert (Hnew : new_config_bpdu (generated p fl) = Ret (generated p fl)).
  { unfold new_config_bpdu, check_parameters.
    pose proof (check_id_parameters_valid (generated p fl) Hv) as Hc.
    change (check_id_parameters (whole_seconds (generated p fl)))
      with (check_id_parameters (generated p fl)) in Hc.
    rewrite Hc. change (flags (generated p fl)) with fl. by rewrite (proj2 Hf). }
  rewrite Hnew. cbn [mbind outcome_bind]. rewrite Hs. cbn [mbind outcome_bind].
  eexists. split; [done|]. cbn [fr_bpdu]. unfold packet_bpdu. intros ->.
  destruct (forallb (Z.eqb 0) (bs ++ pad)) eqn:Hz; [|by rewrite Hp].
  exfalso. pose proof (parser_zeros _ _ _ Hz Hp) as Hm. cbn in Hm.
  unfold encode_timer, second in *. rewrite Z.quot_div_nonneg in Hm by lia.
  assert (1 ≤ t_max_age (p_port_times p) / 256) by (apply Z.div_le_lower_bound; lia). lia.
Qed.

Lemma generated_priority p fl : msg_priority (whole_seconds (generated p fl)) = advertised p.
Proof. done. Qed.

(** A BPDU that is better than what the receiving port holds. *)
Lemma compare_superior d m ts :
  match d with
  | None => True
  | Some (m0, _) => complete m0 ∧ lex_lt (info_vec m) (info_vec m0)
  end → complete m →
  compare_bpdu_info (fst <$> d) (snd <$> d) m ts = Ret SUPERIOR.
Proof.
  destruct d as [[m0 ts0]|]; [|done]. intros [H0 Hlt] Hm. cbn -[compare_bpdu_info].
  destruct (complete_elim m0 H0) as (mr & mc & mb & mp & ->).
  destruct (complete_elim m Hm) as (rr & rc & rb & rp & ->).
  unfold compare_bpdu_info, info_vec, path_vec in *. cbn in Hlt |- *.
  destruct (cmp_value_cases (bid_value rr) (bid_value mr)) as [[H ->]|[[H ->]|[H ->]]];
    [done| |lia]. cbn.
  pose proof (compare_root_path_cases rc mc (bid_value rb) (bid_value mb)
                (pid_value rp) (pid_value mp)) as Hp.
  destruct (compare_root_path _ _ _ _ _ _); cbn in Hp; [done| |lia].
  injection Hp as ? ? ?. lia.
Qed.

(** Receiving it stores the information. *)
Lemma rcv_superior no pkt b p :
  od_get no (br_ports b) = Some p →
  compare_bpdu_info (fst <$> p_designated p) (snd <$> p_designated p)
    (msg_priority pkt) (msg_times pkt) = Ret SUPERIOR →
  ∃ tc f, steps (rcv_config_bpdu no pkt) b (SUPERIOR, tc) (alter_port no f (core b)) ∧
    (∀ q, p_designated (f q) = Some (msg_priority pkt, msg_times pkt) ∧
          p_state (f q) = p_state q ∧ p_ofport (f q) = p_ofport q ∧
          p_port_id (f q) = p_port_id q ∧ p_path_cost (f q) = p_path_cost q).
Proof.
  intros Hp Hcmp.
  set (f1 := λ p : port, p <| p_designated := Some (msg_priority pkt, msg_times pkt) |>).
  set (listening := is_role (p_role p) ROOT_PORT || is_role (p_role p) NON_DESIGNATED_PORT).
  set (f2 := λ q, if listening then update_wait_bpdu_timer q else q).
  assert (Hf2 : ∀ q, core_p (f2 q) = f2 (core_p q)).
  { intros q. unfold f2, update_wait_bpdu_timer. destruct listening; [|done].
    destruct q as [? ? ? ? ? ? ? ? ? ? ? w]. by destruct w. }
  eexists _, (λ q, f2 (f1 q)). split.
  - unfold rcv_config_bpdu. eapply steps_get_core; [exact Hp|]. intros b1 Hb1.
    apply (steps_bind _ _ _ SUPERIOR (core b1)).
    { unfold lift, steps, result, final. cbn [fst snd]. by rewrite Hcmp. }
    intros b2 Hb2. rewrite Hb1 in Hb2. cbn [when bool_decide].
    eapply (steps_bind _ _ _ tt (alter_port no f1 (core b))).
    { eapply steps_core_eq; [by apply (steps_mod_port _ _ f1)|]. by rewrite Hb2. }
    intros b3 Hb3.
    eapply (steps_bind _ _ _ tt (alter_port no (λ q, f2 (f1 q)) (core b))).
    { rewrite <- (alter_port_compose no f2 f1), <- Hb3. fold listening.
      unfold f2. destruct listening; [by apply steps_mod_port|].
      eapply steps_core_eq; [apply steps_ret|]. by rewrite alter_port_id. }
    intros b4 <-.
    eapply steps_bind.
    { apply (steps_when _ _ _ (core b4)); [|done]. intros _. by apply steps_mod_port_id. }
    intros b5 <-. apply steps_ret.
  - intros q. unfold f2, f1, update_wait_bpdu_timer.
    destruct listening; [|done]. cbn. by destruct (p_wait_bpdu_thread q).
Qed.

Lemma bind_ret {A B} (m : BM A) (k : A → BM B) b a :
  result m b = Ret a →
  result (m ≫= k) b = result (k a) (final m b) ∧
  final (m ≫= k) b = final (k a) (final m b).
Proof.
  unfold result, final, mbind, M_bind. destruct (m b) as [[o1 b1] r]. cbn. intros ->.
  by destruct (k a b1) as [[? ?] ?].
Qed.

Lemma inv_ports_ok b : bridge_inv b → ports_ok (br_ports b).
Proof.
  intros Hb. split; [apply (bi_ok b Hb)|]. intros k p Hin.
  apply od_elem_get in Hin; [|apply (bi_ok b Hb)].
  pose proof (bi_ports b Hb _ _ Hin) as []. done.
Qed.

Lemma forward_tc_steps flg b : steps (forward_tc_bpdu flg) b tt (core b).
Proof.
  unfold forward_tc_bpdu. eapply steps_bind; [apply steps_gets|]. intros b1 <-.
  apply steps_for_each_id. intros no b'. by apply steps_mod_port_id.
Qed.

(** The best port of a bridge whose port [no] holds [m], better than every other. *)
Lemma best_is own b r no p m :
  bridge_inv b → best_root own (od_values (br_ports b)) r →
  od_get no (br_ports b) = Some p → heard p m → bid_value (pr_root_id m) < own →
  (∀ n q mq, n ≠ no → od_get n (br_ports b) = Some q → heard q mq →
     lex_lt (info_vec m) (info_vec mq)) →
  r = Some p.
Proof.
  intros Hb Hbest Hp Hh Hlt Hothers.
  destruct (ports_ok_get _ _ _ (inv_ports_ok b Hb) Hp) as (Hno & _ & Hin).
  destruct r as [q|].
  2: { specialize (Hbest p m Hin Hh). lia. }
  destruct Hbest as (mq & l1 & l2 & Hl & Hq & _ & H1 & H2).
  assert (Hqin : q ∈ od_values (br_ports b)) by (rewrite Hl; set_solver).
  destruct (ports_ok_value _ _ (inv_ports_ok b Hb) Hqin) as [Hqget _].
  destruct (decide (of_port_no (p_ofport q) = no)) as [Heq|Hne].
  { rewrite Heq in Hqget. congruence. }
  pose proof (Hothers _ q mq Hne Hqget Hq) as Hm.
  rewrite Hl, elem_of_app, elem_of_cons in Hin. destruct Hin as [Hin|[->|Hin]].
  - destruct (lex_lt_irrefl (info_vec m)). eapply lex_lt_trans; [exact Hm|]. by eapply H1.
  - done.
  - by destruct (H2 p m Hin Hh).
Qed.

(** The ports after better information was received, and after the election. *)
Lemma superior_ports b b1 b2 no p f m ts :
  core b1 = alter_port no f (core b) →
  (∀ q, p_designated (f q) = Some (m, ts) ∧ p_state (f q) = p_state q ∧
        p_ofport (f q) = p_ofport q ∧ p_port_id (f q) = p_port_id q ∧
        p_path_cost (f q) = p_path_cost q) →
  od_get no (br_ports b) = Some p → p_state p ≠ Some DISABLE → elected b1 b2 →
  (∃ p2 r, od_get no (br_ports b2) = Some p2 ∧ heard p2 m ∧ p_designated p2 = Some (m, ts) ∧
           p_state p2 = Some LISTEN ∧ p_role p2 = Some (role_of (br_bridge_id b1) r p2) ∧
           best_root (bid_value (br_bridge_id b1)) (od_values (br_ports b2)) r ∧
           match r with
           | None => True
           | Some q => p_designated q = Some (br_root_priority b2, br_root_times b2)
           end) ∧
  (od_keys (br_ports b2) = od_keys (br_ports b1) →
   ∀ n q mq, n ≠ no → od_get n (br_ports b2) = Some q → heard q mq →
     ∃ q0, od_get n (br_ports b) = Some q0 ∧ heard q0 mq).
Proof.
  intros Hc Hf Hp Hs (r & Hbest & Hroot & Hports). split.
  - destruct (core_get_after _ _ _ _ _ Hc Hp) as (p1 & Hp1 & Hc1).
    destruct (Hf (core_p p)) as (f1 & f2 & _). rewrite <- Hc1 in f1, f2.
    destruct (Hports no p1 Hp1) as (p2 & Hp2 & e1 & _ & _ & _ & e5).
    assert (Hs1 : p_state p1 ≠ Some DISABLE).
    { change (p_state p1) with (p_state (core_p p1)). rewrite f2. exact Hs. }
    destruct (e5 Hs1) as (g1 & g2 & _).
    assert (Hd : p_designated p2 = Some (m, ts)) by (rewrite e1; exact f1).
    exists p2, r. split_and!; try done.
    + split; [by rewrite g1|by rewrite Hd].
    + by destruct r.
  - intros Hk n q mq Hne Hq Hh.
    assert (Hin : n ∈ od_keys (br_ports b1)).
    { rewrite <- Hk. by eapply key_of. }
    apply od_get_is_key in Hin as [q1 Hq1].
    destruct (Hports n q1 Hq1) as (q' & Hq' & e1 & _ & _ & e4 & _).
    rewrite Hq in Hq'. injection Hq' as <-.
    assert (Hcq : od_get n (br_ports (core b1)) = od_get n (br_ports (core b))).
    { rewrite Hc. cbn. by rewrite od_get_alter, decide_False. }
    rewrite !get_core, Hq1 in Hcq.
    destruct (od_get n (br_ports b)) as [q0|] eqn:Hq0; [|done]. apply (inj Some) in Hcq.
    exists q0. split; [done|].
    destruct Hh as [Hqs Hqd]. split.
    + intros Hd0. destruct Hqs.
      assert (Hd1 : p_state q1 = Some DISABLE).
      { change (p_state (core_p q1) = Some DISABLE). by rewrite Hcq. }
      change (p_state (core_p q) = Some DISABLE). by rewrite (e4 Hd1).
    + rewrite e1 in Hqd. change (p_designated q0) with (p_designated (core_p q0)).
      by rewrite <- Hcq.
Qed.

Lemma superior_elects now no pkt b p :
  bridge_inv b → od_get no (br_ports b) = Some p → p_state p ≠ Some DISABLE →
  message_age pkt ≤ max_age pkt →
  bid_value (pr_root_id (msg_priority pkt)) < bid_value (br_bridge_id b) →
  (∀ n q mq, od_get n (br_ports b) = Some q → heard q mq →
     lex_lt (info_vec (msg_priority pkt)) (info_vec mq)) →
  let b' := final (packet_in_config now no pkt) b in
  result (packet_in_config now no pkt) b = Ret tt ∧
  br_root_priority b' = msg_priority pkt ∧ br_root_times b' = msg_times pkt ∧
  ∃ p', od_get no (br_ports b') = Some p' ∧ p_state p' = Some LISTEN ∧
        p_role p' = Some ROOT_PORT.
Proof.
  intros Hb Hp Hs Hage Hlt Hbest. cbn zeta.
  assert (Hcmp : compare_bpdu_info (fst <$> p_designated p) (snd <$> p_designated p)
                   (msg_priority pkt) (msg_times pkt) = Ret SUPERIOR).
  { apply compare_superior; [|by split; eexists].
    destruct (p_designated p) as [[m0 ts0]|] eqn:Hd; [|done].
    split; [by eapply (pi_complete _ _ _ (bi_ports b Hb _ _ Hp))|].
    apply (Hbest no p m0 Hp). split; [done|by rewrite Hd]. }
  destruct (rcv_superior no pkt b p Hp Hcmp) as (tc & f & [Hret Hc] & Hf).
  pose proof (rcv_config_bpdu_inv no pkt b Hb) as Hinv1.
  set (b1 := final (rcv_config_bpdu no pkt) b) in *.
  destruct (recalculate_false_spec now b1 Hinv1) as (Hret2 & Hinv2 & Hid2 & Hel).
  set (b2 := final (recalculate_spanning_tree now false) b1) in *.
  destruct (superior_ports b b1 b2 no p f _ _ Hc Hf Hp Hs Hel)
    as [(p2 & r & Hp2 & Hh2 & Hd2 & Hs2 & Hr2 & Hbest2 & Hroot2) Hback].
  destruct Hid2 as (_ & _ & _ & Hk2 & _).
  assert (Hid1 : br_bridge_id b1 = br_bridge_id b) by apply (f_equal br_bridge_id Hc).
  rewrite Hid1 in *.
  assert (r = Some p2) as ->.
  { eapply best_is; [exact Hinv2|exact Hbest2|exact Hp2|exact Hh2|exact Hlt|].
    intros n q mq Hne Hq Hhq. destruct (Hback Hk2 n q mq Hne Hq Hhq) as (q0 & Hq0 & Hh0).
    by eapply Hbest. }
  rewrite Hd2 in Hroot2. injection Hroot2 as Hrp Hrt.
  assert (Hrole : p_role p2 = Some ROOT_PORT).
  { rewrite Hr2. cbn. by rewrite Z.eqb_refl. }
  unfold packet_in_config. rewrite (proj2 (Z.ltb_ge _ _)) by done.
  rewrite (proj1 (bind_ret _ _ _ _ Hret)), (proj2 (bind_ret _ _ _ _ Hret)).
  fold b1. rewrite bool_decide_eq_true_2 by done.
  rewrite (proj1 (bind_ret _ _ _ _ Hret2)), (proj2 (bind_ret _ _ _ _ Hret2)).
  fold b2.
  assert (Hget : result (get_port no) b2 = Ret p2).
  { unfold result. by rewrite (get_port_returns _ _ _ Hp2). }
  rewrite (proj1 (bind_ret _ _ _ _ Hget)), (proj2 (bind_ret _ _ _ _ Hget)).
  assert (Hfget : final (get_port no) b2 = b2).
  { unfold final. by rewrite (get_port_returns _ _ _ Hp2). }
  rewrite Hfget.
  unfold when. rewrite (proj2 (is_role_true _ _) Hrole).
  destruct (forward_tc_steps tc b2) as [Hr Hcf]. split; [exact Hr|].
  split_and!.
  - rewrite Hrp. apply (f_equal br_root_priority Hcf).
  - rewrite Hrt. apply (f_equal br_root_times Hcf).
  - destruct (core_get_some no _ _ (core_p p2) Hcf) as (p' & Hp' & Hcp).
    { by rewrite get_core, Hp2. }
    exists p'. split_and!; [exact Hp'| |].
    + change (p_state (core_p p') = Some LISTEN). rewrite Hcp. exact Hs2.
    + change (p_role (core_p p') = Some ROOT_PORT). rewrite Hcp. exact Hrole.
Qed.

Lemma encode_timer_mono a c : 0 ≤ a → a ≤ c → encode_timer a ≤ encode_timer c.
Proof.
  intros Ha Hac. unfold encode_timer, second. rewrite !Z.quot_div_nonneg by lia.
  pose proof (Z.div_le_mono a c 256). lia.
Qed.

(** C21: A BPDU travels from the bridge that generates it, over the wire, into the
    election of another bridge: if the information the sending port advertises is better
    than the receiver's own identifier and than everything its enabled ports hold, the
    receiving port becomes the root port and the receiver adopts that information and
    those timers.  What is advertised is the sender's root information with the cost of
    its port added, but without the system identifier extension, so the receiver knows
    the root under its own identifier only if that extension is zero. *)
Theorem link_election (now no fl : Z) (sender p : port) (fr : bpdu_frame) (pad : bytes)
    (msg : packet_in) (b : bridge) :
  sendable sender → bpdu_flags fl → generate_config_bpdu sender fl = Ret fr →
  t_message_age (p_port_times sender) + second ≤ t_max_age (p_port_times sender) →
  m_bpdu msg = Some (fr_bpdu fr ++ pad) →
  reachable_bridge b → in_port_no (br_ofproto b) msg = Some no →
  od_get no (br_ports b) = Some p → p_state p ≠ Some DISABLE →
  bid_value (pr_root_id (advertised sender)) < bid_value (br_bridge_id b) →
  (∀ n q mq, od_get n (br_ports b) = Some q → heard q mq →
     lex_lt (info_vec (advertised sender)) (info_vec mq)) →
  let b' := final (bridge_packet_in now msg) b in
  result (bridge_packet_in now msg) b = Ret tt ∧
  br_root_priority b' = advertised sender ∧ br_root_times b' = advertised_times sender ∧
  (∃ p', od_get no (br_ports b') = Some p' ∧ p_state p' = Some LISTEN ∧
         p_role p' = Some ROOT_PORT) ∧
  (pr_root_id (br_root_priority b') = pr_root_id (p_port_priority sender) ↔
   bid_system_id_extension (pr_root_id (p_port_priority sender)) = 0).
Proof.
  intros Hsend Hfl Hgen Hage Hmsg Hr Hin Hp Hs Hlt Hbest. cbn zeta.
  pose proof (reachable_bridge_inv b Hr) as Hb.
  destruct (generated_received sender fl msg pad Hsend Hfl) as (fr' & Hgen' & Hrecv).
  rewrite Hgen in Hgen'. injection Hgen' as <-. specialize (Hrecv Hmsg).
  set (pkt := whole_seconds (generated sender fl)) in *.
  assert (Hages : message_age pkt ≤ max_age pkt).
  { destruct Hsend as (_ & _ & _ & _ & [H5 _] & _). by apply encode_timer_mono. }
  destruct (superior_elects now no pkt b p Hb Hp Hs Hages Hlt Hbest)
    as (Hret & Hrp & Hrt & Hroot).
  assert (Hrun : bridge_packet_in now msg b = packet_in_config now no pkt b).
  { unfold bridge_packet_in, mbind, M_bind, get_st, lift. rewrite Hin, Hp.
    rewrite (proj2 (is_state_false _ _) Hs), Hrecv.
    by destruct (packet_in_config now no pkt b) as [[? ?] ?]. }
  unfold final, result in *. rewrite Hrun. rewrite Hrp.
  refine (conj Hret (conj eq_refl (conj Hrt (conj Hroot _)))). split.
  - unfold advertised, without_ext. cbn. by intros <-.
  - unfold advertised, without_ext. cbn.
    destruct (pr_root_id (p_port_priority sender)) as [pr ext mc]. cbn. by intros ->.
Qed.

(** ** Concrete instances *)

Module StpWitness.
Import StpRun.

Lemma started (dp : datapath) (hw : Z) : reachable_bridge (start dp hw).
Proof. apply reach_init. by eexists 0, dp, _, _, _, _. Qed.

Definition pr1 := mkPriority (mkBridgeId 4096 0 0xaa) 100 (Some (mkBridgeId 32768 0 0xbb))
                    (Some (mkPortId 128 1)).
Definition pr2 := mkPriority (mkBridgeId 4096 0 0xaa) 100 (Some (mkBridgeId 32768 0 0xbb))
                    (Some (mkPortId 128 2)).
Definition ts1 := mkTimes 0 DEFAULT_MAX_AGE DEFAULT_HELLO_TIME DEFAULT_FORWARD_DELAY.

Lemma compare_witness :
  ∃ result, compare_bpdu_info (Some pr1) (Some ts1) pr2 ts1 = Ret result ∧
    (result = INFERIOR ↔ lex_lt (info_vec pr1) (info_vec pr2)) ∧
    (result = SUPERIOR ↔
       lex_lt (info_vec pr2) (info_vec pr1) ∨
       (info_vec pr2 = info_vec pr1 ∧
        (Some ts1 ≠ Some ts1 ∨
         (bid_value <$> pr_designated_bridge_id pr2 = bid_mac_addr <$> pr_designated_bridge_id pr1 ∧
          pid_value <$> pr_designated_port_id pr2 = pid_port_no <$> pr_designated_port_id pr1)))).
Proof.
  apply (compare_bpdu_info_order (Some pr1) (Some ts1) pr2 ts1).
  - intros m [= <-]. split; eexists; reflexivity.
  - split; eexists; reflexivity.
Defined.

Lemma select_witness :
  ∃ r, select_root_port B = Ret r ∧
       best_root (bid_value (br_bridge_id B)) (od_values (br_ports B)) r.
Proof.
  apply (select_root_port_best B).
  - intros p Hp. pose proof (inv_ports_ok B (reachable_bridge_inv B (started dpB 0xb1))) as Hok.
    exact (proj2 (ports_ok_value _ _ Hok Hp)).
  - by vm_compute.
Defined.

Lemma recalculate_witness :
  result (recalculate_spanning_tree 0 true) A = Ret tt ∧
  bridge_inv (final (recalculate_spanning_tree 0 true) A).
Proof.
  destruct (recalculate_elects 0 true A (reachable_bridge_inv A (started dpA 0xa1)))
    as (H1 & H2 & _).
  exact (conj H1 H2).
Defined.

Lemma tree_invariant_witness : bridge_inv B.
Proof. exact (proj1 (stp_invariant B (started dpB 0xb1))). Defined.

(** The received BPDU of bridge [A] makes port 1 of [B] the root port. *)
Definition frA : bpdu_frame :=
  match od_get 1 (br_ports A) with
  | Some p => match generate_config_bpdu p 0 with Ret f => f | Raise _ => BpduFrame 0 0 0 [] end
  | None => BpduFrame 0 0 0 []
  end.
Definition msgA : packet_in := PacketIn 0 [(OXM_OF_IN_PORT, 1)] (Some (fr_bpdu frA ++ [0; 0])).
Definition portA : port := default (port_init Port_DEFAULT_VALUE no_port_conf
  (mkBridgeId 0 0 0) ts1 (eth 0 0)).1 (od_get 1 (br_ports A)).
Definition portB : port := default portA (od_get 1 (br_ports B)).

Lemma nothing_heard n q mq : od_get n (br_ports B) = Some q → ¬ heard q mq.
Proof.
  intros Hq [_ Hd]. apply od_get_elem in Hq.
  assert (Hall : Forall (λ kp, p_designated kp.2 = None) (br_ports B)).
  { vm_compute. repeat constructor. }
  rewrite Forall_forall in Hall. specialize (Hall _ Hq). cbn in Hall. by rewrite Hall in Hd.
Qed.

Lemma link_election_witness :
  ∃ p', od_get 1 (br_ports (final (bridge_packet_in 0 msgA) B)) = Some p' ∧
        p_role p' = Some ROOT_PORT.
Proof.
  destruct (link_election 0 1 0 portA portB frA [0; 0] msgA B)
    as (_ & _ & _ & (p' & H1 & _ & H2) & _).
  - by vm_compute.
  - by left.
  - by vm_compute.
  - by vm_compute.
  - reflexivity.
  - exact (started dpB 0xb1).
  - reflexivity.
  - by vm_compute.
  - by vm_compute.
  - by vm_compute.
  - intros n q mq Hq Hh. destruct (nothing_heard n q mq Hq Hh).
  - exists p'. exact (conj H1 H2).
Defined.

Lemma forwarding_witness :
  ∃ p2, od_get 1 (br_ports (final (state_timeout 0 1) (final (state_timeout 0 1) B))) = Some p2
        ∧ p_state p2 = Some FORWARD.
Proof.
  destruct (port_reaches_forwarding 0 0 1 B portB DESIGNATED_PORT)
    as (_ & _ & _ & p2 & _ & H1 & _ & _ & H2 & _).
  - exact (started dpB 0xb1).
  - by vm_compute.
  - by vm_compute.
  - vm_compute. by eexists.
  - by vm_compute.
  - by vm_compute.
  - exists p2. exact (conj H1 H2).
Defined.

Lemma config_witness :
  ∃ p, od_get 2 (br_ports (final (port_add 0 (OfPort 2 0 0 0 0))
                            (final (port_add 0 (OfPort 1 0 0 64 0)) A))) = Some p ∧
       p_path_cost p = PORT_PATH_COST_10GB.
Proof.
  refine (proj2 (port_config_ignored 0 PORT_PATH_COST_10GB A (OfPort 1 0 0 64 0)
                   (OfPort 2 0 0 0 0) _ _ _ _)); by vm_compute.
Defined.
(** Bridge [B] after the BPDUs of both ports of [A]: port 2 is blocked. *)
Definition frame_of (no : Z) : bpdu_frame :=
  match generate_config_bpdu (default portA (od_get no (br_ports A))) 0 with
  | Ret f => f
  | Raise _ => BpduFrame 0 0 0 []
  end.
Definition from_A (no : Z) : packet_in :=
  PacketIn 0 [(OXM_OF_IN_PORT, no)] (Some (fr_bpdu (frame_of no))).
Definition B1 : bridge := final (run_op 0 (OpPacketIn (from_A 1))) B.
Definition B2 : bridge := final (run_op 0 (OpPacketIn (from_A 2))) B1.

Lemma reachable_B2 : reachable_bridge B2.
Proof.
  apply (reach_step _ _ B1 (0, OpPacketIn (from_A 2))); [|reflexivity].
  apply (reach_step _ _ B (0, OpPacketIn (from_A 1))); [|reflexivity].
  exact (started dpB 0xb1).
Qed.

Lemma unblocks_witness :
  ∃ p3, od_get 2 (br_ports (final (state_timeout 0 2) (final (state_timeout 0 2)
           (final (port_status 0 OFPPR_MODIFY (OfPort 2 0xb2 4 32 0)) B2)))) = Some p3 ∧
        p_state p3 = Some FORWARD ∧ p_role p3 = Some DESIGNATED_PORT.
Proof.
  destruct (link_up_unblocks 0 0 0 0 B2 (OfPort 2 0xb2 4 32 0)
              (default portA (od_get 2 (br_ports B2))))
    as (_ & p3 & H1 & H2 & H3 & _).
  - exact reachable_B2.
  - by vm_compute.
  - by vm_compute.
  - by vm_compute.
  - by vm_compute.
  - done.
  - by vm_compute.
  - by vm_compute.
  - exists p3. exact (conj H1 (conj H2 H3)).
Defined.
End StpWitness.
