(* ===== verification/Network.v ===== *)
(** * Networks, ports and MAC addresses

    Models [ryu/controller/network.py]: the classes [Networks], [DPIDs], [MacToPort]
    and [MacAddresses], and the application [Network] that keeps one of each.  A
    network id and a MAC address are strings or [None].  A [set] is a [gset]; the order
    in which Python iterates over it is not specified, and the theorems about
    [elements] hold up to permutation.  [Port] objects are reached through the
    dictionaries that hold them.

    The three dictionaries describe one relation between ports, networks and MAC
    addresses.  [registry] is that relation, [consistent] ties the dictionaries to it,
    and [operate_refines] shows that they implement it as long as the operations are
    called in the order [allowed] describes; the last section shows what happens
    otherwise. *)

From stdpp Require Import base list gmap sets strings option.
From Stdlib Require Import ZArith Lia.
From S2P Require Import Prelude Odict.

Open Scope Z_scope.

(** ** Data *)

Abbreviation nw_id := (option string).
Abbreviation mac := (option string).
Abbreviation port_id := (Z * Z)%type.

Definition NW_ID_UNKNOWN : nw_id := Some "__NW_ID_UNKNOWN__"%string.

Inductive nw_event :=
| EventNetworkDel (network_id : nw_id)
| EventNetworkPort (network_id : nw_id) (dpid port_no : Z) (add_del : bool)
| EventMacAddress (dpid port_no : Z) (network_id : nw_id) (mac_address : mac)
    (add_del : bool).

Record port := Port {
  port_no : Z;
  network_id : nw_id;
  mac_address : mac
}.

#[export] Instance eta_port : Eta port :=
  EtaBox (λ p, Port (port_no p) (network_id p) (mac_address p)).

Definition NetworkNotFound := RyuException "NetworkNotFound".
Definition NetworkAlreadyExist := RyuException "NetworkAlreadyExist".
Definition PortNotFound := RyuException "PortNotFound".
Definition PortAlreadyExist := RyuException "PortAlreadyExist".
Definition PortUnknown := RyuException "PortUnknown".
Definition MacAddressAlreadyExist := RyuException "MacAddressAlreadyExist".

(** The truth value of a string or [None]. *)
Definition truthy (x : option string) : bool :=
  match x with None => false | Some s => negb (bool_decide (s = ""%string)) end.

(** [except E: raise E'] *)
Definition except {St A} (e e' : pyexn) (m : M St pyexn nw_event A) :=
  try_with m (λ x, if decide (x = e) then Some (raise e') else None).

(** The constructor of [EventMacAddress] with its assertions. *)
Definition send_mac_event {St} (d p : Z) (n : nw_id) (m : mac) (add_del : bool)
  : M St pyexn nw_event () :=
  assert_ (bool_decide (n ≠ None)) AssertionError;;
  assert_ (bool_decide (m ≠ None)) AssertionError;;
  emit (EventMacAddress d p n m add_del).

(** ** [Networks]: network id to set of ports *)

Abbreviation nets := (odict nw_id (gset port_id)).

Section networks.
Abbreviation NM := (M nets pyexn nw_event).

Definition networks_getitem (n : nw_id) : NM (gset port_id) :=
  s ← get_st; or_raise (od_get n s) KeyError.

Definition networks_list_networks : NM (list nw_id) := gets od_keys.

Definition networks_has_network (n : nw_id) : NM bool := gets (od_mem n).

Definition networks_update_network (n : nw_id) : NM () := modify (od_setdefault n ∅).

Definition networks_create_network (n : nw_id) : NM () :=
  known ← gets (od_mem n);
  if known : bool then raise NetworkAlreadyExist else modify (od_set n ∅).

Definition networks_remove_event (n : nw_id) (d p : Z) : NM () :=
  emit (EventNetworkPort n d p false).

(** [while ports: ports.pop()]: every element once. *)
Definition networks_remove_network (n : nw_id) : NM () :=
  ports ← except KeyError NetworkNotFound (networks_getitem n);
  for_each (elements ports) (λ x,
    modify (od_alter (λ ps, ps ∖ {[x]}) n);;
    networks_remove_event n x.1 x.2);;
  present ← gets (od_mem n);
  modify (od_del n);;
  when present (emit (EventNetworkDel n)).

Definition networks_list_ports (n : nw_id) : NM (list port_id) :=
  ports ← except KeyError NetworkNotFound (networks_getitem n);
  mret (elements (ports : gset port_id)).

Definition networks_add_raw (n : nw_id) (d p : Z) : NM () :=
  networks_getitem n;; modify (od_alter (λ ps, {[(d, p)]} ∪ ps) n).

Definition networks_add_event (n : nw_id) (d p : Z) : NM () :=
  emit (EventNetworkPort n d p true).

Definition networks_remove_raw (n : nw_id) (d p : Z) : NM () :=
  ports ← networks_getitem n;
  when (bool_decide ((d, p) ∈ (ports : gset port_id)))
    (modify (od_alter (λ ps, ps ∖ {[(d, p)]}) n);; networks_remove_event n d p).

Definition networks_remove (n : nw_id) (d p : Z) : NM () :=
  except ValueError PortNotFound
    (except KeyError NetworkNotFound (networks_remove_raw n d p)).

Definition networks_has_port (n : nw_id) (d p : Z) : NM bool :=
  ports ← networks_getitem n; mret (bool_decide ((d, p) ∈ (ports : gset port_id))).

Definition networks_get_dpids (n : nw_id) : NM (gset Z) :=
  s ← get_st;
  match od_get n s with
  | None => mret ∅
  | Some ports => mret (set_map fst (ports : gset port_id))
  end.
End networks.

(** ** [DPIDs]: datapath to port number to [Port] *)

Record dpids := Dpids {
  dp_ports : odict Z (odict Z port);
  nw_id_unknown : nw_id
}.

#[export] Instance eta_dpids : Eta dpids :=
  EtaBox (λ s, Dpids (dp_ports s) (nw_id_unknown s)).

(** [self[dpid][port_no]] *)
Definition port_at (s : dpids) (d p : Z) : option port :=
  od_get d (dp_ports s) ≫= od_get p.

(** An attribute of the object [self[dpid][port_no]] is assigned. *)
Definition set_port (f : port → port) (d p : Z) (s : dpids) : dpids :=
  s <| dp_ports ::= od_alter (od_alter f p) d |>.

Section dpids.
Abbreviation DM := (M dpids pyexn nw_event).

Definition dpids_setdefault_dpid (d : Z) : DM () :=
  modify (λ s, s <| dp_ports ::= od_setdefault d [] |>).

Definition dpids_setdefault_network_ (d p : Z) (default_network_id : nw_id) : DM () :=
  dpids_setdefault_dpid d;;
  modify (λ s, s <| dp_ports ::= od_alter
                      (od_setdefault p (Port p default_network_id None)) d |>).

Definition dpids_setdefault_network (d p : Z) : DM () :=
  unknown ← gets nw_id_unknown;
  dpids_setdefault_network_ d p unknown.

Definition dpids_update_port (d p : Z) (n : nw_id) : DM () :=
  dpids_setdefault_network_ d p n;;
  modify (set_port (λ x, x <| network_id := n |>) d p).

(** [if port and ...]: an object is true. *)
Definition dpids_remove_port (d p : Z) : DM () :=
  except KeyError PortNotFound (
    s ← get_st;
    ports ← or_raise (od_get d (dp_ports s)) KeyError;
    modify (λ s, s <| dp_ports ::= od_alter (od_del p) d |>);;
    match od_get p (ports : odict Z port) with
    | None => mret tt
    | Some x =>
        when (truthy (network_id x) && truthy (mac_address x))
          (send_mac_event d p (network_id x) (mac_address x) false)
    end).

(** [None] is the default value of the last two parameters. *)
Definition dpids_get_ports (d : Z) (n : nw_id) (m : mac) : DM (list port) :=
  gets (λ s,
    let ports := od_values (default [] (od_get d (dp_ports s))) in
    if bool_decide (n = None) then ports
    else if bool_decide (m = None) then filter (λ x, network_id x = n) ports
    else filter (λ x, network_id x = n ∧ mac_address x = m) ports).

Definition dpids_get_port (d p : Z) : DM port :=
  s ← get_st; or_raise (port_at s d p) PortNotFound.

Definition dpids_get_network (d p : Z) : DM nw_id :=
  s ← get_st; or_raise (network_id <$> port_at s d p) PortUnknown.

(** The set of the [Port] objects of the datapath, compared by identity. *)
Definition dpids_get_networks (d : Z) : DM (list port) :=
  s ← get_st; or_raise (od_values <$> od_get d (dp_ports s)) KeyError.

Definition dpids_get_network_safe (d p : Z) : DM nw_id :=
  gets (λ s,
    match od_get p (default [] (od_get d (dp_ports s))) with
    | None => nw_id_unknown s
    | Some x => network_id x
    end).

Definition dpids_get_mac (d p : Z) : DM mac :=
  x ← dpids_get_port d p; mret (mac_address x).

Definition dpids_set_mac_ (n : nw_id) (d p : Z) (x : port) (m : mac) : DM () :=
  unknown ← gets nw_id_unknown;
  if negb (bool_decide (network_id x = None) || bool_decide (network_id x = n)
           || bool_decide (network_id x = unknown))
  then raise PortNotFound else
  modify (set_port (λ x, x <| network_id := n |>) d p);;
  modify (set_port (λ x, x <| mac_address := m |>) d p);;
  when (truthy n && truthy m) (send_mac_event d p n m true).

Definition dpids_set_mac (n : nw_id) (d p : Z) (m : mac) : DM () :=
  x ← dpids_get_port d p;
  if bool_decide (mac_address x ≠ None) then raise MacAddressAlreadyExist
  else dpids_set_mac_ n d p x m.

Definition dpids_update_mac (n : nw_id) (d p : Z) (m : mac) : DM () :=
  x ← dpids_get_port d p;
  if bool_decide (mac_address x = None) then dpids_set_mac_ n d p x m
  else if bool_decide (mac_address x ≠ m) then raise MacAddressAlreadyExist
  else mret tt.
End dpids.

(** ** [MacToPort] and [MacAddresses]: network id to MAC address to set of ports *)

Abbreviation mac_to_port := (gmap mac (gset port_id)).
Abbreviation mac_addresses_t := (gmap nw_id mac_to_port).

(** [self[mac_address]] of a [defaultdict(set)]: a missing key is entered. *)
Definition mtp_getitem (m : mac) (t : mac_to_port) : gset port_id * mac_to_port :=
  match t !! m with
  | Some ports => (ports, t)
  | None => (∅, <[m := ∅]> t)
  end.

Definition mtp_add_port (d p : Z) (m : mac) (t : mac_to_port) : mac_to_port :=
  let '(ports, t) := mtp_getitem m t in <[m := {[(d, p)]} ∪ ports]> t.

Definition mtp_remove_port (d p : Z) (m : mac) (t : mac_to_port) : mac_to_port :=
  let '(ports, t) := mtp_getitem m t in
  let ports := ports ∖ {[(d, p)]} in
  if bool_decide (ports = ∅) then delete m t else <[m := ports]> t.

Section mac_addresses.
Abbreviation AM := (M mac_addresses_t pyexn nw_event).

Definition macs_add_port (n : nw_id) (d p : Z) (m : mac) : AM () :=
  modify (λ s, <[n := mtp_add_port d p m (default ∅ (s !! n))]> s).

Definition macs_remove_port (n : nw_id) (d p : Z) (m : mac) : AM () :=
  modify (λ s,
    match s !! n with
    | None => s
    | Some t =>
        let t := mtp_remove_port d p m t in
        if bool_decide (t = ∅) then delete n s else <[n := t]> s
    end).

Definition macs_get_ports (n : nw_id) (m : mac) : AM (gset port_id) := λ s,
  match s !! n with
  | None => ([], s, Ret ∅)
  | Some t =>
      if bool_decide (t = ∅) then ([], s, Ret ∅)
      else let '(ports, t) := mtp_getitem m t in ([], <[n := t]> s, Ret ports)
  end.
End mac_addresses.

(** ** [Network] *)

Record network := Network {
  networks : nets;
  dpids_ : dpids;
  macs : mac_addresses_t
}.

#[export] Instance eta_network : Eta network :=
  EtaBox (λ s, Network (networks s) (dpids_ s) (macs s)).

(** [Network.__init__]; [DPIDs] and [Network] hold the same [nw_id_unknown]. *)
Definition network_init (nw_id_unknown : nw_id) : network :=
  Network [] (Dpids [] nw_id_unknown) ∅.

Definition unknown (s : network) : nw_id := nw_id_unknown (dpids_ s).

Section network.
Abbreviation WM := (M network pyexn nw_event).

Definition check_nw_id_unknown (n : nw_id) : WM () :=
  u ← gets unknown;
  when (bool_decide (n = u)) (raise NetworkAlreadyExist).

Definition list_networks : WM (list nw_id) := within networks networks_list_networks.

Definition update_network (n : nw_id) : WM () :=
  check_nw_id_unknown n;; within networks (networks_update_network n).

Definition create_network (n : nw_id) : WM () :=
  check_nw_id_unknown n;; within networks (networks_create_network n).

Definition remove_network (n : nw_id) : WM () :=
  within networks (networks_remove_network n).

Definition list_ports (n : nw_id) : WM (list port_id) :=
  within networks (networks_list_ports n).

Definition list_ports_noraise (n : nw_id) : WM (list port_id) :=
  try_with (list_ports n)
    (λ e, if decide (e = NetworkNotFound) then Some (mret []) else None).

Definition known_nw_id (u n : nw_id) : bool :=
  bool_decide (n ≠ None) && bool_decide (n ≠ u).

Definition update_port_ (n : nw_id) (d p : Z) (port_may_exist : bool) : WM () :=
  check_nw_id_unknown n;;
  u ← gets unknown;
  queue_add_event ← except KeyError NetworkNotFound (
    old ← within dpids_ (dpids_get_network_safe d p);
    has ← within networks (networks_has_port n d p);
    (if (has : bool) || known_nw_id u old
     then when (negb port_may_exist) (raise PortAlreadyExist) else mret tt);;
    if bool_decide ((old : nw_id) ≠ n) then
      within networks (networks_add_raw n d p);;
      when (known_nw_id u old) (within networks (networks_remove_raw old d p));;
      mret true
    else mret false);
  within dpids_ (dpids_update_port d p n);;
  when queue_add_event (within networks (networks_add_event n d p)).

Definition create_port (n : nw_id) (d p : Z) : WM () := update_port_ n d p false.
Definition update_port (n : nw_id) (d p : Z) : WM () := update_port_ n d p true.

Definition get_old_mac (n : nw_id) (d p : Z) : WM mac :=
  try_with
    (x ← within dpids_ (dpids_get_port d p);
     mret (if bool_decide (network_id x = n) then mac_address x else None))
    (λ e, if decide (e = PortNotFound) then Some (mret None) else None).

Definition remove_port (n : nw_id) (d p : Z) : WM () :=
  old ← get_old_mac n d p;
  within dpids_ (dpids_remove_port d p);;
  try_with (within networks (networks_remove n d p))
    (λ e, if decide (e = NetworkNotFound) then Some (mret tt) else None);;
  when (bool_decide ((old : mac) ≠ None)) (within macs (macs_remove_port n d p old)).

Definition get_dpids (n : nw_id) : WM (gset Z) := within networks (networks_get_dpids n).

Definition has_network (n : nw_id) : WM bool := within networks (networks_has_network n).

Definition get_networks (d : Z) : WM (list port) := within dpids_ (dpids_get_networks d).

Definition create_mac (n : nw_id) (d p : Z) (m : mac) : WM () :=
  within macs (macs_add_port n d p m);;
  within dpids_ (dpids_set_mac n d p m).

Definition update_mac (n : nw_id) (d p : Z) (m : mac) : WM () :=
  old ← get_old_mac n d p;
  within dpids_ (dpids_update_mac n d p m);;
  when (bool_decide ((old : mac) ≠ None)) (within macs (macs_remove_port n d p old));;
  within macs (macs_add_port n d p m).

Definition get_mac (d p : Z) : WM mac := within dpids_ (dpids_get_mac d p).

Definition list_mac (d p : Z) : WM (list mac) :=
  m ← within dpids_ (dpids_get_mac d p);
  mret (if bool_decide (m = None) then [] else [m]).

Definition get_ports (d : Z) (n : nw_id) (m : mac) : WM (list port) :=
  within dpids_ (dpids_get_ports d n m).

Definition get_port (d p : Z) : WM port := within dpids_ (dpids_get_port d p).

Definition get_ports_with_mac (n : nw_id) (m : mac) : WM (gset port_id) :=
  within macs (macs_get_ports n m).

Definition same_network (d : Z) (n : nw_id) (out_port : Z) (allow_nw_id_external : nw_id)
  : WM bool :=
  u ← gets unknown;
  assert_ (bool_decide (n ≠ u)) AssertionError;;
  out_nw ← within dpids_ (dpids_get_network_safe d out_port);
  mret (if bool_decide (n = out_nw) then true
        else bool_decide (allow_nw_id_external ≠ None)
             && (bool_decide (allow_nw_id_external = n)
                 || bool_decide (allow_nw_id_external = out_nw))).

Definition get_network (d p : Z) : WM nw_id := within dpids_ (dpids_get_network d p).

(** [ofp_max] is [datapath.ofproto.OFPP_MAX]. *)
Definition port_added (ofp_max d p : Z) : WM () :=
  if (p =? 0) || (ofp_max <=? p) then mret tt
  else within dpids_ (dpids_setdefault_network d p).

(** The ports are the keys of [ofp_switch_features.ports]; [datapath.id] is the id of
    the message. *)
Definition add_datapath (ofp_max d : Z) (ports : list Z) : WM () :=
  within dpids_ (dpids_setdefault_dpid d);;
  for_each ports (port_added ofp_max d).

Definition port_deleted (d p : Z) : WM () := within dpids_ (dpids_remove_port d p).

Definition filter_ports (d in_port : Z) (n allow_nw_id_external : nw_id) : WM (list Z) :=
  u ← gets unknown;
  assert_ (bool_decide (n ≠ u)) AssertionError;;
  ports ← get_ports d None None;
  mret (port_no <$> filter (λ x,
    port_no x ≠ in_port ∧
    (network_id x = n ∨ allow_nw_id_external ≠ None ∧ network_id x = allow_nw_id_external))
    (ports : list port)).
End network.

(** ** Observations of the dictionaries *)

Lemma port_at_set_port f d p s d' p' :
  port_at (set_port f d p s) d' p' =
    if decide ((d', p') = (d, p)) then f <$> port_at s d' p' else port_at s d' p'.
Proof.
  unfold port_at, set_port. cbn. rewrite od_get_alter.
  destruct (decide (d' = d)) as [->|Hd].
  - destruct (od_get d (dp_ports s)) as [l|]; cbn.
    + rewrite od_get_alter. repeat case_decide; simplify_eq; done.
    + by case_decide.
  - rewrite decide_False; [done|]. congruence.
Qed.

(** The dictionary of ports after [_setdefault_network]. *)
Definition with_port (n : nw_id) (d p : Z) (l : odict Z (odict Z port)) :=
  od_alter (od_setdefault p (Port p n None)) d (od_setdefault d [] l).

Lemma get_with_port n d p l d' p' :
  od_get d' (with_port n d p l) ≫= od_get p' =
    if decide ((d', p') = (d, p)) then Some (default (Port p n None) (od_get d' l ≫= od_get p'))
    else od_get d' l ≫= od_get p'.
Proof.
  unfold with_port. rewrite od_get_alter, od_get_setdefault.
  destruct (decide (d' = d)) as [->|Hd].
  - destruct (od_get d l) as [o|]; cbn [default mbind option_bind fmap option_fmap option_map];
      rewrite od_get_setdefault; repeat case_decide; simplify_eq; done.
  - rewrite decide_False; [done|]. congruence.
Qed.

Lemma with_port_dpid n d p l d' :
  is_Some (od_get d' (with_port n d p l)) ↔ d' = d ∨ is_Some (od_get d' l).
Proof.
  unfold with_port. rewrite od_get_alter, od_get_setdefault.
  repeat case_decide; subst; rewrite ?fmap_is_Some; cbn; naive_solver eauto.
Qed.

Definition drop_port (d p : Z) (l : odict Z (odict Z port)) := od_alter (od_del p) d l.

Lemma get_drop_port d p l d' p' :
  od_get d' (drop_port d p l) ≫= od_get p' =
    if decide ((d', p') = (d, p)) then None else od_get d' l ≫= od_get p'.
Proof.
  unfold drop_port. rewrite od_get_alter.
  destruct (decide (d' = d)) as [->|Hd].
  - destruct (od_get d l) as [o|]; cbn; [rewrite od_get_del|];
      repeat case_decide; simplify_eq; done.
  - rewrite decide_False; [done|]. congruence.
Qed.

Lemma alter_dpid f d l d' :
  is_Some (od_get d' (od_alter f d l)) ↔ is_Some (od_get d' (l : odict Z (odict Z port))).
Proof. rewrite od_get_alter. case_decide; by rewrite ?fmap_is_Some. Qed.

(** The ports that the index knows for a MAC address of a network. *)
Definition mac_index (t : mac_addresses_t) (n : nw_id) (m : mac) : gset port_id :=
  default ∅ (t !! n ≫= (λ t' : mac_to_port, t' !! m)).

Lemma mac_index_insert t n t' n' m :
  mac_index (<[n := t']> t) n' m =
    if decide (n' = n) then default ∅ (t' !! m) else mac_index t n' m.
Proof.
  unfold mac_index. case_decide; subst; [by rewrite lookup_insert_eq|].
  by rewrite lookup_insert_ne.
Qed.

Lemma mac_index_delete t n n' m :
  mac_index (delete n t) n' m = if decide (n' = n) then ∅ else mac_index t n' m.
Proof.
  unfold mac_index. case_decide; subst; [by rewrite lookup_delete_eq|].
  by rewrite lookup_delete_ne.
Qed.

Lemma mtp_getitem_lookup m t m' :
  default ∅ ((mtp_getitem m t).2 !! m') = default ∅ (t !! m') ∧
  (mtp_getitem m t).1 = default ∅ (t !! m).
Proof.
  unfold mtp_getitem. destruct (t !! m) as [ps|] eqn:E; [done|]. cbn. split; [|done].
  destruct (decide (m' = m)) as [->|]; [by rewrite lookup_insert_eq, E|].
  by rewrite lookup_insert_ne.
Qed.

Lemma mtp_add_lookup d p m t m' :
  default ∅ (mtp_add_port d p m t !! m') =
    if decide (m' = m) then {[(d, p)]} ∪ default ∅ (t !! m) else default ∅ (t !! m').
Proof.
  unfold mtp_add_port. destruct (mtp_getitem_lookup m t m') as [H1 H2].
  destruct (mtp_getitem m t) as [ps t1]; cbn in *. subst.
  case_decide; subst; [by rewrite lookup_insert_eq|]. by rewrite lookup_insert_ne.
Qed.

Lemma mtp_remove_lookup d p m t m' :
  default ∅ (mtp_remove_port d p m t !! m') =
    if decide (m' = m) then default ∅ (t !! m) ∖ {[(d, p)]} else default ∅ (t !! m').
Proof.
  unfold mtp_remove_port. destruct (mtp_getitem_lookup m t m') as [H1 H2].
  destruct (mtp_getitem m t) as [ps t1]; cbn in *. subst.
  case_bool_decide as He; case_decide; subst;
    rewrite ?lookup_delete_eq, ?lookup_insert_eq, ?lookup_delete_ne, ?lookup_insert_ne
      by done; done.
Qed.

Lemma mac_index_add t n d p m n' m' :
  mac_index (<[n := mtp_add_port d p m (default ∅ (t !! n))]> t) n' m' =
    if decide ((n', m') = (n, m)) then {[(d, p)]} ∪ mac_index t n' m' else mac_index t n' m'.
Proof.
  rewrite mac_index_insert. unfold mac_index.
  destruct (decide (n' = n)) as [->|]; [|by rewrite decide_False by congruence].
  rewrite mtp_add_lookup. destruct (t !! n) as [t'|]; cbn;
    repeat case_decide; simplify_eq; try done; by rewrite ?lookup_empty.
Qed.

(** What [MacAddresses.remove_port] does to the index, empty entries being dropped. *)
Definition macs_removed (n : nw_id) (d p : Z) (m : mac) (s : mac_addresses_t) :=
  match s !! n with
  | None => s
  | Some t =>
      let t := mtp_remove_port d p m t in
      if bool_decide (t = ∅) then delete n s else <[n := t]> s
  end.

Lemma mac_index_remove t n d p m n' m' :
  mac_index (macs_removed n d p m t) n' m' =
    if decide ((n', m') = (n, m)) then mac_index t n' m' ∖ {[(d, p)]}
    else mac_index t n' m'.
Proof.
  unfold macs_removed. destruct (t !! n) as [t'|] eqn:E.
  - pose proof (mtp_remove_lookup d p m t' m') as Hl.
    case_bool_decide as He; [rewrite He in Hl|];
      rewrite ?mac_index_delete, ?mac_index_insert, ?Hl; unfold mac_index;
      destruct (decide (n' = n)) as [->|]; try rewrite E; cbn;
      repeat case_decide; simplify_eq; done.
  - case_decide; [|done]. simplify_eq. unfold mac_index. rewrite E. set_solver.
Qed.

(** ** Specification: one registry *)

Inductive nw_op :=
| CreateNetwork (n : nw_id)
| UpdateNetwork (n : nw_id)
| RemoveNetwork (n : nw_id)
| CreatePort (n : nw_id) (d p : Z)
| UpdatePort (n : nw_id) (d p : Z)
| RemovePort (n : nw_id) (d p : Z)
| CreateMac (n : nw_id) (d p : Z) (m : mac)
| UpdateMac (n : nw_id) (d p : Z) (m : mac)
| AddDatapath (ofp_max d : Z) (ports : list Z)
| PortAdded (ofp_max d p : Z)
| PortDeleted (d p : Z).

(** The methods that change the state, by the operation they carry out. *)
Definition operate (op : nw_op) : M network pyexn nw_event () :=
  match op with
  | CreateNetwork n => create_network n
  | UpdateNetwork n => update_network n
  | RemoveNetwork n => remove_network n
  | CreatePort n d p => create_port n d p
  | UpdatePort n d p => update_port n d p
  | RemovePort n d p => remove_port n d p
  | CreateMac n d p m => create_mac n d p m
  | UpdateMac n d p m => update_mac n d p m
  | AddDatapath x d ps => add_datapath x d ps
  | PortAdded x d p => port_added x d p
  | PortDeleted d p => port_deleted d p
  end.

(** Networks, datapaths, and for each port its network and its MAC address. *)
Record registry := Registry {
  r_networks : gset nw_id;
  r_dpids : gset Z;
  r_ports : gmap port_id (nw_id * mac)
}.

Section spec.
(** The id of the unknown network. *)
Context (u : nw_id).

Definition spec_result : Type := list nw_event * registry * outcome pyexn ().

Definition r_fail (r : registry) (e : pyexn) : spec_result := ([], r, Raise e).
Definition r_done (r : registry) (os : list nw_event) : spec_result := (os, r, Ret tt).

Definition r_put (d p : Z) (v : nw_id * mac) (r : registry) : registry :=
  Registry (r_networks r) ({[d]} ∪ r_dpids r) (<[(d, p) := v]> (r_ports r)).

Definition spec_port (may_exist : bool) (n : nw_id) (d p : Z) (r : registry) : spec_result :=
  let '(old, m) := default (u, None) (r_ports r !! (d, p)) in
  if decide (n = u) then r_fail r NetworkAlreadyExist
  else if decide (n ∉ r_networks r) then r_fail r NetworkNotFound
  else if negb may_exist && known_nw_id u old then r_fail r PortAlreadyExist
  else r_done (r_put d p (n, m) r)
    (if decide (old = n) then []
     else (if known_nw_id u old then [EventNetworkPort old d p false] else [])
          ++ [EventNetworkPort n d p true]).

Definition mac_event (d p : Z) (n : nw_id) (m : mac) (add_del : bool) : list nw_event :=
  if truthy n && truthy m then [EventMacAddress d p n m add_del] else [].

Definition spec_mac (n : nw_id) (d p : Z) (m : mac) (r : registry) : spec_result :=
  r_done (r_put d p (n, m) r) (mac_event d p n m true).

Definition spec_port_added (x d p : Z) (r : registry) : registry :=
  if (p =? 0) || (x <=? p) then r
  else r_put d p (default (u, None) (r_ports r !! (d, p))) r.

(** What the operations do to the registry. *)
Definition spec (op : nw_op) (r : registry) : spec_result :=
  match op with
  | CreateNetwork n =>
      if decide (n = u ∨ n ∈ r_networks r) then r_fail r NetworkAlreadyExist
      else r_done (Registry ({[n]} ∪ r_networks r) (r_dpids r) (r_ports r)) []
  | UpdateNetwork n =>
      if decide (n = u) then r_fail r NetworkAlreadyExist
      else r_done (Registry ({[n]} ∪ r_networks r) (r_dpids r) (r_ports r)) []
  | RemoveNetwork n =>
      if decide (n ∈ r_networks r)
      then r_done (Registry (r_networks r ∖ {[n]}) (r_dpids r) (r_ports r))
             [EventNetworkDel n]
      else r_fail r NetworkNotFound
  | CreatePort n d p => spec_port false n d p r
  | UpdatePort n d p => spec_port true n d p r
  | RemovePort _ d p | PortDeleted d p =>
      if decide (d ∈ r_dpids r) then
        let r' := Registry (r_networks r) (r_dpids r) (delete (d, p) (r_ports r)) in
        match r_ports r !! (d, p) with
        | None => r_done r' []
        | Some (n, m) =>
            r_done r' (mac_event d p n m false
              ++ if decide (n ∈ r_networks r) then [EventNetworkPort n d p false] else [])
        end
      else r_fail r PortNotFound
  | CreateMac n d p m =>
      match r_ports r !! (d, p) with
      | Some (_, None) => spec_mac n d p m r
      | Some (_, Some _) => r_fail r MacAddressAlreadyExist
      | None => r_fail r PortNotFound
      end
  | UpdateMac n d p m =>
      match r_ports r !! (d, p) with
      | Some (_, None) => spec_mac n d p m r
      | Some (_, m') => if decide (m' = m) then r_done r [] else r_fail r MacAddressAlreadyExist
      | None => r_fail r PortNotFound
      end
  | AddDatapath x d ps =>
      r_done (foldl (λ r p, spec_port_added x d p r)
                (Registry (r_networks r) ({[d]} ∪ r_dpids r) (r_ports r)) ps) []
  | PortAdded x d p => r_done (spec_port_added x d p r) []
  end.

(** What holds of the port, if the registry has it. *)
Definition at_port (r : registry) (d p : Z) (P : nw_id → mac → Prop) : Prop :=
  from_option (λ v, P v.1 v.2) True (r_ports r !! (d, p)).

(** The order in which operations may be called: a network is removed after its ports;
    a port moves to another network before it has a MAC address; a MAC address is
    entered for a port of the network, and entered anew only if it is the same; the
    switch loses a port after its removal. *)
Definition allowed (op : nw_op) (r : registry) : Prop :=
  match op with
  | CreateNetwork n | UpdateNetwork n => n ≠ None
  | RemoveNetwork n => map_Forall (λ _ v, v.1 ≠ n) (r_ports r)
  | CreatePort n d p | UpdatePort n d p =>
      at_port r d p (λ n' m', n' = n ∨ m' = None)
  | RemovePort n d p => at_port r d p (λ n' m', n' = n ∨ n' = u ∧ m' = None)
  | CreateMac n d p m =>
      m ≠ None ∧ is_Some (r_ports r !! (d, p)) ∧
      at_port r d p (λ n' m', n' = n ∧ (m' = None ∨ m' = m))
  | UpdateMac n d p m =>
      m ≠ None ∧ at_port r d p (λ n' _, n' = n)
  | AddDatapath _ _ _ | PortAdded _ _ _ => True
  | PortDeleted d p => at_port r d p (λ n' m', n' = u ∧ m' = None)
  end.

Lemma at_port_spec r d p P :
  at_port r d p P ↔ ∀ n m, r_ports r !! (d, p) = Some (n, m) → P n m.
Proof.
  unfold at_port. destruct (r_ports r !! (d, p)) as [[n m]|]; cbn; [|naive_solver].
  split; [by intros ? ? ? [= <- <-]|eauto].
Qed.

#[global] Instance at_port_dec r d p P :
  (∀ n m, Decision (P n m)) → Decision (at_port r d p P).
Proof. intros ?. unfold at_port. destruct (r_ports r !! (d, p)) as [[? ?]|]; cbn; apply _. Defined.

#[global] Instance allowed_dec op r : Decision (allowed op r).
Proof. destruct op; cbn; apply _. Defined.

(** The three dictionaries agree with the registry. *)
Record consistent (r : registry) (s : network) : Prop := {
  c_unknown : unknown s = u;
  c_named n : n ∈ r_networks r → n ≠ u ∧ n ≠ None;
  c_closed x n m : r_ports r !! x = Some (n, m) → n = u ∨ n ∈ r_networks r;
  c_networks n : is_Some (od_get n (networks s)) ↔ n ∈ r_networks r;
  c_members n ps x : od_get n (networks s) = Some ps →
    x ∈ ps ↔ ∃ m, r_ports r !! x = Some (n, m);
  c_dpids d : is_Some (od_get d (dp_ports (dpids_ s))) ↔ d ∈ r_dpids r;
  c_ports d p : port_at (dpids_ s) d p = (λ v, Port p v.1 v.2) <$> r_ports r !! (d, p);
  c_index n m x : x ∈ mac_index (macs s) n m ↔ m ≠ None ∧ r_ports r !! x = Some (n, m)
}.
End spec.

(** ** Runs of the parts *)

#[export] Hint Rewrite port_at_set_port @od_get_alter @od_get_set : netw.

Ltac net_step :=
  match goal with
  | |- wp (within _ _) _ _ => apply wp_within
  | |- wp (except _ _ _) _ _ => apply wp_try
  | |- wp (try_with _ _) _ _ => apply wp_try
  | |- wp (or_raise _ _) _ _ => apply wp_or_raise
  | _ => wp_step
  end.

Lemma truthy_not_None n : truthy n = true → n ≠ None.
Proof. by destruct n. Qed.

Lemma send_mac_event_run {St} d p n m b (s : St) :
  truthy n && truthy m = true →
  send_mac_event d p n m b s = ([EventMacAddress d p n m b], s, Ret tt).
Proof.
  intros [Hn Hm]%andb_prop. apply truthy_not_None in Hn, Hm.
  unfold send_mac_event. rewrite !bool_decide_true by done. done.
Qed.

Lemma when_mac_event_run {St} d p n m b (s : St) :
  when (truthy n && truthy m) (send_mac_event d p n m b) s = (mac_event d p n m b, s, Ret tt).
Proof.
  unfold when, mac_event. destruct (truthy n && truthy m) eqn:E; [|done].
  by apply send_mac_event_run.
Qed.

Lemma dpids_remove_port_run d p (s : dpids) :
  dpids_remove_port d p s =
    match od_get d (dp_ports s) with
    | None => ([], s, Raise PortNotFound)
    | Some _ =>
        (match port_at s d p with
         | None => []
         | Some x => mac_event d p (network_id x) (mac_address x) false
         end, s <| dp_ports ::= drop_port d p |>, Ret tt)
    end.
Proof.
  unfold dpids_remove_port, except, try_with, mbind, M_bind, get_st, or_raise, modify, port_at.
  cbn -[when od_get]. destruct (od_get d (dp_ports s)) as [l|]; cbn -[when]; [|done].
  destruct (od_get p l) as [x|]; [|done].
  by rewrite when_mac_event_run.
Qed.

Lemma networks_remove_run (n : nw_id) (d p : Z) (s : nets) :
  networks_remove n d p s =
    match od_get n s with
    | None => ([], s, Raise NetworkNotFound)
    | Some ps =>
        if decide ((d, p) ∈ ps)
        then ([EventNetworkPort n d p false], od_alter (λ ps : gset port_id, ps ∖ {[(d, p)]}) n s, Ret tt)
        else ([], s, Ret tt)
    end.
Proof.
  unfold networks_remove, networks_remove_raw, networks_getitem, except, try_with.
  unfold mbind, M_bind, get_st, or_raise, when, modify. cbn -[od_get].
  destruct (od_get n s) as [ps|]; cbn; [|done].
  case_bool_decide; case_decide; done.
Qed.

Lemma get_old_mac_run n d p (s : network) :
  get_old_mac n d p s =
    ([], s, Ret (match port_at (dpids_ s) d p with
                 | Some x => if decide (network_id x = n) then mac_address x else None
                 | None => None
                 end)).
Proof.
  unfold get_old_mac, try_with, mbind, M_bind, within, dpids_get_port, get_st, or_raise.
  unfold mbind, M_bind. cbn.
  destruct s as [? [? ?] ?]. destruct (port_at _ d p) as [x|]; cbn; [|done].
  case_bool_decide; by case_decide.
Qed.

Lemma dpids_update_port_run d p n (s : dpids) :
  ∃ s', dpids_update_port d p n s = ([], s', Ret tt) ∧
    nw_id_unknown s' = nw_id_unknown s ∧
    (∀ d' p', port_at s' d' p' =
       if decide ((d', p') = (d, p))
       then Some (Port (from_option port_no p (port_at s d p)) n (port_at s d p ≫= mac_address))
       else port_at s d' p') ∧
    (∀ d', is_Some (od_get d' (dp_ports s')) ↔ d' = d ∨ is_Some (od_get d' (dp_ports s))).
Proof.
  eexists. split; [done|]. split; [done|]. split.
  - intros d' p'. rewrite port_at_set_port. unfold port_at. cbn.
    fold (with_port n d p (dp_ports s)). rewrite get_with_port.
    case_decide; [|done]. simplify_eq.
    by destruct (od_get d (dp_ports s) ≫= od_get p) as [[]|].
  - intros d'. cbn. rewrite alter_dpid.
    fold (with_port n d p (dp_ports s)). apply with_port_dpid.
Qed.

Lemma dpids_set_mac_run n d p m (s : dpids) x :
  port_at s d p = Some x → network_id x = n →
  ∃ s', dpids_set_mac_ n d p x m s = (mac_event d p n m true, s', Ret tt) ∧
    nw_id_unknown s' = nw_id_unknown s ∧
    (∀ d' p', port_at s' d' p' =
       if decide ((d', p') = (d, p)) then Some (Port (port_no x) n m) else port_at s d' p') ∧
    (∀ d', is_Some (od_get d' (dp_ports s')) ↔ is_Some (od_get d' (dp_ports s))).
Proof.
  intros Hx Hn. unfold dpids_set_mac_, mbind, M_bind, gets, modify.
  rewrite (bool_decide_true (network_id x = n)), orb_true_r by done. cbn -[when set_port].
  rewrite when_mac_event_run. eexists. split; [done|]. split; [done|]. split.
  - intros d' p'. rewrite !port_at_set_port. case_decide; [|done]. simplify_eq.
    rewrite Hx. by destruct x.
  - intros d'. unfold set_port. cbn. by rewrite !alter_dpid.
Qed.

Lemma networks_has_port_run (n : nw_id) (d p : Z) (s : nets) :
  networks_has_port n d p s =
    ([], s, match od_get n s with
            | None => Raise KeyError
            | Some ps => Ret (bool_decide ((d, p) ∈ ps))
            end).
Proof.
  unfold networks_has_port, networks_getitem, mbind, M_bind, get_st, or_raise. cbn.
  by destruct (od_get n s).
Qed.

Lemma networks_add_raw_run (n : nw_id) (d p : Z) (s : nets) ps :
  od_get n s = Some ps →
  networks_add_raw n d p s = ([], od_alter (λ ps, {[(d, p)]} ∪ ps) n s, Ret tt).
Proof.
  intros E. unfold networks_add_raw, networks_getitem, mbind, M_bind, get_st, or_raise. cbn.
  by rewrite E.
Qed.

Lemma networks_remove_raw_run (n : nw_id) (d p : Z) (s : nets) ps :
  od_get n s = Some ps → (d, p) ∈ ps →
  networks_remove_raw n d p s =
    ([EventNetworkPort n d p false], od_alter (λ ps : gset port_id, ps ∖ {[(d, p)]}) n s, Ret tt).
Proof.
  intros E Hin. unfold networks_remove_raw, networks_getitem, mbind, M_bind, get_st, or_raise.
  cbn. rewrite E. cbn. by rewrite bool_decide_true.
Qed.

Lemma dpids_get_network_safe_run d p (s : dpids) :
  dpids_get_network_safe d p s =
    ([], s, Ret (from_option network_id (nw_id_unknown s) (port_at s d p))).
Proof.
  unfold dpids_get_network_safe, gets, port_at.
  destruct (od_get d (dp_ports s)) as [l|]; cbn; [|done]. by destruct (od_get p l).
Qed.

(** ** The dictionaries implement the registry *)

Section refines.
Context (u : nw_id).

(** One port changes its entry to [v]; the registry and the dictionaries agree on the
    rest. *)
Lemma consistent_at r s r' s' d p (v : option (nw_id * mac)) :
  consistent u r s →
  unknown s' = u →
  (∀ n, n ∈ r_networks r' ↔ n ∈ r_networks r) →
  (∀ x, r_ports r' !! x = if decide (x = (d, p)) then v else r_ports r !! x) →
  (∀ n m, v = Some (n, m) → n = u ∨ n ∈ r_networks r) →
  (∀ n, is_Some (od_get n (networks s')) ↔ is_Some (od_get n (networks s))) →
  (∀ n ps', od_get n (networks s') = Some ps' → ∃ ps, od_get n (networks s) = Some ps ∧
     (∀ x, x ≠ (d, p) → x ∈ ps' ↔ x ∈ ps) ∧ ((d, p) ∈ ps' ↔ fst <$> v = Some n)) →
  (∀ d', is_Some (od_get d' (dp_ports (dpids_ s'))) ↔ d' ∈ r_dpids r') →
  (∀ d' p', port_at (dpids_ s') d' p' =
     if decide ((d', p') = (d, p)) then (λ v, Port p v.1 v.2) <$> v
     else port_at (dpids_ s) d' p') →
  (∀ n m x, x ∈ mac_index (macs s') n m ↔
     if decide (x = (d, p)) then m ≠ None ∧ v = Some (n, m) else x ∈ mac_index (macs s) n m) →
  consistent u r' s'.
Proof.
  intros [U Na Cl Ne Me Dp Po In] HU Hnet Hr Hv Hk Hm Hd Hp Hi. split; try done.
  - intros n. rewrite Hnet. apply Na.
  - intros x n m. rewrite Hr, Hnet. case_decide; [by apply Hv|by apply Cl].
  - intros n. by rewrite Hk, Ne, Hnet.
  - intros n ps' x (ps & Hps & Hne & He)%Hm. rewrite Hr.
    case_decide as Hx; [|by rewrite Hne, (Me _ _ _ Hps)]. subst. rewrite He.
    destruct v as [[n' m']|]; cbn; [|split; [done|by intros [? ?]]].
    split; [intros [= ->]; eauto|intros [m [= -> ->]]; done].
  - intros d' p'. rewrite Hp, Hr. case_decide as Hx; [by simplify_eq|apply Po].
  - intros n m x. rewrite Hi, Hr. case_decide; [done|apply In].
Qed.

Definition implements (m : M network pyexn nw_event ()) (s : network) (sp : spec_result)
  : Prop :=
  wp m s (λ o s' res, consistent u sp.1.2 s' ∧ o = sp.1.1 ∧ res = sp.2).

Lemma implements_run m s o s' res r :
  m s = (o, s', res) → consistent u r s' → implements m s (o, r, res).
Proof. intros E H. eapply wp_run; [exact E|]. done. Qed.

Lemma check_run n s :
  unknown s = u →
  check_nw_id_unknown n s =
    ([], s, if decide (n = u) then Raise NetworkAlreadyExist else Ret tt).
Proof.
  intros <-. unfold check_nw_id_unknown, mbind, M_bind, gets, when. cbn.
  case_bool_decide; by case_decide.
Qed.

(** *** Networks *)

Lemma consistent_add_network r s l n :
  consistent u r s → n ≠ u → n ≠ None →
  (∀ n', od_get n' l = if decide (n' = n) then Some (default ∅ (od_get n (networks s)))
                       else od_get n' (networks s)) →
  consistent u (Registry ({[n]} ∪ r_networks r) (r_dpids r) (r_ports r))
    (s <| networks := l |>).
Proof.
  intros [U Na Cl Ne Me Dp Po In] Hn Hn' Hl. split; cbn; try done.
  - intros n' [->%elem_of_singleton|?]%elem_of_union; eauto.
  - intros x n' m Hx. apply Cl in Hx. set_solver.
  - intros n'. rewrite Hl, elem_of_union, elem_of_singleton, <- Ne. case_decide; naive_solver eauto.
  - intros n' ps x. rewrite Hl. case_decide; [|apply Me]. subst. intros [= <-].
    destruct (od_get n (networks s)) as [ps|] eqn:E; cbn; [by apply Me|].
    split; [set_solver|]. intros [m Hx]. destruct (Cl _ _ _ Hx) as [?|Hin]; [done|].
    apply Ne in Hin as [? ?]. congruence.
Qed.

Lemma networks_create_run (n : nw_id) (s : nets) :
  networks_create_network n s =
    match od_get n s with
    | Some _ => ([], s, Raise NetworkAlreadyExist)
    | None => ([], od_set n ∅ s, Ret tt)
    end.
Proof.
  unfold networks_create_network, mbind, M_bind, gets, od_mem. cbn.
  destruct (od_get n s); by case_bool_decide as H; try done; destruct H; eauto.
Qed.

Lemma create_network_refines r s n :
  consistent u r s → n ≠ None →
  implements (create_network n) s (spec u (CreateNetwork n) r).
Proof.
  intros C Hn. unfold implements, create_network, spec.
  apply wp_bind. eapply wp_run; [by apply check_run, C|].
  destruct (decide (n = u)) as [->|Hu].
  { by rewrite decide_True by tauto. }
  apply wp_within. eapply wp_eq; [apply networks_create_run|].
  pose proof (c_networks _ _ _ C n) as Hin.
  destruct (od_get n (networks s)) as [ps|] eqn:E.
  - rewrite decide_True by (right; apply Hin; eauto). split; [by destruct s|done].
  - rewrite decide_False by (intros [?|[? ?]%Hin]; congruence).
    split; [|done]. apply consistent_add_network; [done..|].
    intros n'. cbn. rewrite od_get_set. by rewrite E.
Qed.

Lemma update_network_refines r s n :
  consistent u r s → n ≠ None →
  implements (update_network n) s (spec u (UpdateNetwork n) r).
Proof.
  intros C Hn. unfold implements, update_network, spec.
  apply wp_bind. eapply wp_run; [by apply check_run, C|].
  case_decide as Hu; [done|]. apply wp_within. apply wp_modify.
  split; [|done]. apply consistent_add_network; [done..|].
  intros n'. rewrite od_get_setdefault. by case_decide; subst.
Qed.

Lemma remove_network_refines r s n :
  consistent u r s → allowed u (RemoveNetwork n) r →
  implements (remove_network n) s (spec u (RemoveNetwork n) r).
Proof.
  intros C Ha. unfold implements, remove_network, spec. apply wp_within.
  pose proof (c_networks _ _ _ C n) as Hin. pose proof (c_members _ _ _ C n) as Hm.
  destruct (od_get n (networks s)) as [ps|] eqn:E.
  - rewrite decide_True by (apply Hin; eauto).
    assert (ps = ∅) as -> by (apply elem_of_equiv_empty_L; intros x Hx;
      apply (Hm ps x) in Hx as [m Hx]; [by apply Ha in Hx|done]).
    eapply wp_run.
    { unfold networks_remove_network, networks_getitem, except, try_with, mbind, M_bind.
      unfold get_st, or_raise, gets, modify, od_mem. cbn -[elements]. rewrite E. cbn -[elements].
      rewrite elements_empty. cbn. by rewrite bool_decide_true by (rewrite E; eauto). }
    split; [|done]. destruct C as [U Na Cl Ne Me Dp Po In]. split; cbn; try done.
    + intros n' [? _]%elem_of_difference. by apply Na.
    + intros x n' m Hx. destruct (Cl _ _ _ Hx) as [?|?]; [by left|right].
      apply elem_of_difference. split; [done|]. intros ->%elem_of_singleton. by apply Ha in Hx.
    + intros n'. rewrite od_get_del, elem_of_difference, elem_of_singleton, <- Ne.
      case_decide; split; [by intros []|by intros []|done|by intros []].
    + intros n' ps x. rewrite od_get_del. case_decide; [done|]. apply Me.
  - rewrite decide_False by (intros [? ?]%Hin; congruence).
    eapply wp_run.
    { unfold networks_remove_network, networks_getitem, except, try_with, mbind, M_bind.
        unfold get_st, or_raise. cbn. by rewrite E. }
    split; [by destruct s|done].
Qed.

(** *** Ports *)

Lemma known_spec n : known_nw_id u n = true ↔ n ≠ None ∧ n ≠ u.
Proof.
  unfold known_nw_id. rewrite andb_true_iff, !bool_decide_eq_true. done.
Qed.

(** The sets of ports after a port has moved from [old] to [n]. *)
Definition moved (old n : nw_id) (d p : Z) (l : nets) : nets :=
  let l' := od_alter (λ ps, {[(d, p)]} ∪ ps) n l in
  if known_nw_id u old then od_alter (λ ps : gset port_id, ps ∖ {[(d, p)]}) old l' else l'.

Lemma get_moved old n d p l n' :
  old ≠ n →
  od_get n' (moved old n d p l) =
    (if decide (n' = n) then λ ps, {[(d, p)]} ∪ ps
     else if decide (n' = old ∧ known_nw_id u old = true) then λ ps, ps ∖ {[(d, p)]}
     else id) <$> od_get n' l.
Proof.
  intros Hne. unfold moved. destruct (known_nw_id u old); rewrite !od_get_alter;
    repeat case_decide; naive_solver (rewrite ?option_fmap_id; done).
Qed.

(** The decision of [_update_port] in a consistent state. *)
Definition old_network (r : registry) (d p : Z) : nw_id :=
  from_option fst u (r_ports r !! (d, p)).

Lemma old_network_known r s d p :
  consistent u r s → known_nw_id u (old_network r d p) = true →
  ∃ ps, od_get (old_network r d p) (networks s) = Some ps ∧ (d, p) ∈ ps.
Proof.
  intros C [_ Hu]%known_spec. unfold old_network in *.
  destruct (r_ports r !! (d, p)) as [[n m]|] eqn:E; cbn in *; [|done].
  destruct (c_closed _ _ _ C _ _ _ E) as [?|Hin]; [done|].
  apply (c_networks _ _ _ C) in Hin as [ps Hps]. exists ps. split; [done|].
  apply (c_members _ _ _ C n ps); eauto.
Qed.

Lemma move_run r s n d p ps :
  consistent u r s → old_network r d p ≠ n → od_get n (networks s) = Some ps →
  (within networks (networks_add_raw n d p);;
   when (known_nw_id u (old_network r d p))
     (within networks (networks_remove_raw (old_network r d p) d p));;
   mret true) s =
  (if known_nw_id u (old_network r d p)
   then [EventNetworkPort (old_network r d p) d p false] else [],
   s <| networks := moved (old_network r d p) n d p (networks s) |>, Ret true).
Proof.
  intros C Hne E. unfold moved. unfold mbind, M_bind, within, when.
  rewrite (networks_add_raw_run _ _ _ _ _ E). cbn.
  destruct (known_nw_id u (old_network r d p)) eqn:K; [|done].
  destruct (old_network_known r s d p C K) as (po & Hpo & Hin).
  erewrite networks_remove_raw_run; [done| |exact Hin].
  cbn. by rewrite od_get_alter, decide_False.
Qed.

Lemma moved_members r s n d p n' ps' :
  consistent u r s → old_network r d p ≠ n →
  od_get n' (moved (old_network r d p) n d p (networks s)) = Some ps' →
  ∃ ps, od_get n' (networks s) = Some ps ∧
    (∀ x, x ≠ (d, p) → x ∈ ps' ↔ x ∈ ps) ∧ ((d, p) ∈ ps' ↔ n' = n).
Proof.
  intros C Hold. rewrite get_moved by done. intros (po & E' & ->)%fmap_Some.
  exists po. split; [done|]. pose proof (c_members _ _ _ C _ _ (d, p) E') as Hm.
  pose proof (c_closed _ _ _ C (d, p)) as Hc. pose proof (c_named _ _ _ C) as Hn.
  unfold old_network in *. repeat case_decide; cbn; [set_solver|set_solver|].
  split; [done|]. split; [|done]. intros [m Hx]%Hm. rewrite Hx in *. cbn in *.
  destruct (Hc _ _ eq_refl) as [->|Hin]; exfalso.
  - enough (u ∈ r_networks r) by naive_solver. apply (c_networks _ _ _ C). eauto.
  - apply H0. split; [done|]. apply known_spec. naive_solver.
Qed.

Definition old_mac (r : registry) (d p : Z) : mac := r_ports r !! (d, p) ≫= snd.

Lemma consistent_moved r s s' n d p ps :
  consistent u r s → n ≠ u → od_get n (networks s) = Some ps →
  (∀ n' m', r_ports r !! (d, p) = Some (n', m') → n' = n ∨ m' = None) →
  networks s' = (if decide (old_network r d p = n) then networks s
                 else moved (old_network r d p) n d p (networks s)) →
  macs s' = macs s →
  dpids_update_port d p n (dpids_ s) = ([], dpids_ s', Ret tt) →
  consistent u (r_put d p (n, old_mac r d p) r) s'.
Proof.
  intros C Hu E Ha Hnet Hmac Hd.
  destruct (dpids_update_port_run d p n (dpids_ s)) as (t & Ht & Hun & Hpo & Hdp).
  rewrite Hd in Ht. injection Ht as <-.
  eapply (consistent_at r s _ _ d p (Some (n, old_mac r d p))); [done| |done|..].
  - unfold unknown. rewrite Hun. apply C.
  - intros x. cbn. rewrite lookup_insert. repeat case_decide; naive_solver.
  - intros n' m [= <- <-]. right. apply (c_networks _ _ _ C). eauto.
  - intros n'. rewrite Hnet. case_decide; [done|].
    by rewrite get_moved, fmap_is_Some.
  - intros n' ps'. rewrite Hnet. case_decide as Hold.
    + intros E'. exists ps'. split; [done|]. split; [done|].
      rewrite (c_members _ _ _ C _ _ _ E'). cbn. unfold old_network in Hold.
      destruct (r_ports r !! (d, p)) as [[? ?]|]; cbn in *; [naive_solver|congruence].
    + intros E'. destruct (moved_members _ _ _ _ _ _ _ C Hold E') as (po & Hpo' & Hne & He).
      exists po. split; [done|]. split; [done|]. rewrite He. cbn. naive_solver.
  - intros d'. rewrite Hdp, (c_dpids _ _ _ C). cbn. set_solver.
  - clear Hnet. intros d' p'. rewrite Hpo, (c_ports _ _ _ C d p). case_decide; [|done].
    unfold old_mac. by destruct (r_ports r !! (d, p)).
  - clear Hnet. intros n' m x. rewrite Hmac. case_decide; [|done]. subst.
    rewrite (c_index _ _ _ C). unfold old_mac.
    destruct (r_ports r !! (d, p)) as [[n0 m0]|] eqn:Ex; cbn; [|naive_solver].
    destruct (Ha _ _ eq_refl); naive_solver.
Qed.

Lemma network_eta s : Network (networks s) (dpids_ s) (macs s) = s.
Proof. by destruct s. Qed.

(** The port is known to the network only when its own network is known. *)
Lemma has_or_known r s n d p ps :
  consistent u r s → od_get n (networks s) = Some ps →
  bool_decide ((d, p) ∈ ps) || known_nw_id u (old_network r d p)
    = known_nw_id u (old_network r d p).
Proof.
  intros C E. case_bool_decide as Hin; [|done]. cbn. symmetry. apply known_spec.
  apply (c_members _ _ _ C _ _ _ E) in Hin as [m Hx]. unfold old_network. rewrite Hx. cbn.
  assert (n ∈ r_networks r) as Hn by (apply (c_networks _ _ _ C); eauto).
  apply (c_named _ _ _ C) in Hn. naive_solver.
Qed.

(** The assignments of [_update_port] that follow its checks. *)
Lemma update_port_assigns r s n d p ps :
  consistent u r s → n ≠ u → od_get n (networks s) = Some ps →
  (∀ n' m', r_ports r !! (d, p) = Some (n', m') → n' = n ∨ m' = None) →
  let old := old_network r d p in
  wp (if bool_decide (old ≠ n) then
        within networks (networks_add_raw n d p);;
        when (known_nw_id u old) (within networks (networks_remove_raw old d p));;
        mret true
      else mret false) s (λ o1 s1 res1,
    ∃ b, res1 = Ret b ∧
    wp (within dpids_ (dpids_update_port d p n);;
        when b (within networks (networks_add_event n d p))) s1 (λ o2 s2 res2,
      consistent u (r_put d p (n, old_mac r d p) r) s2 ∧ res2 = Ret tt ∧
      o1 ++ o2 = if decide (old = n) then []
                 else (if known_nw_id u old then [EventNetworkPort old d p false] else [])
                      ++ [EventNetworkPort n d p true])).
Proof.
  intros C Hu E Ha old.
  destruct (dpids_update_port_run d p n (dpids_ s)) as (t & Ht & _).
  pose proof (consistent_moved r s
    (Network (if decide (old = n) then networks s else moved old n d p (networks s)) t (macs s))
    n d p ps C Hu E Ha eq_refl eq_refl Ht) as Hc.
  destruct (decide (old = n)) as [Heq|Hne].
  - rewrite bool_decide_false by tauto. wp_step. exists false. split; [done|].
    wp_step. net_step. eapply wp_run; [exact Ht|]. cbn -[wp]. wp_step. done.
  - rewrite bool_decide_true by done. eapply wp_run; [by apply (move_run r s n d p ps)|].
    exists true. split; [done|]. wp_step. net_step. eapply wp_run; [exact Ht|].
    cbn -[wp]. unfold networks_add_event. repeat net_step. done.
Qed.

Lemma update_port_refines r s n d p may_exist :
  consistent u r s →
  (∀ n' m', r_ports r !! (d, p) = Some (n', m') → n' = n ∨ m' = None) →
  implements (update_port_ n d p may_exist) s (spec_port u may_exist n d p r).
Proof.
  intros C Ha. unfold implements, update_port_, spec_port.
  assert (default (u, None) (r_ports r !! (d, p)) = (old_network r d p, old_mac r d p)) as ->.
  { unfold old_network, old_mac. by destruct (r_ports r !! (d, p)) as [[? ?]|]. }
  apply wp_bind. eapply wp_run; [by apply check_run, C|].
  case_decide as Hu; [done|]. repeat net_step. rewrite (c_unknown _ _ _ C).
  eapply wp_eq; [apply dpids_get_network_safe_run|]. cbn -[wp].
  assert (from_option network_id (nw_id_unknown (dpids_ s)) (port_at (dpids_ s) d p)
          = old_network r d p) as ->.
  { rewrite (c_ports _ _ _ C). unfold old_network. pose proof (c_unknown _ _ _ C) as Hun.
    by destruct (r_ports r !! (d, p)) as [[? ?]|]. }
  repeat net_step. eapply wp_eq; [apply networks_has_port_run|]. cbn -[wp].
  pose proof (c_networks _ _ _ C n) as Hin.
  destruct (od_get n (networks s)) as [ps|] eqn:E.
  - rewrite network_eta, (has_or_known r s n) by done.
    rewrite (decide_False (P := n ∉ r_networks r)) by (intros Hn; apply Hn, Hin; eauto).
    pose proof (update_port_assigns r s n d p ps C Hu E Ha) as Hw. cbv zeta in Hw.
    set (old := old_network r d p) in *.
    destruct (known_nw_id u old) eqn:K, may_exist; cbn [negb when andb]; rewrite ?network_eta;
      apply wp_bind; apply wp_ret || apply wp_raise; cbn -[wp]; try done.
    all: eapply wp_mono; [exact Hw|]; intros o1 s1 res1 (b & -> & Hb).
    all: eapply wp_mono; [exact Hb|]; intros o2 s2 res2 (? & -> & ?); done.
  - rewrite (decide_True (P := n ∉ r_networks r)) by (rewrite <- Hin; intros [? ?]; done).
    cbn. rewrite network_eta. done.
Qed.

Lemma consistent_drop r s s' d p :
  consistent u r s → d ∈ r_dpids r →
  dpids_ s' = (dpids_ s <| dp_ports ::= drop_port d p |>) →
  (∀ n, is_Some (od_get n (networks s')) ↔ is_Some (od_get n (networks s))) →
  (∀ n ps', od_get n (networks s') = Some ps' → ∃ ps, od_get n (networks s) = Some ps ∧
     ∀ x, x ∈ ps' ↔ x ∈ ps ∧ x ≠ (d, p)) →
  (∀ n m x, x ∈ mac_index (macs s') n m ↔ x ∈ mac_index (macs s) n m ∧ x ≠ (d, p)) →
  consistent u (Registry (r_networks r) (r_dpids r) (delete (d, p) (r_ports r))) s'.
Proof.
  intros C Hd Hs Hn Hm Hi.
  eapply (consistent_at r s _ _ d p None); [done| |done|..].
  - unfold unknown. rewrite Hs. apply C.
  - intros x. cbn. rewrite lookup_delete. repeat case_decide; naive_solver.
  - done.
  - done.
  - intros n ps' (ps & E & Hps)%Hm. exists ps. split; [done|].
    split; [intros x Hx; rewrite Hps; tauto|]. rewrite Hps. cbn. naive_solver.
  - intros d'. rewrite Hs. cbn. unfold drop_port. rewrite alter_dpid. apply C.
  - intros d' p'. rewrite Hs. unfold port_at. cbn. by rewrite get_drop_port.
  - intros n m x. rewrite Hi. case_decide; naive_solver.
Qed.

(** Every entry of the port is one of its own network. *)
Lemma member_port r s d p n ps :
  consistent u r s → od_get n (networks s) = Some ps →
  (d, p) ∈ ps ↔ n ∈ r_networks r ∧ fst <$> r_ports r !! (d, p) = Some n.
Proof.
  intros C E. rewrite (c_members _ _ _ C _ _ _ E). split.
  - intros [m ->]. split; [|done]. apply (c_networks _ _ _ C). eauto.
  - intros [_ H]. destruct (r_ports r !! (d, p)) as [[? m]|]; naive_solver.
Qed.

Lemma consistent_port_at r s d p :
  consistent u r s → is_Some (r_ports r !! (d, p)) → is_Some (od_get d (dp_ports (dpids_ s))).
Proof.
  intros C [v Hv]. pose proof (c_ports _ _ _ C d p) as H. rewrite Hv in H.
  unfold port_at in H. destruct (od_get d (dp_ports (dpids_ s))); [eauto|done].
Qed.

Lemma mac_event_none d p n b : mac_event d p n None b = [].
Proof. unfold mac_event. cbn. by rewrite andb_false_r. Qed.

(** A port that belongs to no network and has no MAC address leaves no other entry. *)
Lemma port_deleted_refines r s d p :
  consistent u r s → allowed u (PortDeleted d p) r →
  implements (port_deleted d p) s (spec u (PortDeleted d p) r).
Proof.
  intros C Ha. cbn in Ha. rewrite at_port_spec in Ha. unfold implements, port_deleted, spec. apply wp_within.
  eapply wp_eq; [apply dpids_remove_port_run|].
  pose proof (c_dpids _ _ _ C d) as Hd. pose proof (c_ports _ _ _ C d p) as Hp.
  destruct (od_get d (dp_ports (dpids_ s))) as [l|] eqn:E.
  - rewrite decide_True by (apply Hd; eauto). rewrite Hp.
    assert (consistent u (Registry (r_networks r) (r_dpids r) (delete (d, p) (r_ports r)))
              (s <| dpids_ := dpids_ s <| dp_ports ::= drop_port d p |> |>)) as Hc.
    { apply (consistent_drop r s); cbn; try done; [apply Hd; eauto|..].
      - intros n ps' E'. exists ps'. split; [done|]. intros x.
        split; [|tauto]. intros Hx. split; [done|]. intros ->.
        apply (member_port r s d p n) in Hx as [Hn Hx]; [|done..].
        apply (c_named _ _ _ C) in Hn. destruct (r_ports r !! (d, p)) as [[? ?]|] eqn:Er; [|done].
        naive_solver.
      - intros n m x. split; [|tauto]. intros Hx. split; [done|]. intros ->.
        apply (c_index _ _ _ C) in Hx as [? Hx]. naive_solver. }
    destruct (r_ports r !! (d, p)) as [[n m]|] eqn:Er; [|done].
    destruct (Ha _ _ eq_refl) as [-> ->].
    cbn. rewrite !mac_event_none, (decide_False (P := u ∈ r_networks r)); [done|].
    intros Hn. apply (c_named _ _ _ C) in Hn. tauto.
  - rewrite decide_False by (rewrite <- Hd; intros [? ?]; done).
    split; [by destruct s|done].
Qed.

Lemma old_mac_of_run r s n d p :
  consistent u r s →
  get_old_mac n d p s =
    ([], s, Ret (if decide (fst <$> r_ports r !! (d, p) = Some n) then old_mac r d p else None)).
Proof.
  intros C. rewrite get_old_mac_run, (c_ports _ _ _ C). unfold old_mac.
  destruct (r_ports r !! (d, p)) as [[n' m]|]; cbn; repeat case_decide; naive_solver.
Qed.

Lemma remove_port_members r s n d p o l res :
  consistent u r s →
  (∀ n' m', r_ports r !! (d, p) = Some (n', m') → n' = n ∨ n' = u) →
  networks_remove n d p (networks s) = (o, l, res) →
  (∀ n', is_Some (od_get n' l) ↔ is_Some (od_get n' (networks s))) ∧
  (∀ n' ps', od_get n' l = Some ps' → ∃ ps, od_get n' (networks s) = Some ps ∧
     ∀ x, x ∈ ps' ↔ x ∈ ps ∧ x ≠ (d, p)) ∧
  o = (if decide (fst <$> r_ports r !! (d, p) = Some n ∧ n ∈ r_networks r)
       then [EventNetworkPort n d p false] else []) ∧
  (res = Ret tt ∨ res = Raise NetworkNotFound).
Proof.
  intros C Ha Hrun. rewrite networks_remove_run in Hrun.
  pose proof (c_networks _ _ _ C n) as Hn. pose proof (c_named _ _ _ C) as Hk.
  assert (∀ n' ps, od_get n' (networks s) = Some ps → n' ≠ n → (d, p) ∉ ps) as Hother.
  { intros n' ps E Hne Hin. apply (member_port r s d p n') in Hin as [Hx Hf]; [|done..].
    apply Hk in Hx. destruct (r_ports r !! (d, p)) as [[n0 m0]|]; naive_solver. }
  destruct (od_get n (networks s)) as [ps|] eqn:E.
  - assert (n ∈ r_networks r) as Hin by (apply Hn; eauto).
    pose proof (member_port r s d p n ps C E) as Hm.
    destruct (decide ((d, p) ∈ ps)) as [Hx|Hx]; injection Hrun as <- <- <-; split_and!; auto.
    + intros n'. rewrite od_get_alter. case_decide; [by rewrite fmap_is_Some|done].
    + intros n' ps'. rewrite od_get_alter. case_decide as Hd.
      * subst. rewrite E. intros [= <-]. exists ps. split; [done|]. set_solver.
      * intros E'. exists ps'. split; [done|]. intros x. specialize (Hother _ _ E' Hd). naive_solver.
    + rewrite decide_True; [done|]. tauto.
    + intros n' ps' E'. exists ps'. split; [done|]. intros x. split; [|tauto].
      intros Hx'. split; [done|]. intros ->. destruct (decide (n' = n)); [|by eapply Hother].
      naive_solver.
    + rewrite decide_False; [done|]. tauto.
  - injection Hrun as <- <- <-. split_and!; auto.
    + intros n' ps' E'. exists ps'. split; [done|]. intros x. split; [|tauto].
      intros Hx'. split; [done|]. intros ->. destruct (decide (n' = n)); [|by eapply Hother].
      naive_solver.
    + rewrite decide_False; [done|]. intros [_ [? ?]%Hn]. done.
Qed.

(** The MAC address that [remove_port] takes off the index. *)
Definition indexed_mac (r : registry) (n : nw_id) (d p : Z) : mac :=
  if decide (fst <$> r_ports r !! (d, p) = Some n) then old_mac r d p else None.

Definition macs_forget (n : nw_id) (d p : Z) (m : mac) (t : mac_addresses_t) :=
  if bool_decide (m ≠ None) then macs_removed n d p m t else t.

Lemma forget_run n d p m (s : network) :
  when (bool_decide (m ≠ None)) (within macs (macs_remove_port n d p m)) s =
    ([], s <| macs := macs_forget n d p m (macs s) |>, Ret tt).
Proof.
  unfold when, macs_forget, macs_removed, within, macs_remove_port, modify.
  case_bool_decide; [done|]. by destruct s.
Qed.

Lemma remove_port_consistent r s n d p o l res :
  consistent u r s → allowed u (RemovePort n d p) r → d ∈ r_dpids r →
  networks_remove n d p (networks s) = (o, l, res) →
  consistent u (Registry (r_networks r) (r_dpids r) (delete (d, p) (r_ports r)))
    (Network l (dpids_ s <| dp_ports ::= drop_port d p |>)
       (macs_forget n d p (indexed_mac r n d p) (macs s))).
Proof.
  intros C Ha Hd Hrun. cbn in Ha. rewrite at_port_spec in Ha.
  destruct (remove_port_members r s n d p o l res) as (H1 & H2 & _); [done| |done|].
  { intros n' m' Hx. destruct (Ha _ _ Hx); tauto. }
  apply (consistent_drop r s); [done..|]. cbn. intros n' m x.
  pose proof (c_index _ _ _ C n' m x) as Hi.
  assert (x ∈ mac_index (macs s) n' m ∧ x ≠ (d, p) ↔
          x ∈ mac_index (macs s) n' m ∧ (x = (d, p) → m ≠ indexed_mac r n d p ∨ n' ≠ n)) as ->.
  { split; [naive_solver|]. intros [Hx Hne]. split; [done|]. intros ->.
    apply Hi in Hx as [Hm Hx]. unfold indexed_mac, old_mac in Hne. rewrite Hx in Hne. cbn in Hne.
    specialize (Hne eq_refl). case_decide; [naive_solver|].
    destruct (Ha _ _ Hx) as [?|[_ ?]]; naive_solver. }
  unfold macs_forget. case_bool_decide as Hm.
  - rewrite mac_index_remove. case_decide as Hx; [simplify_eq; set_solver|].
    split; [|tauto]. intros ?. split; [done|]. intros _.
    destruct (decide (m = indexed_mac r n d p)); [right|tauto]. congruence.
  - split; [|tauto]. intros Hx. split; [done|]. intros _. left.
    apply Hi in Hx as [? _]. destruct (indexed_mac r n d p); naive_solver.
Qed.

Lemma remove_port_run r s n d p o l res :
  consistent u r s → d ∈ r_dpids r →
  networks_remove n d p (networks s) = (o, l, res) →
  res = Ret tt ∨ res = Raise NetworkNotFound →
  remove_port n d p s =
    (from_option (λ v, mac_event d p v.1 v.2 false) [] (r_ports r !! (d, p)) ++ o,
     Network l (dpids_ s <| dp_ports ::= drop_port d p |>)
       (macs_forget n d p (indexed_mac r n d p) (macs s)), Ret tt).
Proof.
  intros C Hd Hrun Hres. unfold remove_port, mbind, M_bind.
  rewrite (old_mac_of_run r) by done. fold (indexed_mac r n d p).
  unfold within at 1. rewrite dpids_remove_port_run.
  apply (c_dpids _ _ _ C) in Hd as [x Hx]. rewrite Hx, (c_ports _ _ _ C).
  unfold try_with, within at 1. cbn [networks set_field setter_fun setter_of].
  rewrite Hrun. destruct Hres as [-> | ->]; cbn -[macs_remove_port when within bool_decide];
    rewrite ?(decide_True (P := NetworkNotFound = NetworkNotFound)) by done;
    cbn -[macs_remove_port when within bool_decide]; rewrite forget_run; cbn; rewrite ?app_nil_r; by destruct (r_ports r !! (d, p)).
Qed.

Lemma remove_port_refines r s n d p :
  consistent u r s → allowed u (RemovePort n d p) r →
  implements (remove_port n d p) s (spec u (RemovePort n d p) r).
Proof.
  intros C Ha. cbn in Ha. rewrite at_port_spec in Ha. unfold implements, spec.
  destruct (decide (d ∈ r_dpids r)) as [Hd|Hd].
  - destruct (networks_remove n d p (networks s)) as [[o l] res] eqn:Hrun.
    destruct (remove_port_members r s n d p o l res) as (_ & _ & Ho & Hres); [done| |done|].
    { intros n' m' Hx. destruct (Ha _ _ Hx); tauto. }
    eapply wp_run; [by apply (remove_port_run r s n d p o l res)|].
    pose proof (remove_port_consistent r s n d p o l res C (proj2 (at_port_spec _ _ _ _) Ha) Hd Hrun) as Hc.
    destruct (r_ports r !! (d, p)) as [[n' m']|] eqn:Er; cbn in *.
    + split; [done|]. split; [|done]. rewrite Ho. f_equal.
      destruct (Ha _ _ eq_refl) as [->|[-> ->]]; [repeat case_decide; naive_solver|].
      rewrite (decide_False (P := u ∈ r_networks r)); [|intros Hn%(c_named _ _ _ C); tauto].
      rewrite decide_False; [done|]. intros [[= ->] Hn%(c_named _ _ _ C)]. tauto.
    + split; [done|]. split; [|done]. rewrite Ho. rewrite decide_False; [done|]. by intros [? ?].
  - unfold remove_port. apply wp_bind. eapply wp_run; [by apply old_mac_of_run|].
    apply wp_bind, wp_within. eapply wp_eq; [apply dpids_remove_port_run|].
    rewrite <- (c_dpids _ _ _ C d) in Hd.
    destruct (od_get d (dp_ports (dpids_ s))) as [l|] eqn:E; [destruct Hd; eauto|].
    split; [by destruct s|done].
Qed.

(** *** MAC addresses *)

Lemma r_put_lookup d p v r x :
  r_ports (r_put d p v r) !! x = if decide (x = (d, p)) then Some v else r_ports r !! x.
Proof. cbn. rewrite lookup_insert. repeat case_decide; naive_solver. Qed.

(** The port gets the MAC address [m], which may be its own. *)
Lemma consistent_set_mac r s s' n d p m m' :
  consistent u r s → r_ports r !! (d, p) = Some (n, m') → m' = None ∨ m' = m → m ≠ None →
  networks s' = networks s →
  unknown s' = u →
  (∀ d', is_Some (od_get d' (dp_ports (dpids_ s'))) ↔ is_Some (od_get d' (dp_ports (dpids_ s)))) →
  (∀ d' p', port_at (dpids_ s') d' p' =
     if decide ((d', p') = (d, p)) then Some (Port p n m) else port_at (dpids_ s) d' p') →
  (∀ n' m' x, x ∈ mac_index (macs s') n' m' ↔
     x ∈ mac_index (macs s) n' m' ∨ (n' = n ∧ m' = m ∧ x = (d, p))) →
  consistent u (r_put d p (n, m) r) s'.
Proof.
  intros C Hx Hm' Hm Hn Hu Hd Hp Hi.
  eapply (consistent_at r s _ _ d p (Some (n, m))); [done|done|done|..].
  - intros x. apply r_put_lookup.
  - intros n' m0 [= <- <-]. by apply (c_closed _ _ _ C) in Hx.
  - by rewrite Hn.
  - rewrite Hn. intros n' ps E. exists ps. split; [done|]. split; [done|].
    rewrite (c_members _ _ _ C _ _ _ E), Hx. cbn.
    split; [by intros [? [= -> ->]]|intros [= ->]; eauto].
  - intros d'. rewrite Hd, (c_dpids _ _ _ C). cbn. split; [set_solver|].
    intros [->%elem_of_singleton|?]%elem_of_union; [|done].
    apply (c_dpids _ _ _ C), (consistent_port_at r s d p C). eauto.
  - done.
  - intros n' m0 x. rewrite Hi. destruct (decide (x = (d, p))) as [->|E]; [|tauto].
    rewrite (c_index _ _ _ C), Hx. split.
    + intros [[? [= -> ->]]|(-> & -> & _)]; [|done]. destruct Hm' as [->| ->]; done.
    + intros [_ [= -> ->]]. by right.
Qed.

Lemma set_mac_run_consistent r s t n d p m m' :
  consistent u r s → r_ports r !! (d, p) = Some (n, m') → m' = None → m ≠ None →
  (∀ n' m' x, x ∈ mac_index t n' m' ↔
     x ∈ mac_index (macs s) n' m' ∨ (n' = n ∧ m' = m ∧ x = (d, p))) →
  ∃ ds, dpids_set_mac_ n d p (Port p n m') m (dpids_ s) = (mac_event d p n m true, ds, Ret tt) ∧
    consistent u (r_put d p (n, m) r) (Network (networks s) ds t).
Proof.
  intros C Hx Hm' Hm Ht.
  destruct (dpids_set_mac_run n d p m (dpids_ s) (Port p n m')) as (ds & E & Hu & Hp & Hd);
    [by rewrite (c_ports _ _ _ C), Hx|done|].
  exists ds. split; [done|].
  eapply (consistent_set_mac r s); [done|done|by left|done|done| | | |exact Ht].
  - unfold unknown. cbn. rewrite Hu. apply C.
  - exact Hd.
  - exact Hp.
Qed.

Lemma add_index t n d p m n' m' x :
  x ∈ mac_index (<[n := mtp_add_port d p m (default ∅ (t !! n))]> t) n' m' ↔
    x ∈ mac_index t n' m' ∨ (n' = n ∧ m' = m ∧ x = (d, p)).
Proof. rewrite mac_index_add. case_decide; set_solver. Qed.

Lemma dpids_get_port_run d p (s : dpids) :
  dpids_get_port d p s =
    ([], s, match port_at s d p with Some x => Ret x | None => Raise PortNotFound end).
Proof. unfold dpids_get_port, mbind, M_bind, get_st, or_raise. cbn. by destruct (port_at s d p). Qed.

Lemma consistent_index r s t :
  consistent u r s → (∀ n m x, x ∈ mac_index t n m ↔ x ∈ mac_index (macs s) n m) →
  consistent u r (Network (networks s) (dpids_ s) t).
Proof. intros [] Hi. split; cbn; try done. intros n m x. rewrite Hi. auto. Qed.

Lemma create_mac_refines r s n d p m :
  consistent u r s → allowed u (CreateMac n d p m) r →
  implements (create_mac n d p m) s (spec u (CreateMac n d p m) r).
Proof.
  intros C (Hm & [[n' m'] Hx] & Ha). rewrite at_port_spec in Ha.
  destruct (Ha _ _ Hx) as [-> Hm']. unfold implements, create_mac, macs_add_port, spec. rewrite Hx.
  repeat net_step. unfold dpids_set_mac. apply wp_bind.
  eapply wp_run; [apply dpids_get_port_run|]. cbn [dpids_]. rewrite (c_ports _ _ _ C), Hx.
  cbn -[wp dpids_set_mac_]. destruct m' as [a|]; cbn -[wp dpids_set_mac_].
  - destruct Hm' as [|<-]; [done|]. wp_step. split; [|done].
    apply consistent_index; [done|]. intros n' m' x. rewrite add_index, (c_index _ _ _ C).
    naive_solver.
  - destruct (set_mac_run_consistent r s
      (<[n := mtp_add_port d p m (default ∅ (macs s !! n))]> (macs s)) n d p m None C Hx
      eq_refl Hm (add_index _ _ _ _ _)) as (ds & E & Hc).
    eapply wp_run; [exact E|]. done.
Qed.

Lemma update_mac_refines r s n d p m :
  consistent u r s → allowed u (UpdateMac n d p m) r →
  implements (update_mac n d p m) s (spec u (UpdateMac n d p m) r).
Proof.
  intros C [Hm Ha]. rewrite at_port_spec in Ha. unfold implements, update_mac, spec.
  apply wp_bind. eapply wp_run; [by apply old_mac_of_run|]. fold (indexed_mac r n d p).
  cbn [app]. apply wp_bind, wp_within. unfold dpids_update_mac. apply wp_bind.
  eapply wp_run; [apply dpids_get_port_run|]. rewrite (c_ports _ _ _ C).
  unfold indexed_mac, old_mac.
  destruct (r_ports r !! (d, p)) as [[n' m']|] eqn:Hx; cbn -[wp dpids_set_mac_ macs_add_port].
  2:{ split; [by destruct s|done]. }
  pose proof (Ha _ _ eq_refl) as ->. rewrite decide_True by done.
  destruct m' as [a|]; cbn -[wp dpids_set_mac_ macs_add_port].
  - case_bool_decide as Hb; cbn -[wp macs_add_port].
    + rewrite decide_False by congruence. wp_step. split; [by destruct s|done].
    + assert (Some a = m) as <- by (by destruct (decide (Some a = m)); [|destruct Hb]).
      rewrite decide_True by done. wp_step.
      unfold macs_remove_port, macs_add_port. repeat net_step. cbn -[wp]. split; [|done].
      fold (macs_removed n d p (Some a) (macs s)).
      apply consistent_index; [done|]. intros n' m x. rewrite add_index, mac_index_remove.
      pose proof (c_index _ _ _ C n' m x) as Hi. case_decide; [|naive_solver].
      simplify_eq. destruct (decide (x = (d, p))) as [->|]; [|set_solver].
      rewrite Hi, Hx. tauto.
  - destruct (set_mac_run_consistent r s
      (<[n := mtp_add_port d p m (default ∅ (macs s !! n))]> (macs s)) n d p m None C Hx
      eq_refl Hm (add_index _ _ _ _ _)) as (ds & E & Hc).
    eapply wp_run; [exact E|]. unfold macs_add_port. cbn -[wp]. repeat net_step.
    split; [done|]. by rewrite app_nil_r.
Qed.

(** *** Datapaths *)

Lemma consistent_dpid r s d :
  consistent u r s →
  consistent u (Registry (r_networks r) ({[d]} ∪ r_dpids r) (r_ports r))
    (s <| dpids_ ::= λ t, t <| dp_ports ::= od_setdefault d [] |> |>).
Proof.
  intros [U Na Cl Ne Me Dp Po In]. split; cbn; try done.
  - intros d'. rewrite od_get_setdefault, elem_of_union, elem_of_singleton, <- Dp.
    case_decide; naive_solver eauto.
  - intros d' p. rewrite <- Po. unfold port_at. cbn. rewrite od_get_setdefault.
    case_decide; [|done]. subst. by destruct (od_get d (dp_ports (dpids_ s))).
Qed.

Lemma port_added_refines r s x d p :
  consistent u r s →
  implements (port_added x d p) s (spec u (PortAdded x d p) r).
Proof.
  intros C. unfold implements, port_added, spec, spec_port_added.
  destruct ((p =? 0) || (x <=? p)); [by apply wp_ret|].
  apply wp_within. eapply wp_run; [done|]. split; [|done].
  pose proof (c_unknown _ _ _ C) as Hu. unfold unknown in Hu. cbn. rewrite Hu. fold (with_port u d p (dp_ports (dpids_ s))).
  eapply (consistent_at r s _ _ d p (Some (default (u, None) (r_ports r !! (d, p))))).
  all: try done.
  - intros y. apply r_put_lookup.
  - intros n m [= E]. destruct (r_ports r !! (d, p)) as [v|] eqn:Ev; cbn in E; [|naive_solver].
    subst. by apply (c_closed _ _ _ C) in Ev.
  - intros n ps E. exists ps. split; [done|]. split; [done|].
    rewrite (c_members _ _ _ C _ _ _ E). cbn.
    assert (n ≠ u) by (apply (c_named _ _ _ C), (c_networks _ _ _ C); eauto).
    destruct (r_ports r !! (d, p)) as [[? ?]|]; cbn; split; try naive_solver.
  - intros d'. cbn. rewrite with_port_dpid, (c_dpids _ _ _ C). set_solver.
  - intros d' p'. unfold port_at at 1. cbn. rewrite get_with_port.
    fold (port_at (dpids_ s) d' p'). case_decide as E; [|done]. simplify_eq.
    rewrite (c_ports _ _ _ C). by destruct (r_ports r !! (d, p)).
  - intros n m y. cbn. case_decide as E; [|done]. subst. rewrite (c_index _ _ _ C).
    destruct (r_ports r !! (d, p)) as [[? ?]|]; naive_solver.
Qed.

Lemma ports_added_refines x d ps r s :
  consistent u r s →
  implements (for_each ps (port_added x d)) s
    (r_done (foldl (λ r p, spec_port_added u x d p r) r ps) []).
Proof.
  revert r s. induction ps as [|p ps IH]; intros r s C; cbn [for_each foldl].
  { by apply wp_ret. }
  apply wp_bind. eapply wp_mono; [by apply port_added_refines|].
  intros o s' res (Hc & -> & ->). cbn in *. by apply IH.
Qed.

Lemma add_datapath_refines x d ps r s :
  consistent u r s →
  implements (add_datapath x d ps) s (spec u (AddDatapath x d ps) r).
Proof.
  intros C. unfold implements, add_datapath, dpids_setdefault_dpid. repeat net_step.
  apply ports_added_refines. by apply (consistent_dpid r s d).
Qed.

(** *** Histories *)

Lemma operation_refines r s op :
  consistent u r s → allowed u op r → implements (operate op) s (spec u op r).
Proof.
  intros C Ha. destruct op; cbn [operate].
  - by apply create_network_refines.
  - by apply update_network_refines.
  - by apply remove_network_refines.
  - apply update_port_refines; [done|]. by apply at_port_spec.
  - apply update_port_refines; [done|]. by apply at_port_spec.
  - by apply remove_port_refines.
  - by apply create_mac_refines.
  - by apply update_mac_refines.
  - by apply add_datapath_refines.
  - by apply port_added_refines.
  - by apply port_deleted_refines.
Qed.

Lemma consistent_init : u ≠ None → consistent u (Registry ∅ ∅ ∅) (network_init u).
Proof.
  intros Hu. split; cbn; try done; try set_solver.
Qed.
End refines.

(** A history of operations, a failed one being followed by the next. *)
Fixpoint run_ops (ops : list nw_op) (s : network)
  : list (list nw_event * outcome pyexn ()) * network :=
  match ops with
  | [] => ([], s)
  | op :: ops =>
      let '(o, s1, res) := operate op s in
      let '(l, s2) := run_ops ops s1 in ((o, res) :: l, s2)
  end.

Fixpoint spec_ops (u : nw_id) (ops : list nw_op) (r : registry)
  : list (list nw_event * outcome pyexn ()) * registry :=
  match ops with
  | [] => ([], r)
  | op :: ops =>
      let '(o, r1, res) := spec u op r in
      let '(l, r2) := spec_ops u ops r1 in ((o, res) :: l, r2)
  end.

Fixpoint allowed_ops (u : nw_id) (ops : list nw_op) (r : registry) : Prop :=
  match ops with
  | [] => True
  | op :: ops => allowed u op r ∧ allowed_ops u ops (spec u op r).1.2
  end.

#[export] Instance allowed_ops_dec u ops r : Decision (allowed_ops u ops r).
Proof. revert r. induction ops; intros r; cbn; apply _. Defined.

Lemma run_ops_refines u ops r s :
  consistent u r s → allowed_ops u ops r →
  (run_ops ops s).1 = (spec_ops u ops r).1 ∧
  consistent u (spec_ops u ops r).2 (run_ops ops s).2.
Proof.
  revert r s. induction ops as [|op ops IH]; intros r s C; cbn; [done|].
  intros [Ha Hops]. pose proof (operation_refines u r s op C Ha) as H.
  unfold implements, wp, outputs, final, result in H.
  destruct (operate op s) as [[o s1] res], (spec u op r) as [[o' r1] res'].
  cbn in *. destruct H as (C1 & -> & ->). destruct (IH r1 s1 C1 Hops) as [H1 H2].
  destruct (run_ops ops s1), (spec_ops u ops r1). cbn in *. by subst.
Qed.

(** C9: [Network] implements one registry of networks, ports and MAC addresses.  Over any
    history of API calls and switch events in the order [allowed] describes, every call
    returns or raises what the registry says, sends exactly its events in order, and the
    sets of ports of the networks, the ports of the datapaths and the index of MAC
    addresses agree with the registry at the end. *)
Theorem network_refines_registry u ops :
  u ≠ None → allowed_ops u ops (Registry ∅ ∅ ∅) →
  (run_ops ops (network_init u)).1 = (spec_ops u ops (Registry ∅ ∅ ∅)).1 ∧
  consistent u (spec_ops u ops (Registry ∅ ∅ ∅)).2 (run_ops ops (network_init u)).2.
Proof. intros Hu. by apply run_ops_refines, consistent_init. Qed.

Definition net1 : nw_id := Some "net1"%string.
Definition mac1 : mac := Some "02:00:00:00:00:01"%string.

(** The life of a port: the switch connects, the port gets a network and a MAC address,
    and everything is taken down in order. *)
Definition port_life : list nw_op :=
  [AddDatapath 65280 1 [1; 2]; CreateNetwork net1; CreatePort net1 1 1;
   CreateMac net1 1 1 mac1; UpdateMac net1 1 1 mac1; CreateNetwork net1;
   RemovePort net1 1 1; RemoveNetwork net1; PortDeleted 1 2].

Lemma network_refines_registry_witness :
  (run_ops port_life (network_init NW_ID_UNKNOWN)).1 =
    [([], Ret tt); ([], Ret tt); ([EventNetworkPort net1 1 1 true], Ret tt);
     ([EventMacAddress 1 1 net1 mac1 true], Ret tt); ([], Ret tt);
     ([], Raise NetworkAlreadyExist);
     ([EventMacAddress 1 1 net1 mac1 false; EventNetworkPort net1 1 1 false], Ret tt);
     ([EventNetworkDel net1], Ret tt); ([], Ret tt)].
Proof.
  rewrite (proj1 (network_refines_registry NW_ID_UNKNOWN port_life ltac:(done)
    ltac:(apply (bool_decide_unpack _); vm_compute; exact I))).
  by vm_compute.
Defined.

(** ** Well-formed dictionaries *)

Section well_formed.
Context (u : nw_id).

Definition nets_ok (l : nets) : Prop := od_ok l ∧ u ∉ od_keys l.

Record dpids_ok (s : dpids) : Prop := {
  do_unknown : nw_id_unknown s = u;
  do_keys : od_ok (dp_ports s);
  do_ports d l : od_get d (dp_ports s) = Some l → od_ok l;
  do_numbers d p x : port_at s d p = Some x → port_no x = p
}.

(** What no sequence of calls breaks: dictionaries with distinct keys, no network under
    the id of the unknown one, every [Port] under its own number. *)
Definition well_formed (s : network) : Prop := nets_ok (networks s) ∧ dpids_ok (dpids_ s).

Lemma nets_ok_alter f n l : nets_ok l → nets_ok (od_alter f n l).
Proof. intros [? ?]. split; [by apply od_ok_alter|by rewrite od_keys_alter]. Qed.

Lemma nets_ok_del n l : nets_ok l → nets_ok (od_del n l).
Proof.
  intros [? Hu]. split; [by apply od_ok_del|]. rewrite od_keys_del, list_elem_of_filter. tauto.
Qed.

Lemma nets_ok_set n v l : n ≠ u → nets_ok l → nets_ok (od_set n v l).
Proof.
  intros Hn [? Hu]. split; [by apply od_ok_set|]. rewrite od_keys_set. case_decide; set_solver.
Qed.

Lemma nets_ok_setdefault n v l : n ≠ u → nets_ok l → nets_ok (od_setdefault n v l).
Proof.
  intros Hn [? Hu]. split; [by apply od_ok_setdefault|].
  rewrite <- od_get_is_key in *. by rewrite od_get_setdefault, decide_False.
Qed.

Lemma dpids_ok_dpid d s :
  dpids_ok s → dpids_ok (s <| dp_ports ::= od_setdefault d [] |>).
Proof.
  intros [Hu Hk Hp Hn]. split; cbn; [done|by apply od_ok_setdefault|..].
  - intros d' l. rewrite od_get_setdefault. case_decide; [|apply Hp].
    intros [= <-]. subst. destruct (od_get d (dp_ports s)) eqn:E; cbn; [by eapply Hp|apply od_ok_nil].
  - intros d' p x Hx. apply (Hn d'). unfold port_at in *. cbn in Hx.
    rewrite od_get_setdefault in Hx. case_decide; [|done]. subst.
    by destruct (od_get d (dp_ports s)).
Qed.

(** A change inside the dictionary of one datapath. *)
Lemma dpids_ok_alter f d s :
  dpids_ok s →
  (∀ l, od_ok l → od_ok (f l)) →
  (∀ l p x, od_get p (f l) = Some x → port_no x = p ∨ ∃ y, od_get p l = Some y ∧ port_no x = port_no y) →
  dpids_ok (s <| dp_ports ::= od_alter f d |>).
Proof.
  intros [Hu Hk Hp Hn] Hf Hg. split; cbn; [done|by apply od_ok_alter|..].
  - intros d' l. rewrite od_get_alter. case_decide; [|apply Hp].
    intros (l0 & E & ->)%fmap_Some. eauto.
  - intros d' p x. unfold port_at. cbn. rewrite od_get_alter.
    case_decide; [|apply (Hn d')]. subst.
    destruct (od_get d (dp_ports s)) as [l|] eqn:E; cbn; [|done].
    intros [?|(y & Hy & ->)]%Hg; [done|]. apply (Hn d). unfold port_at. by rewrite E.
Qed.

Lemma dpids_ok_with d p n s :
  dpids_ok s → dpids_ok (s <| dp_ports ::= od_alter (od_setdefault p (Port p n None)) d |>).
Proof.
  intros H. apply dpids_ok_alter; [done|intros l; apply od_ok_setdefault|].
  intros l p' x. rewrite od_get_setdefault. case_decide as E; [|eauto].
  intros [= <-]. subst. destruct (od_get p l); cbn; eauto.
Qed.

Lemma dpids_ok_set f d p s :
  dpids_ok s → (∀ x, port_no (f x) = port_no x) → dpids_ok (set_port f d p s).
Proof.
  intros H Hf. apply dpids_ok_alter; [done|intros l; apply od_ok_alter|].
  intros l p' x. rewrite od_get_alter. case_decide; [|eauto].
  intros (y & E & ->)%fmap_Some. right. eauto.
Qed.

Lemma dpids_ok_drop d p s : dpids_ok s → dpids_ok (s <| dp_ports ::= od_alter (od_del p) d |>).
Proof.
  intros H. apply dpids_ok_alter; [done|intros l; apply od_ok_del|].
  intros l p' x. rewrite od_get_del. case_decide; [done|eauto].
Qed.

(** *** Every method keeps them *)

Lemma preserves_networks {A} (m : M nets pyexn nw_event A) :
  preserves nets_ok m → preserves well_formed (within networks m).
Proof.
  intros H s [Hn Hd]. specialize (H _ Hn). unfold final, within in *.
  destruct (m (networks s)) as [[o t] r]. done.
Qed.

Lemma preserves_dpids {A} (m : M dpids pyexn nw_event A) :
  preserves dpids_ok m → preserves well_formed (within dpids_ m).
Proof.
  intros H s [Hn Hd]. specialize (H _ Hd). unfold final, within in *.
  destruct (m (dpids_ s)) as [[o t] r]. done.
Qed.

Lemma preserves_macs {A} (m : M mac_addresses_t pyexn nw_event A) :
  preserves well_formed (within macs m).
Proof. intros s Hs. unfold final, within. by destruct (m (macs s)) as [[o t] r]. Qed.

Lemma preserves_except {St} (I : St → Prop) {A} e e' (m : M St pyexn nw_event A) :
  preserves I m → preserves I (except e e' m).
Proof.
  intros H. apply preserves_try; [done|]. intros x m'. case_decide; [|done].
  intros [= <-]. apply preserves_raise.
Qed.

Lemma preserves_handler {St} (I : St → Prop) {A} e (h m : M St pyexn nw_event A) :
  preserves I m → preserves I h →
  preserves I (try_with m (λ x, if decide (x = e) then Some h else None)).
Proof. intros H Hh. apply preserves_try; [done|]. intros x m'. case_decide; naive_solver. Qed.

Lemma preserves_checked n {A} (m : M network pyexn nw_event A) :
  (n ≠ u → preserves well_formed m) → preserves well_formed (check_nw_id_unknown n;; m).
Proof.
  intros H s Hs. unfold final, mbind, M_bind.
  rewrite (check_run u n s) by apply Hs. case_decide as Hn; [done|].
  specialize (H Hn s Hs). unfold final in H. by destruct (m s) as [[? ?] ?].
Qed.

Lemma preserves_mac_event {St} (I : St → Prop) d p n m b :
  preserves I (send_mac_event d p n m b).
Proof. unfold send_mac_event. preserve. Qed.
End well_formed.

#[export] Hint Resolve nets_ok_alter nets_ok_del nets_ok_set nets_ok_setdefault dpids_ok_dpid
  dpids_ok_with dpids_ok_drop preserves_mac_event preserves_macs : pres.

Ltac net_preserve :=
  repeat first
    [ apply preserves_checked; intros ?
    | apply preserves_networks
    | apply preserves_dpids
    | apply preserves_except
    | apply preserves_handler
    | preserve_step
    | progress (eauto with pres) ].

Ltac unfold_networks :=
  unfold networks_create_network, networks_update_network, networks_remove_network,
    networks_remove, networks_add_raw, networks_remove_raw, networks_remove_event,
    networks_has_port, networks_add_event, networks_getitem.

Ltac unfold_dpids :=
  unfold dpids_setdefault_network, dpids_update_port, dpids_remove_port, dpids_set_mac,
    dpids_update_mac, dpids_set_mac_, dpids_get_port, dpids_get_network_safe,
    dpids_setdefault_network_, dpids_setdefault_dpid.

Lemma networks_preserves u n d p :
  preserves (nets_ok u) (networks_remove_network n) ∧
  preserves (nets_ok u) (networks_add_raw n d p) ∧
  preserves (nets_ok u) (networks_remove_raw n d p) ∧
  preserves (nets_ok u) (networks_remove n d p) ∧
  preserves (nets_ok u) (networks_has_port n d p) ∧
  preserves (nets_ok u) (networks_add_event n d p).
Proof. unfold_networks. split_and!; net_preserve. Qed.

Lemma dpids_preserves u d p n m :
  preserves (dpids_ok u) (dpids_setdefault_network d p) ∧
  preserves (dpids_ok u) (dpids_setdefault_dpid d) ∧
  preserves (dpids_ok u) (dpids_update_port d p n) ∧
  preserves (dpids_ok u) (dpids_remove_port d p) ∧
  preserves (dpids_ok u) (dpids_set_mac n d p m) ∧
  preserves (dpids_ok u) (dpids_update_mac n d p m) ∧
  preserves (dpids_ok u) (dpids_get_port d p) ∧
  preserves (dpids_ok u) (dpids_get_network_safe d p).
Proof. unfold_dpids. split_and!; net_preserve; eauto using dpids_ok_set. Qed.

Lemma create_update_preserves u n :
  n ≠ u → preserves (nets_ok u) (networks_create_network n) ∧
          preserves (nets_ok u) (networks_update_network n).
Proof. intros Hn. unfold_networks. split_and!; net_preserve. Qed.

#[local] Hint Extern 1 (preserves (nets_ok _) _) =>
  first [apply (networks_preserves _ _ 0 0)|apply networks_preserves|by apply create_update_preserves] : pres.
#[local] Hint Extern 1 (preserves (dpids_ok _) _) => apply dpids_preserves : pres.

Lemma get_old_mac_preserves u n d p : preserves (well_formed u) (get_old_mac n d p).
Proof. unfold get_old_mac. net_preserve. Qed.

#[local] Hint Resolve get_old_mac_preserves : pres.

Lemma operate_preserves u op : preserves (well_formed u) (operate op).
Proof.
  destruct op; cbn [operate];
    unfold create_network, update_network, remove_network, create_port, update_port,
      update_port_, remove_port, create_mac, update_mac, add_datapath, port_added,
      port_deleted; net_preserve.
Qed.

Lemma well_formed_init u : well_formed u (network_init u).
Proof.
  split; [split; [apply od_ok_nil|set_solver]|].
  split; cbn; [done|apply od_ok_nil|done..].
Qed.

(** C38: Whatever calls are made, in any order and with any arguments, the dictionaries of
    [Network] stay well formed: keys are distinct, the id of the unknown network never
    names a network, and each [Port] lies under its own port number. *)
Theorem network_well_formed u ops : well_formed u (run_ops ops (network_init u)).2.
Proof.
  generalize (well_formed_init u). generalize (network_init u).
  induction ops as [|op ops IH]; intros s Hs; cbn; [done|].
  pose proof (operate_preserves u op s Hs) as H. unfold final in H.
  destruct (operate op s) as [[o s1] res]. cbn in H. specialize (IH s1 H).
  by destruct (run_ops ops s1).
Qed.

(** ** Queries *)

Lemma elem_of_od_values (l : odict Z port) x :
  od_ok l → x ∈ od_values l ↔ ∃ p, od_get p l = Some x.
Proof.
  intros Hl. unfold od_values. rewrite list_elem_of_fmap. split.
  - intros ([p y] & -> & Hin). exists p. by apply od_elem_get.
  - intros [p Hp]. exists (p, x). split; [done|]. by apply od_get_elem.
Qed.

(** What [filter_ports] looks for. *)
Definition reaches (in_port : Z) (n external : nw_id) (p : Z) (v : nw_id * mac) : Prop :=
  p ≠ in_port ∧ (v.1 = n ∨ external ≠ None ∧ v.1 = external).

Lemma filter_ports_result u r s d in_port n external :
  consistent u r s → well_formed u s → n ≠ u →
  ∃ l, filter_ports d in_port n external s = ([], s, Ret l) ∧
    ∀ p, p ∈ l ↔ ∃ v, r_ports r !! (d, p) = Some v ∧ reaches in_port n external p v.
Proof.
  intros C [_ [_ _ Hl Hnum]] Hn.
  unfold filter_ports, get_ports, within, dpids_get_ports, mbind, M_bind, gets, assert_.
  rewrite (c_unknown _ _ _ C), bool_decide_true by done. cbn -[filter].
  eexists. split; [by rewrite network_eta|]. intros p.
  assert (∀ x, x ∈ od_values (default [] (od_get d (dp_ports (dpids_ s)))) ↔
          ∃ p', port_at (dpids_ s) d p' = Some x) as Hv.
  { intros x. unfold port_at. destruct (od_get d (dp_ports (dpids_ s))) as [l|] eqn:E; cbn.
    - apply elem_of_od_values. by eapply Hl.
    - split; [set_solver|by intros []]. }
  rewrite list_elem_of_fmap. setoid_rewrite list_elem_of_filter. setoid_rewrite Hv.
  split.
  - intros (x & -> & Hx & p' & Hp'). rewrite (Hnum _ _ _ Hp') in *.
    rewrite (c_ports _ _ _ C) in Hp'. apply fmap_Some in Hp' as (v & Hv' & ->). by exists v.
  - intros (v & Hv' & Hr). exists (Port p v.1 v.2). split; [done|]. split; [exact Hr|].
    exists p. by rewrite (c_ports _ _ _ C), Hv'.
Qed.

(** After a history in the allowed order, the queries answer from the registry: the
    ports of a network, the ports with a MAC address in a network, whether two ports
    are in the same network, and the ports a broadcast of a network may leave by — never
    the port it came in by, nor a port of a network other than its own and the external
    one. *)
Theorem queries_follow_registry u r s n m d p in_port external :
  consistent u r s → well_formed u s → n ∈ r_networks r → m ≠ None →
  (∃ l, list_ports n s = ([], s, Ret l) ∧ NoDup l ∧
     ∀ x, x ∈ l ↔ ∃ m', r_ports r !! x = Some (n, m')) ∧
  (∃ X, result (get_ports_with_mac n m) s = Ret X ∧
     ∀ x, x ∈ X ↔ r_ports r !! x = Some (n, m)) ∧
  (∃ b, same_network d n p external s = ([], s, Ret b) ∧
     (b = true ↔ let out := from_option fst u (r_ports r !! (d, p)) in
                 n = out ∨ external ≠ None ∧ (external = n ∨ external = out))) ∧
  (∃ l, filter_ports d in_port n external s = ([], s, Ret l) ∧
     ∀ p', p' ∈ l ↔ ∃ v, r_ports r !! (d, p') = Some v ∧ reaches in_port n external p' v).
Proof.
  intros C W Hin Hm. pose proof (c_named _ _ _ C n Hin) as [Hu _].
  refine (conj _ (conj _ (conj _ _))); [| | |by apply (filter_ports_result u r)].
  - apply (c_networks _ _ _ C) in Hin as [ps E].
    unfold list_ports, within, networks_list_ports, networks_getitem, except, try_with.
    unfold mbind, M_bind, get_st, or_raise. cbn -[elements]. rewrite E. cbn -[elements].
    eexists. split; [by rewrite network_eta|]. split; [apply NoDup_elements|].
    intros x. rewrite elem_of_elements. by apply (c_members _ _ _ C).
  - unfold get_ports_with_mac, macs_get_ports, within, result.
    assert (∀ x, x ∈ mac_index (macs s) n m ↔ r_ports r !! x = Some (n, m)) as Hi.
    { intros x. rewrite (c_index _ _ _ C). tauto. }
    unfold mac_index in Hi. destruct (macs s !! n) as [t|]; cbn in *; [|by exists ∅].
    case_bool_decide as Ht; [subst; exists ∅; by rewrite lookup_empty in Hi|].
    destruct (mtp_getitem_lookup m t m) as [_ Hl]. destruct (mtp_getitem m t). cbn in *.
    subst. by eexists.
  - unfold same_network, within, mbind, M_bind, gets, assert_.
    rewrite (c_unknown _ _ _ C), bool_decide_true by done. cbn -[dpids_get_network_safe].
    rewrite dpids_get_network_safe_run. cbn.
    rewrite network_eta. eexists. split; [done|].
    rewrite (c_ports _ _ _ C). pose proof (c_unknown _ _ _ C) as Hun. unfold unknown in Hun.
    rewrite Hun. assert (from_option network_id u ((λ v, Port p v.1 v.2) <$> r_ports r !! (d, p))
      = from_option fst u (r_ports r !! (d, p))) as -> by (by destruct (r_ports r !! (d, p))).
    case_bool_decide; [tauto|]. rewrite andb_true_iff, orb_true_iff, !bool_decide_eq_true. tauto.
Qed.

(** The state after the first steps of [port_life]: port 1 is on the network and has a
    MAC address, port 2 is unknown. *)
Lemma queries_follow_registry_witness :
  let s := (run_ops (take 4 port_life) (network_init NW_ID_UNKNOWN)).2 in
  ∃ l, filter_ports 1 2 net1 None s = ([], s, Ret l) ∧ 1 ∈ l ∧ 2 ∉ l.
Proof.
  set (s := (run_ops (take 4 port_life) (network_init NW_ID_UNKNOWN)).2). cbv zeta.
  set (r := (spec_ops NW_ID_UNKNOWN (take 4 port_life) (Registry ∅ ∅ ∅)).2).
  assert (consistent NW_ID_UNKNOWN r s) as C.
  { apply (run_ops_refines NW_ID_UNKNOWN (take 4 port_life) (Registry ∅ ∅ ∅)).
    - by apply consistent_init.
    - apply (bool_decide_unpack _). by vm_compute. }
  destruct (queries_follow_registry NW_ID_UNKNOWN r s net1 mac1 1 2 2 None C)
    as (_ & _ & _ & l & Hl & Hs).
  - exact (network_well_formed NW_ID_UNKNOWN (take 4 port_life)).
  - apply (bool_decide_unpack _). by vm_compute.
  - done.
  - exists l. split; [exact Hl|]. rewrite !Hs. split.
    + exists (net1, mac1). split; [by vm_compute|]. split; [done|by left].
    + intros (v & _ & [? _]). done.
Defined.

(** ** Calls out of order *)

(** A port cannot leave a network that was removed before it: [update_port] reports that
    the new network, which exists, is not found, and leaves the port in the new network's
    set while the [Port] object still names the old one. *)
Theorem update_port_from_removed_network (s : network) (n old : nw_id) (d p : Z) ps x :
  n ≠ unknown s → od_get n (networks s) = Some ps →
  port_at (dpids_ s) d p = Some x → network_id x = old → old ≠ n →
  known_nw_id (unknown s) old = true → od_get old (networks s) = None →
  update_port n d p s =
    ([], s <| networks ::= od_alter (λ ps, {[(d, p)]} ∪ ps) n |>, Raise NetworkNotFound).
Proof.
  intros Hn E Hx Hold Hne K E'. unfold update_port, update_port_, mbind, M_bind.
  rewrite (check_run (unknown s)) by done. rewrite decide_False by done.
  unfold gets, except, try_with, within. cbn -[dpids_get_network_safe networks_has_port].
  rewrite dpids_get_network_safe_run. cbn -[networks_has_port networks_add_raw].
  rewrite Hx, networks_has_port_run, E. cbn -[networks_add_raw networks_remove_raw].
  rewrite Hold, K, orb_true_r. cbn -[networks_add_raw networks_remove_raw].
  rewrite bool_decide_true by done. unfold within. cbn -[networks_add_raw networks_remove_raw].
  rewrite (networks_add_raw_run _ _ _ _ ps) by done. cbn -[networks_remove_raw].
  unfold networks_remove_raw, networks_getitem, mbind, M_bind, get_st, or_raise. cbn.
  by rewrite od_get_alter, decide_False, E'.
Qed.

(** Two networks, a port of the first, and the first network removed before its port. *)
Definition net2 : nw_id := Some "net2"%string.
Definition network_gone : network :=
  (run_ops [AddDatapath 65280 1 [1]; CreateNetwork net1; CreateNetwork net2;
            CreatePort net1 1 1; RemoveNetwork net1] (network_init NW_ID_UNKNOWN)).2.

Lemma update_port_from_removed_network_witness :
  (update_port net2 1 1 network_gone).2 = Raise NetworkNotFound ∧
  od_mem net2 (networks network_gone) = true.
Proof.
  split; [|by vm_compute].
  rewrite (update_port_from_removed_network network_gone net2 net1 1 1 ∅ (Port 1 net1 None));
    by vm_compute.
Defined.

(** When the network is created anew, moving the port to it changes nothing: the network
    never lists the port, and no event announces it. *)
Lemma recreated_network_lacks_port (s : network) n d p ps x :
  n ≠ unknown s → od_get n (networks s) = Some ps → (d, p) ∉ ps →
  port_at (dpids_ s) d p = Some x → network_id x = n →
  outputs (update_port n d p) s = [] ∧ networks (final (update_port n d p) s) = networks s.
Proof.
  intros Hn E Hps Hx Hnet. unfold outputs, final, update_port, update_port_, mbind, M_bind.
  rewrite (check_run (unknown s)) by done. rewrite decide_False by done.
  unfold gets, except, try_with, within. cbn -[dpids_get_network_safe networks_has_port].
  rewrite dpids_get_network_safe_run. cbn -[networks_has_port dpids_update_port].
  rewrite Hx, networks_has_port_run, E. cbn -[dpids_update_port].
  rewrite Hnet, bool_decide_false by done. destruct (known_nw_id _ _); cbn -[dpids_update_port];
    rewrite (bool_decide_false (n ≠ n)) by tauto; by cbn.
Qed.

(** [create_mac] on a port that is not there fails, but the index has the port. *)
Lemma create_mac_fails_after_index (s : network) n d p m :
  port_at (dpids_ s) d p = None →
  result (create_mac n d p m) s = Raise PortNotFound ∧
  (d, p) ∈ mac_index (macs (final (create_mac n d p m) s)) n m.
Proof.
  intros E. unfold result, final, create_mac, mbind, M_bind, within, dpids_set_mac.
  unfold mbind, M_bind. cbn -[dpids_get_port]. rewrite dpids_get_port_run, E. cbn.
  split; [done|]. rewrite add_index. by right.
Qed.

(** [remove_port] of a port that the switch already lost keeps its MAC address in the
    index. *)
Lemma remove_port_after_deletion (s : network) n d p :
  port_at (dpids_ s) d p = None → macs (final (remove_port n d p) s) = macs s.
Proof.
  intros E. unfold final, remove_port, mbind, M_bind. rewrite get_old_mac_run, E.
  cbn -[dpids_remove_port networks_remove]. unfold within.
  rewrite dpids_remove_port_run. unfold try_with.
  destruct (od_get d (dp_ports (dpids_ s))); cbn -[networks_remove]; [|done].
  rewrite E. cbn -[networks_remove]. rewrite networks_remove_run.
  destruct (od_get n (networks s)); cbn; [|done]. case_decide; done.
Qed.
