(* ===== verification/DpSet.v ===== *)
(** * The set of connected switches

    Models [ryu/controller/dpset.py]: [PortState] and the application [DPSet].  A
    [Datapath] object is its identity; its id is fixed when the switch reports its
    features, its attribute [ports] belongs to the state.  A port is any object with a
    number.  Closing a datapath and sending an event to the observers are outputs.  Reasons of
    port status messages are the constants of the OpenFlow modules. *)

From stdpp Require Import base list gmap sets strings.
From Stdlib Require Import ZArith Lia.
From S2P Require Import Prelude Odict.

Open Scope Z_scope.

Definition OFPPR_ADD : Z := 0.
Definition OFPPR_DELETE : Z := 1.
Definition OFPPR_MODIFY : Z := 2.

Definition PortNotFound := RyuException "PortNotFound".

(** The states of a datapath the application handles. *)
Inductive dp_state := HANDSHAKE_DISPATCHER | CONFIG_DISPATCHER | MAIN_DISPATCHER | DEAD_DISPATCHER.

Section dpset.
Context {P : Type} (port_no : P → Z).

Abbreviation datapath := Z (only parsing).

(** The attribute [id] of a datapath. *)
Context (dp_id : datapath → option Z).

Inductive dp_event :=
| EventDP (dp : datapath) (enter : bool) (ports : list P)
| EventDPReconnected (dp : datapath) (ports : list P)
| EventPortAdd (dp : datapath) (port : P)
| EventPortDelete (dp : datapath) (port : P)
| EventPortModify (dp : datapath) (port : P)
| CloseDatapath (dp : datapath).

Abbreviation port_state_t := (odict Z P).

Record dpset := DpSet {
  dps : odict Z datapath;
  port_state : odict Z port_state_t;
  dp_ports : gmap datapath (odict Z P)
}.

#[global] Instance eta_dpset : Eta dpset := EtaBox (λ s, DpSet (dps s) (port_state s) (dp_ports s)).

Abbreviation DM := (M dpset pyexn dp_event).

(** [port_state[dpid].add] and [modify]; [KeyError] for an unknown datapath. *)
Definition state_set (d : option Z) (port : P) : DM () :=
  s ← get_st;
  or_raise (d ≫= λ d, od_get d (port_state s)) KeyError;;
  modify (λ s, match d with
               | Some d => s <| port_state ::= od_alter (od_set (port_no port) port) d |>
               | None => s
               end).

(** [port_state[dpid].remove]; [KeyError] also for an unknown port. *)
Definition state_remove (d : option Z) (port : P) : DM () :=
  s ← get_st;
  or_raise (d ≫= λ d, od_get d (port_state s) ≫= od_get (port_no port)) KeyError;;
  modify (λ s, match d with
               | Some d => s <| port_state ::= od_alter (od_del (port_no port)) d |>
               | None => s
               end).

Definition port_added_ (dp : datapath) (port : P) : DM () := state_set (dp_id dp) port.
Definition port_deleted_ (dp : datapath) (port : P) : DM () := state_remove (dp_id dp) port.

Definition get_ports_of (d : Z) (s : dpset) : list P := od_values (default [] (od_get d (port_state s))).

Definition register (dp : datapath) : DM () :=
  d ← or_raise (dp_id dp) AssertionError;
  old ← gets (λ s, od_get d (dps s));
  match old : option datapath with
  | Some dp' => emit (CloseDatapath dp')
  | None => mret tt
  end;;
  modify (λ s, s <| dps ::= od_set d dp |>);;
  known ← gets (λ s, od_mem d (port_state s));
  when (negb known) (
    modify (λ s, s <| port_state ::= od_set d [] |>);;
    attr ← gets (λ s, dp_ports s !! dp);
    ports ← or_raise (attr : option (odict Z P)) AttributeError;
    for_each (od_values (ports : odict Z P)) (port_added_ dp);;
    emit (EventDP dp true (od_values ports)));;
  when (bool_decide (is_Some old)) (
    ports ← gets (get_ports_of d);
    emit (EventDPReconnected dp ports)).

Definition unregister (dp : datapath) : DM () :=
  s ← get_st;
  if bool_decide (dp ∉ od_values (dps s)) then mret tt else
  d ← or_raise (dp_id dp) KeyError;
  dp' ← or_raise (od_get d (dps s)) KeyError;
  assert_ (bool_decide (dp' = dp)) AssertionError;;
  let ports := get_ports_of d s in
  for_each ports (port_deleted_ dp);;
  emit (EventDP dp false ports);;
  modify (λ s, s <| dps ::= od_del d |>);;
  known ← gets (od_mem d ∘ port_state);
  (if known : bool then mret tt else raise KeyError);;
  modify (λ s, s <| port_state ::= od_del d |>).

Definition get (d : Z) : DM (option datapath) := gets (λ s, od_get d (dps s)).
Definition get_all : DM (list (Z * datapath)) := gets dps.

Definition dispatcher_change (dp : datapath) (state : dp_state) : DM () :=
  match state with
  | MAIN_DISPATCHER => register dp
  | DEAD_DISPATCHER => unregister dp
  | _ => mret tt
  end.

Definition port_status_handler (dp : datapath) (reason : Z) (port : P) : DM () :=
  if reason =? OFPPR_ADD then
    port_added_ dp port;; emit (EventPortAdd dp port)
  else if reason =? OFPPR_DELETE then
    port_deleted_ dp port;; emit (EventPortDelete dp port)
  else
    assert_ (reason =? OFPPR_MODIFY) AssertionError;;
    state_set (dp_id dp) port;; emit (EventPortModify dp port).

Definition get_port (d p : Z) : DM P :=
  s ← get_st; or_raise (od_get d (port_state s) ≫= od_get p) PortNotFound.

Definition get_ports (d : Z) : DM (list P) :=
  s ← get_st; or_raise (od_values <$> od_get d (port_state s)) KeyError.

(** [OFP_VERSION] is an attribute of the datapath's protocol module. *)
Definition switch_features_handler (dp : datapath) (ofp_version : Z) (ports : odict Z P)
  : DM () :=
  when (ofp_version <? 4) (modify (λ s, s <| dp_ports ::= <[dp := ports]> |>)).

(** ** Invariant *)

Definition numbered (l : odict Z P) : Prop :=
  od_ok l ∧ ∀ p x, od_get p l = Some x → port_no x = p.

(** The two dictionaries have the same datapaths, each under its own id, and ports lie
    under their own numbers. *)
Record dpset_ok (s : dpset) : Prop := {
  ok_dps : od_ok (dps s);
  ok_keys : od_keys (dps s) = od_keys (port_state s);
  ok_ids d dp : od_get d (dps s) = Some dp → dp_id dp = Some d;
  ok_ports d l : od_get d (port_state s) = Some l → numbered l
}.

Lemma numbered_nil : numbered [].
Proof. split; [apply od_ok_nil|done]. Qed.

Lemma numbered_set l x : numbered l → numbered (od_set (port_no x) x l).
Proof.
  intros [Hl Hn]. split; [by apply od_ok_set|]. intros p y. rewrite od_get_set.
  case_decide; [by intros [= <-]|apply Hn].
Qed.

Lemma numbered_del l p : numbered l → numbered (od_del p l).
Proof.
  intros [Hl Hn]. split; [by apply od_ok_del|]. intros p' y. rewrite od_get_del.
  case_decide; [done|apply Hn].
Qed.

Lemma od_same_key {A B} (l1 : odict Z A) (l2 : odict Z B) k :
  od_keys l1 = od_keys l2 → is_Some (od_get k l1) ↔ is_Some (od_get k l2).
Proof. intros H. rewrite !od_get_is_key. by rewrite H. Qed.

Lemma dpset_ok_alter f d s :
  dpset_ok s → (∀ l, numbered l → numbered (f l)) →
  dpset_ok (s <| port_state ::= od_alter f d |>).
Proof.
  intros [H1 H2 H3 H4] Hf. split; cbn -[od_keys]; [done|by rewrite od_keys_alter|done|].
  intros d' l. rewrite od_get_alter. case_decide; [|apply H4].
  intros (l0 & E & ->)%fmap_Some. eauto.
Qed.

Lemma dpset_ok_enter d dp s :
  dpset_ok s → dp_id dp = Some d → od_get d (dps s) = None →
  dpset_ok (DpSet (od_set d dp (dps s)) (od_set d [] (port_state s)) (dp_ports s)).
Proof.
  intros [H1 H2 H3 H4] Hid E. split; cbn -[od_keys].
  - by apply od_ok_set.
  - by rewrite !od_keys_set, H2.
  - intros d' dp'. rewrite od_get_set. case_decide; [by intros [= <-]; subst|apply H3].
  - intros d' l. rewrite od_get_set. case_decide; [|apply H4]. intros [= <-]. apply numbered_nil.
Qed.

Lemma dpset_ok_replace d dp s :
  dpset_ok s → dp_id dp = Some d → is_Some (od_get d (dps s)) →
  dpset_ok (DpSet (od_set d dp (dps s)) (port_state s) (dp_ports s)).
Proof.
  intros [H1 H2 H3 H4] Hid E%od_get_is_key. split; cbn -[od_keys]; [by apply od_ok_set| | |done].
  - by rewrite od_keys_set, decide_True.
  - intros d' dp'. rewrite od_get_set. case_decide; [by intros [= <-]; subst|apply H3].
Qed.

Lemma dpset_ok_leave d s :
  dpset_ok s → dpset_ok (DpSet (od_del d (dps s)) (od_del d (port_state s)) (dp_ports s)).
Proof.
  intros [H1 H2 H3 H4]. split; cbn -[od_keys].
  - by apply od_ok_del.
  - by rewrite !od_keys_del, H2.
  - intros d' dp'. rewrite od_get_del. case_decide; [done|apply H3].
  - intros d' l. rewrite od_get_del. case_decide; [done|apply H4].
Qed.

(** ** What observers see *)

Abbreviation view := (gmap Z (gmap Z P)).

Definition map_of_ports (ports : list P) : gmap Z P :=
  foldl (λ m x, <[port_no x := x]> m) ∅ ports.

(** An observer that keeps its own copy of the ports from the events it receives. *)
Definition see (v : view) (ev : dp_event) : view :=
  match ev with
  | EventDP dp true ports | EventDPReconnected dp ports =>
      match dp_id dp with Some d => <[d := map_of_ports ports]> v | None => v end
  | EventDP dp false _ => match dp_id dp with Some d => delete d v | None => v end
  | EventPortAdd dp port | EventPortModify dp port =>
      match dp_id dp with Some d => alter <[port_no port := port]> d v | None => v end
  | EventPortDelete dp port =>
      match dp_id dp with Some d => alter (delete (port_no port)) d v | None => v end
  | CloseDatapath _ => v
  end.

Definition shows (v : view) (s : dpset) : Prop :=
  ∀ d, v !! d = list_to_map <$> od_get d (port_state s).

Lemma od_list_to_map k (l : odict Z P) : (list_to_map l : gmap Z P) !! k = od_get k l.
Proof.
  induction l as [|[k' x] l IH]; cbn; [done|]. rewrite lookup_insert, IH.
  repeat case_decide; by subst.
Qed.

Lemma list_to_map_set (l : odict Z P) p x :
  (list_to_map (od_set p x l) : gmap Z P) = <[p := x]> (list_to_map l).
Proof.
  apply map_eq. intros k. rewrite od_list_to_map, od_get_set, lookup_insert, od_list_to_map.
  repeat case_decide; by subst.
Qed.

Lemma list_to_map_del (l : odict Z P) p :
  (list_to_map (od_del p l) : gmap Z P) = delete p (list_to_map l).
Proof.
  apply map_eq. intros k. rewrite od_list_to_map, od_get_del, lookup_delete, od_list_to_map.
  repeat case_decide; by subst.
Qed.

Lemma map_of_ports_add l l0 :
  foldl (λ m x, <[port_no x := x]> m) (list_to_map l0 : gmap Z P) l =
    list_to_map (foldl (λ m x, od_set (port_no x) x m) l0 l).
Proof.
  revert l0. induction l as [|x l IH]; intros l0; cbn; [done|].
  by rewrite <- IH, list_to_map_set.
Qed.

Lemma od_set_app (l0 : odict Z P) p x : p ∉ od_keys l0 → od_set p x l0 = l0 ++ [(p, x)].
Proof.
  unfold od_keys. induction l0 as [|[k y] l0 IH]; cbn; [done|].
  rewrite not_elem_of_cons. intros [? ?]. rewrite decide_False by done. by rewrite IH.
Qed.

(** Adding the ports of a dictionary one by one builds it. *)
Lemma readd_ports l0 l :
  NoDup (od_keys (l0 ++ l)) → (∀ p x, (p, x) ∈ l → port_no x = p) →
  foldl (λ m x, od_set (port_no x) x m) l0 (od_values l) = l0 ++ l.
Proof.
  revert l0. induction l as [|[p x] l IH]; intros l0 Hnd Hn; cbn; [by rewrite app_nil_r|].
  rewrite (Hn p x) by set_solver. rewrite od_set_app.
  - rewrite IH, <- app_assoc; [done| |set_solver]. by rewrite <- app_assoc.
  - unfold od_keys in *. rewrite fmap_app in Hnd. apply NoDup_app in Hnd as (_ & H & _).
    intros Hin. apply (H p Hin). cbn. set_solver.
Qed.

Lemma map_of_numbered l : numbered l → map_of_ports (od_values l) = list_to_map l.
Proof.
  intros [Hl Hn]. unfold map_of_ports. rewrite (map_of_ports_add _ []).
  rewrite readd_ports; [done|exact Hl|]. intros p x Hin. apply (Hn p). by apply od_elem_get.
Qed.

(** ** Runs *)

Lemma state_set_run d port s l :
  od_get d (port_state s) = Some l →
  state_set (Some d) port s =
    ([], s <| port_state ::= od_alter (od_set (port_no port) port) d |>, Ret tt).
Proof. intros E. unfold state_set, mbind, M_bind, get_st, or_raise. cbn. by rewrite E. Qed.

Lemma state_remove_run d port s l :
  od_get d (port_state s) = Some l → is_Some (od_get (port_no port) l) →
  state_remove (Some d) port s =
    ([], s <| port_state ::= od_alter (od_del (port_no port)) d |>, Ret tt).
Proof.
  intros E [x Hx]. unfold state_remove, mbind, M_bind, get_st, or_raise.
  cbn. rewrite E. cbn. by rewrite Hx.
Qed.

Lemma state_set_fails d port s :
  (∀ d', d = Some d' → od_get d' (port_state s) = None) →
  state_set d port s = ([], s, Raise KeyError).
Proof.
  intros E. unfold state_set, mbind, M_bind, get_st, or_raise.
  destruct d as [d|]; cbn; [|done]. by rewrite E.
Qed.

Lemma add_ports_run dp d ports s l :
  dp_id dp = Some d → od_get d (port_state s) = Some l →
  for_each ports (port_added_ dp) s =
    ([], s <| port_state ::= od_alter (λ l, foldl (λ m x, od_set (port_no x) x m) l ports) d |>,
     Ret tt).
Proof.
  intros Hd. revert s l. induction ports as [|x ports IH]; intros s l E; cbn [for_each foldl].
  - cbn. rewrite od_alter_id. by destruct s.
  - unfold mbind at 1, M_bind. unfold port_added_ at 1. rewrite Hd, (state_set_run d x s l E).
    erewrite IH; [|cbn; rewrite od_get_alter, decide_True by done; by rewrite E].
    cbn. rewrite od_alter_compose. done.
Qed.

Lemma remove_ports_run dp d ports s l :
  dp_id dp = Some d → od_get d (port_state s) = Some l →
  numbered l → NoDup (port_no <$> ports) → (∀ x, x ∈ ports → x ∈ od_values l) →
  ∃ s', for_each ports (port_deleted_ dp) s = ([], s', Ret tt) ∧ dps s' = dps s ∧ dp_ports s' = dp_ports s ∧
    port_state s' = od_alter (λ l, foldl (λ m x, od_del (port_no x) m) l ports) d (port_state s).
Proof.
  intros Hd. revert s l. induction ports as [|x ports IH]; intros s l E Hn Hnd Hin.
  - exists s. repeat (split; [done|]). by rewrite od_alter_id.
  - cbn [for_each foldl]. unfold mbind, M_bind, port_deleted_.
    assert (od_get (port_no x) l = Some x) as Hx.
    { assert (x ∈ od_values l) as Hv by set_solver. unfold od_values in Hv.
      apply list_elem_of_fmap in Hv as ([p y] & -> & Hp). cbn.
      apply od_elem_get in Hp; [|apply Hn]. by rewrite (proj2 Hn _ _ Hp). }
    rewrite fmap_cons, NoDup_cons in Hnd. destruct Hnd as [Hnot Hnd].
    destruct (IH (s <| port_state ::= od_alter (od_del (port_no x)) d |>) (od_del (port_no x) l))
      as (s' & Hrun & Hdps & Hattr & Hps).
    + cbn. rewrite od_get_alter, decide_True by done; by rewrite E.
    + by apply numbered_del.
    + done.
    + intros y Hy. assert (y ∈ od_values l) as Hv by set_solver.
      unfold od_values in *. apply list_elem_of_fmap in Hv as ([p z] & -> & Hp).
      apply list_elem_of_fmap. exists (p, z). split; [done|]. apply od_del_elem. split; [|done].
      intros ->. apply Hnot. apply list_elem_of_fmap. exists z. split; [|done].
      apply od_elem_get in Hp; [|apply Hn]. by rewrite (proj2 Hn _ _ Hp).
    + exists s'. split; [|split_and!; [by rewrite Hdps|by rewrite Hattr|]];
        [|by rewrite Hps; cbn; rewrite od_alter_compose].
      rewrite Hd. rewrite (state_remove_run d x s l E) by eauto. cbn [app].
      unfold port_deleted_ in Hrun. rewrite Hd in Hrun. by rewrite Hrun.
Qed.

Definition joined (l : odict Z P) : odict Z P :=
  foldl (λ m x, od_set (port_no x) x m) [] (od_values l).

Lemma register_new_run dp d s l :
  dpset_ok s → dp_id dp = Some d → od_get d (dps s) = None → dp_ports s !! dp = Some l →
  register dp s =
    ([EventDP dp true (od_values l)],
     DpSet (od_set d dp (dps s)) (od_set d (joined l) (port_state s)) (dp_ports s), Ret tt).
Proof.
  intros Hok Hid E Hl. unfold register, mbind, M_bind, gets, modify, or_raise. rewrite Hid.
  cbn -[od_mem]. rewrite E. cbn -[od_mem].
  assert (od_mem d (port_state s) = false) as ->.
  { unfold od_mem. apply bool_decide_eq_false. rewrite <- (od_same_key (dps s)) by apply Hok.
    rewrite E. by intros [? ?]. }
  cbn -[for_each]. rewrite Hl. cbn -[for_each].
  rewrite (add_ports_run dp d _ _ []) by (cbn; rewrite ?od_get_set_eq; done).
  cbn. by rewrite od_alter_set.
Qed.

Lemma joined_numbered l : numbered (joined l).
Proof.
  unfold joined. generalize (od_values l). intros ps. assert (numbered []) as Hn.
  { apply numbered_nil. }
  revert Hn. generalize (@nil (Z * P)). induction ps; cbn; eauto using numbered_set.
Qed.

Lemma register_again_run dp dp' d s :
  dpset_ok s → dp_id dp = Some d → od_get d (dps s) = Some dp' →
  register dp s =
    ([CloseDatapath dp'; EventDPReconnected dp (get_ports_of d s)],
     DpSet (od_set d dp (dps s)) (port_state s) (dp_ports s), Ret tt).
Proof.
  intros Hok Hid E. unfold register, mbind, M_bind, gets, modify, or_raise. rewrite Hid.
  cbn -[od_mem]. rewrite E. cbn -[od_mem].
  assert (od_mem d (port_state s) = true) as ->; [|done].
  unfold od_mem. apply bool_decide_eq_true. rewrite <- (od_same_key (dps s)) by apply Hok. eauto.
Qed.

(** The datapath that stands under its id is the only one that can leave. *)
Lemma member_dp dp s :
  dpset_ok s → dp ∈ od_values (dps s) ↔ ∃ d, dp_id dp = Some d ∧ od_get d (dps s) = Some dp.
Proof.
  intros [H1 _ H3 _]. unfold od_values. rewrite list_elem_of_fmap. split.
  - intros ([d x] & -> & Hin). apply od_elem_get in Hin; [|done]. eauto.
  - intros (d & _ & E). exists (d, dp). split; [done|]. by apply od_get_elem.
Qed.

Lemma unregister_other_run dp s :
  dp ∉ od_values (dps s) → unregister dp s = ([], s, Ret tt).
Proof.
  intros H. unfold unregister, mbind, M_bind, get_st. cbn -[od_values].
  by rewrite bool_decide_true.
Qed.

Lemma od_values_nodup l : numbered l → NoDup (port_no <$> od_values l).
Proof.
  intros [Hl Hn]. unfold od_values. rewrite <- list_fmap_compose.
  rewrite (list_fmap_ext _ fst l); [exact Hl|]. intros _ [p x] Hin%list_elem_of_lookup_2. cbn.
  apply (Hn p). by apply od_elem_get.
Qed.

Lemma unregister_run dp d s :
  dpset_ok s → dp_id dp = Some d → od_get d (dps s) = Some dp →
  unregister dp s =
    ([EventDP dp false (get_ports_of d s)],
     DpSet (od_del d (dps s)) (od_del d (port_state s)) (dp_ports s), Ret tt).
Proof.
  intros Hok Hid E. unfold unregister, mbind, M_bind, get_st. cbn -[od_values get_ports_of for_each].
  rewrite bool_decide_false by (intros H; apply H; apply member_dp; eauto).
  rewrite Hid. cbn -[get_ports_of for_each]. rewrite E. cbn -[get_ports_of for_each].
  rewrite bool_decide_true by done. cbn -[get_ports_of for_each].
  assert (is_Some (od_get d (port_state s))) as [l Hl].
  { rewrite <- (od_same_key (dps s)) by apply Hok. eauto. }
  assert (get_ports_of d s = od_values l) as Hg by (unfold get_ports_of; by rewrite Hl).
  pose proof (ok_ports _ Hok _ _ Hl) as Hnum.
  destruct (remove_ports_run dp d (get_ports_of d s) s l) as (s' & -> & Hd & Ha & Hp);
    rewrite ?Hg; eauto using od_values_nodup.
  cbn -[od_mem]. rewrite Hp.
  rewrite (proj2 (od_mem_spec d _)) by (rewrite od_keys_alter; apply od_get_is_key; eauto).
  cbn. by rewrite Hd, Ha, od_del_alter.
Qed.

Lemma register_no_ports_run dp d s :
  dpset_ok s → dp_id dp = Some d → od_get d (dps s) = None → dp_ports s !! dp = None →
  register dp s =
    ([], DpSet (od_set d dp (dps s)) (od_set d [] (port_state s)) (dp_ports s),
     Raise AttributeError).
Proof.
  intros Hok Hid E Hl. unfold register, mbind, M_bind, gets, modify, or_raise. rewrite Hid.
  cbn -[od_mem]. rewrite E. cbn -[od_mem].
  assert (od_mem d (port_state s) = false) as ->.
  { unfold od_mem. apply bool_decide_eq_false. rewrite <- (od_same_key (dps s)) by apply Hok.
    rewrite E. by intros [? ?]. }
  cbn -[for_each]. by rewrite Hl.
Qed.

(** ** Histories *)

Inductive dp_op :=
| StateChange (dp : datapath) (state : dp_state)
| SwitchFeatures (dp : datapath) (ofp_version : Z) (ports : odict Z P)
| PortStatus (dp : datapath) (reason : Z) (port : P).

Definition handle (op : dp_op) : DM () :=
  match op with
  | StateChange dp st => dispatcher_change dp st
  | SwitchFeatures dp ver ports => switch_features_handler dp ver ports
  | PortStatus dp reason port => port_status_handler dp reason port
  end.

(** A datapath that becomes active has its ports. *)
Definition has_ports (op : dp_op) (s : dpset) : Prop :=
  match op with
  | StateChange dp MAIN_DISPATCHER => is_Some (dp_ports s !! dp)
  | _ => True
  end.

Fixpoint handle_all (ops : list dp_op) (s : dpset) : list dp_event * dpset :=
  match ops with
  | [] => ([], s)
  | op :: ops =>
      let '(o, s1, _) := handle op s in
      let '(os, s2) := handle_all ops s1 in (o ++ os, s2)
  end.

Fixpoint have_ports (ops : list dp_op) (s : dpset) : Prop :=
  match ops with
  | [] => True
  | op :: ops => has_ports op s ∧ have_ports ops (final (handle op) s)
  end.

Definition in_sync (s : dpset) (o : list dp_event) (s' : dpset) : Prop :=
  ∀ v, shows v s → shows (foldl see v o) s'.

Lemma in_sync_refl s o s' :
  port_state s' = port_state s → (∀ v, foldl see v o = v) → in_sync s o s'.
Proof. intros Hs Ho v Hv d. by rewrite Ho, Hs. Qed.

Lemma shows_alter v s d f g :
  shows v s → (∀ l, list_to_map (g l) = f (list_to_map l : gmap Z P)) →
  shows (alter f d v) (s <| port_state ::= od_alter g d |>).
Proof.
  intros Hv Hg d'. cbn. rewrite lookup_alter, od_get_alter.
  case_decide; subst; rewrite ?decide_True, ?decide_False by done; rewrite Hv; [|done].
  destruct (od_get d' (port_state s)); cbn; [|done]. by rewrite Hg.
Qed.

Lemma register_keeps dp s :
  dpset_ok s →
  dpset_ok (final (register dp) s) ∧
  (is_Some (dp_ports s !! dp) → in_sync s (outputs (register dp) s) (final (register dp) s)).
Proof.
  intros Hok. unfold final, outputs. destruct (dp_id dp) as [d|] eqn:Hid.
  2:{ unfold register, mbind, M_bind, or_raise. rewrite Hid. cbn. split; [done|].
      intros _. by apply in_sync_refl. }
  destruct (od_get d (dps s)) as [dp'|] eqn:E.
  - rewrite (register_again_run dp dp' d s) by done. cbn -[get_ports_of].
    split; [apply (dpset_ok_replace d dp s); eauto|].
    intros _ v Hv d'. cbn -[get_ports_of]. rewrite Hid, lookup_insert. case_decide as Hd.
    + subst d'. assert (is_Some (od_get d (port_state s))) as [l Hl].
      { rewrite <- (od_same_key (dps s)) by apply Hok. eauto. }
      unfold get_ports_of. rewrite Hl. cbn. f_equal. apply map_of_numbered.
      by apply (ok_ports _ Hok d).
    + apply Hv.
  - pose proof (dpset_ok_enter d dp s Hok Hid E) as Hnew.
    destruct (dp_ports s !! dp) as [l|] eqn:Hl.
    + rewrite (register_new_run dp d s l) by done. cbn. split.
      * assert (od_set d (joined l) (port_state s)
                = od_alter (λ _, joined l) d (od_set d [] (port_state s))) as ->
          by (by rewrite od_alter_set).
        apply (dpset_ok_alter (λ _, joined l) d _ Hnew). intros _ _. apply joined_numbered.
      * intros _ v Hv d'. cbn. rewrite Hid, lookup_insert, od_get_set.
        case_decide; subst; rewrite ?decide_True, ?decide_False by done; [|apply Hv].
        cbn. f_equal. unfold map_of_ports, joined. apply (map_of_ports_add _ []).
    + rewrite (register_no_ports_run dp d s) by done. split; [done|]. by intros [? ?].
Qed.

Lemma unregister_keeps dp s :
  dpset_ok s →
  dpset_ok (final (unregister dp) s) ∧ in_sync s (outputs (unregister dp) s) (final (unregister dp) s).
Proof.
  intros Hok. unfold final, outputs. destruct (decide (dp ∈ od_values (dps s))) as [Hin|Hout].
  - apply member_dp in Hin as (d & Hid & E); [|done].
    rewrite (unregister_run dp d s) by done. cbn -[get_ports_of].
    split; [by apply (dpset_ok_leave d s)|]. intros v Hv d'. cbn.
    rewrite Hid, lookup_delete, od_get_del. by case_decide; subst;
      rewrite ?decide_True, ?decide_False by done.
  - rewrite (unregister_other_run dp s) by done. split; [done|]. by apply in_sync_refl.
Qed.

Lemma state_set_keeps dp port s ev :
  dpset_ok s → ev = EventPortAdd dp port ∨ ev = EventPortModify dp port →
  dpset_ok (final (state_set (dp_id dp) port;; emit ev) s) ∧
  in_sync s (outputs (state_set (dp_id dp) port;; emit ev) s)
    (final (state_set (dp_id dp) port;; emit ev) s).
Proof.
  intros Hok Hev. unfold final, outputs, mbind, M_bind.
  destruct (dp_id dp) as [d|] eqn:Hid.
  - destruct (od_get d (port_state s)) as [l|] eqn:E.
    + rewrite (state_set_run d port s l E). cbn.
      split; [apply (dpset_ok_alter (od_set (port_no port) port) d s Hok);
              intros; by apply numbered_set|].
      intros v Hv. cbn. replace (see v ev) with (alter <[port_no port:=port]> d v)
        by (destruct Hev; subst; cbn; by rewrite Hid).
      apply (shows_alter v s d _ _ Hv). intros. apply list_to_map_set.
    + rewrite state_set_fails by naive_solver. split; [done|]. by apply in_sync_refl.
  - rewrite state_set_fails by done. split; [done|]. by apply in_sync_refl.
Qed.

Lemma port_delete_keeps dp port s :
  dpset_ok s →
  let m := port_deleted_ dp port;; emit (EventPortDelete dp port) in
  dpset_ok (final m s) ∧ in_sync s (outputs m s) (final m s).
Proof.
  intros Hok m. unfold m, final, outputs, port_deleted_, mbind, M_bind.
  assert (state_remove (dp_id dp) port s = ([], s, Raise KeyError) ∨
          ∃ d l, dp_id dp = Some d ∧ od_get d (port_state s) = Some l ∧
            is_Some (od_get (port_no port) l)) as [-> |(d & l & Hid & E & Hp)].
  { unfold state_remove, mbind, M_bind, get_st, or_raise. destruct (dp_id dp) as [d|]; cbn; [|by left].
    destruct (od_get d (port_state s)) as [l|] eqn:E; cbn; [|by left].
    destruct (od_get (port_no port) l) eqn:Ep; [|by left].
    right. exists d, l. split_and!; eauto. }
  { split; [done|]. by apply in_sync_refl. }
  rewrite Hid, (state_remove_run d port s l E Hp). cbn.
  split; [apply (dpset_ok_alter (od_del (port_no port)) d s Hok); intros; by apply numbered_del|].
  intros v Hv. cbn. rewrite Hid. apply (shows_alter v s d _ _ Hv). intros. apply list_to_map_del.
Qed.

Lemma handle_keeps op s :
  dpset_ok s →
  dpset_ok (final (handle op) s) ∧
  (has_ports op s → in_sync s (outputs (handle op) s) (final (handle op) s)).
Proof.
  intros Hok. destruct op as [dp st|dp ver ports|dp reason port]; cbn [handle has_ports].
  - destruct st; cbn [dispatcher_change]; [..|by apply register_keeps|];
      [by split; [|intros _; apply in_sync_refl]..|].
    destruct (unregister_keeps dp s Hok); auto.
  - unfold switch_features_handler, when. destruct (ver <? 4); cbn;
      [|by split; [|intros _; apply in_sync_refl]].
    split; [by destruct Hok|]. intros _. by apply in_sync_refl.
  - unfold port_status_handler. destruct (reason =? OFPPR_ADD).
    { destruct (state_set_keeps dp port s (EventPortAdd dp port) Hok (or_introl eq_refl)); auto. }
    destruct (reason =? OFPPR_DELETE); [destruct (port_delete_keeps dp port s Hok); auto|].
    unfold assert_. destruct (reason =? OFPPR_MODIFY); cbn -[mbind outputs final].
    + destruct (state_set_keeps dp port s (EventPortModify dp port) Hok (or_intror eq_refl)) as [H1 H2].
      unfold final, outputs, mbind, M_bind in *. cbn.
      destruct (state_set (dp_id dp) port s) as [[o s1] [[]|e]]; cbn in *; auto.
    + split; [done|]. intros _. by apply in_sync_refl.
Qed.

Lemma handle_all_keeps ops s :
  dpset_ok s →
  dpset_ok (handle_all ops s).2 ∧
  (have_ports ops s → in_sync s (handle_all ops s).1 (handle_all ops s).2).
Proof.
  revert s. induction ops as [|op ops IH]; intros s Hok; cbn.
  { split; [done|]. intros _. by apply in_sync_refl. }
  destruct (handle_keeps op s Hok) as [H1 H2]. unfold final, outputs in *.
  destruct (handle op s) as [[o s1] res]. cbn in *. destruct (IH s1 H1) as [H3 H4].
  destruct (handle_all ops s1) as [os s2]. cbn in *. split; [done|].
  intros [Hp Hps] v Hv. rewrite foldl_app. apply (H4 Hps). by apply (H2 Hp).
Qed.

Definition no_switches : dpset := DpSet [] [] ∅.

Lemma no_switches_ok : dpset_ok no_switches.
Proof. split; [apply od_ok_nil|done..]. Qed.

(** Whatever the switches do, in any order — connect, connect again before the loss of
    the old connection is noticed, disconnect late, report ports the controller does not
    know — [DPSet] keeps ports for exactly the datapaths it has, each datapath under its
    own id and each port under its own number. *)
Theorem dpset_invariant ops : dpset_ok (handle_all ops no_switches).2.
Proof. by apply handle_all_keeps, no_switches_ok. Qed.

(** The events tell the whole story: an application that updates a copy of the ports
    from the events it receives has, after any history of switches connecting,
    reconnecting, leaving and changing ports, the answer of [get_port] for every
    datapath and port. *)
Theorem observers_stay_in_sync ops d p :
  have_ports ops no_switches →
  let s := (handle_all ops no_switches).2 in
  result (get_port d p) s =
    match foldl see ∅ (handle_all ops no_switches).1 !! d ≫= (.!! p) with
    | Some x => Ret x
    | None => Raise PortNotFound
    end.
Proof.
  intros Hp. cbn zeta. destruct (handle_all_keeps ops no_switches no_switches_ok) as [_ Hs].
  assert (shows ∅ no_switches) as H0 by (intros d'; by rewrite lookup_empty).
  rewrite (Hs Hp ∅ H0 d).
  unfold result, get_port, mbind, M_bind, get_st, or_raise. cbn.
  destruct (od_get d _) as [l|]; cbn; [|done]. rewrite od_list_to_map. by destruct (od_get p l).
Qed.

(** A connection that was replaced leaves nothing behind and takes nothing away: the
    switch stays, with the ports of the first connection. *)
Lemma reconnection s d dp dp' :
  dpset_ok s → dp_id dp = Some d → dp_id dp' = Some d → dp ≠ dp' →
  od_get d (dps s) = Some dp →
  let s1 := final (register dp') s in
  outputs (register dp') s = [CloseDatapath dp; EventDPReconnected dp' (get_ports_of d s)] ∧
  unregister dp s1 = ([], s1, Ret tt) ∧
  od_get d (dps s1) = Some dp' ∧ port_state s1 = port_state s.
Proof.
  intros Hok Hid Hid' Hne E. cbn zeta.
  pose proof (register_keeps dp' s Hok) as [Hok' _].
  unfold final, outputs in *. rewrite (register_again_run dp' dp d s) in * by done. cbn in *.
  split; [done|]. split; [|by rewrite od_get_set_eq].
  apply unregister_other_run. rewrite (member_dp dp _ Hok'). intros (d' & Hd & E').
  rewrite Hid in Hd. injection Hd as <-. cbn in E'. rewrite od_get_set_eq in E'. congruence.
Qed.
End dpset.

(** Two connections of switch 7; ports are their numbers. *)
Definition switch_history : list (dp_op (P := Z)) :=
  [SwitchFeatures 100 1 [(1, 1); (2, 2)]; StateChange 100 MAIN_DISPATCHER;
   PortStatus 100 OFPPR_ADD 3; SwitchFeatures 101 1 [(1, 1)]; StateChange 101 MAIN_DISPATCHER;
   StateChange 100 DEAD_DISPATCHER; PortStatus 101 OFPPR_DELETE 2].

Lemma observers_stay_in_sync_witness :
  let s := (handle_all id (λ _, Some 7) switch_history no_switches).2 in
  result (get_port 7 3) s = Ret 3 ∧ result (get_port 7 2) s = Raise PortNotFound.
Proof.
  cbn zeta. rewrite !(observers_stay_in_sync id (λ _, Some 7) switch_history)
    by (vm_compute; naive_solver eauto). by vm_compute.
Defined.
