(* ===== verification/Tables.v ===== *)
(** * Tunnels, switch configuration and learning tables

    Models the small registries under [ryu/controller/]: [TunnelKeys], [DPIDs] and
    [Tunnels] of [tunnels.py], [ConfSwitchSet] of [conf_switch.py], [MacToPortTable] of
    [mac_to_port.py] and [MacToNetwork] of [mac_to_network.py].  Network ids, keys of the
    configuration and MAC addresses are strings, the values of the configuration an
    arbitrary type; dictionaries keep their order. *)

From stdpp Require Import base list gmap sets strings option.
From Stdlib Require Import ZArith Lia.
From S2P Require Import Prelude Odict.

Open Scope Z_scope.

Definition NetworkNotFound := RyuException "NetworkNotFound".
Definition NetworkAlreadyExist := RyuException "NetworkAlreadyExist".
Definition PortNotFound := RyuException "PortNotFound".
Definition PortAlreadyExist := RyuException "PortAlreadyExist".
Definition TunnelKeyAlreadyExist := RyuException "TunnelKeyAlreadyExist".
Definition TunnelKeyNotFound := RyuException "TunnelKeyNotFound".
Definition MacAddressDuplicated := RyuException "MacAddressDuplicated".

(** ** [TunnelKeys] *)

Inductive tunnel_event :=
| EventTunnelKeyAdd (network_id : string) (tunnel_key : Z)
| EventTunnelKeyDel (network_id : string) (tunnel_key : Z)
| EventTunnelPort (dpid port_no remote_dpid : Z) (add_del : bool).

Section tunnel_keys.
Abbreviation keys_t := (odict string Z).
Abbreviation KM := (M keys_t pyexn tunnel_event).

Definition get_key (n : string) : KM Z :=
  s ← get_st; or_raise (od_get n s) TunnelKeyNotFound.

Definition set_key_ (n : string) (k : Z) : KM () :=
  modify (od_set n k);; emit (EventTunnelKeyAdd n k).

Definition register_key (n : string) (k : Z) : KM () :=
  s ← get_st;
  if od_mem n s then raise NetworkAlreadyExist
  else if bool_decide (k ∈ od_values s) then raise TunnelKeyAlreadyExist
  else set_key_ n k.

Definition update_key (n : string) (k : Z) : KM () :=
  s ← get_st;
  if negb (od_mem n s) && bool_decide (k ∈ od_values s) then raise TunnelKeyAlreadyExist else
  match od_get n s with
  | None => set_key_ n k
  | Some key => if bool_decide (key ≠ k) then raise NetworkAlreadyExist else mret tt
  end.

Definition delete_key (n : string) : KM () :=
  s ← get_st;
  match od_get n s with
  | None => raise NetworkNotFound
  | Some k => emit (EventTunnelKeyDel n k);; modify (od_del n)
  end.

(** ** [DPIDs] of [tunnels.py]: a [defaultdict] of dictionaries *)

Abbreviation peers_t := (odict Z (odict Z Z)).
Abbreviation PM := (M peers_t pyexn tunnel_event).

(** [self.dpids[dpid]] enters an empty dictionary for a new datapath. *)
Definition peers_of (d : Z) : PM (odict Z Z) :=
  modify (od_setdefault d []);; gets (λ s, default [] (od_get d s)).

Definition list_remotes (d : Z) : PM (odict Z Z) := peers_of d.

Definition add_remote_dpid_ (d p r : Z) : PM () :=
  modify (λ s, od_alter (od_set p r) d (od_setdefault d [] s));;
  emit (EventTunnelPort d p r true).

Definition add_remote_dpid (d p r : Z) : PM () :=
  ports ← peers_of d;
  if od_mem p (ports : odict Z Z) then raise PortAlreadyExist else add_remote_dpid_ d p r.

(** [ryu_exc.RemoteDPIDAlreadyExist] names a class that [ryu.exception] does not have:
    the attribute look-up fails. *)
Definition update_remote_dpid (d p r : Z) : PM () :=
  ports ← peers_of d;
  match od_get p (ports : odict Z Z) with
  | None => add_remote_dpid_ d p r
  | Some r' => if bool_decide (r' ≠ r) then raise AttributeError else mret tt
  end.

Definition get_remote_dpid (d p : Z) : PM Z :=
  ports ← peers_of d; or_raise (od_get p (ports : odict Z Z)) PortNotFound.

Definition delete_remote (d p : Z) : PM () :=
  ports ← peers_of d;
  match od_get p (ports : odict Z Z) with
  | None => raise PortNotFound
  | Some r => emit (EventTunnelPort d p r false);; modify (od_alter (od_del p) d)
  end.

Definition get_remote_port (d r : Z) : PM Z :=
  ports ← peers_of d;
  let res := (filter (λ x, x.2 = r) (ports : odict Z Z)).*1 in
  assert_ (length res <=? 1)%nat AssertionError;;
  match res with
  | [] => raise PortNotFound
  | p :: _ => mret p
  end.
End tunnel_keys.

(** ** [Tunnels] *)

Record tunnels := Tunnels {
  tunnel_keys : odict string Z;
  tunnel_dpids : odict Z (odict Z Z)
}.

#[export] Instance eta_tunnels : Eta tunnels :=
  EtaBox (λ s, Tunnels (tunnel_keys s) (tunnel_dpids s)).

Section tunnels.
Abbreviation TM := (M tunnels pyexn tunnel_event).

Definition tunnels_get_key (n : string) : TM Z := within tunnel_keys (get_key n).
Definition tunnels_register_key (n : string) (k : Z) : TM () :=
  within tunnel_keys (register_key n k).
Definition tunnels_update_key (n : string) (k : Z) : TM () :=
  within tunnel_keys (update_key n k).
Definition tunnels_delete_key (n : string) : TM () := within tunnel_keys (delete_key n).

Definition tunnels_list_ports (d : Z) : TM (list Z) :=
  ports ← within tunnel_dpids (list_remotes d); mret (od_keys (ports : odict Z Z)).
Definition tunnels_register_port (d p r : Z) : TM () :=
  within tunnel_dpids (add_remote_dpid d p r).
Definition tunnels_update_port (d p r : Z) : TM () :=
  within tunnel_dpids (update_remote_dpid d p r).
Definition tunnels_get_remote_dpid (d p : Z) : TM Z :=
  within tunnel_dpids (get_remote_dpid d p).
Definition tunnels_delete_port (d p : Z) : TM () := within tunnel_dpids (delete_remote d p).
Definition tunnels_get_port (d r : Z) : TM Z := within tunnel_dpids (get_remote_port d r).
End tunnels.

(** ** [ConfSwitchSet] *)

Section conf_switch.
Context {V : Type} `{!EqDecision V}.

Inductive conf_event :=
| EventConfSwitchDelDPID (dpid : Z)
| EventConfSwitchSet (dpid : Z) (key : string) (value : V)
| EventConfSwitchDel (dpid : Z) (key : string).

Abbreviation confs_t := (odict Z (odict string V)).
Abbreviation CM := (M confs_t pyexn conf_event).

Definition conf_dpids : CM (list Z) := gets od_keys.

Definition conf_del_dpid (d : Z) : CM () :=
  s ← get_st;
  or_raise (od_get d s) KeyError;;
  modify (od_del d);; emit (EventConfSwitchDelDPID d).

Definition conf_keys (d : Z) : CM (list string) :=
  s ← get_st; or_raise (od_keys <$> od_get d s) KeyError.

Definition conf_set_key (d : Z) (k : string) (v : V) : CM () :=
  modify (λ s, od_alter (od_set k v) d (od_setdefault d [] s));;
  emit (EventConfSwitchSet d k v).

Definition conf_get_key (d : Z) (k : string) : CM V :=
  s ← get_st; or_raise (od_get d s ≫= od_get k) KeyError.

Definition conf_del_key (d : Z) (k : string) : CM () :=
  s ← get_st;
  or_raise (od_get d s ≫= od_get k) KeyError;;
  modify (od_alter (od_del k) d);; emit (EventConfSwitchDel d k).

Definition conf_contains (d : Z) (k : string) : CM bool :=
  gets (λ s, match od_get d s with Some conf => od_mem k conf | None => false end).

Definition conf_find_dpid (k : string) (v : V) : CM (option Z) :=
  gets (λ s, fst <$> head (filter (λ x, od_get k x.2 = Some v) s)).
End conf_switch.

(** ** [MacToPortTable] *)

Section mac_to_port.
Abbreviation mtp_t := (odict Z (odict string Z)).
Abbreviation PTM := (M mtp_t pyexn Empty_set).

Definition dpid_add (d : Z) : PTM () := modify (od_setdefault d []).

Definition port_add (d p : Z) (m : string) : PTM (option Z) :=
  s ← get_st;
  macs ← or_raise (od_get d s) KeyError;
  modify (od_alter (od_set m p) d);;
  mret (od_get m (macs : odict string Z)).

Definition port_get (d : Z) (m : string) : PTM (option Z) :=
  s ← get_st;
  macs ← or_raise (od_get d s) KeyError;
  mret (od_get m (macs : odict string Z)).

(** [self.mac_to_port.get(dpid)] is [None] for an unknown datapath. *)
Definition mac_list (d p : Z) : PTM (list string) :=
  s ← get_st;
  macs ← or_raise (od_get d s) AttributeError;
  mret (filter (λ x, x.2 = p) (macs : odict string Z)).*1.

Definition mac_del (d : Z) (m : string) : PTM () :=
  s ← get_st;
  or_raise (od_get d s ≫= od_get m) KeyError;;
  modify (od_alter (od_del m) d).
End mac_to_port.

(** ** [MacToNetwork] *)

Section mac_to_network.
Abbreviation mtn_t := (odict string (option string)).
Abbreviation NTM := (M mtn_t pyexn Empty_set).

(** [self.mac_to_net.get(mac)]; a network id of [None] is stored like any other. *)
Definition mac_get_network (m : string) (dflt : option string) : NTM (option string) :=
  gets (λ s, default dflt (od_get m s)).

Definition add_mac (m : string) (n external : option string) : NTM () :=
  s ← get_st;
  let old := od_get m s ≫= id in
  if bool_decide (old = n) then mret tt
  else if bool_decide (old = None) || bool_decide (old = external) then modify (od_set m n)
  else if bool_decide (n = external) then mret tt
  else raise MacAddressDuplicated.

Definition del_mac (m : string) : NTM () :=
  s ← get_st;
  or_raise (od_get m s) KeyError;; modify (od_del m).
End mac_to_network.

(** ** Tunnel keys are a one-to-one relation *)

Inductive key_op :=
| RegisterKey (n : string) (k : Z)
| UpdateKey (n : string) (k : Z)
| DeleteKey (n : string).

Definition key_operate (op : key_op) : M (odict string Z) pyexn tunnel_event () :=
  match op with
  | RegisterKey n k => register_key n k
  | UpdateKey n k => update_key n k
  | DeleteKey n => delete_key n
  end.

Definition key_step (s : odict string Z) (op : key_op) (s' : odict string Z) : Prop :=
  s' = final (key_operate op) s.

Definition keys_ok (s : odict string Z) : Prop :=
  od_ok s ∧ ∀ n n' k, od_get n s = Some k → od_get n' s = Some k → n = n'.

Lemma od_value_key (s : odict string Z) k :
  od_ok s → k ∈ od_values s ↔ ∃ n, od_get n s = Some k.
Proof.
  intros Hs. unfold od_values. rewrite list_elem_of_fmap. split.
  - intros ([n y] & -> & Hin). exists n. by apply od_elem_get.
  - intros [n Hn]. exists (n, k). split; [done|]. by apply od_get_elem.
Qed.

Lemma keys_ok_set n k s :
  keys_ok s → (∀ n', od_get n' s = Some k → n' = n) → keys_ok (od_set n k s).
Proof.
  intros [Hs Hi] Hk. split; [by apply od_ok_set|]. intros n1 n2 k'. rewrite !od_get_set.
  repeat case_decide; subst; [done| | |by apply Hi]; intros H1 H2; simplify_eq; symmetry; eauto.
  symmetry. eauto.
Qed.

Lemma keys_ok_del n s : keys_ok s → keys_ok (od_del n s).
Proof.
  intros [Hs Hi]. split; [by apply od_ok_del|]. intros n1 n2 k. rewrite !od_get_del.
  repeat case_decide; [done..|]. apply Hi.
Qed.

(** The outcome of an operation in terms of the relation, not of the dictionary. *)
Definition key_outcome (op : key_op) (s : odict string Z) : outcome pyexn () :=
  match op with
  | RegisterKey n k =>
      if decide (is_Some (od_get n s)) then Raise NetworkAlreadyExist
      else if decide (Exists (λ x, x.2 = k) s) then Raise TunnelKeyAlreadyExist else Ret tt
  | UpdateKey n k =>
      match od_get n s with
      | Some k' => if decide (k' = k) then Ret tt else Raise NetworkAlreadyExist
      | None => if decide (Exists (λ x, x.2 = k) s) then Raise TunnelKeyAlreadyExist else Ret tt
      end
  | DeleteKey n => if decide (is_Some (od_get n s)) then Ret tt else Raise NetworkNotFound
  end.

Lemma value_exists (s : odict string Z) k : k ∈ od_values s ↔ Exists (λ x, x.2 = k) s.
Proof.
  unfold od_values. rewrite list_elem_of_fmap, Exists_exists.
  split; intros (x & H1 & H2); exists x; rewrite <- list_elem_of_In in *; by subst.
Qed.

Lemma set_key_run n k s :
  set_key_ n k s = ([EventTunnelKeyAdd n k], od_set n k s, Ret tt).
Proof. done. Qed.

(** What a call does when it succeeds or fails. *)
Lemma key_operate_run op s :
  ∃ o s', key_operate op s = (o, s', key_outcome op s) ∧ (keys_ok s → keys_ok s') ∧
    (is_ret (key_outcome op s) = false → s' = s ∧ o = []) ∧
    (key_outcome op s = Ret tt → ∀ n, od_get n s' =
       match op with
       | RegisterKey n' k | UpdateKey n' k => if decide (n = n') then Some k else od_get n s
       | DeleteKey n' => if decide (n = n') then None else od_get n s
       end).
Proof.
  assert (∀ n k, keys_ok s → ¬ Exists (λ x, x.2 = k) s → ∀ n', od_get n' s = Some k → n' = n) as Hf.
  { intros n k [Hs _] Hk n' Hn'. destruct Hk. apply value_exists, od_value_key; eauto. }
  destruct op as [n k|n k|n]; cbn [key_operate key_outcome].
  - unfold register_key, mbind, M_bind, get_st, od_mem. cbn -[set_key_ bool_decide].
    destruct (decide (is_Some (od_get n s))) as [Hn|Hn];
      [rewrite bool_decide_true by done|rewrite bool_decide_false by done].
    { by exists [], s. }
    destruct (decide (Exists (λ x, x.2 = k) s)) as [Hk|Hk].
    + rewrite bool_decide_true by (by apply value_exists). by exists [], s.
    + rewrite bool_decide_false by (by rewrite value_exists). rewrite set_key_run.
      eexists _, _. split; [done|]. split; [intros; apply keys_ok_set; eauto|].
      split; [done|]. intros _ n'. apply od_get_set.
  - unfold update_key, mbind, M_bind, get_st, od_mem. cbn -[set_key_ bool_decide].
    destruct (od_get n s) as [k'|] eqn:E.
    + rewrite (bool_decide_true (is_Some (Some k'))) by eauto. cbn.
      destruct (decide (k' = k)) as [->|Hk].
      * rewrite bool_decide_false by tauto. exists [], s. do 3 (split; [done|]).
        intros _ n'. by case_decide; subst.
      * rewrite bool_decide_true by done. by exists [], s.
    + rewrite (bool_decide_false (is_Some None)) by (by intros [? ?]). cbn -[set_key_ bool_decide].
      destruct (decide (Exists (λ x, x.2 = k) s)) as [Hk|Hk].
      * rewrite bool_decide_true by (by apply value_exists). by exists [], s.
      * rewrite bool_decide_false by (by rewrite value_exists). rewrite set_key_run.
        eexists _, _. split; [done|]. split; [intros; apply keys_ok_set; eauto|].
        split; [done|]. intros _ n'. apply od_get_set.
  - unfold delete_key, mbind, M_bind, get_st. cbn. destruct (od_get n s) as [k|] eqn:E.
    + rewrite decide_True by eauto. eexists _, _. split; [done|].
      split; [apply keys_ok_del|]. split; [done|]. intros _ n'. apply od_get_del.
    + rewrite decide_False by (by intros [? ?]). by exists [], s.
Qed.

(** Networks and tunnel keys stay in a one-to-one relation, whatever is registered,
    updated and deleted: no key is ever given to two networks.  A call succeeds or fails
    as the relation says, a success changes one network only, and a failure changes
    nothing and sends no event. *)
Theorem tunnel_keys_one_to_one s op :
  reachable (λ s, s = []) key_step s →
  (∀ n n' k, od_get n s = Some k → od_get n' s = Some k → n = n') ∧
  result (key_operate op) s = key_outcome op s ∧
  (key_outcome op s ≠ Ret tt →
     final (key_operate op) s = s ∧ outputs (key_operate op) s = []) ∧
  (key_outcome op s = Ret tt → ∀ n, od_get n (final (key_operate op) s) =
     match op with
     | RegisterKey n' k | UpdateKey n' k => if decide (n = n') then Some k else od_get n s
     | DeleteKey n' => if decide (n = n') then None else od_get n s
     end).
Proof.
  intros Hr. assert (keys_ok s) as [Hs Hi].
  { revert Hr. apply reachable_inv.
    - intros s0 ->. split; [apply od_ok_nil|done].
    - intros s0 op0 s1 H0 ->. destruct (key_operate_run op0 s0) as (o & s' & E & Hk & _).
      unfold final. rewrite E. auto. }
  destruct (key_operate_run op s) as (o & s' & E & Hk & Hf & Hok).
  unfold result, final, outputs. rewrite E. cbn. split; [exact Hi|]. split; [done|].
  split; [|exact Hok]. intros Hne. apply Hf. by destruct (key_outcome op s) as [[]|].
Qed.

Lemma tunnel_keys_one_to_one_witness :
  let s := final (key_operate (RegisterKey "a" 1)) [] in
  result (key_operate (UpdateKey "b" 1)) s = Raise TunnelKeyAlreadyExist.
Proof.
  cbn zeta.
  rewrite (proj1 (proj2 (tunnel_keys_one_to_one _ (UpdateKey "b" 1)
    (reach_step _ _ [] (RegisterKey "a" 1) _ (reach_init _ _ [] eq_refl) eq_refl)))).
  by vm_compute.
Defined.

(** ** Tunnel ports *)

Lemma add_remote_run d p r (s : odict Z (odict Z Z)) :
  od_get p (default [] (od_get d s)) = None →
  add_remote_dpid d p r s =
    ([EventTunnelPort d p r true], od_alter (od_set p r) d (od_setdefault d [] s), Ret tt).
Proof.
  intros E. unfold add_remote_dpid, peers_of, mbind, M_bind, gets, modify. cbn -[od_mem].
  rewrite od_get_setdefault, decide_True by done. cbn -[od_mem].
  assert (od_mem p (default [] (od_get d s)) = false) as ->.
  { unfold od_mem. apply bool_decide_eq_false. rewrite E. by intros [? ?]. }
  unfold add_remote_dpid_, mbind, M_bind, modify, emit. cbn.
  assert (od_setdefault d [] (od_setdefault d [] s) = od_setdefault d [] s) as ->; [|done].
  unfold od_setdefault at 1. by rewrite od_get_setdefault, decide_True.
Qed.

Lemma peers_after_add d p r (s : odict Z (odict Z Z)) :
  od_get d (od_alter (od_set p r) d (od_setdefault d [] s)) =
    Some (od_set p r (default [] (od_get d s))).
Proof. by rewrite od_get_alter, od_get_setdefault, !decide_True. Qed.

(** The table of tunnel ports takes two ports to the same remote datapath, which its
    look-up by remote datapath does not expect; and an update to another remote datapath
    fails with [AttributeError], the exception class it means being elsewhere. *)
Theorem tunnel_port_lookup_fails s d p p' r r' :
  p ≠ p' → r ≠ r' → od_get d (tunnel_dpids s) = None →
  let s1 := final (tunnels_register_port d p r) s in
  let s2 := final (tunnels_register_port d p' r) s1 in
  result (tunnels_register_port d p' r) s1 = Ret tt ∧
  result (tunnels_get_port d r) s1 = Ret p ∧
  result (tunnels_get_port d r) s2 = Raise AssertionError ∧
  result (tunnels_update_port d p r') s1 = Raise AttributeError.
Proof.
  intros Hp Hr E. destruct s as [ks s]. cbn in E. cbn zeta.
  unfold result, final, tunnels_register_port, tunnels_get_port, tunnels_update_port, within.
  cbn [tunnel_dpids]. rewrite (add_remote_run d p r s) by (by rewrite E).
  cbn [fst snd tunnel_dpids set_field setter_fun setter_of].
  pose proof (peers_after_add d p r s) as E1. rewrite E in E1. cbn in E1.
  set (s1 := od_alter (od_set p r) d (od_setdefault d [] s)) in *. clearbody s1. cbn.
  rewrite (add_remote_run d p' r s1) by (rewrite E1; cbn; by rewrite decide_False).
  pose proof (peers_after_add d p' r s1) as E2. rewrite E1 in E2. cbn in E2.
  rewrite decide_False in E2 by done. cbn in E2.
  set (s2 := od_alter (od_set p' r) d (od_setdefault d [] s1)) in *. clearbody s2.
  unfold get_remote_port, update_remote_dpid, peers_of, mbind, M_bind, gets, modify. cbn.
  rewrite !od_get_setdefault, !decide_True by done. rewrite E1, E2. cbn.
  rewrite !decide_True by done. cbn. rewrite bool_decide_true by done. done.
Qed.

Lemma tunnel_port_lookup_fails_witness :
  result (tunnels_get_port 1 9)
    (final (tunnels_register_port 1 3 9) (final (tunnels_register_port 1 2 9) (Tunnels [] [])))
  = Raise AssertionError.
Proof.
  destruct (tunnel_port_lookup_fails (Tunnels [] []) 1 2 3 9 8 ltac:(lia) ltac:(lia) eq_refl)
    as (_ & _ & H & _). exact H.
Defined.

(** ** Configuration and learning *)

Lemma conf_get_key_result {V} d k (s : odict Z (odict string V)) :
  result (conf_get_key d k) s =
    match od_get d s ≫= od_get k with Some v => Ret v | None => Raise KeyError end.
Proof.
  unfold result, conf_get_key, mbind, M_bind, get_st, or_raise.
  destruct (od_get d s) as [c|]; cbn; [|done]. by destruct (od_get k c).
Qed.

(** A key that is set can be read back, and no other key changes. *)
Lemma conf_set_get {V} d k (v : V) d' k' s :
  result (conf_get_key d' k') (final (conf_set_key d k v) s) =
    if decide ((d', k') = (d, k)) then Ret v else result (conf_get_key d' k') s.
Proof.
  rewrite !conf_get_key_result. unfold final, conf_set_key, mbind, M_bind, modify, emit. cbn.
  rewrite od_get_alter, od_get_setdefault.
  destruct (decide (d' = d)) as [->|Hd].
  - cbn [fmap option_fmap option_map mbind option_bind]. rewrite od_get_set.
    destruct (decide (k' = k)) as [->|]; [by rewrite decide_True|].
    rewrite decide_False by congruence. by destruct (od_get d s).
  - rewrite decide_False; [done|congruence].
Qed.

(** A MAC address that was seen in a network other than the external one stays there. *)
Lemma add_mac_keeps_network m n external s old :
  od_get m s = Some (Some old) → Some old ≠ external →
  final (add_mac m n external) s = s ∧
  result (add_mac m n external) s =
    if decide (n = Some old ∨ n = external) then Ret tt else Raise MacAddressDuplicated.
Proof.
  intros E Hext. unfold final, result, add_mac, mbind, M_bind, get_st. cbn. rewrite E. cbn.
  case_bool_decide as H1; cbn; [by rewrite decide_True by auto|].
  rewrite (bool_decide_false (Some old = external)) by done.
  cbn. case_bool_decide as H2; cbn; [by rewrite decide_True by auto|].
  rewrite decide_False; [done|]. naive_solver.
Qed.

(** What the table learned last for a MAC address is what it answers, and the call
    returns what it had learned before. *)
Lemma port_add_get d p m s macs :
  od_get d s = Some macs →
  port_add d p m s = ([], od_alter (od_set m p) d s, Ret (od_get m macs)) ∧
  result (port_get d m) (final (port_add d p m) s) = Ret (Some p).
Proof.
  intros E. unfold result, final, port_add, port_get, mbind, M_bind, get_st, or_raise, modify.
  cbn. rewrite E. cbn. split; [done|]. rewrite od_get_alter, decide_True by done. rewrite E. cbn.
  by rewrite od_get_set_eq.
Qed.
