(* ===== verification/Datapath.v ===== *)
(** * The OpenFlow channel of a switch

    Models the class [Datapath] of [ryu/controller/controller.py] (state, receive loop,
    send queue, echo requests, closing), the functions [header] and [msg] of
    [ryu/ofproto/ofproto_parser.py], [ProtocolDesc] of [ofproto_protocol.py] and the
    handlers of [ryu/controller/ofp_handler.py].

    The parsers of the OpenFlow versions are a parameter: they give a message of the kinds
    the handlers distinguish.  What the socket hands to the receive loop is a list of
    results of [recv].  A thread that waits for room in the send queue only runs later,
    which is not visible here: the queue has no bound.  [hub.sleep(0)] lets other threads
    run and has no effect of its own.  Events for the observers, calls of the socket and
    state changes are outputs. *)

From stdpp Require Import base list gmap sets strings.
From Stdlib Require Import ZArith Lia.
From S2P Require Import Prelude Odict Struct.

Open Scope Z_scope.
Set Default Proof Using "Type".

(** ** Constants *)

Definition OFP_HEADER_PACK_STR : list nat := [1; 1; 2; 4]%nat.
Definition OFP_HEADER_SIZE : nat := 8.
Definition MAX_XID : Z := 0xffffffff.
Definition OFPET_HELLO_FAILED : Z := 0.
Definition OFPMPF_REPLY_MORE : Z := 1.
Definition OFPPR_ADD : Z := 0.
Definition OFPPR_DELETE : Z := 1.
Definition OFPPR_MODIFY : Z := 2.

Definition OFPUnknownVersion := RyuException "OFPUnknownVersion".
Definition OFPTruncatedMessage := RyuException "OFPTruncatedMessage".

Inductive dispatcher :=
| HANDSHAKE_DISPATCHER
| CONFIG_DISPATCHER
| MAIN_DISPATCHER
| DEAD_DISPATCHER.

#[export] Instance dispatcher_eq_dec : EqDecision dispatcher.
Proof. solve_decision. Defined.

(** The constants of the protocol modules that not every version has. *)
Definition OFPET_EXPERIMENTER (ofp_version : Z) : option Z :=
  if ofp_version =? 1 then None else Some 0xffff.

(** ** Greatest versions *)

Definition max_of (l : list Z) : Z := foldr Z.max 0 l.

Lemma max_of_in l : l ≠ [] → Forall (λ v, 0 < v) l → max_of l ∈ l.
Proof.
  induction l as [|v l IH]; [done|]. intros _ [Hv Hl]%Forall_cons.
  destruct l as [|w l]; [cbn; rewrite Z.max_l by lia; set_solver|].
  change (max_of (v :: w :: l)) with (Z.max v (max_of (w :: l))).
  specialize (IH ltac:(done) Hl).
  destruct (Z.max_spec v (max_of (w :: l))) as [[_ ->]|[_ ->]]; set_solver.
Qed.

Lemma max_of_ge l v : v ∈ l → v ≤ max_of l.
Proof.
  induction l as [|w l IH]; [set_solver|]. change (max_of (w :: l)) with (Z.max w (max_of l)).
  intros [->|H]%elem_of_cons; [lia|]. specialize (IH H). lia.
Qed.

Lemma max_of_pos l : 0 < max_of l → max_of l ∈ l.
Proof.
  induction l as [|x k IH]; [cbn; lia|]. change (max_of (x :: k)) with (Z.max x (max_of k)).
  intros H. destruct (Z.max_spec x (max_of k)) as [[? E]|[? E]]; rewrite E in *; set_solver.
Qed.

Lemma max_of_unique l v : v ∈ l → (∀ w, w ∈ l → w ≤ v) → Forall (λ v, 0 < v) l → max_of l = v.
Proof.
  intros Hv Hm Hl. pose proof (max_of_ge l v Hv).
  assert (max_of l ∈ l) as H1%Hm by (apply max_of_in; [intros ->; set_solver|done]). lia.
Qed.

Lemma nonempty_true {A} (l : list A) : nonempty l = true ↔ l ≠ [].
Proof. by destruct l. Qed.

Section datapath.
Context {P : Type} (port_no : P → Z).

(** ** Messages *)

(** The classes of received messages that the handlers distinguish. *)
Inductive msg_body :=
| OFPHello (elements : list (list Z))
| OFPSwitchFeatures (datapath_id : Z) (ports : odict Z P)
| OFPPortDescStatsReply (flags : Z) (body : list P)
| OFPEchoRequest (data : bytes)
| OFPEchoReply
| OFPPortStatus (reason : Z) (desc : P)
| OFPErrorMsg (type code : Z) (data : bytes)
| OtherMsg (msg_type : Z).

Record ofp_msg := OfpMsg {
  m_version : Z;
  m_xid : Z;
  m_body : msg_body
}.

(** The messages the channel itself sends. *)
Inductive out_body :=
| OutHello
| OutFeaturesRequest
| OutPortDescStatsRequest
| OutEchoRequest
| OutEchoReply (data : bytes)
| OutApp (msg_type : Z).

Record out_msg := OutMsg {
  o_version : Z;
  o_xid : option Z;
  o_body : out_body
}.

Inductive dp_out :=
| StateChange (state : dispatcher)
| MsgEvent (m : ofp_msg) (state : dispatcher)
| PortStateChange (reason port_no : Z) (state : dispatcher)
| SocketSend (m : out_msg)
| SocketRecv (read_len : Z)
| SocketShutdown
| SocketClose.

Record dpath := Dpath {
  state : dispatcher;
  dp_id : option Z;
  ports : option (odict Z P);
  ofp_version : Z;
  xid : Z;
  unreplied_echo_requests : list Z;
  max_unreplied_echo_requests : Z;
  send_q : option (list out_msg);
  is_active : bool
}.

#[global] Instance eta_dpath : Eta dpath := EtaBox (λ s,
  Dpath (state s) (dp_id s) (ports s) (ofp_version s) (xid s) (unreplied_echo_requests s)
    (max_unreplied_echo_requests s) (send_q s) (is_active s)).

Abbreviation DM := (M dpath pyexn dp_out).

(** The versions every application of the process supports. *)
Context (supported : list Z).

(** ** [ProtocolDesc] *)

Definition set_version (v : Z) : DM () :=
  assert_ (bool_decide (v ∈ supported)) AssertionError;;
  modify (λ s, s <| ofp_version := v |>).

(** ** State and closing *)

Definition set_state (st : dispatcher) : DM () :=
  modify (λ s, s <| state := st |>);; emit (StateChange st).

(** The [finally] clause of [_deactivate]. *)
Definition deactivate : DM () :=
  emit SocketShutdown;;
  active ← gets is_active;
  when (negb active) (emit SocketClose).

Definition close : DM () :=
  st ← gets state;
  when (bool_decide (st ≠ DEAD_DISPATCHER)) (set_state DEAD_DISPATCHER);;
  deactivate.

(** [Datapath.__init__]; [xid0] is the random start of the transaction ids. *)
Definition new_datapath (xid0 max_unreplied : Z) : dpath :=
  Dpath HANDSHAKE_DISPATCHER None None (max_of supported) xid0 [] max_unreplied (Some []) true.

(** ** Sending *)

Definition send (m : out_msg) : DM bool :=
  q ← gets send_q;
  match q : option (list out_msg) with
  | Some q => modify (λ s, s <| send_q := Some (q ++ [m]) |>);; mret true
  | None => mret false
  end.

Definition set_xid : DM Z :=
  modify (λ s, s <| xid := Z.land (xid s + 1) MAX_XID |>);; gets xid.

(** [send_msg] of a message without transaction id, and of one that has its own. *)
Definition send_msg (x : option Z) (b : out_body) : DM bool :=
  x' ← match x with Some x => mret x | None => set_xid end;
  v ← gets ofp_version;
  send (OutMsg v (Some x') b).

(** The [finally] clause of [_send_loop]: the queue is dropped, the datapath closed. *)
Definition send_loop_end : DM () :=
  modify (λ s, s <| send_q := None |>);; close.

(** One turn of [_send_loop], from one [get] to the next; [sent = false] is an error of
    [sendall]. *)
Definition send_turn (sent : bool) : DM () :=
  q ← gets send_q;
  match q : option (list out_msg) with
  | Some (m :: q) =>
      modify (λ s, s <| send_q := Some q |>);;
      emit (SocketSend m);;
      st ← gets state;
      when (negb sent || bool_decide (st = DEAD_DISPATCHER)) send_loop_end
  | _ => mret tt
  end.

(** One turn of [_echo_request_loop], and the end of the loop; the turn says whether the
    loop goes on. *)
Definition echo_turn : DM bool :=
  s ← get_st;
  if negb (max_unreplied_echo_requests s =? 0) then
    if bool_decide (is_Some (send_q s)) &&
       (Z.of_nat (length (unreplied_echo_requests s)) <=? max_unreplied_echo_requests s)
    then
      x ← set_xid;
      modify (λ s, s <| unreplied_echo_requests ::= λ l, l ++ [x] |>);;
      send_msg (Some x) OutEchoRequest;;
      mret true
    else close;; mret false
  else mret false.

(** [list.remove]: the first occurrence; an error is swallowed. *)
Fixpoint remove_first (x : Z) (l : list Z) : list Z :=
  match l with
  | [] => []
  | y :: l => if decide (y = x) then l else y :: remove_first x l
  end.

Definition acknowledge_echo_reply (x : Z) : DM () :=
  modify (λ s, s <| unreplied_echo_requests ::= remove_first x |>).

(** ** Handlers of [OFPHandler] *)

(** [send_msg] of an [OFPErrorMsg] whose data is a text: the message gets its transaction id, and
    [self.buf += self.data] of a [bytearray] and a [str] raises while it is serialized. *)
Definition hello_failed : DM () := set_xid;; raise TypeError.

Definition hello_handler (m : ofp_msg) (elements : list (list Z)) : DM () :=
  v0 ← gets ofp_version;
  let top := max_of supported in
  let switch_versions := concat elements in
  let negotiated := filter (λ v, v ≤ top) switch_versions in
  let usable :=
    match elements with
    | [] => filter (λ v, v ≤ m_version m) supported
    | _ => filter (λ v, v ∈ supported) switch_versions
    end in
  let failed :=
    match elements with
    | [] => nonempty usable && negb (max_of usable =? Z.min (m_version m) v0)
    | _ => nonempty negotiated && (negb (nonempty usable)
             || negb (max_of negotiated =? max_of usable))
    end in
  if failed then hello_failed
  else if negb (nonempty usable) then hello_failed
  else
    set_version (max_of usable);;
    set_state CONFIG_DISPATCHER;;
    send_msg None OutFeaturesRequest;;
    mret tt.

Definition switch_features_handler (datapath_id : Z) (ps : odict Z P) : DM () :=
  modify (λ s, s <| dp_id := Some datapath_id |>);;
  v ← gets ofp_version;
  modify (λ s, s <| ports := Some (if v <? 4 then ps else []) |>);;
  if v <? 4 then set_state MAIN_DISPATCHER
  else send_msg None OutPortDescStatsRequest;; mret tt.

(** [datapath.ports[...] = ...] on [None] is a [TypeError]. *)
Definition set_port (x : P) : DM () :=
  ps ← gets ports;
  or_raise (ps : option (odict Z P)) TypeError;;
  modify (λ s, s <| ports ::= fmap (od_set (port_no x) x) |>).

Definition multipart_reply_handler (flags : Z) (body : list P) : DM () :=
  for_each body set_port;;
  if negb (Z.land flags OFPMPF_REPLY_MORE =? 0) then mret tt
  else set_state MAIN_DISPATCHER.

Definition echo_request_handler (m : ofp_msg) (data : bytes) : DM () :=
  send_msg (Some (m_xid m)) (OutEchoReply data);; mret tt.

Definition echo_reply_handler (m : ofp_msg) : DM () := acknowledge_echo_reply (m_xid m).

Definition port_status_handler (reason : Z) (desc : P) : DM () :=
  if (reason =? OFPPR_ADD) || (reason =? OFPPR_MODIFY) then
    set_port desc;;
    st ← gets state; emit (PortStateChange reason (port_no desc) st)
  else if reason =? OFPPR_DELETE then
    ps ← gets ports;
    or_raise (ps : option (odict Z P)) AttributeError;;
    modify (λ s, s <| ports ::= fmap (od_del (port_no desc)) |>);;
    st ← gets state; emit (PortStateChange reason (port_no desc) st)
  else mret tt.

(** Logging; what can fail is the constant [ofp.OFPET_EXPERIMENTER] and the text of a
    failed hello, which must be ASCII. *)
Definition error_msg_handler (type code : Z) (data : bytes) : DM () :=
  v ← gets ofp_version;
  or_raise (OFPET_EXPERIMENTER v) AttributeError;;
  when ((type =? OFPET_HELLO_FAILED) && negb (bool_decide (Forall (λ b, b < 128) data)))
    (raise ValueError).

(** [get_handlers] and the states the handlers are registered for. *)
Definition handlers (m : ofp_msg) (st : dispatcher) : list (DM ()) :=
  match m_body m with
  | OFPHello els =>
      if decide (st = HANDSHAKE_DISPATCHER) then [hello_handler m els] else []
  | OFPSwitchFeatures d ps =>
      if decide (st = CONFIG_DISPATCHER) then [switch_features_handler d ps] else []
  | OFPPortDescStatsReply fl body =>
      if decide (st = CONFIG_DISPATCHER) then [multipart_reply_handler fl body] else []
  | OFPEchoRequest data =>
      if decide (st ≠ DEAD_DISPATCHER) then [echo_request_handler m data] else []
  | OFPEchoReply => if decide (st ≠ DEAD_DISPATCHER) then [echo_reply_handler m] else []
  | OFPPortStatus reason desc =>
      if decide (st = MAIN_DISPATCHER) then [port_status_handler reason desc] else []
  | OFPErrorMsg type code data =>
      if decide (st ≠ DEAD_DISPATCHER) then [error_msg_handler type code data] else []
  | OtherMsg _ => []
  end.

(** The body of [if msg:] in [_recv_loop]. *)
Definition dispatch (m : ofp_msg) : DM () :=
  st ← gets state;
  emit (MsgEvent m st);;
  st ← gets state;
  for_each (handlers m st) id.

(** ** [ofproto_parser] *)

(** [_MSG_PARSERS]: from message type, length, transaction id and bytes. *)
Context (msg_parsers : Z → option (Z → Z → Z → bytes → outcome pyexn ofp_msg)).

Definition header (buf : bytes) : outcome pyexn (Z * Z * Z * Z) :=
  if (length buf <? OFP_HEADER_SIZE)%nat then Raise AssertionError else
  zs ← unpack OFP_HEADER_PACK_STR buf;
  match zs with
  | [version; msg_type; msg_len; xid] => Ret (version, msg_type, msg_len, xid)
  | _ => Raise ValueError
  end.

Definition parse_msg (version msg_type msg_len x : Z) (buf : bytes)
  : outcome pyexn (option ofp_msg) :=
  let short := Z.of_nat (length buf) <? msg_len in
  match msg_parsers version with
  | None => Raise OFPUnknownVersion
  | Some msg_parser =>
      match msg_parser msg_type msg_len x buf with
      | Ret m => if short then Raise AssertionError else Ret (Some m)
      | Raise e =>
          if decide (e = OFPTruncatedMessage) then Raise e
          else if short then Raise AssertionError else Ret None
      end
  end.

(** ** The receive loop *)

Definition clamp (msg_len : Z) : Z :=
  if msg_len <? Z.of_nat OFP_HEADER_SIZE then Z.of_nat OFP_HEADER_SIZE else msg_len.

(** [hub.sleep(0)] after 2048 messages. *)
Definition next_count (count : Z) : Z := if 2048 <? count + 1 then 0 else count + 1.

(** The inner loop: complete messages are taken off the buffer. *)
Fixpoint drain (fuel : nat) (buf : bytes) (remaining_read_len count : Z)
  : DM (bytes * Z * Z) :=
  if (length buf <? OFP_HEADER_SIZE)%nat then mret (buf, remaining_read_len, count) else
  match fuel with
  | O => raise OutOfFuel
  | S fuel =>
      h ← lift (header buf);
      let '(version, msg_type, msg_len, x) := h : Z * Z * Z * Z in
      let msg_len := clamp msg_len in
      if Z.of_nat (length buf) <? msg_len
      then mret (buf, msg_len - Z.of_nat (length buf), count)
      else
        let n := Z.to_nat msg_len in
        m ← lift (parse_msg version msg_type msg_len x (take n buf));
        match m : option ofp_msg with Some m => dispatch m | None => mret tt end;;
        drain fuel (drop n buf) (Z.of_nat OFP_HEADER_SIZE) (next_count count)
  end.

(** Results of [socket.recv]. *)
Inductive received :=
| Bytes (bs : bytes)
| Timeout
| SocketError.

Definition read_len (remaining_read_len : Z) : Z :=
  if Z.of_nat OFP_HEADER_SIZE <? remaining_read_len then remaining_read_len
  else Z.of_nat OFP_HEADER_SIZE.

(** [_recv_loop] without its [finally]; at the end of the list it waits. *)
Fixpoint recv_loop (buf : bytes) (remaining_read_len count : Z) (socket : list received)
  : DM () :=
  match socket with
  | [] => mret tt
  | r :: socket =>
      st ← gets state;
      if bool_decide (st = DEAD_DISPATCHER) then mret tt else
      emit (SocketRecv (read_len remaining_read_len));;
      match r with
      | Timeout => recv_loop buf remaining_read_len count socket
      | SocketError | Bytes [] => mret tt
      | Bytes bs =>
          let buf := buf ++ bs in
          b ← drain (length buf) buf remaining_read_len count;
          let '(buf, remaining_read_len, count) := b : bytes * Z * Z in
          recv_loop buf remaining_read_len count socket
      end
  end.

(** The [finally] clauses of [_recv_loop], of the send thread if it still runs, and of
    [serve], then the end of [datapath_connection_factory]. *)
Definition cleanup : DM () :=
  deactivate;;
  q ← gets send_q;
  when (bool_decide (is_Some (q : option (list out_msg)))) send_loop_end;;
  modify (λ s, s <| is_active := false |>);;
  close.

(** [serve] and [datapath_connection_factory]: the receive loop, and the end of the
    connection whatever happened. *)
Definition serve (socket : list received) : DM () :=
  send_msg None OutHello;;
  r ← try_with (recv_loop [] (Z.of_nat OFP_HEADER_SIZE) 0 socket;; mret None)
        (λ e, Some (mret (Some e)));
  cleanup;;
  match r : option pyexn with Some e => raise e | None => mret tt end.

(** ** The stream of messages *)

(** The length of the message at the head of a buffer, as the loop takes it. *)
Definition frame_len (buf : bytes) : nat :=
  Z.to_nat (clamp (be_value (take 2 (drop 2 buf)))).

(** The complete messages of a stream and what follows them. *)
Fixpoint split_frames (fuel : nat) (buf : bytes) : list bytes * bytes :=
  match fuel with
  | O => ([], buf)
  | S fuel =>
      if (length buf <? OFP_HEADER_SIZE)%nat || (length buf <? frame_len buf)%nat then ([], buf)
      else
        let '(fs, rest) := split_frames fuel (drop (frame_len buf) buf) in
        (take (frame_len buf) buf :: fs, rest)
  end.

Definition stream (buf : bytes) : list bytes * bytes := split_frames (length buf) buf.

(** What the loop does with one message. *)
Definition process_frame (frame : bytes) : DM () :=
  h ← lift (header frame);
  let '(version, msg_type, msg_len, x) := h : Z * Z * Z * Z in
  m ← lift (parse_msg version msg_type (clamp msg_len) x frame);
  match m : option ofp_msg with Some m => dispatch m | None => mret tt end.

Lemma frame_len_pos buf : (OFP_HEADER_SIZE ≤ frame_len buf)%nat.
Proof. unfold frame_len, clamp. case Z.ltb_spec; unfold OFP_HEADER_SIZE; lia. Qed.

Lemma split_frames_fuel n m buf :
  (length buf ≤ n)%nat → (length buf ≤ m)%nat → split_frames n buf = split_frames m buf.
Proof.
  revert m buf. induction n as [|n IH]; intros m buf Hn Hm.
  { destruct buf; [|cbn in Hn; lia]. by destruct m. }
  destruct m as [|m]; [destruct buf; [done|cbn in Hm; lia]|]. cbn [split_frames].
  destruct (_ || _) eqn:E; [done|]. apply orb_false_iff in E as [E1%Nat.ltb_ge E2%Nat.ltb_ge].
  pose proof (frame_len_pos buf) as Hf. unfold OFP_HEADER_SIZE in *.
  rewrite (IH m); [done|rewrite length_drop; lia..].
Qed.

Lemma stream_unfold buf :
  stream buf =
    if (length buf <? OFP_HEADER_SIZE)%nat || (length buf <? frame_len buf)%nat then ([], buf)
    else let '(fs, rest) := stream (drop (frame_len buf) buf) in
         (take (frame_len buf) buf :: fs, rest).
Proof.
  unfold stream at 1. destruct (length buf) as [|n] eqn:E; [done|]. cbn [split_frames].
  rewrite E. destruct (_ || _) eqn:Eb; [done|]. apply orb_false_iff in Eb as [E1%Nat.ltb_ge E2%Nat.ltb_ge].
  pose proof (frame_len_pos buf). unfold OFP_HEADER_SIZE in *. unfold stream.
  rewrite (split_frames_fuel n (length (drop (frame_len buf) buf))); [done|..];
    rewrite length_drop; lia.
Qed.

(** The length field lies in the header: what follows does not change it. *)
Lemma frame_len_app a b : (OFP_HEADER_SIZE ≤ length a)%nat → frame_len (a ++ b) = frame_len a.
Proof.
  intros H. unfold OFP_HEADER_SIZE in H. unfold frame_len.
  rewrite drop_app_le, take_app_le; [done|rewrite length_drop|]; lia.
Qed.

(** Messages are found one after the other, wherever the stream is cut. *)
Lemma stream_app a b :
  stream (a ++ b) = let '(fs, rest) := stream a in
                    let '(fs', rest') := stream (rest ++ b) in (fs ++ fs', rest').
Proof.
  remember (length a) as n eqn:Hn. revert a Hn.
  induction (lt_wf n) as [n _ IH]. intros a ->.
  rewrite (stream_unfold a). destruct (_ || _) eqn:E.
  { by destruct (stream (a ++ b)). }
  apply orb_false_iff in E as [E1%Nat.ltb_ge E2%Nat.ltb_ge].
  pose proof (frame_len_pos a) as Hp. unfold OFP_HEADER_SIZE in *.
  rewrite (stream_unfold (a ++ b)), frame_len_app by done.
  rewrite (proj2 (orb_false_iff _ _)).
  2:{ rewrite !Nat.ltb_ge, length_app. unfold OFP_HEADER_SIZE. lia. }
  rewrite drop_app_le, take_app_le by lia.
  rewrite (IH (length (drop (frame_len a) a))); [|rewrite length_drop; lia|done].
  destruct (stream (drop (frame_len a) a)) as [fs rest].
  by destruct (stream (rest ++ b)).
Qed.

Lemma stream_rest buf : let '(fs, rest) := stream buf in
  Forall (λ f, (OFP_HEADER_SIZE ≤ length f)%nat) fs ∧ stream rest = ([], rest).
Proof.
  remember (length buf) as n eqn:Hn. revert buf Hn.
  induction (lt_wf n) as [n _ IH]. intros buf ->. rewrite stream_unfold.
  destruct (_ || _) eqn:E.
  { split; [done|]. by rewrite stream_unfold, E. }
  apply orb_false_iff in E as [E1%Nat.ltb_ge E2%Nat.ltb_ge].
  pose proof (frame_len_pos buf) as Hp. unfold OFP_HEADER_SIZE in *.
  specialize (IH (length (drop (frame_len buf) buf)) ltac:(rewrite length_drop; lia) _ eq_refl).
  destruct (stream (drop (frame_len buf) buf)) as [fs rest]. destruct IH as [H1 H2].
  split; [|done]. apply Forall_cons. split; [|done]. rewrite length_take. lia.
Qed.

(** ** Headers *)

Lemma header_value buf :
  (OFP_HEADER_SIZE ≤ length buf)%nat →
  header buf = Ret (be_value (take 1 buf), be_value (take 1 (drop 1 buf)),
                    be_value (take 2 (drop 2 buf)), be_value (take 4 (drop 4 buf))).
Proof.
  unfold OFP_HEADER_SIZE. intros H. unfold header, OFP_HEADER_SIZE.
  rewrite (proj2 (Nat.ltb_ge _ _) H). unfold OFP_HEADER_PACK_STR.
  rewrite !unpack_cons by (rewrite ?length_drop; lia). cbn [unpack].
  by rewrite !drop_drop.
Qed.

Lemma header_take buf n :
  (OFP_HEADER_SIZE ≤ n)%nat → (n ≤ length buf)%nat → header (take n buf) = header buf.
Proof.
  intros H1 H2. unfold OFP_HEADER_SIZE in *.
  rewrite !header_value by (rewrite ?length_take; unfold OFP_HEADER_SIZE; lia).
  rewrite !skipn_firstn_comm, !take_take. do 2 f_equal; [do 2 f_equal|]; f_equal; f_equal; lia.
Qed.

(** ** Segments do not matter *)

Lemma frame_short buf :
  (Z.of_nat (length buf) <? clamp (be_value (take 2 (drop 2 buf))))
    = (length buf <? frame_len buf)%nat.
Proof.
  unfold frame_len. set (c := clamp _).
  assert (0 ≤ c) by (unfold c, clamp; case Z.ltb_spec; unfold OFP_HEADER_SIZE; lia).
  apply eq_true_iff_eq. rewrite Z.ltb_lt, Nat.ltb_lt. lia.
Qed.

(** The inner loop handles the complete messages of the buffer in order and keeps the
    rest; as much fuel as the buffer has bytes is enough. *)
Lemma drain_spec fuel buf remaining count :
  (length buf ≤ fuel)%nat →
  ∃ remaining' count', ∀ s, drain fuel buf remaining count s =
    (for_each (stream buf).1 process_frame;; mret ((stream buf).2, remaining', count')) s.
Proof.
  revert buf remaining count. induction fuel as [|fuel IH]; intros buf rem count Hf;
    rewrite stream_unfold; cbn [drain].
  { destruct buf; [|cbn in Hf; lia]. by exists rem, count. }
  destruct (length buf <? OFP_HEADER_SIZE)%nat eqn:E1; [by exists rem, count|].
  apply Nat.ltb_ge in E1. rewrite (header_value buf) by done. cbn [orb].
  rewrite <- frame_short. destruct (_ <? _) eqn:E2.
  { eexists _, count. intros s. rewrite lift_ret_bind. by rewrite E2. }
  pose proof (frame_len_pos buf) as Hp. rewrite frame_short in E2. apply Nat.ltb_ge in E2.
  destruct (IH (drop (frame_len buf) buf) (Z.of_nat OFP_HEADER_SIZE) (next_count count))
    as (rem' & count' & Hd); [rewrite length_drop; unfold OFP_HEADER_SIZE in *; lia|].
  exists rem', count'. intros s. destruct (stream (drop (frame_len buf) buf)) as [fs rest].
  cbn [fst snd for_each] in *. rewrite lift_ret_bind.
  rewrite (proj2 (Z.ltb_ge _ _)) by (rewrite <- Z.ltb_ge, frame_short, Nat.ltb_ge; done).
  fold (frame_len buf). rewrite bind_assoc. unfold process_frame at 2.
  rewrite header_take, header_value by done. rewrite bind_assoc, lift_ret_bind.
  rewrite bind_assoc. apply bind_ext. intros m s1. apply bind_ext. intros _ s2. apply Hd.
Qed.

Definition is_visible (o : dp_out) : bool :=
  match o with SocketRecv _ => false | _ => true end.

(** What others see of a run: all but the calls of [recv]. *)
Definition visible (os : list dp_out) : list dp_out := filter is_visible os.

(** [recv] gives bytes or times out. *)
Definition steady (r : received) : Prop :=
  match r with Bytes bs => bs ≠ [] | Timeout => True | SocketError => False end.

Definition payload (socket : list received) : bytes :=
  concat ((λ r, match r with Bytes bs => bs | _ => [] end) <$> socket).

Definition alive (s : dpath) : Prop := state s ≠ DEAD_DISPATCHER.

Lemma send_msg_alive x b : preserves alive (send_msg x b).
Proof.
  unfold send_msg, send, set_xid. preserve; done.
Qed.

#[local] Hint Resolve send_msg_alive : pres.

Lemma handlers_alive m st : Forall (preserves alive) (handlers m st).
Proof.
  unfold handlers. destruct (m_body m); try case_decide; repeat constructor.
  - unfold hello_handler, hello_failed, set_xid, set_version, set_state. preserve; done.
  - unfold switch_features_handler, set_state. preserve; done.
  - unfold multipart_reply_handler, set_port, set_state. preserve; done.
  - unfold echo_request_handler. preserve.
  - unfold echo_reply_handler, acknowledge_echo_reply. preserve. done.
  - unfold port_status_handler, set_port. preserve; done.
  - unfold error_msg_handler. preserve.
Qed.

Lemma process_frame_alive f : preserves alive (process_frame f).
Proof.
  unfold process_frame. apply preserves_bind; [by intros s Hs|]. intros [[[v t] l] x].
  apply preserves_bind; [by intros s Hs|]. intros [m|]; [|apply preserves_ret].
  unfold dispatch. preserve. intros s Hs.
  pose proof (handlers_alive m a1) as Hh. rewrite Forall_forall in Hh. by apply (Hh x0).
Qed.

Lemma process_frames_alive fs : preserves alive (for_each fs process_frame).
Proof. apply preserves_for_each. intros f _. apply process_frame_alive. Qed.

Lemma visible_app a b : visible (a ++ b) = visible a ++ visible b.
Proof. apply filter_app. Qed.

Lemma recv_loop_alive buf rem count r socket s :
  alive s →
  recv_loop buf rem count (r :: socket) s =
    let '(o, s', res) :=
      match r with
      | Timeout => recv_loop buf rem count socket
      | SocketError | Bytes [] => mret tt
      | Bytes bs =>
          b ← drain (length (buf ++ bs)) (buf ++ bs) rem count;
          let '(buf, rem, count) := b : bytes * Z * Z in recv_loop buf rem count socket
      end s in
    (SocketRecv (read_len rem) :: o, s', res).
Proof.
  intros Hs. cbn [recv_loop]. unfold mbind at 1, M_bind at 1. cbn [gets].
  rewrite bool_decide_false by done. unfold mbind at 1, M_bind at 1. unfold emit.
  by destruct (_ s) as [[o s'] res].
Qed.

Lemma recv_loop_frames socket buf remaining count s :
  Forall steady socket → alive s → stream buf = ([], buf) →
  let run := recv_loop buf remaining count socket s in
  let ref := for_each (stream (buf ++ payload socket)).1 process_frame s in
  visible run.1.1 = visible ref.1.1 ∧ run.1.2 = ref.1.2 ∧ run.2 = ref.2.
Proof.
  cbn zeta. revert buf remaining count s. induction socket as [|r socket IH];
    intros buf rem count s Hst Hs Hb.
  { unfold payload. cbn [fmap list_fmap concat]. by rewrite app_nil_r, Hb. }
  apply Forall_cons in Hst as [Hr Hst]. rewrite recv_loop_alive by done.
  destruct r as [bs| |]; [|apply (IH _ rem count _ Hst Hs) in Hb|by destruct Hr].
  2:{ by destruct (recv_loop buf rem count socket s) as [[o s'] res]. }
  destruct bs as [|b0 bs]; [done|]. unfold payload. cbn [fmap list_fmap concat].
  fold (payload socket). set (bs' := b0 :: bs) in *. rewrite app_assoc, stream_app.
  destruct (drain_spec (length (buf ++ bs')) (buf ++ bs') rem count) as (rem' & count' & Hd); [done|].
  pose proof (stream_rest (buf ++ bs')) as Hrest.
  destruct (stream (buf ++ bs')) as [fs rest]. destruct Hrest as [_ Hrest]. cbn [fst snd] in Hd.
  assert ((b ← drain (length (buf ++ bs')) (buf ++ bs') rem count;
           let '(buf, rem, count) := b : bytes * Z * Z in recv_loop buf rem count socket) s =
          (for_each fs process_frame;; recv_loop rest rem' count' socket) s) as ->.
  { unfold mbind at 1, M_bind at 1. rewrite Hd. unfold mbind, M_bind.
    destruct (for_each fs process_frame s) as [[o1 s1] [[]|e]]; [|done]. cbn.
    by rewrite app_nil_r. }
  pose proof (process_frames_alive fs s Hs) as Ha. unfold final in Ha.
  destruct (stream (rest ++ payload socket)) as [fs' rest'] eqn:Es. cbn [fst].
  rewrite for_each_app. unfold mbind, M_bind.
  destruct (for_each fs process_frame s) as [[o1 s1] [[]|e]]; [|done].
  cbn [fst snd] in *. specialize (IH rest rem' count' s1 Hst Ha Hrest).
  rewrite Es in IH. cbn [fst] in IH.
  destruct (recv_loop rest rem' count' socket s1) as [[o2 s2] r2].
  destruct (for_each fs' process_frame s1) as [[o3 s3] r3]. cbn [fst snd] in *.
  destruct IH as (Ho & -> & ->). split; [|done].
  change (SocketRecv (read_len rem) :: o1 ++ o2) with ([SocketRecv (read_len rem)] ++ o1 ++ o2).
  by rewrite !visible_app, Ho.
Qed.

(** C8: The receive loop handles the messages of the byte stream one by one, in order, and
    nothing else, however the stream is cut into segments and however often [recv] times
    out between them: it behaves like a loop over the messages of the whole stream, up
    to the first exception of a handler. *)
Theorem recv_loop_ignores_segments socket s :
  Forall steady socket → alive s →
  let run := recv_loop [] (Z.of_nat OFP_HEADER_SIZE) 0 socket s in
  let ref := for_each (stream (payload socket)).1 process_frame s in
  visible run.1.1 = visible ref.1.1 ∧ run.1.2 = ref.1.2 ∧ run.2 = ref.2.
Proof. intros Hst Hs. by apply recv_loop_frames. Qed.

(** ** Messages survive the stream *)

Record raw_msg := RawMsg {
  raw_version : Z;
  raw_type : Z;
  raw_xid : option Z;
  raw_body : bytes
}.

(** A message without a transaction id gets 0. *)
Definition sent_xid (m : raw_msg) : Z := default 0 (raw_xid m).

(** [MsgBase._serialize_header] of a message whose body is in place. *)
Definition serialize (m : raw_msg) : outcome pyexn bytes :=
  hdr ← pack (zip OFP_HEADER_PACK_STR
    [raw_version m; raw_type m; Z.of_nat (OFP_HEADER_SIZE + length (raw_body m)); sent_xid m]);
  Ret (hdr ++ raw_body m).

Definition raw_fits (m : raw_msg) : Prop :=
  0 ≤ raw_version m < 256 ∧ 0 ≤ raw_type m < 256 ∧ 0 ≤ sent_xid m < 2 ^ 32 ∧
  Z.of_nat (OFP_HEADER_SIZE + length (raw_body m)) < 2 ^ 16.

Lemma serialize_header m :
  raw_fits m →
  ∃ bs, serialize m = Ret bs ∧
    header bs = Ret (raw_version m, raw_type m, Z.of_nat (length bs), sent_xid m) ∧
    length bs = (OFP_HEADER_SIZE + length (raw_body m))%nat.
Proof.
  intros (Hv & Ht & Hx & Hl). unfold serialize.
  set (fs := [raw_version m; raw_type m; _; sent_xid m]).
  destruct (pack_ok (zip OFP_HEADER_PACK_STR fs)) as [hdr Hp].
  { unfold fs, OFP_HEADER_PACK_STR. cbn [zip zip_with].
    rewrite !Forall_cons, Forall_nil. unfold in_width. cbn [fst snd].
    change (256 ^ Z.of_nat 1) with 256. change (256 ^ Z.of_nat 2) with (2 ^ 16).
    change (256 ^ Z.of_nat 4) with (2 ^ 32). lia. }
  destruct (unpack_pack OFP_HEADER_PACK_STR fs hdr (raw_body m) eq_refl Hp) as [Hu Hlen].
  change (calcsize OFP_HEADER_PACK_STR) with OFP_HEADER_SIZE in Hlen.
  exists (hdr ++ raw_body m). rewrite Hp. split; [done|].
  assert (length (hdr ++ raw_body m) = (OFP_HEADER_SIZE + length (raw_body m))%nat) as Hn
    by (rewrite length_app; lia).
  split; [|done]. unfold header. rewrite (proj2 (Nat.ltb_ge _ _)) by (rewrite Hn; lia).
  rewrite Hu. unfold fs. cbn -[Z.of_nat]. by rewrite Hn.
Qed.

Lemma header_frame_len bs v t x :
  header bs = Ret (v, t, Z.of_nat (length bs), x) → (OFP_HEADER_SIZE ≤ length bs)%nat →
  frame_len bs = length bs.
Proof.
  intros H Hl. rewrite header_value in H by done. injection H as _ _ H _.
  unfold frame_len. rewrite H. unfold clamp. case Z.ltb_spec; lia.
Qed.

Lemma stream_cons bs rest :
  frame_len bs = length bs → (OFP_HEADER_SIZE ≤ length bs)%nat →
  stream (bs ++ rest) = let '(fs, r) := stream rest in (bs :: fs, r).
Proof.
  intros Hf Hl. rewrite stream_unfold, frame_len_app, Hf by done.
  rewrite (proj2 (orb_false_iff _ _)) by (rewrite !Nat.ltb_ge, length_app; lia).
  by rewrite drop_app_length, take_app_length.
Qed.

Lemma stream_serialized ms bss :
  Forall raw_fits ms → Forall2 (λ m bs, serialize m = Ret bs) ms bss →
  stream (concat bss) = (bss, []).
Proof.
  intros Hf H. induction H as [|m bs ms bss Hm H IH]; [done|]. cbn [concat].
  apply Forall_cons in Hf as [Hm' Hf]. destruct (serialize_header m Hm') as (bs' & E & Hh & Hlen).
  rewrite Hm in E. injection E as <-.
  rewrite stream_cons; [by rewrite IH| |lia]. eapply header_frame_len; [exact Hh|lia].
Qed.

(** What the messages ask for, without the stream. *)
Definition deliver (m : raw_msg) : DM () :=
  bs ← lift (serialize m);
  r ← lift (parse_msg (raw_version m) (raw_type m) (Z.of_nat (length (bs : bytes))) (sent_xid m) bs);
  match r : option ofp_msg with Some m' => dispatch m' | None => mret tt end.

Lemma process_serialized m bs s :
  raw_fits m → serialize m = Ret bs → process_frame bs s = deliver m s.
Proof.
  intros Hm E. destruct (serialize_header m Hm) as (bs' & E' & Hh & Hlen).
  rewrite E in E'. injection E' as <-. unfold process_frame, deliver.
  rewrite Hh, E, !lift_ret_bind. unfold clamp.
  rewrite (proj2 (Z.ltb_ge _ _)); [done|]. rewrite Hlen. unfold OFP_HEADER_SIZE. lia.
Qed.

(** What a switch sends is what the controller handles: if messages whose fields fit
    the header are serialized and their bytes arrive in any segments, every message is
    parsed with its own version, type, length, transaction id and bytes, exactly once
    and in the order sent. *)
Theorem messages_survive_stream ms bss socket s :
  Forall raw_fits ms → Forall2 (λ m bs, serialize m = Ret bs) ms bss →
  Forall steady socket → payload socket = concat bss → alive s →
  let run := recv_loop [] (Z.of_nat OFP_HEADER_SIZE) 0 socket s in
  let ref := for_each ms deliver s in
  visible run.1.1 = visible ref.1.1 ∧ run.1.2 = ref.1.2 ∧ run.2 = ref.2.
Proof.
  intros Hf Hb Hst Hp Hs. cbn zeta.
  destruct (recv_loop_frames socket [] (Z.of_nat OFP_HEADER_SIZE) 0 s Hst Hs eq_refl)
    as (-> & -> & ->). cbn [app]. rewrite Hp, (stream_serialized ms bss) by done. cbn [fst].
  assert (for_each bss process_frame s = for_each ms deliver s) as ->; [|done].
  clear Hp Hs. revert s. induction Hb as [|m bs ms bss Hm Hb IH]; intros s; [done|].
  apply Forall_cons in Hf as [Hm' Hf]. cbn [for_each]. unfold mbind, M_bind.
  rewrite (process_serialized m) by done.
  destruct (deliver m s) as [[o1 s1] [[]|e]]; [|done]. by rewrite IH.
Qed.

(** ** The states of the channel *)

Inductive dp_op :=
| Receive (m : ofp_msg)
| SendTurn (sent : bool)
| EchoTurn
| Close
| AppSend (x : option Z) (msg_type : Z).

Definition operate (op : dp_op) : DM () :=
  match op with
  | Receive m => dispatch m
  | SendTurn sent => send_turn sent
  | EchoTurn => echo_turn;; mret tt
  | Close => close
  | AppSend x t => send_msg x (OutApp t);; mret tt
  end.

Definition dp_step (s : dpath) (op : dp_op) (s' : dpath) : Prop := s' = final (operate op) s.

Definition rank (st : dispatcher) : nat :=
  match st with
  | HANDSHAKE_DISPATCHER => 0
  | CONFIG_DISPATCHER => 1
  | MAIN_DISPATCHER => 2
  | DEAD_DISPATCHER => 3
  end.

(** The versions are known numbers, at least one. *)
Definition versions_ok : Prop := supported ≠ [] ∧ Forall (λ v, 0 < v) supported.

Record channel_ok (s : dpath) : Prop := {
  ch_version : ofp_version s ∈ supported;
  ch_xid : 0 ≤ xid s ≤ MAX_XID;
  ch_hello : state s = HANDSHAKE_DISPATCHER → ofp_version s = max_of supported;
  ch_fresh : state s = HANDSHAKE_DISPATCHER → dp_id s = None;
  ch_ports : is_Some (dp_id s) ↔ is_Some (ports s);
  ch_echo : Z.of_nat (length (unreplied_echo_requests s)) ≤ max_unreplied_echo_requests s + 1
}.

(** The invariant, and a state that is not before [st]. *)
Definition channel_from (st : dispatcher) (s : dpath) : Prop :=
  channel_ok s ∧ (rank st ≤ rank (state s))%nat.

Lemma xid_bound x : 0 ≤ Z.land (x + 1) MAX_XID ≤ MAX_XID.
Proof.
  unfold MAX_XID. change 0xffffffff with (Z.ones 32). rewrite Z.land_ones by lia.
  pose proof (Z.mod_pos_bound (x + 1) (2 ^ 32)). change (Z.ones 32) with (2 ^ 32 - 1). lia.
Qed.

Lemma channel_set_state st st' s :
  channel_from st s → (rank st ≤ rank st')%nat → st' ≠ HANDSHAKE_DISPATCHER →
  channel_from st (s <| state := st' |>).
Proof. intros [[] Hr] H1 H2. split; [|done]. by split. Qed.

Lemma channel_send_q st q s : channel_from st s → channel_from st (s <| send_q := q |>).
Proof. intros [[] Hr]. by split. Qed.

Lemma channel_active st b s : channel_from st s → channel_from st (s <| is_active := b |>).
Proof. intros [[] Hr]. by split. Qed.

Lemma channel_xid st s :
  channel_from st s → channel_from st (s <| xid := Z.land (xid s + 1) MAX_XID |>).
Proof. intros [[] Hr]. split; [|done]. split; try done. apply xid_bound. Qed.

Lemma channel_send st x b : preserves (channel_from st) (send_msg x b).
Proof.
  unfold send_msg, send, set_xid. preserve; auto using channel_send_q, channel_xid.
Qed.

Lemma channel_state st st' :
  (rank st ≤ rank st')%nat → st' ≠ HANDSHAKE_DISPATCHER →
  preserves (channel_from st) (set_state st').
Proof. intros. unfold set_state. preserve. by apply channel_set_state. Qed.

Lemma channel_close st : preserves (channel_from st) close.
Proof.
  unfold close, deactivate. preserve. apply channel_state; [|done]. by destruct st; cbn; lia.
Qed.

#[local] Hint Resolve channel_send channel_close : pres.

Lemma channel_ports_set st f s :
  channel_from st s → channel_from st (s <| ports ::= fmap (M := option) f |>).
Proof.
  intros [[] Hr]. split; [|done]. split; try done. cbn. by rewrite fmap_is_Some.
Qed.

Lemma channel_features st d ps s :
  channel_from st s → st ≠ HANDSHAKE_DISPATCHER →
  channel_from st (s <| dp_id := Some d |> <| ports := Some ps |>).
Proof.
  intros [[] Hr] Hst. split; [|done]. split; try done; cbn.
  intros E. exfalso. rewrite E in Hr. destruct st; cbn in Hr; try lia. done.
Qed.

(** Both assignments of the hello handler together. *)
Lemma channel_negotiated st v (k : () → DM ()) :
  (rank st ≤ 1)%nat → (∀ x, preserves (channel_from st) (k x)) →
  preserves (channel_from st) (set_version v;; x ← set_state CONFIG_DISPATCHER; k x).
Proof.
  intros Hr Hk s Hs. unfold final, set_version, assert_, mbind, M_bind.
  case_bool_decide as Hv; [|done].
  assert (channel_from st (s <| ofp_version := v |> <| state := CONFIG_DISPATCHER |>)) as H1.
  { destruct Hs as [[] _]. split; [|exact Hr]. split; cbn; done. }
  specialize (Hk () _ H1). unfold final in Hk. unfold set_state, modify, emit, mbind, M_bind.
  cbn in *. by destruct (k () _) as [[o s2] r].
Qed.

(** So for the id and the ports. *)
Lemma channel_featured st d (f : Z → odict Z P) (k : Z → DM ()) :
  st ≠ HANDSHAKE_DISPATCHER → (∀ v, preserves (channel_from st) (k v)) →
  preserves (channel_from st)
    (modify (λ s, s <| dp_id := Some d |>);;
     v ← gets ofp_version;
     modify (λ s, s <| ports := Some (f v) |>);; k v).
Proof.
  intros Hst Hk s Hs. unfold final, mbind, M_bind, modify, gets. cbn.
  pose proof (channel_features st d (f (ofp_version s)) s Hs Hst) as H1.
  specialize (Hk (ofp_version s) _ H1). unfold final in Hk. cbn in Hk.
  by destruct (k _ _) as [[o s2] r].
Qed.

Lemma channel_set_port st x : preserves (channel_from st) (set_port x).
Proof. unfold set_port. preserve. by apply channel_ports_set. Qed.

#[local] Hint Resolve channel_set_port : pres.

Lemma handlers_channel m st : Forall (preserves (channel_from st)) (handlers m st).
Proof.
  unfold handlers. destruct (m_body m); try case_decide as Hst; try apply Forall_nil_2;
    apply Forall_singleton; subst.
  - unfold hello_handler, hello_failed, set_xid. apply preserves_bind; [apply preserves_gets|].
    intros v0. cbv zeta. do 2 (match goal with |- preserves _ (if ?b then _ else _) =>
      destruct b; [preserve; by apply channel_xid|] end).
    apply channel_negotiated; [cbn; lia|]. intros _. preserve.
  - unfold switch_features_handler. apply channel_featured; [done|]. intros v. preserve.
    by apply channel_state; cbn; try lia.
  - unfold multipart_reply_handler. preserve. by apply channel_state; cbn; try lia.
  - unfold echo_request_handler. preserve.
  - unfold echo_reply_handler, acknowledge_echo_reply. preserve.
    destruct H as [[] Hr]. split; [|done]. split; try done. cbn.
    assert (∀ y l, length (remove_first y l) ≤ length l)%nat as Hl.
    { intros y l. induction l; cbn; [lia|]. case_decide; cbn; lia. }
    specialize (Hl (m_xid m) (unreplied_echo_requests s)). lia.
  - unfold port_status_handler. preserve. by apply channel_ports_set.
  - unfold error_msg_handler. preserve.
Qed.

Lemma channel_weaken st st' s :
  (rank st ≤ rank st')%nat → channel_from st' s → channel_from st s.
Proof. intros H [Hs Hr]. split; [done|]. lia. Qed.

(** An echo request that is sent is one more to be answered. *)
Lemma channel_echo st s x :
  channel_from st s →
  Z.of_nat (length (unreplied_echo_requests s)) ≤ max_unreplied_echo_requests s →
  channel_from st (s <| unreplied_echo_requests ::= λ l, l ++ [x] |>).
Proof.
  intros [[] Hr] Hl. split; [|done]. split; try done. cbn. rewrite length_app. cbn. lia.
Qed.

Lemma echo_turn_channel st : preserves (channel_from st) echo_turn.
Proof.
  unfold echo_turn. apply preserves_get_bind. intros s Hs.
  destruct (negb _); [|done]. destruct (_ && _) eqn:E.
  - apply andb_true_iff in E as [_ E%Z.leb_le].
    unfold set_xid, mbind, M_bind, modify, gets, final. cbn -[send_msg].
    pose proof (channel_echo st _ (Z.land (xid s + 1) MAX_XID) (channel_xid st s Hs) E) as H1.
    apply (channel_send st (Some (Z.land (xid s + 1) MAX_XID)) OutEchoRequest) in H1.
    unfold final in H1. cbn -[send_msg] in H1.
    by destruct (send_msg _ _ _) as [[o s1] [r|e]].
  - apply (channel_close st) in Hs. unfold final, mbind, M_bind in *.
    by destruct (close s) as [[o s1] [r|e]].
Qed.

Lemma dispatch_channel m s : channel_ok s → channel_from (state s) (final (dispatch m) s).
Proof.
  intros Hs. unfold dispatch, final, mbind, M_bind, gets, emit. cbn.
  pose proof (handlers_channel m (state s)) as Hh.
  assert (preserves (channel_from (state s)) (for_each (handlers m (state s)) id)) as Hp.
  { apply preserves_for_each. intros h Hin. rewrite Forall_forall in Hh. by apply Hh. }
  specialize (Hp s (conj Hs (le_n _))). unfold final in Hp.
  by destruct (for_each _ _ s) as [[o s1] r].
Qed.

Lemma operate_channel s op : channel_ok s → channel_from (state s) (final (operate op) s).
Proof.
  intros Hs. assert (channel_from (state s) s) as Hs' by (by split).
  destruct op; cbn [operate]; [by apply dispatch_channel|..];
    match goal with |- channel_from ?st (final ?m s) =>
      enough (preserves (channel_from st) m) by auto end.
  - unfold send_turn, send_loop_end. preserve; by apply channel_send_q.
  - apply preserves_bind; [apply echo_turn_channel|]. intros _. apply preserves_ret.
  - apply channel_close.
  - preserve.
Qed.

Definition initial (s : dpath) : Prop :=
  ∃ xid0 m, 0 ≤ xid0 ≤ MAX_XID ∧ 0 ≤ m ∧ s = new_datapath xid0 m.

(** C35: Whatever a switch sends, in any order, and whatever the other threads do: the
    phases of a connection only go forward, from handshake to configuration to main to
    dead; the version is one that every application supports, the best of them before
    the hello; transaction ids stay within 32 bits; the ports are known as soon as the
    datapath id is, and not before the hello; and no more echo requests are unanswered
    than one above the limit. *)
Theorem channel_phases s op :
  versions_ok → reachable initial dp_step s →
  channel_ok s ∧ (rank (state s) ≤ rank (state (final (operate op) s)))%nat.
Proof.
  intros [Hne Hpos] Hr. assert (channel_ok s) as Hs.
  { revert Hr. apply reachable_inv.
    - intros s0 (x & m & Hx & Hm & ->). split; cbn; try done; [by apply max_of_in|lia].
    - intros s0 op0 s1 H0 ->. by apply operate_channel. }
  split; [done|]. by apply operate_channel.
Qed.

(** ** Version negotiation *)

(** The version to use: the highest version of the switch that is not above ours, read off
    the version bitmaps if the hello has any, else off the header. *)
Definition candidate (m : ofp_msg) (elements : list (list Z)) : Z :=
  match elements with
  | [] => Z.min (m_version m) (max_of supported)
  | _ => max_of (filter (λ v, v ≤ max_of supported) (concat elements))
  end.

Definition usable_versions (m : ofp_msg) (elements : list (list Z)) : list Z :=
  match elements with
  | [] => filter (λ v, v ≤ m_version m) supported
  | _ => filter (λ v, v ∈ supported) (concat elements)
  end.

Lemma usable_supported m els v : v ∈ usable_versions m els → v ∈ supported.
Proof. unfold usable_versions. destruct els; rewrite list_elem_of_filter; by intros [? ?]. Qed.

Lemma usable_best m els :
  versions_ok → usable_versions m els ≠ [] → max_of (usable_versions m els) ∈ supported.
Proof.
  intros [_ Hpos] Hne. apply (usable_supported m els), max_of_in; [done|].
  rewrite Forall_forall in *. intros v Hv. by apply Hpos, (usable_supported m els).
Qed.

(** If the candidate is ours, it is the best usable version. *)
Lemma candidate_usable m els :
  versions_ok → candidate m els ∈ supported →
  candidate m els ∈ usable_versions m els ∧
  max_of (usable_versions m els) = candidate m els.
Proof.
  intros [Hne Hpos] Hc. pose proof Hpos as Hpos'. rewrite Forall_forall in Hpos'.
  assert (candidate m els ∈ usable_versions m els) as Hin.
  { unfold candidate, usable_versions in *. destruct els as [|e els];
      apply list_elem_of_filter; (split; [|try done]); [lia|done|].
    by apply Hpos', max_of_pos, list_elem_of_filter in Hc as [_ ?]. }
  split; [done|]. apply max_of_unique; [done| |].
  - intros w Hw. pose proof (usable_supported m els w Hw) as Hs. apply max_of_ge in Hs.
    unfold candidate, usable_versions in *. destruct els as [|e els];
      apply list_elem_of_filter in Hw as [Hw1 Hw2]; [lia|].
    apply max_of_ge. by apply list_elem_of_filter.
  - rewrite Forall_forall. intros w Hw. by apply Hpos', (usable_supported m els).
Qed.

Lemma send_msg_run x b q s :
  send_q s = Some q →
  let x' := default (Z.land (xid s + 1) MAX_XID) x in
  send_msg x b s =
    ([], (match x with None => s <| xid := x' |> | Some _ => s end)
           <| send_q := Some (q ++ [OutMsg (ofp_version s) (Some x') b]) |>, Ret true).
Proof.
  intros Hq. unfold send_msg, set_xid, send, mbind, M_bind, modify, gets.
  destruct x as [x|]; cbn; by rewrite Hq.
Qed.

(** The tests of the hello handler come down to one. *)
Definition hello_fails (m : ofp_msg) (els : list (list Z)) : bool :=
  let negotiated := filter (λ v, v ≤ max_of supported) (concat els) in
  let usable := usable_versions m els in
  match els with
  | [] => nonempty usable && negb (max_of usable =? Z.min (m_version m) (max_of supported))
  | _ => nonempty negotiated && (negb (nonempty usable)
           || negb (max_of negotiated =? max_of usable))
  end.

Lemma hello_tests m els :
  versions_ok →
  hello_fails m els || negb (nonempty (usable_versions m els))
    = bool_decide (candidate m els ∉ supported).
Proof.
  intros Hv. case_bool_decide as Hc; rewrite orb_comm.
  - destruct (nonempty (usable_versions m els)) eqn:Hu; [|done]. cbn [negb orb].
    pose proof Hu as Hne. apply nonempty_true in Hne.
    pose proof (usable_best m els Hv Hne) as Hbest.
    unfold hello_fails. destruct els as [|e els]; rewrite Hu; cbn [andb negb orb].
    + apply negb_true_iff, Z.eqb_neq. intros E. apply Hc. unfold candidate. by rewrite <- E.
    + apply andb_true_iff. split.
      * apply nonempty_true. intros E. destruct (usable_versions m (e :: els)) as [|w l] eqn:Ew; [done|].
        assert (w ∈ filter (λ v, v ≤ max_of supported) (concat (e :: els))) as Hw; [|rewrite E in Hw; by apply not_elem_of_nil in Hw].
        assert (w ∈ usable_versions m (e :: els)) as Hw by (rewrite Ew; apply list_elem_of_here).
        apply list_elem_of_filter in Hw as [Hs Hw]. apply list_elem_of_filter.
        split; [by apply max_of_ge|done].
      * apply negb_true_iff, Z.eqb_neq. intros E. apply Hc. unfold candidate. by rewrite E.
  - assert (candidate m els ∈ supported) as Hs.
    { by destruct (decide (candidate m els ∈ supported)). }
    destruct (candidate_usable m els Hv Hs) as [Hin Hmax].
    assert (nonempty (usable_versions m els) = true) as Hu.
    { apply nonempty_true. intros E. rewrite E in Hin. by apply not_elem_of_nil in Hin. }
    rewrite Hu. cbn [negb orb]. unfold hello_fails. destruct els as [|e els]; rewrite Hu, Hmax;
      cbn [andb negb orb]; [|apply andb_false_intro2]; apply negb_false_iff, Z.eqb_eq; done.
Qed.

Lemma hello_handler_unfold m els s :
  ofp_version s = max_of supported →
  hello_handler m els s =
    (if hello_fails m els then hello_failed
     else if negb (nonempty (usable_versions m els)) then hello_failed
     else set_version (max_of (usable_versions m els));;
          set_state CONFIG_DISPATCHER;;
          send_msg None OutFeaturesRequest;; mret tt) s.
Proof.
  intros Hv. unfold hello_handler. rewrite gets_bind, Hv. by destruct els.
Qed.

Lemma hello_run m els s q :
  versions_ok → ofp_version s = max_of supported → send_q s = Some q →
  let x := Z.land (xid s + 1) MAX_XID in
  let v := candidate m els in
  hello_handler m els s =
    if decide (v ∈ supported) then
      ([StateChange CONFIG_DISPATCHER],
       s <| ofp_version := v |> <| state := CONFIG_DISPATCHER |> <| xid := x |>
         <| send_q := Some (q ++ [OutMsg v (Some x) OutFeaturesRequest]) |>, Ret tt)
    else
      ([], s <| xid := x |>, Raise TypeError).
Proof.
  intros Hok Hv Hq. cbn zeta. rewrite hello_handler_unfold by done.
  pose proof (hello_tests m els Hok) as Ht.
  destruct (decide (candidate m els ∈ supported)) as [Hc|Hc].
  - rewrite bool_decide_false in Ht by auto. apply orb_false_iff in Ht as [-> ->].
    destruct (candidate_usable m els Hok Hc) as [_ ->].
    unfold set_version, assert_, set_state, mbind, M_bind, modify, emit.
    rewrite bool_decide_true by done. cbn -[send_msg].
    erewrite send_msg_run by exact Hq. done.
  - rewrite bool_decide_true in Ht by done. apply orb_true_iff in Ht as [-> | ->]; [done|].
    by destruct (hello_fails m els).
Qed.

(** ** The handshake *)

Lemma dispatch_run m s :
  dispatch m s = let '(o, s', r) := for_each (handlers m (state s)) id s in
                 (MsgEvent m (state s) :: o, s', r).
Proof.
  unfold dispatch. rewrite gets_bind. unfold mbind, M_bind, emit, gets.
  by destruct (for_each _ id s) as [[o s'] r].
Qed.

(** A state with one handler. *)
Lemma dispatch_one m s h :
  handlers m (state s) = [h] →
  dispatch m s = let '(o, s', r) := h s in (MsgEvent m (state s) :: o, s', r).
Proof.
  intros Hh. rewrite dispatch_run, Hh. cbn [for_each]. unfold id, mbind, M_bind.
  destruct (h s) as [[o s'] [[]|e]]; [|done]. cbn. by rewrite app_nil_r.
Qed.

(** C36: Version negotiation: a hello moves the datapath to configuration, and a features
    request is queued, exactly when the highest version of the switch that is not above
    ours is one we support, and that version is used; otherwise the handler raises
    [TypeError], which leaves the receive loop, with nothing queued and the phase as it was. *)
Theorem hello_negotiates m els s q :
  versions_ok → ofp_version s = max_of supported → send_q s = Some q →
  state s = HANDSHAKE_DISPATCHER → m_body m = OFPHello els →
  let x := Z.land (xid s + 1) MAX_XID in
  let v := candidate m els in
  dispatch m s =
    if decide (v ∈ supported) then
      ([MsgEvent m HANDSHAKE_DISPATCHER; StateChange CONFIG_DISPATCHER],
       s <| xid := x |> <| send_q := Some (q ++ [OutMsg v (Some x) OutFeaturesRequest]) |>
         <| ofp_version := v |> <| state := CONFIG_DISPATCHER |>, Ret tt)
    else ([MsgEvent m HANDSHAKE_DISPATCHER], s <| xid := x |>, Raise TypeError).
Proof.
  intros Hok Hv Hq Hs Hm. cbn zeta.
  rewrite (dispatch_one m s (hello_handler m els)) by (unfold handlers; by rewrite Hm, Hs).
  rewrite (hello_run m els s q Hok Hv Hq), Hs. by case_decide.
Qed.

(** The ports after those of a reply are entered. *)
Definition learn (body : list P) (ps : odict Z P) : odict Z P :=
  foldl (λ ps x, od_set (port_no x) x ps) ps body.

Lemma set_port_run x ps s :
  ports s = Some ps → set_port x s = ([], s <| ports := Some (od_set (port_no x) x ps) |>, Ret tt).
Proof.
  intros Hp. unfold set_port. rewrite gets_bind, Hp. cbn. destruct s. cbn in *. by subst.
Qed.

Lemma set_ports_run body ps s :
  ports s = Some ps →
  for_each body set_port s = ([], s <| ports := Some (learn body ps) |>, Ret tt).
Proof.
  revert ps s. induction body as [|x body IH]; intros ps s Hp.
  { cbn. rewrite <- Hp. by destruct s. }
  cbn [for_each]. unfold mbind, M_bind. rewrite (set_port_run x ps s Hp).
  by rewrite (IH (od_set (port_no x) x ps)).
Qed.

(** A part of the port description. *)
Definition port_desc (part : Z * list P) : msg_body := OFPPortDescStatsReply part.1 part.2.

Definition more (part : Z * list P) : Prop := Z.land part.1 OFPMPF_REPLY_MORE ≠ 0.

Lemma multipart_run fl body ps s :
  ports s = Some ps → state s = CONFIG_DISPATCHER →
  ∃ o, multipart_reply_handler fl body s =
    (o, s <| ports := Some (learn body ps) |>
          <| state := if Z.land fl OFPMPF_REPLY_MORE =? 0 then MAIN_DISPATCHER
                      else CONFIG_DISPATCHER |>, Ret tt).
Proof.
  intros Hp Hs. unfold multipart_reply_handler, mbind, M_bind.
  rewrite (set_ports_run body ps s Hp). destruct (Z.land fl OFPMPF_REPLY_MORE =? 0); cbn.
  - eexists. unfold set_state, mbind, M_bind, modify, emit. done.
  - eexists. rewrite <- Hs. by destruct s.
Qed.

Lemma port_desc_parts v parts x last ps s :
  ports s = Some ps → state s = CONFIG_DISPATCHER → Forall more parts → ¬ more last →
  ∃ o, for_each ((λ p, OfpMsg v x (port_desc p)) <$> (parts ++ [last])) dispatch s =
    (o, s <| ports := Some (learn (concat (snd <$> (parts ++ [last]))) ps) |>
          <| state := MAIN_DISPATCHER |>, Ret tt).
Proof.
  revert ps s. induction parts as [|p parts IH]; intros ps s Hp Hs Hm Hl.
  - cbn [app fmap list_fmap for_each concat]. unfold mbind, M_bind.
    rewrite (dispatch_one _ s (multipart_reply_handler last.1 last.2)) by (cbn; by rewrite Hs).
    destruct (multipart_run last.1 last.2 ps s Hp Hs) as [o ->].
    rewrite app_nil_r. unfold more in Hl. apply dec_stable in Hl.
    rewrite (proj2 (Z.eqb_eq _ _) Hl).
    eexists. done.
  - apply Forall_cons in Hm as [H1 Hm]. cbn [app fmap list_fmap for_each concat].
    unfold mbind, M_bind.
    rewrite (dispatch_one _ s (multipart_reply_handler p.1 p.2)) by (cbn; by rewrite Hs).
    destruct (multipart_run p.1 p.2 ps s Hp Hs) as [o1 ->].
    rewrite (proj2 (Z.eqb_neq _ _)) by exact H1.
    destruct (IH (learn p.2 ps) (s <| ports := Some (learn p.2 ps) |>
                                   <| state := CONFIG_DISPATCHER |>)) as [o2 E]; [done..|].
    cbn [fmap list_fmap] in E. rewrite E. eexists. unfold learn. rewrite foldl_app.
    by destruct s.
Qed.

(** A hello whose version is acceptable. *)
Lemma hello_accepts m els s q :
  versions_ok → ofp_version s = max_of supported → send_q s = Some q →
  candidate m els ∈ supported →
  ∃ o s', hello_handler m els s = (o, s', Ret tt) ∧ state s' = CONFIG_DISPATCHER ∧
    ofp_version s' = candidate m els ∧
    send_q s' = Some (q ++ [OutMsg (candidate m els) (Some (Z.land (xid s + 1) MAX_XID))
                              OutFeaturesRequest]).
Proof.
  intros Hok Hv Hq Hc. rewrite (hello_run m els s q Hok Hv Hq), decide_True by done.
  by do 2 eexists.
Qed.

Lemma features_run d ps s q :
  send_q s = Some q →
  ∃ o s', switch_features_handler d ps s = (o, s', Ret tt) ∧
    state s' = (if ofp_version s <? 4 then MAIN_DISPATCHER else state s) ∧
    ofp_version s' = ofp_version s ∧ dp_id s' = Some d ∧
    ports s' = Some (if ofp_version s <? 4 then ps else []).
Proof.
  intros Hq. unfold switch_features_handler, modify, gets, mbind, M_bind. cbn -[send_msg].
  destruct (ofp_version s <? 4); [by do 2 eexists|].
  erewrite send_msg_run by exact Hq. by do 2 eexists.
Qed.

(** The handshake completes: a hello whose best version [v] we support, then the
    features reply, then for OpenFlow 1.3 and later the parts of the port description,
    take a new connection to the main phase, with the negotiated version, the id of the
    switch and every port it described. *)
Theorem handshake_completes m els x1 x2 d ps parts last s q :
  versions_ok → ofp_version s = max_of supported → send_q s = Some q →
  state s = HANDSHAKE_DISPATCHER → m_body m = OFPHello els →
  candidate m els ∈ supported → Forall more parts → ¬ more last →
  let v := candidate m els in
  let described := (λ p, OfpMsg v x2 (port_desc p)) <$> (parts ++ [last]) in
  let run := for_each (m :: OfpMsg v x1 (OFPSwitchFeatures d ps) ::
                       if v <? 4 then [] else described) dispatch s in
  run.2 = Ret tt ∧ state run.1.2 = MAIN_DISPATCHER ∧ ofp_version run.1.2 = v ∧
  dp_id run.1.2 = Some d ∧
  ports run.1.2 = Some (if v <? 4 then ps else learn (concat (snd <$> (parts ++ [last]))) []).
Proof.
  intros Hok Hv Hq Hs Hm Hc Hp Hl v described run.
  enough (∃ o s', run = (o, s', Ret tt) ∧ state s' = MAIN_DISPATCHER ∧ ofp_version s' = v ∧
    dp_id s' = Some d ∧
    ports s' = Some (if v <? 4 then ps else learn (concat (snd <$> (parts ++ [last]))) []))
    as (o & s' & -> & ?) by done.
  unfold run. cbn [for_each]. unfold mbind, M_bind.
  rewrite (dispatch_one m s (hello_handler m els)) by (unfold handlers; by rewrite Hm, Hs).
  destruct (hello_accepts m els s q Hok Hv Hq Hc) as (o & s1 & -> & Hs1 & Hv1 & Hq1).
  fold v in Hv1.
  rewrite (dispatch_one _ s1 (switch_features_handler d ps)) by (cbn; by rewrite Hs1).
  destruct (features_run d ps s1 _ Hq1) as (o2 & s2 & -> & Hs2 & Hv2 & Hd2 & Hp2).
  rewrite Hv1 in *. destruct (v <? 4).
  - by do 2 eexists.
  - rewrite Hs1 in Hs2. destruct (port_desc_parts v parts x2 last _ _ Hp2 Hs2 Hp Hl) as [o3 E].
    fold described in E. rewrite E. by do 2 eexists.
Qed.

(** ** Closing *)

Lemma close_run s :
  ∃ o, close s = (o, s <| state := DEAD_DISPATCHER |>, Ret tt) ∧
       (is_active s = false → SocketClose ∈ o).
Proof.
  destruct s as [st d ps v x u m q []], st; eexists; (split; [reflexivity|]); intros [=];
    repeat first [apply list_elem_of_here | apply list_elem_of_further].
Qed.

(** ** Echo requests *)

(** [_echo_request_loop] with a switch that answers a request before the next one is due,
    or does not. *)
Fixpoint echo_loop (answers : list bool) : DM bool :=
  match answers with
  | [] => mret true
  | answered :: answers =>
      go ← echo_turn;
      if (go : bool) then
        x ← gets xid;
        when answered (acknowledge_echo_reply x);;
        echo_loop answers
      else mret false
  end.

Lemma echo_turn_run s q :
  send_q s = Some q → max_unreplied_echo_requests s ≠ 0 →
  Z.of_nat (length (unreplied_echo_requests s)) ≤ max_unreplied_echo_requests s →
  let x := Z.land (xid s + 1) MAX_XID in
  echo_turn s =
    ([], s <| xid := x |> <| unreplied_echo_requests ::= λ l, l ++ [x] |>
           <| send_q := Some (q ++ [OutMsg (ofp_version s) (Some x) OutEchoRequest]) |>, Ret true).
Proof.
  intros Hq Hm Hl. unfold echo_turn, set_xid, mbind, M_bind, get_st.
  rewrite (proj2 (Z.eqb_neq _ _) Hm), (proj2 (Z.leb_le _ _) Hl), Hq.
  cbn -[Z.land send_msg]. by erewrite send_msg_run by exact Hq.
Qed.

Lemma echo_turn_closes s :
  max_unreplied_echo_requests s ≠ 0 →
  max_unreplied_echo_requests s < Z.of_nat (length (unreplied_echo_requests s)) →
  result echo_turn s = Ret false ∧ state (final echo_turn s) = DEAD_DISPATCHER.
Proof.
  intros Hm Hl. unfold echo_turn, result, final, mbind, M_bind, get_st.
  rewrite (proj2 (Z.eqb_neq _ _) Hm), (proj2 (Z.leb_gt _ _) Hl), andb_false_r. cbv beta iota delta [negb].
  by destruct (close_run s) as (o & -> & _).
Qed.

(** Requests pile up when nobody answers. *)
Lemma echo_loop_silent n more s q :
  send_q s = Some q → max_unreplied_echo_requests s ≠ 0 →
  Z.of_nat (length (unreplied_echo_requests s) + n) ≤ max_unreplied_echo_requests s + 1 →
  ∃ o s' q', state s' = state s ∧ send_q s' = Some q' ∧
    max_unreplied_echo_requests s' = max_unreplied_echo_requests s ∧
    length (unreplied_echo_requests s') = (length (unreplied_echo_requests s) + n)%nat ∧
    echo_loop (replicate n false ++ more) s =
      (let '(o', s2, r) := echo_loop more s' in (o ++ o', s2, r)).
Proof.
  revert s q. induction n as [|n IH]; intros s q Hq Hm Hl.
  { exists [], s, q. do 4 (split; [lia || done|]). cbn [replicate app].
    by destruct (echo_loop more s) as [[? ?] ?]. }
  cbn [replicate app echo_loop].
  rewrite (run_bind _ _ _ _ _ _ (echo_turn_run s q Hq Hm ltac:(lia))). set (s1 := _ <| send_q := _ |>).
  assert (length (unreplied_echo_requests s1) = S (length (unreplied_echo_requests s))) as Hl1.
  { unfold s1. cbn. rewrite length_app. cbn. lia. }
  destruct (IH s1 _ eq_refl Hm) as (o & s' & q' & Hs' & Hq' & Hm' & Hl' & E).
  { change (max_unreplied_echo_requests s1) with (max_unreplied_echo_requests s). lia. }
  exists o, s', q'. do 4 (split; [done || lia|]). unfold when. rewrite gets_bind, ret_bind, E.
  by destruct (echo_loop more s') as [[? ?] ?].
Qed.

Lemma echo_loop_answered n s q :
  send_q s = Some q → 0 < max_unreplied_echo_requests s → unreplied_echo_requests s = [] →
  ∃ o s', echo_loop (replicate n true) s = (o, s', Ret true) ∧ state s' = state s ∧
    unreplied_echo_requests s' = [].
Proof.
  revert s q. induction n as [|n IH]; intros s q Hq Hm Hu; [by exists [], s|].
  cbn [replicate echo_loop]. unfold mbind, M_bind.
  rewrite (echo_turn_run s q Hq) by (rewrite ?Hu; cbn; lia).
  unfold when, acknowledge_echo_reply, modify, gets.
  match goal with |- context [echo_loop (replicate n true) ?s] => set (s1 := s) end.
  destruct (IH s1 _ eq_refl) as (o & s' & E & Hs' & Hu'); [done| |].
  { unfold s1. cbn -[Z.land]. rewrite Hu. cbn -[Z.land]. by rewrite decide_True. }
  rewrite E. by exists o, s'.
Qed.

(** The echo requests watch the switch: as long as each one is answered the
    connection stays, for ever; a switch that answers none is allowed one more than the
    configured number, and the next turn closes the connection. *)
Theorem echo_watchdog s q :
  send_q s = Some q → 0 < max_unreplied_echo_requests s → unreplied_echo_requests s = [] →
  let limit := Z.to_nat (max_unreplied_echo_requests s + 1) in
  (∀ n, result (echo_loop (replicate n true)) s = Ret true ∧
        state (final (echo_loop (replicate n true)) s) = state s) ∧
  (∀ n, (n ≤ limit)%nat → result (echo_loop (replicate n false)) s = Ret true ∧
        state (final (echo_loop (replicate n false)) s) = state s) ∧
  result (echo_loop (replicate (S limit) false)) s = Ret false ∧
  state (final (echo_loop (replicate (S limit) false)) s) = DEAD_DISPATCHER.
Proof.
  intros Hq Hm Hu limit. unfold result, final. split; [|split].
  - intros n. by destruct (echo_loop_answered n s q Hq Hm Hu) as (o & s' & -> & ? & _).
  - intros n Hn. destruct (echo_loop_silent n [] s q Hq) as (o & s' & q' & Hs & _ & _ & _ & E);
      [lia|rewrite Hu; cbn; lia|]. rewrite app_nil_r in E. by rewrite E.
  - destruct (echo_loop_silent limit [false] s q Hq) as (o & s' & q' & _ & Hq' & Hm' & Hl & E);
      [lia|rewrite Hu; cbn; lia|]. rewrite Hu in Hl. cbn in Hl.
    change (S limit) with (1 + limit)%nat. rewrite Nat.add_comm, replicate_add.
    change (replicate 1 false) with [false]. rewrite E. cbn [echo_loop].
    destruct (echo_turn_closes s') as [Hr Hs]; [lia..|]. unfold result, final in Hr, Hs.
    unfold mbind, M_bind. destruct (echo_turn s') as [[o1 s1] r1]. cbn in Hr, Hs. by subst.
Qed.

(** ** The end of a connection *)

Lemma send_msg_ret x b s : ∃ o s' r, send_msg x b s = (o, s', Ret r).
Proof. destruct x, s as [? ? ? ? ? ? ? [q|] ?]; do 3 eexists; reflexivity. Qed.

Lemma cleanup_run s :
  ∃ o, cleanup s = (o, s <| state := DEAD_DISPATCHER |> <| send_q := None |>
                         <| is_active := false |>, Ret tt) ∧ SocketClose ∈ o.
Proof.
  destruct s as [[] d ps v x u m [q|] []]; eexists; (split; [reflexivity|]);
    repeat first [apply list_elem_of_here | apply list_elem_of_further].
Qed.

(** However a connection went, when its threads end nothing of it is left: the phase is
    dead, so that observers are told, the send queue is gone, the datapath is marked
    inactive and the socket is closed. *)
Theorem connection_released socket s :
  let s' := final (serve socket) s in
  state s' = DEAD_DISPATCHER ∧ send_q s' = None ∧ is_active s' = false ∧
  SocketClose ∈ outputs (serve socket) s.
Proof.
  cbn zeta. enough (wp (serve socket) s (λ o s' _, state s' = DEAD_DISPATCHER ∧
    send_q s' = None ∧ is_active s' = false ∧ SocketClose ∈ o)) by done.
  unfold serve. wp_step. destruct (send_msg_ret None OutHello s) as (o1 & s1 & b & E).
  apply (wp_eq _ _ _ _ E). cbn [fst snd]. wp_step. apply wp_try. wp_step.
  destruct (recv_loop [] (Z.of_nat OFP_HEADER_SIZE) 0 socket s1) as [[o2 s2] r2] eqn:E2.
  apply (wp_eq _ _ _ _ E2). cbn [fst snd].
  destruct r2 as [[]|e]; wp_step; wp_step; destruct (cleanup_run s2) as (o & E3 & Hin);
    apply (wp_eq _ _ _ _ E3); cbn [fst snd]; wp_step; cbn; rewrite ?app_nil_r;
    (split_and!; [done..|]); rewrite !elem_of_app; auto.
Qed.

(** ** Two weak points *)

(** The constants of OpenFlow 1.0 have no [OFPET_EXPERIMENTER]: an error message from such
    a switch makes the handler raise, which ends the receive loop. *)
Lemma openflow10_error_message m type code data s :
  m_body m = OFPErrorMsg type code data → alive s → ofp_version s = 1 →
  dispatch m s = ([MsgEvent m (state s)], s, Raise AttributeError).
Proof.
  intros Hm Hs Hv. rewrite (dispatch_one m s (error_msg_handler type code data)).
  2:{ unfold handlers. rewrite Hm. by rewrite decide_True. }
  unfold error_msg_handler. rewrite gets_bind, Hv. done.
Qed.

(** A port description that no features reply came before: the main phase is reached by a
    datapath without an id. *)
Lemma port_desc_before_features m s :
  m_body m = OFPPortDescStatsReply 0 [] → state s = CONFIG_DISPATCHER → dp_id s = None →
  state (final (dispatch m) s) = MAIN_DISPATCHER ∧ dp_id (final (dispatch m) s) = None.
Proof.
  intros Hm Hs Hd. unfold final.
  by rewrite (dispatch_one m s (multipart_reply_handler 0 [])) by (unfold handlers; by rewrite Hm, Hs).
Qed.
End datapath.

(** ** The theorems at work *)

(** A switch of version 4 whose messages of type 0 are hellos. *)
Definition example_parsers (version : Z)
  : option (Z → Z → Z → bytes → outcome pyexn (ofp_msg (P := Z))) :=
  if version =? 4 then
    Some (λ msg_type _ x _,
      Ret (OfpMsg 4 x (if msg_type =? 0 then OFPHello [] else OtherMsg msg_type)))
  else None.

Definition example_datapath : dpath (P := Z) := new_datapath [1; 4] 7 2.

Definition example_stream : list raw_msg := [RawMsg 4 0 (Some 1) []; RawMsg 4 10 None [5; 6]].

Definition hello_bytes : bytes := [4; 0; 0; 8; 0; 0; 0; 1].
Definition packet_bytes : bytes := [4; 10; 0; 10; 0; 0; 0; 0; 5; 6].

Lemma recv_loop_ignores_segments_witness :
  let socket := [Bytes (take 3 hello_bytes); Timeout; Bytes (drop 3 hello_bytes ++ packet_bytes)] in
  (stream (payload socket)).1 = [hello_bytes; packet_bytes] ∧
  state (recv_loop id [1; 4] example_parsers [] 8 0 socket example_datapath).1.2 = CONFIG_DISPATCHER.
Proof.
  split; [reflexivity|].
  pose proof (recv_loop_ignores_segments id [1; 4] example_parsers
    [Bytes (take 3 hello_bytes); Timeout; Bytes (drop 3 hello_bytes ++ packet_bytes)]
    example_datapath) as H.
  destruct H as (_ & H & _); [repeat constructor; discriminate|discriminate|].
  cbv zeta. etransitivity; [exact (f_equal state H)|reflexivity].
Defined.

Lemma messages_survive_stream_witness :
  let socket := [Bytes (take 11 (hello_bytes ++ packet_bytes)); Timeout;
                 Bytes (drop 11 (hello_bytes ++ packet_bytes))] in
  (recv_loop id [1; 4] example_parsers [] 8 0 socket example_datapath).2 = Ret tt.
Proof.
  pose proof (messages_survive_stream id [1; 4] example_parsers example_stream
    [hello_bytes; packet_bytes]
    [Bytes (take 11 (hello_bytes ++ packet_bytes)); Timeout;
     Bytes (drop 11 (hello_bytes ++ packet_bytes))] example_datapath) as H.
  destruct H as (_ & _ & H); [repeat (constructor; cbn; try lia)|repeat constructor|
    repeat constructor; discriminate|reflexivity|discriminate|].
  cbv zeta. etransitivity; [exact H|reflexivity].
Defined.

Lemma channel_phases_witness :
  channel_ok [1; 4] (final (operate id [1; 4] (Receive (OfpMsg 4 9 (OFPHello [])))) example_datapath).
Proof.
  assert (versions_ok [1; 4]) as Hv by (split; [discriminate|repeat constructor]).
  destruct (channel_phases id [1; 4]
    (final (operate id [1; 4] (Receive (OfpMsg 4 9 (OFPHello [])))) example_datapath) EchoTurn Hv)
    as [H _]; [|exact H].
  eapply reach_step; [apply reach_init; by exists 7, 2|reflexivity].
Defined.

(** A switch with whom no version is agreed on is not sent the error: the connection ends with the
    exception. *)
Example hello_mismatch_ends_connection :
  let run := serve id [1; 5] example_parsers [Bytes hello_bytes] (new_datapath [1; 5] 7 2) in
  run.2 = Raise TypeError ∧ state run.1.2 = DEAD_DISPATCHER.
Proof. vm_compute. by split. Qed.

Lemma hello_negotiates_witness :
  state (final (dispatch id [1; 4] (OfpMsg 5 9 (OFPHello [[1; 3]]))) example_datapath)
    = HANDSHAKE_DISPATCHER.
Proof.
  unfold final. rewrite (hello_negotiates id [1; 4] _ [[1; 3]] example_datapath []);
    [reflexivity|split; [discriminate|repeat constructor]|reflexivity..].
Defined.

Lemma handshake_completes_witness :
  let run := for_each [OfpMsg 5 9 (OFPHello [[1; 4; 5]]);
                       OfpMsg 4 10 (OFPSwitchFeatures 99 []);
                       OfpMsg 4 11 (OFPPortDescStatsReply 1 [3; 2]);
                       OfpMsg 4 11 (OFPPortDescStatsReply 0 [7])]
               (dispatch id [1; 4]) example_datapath in
  ports run.1.2 = Some [(3, 3); (2, 2); (7, 7)].
Proof.
  assert (versions_ok [1; 4]) as Hv by (split; [discriminate|repeat constructor]).
  destruct (handshake_completes id [1; 4] (OfpMsg 5 9 (OFPHello [[1; 4; 5]])) [[1; 4; 5]] 10 11 99 []
    [(1, [3; 2])] (0, [7]) example_datapath [] Hv) as (_ & _ & _ & _ & H);
    [reflexivity..|set_solver|by apply Forall_singleton|by intros H; apply H|exact H].
Defined.

Lemma echo_watchdog_witness :
  state (final (echo_loop [false; false; false; false]) example_datapath) = DEAD_DISPATCHER.
Proof.
  destruct (echo_watchdog example_datapath []) as (_ & _ & _ & H);
    [reflexivity..|exact H].
Defined.
