(* ===== verification/Hello.v ===== *)
(** * Hello messages

    Models the parser of hello messages of OpenFlow 1.3 ([OFPHello.parser] and
    [OFPHelloElemVersionBitmap.parser] of [ryu/ofproto/ofproto_v1_3_parser.py]; the classes
    of 1.4 and 1.5 are copies): the elements it finds become the [elements] of the message
    [Datapath.hello_handler] negotiates the version from.

    The loop over the elements has no bound of its own: it runs with fuel, and
    [hello_fuel_suffices] shows that the length of the message is enough fuel unless the
    loop does not end at all. *)

From stdpp Require Import base list.
From Stdlib Require Import ZArith Lia.
From S2P Require Import Prelude Struct.

Open Scope Z_scope.

Definition OFP_HELLO_HEADER_SIZE : Z := 8.
Definition OFP_HELLO_ELEM_HEADER_PACK_STR : list nat := [2; 2]%nat.
Definition OFPHET_VERSIONBITMAP : Z := 1.
Definition OFP_HELLO_ELEM_VERSIONBITMAP_HEADER_PACK_STR : list nat := [2; 2]%nat.
Definition OFP_HELLO_ELEM_VERSIONBITMAP_HEADER_SIZE : Z := 4.

(** [struct.unpack_from]; the offsets here are never negative. *)
Definition unpack_from (fmt : list nat) (buf : bytes) (offset : Z) : outcome pyexn (list Z) :=
  unpack fmt (drop (Z.to_nat offset) buf).

(** An element header. *)
Definition unpack_pair (fmt : list nat) (buf : bytes) (offset : Z) : outcome pyexn (Z * Z) :=
  zs ← unpack_from fmt buf offset;
  match zs with [a; b] => Ret (a, b) | _ => Raise ValueError end.

(** ** [OFPHelloElemVersionBitmap] *)

(** The loop over the words; its counter [bitmaps_len] falls by 4. *)
Fixpoint read_bitmaps (fuel : nat) (buf : bytes) (offset bitmaps_len : Z)
  : outcome pyexn (list Z) :=
  if bitmaps_len <? 4 then Ret [] else
  match fuel with
  | O => Raise OutOfFuel
  | S fuel =>
      zs ← unpack_from [4%nat] buf offset;
      rest ← read_bitmaps fuel buf (offset + 4) (bitmaps_len - 4);
      Ret (hd 0 zs :: rest)
  end.

Definition bitmap_versions (i : nat) (bitmap : Z) : list Z :=
  (λ shift, Z.of_nat i * 32 + shift) <$>
    filter (λ shift, Is_true (Z.testbit bitmap shift)) (seqZ 0 31).

Definition versions (bitmaps : list Z) : list Z := concat (imap bitmap_versions bitmaps).

Definition parse_bitmap (buf : bytes) (offset : Z) : outcome pyexn (list Z) :=
  h ← unpack_pair OFP_HELLO_ELEM_VERSIONBITMAP_HEADER_PACK_STR buf offset;
  let '(type, len) := h : Z * Z in
  if negb (type =? OFPHET_VERSIONBITMAP) then Raise AssertionError else
  let bitmaps_len := len - OFP_HELLO_ELEM_VERSIONBITMAP_HEADER_SIZE in
  bitmaps ← read_bitmaps (Z.to_nat len) buf
    (offset + OFP_HELLO_ELEM_VERSIONBITMAP_HEADER_SIZE) bitmaps_len;
  Ret (versions bitmaps).

(** ** [OFPHello] *)

(** The versions of the bitmap elements from [offset] on. *)
Fixpoint parse_elements (fuel : nat) (buf : bytes) (msg_len offset : Z)
  : outcome pyexn (list (list Z)) :=
  if msg_len <=? offset then Ret [] else
  match fuel with
  | O => Raise OutOfFuel
  | S fuel =>
      h ← unpack_pair OFP_HELLO_ELEM_HEADER_PACK_STR buf offset;
      let '(type, len) := h : Z * Z in
      elem ← (if type =? OFPHET_VERSIONBITMAP
              then v ← parse_bitmap buf offset; Ret [v] else Ret []);
      rest ← parse_elements fuel buf msg_len (offset + len);
      Ret ((elem : list (list Z)) ++ rest)
  end.

Definition hello_parser (fuel : nat) (buf : bytes) (msg_len : Z) : outcome pyexn (list (list Z)) :=
  parse_elements fuel buf msg_len OFP_HELLO_HEADER_SIZE.

(** ** Hello messages as OpenFlow defines them *)

(** Elements: the words of a version bitmap and its padding, or another type. *)
Inductive element :=
| VersionBitmap (bitmaps : list Z) (padding : bytes)
| OtherElement (type : Z) (body : bytes).

Definition element_type (e : element) : Z :=
  match e with VersionBitmap _ _ => OFPHET_VERSIONBITMAP | OtherElement t _ => t end.

Definition element_body (e : element) : bytes :=
  match e with
  | VersionBitmap bms padding => concat (be_bytes 4 <$> bms) ++ padding
  | OtherElement _ body => body
  end.

Definition element_len (e : element) : Z := 4 + Z.of_nat (length (element_body e)).

Definition encode_element (e : element) : bytes :=
  be_bytes 2 (element_type e) ++ be_bytes 2 (element_len e) ++ element_body e.

Definition encode (es : list element) : bytes := concat (encode_element <$> es).

Definition element_fits (e : element) : Prop :=
  0 ≤ element_type e < 2 ^ 16 ∧ element_len e < 2 ^ 16 ∧
  match e with
  | VersionBitmap bms padding => Forall (λ b, 0 ≤ b < 2 ^ 32) bms ∧ (length padding < 4)%nat
  | OtherElement t _ => t ≠ OFPHET_VERSIONBITMAP
  end.

Definition element_versions (e : element) : option (list Z) :=
  match e with VersionBitmap bms _ => Some (versions bms) | OtherElement _ _ => None end.

(** ** Reading at an offset *)

Lemma unpack_from_at fmt pre bs offset :
  offset = Z.of_nat (length pre) → unpack_from fmt (pre ++ bs) offset = unpack fmt bs.
Proof. intros ->. unfold unpack_from. by rewrite Nat2Z.id, drop_app_length. Qed.

Lemma unpack_pair_at pre a b rest offset :
  offset = Z.of_nat (length pre) → 0 ≤ a < 2 ^ 16 → 0 ≤ b < 2 ^ 16 →
  unpack_pair [2; 2]%nat (pre ++ be_bytes 2 a ++ be_bytes 2 b ++ rest) offset = Ret (a, b).
Proof.
  intros Ho Ha Hb. unfold unpack_pair. rewrite unpack_from_at by done.
  assert (pack (zip [2; 2]%nat [a; b]) = Ret (be_bytes 2 a ++ be_bytes 2 b)) as Hp.
  { cbn [zip zip_with pack]. by rewrite !pack_field_ok. }
  destruct (unpack_pack [2; 2]%nat [a; b] _ rest eq_refl Hp) as [Hu _].
  rewrite <- app_assoc in Hu. by rewrite Hu.
Qed.

Lemma read_bitmaps_at fuel pre bms padding rest offset :
  offset = Z.of_nat (length pre) → Forall (λ b, 0 ≤ b < 2 ^ 32) bms → (length padding < 4)%nat →
  (length bms ≤ fuel)%nat →
  read_bitmaps fuel (pre ++ (concat (be_bytes 4 <$> bms) ++ padding) ++ rest) offset
    (Z.of_nat (length (concat (be_bytes 4 <$> bms) ++ padding))) = Ret bms.
Proof.
  revert pre fuel offset. induction bms as [|b bms IH]; intros pre fuel offset Ho Hb Hp Hf.
  { cbn [fmap list_fmap concat app]. destruct fuel; cbn [read_bitmaps];
      by rewrite (proj2 (Z.ltb_lt _ _)) by lia. }
  apply Forall_cons in Hb as [Hb Hbs]. destruct fuel as [|fuel]; [cbn in Hf; lia|].
  cbn [fmap list_fmap concat read_bitmaps]. rewrite <- app_assoc, length_app, length_be_bytes.
  rewrite (proj2 (Z.ltb_ge _ _)) by lia.
  rewrite unpack_from_at by done. rewrite <- app_assoc.
  assert (pack (zip [4%nat] [b]) = Ret (be_bytes 4 b)) as Hpk.
  { cbn [zip zip_with pack]. rewrite pack_field_ok by done. cbn [mbind outcome_bind]. by rewrite app_nil_r. }
  destruct (unpack_pack [4%nat] [b] _ ((concat (be_bytes 4 <$> bms) ++ padding) ++ rest) eq_refl Hpk)
    as [-> _].
  specialize (IH (pre ++ be_bytes 4 b) fuel (offset + 4)).
  rewrite <- app_assoc in IH.
  match goal with |- context [read_bitmaps fuel _ _ ?n] =>
    replace n with (Z.of_nat (length (concat (be_bytes 4 <$> bms) ++ padding))) by lia end.
  cbn [mbind]. rewrite IH; [done|rewrite length_app, length_be_bytes; lia|done|done|cbn in Hf; lia].
Qed.

Lemma length_encode_element e : Z.of_nat (length (encode_element e)) = element_len e.
Proof.
  unfold encode_element, element_len. rewrite !length_app, !length_be_bytes. lia.
Qed.

Lemma parse_bitmap_at pre bms padding rest offset :
  offset = Z.of_nat (length pre) → element_fits (VersionBitmap bms padding) →
  parse_bitmap (pre ++ encode_element (VersionBitmap bms padding) ++ rest) offset
    = Ret (versions bms).
Proof.
  intros Ho (Ht & Hl & Hb & Hp). unfold parse_bitmap, encode_element.
  set (e := VersionBitmap bms padding) in *. rewrite <- !app_assoc.
  assert (0 ≤ element_len e) by (unfold element_len; lia).
  rewrite unpack_pair_at by done. cbn [mbind outcome_bind]. cbn [element_type e].
  change (OFPHET_VERSIONBITMAP =? OFPHET_VERSIONBITMAP) with true. cbn [negb].
  change (element_body e) with (concat (be_bytes 4 <$> bms) ++ padding).
  rewrite (app_assoc (be_bytes 2 _)), (app_assoc pre).
  assert (element_len e - OFP_HELLO_ELEM_VERSIONBITMAP_HEADER_SIZE
    = Z.of_nat (length (concat (be_bytes 4 <$> bms) ++ padding))) as ->.
  { unfold element_len, OFP_HELLO_ELEM_VERSIONBITMAP_HEADER_SIZE, e, element_body. lia. }
  rewrite read_bitmaps_at; [done| |done|done|].
  - rewrite !length_app, !length_be_bytes. unfold OFP_HELLO_ELEM_VERSIONBITMAP_HEADER_SIZE. lia.
  - unfold element_len, e, element_body. rewrite length_app.
    assert (length bms ≤ length (concat (be_bytes 4 <$> bms)))%nat as Hn; [|lia].
    clear. induction bms as [|b bms IH]; [done|].
    cbn [fmap list_fmap concat]. rewrite length_app, length_be_bytes. cbn [length]. lia.
Qed.

Lemma parse_elements_cons fuel pre e rest msg_len offset :
  offset = Z.of_nat (length pre) → element_fits e → offset < msg_len →
  parse_elements (S fuel) (pre ++ encode_element e ++ rest) msg_len offset =
    r ← parse_elements fuel (pre ++ encode_element e ++ rest) msg_len (offset + element_len e);
    Ret (option_list (element_versions e) ++ r).
Proof.
  intros Ho He Hlt. cbn [parse_elements]. rewrite (proj2 (Z.leb_gt _ _)) by done.
  assert (unpack_pair OFP_HELLO_ELEM_HEADER_PACK_STR (pre ++ encode_element e ++ rest) offset
    = Ret (element_type e, element_len e)) as ->.
  { unfold encode_element. rewrite <- !app_assoc. destruct He as (Ht & Hl & _).
    apply unpack_pair_at; [done|done|]. unfold element_len in *. lia. }
  cbn [mbind outcome_bind]. destruct e as [bms padding|t body].
  - cbn [element_type]. change (OFPHET_VERSIONBITMAP =? OFPHET_VERSIONBITMAP) with true.
    cbn match. by rewrite parse_bitmap_at.
  - cbn [element_type]. rewrite (proj2 (Z.eqb_neq _ _)) by apply He. done.
Qed.

Lemma parse_encoded fuel pre es :
  Forall element_fits es → (length es ≤ fuel)%nat →
  parse_elements fuel (pre ++ encode es) (Z.of_nat (length (pre ++ encode es)))
    (Z.of_nat (length pre)) = Ret (omap element_versions es).
Proof.
  revert pre fuel. induction es as [|e es IH]; intros pre fuel Hf Hl.
  { unfold encode. cbn. rewrite app_nil_r. destruct fuel; cbn;
      by rewrite (proj2 (Z.leb_le _ _)). }
  apply Forall_cons in Hf as [He Hf]. destruct fuel as [|fuel]; [cbn in Hl; lia|].
  unfold encode. cbn [fmap list_fmap concat]. fold (encode es).
  pose proof (length_encode_element e) as Hlen.
  assert (0 < element_len e) by (unfold element_len; lia).
  rewrite parse_elements_cons; [|done|done|rewrite !length_app; lia].
  rewrite app_assoc, <- Hlen, <- Nat2Z.inj_add, <- length_app.
  rewrite IH by (done || (cbn in Hl; lia)). cbn [mbind outcome_bind omap list_omap].
  by destruct (element_versions e).
Qed.

(** A hello message as OpenFlow defines it, with any number of elements of any type and
    length, parses to the versions of its bitmap elements, in order, within as many turns
    as it has elements. *)
Theorem hello_roundtrip hdr es fuel :
  Z.of_nat (length hdr) = OFP_HELLO_HEADER_SIZE → Forall element_fits es →
  (length es ≤ fuel)%nat →
  hello_parser fuel (hdr ++ encode es) (Z.of_nat (length (hdr ++ encode es)))
    = Ret (omap element_versions es).
Proof. intros Hh Hf Hl. unfold hello_parser. rewrite <- Hh. by apply parse_encoded. Qed.

(** The versions of a bitmap: version [v] is bit [v mod 32] of word [v / 32], except for the
    last bit of each word, which is not looked at. *)
Lemma elem_of_versions bms v :
  v ∈ versions bms ↔
  0 ≤ v ∧ v mod 32 ≠ 31 ∧
  ∃ b, bms !! Z.to_nat (v / 32) = Some b ∧ Z.testbit b (v mod 32) = true.
Proof.
  unfold versions. rewrite list_elem_of_In, in_concat. split.
  - intros (l & Hl & Hv). apply list_elem_of_In in Hl, Hv.
    apply list_elem_of_lookup in Hl as [i Hl]. rewrite list_lookup_imap in Hl.
    destruct (bms !! i) as [b|] eqn:Eb; [|done]. injection Hl as <-.
    apply list_elem_of_fmap in Hv as (s & -> & Hs).
    apply list_elem_of_filter in Hs as [Hs Hr]. apply elem_of_seqZ in Hr.
    assert ((Z.of_nat i * 32 + s) / 32 = Z.of_nat i) as E1
      by (rewrite Z.div_add_l by lia; rewrite (Z.div_small s) by lia; lia).
    assert ((Z.of_nat i * 32 + s) mod 32 = s) as E2
      by (rewrite Z.add_comm, Z.mod_add by lia; apply Z.mod_small; lia).
    rewrite E1, E2, Nat2Z.id. split; [lia|]. split; [lia|]. exists b. split; [done|].
    by destruct (Z.testbit b s).
  - intros (Hv & Hm & b & Hb & Ht). exists (bitmap_versions (Z.to_nat (v / 32)) b).
    pose proof (Z.div_mod v 32 ltac:(lia)). pose proof (Z.mod_pos_bound v 32 ltac:(lia)).
    assert (0 ≤ v / 32) by (apply Z.div_pos; lia).
    rewrite <- !list_elem_of_In. split.
    + apply list_elem_of_lookup. exists (Z.to_nat (v / 32)). by rewrite list_lookup_imap, Hb.
    + apply list_elem_of_fmap. exists (v mod 32). split; [lia|].
      apply list_elem_of_filter. rewrite Ht. split; [done|]. apply elem_of_seqZ. lia.
Qed.

(** ** Termination *)

Lemma unpack_not_fuel fmt bs : unpack fmt bs ≠ Raise OutOfFuel.
Proof.
  revert bs. induction fmt as [|n fmt IH]; intros bs; [done|]. cbn [unpack].
  unfold unpack_field. destruct (_ <? _)%nat; [done|]. cbn [mbind outcome_bind].
  specialize (IH (drop n bs)). by destruct (unpack fmt (drop n bs)) as [|[]].
Qed.

Lemma unpack_pair_not_fuel fmt buf offset : unpack_pair fmt buf offset ≠ Raise OutOfFuel.
Proof.
  unfold unpack_pair, unpack_from. pose proof (unpack_not_fuel fmt (drop (Z.to_nat offset) buf)) as H.
  destruct (unpack _ _) as [[|a [|b [|]]]|[]]; done.
Qed.

Lemma read_bitmaps_not_fuel fuel buf offset n :
  n ≤ 4 * Z.of_nat fuel → read_bitmaps fuel buf offset n ≠ Raise OutOfFuel.
Proof.
  revert offset n. induction fuel as [|fuel IH]; intros offset n Hn; cbn [read_bitmaps];
    case Z.ltb_spec; intros Hlt; try done; [lia|].
  unfold unpack_from. pose proof (unpack_not_fuel [4%nat] (drop (Z.to_nat offset) buf)) as Hu.
  destruct (unpack _ _) as [zs|[]]; try done. cbn [mbind outcome_bind].
  specialize (IH (offset + 4) (n - 4) ltac:(lia)).
  by destruct (read_bitmaps fuel buf (offset + 4) (n - 4)) as [|[]].
Qed.

Lemma parse_bitmap_not_fuel buf offset : parse_bitmap buf offset ≠ Raise OutOfFuel.
Proof.
  unfold parse_bitmap. pose proof (unpack_pair_not_fuel
    OFP_HELLO_ELEM_VERSIONBITMAP_HEADER_PACK_STR buf offset) as Hu.
  destruct (unpack_pair _ _ _) as [[t len]|[]]; try done. cbn [mbind outcome_bind].
  destruct (negb _); [done|]. unfold OFP_HELLO_ELEM_VERSIONBITMAP_HEADER_SIZE.
  pose proof (read_bitmaps_not_fuel (Z.to_nat len) buf (offset + 4) (len - 4)) as Hr.
  specialize (Hr ltac:(lia)).
  by destruct (read_bitmaps _ _ _ _) as [|[]].
Qed.

(** One turn of the loop: the exception that ends it, or the length and the versions it
    goes on with; no turn needs fuel of its own. *)
Definition element_turn (buf : bytes) (offset : Z) : outcome pyexn (Z * list (list Z)) :=
  h ← unpack_pair OFP_HELLO_ELEM_HEADER_PACK_STR buf offset;
  let '(type, len) := h : Z * Z in
  elem ← (if type =? OFPHET_VERSIONBITMAP
          then v ← parse_bitmap buf offset; Ret [v] else Ret []);
  Ret (len, elem).

Lemma parse_elements_turn fuel buf msg_len offset :
  parse_elements fuel buf msg_len offset =
    if msg_len <=? offset then Ret [] else
    match fuel with
    | O => Raise OutOfFuel
    | S fuel =>
        h ← element_turn buf offset;
        let '(len, elem) := h : Z * list (list Z) in
        rest ← parse_elements fuel buf msg_len (offset + len); Ret (elem ++ rest)
    end.
Proof.
  destruct fuel as [|fuel]; [done|]. cbn [parse_elements]. destruct (_ <=? _); [done|].
  unfold element_turn. destruct (unpack_pair _ _ _) as [[t len]|e]; [|done].
  cbn [mbind outcome_bind]. destruct (t =? _); [|done].
  by destruct (parse_bitmap buf offset).
Qed.

Lemma element_turn_not_fuel buf offset : element_turn buf offset ≠ Raise OutOfFuel.
Proof.
  unfold element_turn. pose proof (unpack_pair_not_fuel OFP_HELLO_ELEM_HEADER_PACK_STR buf offset) as Hu.
  destruct (unpack_pair _ _ _) as [[t len]|[]]; try done. cbn [mbind outcome_bind].
  destruct (t =? _); [|done]. pose proof (parse_bitmap_not_fuel buf offset) as Hp.
  by destruct (parse_bitmap buf offset) as [|[]].
Qed.

Lemma element_turn_len buf offset len elem :
  Forall is_byte buf → element_turn buf offset = Ret (len, elem) → 0 ≤ len.
Proof.
  intros Hb. unfold element_turn, unpack_pair, unpack_from, OFP_HELLO_ELEM_HEADER_PACK_STR.
  set (bs := drop (Z.to_nat offset) buf).
  assert (Forall is_byte bs) as Hbs by (by apply Forall_drop).
  destruct (decide (4 ≤ length bs)%nat) as [Hl|Hl].
  - rewrite !unpack_cons by (rewrite ?length_drop; lia). cbn [unpack mbind outcome_bind].
    intros H. assert (len = be_value (take 2 (drop 2 bs))) as ->.
    { destruct (be_value (take 2 bs) =? _); [destruct (parse_bitmap buf offset)|];
        cbn in H; congruence. }
    apply be_value_bound. by apply Forall_take, Forall_drop.
  - unfold unpack. unfold unpack_field. destruct (length bs <? 2)%nat; [done|].
    cbn [mbind outcome_bind]. rewrite (proj2 (Nat.ltb_lt _ _)); [done|]. rewrite length_drop. lia.
Qed.

Lemma parse_elements_mono n m buf msg_len offset :
  (n ≤ m)%nat → parse_elements n buf msg_len offset ≠ Raise OutOfFuel →
  parse_elements m buf msg_len offset = parse_elements n buf msg_len offset.
Proof.
  revert m offset. induction n as [|n IH]; intros m offset Hm;
    rewrite (parse_elements_turn m), parse_elements_turn; destruct (_ <=? _); try done.
  destruct m as [|m]; [lia|]. destruct (element_turn buf offset) as [[len elem]|e]; [|done].
  cbn [mbind outcome_bind]. intros H. rewrite (IH m); [done|lia|]. intros E. by rewrite E in H.
Qed.

Lemma parse_elements_fuel n m buf msg_len offset :
  Forall is_byte buf → msg_len - offset ≤ Z.of_nat n →
  parse_elements n buf msg_len offset = Raise OutOfFuel →
  parse_elements m buf msg_len offset = Raise OutOfFuel.
Proof.
  intros Hb. revert m offset. induction n as [|n IH]; intros m offset Hn;
    rewrite parse_elements_turn; case Z.leb_spec; intros Hle; try done; [lia|].
  destruct (element_turn buf offset) as [[len elem]|e] eqn:E.
  2:{ cbn. intros [= ->]. by apply element_turn_not_fuel in E. }
  pose proof (element_turn_len _ _ _ _ Hb E) as Hlen. cbn [mbind outcome_bind]. intros H.
  assert (parse_elements n buf msg_len (offset + len) = Raise OutOfFuel) as H1.
  { destruct (parse_elements n _ _ _) as [|e]; [done|]. cbn in H. congruence. }
  induction m as [|m IHm]; rewrite parse_elements_turn, (proj2 (Z.leb_gt _ _)) by done; [done|].
  rewrite E. cbn [mbind outcome_bind]. destruct (decide (len = 0)) as [->|Hne].
  - rewrite Z.add_0_r. by rewrite IHm.
  - rewrite (IH m (offset + len)); [done|lia|done].
Qed.

(** Whatever bytes a hello holds, its parser gives its result (the versions or an
    exception) within as many turns as the message has bytes, or never: more turns do not
    change the outcome. *)
Theorem hello_fuel_suffices buf msg_len fuel :
  Forall is_byte buf → msg_len ≤ Z.of_nat fuel →
  ∀ more, hello_parser (fuel + more) buf msg_len = hello_parser fuel buf msg_len.
Proof.
  intros Hb Hn more. unfold hello_parser.
  destruct (decide (parse_elements fuel buf msg_len OFP_HELLO_HEADER_SIZE = Raise OutOfFuel))
    as [E|E].
  - rewrite E. apply (parse_elements_fuel fuel); [done| |done]. unfold OFP_HELLO_HEADER_SIZE. lia.
  - apply parse_elements_mono; [lia|done].
Qed.

(** An element of length 0 that is no version bitmap is read again and again: no number
    of turns is enough for a hello that has one, wherever it stands. *)
Theorem hello_zero_length_hangs hdr es type rest fuel :
  Z.of_nat (length hdr) = OFP_HELLO_HEADER_SIZE → Forall element_fits es →
  0 ≤ type < 2 ^ 16 → type ≠ OFPHET_VERSIONBITMAP →
  let buf := hdr ++ encode es ++ be_bytes 2 type ++ be_bytes 2 0 ++ rest in
  hello_parser fuel buf (Z.of_nat (length buf)) = Raise OutOfFuel.
Proof.
  intros Hh Hf Ht Hne. cbn zeta. unfold hello_parser. rewrite <- Hh. clear Hh.
  revert hdr fuel. induction es as [|e es IH]; intros hdr fuel.
  - unfold encode. cbn [fmap list_fmap concat app]. set (buf := hdr ++ _).
    assert (Z.of_nat (length hdr) < Z.of_nat (length buf)) as Hlt.
    { unfold buf. rewrite !length_app, !length_be_bytes. lia. }
    assert (unpack_pair OFP_HELLO_ELEM_HEADER_PACK_STR buf (Z.of_nat (length hdr)) = Ret (type, 0))
      as Hu by (by apply unpack_pair_at).
    induction fuel as [|fuel IH]; rewrite parse_elements_turn, (proj2 (Z.leb_gt _ _)) by done; [done|].
    unfold element_turn. rewrite Hu.
    cbn [mbind outcome_bind]. rewrite (proj2 (Z.eqb_neq _ _)) by done. cbn [mbind outcome_bind].
    by rewrite Z.add_0_r, IH.
  - apply Forall_cons in Hf as [He Hf]. unfold encode. cbn [fmap list_fmap concat]. fold (encode es).
    pose proof (length_encode_element e) as Hlen.
    assert (0 < element_len e) by (unfold element_len; lia).
    rewrite <- !app_assoc. destruct fuel as [|fuel].
    { rewrite parse_elements_turn, (proj2 (Z.leb_gt _ _)); [done|]. rewrite !length_app. lia. }
    rewrite parse_elements_cons by (done || (rewrite !length_app; lia)).
    rewrite app_assoc, <- Hlen, <- Nat2Z.inj_add, <- length_app. by rewrite IH.
Qed.

(** ** The theorems at work *)

Definition example_header : bytes := [4; 0; 0; 20; 0; 0; 0; 1].

Definition example_elements : list element :=
  [OtherElement 7 []; VersionBitmap [18; 2] []].

Lemma hello_roundtrip_witness :
  hello_parser 9 (example_header ++ encode example_elements) 24 = Ret [[1; 4; 33]].
Proof.
  apply (hello_roundtrip example_header example_elements 9); [reflexivity| |cbn; lia].
  repeat (constructor; cbn; try lia); done.
Defined.

Lemma hello_fuel_suffices_witness :
  hello_parser (12 + 1000) (example_header ++ [0; 9; 0; 2; 0; 1]) 12 = Raise StructError.
Proof.
  rewrite (hello_fuel_suffices (example_header ++ [0; 9; 0; 2; 0; 1]) 12 12); [reflexivity| |lia].
  repeat (constructor; unfold is_byte; try lia).
Defined.

Lemma hello_zero_length_hangs_witness :
  hello_parser 1000 (example_header ++ [0; 7; 0; 0]) 12 = Raise OutOfFuel.
Proof.
  apply (hello_zero_length_hangs example_header [] 7 [] 1000);
    [reflexivity|constructor|lia|done].
Defined.
