(* ===== verification/AppManager.v ===== *)
(** * Applications and the events between them

    Models [RyuApp] and the service bricks of [ryu/base/app_manager.py], the decorators and
    functions of [ryu/controller/handler.py] and the event classes of
    [ryu/controller/event.py].

    Applications are objects that several dictionaries share (the service bricks, the
    applications of the manager), so the state has a store of objects and the dictionaries
    hold their indices.  Event loops, handlers and other callers are green threads: the
    state is changed by steps any of them may take in any order.  A thread that waits (for
    room in a queue, for an event) is [Blocked]: the step has no effect and is tried again
    later.  A handler is running while its event loop is in it; what it does meanwhile are
    steps of its own.  The loop over the handlers of an event goes by position through the
    list that handlers are registered in, so that what is registered or taken out meanwhile
    changes the calls that follow. *)

From stdpp Require Import base list gmap sets strings.
From Stdlib Require Import ZArith Lia Ascii.
From S2P Require Import Prelude Odict.

Open Scope Z_scope.
Set Default Proof Using "Type*".

(** ** Events and handlers *)

(** A class, by module and name. *)
Abbreviation class := (string * string)%type.

(** [EventBase], [EventRequestBase] and [EventReplyBase].  A request is synchronous when it
    has a reply queue. *)
Inductive event_kind :=
| EventBase
| EventRequestBase (dst src : option string) (reply_q : option nat)
| EventReplyBase (dst : option string).

Record event := Event {
  ev_class : class;
  ev_kind : event_kind;
  ev_data : Z
}.

#[export] Instance event_kind_eq_dec : EqDecision event_kind.
Proof. solve_decision. Defined.
#[export] Instance event_eq_dec : EqDecision event.
Proof. solve_decision. Defined.

(** [_Caller] *)
Record caller := Caller {
  dispatchers : list string;
  ev_source : option string
}.

#[export] Instance caller_eq_dec : EqDecision caller.
Proof. solve_decision. Defined.

(** A bound method; [callers] is empty when the method has no such attribute. *)
Record method := Method {
  m_name : string;
  callers : odict class caller
}.

#[export] Instance method_eq_dec : EqDecision method.
Proof. solve_decision. Defined.

Definition _listify {A} (may_list : option (A + list A)) : list A :=
  match may_list with None => [] | Some (inl x) => [x] | Some (inr l) => l end.

(** [set_ev_cls] and [set_ev_handler]. *)
Definition set_caller (source : class → option string) (ev_cls : option (class + list class))
    (states : option (string + list string)) (m : method) : method :=
  Method (m_name m)
    (foldl (λ d e, od_set e (Caller (_listify states) (source e)) d) (callers m) (_listify ev_cls)).

Definition set_ev_cls := set_caller (λ e, Some e.1).
Definition set_ev_handler := set_caller (λ _, None).

(** ** Applications *)

Inductive item :=
| Item (ev : event) (state : option string)
| EventStop.

#[export] Instance item_eq_dec : EqDecision item.
Proof. solve_decision. Defined.

(** Where the thread of [_event_loop] is: not started, before the test of the loop, in
    [events.get()], in the handler [m], ended.  [pos] is the position of the iterator in the
    list of handlers; the list is [live] while it is the one of [event_handlers]: one that is
    deleted there is empty. *)
Inductive loop_state :=
| NotStarted
| AtTop
| InGet
| InHandler (ev : event) (state : option string) (m : method) (pos : nat) (live : bool)
| LoopEnded.

(** [methods] and [_EVENTS] come from the class of the application. *)
Record app := App {
  name : string;
  methods : list method;
  _EVENTS : list class;
  event_handlers : odict class (list method);
  observers : odict class (odict string (gset string));
  events : list item;
  _events_sem : Z;
  is_active : bool;
  loop : loop_state
}.

#[global] Instance eta_app : Eta app := EtaBox (λ a,
  App (name a) (methods a) (_EVENTS a) (event_handlers a) (observers a) (events a)
    (_events_sem a) (is_active a) (loop a)).

Definition maxsize : Z := 128.

(** How a handler ends: normally, with an exception that is logged, with [hub.TaskExit]. *)
Inductive handler_end := Returned | Failed | TaskExit.

#[export] Instance handler_end_eq_dec : EqDecision handler_end.
Proof. solve_decision. Defined.

(** [Disturbed] only marks the history: the list of handlers that the event loop is going
    through has changed. *)
Inductive app_out :=
| Enqueued (it : item)
| Taken (it : item) (handlers : list method)
| Handled (m : method) (ev : event) (how : handler_end)
| Disturbed.

(** [Blocked] is no exception: the thread waits where it is. *)
Inductive exn :=
| Py (e : pyexn)
| Blocked.

#[export] Instance exn_eq_dec : EqDecision exn.
Proof. solve_decision. Defined.

Abbreviation AM := (M app exn app_out).

(** [RyuApp.__init__] *)
Definition new_app (n : string) (ms : list method) (evs : list class) : app :=
  App n ms evs [] [] [] maxsize true NotStarted.

(** The event loop is going through the handlers of [c]. *)
Definition iterates (c : class) (a : app) : bool :=
  match loop a with InHandler ev _ _ _ _ => bool_decide (ev_class ev = c) | _ => false end.

Definition mark_disturbed (c : class) : AM () :=
  b ← gets (iterates c);
  when b (emit Disturbed).

Definition register_handler (ev_cls : class) (handler : method) : AM () :=
  modify (λ a, a <| event_handlers ::= od_setdefault ev_cls [] |>);;
  modify (λ a, a <| event_handlers ::= od_alter (λ l, l ++ [handler]) ev_cls |>);;
  mark_disturbed ev_cls.

(** [list.remove] *)
Fixpoint list_remove {A} `{EqDecision A} (x : A) (l : list A) : option (list A) :=
  match l with
  | [] => None
  | y :: l => if decide (x = y) then Some l else cons y <$> list_remove x l
  end.

(** The list of [c] is no longer the one that is registered. *)
Definition detach (c : class) (l : loop_state) : loop_state :=
  match l with
  | InHandler ev st m pos live => InHandler ev st m pos (live && negb (bool_decide (ev_class ev = c)))
  | _ => l
  end.

Definition unregister_handler (ev_cls : class) (handler : method) : AM () :=
  a ← get_st;
  l ← or_raise (od_get ev_cls (event_handlers a)) (Py KeyError);
  l' ← or_raise (list_remove handler l) (Py ValueError);
  modify (λ a, a <| event_handlers ::= od_alter (λ _, l') ev_cls |>);;
  when (negb (nonempty l')) (
    modify (λ a, a <| event_handlers ::= od_del ev_cls |>);;
    modify (λ a, a <| loop ::= detach ev_cls |>));;
  mark_disturbed ev_cls.

Definition register_observer (ev_cls : class) (n : string) (states : list string) : AM () :=
  modify (λ a, a <| observers ::= λ d,
    od_alter (λ o, od_alter (λ st, st ∪ list_to_set states) n (od_setdefault n ∅ o)) ev_cls
      (od_setdefault ev_cls [] d) |>).

Definition unregister_observer (ev_cls : class) (n : string) : AM () :=
  a ← get_st;
  let os := default [] (od_get ev_cls (observers a)) in
  or_raise (od_get n os) (Py KeyError);;
  modify (λ a, a <| observers ::= od_alter (od_del n) ev_cls |>).

Definition unregister_observer_all_event (n : string) : AM () :=
  modify (λ a, a <| observers ::= fmap (M := list) (λ '(c, os), (c, od_del n os)) |>).

(** [test] of [get_handlers] *)
Definition interested (ev_cls : class) (st : string) (h : method) : bool :=
  match od_get ev_cls (callers h) with
  | None => true
  | Some c => negb (nonempty (dispatchers c)) || bool_decide (st ∈ dispatchers c)
  end.

Definition wanted (ev : event) (state : option string) (h : method) : bool :=
  match state with None => true | Some st => interested (ev_class ev) st h end.

(** The handlers of an event, if nothing changes them. *)
Definition get_handlers (a : app) (ev : event) (state : option string) : list method :=
  filter (λ h, Is_true (wanted ev state h)) (default [] (od_get (ev_class ev) (event_handlers a))).

Definition observes (state : option string) (v : gset string) : bool :=
  match state with
  | None => true
  | Some st => bool_decide (st = "") || bool_decide (v = ∅) || bool_decide (st ∈ v)
  end.

Definition get_observers (a : app) (ev : event) (state : option string) : list string :=
  fst <$> filter (λ kv, Is_true (observes state kv.2))
            (default [] (od_get (ev_class ev) (observers a))).

(** [_send_event]: the semaphore counts the free places. *)
Definition _send_event (it : item) : AM () :=
  free ← gets _events_sem;
  if free =? 0 then raise Blocked else
  modify (λ a, a <| _events_sem := free - 1 |>);;
  modify (λ a, a <| events ::= λ q, q ++ [it] |>);;
  emit (Enqueued it).

(** A bounded semaphore does not grow beyond its start. *)
Definition release_sem : AM () :=
  free ← gets _events_sem;
  if maxsize <=? free then raise (Py ValueError)
  else modify (λ a, a <| _events_sem := free + 1 |>).

(** The test of [_event_loop]. *)
Definition loop_test : AM () :=
  modify (λ a, a <| loop := if is_active a || nonempty (events a) then InGet else LoopEnded |>).

(** The iterator of the handlers: the first one of [l] that is wanted, and the position after it;
    [pos] is the position of [l]. *)
Fixpoint next_handler (ev : event) (state : option string) (l : list method) (pos : nat) : option (method * nat) :=
  match l with
  | [] => None
  | h :: l => if wanted ev state h then Some (h, S pos) else next_handler ev state l (S pos)
  end.

Definition iterated (a : app) (ev : event) (live : bool) : list method :=
  if live then default [] (od_get (ev_class ev) (event_handlers a)) else [].

(** The next turn of the loop over the handlers. *)
Definition next_turn (a : app) (ev : event) (state : option string) (pos : nat) (live : bool) : loop_state :=
  match next_handler ev state (drop pos (iterated a ev live)) pos with
  | Some (m, pos) => InHandler ev state m pos live
  | None => AtTop
  end.

(** From [events.get()] to the first handler. *)
Definition loop_get : AM () :=
  a ← get_st;
  match events a with
  | [] => raise Blocked
  | it :: q =>
      modify (λ a, a <| events := q |>);;
      release_sem;;
      match it with
      | EventStop => emit (Taken it []);; modify (λ a, a <| loop := AtTop |>)
      | Item ev st =>
          emit (Taken it (get_handlers a ev st));;
          modify (λ a, a <| loop := next_turn a ev st 0 true |>)
      end
  end.

(** The end of the handler that is running. *)
Definition loop_handled (how : handler_end) : AM () :=
  a ← get_st;
  match loop a with
  | InHandler ev st m pos live =>
      emit (Handled m ev how);;
      modify (λ a, a <| loop := match how with TaskExit => LoopEnded | _ => next_turn a ev st pos live end |>)
  | _ => mret tt
  end.

Definition event_loop (how : handler_end) : AM () :=
  a ← get_st;
  match loop a with
  | AtTop => loop_test
  | InGet => loop_get
  | InHandler _ _ _ _ _ => loop_handled how
  | NotStarted | LoopEnded => raise Blocked
  end.

(** [start], and [stop] up to sending the stop event. *)
Definition start : AM () := modify (λ a, a <| loop := AtTop |>).
Definition stop_begin : AM () := modify (λ a, a <| is_active := false |>).

(** [handler.register_instance] *)
Definition register_instance : AM () :=
  ms ← gets methods;
  for_each ms (λ m, for_each (od_keys (callers m)) (λ c, register_handler c m)).

(** ** The life of one application object *)

(** What others, its own code included, do to an application. *)
Inductive app_op :=
| RegisterInstance
| RegisterHandler (ev_cls : class) (handler : method)
| UnregisterHandler (ev_cls : class) (handler : method)
| RegisterObserver (ev_cls : class) (n : string) (states : list string)
| UnregisterObserver (ev_cls : class) (n : string)
| UnregisterObserverAllEvent (n : string)
| Put (it : item)
| Start
| StopBegin
| EventLoop (how : handler_end).

#[export] Instance app_op_eq_dec : EqDecision app_op.
Proof. solve_decision. Defined.

Definition app_do (op : app_op) : AM () :=
  match op with
  | RegisterInstance => register_instance
  | RegisterHandler c h => register_handler c h
  | UnregisterHandler c h => unregister_handler c h
  | RegisterObserver c n st => register_observer c n st
  | UnregisterObserver c n => unregister_observer c n
  | UnregisterObserverAllEvent n => unregister_observer_all_event n
  | Put it => _send_event it
  | Start => start
  | StopBegin => stop_begin
  | EventLoop how => event_loop how
  end.

(** The event loop is started once. *)
Definition app_enabled (op : app_op) (a : app) : Prop :=
  op = Start → loop a = NotStarted.

(** Histories: the application with all it has put out. *)
Definition app_step (x : app * list app_out) (op : app_op) (y : app * list app_out) : Prop :=
  app_enabled op x.1 ∧ result (app_do op) x.1 ≠ Raise Blocked ∧
  y = (final (app_do op) x.1, x.2 ++ outputs (app_do op) x.1).

Definition app_init (x : app * list app_out) : Prop := ∃ n ms evs, x = (new_app n ms evs, []).

Definition enqueued (h : list app_out) : list item :=
  omap (λ o, match o with Enqueued it => Some it | _ => None end) h.

Definition taken (h : list app_out) : list item :=
  omap (λ o, match o with Taken it _ => Some it | _ => None end) h.

Definition calls (h : list app_out) : list (method * event) :=
  omap (λ o, match o with Handled m ev _ => Some (m, ev) | _ => None end) h.

(** The call that is running and those of the same event that follow if nothing changes the
    handlers. *)
Definition upcoming (a : app) (ev : event) (st : option string) (pos : nat) (live : bool) : list method :=
  filter (λ h, Is_true (wanted ev st h)) (drop pos (iterated a ev live)).

Definition todo (a : app) : list (method * event) :=
  match loop a with
  | InHandler ev st m pos live => (λ m, (m, ev)) <$> m :: upcoming a ev st pos live
  | _ => []
  end.

(** What an event loop owes: the calls of the event it has taken, in order; or, after the handlers
    of this event have changed, calls for this event only. *)
Inductive duty :=
| Owes (l : list (method * event))
| OwesSome (ev : event).

#[export] Instance duty_eq_dec : EqDecision duty.
Proof. solve_decision. Defined.

(** One entry of the history: [None] if it breaks the duty.  An event is taken when the calls of the
    one before have been made; a call that is made is the next one that is owed. *)
Definition perform (d : duty) (o : app_out) : option duty :=
  match o, d with
  | Enqueued _, _ => Some d
  | Taken it hs, (Owes [] | OwesSome _) =>
      Some (Owes (match it with Item ev _ => (λ m, (m, ev)) <$> hs | EventStop => [] end))
  | Handled m ev how, Owes (x :: l) =>
      if decide (x = (m, ev)) then Some (Owes (match how with TaskExit => [] | _ => l end)) else None
  | Handled _ ev how, OwesSome ev' =>
      if decide (ev = ev') then Some (match how with TaskExit => Owes [] | _ => d end) else None
  | Disturbed, Owes ((_, ev) :: _) => Some (OwesSome ev)
  | Disturbed, OwesSome _ => Some d
  | _, _ => None
  end.

Definition performed (h : list app_out) : option duty := foldl (λ d o, d ← d; perform d o) (Some (Owes [])) h.

(** The duty that is left, and where the loop is. *)
Definition on_duty (a : app) (d : duty) : Prop :=
  match d with
  | Owes l => l = todo a
  | OwesSome ev => match loop a with InHandler ev' _ _ _ _ => ev' = ev | _ => True end
  end.

Record queue_ok (a : app) (h : list app_out) : Prop := {
  q_room : _events_sem a + Z.of_nat (length (events a)) = maxsize;
  q_free : 0 ≤ _events_sem a;
  q_fifo : enqueued h = taken h ++ events a;
  q_calls : ∃ d, performed h = Some d ∧ on_duty a d
}.

Lemma enqueued_app h h' : enqueued (h ++ h') = enqueued h ++ enqueued h'.
Proof. apply omap_app. Qed.
Lemma taken_app h h' : taken (h ++ h') = taken h ++ taken h'.
Proof. apply omap_app. Qed.
Lemma calls_app h h' : calls (h ++ h') = calls h ++ calls h'.
Proof. apply omap_app. Qed.

Lemma performed_app h h' : performed (h ++ h') = foldl (λ d o, d ← d; perform d o) (performed h) h'.
Proof. apply foldl_app. Qed.

Lemma performed_snoc h o d d' : performed h = Some d → perform d o = Some d' → performed (h ++ [o]) = Some d'.
Proof. intros E E'. by rewrite performed_app, E. Qed.

Lemma next_handler_filter ev st l p :
  match next_handler ev st l p with
  | None => filter (λ h, Is_true (wanted ev st h)) l = []
  | Some (m, q) => (p < q)%nat ∧ filter (λ h, Is_true (wanted ev st h)) l = m :: filter (λ h, Is_true (wanted ev st h)) (drop (q - p) l)
  end.
Proof.
  revert p. induction l as [|h l IH]; intros p; [done|]. cbn [next_handler]. destruct (wanted ev st h) eqn:E.
  - split; [lia|]. rewrite filter_cons_True by (by rewrite E). by replace (S p - p)%nat with 1%nat by lia.
  - rewrite filter_cons_False by (rewrite E; by intros []). specialize (IH (S p)). destruct (next_handler ev st l (S p)) as [[m q]|]; [|done].
    destruct IH as [Hq ->]. split; [lia|]. by replace (q - p)%nat with (S (q - S p)) by lia.
Qed.

(** The next turn is the next of the upcoming calls. *)
Lemma next_turn_todo a a' ev st pos live :
  event_handlers a' = event_handlers a → loop a' = next_turn a ev st pos live →
  todo a' = (λ m, (m, ev)) <$> upcoming a ev st pos live.
Proof.
  intros Hh Hl. unfold todo. rewrite Hl. unfold next_turn, upcoming.
  pose proof (next_handler_filter ev st (drop pos (iterated a ev live)) pos) as H.
  destruct (next_handler ev st (drop pos (iterated a ev live)) pos) as [[m q]|]; [|by rewrite H].
  destruct H as [Hq ->]. unfold iterated. rewrite Hh, drop_drop. by replace (pos + (q - pos))%nat with q by lia.
Qed.

(** Operations on the observers leave the queue, the handlers and the loop alone and put out
    nothing. *)
Definition same_queue (a a' : app) : Prop :=
  events a' = events a ∧ _events_sem a' = _events_sem a ∧ loop a' = loop a ∧ event_handlers a' = event_handlers a.

Lemma queue_ok_same a a' h : same_queue a a' → queue_ok a h → queue_ok a' h.
Proof.
  intros (He & Hs & Hl & Hh) []. split; unfold on_duty, todo, upcoming, iterated in *; rewrite ?He, ?Hs, ?Hl, ?Hh; done.
Qed.

(** A run that only touches what is not the queue, and does not wait. *)
Definition quiet {A} (m : AM A) : Prop :=
  ∀ a, same_queue a (final m a) ∧ outputs m a = [] ∧ result m a ≠ Raise Blocked.

Lemma quiet_ret {A} (x : A) : quiet (mret x).
Proof. by intros a. Qed.

Lemma quiet_gets {A} (f : app → A) : quiet (gets f).
Proof. by intros a. Qed.

Lemma quiet_modify f : (∀ a, same_queue a (f a)) → quiet (modify f).
Proof. intros H a. by split; [apply H|]. Qed.

Lemma quiet_or_raise {A} (o : option A) e : quiet (or_raise o (Py e)).
Proof. by destruct o. Qed.

Lemma quiet_bind {A B} (m : AM A) (k : A → AM B) :
  quiet m → (∀ x, quiet (k x)) → quiet (m ≫= k).
Proof.
  intros Hm Hk a. destruct (Hm a) as ((H1 & H2 & H3 & H4) & Ho & Hr).
  unfold same_queue, final, outputs, result, mbind, M_bind in *.
  destruct (m a) as [[o1 s1] [x|e]]; cbn in *; [|split_and!; try done; congruence].
  destruct (Hk x s1) as ((K1 & K2 & K3 & K4) & Ko & Kr). unfold final, outputs, result in *.
  destruct (k x s1) as [[o2 s2] r2]. cbn in *. subst o1 o2.
  by rewrite K1, K2, K3, K4.
Qed.

Lemma quiet_for_each {B} (l : list B) (f : B → AM ()) :
  (∀ x, quiet (f x)) → quiet (for_each l f).
Proof.
  intros Hf. induction l as [|x l IH]; [apply quiet_ret|].
  cbn [for_each]. by apply quiet_bind.
Qed.

Ltac quiet :=
  repeat match goal with
  | |- quiet (let _ := _ in _) => cbv zeta
  | |- quiet (get_st ≫= _) => apply quiet_bind; [by intros ?|intros ?]
  | |- quiet (_ ≫= _) => apply quiet_bind; [|intros ?]
  | |- quiet (for_each _ _) => apply quiet_for_each; intros ?
  | |- quiet (modify _) => apply quiet_modify; by intros ?
  | |- quiet (gets _) => apply quiet_gets
  | |- quiet (or_raise _ _) => apply quiet_or_raise
  | |- quiet (when ?b _) => destruct b; unfold when; [|apply quiet_ret]
  end.

(** The operations that are about neither the queue nor the handlers. *)
Definition is_quiet (op : app_op) : bool :=
  match op with
  | RegisterObserver _ _ _ | UnregisterObserver _ _ | UnregisterObserverAllEvent _ | StopBegin => true
  | _ => false
  end.

Lemma app_do_quiet op : is_quiet op = true → quiet (app_do op).
Proof.
  destruct op; try done; intros _; cbn [app_do]; unfold register_observer, unregister_observer,
    unregister_observer_all_event, stop_begin; quiet.
Qed.

(** A run that keeps the queue in order and does not wait. *)
Definition orderly {A} (m : AM A) : Prop :=
  ∀ a h, queue_ok a h → queue_ok (final m a) (h ++ outputs m a) ∧ result m a ≠ Raise Blocked.

Lemma quiet_orderly {A} (m : AM A) : quiet m → orderly m.
Proof. intros Hm a h Hok. destruct (Hm a) as (Hs & -> & Hr). rewrite app_nil_r. split; [by eapply queue_ok_same|done]. Qed.

Lemma orderly_bind {A B} (m : AM A) (k : A → AM B) : orderly m → (∀ x, orderly (k x)) → orderly (m ≫= k).
Proof.
  intros Hm Hk a h Hok. destruct (Hm a h Hok) as [H1 H2]. unfold final, outputs, result, mbind, M_bind in *.
  destruct (m a) as [[o1 s1] [x|e]]; cbn in *; [|split; [done|congruence]].
  destruct (Hk x s1 _ H1) as [K1 K2]. unfold final, outputs, result in *. destruct (k x s1) as [[o2 s2] r2]. cbn in *. by rewrite app_assoc.
Qed.

Lemma orderly_for_each {B} (l : list B) (f : B → AM ()) : (∀ x, orderly (f x)) → orderly (for_each l f).
Proof.
  intros Hf. induction l as [|x l IH]; [apply quiet_orderly, quiet_ret|]. cbn [for_each]. by apply orderly_bind.
Qed.

(** A change of the handlers of [c]. *)
Lemma handlers_changed c a a' h :
  queue_ok a h → events a' = events a → _events_sem a' = _events_sem a → (loop a' = loop a ∨ loop a' = detach c (loop a)) →
  (∀ c', c' ≠ c → od_get c' (event_handlers a') = od_get c' (event_handlers a)) →
  iterates c a' = iterates c a ∧ queue_ok a' (h ++ if iterates c a then [Disturbed] else []).
Proof.
  intros [Hr Hf Hq (d & Hd & Ho)] He Hs Hl Hh.
  assert (iterates c a' = iterates c a) as Hit by (unfold iterates; destruct Hl as [->| ->]; [done|by destruct (loop a)]).
  split; [done|]. split; rewrite ?He, ?Hs; [done|done| |].
  { rewrite enqueued_app, taken_app. by destruct (iterates c a); cbn; rewrite !app_nil_r. }
  destruct (iterates c a) eqn:Ei; unfold iterates in Ei; destruct (loop a) as [| | |ev st m pos live|] eqn:El; try done.
  - apply bool_decide_eq_true in Ei. exists (OwesSome ev). split.
    + eapply performed_snoc; [done|]. unfold on_duty, todo in Ho. rewrite El in Ho. destruct d as [l|ev']; subst; done.
    + unfold on_duty. by destruct Hl as [->| ->].
  - rewrite app_nil_r. exists d. split; [done|]. unfold on_duty, todo in *. rewrite El in *. by destruct Hl as [->| ->].
  - rewrite app_nil_r. exists d. split; [done|]. unfold on_duty, todo in *. rewrite El in *. by destruct Hl as [->| ->].
  - rewrite app_nil_r. exists d. split; [done|]. unfold on_duty, todo in *. rewrite El in *. by destruct Hl as [->| ->].
  - apply bool_decide_eq_false in Ei. assert (loop a' = loop a) as E.
    { destruct Hl as [->| ->]; [done|]. rewrite El. cbn. by rewrite bool_decide_false, andb_true_r. }
    rewrite app_nil_r. exists d. split; [done|]. unfold on_duty, todo, upcoming, iterated in *. rewrite E, El in *. by rewrite Hh.
  - rewrite app_nil_r. exists d. split; [done|]. unfold on_duty, todo in *. rewrite El in *. by destruct Hl as [->| ->].
Qed.

Lemma mark_disturbed_run c a : mark_disturbed c a = (if iterates c a then [Disturbed] else [], a, Ret tt).
Proof. unfold mark_disturbed. rewrite gets_bind. by destruct (iterates c a). Qed.

Lemma register_handler_run c m a :
  let a' := a <| event_handlers := od_alter (λ l, l ++ [m]) c (od_setdefault c [] (event_handlers a)) |> in
  register_handler c m a = (if iterates c a' then [Disturbed] else [], a', Ret tt).
Proof.
  intros a'. unfold register_handler. erewrite run_bind by reflexivity. erewrite run_bind by reflexivity. by rewrite mark_disturbed_run.
Qed.

Lemma register_handler_orderly c m : orderly (register_handler c m).
Proof.
  intros a h Hok. set (a' := a <| event_handlers := od_alter (λ l, l ++ [m]) c (od_setdefault c [] (event_handlers a)) |>).
  unfold final, outputs, result. rewrite register_handler_run. fold a'. split; [|done]. cbn [fst snd].
  destruct (handlers_changed c a a' h Hok) as [-> H]; [done|done|by left| |exact H].
  intros c' Hc. subst a'. cbn. by rewrite od_get_alter, od_get_setdefault, !decide_False.
Qed.

Lemma unregister_handler_orderly c m : orderly (unregister_handler c m).
Proof.
  intros a h Hok. unfold unregister_handler.
  destruct (od_get c (event_handlers a)) as [l|] eqn:El; [destruct (list_remove m l) as [l'|] eqn:Er|];
    unfold final, outputs, result, mbind, M_bind, get_st; cbn -[mark_disturbed]; rewrite El; cbn -[mark_disturbed];
    [|rewrite Er; cbn; by rewrite app_nil_r|by rewrite app_nil_r].
  rewrite Er. cbn -[mark_disturbed]. set (a1 := a <| event_handlers := od_alter (λ _, l') c (event_handlers a) |>).
  assert (∀ c', c' ≠ c → od_get c' (event_handlers a1) = od_get c' (event_handlers a)) as H1 by (intros c' Hc; subst a1; cbn; by rewrite od_get_alter, decide_False).
  destruct l' as [|y l']; cbn -[mark_disturbed]; rewrite mark_disturbed_run; cbn [fst snd]; (split; [|done]).
  - destruct (handlers_changed c a (a1 <| event_handlers ::= od_del c |> <| loop ::= detach c |>) h Hok) as [E H]; [done|done|by right| |rewrite <- E in H; exact H].
    intros c' Hc. cbn. rewrite od_get_del, decide_False by done. by apply H1.
  - destruct (handlers_changed c a a1 h Hok) as [E H]; [done|done|by left|done|rewrite <- E in H; exact H].
Qed.

Lemma register_instance_orderly : orderly register_instance.
Proof.
  unfold register_instance. apply orderly_bind; [apply quiet_orderly, quiet_gets|intros ms].
  apply orderly_for_each. intros m. apply orderly_for_each. intros c. apply register_handler_orderly.
Qed.

(** A step that is [Blocked] has done nothing. *)
Lemma loop_handled_run how a :
  loop_handled how a =
    match loop a with
    | InHandler ev st m pos live =>
        ([Handled m ev how], a <| loop := match how with TaskExit => LoopEnded | _ => next_turn a ev st pos live end |>, Ret tt)
    | _ => ([], a, Ret tt)
    end.
Proof. unfold loop_handled, mbind, M_bind, get_st. by destruct (loop a). Qed.

Lemma register_instance_returns a : result register_instance a = Ret tt.
Proof.
  unfold register_instance, result. rewrite gets_bind. apply for_each_returns. intros m a1. apply for_each_returns. intros c a2.
  unfold result. by rewrite register_handler_run.
Qed.

(** The handlers of an application whose loop has not started. *)
Lemma for_each_silent {B} (P : app → Prop) (l : list B) (f : B → AM ()) :
  (∀ x s, P s → ∃ s', f x s = ([], s', Ret tt) ∧ P s') → ∀ s, P s → ∃ s', for_each l f s = ([], s', Ret tt) ∧ P s'.
Proof.
  intros Hf. induction l as [|x l IH]; intros s Hs; [by exists s|]. destruct (Hf x s Hs) as (s1 & E1 & H1).
  destruct (IH s1 H1) as (s2 & E2 & H2). exists s2. split; [|done]. cbn [for_each]. unfold mbind, M_bind. by rewrite E1, E2.
Qed.

Lemma register_instance_silent a : loop a = NotStarted → outputs register_instance a = [].
Proof.
  intros Hl. unfold register_instance, outputs. rewrite gets_bind.
  destruct (for_each_silent (λ a, loop a = NotStarted) (methods a) (λ m, for_each (od_keys (callers m)) (λ c, register_handler c m))) with (s := a)
    as (s' & -> & _); [|done|done].
  intros m a1 H1. apply for_each_silent; [|done]. intros c a2 H2. rewrite register_handler_run. unfold iterates. cbn. rewrite H2. by eexists.
Qed.

Lemma unregister_handler_not_blocked c m a : result (unregister_handler c m) a ≠ Raise Blocked.
Proof.
  unfold unregister_handler, result, mbind, M_bind, get_st. destruct (od_get c (event_handlers a)) as [l|] eqn:El; cbn -[mark_disturbed]; rewrite ?El; [|done].
  cbn -[mark_disturbed]. destruct (list_remove m l) as [[|y l']|]; cbn -[mark_disturbed]; by rewrite ?mark_disturbed_run.
Qed.

Lemma blocked_no_effect op a :
  result (app_do op) a = Raise Blocked → final (app_do op) a = a ∧ outputs (app_do op) a = [].
Proof.
  destruct (is_quiet op) eqn:Eq.
  { intros H. exfalso. revert H. by apply app_do_quiet. }
  destruct op; try done; cbn [app_do].
  - by rewrite register_instance_returns.
  - unfold result. by rewrite register_handler_run.
  - intros H. by apply unregister_handler_not_blocked in H.
  - unfold result, final, outputs, _send_event. rewrite gets_bind. by destruct (_ =? 0).
  - unfold result, final, outputs, event_loop, loop_test, loop_get, loop_handled, mbind, M_bind, get_st.
    destruct (loop a) eqn:El; cbn; try done.
    + destruct (events a) as [|it q]; cbn; [done|]. unfold release_sem, mbind, M_bind; cbn.
      destruct (maxsize <=? _events_sem a); cbn; [done|]. by destruct it.
    + by rewrite El.
Qed.

Lemma put_queue_ok it a h :
  queue_ok a h → result (_send_event it) a ≠ Raise Blocked →
  queue_ok (final (_send_event it) a) (h ++ outputs (_send_event it) a).
Proof.
  intros [Hr Hf Hq (d & Hd & Ho)]. unfold _send_event, final, outputs, result.
  rewrite gets_bind. destruct (Z.eqb_spec (_events_sem a) 0) as [|Hne]; [done|]. intros _.
  unfold mbind, M_bind, modify, emit. cbn. split; cbn; try done.
  - rewrite length_app. cbn. lia.
  - lia.
  - by rewrite enqueued_app, taken_app, Hq, app_nil_r, <- app_assoc.
  - exists d. split; [by eapply performed_snoc|exact Ho].
Qed.

Lemma loop_get_run a :
  loop_get a =
    match events a with
    | [] => ([], a, Raise Blocked)
    | it :: q =>
        if maxsize <=? _events_sem a then ([], a <| events := q |>, Raise (Py ValueError)) else
        let a' := a <| events := q |> <| _events_sem := _events_sem a + 1 |> in
        match it with
        | EventStop => ([Taken it []], a' <| loop := AtTop |>, Ret tt)
        | Item ev st => ([Taken it (get_handlers a ev st)], a' <| loop := next_turn a ev st 0 true |>, Ret tt)
        end
    end.
Proof.
  unfold loop_get, release_sem, mbind, M_bind, get_st.
  destruct (events a) as [|it q]; cbn; [done|]. destruct (maxsize <=? _events_sem a); cbn; [done|].
  by destruct it as [ev st|].
Qed.

Lemma loop_test_queue_ok a h :
  loop a = AtTop → queue_ok a h → queue_ok (final loop_test a) (h ++ outputs loop_test a).
Proof.
  intros Hl [Hr Hf Hq (d & Hd & Ho)]. unfold on_duty, todo in Ho. rewrite Hl in Ho. unfold final, outputs. cbn.
  rewrite app_nil_r. split; cbn; try done. exists d. split; [done|]. unfold on_duty, todo. cbn. by destruct (_ || _).
Qed.

Lemma loop_get_queue_ok a h :
  loop a = InGet → queue_ok a h →
  queue_ok (final loop_get a) (h ++ outputs loop_get a) ∧ result loop_get a ≠ Raise (Py ValueError).
Proof.
  intros Hl Hok. pose proof Hok as [Hr Hf Hq (d & Hd & Ho)]. unfold on_duty, todo in Ho. rewrite Hl in Ho.
  unfold final, outputs, result. rewrite loop_get_run.
  destruct (events a) as [|it q] eqn:Ee.
  { cbn. by rewrite app_nil_r. }
  unfold maxsize in *. cbn [length] in Hr. rewrite (proj2 (Z.leb_gt _ _)) by lia.
  assert (∀ hs, perform d (Taken it hs) = Some (Owes (match it with Item ev _ => (λ m, (m, ev)) <$> hs | EventStop => [] end))) as Hp
    by (intros hs; by destruct d as [l|ev]; [subst l|]).
  destruct it as [ev st|]; cbn; (split; [|done]); split; cbn; try done; try (unfold maxsize; lia);
    try (rewrite enqueued_app, taken_app; cbn; by rewrite app_nil_r, <- app_assoc).
  - eexists. split; [by eapply performed_snoc; [done|apply Hp]|]. unfold on_duty. symmetry.
    etransitivity; [by apply (next_turn_todo a _ ev st 0 true)|done].
  - eexists. split; [by eapply performed_snoc; [done|apply Hp]|done].
Qed.

Lemma loop_handled_queue_ok how a h :
  queue_ok a h → queue_ok (final (loop_handled how) a) (h ++ outputs (loop_handled how) a).
Proof.
  intros Hok. pose proof Hok as [Hr Hf Hq (d & Hd & Ho)]. unfold final, outputs. rewrite loop_handled_run.
  destruct (loop a) as [| | |ev st m pos live|] eqn:El; cbn; rewrite ?app_nil_r; try done.
  split; cbn; try done; [by rewrite enqueued_app, taken_app; cbn; rewrite !app_nil_r|].
  unfold on_duty, todo in Ho. rewrite El in Ho.
  assert (∃ d', perform d (Handled m ev how) = Some d' ∧
    d' = match d with Owes _ => Owes (match how with TaskExit => [] | _ => (λ m, (m, ev)) <$> upcoming a ev st pos live end)
         | OwesSome _ => match how with TaskExit => Owes [] | _ => OwesSome ev end end) as (d' & Hp & Ed).
  { destruct d as [l|ev']; subst; cbn; rewrite decide_True by done; destruct how; by eexists. }
  exists d'. split; [by eapply performed_snoc|]. unfold on_duty. rewrite Ed. destruct d as [l|ev'].
  - destruct how; try done; symmetry; (etransitivity; [by apply (next_turn_todo a _ ev st pos live)|done]).
  - destruct how; try done; cbn; unfold next_turn; by destruct (next_handler _ _ _ _) as [[? ?]|].
Qed.

Lemma app_do_queue_ok op a h :
  app_enabled op a → result (app_do op) a ≠ Raise Blocked → queue_ok a h →
  queue_ok (final (app_do op) a) (h ++ outputs (app_do op) a).
Proof.
  intros He Hnb Hok. destruct (is_quiet op) eqn:Eq.
  { by apply (quiet_orderly _ (app_do_quiet op Eq)). }
  destruct op; try done; cbn [app_do] in *.
  - by apply register_instance_orderly.
  - by apply register_handler_orderly.
  - by apply unregister_handler_orderly.
  - by apply put_queue_ok.
  - specialize (He eq_refl). destruct Hok as [? ? ? (d & Hd & Ho)]. unfold on_duty, todo in Ho. rewrite He in Ho.
    unfold final, outputs. cbn. rewrite app_nil_r. split; try done. by exists d.
  - unfold event_loop, final, outputs, mbind, M_bind, get_st.
    destruct (loop a) eqn:El; cbn; try (by rewrite app_nil_r).
    + exact (loop_test_queue_ok a h El Hok).
    + destruct (loop_get_queue_ok a h El Hok) as [H _]. unfold final, outputs in H.
      by destruct (loop_get a) as [[o s] r].
    + pose proof (loop_handled_queue_ok how a h Hok) as H. unfold final, outputs in H.
      by destruct (loop_handled how a) as [[o s] r].
Qed.

Lemma reachable_queue_ok a h : reachable app_init app_step (a, h) → queue_ok a h.
Proof.
  intros Hr. revert Hr. apply (reachable_inv _ _ (λ x, queue_ok x.1 x.2)).
  - intros _ (n & ms & evs & ->). split; try done. by exists (Owes []).
  - intros [a0 h0] op _ Hok (He & Hbl & ->). cbn [fst snd] in *. by apply app_do_queue_ok.
Qed.

(** C13: The queue of an application, whatever its observers and its own handlers do: at most 128
    events wait and the semaphore counts the free places, so that neither putting an event nor
    the bounded semaphore ever fails; every event that was put is taken once, in the order put.
    The calls of handlers made so far fit the events taken ([performed]): those for an event are
    its handlers in order, all of them before the next event is taken unless one ends the loop,
    as long as the handlers of its class do not change meanwhile; after such a change the calls up
    to the next event are for this event only.  What remains to be called is what the loop goes
    on with. *)
Theorem events_delivered_in_order a h :
  reachable app_init app_step (a, h) →
  Z.of_nat (length (events a)) = maxsize - _events_sem a ∧ 0 ≤ _events_sem a ≤ maxsize ∧
  enqueued h = taken h ++ events a ∧
  (∃ d, performed h = Some d ∧ on_duty a d) ∧
  (∀ it, result (_send_event it) a = Ret tt ∨ result (_send_event it) a = Raise Blocked) ∧
  (∀ how, result (event_loop how) a = Ret tt ∨ result (event_loop how) a = Raise Blocked).
Proof.
  intros Hr. pose proof (reachable_queue_ok a h Hr) as Hok.
  pose proof Hok as [Hroom Hf Hq Hc]. split_and!; try done; try lia.
  - intros it. unfold _send_event, result. rewrite gets_bind. destruct (_ =? 0); auto.
  - intros how. unfold event_loop, result, mbind, M_bind, get_st.
    destruct (loop a) as [| | |ev ms|] eqn:El; cbn; auto.
    + destruct (loop_get_queue_ok a h El Hok) as [_ Hne]. unfold result in Hne.
      pose proof (loop_get_run a) as E. destruct (loop_get a) as [[o s] [[]|e]]; cbn in *; auto.
      right. f_equal. destruct (events a) as [|[]]; try congruence;
        destruct (maxsize <=? _); congruence.
    + rewrite loop_handled_run, El. auto.
Qed.

(** ** Stopping *)

(** The event loop alone, for at most [n] turns, with handlers that return. *)
Fixpoint loop_run (n : nat) : AM () :=
  match n with
  | O => mret tt
  | S n =>
      a ← get_st;
      match loop a with
      | LoopEnded => mret tt
      | _ => event_loop Returned;; loop_run n
      end
  end.

(** The calls an event asks for, and the turns it takes. *)
Definition item_calls (a : app) (it : item) : list (method * event) :=
  match it with
  | Item ev st => (λ m, (m, ev)) <$> get_handlers a ev st
  | EventStop => []
  end.

Definition remaining (a : app) : list (method * event) :=
  todo a ++ concat (item_calls a <$> events a).

Definition turns (a : app) : nat :=
  match loop a with InGet => 0 | _ => 1 end + 2 * length (events a) + length (remaining a).

(** The loop will go on by itself. *)
Definition running (a : app) : Prop :=
  match loop a with
  | AtTop => True
  | InGet => events a ≠ []
  | InHandler _ _ _ _ _ => True
  | NotStarted | LoopEnded => False
  end.

Lemma item_calls_same a a' it :
  event_handlers a' = event_handlers a → item_calls a' it = item_calls a it.
Proof. intros H. unfold item_calls, get_handlers. by rewrite H. Qed.

Lemma remaining_same a a' :
  event_handlers a' = event_handlers a → remaining a' = todo a' ++ concat (item_calls a <$> events a').
Proof.
  intros H. unfold remaining. do 2 f_equal. apply list_fmap_ext. intros _ it _. by apply item_calls_same.
Qed.

(** A turn of a loop that is running in an application that is not active. *)
Lemma stopped_turn a :
  is_active a = false → running a → _events_sem a + Z.of_nat (length (events a)) ≤ maxsize →
  (events a = [] ∧ loop a = AtTop ∧
   event_loop Returned a = ([], a <| loop := LoopEnded |>, Ret tt)) ∨
  ∃ o a', event_loop Returned a = (o, a', Ret tt) ∧ is_active a' = false ∧ running a' ∧
    _events_sem a' + Z.of_nat (length (events a')) ≤ maxsize ∧
    calls o ++ remaining a' = remaining a ∧ S (turns a') = turns a.
Proof.
  intros Ha Hrun Hroom. unfold event_loop, mbind, M_bind, get_st. unfold running in Hrun.
  assert (∀ a' ev st pos live, loop a' = next_turn a ev st pos live → running a' ∧ match loop a' with InGet => 0 | _ => 1 end%nat = 1%nat) as Hnext
    by (intros a' ev st pos live E; unfold running; rewrite E; unfold next_turn; by destruct (next_handler _ _ _ _) as [[? ?]|]).
  destruct (loop a) as [| | |ev st m pos live|] eqn:Hl; try done.
  - destruct (events a) as [|it q] eqn:Eq.
    { left. unfold loop_test, modify. cbn. by rewrite Ha, Eq. }
    right. exists [], (a <| loop := InGet |>). unfold loop_test, modify. cbn. rewrite Ha, Eq.
    split_and!; [done|done|unfold running; cbn; congruence|exact Hroom|..];
      unfold turns, remaining, todo; cbn; by rewrite Hl, Eq.
  - right. rewrite loop_get_run. destruct (events a) as [|it q] eqn:Eq; [done|].
    cbn [length] in Hroom. rewrite (proj2 (Z.leb_gt _ _)) by lia. cbv zeta.
    assert (remaining a = item_calls a it ++ concat (item_calls a <$> q)) as Er by (unfold remaining, todo; by rewrite Hl, Eq).
    destruct it as [ev st|]; (do 2 eexists; split; [reflexivity|]).
    + set (a' := a <| events := q |> <| _events_sem := _events_sem a + 1 |> <| loop := next_turn a ev st 0 true |>).
      assert (calls [Taken (Item ev st) (get_handlers a ev st)] ++ remaining a' = remaining a) as Ec.
      { rewrite Er, (remaining_same a a'), (next_turn_todo a a' ev st 0 true) by done. done. }
      destruct (Hnext a' ev st 0%nat true eq_refl) as [Hgo Hn].
      split_and!; [done|exact Hgo|cbn; lia|done|]. unfold turns. rewrite <- Ec, Hl, Eq, Hn. cbn. lia.
    + set (a' := a <| events := q |> <| _events_sem := _events_sem a + 1 |> <| loop := AtTop |>).
      assert (remaining a' = remaining a) as Ec by (unfold remaining, todo; cbn; by rewrite Hl, Eq).
      split_and!; [done|done|cbn; lia|exact Ec|]. unfold turns. rewrite Ec, Hl, Eq. cbn. lia.
  - right. rewrite loop_handled_run, Hl. eexists _, _. split; [reflexivity|]. set (a' := a <| loop := next_turn a ev st pos live |>).
    assert (remaining a = (m, ev) :: remaining a') as Er.
    { rewrite (remaining_same a a'), (next_turn_todo a a' ev st pos live) by done. unfold remaining, todo. by rewrite Hl. }
    destruct (Hnext a' ev st pos live eq_refl) as [Hgo Hn].
    split_and!; [done|exact Hgo|done|done|]. unfold turns. rewrite Er, Hl, Hn. cbn. lia.
Qed.

Lemma stop_drains_from n a :
  is_active a = false → running a → _events_sem a + Z.of_nat (length (events a)) ≤ maxsize →
  (turns a ≤ n)%nat →
  ∃ o a', loop_run n a = (o, a', Ret tt) ∧ loop a' = LoopEnded ∧ events a' = [] ∧
          calls o = remaining a.
Proof.
  revert a. induction n as [|n IH]; intros a Ha Hrun Hroom Hn.
  { unfold turns, running in *. destruct (loop a), (events a); cbn in Hn; done || lia. }
  assert (loop_run (S n) a = (event_loop Returned;; loop_run n) a) as ->.
  { cbn [loop_run]. unfold mbind at 1, M_bind at 1, get_st at 1. unfold running in Hrun.
    by destruct (loop a); try done; destruct ((event_loop Returned;; loop_run n) a) as [[? ?] ?]. }
  unfold mbind, M_bind.
  destruct (stopped_turn a Ha Hrun Hroom) as [(Hq & Hl & ->)|(o & a1 & -> & Ha1 & Hr1 & Hm1 & Hc & Ht)].
  - exists [], (a <| loop := LoopEnded |>). split_and!; [by destruct n|done|done|].
    unfold remaining, todo. by rewrite Hq, Hl.
  - destruct (IH a1 Ha1 Hr1 Hm1 ltac:(lia)) as (o2 & a2 & -> & Hl2 & He2 & Hc2).
    exists (o ++ o2), a2. split_and!; try done. by rewrite calls_app, Hc2.
Qed.

(** Stopping loses nothing: once an application is marked inactive, its event loop
    handles the rest of the current event and every event still queued, in order, and
    then ends, within a number of turns that its queue determines. *)
Theorem stop_drains_queue a h n :
  reachable app_init app_step (a, h) → is_active a = false → running a →
  (turns a ≤ n)%nat →
  let run := loop_run n a in
  run.2 = Ret tt ∧ loop run.1.2 = LoopEnded ∧ events run.1.2 = [] ∧
  calls run.1.1 = todo a ++ concat (item_calls a <$> events a).
Proof.
  intros Hr Ha Hl Hn run. assert (queue_ok a h) as Hok by (by apply reachable_queue_ok).
  destruct (stop_drains_from n a Ha Hl) as (o & a' & E & H1 & H2 & H3); [destruct Hok; lia|done|].
  unfold run. by rewrite E.
Qed.

(** ** The service bricks and the manager *)

(** A call of [_send_event] that a thread has still to make. *)
Inductive send :=
| ToApp (src : string) (n : option string) (ev : event) (state : option string)
| StopTo (i : nat).

(** The applications by index, the two dictionaries, the threads that are in the middle
    of sending, the reply queues, and the OpenFlow versions all applications support. *)
Record sys := Sys {
  objs : list app;
  SERVICE_BRICKS : odict string nat;
  applications : odict string nat;
  pending : list (list send);
  reply_qs : list (list event);
  supported_versions : list Z
}.

#[global] Instance eta_sys : Eta sys := EtaBox (λ s,
  Sys (objs s) (SERVICE_BRICKS s) (applications s) (pending s) (reply_qs s)
    (supported_versions s)).

Inductive sys_out :=
| At (i : nat) (o : app_out)
| Lost (n : option string) (ev : event).

Abbreviation SM := (M sys exn sys_out).

(** An operation of the object [i]. *)
Definition on_obj {A} (i : nat) (m : AM A) : SM A := λ s,
  match objs s !! i with
  | Some a =>
      let '(o, a', r) := m a in (At i <$> o, s <| objs ::= <[i := a']> |>, r)
  | None => ([], s, Raise (Py AttributeError))
  end.

Definition lookup_service_brick (n : string) (s : sys) : option nat := od_get n (SERVICE_BRICKS s).

(** [mod_name.split('.')[-1]] *)
Fixpoint last_component_from (acc mod_name : string) : string :=
  match mod_name with
  | EmptyString => acc
  | String c rest =>
      if bool_decide (c = "."%char) then last_component_from "" rest
      else last_component_from (acc +:+ String c "") rest
  end.

Definition last_component : string → string := last_component_from "".

Definition _lookup_service_brick_by_mod_name (mod_name : string) : sys → option nat :=
  lookup_service_brick (last_component mod_name).

Definition _lookup_service_brick_by_ev_cls (c : class) : sys → option nat :=
  _lookup_service_brick_by_mod_name c.1.

Definition observe_event (i : nat) (c : class) (states : list string) : SM () :=
  b ← gets (_lookup_service_brick_by_ev_cls c);
  match b : option nat with
  | Some b =>
      n ← on_obj i (gets name);
      on_obj b (register_observer c n states)
  | None => mret tt
  end.

Definition unobserve_event (i : nat) (c : class) : SM () :=
  b ← gets (_lookup_service_brick_by_ev_cls c);
  match b : option nat with
  | Some b =>
      n ← on_obj i (gets name);
      on_obj b (unregister_observer c n)
  | None => mret tt
  end.

Definition set_src (src : string) (ev : event) : event :=
  match ev_kind ev with
  | EventRequestBase dst _ q => Event (ev_class ev) (EventRequestBase dst (Some src) q) (ev_data ev)
  | _ => ev
  end.

Definition send_event (src : string) (n : option string) (ev : event) (state : option string)
  : SM () :=
  b ← gets (λ s, n ← n; lookup_service_brick n s);
  match b : option nat with
  | Some b => on_obj b (_send_event (Item (set_src src ev) state))
  | None => emit (Lost n ev)
  end.

Definition do_send (x : send) : SM () :=
  match x with
  | ToApp src n ev st => send_event src n ev st
  | StopTo i => on_obj i (_send_event EventStop)
  end.

(** [send_event_to_observers]: the observers are those of its start; the calls of
    [send_event] follow, each when there is room. *)
Definition send_event_to_observers (i : nat) (ev : event) (state : option string) : SM () :=
  a ← on_obj i get_st;
  let sends := (λ n, ToApp (name a) (Some n) ev state) <$> get_observers a ev state in
  modify (λ s, s <| pending ::= λ l, l ++ [sends] |>).

(** The thread [t] makes its next call. *)
Definition resume (t : nat) : SM () :=
  ps ← gets pending;
  match ps !! t : option (list send) with
  | Some (x :: rest) => do_send x;; modify (λ s, s <| pending ::= <[t := rest]> |>)
  | _ => mret tt
  end.

(** [send_request] up to waiting for the reply; the new queue is the result. *)
Definition send_request (i : nat) (c : class) (dst : option string) (data : Z) : SM nat :=
  a ← on_obj i get_st;
  q ← gets (λ s, length (reply_qs s));
  modify (λ s, s <| reply_qs ::= λ l, l ++ [[]] |>);;
  let req := Event c (EventRequestBase dst (Some (name a)) (Some q)) data in
  modify (λ s, s <| pending ::= λ l, l ++
    [[ToApp (name a) dst req None]] |>);;
  mret q.

Definition reply_to_request (i : nat) (req rep : event) : SM () :=
  match ev_kind req, ev_kind rep with
  | EventRequestBase _ src q, EventReplyBase _ =>
      let rep := Event (ev_class rep) (EventReplyBase src) (ev_data rep) in
      match q with
      | Some q => modify (λ s, s <| reply_qs ::= alter (M := list (list event)) (λ l, l ++ [rep]) q |>)
      | None =>
          a ← on_obj i get_st;
          modify (λ s, s <| pending ::= λ l, l ++
            [[ToApp (name a) src rep None]] |>)
      end
  | _, _ => raise (Py AssertionError)
  end.

(** [_update_bricks] *)
Definition truthy (source : option string) : bool :=
  match source with Some src => negb (bool_decide (src = "")) | None => false end.

Definition update_caller (n : string) (kc : class * caller) : SM () :=
  let '(c, cl) := kc in
  when (truthy (ev_source cl)) (
    b ← gets (_lookup_service_brick_by_mod_name (default "" (ev_source cl)));
    match b : option nat with
    | Some b => on_obj b (register_observer c n (dispatchers cl))
    | None => mret tt
    end;;
    bs ← gets (λ s, od_values (SERVICE_BRICKS s));
    for_each bs (λ b,
      evs ← on_obj b (gets _EVENTS);
      when (bool_decide (c ∈ (evs : list class))) (on_obj b (register_observer c n (dispatchers cl))))).

Definition _update_bricks : SM () :=
  ids ← gets (λ s, od_values (SERVICE_BRICKS s));
  for_each ids (λ i,
    a ← on_obj i get_st;
    for_each (methods a) (λ m, for_each (callers m) (update_caller (name a)))).

(** [register_app] of a new object. *)
Definition register_app (i : nat) : SM () :=
  n ← on_obj i (gets name);
  m ← gets (λ s, od_mem n (SERVICE_BRICKS s));
  assert_ (negb m) (Py AssertionError);;
  modify (λ s, s <| SERVICE_BRICKS ::= od_set n i |>);;
  on_obj i register_instance.

(** What the class of an application gives its instances. *)
Record app_cls := AppCls {
  cls_name : string;
  cls_methods : list method;
  cls_EVENTS : list class;
  cls_OFP_VERSIONS : option (list Z)
}.

(** The set in [ofproto_protocol.py] and its function. *)
Definition set_app_supported_versions (vers : list Z) : SM () :=
  modify (λ s, s <| supported_versions ::= filter (λ v, v ∈ vers) |>);;
  vs ← gets supported_versions;
  assert_ (nonempty vs) (Py AssertionError).

Definition new_instance (app_name : option string) (cls : app_cls) : SM nat :=
  match app_name with
  | Some n => m ← gets (λ s, od_mem n (applications s)); assert_ (negb m) (Py AssertionError)
  | None => mret tt
  end;;
  i ← gets (λ s, length (objs s));
  modify (λ s, s <| objs ::= λ l, l ++ [new_app (cls_name cls) (cls_methods cls) (cls_EVENTS cls)] |>);;
  register_app i;;
  m ← gets (λ s, od_mem (cls_name cls) (applications s));
  assert_ (negb m) (Py AssertionError);;
  modify (λ s, s <| applications ::= od_set (cls_name cls) i |>);;
  mret i.

Definition _instantiate (app_name : option string) (cls : app_cls) : SM nat :=
  match cls_OFP_VERSIONS cls with
  | Some vers => set_app_supported_versions vers
  | None => mret tt
  end;;
  new_instance app_name cls.

Definition instantiate (cls : app_cls) : SM nat :=
  i ← _instantiate None cls;
  _update_bricks;;
  mret i.

Definition instantiate_apps (applications_cls : odict string app_cls) : SM () :=
  for_each applications_cls (λ '(n, cls), _instantiate (Some n) cls;; mret tt);;
  _update_bricks;;
  ids ← gets (λ s, od_values (applications s));
  for_each ids (λ i, on_obj i start).

(** [uninstantiate] up to [app.stop()], whose stop event is still to be sent. *)
Definition uninstantiate (n : string) : SM () :=
  i ← gets (λ s, od_get n (applications s));
  i ← or_raise (i : option nat) (Py KeyError);
  modify (λ s, s <| applications ::= od_del n |>);;
  n' ← on_obj i (gets name);
  m ← gets (λ s, od_mem n' (SERVICE_BRICKS s));
  (if (m : bool) then modify (λ s, s <| SERVICE_BRICKS ::= od_del n' |>) else raise (Py KeyError));;
  bs ← gets (λ s, od_values (SERVICE_BRICKS s));
  for_each bs (λ b, on_obj b (unregister_observer_all_event n));;
  on_obj i stop_begin;;
  modify (λ s, s <| pending ::= λ l, l ++ [[StopTo i]] |>).

(** ** The steps of the system *)

Inductive sys_op :=
| OnApp (i : nat) (op : app_op)
| ObserveEvent (i : nat) (c : class) (states : list string)
| UnobserveEvent (i : nat) (c : class)
| SendEvent (src : string) (n : string) (ev : event) (state : option string)
| SendEventToObservers (i : nat) (ev : event) (state : option string)
| SendRequest (i : nat) (c : class) (dst : option string) (data : Z)
| ReplyToRequest (i : nat) (req rep : event)
| Resume (t : nat)
| Instantiate (cls : app_cls)
| UpdateBricks
| Uninstantiate (n : string).

Definition sys_do (op : sys_op) : SM () :=
  match op with
  | OnApp i op => on_obj i (app_do op)
  | ObserveEvent i c states => observe_event i c states
  | UnobserveEvent i c => unobserve_event i c
  | SendEvent src n ev st => send_event src (Some n) ev st
  | SendEventToObservers i ev st => send_event_to_observers i ev st
  | SendRequest i c dst data => send_request i c dst data;; mret tt
  | ReplyToRequest i req rep => reply_to_request i req rep
  | Resume t => resume t
  | Instantiate cls => instantiate cls;; mret tt
  | UpdateBricks => _update_bricks
  | Uninstantiate n => uninstantiate n
  end.

(** An event loop is started once. *)
Definition sys_enabled (op : sys_op) (s : sys) : Prop :=
  ∀ i a, op = OnApp i Start → objs s !! i = Some a → loop a = NotStarted.

Definition sys_step (x : sys * list sys_out) (op : sys_op) (y : sys * list sys_out) : Prop :=
  sys_enabled op x.1 ∧ y = (final (sys_do op) x.1, x.2 ++ outputs (sys_do op) x.1).

Definition sys_init (x : sys * list sys_out) : Prop := x = (Sys [] [] [] [] [] [1; 3; 4; 5; 6], []).

(** What the object [i] has put out. *)
Definition outs_of (i : nat) (h : list sys_out) : list app_out :=
  omap (λ o, match o with At j x => if decide (i = j) then Some x else None | _ => None end) h.

Lemma outs_of_app i h h' : outs_of i (h ++ h') = outs_of i h ++ outs_of i h'.
Proof. apply omap_app. Qed.

Lemma outs_of_at i j o : outs_of i (At j <$> o) = if decide (i = j) then o else [].
Proof.
  unfold outs_of. induction o as [|x o IH]; cbn; [by case_decide|].
  case_decide; cbn; by rewrite IH.
Qed.

(** *** Every object lives the life of an application *)

Definition all_live (s : sys) (h : list sys_out) : Prop :=
  (∀ i a, objs s !! i = Some a → reachable app_init app_step (a, outs_of i h)) ∧
  (∀ i, objs s !! i = None → outs_of i h = []).

Definition lives {A} (m : SM A) : Prop :=
  ∀ s h, all_live s h → all_live (final m s) (h ++ outputs m s).

Lemma lives_bind {A B} (m : SM A) (k : A → SM B) : lives m → (∀ x, lives (k x)) → lives (m ≫= k).
Proof.
  intros Hm Hk s h Hs. specialize (Hm s h Hs). unfold final, outputs, mbind, M_bind in *.
  destruct (m s) as [[o1 s1] [x|e]]; cbn in *; [|done].
  specialize (Hk x s1 _ Hm). unfold final, outputs in Hk.
  destruct (k x s1) as [[o2 s2] r2]. cbn in *. by rewrite app_assoc.
Qed.

Lemma lives_still {A} (m : SM A) :
  (∀ s, objs (final m s) = objs s ∧ omap (λ o, match o with At i x => Some (i, x) | _ => None end)
                                         (outputs m s) = []) → lives m.
Proof.
  intros Hm s h [H1 H2]. destruct (Hm s) as [Ho Hx].
  assert (∀ i, outs_of i (outputs m s) = []) as He.
  { intros i. unfold outs_of. induction (outputs m s) as [|[j x|n ev] o IH]; cbn in *; [done..|].
    by apply IH. }
  split; rewrite Ho; intros i; rewrite outs_of_app, He, app_nil_r; auto.
Qed.

Lemma lives_ret {A} (x : A) : lives (mret x).
Proof. apply lives_still. by intros s. Qed.
Lemma lives_raise {A} e : lives (raise e : SM A).
Proof. apply lives_still. by intros s. Qed.
Lemma lives_gets {A} (f : sys → A) : lives (gets f).
Proof. apply lives_still. by intros s. Qed.
Lemma lives_or_raise {A} (o : option A) e : lives (or_raise o e).
Proof. destruct o; [apply lives_ret|apply lives_raise]. Qed.
Lemma lives_lost n ev : lives (emit (Lost n ev)).
Proof. apply lives_still. by intros s. Qed.
Lemma lives_modify f : (∀ s, objs (f s) = objs s) → lives (modify f).
Proof. intros H. apply lives_still. by intros s. Qed.

Lemma lives_for_each {B} (l : list B) (f : B → SM ()) : (∀ x, lives (f x)) → lives (for_each l f).
Proof.
  intros Hf. induction l as [|x l IH]; [apply lives_ret|]. cbn [for_each]. by apply lives_bind.
Qed.

(** Reading an object. *)
Lemma lives_read {A} i (m : AM A) : (∀ a, final m a = a ∧ outputs m a = []) → lives (on_obj i m).
Proof.
  intros Hm. apply lives_still. intros s. unfold on_obj, final, outputs.
  destruct (objs s !! i) as [a|] eqn:E; [|done]. destruct (Hm a) as [Hf Ho].
  unfold final, outputs in *. destruct (m a) as [[o a'] r]. cbn in *. subst.
  split; [|done]. by apply list_insert_id.
Qed.

Lemma lives_app_do i op : op ≠ Start → lives (on_obj i (app_do op)).
Proof.
  intros Hst s h [H1 H2]. unfold on_obj, final, outputs.
  destruct (objs s !! i) as [a|] eqn:E; cbn; [|by rewrite app_nil_r].
  assert (reachable app_init app_step
    (final (app_do op) a, outs_of i h ++ outputs (app_do op) a)) as Ha.
  { destruct (decide (result (app_do op) a = Raise Blocked)) as [Hb|Hb].
    - destruct (blocked_no_effect op a Hb) as [-> ->]. rewrite app_nil_r. by apply H1.
    - eapply reach_step; [apply (H1 i a E)|]. split; [by intros ?%Hst|done]. }
  unfold final, outputs in Ha. destruct (app_do op a) as [[o a'] r]. cbn in *.
  split; cbn; intros j; rewrite outs_of_app, outs_of_at.
  - intros b. destruct (decide (j = i)) as [->|Hne].
    + rewrite list_lookup_insert_eq by (by apply lookup_lt_Some in E). by intros [= <-].
    + rewrite list_lookup_insert_ne, app_nil_r by done. apply H1.
  - destruct (decide (j = i)) as [->|Hne].
    + rewrite list_lookup_insert_eq by (by apply lookup_lt_Some in E). done.
    + rewrite list_lookup_insert_ne, app_nil_r by done. apply H2.
Qed.

Lemma lives_new_obj n ms evs : lives (modify (λ s, s <| objs ::= λ l, l ++ [new_app n ms evs] |>)).
Proof.
  intros s h [H1 H2]. unfold final, outputs. cbn. rewrite app_nil_r. split; cbn; intros i.
  - intros a [Hi|[Hi Ha]]%lookup_app_Some; [by apply H1|].
    apply list_lookup_singleton_Some in Ha as [Hz <-].
    rewrite H2 by (apply lookup_ge_None_2; lia). apply reach_init. by exists n, ms, evs.
  - rewrite !lookup_ge_None, length_app. intros Hi. apply H2, lookup_ge_None_2. lia.
Qed.

Ltac lives :=
  repeat match goal with
  | |- lives (let _ := _ in _) => cbv zeta
  | |- lives (_ ≫= _) => apply lives_bind; [|intros ?]
  | |- lives (for_each _ _) => apply lives_for_each; intros ?
  | |- lives (modify _) => first [apply lives_new_obj | apply lives_modify; by intros ?]
  | |- lives (gets _) => apply lives_gets
  | |- lives (mret _) => apply lives_ret
  | |- lives (raise _) => apply lives_raise
  | |- lives (emit (Lost _ _)) => apply lives_lost
  | |- lives (or_raise _ _) => apply lives_or_raise
  | |- lives (when ?b _) => destruct b; unfold when
  | |- lives (assert_ ?b _) => destruct b; unfold assert_
  | |- lives (on_obj _ (gets _)) => apply lives_read; by intros ?
  | |- lives (on_obj _ get_st) => apply lives_read; by intros ?
  | |- lives (on_obj ?i (register_observer ?c ?n ?st)) =>
      by apply (lives_app_do i (RegisterObserver c n st))
  | |- lives (on_obj ?i (unregister_observer ?c ?n)) =>
      by apply (lives_app_do i (UnregisterObserver c n))
  | |- lives (on_obj ?i (unregister_observer_all_event ?n)) =>
      by apply (lives_app_do i (UnregisterObserverAllEvent n))
  | |- lives (on_obj ?i (_send_event ?it)) => by apply (lives_app_do i (Put it))
  | |- lives (on_obj ?i register_instance) => by apply (lives_app_do i RegisterInstance)
  | |- lives (on_obj ?i stop_begin) => by apply (lives_app_do i StopBegin)
  | |- lives (match ?x with _ => _ end) => destruct x
  end.

Lemma send_event_lives src n ev st : lives (send_event src n ev st).
Proof. unfold send_event. lives. Qed.

Lemma update_bricks_lives : lives _update_bricks.
Proof. unfold _update_bricks, update_caller. lives. Qed.

Lemma sys_do_lives op s h :
  sys_enabled op s → all_live s h → all_live (final (sys_do op) s) (h ++ outputs (sys_do op) s).
Proof.
  intros He Hs. destruct op; cbn [sys_do].
  { destruct (decide (op = Start)) as [->|Hne]; [|by apply lives_app_do].
    destruct Hs as [H1 H2]. unfold on_obj, final, outputs.
    destruct (objs s !! i) as [a|] eqn:E; cbn; [|rewrite app_nil_r; by split].
    rewrite app_nil_r. split; cbn; intros j.
    - intros b. destruct (decide (j = i)) as [->|Hne].
      + rewrite list_lookup_insert_eq by (by apply lookup_lt_Some in E). intros [= <-].
        apply (reach_step _ _ (a, outs_of i h) Start); [apply (H1 i a E)|].
        split; [intros _; by apply (He i a)|].
        split; [done|]. unfold outputs. cbn. by rewrite app_nil_r.
      + rewrite list_lookup_insert_ne by done. apply H1.
    - intros Hj. apply H2. by rewrite lookup_ge_None, length_insert, <- lookup_ge_None in Hj. }
  all: match goal with |- all_live (final ?m _) _ => enough (lives m) as H by exact (H s h Hs) end.
  - unfold observe_event. lives.
  - unfold unobserve_event. lives.
  - apply send_event_lives.
  - unfold send_event_to_observers. lives.
  - unfold send_request. lives.
  - unfold reply_to_request. lives.
  - unfold resume, do_send. lives. apply send_event_lives.
  - unfold instantiate, _instantiate, set_app_supported_versions, new_instance, register_app. lives. apply update_bricks_lives.
  - apply update_bricks_lives.
  - unfold uninstantiate. lives.
Qed.

(** *** The dictionaries agree *)

Record sys_ok (s : sys) : Prop := {
  ok_same : ∀ n, od_get n (applications s) = od_get n (SERVICE_BRICKS s);
  ok_bricks : od_ok (SERVICE_BRICKS s);
  ok_named : ∀ n i, od_get n (SERVICE_BRICKS s) = Some i → name <$> objs s !! i = Some n
}.

Definition keeps_name {A} (m : AM A) : Prop := ∀ n, preserves (λ a, name a = n) m.

Lemma on_obj_ok {A} i (m : AM A) : keeps_name m → preserves sys_ok (on_obj i m).
Proof.
  intros Hm s [H1 H2 H3]. unfold on_obj, final.
  destruct (objs s !! i) as [a|] eqn:E; [|done]. specialize (Hm (name a) a eq_refl).
  unfold final in Hm. destruct (m a) as [[o a'] r]. cbn in *. split; cbn; try done.
  intros n j Hj. specialize (H3 n j Hj). destruct (decide (j = i)) as [->|Hne].
  - rewrite E in H3. rewrite list_lookup_insert_eq by (by apply lookup_lt_Some in E). cbn in *.
    congruence.
  - by rewrite list_lookup_insert_ne.
Qed.

Lemma app_do_keeps_name op : keeps_name (app_do op).
Proof.
  intros n. destruct op; cbn [app_do]; unfold register_instance, register_handler,
    unregister_handler, register_observer, unregister_observer, unregister_observer_all_event,
    _send_event, mark_disturbed, start, stop_begin, event_loop, loop_test, loop_get, release_sem, loop_handled;
    preserve; done.
Qed.

(** Reading and the operations of one application keep the dictionaries. *)
Lemma on_obj_do_ok i op : preserves sys_ok (on_obj i (app_do op)).
Proof. apply on_obj_ok, app_do_keeps_name. Qed.

Lemma on_obj_get_ok i : preserves sys_ok (on_obj i get_st).
Proof. apply on_obj_ok. by intros n a. Qed.

Lemma on_obj_gets_ok {A} i (f : app → A) : preserves sys_ok (on_obj i (gets f)).
Proof. apply on_obj_ok. by intros n a. Qed.

#[local] Hint Resolve on_obj_get_ok on_obj_gets_ok : pres.
#[local] Hint Extern 1 (preserves sys_ok (on_obj ?i (register_observer ?c ?n ?st))) =>
  exact (on_obj_do_ok i (RegisterObserver c n st)) : pres.
#[local] Hint Extern 1 (preserves sys_ok (on_obj ?i (unregister_observer ?c ?n))) =>
  exact (on_obj_do_ok i (UnregisterObserver c n)) : pres.
#[local] Hint Extern 1 (preserves sys_ok (on_obj ?i (unregister_observer_all_event ?n))) =>
  exact (on_obj_do_ok i (UnregisterObserverAllEvent n)) : pres.
#[local] Hint Extern 1 (preserves sys_ok (on_obj ?i (_send_event ?it))) =>
  exact (on_obj_do_ok i (Put it)) : pres.
#[local] Hint Extern 1 (preserves sys_ok (on_obj ?i stop_begin)) =>
  exact (on_obj_do_ok i StopBegin) : pres.
#[local] Hint Extern 1 (preserves sys_ok (on_obj ?i register_instance)) =>
  exact (on_obj_do_ok i RegisterInstance) : pres.

Lemma sys_ok_pending s f : sys_ok s → sys_ok (s <| pending ::= f |>).
Proof. by intros []. Qed.

Lemma sys_ok_reply_qs s f : sys_ok s → sys_ok (s <| reply_qs ::= f |>).
Proof. by intros []. Qed.

Lemma send_event_ok src n ev st : preserves sys_ok (send_event src n ev st).
Proof. unfold send_event. preserve. Qed.

Lemma update_bricks_ok : preserves sys_ok _update_bricks.
Proof. unfold _update_bricks, update_caller. preserve. Qed.

#[local] Hint Resolve send_event_ok update_bricks_ok : pres.

(** *** Instantiation *)

Lemma sys_ok_new_obj a s : sys_ok s → sys_ok (s <| objs ::= λ l, l ++ [a] |>).
Proof.
  intros [H1 H2 H3]. split; cbn; try done. intros n i Hi. specialize (H3 n i Hi).
  destruct (objs s !! i) as [b|] eqn:E; [|done]. by rewrite (lookup_app_l_Some _ _ _ _ E).
Qed.

Lemma on_obj_gets {A} i (f : app → A) s a :
  objs s !! i = Some a → on_obj i (gets f) s = ([], s, Ret (f a)).
Proof.
  intros H. unfold on_obj. rewrite H. cbn. rewrite list_insert_id by done. by destruct s.
Qed.

Lemma on_obj_get i s a : objs s !! i = Some a → on_obj i get_st s = ([], s, Ret a).
Proof. exact (on_obj_gets i id s a). Qed.

(** An operation of one object that returns and puts out nothing. *)
Lemma on_obj_quiet i (m : AM ()) s a :
  objs s !! i = Some a → outputs m a = [] → result m a = Ret tt →
  on_obj i m s = ([], s <| objs ::= <[i := final m a]> |>, Ret tt).
Proof.
  intros H Ho Hr. unfold on_obj, outputs, final, result in *. rewrite H.
  destruct (m a) as [[o a'] r]. cbn in *. by subst.
Qed.

Lemma silent_bind {A B} (m : SM A) (k : A → SM B) s s' x :
  m s = ([], s', Ret x) → (m ≫= k) s = k x s'.
Proof. intros H. rewrite (run_bind _ _ _ _ _ _ H). by destruct (k x s') as [[? ?] ?]. Qed.

(** A new application under a name that is not taken. *)
Lemma instantiate_fresh cls s :
  sys_ok s → od_get (cls_name cls) (SERVICE_BRICKS s) = None →
  let a := new_app (cls_name cls) (cls_methods cls) (cls_EVENTS cls) in
  let i := length (objs s) in
  new_instance None cls s =
    ([], s <| objs ::= λ l, l ++ [final register_instance a] |>
           <| SERVICE_BRICKS ::= od_set (cls_name cls) i |>
           <| applications ::= od_set (cls_name cls) i |>, Ret i).
Proof.
  intros [H1 H2 H3] Hn a i. unfold new_instance. rewrite ret_bind, gets_bind. fold i.
  erewrite silent_bind by reflexivity. set (s1 := s <| objs ::= _ |>).
  assert (objs s1 !! i = Some a) as Ha by (unfold s1, i; cbn; by rewrite lookup_app_r, Nat.sub_diag).
  set (s2 := s1 <| SERVICE_BRICKS ::= od_set (cls_name cls) i |>).
  assert (register_app i s1 = ([], s2 <| objs ::= <[i := final register_instance a]> |>, Ret tt)) as E.
  { unfold register_app. rewrite (silent_bind _ _ _ _ _ (on_obj_gets i name s1 a Ha)), gets_bind.
    assert (od_mem (name a) (SERVICE_BRICKS s1) = false) as ->.
    { unfold od_mem. cbn. rewrite Hn. apply bool_decide_false. by intros []. }
    cbn [assert_ negb]. rewrite ret_bind.
    erewrite silent_bind by reflexivity. apply on_obj_quiet; [done| |apply register_instance_returns].
    by apply register_instance_silent. }
  rewrite (silent_bind _ _ _ _ _ E), gets_bind.
  assert (od_mem (cls_name cls) (applications s) = false) as Hm.
  { unfold od_mem. rewrite H1, Hn. apply bool_decide_false. by intros []. }
  match goal with |- context [assert_ (negb ?b)] => change b with (od_mem (cls_name cls) (applications s)) end.
  rewrite Hm. cbn [assert_ negb]. rewrite ret_bind.
  erewrite silent_bind by reflexivity. unfold s2, s1, i. cbn.
  by rewrite insert_app_r_alt, Nat.sub_diag by done.
Qed.

(** One under a name that is taken. *)
Lemma instantiate_taken cls s :
  od_mem (cls_name cls) (SERVICE_BRICKS s) = true →
  new_instance None cls s =
    ([], s <| objs ::= λ l, l ++ [new_app (cls_name cls) (cls_methods cls) (cls_EVENTS cls)] |>,
     Raise (Py AssertionError)).
Proof.
  intros Hn. unfold new_instance. rewrite ret_bind, gets_bind.
  erewrite silent_bind by reflexivity. unfold mbind, M_bind. set (s1 := s <| objs ::= _ |>).
  assert (register_app (length (objs s)) s1 = ([], s1, Raise (Py AssertionError))) as ->; [|done].
  unfold register_app. erewrite silent_bind.
  2:{ apply on_obj_gets. unfold s1. cbn. by rewrite lookup_app_r, Nat.sub_diag. }
  rewrite gets_bind. cbn. by rewrite Hn.
Qed.

Lemma instantiate_ok cls : preserves sys_ok (instantiate cls).
Proof.
  unfold instantiate. apply preserves_bind; [|intros i; preserve]. unfold _instantiate.
  apply preserves_bind; [unfold set_app_supported_versions; preserve; by destruct H|].
  intros _ s Hs. unfold final. destruct (od_get (cls_name cls) (SERVICE_BRICKS s)) as [j|] eqn:Hn.
  { rewrite instantiate_taken; [by apply sys_ok_new_obj|]. unfold od_mem. rewrite Hn.
    apply bool_decide_true. by eexists. }
  rewrite instantiate_fresh by done. pose proof Hs as [H1 H2 H3]. split; cbn.
  - intros n. by rewrite !od_get_set, H1.
  - by apply od_ok_set.
  - intros n i. rewrite od_get_set. case_decide as Hd.
    + intros [= <-]. rewrite lookup_app_r, Nat.sub_diag by done. cbn. subst n. f_equal.
      apply (app_do_keeps_name RegisterInstance (cls_name cls)). done.
    + intros Hi. specialize (H3 n i Hi). destruct (objs s !! i) as [b|] eqn:E; [|done].
      by rewrite (lookup_app_l_Some _ _ _ _ E).
Qed.

(** What remains when the dictionaries are done with. *)
Definition forget (n : string) (i : nat) : SM () :=
  bs ← gets (λ s, od_values (SERVICE_BRICKS s));
  for_each bs (λ b, on_obj b (unregister_observer_all_event n));;
  on_obj i stop_begin;;
  modify (λ s, s <| pending ::= λ l, l ++ [[StopTo i]] |>).

Lemma uninstantiate_run n s :
  sys_ok s →
  uninstantiate n s =
    match od_get n (applications s) with
    | None => ([], s, Raise (Py KeyError))
    | Some i => forget n i (s <| applications ::= od_del n |> <| SERVICE_BRICKS ::= od_del n |>)
    end.
Proof.
  intros [H1 H2 H3]. unfold uninstantiate. rewrite gets_bind.
  destruct (od_get n (applications s)) as [i|] eqn:E; [|done]. cbn [or_raise]. rewrite ret_bind.
  erewrite silent_bind by reflexivity. set (s1 := s <| applications ::= _ |>).
  rewrite H1 in E. specialize (H3 n i E). destruct (objs s !! i) as [a|] eqn:Ea; [|done].
  injection H3 as Hn. rewrite (silent_bind _ _ _ _ _ (on_obj_gets i name s1 a Ea)), gets_bind, Hn.
  assert (od_mem n (SERVICE_BRICKS s1) = true) as ->.
  { unfold od_mem. cbn. rewrite E. apply bool_decide_true. by eexists. }
  by erewrite silent_bind by reflexivity.
Qed.

Lemma forget_ok n i : preserves sys_ok (forget n i).
Proof. unfold forget. preserve. by apply sys_ok_pending. Qed.

Lemma sys_ok_del n s :
  sys_ok s → sys_ok (s <| applications ::= od_del n |> <| SERVICE_BRICKS ::= od_del n |>).
Proof.
  intros [H1 H2 H3]. split; cbn.
  - intros m. by rewrite !od_get_del, H1.
  - by apply od_ok_del.
  - intros m i. rewrite od_get_del. case_decide; [done|]. apply H3.
Qed.

Lemma sys_do_ok op : preserves sys_ok (sys_do op).
Proof.
  destruct op; cbn [sys_do].
  - apply on_obj_do_ok.
  - unfold observe_event. preserve.
  - unfold unobserve_event. preserve.
  - apply send_event_ok.
  - unfold send_event_to_observers. preserve. by apply sys_ok_pending.
  - unfold send_request. preserve; auto using sys_ok_pending, sys_ok_reply_qs.
  - unfold reply_to_request. preserve; auto using sys_ok_pending, sys_ok_reply_qs.
  - unfold resume, do_send. preserve; auto using sys_ok_pending.
  - apply preserves_bind; [apply instantiate_ok|intros ?; apply preserves_ret].
  - apply update_bricks_ok.
  - intros s Hs. unfold final. rewrite uninstantiate_run by done.
    destruct (od_get n (applications s)); [|done]. by apply forget_ok, sys_ok_del.
Qed.

(** The system of applications, whatever they do: the service bricks and the
    applications of the manager are the same objects under the same, distinct names, and
    every object, also one that was taken out again, has gone through the life of an
    application on its own: all the guarantees on its queue and its handlers hold of what
    this object has put out. *)
Theorem bricks_consistent s h :
  reachable sys_init sys_step (s, h) →
  sys_ok s ∧
  ∀ i a, objs s !! i = Some a →
    reachable app_init app_step (a, outs_of i h) ∧ queue_ok a (outs_of i h).
Proof.
  intros Hr. assert (sys_ok s ∧ all_live s h) as [Hs Hl].
  { revert Hr. apply (reachable_inv _ _ (λ x, sys_ok x.1 ∧ all_live x.1 x.2)).
    - intros _ ->. split; split; cbn; try done; apply NoDup_nil_2.
    - intros [s0 h0] op _ [Hs Hl] [He ->]. cbn [fst snd] in *.
      split; [by apply sys_do_ok|by apply sys_do_lives]. }
  split; [done|]. intros i a Ha. destruct Hl as [Hl _]. specialize (Hl i a Ha).
  split; [done|by apply reachable_queue_ok].
Qed.

(** *** Taking an application out *)

Definition unobserved (n : string) (a : app) : app := final (unregister_observer_all_event n) a.

Lemma od_get_fmap {A B} (f : A → B) (c : class) (d : odict class A) :
  od_get c ((λ '(k, v), (k, f v)) <$> d) = f <$> od_get c d.
Proof. induction d as [|[k v] d IH]; cbn; [done|]. by case_decide. Qed.

Lemma filter_keys_del {V} (n : string) (P : string * V → Prop) `{∀ x, Decision (P x)} (d : odict string V) :
  fst <$> filter P (od_del n d) = filter (λ m, m ≠ n) (fst <$> filter P d).
Proof.
  induction d as [|[k v] d IH]; [done|]. cbn [od_del].
  destruct (decide (n = k)) as [->|Hne]; destruct (decide (P (k, v))) as [Hp|Hp].
  - rewrite (filter_cons_True _ _ d), fmap_cons, filter_cons_False by (cbn; auto). apply IH.
  - rewrite (filter_cons_False _ _ d) by done. apply IH.
  - rewrite !filter_cons_True, !fmap_cons, filter_cons_True by (done || (cbn; auto)). by rewrite IH.
  - rewrite !filter_cons_False by done. apply IH.
Qed.

Lemma get_observers_unobserved n a ev st :
  get_observers (unobserved n a) ev st = filter (λ m, m ≠ n) (get_observers a ev st).
Proof.
  unfold get_observers, unobserved, final. cbn. rewrite od_get_fmap.
  destruct (od_get (ev_class ev) (observers a)) as [os|]; [|done]. cbn. apply filter_keys_del.
Qed.

Lemma od_del_idem {V} (n : string) (d : odict string V) : od_del n (od_del n d) = od_del n d.
Proof.
  induction d as [|[k v] d IH]; [done|]. cbn. case_decide as Hd; [done|]. cbn.
  by rewrite decide_False, IH.
Qed.

Lemma unobserved_idem n a : unobserved n (unobserved n a) = unobserved n a.
Proof.
  unfold unobserved, final. cbn. destruct a as [? ? ? ? os ? ? ? ?]. cbn. f_equal.
  rewrite <- list_fmap_compose. apply list_fmap_ext. intros _ [c d] _. cbn. by rewrite od_del_idem.
Qed.

Lemma od_values_del {V} (n : string) (d : odict string V) v :
  od_ok d → v ∈ od_values (od_del n d) ↔ ∃ m, m ≠ n ∧ od_get m d = Some v.
Proof.
  intros Hd. unfold od_values. rewrite list_elem_of_fmap. split.
  - intros ([m w] & -> & [Hm Hin]%od_del_elem). exists m. split; [done|]. by apply od_elem_get.
  - intros (m & Hm & Hg). exists (m, v). split; [done|]. apply od_del_elem.
    split; [done|by apply od_get_elem].
Qed.

(** The loop over the bricks that are left. *)
Lemma unobserve_all_run n s0 bs :
  (∀ b, b ∈ bs → is_Some (objs s0 !! b)) →
  ∃ s', for_each bs (λ b, on_obj b (unregister_observer_all_event n)) s0 = ([], s', Ret tt) ∧
    s' = s0 <| objs := objs s' |> ∧
    ∀ b, objs s' !! b = if decide (b ∈ bs) then unobserved n <$> objs s0 !! b else objs s0 !! b.
Proof.
  induction bs as [|b bs IH] using rev_ind; intros Hbs.
  { exists s0. split_and!; [done|by destruct s0|]. intros b. by rewrite decide_False by apply not_elem_of_nil. }
  destruct IH as (s1 & E & Hs & Hl). { intros c Hc. apply Hbs, elem_of_app. by left. }
  destruct (Hbs b) as [a Ha]; [apply elem_of_app; right; apply list_elem_of_here|].
  assert (∃ a1, objs s1 !! b = Some a1 ∧ unobserved n a1 = unobserved n a) as (a1 & H1 & H2).
  { rewrite Hl, Ha. case_decide; cbn; eexists; (split; [done|]); [apply unobserved_idem|done]. }
  exists (s1 <| objs ::= <[b := unobserved n a1]> |>). rewrite for_each_app.
  rewrite (silent_bind _ _ _ _ _ E). cbn [for_each].
  erewrite silent_bind by (by apply on_obj_quiet). split_and!; [done|by rewrite Hs|].
  intros c. cbn -[unobserved]. destruct (decide (c = b)) as [->|Hne].
  - rewrite list_lookup_insert_eq by (by apply lookup_lt_Some in H1).
    rewrite decide_True by (apply elem_of_app; right; apply list_elem_of_here). by rewrite Ha, H2.
  - rewrite list_lookup_insert_ne, Hl by done. destruct (decide (c ∈ bs)) as [Hc|Hc].
    + by rewrite decide_True by (apply elem_of_app; by left).
    + rewrite decide_False; [done|]. intros [|Hin%list_elem_of_singleton]%elem_of_app; [done|by subst].
Qed.

(** Taking an application out: it is in neither dictionary any more, is marked inactive
    with its queue as it was, and its stop event is still to be sent; every application
    that stays notifies exactly the observers it did, without it, of every event in
    every state. *)
Theorem uninstantiate_forgets n i s :
  sys_ok s → od_get n (applications s) = Some i →
  let s' := final (uninstantiate n) s in
  result (uninstantiate n) s = Ret tt ∧
  od_get n (SERVICE_BRICKS s') = None ∧ od_get n (applications s') = None ∧
  pending s' = pending s ++ [[StopTo i]] ∧
  (∃ a, objs s !! i = Some a ∧ objs s' !! i = Some (a <| is_active := false |>)) ∧
  ∀ m b a, m ≠ n → od_get m (SERVICE_BRICKS s) = Some b → objs s !! b = Some a →
    od_get m (SERVICE_BRICKS s') = Some b ∧
    ∃ a', objs s' !! b = Some a' ∧ same_queue a a' ∧
      ∀ ev st, get_observers a' ev st = filter (λ k, k ≠ n) (get_observers a ev st).
Proof.
  intros Hs Hi s'. pose proof Hs as [H1 H2 H3].
  assert (is_Some (objs s !! i)) as [a Ha].
  { rewrite H1 in Hi. specialize (H3 n i Hi). by destruct (objs s !! i). }
  set (s1 := s <| applications ::= od_del n |> <| SERVICE_BRICKS ::= od_del n |>).
  destruct (unobserve_all_run n s1 (od_values (SERVICE_BRICKS s1))) as (s2 & E & Hs2 & Hl).
  { intros b (m & _ & Hm)%(od_values_del _ _ _ H2). specialize (H3 m b Hm). cbn.
    by destruct (objs s !! b). }
  assert (i ∉ od_values (SERVICE_BRICKS s1)) as Hni.
  { intros (m & Hne & Hm)%(od_values_del _ _ _ H2). rewrite H1 in Hi.
    pose proof (H3 m i Hm). pose proof (H3 n i Hi). congruence. }
  assert (objs s2 !! i = Some a) as Ha2 by (rewrite Hl; by rewrite decide_False).
  assert (uninstantiate n s = ([], s2 <| objs ::= <[i := a <| is_active := false |>]> |>
    <| pending ::= λ l, l ++ [[StopTo i]] |>, Ret tt)) as Hrun.
  { rewrite uninstantiate_run, Hi by done. unfold forget. rewrite gets_bind.
    rewrite (silent_bind _ _ _ _ _ E). by erewrite silent_bind by (by apply on_obj_quiet). }
  unfold s', final, result. rewrite Hrun. cbn. rewrite Hs2. cbn. split_and!; try done.
  1,2: by rewrite od_get_del, decide_True.
  { exists a. by rewrite list_lookup_insert_eq by (by apply lookup_lt_Some in Ha2). }
  intros m b a0 Hm Hb Ha0. rewrite od_get_del, decide_False by done. split; [done|].
  assert (b ≠ i) as Hbi.
  { intros ->. rewrite H1 in Hi. pose proof (H3 m i Hb). pose proof (H3 n i Hi). congruence. }
  exists (unobserved n a0). rewrite list_lookup_insert_ne, Hl, decide_True by
    (done || (apply (od_values_del _ _ _ H2); by exists m)). cbn -[unobserved]. rewrite Ha0.
  split_and!; [done|done|]. intros ev st. apply get_observers_unobserved.
Qed.

(** *** Who is notified *)

(** The object [b] notifies [n] of events of class [c] in the states [sts], at least. *)
Definition notifies (b : nat) (c : class) (n : string) (sts : list string) (s : sys) : Prop :=
  ∃ a os v, objs s !! b = Some a ∧ od_get c (observers a) = Some os ∧ od_get n os = Some v ∧
    list_to_set sts ⊆ v.

Definition same_but_observers (a a' : app) : Prop := a' = a <| observers := observers a' |>.

(** The registrations so far are those of [s0] and others that [why] accounts for. *)
Record registered (why : nat → class → string → Prop) (s0 s : sys) : Prop := {
  r_rest : s = s0 <| objs := objs s |>;
  r_objs : ∀ i a0, objs s0 !! i = Some a0 → ∃ a, objs s !! i = Some a ∧ same_but_observers a0 a;
  r_why : ∀ i a0 a c os n v, objs s0 !! i = Some a0 → objs s !! i = Some a →
    od_get c (observers a) = Some os → od_get n os = Some v →
    (∃ os0 v0, od_get c (observers a0) = Some os0 ∧ od_get n os0 = Some v0) ∨ why i c n
}.

Lemma register_observer_get c n sts a :
  ∀ c' os', od_get c' (observers (final (register_observer c n sts) a)) = Some os' →
  ∀ n' v', od_get n' os' = Some v' →
  let old := os ← od_get c' (observers a); od_get n' os in
  if decide (c' = c ∧ n' = n) then v' = default ∅ old ∪ list_to_set sts else old = Some v'.
Proof.
  intros c' os'. unfold final. cbn. rewrite od_get_alter, od_get_setdefault.
  destruct (decide (c' = c)) as [->|Hc].
  - cbn. intros [= <-] n' v'. rewrite od_get_alter, od_get_setdefault.
    destruct (decide (n' = n)) as [->|Hn].
    + rewrite decide_True by done. cbn. intros [= <-]. destruct (od_get c (observers a)); done.
    + rewrite decide_False by tauto. destruct (od_get c (observers a)) as [os|]; [done|]. done.
  - intros Hos n' v' Hv. rewrite decide_False by tauto. by rewrite Hos.
Qed.

Lemma register_observer_new c n sts a :
  ∃ os v, od_get c (observers (final (register_observer c n sts) a)) = Some os ∧
    od_get n os = Some v ∧ list_to_set sts ⊆ v.
Proof.
  unfold final. cbn. rewrite od_get_alter, od_get_setdefault, !decide_True by done. cbn.
  eexists _, _. split; [done|]. rewrite od_get_alter, od_get_setdefault, !decide_True by done.
  cbn. split; [done|]. set_solver.
Qed.

Lemma register_observer_keeps c n sts a c' os' n' v' :
  od_get c' (observers a) = Some os' → od_get n' os' = Some v' →
  ∃ os v, od_get c' (observers (final (register_observer c n sts) a)) = Some os ∧
    od_get n' os = Some v ∧ v' ⊆ v.
Proof.
  intros Ho Hv. unfold final. cbn. rewrite od_get_alter, od_get_setdefault.
  destruct (decide (c' = c)) as [->|Hc]; [|by exists os', v'].
  rewrite Ho. cbn. destruct (decide (n' = n)) as [->|Hn]; eexists.
  - exists (v' ∪ list_to_set sts). split; [done|].
    rewrite od_get_alter, od_get_setdefault, !decide_True, Hv by done. split; [done|set_solver].
  - exists v'. split; [done|].
    by rewrite od_get_alter, od_get_setdefault, !decide_False, Hv by done.
Qed.

(** One registration, at an object that exists. *)
Lemma register_step (why : nat → class → string → Prop) s0 s b c n sts :
  is_Some (objs s0 !! b) → why b c n → registered why s0 s →
  ∃ s', on_obj b (register_observer c n sts) s = ([], s', Ret tt) ∧ registered why s0 s' ∧
    notifies b c n sts s' ∧ ∀ b' c' n' sts', notifies b' c' n' sts' s → notifies b' c' n' sts' s'.
Proof.
  intros [a0 Ha0] Hw [H1 H2 H3]. destruct (H2 b a0 Ha0) as (a & Ha & Hsame).
  set (a' := final (register_observer c n sts) a).
  exists (s <| objs ::= <[b := a']> |>).
  assert (objs (s <| objs ::= <[b := a']> |>) !! b = Some a') as Hb'.
  { cbn -[register_observer]. by rewrite list_lookup_insert_eq by (by apply lookup_lt_Some in Ha). }
  assert (∀ j, j ≠ b → objs (s <| objs ::= <[b := a']> |>) !! j = objs s !! j) as Hne.
  { intros j Hj. cbn -[register_observer]. by rewrite list_lookup_insert_ne. }
  split_and!; [by apply on_obj_quiet| | |].
  - split; [by rewrite H1| |].
    + intros i x Hx. destruct (decide (i = b)) as [->|Hi]; [|rewrite Hne by done; by apply H2].
      exists a'. split; [done|]. rewrite Ha0 in Hx. injection Hx as <-.
      unfold same_but_observers in *. unfold a', final. cbn. rewrite Hsame. done.
    + intros i x y c' os n' v Hx Hy Hos Hv.
      destruct (decide (i = b)) as [->|Hi]; [|rewrite Hne in Hy by done; by eapply H3].
      rewrite Hb' in Hy. injection Hy as <-.
      pose proof (register_observer_get c n sts a c' os Hos n' v Hv) as H. cbn zeta in H.
      case_decide as Hd; [destruct Hd as [-> ->]; by right|].
      destruct (od_get c' (observers a)) as [os1|] eqn:E; [|done]. cbn in H. by eapply H3.
  - destruct (register_observer_new c n sts a) as (os & v & Ho & Hv & Hs). by exists a', os, v.
  - intros b' c' n' sts' (x & os & v & Hx & Ho & Hv & Hs). destruct (decide (b' = b)) as [->|Hb].
    + rewrite Ha in Hx. injection Hx as <-.
      destruct (register_observer_keeps c n sts a c' os n' v Ho Hv) as (os1 & v1 & E1 & E2 & E3).
      exists a', os1, v1. split_and!; [done..|]. by etransitivity.
    + exists x, os, v. by rewrite Hne.
Qed.

(** The objects a handler is registered with as an observer of [c]. *)
Definition source_of (s0 : sys) (c : class) (cl : caller) (b : nat) : Prop :=
  truthy (ev_source cl) = true ∧
  (_lookup_service_brick_by_mod_name (default "" (ev_source cl)) s0 = Some b ∨
   b ∈ od_values (SERVICE_BRICKS s0) ∧ ∃ ab, objs s0 !! b = Some ab ∧ c ∈ _EVENTS ab).

(** The application [n] has a handler for [c], which is why [b] notifies it. *)
Definition handles (s0 : sys) (b : nat) (c : class) (n : string) : Prop :=
  ∃ i a m cl, od_get n (SERVICE_BRICKS s0) = Some i ∧ objs s0 !! i = Some a ∧
    m ∈ methods a ∧ (c, cl) ∈ callers m ∧ source_of s0 c cl b.

Lemma brick_exists s b : sys_ok s → b ∈ od_values (SERVICE_BRICKS s) →
  ∃ n a, od_get n (SERVICE_BRICKS s) = Some b ∧ objs s !! b = Some a ∧ name a = n.
Proof.
  intros [H1 H2 H3] Hb. unfold od_values in Hb. apply list_elem_of_fmap in Hb as ([n i] & -> & Hin).
  apply od_elem_get in Hin; [|done]. specialize (H3 n i Hin).
  destruct (objs s !! i) as [a|] eqn:E; [|done]. cbn in H3. exists n, a. split_and!; [done..|congruence].
Qed.

(** What a loop over registrations gives for its element. *)
Definition grows (s s' : sys) : Prop :=
  ∀ b c n sts, notifies b c n sts s → notifies b c n sts s'.

#[local] Instance grows_preorder : PreOrder grows.
Proof. split; [by intros s b c n sts|]. intros s1 s2 s3 H1 H2 b c n sts H. by apply H2, H1. Qed.

Section update.
Context (s0 : sys) (Hok : sys_ok s0).

Let R := registered (handles s0) s0.

Lemma registered_bricks s : R s → SERVICE_BRICKS s = SERVICE_BRICKS s0.
Proof. intros [H _ _]. by rewrite H. Qed.

Lemma brick_object b : b ∈ od_values (SERVICE_BRICKS s0) → is_Some (objs s0 !! b).
Proof. intros Hb. destruct (brick_exists s0 b Hok Hb) as (n & a & _ & Ha & _). by exists a. Qed.

Lemma found_brick mod_name b :
  _lookup_service_brick_by_mod_name mod_name s0 = Some b → b ∈ od_values (SERVICE_BRICKS s0).
Proof.
  intros H%od_get_elem. unfold od_values. apply list_elem_of_fmap. by eexists (_, b).
Qed.

(** The inner loop, over the classes of events the bricks declare. *)
Lemma declared_run n c cl s :
  (∀ b, source_of s0 c cl b → handles s0 b c n) → truthy (ev_source cl) = true → R s →
  ∃ o s', for_each (od_values (SERVICE_BRICKS s0)) (λ b,
      evs ← on_obj b (gets _EVENTS);
      when (bool_decide (c ∈ (evs : list class))) (on_obj b (register_observer c n (dispatchers cl)))) s
    = (o, s', Ret tt) ∧ R s' ∧
    (∀ b, b ∈ od_values (SERVICE_BRICKS s0) → ∀ ab, objs s0 !! b = Some ab → c ∈ _EVENTS ab →
       notifies b c n (dispatchers cl) s') ∧
    grows s s'.
Proof.
  intros Hw Ht Hs.
  destruct (for_each_holds R (λ b s, ∀ ab, objs s0 !! b = Some ab → c ∈ _EVENTS ab →
      notifies b c n (dispatchers cl) s) grows (od_values (SERVICE_BRICKS s0)) (λ b,
      evs ← on_obj b (gets _EVENTS);
      when (bool_decide (c ∈ (evs : list class))) (on_obj b (register_observer c n (dispatchers cl)))) s)
    as (o & s' & E & H1 & H2 & H3); [| |done|].
  - intros b s1 s2 H G ab Hab Hc. by eapply G, H.
  - intros b s1 Hb Hs1. destruct (brick_object b Hb) as [ab Hab].
    destruct (r_objs _ _ _ Hs1 b ab Hab) as (a & Ha & Hsame).
    assert (_EVENTS a = _EVENTS ab) as Hev by (by rewrite Hsame).
    setoid_rewrite (silent_bind _ _ _ _ _ (on_obj_gets b _EVENTS s1 a Ha)). rewrite Hev.
    case_bool_decide as Hc; unfold when.
    + destruct (register_step (handles s0) s0 s1 b c n (dispatchers cl)) as (s2 & E & G1 & G2 & G3);
        [by exists ab| |done|].
      { apply Hw. split; [done|]. right. split; [done|by exists ab]. }
      rewrite E. by exists [], s2.
    + exists [], s1. split_and!; [done|done| |done]. intros ab' Hab' Hc'. congruence.
  - by exists o, s'.
Qed.

Lemma update_caller_run n c cl s :
  (∀ b, source_of s0 c cl b → handles s0 b c n) → R s →
  ∃ o s', update_caller n (c, cl) s = (o, s', Ret tt) ∧ R s' ∧
    (∀ b, source_of s0 c cl b → notifies b c n (dispatchers cl) s') ∧ grows s s'.
Proof.
  intros Hw Hs. unfold update_caller. destruct (truthy (ev_source cl)) eqn:Ht; unfold when.
  2:{ exists [], s. split_and!; [done|done| |done]. intros b [Ht' _]. congruence. }
  rewrite gets_bind. set (mn := default "" (ev_source cl)).
  assert (_lookup_service_brick_by_mod_name mn s = _lookup_service_brick_by_mod_name mn s0) as ->.
  { unfold _lookup_service_brick_by_mod_name, lookup_service_brick. by rewrite registered_bricks. }
  assert (∃ s1, match _lookup_service_brick_by_mod_name mn s0 with
      | Some b => on_obj b (register_observer c n (dispatchers cl)) | None => mret tt end s
      = ([], s1, Ret tt) ∧ R s1 ∧ grows s s1 ∧
    (∀ b, _lookup_service_brick_by_mod_name mn s0 = Some b → notifies b c n (dispatchers cl) s1))
    as (s1 & E1 & H1 & G1 & N1).
  { destruct (_lookup_service_brick_by_mod_name mn s0) as [b|] eqn:Eb; [|by exists s].
    destruct (register_step (handles s0) s0 s b c n (dispatchers cl)) as (s2 & E & K1 & K2 & K3);
      [by eapply brick_object, found_brick|apply Hw; split; [done|by left]|done|].
    exists s2. split_and!; try done. by intros ? [= <-]. }
  rewrite (silent_bind _ _ _ _ _ E1), gets_bind, registered_bricks by done.
  destruct (declared_run n c cl s1 Hw Ht H1) as (o & s2 & E2 & H2 & N2 & G2).
  exists o, s2. split_and!; [done|done| |by intros ? ? ? ? ?%G1%G2].
  intros b [_ [Hb|(Hb & ab & Hab & Hc)]]; [by apply G2, N1|by eapply N2].
Qed.

(** All the handlers of one application. *)
Lemma update_app_run i n a0 s :
  od_get n (SERVICE_BRICKS s0) = Some i → objs s0 !! i = Some a0 → name a0 = n → R s →
  ∃ o s', (a ← on_obj i get_st;
           for_each (methods a) (λ m, for_each (callers m) (update_caller (name a)))) s
          = (o, s', Ret tt) ∧ R s' ∧
    (∀ m c cl b, m ∈ methods a0 → (c, cl) ∈ callers m → source_of s0 c cl b →
       notifies b c n (dispatchers cl) s') ∧ grows s s'.
Proof.
  intros Hn Ha0 Hname Hs. destruct (r_objs _ _ _ Hs i a0 Ha0) as (a & Ha & Hsame).
  rewrite (silent_bind _ _ _ _ _ (on_obj_get i s a Ha)).
  assert (methods a = methods a0 ∧ name a = n) as [-> ->] by (by rewrite Hsame).
  destruct (for_each_holds R (λ m s, ∀ c cl b, (c, cl) ∈ callers m → source_of s0 c cl b →
      notifies b c n (dispatchers cl) s) grows (methods a0)
      (λ m, for_each (callers m) (update_caller n)) s) as (o & s' & E & H1 & H2 & H3); [| |done|].
  - intros m s1 s2 H G c cl b Hc Hb. by eapply G, H.
  - intros m s1 Hm Hs1.
    destruct (for_each_holds R (λ kc s, ∀ b, source_of s0 kc.1 kc.2 b →
      notifies b kc.1 n (dispatchers kc.2) s) grows (callers m) (update_caller n) s1)
      as (o & s2 & E & H1 & H2 & H3); [| |done|].
    + intros kc s3 s4 H G b Hb. by eapply G, H.
    + intros [c cl] s3 Hin Hs3. apply update_caller_run; [|done]. intros b Hb.
      by exists i, a0, m, cl.
    + exists o, s2. split_and!; [done|done| |done]. intros c cl b Hin Hb. by apply (H2 (c, cl)).
  - exists o, s'. split_and!; [done|done| |done]. intros m c cl b Hm Hc Hb. by apply (H2 m Hm c cl).
Qed.

Lemma update_bricks_run :
  ∃ o s', _update_bricks s0 = (o, s', Ret tt) ∧ R s' ∧
    ∀ n i a m c cl b, od_get n (SERVICE_BRICKS s0) = Some i → objs s0 !! i = Some a →
      m ∈ methods a → (c, cl) ∈ callers m → source_of s0 c cl b →
      notifies b c n (dispatchers cl) s'.
Proof.
  unfold _update_bricks. rewrite gets_bind.
  destruct (for_each_holds R (λ i s, ∀ n a m c cl b, od_get n (SERVICE_BRICKS s0) = Some i →
      objs s0 !! i = Some a → m ∈ methods a → (c, cl) ∈ callers m → source_of s0 c cl b →
      notifies b c n (dispatchers cl) s) grows (od_values (SERVICE_BRICKS s0)) (λ i,
      a ← on_obj i get_st;
      for_each (methods a) (λ m, for_each (callers m) (update_caller (name a)))) s0)
    as (o & s' & E & H1 & H2 & _).
  - intros i s1 s2 H G n a m c cl b Hn Ha Hm Hc Hb. by eapply G, H.
  - intros i s1 Hi Hs1. destruct (brick_exists s0 i Hok Hi) as (n & a & Hn & Ha & Hname).
    destruct (update_app_run i n a s1 Hn Ha Hname Hs1) as (o & s2 & E & K1 & K2 & K3).
    exists o, s2. split_and!; [done|done| |done]. intros n' a' m c cl b Hn' Ha' Hm Hc Hb.
    assert (n' = n) as ->.
    { pose proof (ok_named _ Hok n' i Hn') as F. rewrite Ha in F. cbn in F. congruence. }
    rewrite Ha in Ha'. injection Ha' as <-. by eapply K2.
  - split; [by destruct s0|intros i a Ha; exists a; split; [done|by destruct a]|].
    intros i a0 a c os n v H1 H2 Hos Hv. left. rewrite H1 in H2. injection H2 as <-. by exists os, v.
  - exists o, s'. split_and!; [done|done|]. intros n i a m c cl b Hn Ha. apply (H2 i); [|done..].
    apply od_get_elem in Hn. unfold od_values. apply list_elem_of_fmap. by exists (n, i).
Qed.
End update.

Lemma notifies_observer b c n sts s ev st a :
  notifies b c n sts s → objs s !! b = Some a → ev_class ev = c → st ∈ sts →
  n ∈ get_observers a ev (Some st).
Proof.
  intros (a' & os & v & Ha & Ho & Hv & Hs) Ha' Hc Hst. rewrite Ha' in Ha. injection Ha as <-.
  unfold get_observers. rewrite Hc, Ho. cbn. apply list_elem_of_fmap. exists (n, v).
  split; [done|]. apply list_elem_of_filter. split; [|by apply od_get_elem].
  apply Is_true_true. unfold observes. cbn [snd].
  rewrite (bool_decide_true (st ∈ v)) by set_solver. apply orb_true_r.
Qed.

(** Registering the applications with the sources of their events: it does not fail and
    changes nothing but observers; afterwards an event that a source sends in a state
    reaches every application that has a handler for its class in that state, where the
    source is the brick the handler's class names or any brick that declares the class;
    and nobody else is notified than before or than those with a handler for the class. *)
Theorem update_bricks_routes s :
  sys_ok s →
  let s' := final _update_bricks s in
  result _update_bricks s = Ret tt ∧
  s' = s <| objs := objs s' |> ∧
  (∀ i a, objs s !! i = Some a → ∃ a', objs s' !! i = Some a' ∧ same_but_observers a a') ∧
  (∀ n i a m c cl b ab ev st,
     od_get n (SERVICE_BRICKS s) = Some i → objs s !! i = Some a →
     m ∈ methods a → (c, cl) ∈ callers m → source_of s c cl b →
     objs s' !! b = Some ab → ev_class ev = c → st ∈ dispatchers cl →
     n ∈ get_observers ab ev (Some st)) ∧
  (∀ b ab ab' ev st n, objs s !! b = Some ab → objs s' !! b = Some ab' →
     n ∈ get_observers ab' ev st → n ∈ get_observers ab ev None ∨ handles s b (ev_class ev) n).
Proof.
  intros Hok s'. destruct (update_bricks_run s Hok) as (o & s1 & E & [R1 R2 R3] & N).
  unfold s', final, result. rewrite E. cbn [fst snd]. split_and!; [done|done|done| |].
  - intros n i a m c cl b ab ev st Hn Ha Hm Hc Hb Hab Hev Hst.
    eapply notifies_observer; [by apply (N n i a m c cl b)|done..].
  - intros b ab ab' ev st n Hab Hab' Hin. unfold get_observers in Hin.
    apply list_elem_of_fmap in Hin as ([n' v] & -> & [_ Hin]%list_elem_of_filter).
    destruct (od_get (ev_class ev) (observers ab')) as [os|] eqn:Eo; [|by apply not_elem_of_nil in Hin].
    cbn in Hin. assert (∃ w, od_get n' os = Some w) as [w Hw].
    { apply od_get_is_key. unfold od_keys. apply list_elem_of_fmap. by exists (n', v). }
    destruct (R3 b ab ab' (ev_class ev) os n' w Hab Hab' Eo Hw) as [(os0 & v0 & H1 & H2)|H]; [left|by right].
    unfold get_observers. rewrite H1. cbn. apply list_elem_of_fmap. exists (n', v0).
    split; [done|]. apply list_elem_of_filter. split; [done|by apply od_get_elem].
Qed.

(** Two handlers of one application for one class, one of them for all states: the states
    of the other become those of the application, and the first misses its events. *)
Definition all_states_cls : app_cls :=
  AppCls "Monitor"
    [set_ev_cls (Some (inl ("ryu.controller.ofp_event", "EventOFPStateChange"))) None (Method "a" []);
     set_ev_cls (Some (inl ("ryu.controller.ofp_event", "EventOFPStateChange")))
       (Some (inl "main")) (Method "b" [])] [] None.

Definition source_cls : app_cls := AppCls "ofp_event" [] [] None.

Example all_states_handler_missed :
  let s := final (_instantiate None source_cls;; instantiate all_states_cls;; mret tt)
             (Sys [] [] [] [] [] [1; 3; 4; 5; 6]) in
  let ev := Event ("ryu.controller.ofp_event", "EventOFPStateChange") EventBase 0 in
  (match objs s with
   | [src; mon] => (get_observers src ev (Some "dead"), nonempty (get_handlers mon ev (Some "dead")))
   | _ => ([], false)
   end) = ([], true).
Proof. vm_compute. reflexivity. Qed.

(** ** Loading applications *)

(** A class that is a [RyuApp], as [load_apps] reads it: its methods and its contexts, by
    key and class. *)
Record loaded_cls := LoadedCls {
  l_class : class;
  l_methods : list method;
  l_contexts : odict string class
}.

(** [utils.chop_py_suffix] *)
Definition ends_with (suf p : string) : bool :=
  (String.length suf <=? String.length p)%nat &&
  bool_decide (String.substring (String.length p - String.length suf) (String.length suf) p = suf).

Definition chop_py_suffix (p : string) : string :=
  match head (filter (λ suf, Is_true (ends_with suf p)) [".py"; ".pyc"; ".pyo"]) with
  | Some suf => String.substring 0 (String.length p - String.length suf) p
  | None => p
  end.

(** A module: [__name__], and the applications among its members in the order of their names. *)
Record module := Module_ { mod_name : string; members : list loaded_cls }.

(** The file system and the import system: [os.path], [SourceFileLoader(name, path).load_module(name)]
    and [importlib.import_module].  Importing a name again gives the same module. *)
Record importer := Importer {
  path_exists : string → bool;
  abspath : string → string;
  basename : string → string;
  load_module : string → string → outcome pyexn module;
  importlib_import_module : string → outcome pyexn module
}.

Definition SyntaxError : pyexn := RyuException "SyntaxError".

(** [utils._import_module_file], [utils.import_module] *)
Definition _import_module_file (imp : importer) (path : string) : outcome pyexn module :=
  let abspath := abspath imp path in
  load_module imp (chop_py_suffix (basename imp abspath)) abspath.

Definition import_module (imp : importer) (modname : string) : outcome pyexn module :=
  if path_exists imp modname then
    match _import_module_file imp modname with
    | Raise e => if decide (e = SyntaxError) then importlib_import_module imp modname else Raise e
    | Ret m => Ret m
    end
  else importlib_import_module imp modname.

(** Without repetitions, in the order of the first occurrence (the code's is that of a
    set). *)
Definition distinct (l : list string) : list string :=
  foldr (λ x acc, x :: filter (λ y, y ≠ x) acc) [] l.

Lemma elem_of_distinct x l : x ∈ distinct l ↔ x ∈ l.
Proof.
  induction l as [|y l IH]; [done|]. cbn. rewrite !elem_of_cons, list_elem_of_filter, IH.
  destruct (decide (x = y)); tauto.
Qed.

Lemma NoDup_distinct l : NoDup (distinct l).
Proof.
  induction l as [|x l IH]; [apply NoDup_nil_2|]. cbn. apply NoDup_cons. split.
  - rewrite list_elem_of_filter. tauto.
  - by apply NoDup_filter.
Qed.

Section loading.
(** What importing modules gives; the attributes [_SERVICE_NAME] and [_REQUIRED_APP] of modules;
    the classes of contexts that are applications. *)
Context (imp : importer)
  (service_name : string → option string) (required_app : string → list string)
  (context_app : class → option loaded_cls).

Record manager := Manager {
  applications_cls : odict string loaded_cls;
  contexts_cls : odict string class
}.

#[local] Instance eta_manager : Eta manager := EtaBox (λ s,
  Manager (applications_cls s) (contexts_cls s)).

Abbreviation LM := (M manager pyexn string).

Definition load_app (n : string) : outcome pyexn (option loaded_cls) :=
  m ← import_module imp n;
  Ret (head (filter (λ c, mod_name m = (l_class c).1) (members m))).

Definition get_dependent_services (cls : loaded_cls) : list string :=
  distinct (omap (λ ev_cls : class,
      match service_name ev_cls.1 with
      | Some service => if bool_decide (service ≠ "" ∧ (l_class cls).1 ≠ service)
                        then Some service else None
      | None => None
      end) (concat ((λ m, od_keys (callers m)) <$> l_methods cls))
    ++ required_app (l_class cls).1).

Definition context_modules (s : manager) : list string := (λ kc, kc.2.1) <$> contexts_cls s.

(** [contexts_cls.setdefault] and the assertion. *)
Definition add_context (kc : string * class) : LM () :=
  modify (λ s, s <| contexts_cls ::= od_setdefault kc.1 kc.2 |>);;
  v ← gets (λ s, od_get kc.1 (contexts_cls s));
  assert_ (bool_decide (v = Some kc.2)) AssertionError.

Definition services_of (ctx : list string) (cls : loaded_cls) : list string :=
  concat ((λ kc : string * class,
    match context_app kc.2 with Some c => get_dependent_services c | None => [] end)
      <$> l_contexts cls)
  ++ filter (λ i, i ∉ ctx) (get_dependent_services cls).

(** One turn of the loop of [load_apps]; the result is the new work list. *)
Definition load_turn (app_cls_name : string) (app_lists : list string) : LM (list string) :=
  ctx ← gets context_modules;
  if bool_decide (app_cls_name ∈ (ctx : list string)) then mret app_lists else
  emit app_cls_name;;
  cls ← lift (load_app app_cls_name);
  match cls : option loaded_cls with
  | None => mret app_lists
  | Some cls =>
      modify (λ s, s <| applications_cls ::= od_set app_cls_name cls |>);;
      for_each (l_contexts cls) add_context;;
      let ctx := ctx ++ ((λ kc, kc.2.1) <$> l_contexts cls) in
      mret (app_lists ++ filter (λ x, x ∉ app_lists) (distinct (services_of ctx cls)))
  end.

Fixpoint load_apps (fuel : nat) (app_lists : list string) : LM () :=
  match app_lists with
  | [] => mret tt
  | x :: rest =>
      match fuel with
      | O => raise OutOfFuel
      | S fuel => l ← load_turn x rest; load_apps fuel l
      end
  end.

(** *** What a turn does *)

Lemma add_contexts_run cs s :
  ∃ s' r, for_each cs add_context s = ([], s', r) ∧ applications_cls s' = applications_cls s ∧
    (∀ kc, kc ∈ contexts_cls s → kc ∈ contexts_cls s') ∧
    (r = Raise AssertionError ∨
     r = Ret tt ∧ ∀ kc, kc ∈ cs → kc ∈ contexts_cls s').
Proof.
  revert s. induction cs as [|[k c] cs IH]; intros s.
  { exists s, (Ret tt). split_and!; [done..|]. right. split; [done|].
    intros kc Hc. by apply not_elem_of_nil in Hc. }
  cbn [for_each]. set (s1 := s <| contexts_cls ::= od_setdefault k c |>).
  assert (∀ kc, kc ∈ contexts_cls s → kc ∈ contexts_cls s1) as Hkeep.
  { intros kc H. cbn. unfold od_setdefault. destruct (od_get k (contexts_cls s)); [done|].
    apply elem_of_app. by left. }
  assert (add_context (k, c) s = ([], s1, if bool_decide (od_get k (contexts_cls s1) = Some c)
    then Ret tt else Raise AssertionError)) as E1.
  { unfold add_context, mbind, M_bind, modify, gets, assert_. cbn. by case_bool_decide. }
  unfold mbind, M_bind. rewrite E1.
  case_bool_decide as Hk; [|by exists s1, (Raise AssertionError); auto].
  destruct (IH s1) as (s' & r & E & Ha & Hc & Hr). rewrite E.
  exists s', r. split_and!; [done|by rewrite Ha|auto|].
  destruct Hr as [->|[-> Hr]]; [by left|right]. split; [done|].
  intros kc [->|Hin]%elem_of_cons; [|auto]. by apply Hc, od_get_elem.
Qed.

(** An application that is there, or that no turn can add. *)
Definition provided (x : string) (s : manager) : Prop :=
  x ∈ context_modules s ∨ load_app x = Ret None ∨
  ∃ cls, load_app x = Ret (Some cls) ∧ od_get x (applications_cls s) = Some cls.

(** The applications a class asks for. *)
Definition needs (cls : loaded_cls) (y : string) : Prop :=
  y ∈ get_dependent_services cls ∨
  ∃ k c a, (k, c) ∈ l_contexts cls ∧ context_app c = Some a ∧ y ∈ get_dependent_services a.

(** What was asked for so far is there or in the work list [l]. *)
Definition accounted (l : list string) (s : manager) : Prop :=
  ∀ x cls, od_get x (applications_cls s) = Some cls →
    load_app x = Ret (Some cls) ∧ ∀ y, needs cls y → y ∈ l ∨ provided y s.

Definition extends (s s' : manager) : Prop :=
  (∀ kc, kc ∈ contexts_cls s → kc ∈ contexts_cls s') ∧
  ∀ x cls, od_get x (applications_cls s) = Some cls →
    is_Some (od_get x (applications_cls s')).

#[local] Instance extends_preorder : PreOrder extends.
Proof.
  split; [by split; eauto|]. intros s1 s2 s3 [H1 H2] [H3 H4]. split; [auto|].
  intros x cls Hx. destruct (H2 x cls Hx) as [cls' Hx']. by eapply H4.
Qed.

Lemma elem_of_services_of y ctx cls :
  y ∈ services_of ctx cls ↔
  (∃ k c a, (k, c) ∈ l_contexts cls ∧ context_app c = Some a ∧ y ∈ get_dependent_services a) ∨
  y ∉ ctx ∧ y ∈ get_dependent_services cls.
Proof.
  unfold services_of. rewrite elem_of_app, list_elem_of_filter.
  assert (∀ L : list (list string), y ∈ concat L ↔ ∃ l, l ∈ L ∧ y ∈ l) as Hc.
  { intros L. rewrite list_elem_of_In, in_concat. by setoid_rewrite list_elem_of_In. }
  rewrite Hc. split; (intros [H|H]; [left|by right]).
  - destruct H as (l & Hl & Hy). apply list_elem_of_fmap in Hl as ([k c] & -> & Hin). cbn in Hy.
    destruct (context_app c) as [a|] eqn:E; [|by apply not_elem_of_nil in Hy]. by exists k, c, a.
  - destruct H as (k & c & a & Hin & Ha & Hy). exists (get_dependent_services a). split; [|done].
    apply list_elem_of_fmap. exists (k, c). cbn. by rewrite Ha.
Qed.

Lemma context_modules_extends s s' x :
  extends s s' → x ∈ context_modules s → x ∈ context_modules s'.
Proof.
  intros [H _] (kc & -> & Hin)%list_elem_of_fmap. apply list_elem_of_fmap. exists kc. auto.
Qed.

(** Only what [load_app] finds is entered. *)
Definition entered (s : manager) : Prop :=
  ∀ x cls, od_get x (applications_cls s) = Some cls → load_app x = Ret (Some cls).

Lemma provided_extends s s' x : entered s' → extends s s' → provided x s → provided x s'.
Proof.
  intros He Hs [H|[H|(cls & Hl & Hg)]]; [left|by right; left|right; right].
  - by eapply context_modules_extends.
  - destruct Hs as [_ Hs]. destruct (Hs x cls Hg) as [cls' Hg']. pose proof (He x cls' Hg') as Hl'.
    exists cls. split; [done|]. congruence.
Qed.

(** What a turn gives: its application is there, and services it needs, once each, are at
    the end of the list. *)
Definition turn_result (x : string) (rest : list string) (s s' : manager)
    (r : outcome pyexn (list string)) : Prop :=
  extends s s' ∧ entered s' ∧
  (r = Raise AssertionError ∨ (∃ e, r = Raise e ∧ load_app x = Raise e) ∨
   ∃ new, r = Ret (rest ++ new) ∧ provided x s' ∧ NoDup new ∧
     (∀ y, y ∈ new → ∃ cls, load_app x = Ret (Some cls) ∧ needs cls y) ∧
     (accounted (x :: rest) s → accounted (rest ++ new) s')).

(** A turn that loads nothing. *)
Lemma turn_skips x rest s : entered s → provided x s → turn_result x rest s s (Ret rest).
Proof.
  intros He Hx. split_and!; [done|done|]. right; right. exists []. rewrite app_nil_r.
  split_and!; [done|done|by apply NoDup_nil_2|intros y Hy; by apply not_elem_of_nil in Hy|].
  intros Ha z cls Hg. destruct (Ha z cls Hg) as [Hl Hy]. split; [done|].
  intros y [[->|Hin]%elem_of_cons|Hp]%Hy; auto.
Qed.

(** A turn that loads a class. *)
Lemma turn_loads x rest cls s :
  entered s → x ∉ context_modules s → load_app x = Ret (Some cls) →
  ∃ o s' r, load_turn x rest s = (o, s', r) ∧ turn_result x rest s s' r.
Proof.
  intros He Hctx Hl. unfold load_turn. rewrite gets_bind, bool_decide_false by done.
  rewrite Hl. set (s1 := s <| applications_cls ::= od_set x cls |>).
  rewrite (run_bind _ _ _ _ s _ eq_refl), (run_bind _ _ _ _ s _ eq_refl), (run_bind _ _ _ _ s1 _ eq_refl).
  destruct (add_contexts_run (l_contexts cls) s1) as (s2 & r & E & Ha & Hc & Hr).
  assert (∀ z, od_get z (applications_cls s2) =
    if decide (z = x) then Some cls else od_get z (applications_cls s)) as Hg.
  { intros z. rewrite Ha. apply od_get_set. }
  assert (extends s s2) as Hs.
  { split; [exact Hc|]. intros z c Hz. rewrite Hg. case_decide; [by eexists|by exists c]. }
  assert (entered s2) as He2 by (intros z c; rewrite Hg; case_decide; [by intros [= <-]; subst|apply He]).
  destruct Hr as [->|[-> Hr]].
  { exists [x], s2, (Raise AssertionError). unfold mbind, M_bind. rewrite E. split; [done|].
    split_and!; auto. }
  rewrite (run_bind _ _ _ _ _ _ E). cbv zeta.
  set (ctx := context_modules s ++ _). set (new := filter _ (distinct (services_of ctx cls))).
  exists [x], s2, (Ret (rest ++ new)). split; [done|]. split_and!; [done|done|]. right; right. exists new.
  assert (∀ y, y ∈ new ↔ y ∉ rest ∧ y ∈ services_of ctx cls) as Hnew
    by (intros y; unfold new; by rewrite list_elem_of_filter, elem_of_distinct).
  split_and!; [done| |by apply NoDup_filter, NoDup_distinct| |].
  - right; right. exists cls. split; [done|]. by rewrite Hg, decide_True.
  - intros y [_ [H|[_ H]]%elem_of_services_of]%Hnew; exists cls; (split; [done|]); [by right|by left].
  - intros Hacc z c. rewrite Hg. case_decide as Hz.
    + intros [= <-]. subst z. split; [done|]. intros y Hy.
      destruct (decide (y ∈ rest)); [left; apply elem_of_app; by left|].
      destruct (decide (y ∈ services_of ctx cls)) as [Hin|Hin];
        [left; apply elem_of_app; right; by apply Hnew|]. right; left.
      rewrite elem_of_services_of in Hin. destruct Hy as [Hy|Hy]; [|tauto].
      assert (y ∈ ctx) as Hyc by (destruct (decide (y ∈ ctx)); tauto).
      apply elem_of_app in Hyc as [Hyc|(kc & -> & Hkc)%list_elem_of_fmap].
      * by eapply context_modules_extends.
      * apply list_elem_of_fmap. exists kc. auto.
    + intros Hzc. destruct (Hacc z c Hzc) as [Hlz Hy]. split; [done|].
      intros y [[->|Hin]%elem_of_cons|Hp]%Hy.
      * right; right; right. exists cls. by rewrite Hg, decide_True.
      * left. apply elem_of_app. by left.
      * right. by eapply provided_extends.
Qed.

Lemma load_turn_run x rest s :
  entered s → ∃ o s' r, load_turn x rest s = (o, s', r) ∧ turn_result x rest s s' r.
Proof.
  intros He. destruct (decide (x ∈ context_modules s)) as [Hctx|Hctx].
  { exists [], s, (Ret rest). split; [|by apply turn_skips; [|left]].
    unfold load_turn. by rewrite gets_bind, bool_decide_true. }
  destruct (load_app x) as [[cls|]|e] eqn:Hl; [by eapply turn_loads| |].
  - exists [x], s, (Ret rest). split; [|by apply turn_skips; [|right; left]].
    unfold load_turn. by rewrite gets_bind, bool_decide_false, Hl.
  - exists [x], s, (Raise e). split; [unfold load_turn; by rewrite gets_bind, bool_decide_false, Hl|].
    split_and!; [done|done|right; left; by exists e].
Qed.

(** *** Applications that require each other *)

Lemma load_turn_alone x cls y s :
  load_app x = Ret (Some cls) → l_contexts cls = [] → contexts_cls s = [] →
  get_dependent_services cls = [y] →
  load_turn x [] s = ([x], s <| applications_cls ::= od_set x cls |>, Ret [y]).
Proof.
  intros Hl Hc Hs Hy. unfold load_turn. rewrite gets_bind. unfold context_modules. rewrite Hs.
  rewrite bool_decide_false by apply not_elem_of_nil.
  unfold mbind, M_bind, emit, lift. rewrite Hl. cbn [for_each]. rewrite Hc. unfold services_of. rewrite Hc, Hy. done.
Qed.

(** Two applications that require each other are loaded for ever: no number of turns is
    enough for the loop of [load_apps]. *)
Theorem mutual_dependency_loops a b ca cb fuel s :
  load_app a = Ret (Some ca) → load_app b = Ret (Some cb) →
  l_contexts ca = [] → l_contexts cb = [] → contexts_cls s = [] →
  get_dependent_services ca = [b] → get_dependent_services cb = [a] →
  result (load_apps fuel [a]) s = Raise OutOfFuel.
Proof.
  intros Ha Hb Hca Hcb Hs Hsa Hsb. revert a b ca cb s Ha Hb Hca Hcb Hs Hsa Hsb.
  induction fuel as [|fuel IH]; intros a b ca cb s Ha Hb Hca Hcb Hs Hsa Hsb; [done|].
  unfold result. cbn [load_apps]. unfold mbind, M_bind.
  rewrite (load_turn_alone a ca b s) by done.
  specialize (IH b a cb ca (s <| applications_cls ::= od_set a ca |>) Hb Ha Hcb Hca Hs Hsb Hsa).
  unfold result in IH. by destruct (load_apps fuel [b] _) as [[o s'] r].
Qed.

(** *** The end of the loop *)

Definition asked (x : string) : list string :=
  match load_app x with Ret (Some cls) => services_of [] cls | _ => [] end.

(** A bound on the turns one entry of the work list leads to, by its depth. *)
Fixpoint cost (r : nat) (x : string) : nat :=
  S (match r with O => O | S r => sum_list_with (cost r) (asked x) end).

Lemma sum_list_fmap_le (f g : string → nat) l :
  (∀ x, x ∈ l → (f x ≤ g x)%nat) → (sum_list_with f l ≤ sum_list_with g l)%nat.
Proof.
  induction l as [|x l IH]; intros H; [done|]. cbn.
  pose proof (H x (list_elem_of_here _ _)).
  assert (∀ y, y ∈ l → (f y ≤ g y)%nat) as Hl by (intros y Hy; apply H; by apply list_elem_of_further).
  specialize (IH Hl).
  lia.
Qed.

Lemma sum_list_sublist (f : string → nat) l k :
  NoDup l → (∀ x, x ∈ l → x ∈ k) → (sum_list_with f l ≤ sum_list_with f k)%nat.
Proof.
  intros Hl Hk. apply (NoDup_submseteq l k Hl) in Hk. apply submseteq_Permutation in Hk as [k' ->].
  rewrite sum_list_with_app. lia.
Qed.

Lemma cost_mono r r' x : (r ≤ r')%nat → (cost r x ≤ cost r' x)%nat.
Proof.
  revert r' x. induction r as [|r IH]; intros [|r'] x Hr; cbn; [lia|lia|lia|].
  apply le_n_S, sum_list_fmap_le. intros y _. apply IH. lia.
Qed.

Lemma needs_asked x cls y : load_app x = Ret (Some cls) → needs cls y → y ∈ asked x.
Proof.
  intros Hl Hy. unfold asked. rewrite Hl. apply elem_of_services_of.
  destruct Hy as [Hy|Hy]; [right; split; [apply not_elem_of_nil|done]|by left].
Qed.

Context (rank : string → nat)
  (acyclic : ∀ x cls y, load_app x = Ret (Some cls) → needs cls y → (rank y < rank x)%nat).

Definition weight (x : string) : nat := cost (rank x) x.

Definition total (l : list string) : nat := sum_list_with weight l.

Lemma total_app l k : total (l ++ k) = (total l + total k)%nat.
Proof. apply sum_list_with_app. Qed.

Lemma weight_services x new :
  NoDup new → (∀ y, y ∈ new → ∃ cls, load_app x = Ret (Some cls) ∧ needs cls y) →
  (total new < weight x)%nat.
Proof.
  intros Hnd Hnew. destruct new as [|y0 new'] eqn:En; [unfold weight; destruct (rank x); cbn; lia|].
  rewrite <- En in *. destruct (Hnew y0) as (cls & Hl & Hn0); [rewrite En; apply list_elem_of_here|].
  pose proof (acyclic x cls y0 Hl Hn0) as Hr. unfold weight. destruct (rank x) as [|r] eqn:Er; [lia|].
  cbn. apply le_n_S. etransitivity; [|apply (sum_list_sublist _ new)]; [|done|].
  - apply sum_list_fmap_le. intros y Hy. apply cost_mono.
    destruct (Hnew y Hy) as (cls' & Hl' & Hny). pose proof (acyclic x cls' y Hl' Hny). lia.
  - intros y Hy. destruct (Hnew y Hy) as (cls' & Hl' & Hny). by eapply needs_asked.
Qed.

Lemma load_apps_run fuel l s :
  entered s → accounted l s → (total l ≤ fuel)%nat →
  ∃ o s' r, load_apps fuel l s = (o, s', r) ∧ extends s s' ∧ entered s' ∧
    (r = Raise AssertionError ∨ (∃ x e, r = Raise e ∧ load_app x = Raise e) ∨
     r = Ret tt ∧ (∀ x, x ∈ l → provided x s') ∧ accounted [] s').
Proof.
  revert l s. induction fuel as [|fuel IH]; intros l s He Ha Hf; destruct l as [|x rest];
    try (exists [], s, (Ret tt); split_and!; [done..|]; right; right; split_and!; [done| |done];
         intros y Hy; by apply not_elem_of_nil in Hy).
  { unfold total in Hf. cbn in Hf. unfold weight in Hf. destruct (rank x); cbn in Hf; lia. }
  cbn [load_apps].
  destruct (load_turn_run x rest s He) as (o & s1 & r & E & Hs1 & He1 & Hr).
  destruct Hr as [->|[(e & -> & Hraise)|(new & -> & Hx & Hnd & Hnew & Hacc)]].
  { exists o, s1, (Raise AssertionError). unfold mbind, M_bind. rewrite E. split_and!; auto. }
  { exists o, s1, (Raise e). unfold mbind, M_bind. rewrite E. split_and!; [done..|]. right; left. by exists x, e. }
  rewrite (run_bind _ _ _ _ _ _ E).
  destruct (IH (rest ++ new) s1) as (o2 & s2 & r2 & E2 & Hs2 & He2 & Hr2); [done|by apply Hacc| |].
  { rewrite total_app. pose proof (weight_services x new Hnd Hnew). unfold total in *. cbn in Hf. lia. }
  rewrite E2. exists (o ++ o2), s2, r2. split_and!; [done|by etransitivity|done|].
  destruct Hr2 as [->|[(y & e & -> & Hy)|(-> & Hl & Ha2)]]; [by left|right; left; by exists y, e|right; right]. split_and!; [done| |done].
  intros y [->|Hy]%elem_of_cons; [by eapply provided_extends|]. apply Hl, elem_of_app. by left.
Qed.

(** C29: Loading ends when the applications do not require each other in a circle, and then it
    is complete: every application of the command line, and every one that the handlers, the
    requirements or the contexts of a loaded application ask for, is loaded, unless its module is
    that of a context or imports without an application of its own.  Only two classes under one
    context key stop it, or a module whose import raises an exception. *)
Theorem load_apps_complete l fuel :
  (total l ≤ fuel)%nat →
  let run := load_apps fuel l (Manager [] []) in
  run.2 = Raise AssertionError ∨ (∃ x e, run.2 = Raise e ∧ import_module imp x = Raise e) ∨
  run.2 = Ret tt ∧ (∀ x, x ∈ l → provided x run.1.2) ∧
  ∀ x cls, od_get x (applications_cls run.1.2) = Some cls →
    load_app x = Ret (Some cls) ∧ ∀ y, needs cls y → provided y run.1.2.
Proof.
  intros Hf. cbn zeta.
  destruct (load_apps_run fuel l (Manager [] [])) as (o & s & r & E & _ & _ & Hr); [done..|].
  rewrite E. destruct Hr as [->|[(x & e & -> & Hx)|(-> & Hl & Ha)]]; [by left|right; left|right; right].
  - exists x, e. split; [done|]. unfold load_app in Hx. destruct (import_module imp x); [done|]. cbn in Hx. congruence.
  - split_and!; [done|done|]. intros x cls Hx. destruct (Ha x cls Hx) as [Hlx Hy]. split; [done|].
    intros y [Hn|Hp]%Hy; [by apply not_elem_of_nil in Hn|done].
Qed.

End loading.

(** ** The theorems at work *)

Definition packet_in : class := ("ryu.controller.ofp_event", "EventOFPPacketIn").

Definition learn_packet : method :=
  set_ev_cls (Some (inl packet_in)) (Some (inl "main")) (Method "learn" []).

Definition switch_cls : app_cls := AppCls "SimpleSwitch" [learn_packet] [] (Some [1; 4]).

Definition an_event : event := Event packet_in EventBase 7.

(** An application with its handler that was sent an event, and stopped. *)
Definition an_app : app :=
  final (for_each [RegisterInstance; Start; Put (Item an_event (Some "main")); StopBegin] app_do)
    (new_app "SimpleSwitch" [learn_packet] []).

Definition an_app_history : list app_out := [Enqueued (Item an_event (Some "main"))].

Lemma an_app_reachable : reachable app_init app_step (an_app, an_app_history).
Proof.
  set (a0 := new_app "SimpleSwitch" [learn_packet] []).
  set (a1 := final (app_do RegisterInstance) a0). set (a2 := final (app_do Start) a1).
  set (a3 := final (app_do (Put (Item an_event (Some "main")))) a2).
  apply (reach_step _ _ (a3, an_app_history) StopBegin); [|by split_and!].
  apply (reach_step _ _ (a2, []) (Put (Item an_event (Some "main")))); [|by split_and!].
  apply (reach_step _ _ (a1, []) Start); [|by split_and!].
  apply (reach_step _ _ (a0, []) RegisterInstance); [|by split_and!].
  apply reach_init. by exists "SimpleSwitch", [learn_packet], [].
Qed.

Lemma events_delivered_in_order_witness :
  enqueued an_app_history = [Item an_event (Some "main")] ∧
  enqueued an_app_history = taken an_app_history ++ events an_app.
Proof.
  split; [reflexivity|].
  destruct (events_delivered_in_order an_app an_app_history an_app_reachable) as (_ & _ & H & _).
  exact H.
Defined.

(** A handler that takes itself out of the list, as one does that waits for a single event: the
    loop goes on one place further, and the handler after it is not called. *)
Definition two_handlers : app :=
  new_app "SimpleSwitch" [learn_packet; set_ev_cls (Some (inl packet_in)) (Some (inl "main")) (Method "log" [])] [].

Example self_unregister_skips_next :
  calls (outputs (for_each [RegisterInstance; Start; Put (Item an_event (Some "main")); EventLoop Returned; EventLoop Returned;
      UnregisterHandler packet_in learn_packet; EventLoop Returned; EventLoop Returned; EventLoop Returned] app_do) two_handlers)
    = [(learn_packet, an_event)].
Proof. vm_compute. reflexivity. Qed.

Lemma stop_drains_queue_witness :
  calls (outputs (loop_run 4) an_app) = [(learn_packet, an_event)].
Proof.
  destruct (stop_drains_queue an_app an_app_history 4 an_app_reachable) as (_ & _ & _ & H);
    [reflexivity|exact I|vm_compute; lia|]. etransitivity; [exact H|reflexivity].
Defined.

(** The source of the events and the application are instantiated. *)
Definition a_system : sys :=
  final (for_each [Instantiate source_cls; Instantiate switch_cls] sys_do) (Sys [] [] [] [] [] [1; 3; 4; 5; 6]).

Lemma a_system_reachable : reachable sys_init sys_step (a_system, []).
Proof.
  set (s0 := Sys [] [] [] [] [] [1; 3; 4; 5; 6]). set (s1 := final (sys_do (Instantiate source_cls)) s0).
  apply (reach_step _ _ (s1, []) (Instantiate switch_cls)); [|split; [by intros ? ?|by vm_compute]].
  apply (reach_step _ _ (s0, []) (Instantiate source_cls)); [|split; [by intros ? ?|by vm_compute]].
  by apply reach_init.
Qed.

Lemma bricks_consistent_witness :
  sys_ok a_system ∧ od_get "SimpleSwitch" (SERVICE_BRICKS a_system) = Some 1%nat.
Proof.
  split; [|reflexivity]. destruct (bricks_consistent a_system [] a_system_reachable) as [H _].
  exact H.
Defined.

Lemma a_system_ok : sys_ok a_system.
Proof.
  apply (preserves_for_each sys_ok [Instantiate source_cls; Instantiate switch_cls] sys_do).
  - intros op _. apply sys_do_ok.
  - split; cbn; [done|apply NoDup_nil_2|done].
Qed.

Lemma uninstantiate_forgets_witness :
  let s' := final (uninstantiate "SimpleSwitch") a_system in
  od_get "SimpleSwitch" (SERVICE_BRICKS s') = None ∧
  exists src, objs s' !! 0%nat = Some src ∧ get_observers src an_event (Some "main") = [].
Proof.
  cbv zeta.
  destruct (uninstantiate_forgets "SimpleSwitch" 1 a_system a_system_ok) as (_ & H & _ & _ & _ & Ho);
    [reflexivity|]. split; [exact H|].
  destruct (Ho "ofp_event" 0%nat (default (new_app "" [] []) (objs a_system !! 0%nat)))
    as (_ & a' & Ha & _ & Hg); [discriminate|reflexivity|reflexivity|].
  exists a'. split; [exact Ha|]. etransitivity; [exact (Hg an_event (Some "main"))|reflexivity].
Defined.

Lemma update_bricks_routes_witness :
  exists src, objs (final _update_bricks a_system) !! 0%nat = Some src ∧
    "SimpleSwitch" ∈ get_observers src an_event (Some "main").
Proof.
  destruct (update_bricks_routes a_system a_system_ok) as (_ & _ & Ho & Hr & _).
  destruct (Ho 0%nat (default (new_app "" [] []) (objs a_system !! 0%nat))) as (src & Hs & _);
    [reflexivity|].
  exists src. split; [exact Hs|].
  apply (Hr "SimpleSwitch" 1%nat (default (new_app "" [] []) (objs a_system !! 1%nat)) learn_packet
    packet_in (Caller ["main"] (Some "ryu.controller.ofp_event")) 0%nat src an_event "main");
    [reflexivity|reflexivity|left|left|split; [reflexivity|left; reflexivity]
    |exact Hs|reflexivity|left].
Defined.

(** Modules: two applications, one of which requires the other, and is given by the path of its
    file; and two that require each other. *)
Definition class_in (m : string) : loaded_cls := LoadedCls (m, "App") [] [].

Definition installed : importer :=
  Importer (λ p, bool_decide (p = "gui.py")) (λ p, "/app/" +:+ p) (λ _, "gui.py")
    (λ n _, Ret (Module_ n [class_in n])) (λ n, Ret (Module_ n [class_in n])).

Definition gui_requires (m : string) : list string := if bool_decide (m = "gui") then ["switches"] else [].

Example load_app_by_path : load_app installed "gui.py" = Ret (Some (class_in "gui")).
Proof. vm_compute. reflexivity. Qed.

Lemma load_apps_complete_witness :
  let run := load_apps installed (λ _, None) gui_requires (λ _, None) 2 ["gui.py"] (Manager [] []) in
  run.2 = Ret tt ∧ provided installed "gui.py" run.1.2.
Proof.
  cbv zeta.
  destruct (load_apps_complete installed (λ _, None) gui_requires (λ _, None)
    (λ m, if bool_decide (m = "gui.py" ∨ m = "gui") then 1%nat else 0%nat)) with (l := ["gui.py"]) (fuel := 2%nat)
    as [H|[(x & e & _ & H)|(H & Hp & _)]].
  - intros x cls y Hl [Hy|(k & c & a & _ & Ha & _)]; [|discriminate Ha].
    unfold load_app, import_module in Hl. cbn in Hl. case_bool_decide as Ex.
    + subst x. cbn in Hl. injection Hl as <-. apply list_elem_of_singleton in Hy as ->. vm_compute. apply le_n.
    + cbn in Hl. rewrite decide_True in Hl by reflexivity. injection Hl as <-. unfold get_dependent_services, gui_requires in Hy. cbn in Hy.
      case_bool_decide as Eg; [|by apply not_elem_of_nil in Hy]. subst x. apply list_elem_of_singleton in Hy as ->. vm_compute. apply le_n.
  - vm_compute. lia.
  - exfalso. vm_compute in H. discriminate H.
  - exfalso. unfold import_module in H. cbn in H. case_bool_decide; discriminate H.
  - split; [exact H|]. apply Hp. left.
Defined.

Lemma mutual_dependency_loops_witness :
  ∀ fuel, result (load_apps installed (λ _, None)
    (λ m, if bool_decide (m = "a") then ["b"] else ["a"]) (λ _, None) fuel ["a"])
    (Manager [] []) = Raise OutOfFuel.
Proof.
  intros fuel. apply (mutual_dependency_loops installed (λ _, None)
    (λ m, if bool_decide (m = "a") then ["b"] else ["a"]) (λ _, None) "a" "b"
    (class_in "a") (class_in "b")); reflexivity.
Defined.
