(* ===== verification/PacketUtils.v ===== *)
(** * Checksums of packets

    Models [ryu/lib/packet/packet_utils.py]: the Internet checksum, with and without the
    pseudo header of IP, and the Fletcher checksum.  A byte is an integer below 256.  The
    byte order of the host, in which [array.array('H', ...)] reads words, is a parameter;
    [socket.ntohs] swaps bytes when it is little endian.  Addresses are given as the bytes
    that [addrconv] makes of them. *)

From stdpp Require Import base list.
From Stdlib Require Import ZArith Lia.
From S2P Require Import Prelude Struct.

Open Scope Z_scope.
Set Default Proof Using "Type".

(** ** The Internet checksum *)

Definition carry_around_add (a b : Z) : Z :=
  let c := a + b in Z.land c 0xffff + Z.shiftr c 16.

(** The exchange of the two bytes of a word. *)
Definition swap16 (x : Z) : Z := Z.lor (Z.shiftl (Z.land x 0xff) 8) (Z.shiftr x 8).

Section checksum.
Context (little_endian : bool).

Definition ntohs (x : Z) : Z := if little_endian then swap16 x else x.

(** [array.array('H', data)] of an even number of bytes. *)
Fixpoint words (data : bytes) : list Z :=
  match data with
  | a :: b :: data => (if little_endian then b * 256 + a else a * 256 + b) :: words data
  | _ => []
  end.

Definition sum (l : list Z) : Z := foldr Z.add 0 l.

Definition checksum (data : bytes) : Z :=
  let data := if Z.of_nat (length data) mod 2 =? 0 then data else data ++ [0] in
  let s := sum (words data) in
  let s := Z.land s 0xffff + Z.shiftr s 16 in
  let s := s + Z.shiftr s 16 in
  ntohs (Z.land (Z.lnot s) 0xffff).

(** What [checksum_ip] reads of a packet of the network layer. *)
Record ipvx := Ipvx {
  version : Z;
  src : bytes;
  dst : bytes;
  proto : Z
}.

Definition pseudo_header (ip : ipvx) (len : Z) : outcome pyexn bytes :=
  if version ip =? 4 then
    tail ← pack [(1%nat, 0); (1%nat, proto ip); (2%nat, len)];
    Ret (src ip ++ dst ip ++ tail)
  else if version ip =? 6 then
    tail ← pack [(4%nat, len); (3%nat, 0); (1%nat, proto ip)];
    Ret (src ip ++ dst ip ++ tail)
  else Raise ValueError.

Definition checksum_ip (ip : ipvx) (len : Z) (payload : bytes) : outcome pyexn Z :=
  header ← pseudo_header ip len;
  Ret (checksum (header ++ payload)).
End checksum.

(** ** The Fletcher checksum *)

Definition _MODX : nat := 4102.

(** One chunk: [for d in data[pos:pos + tlen]: c0 += d; c1 += c0]. *)
Definition fletcher_chunk (chunk : bytes) (c : Z * Z) : Z * Z :=
  foldl (λ '(c0, c1) d, (c0 + d, c1 + (c0 + d))) c chunk.

(** [while pos < length]; [None] when the fuel runs out. *)
Fixpoint fletcher_loop (fuel : nat) (data : bytes) (length pos : nat) (c : Z * Z) :
    option (Z * Z) :=
  if decide (pos < length)%nat then
    match fuel with
    | O => None
    | S fuel =>
      let tlen := Nat.min (length - pos) _MODX in
      let '(c0, c1) := fletcher_chunk (take tlen (drop pos data)) c in
      fletcher_loop fuel data length (pos + tlen) (c0 mod 255, c1 mod 255)
    end
  else Some c.

(** The buffer, with the checksum in place, and the value returned.  Assigning two bytes to the
    slice [offset:offset + 2] makes the buffer longer when the slice is shorter than that, and
    the later assignments to single positions fail outside the buffer. *)
Definition fletcher_checksum (fuel : nat) (data : bytes) (offset : nat) :
    option (outcome pyexn (bytes * Z)) :=
  let len := length data in
  let data := take offset data ++ [0; 0] ++ drop (offset + 2) data in
  match fletcher_loop fuel data len 0 (0, 0) with
  | None => None
  | Some (c0, c1) =>
    let x := ((Z.of_nat len - Z.of_nat offset - 1) * c0 - c1) mod 255 in
    let x := if x <=? 0 then x + 255 else x in
    let y := 510 - c0 - x in
    let y := if 255 <? y then y - 255 else y in
    Some (if decide (offset + 1 < length data)%nat then
            Ret (<[(offset + 1)%nat := y]> (<[offset := x]> data),
                 Z.lor (Z.shiftl x 8) (Z.land y 0xff))
          else Raise IndexError)
  end.

(** ** One's complement arithmetic *)

(** The sum of RFC 1071: a carry out of 16 bits is added at the low end. *)
Definition oc_add (a b : Z) : Z := if 0xffff <? a + b then a + b - 0xffff else a + b.

Definition oc_sum (l : list Z) : Z := foldr oc_add 0 l.

(** The number from 0 to 0xffff that stands for a sum: 0 for 0 only. *)
Definition rep (s : Z) : Z := if s =? 0 then 0 else (s - 1) mod 0xffff + 1.

Lemma rep_bound s : 0 ≤ rep s ≤ 0xffff.
Proof. unfold rep. case Z.eqb_spec; [lia|]. intros _. pose proof (Z.mod_pos_bound (s - 1) 0xffff). lia. Qed.

Lemma rep_mod s : rep s mod 0xffff = s mod 0xffff.
Proof.
  unfold rep. case Z.eqb_spec; [by intros ->|]. intros _.
  rewrite <- Zplus_mod_idemp_l, Zmod_mod, Zplus_mod_idemp_l. f_equal. lia.
Qed.

(** [rep] is characterised by the residue and by being positive with the sum. *)
Lemma rep_unique s x :
  0 ≤ x ≤ 0xffff → x mod 0xffff = s mod 0xffff → (x = 0 ↔ s = 0) → rep s = x.
Proof.
  intros Hx Hm Hz. unfold rep. case Z.eqb_spec; [intros ->; symmetry; by apply Hz|]. intros Hs.
  assert (x ≠ 0) as Hx0 by tauto.
  assert ((s - 1) mod 0xffff = (x - 1) mod 0xffff) as ->.
  { rewrite (Zminus_mod s), (Zminus_mod x), Hm. done. }
  rewrite Z.mod_small; lia.
Qed.

Lemma oc_sum_rep l : Forall (λ w, 0 ≤ w ≤ 0xffff) l → oc_sum l = rep (sum l) ∧ 0 ≤ sum l.
Proof.
  induction 1 as [|w l Hw Hl [IH Hs]]; [done|].
  change (oc_sum (w :: l)) with (oc_add w (oc_sum l)). change (sum (w :: l)) with (w + sum l).
  split; [|lia]. rewrite IH. symmetry. pose proof (rep_bound (sum l)) as Hb.
  pose proof (rep_mod (sum l)) as Hm.
  assert (rep (sum l) = 0 ↔ sum l = 0) as Hz.
  { unfold rep. case Z.eqb_spec; [done|]. intros. pose proof (Z.mod_pos_bound (sum l - 1) 0xffff). lia. }
  apply rep_unique; unfold oc_add; case Z.ltb_spec; intros Hlt; try lia.
  - rewrite <- (Z.mod_add _ (-1)) by lia.
    replace (w + rep (sum l) - 65535 + -1 * 65535) with (w + rep (sum l) + (-2) * 65535) by lia.
    rewrite Z.mod_add by lia. rewrite Zplus_mod, Hm, <- Zplus_mod. done.
  - by rewrite Zplus_mod, Hm, <- Zplus_mod.
Qed.

(** The two foldings of the code. *)
Lemma fold_rep s :
  0 ≤ s < 2 ^ 32 →
  let s1 := Z.land s 0xffff + Z.shiftr s 16 in
  let s2 := s1 + Z.shiftr s1 16 in
  Z.land s2 0xffff = rep s.
Proof.
  intros Hs. cbn zeta. change 0xffff with (Z.ones 16). rewrite !Z.land_ones, !Z.shiftr_div_pow2 by lia.
  change (2 ^ 16) with 65536.
  pose proof (Z.div_mod s 65536 ltac:(lia)) as Hd. pose proof (Z.mod_pos_bound s 65536 ltac:(lia)) as Hr.
  assert (0 ≤ s / 65536 < 65536) as Hq.
  { split; [apply Z.div_pos; lia|apply Z.div_lt_upper_bound; lia]. }
  set (q := s / 65536) in *. set (r := s mod 65536) in *. symmetry.
  destruct (decide (r + q < 65536)) as [Hlt|Hge].
  - rewrite (Z.div_small (r + q)), Z.add_0_r, (Z.mod_small (r + q)) by lia.
    apply rep_unique; [lia| |lia].
    replace s with (r + q + q * 0xffff) by lia. by rewrite Z.mod_add.
  - assert ((r + q) / 65536 = 1) as -> by (symmetry; apply (Z.div_unique _ _ _ (r + q - 65536)); lia).
    assert ((r + q + 1) mod 65536 = r + q + 1 - 65536) as ->
      by (symmetry; apply (Z.mod_unique _ _ 1); lia).
    apply rep_unique; [lia| |lia].
    replace s with (r + q + 1 - 65536 + (q + 1) * 0xffff) by lia. by rewrite Z.mod_add.
Qed.

(** ** Byte order *)

Lemma swap16_value a b : is_byte a → is_byte b → swap16 (a * 256 + b) = b * 256 + a.
Proof.
  unfold is_byte, swap16. intros Ha Hb. change 0xff with (Z.ones 8).
  rewrite Z.land_ones, Z.shiftr_div_pow2, Z.shiftl_mul_pow2 by lia. change (2 ^ 8) with 256.
  rewrite Z.add_comm, Z.mod_add, Z.div_add, (Z.mod_small b), (Z.div_small b) by lia.
  rewrite Z.add_0_l. rewrite <- Z.add_lor_land.
  assert (Z.land (b * 256) a = 0) as ->; [|lia].
  change 256 with (2 ^ 8). rewrite <- Z.shiftl_mul_pow2 by lia.
  apply Z.bits_inj'. intros n Hn. rewrite Z.land_spec, Z.bits_0, Z.shiftl_spec by done.
  destruct (decide (n < 8)); [by rewrite Z.testbit_neg_r by lia|].
  rewrite <- (Z.mod_small a (2 ^ 8)) by (change (2 ^ 8) with 256; lia).
  rewrite Z.mod_pow2_bits_high by lia. apply andb_false_r.
Qed.

(** A word is two bytes. *)
Lemma word_bytes x : 0 ≤ x ≤ 0xffff → ∃ a b, is_byte a ∧ is_byte b ∧ x = a * 256 + b.
Proof.
  intros Hx. exists (x / 256), (x mod 256). unfold is_byte.
  pose proof (Z.div_mod x 256 ltac:(lia)). pose proof (Z.mod_pos_bound x 256 ltac:(lia)).
  split_and!; lia.
Qed.

Lemma swap16_props x :
  0 ≤ x ≤ 0xffff →
  0 ≤ swap16 x ≤ 0xffff ∧ swap16 x mod 0xffff = (256 * x) mod 0xffff ∧ (swap16 x = 0 ↔ x = 0) ∧
  swap16 (0xffff - x) = 0xffff - swap16 x.
Proof.
  intros Hx. destruct (word_bytes x Hx) as (a & b & Ha & Hb & ->). rewrite swap16_value by done.
  unfold is_byte in *. split_and!; [lia|lia| |lia|].
  - replace (256 * (a * 256 + b)) with (b * 256 + a + a * 0xffff) by lia. by rewrite Z.mod_add.
  - replace (0xffff - (a * 256 + b)) with ((255 - a) * 256 + (255 - b)) by lia.
    rewrite swap16_value by (unfold is_byte; lia). lia.
Qed.

Lemma rep_swap s : 0 ≤ s → swap16 (rep s) = rep (256 * s).
Proof.
  intros Hs. destruct (swap16_props (rep s) (rep_bound s)) as (Hb & Hm & Hz & _). symmetry.
  apply rep_unique; [done| |].
  - rewrite Hm. by rewrite Zmult_mod, rep_mod, <- Zmult_mod.
  - rewrite Hz. unfold rep. case Z.eqb_spec; [lia|]. intros.
    pose proof (Z.mod_pos_bound (s - 1) 0xffff). lia.
Qed.

Lemma sum_app l k : sum (l ++ k) = sum l + sum k.
Proof. induction l as [|x l IH]; [done|]. change (x + sum (l ++ k) = x + sum l + sum k). lia. Qed.

(** The words in network byte order, and the data padded to whole words. *)
Abbreviation net_words := (words false).

Definition padded (data : bytes) : bytes :=
  if Z.of_nat (length data) mod 2 =? 0 then data else data ++ [0].

Lemma even_ind (P : bytes → Prop) :
  P [] → (∀ a b l, P l → P (a :: b :: l)) → ∀ l, Z.of_nat (length l) mod 2 = 0 → P l.
Proof.
  intros H0 H2. assert (∀ n l, (length l < n)%nat → Z.of_nat (length l) mod 2 = 0 → P l) as H;
    [|intros l; by apply (H (S (length l)) l (le_n _))].
  induction n as [|n IH]; intros l Hn He; [lia|]. destruct l as [|a [|b l]]; [done|done|].
  apply H2, IH; [cbn in Hn; lia|]. cbn [length] in He.
  replace (Z.of_nat (S (S (length l)))) with (Z.of_nat (length l) + 1 * 2) in He by lia.
  by rewrite Z.mod_add in He.
Qed.

Lemma padded_even data : Z.of_nat (length (padded data)) mod 2 = 0.
Proof.
  unfold padded. case Z.eqb_spec; [done|]. intros H. rewrite length_app. cbn [length].
  rewrite Nat2Z.inj_add, Zplus_mod.
  pose proof (Z.mod_pos_bound (Z.of_nat (length data)) 2 ltac:(lia)).
  by replace (Z.of_nat (length data) mod 2) with 1 by lia.
Qed.

Lemma padded_bytes data : Forall is_byte data → Forall is_byte (padded data).
Proof. intros H. unfold padded. destruct (_ =? _); [done|].
  apply Forall_app. split; [done|]. apply Forall_singleton. unfold is_byte. lia.
Qed.

Lemma net_words_bound data :
  Z.of_nat (length data) mod 2 = 0 → Forall is_byte data →
  Forall (λ w, 0 ≤ w ≤ 0xffff) (net_words data) ∧
  0 ≤ sum (net_words data) ∧ 2 * sum (net_words data) ≤ 0xffff * Z.of_nat (length data).
Proof.
  intros He. revert data He. refine (even_ind _ _ _); [done|].
  intros a b l IH [Ha [Hb Hl]%Forall_cons]%Forall_cons.
  destruct (IH Hl) as (H1 & H2 & H3). unfold is_byte in *. cbn [words length].
  change (sum (a * 256 + b :: net_words l)) with (a * 256 + b + sum (net_words l)).
  split; [apply Forall_cons; split; [lia|done]|]. lia.
Qed.

(** In little endian order every word stands for 256 times itself. *)
Lemma little_words data :
  Z.of_nat (length data) mod 2 = 0 → Forall is_byte data →
  sum (words true data) mod 0xffff = 256 * sum (net_words data) mod 0xffff ∧
  0 ≤ sum (words true data) ∧ 2 * sum (words true data) ≤ 0xffff * Z.of_nat (length data) ∧
  (sum (words true data) = 0 ↔ sum (net_words data) = 0) ∧ 0 ≤ sum (net_words data).
Proof.
  intros He. revert data He. refine (even_ind _ _ _); [done|].
  intros a b l IH [Ha [Hb Hl]%Forall_cons]%Forall_cons.
  destruct (IH Hl) as (H1 & H2 & H3 & H4 & H5). unfold is_byte in *. cbn [words length].
  change (sum (a * 256 + b :: net_words l)) with (a * 256 + b + sum (net_words l)).
  change (sum (b * 256 + a :: words true l)) with (b * 256 + a + sum (words true l)).
  split_and!; [|lia..].
  rewrite Zplus_mod, H1, <- Zplus_mod.
  replace (256 * (a * 256 + b + sum (net_words l)))
    with (b * 256 + a + 256 * sum (net_words l) + a * 0xffff) by lia.
  by rewrite Z.mod_add.
Qed.

Lemma ntohs_range little_endian x : 0 ≤ x ≤ 0xffff → 0 ≤ ntohs little_endian x ≤ 0xffff.
Proof. intros Hx. unfold ntohs. destruct little_endian; [by apply swap16_props|done]. Qed.

(** The checksum of anything fits its field, and that of zeros is not zero. *)
Lemma checksum_range little_endian data : 0 ≤ checksum little_endian data ≤ 0xffff.
Proof.
  unfold checksum. cbv zeta. apply ntohs_range. change 0xffff with (Z.ones 16). rewrite Z.land_ones by lia.
  change (Z.ones 16) with (2 ^ 16 - 1).
  match goal with |- context [?x mod _] => pose proof (Z.mod_pos_bound x (2 ^ 16)) end. lia.
Qed.

Lemma checksum_zeros little_endian data : Forall (λ b, b = 0) data → checksum little_endian data = 0xffff.
Proof.
  intros Hz. unfold checksum. fold (padded data).
  assert (sum (words little_endian (padded data)) = 0) as ->; [|by destruct little_endian].
  assert (Forall (λ b, b = 0) (padded data)) as Hp.
  { unfold padded. case_match; [done|]. by rewrite Forall_app, Forall_singleton. }
  generalize (padded_even data). revert Hp. generalize (padded data). intros l Hp He. revert l He Hp.
  refine (even_ind _ _ _); [done|]. intros a b l IH H. rewrite !Forall_cons in H. destruct H as (-> & -> & H).
  cbn. destruct little_endian; by apply IH.
Qed.

Lemma complement x : 0 ≤ x ≤ 0xffff → Z.land (Z.lnot x) 0xffff = 0xffff - x.
Proof.
  intros Hx. change (Z.land (Z.lnot x) 0xffff) with (Z.land (Z.lnot x) (Z.ones 16)).
  rewrite Z.land_ones by lia. unfold Z.lnot. symmetry. apply (Z.mod_unique _ _ (-1)); lia.
Qed.

Lemma complement_low x : Z.land (Z.lnot x) 0xffff = 0xffff - Z.land x 0xffff.
Proof.
  rewrite <- (complement (Z.land x 0xffff)).
  - apply Z.bits_inj'. intros n Hn. rewrite !Z.land_spec, !Z.lnot_spec, Z.land_spec by done.
    by destruct (Z.testbit x n), (Z.testbit 0xffff n).
  - change 0xffff with (Z.ones 16). rewrite Z.land_ones by lia.
    pose proof (Z.mod_pos_bound x (2 ^ 16)). change (Z.ones 16) with (2 ^ 16 - 1). lia.
Qed.

Lemma checksum_rfc little_endian data :
  Forall is_byte data → Z.of_nat (length data) ≤ 2 ^ 17 →
  checksum little_endian data = 0xffff - oc_sum (net_words (padded data)).
Proof.
  intros Hb Hl. unfold checksum. fold (padded data).
  pose proof (padded_even data) as He. pose proof (padded_bytes data Hb) as Hp.
  assert (Z.of_nat (length (padded data)) ≤ 2 ^ 17) as Hlen.
  { unfold padded in *. destruct (Z.eqb_spec (Z.of_nat (length data) mod 2) 0) as [|Ho]; [done|].
    rewrite length_app. cbn [length]. rewrite Nat2Z.inj_add.
    assert (Z.of_nat (length data) ≠ 2 ^ 17) by (intros E; rewrite E in Ho; by apply Ho). lia. }
  destruct (net_words_bound (padded data) He Hp) as (Hw & Hs & Hmax).
  destruct (oc_sum_rep _ Hw) as [-> _]. cbv zeta. rewrite complement_low.
  destruct little_endian; unfold ntohs.
  - destruct (little_words (padded data) He Hp) as (Hm & Hs' & Hmax' & Hz & _).
    rewrite fold_rep by lia. rewrite (proj2 (proj2 (proj2 (swap16_props _ (rep_bound _))))).
    rewrite rep_swap by done. f_equal. apply rep_unique; [apply rep_bound| |].
    + rewrite rep_mod. rewrite Zmult_mod, Hm, <- Zmult_mod.
      replace (256 * (256 * sum (net_words (padded data))))
        with (sum (net_words (padded data)) + sum (net_words (padded data)) * 0xffff) by lia.
      by rewrite Z.mod_add.
    + unfold rep. case Z.eqb_spec; [lia|]. intros.
      pose proof (Z.mod_pos_bound (sum (net_words (padded data)) - 1) 0xffff). lia.
  - rewrite fold_rep by lia. done.
Qed.

(** On a host of either byte order the Internet checksum is that of RFC 1071: the
    complement of the one's complement sum of the words in network byte order, a last odd
    byte padded with zero, for any data of up to 128 KiB. *)
Theorem checksum_is_rfc1071 little_endian data :
  Forall is_byte data → Z.of_nat (length data) ≤ 2 ^ 17 →
  checksum little_endian data = 0xffff - oc_sum (net_words (padded data)).
Proof. apply checksum_rfc. Qed.

Lemma checksum_is_rfc1071_witness :
  checksum true [0x45; 0x00; 0x00] = 0xbaff ∧
  checksum true [0x45; 0x00; 0x00] = 0xffff - oc_sum (net_words (padded [0x45; 0x00; 0x00])).
Proof.
  split; [vm_compute; reflexivity|]. apply checksum_is_rfc1071; [|vm_compute; discriminate].
  repeat constructor; discriminate.
Defined.

(** ** A packet that carries its checksum *)

Lemma words_app little_endian k l :
  Z.of_nat (length k) mod 2 = 0 → words little_endian (k ++ l) = words little_endian k ++ words little_endian l.
Proof.
  intros He. revert k He. refine (even_ind _ _ _); [done|]. intros a b k IH. cbn. by rewrite IH.
Qed.

Lemma padded_app k l : Z.of_nat (length k) mod 2 = 0 → padded (k ++ l) = k ++ padded l.
Proof.
  intros He. unfold padded. rewrite length_app, Nat2Z.inj_add, Zplus_mod, He, Z.add_0_l, Zmod_mod.
  destruct (_ =? _); [done|]. by rewrite app_assoc.
Qed.

(** The sum over a packet whose checksum field, at an even offset, holds [cs]. *)
Lemma filled_sum k l cs :
  Z.of_nat (length k) mod 2 = 0 → 0 ≤ cs ≤ 0xffff →
  sum (net_words (padded (k ++ be_bytes 2 cs ++ l))) = sum (net_words k) + cs + sum (net_words (padded l)).
Proof.
  intros He Hcs. rewrite padded_app, words_app, sum_app by done.
  rewrite (padded_app (be_bytes 2 cs)), (words_app false (be_bytes 2 cs)), sum_app by done.
  destruct (word_bytes cs Hcs) as (a & b & Ha & Hb & ->).
  assert (be_bytes 2 (a * 256 + b) = [a; b]) as ->.
  { unfold is_byte in *. cbn [be_bytes app].
    rewrite Z.div_add_l, (Z.div_small b), Z.add_0_r, (Z.mod_small a), Z.add_comm, Z.mod_add,
      (Z.mod_small b) by lia. done. }
  change (sum (net_words [a; b])) with (a * 256 + b + 0). lia.
Qed.

(** A checksum put into its field, which was zero, makes the checksum of the packet 0. *)
Lemma checksum_filled sender receiver k l :
  Forall is_byte k → Forall is_byte l → Z.of_nat (length k) mod 2 = 0 →
  Z.of_nat (length k + 2 + length l) ≤ 2 ^ 17 →
  let cs := checksum sender (k ++ [0; 0] ++ l) in
  0 ≤ cs ≤ 0xffff ∧ checksum receiver (k ++ be_bytes 2 cs ++ l) = 0.
Proof.
  intros Hk Hl He Hlen cs.
  assert (∀ x : bytes, Forall is_byte x → length x = 2%nat → Forall is_byte (k ++ x ++ l) ∧
            Z.of_nat (length (k ++ x ++ l)) ≤ 2 ^ 17) as Hx.
  { intros x Hx Hn. rewrite !Forall_app, !length_app, Hn. split_and!; [done..|lia]. }
  set (s := sum (net_words k) + sum (net_words (padded l))).
  assert (0 ≤ s) as Hs.
  { destruct (net_words_bound k He Hk) as (_ & ? & _).
    destruct (net_words_bound (padded l) (padded_even l) (padded_bytes l Hl)) as (_ & ? & _). lia. }
  assert (∀ b c, 0 ≤ c ≤ 0xffff →
            checksum b (k ++ be_bytes 2 c ++ l) = 0xffff - rep (s + c)) as Hsum.
  { intros b c Hc. destruct (Hx (be_bytes 2 c) (be_bytes_are_bytes _ _) (length_be_bytes _ _)) as [Hb Hn].
    rewrite checksum_rfc by done.
    destruct (net_words_bound _ (padded_even (k ++ be_bytes 2 c ++ l)) (padded_bytes _ Hb)) as [Hw _].
    destruct (oc_sum_rep _ Hw) as [-> _]. rewrite filled_sum by done. do 2 f_equal. lia. }
  assert (cs = 0xffff - rep s) as Hcs.
  { unfold cs. change [0; 0] with (be_bytes 2 0). rewrite Hsum by lia. by rewrite Z.add_0_r. }
  pose proof (rep_bound s) as Hb. split; [lia|]. rewrite Hsum by lia.
  rewrite (rep_unique (s + cs) 0xffff); [done|lia| |].
  - rewrite (Zplus_mod s), <- (rep_mod s), <- Zplus_mod. by replace (rep s + cs) with 0xffff by lia.
  - split; [done|]. intros Hz. assert (s = 0) as -> by lia. cbn in Hcs. lia.
Qed.

(** A sender that computes the checksum of a packet with a zero checksum field at an even
    offset and puts the result in that field makes a packet whose checksum, computed by a
    receiver of either byte order, is 0. *)
Theorem checksum_verifies sender receiver k l :
  Forall is_byte k → Forall is_byte l → Z.of_nat (length k) mod 2 = 0 →
  Z.of_nat (length k + 2 + length l) ≤ 2 ^ 17 →
  let cs := checksum sender (k ++ [0; 0] ++ l) in
  0 ≤ cs ≤ 0xffff ∧ checksum receiver (k ++ be_bytes 2 cs ++ l) = 0.
Proof. apply checksum_filled. Qed.

Lemma checksum_verifies_witness :
  checksum true [0x45; 0x00; 0x00; 0x00; 0x40] = 0x7aff ∧
  checksum false ([0x45; 0x00] ++ be_bytes 2 0x7aff ++ [0x40]) = 0.
Proof.
  split; [vm_compute; reflexivity|].
  refine (proj2 (checksum_verifies true false [0x45; 0x00] [0x40] _ _ _ _));
    try (vm_compute; first [reflexivity|discriminate]); repeat constructor; discriminate.
Defined.

(** ** The Fletcher checksum *)

(** The weighted sum that the second sum of Fletcher adds up. *)
Fixpoint wsum (l : bytes) : Z :=
  match l with [] => 0 | d :: l => Z.of_nat (S (length l)) * d + wsum l end.

Lemma fletcher_chunk_value l c0 c1 :
  fletcher_chunk l (c0, c1) = (c0 + sum l, c1 + Z.of_nat (length l) * c0 + wsum l).
Proof.
  revert c0 c1. induction l as [|d l IH]; intros c0 c1.
  - cbn. f_equal; lia.
  - change (fletcher_chunk (d :: l) (c0, c1)) with (fletcher_chunk l (c0 + d, c1 + (c0 + d))).
    rewrite IH. change (sum (d :: l)) with (d + sum l). cbn [wsum length].
    rewrite !Nat2Z.inj_succ. f_equal; lia.
Qed.

Lemma fletcher_chunk_app k l c : fletcher_chunk (k ++ l) c = fletcher_chunk l (fletcher_chunk k c).
Proof. apply foldl_app. Qed.

(** The sums modulo 255, which is all that the code keeps of them. *)
Definition mod255 (c : Z * Z) : Z * Z := (c.1 mod 255, c.2 mod 255).

Lemma fletcher_chunk_mod l c : mod255 (fletcher_chunk l (mod255 c)) = mod255 (fletcher_chunk l c).
Proof.
  destruct c as [c0 c1]. unfold mod255. cbn [fst snd]. rewrite !fletcher_chunk_value. cbn [fst snd].
  f_equal; [by rewrite Zplus_mod_idemp_l|].
  rewrite <- !Z.add_assoc, Zplus_mod_idemp_l, !Z.add_assoc.
  rewrite <- (Zplus_mod_idemp_l (_ + _ * (c0 mod 255))), <- (Zplus_mod_idemp_r (_ * (c0 mod 255))),
    Zmult_mod_idemp_r, Zplus_mod_idemp_r, Zplus_mod_idemp_l. done.
Qed.

Lemma fletcher_loop_value fuel data len pos c :
  (len - pos ≤ fuel)%nat →
  ∃ c', fletcher_loop fuel data len pos c = Some c' ∧
        mod255 c' = mod255 (fletcher_chunk (take (len - pos) (drop pos data)) c) ∧
        ((pos < len)%nat → mod255 c' = c').
Proof.
  revert pos c. induction fuel as [|fuel IH]; intros pos c Hf; cbn [fletcher_loop]; case_decide as Hp; try lia.
  - exists c. replace (len - pos)%nat with O by lia. by split_and!.
  - set (tlen := Nat.min (len - pos) _MODX). set (chunk := take tlen (drop pos data)).
    assert (0 < tlen ≤ len - pos)%nat as Ht by (unfold tlen, _MODX; lia).
    destruct (fletcher_chunk chunk c) as [c0 c1] eqn:Hc.
    destruct (IH (pos + tlen)%nat (c0 mod 255, c1 mod 255)) as (c' & Hrun & Hm & Hr); [lia|].
    exists c'. split; [done|]. split.
    + rewrite Hm. change (c0 mod 255, c1 mod 255) with (mod255 (c0, c1)).
      rewrite fletcher_chunk_mod, <- Hc, <- fletcher_chunk_app. do 2 f_equal. unfold chunk.
      rewrite <- (take_drop tlen (take (len - pos) (drop pos data))), take_take, Nat.min_l by lia.
      f_equal. rewrite skipn_firstn_comm, drop_drop. f_equal. lia.
    + intros _. destruct (decide (pos + tlen < len)%nat) as [|Hge]; [auto|].
      destruct fuel; cbn [fletcher_loop] in Hrun; rewrite decide_False in Hrun by done;
        injection Hrun as <-; unfold mod255; cbn [fst snd]; by rewrite !Zmod_mod.
  - exists c. replace (len - pos)%nat with O by lia. by split_and!.
Qed.

Lemma wsum_app k l : wsum (k ++ l) = wsum k + Z.of_nat (length l) * sum k + wsum l.
Proof.
  induction k as [|d k IH]; cbn [app wsum]; [change (sum []) with 0; lia|].
  rewrite IH, length_app. change (sum (d :: k)) with (d + sum k). cbn [length].
  rewrite !Nat2Z.inj_succ, Nat2Z.inj_add. lia.
Qed.

Lemma mod_eq_offset a b n : a mod n = b mod n → n ≠ 0 → ∃ q, a = b + q * n.
Proof.
  intros H Hn. exists (a / n - b / n). pose proof (Z.div_mod a n Hn). pose proof (Z.div_mod b n Hn). lia.
Qed.

(** The two check bytes: in range and, modulo 255, what cancels the sums. *)
Lemma check_bytes n c0 c1 :
  0 ≤ c0 < 255 →
  let x := (n * c0 - c1) mod 255 in
  let x := if x <=? 0 then x + 255 else x in
  let y := 510 - c0 - x in
  let y := if 255 <? y then y - 255 else y in
  1 ≤ x ≤ 255 ∧ 1 ≤ y ≤ 255 ∧
  (∃ q, x = n * c0 - c1 + q * 255) ∧ ∃ q, y = q * 255 - c0 - x.
Proof.
  intros Hc. cbv zeta. pose proof (Z.mod_pos_bound (n * c0 - c1) 255 ltac:(lia)) as Hm.
  pose proof (Z.div_mod (n * c0 - c1) 255 ltac:(lia)) as Hd.
  set (m := (n * c0 - c1) mod 255) in *. set (q := (n * c0 - c1) / 255) in *.
  destruct (Z.leb_spec m 0).
  - destruct (Z.ltb_spec 255 (510 - c0 - (m + 255))); [lia|].
    split_and!; [lia..|exists (1 - q); lia|exists 2; lia].
  - destruct (Z.ltb_spec 255 (510 - c0 - m)).
    + split_and!; [lia..|exists (- q); lia|exists 1; lia].
    + split_and!; [lia..|exists (- q); lia|exists 2; lia].
Qed.

Lemma insert_two (k l : bytes) x y :
  <[(length k + 1)%nat := y]> (<[length k := x]> (k ++ [0; 0] ++ l)) = k ++ [x; y] ++ l.
Proof.
  replace (length k) with (length k + 0)%nat at 2 by lia. by rewrite !insert_app_r.
Qed.

(** C39: The Fletcher checksum of any buffer with room for two check bytes at [offset] terminates,
    returns two non-zero bytes that it also writes there, leaves the other bytes alone, and makes
    both Fletcher sums of the resulting buffer vanish modulo 255. *)
Theorem fletcher_verifies fuel k a b l :
  let data := k ++ [a; b] ++ l in
  (length data ≤ fuel)%nat →
  ∃ x y, 1 ≤ x ≤ 255 ∧ 1 ≤ y ≤ 255 ∧
    fletcher_checksum fuel data (length k) =
      Some (Ret (k ++ [x; y] ++ l, Z.lor (Z.shiftl x 8) (Z.land y 0xff))) ∧
    mod255 (fletcher_chunk (k ++ [x; y] ++ l) (0, 0)) = (0, 0).
Proof.
  intros data Hf. unfold fletcher_checksum.
  assert (take (length k) data ++ [0; 0] ++ drop (length k + 2) data = k ++ [0; 0] ++ l) as ->.
  { unfold data. by rewrite take_app_length, drop_app_add. }
  assert (length data = length k + 2 + length l)%nat as Hlen.
  { unfold data. rewrite !length_app. cbn [length]. lia. }
  destruct (fletcher_loop_value fuel (k ++ [0; 0] ++ l) (length data) 0 (0, 0)) as ([c0 c1] & -> & Hv & Hr);
    [lia|].
  rewrite drop_0, Nat.sub_0_r, take_ge, fletcher_chunk_value in Hv
    by (rewrite !length_app; cbn [length]; lia).
  specialize (Hr ltac:(lia)). injection Hr as Hr0 Hr1.
  assert (0 ≤ c0 < 255) as Hc0 by (rewrite <- Hr0; by apply Z.mod_pos_bound).
  pose proof (check_bytes (Z.of_nat (length data) - Z.of_nat (length k) - 1) c0 c1 Hc0) as H.
  cbv zeta in H |- *. revert H.
  set (x := if _ <=? 0 then _ else _). set (y := if _ <? _ then _ else _).
  intros (Hx & Hy & [p Hp] & [q Hq]). exists x, y. split_and!; [lia..| |].
  - rewrite decide_True by (rewrite !length_app; cbn [length]; lia). by rewrite insert_two.
  - unfold mod255 in *. cbn [fst snd] in Hv. injection Hv as Hv0 Hv1.
    rewrite fletcher_chunk_value. cbn [fst snd]. rewrite !sum_app, !wsum_app in *.
    change (sum [0; 0]) with 0 in *. change (wsum [0; 0]) with 0 in *.
    change (sum [x; y]) with (x + (y + 0)). change (wsum [x; y]) with (2 * x + (1 * y + 0)).
    rewrite !length_app in *. cbn [length] in *.
    apply mod_eq_offset in Hv0 as [r0 Hr0'], Hv1 as [r1 Hr1']; [|done..].
    change (sum (0 :: 0 :: l)) with (0 + (0 + sum l)) in *. cbn [wsum length] in Hr1'.
    f_equal; apply Z.mod_divide; try done.
    + exists (q - r0). lia.
    + exists (p - r1 + (Z.of_nat (length l) + 1) * q). rewrite Hlen in Hp. nia.
Qed.

Lemma fletcher_verifies_witness :
  ∃ x y, 1 ≤ x ≤ 255 ∧ 1 ≤ y ≤ 255 ∧
    fletcher_checksum 5 [7; 250; 1; 2; 9] 2 =
      Some (Ret ([7; 250; x; y; 9], Z.lor (Z.shiftl x 8) (Z.land y 0xff))) ∧
    mod255 (fletcher_chunk [7; 250; x; y; 9] (0, 0)) = (0, 0).
Proof. apply (fletcher_verifies 5 [7; 250] 1 2 [9]). cbn. lia. Defined.

(** The buffer grows when [offset] is its last position, and an offset beyond the end raises. *)
Lemma fletcher_offset_range fuel data offset :
  (length data ≤ fuel)%nat →
  (length data < offset)%nat → fletcher_checksum fuel data offset = Some (Raise IndexError).
Proof.
  intros Hf Ho. unfold fletcher_checksum.
  destruct (fletcher_loop_value fuel (take offset data ++ [0; 0] ++ drop (offset + 2) data)
              (length data) 0 (0, 0)) as ([c0 c1] & -> & _); [lia|].
  cbv zeta. rewrite decide_False; [done|]. rewrite !length_app, length_take, length_drop. cbn [length]. lia.
Qed.

Example fletcher_extends :
  fletcher_checksum 2 [1; 2] 2 = Some (Ret ([1; 2; 248; 4], 0xf804)).
Proof. vm_compute. reflexivity. Qed.
