(* ===== verification/Ofp.v ===== *)
(** * OpenFlow constants

    The reserved ports, lengths and flags of [ryu/ofproto/ofproto_v1_0.py] and of
    [ofproto_v1_2.py], [ofproto_v1_3.py] and [ofproto_v1_4.py], which agree, by the version of
    the datapath, the types of [ryu/lib/packet/ether_types.py], and what the libraries read of a
    [Datapath]. *)

From stdpp Require Import base gmap.
From Stdlib Require Import ZArith.
From S2P Require Import Prelude.

Open Scope Z_scope.

Definition ofproto_v1_0_OFP_VERSION : Z := 0x01.
Definition ofproto_v1_2_OFP_VERSION : Z := 0x03.
Definition ofproto_v1_3_OFP_VERSION : Z := 0x04.

(** A reserved port has 16 bits in OpenFlow 1.0 and 32 bits later. *)
Definition reserved_port (low : Z) (ofp_version : Z) : Z :=
  if ofp_version =? ofproto_v1_0_OFP_VERSION then 0xff00 + low else 0xffffff00 + low.

Definition OFPP_IN_PORT := reserved_port 0xf8.
Definition OFPP_FLOOD := reserved_port 0xfb.
Definition OFPP_CONTROLLER := reserved_port 0xfd.
Definition OFPP_LOCAL := reserved_port 0xfe.
Definition OFPP_ANY := reserved_port 0xff.
Definition OFPP_NONE := reserved_port 0xff.

Definition OFPCML_MAX : Z := 0xffe5.
Definition OFPFF_SEND_FLOW_REM : Z := Z.shiftl 1 0.

Definition ETH_TYPE_IP : Z := 0x0800.
Definition ETH_TYPE_ARP : Z := 0x0806.
Definition ETH_TYPE_TEB : Z := 0x6558.
Definition ETH_TYPE_8021AH : Z := 0x88e7.
Definition ETH_TYPE_8021Q : Z := 0x8100.
Definition ETH_TYPE_IPV6 : Z := 0x86dd.
Definition ETH_TYPE_SLOW : Z := 0x8809.
Definition ETH_TYPE_MPLS : Z := 0x8847.
Definition ETH_TYPE_8021AD : Z := 0x88a8.
Definition ETH_TYPE_LLDP : Z := 0x88cc.
Definition ETH_TYPE_IEEE802_3 : Z := 0x05dc.
Definition ETH_TYPE_CFM : Z := 0x8902.

(** The identity of a switch, its protocol version and the MAC addresses of its ports. *)
Record datapath := DatapathOf {
  dp_id : Z;
  ofp_version : Z;
  hw_addr : gmap Z Z
}.
