(* ===== verification/Lacp.v ===== *)
(** * Link aggregation

    Models the LACP packets of [ryu/lib/packet/slow.py], down to the bytes, and the library
    [ryu/lib/lacplib.py] that answers them and keeps the state of the slave interfaces.  The
    eleven fields the code names [actor_*] and [partner_*] are a record each, and so are the
    eight state bits.  A MAC address is its integer.  Messages to the switch and events to the
    observers are outputs; finding the LACP and Ethernet headers of a frame is the packet
    library's work, so a packet-in carries what was found. *)

From stdpp Require Import base list gmap.
From Stdlib Require Import ZArith Lia.
From S2P Require Import Prelude Odict Struct Ofp.

Open Scope Z_scope.
Set Default Proof Using "Type".

(** ** The packet *)

Definition SLOW_SUBTYPE_LACP : Z := 0x01.
Definition LACP_VERSION_NUMBER : Z := 1.
Definition LACP_TLV_TYPE_ACTOR : Z := 1.
Definition LACP_TLV_TYPE_PARTNER : Z := 2.
Definition LACP_TLV_TYPE_COLLECTOR : Z := 3.
Definition LACP_TLV_TYPE_TERMINATOR : Z := 0.
Definition LACP_STATE_PASSIVE : Z := 0.
Definition LACP_STATE_SHORT_TIMEOUT : Z := 1.
Definition LACP_STATE_OPERATIONAL_PARTNER : Z := 0.
Definition LACP_STATE_NOT_EXPIRED : Z := 0.
Definition FAST_PERIODIC_TIME : Z := 1.
Definition SLOW_PERIODIC_TIME : Z := 30.
Definition SHORT_TIMEOUT_TIME : Z := 3 * FAST_PERIODIC_TIME.
Definition LONG_TIMEOUT_TIME : Z := 3 * SLOW_PERIODIC_TIME.

(** Pad bytes are fields that are written as zero and not looked at. *)
Definition _HLEN_PACK_STR : list nat := [1; 1]%nat.
Definition _ACTPRT_INFO_PACK_STR : list nat := [1; 1; 2; 6; 2; 2; 2; 1; 3]%nat.
Definition _COL_INFO_PACK_STR : list nat := [1; 1; 2; 12]%nat.
Definition _TRM_PACK_STR : list nat := [1; 1; 50]%nat.
Definition _ALL_PACK_LEN : nat :=
  calcsize _HLEN_PACK_STR + calcsize _ACTPRT_INFO_PACK_STR * 2 + calcsize _COL_INFO_PACK_STR
  + calcsize _TRM_PACK_STR.

Record bits := Bits {
  state_activity : Z;
  state_timeout : Z;
  state_aggregation : Z;
  state_synchronization : Z;
  state_collecting : Z;
  state_distributing : Z;
  state_defaulted : Z;
  state_expired : Z
}.

Record info := Info {
  system_priority : Z;
  system : Z;
  key : Z;
  port_priority : Z;
  port : Z;
  state : bits
}.

Record lacp := Lacp {
  version : Z;
  actor : info;
  partner : info;
  collector_max_delay : Z
}.

Definition bit_list (b : bits) : list Z :=
  [state_activity b; state_timeout b; state_aggregation b; state_synchronization b;
   state_collecting b; state_distributing b; state_defaulted b; state_expired b].

(** The parameter check of the constructor. *)
Definition new_lacp (v : Z) (a p : info) (delay : Z) : outcome pyexn lacp :=
  if forallb (λ x, 1 =? Z.lor x 1) (bit_list (state a) ++ bit_list (state p))
  then Ret (Lacp v a p delay) else Raise AssertionError.

(** The attributes [_actor_state] and [_partner_state]. *)
Definition state_byte (b : bits) : Z :=
  Z.lor (Z.lor (Z.lor (Z.lor (Z.lor (Z.lor (Z.lor
    (Z.shiftl (state_activity b) 0) (Z.shiftl (state_timeout b) 1))
    (Z.shiftl (state_aggregation b) 2)) (Z.shiftl (state_synchronization b) 3))
    (Z.shiftl (state_collecting b) 4)) (Z.shiftl (state_distributing b) 5))
    (Z.shiftl (state_defaulted b) 6)) (Z.shiftl (state_expired b) 7).

Definition byte_state (s : Z) : bits :=
  let bit i := Z.land (Z.shiftr s i) 1 in
  Bits (bit 0) (bit 1) (bit 2) (bit 3) (bit 4) (bit 5) (bit 6) (bit 7).

(** [unpack_from] at an offset. *)
Definition unpack_from (ns : list nat) (buf : bytes) (offset : nat) : outcome pyexn (list Z) :=
  unpack ns (drop offset buf).

Definition check (b : bool) : outcome pyexn () := if b then Ret tt else Raise AssertionError.

Definition parse_info (tag : Z) (buf : bytes) (offset : nat) : outcome pyexn info :=
  fields ← unpack_from _ACTPRT_INFO_PACK_STR buf offset;
  match fields with
  | [tag'; len; sp; sys; k; pp; p; s; _] =>
      check (tag =? tag');;
      check (Z.of_nat (calcsize _ACTPRT_INFO_PACK_STR) =? len);;
      Ret (Info sp sys k pp p (byte_state s))
  | _ => Raise ValueError
  end.

(** The header. *)
Definition parse_version (buf : bytes) : outcome pyexn Z :=
  fields ← unpack_from _HLEN_PACK_STR buf 0;
  match fields with
  | [subtype; v] =>
      check (SLOW_SUBTYPE_LACP =? subtype);; check (LACP_VERSION_NUMBER =? v);; Ret v
  | _ => Raise ValueError
  end.

Definition parse_collector (buf : bytes) (offset : nat) : outcome pyexn Z :=
  fields ← unpack_from _COL_INFO_PACK_STR buf offset;
  match fields with
  | [tag; len; delay; _] =>
      check (LACP_TLV_TYPE_COLLECTOR =? tag);;
      check (Z.of_nat (calcsize _COL_INFO_PACK_STR) =? len);;
      Ret delay
  | _ => Raise ValueError
  end.

Definition parse_terminator (buf : bytes) (offset : nat) : outcome pyexn () :=
  fields ← unpack_from _TRM_PACK_STR buf offset;
  match fields with
  | [tag; len; _] => check (LACP_TLV_TYPE_TERMINATOR =? tag);; check (0 =? len)
  | _ => Raise ValueError
  end.

Definition parser (buf : bytes) : outcome pyexn (lacp * bytes) :=
  check (_ALL_PACK_LEN =? length buf)%nat;;
  v ← parse_version buf;
  let offset := calcsize _HLEN_PACK_STR in
  a ← parse_info LACP_TLV_TYPE_ACTOR buf offset;
  let offset := (offset + calcsize _ACTPRT_INFO_PACK_STR)%nat in
  p ← parse_info LACP_TLV_TYPE_PARTNER buf offset;
  let offset := (offset + calcsize _ACTPRT_INFO_PACK_STR)%nat in
  delay ← parse_collector buf offset;
  let offset := (offset + calcsize _COL_INFO_PACK_STR)%nat in
  parse_terminator buf offset;;
  l ← new_lacp v a p delay;
  Ret (l, drop _ALL_PACK_LEN buf).

(** [slow.parser]: only LACP is decoded, anything else is payload. *)
Definition slow_parser (buf : bytes) : outcome pyexn (option lacp * bytes) :=
  fields ← unpack_from [1%nat] buf 0;
  match fields with
  | [subtype] =>
      if subtype =? SLOW_SUBTYPE_LACP then
        x ← parser buf; Ret (Some x.1, x.2)
      else Ret (None, buf)
  | _ => Raise ValueError
  end.

Definition info_values (tag : Z) (i : info) : list Z :=
  [tag; Z.of_nat (calcsize _ACTPRT_INFO_PACK_STR); system_priority i; system i; key i;
   port_priority i; port i; state_byte (state i); 0].

Definition serialize (l : lacp) : outcome pyexn bytes :=
  header ← pack (zip _HLEN_PACK_STR [SLOW_SUBTYPE_LACP; version l]);
  a ← pack (zip _ACTPRT_INFO_PACK_STR (info_values LACP_TLV_TYPE_ACTOR (actor l)));
  p ← pack (zip _ACTPRT_INFO_PACK_STR (info_values LACP_TLV_TYPE_PARTNER (partner l)));
  c ← pack (zip _COL_INFO_PACK_STR
        [LACP_TLV_TYPE_COLLECTOR; Z.of_nat (calcsize _COL_INFO_PACK_STR); collector_max_delay l; 0]);
  t ← pack (zip _TRM_PACK_STR [LACP_TLV_TYPE_TERMINATOR; 0; 0]);
  Ret (header ++ a ++ p ++ c ++ t).

(** ** The round trip *)

Definition is_bit (x : Z) : Prop := x = 0 ∨ x = 1.

Record info_ok (i : info) : Prop := {
  ok_system_priority : 0 ≤ system_priority i < 2 ^ 16;
  ok_system : 0 ≤ system i < 2 ^ 48;
  ok_key : 0 ≤ key i < 2 ^ 16;
  ok_port_priority : 0 ≤ port_priority i < 2 ^ 16;
  ok_port : 0 ≤ port i < 2 ^ 16;
  ok_bits : Forall is_bit (bit_list (state i))
}.

Record lacp_ok (l : lacp) : Prop := {
  ok_version : version l = LACP_VERSION_NUMBER;
  ok_actor : info_ok (actor l);
  ok_partner : info_ok (partner l);
  ok_delay : 0 ≤ collector_max_delay l < 2 ^ 16
}.

Lemma byte_state_byte b : Forall is_bit (bit_list b) → byte_state (state_byte b) = b.
Proof.
  destruct b as [b0 b1 b2 b3 b4 b5 b6 b7]. unfold bit_list, is_bit. cbn.
  intros H. decompose_Forall_hyps. destruct_or!; subst; reflexivity.
Qed.

Lemma state_byte_bound b : Forall is_bit (bit_list b) → 0 ≤ state_byte b < 256.
Proof.
  destruct b as [b0 b1 b2 b3 b4 b5 b6 b7]. unfold bit_list, is_bit. cbn.
  intros H. decompose_Forall_hyps. destruct_or!; subst; vm_compute; by split.
Qed.

Lemma bits_checked b : Forall is_bit (bit_list b) → forallb (λ x, 1 =? Z.lor x 1) (bit_list b) = true.
Proof.
  intros H. apply forallb_forall. intros x Hx%list_elem_of_In. rewrite Forall_forall in H.
  by destruct (H x Hx) as [->| ->].
Qed.

(** A packed group of fields, read back where it lies. *)
Lemma unpack_from_packed ns zs bs pre rest n :
  length ns = length zs → pack (zip ns zs) = Ret bs → n = length pre →
  unpack_from ns (pre ++ bs ++ rest) n = Ret zs ∧ length bs = calcsize ns.
Proof.
  intros Hl Hp ->. unfold unpack_from. rewrite drop_app_length. by apply unpack_pack.
Qed.

Lemma pack_info_ok tag i :
  0 ≤ tag < 256 → info_ok i → ∃ bs, pack (zip _ACTPRT_INFO_PACK_STR (info_values tag i)) = Ret bs.
Proof.
  intros Ht [H1 H2 H3 H4 H5 H6]. apply pack_ok. pose proof (state_byte_bound _ H6).
  unfold _ACTPRT_INFO_PACK_STR, info_values. cbn [zip zip_with].
  rewrite !Forall_cons. unfold in_width. cbn [fst snd].
  change (256 ^ Z.of_nat 1) with 256. change (256 ^ Z.of_nat 2) with (2 ^ 16).
  change (256 ^ Z.of_nat 6) with (2 ^ 48). change (256 ^ Z.of_nat 3) with (2 ^ 24).
  cbn [calcsize sum_list sum_list_with foldr]. split_and!; try done; lia.
Qed.

Lemma parse_info_packed tag i bs pre rest n :
  info_ok i → pack (zip _ACTPRT_INFO_PACK_STR (info_values tag i)) = Ret bs → n = length pre →
  parse_info tag (pre ++ bs ++ rest) n = Ret i ∧ length bs = calcsize _ACTPRT_INFO_PACK_STR.
Proof.
  intros Hi Hp Hn.
  destruct (unpack_from_packed _ACTPRT_INFO_PACK_STR (info_values tag i) bs pre rest n eq_refl Hp Hn) as [Hu Hl]. split; [|done].
  unfold parse_info. rewrite Hu. cbn. rewrite !Z.eqb_refl. cbn.
  rewrite byte_state_byte by apply Hi. by destruct i.
Qed.

Definition collector_values (l : lacp) : list Z :=
  [LACP_TLV_TYPE_COLLECTOR; Z.of_nat (calcsize _COL_INFO_PACK_STR); collector_max_delay l; 0].

Lemma pack_collector_ok l :
  0 ≤ collector_max_delay l < 2 ^ 16 →
  ∃ bs, pack (zip _COL_INFO_PACK_STR (collector_values l)) = Ret bs.
Proof.
  intros Hd. apply pack_ok. unfold _COL_INFO_PACK_STR, collector_values. cbn [zip zip_with].
  rewrite !Forall_cons. unfold in_width. cbn [fst snd]. change (256 ^ Z.of_nat 2) with (2 ^ 16).
  cbn [calcsize sum_list sum_list_with foldr]. split_and!; solve [lia|by vm_compute].
Qed.

Lemma parse_collector_packed l bs pre rest n :
  pack (zip _COL_INFO_PACK_STR (collector_values l)) = Ret bs → n = length pre →
  parse_collector (pre ++ bs ++ rest) n = Ret (collector_max_delay l) ∧
  length bs = calcsize _COL_INFO_PACK_STR.
Proof.
  intros Hp Hn.
  destruct (unpack_from_packed _COL_INFO_PACK_STR (collector_values l) bs pre rest n eq_refl Hp Hn)
    as [Hu Hl].
  split; [|done]. unfold parse_collector. by rewrite Hu.
Qed.

(** Fields in range survive the wire. *)
Lemma new_lacp_roundtrip l :
  lacp_ok l →
  ∃ bs, serialize l = Ret bs ∧ length bs = 110%nat ∧ slow_parser bs = Ret (Some l, []).
Proof.
  intros [Hv Ha Hp Hd]. unfold serialize.
  destruct (pack_info_ok LACP_TLV_TYPE_ACTOR _ ltac:(done) Ha) as [ba Ea].
  destruct (pack_info_ok LACP_TLV_TYPE_PARTNER _ ltac:(done) Hp) as [bp Ep].
  destruct (pack_collector_ok l Hd) as [bc Ec].
  rewrite Hv, Ea, Ep. fold (collector_values l). rewrite Ec.
  set (bh := [1; 1]). set (bt := repeat 0 52).
  change (pack (zip _HLEN_PACK_STR _)) with (Ret bh : outcome pyexn bytes).
  change (pack (zip _TRM_PACK_STR _)) with (Ret bt : outcome pyexn bytes).
  cbn [mbind outcome_bind]. eexists. split; [done|].
  destruct (parse_info_packed LACP_TLV_TYPE_ACTOR _ ba bh (bp ++ bc ++ bt) 2 Ha Ea eq_refl) as [Pa La].
  destruct (parse_info_packed LACP_TLV_TYPE_PARTNER _ bp (bh ++ ba) (bc ++ bt) 22 Hp Ep) as [Pp Lp].
  { rewrite length_app, La. done. }
  destruct (parse_collector_packed l bc (bh ++ ba ++ bp) bt 42 Ec) as [Pc Lc].
  { rewrite !length_app, La, Lp. done. }
  assert (length (bh ++ ba ++ bp ++ bc ++ bt) = 110%nat) as Hlen
    by (rewrite !length_app, La, Lp, Lc; done).
  rewrite <- !app_assoc in *. split; [done|].
  assert (parser (bh ++ ba ++ bp ++ bc ++ bt) = Ret (l, [])) as Hparse; [|].
  - unfold parser. rewrite Hlen. cbn [check mbind outcome_bind].
    change (parse_version _) with (Ret 1 : outcome pyexn Z). cbn [mbind outcome_bind].
    change (calcsize _HLEN_PACK_STR) with 2%nat. rewrite Pa. cbn [mbind outcome_bind].
    change (2 + calcsize _ACTPRT_INFO_PACK_STR)%nat with 22%nat. rewrite Pp. cbn [mbind outcome_bind].
    change (22 + calcsize _ACTPRT_INFO_PACK_STR)%nat with 42%nat. rewrite Pc. cbn [mbind outcome_bind].
    change (42 + calcsize _COL_INFO_PACK_STR)%nat with 58%nat.
    assert (parse_terminator (bh ++ ba ++ bp ++ bc ++ bt) 58 = Ret tt) as ->; [|cbn [mbind outcome_bind];
      unfold new_lacp; rewrite forallb_app, !bits_checked by (apply Ha || apply Hp);
      cbn [andb mbind outcome_bind]; rewrite drop_ge by (rewrite Hlen; reflexivity);
      destruct l; cbn in Hv |- *; by rewrite Hv].
    unfold parse_terminator, unpack_from.
    assert (drop 58 (bh ++ ba ++ bp ++ bc ++ bt) = bt) as ->.
    { rewrite !app_assoc. apply drop_app_length'. rewrite !length_app, La, Lp, Lc. done. }
    reflexivity.
  - unfold slow_parser. change (unpack_from [1%nat] _ 0) with (Ret [1] : outcome pyexn (list Z)).
    cbn [mbind outcome_bind]. change (1 =? SLOW_SUBTYPE_LACP) with true. cbn iota.
    by rewrite Hparse.
Qed.

(** Every LACP packet in range serializes to 110 bytes that the slow protocol parser decodes
    to the same packet, every field and every state bit of both sides. *)
Theorem lacp_roundtrip l :
  lacp_ok l →
  ∃ bs, serialize l = Ret bs ∧ length bs = 110%nat ∧ slow_parser bs = Ret (Some l, []).
Proof. apply new_lacp_roundtrip. Qed.

(** ** What the parser accepts *)

Lemma is_bit_land x : is_bit (Z.land x 1).
Proof.
  change 1 with (Z.ones 1) at 1. rewrite Z.land_ones by lia. change (2 ^ 1) with 2.
  pose proof (Z.mod_pos_bound x 2). unfold is_bit. lia.
Qed.

Lemma byte_state_bits s : Forall is_bit (bit_list (byte_state s)).
Proof. unfold bit_list, byte_state. cbn -[Z.land Z.shiftr].
  rewrite !Forall_cons. split_and!; try apply is_bit_land. apply Forall_nil_2.
Qed.

(** The fields of a group that lies within the buffer. *)
Lemma unpack_from_total ns buf n :
  Forall is_byte buf → (n + calcsize ns ≤ length buf)%nat →
  ∃ zs, unpack_from ns buf n = Ret zs ∧ Forall2 (λ n z, in_width (n, z)) ns zs.
Proof.
  intros Hb Hl. apply unpack_total; [by apply Forall_drop|]. rewrite length_drop. lia.
Qed.

(** A check that fails is the only failure. *)
Definition checked {A} (P : A → Prop) (m : outcome pyexn A) : Prop :=
  match m with Ret a => P a | Raise e => e = AssertionError end.

Lemma checked_check {A} (P : A → Prop) b (k : () → outcome pyexn A) :
  (b = true → checked P (k tt)) → checked P (check b ≫= k).
Proof. destruct b; cbn; auto. Qed.

Lemma checked_bind {A B} (P : A → Prop) (Q : B → Prop) (m : outcome pyexn A) k :
  checked P m → (∀ a, P a → checked Q (k a)) → checked Q (m ≫= k).
Proof. destruct m; cbn; auto. Qed.

Lemma parse_info_checked tag buf n :
  Forall is_byte buf → (n + calcsize _ACTPRT_INFO_PACK_STR ≤ length buf)%nat →
  checked info_ok (parse_info tag buf n).
Proof.
  intros Hb Hl. unfold parse_info.
  destruct (unpack_from_total _ _ _ Hb Hl) as (zs & -> & Hw). cbn [mbind outcome_bind].
  unfold _ACTPRT_INFO_PACK_STR in Hw. unfold in_width in Hw. decompose_Forall_hyps.
  apply checked_check. intros _. apply checked_check. intros _.
  change (256 ^ Z.of_nat 2) with (2 ^ 16) in *. change (256 ^ Z.of_nat 6) with (2 ^ 48) in *.
  split; cbn [system_priority system key port_priority port state]; try done. apply byte_state_bits.
Qed.

Lemma parse_version_checked buf :
  Forall is_byte buf → (2 ≤ length buf)%nat → checked (λ v, v = LACP_VERSION_NUMBER) (parse_version buf).
Proof.
  intros Hb Hl. unfold parse_version.
  destruct (unpack_from_total _HLEN_PACK_STR buf 0 Hb Hl) as (zs & -> & Hw). cbn [mbind outcome_bind].
  unfold _HLEN_PACK_STR in Hw. decompose_Forall_hyps. apply checked_check. intros _.
  apply checked_check. intros Hv. symmetry. exact (proj1 (Z.eqb_eq LACP_VERSION_NUMBER _) Hv).
Qed.

Lemma parse_collector_checked buf n :
  Forall is_byte buf → (n + calcsize _COL_INFO_PACK_STR ≤ length buf)%nat →
  checked (λ d, 0 ≤ d < 2 ^ 16) (parse_collector buf n).
Proof.
  intros Hb Hl. unfold parse_collector.
  destruct (unpack_from_total _ _ _ Hb Hl) as (zs & -> & Hw). cbn [mbind outcome_bind].
  unfold _COL_INFO_PACK_STR, in_width in Hw. decompose_Forall_hyps.
  apply checked_check. intros _. apply checked_check. intros _. done.
Qed.

Lemma parse_terminator_checked buf n :
  Forall is_byte buf → (n + calcsize _TRM_PACK_STR ≤ length buf)%nat →
  checked (λ _, True) (parse_terminator buf n).
Proof.
  intros Hb Hl. unfold parse_terminator.
  destruct (unpack_from_total _ _ _ Hb Hl) as (zs & -> & Hw). cbn [mbind outcome_bind].
  unfold _TRM_PACK_STR in Hw. decompose_Forall_hyps. apply checked_check. intros _.
  unfold check. by repeat case_match.
Qed.

Lemma parser_checked buf :
  Forall is_byte buf → checked (λ x, lacp_ok x.1 ∧ x.2 = []) (parser buf).
Proof.
  intros Hb. unfold parser. apply checked_check. intros Hl%Nat.eqb_eq. cbv zeta.
  eapply checked_bind; [apply parse_version_checked; [done|rewrite <- Hl; vm_compute; lia]|].
  intros v ->. eapply checked_bind; [apply parse_info_checked; [done|rewrite <- Hl; vm_compute; lia]|].
  intros a Ha. eapply checked_bind; [apply parse_info_checked; [done|rewrite <- Hl; vm_compute; lia]|].
  intros p Hp. eapply checked_bind; [apply parse_collector_checked; [done|rewrite <- Hl; vm_compute; lia]|].
  intros d Hd. eapply checked_bind; [apply parse_terminator_checked; [done|rewrite <- Hl; vm_compute; lia]|].
  intros _ _. unfold new_lacp. rewrite forallb_app, !bits_checked by (apply Ha || apply Hp). cbn.
  rewrite drop_ge by (rewrite <- Hl; reflexivity). by split.
Qed.

Lemma slow_parser_cases buf :
  Forall is_byte buf → buf ≠ [] →
  (∃ l, slow_parser buf = Ret (Some l, []) ∧ lacp_ok l ∧ length buf = 110%nat) ∨
  (slow_parser buf = Ret (None, buf) ∧ head buf ≠ Some SLOW_SUBTYPE_LACP) ∨
  slow_parser buf = Raise AssertionError.
Proof.
  intros Hb Hne. destruct buf as [|b buf]; [done|]. unfold slow_parser.
  change (unpack_from [1%nat] (b :: buf) 0) with (Ret [0 * 256 + b] : outcome pyexn (list Z)).
  cbn [mbind outcome_bind]. rewrite Z.mul_0_l, Z.add_0_l. destruct (Z.eqb_spec b SLOW_SUBTYPE_LACP) as [->|Hs].
  - pose proof (parser_checked _ Hb) as H.
    destruct (parser _) as [[l rest]|e] eqn:E; cbn in H; [|subst; auto].
    destruct H as [Hok ->]. left. exists l. split_and!; [done|done|].
    unfold parser in E. by destruct (Nat.eqb_spec _ALL_PACK_LEN (length (SLOW_SUBTYPE_LACP :: buf))).
  - right; left. split; [done|]. cbn. congruence.
Qed.

(** Whatever bytes a frame of the slow protocols carries, the parser either decodes a LACP
    packet whose fields are all in range, hands the bytes on as payload when the subtype is
    another one, or fails an assertion; only an empty payload makes [struct] fail. *)
Theorem slow_parser_total buf :
  Forall is_byte buf → buf ≠ [] →
  (∃ l, slow_parser buf = Ret (Some l, []) ∧ lacp_ok l ∧ length buf = 110%nat) ∨
  (slow_parser buf = Ret (None, buf) ∧ head buf ≠ Some SLOW_SUBTYPE_LACP) ∨
  slow_parser buf = Raise AssertionError.
Proof. apply slow_parser_cases. Qed.

Lemma slow_parser_subtype b buf l rest : slow_parser (b :: buf) = Ret (Some l, rest) → b = SLOW_SUBTYPE_LACP.
Proof.
  unfold slow_parser. change (unpack_from [1%nat] (b :: buf) 0) with (Ret [0 * 256 + b] : outcome pyexn (list Z)).
  cbn [mbind outcome_bind]. rewrite Z.mul_0_l, Z.add_0_l. by case Z.eqb_spec.
Qed.

Lemma serialize_bytes l bs : serialize l = Ret bs → Forall is_byte bs.
Proof.
  unfold serialize. intros E.
  repeat match type of E with context [mbind _ (pack ?f)] =>
    let H := fresh "H" in destruct (pack f) as [?|] eqn:H; cbn [mbind outcome_bind] in E; [apply pack_bytes in H|done] end.
  injection E as <-. by repeat (apply Forall_app; split).
Qed.

(** ** The library *)

Record slave := Slave { enabled : bool; timeout : Z }.

#[global] Instance eta_slave : Eta slave := EtaBox (λ s, Slave (enabled s) (timeout s)).

(** A bond is a dictionary from one datapath to its slaves. *)
Abbreviation bond := (Z * odict Z slave)%type.

Record lacp_lib := LacpLib { _bonds : list bond }.

(** A flow entry that sends the slow protocol frames of a slave to the controller. *)
Record flow := Flow {
  fl_in_port : Z;
  fl_eth_src : Z;
  fl_eth_type : Z;
  fl_idle_timeout : Z;
  fl_priority : Z;
  fl_flags : Z;
  fl_output : Z;
  fl_max_len : Z
}.

(** What the handler finds in a packet-in message. *)
Record packet_in := PacketIn {
  msg_datapath : datapath;
  msg_in_port : Z;
  msg_lacp : option (lacp * Z)
}.

Inductive lacp_out :=
| EventPacketIn (msg : packet_in)
| EventSlaveStateChanged (dpid port : Z) (enabled : bool)
| FlowMod (dpid : Z) (f : flow)
| PacketOut (dpid in_port output eth_dst eth_src eth_type : Z) (payload : bytes).

Definition SLOW_PROTOCOL_MULTICAST : Z := 0x0180c2000002.

Abbreviation LM := (M lacp_lib pyexn lacp_out).

Definition add (dpid : Z) (ports : list Z) : LM () :=
  assert_ (2 <=? Z.of_nat (length ports)) AssertionError;;
  let ifs := foldl (λ ifs port, od_set port (Slave false 0) ifs) [] ports in
  modify (λ s, LacpLib (_bonds s ++ [(dpid, ifs)])).

(** The slave found in the first bond that has it. *)
Fixpoint find_slave (dpid port : Z) (bonds : list bond) : option slave :=
  match bonds with
  | [] => None
  | (d, ifs) :: bonds =>
      match (if decide (dpid = d) then od_get port ifs else None) with
      | Some sl => Some sl
      | None => find_slave dpid port bonds
      end
  end.

Definition _get_slave (s : lacp_lib) (dpid port : Z) : option slave := find_slave dpid port (_bonds s).

(** The object [_get_slave] returns is changed in place. *)
Fixpoint change_slave (f : slave → slave) (dpid port : Z) (bonds : list bond) : list bond :=
  match bonds with
  | [] => []
  | (d, ifs) :: bonds =>
      match (if decide (dpid = d) then od_get port ifs else None) with
      | Some _ => (d, od_alter f port ifs) :: bonds
      | None => (d, ifs) :: change_slave f dpid port bonds
      end
  end.

Definition _get_slave_enabled (s : lacp_lib) (dpid port : Z) : bool :=
  match _get_slave s dpid port with Some sl => enabled sl | None => false end.

Definition _get_slave_timeout (s : lacp_lib) (dpid port : Z) : Z :=
  match _get_slave s dpid port with Some sl => timeout sl | None => 0 end.

Definition _set_slave_enabled (dpid port : Z) (e : bool) : LM () :=
  modify (λ s, LacpLib (change_slave (λ sl, sl <| enabled := e |>) dpid port (_bonds s))).

Definition _set_slave_timeout (dpid port t : Z) : LM () :=
  modify (λ s, LacpLib (change_slave (λ sl, sl <| timeout := t |>) dpid port (_bonds s))).

Definition _add_flow_v1_0 (src port t : Z) (dp : datapath) : LM () :=
  emit (FlowMod (dp_id dp) (Flow port src ETH_TYPE_SLOW t 65535 OFPFF_SEND_FLOW_REM
    (OFPP_CONTROLLER (ofp_version dp)) 65535)).

Definition _add_flow_v1_2 (src port t : Z) (dp : datapath) : LM () :=
  emit (FlowMod (dp_id dp) (Flow port src ETH_TYPE_SLOW t 65535 OFPFF_SEND_FLOW_REM
    (OFPP_CONTROLLER (ofp_version dp)) OFPCML_MAX)).

(** The dictionary [_add_flow]. *)
Definition _add_flow (v : Z) : option (Z → Z → Z → datapath → LM ()) :=
  if v =? ofproto_v1_0_OFP_VERSION then Some _add_flow_v1_0
  else if (v =? ofproto_v1_2_OFP_VERSION) || (v =? ofproto_v1_3_OFP_VERSION)
  then Some _add_flow_v1_2 else None.

Definition _create_lacp (dp : datapath) (p : Z) (req : lacp) : outcome pyexn lacp :=
  actor_system ← match hw_addr dp !! OFPP_LOCAL (ofp_version dp) with
                 | Some a => Ret a | None => Raise KeyError end;
  let a := actor req in
  new_lacp LACP_VERSION_NUMBER
    (Info 0xffff actor_system (key a) 0xff p
       (Bits LACP_STATE_PASSIVE (state_timeout (state a)) (state_aggregation (state a))
          (state_synchronization (state a)) (state_collecting (state a))
          (state_distributing (state a)) LACP_STATE_OPERATIONAL_PARTNER LACP_STATE_NOT_EXPIRED))
    a 0.

(** The source address of the frame and its payload. *)
Definition _create_response (dp : datapath) (p : Z) (req : lacp) : outcome pyexn (Z * bytes) :=
  src ← match hw_addr dp !! p with Some a => Ret a | None => Raise KeyError end;
  res ← _create_lacp dp p req;
  data ← serialize res;
  Ret (src, data).

Definition idle_timeout (req : lacp) : Z :=
  if LACP_STATE_SHORT_TIMEOUT =? state_timeout (state (actor req))
  then SHORT_TIMEOUT_TIME else LONG_TIMEOUT_TIME.

Definition _do_lacp (req : lacp) (src : Z) (dp : datapath) (p : Z) : LM () :=
  e ← gets (λ s, _get_slave_enabled s (dp_id dp) p);
  when (negb e) (
    _set_slave_enabled (dp_id dp) p true;;
    emit (EventSlaveStateChanged (dp_id dp) p true));;
  t ← gets (λ s, _get_slave_timeout s (dp_id dp) p);
  when (negb (idle_timeout req =? t)) (
    _set_slave_timeout (dp_id dp) p (idle_timeout req);;
    match _add_flow (ofp_version dp) with
    | None => raise AssertionError
    | Some func => func src p (idle_timeout req) dp
    end);;
  res ← lift (_create_response dp p req);
  emit (PacketOut (dp_id dp) p (OFPP_IN_PORT (ofp_version dp)) SLOW_PROTOCOL_MULTICAST
    (res : Z * bytes).1 ETH_TYPE_SLOW (res : Z * bytes).2).

Definition packet_in_handler (msg : packet_in) : LM () :=
  match msg_lacp msg with
  | Some (req, src) => _do_lacp req src (msg_datapath msg) (msg_in_port msg)
  | None => emit (EventPacketIn msg)
  end.

(** The match of OpenFlow 1.0 always has its fields, that of later versions may lack them. *)
Definition flow_removed_handler (dp : datapath) (in_port dl_type : option Z) : LM () :=
  p ← (if ofp_version dp =? ofproto_v1_0_OFP_VERSION then mret (default 0 in_port)
       else or_raise in_port KeyError);
  t ← (if ofp_version dp =? ofproto_v1_0_OFP_VERSION then mret (default 0 dl_type)
       else or_raise dl_type KeyError);
  if negb (ETH_TYPE_SLOW =? t) then mret tt else
  _set_slave_enabled (dp_id dp) p false;;
  _set_slave_timeout (dp_id dp) p 0;;
  emit (EventSlaveStateChanged (dp_id dp) p false).

(** ** Slaves *)

Lemma find_slave_change f d p d' p' bonds :
  find_slave d' p' (change_slave f d p bonds) =
    if decide ((d', p') = (d, p)) then f <$> find_slave d' p' bonds else find_slave d' p' bonds.
Proof.
  induction bonds as [|[d0 ifs] bonds IH]; cbn; [by case_decide|].
  destruct (decide (d = d0)) as [->|Hd]; cycle 1.
  { cbn. destruct (decide (d' = d0)) as [->|]; [|apply IH].
    destruct (od_get p' ifs); [|apply IH]. rewrite decide_False; [done|congruence]. }
  destruct (od_get p ifs) as [sl|] eqn:E; cbn.
  - destruct (decide (d' = d0)) as [->|]; [|rewrite decide_False; [done|congruence]].
    rewrite od_get_alter. destruct (decide (p' = p)) as [->|].
    + rewrite decide_True by done. by rewrite E.
    + by rewrite decide_False by congruence.
  - rewrite IH. destruct (decide (d' = d0)) as [->|]; [|done].
    destruct (od_get p' ifs) eqn:E'; [|done]. rewrite decide_False; [done|]. congruence.
Qed.

Lemma find_slave_app d p b1 b2 :
  find_slave d p (b1 ++ b2) = match find_slave d p b1 with Some sl => Some sl | None => find_slave d p b2 end.
Proof.
  induction b1 as [|[d0 ifs] b1 IH]; cbn; [done|]. by destruct (decide (d = d0)), (od_get p ifs).
Qed.

Lemma fresh_slaves p ports sl :
  od_get p (foldl (λ (ifs : odict Z slave) port, od_set port (Slave false 0) ifs) [] ports) = Some sl →
  sl = Slave false 0 ∧ p ∈ ports.
Proof.
  set (f := λ (ifs : odict Z slave) port, od_set port (Slave false 0) ifs).
  assert (∀ ifs, od_get p (foldl f ifs ports) = Some sl →
    (sl = Slave false 0 ∧ p ∈ ports) ∨ od_get p ifs = Some sl) as H.
  { induction ports as [|q ports IH]; intros ifs Hg; [auto|]. cbn in Hg. apply IH in Hg as [[-> ?]|Hg].
    - left. split; [done|by apply list_elem_of_further].
    - unfold f in Hg. rewrite od_get_set in Hg. case_decide; [|auto].
      left. injection Hg as <-. subst. split; [done|apply list_elem_of_here]. }
  intros Hg. by destruct (H [] Hg) as [|].
Qed.

(** ** What observers see *)

(** An observer that keeps the last state it was told of. *)
Definition see (v : gmap (Z * Z) bool) (o : lacp_out) : gmap (Z * Z) bool :=
  match o with EventSlaveStateChanged d p e => <[(d, p) := e]> v | _ => v end.

Inductive lacp_op :=
| Add (dpid : Z) (ports : list Z)
| OnPacketIn (msg : packet_in)
| OnFlowRemoved (dp : datapath) (in_port dl_type : option Z).

Definition lacp_do (op : lacp_op) : LM () :=
  match op with
  | Add d ps => add d ps
  | OnPacketIn m => packet_in_handler m
  | OnFlowRemoved dp ip t => flow_removed_handler dp ip t
  end.

(** A port is added before it is reported as enabled. *)
Definition lacp_step (x : lacp_lib * gmap (Z * Z) bool) (op : lacp_op)
    (y : lacp_lib * gmap (Z * Z) bool) : Prop :=
  match op with Add d ps => ∀ p, p ∈ ps → x.2 !! (d, p) ≠ Some true ∨ is_Some (_get_slave x.1 d p) | _ => True end ∧
  y = (final (lacp_do op) x.1, foldl see x.2 (outputs (lacp_do op) x.1)).

Definition lacp_init (x : lacp_lib * gmap (Z * Z) bool) : Prop := x = (LacpLib [], ∅).

Definition slave_ok (sl : slave) : Prop :=
  if enabled sl then timeout sl = SHORT_TIMEOUT_TIME ∨ timeout sl = LONG_TIMEOUT_TIME
  else timeout sl = 0.

Record synced (s : lacp_lib) (v : gmap (Z * Z) bool) : Prop := {
  sy_view d p sl : _get_slave s d p = Some sl → enabled sl = default false (v !! (d, p));
  sy_timeout d p sl : _get_slave s d p = Some sl → slave_ok sl
}.

Lemma set_enabled_run d p e s :
  ∃ s', _set_slave_enabled d p e s = ([], s', Ret tt) ∧
    ∀ d' p', _get_slave s' d' p' =
      if decide ((d', p') = (d, p)) then (λ sl, Slave e (timeout sl)) <$> _get_slave s d' p'
      else _get_slave s d' p'.
Proof. eexists. split; [done|]. intros d' p'. apply find_slave_change. Qed.

Lemma set_timeout_run d p t s :
  ∃ s', _set_slave_timeout d p t s = ([], s', Ret tt) ∧
    ∀ d' p', _get_slave s' d' p' =
      if decide ((d', p') = (d, p)) then (λ sl, Slave (enabled sl) t) <$> _get_slave s d' p'
      else _get_slave s d' p'.
Proof. eexists. split; [done|]. intros d' p'. apply find_slave_change. Qed.

(** A slave after a packet or a removed flow, whatever else happened to the other ones. *)
Definition became (sl : slave) (d p : Z) (s s' : lacp_lib) : Prop :=
  ∀ d' p', _get_slave s' d' p' =
    if decide ((d', p') = (d, p)) then (λ _, sl) <$> _get_slave s d' p' else _get_slave s d' p'.

(** The flow entry for a slave. *)
Definition slave_flow (v src p t : Z) : flow :=
  Flow p src ETH_TYPE_SLOW t 65535 OFPFF_SEND_FLOW_REM (OFPP_CONTROLLER v)
    (if v =? ofproto_v1_0_OFP_VERSION then 65535 else OFPCML_MAX).

Lemma add_flow_run v src p t dp s :
  ofp_version dp = v →
  match _add_flow v with
  | None => True
  | Some func => func src p t dp s = ([FlowMod (dp_id dp) (slave_flow v src p t)], s, Ret tt)
  end.
Proof.
  intros <-. unfold _add_flow, slave_flow. case Z.eqb_spec; [intros; done|].
  intros _. by destruct (_ || _).
Qed.

(** The answer: what is sent and how the handler ends. *)
Definition answer (dp : datapath) (p : Z) (req : lacp) : list lacp_out * outcome pyexn () :=
  match _create_response dp p req with
  | Ret (src, data) =>
      ([PacketOut (dp_id dp) p (OFPP_IN_PORT (ofp_version dp)) SLOW_PROTOCOL_MULTICAST src
          ETH_TYPE_SLOW data], Ret tt)
  | Raise e => ([], Raise e)
  end.

Definition went_up (s : lacp_lib) (d p : Z) : list lacp_out :=
  if _get_slave_enabled s d p then [] else [EventSlaveStateChanged d p true].

Definition do_lacp_effect (req : lacp) (src : Z) (dp : datapath) (p : Z) (s : lacp_lib)
    : list lacp_out * outcome pyexn () :=
  let d := dp_id dp in
  let t := idle_timeout req in
  let '(o, r) := answer dp p req in
  if t =? _get_slave_timeout s d p then (went_up s d p ++ o, r)
  else match _add_flow (ofp_version dp) with
       | None => (went_up s d p, Raise AssertionError)
       | Some _ => (went_up s d p ++ FlowMod d (slave_flow (ofp_version dp) src p t) :: o, r)
       end.

Lemma answer_run dp p req s :
  (res ← lift (_create_response dp p req);
   emit (PacketOut (dp_id dp) p (OFPP_IN_PORT (ofp_version dp)) SLOW_PROTOCOL_MULTICAST
     (res : Z * bytes).1 ETH_TYPE_SLOW (res : Z * bytes).2) : LM ()) s =
  ((answer dp p req).1, s, (answer dp p req).2).
Proof.
  unfold answer, mbind, M_bind, lift, emit. by destruct (_create_response dp p req) as [[? ?]|].
Qed.

Lemma enable_run d p s :
  ∃ s', (when (negb (_get_slave_enabled s d p)) (
           _set_slave_enabled d p true;; emit (EventSlaveStateChanged d p true))) s =
          (went_up s d p, s', Ret tt) ∧
    (∀ d' p', _get_slave s' d' p' =
      if decide ((d', p') = (d, p)) then (λ sl, Slave true (timeout sl)) <$> _get_slave s d' p'
      else _get_slave s d' p').
Proof.
  unfold went_up. destruct (_get_slave_enabled s d p) eqn:E; cbn [negb when].
  - exists s. split; [done|]. intros d' p'. case_decide as Hd; [|done]. injection Hd as -> ->.
    unfold _get_slave_enabled in E. by destruct (_get_slave s d p) as [[]|]; cbn in *; subst.
  - destruct (set_enabled_run d p true s) as (s' & Hr & Hg). exists s'. split; [|done].
    by erewrite run_bind by exact Hr.
Qed.

Lemma do_lacp_run req src dp p s :
  ∃ s', _do_lacp req src dp p s =
      ((do_lacp_effect req src dp p s).1, s', (do_lacp_effect req src dp p s).2) ∧
    became (Slave true (idle_timeout req)) (dp_id dp) p s s'.
Proof.
  unfold _do_lacp, do_lacp_effect. set (t := idle_timeout req).
  destruct (enable_run (dp_id dp) p s) as (s1 & H1 & G1).
  assert (_get_slave_timeout s1 (dp_id dp) p = _get_slave_timeout s (dp_id dp) p) as Ht.
  { unfold _get_slave_timeout. rewrite G1, decide_True by done. by destruct (_get_slave _ _ _). }
  pose proof (answer_run dp p req) as Ha. destruct (answer dp p req) as [o r].
  rewrite gets_bind. rewrite (run_bind _ _ _ _ _ _ H1). rewrite gets_bind, Ht.
  destruct (t =? _get_slave_timeout s (dp_id dp) p) eqn:E; cbn [negb when].
  - exists s1. rewrite ret_bind, Ha. split; [done|]. intros d' p'. rewrite G1.
    case_decide as Hd; [|done]. injection Hd as -> ->. apply Z.eqb_eq in E. rewrite E.
    unfold _get_slave_timeout. by destruct (_get_slave s _ _).
  - destruct (set_timeout_run (dp_id dp) p t s1) as (s2 & H2 & G2). exists s2. split.
    + rewrite bind_assoc. rewrite (run_bind _ _ _ _ _ _ H2). cbn [app].
      pose proof (add_flow_run (ofp_version dp) src p t dp s2 eq_refl) as Hf.
      destruct (_add_flow (ofp_version dp)) as [func|].
      * rewrite (run_bind _ _ _ _ _ _ Hf), Ha. done.
      * unfold mbind, M_bind. cbn. by rewrite app_nil_r.
    + intros d' p'. rewrite G2, G1. case_decide; [|done]. by destruct (_get_slave s _ _).
Qed.

(** The packets and flow entries of an answer are no news of slaves. *)
Lemma effect_seen req src dp p s v :
  foldl see v (do_lacp_effect req src dp p s).1 =
    if _get_slave_enabled s (dp_id dp) p then v else <[(dp_id dp, p) := true]> v.
Proof.
  unfold do_lacp_effect, answer, went_up.
  destruct (_create_response dp p req) as [[a d]|e];
    destruct (_ =? _); destruct (_get_slave_enabled _ _ _); try destruct (_add_flow _); done.
Qed.

Lemma idle_timeout_cases req :
  idle_timeout req = SHORT_TIMEOUT_TIME ∨ idle_timeout req = LONG_TIMEOUT_TIME.
Proof. unfold idle_timeout. destruct (_ =? _); auto. Qed.

(** A slave that became [sl], seen as such. *)
Lemma synced_became s s' v v' d p sl :
  synced s v → became sl d p s s' → slave_ok sl →
  (∀ d' p', default false (v' !! (d', p')) =
     if decide ((d', p') = (d, p)) then enabled sl else default false (v !! (d', p'))) →
  synced s' v'.
Proof.
  intros [Hv Ht] Hb Hsl Hn. split; intros d' p' sl'; rewrite Hb; rewrite ?Hn.
  - case_decide; [|apply Hv]. by intros (? & _ & ->)%fmap_Some.
  - case_decide; [|apply Ht]. by intros (? & _ & ->)%fmap_Some.
Qed.

Lemma synced_do_lacp s v req src dp p :
  synced s v →
  synced (final (_do_lacp req src dp p) s) (foldl see v (outputs (_do_lacp req src dp p) s)).
Proof.
  intros Hs. destruct (do_lacp_run req src dp p s) as (s' & Hr & Hb).
  unfold final, outputs. rewrite Hr. cbn [fst snd]. rewrite effect_seen.
  destruct (_get_slave s (dp_id dp) p) as [sl|] eqn:E; cycle 1.
  - (* no slave of that port *)
    assert (_get_slave_enabled s (dp_id dp) p = false) as -> by (unfold _get_slave_enabled; by rewrite E).
    split; intros d' p' sl'; rewrite Hb.
    + case_decide as Hd; [injection Hd as -> ->; by rewrite E|].
      rewrite lookup_insert_ne by congruence. apply Hs.
    + case_decide as Hd; [injection Hd as -> ->; by rewrite E|]. apply Hs.
  - eapply synced_became; [done|exact Hb|apply idle_timeout_cases|]. intros d' p'. cbn [enabled].
    pose proof (sy_view _ _ Hs _ _ _ E) as Hen. unfold _get_slave_enabled. rewrite E.
    case_decide as Hd; [injection Hd as -> ->|]; destruct (enabled sl); cbn [negb].
    + by rewrite <- Hen.
    + by rewrite lookup_insert_eq.
    + done.
    + by rewrite lookup_insert_ne by congruence.
Qed.

Lemma flow_removed_run dp in_port dl_type s :
  (∃ e, flow_removed_handler dp in_port dl_type s = ([], s, Raise e)) ∨
  flow_removed_handler dp in_port dl_type s = ([], s, Ret tt) ∨
  ∃ p s', flow_removed_handler dp in_port dl_type s =
      ([EventSlaveStateChanged (dp_id dp) p false], s', Ret tt) ∧
    became (Slave false 0) (dp_id dp) p s s'.
Proof.
  assert (∀ p t,
    (if negb (ETH_TYPE_SLOW =? t) then mret tt else
      _set_slave_enabled (dp_id dp) p false;;
      _set_slave_timeout (dp_id dp) p 0;;
      emit (EventSlaveStateChanged (dp_id dp) p false) : LM ()) s = ([], s, Ret tt) ∨
    ∃ s', (if negb (ETH_TYPE_SLOW =? t) then mret tt else
      _set_slave_enabled (dp_id dp) p false;;
      _set_slave_timeout (dp_id dp) p 0;;
      emit (EventSlaveStateChanged (dp_id dp) p false) : LM ()) s =
        ([EventSlaveStateChanged (dp_id dp) p false], s', Ret tt) ∧
      became (Slave false 0) (dp_id dp) p s s') as H.
  { intros p t. destruct (ETH_TYPE_SLOW =? t); cbn [negb]; [right|by left].
    destruct (set_enabled_run (dp_id dp) p false s) as (s1 & H1 & G1).
    destruct (set_timeout_run (dp_id dp) p 0 s1) as (s2 & H2 & G2). exists s2.
    rewrite (run_bind _ _ _ _ _ _ H1), (run_bind _ _ _ _ _ _ H2). split; [done|].
    intros d' p'. rewrite G2, G1. case_decide; [|done]. by destruct (_get_slave s _ _). }
  unfold flow_removed_handler. destruct (_ =? ofproto_v1_0_OFP_VERSION).
  - rewrite !ret_bind. right. destruct (H (default 0 in_port) (default 0 dl_type)) as [|(s' & ?)]; eauto.
  - destruct in_port as [p|]; [cbn [or_raise]; rewrite ret_bind|left; by eexists].
    destruct dl_type as [t|]; [cbn [or_raise]; rewrite ret_bind|left; by eexists].
    right. destruct (H p t) as [|(s' & ?)]; eauto.
Qed.

Lemma synced_flow_removed s v dp in_port dl_type :
  synced s v →
  synced (final (flow_removed_handler dp in_port dl_type) s)
    (foldl see v (outputs (flow_removed_handler dp in_port dl_type) s)).
Proof.
  intros Hs. unfold final, outputs.
  destruct (flow_removed_run dp in_port dl_type s) as [[e ->]|[->|(p & s' & -> & Hb)]]; [done|done|].
  eapply synced_became; [done|exact Hb|done|]. intros d' p'. cbn.
  case_decide as Hd; [by rewrite Hd, lookup_insert_eq|by rewrite lookup_insert_ne].
Qed.

Lemma synced_add s v d ps :
  synced s v →
  (∀ p, p ∈ ps → v !! (d, p) ≠ Some true ∨ is_Some (_get_slave s d p)) →
  synced (final (add d ps) s) (foldl see v (outputs (add d ps) s)).
Proof.
  intros Hs Hf. unfold final, outputs, add, assert_. destruct (2 <=? _); [|done].
  rewrite ret_bind. cbn [modify fst snd foldl].
  split; intros d' p' sl; unfold _get_slave; cbn [_bonds]; rewrite find_slave_app;
    (destruct (find_slave d' p' (_bonds s)) as [sl'|] eqn:E; [intros [= <-]; first [by eapply sy_view|by eapply sy_timeout]|]); cbn;
    (destruct (decide (d' = d)) as [->|]; [|done]);
    (destruct (od_get p' _) as [sl'|] eqn:E'; [|done]); intros [= <-];
    apply fresh_slaves in E' as [-> Hin]; [|done].
  cbn. destruct (Hf p' Hin) as [Hv|[? Hv]]; [|unfold _get_slave in Hv; congruence].
  by destruct (v !! (d, p')) as [[]|].
Qed.

(** An observer that follows the events knows which slave interfaces are enabled: for every
    slave, after any packets, removed flow entries and additions (of ports not reported before),
    its state is the last one reported, and its timeout is 3 s or 90 s while it is enabled and 0
    otherwise, also when a handler fails on the way. *)
Theorem slaves_in_sync s v :
  reachable lacp_init lacp_step (s, v) →
  ∀ d p sl, _get_slave s d p = Some sl →
    enabled sl = default false (v !! (d, p)) ∧ slave_ok sl.
Proof.
  intros Hr. assert (∀ x, reachable lacp_init lacp_step x → synced x.1 x.2) as H.
  { apply reachable_inv; [by intros ? ->|]. intros x op y IH [Hen ->]. cbn [fst snd].
    destruct op as [d ps|m|dp ip t]; cbn [lacp_do].
    - by apply synced_add.
    - unfold packet_in_handler. destruct (msg_lacp m) as [[req src]|]; [by apply synced_do_lacp|done].
    - by apply synced_flow_removed. }
  destruct (H _ Hr) as [Hv Ht]. intros d p sl E. split; [by apply Hv|by eapply Ht].
Qed.

(** ** The answer *)

(** The packet that answers [req] on port [p]. *)
Definition reply_to (dp : datapath) (p : Z) (sys : Z) (req : lacp) : lacp :=
  let a := actor req in
  Lacp LACP_VERSION_NUMBER
    (Info 0xffff sys (key a) 0xff p
      (Bits 0 (state_timeout (state a)) (state_aggregation (state a)) (state_synchronization (state a))
         (state_collecting (state a)) (state_distributing (state a)) 0 0)) a 0.

Lemma reply_ok dp p sys req :
  lacp_ok req → 0 ≤ p < 2 ^ 16 → 0 ≤ sys < 2 ^ 48 → lacp_ok (reply_to dp p sys req).
Proof.
  intros [_ Ha _ _] Hp Hsys. split; cbn [reply_to version actor partner collector_max_delay]; try done.
  destruct Ha as [H1 H2 H3 H4 H5 H6].
  split; cbn [system_priority system key port_priority port state]; try done.
  unfold bit_list in *. cbn [state_activity state_timeout state_aggregation state_synchronization
    state_collecting state_distributing state_defaulted state_expired] in *.
  decompose_Forall_hyps. rewrite !Forall_cons. split_and!; try done; by left.
Qed.

Lemma create_lacp_run dp p sys req :
  lacp_ok req → hw_addr dp !! OFPP_LOCAL (ofp_version dp) = Some sys →
  _create_lacp dp p req = Ret (reply_to dp p sys req).
Proof.
  intros Hok Hl. unfold _create_lacp. rewrite Hl. cbn [mbind outcome_bind]. unfold new_lacp.
  destruct Hok as [_ Ha _ _]. pose proof (bits_checked _ (ok_bits _ Ha)) as Hb.
  rewrite forallb_app, Hb, andb_true_r. unfold bit_list in *.
  cbn [state forallb state_activity state_timeout state_aggregation state_synchronization
    state_collecting state_distributing state_defaulted state_expired] in *.
  rewrite !andb_true_iff in Hb. destruct Hb as (_ & -> & -> & -> & -> & -> & _). done.
Qed.

(** A switch of OpenFlow 1.0, 1.2 or 1.3 whose port is a known slave, numbered below 65536:
    every LACP packet received there is answered, passively, with the sender's information as
    partner information, in a frame that decodes to that answer; the slave is enabled, which is
    reported when it was not, and a flow entry with the sender's timeout is entered exactly when
    the timeout changed.  No other slave changes. *)
Theorem lacp_answered s dp p req src sl sys mac :
  lacp_ok req → 0 ≤ p < 2 ^ 16 → 0 ≤ sys < 2 ^ 48 →
  ofp_version dp ∈ [ofproto_v1_0_OFP_VERSION; ofproto_v1_2_OFP_VERSION; ofproto_v1_3_OFP_VERSION] →
  hw_addr dp !! OFPP_LOCAL (ofp_version dp) = Some sys → hw_addr dp !! p = Some mac →
  _get_slave s (dp_id dp) p = Some sl →
  ∃ s' data, packet_in_handler (PacketIn dp p (Some (req, src))) s =
      ((if enabled sl then [] else [EventSlaveStateChanged (dp_id dp) p true]) ++
       (if idle_timeout req =? timeout sl then []
        else [FlowMod (dp_id dp) (slave_flow (ofp_version dp) src p (idle_timeout req))]) ++
       [PacketOut (dp_id dp) p (OFPP_IN_PORT (ofp_version dp)) SLOW_PROTOCOL_MULTICAST mac
          ETH_TYPE_SLOW data], s', Ret tt) ∧
    slow_parser data = Ret (Some (reply_to dp p sys req), []) ∧
    became (Slave true (idle_timeout req)) (dp_id dp) p s s'.
Proof.
  intros Hok Hp Hsys Hv Hl Hm E.
  destruct (new_lacp_roundtrip _ (reply_ok dp p sys req Hok Hp Hsys)) as (data & Hser & _ & Hparse).
  destruct (do_lacp_run req src dp p s) as (s' & Hr & Hb). exists s', data.
  split; [|done]. cbn [packet_in_handler msg_lacp msg_datapath msg_in_port]. rewrite Hr.
  assert (answer dp p req = ([PacketOut (dp_id dp) p (OFPP_IN_PORT (ofp_version dp))
      SLOW_PROTOCOL_MULTICAST mac ETH_TYPE_SLOW data], Ret tt)) as Ha.
  { unfold answer, _create_response. rewrite Hm. cbn [mbind outcome_bind].
    rewrite (create_lacp_run dp p sys) by done. cbn [mbind outcome_bind]. by rewrite Hser. }
  unfold do_lacp_effect, went_up, _get_slave_enabled, _get_slave_timeout. rewrite Ha, E.
  assert (is_Some (_add_flow (ofp_version dp))) as [func ->].
  { unfold _add_flow. rewrite !elem_of_cons in Hv. destruct Hv as [->|[->|[->|Hv]]]; [done..|].
    by apply not_elem_of_nil in Hv. }
  by destruct (_ =? _), (enabled sl).
Qed.

(** ** An example, and what the library does outside these bounds *)

Definition a_request : lacp :=
  Lacp 1 (Info 0x8000 0x001122334455 7 0x80 3 (Bits 1 1 1 1 1 1 0 0))
    (Info 0xffff 0 0 0xff 1 (Bits 0 0 1 0 0 0 1 0)) 0.

Definition a_switch (v : Z) : datapath :=
  DatapathOf 1 v (list_to_map [(OFPP_LOCAL v, 0x0a0000000001); (2, 0x0a0000000002)]).

Definition two_slaves : lacp_lib := final (add 1 [2; 3]) (LacpLib []).

Lemma a_request_ok : lacp_ok a_request.
Proof.
  split; [done|split; cbn; try lia|split; cbn; try lia|done].
  - unfold bit_list; cbn; rewrite !Forall_cons. split_and!; try done; by (left + right).
  - unfold bit_list; cbn; rewrite !Forall_cons. split_and!; try done; by (left + right).
Qed.

Lemma lacp_roundtrip_witness :
  lacp_ok a_request ∧
  ∃ bs, serialize a_request = Ret bs ∧ length bs = 110%nat ∧ slow_parser bs = Ret (Some a_request, []).
Proof. split; [exact a_request_ok|]. apply lacp_roundtrip. exact a_request_ok. Defined.

Lemma slow_parser_total_witness :
  slow_parser [2; 1] = Ret (None, [2; 1]) ∧ slow_parser [1; 1] = Raise AssertionError ∧
  ((∃ l, slow_parser [2; 1] = Ret (Some l, []) ∧ lacp_ok l ∧ length [2; 1] = 110%nat) ∨
   (slow_parser [2; 1] = Ret (None, [2; 1]) ∧ head [2; 1] ≠ Some SLOW_SUBTYPE_LACP) ∨
   slow_parser [2; 1] = Raise AssertionError).
Proof.
  split_and!; [reflexivity|reflexivity|]. apply slow_parser_total; [|discriminate].
  rewrite !Forall_cons. unfold is_byte. split_and!; try lia. apply Forall_nil_2.
Defined.

Definition after_packet : lacp_lib * gmap (Z * Z) bool :=
  let m := packet_in_handler (PacketIn (a_switch 4) 2 (Some (a_request, 0x001122334455))) in
  (final m two_slaves, foldl see ∅ (outputs m two_slaves)).

Lemma after_packet_reachable : reachable lacp_init lacp_step after_packet.
Proof.
  apply (reach_step _ _ (two_slaves, ∅)
    (OnPacketIn (PacketIn (a_switch 4) 2 (Some (a_request, 0x001122334455))))); [|by split].
  apply (reach_step _ _ (LacpLib [], ∅) (Add 1 [2; 3])); [by apply reach_init|].
  split; [|done]. intros p _. left. by vm_compute.
Qed.

Lemma slaves_in_sync_witness :
  _get_slave after_packet.1 1 2 = Some (Slave true 3) ∧
  enabled (Slave true 3) = default false (after_packet.2 !! (1, 2)) ∧ slave_ok (Slave true 3).
Proof.
  split; [vm_compute; reflexivity|].
  apply (slaves_in_sync after_packet.1 after_packet.2 after_packet_reachable). vm_compute. reflexivity.
Defined.

Lemma lacp_answered_witness :
  ∃ s' data, packet_in_handler (PacketIn (a_switch 4) 2 (Some (a_request, 0x001122334455))) two_slaves =
      ([EventSlaveStateChanged 1 2 true; FlowMod 1 (slave_flow 4 0x001122334455 2 3);
        PacketOut 1 2 (OFPP_IN_PORT 4) SLOW_PROTOCOL_MULTICAST 0x0a0000000002 ETH_TYPE_SLOW data],
       s', Ret tt) ∧
    slow_parser data = Ret (Some (reply_to (a_switch 4) 2 0x0a0000000001 a_request), []) ∧
    became (Slave true 3) 1 2 two_slaves s'.
Proof.
  refine (lacp_answered two_slaves (a_switch 4) 2 a_request 0x001122334455 (Slave false 0)
    0x0a0000000001 0x0a0000000002 a_request_ok _ _ _ _ _ _);
    first [lia|reflexivity|vm_compute; reflexivity|idtac].
  rewrite !elem_of_cons. right; right; left. reflexivity.
Defined.

(** A port whose number needs more than 16 bits, as OpenFlow 1.2 and later allow: the slave is
    reported as enabled and its flow entry is sent, then the answer cannot be written. *)
Example wide_port_not_answered :
  let dp := DatapathOf 1 4 (list_to_map [(OFPP_LOCAL 4, 1); (0x10000, 2)]) in
  let m := packet_in_handler (PacketIn dp 0x10000 (Some (a_request, 5))) in
  let s := final (add 1 [0x10000; 3]) (LacpLib []) in
  result m s = Raise StructError ∧
  outputs m s = [EventSlaveStateChanged 1 0x10000 true; FlowMod 1 (slave_flow 4 5 0x10000 3)].
Proof. vm_compute. by split. Qed.

(** With OpenFlow 1.4 the first packet fails the assertion, after the timeout was stored; the
    second one is answered, but there is no flow entry. *)
Example version_14_second_packet :
  let m := packet_in_handler (PacketIn (a_switch 5) 2 (Some (a_request, 5))) in
  let s := final m two_slaves in
  result m two_slaves = Raise AssertionError ∧
  result m s = Ret tt ∧ ∀ d f, FlowMod d f ∉ outputs m s.
Proof.
  split_and!; [by vm_compute..|]. intros d f.
  match goal with |- _ ∉ ?o => let o' := eval vm_compute in o in change (FlowMod d f ∉ o') end.
  rewrite not_elem_of_cons. split; [done|]. apply not_elem_of_nil.
Qed.

(** A port that is no slave is reported as enabled by every packet. *)
Example unknown_port_reported_again :
  let m := packet_in_handler (PacketIn (a_switch 4) 2 (Some (a_request, 5))) in
  outputs m (final m (LacpLib [])) = outputs m (LacpLib []) ∧
  head (outputs m (LacpLib [])) = Some (EventSlaveStateChanged 1 2 true).
Proof. vm_compute. by split. Qed.
