(* ===== verification/PacketBase.v ===== *)
(** * Protocol headers

    What the encoders and decoders of [ryu/lib/packet] have in common: the class [Codec] stands
    for [PacketBase] of [packet_base.py] (a parser and a serializer), the class [CodecLaws] for
    what the class [Packet] relies on to read what it wrote and [CodecTotal] for what becomes of
    any bytes.  Protocols are named by [proto_class]; those that are not
    modelled have a name only.  A header is an encoder's object before and after [serialize],
    which may fill in lengths and checksums.  MAC and IP addresses are integers. *)

From stdpp Require Import base list strings gmap.
From Stdlib Require Import ZArith Lia.
From S2P Require Import Prelude Struct PacketUtils Ofp.

Open Scope Z_scope.
Set Default Proof Using "Type".

(** ** Classes of headers *)

Inductive proto_class :=
| c_ethernet | c_vlan | c_svlan | c_mpls | c_arp | c_ipv4 | c_udp | c_icmp | c_slow
| c_foreign (name : string).

#[export] Instance proto_class_eq_dec : EqDecision proto_class.
Proof. solve_decision. Defined.

(** ** The registry of classes *)

Definition IPPROTO_ICMP : Z := 1.
Definition IPPROTO_IGMP : Z := 2.
Definition IPPROTO_TCP : Z := 6.
Definition IPPROTO_UDP : Z := 17.
Definition IPPROTO_GRE : Z := 47.
Definition IPPROTO_ICMPV6 : Z := 58.
Definition IPPROTO_OSPF : Z := 89.
Definition IPPROTO_VRRP : Z := 112.
Definition IPPROTO_SCTP : Z := 132.
Definition SAP_BPDU : Z := 0x42.

(** What has been registered later than the import of the package: Ethernet in GRE and Geneve,
    which their parsers register, and VRRP, which the import of its module registers. *)
Class Registry := { teb_registered : bool; vrrp_imported : bool }.

(** What [register_packet_type] has been called with.  No class has a dictionary of its own:
    [cls._TYPES] is that of [PacketBase] for all of them, and types of Ethernet, protocols of
    IP and access points of LLC share it. *)
Definition registrations `{Registry} : list (Z * proto_class) :=
  [(IPPROTO_ICMP, c_icmp); (IPPROTO_IGMP, c_foreign "igmp"); (IPPROTO_TCP, c_foreign "tcp"); (IPPROTO_UDP, c_udp);
   (IPPROTO_SCTP, c_foreign "sctp"); (IPPROTO_OSPF, c_foreign "ospf"); (IPPROTO_GRE, c_foreign "gre");
   (IPPROTO_ICMPV6, c_foreign "icmpv6"); (SAP_BPDU, c_foreign "bpdu");
   (ETH_TYPE_ARP, c_arp); (ETH_TYPE_IP, c_ipv4); (ETH_TYPE_IPV6, c_foreign "ipv6"); (ETH_TYPE_LLDP, c_foreign "lldp");
   (ETH_TYPE_SLOW, c_slow); (ETH_TYPE_IEEE802_3, c_foreign "llc"); (ETH_TYPE_CFM, c_foreign "cfm");
   (ETH_TYPE_8021AH, c_foreign "itag"); (ETH_TYPE_8021Q, c_vlan); (ETH_TYPE_8021AD, c_svlan); (ETH_TYPE_MPLS, c_mpls)] ++
  (if teb_registered then [(ETH_TYPE_TEB, c_ethernet)] else []) ++
  (if vrrp_imported then [(IPPROTO_VRRP, c_foreign "vrrp")] else []).

Definition _TYPES `{Registry} : gmap Z proto_class := list_to_map registrations.

(** [PacketBase.get_packet_type]. *)
Definition get_packet_type `{Registry} (type : Z) : option proto_class := _TYPES !! type.

(** Only the type of IPv4 is decoded as IPv4, which no protocol number is. *)
Lemma get_packet_type_ipv4 `{Registry} type : get_packet_type type = Some c_ipv4 → type = ETH_TYPE_IP.
Proof.
  unfold get_packet_type. revert type.
  assert (map_Forall (λ type c, c = c_ipv4 → type = ETH_TYPE_IP) _TYPES) as Hall.
  { apply (bool_decide_unpack _). by destruct H as [[] []]; vm_compute. }
  intros type E. by apply (Hall type c_ipv4).
Qed.

Lemma get_packet_type_length `{Registry} : get_packet_type ETH_TYPE_IEEE802_3 = Some (c_foreign "llc").
Proof. by destruct H as [[] []]; vm_compute. Qed.

(** ** Zero bytes *)

(** [data.strip(b'\x00')] is not empty. *)
Definition any_nonzero (data : bytes) : bool := existsb (λ b, negb (b =? 0)) data.

Definition zeros (data : bytes) : Prop := Forall (λ b, b = 0) data.

Lemma any_nonzero_app l k : any_nonzero (l ++ k) = any_nonzero l || any_nonzero k.
Proof. apply existsb_app. Qed.

Lemma zeros_none l : zeros l ↔ any_nonzero l = false.
Proof.
  unfold zeros. induction l as [|b l IH]; [split; [done|constructor]|]. cbn.
  rewrite Forall_cons, IH, orb_false_iff, negb_false_iff, Z.eqb_eq. done.
Qed.

Lemma zeros_app l k : zeros (l ++ k) ↔ zeros l ∧ zeros k.
Proof. apply Forall_app. Qed.

Lemma zeros_replicate n : zeros (replicate n 0).
Proof. by apply Forall_replicate. Qed.

(** ** Fields in their widths *)

Lemma in_width_1 z : in_width (1%nat, z) ↔ 0 ≤ z < 256.
Proof. done. Qed.
Lemma in_width_2 z : in_width (2%nat, z) ↔ 0 ≤ z < 65536.
Proof. done. Qed.

(** Fields in their widths are packed to bytes from which they are read again. *)
Lemma pack_fields ns zs :
  Forall in_width (zip ns zs) → length ns = length zs →
  ∃ bs, pack (zip ns zs) = Ret bs ∧ Forall is_byte bs ∧ length bs = calcsize ns ∧
    ∀ rest, unpack ns (bs ++ rest) = Ret zs.
Proof.
  intros Hw Hlen. destruct (pack_ok _ Hw) as [bs E]. exists bs.
  split_and!; [done|by eapply pack_bytes|by apply (unpack_pack ns zs bs [])|].
  intros rest. by apply unpack_pack.
Qed.

Lemma zeros_value bs : zeros bs → be_value bs = 0.
Proof.
  unfold zeros. induction bs as [|b bs IH] using rev_ind; [done|].
  rewrite Forall_app, Forall_singleton. intros [H ->]. by rewrite be_value_app, IH.
Qed.

(** A field that is not zero is seen in the bytes. *)
Lemma pack_nonzero fs bs :
  Forall in_width fs → pack fs = Ret bs → Exists (λ f, f.2 ≠ 0) fs → any_nonzero bs = true.
Proof.
  intros Hw E Hx. revert bs E. induction Hx as [[n z] fs Hz|[n z] fs Hx IH]; intros bs E;
    inversion_clear Hw as [|? ? Hf Hfs]; cbn in E; rewrite pack_field_ok in E by done; cbn in E;
    destruct (pack fs) as [bs'|]; try done; injection E as <-; rewrite any_nonzero_app, orb_true_iff; [left|right; auto].
  apply not_false_iff_true. intros H%zeros_none%zeros_value. cbn in Hz.
  by rewrite be_value_bytes in H.
Qed.

(** ** The interface *)

(** [serialize] gives the object with the fields it has filled in, the payload as it has
    extended it and the header; [parser] the object, if it finds one, the class of the rest and
    the rest. *)
Class Codec (H : Type) := {
  parser : bytes → outcome pyexn (option H * option proto_class * option bytes);
  serialize : option ipvx → bytes → H → outcome pyexn (H * bytes * bytes)
}.

Section laws.
Context {H : Type} `{!Codec H}.

(** The header is written as [hdr] and extends its payload by [pad]. *)
Definition written (ip : option ipvx) (p pad : bytes) (h h' : H) (hdr : bytes) : Prop :=
  serialize ip p h = Ret (h', p ++ pad, hdr).

(** It is read again, also with zeros after it unless it reads to the end of the buffer
    ([exact]); those and the padding are left in the rest unless it knows its length ([cuts]). *)
Definition read_back (p pad : bytes) (exact cuts : bool) (next : option proto_class) (h' : H) (hdr : bytes) : Prop :=
  ∀ z, zeros z → (exact = true → z = []) →
    ∃ rest, parser (hdr ++ p ++ pad ++ z) = Ret (Some h', next, rest) ∧
      default [] rest = p ++ (if cuts then [] else pad ++ z).
End laws.

Class CodecLaws (H : Type) `{!Codec H} := {
  (** The fields fit, and the lengths that are given are right, for the payload. *)
  wf : option ipvx → bytes → H → Prop;
  padding : bytes → H → bytes;
  next_class : H → option proto_class;
  exact : H → bool;
  cuts : H → bool;
  (** The first with what was zero or empty computed is the second. *)
  filled : H → H → Prop;
  padding_zeros p h : zeros (padding p h);
  write_read ip p h : wf ip p h →
    ∃ h' hdr, written ip p (padding p h) h h' hdr ∧ written ip p (padding p h) h' h' hdr ∧
      read_back p (padding p h) (exact h) (cuts h) (next_class h) h' hdr ∧ filled h h' ∧
      Forall is_byte hdr ∧ (next_class h = None → any_nonzero hdr = true)
}.

(** Any bytes are read, and not more of them (fewer, if [shrinks]) are left for the next class,
    or are refused with [struct.error] or, if [asserts], by an assertion. *)
Class CodecTotal (H : Type) `{!Codec H} := {
  shrinks : bool;
  asserts : bool;
  parser_total buf : Forall is_byte buf →
    (∃ h next rest, parser buf = Ret (h, next, rest) ∧ Forall is_byte (default [] rest) ∧
       (is_Some next → is_Some rest ∧ length (default [] rest) + (if shrinks then 1 else 0) ≤ length buf)%nat) ∨
    parser buf = Raise StructError ∨ (asserts = true ∧ parser buf = Raise AssertionError)
}.
