(* ===== verification/EtherCodecs.v ===== *)
(** * Headers of the link layer

    Models the encoders and decoders of [ethernet.py], [vlan.py], [mpls.py], [arp.py] and
    [slow.py] under [ryu/lib/packet], as instances of [Codec], [CodecLaws] and [CodecTotal]; that of LACP is
    [Lacp]. *)

From stdpp Require Import base list strings.
From Stdlib Require Import ZArith Lia.
From S2P Require Import Prelude Struct PacketUtils Ofp PacketBase.
From S2P Require Lacp.

Open Scope Z_scope.
Set Default Proof Using "Type".
#[local] Obligation Tactic := idtac.

Section ether.
Context {REG : Registry}.

(** ** The class of a type *)

(** [ethernet.get_packet_type] and [vlan.get_packet_type]: small types are lengths. *)
Definition type_or_length (type : Z) : option proto_class :=
  get_packet_type (if type <=? ETH_TYPE_IEEE802_3 then ETH_TYPE_IEEE802_3 else type).

(** ** [ethernet] *)

Record ethernet := EthernetOf { e_dst : Z; e_src : Z; e_type : Z }.

Definition ethernet_PACK_STR : list nat := [6; 6; 2]%nat.
Definition _MIN_PAYLOAD_LEN : nat := 46.

Definition ethernet_parser (buf : bytes) : outcome pyexn (option ethernet * option proto_class * option bytes) :=
  fields ← unpack ethernet_PACK_STR buf;
  match fields with
  | [dst; src; type] =>
      Ret (Some (EthernetOf dst src type), type_or_length type, Some (drop (calcsize ethernet_PACK_STR) buf))
  | _ => Raise ValueError
  end.

Definition ethernet_padding (payload : bytes) : bytes := replicate (_MIN_PAYLOAD_LEN - length payload) 0.

Definition ethernet_serialize (prev : option ipvx) (payload : bytes) (e : ethernet) : outcome pyexn (ethernet * bytes * bytes) :=
  hdr ← pack (zip ethernet_PACK_STR [e_dst e; e_src e; e_type e]);
  Ret (e, payload ++ ethernet_padding payload, hdr).

#[export] Instance ethernet_codec : Codec ethernet := {| parser := ethernet_parser; serialize := ethernet_serialize |}.

(** A header of fields only: it is packed and unpacked as it is. *)
Lemma plain_write_read {H} `{!Codec H} (ns : list nat) (zs : list Z) (h : H) (ip : option ipvx) (p pad : bytes)
    (next : option proto_class) :
  length ns = length zs → Forall in_width (zip ns zs) →
  (∀ hdr, pack (zip ns zs) = Ret hdr → serialize ip p h = Ret (h, p ++ pad, hdr)) →
  (∀ buf, unpack ns buf = Ret zs → parser buf = Ret (Some h, next, Some (drop (calcsize ns) buf))) →
  (next = None → Exists (λ f, f.2 ≠ 0) (zip ns zs)) →
  ∃ h' hdr, written ip p pad h h' hdr ∧ written ip p pad h' h' hdr ∧
    read_back p pad false false next h' hdr ∧ h = h' ∧
    Forall is_byte hdr ∧ (next = None → any_nonzero hdr = true).
Proof.
  intros Hlen Hw Hser Hpar Hnz. destruct (pack_fields ns zs Hw Hlen) as (hdr & E & Hb & Hl & Hu).
  exists h, hdr. split_and!; [by apply Hser|by apply Hser| |done|done|intros; eapply pack_nonzero; eauto].
  intros z Hz _. exists (Some (p ++ pad ++ z)). rewrite (Hpar _ (Hu _)). cbn. split; [|done].
  do 3 f_equal. rewrite <- Hl. apply drop_app_length.
Qed.

(** Fields only: any bytes are read or are too few. *)
Lemma plain_total {H} `{!Codec H} (ns : list nat) buf :
  Forall is_byte buf → (0 < calcsize ns)%nat →
  (∀ zs, unpack ns buf = Ret zs → length zs = length ns → ∃ h next, parser buf = Ret (h, next, Some (drop (calcsize ns) buf))) →
  (unpack ns buf = Raise StructError → parser buf = Raise StructError) →
  (∃ h next rest, parser buf = Ret (h, next, rest) ∧ Forall is_byte (default [] rest) ∧
     (is_Some next → is_Some rest ∧ length (default [] rest) + 1 ≤ length buf)%nat) ∨
  parser buf = Raise StructError ∨ (false = true ∧ parser buf = Raise AssertionError).
Proof.
  intros Hb Hn Hok Herr. destruct (decide (calcsize ns ≤ length buf)%nat) as [Hl|Hl].
  - destruct (unpack_total ns buf Hb Hl) as (zs & E & Hzs). left.
    destruct (Hok zs E) as (h & next & Hp); [by apply Forall2_length in Hzs|].
    eexists _, _, _. split; [exact Hp|]. cbn. split; [by apply Forall_drop|].
    intros _. split; [by eexists|]. rewrite length_drop. lia.
  - right; left. apply Herr. destruct (unpack_total_or_error ns buf Hb) as [(zs & E & _)|E]; [|done].
    by apply unpack_length in E.
Qed.

(** What a parser of fixed fields does with them, and with too few bytes. *)
Tactic Notation "reads_fields" reference(p) :=
  first
    [ let E := fresh in intros zs E Hl; cbn -[unpack drop]; unfold p; rewrite E;
      repeat (destruct zs as [|? zs]; try done); by eexists _, _
    | let E := fresh in intros E; cbn -[unpack]; unfold p; by rewrite E ].

(** A type without a class is not zero, zero being a length. *)
Lemma untyped_nonzero type : type_or_length type = None → type ≠ 0.
Proof.
  intros E ->. change (get_packet_type ETH_TYPE_IEEE802_3 = None) in E. by rewrite get_packet_type_length in E.
Qed.

#[export] Program Instance ethernet_laws : CodecLaws ethernet := {|
  wf _ _ e := 0 ≤ e_dst e < 2 ^ 48 ∧ 0 ≤ e_src e < 2 ^ 48 ∧ 0 ≤ e_type e < 2 ^ 16;
  padding p _ := ethernet_padding p; next_class e := type_or_length (e_type e);
  exact _ := false; cuts _ := false; filled := eq
|}.
Next Obligation. intros p e. apply zeros_replicate. Qed.
Next Obligation.
  intros ip p e (Hd & Hs & Ht).
  apply (plain_write_read ethernet_PACK_STR [e_dst e; e_src e; e_type e]); [done| | | |].
  - repeat constructor; cbn; lia.
  - intros hdr E. cbn -[pack]. unfold ethernet_serialize. by rewrite E.
  - intros buf E. cbn -[unpack drop]. unfold ethernet_parser. rewrite E. by destruct e.
  - intros Hn%untyped_nonzero. do 2 right. by left.
Qed.

#[export] Program Instance ethernet_codec_total : CodecTotal ethernet := {|
  shrinks := true; asserts := false
|}.
Next Obligation.
  intros buf Hb. apply (plain_total ethernet_PACK_STR); [done|cbn; lia|reads_fields ethernet_parser..].
Qed.

(** ** [vlan] and [svlan] *)

(** An object of either class, which differ only in the class. *)
Record _vlan := VlanOf { pcp : Z; cfi : Z; vid : Z; v_type : Z }.

Definition vlan_PACK_STR : list nat := [2; 2]%nat.

(** Also [svlan.parser]: the class of the rest is looked up in [vlan]. *)
Definition vlan_parser (buf : bytes) : outcome pyexn (option _vlan * option proto_class * option bytes) :=
  fields ← unpack vlan_PACK_STR buf;
  match fields with
  | [tci; type] =>
      let pcp := Z.shiftr tci 13 in
      let cfi := Z.land (Z.shiftr tci 12) 1 in
      let vid := Z.land tci (Z.shiftl 1 12 - 1) in
      Ret (Some (VlanOf pcp cfi vid type), type_or_length type, Some (drop (calcsize vlan_PACK_STR) buf))
  | _ => Raise ValueError
  end.

Definition tci (v : _vlan) : Z := Z.lor (Z.lor (Z.shiftl (pcp v) 13) (Z.shiftl (cfi v) 12)) (vid v).

Definition vlan_serialize (prev : option ipvx) (payload : bytes) (v : _vlan) : outcome pyexn (_vlan * bytes * bytes) :=
  hdr ← pack (zip vlan_PACK_STR [tci v; v_type v]); Ret (v, payload, hdr).

#[export] Instance vlan_codec : Codec _vlan := {| parser := vlan_parser; serialize := vlan_serialize |}.

Definition vlan_wf (v : _vlan) : Prop :=
  0 ≤ pcp v < 8 ∧ 0 ≤ cfi v < 2 ∧ 0 ≤ vid v < 4096 ∧ 0 ≤ v_type v < 65536.

(** The three fields of the tag are those of the number. *)
Lemma tci_fields v :
  vlan_wf v → 0 ≤ tci v < 65536 ∧
  Z.shiftr (tci v) 13 = pcp v ∧ Z.land (Z.shiftr (tci v) 12) 1 = cfi v ∧ Z.land (tci v) (Z.shiftl 1 12 - 1) = vid v.
Proof.
  intros (Hp & Hc & Hv & _). unfold tci.
  assert (Z.lor (Z.shiftl (pcp v) 13) (Z.shiftl (cfi v) 12) = Z.shiftl (pcp v * 2 ^ 1 + cfi v) 12) as ->.
  { rewrite <- (lor_shifted (pcp v) (cfi v) 1), Z.shiftl_lor, Z.shiftl_shiftl by lia. done. }
  rewrite lor_shifted, shifted_high by lia. split; [lia|].
  match goal with |- context [Z.land ?x 1] => change (Z.land x 1) with (Z.land x (Z.ones 1)) end.
  rewrite shifted_low by lia.
  change (Z.shiftl 1 12 - 1) with (Z.ones 12). rewrite shifted_low by lia. split_and!; [|done..].
  replace ((pcp v * 2 ^ 1 + cfi v) * 2 ^ 12 + vid v) with (pcp v * 2 ^ 13 + (cfi v * 2 ^ 12 + vid v)) by lia.
  apply shifted_high; lia.
Qed.

#[export] Program Instance vlan_laws : CodecLaws _vlan := {|
  wf _ _ v := vlan_wf v; padding _ _ := []; next_class v := type_or_length (v_type v);
  exact _ := false; cuts _ := false; filled := eq
|}.
Next Obligation. intros. constructor. Qed.
Next Obligation.
  intros ip p v Hv. destruct (tci_fields v Hv) as (Ht & Hf). destruct Hv as (_ & _ & _ & Hy).
  apply (plain_write_read vlan_PACK_STR [tci v; v_type v]); [done| | | |].
  - repeat constructor; cbn; lia.
  - intros hdr E. cbn -[pack]. unfold vlan_serialize. rewrite E. cbn. by rewrite app_nil_r.
  - intros buf E. cbn -[unpack drop]. unfold vlan_parser. rewrite E. cbn -[drop Z.shiftl Z.shiftr].
    destruct Hf as (-> & -> & ->). by destruct v.
  - intros Hn%untyped_nonzero. right. by left.
Qed.

#[export] Program Instance vlan_codec_total : CodecTotal _vlan := {|
  shrinks := true; asserts := false
|}.
Next Obligation.
  intros buf Hb. apply (plain_total vlan_PACK_STR); [done|cbn; lia|reads_fields vlan_parser..].
Qed.

(** ** [mpls] *)

Record mpls := MplsOf { label : Z; m_exp : Z; bsb : Z; m_ttl : Z }.

Definition mpls_PACK_STR : list nat := [4]%nat.

(** The rest of the bottom of the stack is taken for IPv4. *)
Definition mpls_next (bsb : Z) : proto_class := if negb (bsb =? 0) then c_ipv4 else c_mpls.

Definition mpls_parser (buf : bytes) : outcome pyexn (option mpls * option proto_class * option bytes) :=
  fields ← unpack mpls_PACK_STR buf;
  match fields with
  | [label] =>
      let ttl := Z.land label 0xff in
      let bsb := Z.land (Z.shiftr label 8) 1 in
      let exp := Z.land (Z.shiftr label 9) 7 in
      let label := Z.shiftr label 12 in
      Ret (Some (MplsOf label exp bsb ttl), Some (mpls_next bsb), Some (drop (calcsize mpls_PACK_STR) buf))
  | _ => Raise ValueError
  end.

Definition mpls_val (m : mpls) : Z :=
  Z.lor (Z.lor (Z.lor (Z.shiftl (label m) 12) (Z.shiftl (m_exp m) 9)) (Z.shiftl (bsb m) 8)) (m_ttl m).

Definition mpls_serialize (prev : option ipvx) (payload : bytes) (m : mpls) : outcome pyexn (mpls * bytes * bytes) :=
  hdr ← pack (zip mpls_PACK_STR [mpls_val m]); Ret (m, payload, hdr).

#[export] Instance mpls_codec : Codec mpls := {| parser := mpls_parser; serialize := mpls_serialize |}.

Definition mpls_wf (m : mpls) : Prop :=
  0 ≤ label m < 2 ^ 20 ∧ 0 ≤ m_exp m < 8 ∧ 0 ≤ bsb m < 2 ∧ 0 ≤ m_ttl m < 256.

Lemma mpls_fields m :
  mpls_wf m → 0 ≤ mpls_val m < 2 ^ 32 ∧
  Z.land (mpls_val m) 0xff = m_ttl m ∧ Z.land (Z.shiftr (mpls_val m) 8) 1 = bsb m ∧
  Z.land (Z.shiftr (mpls_val m) 9) 7 = m_exp m ∧ Z.shiftr (mpls_val m) 12 = label m.
Proof.
  intros (Hl & He & Hb & Ht). unfold mpls_val.
  assert (Z.lor (Z.lor (Z.shiftl (label m) 12) (Z.shiftl (m_exp m) 9)) (Z.shiftl (bsb m) 8) =
          Z.shiftl ((label m * 2 ^ 3 + m_exp m) * 2 ^ 1 + bsb m) 8) as ->.
  { rewrite <- (lor_shifted (label m)), <- lor_shifted by lia.
    rewrite !Z.shiftl_lor, !Z.shiftl_shiftl by lia. done. }
  rewrite lor_shifted, shifted_high by lia. split; [lia|].
  change 0xff with (Z.ones 8). change 7 with (Z.ones 3).
  match goal with |- context [Z.land ?x 1] => change (Z.land x 1) with (Z.land x (Z.ones 1)) end.
  rewrite !shifted_low by lia. split_and!; [done..| |].
  - replace (((label m * 2 ^ 3 + m_exp m) * 2 ^ 1 + bsb m) * 2 ^ 8 + m_ttl m)
      with ((label m * 2 ^ 3 + m_exp m) * 2 ^ 9 + (bsb m * 2 ^ 8 + m_ttl m)) by lia.
    by rewrite shifted_high, shifted_low by lia.
  - replace (((label m * 2 ^ 3 + m_exp m) * 2 ^ 1 + bsb m) * 2 ^ 8 + m_ttl m)
      with (label m * 2 ^ 12 + (m_exp m * 2 ^ 9 + bsb m * 2 ^ 8 + m_ttl m)) by lia.
    apply shifted_high; lia.
Qed.

#[export] Program Instance mpls_laws : CodecLaws mpls := {|
  wf _ _ m := mpls_wf m; padding _ _ := []; next_class m := Some (mpls_next (bsb m));
  exact _ := false; cuts _ := false; filled := eq
|}.
Next Obligation. intros. constructor. Qed.
Next Obligation.
  intros ip p m Hm. destruct (mpls_fields m Hm) as (Hv & Hf).
  apply (plain_write_read mpls_PACK_STR [mpls_val m]); [done| | | |done].
  - repeat constructor; cbn; lia.
  - intros hdr E. cbn -[pack]. unfold mpls_serialize. rewrite E. cbn. by rewrite app_nil_r.
  - intros buf E. cbn -[unpack drop]. unfold mpls_parser. rewrite E. cbn -[drop Z.shiftr].
    destruct Hf as (-> & -> & -> & ->). by destruct m.
Qed.

#[export] Program Instance mpls_codec_total : CodecTotal mpls := {|
  shrinks := true; asserts := false
|}.
Next Obligation.
  intros buf Hb. apply (plain_total mpls_PACK_STR); [done|cbn; lia|reads_fields mpls_parser..].
Qed.

(** ** [arp] *)

Record arp := ArpOf {
  hwtype : Z; a_proto : Z; hlen : Z; plen : Z; opcode : Z;
  src_mac : Z; src_ip : Z; dst_mac : Z; dst_ip : Z
}.

Definition arp_PACK_STR : list nat := [2; 2; 1; 1; 2; 6; 4; 6; 4]%nat.

Definition arp_parser (buf : bytes) : outcome pyexn (option arp * option proto_class * option bytes) :=
  fields ← unpack arp_PACK_STR buf;
  match fields with
  | [hwtype; proto; hlen; plen; opcode; src_mac; src_ip; dst_mac; dst_ip] =>
      Ret (Some (ArpOf hwtype proto hlen plen opcode src_mac src_ip dst_mac dst_ip), None,
           Some (drop (calcsize arp_PACK_STR) buf))
  | _ => Raise ValueError
  end.

Definition arp_fields (a : arp) : list Z :=
  [hwtype a; a_proto a; hlen a; plen a; opcode a; src_mac a; src_ip a; dst_mac a; dst_ip a].

Definition arp_serialize (prev : option ipvx) (payload : bytes) (a : arp) : outcome pyexn (arp * bytes * bytes) :=
  hdr ← pack (zip arp_PACK_STR (arp_fields a)); Ret (a, payload, hdr).

#[export] Instance arp_codec : Codec arp := {| parser := arp_parser; serialize := arp_serialize |}.

#[export] Program Instance arp_laws : CodecLaws arp := {|
  wf _ _ a := Forall in_width (zip arp_PACK_STR (arp_fields a)) ∧
    Exists (λ f, f.2 ≠ 0) (zip arp_PACK_STR (arp_fields a));
  padding _ _ := []; next_class a := None;
  exact _ := false; cuts _ := false; filled := eq
|}.
Next Obligation. intros. constructor. Qed.
Next Obligation.
  intros ip p a [Hw Hn]. apply (plain_write_read arp_PACK_STR (arp_fields a)); [done|done| | |done].
  - intros hdr E. cbn -[pack arp_fields]. unfold arp_serialize. rewrite E. cbn. by rewrite app_nil_r.
  - intros buf E. cbn -[unpack drop]. unfold arp_parser. rewrite E. by destruct a.
Qed.

#[export] Program Instance arp_codec_total : CodecTotal arp := {|
  shrinks := true; asserts := false
|}.
Next Obligation.
  intros buf Hb. apply (plain_total arp_PACK_STR); [done|cbn; lia|reads_fields arp_parser..].
Qed.

Definition ARP_HW_TYPE_ETHERNET : Z := 1.

(** The wrapper for IPv4 over Ethernet. *)
Definition arp_ip (opcode src_mac src_ip dst_mac dst_ip : Z) : arp :=
  ArpOf ARP_HW_TYPE_ETHERNET ETH_TYPE_IP 6 4 opcode src_mac src_ip dst_mac dst_ip.

Lemma arp_ip_wf ip p opcode src_mac src_ip dst_mac dst_ip :
  0 ≤ opcode < 2 ^ 16 → 0 ≤ src_mac < 2 ^ 48 → 0 ≤ src_ip < 2 ^ 32 → 0 ≤ dst_mac < 2 ^ 48 → 0 ≤ dst_ip < 2 ^ 32 →
  wf ip p (arp_ip opcode src_mac src_ip dst_mac dst_ip).
Proof.
  intros. split; [|by left]. cbn [zip zip_with arp_PACK_STR arp_fields arp_ip hwtype a_proto hlen plen].
  repeat constructor; cbn; try lia; done.
Qed.

(** ** [slow] *)

(** The class of what is in the object that [slow.parser] returns is [lacp]; it reads the whole
    buffer. *)
Definition lacp_parser (buf : bytes) : outcome pyexn (option Lacp.lacp * option proto_class * option bytes) :=
  x ← Lacp.slow_parser buf; Ret (x.1, None, Some x.2).

Definition lacp_serialize (prev : option ipvx) (payload : bytes) (l : Lacp.lacp) :
    outcome pyexn (Lacp.lacp * bytes * bytes) :=
  hdr ← Lacp.serialize l; Ret (l, payload, hdr).

#[export] Instance lacp_codec : Codec Lacp.lacp := {| parser := lacp_parser; serialize := lacp_serialize |}.

(** Nothing may follow the packet, the parser checks its length. *)
#[export] Program Instance lacp_laws : CodecLaws Lacp.lacp := {|
  wf _ p l := Lacp.lacp_ok l ∧ p = []; padding _ _ := []; next_class _ := None;
  exact _ := true; cuts _ := false; filled := eq
|}.
Next Obligation. intros. constructor. Qed.
Next Obligation.
  intros ip p l [Hl ->]. destruct (Lacp.new_lacp_roundtrip l Hl) as (hdr & E & Hn & Hp).
  assert (written ip [] [] l l hdr) as Hw.
  { change (lacp_serialize ip [] l = Ret (l, [], hdr)). unfold lacp_serialize. by rewrite E. }
  destruct hdr as [|b hdr]; [done|].
  exists l, (b :: hdr). split_and!; [done|done| |done| |].
  - intros z _ Hz. rewrite Hz by done. exists (Some []). split; [|done]. rewrite !app_nil_r.
    change (lacp_parser (b :: hdr) = Ret (Some l, None, Some [])). unfold lacp_parser. by rewrite Hp.
  - by eapply Lacp.serialize_bytes.
  - intros _. by apply Lacp.slow_parser_subtype in Hp as ->.
Qed.

#[export] Program Instance lacp_codec_total : CodecTotal Lacp.lacp := {|
  shrinks := true; asserts := true
|}.
Next Obligation.
  intros buf Hb. change (parser buf) with (lacp_parser buf). unfold lacp_parser.
  destruct buf as [|b buf]; [by right; left|].
  destruct (Lacp.slow_parser_cases (b :: buf) Hb) as [(l & -> & _)|[[-> _]| ->]]; [done|..|by right; right].
  - left. eexists _, _, _. split; [done|]. split; [constructor|]. intros [? [=]].
  - left. eexists _, _, _. split; [done|]. split; [done|]. intros [? [=]].
Qed.
End ether.
