(* ===== verification/IpCodecs.v ===== *)
(** * Headers of the network and transport layers

    Models the encoders and decoders of [ipv4.py], [udp.py] and [icmp.py] under
    [ryu/lib/packet], as instances of [Codec], [CodecLaws] and [CodecTotal].  The byte order of the host is
    a parameter, that of [checksum]. *)

From stdpp Require Import base list strings.
From Stdlib Require Import ZArith Lia.
From S2P Require Import Prelude Struct PacketUtils PacketBase.

Open Scope Z_scope.
Set Default Proof Using "Type".
#[local] Obligation Tactic := idtac.

Section ip.
Context (little_endian : bool) {REG : Registry}.

(** ** [ipv4] *)

Record ipv4 := Ipv4Of {
  version : Z; header_length : Z; tos : Z; total_length : Z; identification : Z;
  flags : Z; offset : Z; ttl : Z; proto : Z; csum : Z; src : Z; dst : Z;
  ip_option : option bytes
}.

Definition ipv4_PACK_STR : list nat := [1; 1; 2; 2; 2; 1; 1; 2; 4; 4]%nat.
Definition ipv4_MIN_LEN : nat := calcsize ipv4_PACK_STR.

(** [buf[i:j]] of non-negative bounds. *)
Definition slice (i j : Z) (buf : bytes) : bytes := drop (Z.to_nat i) (take (Z.to_nat j) buf).

Definition ipv4_parser (buf : bytes) : outcome pyexn (option ipv4 * option proto_class * option bytes) :=
  fields ← unpack ipv4_PACK_STR buf;
  match fields with
  | [version; tos; total_length; identification; flags; ttl; proto; csum; src; dst] =>
      let header_length := Z.land version 0xf in
      let version := Z.shiftr version 4 in
      let offset := Z.land flags (Z.shiftl 1 13 - 1) in
      let flags := Z.shiftr flags 13 in
      let length := header_length * 4 in
      let option := if Z.of_nat ipv4_MIN_LEN <? length then Some (slice (Z.of_nat ipv4_MIN_LEN) length buf) else None in
      Ret (Some (Ipv4Of version header_length tos total_length identification flags offset ttl proto csum src dst option),
           get_packet_type proto, Some (slice length total_length buf))
  | _ => Raise ValueError
  end.

(** The fields of fixed size, with a checksum. *)
Definition ipv4_fields (h : ipv4) (csum : Z) : list Z :=
  [Z.lor (Z.shiftl (version h) 4) (header_length h); tos h; total_length h; identification h;
   Z.lor (Z.shiftl (flags h) 13) (offset h); ttl h; proto h; csum; src h; dst h].

Definition ipv4_set_length (len : Z) (h : ipv4) : ipv4 :=
  Ipv4Of (version h) (header_length h) (tos h) len (identification h) (flags h) (offset h) (ttl h)
    (proto h) (csum h) (src h) (dst h) (ip_option h).

Definition ipv4_set_csum (cs : Z) (h : ipv4) : ipv4 :=
  Ipv4Of (version h) (header_length h) (tos h) (total_length h) (identification h) (flags h) (offset h) (ttl h)
    (proto h) cs (src h) (dst h) (ip_option h).

(** [struct.pack_into(fmt, hdr, offset, ...)]. *)
Definition pack_into (fields : list (nat * Z)) (hdr : bytes) (offset : nat) : outcome pyexn bytes :=
  bs ← pack fields;
  if (offset + length bs <=? length hdr)%nat then Ret (take offset hdr ++ bs ++ drop (offset + length bs) hdr)
  else Raise StructError.

(** [bytearray(n)]. *)
Definition bytearray (n : Z) : outcome pyexn bytes :=
  if n <? 0 then Raise ValueError else Ret (replicate (Z.to_nat n) 0).

Definition ipv4_serialize (prev : option ipvx) (payload : bytes) (h : ipv4) : outcome pyexn (ipv4 * bytes * bytes) :=
  hdr ← bytearray (header_length h * 4);
  let h := if total_length h =? 0
           then ipv4_set_length (header_length h * 4 + Z.of_nat (length payload)) h else h in
  hdr ← pack_into (zip ipv4_PACK_STR (ipv4_fields h 0)) hdr 0;
  hdr ← match default [] (ip_option h) with
        | [] => Ret hdr
        | o => if Z.of_nat (length o) <=? header_length h * 4 - Z.of_nat ipv4_MIN_LEN
               then Ret (take ipv4_MIN_LEN hdr ++ o ++ drop (ipv4_MIN_LEN + length o) hdr)
               else Raise AssertionError
        end;
  let cs := checksum little_endian hdr in
  hdr ← pack_into [(2%nat, cs)] hdr 10;
  Ret (ipv4_set_csum cs h, payload, hdr).

#[export] Instance ipv4_codec : Codec ipv4 := {| parser := ipv4_parser; serialize := ipv4_serialize |}.

(** ** [udp] *)

Record udp := UdpOf { src_port : Z; dst_port : Z; u_total_length : Z; u_csum : Z }.

Definition udp_PACK_STR : list nat := [2; 2; 2; 2]%nat.
Definition udp_MIN_LEN : nat := calcsize udp_PACK_STR.

Definition vxlan_UDP_DST_PORT : Z := 4789.
Definition vxlan_UDP_DST_PORT_OLD : Z := 8472.
Definition geneve_UDP_DST_PORT : Z := 6081.

Definition udp_packet_type (src_port dst_port : Z) : option proto_class :=
  let among a b port := (port =? a) || (port =? b) in
  if (among 67 68 src_port && (dst_port =? 67)) || (among 67 68 dst_port && (src_port =? 67))
  then Some (c_foreign "dhcp")
  else if (among 546 547 src_port && (dst_port =? 547)) || (among 546 547 dst_port && (src_port =? 547))
  then Some (c_foreign "dhcp6")
  else if (dst_port =? vxlan_UDP_DST_PORT) || (dst_port =? vxlan_UDP_DST_PORT_OLD)
  then Some (c_foreign "vxlan")
  else if dst_port =? geneve_UDP_DST_PORT then Some (c_foreign "geneve")
  else None.

Definition udp_parser (buf : bytes) : outcome pyexn (option udp * option proto_class * option bytes) :=
  fields ← unpack udp_PACK_STR buf;
  match fields with
  | [src_port; dst_port; total_length; csum] =>
      Ret (Some (UdpOf src_port dst_port total_length csum), udp_packet_type src_port dst_port,
           Some (slice (Z.of_nat udp_MIN_LEN) total_length buf))
  | _ => Raise ValueError
  end.

Definition udp_fields (u : udp) : list Z := [src_port u; dst_port u; u_total_length u; u_csum u].

Definition udp_serialize (prev : option ipvx) (payload : bytes) (u : udp) : outcome pyexn (udp * bytes * bytes) :=
  let u := if u_total_length u =? 0
           then UdpOf (src_port u) (dst_port u) (Z.of_nat udp_MIN_LEN + Z.of_nat (length payload)) (u_csum u) else u in
  h ← pack (zip udp_PACK_STR (udp_fields u));
  if u_csum u =? 0 then
    match prev with
    | None => Raise AttributeError
    | Some ip =>
        cs ← checksum_ip little_endian ip (u_total_length u) (h ++ payload);
        let u := UdpOf (src_port u) (dst_port u) (u_total_length u) cs in
        h ← pack (zip udp_PACK_STR (udp_fields u));
        Ret (u, payload, h)
    end
  else Ret (u, payload, h).

#[export] Instance udp_codec : Codec udp := {| parser := udp_parser; serialize := udp_serialize |}.

(** ** [icmp] *)

Definition ICMP_ECHO_REPLY : Z := 0.
Definition ICMP_DEST_UNREACH : Z := 3.
Definition ICMP_ECHO_REQUEST : Z := 8.
Definition ICMP_TIME_EXCEEDED : Z := 11.

(** The payload: bytes, or an object of one of three classes. *)
Inductive icmp_data :=
| Raw (data : bytes)
| echo (id seq : Z) (data : option bytes)
| dest_unreach (data_len mtu : Z) (data : option bytes)
| TimeExceeded (data_len : Z) (data : option bytes).

Record icmp := IcmpOf { i_type : Z; code : Z; i_csum : Z; i_data : icmp_data }.

Inductive icmp_class := c_echo | c_dest_unreach | c_TimeExceeded.

Definition _ICMP_TYPES (type : Z) : option icmp_class :=
  if (type =? ICMP_ECHO_REPLY) || (type =? ICMP_ECHO_REQUEST) then Some c_echo
  else if type =? ICMP_DEST_UNREACH then Some c_dest_unreach
  else if type =? ICMP_TIME_EXCEEDED then Some c_TimeExceeded
  else None.

Definition icmp_PACK_STR : list nat := [1; 1; 2]%nat.
Definition icmp_MIN_LEN : nat := calcsize icmp_PACK_STR.

(** The format of each payload, the padding of which is written as zeros and not read. *)
Definition payload_PACK_STR (c : icmp_class) : list nat :=
  match c with c_echo => [2; 2]%nat | c_dest_unreach | c_TimeExceeded => [1; 1; 2]%nat end.

(** The parser of a payload class, at [icmp_MIN_LEN]; the constructors' check of [data_len] is
    void for a byte. *)
Definition payload_parser (c : icmp_class) (buf : bytes) : outcome pyexn icmp_data :=
  fields ← unpack (payload_PACK_STR c) buf;
  let rest := drop (calcsize (payload_PACK_STR c)) buf in
  let data := if (0 <? length rest)%nat then Some rest else None in
  match c, fields with
  | c_echo, [id; seq] => Ret (echo id seq data)
  | c_dest_unreach, [_; data_len; mtu] => Ret (dest_unreach data_len mtu data)
  | c_TimeExceeded, [_; data_len; _] => Ret (TimeExceeded data_len data)
  | _, _ => Raise ValueError
  end.

Definition icmp_parser (buf : bytes) : outcome pyexn (option icmp * option proto_class * option bytes) :=
  fields ← unpack icmp_PACK_STR buf;
  match fields with
  | [type; code; csum] =>
      let rest := drop icmp_MIN_LEN buf in
      data ← (if (0 <? length rest)%nat then
                match _ICMP_TYPES type with
                | Some c => payload_parser c rest
                | None => Ret (Raw rest)
                end
              else Ret (Raw []));
      Ret (Some (IcmpOf type code csum data), None, None)
  | _ => Raise ValueError
  end.

(** [data.serialize()], of an object. *)
Definition payload_serialize (d : icmp_data) : outcome pyexn bytes :=
  match d with
  | Raw _ => Raise AttributeError
  | echo id seq data =>
      hdr ← pack (zip (payload_PACK_STR c_echo) [id; seq]); Ret (hdr ++ default [] data)
  | dest_unreach data_len mtu data =>
      hdr ← pack (zip (payload_PACK_STR c_dest_unreach) [0; data_len; mtu]); Ret (hdr ++ default [] data)
  | TimeExceeded data_len data =>
      hdr ← pack (zip (payload_PACK_STR c_TimeExceeded) [0; data_len; 0]); Ret (hdr ++ default [] data)
  end.

(** The payload, which becomes an [echo] when it is empty; bytes are refused for the types that
    have a class and objects for those that have not. *)
Definition icmp_payload (type : Z) (d : icmp_data) : outcome pyexn (icmp_data * bytes) :=
  match d with
  | Raw [] => bs ← payload_serialize (echo 0 0 None); Ret (echo 0 0 None, bs)
  | Raw data => match _ICMP_TYPES type with Some _ => Raise AssertionError | None => Ret (d, data) end
  | _ => match _ICMP_TYPES type with
         | Some _ => bs ← payload_serialize d; Ret (d, bs)
         | None => Raise TypeError
         end
  end.

Definition icmp_serialize (prev : option ipvx) (payload : bytes) (i : icmp) : outcome pyexn (icmp * bytes * bytes) :=
  hdr ← pack (zip icmp_PACK_STR [i_type i; code i; i_csum i]);
  '(d, bs) ← icmp_payload (i_type i) (i_data i);
  let hdr := hdr ++ bs in
  if i_csum i =? 0 then
    let cs := checksum little_endian hdr in
    hdr ← pack_into [(2%nat, cs)] hdr 2;
    Ret (IcmpOf (i_type i) (code i) cs d, payload, hdr)
  else Ret (IcmpOf (i_type i) (code i) (i_csum i) d, payload, hdr).

#[export] Instance icmp_codec : Codec icmp := {| parser := icmp_parser; serialize := icmp_serialize |}.

(** ** Writing into a buffer *)

Lemma pack_app fs gs : pack (fs ++ gs) = (a ← pack fs; b ← pack gs; Ret (a ++ b)).
Proof.
  induction fs as [|[n z] fs IH]; cbn; [by destruct (pack gs)|].
  destruct (pack_field n z); cbn; [|done]. rewrite IH. destruct (pack fs); cbn; [|done].
  destruct (pack gs); cbn; [|done]. by rewrite app_assoc.
Qed.

Lemma pack_word cs : 0 ≤ cs ≤ 0xffff → pack [(2%nat, cs)] = Ret (be_bytes 2 cs).
Proof.
  intros H. unfold pack. rewrite pack_field_ok by (cbn; lia). cbn [mbind outcome_bind]. by rewrite app_nil_r.
Qed.

Lemma pack_into_at fields bs pre old post n :
  pack fields = Ret bs → length old = length bs → n = length pre →
  pack_into fields (pre ++ old ++ post) n = Ret (pre ++ bs ++ post).
Proof.
  intros E Hl ->. unfold pack_into. rewrite E. cbn [mbind outcome_bind].
  rewrite (proj2 (Nat.leb_le _ _)) by (rewrite !length_app; lia).
  by rewrite take_app_length, <- Hl, drop_app_add, drop_app_length.
Qed.

Lemma slice_at (i j : Z) (pre mid post : bytes) :
  i = Z.of_nat (length pre) → j = Z.of_nat (length pre + length mid) → slice i j (pre ++ mid ++ post) = mid.
Proof.
  intros -> ->. unfold slice. rewrite !Nat2Z.id, app_assoc, take_app_length' by (by rewrite length_app).
  apply drop_app_length.
Qed.

Lemma slice_bytes i j buf : Forall is_byte buf → Forall is_byte (slice i j buf) ∧ (length (slice i j buf) ≤ length buf)%nat.
Proof.
  intros Hb. unfold slice. split; [by apply Forall_drop, Forall_take|]. rewrite length_drop, length_take. lia.
Qed.

(** ** The laws of [ipv4] *)

(** The length the header declares. *)
Definition full_length (p : bytes) (h : ipv4) : Z := header_length h * 4 + Z.of_nat (length p).

Record ipv4_wf (p : bytes) (h : ipv4) : Prop := {
  ok_version : 0 ≤ version h < 16;
  ok_header_length : 5 ≤ header_length h < 16;
  ok_flags : 0 ≤ flags h < 8;
  ok_offset : 0 ≤ offset h < 8192;
  ok_tos : 0 ≤ tos h < 256;
  ok_identification : 0 ≤ identification h < 65536;
  ok_ttl : 0 ≤ ttl h < 256;
  ok_proto : 0 ≤ proto h < 256;
  ok_src : 0 ≤ src h < 2 ^ 32;
  ok_dst : 0 ≤ dst h < 2 ^ 32;
  ok_length : full_length p h < 65536;
  ok_total_length : total_length h = 0 ∨ total_length h = full_length p h;
  ok_options : Forall is_byte (default [] (ip_option h));
  ok_option : if header_length h =? 5 then ip_option h = None
    else ∃ o, ip_option h = Some o ∧ Z.of_nat (length o) = header_length h * 4 - 20
}.

(** The options are what the header has beyond its fixed fields. *)
Lemma option_length p h :
  ipv4_wf p h →
  Z.of_nat (length (default [] (ip_option h))) = header_length h * 4 - 20 ∧
  ip_option h = if 20 <? header_length h * 4 then Some (default [] (ip_option h)) else None.
Proof.
  intros [_ Hl _ _ _ _ _ _ _ _ _ _ _ Ho]. destruct (Z.eqb_spec (header_length h) 5) as [E|E].
  - rewrite Ho, E. done.
  - destruct Ho as (o & -> & Hn). rewrite (proj2 (Z.ltb_lt _ _)) by lia. done.
Qed.

(** The bits of the two bytes that hold two fields each. *)
Lemma ipv4_bits p h :
  ipv4_wf p h →
  (let b := Z.lor (Z.shiftl (version h) 4) (header_length h) in
   0 ≤ b < 256 ∧ Z.land b 0xf = header_length h ∧ Z.shiftr b 4 = version h) ∧
  (let b := Z.lor (Z.shiftl (flags h) 13) (offset h) in
   0 ≤ b < 65536 ∧ Z.land b (Z.shiftl 1 13 - 1) = offset h ∧ Z.shiftr b 13 = flags h).
Proof.
  intros [Hv Hl Hf Ho _ _ _ _ _ _ _ _ _]. change 0xf with (Z.ones 4). change (Z.shiftl 1 13 - 1) with (Z.ones 13).
  cbv zeta. rewrite !lor_shifted, !shifted_high, !shifted_low by lia. split_and!; first [lia|done].
Qed.

(** The parts of the header before and after the checksum. *)
Lemma ipv4_packed p h :
  ipv4_wf p h → total_length h = full_length p h →
  ∃ a b, length a = 10%nat ∧ length b = 8%nat ∧ Forall is_byte (a ++ b) ∧ any_nonzero a = true ∧
    ∀ cs, 0 ≤ cs ≤ 0xffff → pack (zip ipv4_PACK_STR (ipv4_fields h cs)) = Ret (a ++ be_bytes 2 cs ++ b).
Proof.
  intros Hw Ht. pose proof (ipv4_bits p h Hw) as [(Hb1 & Hv & _) (Hb2 & _)]. destruct Hw.
  set (zs := take 7 (ipv4_fields h 0)).
  assert (Forall in_width (zip [1; 1; 2; 2; 2; 1; 1]%nat zs)) as Ha.
  { unfold zs, full_length in *. repeat constructor; cbn -[Z.shiftl Z.lor]; try lia. all: rewrite Ht; lia. }
  destruct (pack_fields [1; 1; 2; 2; 2; 1; 1]%nat zs Ha eq_refl) as (a & Ea & Ba & La & _).
  destruct (pack_fields [4; 4]%nat [src h; dst h]) as (b & Eb & Bb & Lb & _); [repeat constructor; cbn; lia|done|].
  exists a, b. split_and!; [done|done|by apply Forall_app| |].
  - eapply pack_nonzero; [exact Ha|exact Ea|]. left. cbn -[Z.shiftl Z.lor]. intros E. rewrite E in Hv.
    change (Z.land 0 15) with 0 in Hv. lia.
  - intros cs Hcs.
    change (zip ipv4_PACK_STR (ipv4_fields h cs))
      with (zip [1; 1; 2; 2; 2; 1; 1]%nat zs ++ [(2%nat, cs)] ++ zip [4; 4]%nat [src h; dst h]).
    rewrite pack_app, Ea, pack_app, Eb. by rewrite pack_word by done.
Qed.

(** The header that is written, with any checksum. *)
Definition ipv4_header (a b : bytes) (h : ipv4) (cs : Z) : bytes :=
  a ++ be_bytes 2 cs ++ b ++ default [] (ip_option h).

(** Room for the options is filled with them. *)
Lemma ipv4_option_written h a b o :
  default [] (ip_option h) = o → length a = 10%nat → length b = 8%nat →
  Z.of_nat (length o) ≤ header_length h * 4 - 20 →
  let hdr := (a ++ be_bytes 2 0 ++ b) ++ replicate (length o) 0 in
  match o with
  | [] => Ret hdr
  | x :: l => if Z.of_nat (length (x :: l)) <=? header_length h * 4 - Z.of_nat ipv4_MIN_LEN
         then Ret (take ipv4_MIN_LEN hdr ++ (x :: l) ++ drop (ipv4_MIN_LEN + length (x :: l)) hdr)
         else Raise AssertionError
  end = Ret (ipv4_header a b h 0).
Proof.
  intros Ho La Lb Hl. unfold ipv4_header. rewrite Ho.
  destruct o as [|x o]; [cbn [length replicate]; by rewrite !app_nil_r|].
  change (Z.of_nat ipv4_MIN_LEN) with 20. rewrite (proj2 (Z.leb_le _ _)) by lia. cbv zeta.
  assert (length (a ++ be_bytes 2 0 ++ b) = ipv4_MIN_LEN) as L by (by rewrite !length_app, La, Lb).
  rewrite <- L, take_app_length, drop_app_add, drop_ge by (by rewrite length_replicate).
  by rewrite app_nil_r, <- !app_assoc.
Qed.

Lemma ipv4_serialized ip p h a b :
  ipv4_wf p h → length a = 10%nat → length b = 8%nat →
  (∀ cs, 0 ≤ cs ≤ 0xffff →
     pack (zip ipv4_PACK_STR (ipv4_fields (ipv4_set_length (full_length p h) h) cs)) = Ret (a ++ be_bytes 2 cs ++ b)) →
  let cs := checksum little_endian (ipv4_header a b h 0) in
  ipv4_serialize ip p h =
    Ret (ipv4_set_csum cs (ipv4_set_length (full_length p h) h), p, ipv4_header a b h cs).
Proof.
  intros Hw La Lb Hp cs. pose proof (option_length p h Hw) as [Ho _]. unfold ipv4_serialize, bytearray.
  destruct Hw as [_ Hl _ _ _ _ _ _ _ _ _ Ht _ _].
  rewrite (proj2 (Z.ltb_ge _ _)) by lia. cbn [mbind outcome_bind].
  assert ((if total_length h =? 0 then ipv4_set_length (header_length h * 4 + Z.of_nat (length p)) h else h) =
          ipv4_set_length (full_length p h) h) as ->.
  { destruct (Z.eqb_spec (total_length h) 0); [done|]. destruct Ht as [|Ht]; [done|]. rewrite <- Ht. by destruct h. }
  set (o := default [] (ip_option h)) in *.
  replace (Z.to_nat (header_length h * 4)) with (20 + length o)%nat by lia. rewrite replicate_add.
  pose proof (pack_into_at _ _ [] (replicate 20 0) (replicate (length o) 0) 0 (Hp 0 ltac:(lia))) as Hin.
  rewrite !length_app, La, Lb in Hin. cbn [app] in Hin. rewrite Hin by done.
  cbn [mbind outcome_bind]. fold o. change (default [] (ip_option (ipv4_set_length (full_length p h) h))) with o.
  change (header_length (ipv4_set_length (full_length p h) h)) with (header_length h).
  rewrite (ipv4_option_written h a b o) by (done || lia). cbn [mbind outcome_bind]. fold cs.
  unfold ipv4_header.
  assert (pack [(2%nat, cs)] = Ret (be_bytes 2 cs)) as E.
  { apply pack_word, checksum_range. }
  rewrite (pack_into_at _ _ a (be_bytes 2 0) (b ++ default [] (ip_option h)) 10 E) by (rewrite ?length_be_bytes; done).
  done.
Qed.

(** What was zero is filled in: the length, and always the checksum. *)
Definition ipv4_computed (h h' : ipv4) : Prop :=
  h = ipv4_set_csum (csum h) (if total_length h =? 0 then ipv4_set_length 0 h' else h').

Lemma ipv4_read p h a b cs z :
  ipv4_wf p h → total_length h = full_length p h → length a = 10%nat → length b = 8%nat → 0 ≤ cs ≤ 0xffff →
  pack (zip ipv4_PACK_STR (ipv4_fields h cs)) = Ret (a ++ be_bytes 2 cs ++ b) →
  ipv4_parser (ipv4_header a b h cs ++ p ++ z) = Ret (Some (ipv4_set_csum cs h), get_packet_type (proto h), Some p).
Proof.
  intros Hw Ht La Lb Hcs E. pose proof (option_length p h Hw) as [Ho Hs].
  pose proof (ipv4_bits p h Hw) as [(_ & Hhl & Hv) (_ & Hof & Hf)].
  unfold ipv4_header. set (o := default [] (ip_option h)) in *.
  set (fixed := a ++ be_bytes 2 cs ++ b) in *.
  assert (length fixed = 20%nat) as Lf by (unfold fixed; by rewrite !length_app, La, Lb).
  replace ((a ++ be_bytes 2 cs ++ b ++ o) ++ p ++ z) with (fixed ++ o ++ p ++ z)
    by (unfold fixed; by rewrite <- !app_assoc).
  unfold ipv4_parser. rewrite (proj1 (unpack_pack ipv4_PACK_STR (ipv4_fields h cs) _ _ eq_refl E)). cbn [mbind outcome_bind ipv4_fields].
  rewrite Hhl, Hv, Hof, Hf. change (Z.of_nat ipv4_MIN_LEN) with 20.
  rewrite (slice_at 20 (header_length h * 4) fixed o) by lia. rewrite <- Hs.
  rewrite (app_assoc fixed), slice_at by (rewrite !length_app; unfold full_length in *; lia).
  by destruct h.
Qed.

#[export] Program Instance ipv4_laws : CodecLaws ipv4 := {|
  wf _ p h := ipv4_wf p h; padding _ _ := []; next_class h := get_packet_type (proto h);
  exact _ := false; cuts _ := true; filled := ipv4_computed
|}.
Next Obligation. intros. constructor. Qed.
Next Obligation.
  intros ip p h Hw. set (h1 := ipv4_set_length (full_length p h) h).
  assert (∀ cs, ipv4_wf p (ipv4_set_csum cs h1)) as Hw1 by (intros cs; destruct Hw; split; cbn; auto).
  destruct (ipv4_packed p (ipv4_set_csum 0 h1) (Hw1 0) eq_refl) as (a & b & La & Lb & Hb & Hn & Hp).
  set (cs := checksum little_endian (ipv4_header a b h 0)).
  exists (ipv4_set_csum cs h1), (ipv4_header a b h cs).
  pose proof (checksum_range little_endian (ipv4_header a b h 0)) as Hcs. fold cs in Hcs.
  split_and!.
  - unfold written. rewrite app_nil_r. exact (ipv4_serialized ip p h a b Hw La Lb Hp).
  - unfold written. rewrite app_nil_r. exact (ipv4_serialized ip p (ipv4_set_csum cs h1) a b (Hw1 cs) La Lb Hp).
  - intros z Hz _. exists (Some p). rewrite app_nil_r. split; [|done].
    exact (ipv4_read p (ipv4_set_csum 0 h1) a b cs z (Hw1 0) eq_refl La Lb Hcs (Hp cs Hcs)).
  - unfold filled, ipv4_computed. destruct (ok_total_length p h Hw) as [E|E]; [|unfold h1; rewrite <- E].
    + destruct h; cbn in *; by subst.
    + clear. destruct (Z.eqb_spec (total_length h) 0); destruct h; cbn in *; by subst.
  - apply Forall_app in Hb as [Ha Hb]. unfold ipv4_header. rewrite !Forall_app.
    split_and!; [done|apply be_bytes_are_bytes|done|apply Hw].
  - intros _. unfold ipv4_header. by rewrite any_nonzero_app, Hn.
Qed.

#[export] Program Instance ipv4_codec_total : CodecTotal ipv4 := {|
  shrinks := false; asserts := false
|}.
Next Obligation.
  intros buf Hb. destruct (unpack_total_or_error ipv4_PACK_STR buf Hb) as [(zs & E & Hz)|E].
  - left. change (parser buf) with (ipv4_parser buf). unfold ipv4_parser. rewrite E.
    apply Forall2_length in Hz. repeat (destruct zs as [|? zs]; try done).
    eexists _, _, _. split; [done|]. cbn [default from_option id].
    match goal with |- context [slice ?i ?j buf] => destruct (slice_bytes i j buf Hb) end.
    split; [done|]. intros _. split; [by eexists|lia].
  - right; left. change (parser buf) with (ipv4_parser buf). unfold ipv4_parser. by rewrite E.
Qed.

(** ** The laws of [udp] *)

(** What [checksum_ip] needs of the packet around. *)
Definition pseudo_ok (ip : ipvx) : Prop :=
  (PacketUtils.version ip = 4 ∨ PacketUtils.version ip = 6) ∧ 0 ≤ PacketUtils.proto ip < 256.

Lemma pseudo_header_ok ip len : pseudo_ok ip → 0 ≤ len < 65536 → ∃ bs, pseudo_header ip len = Ret bs.
Proof.
  intros [Hv Hp] Hl. unfold pseudo_header. destruct Hv as [-> | ->]; cbn -[pack].
  - destruct (pack_ok [(1%nat, 0); (1%nat, PacketUtils.proto ip); (2%nat, len)]) as [bs ->];
      [repeat constructor; cbn; lia|by eexists].
  - destruct (pack_ok [(4%nat, len); (3%nat, 0); (1%nat, PacketUtils.proto ip)]) as [bs ->];
      [repeat constructor; cbn; lia|by eexists].
Qed.

Definition udp_length (p : bytes) : Z := Z.of_nat udp_MIN_LEN + Z.of_nat (length p).

Record udp_wf (ip : option ipvx) (p : bytes) (u : udp) : Prop := {
  ok_src_port : 0 ≤ src_port u < 65536;
  ok_dst_port : 0 ≤ dst_port u < 65536;
  ok_udp_length : udp_length p < 65536;
  ok_u_total_length : u_total_length u = 0 ∨ u_total_length u = udp_length p;
  ok_u_csum : 0 ≤ u_csum u ≤ 0xffff;
  ok_pseudo : u_csum u = 0 → ∃ ip', ip = Some ip' ∧ pseudo_ok ip'
}.

(** What was zero is filled in. *)
Definition udp_computed (u u' : udp) : Prop :=
  u = UdpOf (src_port u') (dst_port u') (if u_total_length u =? 0 then 0 else u_total_length u')
        (if u_csum u =? 0 then 0 else u_csum u').

Lemma udp_read u hdr p z :
  pack (zip udp_PACK_STR (udp_fields u)) = Ret hdr → u_total_length u = udp_length p → length hdr = 8%nat →
  udp_parser (hdr ++ p ++ z) = Ret (Some u, udp_packet_type (src_port u) (dst_port u), Some p).
Proof.
  intros E Ht Hl. unfold udp_parser.
  rewrite (proj1 (unpack_pack udp_PACK_STR (udp_fields u) _ _ eq_refl E)). cbn [mbind outcome_bind udp_fields].
  rewrite slice_at by (rewrite Hl, ?Ht; unfold udp_length; cbn; lia). by destruct u.
Qed.

Lemma udp_packed ip p u cs :
  udp_wf ip p u → 0 ≤ cs ≤ 0xffff →
  let u' := UdpOf (src_port u) (dst_port u) (udp_length p) cs in
  ∃ hdr, pack (zip udp_PACK_STR (udp_fields u')) = Ret hdr ∧ length hdr = 8%nat ∧
    Forall is_byte hdr ∧ any_nonzero hdr = true.
Proof.
  intros Hw Hcs u'. assert (Forall in_width (zip udp_PACK_STR (udp_fields u'))) as Hf.
  { destruct Hw. unfold udp_length in *. repeat constructor; cbn in *; lia. }
  destruct (pack_fields udp_PACK_STR (udp_fields u') Hf eq_refl) as (hdr & E & Hb & Hl & _).
  exists hdr. split_and!; [done|done|done|]. eapply pack_nonzero; [exact Hf|exact E|]. right; right; left.
  cbn. unfold udp_length. cbn. lia.
Qed.

Definition udp_with (p : bytes) (u : udp) (cs : Z) : udp := UdpOf (src_port u) (dst_port u) (udp_length p) cs.

(** The length is filled in first. *)
Lemma udp_serialized ip p u :
  udp_wf ip p u →
  udp_serialize ip p u =
    (h ← pack (zip udp_PACK_STR (udp_fields (udp_with p u (u_csum u))));
     if u_csum u =? 0 then
       match ip with
       | None => Raise AttributeError
       | Some ip =>
           cs ← checksum_ip little_endian ip (udp_length p) (h ++ p);
           h ← pack (zip udp_PACK_STR (udp_fields (udp_with p u cs)));
           Ret (udp_with p u cs, p, h)
       end
     else Ret (udp_with p u (u_csum u), p, h)).
Proof.
  intros Hw. unfold udp_serialize. destruct (Z.eqb_spec (u_total_length u) 0) as [_|Hn]; [done|].
  destruct (ok_u_total_length _ _ _ Hw) as [|Ht]; [done|]. unfold udp_with. rewrite <- Ht. by destruct u.
Qed.

Lemma udp_with_wf ip p u cs :
  udp_wf ip p u → 0 ≤ cs ≤ 0xffff → (u_csum u ≠ 0 → cs = u_csum u) → udp_wf ip p (udp_with p u cs).
Proof.
  intros [? ? ? ? ? Hp] Hcs Hk. split; cbn; auto. intros ->. apply Hp.
  destruct (decide (u_csum u = 0)) as [|Hn]; [done|by rewrite <- (Hk Hn)].
Qed.

(** One pass gives a checksum that a further pass leaves alone. *)
Lemma udp_written ip p u :
  udp_wf ip p u →
  ∃ cs hdr, 0 ≤ cs ≤ 0xffff ∧ (u_csum u ≠ 0 → cs = u_csum u) ∧
    pack (zip udp_PACK_STR (udp_fields (udp_with p u cs))) = Ret hdr ∧
    length hdr = 8%nat ∧ Forall is_byte hdr ∧ any_nonzero hdr = true ∧
    udp_serialize ip p u = Ret (udp_with p u cs, p, hdr) ∧
    udp_serialize ip p (udp_with p u cs) = Ret (udp_with p u cs, p, hdr).
Proof.
  intros Hw. rewrite (udp_serialized ip p u Hw). destruct (Z.eqb_spec (u_csum u) 0) as [E|E].
  - destruct (ok_pseudo _ _ _ Hw E) as (ip' & -> & Hip).
    destruct (pseudo_header_ok ip' (udp_length p) Hip) as [ph Hph];
      [pose proof (ok_udp_length _ _ _ Hw); unfold udp_length in *; lia|].
    destruct (udp_packed _ p u 0 Hw) as (h0 & E0 & _); [lia|]. fold (udp_with p u 0) in E0.
    rewrite E, E0. cbn [mbind outcome_bind]. unfold checksum_ip at 1. rewrite Hph. cbn [mbind outcome_bind].
    set (cs := checksum little_endian (ph ++ h0 ++ p)).
    pose proof (checksum_range little_endian (ph ++ h0 ++ p)) as Hcs. fold cs in Hcs.
    destruct (udp_packed _ p u cs Hw Hcs) as (hdr & E1 & Hl & Hb & Hn). fold (udp_with p u cs) in E1.
    exists cs, hdr. rewrite E1. cbn [mbind outcome_bind]. split_and!; try first [done|lia].
    rewrite udp_serialized by (apply udp_with_wf; done). cbn [udp_with u_csum].
    change (udp_with p (udp_with p u cs)) with (udp_with p u). rewrite E1. cbn [mbind outcome_bind].
    destruct (Z.eqb_spec cs 0) as [Z0|]; [|done]. rewrite Z0 in E1. rewrite E1 in E0. injection E0 as ->.
    unfold checksum_ip. rewrite Hph. cbn [mbind outcome_bind]. fold cs. by rewrite Z0, E1.
  - pose proof (ok_u_csum _ _ _ Hw) as Hcs. destruct (udp_packed _ p u (u_csum u) Hw Hcs) as (hdr & E1 & Hl & Hb & Hn).
    fold (udp_with p u (u_csum u)) in E1. exists (u_csum u), hdr. rewrite E1. cbn [mbind outcome_bind].
    split_and!; try first [done|lia]. rewrite udp_serialized by (by apply udp_with_wf). cbn [udp_with u_csum].
    change (udp_with p (udp_with p u (u_csum u))) with (udp_with p u).
    rewrite E1, (proj2 (Z.eqb_neq _ _) E). done.
Qed.

#[export] Program Instance udp_laws : CodecLaws udp := {|
  wf := udp_wf; padding _ _ := []; next_class u := udp_packet_type (src_port u) (dst_port u);
  exact _ := false; cuts _ := true; filled := udp_computed
|}.
Next Obligation. intros. constructor. Qed.
Next Obligation.
  intros ip p u Hw. destruct (udp_written ip p u Hw) as (cs & hdr & Hcs & Hc & E & Hl & Hb & Hn & H1 & H2).
  eexists _, hdr. split_and!.
  - unfold written. rewrite app_nil_r. exact H1.
  - unfold written. rewrite app_nil_r. exact H2.
  - intros z Hz _. exists (Some p). rewrite app_nil_r. split; [|done]. by apply (udp_read _ hdr p z E).
  - pose proof (ok_u_total_length _ _ _ Hw) as Ht. clear -Ht Hc. destruct u as [sp dp tl c]. unfold udp_computed. cbn in *.
    f_equal; [case Z.eqb_spec; lia|case Z.eqb_spec; [done|]; intros Hn; by rewrite Hc].
  - done.
  - done.
Qed.

#[export] Program Instance udp_codec_total : CodecTotal udp := {|
  shrinks := true; asserts := false
|}.
Next Obligation.
  intros buf Hb. destruct (unpack_total_or_error udp_PACK_STR buf Hb) as [(zs & E & Hz)|E].
  - left. change (parser buf) with (udp_parser buf). unfold udp_parser. rewrite E.
    apply Forall2_length in Hz. destruct zs as [|a [|b [|c [|d [|]]]]]; try done.
    eexists _, _, _. split; [done|]. cbn [default from_option id].
    destruct (slice_bytes (Z.of_nat udp_MIN_LEN) c buf Hb). split; [done|]. intros _. split; [by eexists|].
    apply unpack_length in E.
    unfold slice in *. rewrite length_drop, length_take in *. cbn in E |- *. lia.
  - right; left. change (parser buf) with (udp_parser buf). unfold udp_parser. by rewrite E.
Qed.

(** ** The laws of [icmp] *)

Definition more_ok (data : option bytes) : Prop :=
  match data with Some d => d ≠ [] ∧ Forall is_byte d | None => True end.

(** The payload fits the type. *)
Definition data_ok (type : Z) (d : icmp_data) : Prop :=
  match d with
  | Raw [] => _ICMP_TYPES type = Some c_echo
  | Raw data => _ICMP_TYPES type = None ∧ Forall is_byte data
  | echo id seq data =>
      _ICMP_TYPES type = Some c_echo ∧ 0 ≤ id < 65536 ∧ 0 ≤ seq < 65536 ∧ more_ok data
  | dest_unreach data_len mtu data =>
      _ICMP_TYPES type = Some c_dest_unreach ∧ 0 ≤ data_len < 256 ∧ 0 ≤ mtu < 65536 ∧ more_ok data
  | TimeExceeded data_len data =>
      _ICMP_TYPES type = Some c_TimeExceeded ∧ 0 ≤ data_len < 256 ∧ more_ok data
  end.

Record icmp_wf (p : bytes) (i : icmp) : Prop := {
  ok_type : 0 ≤ i_type i < 256;
  ok_code : 0 ≤ code i < 256;
  ok_icmp_csum : 0 ≤ i_csum i ≤ 0xffff;
  ok_data : data_ok (i_type i) (i_data i);
  ok_last : p = []
}.

Definition data_filled (d : icmp_data) : icmp_data :=
  match d with Raw [] => echo 0 0 None | _ => d end.

(** The fixed fields of a payload and what follows them. *)
Lemma payload_packed c zs data :
  Forall in_width (zip (payload_PACK_STR c) zs) → length (payload_PACK_STR c) = length zs → more_ok data →
  ∃ hdr, pack (zip (payload_PACK_STR c) zs) = Ret hdr ∧ hdr ++ default [] data ≠ [] ∧
    Forall is_byte (hdr ++ default [] data) ∧
    unpack (payload_PACK_STR c) (hdr ++ default [] data) = Ret zs ∧
    let rest := drop (calcsize (payload_PACK_STR c)) (hdr ++ default [] data) in
    (if (0 <? length rest)%nat then Some rest else None) = data.
Proof.
  intros Hw Hl Hm. destruct (pack_fields _ _ Hw Hl) as (hdr & E & Hb & Ln & Hu). exists hdr. split_and!.
  - done.
  - destruct hdr; [|done]. by destruct c.
  - apply Forall_app. split; [done|]. by destruct data; [apply Hm|].
  - apply Hu.
  - rewrite <- Ln, drop_app_length. destruct data as [[|x d]|]; cbn; [by destruct Hm|done..].
Qed.

Definition parse_data (type : Z) (bs : bytes) : outcome pyexn icmp_data :=
  match _ICMP_TYPES type with Some c => payload_parser c bs | None => Ret (Raw bs) end.

Lemma icmp_payload_ok type d :
  data_ok type d →
  ∃ bs, icmp_payload type d = Ret (data_filled d, bs) ∧ icmp_payload type (data_filled d) = Ret (data_filled d, bs) ∧
    bs ≠ [] ∧ Forall is_byte bs ∧ parse_data type bs = Ret (data_filled d).
Proof.
  unfold parse_data. destruct d as [[|x data]|id seq data|len mtu data|len data]; cbn [data_ok data_filled icmp_payload].
  - intros ->. exists [0; 0; 0; 0]. by split_and!; [..|repeat constructor|].
  - intros [-> Hb]. by exists (x :: data).
  - intros (-> & Hi & Hs & Hm). destruct (payload_packed c_echo [id; seq] data) as (hdr & E & Hn & Hb & Hu & Hd);
      [repeat constructor; cbn; lia|done|done|].
    exists (hdr ++ default [] data). cbn [payload_serialize]. rewrite E. split_and!; try done.
    unfold payload_parser. rewrite Hu. cbn [mbind outcome_bind]. by rewrite Hd.
  - intros (-> & Hi & Hs & Hm). destruct (payload_packed c_dest_unreach [0; len; mtu] data) as (hdr & E & Hn & Hb & Hu & Hd);
      [repeat constructor; cbn; lia|done|done|].
    exists (hdr ++ default [] data). cbn [payload_serialize]. rewrite E. split_and!; try done.
    unfold payload_parser. rewrite Hu. cbn [mbind outcome_bind]. by rewrite Hd.
  - intros (-> & Hi & Hm). destruct (payload_packed c_TimeExceeded [0; len; 0] data) as (hdr & E & Hn & Hb & Hu & Hd);
      [repeat constructor; cbn; lia|done|done|].
    exists (hdr ++ default [] data). cbn [payload_serialize]. rewrite E. split_and!; try done.
    unfold payload_parser. rewrite Hu. cbn [mbind outcome_bind]. by rewrite Hd.
Qed.

Lemma icmp_packed p i :
  icmp_wf p i →
  ∃ a, length a = 2%nat ∧ Forall is_byte a ∧
    ∀ cs, 0 ≤ cs ≤ 0xffff → pack (zip icmp_PACK_STR [i_type i; code i; cs]) = Ret (a ++ be_bytes 2 cs).
Proof.
  intros [Ht Hc _ _ _]. destruct (pack_fields [1; 1]%nat [i_type i; code i]) as (a & E & Hb & Hl & _);
    [repeat constructor; cbn; lia|done|].
  exists a. split_and!; [done|done|]. intros cs Hcs.
  change (zip icmp_PACK_STR [i_type i; code i; cs]) with (zip [1; 1]%nat [i_type i; code i] ++ [(2%nat, cs)]).
  rewrite pack_app, E. cbn [mbind outcome_bind]. by rewrite pack_word.
Qed.

(** A message with its checksum is not all zeros. *)
Lemma checked_nonzero a cs bs :
  0 ≤ cs ≤ 0xffff → (cs = 0 → checksum little_endian (a ++ be_bytes 2 0 ++ bs) = 0) →
  any_nonzero (a ++ be_bytes 2 cs ++ bs) = true.
Proof.
  intros Hcs Hz. apply not_false_iff_true. intros H%zeros_none.
  assert (be_value (be_bytes 2 cs) = 0) as E by (by apply zeros_app in H as [_ [H%zeros_value _]%zeros_app]).
  rewrite be_value_bytes in E by (cbn; lia). subst cs. specialize (Hz eq_refl).
  by rewrite (checksum_zeros _ _ H) in Hz.
Qed.

Definition icmp_with (i : icmp) (cs : Z) : icmp := IcmpOf (i_type i) (code i) cs (data_filled (i_data i)).

(** One pass gives a checksum that a further pass leaves alone. *)
Lemma icmp_written ip p i :
  icmp_wf p i →
  ∃ a bs cs, let hdr := a ++ be_bytes 2 cs ++ bs in
    length a = 2%nat ∧ Forall is_byte hdr ∧ any_nonzero hdr = true ∧ (i_csum i ≠ 0 → cs = i_csum i) ∧
    unpack icmp_PACK_STR hdr = Ret [i_type i; code i; cs] ∧ bs ≠ [] ∧
    parse_data (i_type i) bs = Ret (data_filled (i_data i)) ∧
    icmp_serialize ip p i = Ret (icmp_with i cs, p, hdr) ∧ icmp_serialize ip p (icmp_with i cs) = Ret (icmp_with i cs, p, hdr).
Proof.
  intros Hw. destruct (icmp_packed p i Hw) as (a & La & Ba & Ha).
  destruct (icmp_payload_ok _ _ (ok_data _ _ Hw)) as (bs & E1 & E2 & Hn & Bb & Hp).
  set (c0 := checksum little_endian (a ++ be_bytes 2 0 ++ bs)).
  pose proof (checksum_range little_endian (a ++ be_bytes 2 0 ++ bs)) as Hc0. fold c0 in Hc0.
  assert (∀ cs, 0 ≤ cs ≤ 0xffff → pack_into [(2%nat, cs)] (a ++ be_bytes 2 0 ++ bs) 2 = Ret (a ++ be_bytes 2 cs ++ bs)) as Hin.
  { intros cs Hcs. apply pack_into_at; [by apply pack_word|by rewrite !length_be_bytes|done]. }
  exists a, bs, (if i_csum i =? 0 then c0 else i_csum i). cbv zeta.
  assert (0 ≤ (if i_csum i =? 0 then c0 else i_csum i) ≤ 0xffff) as Hcs.
  { case_match; [done|apply Hw]. }
  split_and!; [done|rewrite !Forall_app; split_and!; [done|apply be_bytes_are_bytes|done]| | | |done|done| |].
  - apply checked_nonzero; [done|]. case Z.eqb_spec; [by intros _ H|done].
  - by case Z.eqb_spec.
  - rewrite app_assoc. apply (unpack_pack icmp_PACK_STR [_; _; _] _ bs eq_refl (Ha _ Hcs)).
  - unfold icmp_serialize. rewrite (Ha _ (ok_icmp_csum _ _ Hw)), E1. cbn [mbind outcome_bind].
    destruct (Z.eqb_spec (i_csum i) 0) as [Z0|]; [|by rewrite <- app_assoc].
    rewrite Z0, <- app_assoc. fold c0. by rewrite (Hin _ Hc0).
  - unfold icmp_serialize. cbn [icmp_with i_type code i_csum i_data]. rewrite (Ha _ Hcs), E2. cbn [mbind outcome_bind].
    rewrite <- app_assoc. destruct (Z.eqb_spec (i_csum i) 0) as [Z0|Z0]; [|by rewrite (proj2 (Z.eqb_neq _ _) Z0)].
    destruct (Z.eqb_spec c0 0) as [Y0|]; [|done]. rewrite Y0. fold c0. by rewrite Hin, Y0 by done.
Qed.

#[export] Program Instance icmp_laws : CodecLaws icmp := {|
  wf _ := icmp_wf; padding _ _ := []; next_class _ := None;
  exact _ := true; cuts _ := false;
  filled i i' := i' = icmp_with i (i_csum i') ∧ (i_csum i ≠ 0 → i_csum i' = i_csum i)
|}.
Next Obligation. intros. constructor. Qed.
Next Obligation.
  intros ip p i Hw. destruct (icmp_written ip p i Hw) as (a & bs & cs & La & Hb & Hn & Hc & Hu & Hne & Hp & H1 & H2).
  rewrite (ok_last _ _ Hw) in *. exists (icmp_with i cs), (a ++ be_bytes 2 cs ++ bs).
  split_and!; [exact H1|exact H2| |done|done|done|done].
  intros z _ Hz. rewrite Hz by done. exists None. split; [|done]. rewrite !app_nil_r.
  change (parser (a ++ be_bytes 2 cs ++ bs)) with (icmp_parser (a ++ be_bytes 2 cs ++ bs)).
  unfold icmp_parser. rewrite Hu. cbn [mbind outcome_bind].
  assert (drop icmp_MIN_LEN (a ++ be_bytes 2 cs ++ bs) = bs) as ->.
  { rewrite app_assoc. apply drop_app_length'. by rewrite length_app, length_be_bytes, La. }
  destruct bs as [|b bs]; [done|]. cbn [length Nat.ltb Nat.leb]. fold (parse_data (i_type i) (b :: bs)). by rewrite Hp.
Qed.

#[export] Program Instance icmp_codec_total : CodecTotal icmp := {|
  shrinks := true; asserts := false
|}.
Next Obligation.
  intros buf Hb. change (parser buf) with (icmp_parser buf). unfold icmp_parser.
  destruct (unpack_total_or_error icmp_PACK_STR buf Hb) as [(zs & E & Hz)|E]; rewrite E; [|by right; left].
  apply Forall2_length in Hz. destruct zs as [|type [|cd [|cs [|]]]]; try done. cbn [mbind outcome_bind].
  set (rest := drop icmp_MIN_LEN buf).
  assert (∀ data : icmp_data, ∃ h (next : option proto_class) (rest' : option bytes),
    Ret (Some (IcmpOf type cd cs data), None, None) = (Ret (h, next, rest') : outcome pyexn _) ∧
    Forall is_byte (default [] rest') ∧ (is_Some next → is_Some rest' ∧ length (default [] rest') + 1 ≤ length buf)%nat) as Hr.
  { intros data. eexists _, None, None. split; [done|]. split; [constructor|by intros [? [=]]]. }
  destruct (0 <? length rest)%nat; [|left; apply Hr]. destruct (_ICMP_TYPES type) as [c|]; [|left; apply Hr].
  unfold payload_parser.
  destruct (unpack_total_or_error (payload_PACK_STR c) rest) as [(zs & E' & Hz')|E']; [by apply Forall_drop|left|right; left; by rewrite E'].
  rewrite E'. apply Forall2_length in Hz'.
  destruct c, zs as [|? [|? [|? [|]]]]; try done; apply Hr.
Qed.

(** ** Checksums that verify *)

(** The header of every IPv4 packet that is written, with its options, has the checksum 0 at a
    receiver of either byte order. *)
Theorem ipv4_verifies receiver ip p h :
  ipv4_wf p h → ∃ h' hdr, ipv4_serialize ip p h = Ret (h', p, hdr) ∧ checksum receiver hdr = 0.
Proof.
  intros Hw. set (h1 := ipv4_set_length (full_length p h) h).
  assert (ipv4_wf p h1) as Hw1 by (destruct Hw; split; cbn; auto).
  destruct (ipv4_packed p h1 Hw1 eq_refl) as (a & b & La & Lb & Hb & _ & Hp). eexists _, _.
  split; [exact (ipv4_serialized ip p h a b Hw La Lb Hp)|].
  apply Forall_app in Hb as [Ha Hb]. unfold ipv4_header. pose proof (option_length p h Hw) as [Ho _].
  apply (checksum_filled little_endian receiver a (b ++ default [] (ip_option h))); [done| |by rewrite La|].
  - rewrite Forall_app. split; [done|apply Hw].
  - rewrite length_app, La, Lb. destruct Hw. lia.
Qed.

(** What the pseudo header is made of, for the checksum of what follows it. *)
Lemma pseudo_header_bytes ip len bs :
  pseudo_header ip len = Ret bs → Forall is_byte (PacketUtils.src ip) → Forall is_byte (PacketUtils.dst ip) →
  length (PacketUtils.src ip) = length (PacketUtils.dst ip) → (length (PacketUtils.src ip) ≤ 16)%nat →
  Forall is_byte bs ∧ Z.of_nat (length bs) mod 2 = 0 ∧ (length bs ≤ 40)%nat.
Proof.
  intros E Hs Hd Hl Hn. unfold pseudo_header in E.
  assert (∀ fs : list (nat * Z), Z.of_nat (calcsize fs.*1) mod 2 = 0 → (calcsize fs.*1 ≤ 8)%nat →
    (tail ← pack fs; Ret (PacketUtils.src ip ++ PacketUtils.dst ip ++ tail)) = Ret bs →
    Forall is_byte bs ∧ Z.of_nat (length bs) mod 2 = 0 ∧ (length bs ≤ 40)%nat) as H.
  { intros fs He H8 Ef. destruct (pack fs) as [tail|] eqn:Et; [|done]. injection Ef as <-.
    rewrite !Forall_app, !length_app, <- Hl, (pack_length fs tail Et). split_and!; [done|done|by eapply pack_bytes| |lia].
    rewrite !Nat2Z.inj_add. replace (Z.of_nat (length (PacketUtils.src ip)) + (Z.of_nat (length (PacketUtils.src ip)) + Z.of_nat (calcsize fs.*1)))
      with (Z.of_nat (calcsize fs.*1) + Z.of_nat (length (PacketUtils.src ip)) * 2) by lia. by rewrite Z.mod_add. }
  repeat case_match; [..|done]; revert E; apply H; cbn; (done || lia).
Qed.

(** A datagram that is written without a checksum in it is given one with which the pseudo
    header and the datagram have the checksum 0 at a receiver of either byte order. *)
Theorem udp_verifies receiver ip p u :
  udp_wf (Some ip) p u → u_csum u = 0 → Forall is_byte p →
  Forall is_byte (PacketUtils.src ip) → Forall is_byte (PacketUtils.dst ip) →
  length (PacketUtils.src ip) = length (PacketUtils.dst ip) → (length (PacketUtils.src ip) ≤ 16)%nat →
  ∃ u' hdr ph, udp_serialize (Some ip) p u = Ret (u', p, hdr) ∧ pseudo_header ip (u_total_length u') = Ret ph ∧
    checksum receiver (ph ++ hdr ++ p) = 0.
Proof.
  intros Hw E Hp Hs Hd Hl Hn. pose proof (ok_udp_length _ _ _ Hw) as H16.
  destruct (ok_pseudo _ _ _ Hw E) as (? & [= <-] & Hip).
  destruct (pseudo_header_ok ip (udp_length p) Hip) as [ph Hph]; [unfold udp_length in *; lia|].
  destruct (pseudo_header_bytes ip _ ph Hph Hs Hd Hl Hn) as (Bph & Eph & Lph).
  destruct (pack_fields [2; 2; 2]%nat [src_port u; dst_port u; udp_length p]) as (a & Ea & Ba & La & _);
    [destruct Hw; unfold udp_length in *; repeat constructor; cbn in *; lia|done|].
  assert (∀ cs, 0 ≤ cs ≤ 0xffff → pack (zip udp_PACK_STR (udp_fields (udp_with p u cs))) = Ret (a ++ be_bytes 2 cs)) as Hpk.
  { intros cs Hcs. change (zip udp_PACK_STR (udp_fields (udp_with p u cs)))
      with (zip [2; 2; 2]%nat [src_port u; dst_port u; udp_length p] ++ [(2%nat, cs)]).
    rewrite pack_app, Ea. cbn [mbind outcome_bind]. by rewrite pack_word. }
  rewrite (udp_serialized _ p u Hw), E, (Hpk 0) by lia. cbn [mbind outcome_bind Z.eqb].
  unfold checksum_ip. rewrite Hph. cbn [mbind outcome_bind].
  set (cs := checksum little_endian (ph ++ (a ++ be_bytes 2 0) ++ p)).
  pose proof (checksum_range little_endian (ph ++ (a ++ be_bytes 2 0) ++ p)) as Hcs. fold cs in Hcs.
  rewrite (Hpk cs Hcs). cbn [mbind outcome_bind]. exists (udp_with p u cs), (a ++ be_bytes 2 cs), ph.
  split_and!; [done|done|]. rewrite <- !app_assoc, app_assoc.
  destruct (checksum_filled little_endian receiver (ph ++ a) p) as [_ Hz].
  - by apply Forall_app.
  - done.
  - rewrite length_app, La, Nat2Z.inj_add, Zplus_mod, Eph. done.
  - rewrite length_app, La. unfold udp_length in H16. cbn in H16 |- *. lia.
  - rewrite <- Hz. unfold cs. by rewrite <- !app_assoc.
Qed.
End ip.

(** ** Examples *)

(** A header with a router alert, and a datagram between its addresses. *)
Definition a_header : ipv4 := Ipv4Of 4 6 0 0 7 2 0 1 IPPROTO_UDP 0 0x0a000001 0xe0000001 (Some [148; 4; 0; 0]).

Lemma ipv4_verifies_witness :
  ∃ h' hdr, ipv4_serialize true None [1; 2; 3] a_header = Ret (h', [1; 2; 3], hdr) ∧ checksum false hdr = 0.
Proof.
  apply (ipv4_verifies true false None [1; 2; 3] a_header).
  split; try (cbn; lia); try done; [repeat constructor; done|by eexists].
Defined.

Definition an_ip : ipvx := Ipvx 4 [10; 0; 0; 1] [224; 0; 0; 1] IPPROTO_UDP.

Lemma udp_verifies_witness :
  ∃ u' hdr ph, udp_serialize true (Some an_ip) [1; 2; 3] (UdpOf 520 520 0 0) = Ret (u', [1; 2; 3], hdr) ∧
    pseudo_header an_ip (u_total_length u') = Ret ph ∧ checksum false (ph ++ hdr ++ [1; 2; 3]) = 0.
Proof.
  apply (udp_verifies true false an_ip [1; 2; 3] (UdpOf 520 520 0 0)); try done; try by repeat constructor.
  split; try (cbn; lia); [by unfold udp_length; cbn|].
  intros _. eexists. split; [done|]. split; [by left|done].
Defined.
