(* ===== verification/Packet.v ===== *)
(** * Packets

    Models the class [Packet] of [ryu/lib/packet/packet.py]: a packet is a stack of headers,
    outermost first, and perhaps bytes at the end.  The headers are those of [EtherCodecs] and
    [IpCodecs]; the classes that are not modelled are given by an instance of [Foreign].  The
    round trip of their headers is a hypothesis, [ForeignLaws]; of what they do with arbitrary
    bytes nothing is assumed. *)

From stdpp Require Import base list strings.
From Stdlib Require Import ZArith Lia.
From S2P Require Import Prelude Struct PacketUtils Ofp PacketBase EtherCodecs IpCodecs.
From S2P Require Lacp.

Open Scope Z_scope.
Set Default Proof Using "Type".

(** ** The other classes *)

(** The objects of the classes that are not modelled, their encoders and decoders by the name
    of the class, what [checksum_ip] reads of them and whether they are true as a condition, by
    their [__len__]. *)
Class Foreign := {
  object : Type;
  foreign_codec : string → Codec object;
  foreign_ip : object → option ipvx;
  foreign_true : object → bool
}.

Class ForeignLaws (FO : Foreign) := {
  foreign_laws : ∀ n, @CodecLaws object (foreign_codec n);
  foreign_same n f f' : @filled _ _ (foreign_laws n) f f' →
    foreign_ip f' = foreign_ip f ∧ foreign_true f' = foreign_true f ∧
    @next_class _ _ (foreign_laws n) f' = @next_class _ _ (foreign_laws n) f
}.

Section packet.
Context (little_endian : bool) {REG : Registry} {FO : Foreign}.

(** ** Headers of any class *)

Inductive protocol :=
| Ethernet (h : ethernet)
| Vlan (h : _vlan)
| Svlan (h : _vlan)
| Mpls (h : mpls)
| Arp (h : arp)
| Lacp (h : Lacp.lacp)
| Ipv4 (h : ipv4)
| Udp (h : udp)
| Icmp (h : icmp)
| Other (n : string) (h : object)
| Payload (data : bytes).

#[local] Existing Instance ethernet_codec.
#[local] Instance le_ipv4_codec : Codec ipv4 := ipv4_codec little_endian.
#[local] Instance le_udp_codec : Codec udp := udp_codec little_endian.
#[local] Instance le_icmp_codec : Codec icmp := icmp_codec little_endian.

(** [cls.parser(buf)]. *)
Definition parse_as {H} `{!Codec H} (k : H → protocol) (buf : bytes) :
    outcome pyexn (option protocol * option proto_class * option bytes) :=
  '(h, next, rest) ← parser (H:=H) buf; Ret (fmap (M:=option) k h, next, rest).

Definition class_parser (c : proto_class) : bytes → outcome pyexn (option protocol * option proto_class * option bytes) :=
  match c with
  | c_ethernet => parse_as Ethernet
  | c_vlan => parse_as Vlan
  | c_svlan => parse_as Svlan
  | c_mpls => parse_as Mpls
  | c_arp => parse_as Arp
  | c_slow => parse_as Lacp
  | c_ipv4 => parse_as Ipv4
  | c_udp => parse_as Udp
  | c_icmp => parse_as Icmp
  | c_foreign n => @parse_as _ (foreign_codec n) (Other n)
  end.

(** [p.serialize(self.data, prev)], or the bytes themselves. *)
Definition serialize_as {H} `{!Codec H} (k : H → protocol) (prev : option ipvx) (payload : bytes) (h : H) :
    outcome pyexn (protocol * bytes * bytes) :=
  '(h, payload, hdr) ← serialize prev payload h; Ret (k h, payload, hdr).

Definition serialize_protocol (prev : option ipvx) (payload : bytes) (p : protocol) :
    outcome pyexn (protocol * bytes * bytes) :=
  match p with
  | Ethernet h => serialize_as Ethernet prev payload h
  | Vlan h => serialize_as Vlan prev payload h
  | Svlan h => serialize_as Svlan prev payload h
  | Mpls h => serialize_as Mpls prev payload h
  | Arp h => serialize_as Arp prev payload h
  | Lacp h => serialize_as Lacp prev payload h
  | Ipv4 h => serialize_as Ipv4 prev payload h
  | Udp h => serialize_as Udp prev payload h
  | Icmp h => serialize_as Icmp prev payload h
  | Other n h => @serialize_as _ (foreign_codec n) (Other n) prev payload h
  | Payload data => Ret (p, payload, data)
  end.

(** What [checksum_ip] reads of the packet around: a version and addresses, which a LACP
    packet and most others have not. *)
Definition outer_ip (p : option protocol) : option ipvx :=
  match p with
  | Some (Ipv4 h) => Some (Ipvx (IpCodecs.version h) (be_bytes 4 (IpCodecs.src h)) (be_bytes 4 (IpCodecs.dst h)) (IpCodecs.proto h))
  | Some (Lacp h) =>
      if (Lacp.version h =? 4) || (Lacp.version h =? 6) then None else Some (Ipvx (Lacp.version h) [] [] 0)
  | Some (Other n h) => foreign_ip h
  | _ => None
  end.

(** [if proto:], that is whether its length is not zero. *)
Definition true_protocol (p : protocol) : bool :=
  match p with
  | Ipv4 h => negb (header_length h * 4 =? 0)
  | Other n h => foreign_true h
  | Payload data => (0 <? length data)%nat
  | _ => true
  end.

(** ** The class [Packet] *)

(** [for i, p in enumerate(r)]: [r] has the innermost header first. *)
Fixpoint serialize_loop (data : bytes) (r : list protocol) : outcome pyexn (list protocol * bytes) :=
  match r with
  | [] => Ret ([], data)
  | p :: r =>
      '(p, data, hdr) ← serialize_protocol (outer_ip (head r)) data p;
      '(r, data) ← serialize_loop (hdr ++ data) r;
      Ret (p :: r, data)
  end.

(** The protocols as they are afterwards, and [self.data]. *)
Definition serialize (protocols : list protocol) : outcome pyexn (list protocol * bytes) :=
  '(r, data) ← serialize_loop [] (reverse protocols); Ret (reverse r, data).

(** The rest, unless it is all padding. *)
Definition append_rest (rest : option bytes) : list protocol :=
  match rest with Some data => if any_nonzero data then [Payload data] else [] | None => [] end.

(** [while cls]. *)
Fixpoint parse_loop (fuel : nat) (cls : option proto_class) (rest : option bytes) : outcome pyexn (list protocol) :=
  match cls, fuel with
  | None, _ => Ret (append_rest rest)
  | Some _, O => Raise OutOfFuel
  | Some c, S fuel =>
      match rest with
      | None => Raise TypeError
      | Some buf =>
          if any_nonzero buf then
            match class_parser c buf with
            | Ret (proto, cls, rest) =>
                ps ← parse_loop fuel cls rest;
                Ret (match proto with Some p => if true_protocol p then p :: ps else ps | None => ps end)
            | Raise StructError => Ret (append_rest rest)
            | Raise e => Raise e
            end
          else Ret (append_rest rest)
      end
  end.

(** [Packet(data, parse_cls=cls).protocols]. *)
Definition packet_protocols (fuel : nat) (cls : proto_class) (data : bytes) : outcome pyexn (list protocol) :=
  match data with [] => Ret [] | _ => parse_loop fuel (Some cls) (Some data) end.

(** ** The laws of a header of any class *)

Section laws.
#[local] Set Default Proof Using "Type*".
Context {FL : ForeignLaws FO}.

#[local] Instance le_ipv4_laws : CodecLaws ipv4 := ipv4_laws little_endian.
#[local] Instance le_udp_laws : CodecLaws udp := udp_laws little_endian.
#[local] Instance le_icmp_laws : CodecLaws icmp := icmp_laws little_endian.

Definition p_wf (prev : option ipvx) (payload : bytes) (p : protocol) : Prop :=
  match p with
  | Ethernet h => wf prev payload h
  | Vlan h | Svlan h => wf prev payload h
  | Mpls h => wf prev payload h
  | Arp h => wf prev payload h
  | Lacp h => wf prev payload h
  | Ipv4 h => wf prev payload h
  | Udp h => wf prev payload h
  | Icmp h => wf prev payload h
  | Other n h => @wf _ _ (foreign_laws n) prev payload h
  | Payload data => payload = [] ∧ Forall is_byte data ∧ any_nonzero data = true
  end.

Definition p_padding (payload : bytes) (p : protocol) : bytes :=
  match p with
  | Ethernet h => padding payload h
  | Other n h => @padding _ _ (foreign_laws n) payload h
  | _ => []
  end.

Definition p_next (p : protocol) : option proto_class :=
  match p with
  | Ethernet h => next_class h
  | Vlan h | Svlan h => next_class h
  | Mpls h => next_class h
  | Ipv4 h => next_class h
  | Udp h => next_class h
  | Other n h => @next_class _ _ (foreign_laws n) h
  | Arp _ | Lacp _ | Icmp _ | Payload _ => None
  end.

Definition p_exact (p : protocol) : bool :=
  match p with
  | Lacp _ | Icmp _ | Payload _ => true
  | Other n h => @exact _ _ (foreign_laws n) h
  | _ => false
  end.

Definition p_cuts (p : protocol) : bool :=
  match p with
  | Ipv4 _ | Udp _ => true
  | Other n h => @cuts _ _ (foreign_laws n) h
  | _ => false
  end.

(** The same header with what was zero or empty computed. *)
Inductive p_filled : protocol → protocol → Prop :=
| filled_same p : p_filled p p
| filled_ipv4 h h' : filled h h' → p_filled (Ipv4 h) (Ipv4 h')
| filled_udp h h' : filled h h' → p_filled (Udp h) (Udp h')
| filled_icmp h h' : filled h h' → p_filled (Icmp h) (Icmp h')
| filled_other n h h' : @filled _ _ (foreign_laws n) h h' → p_filled (Other n h) (Other n h').

(** The class that reads a header; bytes are read by none. *)
Definition class_of (p : protocol) : option proto_class :=
  match p with
  | Ethernet _ => Some c_ethernet | Vlan _ => Some c_vlan | Svlan _ => Some c_svlan | Mpls _ => Some c_mpls
  | Arp _ => Some c_arp | Lacp _ => Some c_slow | Ipv4 _ => Some c_ipv4 | Udp _ => Some c_udp | Icmp _ => Some c_icmp
  | Other n _ => Some (c_foreign n)
  | Payload _ => None
  end.

(** Filling in does not change what is read of the packet around. *)
Lemma filled_seen p p' :
  p_filled p p' → outer_ip (Some p') = outer_ip (Some p) ∧ true_protocol p' = true_protocol p ∧ class_of p' = class_of p.
Proof.
  intros [ |h h' H|h h' H|h h' H|n h h' H]; [done| |done|done|].
  - unfold filled in H. cbn in H. unfold ipv4_computed in H. rewrite H. by case_match; destruct h'.
  - apply foreign_same in H. naive_solver.
Qed.

(** A header is written and read again in its class. *)
Definition law (prev : option ipvx) (d : bytes) (p : protocol) (c : proto_class) : Prop :=
  ∃ p' hdr, serialize_protocol prev d p = Ret (p', d ++ p_padding d p, hdr) ∧
    serialize_protocol prev d p' = Ret (p', d ++ p_padding d p, hdr) ∧
    p_filled p p' ∧ Forall is_byte hdr ∧ (p_next p = None → any_nonzero hdr = true) ∧
    ∀ z, zeros z → (p_exact p = true → z = []) →
      ∃ rest, class_parser c (hdr ++ d ++ p_padding d p ++ z) = Ret (Some p', p_next p, rest) ∧
        default [] rest = d ++ (if p_cuts p then [] else p_padding d p ++ z).

Lemma lift_law {H} `{!Codec H} `{!CodecLaws H} (k : H → protocol) prev d h c :
  wf prev d h →
  (∀ h, serialize_protocol prev d (k h) = serialize_as k prev d h) → class_parser c = parse_as k →
  p_padding d (k h) = padding d h → p_next (k h) = next_class h → p_exact (k h) = exact h → p_cuts (k h) = cuts h →
  (∀ h', filled h h' → p_filled (k h) (k h')) → law prev d (k h) c.
Proof.
  intros Hw Hs Hp E1 E2 E3 E4 Hf.
  destruct (write_read prev d h Hw) as (h' & hdr & H1 & H2 & Hr & Hfi & Hb & Hn). unfold written, read_back in *.
  exists (k h'), hdr. rewrite !Hs, Hp, E1, E2, E3, E4. unfold serialize_as, parse_as. rewrite H1, H2. split_and!; auto.
  intros z Hz He. destruct (Hr z Hz He) as (rest & -> & Hd). by exists rest.
Qed.

Lemma protocol_law prev d p c : p_wf prev d p → class_of p = Some c → law prev d p c.
Proof.
  intros Hw. destruct p; intros [= <-];
    lazymatch goal with
    | |- law _ _ (Other ?n _) _ => apply (@lift_law _ (foreign_codec n) (foreign_laws n))
    | _ => apply lift_law
    end; try done; cbn; intros; subst; by constructor.
Qed.

(** ** Stacks of headers *)

(** The encoder from the outside in; it is what the loop does. *)
Fixpoint stack_bytes (prev : option protocol) (ps : list protocol) : outcome pyexn (list protocol * bytes) :=
  match ps with
  | [] => Ret ([], [])
  | p :: ps =>
      '(ps, d) ← stack_bytes (Some p) ps;
      '(p, d, hdr) ← serialize_protocol (outer_ip prev) d p;
      Ret (p :: ps, hdr ++ d)
  end.

Lemma serialize_loop_stack ps r :
  serialize_loop [] (reverse ps ++ r) =
    ('(ps, d) ← stack_bytes (head r) ps; '(r, d) ← serialize_loop d r; Ret (reverse ps ++ r, d)).
Proof.
  revert r. induction ps as [|p ps IH]; intros r.
  - cbn. by destruct (serialize_loop [] r) as [[? ?]|].
  - rewrite reverse_cons, <- app_assoc. cbn [app]. rewrite (IH (p :: r)). cbn [stack_bytes head].
    destruct (stack_bytes (Some p) ps) as [[ps' d]|]; [|done]. cbn [mbind outcome_bind serialize_loop].
    destruct (serialize_protocol (outer_ip (head r)) d p) as [[[p' d'] hdr]|]; [|done]. cbn [mbind outcome_bind].
    destruct (serialize_loop (hdr ++ d') r) as [[qs d'']|]; [|done]. cbn [mbind outcome_bind].
    by rewrite reverse_cons, <- app_assoc.
Qed.

Lemma serialize_stack ps : serialize ps = stack_bytes None ps.
Proof.
  unfold serialize. rewrite <- (app_nil_r (reverse ps)), serialize_loop_stack.
  destruct (stack_bytes (head []) ps) as [[ps' d]|] eqn:E; cbn in *; rewrite E; [|done]. cbn.
  by rewrite app_nil_r, reverse_involutive.
Qed.

(** Every header fits, in its packet and for its payload, and names the class of the next one;
    the last names none.  [z] are the zeros that the headers around have put after it. *)
Fixpoint stack_ok (prev : option protocol) (z : bytes) (ps : list protocol) : Prop :=
  match ps with
  | [] => True
  | p :: ps =>
      ∃ ps' d, stack_bytes (Some p) ps = Ret (ps', d) ∧
        p_wf (outer_ip prev) d p ∧ true_protocol p = true ∧ (p_exact p = true → z = []) ∧
        match ps with [] => p_next p = None | q :: _ => p_next p = class_of q ∧ class_of p ≠ None end ∧
        stack_ok (Some p) (if p_cuts p then [] else p_padding d p ++ z) ps
  end.

Definition stack_class (ps : list protocol) : option proto_class := head ps ≫= class_of.

(** What is written, written again and read, for some of the headers of a packet. *)
Definition restored (prev : option protocol) (z : bytes) (ps ps' : list protocol) (d : bytes) : Prop :=
  (∀ prev', outer_ip prev' = outer_ip prev → stack_bytes prev' ps = Ret (ps', d) ∧ stack_bytes prev' ps' = Ret (ps', d)) ∧
  Forall2 p_filled ps ps' ∧ Forall is_byte d ∧ (ps ≠ [] → any_nonzero d = true) ∧
  ∀ fuel, (length ps < fuel)%nat → parse_loop fuel (stack_class ps) (Some (d ++ z)) = Ret ps'.

Lemma parse_loop_rest fuel cls rest buf ps :
  parse_loop fuel cls (Some buf) = Ret ps → default [] rest = buf → (is_Some cls → buf ≠ []) →
  parse_loop fuel cls rest = Ret ps.
Proof.
  intros E Hr Hc. destruct rest as [r|]; cbn in Hr; [by subst|]. subst buf.
  destruct cls as [c|]; [by destruct (Hc ltac:(by eexists))|]. by destruct fuel.
Qed.

Lemma restored_payload prev data : p_wf (outer_ip prev) [] (Payload data) → restored prev [] [Payload data] [Payload data] data.
Proof.
  intros (_ & Hb & Hn). split_and!; [|by repeat constructor|done|done|].
  - intros prev' _. cbn. by rewrite app_nil_r.
  - intros [|fuel] Hf; [cbn in Hf; lia|]. rewrite app_nil_r. cbn. by rewrite Hn.
Qed.

Lemma p_padding_zeros d p : zeros (p_padding d p).
Proof.
  destruct p; cbn; try constructor; [apply zeros_replicate|].
  apply (@padding_zeros _ _ (foreign_laws n)).
Qed.

Lemma zeros_bytes l : zeros l → Forall is_byte l.
Proof. intros H. eapply Forall_impl; [exact H|]. by intros ? ->. Qed.

(** One header more. *)
Lemma restored_cons prev z p ps ps' d c :
  zeros z → class_of p = Some c → p_wf (outer_ip prev) d p → true_protocol p = true → (p_exact p = true → z = []) →
  p_next p = stack_class ps → (ps = [] → d = []) →
  restored (Some p) (if p_cuts p then [] else p_padding d p ++ z) ps ps' d →
  ∃ p' d', restored prev z (p :: ps) (p' :: ps') d'.
Proof.
  intros Hz Hc Hw Ht He Hnext H0 (Hs & Hf & Hb & Hn & Hp).
  destruct (protocol_law _ _ _ _ Hw Hc) as (p' & hdr & S1 & S2 & Hfi & Hbh & Hnh & Hr).
  destruct (filled_seen _ _ Hfi) as (Ho & Ht' & Hc').
  assert (any_nonzero (hdr ++ d) = true) as Hnz.
  { rewrite any_nonzero_app, orb_true_iff. destruct ps as [|q ps]; [left; auto|right; by apply Hn]. }
  exists p', (hdr ++ d ++ p_padding d p). split_and!.
  - intros prev' Hprev. cbn [stack_bytes]. destruct (Hs (Some p) eq_refl) as [-> _]. destruct (Hs (Some p') Ho) as [_ ->].
    cbn [mbind outcome_bind]. rewrite Hprev, S1, S2. done.
  - by constructor.
  - rewrite !Forall_app. split_and!; [done|done|]. apply zeros_bytes, p_padding_zeros.
  - intros _. by rewrite app_assoc, any_nonzero_app, Hnz.
  - intros [|fuel] Hl; cbn [length] in Hl; [lia|]. unfold stack_class. cbn [head mbind option_bind]. rewrite Hc.
    cbn [parse_loop]. rewrite <- !app_assoc. destruct (Hr z Hz He) as (rest & Hcp & Hd). rewrite Hcp.
    rewrite (app_assoc hdr), any_nonzero_app, Hnz. cbn [orb].
    rewrite (parse_loop_rest fuel (p_next p) rest (d ++ (if p_cuts p then [] else p_padding d p ++ z)) ps');
      [by rewrite Ht', Ht|rewrite Hnext; apply Hp; lia|done|].
    rewrite Hnext. intros [c' Hc'']. destruct ps as [|q ps]; [done|]. specialize (Hn ltac:(done)).
    destruct d; [done|]. intros [=].
Qed.

Lemma stack_restored prev z ps : stack_ok prev z ps → zeros z → ∃ ps' d, restored prev z ps ps' d.
Proof.
  revert prev z. induction ps as [|p ps IH]; intros prev z.
  { intros _ Hz. exists [], []. split_and!; [done|by constructor|by constructor|done|].
    intros fuel _. change (parse_loop fuel None (Some z) = Ret []).
    destruct fuel; cbn [parse_loop append_rest]; by rewrite (proj1 (zeros_none z) Hz). }
  intros (ps0 & d0 & E0 & Hw & Ht & He & Hnext & Hok) Hz.
  destruct (IH _ _ Hok) as (ps' & d & Hres).
  { case_match; [constructor|]. apply zeros_app. split; [apply p_padding_zeros|done]. }
  pose proof (proj1 Hres (Some p) eq_refl) as [E _]. rewrite E in E0. injection E0 as -> ->.
  destruct (class_of p) as [c|] eqn:Hc.
  - destruct (restored_cons prev z p ps ps0 d0 c) as (p' & d' & H); try done; [| |by eauto].
    + destruct ps as [|q ps]; [done|]. apply Hnext.
    + intros ->. by injection E as <- <-.
  - destruct p; try done. destruct ps as [|q ps]; [|by destruct Hnext].
    injection E as <- <-. rewrite He by done. eexists _, _. by apply restored_payload.
Qed.

(** C22: Any stack of headers that fit and name each other is encoded, with the lengths and the
    checksums that were left open and with padding.  Decoding the bytes from the class of the
    outermost header gives the headers back as they were encoded, and encoding those again gives
    the same bytes. *)
Theorem packet_roundtrip ps c :
  stack_ok None [] ps → stack_class ps = Some c →
  ∃ ps' data, serialize ps = Ret (ps', data) ∧ Forall2 p_filled ps ps' ∧
    packet_protocols (S (length ps)) c data = Ret ps' ∧ serialize ps' = Ret (ps', data).
Proof.
  intros Hok Hc. destruct (stack_restored None [] ps Hok) as (ps' & d & Hs & Hf & _ & Hn & Hp); [constructor|].
  exists ps', d. rewrite !serialize_stack. destruct (Hs None eq_refl) as [S1 S2]. split_and!; [done|done| |done].
  specialize (Hp (S (length ps)) ltac:(lia)). rewrite app_nil_r, Hc in Hp. unfold packet_protocols.
  destruct d; [|done]. destruct ps; [done|]. by specialize (Hn ltac:(done)).
Qed.

End laws.

(** ** What the decoder accepts *)

#[local] Instance le_ipv4_total : CodecTotal ipv4 := ipv4_codec_total little_endian.
#[local] Instance le_udp_total : CodecTotal udp := udp_codec_total little_endian.
#[local] Instance le_icmp_total : CodecTotal icmp := icmp_codec_total little_endian.

Definition modelled (c : proto_class) : bool := match c with c_foreign _ => false | _ => true end.

(** The decoders that leave less for the next class. *)
Definition class_shrinks (c : proto_class) : bool := match c with c_ipv4 => false | _ => true end.

Definition class_total (c : proto_class) (buf : bytes) : Prop :=
  (∃ p next rest, class_parser c buf = Ret (p, next, rest) ∧ Forall is_byte (default [] rest) ∧
     (is_Some next → is_Some rest ∧ length (default [] rest) + (if class_shrinks c then 1 else 0) ≤ length buf)%nat ∧
     (class_shrinks c = false → next ≠ Some c_ipv4)) ∨
  class_parser c buf = Raise StructError ∨ (c = c_slow ∧ class_parser c buf = Raise AssertionError).

Lemma lift_total {H} `{!Codec H} `{!CodecTotal H} (k : H → protocol) c buf :
  Forall is_byte buf → class_parser c = parse_as k → shrinks = true → class_shrinks c = true →
  (asserts = true → c = c_slow) → class_total c buf.
Proof.
  intros Hb Hc Hs Ht Ha. unfold class_total. rewrite Hc, Ht. unfold parse_as.
  destruct (parser_total buf Hb) as [(h & next & rest & -> & Hbr & Hl)|[-> |[E ->]]];
    [left|by right; left|right; right; by auto].
  eexists _, _, _. split; [done|]. split_and!; [done|by rewrite Hs in Hl|done].
Qed.

Lemma ipv4_total buf : Forall is_byte buf → class_total c_ipv4 buf.
Proof.
  intros Hb. unfold class_total. cbn [class_parser]. unfold parse_as.
  destruct (parser_total (H:=ipv4) buf Hb) as [(h & next & rest & E & Hbr & Hl)|[-> |[[=] _]]]; [left|by right; left].
  rewrite E. eexists _, _, _. split; [done|]. split_and!; [done|done|]. intros _ ->.
  change (ipv4_parser buf = Ret (h, Some c_ipv4, rest)) in E. unfold ipv4_parser in E.
  destruct (unpack ipv4_PACK_STR buf) as [zs|] eqn:Ez; [|done]. cbn [mbind outcome_bind] in E.
  repeat (destruct zs as [|? zs]; try done). injection E as _ E _. apply get_packet_type_ipv4 in E as ->.
  destruct (unpack_total_or_error ipv4_PACK_STR buf Hb) as [(zs & E & Hz)|E]; rewrite E in Ez; [|done].
  injection Ez as ->. unfold ipv4_PACK_STR in Hz. decompose_Forall_hyps. unfold in_width, ETH_TYPE_IP in *. cbn in *. lia.
Qed.

Lemma class_parser_total c buf : Forall is_byte buf → modelled c = true → class_total c buf.
Proof.
  intros Hb Hm. destruct c as [| | | | |  | | | |n];
    [by apply (lift_total Ethernet)|by apply (lift_total Vlan)|by apply (lift_total Svlan)|by apply (lift_total Mpls)|
     by apply (lift_total Arp)|by apply ipv4_total|
     by apply (lift_total Udp)|by apply (lift_total Icmp)|
     by apply (lift_total Lacp)|done].
Qed.

(** The header a decoder has found, unless it is false as a condition. *)
Definition kept (p : option protocol) : list protocol :=
  match p with Some p => if true_protocol p then [p] else [] | None => [] end.

(** How the decoding of a packet ends: at its end, at a LACP packet that fails an assertion,
    or at bytes that are left to a class that is not modelled. *)
Inductive ending :=
| Finished
| Refused
| HandedTo (n : string) (buf : bytes).

(** From class [c] and bytes [buf] the decoders of the modelled classes find the protocols [ps]. *)
Inductive decodes : proto_class → bytes → list protocol → ending → Prop :=
| decodes_padding c buf : any_nonzero buf = false → decodes c buf [] Finished
| decodes_short c buf :
    modelled c = true → any_nonzero buf = true → class_parser c buf = Raise StructError →
    decodes c buf [Payload buf] Finished
| decodes_last c buf p rest :
    modelled c = true → any_nonzero buf = true → class_parser c buf = Ret (p, None, rest) →
    decodes c buf (kept p ++ append_rest rest) Finished
| decodes_refused buf :
    any_nonzero buf = true → class_parser c_slow buf = Raise AssertionError → decodes c_slow buf [] Refused
| decodes_foreign n buf : any_nonzero buf = true → decodes (c_foreign n) buf [] (HandedTo n buf)
| decodes_more c buf p next rest ps e :
    modelled c = true → any_nonzero buf = true → class_parser c buf = Ret (p, Some next, Some rest) →
    decodes next rest ps e → decodes c buf (kept p ++ ps) e.

(** The loop does what the relation says. *)
Definition loop_ends (fuel : nat) (cls : proto_class) (buf : bytes) (ps : list protocol) (e : ending) : Prop :=
  match e with
  | Finished => parse_loop fuel (Some cls) (Some buf) = Ret ps
  | Refused => parse_loop fuel (Some cls) (Some buf) = Raise AssertionError
  | HandedTo n buf' =>
      Forall is_byte buf' ∧ (length buf' ≤ length buf)%nat ∧
      ∃ k, (k ≤ fuel)%nat ∧ ∀ more, parse_loop (k + more) (Some cls) (Some buf) =
        (qs ← parse_loop more (Some (c_foreign n)) (Some buf'); Ret (ps ++ qs))
  end.

(** What is left to decode. *)
Definition work (c : proto_class) (buf : bytes) : nat := 2 * length buf + (if class_shrinks c then 1 else 2).

Lemma parse_loop_more fuel c buf p next rest :
  any_nonzero buf = true → class_parser c buf = Ret (p, next, rest) →
  parse_loop (S fuel) (Some c) (Some buf) = (qs ← parse_loop fuel next rest; Ret (kept p ++ qs)).
Proof.
  intros Hn E. cbn [parse_loop]. rewrite Hn, E. destruct (parse_loop fuel next rest); [|done]. cbn.
  destruct p as [p|]; cbn; [by destruct (true_protocol p)|done].
Qed.

Lemma loop_ends_more fuel c buf p next rest ps e :
  any_nonzero buf = true → class_parser c buf = Ret (p, Some next, Some rest) →
  (length rest ≤ length buf)%nat → loop_ends fuel next rest ps e → loop_ends (S fuel) c buf (kept p ++ ps) e.
Proof.
  intros Hn E Hl. destruct e as [| |n buf']; unfold loop_ends.
  - intros IH. by rewrite (parse_loop_more _ _ _ _ _ _ Hn E), IH.
  - intros IH. by rewrite (parse_loop_more _ _ _ _ _ _ Hn E), IH.
  - intros (Hb & Hl' & k & Hk & IH). split_and!; [done|lia|]. exists (S k). split; [lia|]. intros more.
    cbn [Nat.add]. rewrite (parse_loop_more _ _ _ _ _ _ Hn E), IH.
    destruct (parse_loop more (Some (c_foreign n)) (Some buf')); [|done]. cbn. by rewrite app_assoc.
Qed.

Lemma parse_loop_ends fuel c buf :
  (work c buf ≤ fuel)%nat → Forall is_byte buf → ∃ ps e, decodes c buf ps e ∧ loop_ends fuel c buf ps e.
Proof.
  revert c buf. induction fuel as [|fuel IH]; intros c buf Hw Hb.
  { unfold work in Hw. destruct (class_shrinks c); lia. }
  destruct (any_nonzero buf) eqn:Hn.
  2: { exists [], Finished. split; [by constructor|]. cbn. by rewrite Hn. }
  destruct (modelled c) eqn:Hm.
  2: { destruct c as [| | | | | | | | |n]; try done. exists [], (HandedTo n buf).
       split; [by constructor|]. split_and!; [done|done|]. exists 0%nat. split; [lia|]. intros more. cbn [Nat.add app].
       by destruct (parse_loop more (Some (c_foreign n)) (Some buf)). }
  destruct (class_parser_total c buf Hb Hm) as [(p & next & rest & E & Hb' & Hl & Hi)|[E|[-> E]]].
  - destruct next as [next|].
    + destruct (Hl ltac:(by eexists)) as [[rest' ->] Hlen]. cbn in Hb', Hlen.
      destruct (IH next rest') as (ps & e & Hd & He); [|done|].
      { unfold work in *. destruct (class_shrinks c) eqn:Ec; [destruct (class_shrinks next); lia|].
        destruct next; cbn in *; try lia. by destruct Hi. }
      exists (kept p ++ ps), e. split; [by eapply decodes_more|].
      eapply loop_ends_more; [done..|destruct (class_shrinks c); lia|done].
    + exists (kept p ++ append_rest rest), Finished. split; [by eapply decodes_last|]. unfold loop_ends.
      rewrite (parse_loop_more _ _ _ _ _ _ Hn E). by destruct fuel.
  - exists [Payload buf], Finished. split; [by apply decodes_short|]. cbn. by rewrite Hn, E.
  - exists [], Refused. split; [by apply decodes_refused|]. cbn [loop_ends parse_loop]. by rewrite Hn, E.
Qed.

(** C37: Any bytes are decoded, from any class, and within two steps for each of them and two more
    the decoder does one of three things: it returns the protocols that the modelled classes find,
    ending where only padding is left, a header is short ([struct.error], after which the bytes
    are the payload) or no class follows; it lets the [AssertionError] of a LACP packet out that
    fails its checks; or it comes to bytes, no more than there were, of a class outside this model,
    and what its parser returns or raises follows what was found. *)
Theorem parse_total data c :
  Forall is_byte data →
  ∃ ps e, decodes c data ps e ∧
    match e with
    | Finished => packet_protocols (2 * length data + 2) c data = Ret ps
    | Refused => packet_protocols (2 * length data + 2) c data = Raise AssertionError
    | HandedTo n buf =>
        Forall is_byte buf ∧ (length buf ≤ length data)%nat ∧
        ∃ k, (k ≤ 2 * length data + 2)%nat ∧ ∀ more, packet_protocols (k + more) c data =
          (qs ← parse_loop more (Some (c_foreign n)) (Some buf); Ret (ps ++ qs))
    end.
Proof.
  intros Hb. destruct data as [|b data]; [exists [], Finished; split; [by constructor|done]|].
  destruct (parse_loop_ends (2 * length (b :: data) + 2) c (b :: data)) as (ps & e & Hd & He); [|done|].
  { unfold work. destruct (class_shrinks c); lia. }
  exists ps, e. split; [done|]. by destruct e.
Qed.
End packet.

(** ** Examples *)

(** No other class: what it decodes is left as it is. *)
Instance no_foreign_codec (n : string) : Codec Empty_set := {|
  parser buf := Ret (None, None, Some buf); PacketBase.serialize _ _ (h : Empty_set) := match h with end
|}.

Instance no_foreign : Foreign := {|
  object := Empty_set; foreign_codec := no_foreign_codec; foreign_ip (h : Empty_set) := match h with end;
  foreign_true (h : Empty_set) := match h with end
|}.

#[local] Obligation Tactic := idtac.

Program Instance no_foreign_laws : ForeignLaws no_foreign := {|
  foreign_laws n := {|
    wf _ _ _ := False; padding _ _ := []; next_class _ := None; exact _ := false; cuts _ := false;
    filled := eq
  |}
|}.
Next Obligation. intros. constructor. Qed.
Next Obligation. done. Qed.
Next Obligation. by intros n []. Qed.

Instance imported : Registry := {| teb_registered := false; vrrp_imported := false |}.

(** A datagram on a virtual LAN, with the lengths and the checksums left open. *)
Definition a_datagram : list protocol :=
  [Ethernet (EthernetOf 0xffffffffffff 0x080027000001 ETH_TYPE_8021Q); Vlan (VlanOf 3 0 100 ETH_TYPE_IP);
   Ipv4 (Ipv4Of 4 5 0 0 7 2 0 64 IPPROTO_UDP 0 0x0a000001 0x0a000002 None);
   Udp (UdpOf 1024 7 0 0); Payload [0x72; 0x79; 0x75]].

Lemma a_datagram_ok : stack_ok true None [] a_datagram.
Proof.
  cbn [stack_ok a_datagram].
  repeat (eexists _, _; split; [vm_compute; reflexivity|]; split_and!; try done; try (cbn; lia)).
  - split; try (cbn; lia); [by unfold IPPROTO_UDP; cbn|by unfold full_length; cbn|constructor|done].
  - split; try (cbn; lia); [by unfold udp_length; cbn|]. intros _. eexists. split; [done|]. split; [by left|done].
  - split; [done|]. split; [|done]. repeat constructor; done.
Qed.

Lemma packet_roundtrip_witness :
  ∃ ps' data, serialize true a_datagram = Ret (ps', data) ∧ Forall2 (p_filled true) a_datagram ps' ∧
    packet_protocols true (S (length a_datagram)) c_ethernet data = Ret ps' ∧ serialize true ps' = Ret (ps', data).
Proof.
  apply packet_roundtrip; [exact a_datagram_ok|done].
Defined.

(** A LACP packet of another version in a frame: the exception leaves the decoder. *)
Definition a_bad_frame : bytes :=
  be_bytes 6 Lacp.SLOW_PROTOCOL_MULTICAST ++ be_bytes 6 1 ++ be_bytes 2 ETH_TYPE_SLOW ++ [1; 2] ++ replicate 108 0.

Lemma parse_total_witness :
  packet_protocols true (2 * length a_bad_frame + 2) c_ethernet a_bad_frame = Raise AssertionError ∧
  ∃ ps e, decodes true c_ethernet a_bad_frame ps e ∧
    match e with
    | Finished => packet_protocols true (2 * length a_bad_frame + 2) c_ethernet a_bad_frame = Ret ps
    | Refused => packet_protocols true (2 * length a_bad_frame + 2) c_ethernet a_bad_frame = Raise AssertionError
    | HandedTo n buf =>
        Forall is_byte buf ∧ (length buf ≤ length a_bad_frame)%nat ∧
        ∃ k, (k ≤ 2 * length a_bad_frame + 2)%nat ∧ ∀ more, packet_protocols true (k + more) c_ethernet a_bad_frame =
          (qs ← parse_loop true more (Some (c_foreign n)) (Some buf); Ret (ps ++ qs))
    end.
Proof.
  split; [vm_compute; reflexivity|]. apply (parse_total true).
  apply (bool_decide_unpack _). vm_compute. exact I.
Defined.

(** The protocol numbers of IPv4 share their registry with the access points of LLC: the
    number 66 is decoded as a bridge protocol data unit. *)
Example ipv4_of_bpdu :
  ipv4_parser ([0x45; 0; 0; 24; 0; 0; 0; 0; 64; 66; 0; 0] ++ be_bytes 4 1 ++ be_bytes 4 2 ++ [0; 0; 0; 0]) =
    Ret (Some (Ipv4Of 4 5 0 24 0 0 0 64 66 0 1 2 None), Some (c_foreign "bpdu"), Some [0; 0; 0; 0]).
Proof. vm_compute. reflexivity. Qed.

(** A header of IPv4 that claims no length is false as a condition and is left out; its own
    bytes are decoded as its payload. *)
Example ipv4_left_out :
  packet_protocols true 9 c_ipv4 ([0x40; 0; 0; 20; 0; 0; 0; 0; 64; 17; 0; 0] ++ be_bytes 4 1 ++ be_bytes 4 2) =
    Ret [Udp (UdpOf 0x4000 20 0 0)].
Proof. vm_compute. reflexivity. Qed.

(** A checksum that comes out as zero is sent as zero, which says that there is none. *)
Example udp_without_checksum :
  udp_serialize true (outer_ip (Some (Ipv4 (Ipv4Of 4 5 0 0 0 0 0 64 IPPROTO_UDP 0 0x0a000001 0x0a000002 None))))
    [0x72; 0x79; 0x75; 0x53] (UdpOf 1024 7 0 0) =
    Ret (UdpOf 1024 7 12 0, [0x72; 0x79; 0x75; 0x53], [4; 0; 0; 7; 0; 12; 0; 0]).
Proof. vm_compute. reflexivity. Qed.

(** An empty message of a type without a class is given an [echo], with which it cannot be
    encoded again. *)
Example icmp_once :
  icmp_serialize true None [] (IcmpOf 13 0 0 (Raw [])) =
    Ret (IcmpOf 13 0 0xf2ff (echo 0 0 None), [], [13; 0; 0xf2; 0xff; 0; 0; 0; 0]) ∧
  icmp_serialize true None [] (IcmpOf 13 0 0xf2ff (echo 0 0 None)) = Raise TypeError.
Proof. split; vm_compute; reflexivity. Qed.
