(* ===== verification/Igmp.v ===== *)
(** * IGMP snooping and querying

    Models [ryu/lib/igmplib.py]: the flow entries and packets of [IgmpBase], the querier
    [IgmpQuerier], the snooper [IgmpSnooper] and the application [IgmpLib] that chooses between
    them.  Addresses are integers, times tenths of a second.  Messages to the switch and events
    to the observers are outputs.  The threads of the querier and the timers of the snooper are
    part of the state: a step of the program runs one of them up to its next [hub.sleep].  What
    the packet library finds in a frame comes with the packet-in message. *)

From stdpp Require Import base list gmap.
From Stdlib Require Import ZArith Lia.
From S2P Require Import Prelude Odict Struct Ofp.

Open Scope Z_scope.
Set Default Proof Using "Type".

Definition IGMP_TYPE_QUERY : Z := 0x11.
Definition IGMP_TYPE_REPORT_V1 : Z := 0x12.
Definition IGMP_TYPE_REPORT_V2 : Z := 0x16.
Definition IGMP_TYPE_LEAVE : Z := 0x17.
Definition IGMP_TYPE_REPORT_V3 : Z := 0x22.
Definition QUERY_RESPONSE_INTERVAL : Z := 100.
Definition LAST_MEMBER_QUERY_INTERVAL : Z := 10.

Inductive reason := MG_GROUP_ADDED | MG_MEMBER_CHANGED | MG_GROUP_REMOVED.

#[export] Instance reason_eq_dec : EqDecision reason.
Proof. solve_decision. Defined.

(** ** Messages and packets *)

Record igmp := IgmpOf { msgtype : Z; maxresp : Z; address : Z }.

(** A packet-in message with the headers found in its frame. *)
Record msg := Msg {
  datapath_of : datapath;
  in_port_of : Z;
  data_of : bytes;
  igmp_of : option igmp;
  ip_src : Z;
  eth_src : Z
}.

(** A frame that is passed on, or the query the library writes itself. *)
Inductive frame :=
| Raw (data : bytes)
| QueryFrame (eth_src ip_src : Z) (query : igmp).

Record action := OFPActionOutput { out_port : Z; max_len : option Z }.

Definition to_port (p : Z) : action := OFPActionOutput p None.

Inductive command := OFPFC_ADD | OFPFC_DELETE.

Record flow_mod := OFPFlowMod {
  fm_command : command;
  fm_priority : option Z;
  fm_in_port : option Z;
  fm_dst : Z;
  fm_actions : list action;
  fm_out_port : option Z
}.

Inductive igmp_out :=
| FlowMod (dpid : Z) (f : flow_mod)
| PacketOut (dpid : Z) (data : frame) (in_port : Z) (actions : list action)
| EventMulticastGroupStateChanged (r : reason) (group : Z) (src : option Z) (dsts : list Z)
| EventPacketIn (m : msg).

(** ** [IgmpBase] *)

Section base.
Context {St : Type}.
Abbreviation BM := (M St pyexn igmp_out).

Definition _set_flow_entry_v1_0 (dp : datapath) (actions : list action) (in_port : option Z) (dst : Z) : BM () :=
  emit (FlowMod (dp_id dp) (OFPFlowMod OFPFC_ADD None in_port dst actions None)).

Definition _set_flow_entry_v1_2 (dp : datapath) (actions : list action) (in_port : option Z) (dst : Z) : BM () :=
  emit (FlowMod (dp_id dp) (OFPFlowMod OFPFC_ADD (Some 65535) in_port dst actions None)).

Definition _del_flow_entry_v1_0 (dp : datapath) (in_port : option Z) (dst : Z) : BM () :=
  emit (FlowMod (dp_id dp) (OFPFlowMod OFPFC_DELETE None in_port dst [] None)).

Definition _del_flow_entry_v1_2 (dp : datapath) (in_port : option Z) (dst : Z) : BM () :=
  emit (FlowMod (dp_id dp) (OFPFlowMod OFPFC_DELETE None in_port dst [] (Some (OFPP_ANY (ofp_version dp))))).

(** The dictionaries [_set_flow_func] and [_del_flow_func]. *)
Definition by_version {A} (v : Z) (v1_0 v1_2 : A) : option A :=
  if v =? ofproto_v1_0_OFP_VERSION then Some v1_0
  else if (v =? ofproto_v1_2_OFP_VERSION) || (v =? ofproto_v1_3_OFP_VERSION) then Some v1_2
  else None.

Definition _set_flow_entry (dp : datapath) (actions : list action) (in_port : option Z) (dst : Z) : BM () :=
  match by_version (ofp_version dp) _set_flow_entry_v1_0 _set_flow_entry_v1_2 with
  | Some set_flow => set_flow dp actions in_port dst
  | None => raise AssertionError
  end.

Definition _del_flow_entry (dp : datapath) (in_port : option Z) (dst : Z) : BM () :=
  match by_version (ofp_version dp) _del_flow_entry_v1_0 _del_flow_entry_v1_2 with
  | Some del_flow => del_flow dp in_port dst
  | None => raise AssertionError
  end.

Definition _do_packet_out (dp : datapath) (data : frame) (in_port : Z) (actions : list action) : BM () :=
  emit (PacketOut (dp_id dp) data in_port actions).

(** The action that sends whole packets to the controller or, with a length, to a port. *)
Definition size (v : Z) : Z := if v =? ofproto_v1_0_OFP_VERSION then 65535 else OFPCML_MAX.

Definition to_controller (v : Z) : action := OFPActionOutput (OFPP_CONTROLLER v) (Some (size v)).
End base.

(** ** [IgmpQuerier] *)

(** Where a thread of [_send_query] is, with its local variables: the source address of the
    query, the port it is sent from and the flood port. *)
Inductive thread :=
| Starting
| Waiting (src send_port flood : Z)
| Resting (src send_port flood : Z).

Record querier := Querier {
  q_dpid : option Z;
  server_port : option Z;
  _datapath : option datapath;
  _querier_thread : option nat;
  _mcast : odict Z (odict Z bool);
  q_threads : gmap nat thread
}.

#[global] Instance eta_querier : Eta querier := EtaBox (λ q,
  Querier (q_dpid q) (server_port q) (_datapath q) (_querier_thread q) (_mcast q) (q_threads q)).

Definition querier_init : querier := Querier None None None None [] ∅.

Abbreviation QM := (M querier pyexn igmp_out).

(** [hub.spawn] and [hub.kill]; killing [None] is an attribute error. *)
Definition spawn_query : QM nat := λ q,
  let id := fresh (dom (q_threads q)) in
  ([], q <| q_threads ::= <[id := Starting]> |>, Ret id).

Definition kill (t : option nat) : QM () :=
  id ← or_raise t AttributeError;
  modify (λ q, q <| q_threads ::= delete id |>).

Definition set_querier_mode (dpid port : Z) : QM () :=
  modify (λ q, q <| q_dpid := Some dpid |> <| server_port := Some port |>);;
  t ← gets _querier_thread;
  when (bool_decide (is_Some t)) (kill t;; modify (λ q, q <| _querier_thread := None |>)).

Definition start_loop (dp : datapath) : QM () :=
  modify (λ q, q <| _datapath := Some dp |>);;
  t ← spawn_query;
  modify (λ q, q <| _querier_thread := Some t |>).

Definition stop_loop : QM () :=
  t ← gets _querier_thread;
  kill t;;
  modify (λ q, q <| _querier_thread := None |>);;
  modify (λ q, q <| _datapath := None |>).

(** From the start of the thread to the loop. *)
Definition query_prologue : QM (Z * Z * Z) :=
  d ← gets _datapath;
  dp ← or_raise d AttributeError;
  let v := ofp_version dp in
  let send_port := if ofproto_v1_0_OFP_VERSION =? v then OFPP_NONE v else OFPP_ANY v in
  src ← or_raise (hw_addr dp !! OFPP_LOCAL v) KeyError;
  mret (src, send_port, OFPP_FLOOD v).

(** The general query of the loop. *)
Definition general_query (src : Z) : frame :=
  QueryFrame src 0 (IgmpOf IGMP_TYPE_QUERY QUERY_RESPONSE_INTERVAL 0).

(** The loop up to the first sleep. *)
Definition round_begin (src send_port flood : Z) : QM () :=
  modify (λ q, q <| _mcast ::= fmap (M := list) (prod_map id (fmap (M := list) (prod_map id (λ _, false)))) |>);;
  d ← gets _datapath;
  dp ← or_raise d AttributeError;
  _do_packet_out dp (general_query src) send_port [to_port flood].

(** The members of a group that replied and those that did not. *)
Definition replied_ports (status : odict Z bool) : list Z := od_keys (filter (λ kv, kv.2 = true) status).
Definition del_ports (status : odict Z bool) : list Z := od_keys (filter (λ kv, kv.2 = false) status).

(** A turn of the loop over the groups; the members that did not reply are deleted. *)
Definition expire_group (g : Z) : QM () :=
  q ← get_st;
  let status := default [] (od_get g (_mcast q)) in
  let actions := to_port <$> replied_ports status in
  let gone := del_ports status in
  when (nonempty actions && nonempty gone) (
    dp ← or_raise (_datapath q) AttributeError;
    _set_flow_entry dp actions (server_port q) g);;
  when (negb (nonempty actions)) (
    dp ← or_raise (_datapath q) AttributeError;
    _del_flow_entry dp (server_port q) g);;
  when (nonempty gone) (
    for_each gone (λ p,
      dp ← or_raise (_datapath q) AttributeError;
      _del_flow_entry dp (Some p) g));;
  for_each gone (λ p, modify (λ q, q <| _mcast ::= od_alter (od_del p) g |>)).

(** The loop between the two sleeps; [del_groups] are the groups without members. *)
Definition round_end : QM () :=
  groups ← gets _mcast;
  for_each (od_keys groups) expire_group;;
  let del_groups := od_keys (filter (λ kv, replied_ports kv.2 = []) groups) in
  for_each del_groups (λ g, modify (λ q, q <| _mcast ::= od_del g |>)).

(** The next stretch of a thread; a thread that fails ends. *)
Definition set_thread (id : nat) (t : thread) : QM () := modify (λ q, q <| q_threads ::= <[id := t]> |>).

Definition send_query (id : nat) : QM () :=
  t ← gets (λ q, q_threads q !! id);
  try_with
    match t with
    | None => mret tt
    | Some Starting =>
        l ← query_prologue;
        let '(src, send_port, flood) := l : Z * Z * Z in
        round_begin src send_port flood;;
        set_thread id (Waiting src send_port flood)
    | Some (Waiting src send_port flood) =>
        round_end;;
        set_thread id (Resting src send_port flood)
    | Some (Resting src send_port flood) =>
        round_begin src send_port flood;;
        set_thread id (Waiting src send_port flood)
    end
    (λ e, Some (modify (λ q, q <| q_threads ::= delete id |>);; raise e)).

Definition querier_do_report (report : igmp) (in_port : Z) (m : msg) : QM () :=
  let g := address report in
  let dp := datapath_of m in
  modify (λ q, q <| _mcast ::= od_setdefault g [] |>);;
  q ← get_st;
  let update := negb (od_mem in_port (default [] (od_get g (_mcast q)))) in
  modify (λ q, q <| _mcast ::= od_alter (od_set in_port true) g |>);;
  when update (
    q ← get_st;
    let actions := to_port <$> od_keys (default [] (od_get g (_mcast q))) in
    _set_flow_entry dp actions (server_port q) g;;
    _set_flow_entry dp [to_controller (ofp_version dp)] (Some in_port) g).

Definition querier_do_leave (leave : igmp) (in_port : Z) (m : msg) : QM () :=
  let g := address leave in
  let dp := datapath_of m in
  modify (λ q, q <| _mcast ::= od_setdefault g [] |>);;
  q ← get_st;
  when (od_mem in_port (default [] (od_get g (_mcast q)))) (
    _del_flow_entry dp (Some in_port) g;;
    modify (λ q, q <| _mcast ::= od_alter (od_del in_port) g |>);;
    q ← get_st;
    let actions := to_port <$> od_keys (default [] (od_get g (_mcast q))) in
    if nonempty actions then _set_flow_entry dp actions (server_port q) g
    else _del_flow_entry dp (server_port q) g).

Definition querier_packet_in (req : igmp) (m : msg) : QM () :=
  if (IGMP_TYPE_REPORT_V1 =? msgtype req) || (IGMP_TYPE_REPORT_V2 =? msgtype req)
  then querier_do_report req (in_port_of m) m
  else if IGMP_TYPE_LEAVE =? msgtype req then querier_do_leave req (in_port_of m) m
  else mret tt.

(** ** [IgmpSnooper] *)

Record to_querier := ToQuerier { tq_port : Z; tq_ip : Z; tq_mac : Z }.

(** Whether flow entries for the packets to and from a member were registered. *)
Record member := Member { out : bool; in_ : bool }.

Record group := Group {
  replied : bool;
  leave_msg : option msg;
  ports : odict Z member
}.

#[global] Instance eta_group : Eta group := EtaBox (λ g, Group (replied g) (leave_msg g) (ports g)).

(** The threads that wait for reports. *)
Inductive timer :=
| TimeoutForQuery (timeout : Z) (dp : datapath)
| TimeoutForLeave (timeout : Z) (dp : datapath) (dst in_port : Z).

Record snooper := Snooper {
  _to_querier : odict Z to_querier;
  _to_hosts : odict Z (odict Z group);
  timers : list timer
}.

#[global] Instance eta_snooper : Eta snooper := EtaBox (λ s, Snooper (_to_querier s) (_to_hosts s) (timers s)).

Definition snooper_init : snooper := Snooper [] [] [].

Abbreviation SM := (M snooper pyexn igmp_out).

(** [self._to_hosts[dpid].get(dst)], also when there is no such datapath. *)
Definition get_group (s : snooper) (d dst : Z) : option group :=
  od_get d (_to_hosts s) ≫= od_get dst.

(** A change of the dictionary of a group or of that of the groups of a datapath. *)
Definition change_group (f : group → group) (d dst : Z) (s : snooper) : snooper :=
  s <| _to_hosts ::= od_alter (od_alter f dst) d |>.

Definition new_group : group := Group false None [].

Definition setdefault_hosts (d : Z) : SM () := modify (λ s, s <| _to_hosts ::= od_setdefault d [] |>).

Definition setdefault_group (d dst : Z) : SM () :=
  modify (λ s, s <| _to_hosts ::= od_alter (od_setdefault dst new_group) d |>).

Definition spawn (t : timer) : SM () := modify (λ s, s <| timers ::= λ l, l ++ [t] |>).

Definition reset_reply (g : group) : group := g <| replied := false |> <| leave_msg := None |>.

Definition _do_query (query : igmp) (iph eth in_port : Z) (m : msg) : SM () :=
  let dp := datapath_of m in
  let d := dp_id dp in
  modify (λ s, s <| _to_querier ::= od_set d (ToQuerier in_port iph eth) |>);;
  let timeout := if maxresp query =? 0 then QUERY_RESPONSE_INTERVAL else maxresp query in
  setdefault_hosts d;;
  (if address query =? 0
   then modify (λ s, s <| _to_hosts ::= od_alter (fmap (M := list) (prod_map id reset_reply)) d |>)
   else modify (change_group reset_reply d (address query)));;
  _do_packet_out dp (Raw (data_of m)) in_port [to_port (OFPP_FLOOD (ofp_version dp))];;
  spawn (TimeoutForQuery timeout dp).

(** The port of the querier of a datapath; 0 counts as none. *)
Definition querier_port (s : snooper) (d : Z) : option Z := tq_port <$> od_get d (_to_querier s).

Definition known (p : option Z) : bool := match p with Some p => negb (p =? 0) | None => false end.

Definition _do_report (report : igmp) (in_port : Z) (m : msg) : SM () :=
  let dp := datapath_of m in
  let d := dp_id dp in
  let dst := address report in
  outport ← gets (λ s, querier_port s d);
  setdefault_hosts d;;
  s ← get_st;
  when (bool_decide (get_group s d dst = None)) (
    emit (EventMulticastGroupStateChanged MG_GROUP_ADDED dst outport []);;
    setdefault_group d dst);;
  s ← get_st;
  g ← or_raise (get_group s d dst) KeyError;
  when (negb (od_mem in_port (ports g))) (
    modify (change_group (λ g, g <| ports ::= od_set in_port (Member false false) |>) d dst);;
    _set_flow_entry dp [to_controller (ofp_version dp)] (Some in_port) dst);;
  modify (change_group (λ g, g <| ports ::= od_alter (λ p, Member true (in_ p)) in_port |>) d dst);;
  if negb (known outport) then mret tt else
  s ← get_st;
  g ← or_raise (get_group s d dst) KeyError;
  p ← or_raise (od_get in_port (ports g)) KeyError;
  when (negb (in_ p)) (
    let members := od_keys (ports g) in
    emit (EventMulticastGroupStateChanged MG_MEMBER_CHANGED dst outport members);;
    _set_flow_entry dp (to_port <$> members) outport dst;;
    modify (change_group (λ g, g <| ports ::= od_alter (λ p, Member (out p) true) in_port |>) d dst));;
  when (negb (replied g)) (
    _do_packet_out dp (Raw (data_of m)) in_port
      [OFPActionOutput (default 0 outport) (Some (size (ofp_version dp)))];;
    modify (change_group (λ g, g <| replied := true |>) d dst)).

Definition _do_leave (leave : igmp) (in_port : Z) (m : msg) : SM () :=
  let dp := datapath_of m in
  let d := dp_id dp in
  let dst := address leave in
  q ← gets (λ s, od_get d (_to_querier s));
  match (q : option to_querier) with
  | None => mret tt
  | Some q =>
      setdefault_hosts d;;
      setdefault_group d dst;;
      modify (change_group (λ g,
        g <| leave_msg := Some m |> <| ports ::= od_set in_port (Member false false) |>) d dst);;
      _do_packet_out dp
        (QueryFrame (tq_mac q) (tq_ip q) (IgmpOf IGMP_TYPE_QUERY LAST_MEMBER_QUERY_INTERVAL dst))
        in_port [to_port (OFPP_IN_PORT (ofp_version dp))];;
      spawn (TimeoutForLeave LAST_MEMBER_QUERY_INTERVAL dp dst in_port)
  end.

Definition _do_flood (in_port : Z) (m : msg) : SM () :=
  let dp := datapath_of m in
  _do_packet_out dp (Raw (data_of m)) in_port [to_port (OFPP_FLOOD (ofp_version dp))].

Definition _remove_multicast_group (dp : datapath) (outport dst : Z) : SM () :=
  let d := dp_id dp in
  emit (EventMulticastGroupStateChanged MG_GROUP_REMOVED dst (Some outport) []);;
  _del_flow_entry dp (Some outport) dst;;
  s ← get_st;
  g ← or_raise (get_group s d dst) KeyError;
  for_each (od_keys (ports g)) (λ p, _del_flow_entry dp (Some p) dst);;
  match leave_msg g with
  | Some leave => _do_packet_out dp (Raw (data_of leave)) (in_port_of leave) [to_port outport]
  | None => mret tt
  end.

Definition delete_group (d dst : Z) : SM () :=
  modify (λ s, s <| _to_hosts ::= od_alter (od_del dst) d |>).

(** The threads after their sleep. *)
Definition _do_timeout_for_query (dp : datapath) : SM () :=
  let d := dp_id dp in
  s ← get_st;
  q ← or_raise (od_get d (_to_querier s)) KeyError;
  hosts ← or_raise (od_get d (_to_hosts s)) KeyError;
  let remove_dsts := od_keys (filter (λ kv, replied kv.2 = false) (hosts : odict Z group)) in
  for_each remove_dsts (_remove_multicast_group dp (tq_port q));;
  for_each remove_dsts (delete_group d).

Definition _do_timeout_for_leave (dp : datapath) (dst in_port : Z) : SM () :=
  let d := dp_id dp in
  s ← get_st;
  q ← or_raise (od_get d (_to_querier s)) KeyError;
  let outport := tq_port q in
  g ← or_raise (get_group s d dst) KeyError;
  p ← or_raise (od_get in_port (ports g)) KeyError;
  if out p then mret tt else
  modify (change_group (λ g, g <| ports ::= od_del in_port |>) d dst);;
  _del_flow_entry dp (Some in_port) dst;;
  s ← get_st;
  g ← or_raise (get_group s d dst) KeyError;
  let members := od_keys (ports g) in
  if nonempty members then
    emit (EventMulticastGroupStateChanged MG_MEMBER_CHANGED dst (Some outport) members);;
    _set_flow_entry dp (to_port <$> members) (Some outport) dst;;
    modify (change_group (λ g, g <| leave_msg := None |>) d dst)
  else
    _remove_multicast_group dp outport dst;;
    delete_group d dst.

(** One of the threads wakes up. *)
Definition timer_expires (n : nat) : SM () :=
  t ← gets (λ s, timers s !! n);
  match (t : option timer) with
  | None => mret tt
  | Some t =>
      modify (λ s, s <| timers ::= delete n |>);;
      match t with
      | TimeoutForQuery _ dp => _do_timeout_for_query dp
      | TimeoutForLeave _ dp dst in_port => _do_timeout_for_leave dp dst in_port
      end
  end.

Definition snooper_packet_in (req : igmp) (m : msg) : SM () :=
  let in_port := in_port_of m in
  if IGMP_TYPE_QUERY =? msgtype req then _do_query req (ip_src m) (eth_src m) in_port m
  else if (IGMP_TYPE_REPORT_V1 =? msgtype req) || (IGMP_TYPE_REPORT_V2 =? msgtype req)
  then _do_report req in_port m
  else if IGMP_TYPE_LEAVE =? msgtype req then _do_leave req in_port m
  else _do_flood in_port m.

(** ** [IgmpLib] *)

Record igmp_lib := IgmpLib { _querier : querier; _snooper : snooper }.

#[global] Instance eta_igmp_lib : Eta igmp_lib := EtaBox (λ l, IgmpLib (_querier l) (_snooper l)).

Definition igmp_lib_init : igmp_lib := IgmpLib querier_init snooper_init.

Abbreviation IM := (M igmp_lib pyexn igmp_out).

Definition packet_in_handler (m : msg) : IM () :=
  match igmp_of m with
  | Some req =>
      d ← gets (λ l, q_dpid (_querier l));
      if bool_decide (d = Some (dp_id (datapath_of m)))
      then within _querier (querier_packet_in req m)
      else within _snooper (snooper_packet_in req m)
  | None => emit (EventPacketIn m)
  end.

(** The id of a datapath, [None] before the handshake, and its state: [Some true] for
    [MAIN_DISPATCHER], [Some false] for [DEAD_DISPATCHER]. *)
Definition state_change_handler (dpid : option Z) (dp : datapath) (state : option bool) : IM () :=
  d ← gets (λ l, q_dpid (_querier l));
  when (bool_decide (d = dpid))
    match state with
    | Some true => within _querier (start_loop dp)
    | Some false => within _querier stop_loop
    | None => mret tt
    end.

(** ** The flow mods that were sent *)

(** Specification: what a sequence of flow mods amounts to.  For every datapath, input port and
    group address the last command decides, an addition gives its actions and a deletion nothing.
    A switch that carries the commands out, and is not reset, has these entries. *)
Abbreviation table := (gmap (Z * option Z * Z) (list action)).

Definition last_command (t : table) (o : igmp_out) : table :=
  match o with
  | FlowMod d f =>
      match fm_command f with
      | OFPFC_ADD => <[(d, fm_in_port f, fm_dst f) := fm_actions f]> t
      | OFPFC_DELETE => delete (d, fm_in_port f, fm_dst f) t
      end
  | _ => t
  end.

Definition last_commands (t : table) (o : list igmp_out) : table := foldl last_command t o.

Definition supported (v : Z) : Prop :=
  v = ofproto_v1_0_OFP_VERSION ∨ v = ofproto_v1_2_OFP_VERSION ∨ v = ofproto_v1_3_OFP_VERSION.

(** The entry that [_set_flow_entry] and [_del_flow_entry] send. *)
Definition set_entry (dp : datapath) (actions : list action) (in_port : option Z) (dst : Z) : igmp_out :=
  FlowMod (dp_id dp) (OFPFlowMod OFPFC_ADD
    (if ofp_version dp =? ofproto_v1_0_OFP_VERSION then None else Some 65535) in_port dst actions None).

Definition del_entry (dp : datapath) (in_port : option Z) (dst : Z) : igmp_out :=
  FlowMod (dp_id dp) (OFPFlowMod OFPFC_DELETE None in_port dst []
    (if ofp_version dp =? ofproto_v1_0_OFP_VERSION then None else Some (OFPP_ANY (ofp_version dp)))).

Section flows.
Context {St : Type}.

Lemma set_flow_run dp actions in_port dst (s : St) :
  supported (ofp_version dp) →
  _set_flow_entry dp actions in_port dst s = ([set_entry dp actions in_port dst], s, Ret tt).
Proof.
  intros Hv. unfold _set_flow_entry, set_entry, by_version.
  by destruct Hv as [->|[->| ->]].
Qed.

Lemma del_flow_run dp in_port dst (s : St) :
  supported (ofp_version dp) →
  _del_flow_entry dp in_port dst s = ([del_entry dp in_port dst], s, Ret tt).
Proof.
  intros Hv. unfold _del_flow_entry, del_entry, by_version. destruct dp as [d v h].
  cbn [ofp_version] in *. by destruct Hv as [->|[->| ->]].
Qed.

Lemma del_flows_run dp dst (l : list Z) (s : St) :
  supported (ofp_version dp) →
  for_each l (λ p, _del_flow_entry dp (Some p) dst) s = ((λ p, del_entry dp (Some p) dst) <$> l, s, Ret tt).
Proof.
  intros Hv. induction l as [|p l IH]; [done|]. cbn [for_each].
  rewrite (run_bind _ _ _ _ _ _ (del_flow_run dp (Some p) dst s Hv)), IH. done.
Qed.
End flows.

Lemma last_commands_del dp dst l t d i g :
  last_commands t ((λ p, del_entry dp (Some p) dst) <$> l) !! (d, i, g) =
    if bool_decide (d = dp_id dp ∧ g = dst ∧ i ∈ (Some <$> l : list (option Z)))
    then None else t !! (d, i, g).
Proof.
  revert t. induction l as [|p l IH]; intros t; cbn [fmap list_fmap].
  { rewrite bool_decide_eq_false_2; [done|]. intros (_ & _ & H). by apply not_elem_of_nil in H. }
  change (last_commands t (?x :: ?o)) with (last_commands (last_command t x) o). rewrite IH.
  destruct (decide (d = dp_id dp ∧ g = dst ∧ i = Some p)) as [(-> & -> & ->)|Hne].
  - rewrite (bool_decide_eq_true_2 (_ ∧ _ ∧ Some p ∈ _ :: _)) by (split_and!; [done|done|apply list_elem_of_here]).
    destruct (bool_decide _); [done|]. cbn. by rewrite lookup_delete_eq.
  - replace (bool_decide (d = dp_id dp ∧ g = dst ∧ i ∈ Some p :: (Some <$> l)))
      with (bool_decide (d = dp_id dp ∧ g = dst ∧ i ∈ (Some <$> l : list (option Z)))).
    + destruct (bool_decide _); [done|]. cbn. rewrite lookup_delete_ne; [done|]. naive_solver.
    + apply bool_decide_ext. rewrite elem_of_cons. naive_solver.
Qed.
