(* ===== verification/IgmpQuerier.v ===== *)
(** * The IGMP querier

    The flow entries that [IgmpQuerier] commands for the switch whose multicast groups it keeps, as
    an invariant over every history of packets from the hosts' ports, connections and thread
    steps, and what a round of the querier does to the groups. *)

From stdpp Require Import base list gmap.
From Stdlib Require Import ZArith Lia.
From S2P Require Import Prelude Odict Struct Ofp Igmp.

Open Scope Z_scope.
Set Default Proof Using "Type".

(** ** The querier's flow entries *)

(** Deleting a list of keys. *)
Lemma od_del_keys {V} (ps : list Z) (l : odict Z V) :
  foldl (λ l p, od_del p l) l ps = filter (λ kv, kv.1 ∉ ps) l.
Proof.
  revert l. induction ps as [|p ps IH]; intros l; cbn [foldl].
  { induction l as [|kv l IHl]; [done|]. rewrite filter_cons, decide_True by apply not_elem_of_nil.
    by rewrite <- IHl. }
  rewrite IH, od_del_filter, list_filter_filter. apply list_filter_iff. intros kv.
  rewrite not_elem_of_cons. tauto.
Qed.

Definition expired (status : odict Z bool) : odict Z bool := filter (λ kv, kv.2 = true) status.

Lemma delete_gone status :
  od_ok status → foldl (λ l p, od_del p l) status (del_ports status) = expired status.
Proof.
  intros Hok. rewrite od_del_keys. unfold expired.
  assert (∀ kv, kv ∈ status → kv.1 ∉ del_ports status ↔ kv.2 = true) as H.
  { intros [p b] Hin. unfold del_ports, od_keys. rewrite list_elem_of_fmap. cbn [fst snd]. split.
    - intros Hn. destruct b; [done|]. destruct Hn. exists (p, false). split; [done|].
      by apply list_elem_of_filter.
    - intros -> ([p' b'] & -> & [Hb Hin']%list_elem_of_filter). cbn in *. subst.
      apply od_elem_get in Hin, Hin'; [|done..]. congruence. }
  revert H. generalize (del_ports status) as ps. clear Hok. intros ps H.
  induction status as [|kv status IH]; [done|]. rewrite !filter_cons, IH.
  - destruct (decide (kv.1 ∉ ps)) as [Hd|Hd].
    + rewrite decide_True; [done|]. apply (H kv); [apply list_elem_of_here|done].
    + rewrite decide_False; [done|]. intros Ht. apply Hd, (H kv); [apply list_elem_of_here|done].
  - intros kv' Hin. apply H. by apply list_elem_of_further.
Qed.

Section querier.
Set Default Proof Using "Type*".
Context (d sp v : Z) (v_supported : supported v).

(** The entries a switch should have: the server's packets go to every member, in order, and
    the members' packets to the controller. *)
Record table_ok (mem : Z → list Z) (t : table) : Prop := {
  t_server g : t !! (d, Some sp, g) = if nonempty (mem g) then Some (to_port <$> mem g) else None;
  t_hosts p g : p ≠ sp →
    t !! (d, Some p, g) = if bool_decide (p ∈ mem g) then Some [to_controller v] else None
}.

(** A change of the entries of one group. *)
Lemma table_ok_group mem mem' t t' g :
  table_ok mem t →
  (∀ g', g' ≠ g → mem' g' = mem g') →
  (∀ i g', g' ≠ g → t' !! (d, i, g') = t !! (d, i, g')) →
  t' !! (d, Some sp, g) = (if nonempty (mem' g) then Some (to_port <$> mem' g) else None) →
  (∀ p, p ≠ sp → t' !! (d, Some p, g) = if bool_decide (p ∈ mem' g) then Some [to_controller v] else None) →
  table_ok mem' t'.
Proof.
  intros [H1 H2] Hm Ht Hs Hp. split.
  - intros g'. destruct (decide (g' = g)) as [->|Hg]; [done|]. by rewrite Ht, Hm, H1.
  - intros p g' Hsp. destruct (decide (g' = g)) as [->|Hg]; [by apply Hp|]. by rewrite Ht, Hm, H2.
Qed.

Definition members (q : querier) (g : Z) : list Z := od_keys (default [] (od_get g (_mcast q))).

Definition groups_ok (m : odict Z (odict Z bool)) : Prop :=
  ∀ g st, od_get g m = Some st → od_ok st ∧ sp ∉ od_keys st.

Record querier_ok (q : querier) (t : table) : Prop := {
  qk_port : server_port q = Some sp;
  qk_datapath dp : _datapath q = Some dp → dp_id dp = d ∧ ofp_version dp = v;
  qk_mcast : od_ok (_mcast q);
  qk_groups : groups_ok (_mcast q);
  qk_table : table_ok (members q) t
}.

Lemma status_ok q g st : groups_ok (_mcast q) → default [] (od_get g (_mcast q)) = st → od_ok st ∧ sp ∉ od_keys st.
Proof.
  intros H <-. destruct (od_get g (_mcast q)) as [st|] eqn:E; cbn; [by apply (H g)|].
  split; [apply od_ok_nil|apply not_elem_of_nil].
Qed.

Lemma expired_keys st p : od_ok st → p ∈ replied_ports st ↔ od_get p st = Some true.
Proof.
  intros Hok. unfold replied_ports, od_keys. rewrite list_elem_of_fmap. split.
  - intros ([p' b] & -> & [Hb Hin]%list_elem_of_filter). cbn in *. subst. by apply od_elem_get.
  - intros Hg%od_get_elem. exists (p, true). split; [done|]. by apply list_elem_of_filter.
Qed.

Lemma gone_keys st p : od_ok st → p ∈ del_ports st ↔ od_get p st = Some false.
Proof.
  intros Hok. unfold del_ports, od_keys. rewrite list_elem_of_fmap. split.
  - intros ([p' b] & -> & [Hb Hin]%list_elem_of_filter). cbn in *. subst. by apply od_elem_get.
  - intros Hg%od_get_elem. exists (p, false). split; [done|]. by apply list_elem_of_filter.
Qed.

Definition set_mcast (m : odict Z (odict Z bool)) (q : querier) : querier := q <| _mcast := m |>.

Lemma del_members_run g ps q :
  for_each ps (λ p, modify (λ q, q <| _mcast ::= od_alter (od_del p) g |>)) q =
    ([] : list igmp_out, set_mcast (od_alter (λ st, foldl (λ l p, od_del p l) st ps) g (_mcast q)) q,
     Ret tt : outcome pyexn ()).
Proof.
  revert q. induction ps as [|p ps IH]; intros q; cbn [for_each].
  - unfold set_mcast. cbn [foldl]. rewrite od_alter_id. by destruct q.
  - rewrite modify_bind, IH. unfold set_mcast. cbn. by rewrite od_alter_compose.
Qed.

Lemma nonempty_fmap {A B} (f : A → B) l : nonempty (f <$> l) = nonempty l.
Proof. by destruct l. Qed.

(** What a turn over one group sends. *)
Definition expire_entries (dp : datapath) (st : odict Z bool) (g : Z) : list igmp_out :=
  (if nonempty (replied_ports st) && nonempty (del_ports st)
   then [set_entry dp (to_port <$> replied_ports st) (Some sp) g] else []) ++
  (if nonempty (replied_ports st) then [] else [del_entry dp (Some sp) g]) ++
  ((λ p, del_entry dp (Some p) g) <$> del_ports st).

Definition expire_one (g : Z) (m : odict Z (odict Z bool)) : odict Z (odict Z bool) :=
  od_alter (λ st, foldl (λ l p, od_del p l) st (del_ports (default [] (od_get g m)))) g m.

Lemma expire_run q dp g :
  server_port q = Some sp → _datapath q = Some dp → supported (ofp_version dp) →
  expire_group g q =
    (expire_entries dp (default [] (od_get g (_mcast q))) g, set_mcast (expire_one g (_mcast q)) q, Ret tt).
Proof.
  intros Hp Hd Hs. unfold expire_group, expire_entries, expire_one. rewrite get_bind, Hp, Hd.
  set (st := default [] (od_get g (_mcast q))). rewrite nonempty_fmap. cbn [or_raise].
  erewrite run_bind; [|apply when_run; rewrite ret_bind; by apply set_flow_run].
  erewrite run_bind; [|apply when_run; rewrite ret_bind; by apply del_flow_run].
  erewrite run_bind;
    [|apply when_run; rewrite (for_each_ext _ _ (λ p, _del_flow_entry dp (Some p) g))
       by (intros; by rewrite ret_bind); by apply del_flows_run].
  rewrite del_members_run. do 2 f_equal. rewrite app_nil_r.
  by destruct (replied_ports st), (del_ports st).
Qed.

(** Without a datapath a turn does nothing, for want of anything to do, or fails. *)
Lemma expire_without q g :
  _datapath q = None →
  (expire_group g q = ([], q, Raise AttributeError)) ∨
  (expire_group g q = ([], q, Ret tt) ∧ del_ports (default [] (od_get g (_mcast q))) = [] ∧
   replied_ports (default [] (od_get g (_mcast q))) ≠ []).
Proof.
  intros Hd. unfold expire_group. rewrite get_bind, Hd, nonempty_fmap.
  destruct (replied_ports _) as [|p l] eqn:Er; cbn [nonempty andb negb when]; [by left|].
  destruct (del_ports _) as [|p' l'] eqn:Eg; cbn [nonempty andb negb when]; [|by left].
  right. by rewrite !ret_bind.
Qed.

Lemma last_commands_app t o1 o2 : last_commands t (o1 ++ o2) = last_commands (last_commands t o1) o2.
Proof. apply foldl_app. Qed.

Lemma nonempty_elem {A} (x : A) l : x ∈ l → nonempty l = true.
Proof. destruct l; [intros H; by apply not_elem_of_nil in H|done]. Qed.

Lemma key_cases st p : od_ok st → p ∈ od_keys st ↔ p ∈ replied_ports st ∨ p ∈ del_ports st.
Proof.
  intros Hok. rewrite expired_keys, gone_keys, <- od_get_is_key by done. split.
  - intros [[] ->]; auto.
  - intros [->| ->]; eauto.
Qed.

(** Who stays keeps the place. *)
Lemma no_gone st : del_ports st = [] → replied_ports st = od_keys st.
Proof.
  unfold del_ports, replied_ports, od_keys. induction st as [|[p []] st IH]; [done| |].
  - rewrite !filter_cons, decide_False, decide_True by done. intros H. rewrite !fmap_cons, IH; done.
  - by rewrite filter_cons, decide_True.
Qed.

Lemma lookup_delete_key (t : table) (k k' : Z * option Z * Z) :
  delete k t !! k' = if decide (k = k') then None else t !! k'.
Proof. apply lookup_delete. Qed.

Lemma expire_table mem t dp st g :
  dp_id dp = d → ofp_version dp = v → od_ok st → sp ∉ od_keys st → mem g = od_keys st →
  table_ok mem t →
  table_ok (λ g', if decide (g' = g) then replied_ports st else mem g')
    (last_commands t (expire_entries dp st g)).
Proof.
  intros Hd Hv Hok Hsp Hm Ht. unfold expire_entries. rewrite !last_commands_app.
  assert (∀ i g', g' ≠ g → last_commands t (if nonempty (replied_ports st) && nonempty (del_ports st)
      then [set_entry dp (to_port <$> replied_ports st) (Some sp) g] else []) !! (d, i, g') = t !! (d, i, g')) as H1.
  { intros i g' Hg. destruct (_ && _); [|done]. cbn. by rewrite lookup_insert_ne by congruence. }
  set (t1 := last_commands t _) in *.
  assert (∀ i g', (i ≠ Some sp ∨ g' ≠ g) → last_commands t1 (if nonempty (replied_ports st) then []
      else [del_entry dp (Some sp) g]) !! (d, i, g') = t1 !! (d, i, g')) as H2.
  { intros i g' Hg. destruct (nonempty _); [done|]. cbn. rewrite lookup_delete_ne; [done|].
    intros [= _ <- <-]. naive_solver. }
  set (t2 := last_commands t1 _) in *.
  apply (table_ok_group mem _ t _ g Ht).
  - intros g' Hg. by rewrite decide_False.
  - intros i g' Hg. rewrite last_commands_del, bool_decide_eq_false_2 by naive_solver. rewrite H2, H1; auto.
  - rewrite decide_True by done. rewrite last_commands_del, bool_decide_eq_false_2.
    + unfold t2, t1. destruct (replied_ports st) as [|p l] eqn:Er; cbn [nonempty andb].
      { cbn. rewrite Hd. by rewrite lookup_delete_eq. }
      destruct (del_ports st) as [|p' l'] eqn:Eg; cbn [nonempty].
      * cbn. rewrite (t_server _ _ Ht), Hm, <- no_gone, Er by done. done.
      * cbn. rewrite Hd. by rewrite lookup_insert_eq.
    + intros (_ & _ & Hin). apply list_elem_of_fmap in Hin as (p & [= <-] & Hin).
      apply Hsp, key_cases; auto.
  - intros p Hp. rewrite decide_True by done. rewrite last_commands_del.
    rewrite H2 by (left; congruence).
    assert (t1 !! (d, Some p, g) = t !! (d, Some p, g)) as ->.
    { unfold t1. destruct (_ && _); [|done]. cbn. by rewrite lookup_insert_ne by congruence. }
    rewrite (t_hosts _ _ Ht) by done. rewrite Hm.
    destruct (bool_decide (d = _ ∧ _)) eqn:Eb.
    + apply bool_decide_eq_true in Eb as (_ & _ & (p' & [= <-] & Hin)%list_elem_of_fmap).
      rewrite bool_decide_eq_false_2; [done|]. rewrite expired_keys by done.
      apply gone_keys in Hin; [congruence|done].
    + apply bool_decide_eq_false in Eb. erewrite bool_decide_ext; [done|].
      rewrite key_cases by done. split; [|auto]. intros [|Hin]; [done|]. destruct Eb.
      split_and!; [done..|]. apply list_elem_of_fmap. eauto.
Qed.

Definition status (q : querier) (g : Z) : odict Z bool := default [] (od_get g (_mcast q)).

(** A group whose members all replied. *)
Definition settled (q : querier) (g : Z) : Prop := members q g = replied_ports (status q g).

Lemma status_expire q g g' :
  groups_ok (_mcast q) →
  status (set_mcast (expire_one g (_mcast q)) q) g' =
    if decide (g' = g) then expired (status q g) else status q g'.
Proof.
  intros Hq. unfold status, expire_one. cbn. rewrite od_get_alter. case_decide as Hg; [subst|done].
  destruct (od_get g (_mcast q)) as [st|] eqn:E; cbn; [|done].
  apply delete_gone. by apply (Hq g).
Qed.

Lemma replied_expired st : replied_ports (expired st) = replied_ports st.
Proof.
  unfold replied_ports, expired. f_equal. rewrite list_filter_filter. apply list_filter_iff. tauto.
Qed.

Lemma od_ok_filter {V} (l : odict Z V) (P : Z * V → Prop) `{!∀ x, Decision (P x)} :
  od_ok l → od_ok (filter P l).
Proof.
  unfold od_ok, od_keys. induction l as [|kv l IH]; [done|]. rewrite fmap_cons, NoDup_cons.
  intros [Hn Hl]. rewrite filter_cons. case_decide; [|by apply IH].
  rewrite fmap_cons, NoDup_cons. split; [|by apply IH].
  intros (kv' & E & [_ Hin]%list_elem_of_filter)%list_elem_of_fmap. apply Hn. rewrite E.
  apply list_elem_of_fmap. eauto.
Qed.

Lemma groups_ok_expire q g : groups_ok (_mcast q) → groups_ok (expire_one g (_mcast q)).
Proof.
  intros Hq g' st. unfold expire_one. rewrite od_get_alter. case_decide as Hg; [|apply Hq].
  intros (st0 & E & ->)%fmap_Some. subst. rewrite E. cbn.
  destruct (Hq g st0 E) as [Hok Hsp]. rewrite delete_gone by done. split; [by apply od_ok_filter|].
  intros Hin. apply Hsp. apply key_cases; [done|]. left. done.
Qed.

Lemma table_ok_ext mem mem' t : (∀ g, mem' g = mem g) → table_ok mem t → table_ok mem' t.
Proof. intros H [H1 H2]. split; intros; rewrite H; auto. Qed.

Lemma expire_step q t g :
  querier_ok q t →
  ∃ o q' r, expire_group g q = (o, q', r) ∧ querier_ok q' (last_commands t o) ∧
    (∀ g', replied_ports (status q' g') = replied_ports (status q g')) ∧
    (r = Ret tt → settled q' g) ∧ (∀ g', settled q g' → settled q' g') ∧
    od_keys (_mcast q') = od_keys (_mcast q) ∧
    (is_Some (_datapath q) → r = Ret tt) ∧
    (q_dpid q', _datapath q', _querier_thread q', q_threads q') =
      (q_dpid q, _datapath q, _querier_thread q, q_threads q).
Proof.
  intros [Hp Hd Hk Hg Ht]. destruct (_datapath q) as [dp|] eqn:E.
  - destruct (Hd dp eq_refl) as [Hd1 Hd2].
    eexists _, _, _. split; [apply expire_run; [done|done|by rewrite Hd2]|].
    destruct (status_ok q g _ Hg eq_refl) as [Hok Hsp].
    pose proof (status_expire q g) as Hst.
    assert (∀ g', members (set_mcast (expire_one g (_mcast q)) q) g' =
      if decide (g' = g) then replied_ports (status q g) else members q g') as Hm.
    { intros g'. unfold members at 1. fold (status (set_mcast (expire_one g (_mcast q)) q) g').
      rewrite Hst by done. by case_decide. }
    split_and!.
    + split; [exact Hp| |by apply od_ok_alter|by apply groups_ok_expire|].
      { intros dp' Hdp. apply Hd. by rewrite <- E. }
      eapply table_ok_ext; [exact Hm|]. by apply expire_table.
    + intros g'. rewrite Hst by done. case_decide; [subst; apply replied_expired|done].
    + intros _. unfold settled. rewrite Hm, Hst, !decide_True by done. by rewrite replied_expired.
    + intros g' Hs. unfold settled. rewrite Hm, Hst by done. case_decide; [by rewrite replied_expired|done].
    + apply od_keys_alter.
    + done.
    + by rewrite <- E.
  - destruct (expire_without q g E) as [->|(-> & Hgone & _)]; eexists _, _, _; (split; [done|]);
      (split; [by split; [|rewrite E| | |]|]); split_and!; try done; rewrite ?E; try done; try by intros [].
    intros _. unfold settled. symmetry. by apply no_gone.
Qed.

Lemma expire_all q t groups :
  querier_ok q t →
  ∃ o q' r, for_each groups expire_group q = (o, q', r) ∧ querier_ok q' (last_commands t o) ∧
    (∀ g', replied_ports (status q' g') = replied_ports (status q g')) ∧
    (r = Ret tt → ∀ g, g ∈ groups → settled q' g) ∧ (∀ g', settled q g' → settled q' g') ∧
    od_keys (_mcast q') = od_keys (_mcast q) ∧
    (is_Some (_datapath q) → r = Ret tt) ∧
    (q_dpid q', _datapath q', _querier_thread q', q_threads q') =
      (q_dpid q, _datapath q, _querier_thread q, q_threads q).
Proof.
  revert q t. induction groups as [|g groups IH]; intros q t Hq.
  { exists [], q, (Ret tt). split_and!; try done. intros _ g Hin. by apply not_elem_of_nil in Hin. }
  destruct (expire_step q t g Hq) as (o1 & q1 & r1 & E1 & H1 & Hr1 & Hs1 & Hk1 & Hd1 & Hret1 & Hf1).
  cbn [for_each]. destruct r1 as [[]|e].
  - destruct (IH q1 _ H1) as (o2 & q2 & r2 & E2 & H2 & Hr2 & Hs2 & Hk2 & Hd2 & Hret2 & Hf2).
    exists (o1 ++ o2), q2, r2. rewrite (run_bind _ _ _ _ _ _ E1), E2. rewrite last_commands_app.
    split_and!; [done|done| | |auto|congruence| |congruence].
    + intros g'. by rewrite Hr2, Hr1.
    + intros -> g' [->|Hin]%elem_of_cons; [apply Hk2, Hs1; done|by apply Hs2].
    + intros Hd. apply Hret2. injection Hf1 as _ -> _ _. done.
  - exists o1, q1, (Raise e). unfold mbind, M_bind. rewrite E1. by split_and!.
Qed.

(** ** Rounds *)

Lemma delete_groups_run l q :
  for_each l (λ g, modify (λ q, q <| _mcast ::= od_del g |>)) q =
    ([] : list igmp_out, set_mcast (foldl (λ m g, od_del g m) (_mcast q) l) q, Ret tt : outcome pyexn ()).
Proof.
  revert q. induction l as [|g l IH]; intros q; cbn [for_each foldl]; [by destruct q|].
  by rewrite modify_bind, IH.
Qed.

Lemma get_filter {V} (l : odict Z V) (P : Z → Prop) `{!∀ x, Decision (P x)} k :
  od_get k (filter (λ kv, P kv.1) l) = if decide (P k) then od_get k l else None.
Proof.
  induction l as [|[k0 x] l IH]; [by case_decide|]. rewrite filter_cons. cbn [fst].
  destruct (decide (P k0)) as [H0|H0]; cbn [od_get]; rewrite ?IH; repeat case_decide; by subst.
Qed.

(** Groups without members may go. *)
Lemma drop_groups q t l :
  querier_ok q t → (∀ g, g ∈ l → members q g = []) →
  querier_ok (set_mcast (foldl (λ m g, od_del g m) (_mcast q) l) q) t ∧
  ∀ g, members (set_mcast (foldl (λ m g, od_del g m) (_mcast q) l) q) g = members q g.
Proof.
  intros [Hp Hd Hk Hg Ht] Hl.
  assert (∀ g, od_get g (foldl (λ m g, od_del g m) (_mcast q) l) =
    if decide (g ∉ l) then od_get g (_mcast q) else None) as Hget.
  { intros g. rewrite od_del_keys. exact (get_filter (_mcast q) (λ k, k ∉ l) g). }
  assert (∀ g, members (set_mcast (foldl (λ m g, od_del g m) (_mcast q) l) q) g = members q g) as Hm.
  { intros g. unfold members at 1. cbn. rewrite Hget.
    case_decide as Hin; [done|]. symmetry. apply Hl. done. }
  split; [|done]. split; [exact Hp|exact Hd| | |].
  - cbn. rewrite od_del_keys. by apply od_ok_filter.
  - intros g st. cbn. rewrite Hget. case_decide; [apply Hg|done].
  - by eapply table_ok_ext.
Qed.

Lemma in_del_groups (m : odict Z (odict Z bool)) g :
  od_ok m →
  g ∈ od_keys (filter (λ kv, replied_ports kv.2 = []) m) ↔ ∃ st, od_get g m = Some st ∧ replied_ports st = [].
Proof.
  intros Hm. unfold od_keys. rewrite list_elem_of_fmap. split.
  - intros ([g' st] & -> & [Hr Hin]%list_elem_of_filter). cbn in *. exists st. split; [by apply od_elem_get|done].
  - intros (st & E & Hr). exists (g, st). split; [done|]. apply list_elem_of_filter. split; [done|by apply od_get_elem].
Qed.

Lemma round_end_step q t :
  querier_ok q t →
  ∃ o q' r, round_end q = (o, q', r) ∧ querier_ok q' (last_commands t o) ∧
    (r = Ret tt → ∀ g, members q' g = replied_ports (status q g)) ∧
    (is_Some (_datapath q) → r = Ret tt) ∧
    (q_dpid q', _datapath q', _querier_thread q', q_threads q') =
      (q_dpid q, _datapath q, _querier_thread q, q_threads q).
Proof.
  intros Hq. unfold round_end. rewrite gets_bind.
  destruct (expire_all q t (od_keys (_mcast q)) Hq) as (o1 & q1 & r1 & E1 & H1 & Hr1 & Hs1 & _ & Hk1 & Hret1 & Hf1).
  set (gone := od_keys (filter (λ kv : Z * odict Z bool, replied_ports kv.2 = []) (_mcast q))).
  destruct r1 as [[]|e]; cycle 1.
  { exists o1, q1, (Raise e). unfold mbind, M_bind. rewrite E1. by split_and!. }
  assert (∀ g, members q1 g = replied_ports (status q g)) as Hm.
  { intros g. rewrite <- Hr1. destruct (decide (g ∈ od_keys (_mcast q))) as [Hin|Hin]; [by apply Hs1|].
    assert (od_get g (_mcast q1) = None) as E; [|unfold members, status; by rewrite E].
    apply eq_None_not_Some. by rewrite od_get_is_key, Hk1. }
  rewrite (run_bind _ _ _ _ _ _ E1), delete_groups_run, app_nil_r.
  destruct (drop_groups q1 _ gone H1) as [Hq' Hm'].
  { intros g (st & E & Hr)%in_del_groups; [|apply Hq]. rewrite Hm. unfold status. by rewrite E. }
  eexists _, _, _. split_and!; [done|done| |done|done]. intros _ g. by rewrite Hm', Hm.
Qed.

(** ** Reports and leaves *)

(** The reply recorded for a member, if any. *)
Definition reply (q : querier) (g p : Z) : option bool := od_get p (status q g).

(** A change of the members of one group. *)
Lemma querier_ok_group q t m' t' g :
  querier_ok q t → od_ok m' →
  (∀ g', g' ≠ g → od_get g' m' = od_get g' (_mcast q)) →
  od_ok (default [] (od_get g m')) → sp ∉ od_keys (default [] (od_get g m')) →
  (table_ok (members q) t → table_ok (members (set_mcast m' q)) t') →
  querier_ok (set_mcast m' q) t'.
Proof.
  intros [Hp Hd Hk Hg Ht] Hm Hne Hok Hsp Htab. split; [exact Hp|exact Hd|exact Hm| |by apply Htab].
  intros g' st E. destruct (decide (g' = g)) as [->|Hg'].
  - cbn in E. by rewrite E in Hok, Hsp.
  - apply (Hg g'). cbn in E. by rewrite <- Hne.
Qed.

Lemma member_cases (q : querier) g p : p ∈ members q g ↔ is_Some (reply q g p).
Proof. symmetry. apply od_get_is_key. Qed.

(** The handlers first make sure that there is a dictionary for the group. *)
Definition altered (f : odict Z bool → odict Z bool) (g : Z) (q : querier) : querier :=
  set_mcast (od_alter f g (od_setdefault g [] (_mcast q))) q.

Lemma status_altered f g q g' :
  status (altered f g q) g' = if decide (g' = g) then f (status q g) else status q g'.
Proof.
  unfold status at 1, altered. cbn. rewrite od_get_alter, od_get_setdefault.
  by case_decide; subst.
Qed.

Lemma altered_ok f g q t t' :
  querier_ok q t → od_ok (f (status q g)) → sp ∉ od_keys (f (status q g)) →
  (table_ok (members q) t → table_ok (members (altered f g q)) t') →
  querier_ok (altered f g q) t'.
Proof.
  intros Hq Hok Hsp Ht. apply (querier_ok_group q t _ t' g Hq).
  - apply od_ok_alter, od_ok_setdefault, Hq.
  - intros g' Hg. by rewrite od_get_alter, decide_False, od_get_setdefault, decide_False.
  - change (od_ok (status (altered f g q) g)). by rewrite status_altered, decide_True.
  - change (sp ∉ od_keys (status (altered f g q) g)). by rewrite status_altered, decide_True.
  - exact Ht.
Qed.

Lemma members_altered f g q g' :
  members (altered f g q) g' = if decide (g' = g) then od_keys (f (status q g)) else members q g'.
Proof. unfold members at 1. fold (status (altered f g q) g'). rewrite status_altered. by case_decide. Qed.

Lemma setdefault_altered g q : q <| _mcast ::= od_setdefault g [] |> = altered (λ st, st) g q.
Proof. unfold altered. by rewrite od_alter_id. Qed.

Lemma alter_altered f h g q : altered h g q <| _mcast ::= od_alter f g |> = altered (λ st, f (h st)) g q.
Proof. unfold altered, set_mcast. cbn. by rewrite od_alter_compose. Qed.

(** The threads and the datapath are as before. *)
Definition idle (q q' : querier) : Prop := _datapath q' = _datapath q ∧ q_threads q' = q_threads q.

Lemma report_step q t req m :
  querier_ok q t → dp_id (datapath_of m) = d → ofp_version (datapath_of m) = v → in_port_of m ≠ sp →
  ∃ o q', querier_do_report req (in_port_of m) m q = (o, q', Ret tt) ∧ querier_ok q' (last_commands t o) ∧ idle q q' ∧
    ∀ g p, reply q' g p = if decide (g = address req ∧ p = in_port_of m) then Some true else reply q g p.
Proof.
  intros Hq Hd Hv Hsp. set (g := address req). set (p := in_port_of m) in *.
  destruct (status_ok q g _ (qk_groups _ _ Hq) eq_refl) as [Hok Hnsp]. fold (status q g) in Hok, Hnsp.
  set (f := od_set p true).
  assert (∀ g' p', reply (altered f g q) g' p' =
    if decide (g' = g ∧ p' = p) then Some true else reply q g' p') as Hreply.
  { intros g' p'. unfold reply. rewrite status_altered. destruct (decide (g' = g)) as [->|Hg].
    - unfold f. rewrite od_get_set. destruct (decide (p' = p)) as [->|Hp'];
        [by rewrite decide_True|by rewrite decide_False by tauto].
    - by rewrite decide_False by tauto. }
  assert (od_keys (f (status q g)) =
    if decide (p ∈ members q g) then members q g else members q g ++ [p]) as Hkeys by apply od_keys_set.
  unfold querier_do_report. fold g p.
  rewrite modify_bind, get_bind, setdefault_altered. fold (status (altered (λ st, st) g q) g).
  rewrite status_altered, decide_True, modify_bind, alter_altered by done. fold f.
  change (λ st, f st) with f.
  assert (∀ t', (table_ok (members q) t → table_ok (members (altered f g q)) t') →
    querier_ok (altered f g q) t') as Hok'.
  { intros t'. apply altered_ok; [done|by apply od_ok_set|]. rewrite Hkeys.
    case_decide; [done|]. rewrite elem_of_app, list_elem_of_singleton. intros [|]; [done|congruence]. }
  destruct (od_mem p (status q g)) eqn:Ep; cbn [negb when].
  - exists [], (altered f g q). split_and!; [done| |done|done]. apply Hok'.
    apply table_ok_ext. intros g'. rewrite members_altered. destruct (decide (g' = g)) as [->|]; [|done].
    rewrite Hkeys, decide_True; [done|]. by apply od_mem_spec.
  - assert (p ∉ members q g) as Hp by (intros Hin%od_mem_spec; unfold status in Ep; congruence).
    rewrite decide_False in Hkeys by done.
    rewrite get_bind. change (server_port (altered f g q)) with (server_port q).
    fold (members (altered f g q) g). rewrite members_altered, decide_True, Hkeys, (qk_port _ _ Hq) by done.
    erewrite run_bind; [|apply set_flow_run; by rewrite Hv]. rewrite set_flow_run by (by rewrite Hv).
    eexists _, _. split_and!; [done| |done|done]. apply Hok'. intros Ht. rewrite Hv.
    apply (table_ok_group (members q) _ t _ g Ht); rewrite ?members_altered, ?decide_True, ?Hkeys by done.
    + intros g' Hg. by rewrite members_altered, decide_False.
    + intros i g' Hg. cbn. by rewrite !lookup_insert_ne by congruence.
    + cbn. rewrite lookup_insert_ne by congruence. rewrite Hd, lookup_insert_eq. by destruct (members q g).
    + intros p' Hp'. rewrite ?members_altered, ?decide_True, ?Hkeys by done. cbn. rewrite Hd.
      destruct (decide (p' = p)) as [->|Hne].
      * rewrite lookup_insert_eq, bool_decide_eq_true_2; [done|]. apply elem_of_app. right. apply list_elem_of_here.
      * rewrite !lookup_insert_ne by congruence. rewrite (t_hosts _ _ Ht) by done.
        erewrite bool_decide_ext; [done|]. rewrite elem_of_app, list_elem_of_singleton. tauto.
Qed.

Lemma leave_step q t req m :
  querier_ok q t → dp_id (datapath_of m) = d → ofp_version (datapath_of m) = v → in_port_of m ≠ sp →
  ∃ o q', querier_do_leave req (in_port_of m) m q = (o, q', Ret tt) ∧ querier_ok q' (last_commands t o) ∧ idle q q' ∧
    ∀ g p, reply q' g p = if decide (g = address req ∧ p = in_port_of m) then None else reply q g p.
Proof.
  intros Hq Hd Hv Hsp. set (g := address req). set (p := in_port_of m) in *.
  destruct (status_ok q g _ (qk_groups _ _ Hq) eq_refl) as [Hok Hnsp]. fold (status q g) in Hok, Hnsp.
  unfold querier_do_leave. fold g p.
  rewrite modify_bind, get_bind, setdefault_altered. fold (status (altered (λ st, st) g q) g).
  rewrite status_altered, decide_True by done.
  destruct (od_mem p (status q g)) eqn:Ep; cbn [when]; cycle 1.
  { exists [], (altered (λ st, st) g q). split_and!; [done| |done|].
    - eapply altered_ok; [done..|]. apply table_ok_ext. intros g'. rewrite members_altered. by case_decide; subst.
    - intros g' p'. unfold reply. rewrite status_altered. case_decide as Hg; [subst|by rewrite decide_False by tauto].
      case_decide as Hp; [destruct Hp as [_ ->]|done]. apply eq_None_not_Some. intros [b Hb].
      unfold od_mem in Ep. rewrite Hb in Ep. by rewrite bool_decide_eq_true_2 in Ep. }
  erewrite run_bind; [|apply del_flow_run; by rewrite Hv].
  rewrite modify_bind, alter_altered, get_bind. set (f := od_del p). change (λ st, f st) with f.
  assert (∀ p', p' ∈ od_keys (f (status q g)) ↔ p' ≠ p ∧ p' ∈ members q g) as Hkeys.
  { intros p'. unfold f. rewrite od_keys_del, list_elem_of_filter. done. }
  change (server_port (altered f g q)) with (server_port q).
  fold (members (altered f g q) g). rewrite members_altered, decide_True, (qk_port _ _ Hq), nonempty_fmap by done.
  set (l := od_keys (f (status q g))) in *.
  set (x := if nonempty l then set_entry (datapath_of m) (to_port <$> l) (Some sp) g
            else del_entry (datapath_of m) (Some sp) g).
  exists [del_entry (datapath_of m) (Some p) g; x], (altered f g q). split_and!.
  - unfold x. destruct (nonempty l);
      [rewrite set_flow_run by (by rewrite Hv)|rewrite del_flow_run by (by rewrite Hv)]; done.
  - eapply altered_ok; [done|by apply od_ok_del| |].
    { fold l. rewrite Hkeys. by intros [_ ?]. }
    intros Ht. apply (table_ok_group (members q) _ t _ g Ht); rewrite ?members_altered, ?decide_True by done; fold l.
    + intros g' Hg. by rewrite members_altered, decide_False.
    + intros i g' Hg. unfold x.
      destruct (nonempty l); cbn; rewrite ?lookup_insert_ne, !lookup_delete_ne by congruence; done.
    + unfold x. rewrite <- Hd. destruct (nonempty l); cbn; [by rewrite lookup_insert_eq|by rewrite lookup_delete_eq].
    + intros p' Hp'.
      assert (last_commands t [del_entry (datapath_of m) (Some p) g; x] !! (d, Some p', g) =
        if decide (p' = p) then None else t !! (d, Some p', g)) as ->.
      { unfold x. rewrite <- Hd. destruct (nonempty l); cbn;
          rewrite ?lookup_insert_ne, ?(lookup_delete_ne _ (_, Some sp, _)) by congruence;
          (case_decide; [by subst; rewrite lookup_delete_eq|by rewrite lookup_delete_ne by congruence]). }
      rewrite (t_hosts _ _ Ht) by done. case_decide as Hpp.
      * rewrite bool_decide_eq_false_2; [done|]. rewrite Hkeys. naive_solver.
      * erewrite bool_decide_ext; [done|]. rewrite Hkeys. naive_solver.
  - done.
  - intros g' p'. unfold reply. rewrite status_altered. destruct (decide (g' = g)) as [->|Hg].
    + unfold f. rewrite od_get_del. destruct (decide (p' = p)) as [->|]; [by rewrite decide_True|by rewrite decide_False by tauto].
    + by rewrite decide_False by tauto.
Qed.

(** ** Steps of the querier *)

Definition unreplied : odict Z bool → odict Z bool := fmap (M := list) (prod_map id (λ _, false)).

Definition reset (q : querier) : querier := set_mcast (prod_map id unreplied <$> _mcast q) q.

Lemma od_get_map {V W} (f : V → W) (l : odict Z V) k : od_get k (prod_map id f <$> l) = f <$> od_get k l.
Proof. induction l as [|[k0 x] l IH]; cbn; [done|]. by case_decide. Qed.

Lemma od_keys_map {V W} (f : V → W) (l : odict Z V) : od_keys (prod_map id f <$> l) = od_keys l.
Proof. unfold od_keys. rewrite <- list_fmap_compose. by apply list_fmap_ext. Qed.

Lemma status_reset q g : status (reset q) g = unreplied (status q g).
Proof.
  unfold status at 1. change (_mcast (reset q)) with (prod_map id unreplied <$> _mcast q). rewrite od_get_map.
  unfold status. by destruct (od_get g (_mcast q)).
Qed.

Lemma members_reset q g : members (reset q) g = members q g.
Proof. unfold members. fold (status (reset q) g). rewrite status_reset. apply od_keys_map. Qed.

Lemma reset_ok q t : querier_ok q t → querier_ok (reset q) t.
Proof.
  intros [Hp Hd Hk Hg Ht]. split; [exact Hp|exact Hd| | |].
  - unfold od_ok. change (_mcast (reset q)) with (prod_map id unreplied <$> _mcast q). by rewrite od_keys_map.
  - intros g st. change (_mcast (reset q)) with (prod_map id unreplied <$> _mcast q).
    rewrite od_get_map. intros (st0 & E & ->)%fmap_Some.
    unfold od_ok, unreplied. rewrite od_keys_map. by apply (Hg g).
  - eapply table_ok_ext; [|exact Ht]. apply members_reset.
Qed.

Lemma round_begin_run q src port flood :
  round_begin src port flood q =
    match _datapath q with
    | None => ([], reset q, Raise AttributeError)
    | Some dp => ([PacketOut (dp_id dp) (general_query src) port [to_port flood]], reset q, Ret tt)
    end.
Proof.
  unfold round_begin. rewrite modify_bind, gets_bind.
  change (_ <| _mcast ::= _ |>) with (reset q). change (_datapath (reset q)) with (_datapath q).
  by destruct (_datapath q).
Qed.

(** What the parts of a step keep. *)
Definition steps_ok {A} (m : QM A) : Prop :=
  ∀ q t, querier_ok q t → querier_ok (final m q) (last_commands t (outputs m q)).

Lemma steps_ok_bind {A B} (m : QM A) (k : A → QM B) :
  steps_ok m → (∀ a, steps_ok (k a)) → steps_ok (m ≫= k).
Proof.
  intros Hm Hk q t Hq. specialize (Hm q t Hq). unfold final, outputs, mbind, M_bind in *.
  destruct (m q) as [[o1 q1] [a|e]]; [|done]. specialize (Hk a q1 _ Hm). unfold final, outputs in Hk.
  destruct (k a q1) as [[o2 q2] r2]. cbn in *. by rewrite last_commands_app.
Qed.

Lemma steps_ok_modify f : (∀ q t, querier_ok q t → querier_ok (f q) t) → steps_ok (modify f).
Proof. intros H q t Hq. by apply H. Qed.

Lemma threads_ok q t f : querier_ok q t → querier_ok (q <| q_threads ::= f |>) t.
Proof. by intros [? ? ? ? ?]. Qed.

Lemma steps_ok_begin src port flood : steps_ok (round_begin src port flood).
Proof.
  intros q t Hq. unfold final, outputs. rewrite round_begin_run. destruct (_datapath q); by apply reset_ok.
Qed.

Lemma steps_ok_end : steps_ok round_end.
Proof.
  intros q t Hq. destruct (round_end_step q t Hq) as (o & q' & r & E & H & _).
  unfold final, outputs. by rewrite E.
Qed.

Lemma steps_ok_thread id th : steps_ok (set_thread id th).
Proof. apply steps_ok_modify. intros. by apply threads_ok. Qed.

Lemma steps_ok_prologue : steps_ok query_prologue.
Proof.
  intros q t Hq. unfold final, outputs, query_prologue. rewrite gets_bind.
  destruct (_datapath q) as [dp|]; cbn [or_raise]; [rewrite ret_bind|done].
  by destruct (hw_addr dp !! _).
Qed.

Lemma steps_ok_query id : steps_ok (send_query id).
Proof.
  intros q t Hq. unfold send_query. set (m := λ th : option thread, _ : QM ()).
  assert (steps_ok (gets (λ q, q_threads q !! id) ≫= m)) as H; [|exact (H q t Hq)].
  apply steps_ok_bind; [by intros ? ? ?|]. intros th. unfold m. intros q0 t0 H0.
  set (body := match th with None => mret tt | Some _ => _ end).
  assert (steps_ok body) as Hb.
  { unfold body. destruct th as [[|s p f|s p f]|].
    - apply steps_ok_bind; [apply steps_ok_prologue|]. intros [[s p] f].
      apply steps_ok_bind; [apply steps_ok_begin|]. intros _. apply steps_ok_thread.
    - apply steps_ok_bind; [apply steps_ok_end|]. intros _. apply steps_ok_thread.
    - apply steps_ok_bind; [apply steps_ok_begin|]. intros _. apply steps_ok_thread.
    - by intros ? ? ?. }
  specialize (Hb q0 t0 H0). unfold final, outputs, try_with in *.
  destruct (body q0) as [[o1 q1] [a|e]]; [done|].
  rewrite modify_bind. cbn [raise fst snd] in *. rewrite app_nil_r. by apply threads_ok.
Qed.

(** What may happen to the querier of switch [d]: packets of that switch, from other ports than
    the server's; connections and disconnections of it; progress of any thread. *)
Inductive querier_op :=
| QPacket (req : igmp) (m : msg)
| QStart (dp : datapath)
| QStop
| QThread (id : nat).

Definition querier_do (op : querier_op) : QM () :=
  match op with
  | QPacket req m => querier_packet_in req m
  | QStart dp => start_loop dp
  | QStop => stop_loop
  | QThread id => send_query id
  end.

Definition from_switch (m : msg) : Prop :=
  dp_id (datapath_of m) = d ∧ ofp_version (datapath_of m) = v ∧ in_port_of m ≠ sp.

Definition querier_enabled (op : querier_op) : Prop :=
  match op with
  | QPacket _ m => from_switch m
  | QStart dp => dp_id dp = d ∧ ofp_version dp = v
  | _ => True
  end.

Definition querier_step (x : querier * table) (op : querier_op) (y : querier * table) : Prop :=
  querier_enabled op ∧
  y = (final (querier_do op) x.1, last_commands x.2 (outputs (querier_do op) x.1)).

Definition querier_start (x : querier * table) : Prop :=
  x = (final (set_querier_mode d sp) querier_init, ∅).

Lemma querier_start_ok : querier_ok (final (set_querier_mode d sp) querier_init) ∅.
Proof. split; [done|done|apply od_ok_nil|done|by split]. Qed.

Lemma packet_step q t req m :
  querier_ok q t → from_switch m →
  ∃ o q', querier_packet_in req m q = (o, q', Ret tt) ∧ querier_ok q' (last_commands t o) ∧ idle q q' ∧
    ∀ g p, reply q' g p =
      if decide (g = address req ∧ p = in_port_of m) then
        (if bool_decide (msgtype req ∈ [IGMP_TYPE_REPORT_V1; IGMP_TYPE_REPORT_V2]) then Some true
         else if msgtype req =? IGMP_TYPE_LEAVE then None else reply q g p)
      else reply q g p.
Proof.
  intros Hq (Hd & Hv & Hp). unfold querier_packet_in.
  rewrite (Z.eqb_sym IGMP_TYPE_REPORT_V1), (Z.eqb_sym IGMP_TYPE_REPORT_V2), (Z.eqb_sym IGMP_TYPE_LEAVE).
  destruct (_ || _) eqn:Er.
  - destruct (report_step q t req m Hq Hd Hv Hp) as (o & q' & E & H & Hi & Hr). exists o, q'. split_and!; [done|done|done|].
    intros g p. rewrite Hr, bool_decide_eq_true_2; [done|]. rewrite !elem_of_cons.
    apply orb_true_iff in Er as [->%Z.eqb_eq| ->%Z.eqb_eq]; auto.
  - rewrite bool_decide_eq_false_2.
    + destruct (_ =? IGMP_TYPE_LEAVE) eqn:El.
      * destruct (leave_step q t req m Hq Hd Hv Hp) as (o & q' & E & H & Hi & Hr). by exists o, q'.
      * exists [], q. split_and!; [done|done|done|]. intros g p. by case_decide.
    + rewrite !elem_of_cons. apply orb_false_iff in Er as [H1%Z.eqb_neq H2%Z.eqb_neq].
      intros [?|[?|H]]; [done|done|by apply not_elem_of_nil in H].
Qed.

Lemma querier_do_ok q t op :
  querier_ok q t → querier_enabled op →
  querier_ok (final (querier_do op) q) (last_commands t (outputs (querier_do op) q)).
Proof.
  intros Hq Hen. destruct op as [req m|dp| |id]; cbn [querier_do].
  - destruct (packet_step q t req m Hq Hen) as (o & q' & E & H & _). unfold final, outputs. by rewrite E.
  - destruct Hq as [Hp Hd Hk Hg Ht]. split; [exact Hp| |exact Hk|exact Hg|exact Ht].
    cbn. by intros ? [= <-].
  - destruct Hq as [Hp Hd Hk Hg Ht]. unfold final, outputs, stop_loop. rewrite gets_bind.
    unfold kill. rewrite bind_assoc. destruct (_querier_thread q) as [id|]; [|done].
    cbn [or_raise]. rewrite ret_bind. split; done.
  - by apply steps_ok_query.
Qed.

Lemma querier_reachable_ok q t : reachable querier_start querier_step (q, t) → querier_ok q t.
Proof.
  intros Hr. assert (∀ x, reachable querier_start querier_step x → querier_ok x.1 x.2) as H.
  { apply reachable_inv; [intros ? ->; apply querier_start_ok|].
    intros x op y IH [Hen ->]. by apply querier_do_ok. }
  exact (H _ Hr).
Qed.

(** C28: The commands of the querier agree with its record of the members.  The mode is set once,
    for switch [d] and server port [sp]; then come, in any order, packets of that switch from
    other ports than [sp], connections and disconnections of it, and progress of the threads.  At
    every point, what the flow mods sent so far amount to is: the packets from the server's port
    to a group go to exactly its members, in the order they joined, those from a member's port to
    the controller, and there is no entry of any other port of the switch.  Reports from the
    server's port and a second setting of the mode are left out because with them this is false
    ([server_port_report], [mode_change_keeps_members]). *)
Theorem querier_entries q t :
  reachable querier_start querier_step (q, t) →
  ∀ g,
    t !! (d, Some sp, g) = (if nonempty (members q g) then Some (to_port <$> members q g) else None) ∧
    ∀ p, p ≠ sp →
      t !! (d, Some p, g) = if bool_decide (p ∈ members q g) then Some [to_controller v] else None.
Proof.
  intros Hr g. destruct (querier_reachable_ok q t Hr) as [_ _ _ _ [H1 H2]]. split; [apply H1|].
  intros p Hp. by apply H2.
Qed.

(** ** A round *)

(** The last word of a host about a group: whether it wants to be a member. *)
Definition word (g p : Z) (b : bool) (x : igmp * msg) : bool :=
  if decide (g = address x.1 ∧ p = in_port_of x.2) then
    if bool_decide (msgtype x.1 ∈ [IGMP_TYPE_REPORT_V1; IGMP_TYPE_REPORT_V2]) then true
    else if msgtype x.1 =? IGMP_TYPE_LEAVE then false else b
  else b.

Definition handle_packets (ms : list (igmp * msg)) : QM () :=
  for_each ms (λ x, querier_packet_in x.1 x.2).

Definition wants (r : option bool) : bool := match r with Some b => b | None => false end.

Lemma packets_step ms q t :
  querier_ok q t → Forall (λ x, from_switch x.2) ms →
  ∃ o q', handle_packets ms q = (o, q', Ret tt) ∧ querier_ok q' (last_commands t o) ∧ idle q q' ∧
    ∀ g p, wants (reply q' g p) = foldl (word g p) (wants (reply q g p)) ms.
Proof.
  intros Hq Hms. revert q t Hq. induction Hms as [|[req m] ms Hm Hms IH]; intros q t Hq.
  { by exists [], q. }
  destruct (packet_step q t req m Hq Hm) as (o1 & q1 & E1 & H1 & [Hi1 Hi1'] & Hr1).
  destruct (IH q1 _ H1) as (o2 & q2 & E2 & H2 & [Hi2 Hi2'] & Hr2).
  exists (o1 ++ o2), q2. unfold handle_packets in *. cbn [for_each]. rewrite (run_bind _ _ _ _ _ _ E1), E2.
  rewrite last_commands_app. split_and!; [done|done|split; congruence|].
  intros g p. rewrite Hr2. cbn [foldl]. f_equal. rewrite Hr1. unfold word. cbn [fst snd].
  destruct (decide (g = address req ∧ p = in_port_of m)); [|done]. destruct (bool_decide (_ ∈ [IGMP_TYPE_REPORT_V1; IGMP_TYPE_REPORT_V2])); [done|].
  by destruct (_ =? IGMP_TYPE_LEAVE).
Qed.

Lemma reply_reset q g p : wants (reply (reset q) g p) = false.
Proof. unfold reply. rewrite status_reset. unfold unreplied. rewrite od_get_map. by destruct (od_get p _). Qed.

Lemma query_begin_run q id src port flood dp :
  q_threads q !! id = Some (Resting src port flood) → _datapath q = Some dp →
  send_query id q =
    ([PacketOut (dp_id dp) (general_query src) port [to_port flood]],
     reset q <| q_threads ::= <[id := Waiting src port flood]> |>, Ret tt).
Proof.
  intros Ht Hd. unfold send_query. rewrite gets_bind, Ht. unfold try_with.
  erewrite run_bind; [|by rewrite round_begin_run, Hd]. done.
Qed.

(** A round of the querier, from one general query to the end of the time to reply, whatever
    packets arrive in between: it sends the query, fails nowhere, and afterwards the members of
    every group are exactly the ports whose last word about it, since the query, was a report. *)
Theorem round_keeps_reporters q t id src port flood dp ms :
  reachable querier_start querier_step (q, t) →
  q_threads q !! id = Some (Resting src port flood) → _datapath q = Some dp →
  Forall (λ x, from_switch x.2) ms →
  ∃ o q', (send_query id;; handle_packets ms;; send_query id) q =
      (PacketOut d (general_query src) port [to_port flood] :: o, q', Ret tt) ∧
    q_threads q' !! id = Some (Resting src port flood) ∧
    ∀ g p, p ∈ members q' g ↔ foldl (word g p) false ms = true.
Proof.
  intros Hr Ht Hd Hms. pose proof (querier_reachable_ok q t Hr) as Hq.
  destruct (qk_datapath _ _ Hq dp Hd) as [Hdp Hv].
  set (q1 := reset q <| q_threads ::= <[id := Waiting src port flood]> |>).
  assert (querier_ok q1 t) as H1 by (apply threads_ok; by apply reset_ok).
  destruct (packets_step ms q1 t H1 Hms) as (o2 & q2 & E2 & H2 & [Hi2 Hi2'] & Hr2).
  assert (_datapath q2 = Some dp) as Hd2 by (rewrite Hi2; exact Hd).
  destruct (round_end_step q2 _ H2) as (o3 & q3 & r3 & E3 & _ & Hm3 & Hret3 & Hf3).
  rewrite Hret3 in E3 by (by rewrite Hd2).
  specialize (Hm3 (Hret3 ltac:(by rewrite Hd2))). injection Hf3 as _ _ _ Hf3.
  exists (o2 ++ o3), (q3 <| q_threads ::= <[id := Resting src port flood]> |>). split_and!.
  - erewrite run_bind; [|by eapply query_begin_run]. fold q1. rewrite (run_bind _ _ _ _ _ _ E2).
    unfold send_query. rewrite gets_bind, Hi2'. unfold q1 at 1.
    change (q_threads (reset q <| q_threads ::= ?f |>)) with (f (q_threads q)).
    rewrite lookup_insert_eq. unfold try_with. rewrite (run_bind _ _ _ _ _ _ E3). cbn.
    by rewrite Hdp, app_nil_r.
  - cbn. by rewrite lookup_insert_eq.
  - intros g p. change (members (q3 <| q_threads ::= ?f |>) g) with (members q3 g).
    rewrite Hm3. destruct (status_ok q2 g _ (qk_groups _ _ H2) eq_refl) as [Hok _].
    rewrite expired_keys by done. fold (reply q2 g p). specialize (Hr2 g p).
    change (reply q1 g p) with (reply (reset q) g p) in Hr2. rewrite reply_reset in Hr2.
    rewrite <- Hr2. destruct (reply q2 g p) as [[]|]; cbn; split; congruence.
Qed.
End querier.
