(* ===== verification/IgmpSnooper.v ===== *)
(** * The IGMP snooper

    The flow entries of the switches that [IgmpSnooper] watches, as an invariant over every
    history of packets and timers, and examples of both parts of the library. *)

From stdpp Require Import base list gmap.
From Stdlib Require Import ZArith Lia.
From S2P Require Import Prelude Odict Struct Ofp Igmp IgmpQuerier.

Open Scope Z_scope.
Set Default Proof Using "Type*".

(** ** The snooper's flow entries *)

Section snooper.
Context (qport ver : Z → Z).
Context (ver_supported : ∀ d, supported (ver d)).
Implicit Types (t : table) (s : snooper).

(** The ports of a group. *)
Definition ports_at (s : snooper) (d g : Z) : option (odict Z member) := ports <$> get_group s d g.

(** The entries for a group of switch [d]: the querier's packets go to ports of the group, all
    whose entry is marked as registered among them; the packets of a port of the group may have
    an entry that sends them to the controller.  There are no others. *)
Record entry_ok (d : Z) (ps : option (odict Z member)) (e : option Z → option (list action)) : Prop := {
  e_server acts : e (Some (qport d)) = Some acts →
    ∃ l qs, ps = Some qs ∧ acts = to_port <$> l ∧ ∀ p, p ∈ l → p ∈ od_keys qs;
  e_confirmed qs p m : ps = Some qs → od_get p qs = Some m → in_ m = true →
    ∃ l, e (Some (qport d)) = Some (to_port <$> l) ∧ p ∈ l;
  e_hosts p acts : p ≠ qport d → e (Some p) = Some acts →
    acts = [to_controller (ver d)] ∧ ∃ qs, ps = Some qs ∧ p ∈ od_keys qs
}.

Definition timer_ok (x : timer) : Prop :=
  match x with
  | TimeoutForQuery _ dp => ofp_version dp = ver (dp_id dp)
  | TimeoutForLeave _ dp _ p => ofp_version dp = ver (dp_id dp) ∧ p ≠ qport (dp_id dp)
  end.

Record snooper_ok (t : table) (s : snooper) : Prop := {
  so_querier d q : od_get d (_to_querier s) = Some q → tq_port q = qport d;
  so_timers x : x ∈ timers s → timer_ok x;
  so_entries d g : entry_ok d (ports_at s d g) (λ i, t !! (d, i, g))
}.

(** A run that keeps the switch's table in view: it ends in [Q], or fails and leaves a
    consistent state. *)
Definition runs {A} (m : SM A) (t : table) (s : snooper) (Q : A → table → snooper → Prop) : Prop :=
  match m s with
  | (o, s', Ret a) => Q a (last_commands t o) s'
  | (o, s', Raise _) => snooper_ok (last_commands t o) s'
  end.

Lemma runs_bind {A B} (m : SM A) (k : A → SM B) t s Q :
  runs m t s (λ a t' s', runs (k a) t' s' Q) → runs (m ≫= k) t s Q.
Proof.
  unfold runs, mbind, M_bind. destruct (m s) as [[o1 s1] [a|e]]; [|done].
  destruct (k a s1) as [[o2 s2] [b|e]]; by rewrite last_commands_app.
Qed.

Lemma runs_ret {A} (a : A) t s (Q : A → table → snooper → Prop) : Q a t s → runs (mret a) t s Q.
Proof. done. Qed.

Lemma runs_gets {A} (f : snooper → A) t s (Q : A → table → snooper → Prop) : Q (f s) t s → runs (gets f) t s Q.
Proof. done. Qed.

Lemma runs_get t s (Q : snooper → table → snooper → Prop) : Q s t s → runs get_st t s Q.
Proof. done. Qed.

Lemma runs_modify (f : snooper → snooper) t s (Q : () → table → snooper → Prop) : Q tt t (f s) → runs (modify f) t s Q.
Proof. done. Qed.

Lemma runs_emit (o : igmp_out) t s (Q : () → table → snooper → Prop) : Q tt (last_command t o) s → runs (emit o) t s Q.
Proof. done. Qed.

Lemma runs_when (b : bool) (m : SM ()) t s (Q : () → table → snooper → Prop) :
  (b = true → runs m t s Q) → (b = false → Q tt t s) → runs (when b m) t s Q.
Proof. destruct b; cbn; intros H1 H2; [by apply H1|by apply H2]. Qed.

Lemma runs_or_raise {A} (x : option A) (e : pyexn) t s (Q : A → table → snooper → Prop) :
  snooper_ok t s → (∀ a, x = Some a → Q a t s) → runs (or_raise x e) t s Q.
Proof. destruct x; cbn; intros Hs H; [by apply H|done]. Qed.

Lemma runs_set_flow (dp : datapath) (actions : list action) (in_port : option Z) (g : Z) t s (Q : () → table → snooper → Prop) :
  ofp_version dp = ver (dp_id dp) →
  Q tt (<[(dp_id dp, in_port, g) := actions]> t) s → runs (_set_flow_entry dp actions in_port g) t s Q.
Proof. intros Hv HQ. unfold runs. rewrite set_flow_run by (by rewrite Hv). done. Qed.

Lemma runs_del_flow (dp : datapath) (in_port : option Z) (g : Z) t s (Q : () → table → snooper → Prop) :
  ofp_version dp = ver (dp_id dp) →
  Q tt (delete (dp_id dp, in_port, g) t) s → runs (_del_flow_entry dp in_port g) t s Q.
Proof. intros Hv HQ. unfold runs. rewrite del_flow_run by (by rewrite Hv). done. Qed.

Lemma runs_mono {A} (m : SM A) t s (Q Q' : A → table → snooper → Prop) :
  runs m t s Q → (∀ a t' s', Q a t' s' → Q' a t' s') → runs m t s Q'.
Proof. unfold runs. destruct (m s) as [[o s'] [a|e]]; auto. Qed.

(** ** Changes of one group *)

Lemma get_group_change (f : group → group) d g s d' g' :
  get_group (change_group f d g s) d' g' =
    if decide ((d', g') = (d, g)) then f <$> get_group s d' g' else get_group s d' g'.
Proof.
  unfold get_group, change_group. cbn. rewrite od_get_alter.
  destruct (decide (d' = d)) as [->|]; [|rewrite decide_False; [done|congruence]].
  destruct (od_get d (_to_hosts s)) as [hosts|]; cbn; [|by case_decide].
  rewrite od_get_alter. destruct (decide (g' = g)) as [->|];
    [by rewrite decide_True|by rewrite decide_False by congruence].
Qed.

(** The state changes, but not what the entries depend on. *)
Lemma snooper_ok_same t s s' :
  snooper_ok t s → _to_querier s' = _to_querier s →
  (∀ x, x ∈ timers s' → timer_ok x) → (∀ d g, ports_at s' d g = ports_at s d g) → snooper_ok t s'.
Proof.
  intros [H1 H2 H3] Hq Ht Hp. split; [by rewrite Hq|done|]. intros d g. rewrite Hp. apply H3.
Qed.

Lemma snooper_ok_group t t' s s' (d g : Z) :
  snooper_ok t s → _to_querier s' = _to_querier s → (∀ x, x ∈ timers s' → timer_ok x) →
  (∀ d' g', (d', g') ≠ (d, g) → ports_at s' d' g' = ports_at s d' g') →
  (∀ d' i g', (d', g') ≠ (d, g) → t' !! (d', i, g') = t !! (d', i, g')) →
  (entry_ok d (ports_at s d g) (λ i, t !! (d, i, g)) → entry_ok d (ports_at s' d g) (λ i, t' !! (d, i, g))) →
  snooper_ok t' s'.
Proof.
  intros [H1 H2 H3] Hq Ht Hp Htab He. split; [by rewrite Hq|done|]. intros d' g'.
  destruct (decide ((d', g') = (d, g))) as [E|E]; [injection E as -> ->; by apply He|].
  destruct (H3 d' g') as [Ha Hb Hc]. rewrite Hp by done.
  split; [intros acts|intros qs p m|intros p acts Hpq]; rewrite Htab by done; eauto.
Qed.

Lemma ports_at_change (f : group → group) d g s d' g' :
  ports_at (change_group f d g s) d' g' =
    if decide ((d', g') = (d, g)) then ports <$> (f <$> get_group s d' g') else ports_at s d' g'.
Proof. unfold ports_at. rewrite get_group_change. by case_decide. Qed.

(** The group [dst] of datapath [d] after [f] changed its ports, with entries [t']. *)
Lemma change_ok t t' s d g (f : group → group) (gr : group) :
  snooper_ok t s → get_group s d g = Some gr →
  (∀ d' i g', (d', g') ≠ (d, g) → t' !! (d', i, g') = t !! (d', i, g')) →
  (entry_ok d (Some (ports gr)) (λ i, t !! (d, i, g)) → entry_ok d (Some (ports (f gr))) (λ i, t' !! (d, i, g))) →
  snooper_ok t' (change_group f d g s).
Proof.
  intros Hs Hg Ht He. eapply (snooper_ok_group t t' s _ d g Hs); [done|apply Hs| |done|].
  - intros d' g' Hne. by rewrite ports_at_change, decide_False.
  - rewrite ports_at_change, decide_True by done. unfold ports_at. by rewrite Hg.
Qed.

(** ** The handlers *)

Lemma get_group_setdefault d s d' g' :
  get_group (s <| _to_hosts ::= od_setdefault d [] |>) d' g' = get_group s d' g'.
Proof.
  unfold get_group. cbn. rewrite od_get_setdefault. case_decide; [subst|done].
  by destruct (od_get d (_to_hosts s)).
Qed.

Lemma setdefault_hosts_ok d t s : snooper_ok t s → snooper_ok t (s <| _to_hosts ::= od_setdefault d [] |>).
Proof.
  intros Hs. eapply snooper_ok_same; [done|done|apply Hs|]. intros d' g'. unfold ports_at.
  by rewrite get_group_setdefault.
Qed.

(** A group that appears has no ports and no entries. *)
Lemma entry_ok_new d e : entry_ok d None e → entry_ok d (Some []) e.
Proof.
  intros [Ha Hb Hc]. split.
  - intros acts E. by destruct (Ha acts E) as (l & qs & ? & _).
  - by intros qs p m [= <-].
  - intros p acts Hp E. by destruct (Hc p acts Hp E) as (_ & qs & ? & _).
Qed.

Lemma get_group_new d g s d' g' :
  get_group (s <| _to_hosts ::= od_alter (od_setdefault g new_group) d |>) d' g' =
    if decide ((d', g') = (d, g) ∧ is_Some (od_get d (_to_hosts s)))
    then Some (default new_group (get_group s d g)) else get_group s d' g'.
Proof.
  unfold get_group. cbn. rewrite od_get_alter. destruct (decide (d' = d)) as [->|Hd].
  - destruct (od_get d (_to_hosts s)) as [hosts|]; cbn;
      [|rewrite decide_False; [done|]; by intros [_ [? ?]]].
    rewrite od_get_setdefault. destruct (decide (g' = g)) as [->|Hg]; [by rewrite decide_True|].
    rewrite decide_False; [done|]. intros [E _]. congruence.
  - rewrite decide_False; [done|]. intros [E _]. congruence.
Qed.

Lemma setdefault_group_ok d g t s :
  snooper_ok t s → snooper_ok t (s <| _to_hosts ::= od_alter (od_setdefault g new_group) d |>).
Proof.
  intros Hs. eapply (snooper_ok_group t t s _ d g Hs); [done|apply Hs| |done|].
  - intros d' g' Hne. unfold ports_at. rewrite get_group_new, decide_False; [done|]. by intros [? _].
  - unfold ports_at. rewrite get_group_new. case_decide; [|done].
    destruct (get_group s d g) as [gr|]; cbn; [done|]. apply entry_ok_new.
Qed.

Lemma spawn_ok x t s : timer_ok x → snooper_ok t s → snooper_ok t (s <| timers ::= λ l, l ++ [x] |>).
Proof.
  intros Hx Hs. eapply snooper_ok_same; [done|done| |done]. intros y. cbn.
  rewrite elem_of_app, list_elem_of_singleton. intros [Hy| ->]; [by apply (so_timers _ _ Hs)|done].
Qed.

(** Messages the switch of datapath [d] may send: queries come from the querier's port, other
    packets from other ports, and the version of a datapath does not change. *)
Definition expected (req : igmp) (m : msg) : Prop :=
  ofp_version (datapath_of m) = ver (dp_id (datapath_of m)) ∧
  (msgtype req = IGMP_TYPE_QUERY ↔ in_port_of m = qport (dp_id (datapath_of m))).

Lemma do_query_ok query iph eth m t s :
  snooper_ok t s → ofp_version (datapath_of m) = ver (dp_id (datapath_of m)) →
  in_port_of m = qport (dp_id (datapath_of m)) →
  runs (_do_query query iph eth (in_port_of m) m) t s (λ _ t' s', snooper_ok t' s').
Proof.
  intros Hs Hv Hp. set (d := dp_id (datapath_of m)) in *. unfold _do_query. fold d.
  apply runs_bind, runs_modify.
  assert (snooper_ok t (s <| _to_querier ::= od_set d (ToQuerier (in_port_of m) iph eth) |>)) as H1.
  { destruct Hs as [Hq Ht He]. split; [|exact Ht|exact He]. intros d' q. cbn. rewrite od_get_set.
    case_decide; [|apply Hq]. intros [= <-]. subst. done. }
  revert H1. generalize (s <| _to_querier ::= od_set d (ToQuerier (in_port_of m) iph eth) |>) as s1.
  intros s1 H1. apply runs_bind, runs_modify. apply (setdefault_hosts_ok d) in H1.
  revert H1. generalize (s1 <| _to_hosts ::= od_setdefault d [] |>) as s2. intros s2 H2.
  apply runs_bind. eapply (runs_mono _ _ _ (λ _ t' s', snooper_ok t' s')).
  - destruct (_ =? 0).
    + apply runs_modify. eapply snooper_ok_same; [exact H2|done|apply H2|]. intros d' g'.
      unfold ports_at, get_group. cbn. rewrite od_get_alter. case_decide; [subst|done].
      destruct (od_get d (_to_hosts s2)) as [hosts|]; cbn; [|done].
      rewrite (od_get_map reset_reply). by destruct (od_get g' hosts).
    + apply runs_modify. eapply snooper_ok_same; [exact H2|done|apply H2|]. intros d' g'.
      rewrite ports_at_change. case_decide as E; [|done]. injection E as -> ->.
      unfold ports_at. by destruct (get_group s2 _ _).
  - intros _ t' s' H'. apply runs_bind, runs_emit, runs_modify. by apply spawn_ok.
Qed.

Lemma hosts_exist d s : is_Some (od_get d (_to_hosts (s <| _to_hosts ::= od_setdefault d [] |>))).
Proof. cbn. rewrite od_get_setdefault, decide_True by done. eauto. Qed.

(** The group is there after both defaults. *)
Lemma group_exists d g s :
  get_group (s <| _to_hosts ::= od_setdefault d [] |> <| _to_hosts ::= od_alter (od_setdefault g new_group) d |>) d g =
    Some (default new_group (get_group s d g)).
Proof.
  rewrite get_group_new, decide_True by (split; [done|apply hosts_exist]).
  by rewrite get_group_setdefault.
Qed.

(** A port whose entries are to be registered again. *)
Lemma entry_ok_port d qs e p :
  entry_ok d (Some qs) e → entry_ok d (Some (od_set p (Member false false) qs)) e.
Proof.
  intros [Ha Hb Hc].
  assert (∀ p', p' ∈ od_keys qs → p' ∈ od_keys (od_set p (Member false false) qs)) as Hk.
  { intros p' Hp'. rewrite od_keys_set. case_decide; [done|]. rewrite elem_of_app. auto. }
  split.
  - intros acts E. destruct (Ha acts E) as (l & ? & [= <-] & -> & Hl). eauto 10.
  - intros qs' p' m [= <-]. rewrite od_get_set. case_decide; [by intros [= <-]|]. by apply Hb.
  - intros p' acts Hp' E. destruct (Hc p' acts Hp' E) as (-> & ? & [= <-] & Hin). eauto.
Qed.

Lemma do_leave_ok leave m t s :
  snooper_ok t s → ofp_version (datapath_of m) = ver (dp_id (datapath_of m)) →
  in_port_of m ≠ qport (dp_id (datapath_of m)) →
  runs (_do_leave leave (in_port_of m) m) t s (λ _ t' s', snooper_ok t' s').
Proof.
  intros Hs Hv Hp. set (d := dp_id (datapath_of m)) in *. set (g := address leave).
  unfold _do_leave. fold d g. apply runs_bind, runs_gets.
  destruct (od_get d (_to_querier s)) as [q|]; [|by apply runs_ret].
  apply runs_bind, runs_modify, runs_bind, runs_modify, runs_bind, runs_modify.
  pose proof (group_exists d g s) as Hg.
  assert (snooper_ok t (s <| _to_hosts ::= od_setdefault d [] |> <| _to_hosts ::= od_alter (od_setdefault g new_group) d |>))
    as H1 by (apply setdefault_group_ok, setdefault_hosts_ok, Hs).
  revert H1 Hg. generalize (s <| _to_hosts ::= od_setdefault d [] |> <| _to_hosts ::= od_alter (od_setdefault g new_group) d |>) as s1.
  intros s1 H1 Hg. apply runs_bind, runs_emit, runs_modify. apply spawn_ok; [by split|].
  eapply (change_ok t); [exact H1|exact Hg|done|]. apply entry_ok_port.
Qed.

(** Entries of one group that do not concern others. *)
Lemma insert_other t d i g (acts : list action) d' i' g' :
  (d', g') ≠ (d, g) → <[(d, i, g) := acts]> t !! (d', i', g') = t !! (d', i', g').
Proof. intros Hne. apply lookup_insert_ne. congruence. Qed.

Lemma delete_other t d i g d' i' g' :
  (d', g') ≠ (d, g) → delete (d, i, g) t !! (d', i', g') = t !! (d', i', g').
Proof. intros Hne. apply lookup_delete_ne. congruence. Qed.

(** The entries change while the state stays. *)
Lemma table_change_ok t t' s (d g : Z) :
  snooper_ok t s → (∀ d' i g', (d', g') ≠ (d, g) → t' !! (d', i, g') = t !! (d', i, g')) →
  (entry_ok d (ports_at s d g) (λ i, t !! (d, i, g)) → entry_ok d (ports_at s d g) (λ i, t' !! (d, i, g))) →
  snooper_ok t' s.
Proof. intros Hs Ht He. by eapply (snooper_ok_group t t' s s d g Hs); [|apply Hs| | |]. Qed.

Lemma entry_ok_member d qs t g p :
  p ≠ qport d → p ∈ od_keys qs →
  entry_ok d (Some qs) (λ i, t !! (d, i, g)) →
  entry_ok d (Some qs) (λ i, <[(d, Some p, g) := [to_controller (ver d)]]> t !! (d, i, g)).
Proof.
  intros Hp Hin [Ha Hb Hc]. split.
  - intros acts. rewrite lookup_insert_ne by congruence. apply Ha.
  - intros qs' p' m Hq Hg Hm. rewrite lookup_insert_ne by congruence. by eapply Hb.
  - intros p' acts Hp'. rewrite lookup_insert. case_decide as E; [|by apply Hc].
    injection E as <-. intros [= <-]. eauto.
Qed.

Lemma entry_ok_server d qs t g :
  entry_ok d (Some qs) (λ i, t !! (d, i, g)) →
  entry_ok d (Some qs) (λ i, <[(d, Some (qport d), g) := to_port <$> od_keys qs]> t !! (d, i, g)).
Proof.
  intros [Ha Hb Hc]. split.
  - intros acts. rewrite lookup_insert_eq. intros [= <-]. eauto.
  - intros qs' p' m [= <-] Hg Hm. rewrite lookup_insert_eq. eexists. split; [done|].
    apply od_get_is_key. by rewrite Hg.
  - intros p' acts Hp'. rewrite lookup_insert_ne by congruence. by apply Hc.
Qed.

(** The ports of a group after a change that keeps its keys and registers only ports that the
    querier's packets go to. *)
Lemma entry_ok_alter d qs e p f :
  (∀ mb, od_get p qs = Some mb → in_ (f mb) = true → in_ mb = true ∨
     ∃ l, e (Some (qport d)) = Some (to_port <$> l) ∧ p ∈ l) →
  entry_ok d (Some qs) e → entry_ok d (Some (od_alter f p qs)) e.
Proof.
  intros Hf [Ha Hb Hc]. split.
  - intros acts E. destruct (Ha acts E) as (l & ? & [= <-] & -> & Hl).
    exists l, (od_alter f p qs). by rewrite od_keys_alter.
  - intros qs' p' m [= <-]. rewrite od_get_alter. case_decide as Hp; [|by apply Hb].
    subst. intros (mb & E & ->)%fmap_Some Hi. destruct (Hf mb E Hi) as [Hi'|]; [by eapply Hb|done].
  - intros p' acts Hp' E. destruct (Hc p' acts Hp' E) as (-> & ? & [= <-] & Hin).
    split; [done|]. eexists. split; [done|]. by rewrite od_keys_alter.
Qed.

(** A group that has been looked up. *)
Definition has_group (d g : Z) (P : group → Prop) (t : table) (s : snooper) : Prop :=
  snooper_ok t s ∧ ∃ gr, get_group s d g = Some gr ∧ P gr.

Lemma report_group_ok d g outport t s :
  snooper_ok t s → is_Some (od_get d (_to_hosts s)) →
  runs (when (bool_decide (get_group s d g = None)) (
          emit (EventMulticastGroupStateChanged MG_GROUP_ADDED g outport []);;
          setdefault_group d g)) t s
    (λ _, has_group d g (λ _, True)).
Proof.
  intros Hs Hh. apply runs_when; rewrite ?bool_decide_eq_true, ?bool_decide_eq_false; intros Hg.
  - apply runs_bind, runs_emit, runs_modify. split; [by apply setdefault_group_ok|].
    eexists. split; [|done]. by rewrite get_group_new, decide_True.
  - split; [done|]. destruct (get_group s d g); [eauto|done].
Qed.

Lemma change_group_get f d g s gr : get_group s d g = Some gr → get_group (change_group f d g s) d g = Some (f gr).
Proof. intros E. rewrite get_group_change, decide_True by done. by rewrite E. Qed.

Lemma report_port_ok dp g p t s gr :
  ofp_version dp = ver (dp_id dp) → p ≠ qport (dp_id dp) →
  snooper_ok t s → get_group s (dp_id dp) g = Some gr →
  runs (when (negb (od_mem p (ports gr))) (
          modify (change_group (λ g, g <| ports ::= od_set p (Member false false) |>) (dp_id dp) g);;
          _set_flow_entry dp [to_controller (ofp_version dp)] (Some p) g)) t s
    (λ _, has_group (dp_id dp) g (λ gr, p ∈ od_keys (ports gr))).
Proof.
  intros Hv Hp Hs Hg. apply runs_when.
  - intros _. apply runs_bind, runs_modify, runs_set_flow; [done|].
    set (f := λ g, g <| ports ::= od_set p (Member false false) |>).
    pose proof (change_group_get f (dp_id dp) g s gr Hg) as Hg'.
    assert (snooper_ok t (change_group f (dp_id dp) g s)) as H1.
    { eapply (change_ok t); [exact Hs|exact Hg|done|]. apply entry_ok_port. }
    assert (p ∈ od_keys (ports (f gr))) as Hin.
    { change (ports (f gr)) with (od_set p (Member false false) (ports gr)). rewrite od_keys_set.
      case_decide; [done|]. rewrite elem_of_app. right. apply list_elem_of_here. }
    split; [|eauto]. eapply (table_change_ok t _ _ (dp_id dp) g H1); [intros; by apply insert_other|].
    unfold ports_at. rewrite Hg', Hv. by apply entry_ok_member.
  - intros Hm%negb_false_iff%od_mem_spec. split; eauto.
Qed.

Lemma do_report_ok report m t s :
  snooper_ok t s → ofp_version (datapath_of m) = ver (dp_id (datapath_of m)) →
  in_port_of m ≠ qport (dp_id (datapath_of m)) →
  runs (_do_report report (in_port_of m) m) t s (λ _ t' s', snooper_ok t' s').
Proof.
  intros Hs Hv Hp. set (dp := datapath_of m) in *. set (d := dp_id dp) in *. set (g := address report).
  set (p := in_port_of m) in *. unfold _do_report. fold dp d g. apply runs_bind, runs_gets.
  apply runs_bind, runs_modify.
  assert (∀ q, querier_port s d = Some q → q = qport d) as Hout.
  { intros q (q' & Hq & ->)%fmap_Some. by apply (so_querier _ _ Hs). }
  revert Hout. generalize (querier_port s d) as outport. intros outport Hout.
  pose proof (hosts_exist d s) as Hh. pose proof (setdefault_hosts_ok d t s Hs) as H1.
  revert H1 Hh. generalize (s <| _to_hosts ::= od_setdefault d [] |>) as s1. clear s Hs. intros s Hs Hh.
  apply runs_bind, runs_get, runs_bind. eapply runs_mono; [by apply report_group_ok|].
  intros _ t1 s1 [Hs1 (gr1 & Hg1 & _)]. clear t s Hs Hh. apply runs_bind, runs_get.
  apply runs_bind, runs_or_raise; [done|]. rewrite Hg1. intros ? [= <-].
  apply runs_bind. eapply runs_mono; [by apply report_port_ok|].
  intros _ t2 s2 [Hs2 (gr2 & Hg2 & Hin2)]. clear t1 s1 gr1 Hs1 Hg1. apply runs_bind, runs_modify.
  set (f := λ g, g <| ports ::= od_alter (λ p, Member true (in_ p)) p |>).
  pose proof (change_group_get f d g s2 gr2 Hg2) as Hg3.
  assert (snooper_ok t2 (change_group f d g s2)) as Hs3.
  { eapply (change_ok t2); [exact Hs2|exact Hg2|done|]. apply entry_ok_alter. auto. }
  assert (p ∈ od_keys (ports (f gr2))) as Hin3.
  { change (ports (f gr2)) with (od_alter (λ p, Member true (in_ p)) p (ports gr2)). by rewrite od_keys_alter. }
  revert Hg3 Hs3 Hin3. generalize (f gr2) as gr. generalize (change_group f d g s2) as s3.
  clear f s2 gr2 Hs2 Hg2 Hin2. intros s3 gr Hg3 Hs3 Hin3.
  destruct outport as [q|]; [|by apply runs_ret]. specialize (Hout q eq_refl). subst q.
  destruct (known (Some (qport d))); cbn [negb]; [|by apply runs_ret].
  apply runs_bind, runs_get, runs_bind, runs_or_raise; [done|]. rewrite Hg3. intros ? [= <-].
  apply runs_bind, runs_or_raise; [done|]. intros mb Hmb. apply runs_bind.
  eapply (runs_mono _ _ _ (λ _ t' s', snooper_ok t' s')).
  - apply runs_when; [intros _|done]. apply runs_bind, runs_emit, runs_bind, runs_set_flow; [done|].
    apply runs_modify. fold d. cbn [last_command].
    assert (snooper_ok (<[(d, Some (qport d), g) := to_port <$> od_keys (ports gr)]> t2) s3) as H4.
    { eapply (table_change_ok t2 _ s3 d g Hs3); [intros; by apply insert_other|].
      unfold ports_at. rewrite Hg3. apply entry_ok_server. }
    eapply (change_ok _ _ s3 d g _ gr H4); [done|done|]. apply entry_ok_alter. intros mb' _ _. right.
    exists (od_keys (ports gr)). by rewrite lookup_insert_eq.
  - intros _ t' s' H'. apply runs_when; [intros _|done]. apply runs_bind, runs_emit, runs_modify.
    eapply snooper_ok_same; [exact H'|done|apply H'|]. intros d' g'.
    rewrite ports_at_change. case_decide as E; [|done]. injection E as -> ->.
    unfold ports_at. by destruct (get_group s' _ _).
Qed.

(** ** Groups that are removed *)

(** The table without the entries for the groups in [l] of datapath [d]. *)
Definition cleared (d : Z) (l : list Z) (t t' : table) : Prop :=
  (∀ p g, g ∈ l → t' !! (d, Some p, g) = None) ∧
  ∀ d' i g, (d' ≠ d ∨ g ∉ l) → t' !! (d', i, g) = t !! (d', i, g).

(** Entries of a group are for the querier's port or one of its ports. *)
Definition covered (d : Z) (t : table) (s : snooper) (g : Z) : Prop :=
  ∃ gr, get_group s d g = Some gr ∧
    ∀ p, is_Some (t !! (d, Some p, g)) → p = qport d ∨ p ∈ od_keys (ports gr).

Lemma ok_covered d t s g : snooper_ok t s → is_Some (get_group s d g) → covered d t s g.
Proof.
  intros Hs [gr Hg]. exists gr. split; [done|]. intros p [acts E].
  destruct (decide (p = qport d)) as [|Hp]; [auto|right].
  destruct (so_entries _ _ Hs d g) as [_ _ Hc]. destruct (Hc p acts Hp E) as (_ & qs & Hq & Hin).
  unfold ports_at in Hq. rewrite Hg in Hq. by injection Hq as <-.
Qed.

Lemma remove_group_run dp g t s :
  ofp_version dp = ver (dp_id dp) → covered (dp_id dp) t s g →
  ∃ o, _remove_multicast_group dp (qport (dp_id dp)) g s = (o, s, Ret tt) ∧
    cleared (dp_id dp) [g] t (last_commands t o).
Proof.
  intros Hv (gr & Hg & Hc). set (d := dp_id dp) in *.
  set (dels := (λ p, del_entry dp (Some p) g) <$> od_keys (ports gr)).
  assert (∃ o, _remove_multicast_group dp (qport d) g s = (o, s, Ret tt) ∧
    ∀ u, last_commands u o = last_commands (delete (d, Some (qport d), g) u) dels) as (o & E & Ho).
  { unfold _remove_multicast_group. fold d.
    set (last := match leave_msg gr with
      | Some leave => [PacketOut d (Raw (data_of leave)) (in_port_of leave) [to_port (qport d)]] | None => [] end).
    exists (EventMulticastGroupStateChanged MG_GROUP_REMOVED g (Some (qport d)) [] ::
      del_entry dp (Some (qport d)) g :: dels ++ last). split.
    - rewrite emit_bind. erewrite run_bind; [|apply del_flow_run; by rewrite Hv].
      rewrite get_bind, Hg. cbn [or_raise]. rewrite ret_bind.
      erewrite run_bind; [|apply del_flows_run; by rewrite Hv]. unfold last. by destruct (leave_msg gr).
    - intros u. change (last_commands u (?x :: ?y :: ?l)) with (last_commands (last_command (last_command u x) y) l).
      rewrite last_commands_app. unfold last. by destruct (leave_msg gr). }
  exists o. split; [done|]. rewrite Ho. split.
  - intros p g' ->%list_elem_of_singleton. unfold dels. rewrite last_commands_del. case_bool_decide as Hd; [done|].
    destruct (decide (p = qport d)) as [->|Hp]; [by rewrite lookup_delete_eq|].
    rewrite lookup_delete_ne by congruence. apply eq_None_not_Some. intros Hsome.
    destruct (Hc p Hsome) as [|Hin]; [done|]. apply Hd. split_and!; [done..|].
    apply list_elem_of_fmap. eauto.
  - intros d' i g' Hne. rewrite list_elem_of_singleton in Hne. unfold dels. rewrite last_commands_del.
    rewrite bool_decide_eq_false_2 by (intros (-> & -> & _); naive_solver).
    rewrite lookup_delete_ne; [done|]. intros [= -> _ ->]. naive_solver.
Qed.

Lemma cleared_covered d l t t' s g :
  cleared d l t t' → covered d t s g → covered d t' s g.
Proof.
  intros [H1 H2] (gr & Hg & Hc). exists gr. split; [done|]. intros p [acts Hs].
  destruct (decide (g ∈ l)) as [Hin|Hin]; [by rewrite H1 in Hs|]. apply Hc. rewrite H2 in Hs by auto. eauto.
Qed.

Lemma remove_groups_run dp l t s :
  ofp_version dp = ver (dp_id dp) → (∀ g, g ∈ l → covered (dp_id dp) t s g) →
  ∃ o, for_each l (_remove_multicast_group dp (qport (dp_id dp))) s = (o, s, Ret tt) ∧
    cleared (dp_id dp) l t (last_commands t o).
Proof.
  intros Hv. revert t. induction l as [|g l IH]; intros t Hc.
  { exists []. split; [done|]. split; [|done]. intros p g Hin. by apply not_elem_of_nil in Hin. }
  destruct (remove_group_run dp g t s Hv (Hc g (list_elem_of_here _ _))) as (o1 & E1 & H1).
  destruct (IH (last_commands t o1)) as (o2 & E2 & H2).
  { intros g' Hin. eapply cleared_covered; [exact H1|]. apply Hc. by apply list_elem_of_further. }
  exists (o1 ++ o2). cbn [for_each]. rewrite (run_bind _ _ _ _ _ _ E1), E2. split; [done|].
  rewrite last_commands_app. destruct H1 as [H1 H1'], H2 as [H2 H2']. split.
  - intros p g' Hin. destruct (decide (g' ∈ l)) as [|Hl]; [auto|]. rewrite H2' by auto.
    apply H1. apply elem_of_cons in Hin as [->|]; [apply list_elem_of_here|done].
  - intros d' i g' Hne. rewrite elem_of_cons in Hne. rewrite H2', H1'; [done| |].
    + rewrite list_elem_of_singleton. naive_solver.
    + naive_solver.
Qed.

Lemma delete_groups_of_run d l s :
  ∃ s', for_each l (delete_group d) s = ([] : list igmp_out, s', Ret tt) ∧
    _to_querier s' = _to_querier s ∧ timers s' = timers s ∧
    ∀ d' g, get_group s' d' g = if decide (d' = d ∧ g ∈ l) then None else get_group s d' g.
Proof.
  revert s. induction l as [|g l IH]; intros s.
  { exists s. split_and!; [done..|]. intros d' g. rewrite decide_False; [done|]. intros [_ H]. by apply not_elem_of_nil in H. }
  destruct (IH (s <| _to_hosts ::= od_alter (od_del g) d |>)) as (s' & E & Hq & Ht & Hg).
  exists s'. cbn [for_each].
  rewrite (run_bind _ _ _ [] (s <| _to_hosts ::= od_alter (od_del g) d |>) tt eq_refl), E.
  split_and!; [done..|].
  intros d' g'. rewrite Hg. destruct (decide (d' = d ∧ g' ∈ l)) as [H|H].
  { destruct H as [-> H]. rewrite decide_True; [done|]. split; [done|by apply list_elem_of_further]. }
  unfold get_group. cbn. rewrite od_get_alter. destruct (decide (d' = d)) as [->|].
  - destruct (od_get d (_to_hosts s)) as [hosts|]; cbn; [|by case_decide]. rewrite od_get_del.
    destruct (decide (g' = g)) as [->|]; [rewrite decide_True; [done|]; split; [done|apply list_elem_of_here]|].
    rewrite decide_False; [done|]. rewrite elem_of_cons. intros [_ [|]]; [done|by apply H].
  - rewrite decide_False; [done|]. by intros [? _].
Qed.

Lemma deleted_ok d l t t' s s' :
  snooper_ok t s → cleared d l t t' → _to_querier s' = _to_querier s → timers s' = timers s →
  (∀ d' g, get_group s' d' g = if decide (d' = d ∧ g ∈ l) then None else get_group s d' g) →
  snooper_ok t' s'.
Proof.
  intros [H1 H2 H3] [Hc1 Hc2] Hq Ht Hg. split; [by rewrite Hq|by rewrite Ht|]. intros d' g.
  unfold ports_at. rewrite Hg. case_decide as Hin.
  - destruct Hin as [-> Hin]. split.
    + intros acts. by rewrite Hc1.
    + by intros qs p m [=].
    + intros p acts _. by rewrite Hc1.
  - assert (d' ≠ d ∨ g ∉ l) as Hne by (destruct (decide (d' = d)); [right|left]; tauto).
    destruct (H3 d' g) as [Ha Hb Hcc].
    split; [intros acts|intros qs p m|intros p acts Hp]; rewrite Hc2 by done; eauto.
Qed.

Lemma timeout_for_query_ok dp t s :
  snooper_ok t s → ofp_version dp = ver (dp_id dp) →
  runs (_do_timeout_for_query dp) t s (λ _ t' s', snooper_ok t' s').
Proof.
  intros Hs Hv. unfold _do_timeout_for_query. apply runs_bind, runs_get.
  apply runs_bind, runs_or_raise; [done|]. intros q Hq. apply runs_bind, runs_or_raise; [done|].
  intros hosts Hh. set (l := od_keys _). rewrite (so_querier _ _ Hs _ _ Hq).
  destruct (remove_groups_run dp l t s Hv) as (o & E & Hc).
  { intros g (kv & -> & [_ Hin]%list_elem_of_filter)%list_elem_of_fmap. apply ok_covered; [done|].
    unfold get_group. rewrite Hh. cbn. apply od_get_is_key. apply list_elem_of_fmap. eauto. }
  destruct (delete_groups_of_run (dp_id dp) l s) as (s' & E' & Hq' & Ht' & Hg').
  unfold runs. rewrite (run_bind _ _ _ _ _ _ E), E'. rewrite app_nil_r.
  by eapply deleted_ok.
Qed.

(** A port that leaves, its own entry deleted: what is left of the group's entries. *)
Lemma entry_ok_left d qs t g p :
  p ≠ qport d → entry_ok d (Some qs) (λ i, t !! (d, i, g)) →
  entry_ok d (Some (od_del p qs)) (λ i,
    <[(d, Some (qport d), g) := to_port <$> od_keys (od_del p qs)]> (delete (d, Some p, g) t) !! (d, i, g)).
Proof.
  intros Hp [Ha Hb Hc]. split.
  - intros acts. rewrite lookup_insert_eq. intros [= <-]. eauto.
  - intros qs' p' m [= <-] Hg _. rewrite lookup_insert_eq. eexists. split; [done|].
    apply od_get_is_key. by rewrite Hg.
  - intros p' acts Hp'. rewrite lookup_insert_ne by congruence. rewrite lookup_delete.
    case_decide as E; [done|]. intros Hs. destruct (Hc p' acts Hp' Hs) as (-> & ? & [= <-] & Hin).
    split; [done|]. eexists. split; [done|]. rewrite od_keys_del, list_elem_of_filter. split; [congruence|done].
Qed.

Lemma timeout_for_leave_ok dp g p t s :
  snooper_ok t s → ofp_version dp = ver (dp_id dp) → p ≠ qport (dp_id dp) →
  runs (_do_timeout_for_leave dp g p) t s (λ _ t' s', snooper_ok t' s').
Proof.
  intros Hs Hv Hp. set (d := dp_id dp) in *. unfold _do_timeout_for_leave. fold d.
  apply runs_bind, runs_get, runs_bind, runs_or_raise; [done|]. intros q Hq.
  rewrite (so_querier _ _ Hs _ _ Hq). apply runs_bind, runs_or_raise; [done|]. intros gr Hg.
  apply runs_bind, runs_or_raise; [done|]. intros mb _. destruct (out mb); [by apply runs_ret|].
  apply runs_bind, runs_modify, runs_bind, runs_del_flow; [done|]. fold d.
  set (f := λ g, g <| ports ::= od_del p |>). set (s1 := change_group f d g s).
  set (t1 := delete (d, Some p, g) t).
  pose proof (change_group_get f d g s gr Hg) as Hg1. fold s1 in Hg1.
  apply runs_bind, runs_get. rewrite Hg1. apply runs_bind. cbn [or_raise]. apply runs_ret.
  change (ports (f gr)) with (od_del p (ports gr)). set (l := od_keys (od_del p (ports gr))).
  destruct (nonempty l) eqn:El.
  - apply runs_bind, runs_emit, runs_bind, runs_set_flow; [done|]. fold d. cbn [last_command]. apply runs_modify.
    eapply (snooper_ok_same _ s1); [|done|apply Hs|].
    + eapply (change_ok t _ s d g f gr Hs Hg).
      * intros d' i g' Hne. rewrite insert_other by done. by apply delete_other.
      * by apply entry_ok_left.
    + intros d' g'. rewrite ports_at_change. case_decide as E; [|done]. injection E as -> ->.
      unfold ports_at. fold s1. by rewrite Hg1.
  - destruct (remove_group_run dp g t1 s1 Hv) as (o & E & Hc).
    { exists (f gr). split; [done|]. intros p' [acts Hs']. unfold t1 in Hs'.
      rewrite lookup_delete in Hs'. case_decide as Hd; [done|].
      destruct (ok_covered d t s g Hs ltac:(eauto)) as (gr' & Hg' & Hc). rewrite Hg in Hg'. injection Hg' as <-.
      destruct (Hc p' ltac:(eauto)) as [|Hin]; [auto|right].
      change (ports (f gr)) with (od_del p (ports gr)). rewrite od_keys_del, list_elem_of_filter.
      split; [intros ->; by apply Hd|done]. }
    fold d in E, Hc. apply runs_bind. unfold runs at 1. rewrite E. cbn iota beta. apply runs_modify.
    eapply (deleted_ok d [g] t _ s _ Hs); [|done|done|].
    + destruct Hc as [Hc1 Hc2]. split; [done|]. intros d' i g' Hne. rewrite Hc2 by done.
      apply lookup_delete_ne. intros [= -> _ ->]. destruct Hne as [|Hne]; [done|].
      apply Hne, list_elem_of_here.
    + intros d' g'. destruct (delete_groups_of_run d [g] s1) as (s' & E' & _ & _ & Hg').
      rewrite <- bind_ret_r in E'. injection E' as <-. rewrite Hg'. case_decide as Hd; [done|].
      unfold s1. rewrite get_group_change, decide_False; [done|]. intros [= -> ->]. apply Hd.
      split; [done|apply list_elem_of_here].
Qed.

(** ** Steps of the snooper *)

(** Packets of any switches, and timers in any order. *)
Inductive snooper_op :=
| SPacket (req : igmp) (m : msg)
| STimer (n : nat).

Definition snooper_do (op : snooper_op) : SM () :=
  match op with
  | SPacket req m => snooper_packet_in req m
  | STimer n => timer_expires n
  end.

Definition snooper_step (x : snooper * table) (op : snooper_op) (y : snooper * table) : Prop :=
  match op with SPacket req m => expected req m | STimer _ => True end ∧
  y = (final (snooper_do op) x.1, last_commands x.2 (outputs (snooper_do op) x.1)).

Definition snooper_start (x : snooper * table) : Prop := x = (snooper_init, ∅).

Lemma snooper_packet_ok req m t s :
  snooper_ok t s → expected req m → runs (snooper_packet_in req m) t s (λ _ t' s', snooper_ok t' s').
Proof.
  intros Hs [Hv Hp]. unfold snooper_packet_in.
  destruct (Z.eqb_spec IGMP_TYPE_QUERY (msgtype req)) as [Hq|Hq].
  { apply do_query_ok; [done|done|]. by apply Hp. }
  assert (in_port_of m ≠ qport (dp_id (datapath_of m))) as Hne by (intros H%Hp; congruence).
  destruct (_ || _); [by apply do_report_ok|]. destruct (_ =? _); [by apply do_leave_ok|].
  by apply runs_emit.
Qed.

Lemma timer_expires_ok n t s : snooper_ok t s → runs (timer_expires n) t s (λ _ t' s', snooper_ok t' s').
Proof.
  intros Hs. unfold timer_expires. apply runs_bind, runs_gets.
  destruct (timers s !! n) as [x|] eqn:E; [|by apply runs_ret]. apply runs_bind, runs_modify.
  pose proof (so_timers _ _ Hs x (list_elem_of_lookup_2 _ _ _ E)) as Hx.
  assert (snooper_ok t (s <| timers ::= delete n |>)) as Hs'.
  { eapply snooper_ok_same; [done|done| |done]. intros y Hy. apply (so_timers _ _ Hs).
    exact (list_elem_of_delete_inv _ _ _ Hy). }
  destruct x as [? dp|? dp g p]; [by apply timeout_for_query_ok|]. destruct Hx as [Hv Hp].
  by apply timeout_for_leave_ok.
Qed.

Lemma runs_final {A} (m : SM A) t s :
  runs m t s (λ _ t' s', snooper_ok t' s') → snooper_ok (last_commands t (outputs m s)) (final m s).
Proof. unfold runs, outputs, final. by destruct (m s) as [[o s'] [a|e]]. Qed.

(** The flow entries of the snooped switches, after any packets from any of them (queries from
    one port of each, other packets from its other ports) and any timers, in any order and also
    when a timer's thread fails: the querier's packets to a group go only to ports recorded for
    that group, and to every one of them that is marked as registered; a host's packets to a
    group go to the controller, and only if its port is recorded for the group; no entry
    outlives its group. *)
Theorem snooper_entries s t :
  reachable snooper_start snooper_step (s, t) →
  ∀ d g,
    (∀ acts, t !! (d, Some (qport d), g) = Some acts →
       ∃ l gr, get_group s d g = Some gr ∧ acts = to_port <$> l ∧ ∀ p, p ∈ l → p ∈ od_keys (ports gr)) ∧
    (∀ gr p m, get_group s d g = Some gr → od_get p (ports gr) = Some m → in_ m = true →
       ∃ l, t !! (d, Some (qport d), g) = Some (to_port <$> l) ∧ p ∈ l) ∧
    (∀ p acts, p ≠ qport d → t !! (d, Some p, g) = Some acts →
       acts = [to_controller (ver d)] ∧ ∃ gr, get_group s d g = Some gr ∧ p ∈ od_keys (ports gr)).
Proof.
  intros Hr d g. assert (∀ x, reachable snooper_start snooper_step x → snooper_ok x.2 x.1) as H.
  { apply reachable_inv.
    - intros x ->. split; [done| |].
      + intros x Hx. cbn in Hx. by apply not_elem_of_nil in Hx.
      + intros d' g'. split; cbn.
        * intros acts. by rewrite lookup_empty.
        * by intros qs p m [=].
        * intros p acts _. by rewrite lookup_empty.
    - intros x op y IH [Hen ->]. apply runs_final.
      destruct op; [by apply snooper_packet_ok|by apply timer_expires_ok]. }
  destruct (so_entries _ _ (H _ Hr) d g) as [Ha Hb Hc]. cbn [fst snd] in *. unfold ports_at in *. split_and!.
  - intros acts E. destruct (Ha acts E) as (l & qs & (gr & Hg & ->)%fmap_Some & -> & Hl). eauto.
  - intros gr p m Hg Hp Hi. apply (Hb (ports gr) p m); [by rewrite Hg|done|done].
  - intros p acts Hp E. destruct (Hc p acts Hp E) as (-> & qs & (gr & Hg & ->)%fmap_Some & Hin). eauto.
Qed.
End snooper.

(** ** Examples *)

Module IgmpExamples.
Definition switch (d : Z) : datapath := DatapathOf d 4 {[ OFPP_LOCAL 4 := 0xaa ]}.
Definition packet (d port type group : Z) : msg :=
  Msg (switch d) port [] (Some (IgmpOf type 0 group)) 9 0xbb.
Definition req (type group : Z) : igmp := IgmpOf type 0 group.
Definition report (d port group : Z) := SPacket (req IGMP_TYPE_REPORT_V2 group) (packet d port IGMP_TYPE_REPORT_V2 group).
Definition leave (d port group : Z) := SPacket (req IGMP_TYPE_LEAVE group) (packet d port IGMP_TYPE_LEAVE group).
Definition query (d port : Z) := SPacket (req IGMP_TYPE_QUERY 0) (packet d port IGMP_TYPE_QUERY 0).

Definition run_snooper (ops : list snooper_op) : snooper * table :=
  foldl (λ x op, (final (snooper_do op) x.1, last_commands x.2 (outputs (snooper_do op) x.1)))
    (snooper_init, ∅) ops.

Definition run_querier (x : querier * table) (ops : list querier_op) : querier * table :=
  foldl (λ x op, (final (querier_do op) x.1, last_commands x.2 (outputs (querier_do op) x.1))) x ops.

Definition queried : querier * table := (final (set_querier_mode 1 5) querier_init, ∅).

Definition q_report (d port group : Z) :=
  QPacket (req IGMP_TYPE_REPORT_V2 group) (packet d port IGMP_TYPE_REPORT_V2 group).

Lemma run_querier_reachable d sp v x ops :
  reachable (querier_start d sp) (querier_step d sp v) x → Forall (querier_enabled d sp v) ops →
  reachable (querier_start d sp) (querier_step d sp v) (run_querier x ops).
Proof.
  intros Hx Hops. revert x Hx. induction Hops as [|op ops Hop Hops IH]; intros x Hx; [done|].
  cbn. apply IH. by apply (reach_step _ _ x op).
Qed.

(** Two hosts of switch 1 are members of group 7; its thread has started. *)
Definition two_members : querier * table :=
  run_querier queried [QStart (switch 1); QThread 0; q_report 1 2 7; q_report 1 3 7; QThread 0].

Lemma two_members_reachable : reachable (querier_start 1 5) (querier_step 1 5 4) two_members.
Proof.
  unfold two_members. apply run_querier_reachable; [by apply reach_init|].
  repeat (apply Forall_cons; split; [by split|]). apply Forall_nil_2.
Qed.

Lemma supported_13 : supported 4.
Proof. right; right. reflexivity. Qed.

Lemma querier_entries_witness :
  two_members.2 !! (1, Some 5, 7) = Some (to_port <$> [2; 3]) ∧
  two_members.2 !! (1, Some 5, 7) =
    (if nonempty (members two_members.1 7) then Some (to_port <$> members two_members.1 7) else None).
Proof.
  split; [vm_compute; reflexivity|].
  exact (proj1 (querier_entries 1 5 4 supported_13 two_members.1 two_members.2 two_members_reachable 7)).
Defined.

(** In the next round the host at port 2 reports, that at port 4 joins and leaves. *)
Definition next_round : list (igmp * msg) :=
  [(req IGMP_TYPE_REPORT_V2 7, packet 1 2 IGMP_TYPE_REPORT_V2 7);
   (req IGMP_TYPE_REPORT_V1 7, packet 1 4 IGMP_TYPE_REPORT_V1 7);
   (req IGMP_TYPE_LEAVE 7, packet 1 4 IGMP_TYPE_LEAVE 7)].

Lemma round_keeps_reporters_witness :
  ∃ o q', (send_query 0;; handle_packets next_round;; send_query 0) two_members.1 =
      (PacketOut 1 (general_query 0xaa) (OFPP_ANY 4) [to_port (OFPP_FLOOD 4)] :: o, q', Ret tt) ∧
    q_threads q' !! 0%nat = Some (Resting 0xaa (OFPP_ANY 4) (OFPP_FLOOD 4)) ∧
    ∀ g p, p ∈ members q' g ↔ foldl (word g p) false next_round = true.
Proof.
  apply (round_keeps_reporters 1 5 4 supported_13 two_members.1 two_members.2 0 0xaa (OFPP_ANY 4)
    (OFPP_FLOOD 4) (switch 1) next_round two_members_reachable);
    [vm_compute; reflexivity|vm_compute; reflexivity|].
  unfold next_round. repeat (apply Forall_cons; split; [by split|]). apply Forall_nil_2.
Defined.

Lemma run_snooper_reachable qport ver ops :
  Forall (λ op, match op with SPacket r m => expected qport ver r m | STimer _ => True end) ops →
  reachable snooper_start (snooper_step qport ver) (run_snooper ops).
Proof.
  unfold run_snooper. intros Hops.
  assert (reachable snooper_start (snooper_step qport ver) (snooper_init, ∅)) as Hx by (by apply reach_init).
  revert Hx. generalize (snooper_init, ∅ : table) as x. induction Hops as [|op ops Hop Hops IH]; intros x Hx; [done|].
  cbn. apply IH. by apply (reach_step _ _ x op).
Qed.

Definition snooped : snooper * table := run_snooper [query 1 5; report 1 2 7; report 1 3 7].

Lemma snooped_reachable : reachable snooper_start (snooper_step (λ _, 5) (λ _, 4)) snooped.
Proof.
  unfold snooped. apply run_snooper_reachable.
  repeat (apply Forall_cons; split; [split; [reflexivity|split; intros; first [reflexivity|discriminate]]|]).
  apply Forall_nil_2.
Qed.

Lemma snooper_entries_witness :
  snooped.2 !! (1, Some 5, 7) = Some (to_port <$> [2; 3]) ∧
  ∃ l gr, get_group snooped.1 1 7 = Some gr ∧ to_port <$> [2; 3] = to_port <$> l ∧ ∀ p, p ∈ l → p ∈ od_keys (ports gr).
Proof.
  split; [vm_compute; reflexivity|].
  refine (proj1 (snooper_entries (λ _, 5) (λ _, 4) (λ _, supported_13) snooped.1 snooped.2 _ 1 7) _ _).
  - exact snooped_reachable.
  - vm_compute. reflexivity.
Defined.

(** A host that leaves a group it has not joined is recorded as a port of the group; when it
    then joins, no entry sends its packets to the controller. *)
Example leave_before_report :
  let x := run_snooper [query 1 5; leave 1 2 7; report 1 2 7] in
  (∃ m, (ports <$> get_group x.1 1 7) = Some [(2, m)]) ∧ x.2 !! (1, Some 2, 7) = None.
Proof. vm_compute. split; [eexists; reflexivity|reflexivity]. Qed.

(** After two leaves of the same host within a second the second thread fails. *)
Example second_leave_fails :
  let x := run_snooper [query 1 5; report 1 2 7; report 1 3 7; leave 1 2 7; leave 1 2 7; STimer 1] in
  result (timer_expires 1) x.1 = Raise KeyError.
Proof. vm_compute. reflexivity. Qed.

(** A report from the server's own port replaces the entry that takes the server's packets to
    the members. *)
Example server_port_report :
  two_members.2 !! (1, Some 5, 7) = Some (to_port <$> [2; 3]) ∧
  (run_querier two_members [q_report 1 5 7]).2 !! (1, Some 5, 7) = Some [to_controller 4].
Proof. vm_compute. split; reflexivity. Qed.

(** Another switch becomes the querier's: the members of the first one still count, and no entry
    is sent when a host at the same port of the new switch joins. *)
Example mode_change_keeps_members :
  let q := final (set_querier_mode 2 5) (run_querier queried [q_report 1 2 7]).1 in
  outputs (querier_do (q_report 2 2 7)) q = [].
Proof. vm_compute. reflexivity. Qed.

(** Setting the mode ends the thread without a trace of the connection; when the switch
    disconnects, stopping fails. *)
Example stop_after_mode_change :
  let q := (run_querier queried [QStart (switch 1)]).1 in
  result stop_loop (final (set_querier_mode 1 6) q) = Raise AttributeError.
Proof. vm_compute. reflexivity. Qed.

(** Without a mode, the disconnection of a switch that has not told its id is taken for that of
    the querier's switch. *)
Example disconnect_before_handshake :
  result (state_change_handler None (switch 0) (Some false)) igmp_lib_init = Raise AttributeError.
Proof. vm_compute. reflexivity. Qed.
End IgmpExamples.
