(* ===== verification/KeyOrder.v ===== *)
(** * Dictionaries in the order of a linked list

    Models [PortDataState] and [SwitchDataState] of [ryu/topology/switches.py]: a dictionary
    whose keys are iterated in the order of a doubly linked list of nodes
    [[_PREV, _NEXT, _KEY]].  The two classes share their code, which is written here once, over
    the data they keep ([ProbeData]).  The store of the nodes is that of [Circlist]; a node that
    is unlinked keeps its links.

    The class [KeyOrder] is what the dictionaries rely on: an order of keys that grows at both
    ends and from which keys are removed.  The linked list is its instance; the dictionaries are
    proved against the class, to behave as association lists. *)

From stdpp Require Import base list gmap.
From Stdlib Require Import ZArith Lia.
From S2P Require Import Prelude Odict Circlist.

Open Scope Z_scope.
Set Default Proof Using "Type".

(** ** The interface *)

Class KeyOrder (K T : Type) := {
  ko_empty : T;
  ko_remove : K → M T pyexn Empty_set ();
  ko_append : K → M T pyexn Empty_set ();
  ko_prepend : K → M T pyexn Empty_set ();
  ko_clear : M T pyexn Empty_set ();
  ko_iter : M T pyexn Empty_set (list K);
  ko_rep : T → list K → Prop;
  ko_empty_spec : ko_rep ko_empty [];
  ko_remove_spec t l1 k l2 : ko_rep t (l1 ++ k :: l2) →
    ∃ t', ko_remove k t = ([], t', Ret tt) ∧ ko_rep t' (l1 ++ l2);
  ko_remove_absent t l k : ko_rep t l → k ∉ l → ko_remove k t = ([], t, Raise KeyError);
  ko_append_spec t l k : ko_rep t l → k ∉ l →
    ∃ t', ko_append k t = ([], t', Ret tt) ∧ ko_rep t' (l ++ [k]);
  ko_prepend_spec t l k : ko_rep t l → k ∉ l →
    ∃ t', ko_prepend k t = ([], t', Ret tt) ∧ ko_rep t' (k :: l);
  ko_clear_spec t l : ko_rep t l → ∃ t', ko_clear t = ([], t', Ret tt) ∧ ko_rep t' [];
  ko_iter_spec t l : ko_rep t l → ko_iter t = ([], t, Ret l)
}.

(** ** The linked list *)

Section linked.
Context {K : Type} `{Countable K}.

Record key_list := KeyList {
  nodes : heap;
  node_key : gmap Z K;
  _map : gmap K Z;
  next_node : Z
}.

#[global] Instance eta_key_list : Eta key_list := EtaBox (λ t,
  KeyList (nodes t) (node_key t) (_map t) (next_node t)).

Abbreviation KM := (M key_list pyexn Empty_set).

(** The sentinel node. *)
Definition root : Z := 0.

Definition empty_list : key_list := KeyList (Heap {[root := root]} {[root := root]}) ∅ ∅ 1.

(** The cells [_NEXT] and [_PREV] of a node. *)
Definition get_next (x : Z) : KM Z := t ← get_st; or_raise (nexts (nodes t) !! x) IndexError.
Definition get_prev (x : Z) : KM Z := t ← get_st; or_raise (prevs (nodes t) !! x) IndexError.
Definition set_next (x y : Z) : KM () := modify (λ t, t <| nodes ::= λ h, h <| nexts ::= <[x := y]> |> |>).
Definition set_prev (x y : Z) : KM () := modify (λ t, t <| nodes ::= λ h, h <| prevs ::= <[x := y]> |> |>).

(** [[prev, next, key]] *)
Definition new_node (prev next : Z) (key : K) : KM Z :=
  x ← gets next_node;
  modify (λ t, t <| next_node ::= Z.succ |> <| node_key ::= <[x := key]> |>);;
  set_prev x prev;;
  set_next x next;;
  mret x.

Definition set_map (key : K) (x : Z) : KM () := modify (λ t, t <| _map ::= <[key := x]> |>).

Definition _remove_key (key : K) : KM () :=
  t ← get_st;
  x ← or_raise (_map t !! key) KeyError;
  modify (λ t, t <| _map ::= base.delete key |>);;
  link_prev ← get_prev x;
  link_next ← get_next x;
  set_next link_prev link_next;;
  set_prev link_next link_prev.

Definition _append_key (key : K) : KM () :=
  last ← get_prev root;
  x ← new_node last root key;
  set_next last x;;
  set_prev root x;;
  set_map key x.

Definition _prepend_key (key : K) : KM () :=
  first ← get_next root;
  x ← new_node root first key;
  set_prev first x;;
  set_next root x;;
  set_map key x.

(** [del node[:]] for the nodes of the map, then the sentinel again. *)
Definition del_node (x : Z) (t : key_list) : key_list :=
  t <| nodes := Heap (base.delete x (nexts (nodes t))) (base.delete x (prevs (nodes t))) |>
    <| node_key ::= base.delete x |>.

Definition clear_keys : KM () :=
  modify (λ t, foldr del_node t (map_to_list (_map t)).*2);;
  set_prev root root;;
  set_next root root;;
  modify (λ t, t <| _map := ∅ |>).

(** [__iter__]; the fuel is the number of nodes ever made. *)
Fixpoint iter_from (fuel : nat) (curr : Z) : KM (list K) :=
  if curr =? root then mret [] else
  match fuel with
  | O => raise OutOfFuel
  | S fuel =>
      t ← get_st;
      key ← or_raise (node_key t !! curr) IndexError;
      next ← get_next curr;
      rest ← iter_from fuel next;
      mret (key :: rest)
  end.

Definition iter_keys : KM (list K) :=
  curr ← get_next root;
  t ← get_st;
  iter_from (Z.to_nat (next_node t)) curr.

(** *** Representation *)

(** The list of nodes [xs] with the keys [l]. *)
Record key_rep (t : key_list) (xs : list Z) (l : list K) : Prop := {
  kr_list : clist (nodes t) root xs;
  kr_keys : Forall2 (λ x k, node_key t !! x = Some k ∧ _map t !! k = Some x) xs l;
  kr_map : ∀ k x, _map t !! k = Some x → k ∈ l;
  kr_fresh : ∀ x, x ∈ root :: xs → 0 ≤ x < next_node t
}.

Definition list_rep (t : key_list) (l : list K) : Prop := ∃ xs, key_rep t xs l.
End linked.
Arguments key_list K {_ _}.

Section linked_laws.
Context {K : Type} `{Countable K}.
Implicit Types (t : key_list K) (k : K) (l : list K) (xs : list Z).

Ltac run := unfold get_next, get_prev, set_next, set_prev, set_map, mbind, M_bind, get_st,
  modify, gets, or_raise, mret, M_ret; cbn.

Lemma key_rep_length t xs l : key_rep t xs l → length xs = length l.
Proof. intros [_ Hk _ _]. by apply Forall2_length in Hk. Qed.

(** A key of the list and its node cut both lists at the same place. *)
Lemma key_rep_cut t xs l1 k l2 :
  key_rep t xs (l1 ++ k :: l2) →
  ∃ xs1 x xs2, xs = xs1 ++ x :: xs2 ∧ length xs1 = length l1 ∧ _map t !! k = Some x.
Proof.
  intros [_ Hk _ _]. apply Forall2_app_inv_r in Hk as (xs1 & xs' & H1 & H2 & ->).
  inversion H2 as [|x ? xs2 ? [_ Hx]]; subst.
  exists xs1, x, xs2. split_and!; [done|by apply Forall2_length in H1|done].
Qed.

(** The keys are distinct, as each has one node. *)
Lemma key_rep_NoDup t xs l : key_rep t xs l → NoDup l.
Proof.
  intros [[Hnd _] Hk _ _]. apply NoDup_cons in Hnd as [_ Hnd].
  induction Hk as [|x k xs l [_ Hx] Hk IH]; [apply NoDup_nil_2|].
  apply NoDup_cons in Hnd as [Hxs Hnd]. apply NoDup_cons. split; [|by apply IH].
  intros [i Hi]%list_elem_of_lookup.
  destruct (Forall2_lookup_r _ _ _ _ _ Hk Hi) as (y & Hy & _ & Hm).
  rewrite Hx in Hm. simplify_eq. apply Hxs. by eapply list_elem_of_lookup_2.
Qed.

Lemma clist_removed h xs1 x xs2 :
  clist h root (xs1 ++ x :: xs2) →
  clist (Heap (<[last_or root xs1 := head_or xs2 root]> (nexts h))
              (<[head_or xs2 root := last_or root xs1]> (prevs h))) root (xs1 ++ xs2).
Proof.
  intros [Hnd Hs].
  assert (Hp : root :: xs1 ++ x :: xs2 ≡ₚ x :: root :: xs1 ++ xs2) by solve_Permutation.
  pose proof Hnd as Hnd'. rewrite Hp in Hnd'. apply NoDup_cons in Hnd' as [Hx Hnd'].
  split; [done|].
  apply (seg_frame (unlink (last_or root xs1) x (head_or xs2 root) h)).
  - intros y Hy. cbn. rewrite lookup_delete_ne; [done|]. set_solver.
  - intros y Hy. cbn. rewrite lookup_delete_ne; [done|]. set_solver.
  - apply unlink_seg; [done..|]. by apply NoDup_cons in Hnd as [? _].
Qed.

(** The keys of the other nodes do not change with [_map] of one key. *)
Lemma keys_rep_frame t t' xs l :
  Forall2 (λ x k, node_key t !! x = Some k ∧ _map t !! k = Some x) xs l →
  (∀ x k, x ∈ xs → k ∈ l → node_key t' !! x = node_key t !! x ∧ _map t' !! k = _map t !! k) →
  Forall2 (λ x k, node_key t' !! x = Some k ∧ _map t' !! k = Some x) xs l.
Proof.
  intros Hk Hf. induction Hk as [|x k xs l [H1 H2] Hk IH]; [done|].
  constructor.
  - by destruct (Hf x k) as [-> ->]; [left|left|].
  - apply IH. intros y k' ? ?. apply Hf; by right.
Qed.

Lemma remove_key_run t xs l1 k l2 :
  key_rep t xs (l1 ++ k :: l2) →
  ∃ t' xs', _remove_key k t = ([], t', Ret tt) ∧ key_rep t' xs' (l1 ++ l2).
Proof.
  intros Hr. pose proof (key_rep_NoDup _ _ _ Hr) as Hnd.
  destruct (key_rep_cut _ _ _ _ _ Hr) as (xs1 & x & xs2 & -> & Hlen & Hx).
  destruct Hr as [Hl Hk Hm Hf].
  destruct (clist_head (nodes t) root xs1 (x :: xs2) Hl) as [_ Ep]. cbn [head_or] in Ep.
  destruct (clist_head (nodes t) root (xs1 ++ [x]) xs2) as [En _]; [by rewrite <- app_assoc|].
  rewrite last_or_app in En. cbn [last_or] in En.
  eexists _, (xs1 ++ xs2). split.
  - unfold _remove_key. run. rewrite Hx. cbn.
    rewrite Ep. cbn. rewrite En. cbn. done.
  - apply Forall2_app_inv in Hk as [Hk1 Hk2]; [|done]. inversion Hk2 as [|? ? ? ? _ Hk2']; subst.
    assert (k ∉ l1 ++ l2) as Hkl.
    { assert (Hp : l1 ++ k :: l2 ≡ₚ k :: l1 ++ l2) by solve_Permutation.
      rewrite Hp in Hnd. by apply NoDup_cons in Hnd as [? _]. }
    split.
    + by apply clist_removed in Hl.
    + apply (keys_rep_frame t); [by apply Forall2_app|]. cbn. intros y k' _ Hk'.
      split; [done|]. rewrite lookup_delete_ne; [done|]. by intros <-.
    + cbn. intros k' y Hy. apply lookup_delete_Some in Hy as [Hne Hy].
      specialize (Hm k' y Hy). set_solver.
    + cbn. intros y Hy. apply Hf. set_solver.
Qed.

Lemma remove_key_absent t l k :
  list_rep t l → k ∉ l → _remove_key k t = ([], t, Raise KeyError).
Proof.
  intros (xs & [_ _ Hm _]) Hk. unfold _remove_key. run.
  destruct (_map t !! k) eqn:E; [|done]. by apply Hm in E.
Qed.

(** A new node between two neighbours. *)
Lemma key_rep_insert t xs1 xs2 l1 l2 k :
  key_rep t (xs1 ++ xs2) (l1 ++ l2) → length xs1 = length l1 → k ∉ l1 ++ l2 →
  let x := next_node t in
  key_rep (KeyList (link (last_or root xs1) x (head_or xs2 root) (nodes t))
             (<[x := k]> (node_key t)) (<[k := x]> (_map t)) (Z.succ x))
    (xs1 ++ x :: xs2) (l1 ++ k :: l2).
Proof.
  intros [Hl Hk Hm Hf] Hlen Hkl x.
  match goal with |- key_rep ?t1 _ _ => set (t' := t1) end.
  assert (x ∉ root :: xs1 ++ xs2) as Hx by (intros Hx; specialize (Hf x Hx); unfold x in *; lia).
  split; cbn.
  - by apply clist_link.
  - apply Forall2_app_inv in Hk as [Hk1 Hk2]; [|done].
    apply Forall2_app; [|constructor; [by rewrite !lookup_insert_eq|]].
    all: apply (keys_rep_frame t t'); [done|]; cbn; intros y k' Hy Hk';
      rewrite !lookup_insert_ne by set_solver; done.
  - intros k' y. rewrite lookup_insert_Some. intros [[<- <-]|[_ Hy%Hm]]; set_solver.
  - intros y Hy. assert (y = x ∨ y ∈ root :: xs1 ++ xs2) as [->|Hy'] by set_solver.
    + split; [|lia]. assert (0 ≤ root < x) by (apply Hf; by left). lia.
    + specialize (Hf y Hy'). fold x in Hf. lia.
Qed.

Lemma append_key_run t xs l k :
  key_rep t xs l → k ∉ l →
  ∃ t' xs', _append_key k t = ([], t', Ret tt) ∧ key_rep t' xs' (l ++ [k]).
Proof.
  intros Hr Hk. pose proof (key_rep_length _ _ _ Hr) as Hlen.
  pose proof (key_rep_insert t xs [] l [] k) as Hi. rewrite !app_nil_r in Hi.
  specialize (Hi Hr Hlen Hk). cbn [head_or] in Hi.
  destruct Hr as [Hl _ _ Hf].
  destruct (clist_head (nodes t) root xs []) as [_ Ep]; [by rewrite app_nil_r|]. cbn [head_or] in Ep.
  eexists _, _. split; [|exact Hi].
  assert (next_node t ≠ last_or root xs) as Hne.
  { intros E. specialize (Hf _ (last_or_elem root xs)). lia. }
  unfold _append_key, new_node. run. rewrite Ep. cbn. unfold link.
  f_equal; f_equal. f_equal. f_equal. by apply insert_insert_ne.
Qed.

Lemma prepend_key_run t xs l k :
  key_rep t xs l → k ∉ l →
  ∃ t' xs', _prepend_key k t = ([], t', Ret tt) ∧ key_rep t' xs' (k :: l).
Proof.
  intros Hr Hk. pose proof (key_rep_insert t [] xs [] l k Hr eq_refl Hk) as Hi.
  destruct Hr as [Hl _ _ Hf]. cbn [app last_or] in Hi.
  destruct (clist_head (nodes t) root [] xs Hl) as [En _]. cbn [last_or] in En.
  eexists _, _. split; [|exact Hi].
  assert (next_node t ≠ root) as Hne.
  { intros E. assert (0 ≤ root < next_node t) by (apply Hf; by left). lia. }
  unfold _prepend_key, new_node. run. rewrite En. cbn. unfold link.
  f_equal; f_equal. f_equal. f_equal. by apply insert_insert_ne.
Qed.

Lemma iter_from_run fuel t a xs l :
  seg (nodes t) a xs root → root ∉ xs → Forall2 (λ x k, node_key t !! x = Some k ∧ _map t !! k = Some x) xs l →
  (length xs ≤ fuel)%nat → iter_from fuel (head_or xs root) t = ([], t, Ret l).
Proof.
  revert a xs l. induction fuel as [|fuel IH]; intros a xs l Hs Hr Hk Hf.
  { destruct xs; [|cbn in Hf; lia]. inversion Hk; subst. done. }
  destruct xs as [|x xs]; [by inversion Hk|]. inversion Hk as [|? k ? l' [Hx _] Hk']; subst.
  cbn [iter_from head_or]. rewrite (proj2 (Z.eqb_neq x root)) by set_solver.
  cbn in Hs. destruct Hs as (_ & _ & Hs). rewrite get_bind, Hx. cbn [or_raise]. rewrite ret_bind.
  rewrite (run_bind _ _ t [] t (head_or xs root)).
  2: { unfold get_next. rewrite get_bind. by rewrite (seg_head _ _ _ _ Hs). }
  rewrite (run_bind _ _ t [] t l'); [done|]. apply (IH x); [done|set_solver|done|cbn in Hf; lia].
Qed.

(** Fewer nodes are in the list than were made. *)
Lemma nodes_bound t xs l : key_rep t xs l → (length xs ≤ Z.to_nat (next_node t))%nat.
Proof.
  intros [[Hnd _] _ _ Hf].
  assert (root :: xs ⊆+ seqZ 0 (next_node t)) as Hs.
  { apply NoDup_submseteq; [done|]. intros x Hx%Hf. apply elem_of_seqZ. lia. }
  apply submseteq_length in Hs. rewrite length_seqZ in Hs. cbn in Hs. lia.
Qed.

Lemma iter_run t l : list_rep t l → iter_keys t = ([], t, Ret l).
Proof.
  intros (xs & Hr). pose proof (nodes_bound _ _ _ Hr) as Hb. destruct Hr as [[Hnd Hs] Hk _ _].
  apply NoDup_cons in Hnd as [Hroot _].
  unfold iter_keys. rewrite (run_bind _ _ t [] t (head_or xs root)).
  2: { unfold get_next. rewrite get_bind. by rewrite (seg_head _ _ _ _ Hs). }
  rewrite get_bind. by rewrite (iter_from_run _ _ root xs l).
Qed.

Lemma next_node_deleted t ys : next_node (foldr del_node t ys) = next_node t.
Proof. by induction ys as [|y ys IH]. Qed.

Lemma clear_run t l : list_rep t l → ∃ t', clear_keys t = ([], t', Ret tt) ∧ list_rep t' [].
Proof.
  intros (xs & [_ _ _ Hf]). eexists. split; [done|]. exists []. split.
  - split; [apply NoDup_cons; split; [set_solver|apply NoDup_nil_2]|].
    cbn. by rewrite !lookup_insert_eq.
  - constructor.
  - by intros ? ?.
  - intros x ->%list_elem_of_singleton. cbn. rewrite next_node_deleted. apply Hf. by left.
Qed.

#[export] Program Instance linked_order : KeyOrder K (key_list K) := {
  ko_empty := empty_list;
  ko_remove := _remove_key;
  ko_append := _append_key;
  ko_prepend := _prepend_key;
  ko_clear := clear_keys;
  ko_iter := iter_keys;
  ko_rep := list_rep;
  ko_remove_absent := remove_key_absent;
  ko_clear_spec := clear_run;
  ko_iter_spec := iter_run
}.
Next Obligation.
  exists []. split; [|constructor|by intros ? ?|].
  - split; [apply NoDup_cons; split; [set_solver|apply NoDup_nil_2]|by vm_compute].
  - intros x ->%list_elem_of_singleton. done.
Qed.
Next Obligation.
  intros t l1 k l2 (xs & Hr). destruct (remove_key_run _ _ _ _ _ Hr) as (t' & xs' & ? & ?).
  exists t'. split; [done|by exists xs'].
Qed.
Next Obligation.
  intros t l k (xs & Hr) Hk. destruct (append_key_run _ _ _ _ Hr Hk) as (t' & xs' & ? & ?).
  exists t'. split; [done|by exists xs'].
Qed.
Next Obligation.
  intros t l k (xs & Hr) Hk. destruct (prepend_key_run _ _ _ _ Hr Hk) as (t' & xs' & ? & ?).
  exists t'. split; [done|by exists xs'].
Qed.
End linked_laws.

(** ** The dictionaries *)

(** What both classes keep of the packets sent for a key; times are in milliseconds. *)
Record probe := Probe { lldp_data : list Z; timestamp : option Z; sent : Z }.
#[global] Instance eta_probe : Eta probe := EtaBox (λ p, Probe (lldp_data p) (timestamp p) (sent p)).

Definition new_probe (data : list Z) : probe := Probe data None 0.

(** The data of a class: that of [PortData] has a flag besides the probe. *)
Record port_data := PortData { is_down : bool; pd_probe : probe }.
#[global] Instance eta_port_data : Eta port_data := EtaBox (λ d, PortData (is_down d) (pd_probe d)).

Class ProbeData (D : Type) := { probe_of : D → probe; on_probe : (probe → probe) → D → D }.
#[export] Instance switch_probe : ProbeData probe := {| probe_of := λ d, d; on_probe := λ f d, f d |}.
#[export] Instance port_probe : ProbeData port_data :=
  {| probe_of := pd_probe; on_probe := λ f d, d <| pd_probe ::= f |> |}.

Section state.
Context {K T D : Type} `{Countable K} `{!KeyOrder K T} `{!ProbeData D}.

Record data_state := DataState { entries : gmap K D; order : T }.
#[global] Instance eta_data_state : Eta data_state := EtaBox (λ s, DataState (entries s) (order s)).

Abbreviation DM := (M data_state pyexn Empty_set).

Definition data_empty : data_state := DataState ∅ ko_empty.

Definition set_entry (k : K) (d : D) : DM () := modify (λ s, s <| entries ::= <[k := d]> |>).
Definition get_entry (k : K) : DM D := s ← get_st; or_raise (entries s !! k) KeyError.

Definition _move_last_key (k : K) : DM () := within order (ko_remove k);; within order (ko_append k).
Definition _move_front_key (k : K) : DM () := within order (ko_remove k);; within order (ko_prepend k).

(** [k in self] *)
Definition contains (k : K) : DM bool := gets (λ s, bool_decide (is_Some (entries s !! k))).

(** The first branch of [add_port], and [add_switch]; [d] is the new data. *)
Definition add_entry (k : K) (d : D) : DM () :=
  within order (ko_prepend k);; set_entry k d.

Definition lldp_sent (now : Z) (k : K) : DM D :=
  d ← get_entry k;
  let d := on_probe (λ p, p <| timestamp := Some now |> <| sent ::= Z.succ |>) (d : D) in
  set_entry k d;;
  _move_last_key k;;
  mret d.

Definition lldp_received (k : K) : DM () :=
  d ← get_entry k;
  set_entry k (on_probe (λ p, p <| sent := 0 |>) (d : D)).

Definition lldp_dropped (d : D) : Z := sent (probe_of d).

Definition clear_timestamp (d : D) : D := on_probe (λ p, p <| timestamp := None |>) d.

Definition move_front (k : K) : DM () :=
  d ← gets (λ s, entries s !! k);
  match (d : option D) with
  | Some d => set_entry k (clear_timestamp d);; _move_front_key k
  | None => mret tt
  end.

(** [del_port], of both classes. *)
Definition del_entry (k : K) : DM () :=
  _ ← get_entry k;
  modify (λ s, s <| entries ::= base.delete k |>);;
  within order (ko_remove k).

Definition clear : DM () :=
  within order ko_clear;;
  modify (λ s, s <| entries := ∅ |>).

Definition items : DM (list (K * D)) :=
  l ← within order ko_iter;
  s ← get_st;
  or_raise (mapM (λ k, pair k <$> entries s !! k) (l : list K)) KeyError.
End state.
Arguments data_state K T D {_ _}.

Section ports.
Context {K T : Type} `{Countable K} `{!KeyOrder K T}.

(** A port tells its key and whether it is down. *)
Definition add_port (k : K) (down : bool) (data : list Z) : M (data_state K T port_data) pyexn Empty_set () :=
  known ← contains k;
  if known : bool
  then d ← get_entry k; set_entry k (d <| is_down := down |>)
  else add_entry k (PortData down (new_probe data)).

Definition set_down (k : K) (down : bool) : M (data_state K T port_data) pyexn Empty_set bool :=
  d ← get_entry k;
  set_entry k (clear_timestamp (d <| is_down := down |>));;
  when (negb down) (_move_front_key k);;
  mret down.

Definition add_switch (k : K) (data : list Z) : M (data_state K T probe) pyexn Empty_set () :=
  known ← contains k;
  when (negb known) (add_entry k (new_probe data)).
End ports.

(** ** They behave as association lists *)

Section refinement.
Context {K T D : Type} `{Countable K} `{!KeyOrder K T} `{!ProbeData D}.
Implicit Types (s : data_state K T D) (l : odict K D).

Record data_rep s l : Prop := {
  dr_order : ko_rep (order s) (od_keys l);
  dr_keys : od_ok l;
  dr_entries : ∀ k, entries s !! k = od_get k l
}.

Lemma data_empty_rep : data_rep data_empty [].
Proof.
  split; [apply ko_empty_spec|apply NoDup_nil_2|]. intros k. apply lookup_empty.
Qed.

Lemma od_keys_cut l k d : od_get k l = Some d → od_ok l →
  ∃ l1 l2 : list K, od_keys l = l1 ++ k :: l2 ∧ od_keys (od_del k l) = l1 ++ l2.
Proof.
  intros Hd Hok. assert (k ∈ od_keys l) as Hk by (by apply od_get_is_key; rewrite Hd).
  apply list_elem_of_split in Hk as (l1 & l2 & E). exists l1, l2. split; [done|].
  rewrite od_keys_del, E. unfold od_ok in Hok. rewrite E in Hok.
  apply NoDup_app in Hok as (_ & H1 & H2). apply NoDup_cons in H2 as [H2 _].
  rewrite filter_app, filter_cons_False by auto.
  assert (∀ ks : list K, k ∉ ks → filter (λ k', k' ≠ k) ks = ks) as Hf.
  { induction ks as [|x ks IH]; intros Hks; [done|].
    rewrite filter_cons_True by (intros ->; apply Hks; by left).
    rewrite IH; [done|]. intros Hin. apply Hks. by right. }
  rewrite !Hf; [done|done|]. intros Hk. apply (H1 k Hk). by left.
Qed.

Lemma get_entry_run s l k : data_rep s l →
  get_entry k s = ([], s, match od_get k l with Some d => Ret d | None => Raise KeyError end).
Proof.
  intros [_ _ He]. unfold get_entry. rewrite get_bind, He. by destruct (od_get k l).
Qed.

Lemma set_entry_rep s l k d f : data_rep s l → od_get k l = Some d →
  data_rep (s <| entries ::= <[k := f d]> |>) (od_alter f k l).
Proof.
  intros [Ho Hk He] Hd. split; cbn.
  - by rewrite od_keys_alter.
  - by apply od_ok_alter.
  - intros k'. rewrite od_get_alter. case_decide; subst.
    + by rewrite lookup_insert_eq, Hd.
    + by rewrite lookup_insert_ne.
Qed.

(** The order of a key changes to an end. *)
Lemma move_front_run s l k d : data_rep s l → od_get k l = Some d →
  ∃ s', _move_front_key k s = ([], s', Ret tt) ∧ data_rep s' ((k, d) :: od_del k l).
Proof.
  intros [Ho Hk He] Hd. destruct (od_keys_cut l k d Hd Hk) as (l1 & l2 & E & E').
  rewrite E in Ho. destruct (ko_remove_spec _ _ _ _ Ho) as (t1 & R1 & H1).
  assert (k ∉ l1 ++ l2) as Hn by (rewrite <- E', od_keys_del; by rewrite list_elem_of_filter; intros []).
  destruct (ko_prepend_spec _ _ _ H1 Hn) as (t2 & R2 & H2).
  exists (s <| order := t2 |>). split.
  - unfold _move_front_key, within, mbind, M_bind. rewrite R1. cbn. by rewrite R2.
  - split; cbn.
    + unfold od_keys in *. cbn. by rewrite E'.
    + unfold od_ok, od_keys in *. cbn. rewrite E'. apply NoDup_cons. split; [done|].
      rewrite <- E'. by apply od_ok_del.
    + intros k'. rewrite He. case_decide; [by subst|]. by rewrite od_get_del_ne.
Qed.

Lemma move_last_run s l k d : data_rep s l → od_get k l = Some d →
  ∃ s', _move_last_key k s = ([], s', Ret tt) ∧ data_rep s' (od_del k l ++ [(k, d)]).
Proof.
  intros [Ho Hk He] Hd. destruct (od_keys_cut l k d Hd Hk) as (l1 & l2 & E & E').
  rewrite E in Ho. destruct (ko_remove_spec _ _ _ _ Ho) as (t1 & R1 & H1).
  assert (k ∉ od_keys (od_del k l)) as Hn by (rewrite od_keys_del; by rewrite list_elem_of_filter; intros []).
  rewrite <- E' in H1. destruct (ko_append_spec _ _ _ H1 Hn) as (t2 & R2 & H2).
  assert (od_del k l ++ [(k, d)] = od_set k d (od_del k l)) as Eset.
  { clear -Hn. revert Hn. generalize (od_del k l) as m. unfold od_keys.
    induction m as [|[k1 d1] m IH]; intros Hn; [done|]. cbn in Hn |- *.
    rewrite decide_False by (intros ->; apply Hn; by left). rewrite IH; [done|].
    intros Hin. apply Hn. by right. }
  exists (s <| order := t2 |>). split.
  - unfold _move_last_key, within, mbind, M_bind. rewrite R1. cbn. by rewrite R2.
  - split; cbn.
    + unfold od_keys in *. by rewrite fmap_app.
    + rewrite Eset. by apply od_ok_set, od_ok_del.
    + intros k'. rewrite He, Eset, od_get_set. case_decide; [by subst|]. by rewrite od_get_del_ne.
Qed.

Lemma add_entry_run s l k d : data_rep s l → od_get k l = None →
  ∃ s', add_entry k d s = ([], s', Ret tt) ∧ data_rep s' ((k, d) :: l).
Proof.
  intros [Ho Hk He] Hd.
  assert (k ∉ od_keys l) as Hn by (rewrite <- od_get_is_key, Hd; by intros [? ?]).
  destruct (ko_prepend_spec _ _ _ Ho Hn) as (t' & R & Ho').
  eexists. split.
  - unfold add_entry, within, mbind, M_bind. rewrite R. cbn. done.
  - split; cbn; [done|by apply NoDup_cons|].
    intros k'. case_decide; subst.
    + by rewrite lookup_insert_eq.
    + by rewrite lookup_insert_ne.
Qed.

Lemma del_entry_run s l k d : data_rep s l → od_get k l = Some d →
  ∃ s', del_entry k s = ([], s', Ret tt) ∧ data_rep s' (od_del k l).
Proof.
  intros Hr Hd. pose proof (get_entry_run s l k Hr) as Hg. rewrite Hd in Hg.
  destruct Hr as [Ho Hk He]. destruct (od_keys_cut l k d Hd Hk) as (l1 & l2 & E & E').
  rewrite E in Ho. destruct (ko_remove_spec _ _ _ _ Ho) as (t1 & R1 & H1).
  eexists. split.
  - unfold del_entry. erewrite run_bind by exact Hg. rewrite modify_bind.
    unfold within. cbn. rewrite R1. done.
  - split; cbn; [by rewrite E'|by apply od_ok_del|].
    intros k'. rewrite od_get_del, lookup_delete, He. by repeat case_decide.
Qed.

(** [items] gives the association list itself. *)
Lemma items_run s l : data_rep s l → items s = ([], s, Ret l).
Proof.
  intros [Ho Hk He]. unfold items, within, mbind, M_bind. rewrite (ko_iter_spec _ _ Ho). cbn.
  assert (∀ l', (∀ k d, (k, d) ∈ l' → entries s !! k = Some d) →
    mapM (λ k, pair k <$> entries s !! k) (od_keys l') = Some l') as Hm.
  { unfold od_keys. induction l' as [|[k d] l' IH]; intros Hin; [done|]. cbn.
    rewrite (Hin k d) by left. cbn. rewrite IH; [done|]. intros k' d' Hk'. apply Hin. by right. }
  rewrite Hm; [by destruct s|]. intros k d Hin. rewrite He. by apply od_elem_get.
Qed.
End refinement.

(** The calls of [PortDataState] and what they do to an association list. *)
Inductive data_op (K : Type) :=
| AddPort (k : K) (down : bool) (data : list Z)
| LldpSent (k : K) (now : Z)
| LldpReceived (k : K)
| MoveFront (k : K)
| SetDown (k : K) (down : bool)
| DelPort (k : K)
| Clear.
Arguments AddPort {K} _ _ _.
Arguments LldpSent {K} _ _.
Arguments LldpReceived {K} _.
Arguments MoveFront {K} _.
Arguments SetDown {K} _ _.
Arguments DelPort {K} _.
Arguments Clear {K}.

Section spec.
Context {K T : Type} `{Countable K} `{!KeyOrder K T}.

Definition data_do (op : data_op K) : M (data_state K T port_data) pyexn Empty_set () :=
  match op with
  | AddPort k down data => add_port k down data
  | LldpSent k now => lldp_sent now k;; mret tt
  | LldpReceived k => lldp_received k
  | MoveFront k => move_front k
  | SetDown k down => set_down k down;; mret tt
  | DelPort k => del_entry k
  | Clear => clear
  end.

(** A key that must be there. *)
Definition known_key (k : K) (l : odict K port_data) (f : port_data → odict K port_data) :
    odict K port_data * outcome pyexn () :=
  match od_get k l with Some d => (f d, Ret tt) | None => (l, Raise KeyError) end.

Definition data_spec (op : data_op K) (l : odict K port_data) : odict K port_data * outcome pyexn () :=
  match op with
  | AddPort k down data =>
      (if od_mem k l then od_alter (λ d, d <| is_down := down |>) k l
       else (k, PortData down (Probe data None 0)) :: l, Ret tt)
  | LldpSent k now => known_key k l (λ d,
      od_del k l ++ [(k, PortData (is_down d) (Probe (lldp_data (pd_probe d)) (Some now) (sent (pd_probe d) + 1)))])
  | LldpReceived k => known_key k l (λ d,
      od_alter (λ d, PortData (is_down d) (Probe (lldp_data (pd_probe d)) (timestamp (pd_probe d)) 0)) k l)
  | MoveFront k =>
      (match od_get k l with
       | Some d => (k, PortData (is_down d) (Probe (lldp_data (pd_probe d)) None (sent (pd_probe d)))) :: od_del k l
       | None => l
       end, Ret tt)
  | SetDown k down => known_key k l (λ d,
      let d' := PortData down (Probe (lldp_data (pd_probe d)) None (sent (pd_probe d))) in
      if down then od_alter (λ _, d') k l else (k, d') :: od_del k l)
  | DelPort k => known_key k l (λ _, od_del k l)
  | Clear => ([], Ret tt)
  end.

Lemma od_get_altered (f : port_data → port_data) k (l : odict K port_data) d :
  od_get k l = Some d → od_get k (od_alter f k l) = Some (f d).
Proof. intros Hd. by rewrite od_get_alter, decide_True, Hd. Qed.

Lemma lldp_sent_run {D} `{!ProbeData D} (s : data_state K T D) l k now d :
  data_rep s l → od_get k l = Some d →
  let d' := on_probe (λ p, p <| timestamp := Some now |> <| sent ::= Z.succ |>) d in
  ∃ s', lldp_sent now k s = ([], s', Ret d') ∧ data_rep s' (od_del k l ++ [(k, d')]).
Proof.
  intros Hr Hd d'. pose proof (set_entry_rep s l k d (λ _, d') Hr Hd) as Hr1.
  destruct (move_last_run _ _ k d' Hr1) as (s' & R & Hr').
  { by rewrite od_get_alter, decide_True, Hd. }
  exists s'. rewrite od_del_alter in Hr'. split; [|done].
  unfold lldp_sent. erewrite run_bind by (rewrite (get_entry_run _ l), Hd; done).
  unfold set_entry. rewrite modify_bind. by rewrite (run_bind _ _ _ _ _ _ R).
Qed.

Lemma move_front_known_run {D} `{!ProbeData D} (s : data_state K T D) l k d :
  data_rep s l → od_get k l = Some d →
  ∃ s', move_front k s = ([], s', Ret tt) ∧ data_rep s' ((k, clear_timestamp d) :: od_del k l).
Proof.
  intros Hr Hd. pose proof (set_entry_rep s l k d (λ _, clear_timestamp d) Hr Hd) as Hr1.
  destruct (move_front_run _ _ k (clear_timestamp d) Hr1) as (s' & R & Hr').
  { by rewrite od_get_alter, decide_True, Hd. }
  exists s'. rewrite od_del_alter in Hr'. split; [|done].
  unfold move_front. rewrite gets_bind, (dr_entries _ _ Hr), Hd.
  unfold set_entry. by rewrite modify_bind.
Qed.

Lemma set_down_run (s : data_state K T port_data) l k down d :
  data_rep s l → od_get k l = Some d →
  let d' := clear_timestamp (d <| is_down := down |>) in
  ∃ s', set_down k down s = ([], s', Ret down) ∧
    data_rep s' (if down then od_alter (λ _, d') k l else (k, d') :: od_del k l).
Proof.
  intros Hr Hd d'. pose proof (set_entry_rep s l k d (λ _, d') Hr Hd) as Hr1.
  destruct (move_front_run _ _ k d' Hr1) as (s' & R & Hr').
  { by rewrite od_get_alter, decide_True, Hd. }
  rewrite od_del_alter in Hr'.
  unfold set_down. erewrite run_bind by (rewrite (get_entry_run _ l), Hd; done).
  unfold set_entry. rewrite modify_bind. destruct down; cbn [negb when].
  - eexists. by rewrite ret_bind.
  - exists s'. by rewrite (run_bind _ _ _ _ _ _ R).
Qed.

Lemma add_port_run (s : data_state K T port_data) l k down data :
  data_rep s l →
  ∃ s', add_port k down data s = ([], s', Ret tt) ∧ data_rep s' (data_spec (AddPort k down data) l).1.
Proof.
  intros Hr. unfold add_port, contains. rewrite gets_bind, (dr_entries _ _ Hr).
  cbn. unfold od_mem. destruct (od_get k l) as [d|] eqn:Hd; cbn.
  - eexists. erewrite run_bind by (rewrite (get_entry_run _ l), Hd; done). split; [done|].
    pose proof (set_entry_rep s l k d (λ d, d <| is_down := down |>) Hr Hd) as H1. exact H1.
  - by apply add_entry_run.
Qed.

(** A call that first looks a key up fails when it is not there. *)
Lemma absent_run {A} (s : data_state K T port_data) l k (f : port_data → M (data_state K T port_data) pyexn Empty_set A) :
  data_rep s l → od_get k l = None → (get_entry k ≫= f) s = ([], s, Raise KeyError).
Proof. intros Hr Hd. unfold mbind, M_bind. by rewrite (get_entry_run _ l), Hd. Qed.

Lemma absent_bind {A B} (m : M (data_state K T port_data) pyexn Empty_set A) (f : A → M (data_state K T port_data) pyexn Empty_set B) s :
  m s = ([], s, Raise KeyError) → (m ≫= f) s = ([], s, Raise KeyError).
Proof. unfold mbind, M_bind. by intros ->. Qed.

Lemma data_do_run (s : data_state K T port_data) l op :
  data_rep s l → ∃ s', data_do op s = ([], s', (data_spec op l).2) ∧ data_rep s' (data_spec op l).1.
Proof.
  intros Hr.
  destruct op as [k down data|k now|k|k|k down|k|]; cbn [data_do data_spec].
  - by apply add_port_run.
  - unfold known_key. destruct (od_get k l) as [d|] eqn:Hd.
    + destruct (lldp_sent_run s l k now d Hr Hd) as (s' & R & Hr'). exists s'.
      by rewrite (run_bind _ _ _ _ _ _ R).
    + exists s. split; [|done]. by apply absent_bind, (absent_run s l).
  - unfold known_key, lldp_received. destruct (od_get k l) as [d|] eqn:Hd.
    + eexists. erewrite run_bind by (rewrite (get_entry_run _ l), Hd; done). split; [done|].
      exact (set_entry_rep s l k d _ Hr Hd).
    + exists s. split; [|done]. by apply (absent_run s l).
  - destruct (od_get k l) as [d|] eqn:Hd; [exact (move_front_known_run s l k d Hr Hd)|].
    exists s. unfold move_front. by rewrite gets_bind, (dr_entries _ _ Hr), Hd.
  - unfold known_key. destruct (od_get k l) as [d|] eqn:Hd.
    + destruct (set_down_run s l k down d Hr Hd) as (s' & R & Hr'). exists s'.
      by rewrite (run_bind _ _ _ _ _ _ R).
    + exists s. split; [|done]. by apply absent_bind, (absent_run s l).
  - unfold known_key. destruct (od_get k l) as [d|] eqn:Hd; [by apply (del_entry_run s l k d)|].
    exists s. split; [|done]. by apply (absent_run s l).
  - destruct (ko_clear_spec _ _ (dr_order _ _ Hr)) as (t' & R & Ht).
    eexists. unfold clear, within, mbind, M_bind. rewrite R. split; [done|].
    split; [done|apply NoDup_nil_2|]. intros k. apply lookup_empty.
Qed.

(** A dictionary of ports in the order of its linked list behaves as an association list:
    new ports and ports to be looked at early go to its front with no timestamp, a port a packet
    was sent for goes to its end, ports that are not there raise [KeyError] and change nothing;
    iteration ends and gives the ports and their data in that order. *)
Theorem port_data_refines (s : data_state K T port_data) l op :
  data_rep s l →
  items s = ([], s, Ret l) ∧
  ∃ s', data_do op s = ([], s', (data_spec op l).2) ∧ data_rep s' (data_spec op l).1.
Proof. intros Hr. split; [by apply items_run|by apply data_do_run]. Qed.
End spec.

(** ** An example with the linked list *)

Definition ports_of (ops : list (data_op Z)) : data_state Z (key_list Z) port_data :=
  foldl (λ s op, final (data_do op) s) data_empty ops.

Lemma ports_of_rep ops : data_rep (ports_of ops) (foldl (λ l op, (data_spec op l).1) [] ops).
Proof.
  unfold ports_of. pose proof (data_empty_rep (K := Z) (T := key_list Z) (D := port_data)) as H.
  revert H. generalize (data_empty : data_state Z (key_list Z) port_data), ([] : odict Z port_data).
  induction ops as [|op ops IH]; intros s l Hr; [done|]. cbn. apply IH.
  destruct (data_do_run s l op Hr) as (s' & R & Hr'). unfold final. by rewrite R.
Qed.

Definition two_ports : data_state Z (key_list Z) port_data :=
  ports_of [AddPort 1 false []; AddPort 2 true []; LldpSent 2 7].

Lemma port_data_refines_witness :
  items two_ports = ([], two_ports, Ret [(1, PortData false (Probe [] None 0)); (2, PortData true (Probe [] (Some 7) 1))]) ∧
  ∃ s', data_do (MoveFront 2) two_ports = ([], s', Ret tt) ∧
    data_rep s' [(2, PortData true (Probe [] None 1)); (1, PortData false (Probe [] None 0))].
Proof.
  apply (port_data_refines two_ports [(1, PortData false (Probe [] None 0)); (2, PortData true (Probe [] (Some 7) 1))] (MoveFront 2)).
  apply (ports_of_rep [AddPort 1 false []; AddPort 2 true []; LldpSent 2 7]).
Defined.
