(* ===== verification/Topology.v ===== *)
(** * Topology discovery

    Models [ryu/topology/switches.py]: switches, ports, links and hosts as the application
    [Switches] learns them from the OpenFlow channels and from LLDP packets, with its two threads
    [lldp_loop] and [link_loop].  The dictionaries of ports and switches are those of [KeyOrder].

    Ports are equal when their datapath ids and numbers are ([key]); a [Switch] object is equal
    only to itself, so that those which become keys have a number.  MAC and IP addresses are
    integers, times are milliseconds.  Events, messages to switches and replies are outputs.  What
    the packet library finds in a frame comes with the packet-in message.  Measurements of time
    and load that are printed are left out. *)

From stdpp Require Import base list gmap strings.
From Stdlib Require Import ZArith Lia.
From S2P Require Import Prelude Odict Struct Ofp KeyOrder.

Open Scope Z_scope.
Set Default Proof Using "Type".

(** ** Ports, switches and links *)

Definition OFPP_MAX (v : Z) : Z := if v =? ofproto_v1_0_OFP_VERSION then 0xff00 else 0xffffff00.
Definition OFPPS_LINK_DOWN : Z := Z.shiftl 1 0.
Definition OFPPC_PORT_DOWN : Z := Z.shiftl 1 0.
Definition OFP_NO_BUFFER : Z := 0xffffffff.
Definition LLDP_MAC_NEAREST_BRIDGE : Z := 0x0180c200000e.

Record ofpport := OfpPort {
  port_no : Z;
  p_hw_addr : Z;
  name : string;
  config : Z;
  state : Z
}.

(** A connection [conn] of a switch; the id is [None] before the handshake. *)
Record dpath := Dpath {
  conn : Z;
  id : option Z;
  version : Z;
  dp_ports : odict Z ofpport
}.

(** Datapath id and port number. *)
Abbreviation key := (Z * Z)%type.

Record port := Port { p_dpid : Z; p_ofp : Z; p_desc : ofpport }.

Definition p_key (p : port) : key := (p_dpid p, port_no (p_desc p)).
Definition is_reserved (p : port) : bool := OFPP_MAX (p_ofp p) <? port_no (p_desc p).
Definition port_is_down (p : port) : bool :=
  (0 <? Z.land (state (p_desc p)) OFPPS_LINK_DOWN) || (0 <? Z.land (config (p_desc p)) OFPPC_PORT_DOWN).

Record switch := Switch { dp : dpath; sw_ports : list port; is_root : bool }.

Definition sw_dpid (sw : switch) : option Z := id (dp sw).

Record link := Link { src : key; dst : key }.

#[export] Instance link_eq_dec : EqDecision link.
Proof. solve_decision. Defined.

Definition reverse (l : link) : link := Link (dst l) (src l).

(** *** [HostState] *)

Record host := Host { mac : Z; h_port : key; h_ipv4 : list Z; h_ipv6 : list Z }.
#[global] Instance eta_host : Eta host := EtaBox (λ h, Host (mac h) (h_port h) (h_ipv4 h) (h_ipv6 h)).

Definition hosts_add (h : host) (d : odict Z host) : odict Z host := od_setdefault (mac h) h d.

(** [if ip != None and ip not in l: l.append(ip)] *)
Definition add_ip (ip : option Z) (l : list Z) : list Z :=
  match ip with
  | Some a => if bool_decide (a ∈ l) then l else l ++ [a]
  | None => l
  end.

Definition update_ip (m : Z) (ip_v4 ip_v6 : option Z) (d : odict Z host) : odict Z host :=
  od_alter (λ h, h <| h_ipv4 ::= add_ip ip_v4 |> <| h_ipv6 ::= add_ip ip_v6 |>) m d.

Definition get_by_dpid (dpid : Z) (d : odict Z host) : list host :=
  filter (λ h, (h_port h).1 = dpid) (od_values d).

(** *** [LinkState] *)

Record link_state := LinkState { stamps : odict link Z; peers : odict key key }.
#[global] Instance eta_link_state : Eta link_state := EtaBox (λ s, LinkState (stamps s) (peers s)).

Abbreviation LM := (M link_state pyexn Empty_set).

(** [del d[k]] *)
Definition del_stamp (l : link) : LM () :=
  s ← get_st;
  or_raise (od_get l (stamps s)) KeyError ;;
  modify (λ s, s <| stamps ::= od_del l |>).

Definition del_peer (k : key) : LM () :=
  s ← get_st;
  or_raise (od_get k (peers s)) KeyError ;;
  modify (λ s, s <| peers ::= od_del k |>).

Definition get_peer (k : key) : LM (option key) := gets (λ s, od_get k (peers s)).

Definition update_link (now : Z) (s d : key) : LM bool :=
  let l := Link s d in
  modify (λ s0, s0 <| stamps ::= od_set l now |>);;
  modify (λ s0, s0 <| peers ::= od_set s d |>);;
  gets (λ s0, od_mem (reverse l) (stamps s0)).

Definition link_down (l : link) : LM () := del_stamp l;; del_peer (src l).

Definition rev_link_set_timestamp (rev_link : link) (stamp : Z) : LM () :=
  modify (λ s, s <| stamps ::= od_alter (λ _, stamp) rev_link |>).

Definition port_deleted (s : key) : LM (key * option key) :=
  p ← get_peer s;
  d ← or_raise (p : option key) KeyError;
  let l := Link s d in
  del_stamp l;;
  del_peer s;;
  modify (λ s0, s0 <| stamps ::= od_del (reverse l) |>);;
  rev_link_dst ← gets (λ s0, od_get d (peers s0));
  modify (λ s0, s0 <| peers ::= od_del d |>);;
  mret (d, rev_link_dst).

(** *** [LLDPPacket] *)

(** [data.rstrip(b'\x00')] *)
Fixpoint rstrip (data : list Z) : list Z :=
  match data with
  | [] => []
  | b :: data' =>
      match rstrip data' with
      | [] => if b =? 0 then [] else [b]
      | rest => b :: rest
      end
  end.

(** An Ethernet header and the padding of an empty payload, without the zeros at its end. *)
Definition lldp_packet (dl_addr : Z) : list Z :=
  rstrip (be_bytes 6 LLDP_MAC_NEAREST_BRIDGE ++ be_bytes 6 dl_addr ++ be_bytes 2 ETH_TYPE_LLDP ++
          replicate 46 0).

Definition LLDP_PACKET_LEN : Z := Z.of_nat (length (lldp_packet 0)).

Definition LLDP_SEND_PERIOD_PER_SWITCH : Z := 900.
Definition LINK_TIMEOUT : Z := 10000.
Definition LINK_LLDP_DROP : Z := 5.

(** ** The state of [Switches] *)

(** Where the thread of [lldp_loop] is: waiting for its event, or asleep with root switches
    still to be probed; an exception ends it. *)
Inductive lldp_thread := LldpWaiting | LldpSending (rest : list Z) | LldpEnded.

Abbreviation port_dict := (data_state key (key_list key) port_data).
Abbreviation switch_dict := (data_state Z (key_list Z) probe).

Record topology := Topology {
  dps : odict Z dpath;
  port_state : odict Z (odict Z ofpport);
  ports : port_dict;
  switches : switch_dict;
  objects : gmap Z switch;
  next_object : Z;
  links : link_state;
  hosts : odict Z host;
  is_active : bool;
  link_discovery : bool;
  install_flow : bool;
  explicit_drop : bool;
  lldp_event : bool;
  link_event : bool;
  lldp_pc : lldp_thread;
  link_alive : bool
}.

#[global] Instance eta_topology : Eta topology := EtaBox (λ s,
  Topology (dps s) (port_state s) (ports s) (switches s) (objects s) (next_object s) (links s)
    (hosts s) (is_active s) (link_discovery s) (install_flow s) (explicit_drop s) (lldp_event s)
    (link_event s) (lldp_pc s) (link_alive s)).

(** [observe-links], [install-lldp-flow] and [explicit-drop] are options. *)
Definition topology_init (observe_links install drop : bool) : topology :=
  Topology [] [] data_empty data_empty ∅ 0 (LinkState [] []) [] true observe_links install drop
    false false LldpWaiting true.

Inductive lldp_action :=
| SetSrc (hw : Z)
| Output (p : Z)
| OutputController (max_len : option Z).

Inductive out :=
| EventSwitchEnter (sw : option switch)
| EventSwitchReconnected (sw : option switch)
| EventSwitchLeave (sw : option switch)
| EventPortAdd (p : key)
| EventPortDelete (p : key)
| EventPortModify (p : key)
| EventLinkAdd (l : link)
| EventLinkDelete (l : link)
| EventHostAdd (h : host)
| Close (conn : Z)
| LldpFlow (dpid : Z) (in_port : option Z) (actions : list lldp_action) (meter : option Z)
| PacketOut (dpid : Z) (buffer : Z) (in_port : Z) (actions : list lldp_action) (data : list Z)
| EventSwitchReply (sws : list (option switch))
| EventLinkReply (ls : list link)
| EventHostReply (hs : list host).

Abbreviation TM := (M topology pyexn out).

(** A call of a method of one of the objects of the state, which sends nothing. *)
Definition call {T A} (proj : topology → T) {S : Setter proj} (m : M T pyexn Empty_set A) : TM A :=
  λ s, let '(_, t, r) := m (proj s) in ([], s <| proj := t |>, r).

Definition set_lldp_event : TM () := modify (λ s, s <| lldp_event := true |>).

(** ** Switches and ports *)

Definition close : TM () :=
  modify (λ s, s <| is_active := false |>);;
  s ← get_st;
  when (link_discovery s) (
    modify (λ s, s <| lldp_event := true |>);;
    modify (λ s, s <| link_event := true |>)).

Definition _register (d : dpath) : TM () :=
  dpid ← or_raise (id d) AssertionError;
  modify (λ s, s <| dps ::= od_set dpid d |>);;
  s ← get_st;
  when (negb (od_mem dpid (port_state s)))
    (modify (λ s, s <| port_state ::= od_set dpid
       (foldl (λ m p, od_set (port_no p) p m) [] (od_values (dp_ports d))) |>)).

Definition _unregister (d : dpath) : TM () :=
  match id d with
  | None => mret tt
  | Some dpid =>
      s ← get_st;
      when (od_mem dpid (dps s)) (
        modify (λ s, s <| dps ::= od_del dpid |>);;
        s ← get_st;
        or_raise (od_get dpid (port_state s)) KeyError;;
        modify (λ s, s <| port_state ::= od_del dpid |>))
  end.

(** [Switch] with [add_port]: reserved ports are left out. *)
Definition make_switch (dpid : Z) (d : dpath) (ps : odict Z ofpport) : switch :=
  Switch d (filter (λ p, is_reserved p = false) (Port dpid (version d) <$> od_values ps)) (dpid =? 1).

Definition get_ports (dpid : Z) : TM (odict Z ofpport) :=
  s ← get_st; or_raise (od_get dpid (port_state s)) KeyError.

Definition _get_switch (dpid : Z) : TM (option switch) :=
  s ← get_st;
  match od_get dpid (dps s) with
  | Some d => ps ← get_ports dpid; mret (Some (make_switch dpid d ps))
  | None => mret None
  end.

Definition _get_port (dpid no : Z) : TM (option port) :=
  sw ← _get_switch dpid;
  match sw : option switch with
  | Some sw => mret (list_find (λ p, port_no (p_desc p) = no) (sw_ports sw) ≫= λ x, Some x.2)
  | None => mret None
  end.

Definition _port_added (p : port) : TM () :=
  call ports (add_port (p_key p) (port_is_down p) (lldp_packet (p_hw_addr (p_desc p)))).

(** The object becomes a key of [self.switches]. *)
Definition _switch_added (sw : switch) : TM () :=
  n ← gets next_object;
  modify (λ s, s <| next_object ::= Z.succ |> <| objects ::= <[n := sw]> |>);;
  call switches (add_switch n (lldp_packet 0)).

Definition _link_down (p : key) : TM () :=
  x ← try_with (r ← call links (port_deleted p); mret (Some r))
        (λ e, if bool_decide (e = KeyError) then Some (mret None) else None);
  match x : option (key * option key) with
  | None => mret tt
  | Some (d, rev_link_dst) =>
      emit (EventLinkDelete (Link p d));;
      match rev_link_dst with
      | Some r => emit (EventLinkDelete (Link d r))
      | None => mret tt
      end;;
      call ports (move_front d)
  end.

Definition _is_edge_port (s : topology) (p : key) : bool :=
  forallb (λ l, negb (bool_decide (p = src l)) && negb (bool_decide (p = dst l))) (od_keys (stamps (links s))).

(** ** Event handlers *)

Definition ofproto_v1_4_OFP_VERSION : Z := 0x05.

(** The parsers of the protocol versions that have a class [OFPInstructionMeter]: 1.3 and 1.4. *)
Definition has_meter_instruction (v : Z) : bool :=
  (v =? ofproto_v1_3_OFP_VERSION) || (v =? ofproto_v1_4_OFP_VERSION).

(** The flow entries that bring LLDP packets to the controller and, from OpenFlow 1.2 on, make
    the switch send them on through its ports; with OpenFlow 1.2 and 1.5 the first of those fails
    for want of the meter instruction. *)
Definition forward_action (in_port : Z) (p : ofpport) (v : Z) : list lldp_action :=
  [SetSrc (p_hw_addr p); Output (if port_no p =? in_port then OFPP_IN_PORT v else port_no p)].

Definition install_lldp_flows (d : dpath) (dpid : Z) : TM () :=
  let v := version d in
  if v =? ofproto_v1_0_OFP_VERSION then
    emit (LldpFlow dpid None [OutputController (Some LLDP_PACKET_LEN)] None)
  else when (ofproto_v1_2_OFP_VERSION <=? v) (
    ps ← get_ports dpid;
    for_each (od_values (ps : odict Z ofpport)) (λ p,
      if has_meter_instruction v then
        emit (LldpFlow dpid (Some (port_no p))
          (OutputController None :: concat ((λ q, forward_action (port_no p) q v) <$> od_values ps)) (Some 1))
      else raise AttributeError)).

Inductive dp_state := MAIN_DISPATCHER | DEAD_DISPATCHER.

Definition main_handler (d : dpath) : TM () :=
  s ← get_st;
  let known := id d ≫= λ dpid, od_get dpid (dps s) in
  let dp_multiple_conns := bool_decide (is_Some known) in
  match known with Some old => emit (Close (conn old)) | None => mret tt end;;
  _register d;;
  dpid ← or_raise (id d) AssertionError;
  sw ← _get_switch dpid;
  emit (if dp_multiple_conns then EventSwitchReconnected sw else EventSwitchEnter sw);;
  s ← get_st;
  when (link_discovery s) (
    when (install_flow s) (install_lldp_flows d dpid);;
    when (negb dp_multiple_conns) (
      sw ← or_raise sw AttributeError;
      _switch_added sw;;
      for_each (sw_ports sw) (λ p, when (negb (is_reserved p)) (_port_added p)));;
    set_lldp_event).

Definition dead_handler (d : dpath) : TM () :=
  match id d with
  | None => mret tt
  | Some dpid =>
      sw ← _get_switch dpid;
      _unregister d;;
      emit (EventSwitchLeave sw);;
      s ← get_st;
      when (link_discovery s) (
        sw ← or_raise (sw : option switch) AttributeError;
        for_each (sw_ports sw) (λ p, when (negb (is_reserved p)) (
          call ports (del_entry (p_key p));;
          _link_down (p_key p)));;
        set_lldp_event)
  end.

Definition state_change_handler (d : dpath) (st : dp_state) : TM () :=
  match st with MAIN_DISPATCHER => main_handler d | DEAD_DISPATCHER => dead_handler d end.

Inductive port_reason := OFPPR_ADD | OFPPR_DELETE | OFPPR_MODIFY | OtherReason (r : Z).

(** [self.port_state[dp.id]] with [add], [remove] or [modify]; the messages come after the
    handshake. *)
Definition change_ports (dpid : Z) (f : odict Z ofpport → odict Z ofpport) : TM () :=
  get_ports dpid;;
  modify (λ s, s <| port_state ::= od_alter f dpid |>).

(** The port as [_get_port] finds it; reserved ports are not found. *)
Definition with_port (dpid no : Z) (f : port → TM ()) : TM () :=
  p ← _get_port dpid no;
  match p : option port with
  | Some p => when (negb (is_reserved p)) (f p)
  | None => mret tt
  end.

Definition port_status_handler (d : dpath) (dpid : Z) (r : port_reason) (p : ofpport) : TM () :=
  let k := p_key (Port dpid (version d) p) in
  let no := port_no p in
  match r with
  | OFPPR_ADD =>
      change_ports dpid (od_set no p);;
      emit (EventPortAdd k);;
      s ← get_st;
      when (link_discovery s) (with_port dpid no (λ p,
        _port_added p;;
        set_lldp_event;;
        raise TypeError))
  | OFPPR_DELETE =>
      ps ← get_ports dpid;
      or_raise (od_get no (ps : odict Z ofpport)) KeyError;;
      change_ports dpid (od_del no);;
      emit (EventPortDelete k);;
      s ← get_st;
      when (link_discovery s) (with_port dpid no (λ p,
        call ports (del_entry (p_key p));;
        _link_down (p_key p);;
        set_lldp_event))
  | OFPPR_MODIFY =>
      change_ports dpid (od_set no p);;
      emit (EventPortModify k);;
      s ← get_st;
      when (link_discovery s) (with_port dpid no (λ p,
        down ← call ports (set_down (p_key p) (port_is_down p));
        when down (_link_down (p_key p));;
        set_lldp_event))
  | OtherReason _ => raise AssertionError
  end.

(** A packet-in message with what the packet library finds in its frame. *)
Record packet_in := PacketIn {
  m_dpid : Z;
  m_version : Z;
  m_in_port : Z;
  m_buffer_id : Z;
  eth_src : Z;
  ethertype : Z;
  arp_src : option Z;
  ipv4_src : option Z;
  ipv6_src : option Z
}.

Definition _drop_packet (m : packet_in) : TM () :=
  when (negb (m_buffer_id m =? OFP_NO_BUFFER) &&
        ((m_version m =? ofproto_v1_0_OFP_VERSION) || (ofproto_v1_2_OFP_VERSION <=? m_version m)))
    (emit (PacketOut (m_dpid m) (m_buffer_id m) (m_in_port m) [] [])).

(** The last port with the address, switch by switch. *)
Definition find_source (hw : Z) (sps : list (Z * odict Z ofpport)) : option key :=
  foldl (λ found x, foldl (λ found p, if p_hw_addr p =? hw then Some (x.1, port_no p) else found)
    found (od_values x.2)) None sps.

Fixpoint all_ports (dpids : list Z) : TM (list (Z * odict Z ofpport)) :=
  match dpids with
  | [] => mret []
  | d :: dpids => ps ← get_ports d; rest ← all_ports dpids; mret ((d, ps) :: rest)
  end.

(** [dst_port_no] is not assigned for other versions. *)
Definition dst_port_no (m : packet_in) : TM Z :=
  if (m_version m =? ofproto_v1_0_OFP_VERSION) || (ofproto_v1_2_OFP_VERSION <=? m_version m)
  then mret (m_in_port m) else raise UnboundLocalError.

Definition remove_inner_hosts (s : topology) : topology :=
  s <| hosts ::= filter (λ kv, _is_edge_port s (h_port kv.2) = true) |>.

(** The packet went from [s] to [d]. *)
Definition link_seen (now : Z) (m : packet_in) (s d : key) : TM () :=
  old_peer ← call links (get_peer s);
  match old_peer : option key with
  | Some old => when (negb (bool_decide (old = d))) (emit (EventLinkDelete (Link s old)))
  | None => mret tt
  end;;
  st ← get_st;
  when (negb (od_mem (Link s d) (stamps (links st)))) (
    emit (EventLinkAdd (Link s d));;
    modify remove_inner_hosts);;
  rev ← call links (update_link now s d);
  when (negb rev) (
    call ports (move_front d);;
    set_lldp_event);;
  st ← get_st;
  when (explicit_drop st) (_drop_packet m).

Definition lldp_packet_in_handler (now : Z) (m : packet_in) : TM () :=
  st ← get_st;
  if negb (link_discovery st) then mret tt else
  if negb (ethertype m =? ETH_TYPE_LLDP) then mret tt else
  if eth_src m =? 0 then mret tt else
  sps ← all_ports (od_keys (dps st));
  match find_source (eth_src m) sps with
  | None => mret tt
  | Some (src_dpid, src_port_no) =>
      no ← dst_port_no m;
      s ← _get_port src_dpid src_port_no;
      match s : option port with
      | None => mret tt
      | Some s =>
          if p_dpid s =? m_dpid m then mret tt else
          try_with (call ports (lldp_received (p_key s)))
            (λ e, if bool_decide (e = KeyError) then Some (mret tt) else None);;
          d ← _get_port (m_dpid m) no;
          match d : option port with
          | None => mret tt
          | Some d => link_seen now m (p_key s) (p_key d)
          end
      end
  end.

Definition host_discovery_packet_in_handler (m : packet_in) : TM () :=
  if ethertype m =? ETH_TYPE_LLDP then mret tt else
  p ← _get_port (m_dpid m) (m_in_port m);
  s ← get_st;
  match p : option port with
  | None => mret tt
  | Some p =>
      when (_is_edge_port s (p_key p)) (
        let h := Host (eth_src m) (p_key p) [] [] in
        when (negb (od_mem (eth_src m) (hosts s))) (
          modify (λ s, s <| hosts ::= hosts_add h |>);;
          emit (EventHostAdd h));;
        if ethertype m =? ETH_TYPE_ARP then
          a ← or_raise (arp_src m) IndexError;
          modify (λ s, s <| hosts ::= update_ip (eth_src m) (Some a) None |>)
        else if ethertype m =? ETH_TYPE_IP then
          a ← or_raise (ipv4_src m) IndexError;
          modify (λ s, s <| hosts ::= update_ip (eth_src m) (Some a) None |>)
        else when (ethertype m =? ETH_TYPE_IPV6) (
          a ← or_raise (ipv6_src m) IndexError;
          modify (λ s, s <| hosts ::= update_ip (eth_src m) None (Some a) |>)))
  end.

(** ** The threads *)

(** What an LLDP packet is sent through; OpenFlow 1.0 keeps the last port only. *)
Definition lldp_actions (v : Z) (ps : list ofpport) : list lldp_action :=
  foldl (λ actions p,
    if bool_decide (name p = "tap:"%string) then actions
    else if v =? ofproto_v1_0_OFP_VERSION then [Output (port_no p)]
    else actions ++ [SetSrc (p_hw_addr p); Output (port_no p)]) [] ps.

Definition send_lldp_packet (now : Z) (n : Z) : TM () :=
  s ← get_st;
  sw ← or_raise (objects s !! n) AttributeError;
  x ← try_with (d ← call switches (lldp_sent now n); mret (Some d))
        (λ e, if bool_decide (e = KeyError) then Some (mret None) else None);
  match (x : option probe) with
  | None => mret tt
  | Some data =>
      let v := version (dp sw) in
      dpid ← or_raise (sw_dpid sw) KeyError;
      if v =? ofproto_v1_0_OFP_VERSION then
        ps ← get_ports dpid;
        emit (PacketOut dpid OFP_NO_BUFFER (OFPP_NONE v) (lldp_actions v (od_values ps)) (lldp_data data))
      else when (ofproto_v1_2_OFP_VERSION <=? v) (
        ps ← get_ports dpid;
        emit (PacketOut dpid OFP_NO_BUFFER (OFPP_CONTROLLER v) (lldp_actions v (od_values ps)) (lldp_data data)))
  end.

(** The root switches never probed and those whose period is over; the loop stops at the first
    switch whose period is not. *)
Fixpoint scan (now : Z) (root : Z → bool) (l : list (Z * probe)) : list Z * list Z :=
  match l with
  | [] => ([], [])
  | (n, data) :: l' =>
      match timestamp data with
      | None => let r := scan now root l' in (if root n then n :: r.1 else r.1, r.2)
      | Some ts =>
          if ts + LLDP_SEND_PERIOD_PER_SWITCH <=? now then
            let r := scan now root l' in (r.1, if root n then n :: r.2 else r.2)
          else ([], [])
      end
  end.

Definition root_switch (s : topology) (n : Z) : bool :=
  match objects s !! n with Some sw => is_root sw | None => false end.

Definition set_pc (pc : lldp_thread) : TM () := modify (λ s, s <| lldp_pc := pc |>).

(** The second loop up to its next sleep. *)
Definition send_next (now : Z) (rest : list Z) : TM () :=
  match rest with
  | [] => set_pc LldpWaiting
  | n :: rest => send_lldp_packet now n;; set_pc (LldpSending rest)
  end.

(** The next stretch of [lldp_loop], from one sleep or wait to the next. *)
Definition lldp_loop (now : Z) : TM () :=
  s ← get_st;
  try_with
    match lldp_pc s with
    | LldpEnded => mret tt
    | LldpSending rest => send_next now rest
    | LldpWaiting =>
        if negb (is_active s) then set_pc LldpEnded else
        modify (λ s, s <| lldp_event := false |>);;
        l ← call switches items;
        let '(root_switches_now, root_switches) := scan now (root_switch s) l in
        for_each root_switches_now (send_lldp_packet now);;
        send_next now root_switches
    end
    (λ e, Some (set_pc LldpEnded;; raise e)).

(** The links whose packets have not come for a while although packets were sent. *)
Definition is_expired (now : Z) (ps : port_dict) (x : link * Z) : bool :=
  (x.2 + LINK_TIMEOUT <? now) &&
  match entries ps !! src x.1 with Some d => LINK_LLDP_DROP <? lldp_dropped d | None => false end.

Definition expired (now : Z) (ps : port_dict) (l : list (link * Z)) : list link :=
  fst <$> filter (λ x, is_expired now ps x = true) l.

Definition delete_link (now : Z) (deleted : list link) (l : link) : TM () :=
  call links (link_down l);;
  emit (EventLinkDelete l);;
  when (negb (bool_decide (reverse l ∈ deleted))) (
    call links (rev_link_set_timestamp (reverse l) (now - LINK_TIMEOUT));;
    known ← call ports (contains (dst l));
    when (known : bool) (call ports (move_front (dst l));; set_lldp_event)).

(** A turn of [link_loop]. *)
Definition link_loop (now : Z) : TM () :=
  s ← get_st;
  when (link_alive s) (
    if negb (is_active s) then modify (λ s, s <| link_alive := false |>) else
    modify (λ s, s <| link_event := false |>);;
    let deleted := expired now (ports s) (stamps (links s)) in
    try_with (for_each deleted (delete_link now deleted))
      (λ e, Some (modify (λ s, s <| link_alive := false |>);; raise e))).

(** ** Requests *)

Fixpoint get_switches (dpids : list Z) : TM (list (option switch)) :=
  match dpids with
  | [] => mret []
  | d :: dpids => sw ← _get_switch d; rest ← get_switches dpids; mret (sw :: rest)
  end.

Definition switch_request_handler (dpid : option Z) : TM () :=
  s ← get_st;
  sws ← match dpid with
        | None => get_switches (od_keys (dps s))
        | Some d => if od_mem d (dps s) then get_switches [d] else mret []
        end;
  emit (EventSwitchReply sws).

Definition link_request_handler (dpid : option Z) : TM () :=
  s ← get_st;
  emit (EventLinkReply match dpid with
    | None => od_keys (stamps (links s))
    | Some d => filter (λ l, (src l).1 = d) (od_keys (stamps (links s)))
    end).

Definition host_request_handler (dpid : option Z) : TM () :=
  s ← get_st;
  emit (EventHostReply match dpid with
    | None => od_values (hosts s)
    | Some d => get_by_dpid d (hosts s)
    end).

(** ** Runs of the application *)

(** A call of a handler, or the next stretch of a thread; [now] is what [time.time()] gives. *)
Inductive topo_op :=
| OnState (d : dpath) (st : dp_state)
| OnPort (d : dpath) (dpid : Z) (r : port_reason) (p : ofpport)
| OnLldp (m : packet_in)
| OnPacket (m : packet_in)
| LldpTurn
| LinkTurn
| OnClose
| OnSwitchRequest (dpid : option Z)
| OnLinkRequest (dpid : option Z)
| OnHostRequest (dpid : option Z).

Definition topo_do (now : Z) (op : topo_op) : TM () :=
  match op with
  | OnState d st => state_change_handler d st
  | OnPort d dpid r p => port_status_handler d dpid r p
  | OnLldp m => lldp_packet_in_handler now m
  | OnPacket m => host_discovery_packet_in_handler m
  | LldpTurn => lldp_loop now
  | LinkTurn => link_loop now
  | OnClose => close
  | OnSwitchRequest d => switch_request_handler d
  | OnLinkRequest d => link_request_handler d
  | OnHostRequest d => host_request_handler d
  end.
