(* ===== verification/TopologyLinks.v ===== *)
(** * Links of the topology

    The invariants of the links of [Topology]: what the observers of the link events have seen
    against what [LinkState] holds, and why the thread [link_loop] never deletes a link. *)

From stdpp Require Import base list gmap sets strings.
From Stdlib Require Import ZArith Lia.
From S2P Require Import Prelude Odict Struct Ofp Circlist KeyOrder Topology.

Open Scope Z_scope.
Set Default Proof Using "Type*".

#[export] Instance link_countable : Countable link :=
  inj_countable' (λ l, (src l, dst l)) (λ x, Link x.1 x.2) ltac:(by intros []).

(** ** No packet is counted as sent for a port *)

Definition none_sent (t : port_dict) : Prop :=
  ∀ k d, entries t !! k = Some d → sent (pd_probe d) = 0.

Lemma set_entry_none_sent k d : sent (pd_probe d) = 0 → preserves none_sent (set_entry k d).
Proof.
  intros Hd s Hs k' d'. cbn. rewrite lookup_insert_Some. intros [[_ <-]|[_ ?]]; [done|by eapply Hs].
Qed.

Lemma get_entry_preserves {A} (k : key) (f : port_data → M port_dict pyexn Empty_set A) :
  (∀ d, sent (pd_probe d) = 0 → preserves none_sent (f d)) → preserves none_sent (get_entry k ≫= f).
Proof.
  intros Hf s Hs. unfold final, get_entry, mbind, M_bind, get_st. cbn.
  destruct (entries s !! k) as [d|] eqn:Hd; cbn; [|done].
  specialize (Hf d (Hs k d Hd) s Hs). unfold final in Hf. by destruct (f d s) as [[? ?] ?].
Qed.

Lemma order_none_sent {A} (m : M (key_list key) pyexn Empty_set A) : preserves none_sent (within order m).
Proof. intros s Hs. unfold final, within. by destruct (m (order s)) as [[? ?] ?]. Qed.

#[local] Hint Resolve order_none_sent : pres.

Lemma add_port_none_sent k down data : preserves none_sent (add_port k down data).
Proof.
  unfold add_port, contains. apply preserves_gets_bind. intros s Hs. destruct (bool_decide _).
  - apply get_entry_preserves. intros d Hd. by apply set_entry_none_sent.
  - unfold add_entry. preserve. by apply set_entry_none_sent.
Qed.

Lemma lldp_received_none_sent (k : key) : preserves none_sent (lldp_received k).
Proof. apply get_entry_preserves. intros d Hd. by apply set_entry_none_sent. Qed.

Lemma move_front_none_sent (k : key) : preserves none_sent (move_front k).
Proof.
  unfold move_front. apply preserves_gets_bind. intros s Hs.
  destruct (entries s !! k) as [d|] eqn:Hd; [|apply preserves_ret]. unfold _move_front_key.
  preserve. apply set_entry_none_sent. by apply (Hs k d).
Qed.

Lemma set_down_none_sent (k : key) down : preserves none_sent (set_down k down).
Proof.
  apply get_entry_preserves. intros d Hd. unfold _move_front_key. preserve. by apply set_entry_none_sent.
Qed.

Lemma del_entry_none_sent (k : key) : preserves none_sent (del_entry (D := port_data) (T := key_list key) k).
Proof.
  apply get_entry_preserves. intros d Hd. preserve. intros k' d'. cbn.
  rewrite lookup_delete_Some. intros [_ ?]. eauto.
Qed.

#[local] Hint Resolve add_port_none_sent lldp_received_none_sent move_front_none_sent set_down_none_sent
  del_entry_none_sent : pres.

(** So that no link is taken for expired. *)
Lemma none_expired now t l : none_sent t → expired now t l = [].
Proof.
  intros Ht. unfold expired. induction l as [|x l IH]; [done|]. rewrite filter_cons_False; [done|].
  unfold is_expired. destruct (entries t !! src x.1) as [d|] eqn:Hd; [|by rewrite andb_false_r].
  unfold lldp_dropped. cbn. rewrite (Ht _ _ Hd). by rewrite andb_false_r.
Qed.

(** ** Reads *)

(** A computation that leaves everything as it is. *)
Definition reads {A} (m : M topology pyexn out A) : Prop := ∀ s, ∃ r, m s = ([], s, r).

Lemma reads_ret {A} (a : A) : reads (mret a).
Proof. by eexists. Qed.

Lemma reads_raise {A} e : reads (raise e : M topology pyexn out A).
Proof. by eexists. Qed.

Lemma reads_or_raise {A} (o : option A) e : reads (or_raise o e).
Proof. destruct o; by eexists. Qed.

Lemma reads_get_bind {B} (k : topology → M topology pyexn out B) : (∀ s, reads (k s)) → reads (get_st ≫= k).
Proof. intros Hk s. rewrite get_bind. apply Hk. Qed.

Lemma reads_bind {A B} (m : M topology pyexn out A) (k : A → M topology pyexn out B) :
  reads m → (∀ a, reads (k a)) → reads (m ≫= k).
Proof.
  intros Hm Hk s. destruct (Hm s) as [[a|e] E]; unfold mbind, M_bind; rewrite E; [|by eexists].
  destruct (Hk a s) as [r ->]. by eexists.
Qed.

Lemma reads_get_ports dpid : reads (get_ports dpid).
Proof. apply reads_get_bind. intros s. apply reads_or_raise. Qed.

Lemma reads_get_switch dpid : reads (_get_switch dpid).
Proof.
  apply reads_get_bind. intros s. destruct (od_get dpid (dps s)); [|apply reads_ret].
  apply reads_bind; [apply reads_get_ports|]. intros ps. apply reads_ret.
Qed.

Lemma reads_get_port dpid no : reads (_get_port dpid no).
Proof. apply reads_bind; [apply reads_get_switch|]. intros [sw|]; apply reads_ret. Qed.

Lemma reads_all_ports l : reads (all_ports l).
Proof.
  induction l as [|d l IH]; [apply reads_ret|]. cbn. apply reads_bind; [apply reads_get_ports|].
  intros ps. apply reads_bind; [done|]. intros rest. apply reads_ret.
Qed.

Lemma reads_get_switches l : reads (get_switches l).
Proof.
  induction l as [|d l IH]; [apply reads_ret|]. cbn. apply reads_bind; [apply reads_get_switch|].
  intros ps. apply reads_bind; [done|]. intros rest. apply reads_ret.
Qed.

(** The port that is found is the one that was looked for. *)
Lemma get_port_key dpid no s p : _get_port dpid no s = ([], s, Ret (Some p)) → p_key p = (dpid, no).
Proof.
  unfold _get_port, mbind, M_bind, _get_switch. rewrite get_bind.
  destruct (od_get dpid (dps s)) as [d|]; [|done].
  unfold get_ports, mbind, M_bind, get_st. cbn.
  destruct (od_get dpid (port_state s)) as [ps|]; [|done]. cbn. intros [= Hp].
  apply bind_Some in Hp as ([i q] & Hq & [= <-]). apply list_find_Some in Hq as (Hq & Hno & _). cbn in Hno |- *.
  apply list_elem_of_lookup_2 in Hq. apply list_elem_of_filter in Hq as [_ Hq].
  apply list_elem_of_fmap in Hq as (o & -> & _). unfold p_key. cbn in *. by subst.
Qed.

(** ** Changes of [LinkState] *)

(** Every port with a peer has the link to it. *)
Definition peers_ok (ls : link_state) : Prop :=
  ∀ k d, od_get k (peers ls) = Some d → is_Some (od_get (Link k d) (stamps ls)).

Definition removed (k d : key) (ls : link_state) : link_state :=
  LinkState (od_del (Link d k) (od_del (Link k d) (stamps ls))) (od_del d (od_del k (peers ls))).

Lemma port_deleted_run k ls : peers_ok ls →
  port_deleted k ls =
    match od_get k (peers ls) with
    | None => ([], ls, Raise KeyError)
    | Some d => ([], removed k d ls, Ret (d, od_get d (od_del k (peers ls))))
    end.
Proof.
  intros Hok. unfold port_deleted, get_peer. rewrite gets_bind.
  destruct (od_get k (peers ls)) as [d|] eqn:Hk; [|done].
  cbn [or_raise]. rewrite ret_bind. destruct (Hok k d Hk) as [t Ht].
  unfold del_stamp, del_peer. rewrite bind_assoc, get_bind, Ht. cbn [or_raise].
  rewrite bind_assoc, ret_bind, modify_bind, bind_assoc, get_bind. cbn [set_field peers stamps]. cbn.
  by rewrite Hk.
Qed.

Definition updated (now : Z) (s d : key) (ls : link_state) : link_state :=
  LinkState (od_set (Link s d) now (stamps ls)) (od_set s d (peers ls)).

(** What the observers are told. *)
Definition removed_events (k d : key) (ls : link_state) : list out :=
  EventLinkDelete (Link k d) ::
  match od_get d (od_del k (peers ls)) with Some r => [EventLinkDelete (Link d r)] | None => [] end.

Definition updated_events (s d : key) (ls : link_state) : list out :=
  match od_get s (peers ls) with
  | Some old => if bool_decide (old = d) then [] else [EventLinkDelete (Link s old)]
  | None => []
  end ++ (if od_mem (Link s d) (stamps ls) then [] else [EventLinkAdd (Link s d)]).

Lemma link_down_run k s : peers_ok (links s) →
  _link_down k s =
    match od_get k (peers (links s)) with
    | None => ([], s, Ret tt)
    | Some d => let '(o, s', r) := call ports (move_front d) (s <| links := removed k d (links s) |>) in
                (removed_events k d (links s) ++ o, s', r)
    end.
Proof.
  intros Hok. pose proof (port_deleted_run k (links s) Hok) as E. unfold _link_down.
  destruct (od_get k (peers (links s))) as [d|] eqn:Hk.
  - erewrite run_bind.
    2: { unfold try_with, call, mbind, M_bind. rewrite E. done. }
    cbn beta iota. rewrite emit_bind. unfold removed_events. cbn [app].
    destruct (od_get d (od_del k (peers (links s)))) as [r|]; [rewrite emit_bind|rewrite ret_bind].
    all: by destruct (call ports (move_front d) _) as [[? ?] ?].
  - erewrite run_bind.
    2: { unfold try_with, call, mbind, M_bind. rewrite E. cbn. rewrite bool_decide_true by done. done. }
    by destruct s.
Qed.

Definition see_link (v : gset link) (o : out) : gset link :=
  match o with
  | EventLinkAdd l => {[l]} ∪ v
  | EventLinkDelete l => v ∖ {[l]}
  | _ => v
  end.

(** [link_seen] after the change of the links. *)
Definition after_link (m : packet_in) (d : key) (rev : bool) : M topology pyexn out () :=
  when (negb rev) (call ports (move_front d);; set_lldp_event);;
  st ← get_st;
  when (explicit_drop st) (_drop_packet m).

Lemma link_seen_run now m a b st :
  ∃ s', links s' = updated now a b (links st) ∧ ports s' = ports st ∧
    link_seen now m a b st =
      let '(o, s2, r) := after_link m b (od_mem (Link b a) (stamps (updated now a b (links st)))) s' in
      (updated_events a b (links st) ++ o, s2, r).
Proof.
  set (st' := if od_mem (Link a b) (stamps (links st)) then st else remove_inner_hosts st).
  exists (st' <| links := updated now a b (links st) |>).
  assert (links st' = links st ∧ ports st' = ports st) as [El Ep].
  { unfold st'. by destruct (od_mem _ _). }
  split; [done|]. split; [done|]. unfold link_seen.
  erewrite run_bind. 2: { unfold call, get_peer, gets. replace (st <| links := links st |>) with st by (by destruct st). done. }
  assert (∀ k : bool → M topology pyexn out (), (call links (update_link now a b) ≫= k) st' =
    let '(o, s2, r) := k (od_mem (Link b a) (stamps (updated now a b (links st)))) (st' <| links := updated now a b (links st) |>) in (o, s2, r)) as Hu.
  { intros k. erewrite run_bind. 2: { unfold call, update_link. rewrite El. done. }
    cbn. by destruct (k _ _) as [[? ?] ?]. }
  assert (∀ k : () → M topology pyexn out (), (when (negb (od_mem (Link a b) (stamps (links st)))) (emit (EventLinkAdd (Link a b));; modify remove_inner_hosts) ≫= k) st =
    let '(o, s2, r) := k tt st' in ((if od_mem (Link a b) (stamps (links st)) then [] else [EventLinkAdd (Link a b)]) ++ o, s2, r)) as Hw.
  { intros k. unfold st'. destruct (od_mem _ _); cbn [negb when].
    - rewrite ret_bind. by destruct (k _ _) as [[? ?] ?].
    - rewrite bind_assoc, emit_bind, modify_bind. by destruct (k _ _) as [[? ?] ?]. }
  unfold updated_events. destruct (od_get a (peers (links st))) as [old|]; [destruct (bool_decide (old = b))|].
  all: cbn [when negb]; first [rewrite ret_bind|rewrite emit_bind].
  all: rewrite get_bind, Hw, Hu.
  all: fold (after_link m b (od_mem (Link b a) (stamps (updated now a b (links st))))).
  all: destruct (after_link _ _ _ _) as [[? ?] ?]; by rewrite ?app_assoc.
Qed.

(** ** What every operation keeps *)

Create HintDb keeps.

Section tracked.
Variable L : link_state → gset link → Prop.
Variable heard : key → key → Prop.
Hypothesis L_peers : ∀ ls v, L ls v → peers_ok ls.
Hypothesis L_removed : ∀ k d ls v, L ls v → od_get k (peers ls) = Some d →
  L (removed k d ls) (foldl see_link v (removed_events k d ls)).
Hypothesis L_updated : ∀ now s d ls v, heard s d → L ls v →
  L (updated now s d ls) (foldl see_link v (updated_events s d ls)).

Definition tracked (s : topology) (v : gset link) : Prop := none_sent (ports s) ∧ L (links s) v.

Abbreviation keeps m := (tracks (Ex := pyexn) see_link tracked m).

Lemma keeps_reads {A} (m : M topology pyexn out A) : reads m → keeps m.
Proof. intros Hm s v Hs. destruct (Hm s) as [r E]. unfold final, outputs. by rewrite E. Qed.

Lemma keeps_modify f : (∀ s, ports (f s) = ports s ∧ links (f s) = links s) → keeps (modify f).
Proof. intros Hf. apply tracks_modify. intros s v [H1 H2]. destruct (Hf s) as [E1 E2]. split; [by rewrite E1|by rewrite E2]. Qed.

Lemma keeps_emit o : (∀ v, see_link v o = v) → keeps (emit o).
Proof. intros Ho. apply tracks_emit. intros s v Hs. by rewrite Ho. Qed.

Lemma keeps_ports {A} (m : M port_dict pyexn Empty_set A) : preserves none_sent m → keeps (call ports m).
Proof.
  intros Hm s v [H1 H2]. specialize (Hm _ H1). unfold final, outputs, call in *.
  destruct (m (ports s)) as [[o t] r]. by split.
Qed.

Lemma keeps_switches {A} (m : M switch_dict pyexn Empty_set A) : keeps (call switches m).
Proof. intros s v Hs. unfold final, outputs, call. by destruct (m (switches s)) as [[o t] r]. Qed.

Lemma keeps_get_bind {B} (k : topology → M topology pyexn out B) : (∀ s, keeps (k s)) → keeps (get_st ≫= k).
Proof. intros Hk. apply tracks_get_bind. intros s v Hs. by apply Hk. Qed.

Lemma keeps_switch dpid : keeps (_get_switch dpid).
Proof. apply keeps_reads, reads_get_switch. Qed.
Lemma keeps_port dpid no : keeps (_get_port dpid no).
Proof. apply keeps_reads, reads_get_port. Qed.
Lemma keeps_get_ports dpid : keeps (get_ports dpid).
Proof. apply keeps_reads, reads_get_ports. Qed.
Lemma keeps_gets_switches l : keeps (get_switches l).
Proof. apply keeps_reads, reads_get_switches. Qed.

#[local] Hint Resolve keeps_switch keeps_port keeps_get_ports keeps_gets_switches : keeps.

Ltac keep_step :=
  match goal with
  | |- tracks _ _ (get_st ≫= _) => apply keeps_get_bind; intros ?
  | |- tracks _ _ (_ ≫= _) => apply tracks_bind; [|intros ?]
  | |- tracks _ _ (when _ _) => apply tracks_when
  | |- tracks _ _ (for_each _ _) => apply tracks_for_each; intros ?
  | |- tracks _ _ (try_with _ _) => apply tracks_try; [|intros ? ? ?; repeat case_match; simplify_eq]
  | |- tracks _ _ (modify _) => apply keeps_modify; done
  | |- tracks _ _ (emit _) => apply keeps_emit; intros ?; repeat case_match; done
  | |- tracks _ _ (mret _) => apply tracks_ret
  | |- tracks _ _ (raise _) => apply tracks_raise
  | |- tracks _ _ (or_raise _ _) => apply tracks_or_raise
  | |- tracks _ _ (gets _) => apply tracks_gets
  | |- tracks _ _ (call switches _) => apply keeps_switches
  | |- tracks _ _ (call ports _) => apply keeps_ports; solve [auto with pres]
  | |- tracks _ _ _ => solve [auto with keeps]
  | |- tracks _ _ (match ?x with _ => _ end) => destruct x eqn:?; simplify_eq
  end.
Ltac keep := repeat keep_step.

Lemma keeps_link_down k : keeps (_link_down k).
Proof.
  intros s v [H1 H2]. pose proof (link_down_run k s (L_peers _ _ H2)) as E.
  unfold final, outputs. rewrite E. destruct (od_get k (peers (links s))) as [d|] eqn:Hk; [|done].
  assert (tracked (s <| links := removed k d (links s) |>) (foldl see_link v (removed_events k d (links s)))) as H.
  { split; [done|]. by apply L_removed. }
  apply (keeps_ports (move_front d) ltac:(auto with pres)) in H. unfold final, outputs in H.
  destruct (call ports (move_front d) _) as [[o s'] r]. cbn in *. by rewrite foldl_app.
Qed.

#[local] Hint Resolve keeps_link_down : keeps.

Lemma keeps_main d : keeps (main_handler d).
Proof. unfold main_handler, _register, install_lldp_flows, _switch_added, _port_added, set_lldp_event. keep.
Qed.

Lemma keeps_dead d : keeps (dead_handler d).
Proof. unfold dead_handler, _unregister, set_lldp_event. keep. Qed.

Lemma keeps_port_status d dpid r p : keeps (port_status_handler d dpid r p).
Proof. unfold port_status_handler, change_ports, with_port, _port_added, set_lldp_event. keep. Qed.

Lemma keeps_host m : keeps (host_discovery_packet_in_handler m).
Proof. unfold host_discovery_packet_in_handler. keep. Qed.

Lemma keeps_send now n : keeps (send_lldp_packet now n).
Proof. unfold send_lldp_packet. keep.
Qed.

#[local] Hint Resolve keeps_send : keeps.

Lemma keeps_lldp_loop now : keeps (lldp_loop now).
Proof. unfold lldp_loop, send_next, set_pc. keep. Qed.

Lemma keeps_link_loop now : keeps (link_loop now).
Proof.
  apply tracks_get_bind. intros s v [H1 H2]. rewrite none_expired by done.
  assert (keeps (when (link_alive s) (if negb (is_active s) then modify (λ s, s <| link_alive := false |>) else
    modify (λ s, s <| link_event := false |>);;
    try_with (for_each [] (delete_link now [])) (λ e, Some (modify (λ s, s <| link_alive := false |>);; raise e))))) as Hk.
  { cbn [for_each]. keep. }
  by apply Hk.
Qed.

Lemma keeps_close : keeps close.
Proof. unfold close. keep. Qed.

Lemma keeps_requests r : keeps (switch_request_handler r) ∧ keeps (link_request_handler r) ∧ keeps (host_request_handler r).
Proof. unfold switch_request_handler, link_request_handler, host_request_handler. split_and!; keep. Qed.

(** ** LLDP packets *)

(** The packet is taken to come from this port. *)
Definition comes_from (s : topology) (m : packet_in) (k : key) : Prop :=
  ∃ sps, all_ports (od_keys (dps s)) s = ([], s, Ret sps) ∧ find_source (eth_src m) sps = Some k.

Definition heard_from (s : topology) (m : packet_in) : Prop :=
  ∀ k, comes_from s m k → heard k (m_dpid m, m_in_port m).

Lemma tracked_read {A B} (m : M topology pyexn out A) (k : A → M topology pyexn out B) s v :
  reads m → tracked s v →
  (∀ a, m s = ([], s, Ret a) → tracked (final (k a) s) (foldl see_link v (outputs (k a) s))) →
  tracked (final (m ≫= k) s) (foldl see_link v (outputs (m ≫= k) s)).
Proof.
  intros Hm Hs Hk. destruct (Hm s) as [[a|e] E]; unfold final, outputs, mbind, M_bind; rewrite E; [|done].
  specialize (Hk a E). unfold final, outputs in Hk. by destruct (k a s) as [[? ?] ?].
Qed.

Lemma keeps_seen now m a b : heard a b → keeps (link_seen now m a b).
Proof.
  intros Hh s v [H1 H2]. destruct (link_seen_run now m a b s) as (s' & El & Ep & E).
  assert (tracked s' (foldl see_link v (updated_events a b (links s)))) as H.
  { split; [by rewrite Ep|]. rewrite El. by apply L_updated. }
  assert (keeps (after_link m b (od_mem (Link b a) (stamps (updated now a b (links s)))))) as Hk.
  { unfold after_link, _drop_packet, set_lldp_event. keep. }
  apply Hk in H. unfold final, outputs in *. rewrite E.
  destruct (after_link _ _ _ s') as [[o s2] r]. cbn in *. by rewrite foldl_app.
Qed.

(** The second half of the handler, when the source is found. *)
Lemma keeps_found now m (no : Z) p : heard (p_key p) (m_dpid m, no) →
  keeps (try_with (call ports (lldp_received (p_key p)))
      (λ e, if bool_decide (e = KeyError) then Some (mret tt) else None);;
    d ← _get_port (m_dpid m) no;
    match (d : option port) with
    | None => mret tt
    | Some d => link_seen now m (p_key p) (p_key d)
    end).
Proof.
  intros Hh. apply tracks_bind; [keep|]. intros _ s v Hs.
  apply tracked_read; [apply reads_get_port|done|]. intros [d|] Ed; [|done].
  rewrite (get_port_key _ _ _ _ Ed). by apply keeps_seen.
Qed.

Lemma tracked_lldp now m s v : heard_from s m → tracked s v →
  tracked (final (lldp_packet_in_handler now m) s) (foldl see_link v (outputs (lldp_packet_in_handler now m) s)).
Proof.
  intros Hh Hs. unfold lldp_packet_in_handler.
  apply tracked_read; [by eexists|done|]. intros st [= ->].
  repeat (destruct (negb _); [done|]). destruct (eth_src m =? 0); [done|].
  apply tracked_read; [apply reads_all_ports|done|]. intros sps Esps.
  destruct (find_source (eth_src m) sps) as [[sd sn]|] eqn:Ef; [|done].
  assert (heard (sd, sn) (m_dpid m, m_in_port m)) as Hk by (apply Hh; by exists sps).
  unfold dst_port_no. destruct (_ || _); [|done].
  apply tracked_read; [apply reads_ret|done|]. intros no [= <-].
  apply tracked_read; [apply reads_get_port|done|]. intros [p|] Ep; [|done].
  destruct (p_dpid p =? m_dpid m); [done|].
  apply keeps_found; [|done]. by rewrite (get_port_key _ _ _ _ Ep).
Qed.

(** ** Runs *)

Definition observed_step (x : topology * gset link) (op : Z * topo_op) (y : topology * gset link) : Prop :=
  match op.2 with OnLldp m => heard_from x.1 m | _ => True end ∧
  y = (final (topo_do op.1 op.2) x.1, foldl see_link x.2 (outputs (topo_do op.1 op.2) x.1)).

Definition observed_start (x : topology * gset link) : Prop :=
  ∃ observe install drop, x = (topology_init observe install drop, ∅).

Lemma observed_tracked x :
  (∀ b1 b2 b3, L (links (topology_init b1 b2 b3)) ∅) →
  reachable observed_start observed_step x → tracked x.1 x.2.
Proof.
  intros Hinit. revert x. apply (reachable_inv _ _ (λ x, tracked x.1 x.2)).
  - intros x (b1 & b2 & b3 & ->). split; [|apply Hinit]. intros k d. cbn. by rewrite lookup_empty.
  - intros [s v] [now op] y Hs [Hen ->]. cbn in *.
    destruct op as [d []|d dpid r p|m|m| | | |r|r|r]; cbn.
    + by apply keeps_main.
    + by apply keeps_dead.
    + by apply keeps_port_status.
    + by apply tracked_lldp.
    + by apply keeps_host.
    + by apply keeps_lldp_loop.
    + by apply keeps_link_loop.
    + by apply keeps_close.
    + by apply (proj1 (keeps_requests r)).
    + by apply (proj1 (proj2 (keeps_requests r))).
    + by apply (proj2 (proj2 (keeps_requests r))).
Qed.
End tracked.

(** ** The links the observers have seen *)

Definition current (ls : link_state) (v : gset link) : Prop :=
  peers_ok ls ∧ ∀ l, l ∈ v → od_get (src l) (peers ls) = Some (dst l).

Lemma removed_peer k d ls x :
  od_get x (peers (removed k d ls)) = if decide (x = k ∨ x = d) then None else od_get x (peers ls).
Proof. cbn. rewrite !od_get_del. repeat case_decide; try done; naive_solver. Qed.

Lemma removed_stamp k d ls l :
  od_get l (stamps (removed k d ls)) =
    if decide (l = Link k d ∨ l = Link d k) then None else od_get l (stamps ls).
Proof. cbn. rewrite !od_get_del. repeat case_decide; try done; naive_solver. Qed.

Lemma seen_removed k d ls v l :
  l ∈ foldl see_link v (removed_events k d ls) ↔
    l ∈ v ∧ l ≠ Link k d ∧ ¬ (src l = d ∧ d ≠ k ∧ od_get d (peers ls) = Some (dst l)).
Proof.
  unfold removed_events. rewrite od_get_del.
  destruct (decide (d = k)) as [->|Hne]; cbn; [set_solver|].
  destruct (od_get d (peers ls)) as [r|]; cbn; [|set_solver].
  rewrite !elem_of_difference, !elem_of_singleton. destruct l as [a b]. cbn. split.
  - intros [[H1 H2] H3]. split_and!; [done|done|]. intros (-> & _ & [= ->]). done.
  - intros (H1 & H2 & H3). split; [done|]. intros [= -> ->]. by apply H3.
Qed.

Lemma seen_updated s d ls v l :
  l ∈ foldl see_link v (updated_events s d ls) →
    l = Link s d ∨ l ∈ v ∧ (src l = s → od_get s (peers ls) = Some (dst l) → dst l = d).
Proof.
  unfold updated_events. rewrite foldl_app.
  assert (∀ w, l ∈ foldl see_link w (if od_mem (Link s d) (stamps ls) then [] else [EventLinkAdd (Link s d)]) →
    l = Link s d ∨ l ∈ w) as Hadd by (intros w; destruct (od_mem _ _); cbn; set_solver).
  intros [Hl|Hl]%Hadd; [by left|]. right.
  destruct (od_get s (peers ls)) as [old|]; [destruct (bool_decide (old = d)) eqn:E|].
  - apply bool_decide_eq_true in E as ->. split; [done|]. by intros _ [= ->].
  - cbn in Hl. split; [set_solver|]. intros <- [= ->]. destruct l; cbn in *. set_solver.
  - split; [done|]. by intros _ [=].
Qed.

Lemma current_removed k d ls v : current ls v → od_get k (peers ls) = Some d →
  current (removed k d ls) (foldl see_link v (removed_events k d ls)).
Proof.
  intros [H1 H2] Hk. split.
  - intros a b. rewrite removed_peer, removed_stamp. case_decide as Ha; [done|]. intros Hb.
    rewrite decide_False; [by apply H1|]. intros [[= -> ->]|[= -> ->]]; tauto.
  - intros l (Hl & Hne & Hd)%seen_removed. rewrite removed_peer. specialize (H2 l Hl).
    rewrite decide_False; [done|]. intros [E|E]; rewrite E in H2.
    + rewrite Hk in H2. destruct l; cbn in *. by simplify_eq.
    + destruct (decide (d = k)) as [->|]; [|by apply Hd].
      rewrite Hk in H2. destruct l; cbn in *. by simplify_eq.
Qed.

Lemma current_updated now s d ls v : current ls v →
  current (updated now s d ls) (foldl see_link v (updated_events s d ls)).
Proof.
  intros [H1 H2]. split.
  - intros a b. cbn. rewrite !od_get_set. case_decide as Ha.
    + intros [= ->]. subst. by rewrite decide_True.
    + intros Hb%H1. by case_decide.
  - intros l [->|[Hl Hs]]%seen_updated; cbn; rewrite od_get_set.
    + by rewrite decide_True.
    + specialize (H2 l Hl). case_decide as E; [|done]. subst. by rewrite (Hs eq_refl H2).
Qed.

Definition anywhere (s d : key) : Prop := True.

(** A run of the application; packets may come from anywhere. *)
Definition topology_reachable : topology * gset link → Prop :=
  reachable observed_start (observed_step anywhere).

Lemma reachable_tracked x : topology_reachable x → tracked current x.1 x.2.
Proof.
  apply (observed_tracked current anywhere).
  - by intros ls v [H _].
  - intros. by apply current_removed.
  - intros. by apply current_updated.
  - intros b1 b2 b3. split; [by intros ? ?|]. intros l. set_solver.
Qed.

(** C27: In whatever order switches come and go, packets arrive and the threads run: the thread
    that is to delete the links whose packets stopped coming never deletes one, since no packet
    is ever counted as sent for a port. *)
Theorem links_never_expire s v now :
  topology_reachable (s, v) →
  outputs (link_loop now) s = [] ∧ links (final (link_loop now) s) = links s ∧
  result (link_loop now) s = Ret tt.
Proof.
  intros Hr. apply reachable_tracked in Hr as [Hsent _]. cbn in Hsent.
  unfold link_loop, outputs, final, result. rewrite get_bind, none_expired by done.
  destruct (link_alive s); [|done]. by destruct (is_active s).
Qed.

(** Every link the observers have been told of, and not told that it is gone, is the link to
    the port's current peer, and the link to every current peer is recorded. *)
Theorem observed_links_current s v :
  topology_reachable (s, v) →
  (∀ l, l ∈ v → od_get (src l) (peers (links s)) = Some (dst l)) ∧
  (∀ k d, od_get k (peers (links s)) = Some d → Link k d ∈ od_keys (stamps (links s))).
Proof.
  intros Hr. apply reachable_tracked in Hr as [_ [H1 H2]]. split; [done|].
  intros k d Hk. apply od_get_is_key. by apply H1.
Qed.

(** ** With cables that stay as they are *)

Section wired.
Variable wire : key → option key.
Hypothesis wire_sym : ∀ k d, wire k = Some d → wire d = Some k.

Record exact (ls : link_state) (v : gset link) : Prop := {
  ex_seen : ∀ l, l ∈ v ↔ is_Some (od_get l (stamps ls));
  ex_peer : ∀ l, is_Some (od_get l (stamps ls)) ↔ od_get (src l) (peers ls) = Some (dst l);
  ex_wire : ∀ k d, od_get k (peers ls) = Some d → wire k = Some d
}.

Lemma exact_removed k d ls v : exact ls v → od_get k (peers ls) = Some d →
  exact (removed k d ls) (foldl see_link v (removed_events k d ls)).
Proof.
  intros [H1 H2 H3] Hk. pose proof (wire_sym _ _ (H3 k d Hk)) as Hd. split.
  - intros l. rewrite seen_removed, removed_stamp, H1. case_decide as E.
    + split; [|by intros [? ?]]. intros (Hl & Hne & Hp). destruct E as [->| ->]; [done|].
      cbn in Hp. rewrite H2 in Hl. cbn in Hl.
      destruct (decide (d = k)) as [->|]; [done|]. exfalso. by apply Hp.
    + split; [tauto|]. intros Hl. split_and!; [done|tauto|]. intros (<- & _ & Hp).
      apply H3 in Hp. rewrite Hd in Hp. simplify_eq. apply E. right. by destruct l.
  - intros l. rewrite removed_stamp, removed_peer. case_decide as E; case_decide as E'.
    + split; [by intros [? ?]|done].
    + exfalso. apply E'. destruct E as [->| ->]; cbn; auto.
    + split; [|done]. intros Hl%H2. exfalso. apply E. destruct l as [a b]; cbn in *.
      destruct E' as [->| ->]; [rewrite Hk in Hl; simplify_eq; by left|].
      apply H3 in Hl. rewrite Hd in Hl. simplify_eq. by right.
    + apply H2.
  - intros a b. rewrite removed_peer. case_decide; [done|]. apply H3.
Qed.

Lemma exact_updated now s d ls v : wire s = Some d → exact ls v →
  exact (updated now s d ls) (foldl see_link v (updated_events s d ls)).
Proof.
  intros Hw [H1 H2 H3]. 
  assert (∀ l, l ∈ foldl see_link v (updated_events s d ls) ↔ l = Link s d ∨ l ∈ v) as Hv.
  { intros l. unfold updated_events. rewrite foldl_app.
    assert (match od_get s (peers ls) with
      | Some old => if bool_decide (old = d) then [] else [EventLinkDelete (Link s old)]
      | None => [] end = []) as ->.
    { destruct (od_get s (peers ls)) as [old|] eqn:Ho; [|done]. apply H3 in Ho.
      rewrite bool_decide_true by congruence. done. }
    cbn. unfold od_mem. case_bool_decide as E; cbn; [|set_solver]. apply H1 in E. naive_solver. }
  split.
  - intros l. rewrite Hv. cbn. rewrite od_get_set, H1. case_decide; naive_solver.
  - intros l. cbn. rewrite !od_get_set. destruct l as [a b]. cbn. case_decide as E; case_decide as E'.
    + simplify_eq. naive_solver.
    + by simplify_eq.
    + subst. split; [|by intros [= ->]]. intros Hl%H2. cbn in Hl. apply H3 in Hl. congruence.
    + apply H2.
  - intros a b. cbn. rewrite od_get_set. case_decide; [by intros [= <-]; subst|]. apply H3.
Qed.

(** C24: As long as the cables are not changed, the links the observers have seen are exactly
    those that are recorded, a request for the links is answered with exactly these, and each is
    a cable between the ports of a switch. *)
Theorem observed_links_exact s v :
  reachable observed_start (observed_step (λ a b, wire a = Some b)) (s, v) →
  ∃ ls, outputs (link_request_handler None) s = [EventLinkReply ls] ∧
    (∀ l, l ∈ ls ↔ l ∈ v) ∧ ∀ l, l ∈ ls → wire (src l) = Some (dst l).
Proof.
  intros Hr.
  assert (tracked exact s v) as [_ [H1 H2 H3]].
  { apply (observed_tracked exact (λ a b, wire a = Some b)) in Hr; [done|..].
    - intros ls w [_ H2 _] k d Hk. by apply (H2 (Link k d)).
    - intros. by apply exact_removed.
    - intros. by apply exact_updated.
    - intros b1 b2 b3. split; [| |done]; cbn; intros l; split; try set_solver; try done; by intros [? ?]. }
  eexists. split; [done|]. split; intros l; rewrite <- od_get_is_key.
  - by rewrite H1.
  - intros Hl. by apply H3, H2.
Qed.
End wired.
