(* ===== verification/TopologyProbes.v ===== *)
(** * Probing in the order of the timestamps

    The thread [lldp_loop] of [Topology] looks for switches to probe from the front of its
    dictionary and stops at the first one whose period is not over.  The dictionary is kept such
    that this finds every switch that is due.  The file ends with runs of the application. *)

From stdpp Require Import base list gmap sets sorting strings.
From Stdlib Require Import ZArith Lia.
From S2P Require Import Prelude Odict Struct Ofp Circlist KeyOrder Topology TopologyLinks.

Open Scope Z_scope.
Set Default Proof Using "Type*".

(** ** The order *)

(** Switches never probed come first, then those probed longest ago. *)
Definition before (x y : probe) : Prop :=
  match timestamp x, timestamp y with
  | None, _ => True
  | Some a, Some b => a ≤ b
  | Some _, None => False
  end.

Definition not_after (now : Z) (x : probe) : Prop :=
  match timestamp x with Some a => a ≤ now | None => True end.

Record ordered (now : Z) (l : odict Z probe) : Prop := {
  or_sorted : StronglySorted before l.*2;
  or_past : Forall (not_after now) l.*2
}.

(** What the search is for. *)
Definition due (now : Z) (x : probe) : bool :=
  match timestamp x with Some ts => ts + LLDP_SEND_PERIOD_PER_SWITCH <=? now | None => false end.

Definition never (x : probe) : bool := match timestamp x with None => true | _ => false end.

Definition all_roots (root : Z → bool) (P : probe → bool) (l : odict Z probe) : list Z :=
  od_keys (filter (λ kv, root kv.1 && P kv.2 = true) l).

Lemma all_roots_cons root P n x l :
  all_roots root P ((n, x) :: l) = (if root n && P x then [n] else []) ++ all_roots root P l.
Proof.
  unfold all_roots, od_keys. rewrite filter_cons. cbn [fst snd].
  destruct (root n && P x); [by rewrite decide_True|by rewrite decide_False].
Qed.

Lemma all_roots_none root P l : Forall (λ x, P x = false) l.*2 → all_roots root P l = [].
Proof.
  induction l as [|[n x] l IH]; [done|]. cbn [fmap list_fmap snd]. intros [Hx Hl]%Forall_cons.
  rewrite all_roots_cons, Hx, andb_false_r. by apply IH.
Qed.

(** The search that stops early finds what a search of the whole dictionary finds. *)
Lemma scan_all now root l : StronglySorted before l.*2 →
  scan now root l = (all_roots root never l, all_roots root (due now) l).
Proof.
  induction l as [|[n x] l IH]; [done|]. cbn [fmap list_fmap snd scan].
  intros [Hx Hl]%StronglySorted_cons. rewrite !all_roots_cons. unfold never at 1, due at 1.
  destruct (timestamp x) as [ts|] eqn:Ets.
  - destruct (ts + LLDP_SEND_PERIOD_PER_SWITCH <=? now) eqn:Eb.
    + rewrite IH by done. rewrite andb_false_r, andb_true_r. by destruct (root n).
    + rewrite !andb_false_r. apply Z.leb_gt in Eb.
      assert (Forall (λ y, never y = false ∧ due now y = false) l.*2) as Hf.
      { eapply Forall_impl; [exact Hx|]. intros y. unfold before, never, due. rewrite Ets.
        destruct (timestamp y) as [b|]; [|done]. intros Hb. split; [done|].
        apply Z.leb_gt. lia. }
      rewrite !all_roots_none; [done|..]; (eapply Forall_impl; [exact Hf|]; by intros y []).
  - rewrite IH by done. rewrite andb_true_r, andb_false_r. by destruct (root n).
Qed.

(** ** It is kept *)

Lemma ordered_later c now l : c ≤ now → ordered c l → ordered now l.
Proof.
  intros Hc [H1 H2]. split; [done|]. eapply Forall_impl; [exact H2|]. intros x. unfold not_after.
  destruct (timestamp x); [lia|done].
Qed.

Lemma ordered_new now k data l : ordered now l → ordered now ((k, new_probe data) :: l).
Proof.
  intros [H1 H2]. split; cbn; [|by constructor].
  apply StronglySorted_cons. split; [|done]. by apply Forall_true.
Qed.

Lemma Forall_fmap_sublist {A B} (f : A → B) (P : B → Prop) l' l :
  l' `sublist_of` l → Forall P (f <$> l) → Forall P (f <$> l').
Proof.
  intros Hs. rewrite !Forall_fmap, !Forall_forall. intros Hl x Hx. apply Hl.
  by eapply elem_of_sublist.
Qed.

Lemma ordered_sublist now (l l' : odict Z probe) :
  l' `sublist_of` l → ordered now l → ordered now l'.
Proof.
  intros Hs [H1 H2]. split.
  - clear H2. induction Hs as [|x l1 l2 Hs IH|x l1 l2 Hs IH]; [done|..]; cbn in *;
      apply StronglySorted_cons in H1 as [Hx Hl]; [|by apply IH].
    apply StronglySorted_cons. split; [|by apply IH].
    by eapply Forall_fmap_sublist.
  - by eapply Forall_fmap_sublist.
Qed.

Lemma od_del_sublist {V} k (l : odict Z V) : od_del k l `sublist_of` l.
Proof. rewrite od_del_filter. apply sublist_filter. Qed.

Lemma ordered_sent now k x l : timestamp x = Some now → ordered now l → ordered now (od_del k l ++ [(k, x)]).
Proof.
  intros Hx Hl. apply (ordered_sublist now _ (od_del k l)) in Hl as [H1 H2]; [|apply od_del_sublist].
  split; rewrite fmap_app; cbn.
  - apply StronglySorted_app_2; [|done|by repeat constructor].
    intros y z Hy ->%list_elem_of_singleton. unfold before. rewrite Hx.
    rewrite Forall_forall in H2. specialize (H2 y Hy). unfold not_after in H2. by destruct (timestamp y).
  - apply Forall_app. split; [done|]. constructor; [|done]. unfold not_after. rewrite Hx. done.
Qed.

Definition probes_ok (now : Z) (t : switch_dict) : Prop := ∃ l, data_rep t l ∧ ordered now l.

Lemma add_switch_ok now n data : preserves (probes_ok now) (add_switch n data).
Proof.
  intros t (l & Hr & Ho). unfold add_switch, contains, final. rewrite gets_bind, (dr_entries _ _ Hr).
  destruct (od_get n l) as [d|] eqn:Hn; cbn; [by exists l|].
  destruct (add_entry_run t l n (new_probe data) Hr Hn) as (t' & -> & Hr').
  exists ((n, new_probe data) :: l). split; [done|]. by apply ordered_new.
Qed.

Lemma lldp_sent_ok now n : preserves (probes_ok now) (lldp_sent (D := probe) now n).
Proof.
  intros t (l & Hr & Ho). unfold final. destruct (od_get n l) as [d|] eqn:Hn.
  - destruct (lldp_sent_run t l n now d Hr Hn) as (t' & -> & Hr').
    eexists. split; [exact Hr'|]. by apply ordered_sent.
  - unfold lldp_sent, mbind, M_bind. rewrite (get_entry_run _ l), Hn by done. by exists l.
Qed.

Lemma items_ok now : preserves (probes_ok now) (items (D := probe) (K := Z)).
Proof. intros t (l & Hr & Ho). unfold final. rewrite (items_run _ _ Hr). by exists l. Qed.

(** ** By every operation *)

Section keep.
Context (now : Z).

Definition scannable (s : topology) : Prop := probes_ok now (switches s).

Lemma scannable_modify f : (∀ s, switches (f s) = switches s) → preserves scannable (modify f : M topology pyexn out ()).
Proof. intros Hf. apply preserves_modify. intros s Hs. unfold scannable. by rewrite Hf. Qed.

Lemma scannable_switches {A} (m : M switch_dict pyexn Empty_set A) :
  preserves (probes_ok now) m → preserves scannable (call switches m).
Proof.
  intros Hm s Hs. specialize (Hm _ Hs). unfold final, call in *. by destruct (m (switches s)) as [[o t] r].
Qed.

Lemma scannable_ports {A} (m : M port_dict pyexn Empty_set A) : preserves scannable (call ports m).
Proof. intros s Hs. unfold final, call. by destruct (m (ports s)) as [[o t] r]. Qed.

Lemma scannable_links {A} (m : M link_state pyexn Empty_set A) : preserves scannable (call links m).
Proof. intros s Hs. unfold final, call. by destruct (m (links s)) as [[o t] r]. Qed.

Lemma scannable_reads {A} (m : M topology pyexn out A) : reads m → preserves scannable m.
Proof. intros Hm s Hs. destruct (Hm s) as [r E]. unfold final. by rewrite E. Qed.
End keep.

Create HintDb scan.
#[local] Hint Resolve add_switch_ok lldp_sent_ok items_ok : scan.

Ltac scan_step :=
  match goal with
  | |- preserves _ (get_st ≫= _) => apply preserves_bind; [apply preserves_get|intros ?]
  | |- preserves _ (_ ≫= _) => apply preserves_bind; [|intros ?]
  | |- preserves _ (when _ _) => apply preserves_when
  | |- preserves _ (for_each _ _) => apply preserves_for_each; intros ? ?
  | |- preserves _ (try_with _ _) => apply preserves_try; [|intros ? ? ?; repeat case_match; simplify_eq]
  | |- preserves _ (modify _) => apply scannable_modify; intros ?; repeat case_match; done
  | |- preserves _ (call switches _) => apply scannable_switches; solve [auto with scan]
  | |- preserves _ (call ports _) => apply scannable_ports
  | |- preserves _ (call links _) => apply scannable_links
  | |- preserves _ (_get_switch _) => apply scannable_reads, reads_get_switch
  | |- preserves _ (_get_port _ _) => apply scannable_reads, reads_get_port
  | |- preserves _ (get_ports _) => apply scannable_reads, reads_get_ports
  | |- preserves _ (get_switches _) => apply scannable_reads, reads_get_switches
  | |- preserves _ (all_ports _) => apply scannable_reads, reads_all_ports
  | |- preserves _ _ => solve [eauto with pres]
  | |- preserves _ (match ?x with _ => _ end) => destruct x eqn:?; simplify_eq
  end.
Ltac scan := repeat scan_step.

Lemma scannable_do now op : preserves (scannable now) (topo_do now op).
Proof.
  destruct op; cbn [topo_do].
  - unfold state_change_handler, main_handler, dead_handler, _register, _unregister, install_lldp_flows,
      _switch_added, _port_added, _link_down, set_lldp_event. scan.
  - unfold port_status_handler, change_ports, with_port, _port_added, _link_down, set_lldp_event. scan.
  - unfold lldp_packet_in_handler, dst_port_no, link_seen, _drop_packet, set_lldp_event. scan.
  - unfold host_discovery_packet_in_handler. scan.
  - unfold lldp_loop, send_next, send_lldp_packet, set_pc. scan.
  - unfold link_loop, delete_link, set_lldp_event. scan.
  - unfold close. scan.
  - unfold switch_request_handler. scan.
  - unfold link_request_handler. scan.
  - unfold host_request_handler. scan.
Qed.

(** ** Runs with a clock *)

(** The clock does not go back. *)
Definition clock_step (x : topology * Z) (op : Z * topo_op) (y : topology * Z) : Prop :=
  x.2 ≤ op.1 ∧ y = (final (topo_do op.1 op.2) x.1, op.1).

Definition clock_start (x : topology * Z) : Prop :=
  ∃ observe install drop c, x = (topology_init observe install drop, c).

Lemma clock_scannable x : reachable clock_start clock_step x → scannable x.2 x.1.
Proof.
  apply (reachable_inv _ _ (λ x, scannable x.2 x.1)).
  - intros y (b1 & b2 & b3 & c & ->). exists []. split; [apply data_empty_rep|]. by repeat constructor.
  - intros [s c] [now op] y (l & Hr & Ho) [Hc ->]. apply scannable_do.
    exists l. split; [done|]. by apply (ordered_later c).
Qed.

(** C26: Whenever the thread looks for switches to probe, whatever has happened before, its search
    ends, and although it stops at the first switch whose period is not over it finds every root
    switch that was never probed and every root switch whose period is over. *)
Theorem probes_complete s c now :
  reachable clock_start clock_step (s, c) → c ≤ now →
  ∃ l, items (switches s) = ([], switches s, Ret l) ∧
    scan now (root_switch s) l =
      (all_roots (root_switch s) never l, all_roots (root_switch s) (due now) l).
Proof.
  intros Hr Hc. apply clock_scannable in Hr as (l & Hl & [Hs _]). exists l.
  split; [by apply items_run|by apply scan_all].
Qed.

(** ** Examples *)

Module TopologyExamples.
Definition port_at (no hw : Z) : ofpport := OfpPort no hw "eth"%string 0 0.

(** A connection of a switch with two ports; switch 1 is a root. *)
Definition switch_at (conn dpid : Z) : dpath :=
  Dpath conn (Some dpid) 4 [(1, port_at 1 (16 * dpid + 1)); (2, port_at 2 (16 * dpid + 2))].

Definition joins (d : Z) : Z * topo_op := (0, OnState (switch_at d d) MAIN_DISPATCHER).
Definition leaves (d : Z) : Z * topo_op := (0, OnState (switch_at d d) DEAD_DISPATCHER).

(** A packet sent through port 1 of switch [a] arrives at port 1 of switch [b]. *)
Definition lldp (a b : Z) : packet_in :=
  PacketIn b 4 1 OFP_NO_BUFFER (16 * a + 1) ETH_TYPE_LLDP None None None.
Definition hears (a b : Z) : Z * topo_op := (0, OnLldp (lldp a b)).

(** A packet of host 99 at port 1 of switch 2. *)
Definition host_packet : Z * topo_op :=
  (0, OnPacket (PacketIn 2 4 1 OFP_NO_BUFFER 99 ETH_TYPE_ARP (Some 7) None None)).

Definition start : topology * gset link := (topology_init true false false, ∅).

Definition run (ops : list (Z * topo_op)) : topology * gset link :=
  foldl (λ x op, (final (topo_do op.1 op.2) x.1, foldl see_link x.2 (outputs (topo_do op.1 op.2) x.1))) start ops.

Lemma run_reachable ops : topology_reachable (run ops).
Proof.
  unfold run. assert (topology_reachable start) as Hs by (apply reach_init; by exists true, false, false).
  revert Hs. generalize start. induction ops as [|op ops IH]; intros x Hx; [done|]. cbn. apply IH.
  apply (reach_step _ _ x op); [done|]. split; [|done]. by destruct (op.2).
Qed.

Lemma links_never_expire_witness :
  let s := (run [joins 1; joins 2; hears 1 2]).1 in
  od_keys (stamps (links s)) = [Link (1, 1) (2, 1)] ∧
  outputs (link_loop 100000) s = [] ∧ links (final (link_loop 100000) s) = links s ∧
  result (link_loop 100000) s = Ret tt.
Proof.
  intros s. split; [vm_compute; reflexivity|].
  apply (links_never_expire s (run [joins 1; joins 2; hears 1 2]).2 100000).
  apply (run_reachable [joins 1; joins 2; hears 1 2]).
Defined.

Lemma observed_links_current_witness :
  let x := run [joins 1; joins 2; hears 1 2] in
  bool_decide (Link (1, 1) (2, 1) ∈ x.2) = true ∧
  (∀ l, l ∈ x.2 → od_get (src l) (peers (links x.1)) = Some (dst l)) ∧
  (∀ k d, od_get k (peers (links x.1)) = Some d → Link k d ∈ od_keys (stamps (links x.1))).
Proof.
  intros x. split; [vm_compute; reflexivity|].
  apply (observed_links_current x.1 x.2), (run_reachable [joins 1; joins 2; hears 1 2]).
Defined.

(** The cable between the first ports of switches 1 and 2. *)
Definition cable (k : Z * Z) : option (Z * Z) :=
  if decide (k = (1, 1)) then Some (2, 1) else if decide (k = (2, 1)) then Some (1, 1) else None.

Lemma cable_sym k d : cable k = Some d → cable d = Some k.
Proof. unfold cable. repeat case_decide; naive_solver. Qed.

Definition wired_ops : list (Z * topo_op) := [joins 1; joins 2; hears 1 2; hears 2 1].

Lemma comes_from_ports s m k sps :
  all_ports (od_keys (dps s)) s = ([], s, Ret sps) → comes_from s m k → find_source (eth_src m) sps = Some k.
Proof. intros E (sps' & E' & Hf). rewrite E in E'. by simplify_eq. Qed.

Lemma wired_reachable :
  reachable observed_start (observed_step (λ a b, cable a = Some b)) (run wired_ops).
Proof.
  assert (reachable observed_start (observed_step (λ a b, cable a = Some b)) start) as H0
    by (apply reach_init; by exists true, false, false).
  apply (reach_step _ _ (run [joins 1; joins 2; hears 1 2]) (hears 2 1)).
  - apply (reach_step _ _ (run [joins 1; joins 2]) (hears 1 2)).
    + apply (reach_step _ _ (run [joins 1]) (joins 2)); [|done].
      by apply (reach_step _ _ start (joins 1)).
    + split; [|done]. intros k Hk. eapply comes_from_ports in Hk; [|vm_compute; reflexivity].
      vm_compute in Hk. simplify_eq. reflexivity.
  - split; [|done]. intros k Hk. eapply comes_from_ports in Hk; [|vm_compute; reflexivity].
    vm_compute in Hk. simplify_eq. reflexivity.
Qed.

Lemma observed_links_exact_witness :
  bool_decide (Link (2, 1) (1, 1) ∈ (run wired_ops).2) = true ∧
  ∃ ls, outputs (link_request_handler None) (run wired_ops).1 = [EventLinkReply ls] ∧
    (∀ l, l ∈ ls ↔ l ∈ (run wired_ops).2) ∧ ∀ l, l ∈ ls → cable (src l) = Some (dst l).
Proof.
  split; [vm_compute; reflexivity|].
  apply (observed_links_exact cable cable_sym (run wired_ops).1 (run wired_ops).2 wired_reachable).
Defined.

Definition probed : topology * Z :=
  (final (topo_do 50 LldpTurn) (final (topo_do 0 (joins 1).2) (topology_init true false false)), 50).

Lemma probed_reachable : reachable clock_start clock_step probed.
Proof.
  apply (reach_step _ _ (final (topo_do 0 (joins 1).2) (topology_init true false false), 0) (50, LldpTurn)); [|by split].
  apply (reach_step _ _ (topology_init true false false, 0) (joins 1)); [|by split].
  apply reach_init. by exists true, false, false, 0.
Qed.

Lemma probes_complete_witness :
  ∃ l, items (switches probed.1) = ([], switches probed.1, Ret l) ∧
    scan 1000 (root_switch probed.1) l =
      (all_roots (root_switch probed.1) never l, all_roots (root_switch probed.1) (due 1000) l).
Proof. apply (probes_complete probed.1 50 1000 probed_reachable). lia. Defined.

(** The root switch leaves: the next turn of the thread fails, and the thread ends. *)
Example lldp_thread_ends :
  let s := (run [joins 1; leaves 1]).1 in
  result (lldp_loop 10) s = Raise KeyError ∧ lldp_pc (final (lldp_loop 10) s) = LldpEnded.
Proof. vm_compute. done. Qed.

(** It joins again before that: it is probed twice from then on. *)
Example rejoined_root_probed_twice :
  length (outputs (lldp_loop 10) (run [joins 1; leaves 1; joins 1]).1) = 2%nat.
Proof. vm_compute. done. Qed.

(** The same switch with OpenFlow 1.3 and 1.2: the entries for LLDP need a meter instruction, which
    1.2 has not; the handler fails after the switch is registered, and none of its ports is
    probed. *)
Example meterless_switch_unprobed :
  let init := topology_init true true false in
  let enter v := state_change_handler (Dpath 1 (Some 1) v [(1, port_at 1 17)]) MAIN_DISPATCHER in
  result (enter 4) init = Ret tt ∧ bool_decide (is_Some (entries (ports (final (enter 4) init)) !! (1, 1))) = true ∧
  result (enter 3) init = Raise AttributeError ∧ bool_decide (is_Some (od_get 1 (dps (final (enter 3) init)))) = true ∧
  bool_decide (is_Some (entries (ports (final (enter 3) init)) !! (1, 1))) = false.
Proof. vm_compute. done. Qed.

(** A port the switch deletes keeps its link and its entry. *)
Example deleted_port_keeps_link :
  let x := run [joins 1; joins 2; hears 1 2; (0, OnPort (switch_at 1 1) 1 OFPPR_DELETE (port_at 1 17))] in
  od_keys (stamps (links x.1)) = [Link (1, 1) (2, 1)] ∧ bool_decide (is_Some (entries (ports x.1) !! (1, 1))) = true.
Proof. vm_compute. done. Qed.

(** A port the switch adds ends its handler with an error. *)
Example added_port_fails :
  result (port_status_handler (switch_at 1 1) 1 OFPPR_ADD (port_at 3 19)) (run [joins 1]).1 = Raise TypeError.
Proof. vm_compute. done. Qed.

(** A host seen at a port stays there when the port turns out to be inside the network. *)
Example inner_host_stays :
  let x := run [joins 1; joins 2; host_packet; hears 1 2] in
  h_port <$> od_values (hosts x.1) = [(2, 1)] ∧ _is_edge_port x.1 (2, 1) = false.
Proof. vm_compute. done. Qed.

(** A cable is moved to another switch and back: the link is recorded, but the observers have
    only been told that it is gone. *)
Example moved_cable_not_announced :
  let x := run [joins 1; joins 2; joins 3; hears 1 2; hears 1 3; hears 1 2] in
  od_mem (Link (1, 1) (2, 1)) (stamps (links x.1)) = true ∧ x.2 = ∅.
Proof. vm_compute. done. Qed.

(** A link that was only seen in one direction outlives the switch it leads to. *)
Example link_to_left_switch :
  let x := run [joins 1; joins 2; hears 1 2; leaves 2] in
  od_keys (dps x.1) = [1] ∧ od_keys (stamps (links x.1)) = [Link (1, 1) (2, 1)].
Proof. vm_compute. done. Qed.

(** The end of the old connection of a switch takes away its new one, whose end then fails. *)
Example old_connection_unregisters :
  let x := run [joins 1; (0, OnState (switch_at 2 1) MAIN_DISPATCHER); leaves 1] in
  dps x.1 = [] ∧ result (state_change_handler (switch_at 2 1) DEAD_DISPATCHER) x.1 = Raise AttributeError.
Proof. vm_compute. done. Qed.

(** With OpenFlow 1.0 the packet leaves through one port only, with the address of none. *)
Example openflow10_probes_one_port :
  lldp_actions 1 [port_at 1 17; port_at 2 18] = [Output 2].
Proof. done. Qed.
End TopologyExamples.
