(* ===== verification/TopologyRegistry.v ===== *)
(** * What an LLDP packet tells

    The invariant of the registered switches and their ports in [Topology], and what the
    application learns from an LLDP packet. *)

From stdpp Require Import base list gmap sets strings.
From Stdlib Require Import ZArith Lia.
From S2P Require Import Prelude Odict Struct Ofp Circlist KeyOrder Topology TopologyLinks TopologyProbes.

Open Scope Z_scope.
Set Default Proof Using "Type*".

(** ** The invariant *)

(** Ports are kept by their numbers. *)
Record ports_keyed (ps : odict Z ofpport) : Prop := {
  pk_ok : od_ok ps;
  pk_no : ∀ k p, (k, p) ∈ ps → port_no p = k
}.

Record registry_ok (s : topology) : Prop := {
  ro_known : ∀ d, is_Some (od_get d (dps s)) → is_Some (od_get d (port_state s));
  ro_ports : ∀ d ps, od_get d (port_state s) = Some ps → ports_keyed ps;
  ro_dict : ∃ l, data_rep (ports s) l
}.

Lemma keyed_nil : ports_keyed [].
Proof. split; [apply NoDup_nil_2|]. by intros k p ?%not_elem_of_nil. Qed.

Lemma od_set_elem {V} k v (d : odict Z V) k' v' : od_ok d → (k', v') ∈ od_set k v d → (k', v') = (k, v) ∨ (k', v') ∈ d.
Proof.
  intros Hok Hin. apply od_elem_get in Hin; [|by apply od_ok_set]. rewrite od_get_set in Hin.
  case_decide; [left; naive_solver|]. right. by apply od_get_elem.
Qed.

Lemma keyed_set no p ps : port_no p = no → ports_keyed ps → ports_keyed (od_set no p ps).
Proof.
  intros Hp [H1 H2]. split; [by apply od_ok_set|].
  intros k q [[= -> ->]|Hq]%od_set_elem; [done|by apply H2|done].
Qed.

Lemma keyed_del no ps : ports_keyed ps → ports_keyed (od_del no ps).
Proof. intros [H1 H2]. split; [by apply od_ok_del|]. intros k q [_ Hq]%od_del_elem. by apply H2. Qed.

Lemma keyed_all l : ports_keyed (foldl (λ m p, od_set (port_no p) p m) [] l).
Proof.
  assert (∀ ps, ports_keyed ps → ports_keyed (foldl (λ m p, od_set (port_no p) p m) ps l)) as H.
  { induction l as [|p l IH]; intros ps Hps; [done|]. cbn. apply IH. by apply keyed_set. }
  apply H, keyed_nil.
Qed.

Lemma registry_same s s' : dps s' = dps s → port_state s' = port_state s → ports s' = ports s →
  registry_ok s → registry_ok s'.
Proof. intros E1 E2 E3 [H1 H2 H3]. by split; rewrite ?E1, ?E2, ?E3. Qed.

Lemma registry_modify f : (∀ s, dps (f s) = dps s ∧ port_state (f s) = port_state s ∧ ports (f s) = ports s) →
  preserves registry_ok (modify f : M topology pyexn out ()).
Proof. intros Hf. apply preserves_modify. intros s. destruct (Hf s) as (? & ? & ?). by apply registry_same. Qed.

Lemma registry_register d : preserves registry_ok (_register d).
Proof.
  intros s [H1 H2 H3]. unfold _register, final. destruct (id d) as [n|]; [|by split].
  cbn [or_raise]. rewrite ret_bind, modify_bind, get_bind. cbn [port_state set_field].
  destruct (od_mem n _) eqn:Hm; cbn; split; cbn; try done; intros k.
  - rewrite od_get_set. case_decide as Hk; [|apply H1]. intros _. subst.
    apply od_mem_spec in Hm. by apply od_get_is_key.
  - rewrite !od_get_set. case_decide; [by eexists|apply H1].
  - intros ps. rewrite od_get_set. case_decide; [|apply H2]. intros [= <-]. apply keyed_all.
Qed.

Lemma registry_unregister d : preserves registry_ok (_unregister d).
Proof.
  intros s [H1 H2 H3]. unfold _unregister, final. destruct (id d) as [n|]; [|by split].
  rewrite get_bind. destruct (od_mem n (dps s)) eqn:Hm; cbn [when]; [|by split].
  rewrite modify_bind, get_bind. cbn [port_state set_field].
  apply od_mem_spec, od_get_is_key in Hm. destruct (H1 n Hm) as [ps Hps].
  cbn. rewrite Hps. cbn [or_raise]. rewrite ret_bind. split; cbn; [| |done]; intros k.
  - rewrite !od_get_del. case_decide; [by intros [? ?]|apply H1].
  - intros ps'. rewrite od_get_del. case_decide; [done|apply H2].
Qed.

Lemma registry_ports {A} (m : M port_dict pyexn Empty_set A) :
  preserves (λ t, ∃ l, data_rep t l) m → preserves registry_ok (call ports m).
Proof.
  intros Hm s [H1 H2 H3]. specialize (Hm _ H3). unfold final, call in *.
  by destruct (m (ports s)) as [[o t] r].
Qed.

Lemma registry_links {A} (m : M link_state pyexn Empty_set A) : preserves registry_ok (call links m).
Proof. intros s Hs. unfold final, call. destruct (m (links s)) as [[o t] r]. by apply (registry_same s). Qed.

Lemma registry_switches {A} (m : M switch_dict pyexn Empty_set A) : preserves registry_ok (call switches m).
Proof. intros s Hs. unfold final, call. destruct (m (switches s)) as [[o t] r]. by apply (registry_same s). Qed.

Lemma registry_reads {A} (m : M topology pyexn out A) : reads m → preserves registry_ok m.
Proof. intros Hm s Hs. destruct (Hm s) as [r E]. unfold final. by rewrite E. Qed.

Lemma registry_change dpid f : (∀ ps, ports_keyed ps → ports_keyed (f ps)) →
  preserves registry_ok (change_ports dpid f).
Proof.
  intros Hf. unfold change_ports. apply preserves_bind; [apply registry_reads, reads_get_ports|intros _].
  apply preserves_modify. intros s [H1 H2 H3]. split; cbn; [| |done]; intros k.
  - intros Hk%H1. rewrite od_get_alter. case_decide; [|done]. by apply fmap_is_Some.
  - intros ps. rewrite od_get_alter. case_decide; [|apply H2]. subst.
    intros (ps0 & Hps0 & ->)%fmap_Some. by apply Hf, (H2 dpid).
Qed.

(** The calls of the dictionary of ports keep it a dictionary. *)
Lemma data_kept (op : data_op key) : preserves (λ t : port_dict, ∃ l, data_rep t l) (data_do op).
Proof.
  intros t (l & Hr). destruct (data_do_run t l op Hr) as (t' & E & Hr'). unfold final. rewrite E. by eexists.
Qed.

Lemma data_kept_bind {A} (m : M port_dict pyexn Empty_set A) :
  preserves (λ t : port_dict, ∃ l, data_rep t l) (m;; mret tt) → preserves (λ t : port_dict, ∃ l, data_rep t l) m.
Proof.
  intros Hm t Ht. specialize (Hm t Ht). unfold final, mbind, M_bind in *.
  by destruct (m t) as [[o t'] [a|e]].
Qed.

Lemma contains_kept (k : key) : preserves (λ t : port_dict, ∃ l, data_rep t l) (contains k).
Proof. by intros t Ht. Qed.

Create HintDb reg.
#[local] Hint Resolve registry_register registry_unregister registry_links registry_switches : reg.

(** [call ports] of one of the calls of [PortDataState]. *)
Ltac registry_call :=
  apply registry_ports;
  first [ exact (data_kept (AddPort _ _ _)) | exact (data_kept (LldpReceived _)) | exact (data_kept (MoveFront _))
        | exact (data_kept (DelPort _)) | apply contains_kept | apply data_kept_bind; exact (data_kept (SetDown _ _)) ].

Ltac registry_step :=
  match goal with
  | |- preserves _ (get_st ≫= _) => apply preserves_bind; [apply preserves_get|intros ?]
  | |- preserves _ (_ ≫= _) => apply preserves_bind; [|intros ?]
  | |- preserves _ (when _ _) => apply preserves_when
  | |- preserves _ (for_each _ _) => apply preserves_for_each; intros ? ?
  | |- preserves _ (try_with _ _) => apply preserves_try; [|intros ? ? ?; repeat case_match; simplify_eq]
  | |- preserves _ (call ports _) => registry_call
  | |- preserves _ (modify _) => apply registry_modify; intros ?; repeat case_match; done
  | |- preserves _ (change_ports _ _) => apply registry_change; intros ? ?; solve [by apply keyed_set|by apply keyed_del]
  | |- preserves _ (_get_switch _) => apply registry_reads, reads_get_switch
  | |- preserves _ (_get_port _ _) => apply registry_reads, reads_get_port
  | |- preserves _ (get_ports _) => apply registry_reads, reads_get_ports
  | |- preserves _ (get_switches _) => apply registry_reads, reads_get_switches
  | |- preserves _ (all_ports _) => apply registry_reads, reads_all_ports
  | |- preserves _ _ => solve [eauto with reg pres]
  | |- preserves _ (match ?x with _ => _ end) => destruct x eqn:?; simplify_eq
  end.
Ltac registry := repeat registry_step.

Lemma registry_do now op : preserves registry_ok (topo_do now op).
Proof.
  destruct op; cbn [topo_do].
  - unfold state_change_handler, main_handler, dead_handler, install_lldp_flows,
      _switch_added, _port_added, _link_down, set_lldp_event. registry.
  - unfold port_status_handler, with_port, _port_added, _link_down, set_lldp_event. registry.
  - unfold lldp_packet_in_handler, dst_port_no, link_seen, _drop_packet, set_lldp_event. registry.
  - unfold host_discovery_packet_in_handler. registry.
  - unfold lldp_loop, send_next, send_lldp_packet, set_pc. registry.
  - unfold link_loop, delete_link, set_lldp_event. registry.
  - unfold close. registry.
  - unfold switch_request_handler. registry.
  - unfold link_request_handler. registry.
  - unfold host_request_handler. registry.
Qed.

Lemma reachable_registry x : topology_reachable x → registry_ok x.1.
Proof.
  apply (reachable_inv _ _ (λ x, registry_ok x.1)).
  - intros y (b1 & b2 & b3 & ->). split; cbn; [by intros d [? ?]|done|]. exists []. apply data_empty_rep.
  - intros [s v] [now op] y Hs [_ ->]. by apply registry_do.
Qed.

(** ** Finding ports *)

(** A port of a registered switch. *)
Definition port_recorded (s : topology) (k : key) (x : ofpport) : Prop :=
  is_Some (od_get k.1 (dps s)) ∧ ∃ ps, od_get k.1 (port_state s) = Some ps ∧ od_get k.2 ps = Some x.

(** One that is not reserved, which [_get_port] finds. *)
Definition port_known (s : topology) (k : key) (x : ofpport) : Prop :=
  port_recorded s k x ∧ ∀ d, od_get k.1 (dps s) = Some d → port_no x ≤ OFPP_MAX (version d).

Lemma get_port_known s k x : registry_ok s → port_known s k x →
  ∃ p, _get_port k.1 k.2 s = ([], s, Ret (Some p)) ∧ p_key p = k.
Proof.
  intros Hs [[[d Hd] (ps & Hps & Hx)] Hres]. specialize (Hres d Hd).
  assert (∃ p, _get_port k.1 k.2 s = ([], s, Ret (Some p))) as [p Hp].
  2: { exists p. split; [done|]. rewrite (get_port_key _ _ _ _ Hp). by destruct k. }
  assert (_get_switch k.1 s = ([], s, Ret (Some (make_switch k.1 d ps)))) as E.
  { unfold _get_switch. rewrite get_bind, Hd.
    rewrite (run_bind (get_ports k.1) _ s [] s ps); [done|].
    unfold get_ports. rewrite get_bind, Hps. done. }
  unfold _get_port. rewrite (run_bind _ _ _ _ _ _ E).
  assert (is_Some (list_find (λ p, port_no (p_desc p) = k.2) (sw_ports (make_switch k.1 d ps)))) as [[i p] Hf].
  2: { exists p. by rewrite Hf. }
  apply (list_find_elem_of _ _ (Port k.1 (version d) x)).
  - cbn. apply list_elem_of_filter. split.
    + unfold is_reserved. cbn. apply Z.ltb_ge. lia.
    + apply list_elem_of_fmap. exists x. split; [done|]. apply list_elem_of_fmap. exists (k.2, x).
      split; [done|]. by apply od_get_elem.
  - cbn. apply (pk_no ps); [by apply (ro_ports s Hs k.1)|]. by apply od_get_elem.
Qed.

Lemma all_ports_run s l : (∀ d, d ∈ l → is_Some (od_get d (port_state s))) →
  ∃ sps, all_ports l s = ([], s, Ret sps) ∧ ∀ d ps, (d, ps) ∈ sps ↔ d ∈ l ∧ od_get d (port_state s) = Some ps.
Proof.
  induction l as [|d l IH]; intros Hl.
  { exists []. split; [done|]. set_solver. }
  destruct IH as (sps & E & Hsps); [intros d' Hd'; apply Hl; by right|].
  destruct (Hl d) as [ps Hps]; [by left|].
  exists ((d, ps) :: sps). split.
  - cbn [all_ports]. rewrite (run_bind _ _ s [] s ps).
    + rewrite (run_bind _ _ _ _ _ _ E). done.
    + unfold get_ports. rewrite get_bind, Hps. done.
  - intros d' ps'. rewrite !elem_of_cons, Hsps. split.
    + intros [[= -> ->]|[??]]; auto.
    + intros [[-> | Hd'] Hps']; [left; by simplify_eq|auto].
Qed.

Lemma find_in_switch (hw d : Z) (l : list ofpport) (acc : option key) :
  let r := foldl (λ found p, if p_hw_addr p =? hw then Some (d, port_no p) else found) acc l in
  (r = acc ∧ ∀ p, p ∈ l → p_hw_addr p ≠ hw) ∨ ∃ p, p ∈ l ∧ p_hw_addr p = hw ∧ r = Some (d, port_no p).
Proof.
  revert acc. induction l as [|p l IH]; intros acc; cbn.
  { left. split; [done|]. by intros p ?%not_elem_of_nil. }
  destruct (IH (if p_hw_addr p =? hw then Some (d, port_no p) else acc)) as [[E Hl]|(q & Hq & Hh & E)].
  - destruct (Z.eqb_spec (p_hw_addr p) hw) as [Hp|Hp].
    + right. exists p. split_and!; [by left|done|done].
    + left. split; [done|]. intros q [->|Hq]%elem_of_cons; [done|by apply Hl].
  - right. exists q. split_and!; [by right|done|done].
Qed.

(** The port whose address it is, when it is the only one. *)
Lemma find_source_unique (hw : Z) (sps : list (Z * odict Z ofpport)) (k : key) :
  (∃ ps p, (k.1, ps) ∈ sps ∧ p ∈ od_values ps ∧ p_hw_addr p = hw) →
  (∀ d ps p, (d, ps) ∈ sps → p ∈ od_values ps → p_hw_addr p = hw → (d, port_no p) = k) →
  find_source hw sps = Some k.
Proof.
  intros Hex Hun. unfold find_source.
  assert (∀ acc, (acc = None ∨ acc = Some k) →
    let r := foldl (λ found x, foldl (λ found p, if p_hw_addr p =? hw then Some (x.1, port_no p) else found)
      found (od_values x.2)) acc sps in r = Some k ∨ r = acc ∧ ∀ d ps p, (d, ps) ∈ sps → p ∈ od_values ps → p_hw_addr p ≠ hw) as H.
  { clear Hex. induction sps as [|[d ps] sps IH]; intros acc Hacc; cbn [foldl fst snd].
    { right. split; [done|]. by intros ? ? ? ?%not_elem_of_nil. }
    assert (∀ d ps p, (d, ps) ∈ sps → p ∈ od_values ps → p_hw_addr p = hw → (d, port_no p) = k) as Hun'
      by (intros d' ps' p' ?; apply Hun; by right).
    specialize (IH Hun').
    destruct (find_in_switch hw d (od_values ps) acc) as [[E Hl]|(q & Hq & Hh & E)]; rewrite E.
    - destruct (IH acc Hacc) as [E'|[E' Hl']]; [by left|]. right. split; [done|].
      intros d' ps' p' [[= -> ->]|Hin]%elem_of_cons; [apply Hl|by apply (Hl' d' ps')].
    - rewrite (Hun d ps q) by (done || by left). left.
      by destruct (IH (Some k) (or_intror eq_refl)) as [E'|[E' _]]. }
  destruct (H None (or_introl eq_refl)) as [E|[_ Hno]]; [done|].
  destruct Hex as (ps & p & Hin & Hp & Hh). by destruct (Hno _ _ _ Hin Hp).
Qed.

(** ** Learning a link *)

Lemma received_run s k : registry_ok s →
  ∃ t, try_with (call ports (lldp_received k))
         (λ e, if bool_decide (e = KeyError) then Some (mret tt) else None) s =
       ([], s <| ports := t |>, Ret tt) ∧ ∃ l, data_rep t l.
Proof.
  intros [_ _ (l & Hr)]. destruct (data_do_run (ports s) l (LldpReceived k) Hr) as (t & E & Ht).
  exists t. cbn [data_do] in E. unfold try_with, call. rewrite E. cbn [data_spec] in *.
  unfold known_key in *. destruct (od_get k l); cbn in *; (split; [done|by eexists]).
Qed.

Lemma after_link_done m d rev s : (∃ l, data_rep (ports s) l) →
  ∃ o s', after_link m d rev s = (o, s', Ret tt) ∧ links s' = links s ∧ ∀ l, EventLinkAdd l ∉ o.
Proof.
  intros (l & Hr). destruct (data_do_run (ports s) l (MoveFront d) Hr) as (t & E & _).
  cbn [data_do data_spec] in E. unfold after_link, _drop_packet.
  set (w := when (negb rev) (call ports (move_front d);; set_lldp_event)).
  assert (∃ s1, w s = ([], s1, Ret tt) ∧ links s1 = links s) as (s1 & E1 & El).
  { unfold w. destruct rev; cbn [negb when]; [by eexists|].
    eexists. erewrite run_bind by (unfold call; rewrite E; done). done. }
  rewrite (run_bind _ _ _ _ _ _ E1), get_bind.
  destruct (explicit_drop s1); cbn [when]; [|by eexists _, _; split_and!; [done|done|set_solver]].
  destruct (_ && _); cbn [when]; eexists _, _; split_and!; try done; set_solver.
Qed.

Lemma found_port_run s a b m now t :
  registry_ok s → ∀ y, port_known s b y → (∃ l, data_rep t l) → b = (m_dpid m, m_in_port m) →
  ∃ o s', (d ← _get_port (m_dpid m) (m_in_port m);
    match (d : option port) with
    | None => mret tt
    | Some d => link_seen now m a (p_key d)
    end) (s <| ports := t |>) = (updated_events a b (links s) ++ o, s', Ret tt) ∧
    links s' = updated now a b (links s) ∧ ∀ l, EventLinkAdd l ∉ o.
Proof.
  intros Hs y Hy Ht Hb. set (s1 := s <| ports := t |>).
  assert (registry_ok s1) as Hs1 by (destruct Hs; by split).
  assert (port_known s1 b y) as Hy1 by exact Hy.
  destruct (get_port_known s1 b y Hs1 Hy1) as (p & E & Hp). rewrite Hb in E. cbn [fst snd] in E.
  rewrite (run_bind _ _ _ _ _ _ E). cbn beta iota. rewrite Hp.
  destruct (link_seen_run now m a b s1) as (s2 & El & Ep & E2). rewrite E2.
  destruct (after_link_done m b (od_mem (Link b a) (stamps (updated now a b (links s1)))) s2) as (o & s3 & E3 & El3 & Ho).
  { rewrite Ep. exact Ht. }
  rewrite E3. exists o, s3. split_and!; [done|by rewrite El3|done].
Qed.

(** The run of the handler for such a packet. *)
Lemma lldp_run s now m a x b y :
  registry_ok s → link_discovery s = true → ethertype m = ETH_TYPE_LLDP → eth_src m ≠ 0 →
  m_version m = ofproto_v1_0_OFP_VERSION ∨ ofproto_v1_2_OFP_VERSION ≤ m_version m →
  port_known s a x → p_hw_addr x = eth_src m →
  (∀ k z, port_recorded s k z → p_hw_addr z = eth_src m → k = a) →
  b = (m_dpid m, m_in_port m) → port_known s b y → a.1 ≠ b.1 →
  ∃ o s', lldp_packet_in_handler now m s = (updated_events a b (links s) ++ o, s', Ret tt) ∧
    links s' = updated now a b (links s) ∧ ∀ l, EventLinkAdd l ∉ o.
Proof.
  intros Hs Hld Het Hsrc Hv Ha Hx Hun Hb Hy Hne. unfold lldp_packet_in_handler.
  rewrite get_bind, Hld, Het, Z.eqb_refl, (proj2 (Z.eqb_neq _ _) Hsrc). cbn [negb].
  destruct (all_ports_run s (od_keys (dps s))) as (sps & Esps & Hsps).
  { intros d Hd. apply (ro_known s Hs). by apply od_get_is_key. }
  rewrite (run_bind _ _ _ _ _ _ Esps).
  rewrite (find_source_unique (eth_src m) sps a).
  2: { destruct Ha as [[Hd (ps & Hps & Hxs)] _]. exists ps, x. split_and!; [|apply list_elem_of_fmap|done].
       - apply Hsps. split; [by apply od_get_is_key|done].
       - exists (a.2, x). split; [done|by apply od_get_elem]. }
  2: { intros d ps p [Hd Hps]%Hsps Hp Hh. apply list_elem_of_fmap in Hp as ([k q] & -> & Hq). cbn in *.
       destruct (ro_ports s Hs d ps Hps) as [Hok Hno]. rewrite (Hno k q Hq). apply (Hun (d, k) q); [|done].
       split; cbn; [by apply od_get_is_key|]. exists ps. split; [done|by apply od_elem_get]. }
  destruct a as [sd sn]. cbn [fst] in Hne.
  assert (dst_port_no m s = ([], s, Ret (m_in_port m))) as Ed.
  { unfold dst_port_no. destruct Hv as [->|Hv]; [done|]. rewrite (proj2 (Z.leb_le _ _) Hv), orb_true_r. done. }
  rewrite (run_bind _ _ _ _ _ _ Ed).
  destruct (get_port_known s (sd, sn) x Hs Ha) as (p & Ep & Hp). cbn [fst snd] in Ep.
  rewrite (run_bind _ _ _ _ _ _ Ep). cbn beta iota.
  assert (p_dpid p = sd) as Hpd by (unfold p_key in Hp; by simplify_eq).
  rewrite Hpd, (proj2 (Z.eqb_neq _ _)) by (rewrite Hb in Hne; done).
  destruct (received_run s (p_key p) Hs) as (t & Et & Ht). rewrite (run_bind _ _ _ _ _ _ Et).
  destruct (found_port_run s (p_key p) b m now t Hs y Hy Ht Hb) as (o & s' & E & El & Ho).
  rewrite Hp in *. exists o, s'. split_and!; [|done|done]. rewrite E. done.
Qed.

(** C25: An LLDP packet with the address of a port, which no other port has, that arrives at a
    port of another switch: the handler does not fail, the link between the two ports is recorded
    with the present time, the one port is the other's peer, no other link or peer changes, and
    the observers are told of a link exactly when it was not recorded before. *)
Theorem link_learned s v now m a x b y :
  topology_reachable (s, v) → link_discovery s = true → ethertype m = ETH_TYPE_LLDP → eth_src m ≠ 0 →
  m_version m = ofproto_v1_0_OFP_VERSION ∨ ofproto_v1_2_OFP_VERSION ≤ m_version m →
  port_known s a x → p_hw_addr x = eth_src m →
  (∀ k z, port_recorded s k z → p_hw_addr z = eth_src m → k = a) →
  b = (m_dpid m, m_in_port m) → port_known s b y → a.1 ≠ b.1 →
  let s' := final (lldp_packet_in_handler now m) s in
  result (lldp_packet_in_handler now m) s = Ret tt ∧
  (∀ l, od_get l (stamps (links s')) = if decide (l = Link a b) then Some now else od_get l (stamps (links s))) ∧
  (∀ k, od_get k (peers (links s')) = if decide (k = a) then Some b else od_get k (peers (links s))) ∧
  ∀ l, EventLinkAdd l ∈ outputs (lldp_packet_in_handler now m) s ↔
    l = Link a b ∧ od_get l (stamps (links s)) = None.
Proof.
  intros Hr Hld Het Hsrc Hv Ha Hx Hun Hb Hy Hne s'.
  destruct (lldp_run s now m a x b y (reachable_registry _ Hr) Hld Het Hsrc Hv Ha Hx Hun Hb Hy Hne) as (o & s2 & E & El & Ho).
  unfold s', final, result, outputs. rewrite E. cbn [fst snd]. rewrite El. split; [done|].
  split; [intros l; apply od_get_set|]. split; [intros k; apply od_get_set|].
  intros l. rewrite elem_of_app. unfold updated_events, od_mem. rewrite elem_of_app.
  split.
  - intros [[Hl|Hl]|Hl]; [| |by destruct (Ho l)].
    + exfalso. destruct (od_get a (peers (links s))); [|by apply not_elem_of_nil in Hl].
      destruct (bool_decide _); [by apply not_elem_of_nil in Hl|]. by apply list_elem_of_singleton in Hl.
    + destruct (od_get (Link a b) (stamps (links s))) eqn:Eg; cbn in Hl; [by apply not_elem_of_nil in Hl|].
      apply list_elem_of_singleton in Hl as [= ->]. done.
  - intros [-> Hn]. left; right. rewrite Hn. cbn. by left.
Qed.

(** ** An example *)

Module RegistryExamples.
Import TopologyExamples.

Definition joined : topology * gset link := run [joins 1; joins 2].

Lemma joined_recorded k z : port_recorded joined.1 k z → p_hw_addr z = 17 → k = (1, 1).
Proof.
  destruct k as [d no]. intros [_ (ps & Hps & Hz)] Hh. cbn [fst snd] in *.
  assert (d = 1 ∧ ps = dp_ports (switch_at 1 1) ∨ d = 2 ∧ ps = dp_ports (switch_at 2 2)) as Hd.
  { revert Hps. change (port_state joined.1) with [(1, dp_ports (switch_at 1 1)); (2, dp_ports (switch_at 2 2))].
    cbn. repeat case_decide; naive_solver. }
  destruct Hd as [[-> ->]|[-> ->]]; cbn in Hz; repeat case_decide; naive_solver.
Qed.

Lemma link_learned_witness :
  let s' := final (lldp_packet_in_handler 5 (lldp 1 2)) joined.1 in
  result (lldp_packet_in_handler 5 (lldp 1 2)) joined.1 = Ret tt ∧
  (∀ l, od_get l (stamps (links s')) =
     if decide (l = Link (1, 1) (2, 1)) then Some 5 else od_get l (stamps (links joined.1))) ∧
  (∀ k, od_get k (peers (links s')) = if decide (k = (1, 1)) then Some (2, 1) else od_get k (peers (links joined.1))) ∧
  ∀ l, EventLinkAdd l ∈ outputs (lldp_packet_in_handler 5 (lldp 1 2)) joined.1 ↔
    l = Link (1, 1) (2, 1) ∧ od_get l (stamps (links joined.1)) = None.
Proof.
  apply (link_learned joined.1 joined.2 5 (lldp 1 2) (1, 1) (port_at 1 17) (2, 1) (port_at 1 33)).
  - apply (run_reachable [joins 1; joins 2]).
  - reflexivity.
  - reflexivity.
  - discriminate.
  - right. discriminate.
  - split; [split; [by eexists|by eexists]|]. intros d [= <-]. discriminate.
  - reflexivity.
  - exact joined_recorded.
  - reflexivity.
  - split; [split; [by eexists|by eexists]|]. intros d [= <-]. discriminate.
  - discriminate.
Defined.
End RegistryExamples.
